(* ===== verification/_CoqProject ===== *)
-Q . S2P
Prelude.v
CString.v
Prefix.v
Inet.v
PrefixText.v
Table.v
Stream.v
StreamFifo.v
Aspath.v
AspathNormal.v
AspathWire.v
AspathOps.v
AspathText.v
BgpDecision.v
BgpDecisionProofs.v
BgpSelection.v
Pqueue.v
PqueueProofs.v
OspfLsdb.v
OspfLsdbProofs.v
Thread.v
ThreadLists.v
ThreadProofs.v
ThreadFetch.v
ThreadClients.v
Checksum.v
OspfNeighbor.v
OspfFsm.v
OspfPacket.v
OspfElection.v
OspfInv.v
OspfNsm.v
OspfSteps.v
OspfSafety.v
OspfClaims.v
OspfLsaWire.v
OspfSpfTypes.v
OspfRoute.v
OspfSpf.v
PqueueSim.v
OspfSpfQueue.v
OspfLsaProofs.v
OspfSpfNexthop.v
OspfSpfInv.v
OspfSpfRelax.v
OspfSpfNext.v
OspfSpfLoop.v
OspfSpfHeap.v
OspfSpfTable.v
OspfSpfStubs.v
OspfSpfFree.v
OspfSpfCalculate.v
OspfSpfTimer.v
OspfSpfExample.v
OspfSpfClaims.v
DList.v
Plist.v
PlistCmd.v
PlistRep.v
PlistEntry.v
PlistLists.v
PlistRefine.v
PlistOps.v
PlistRules.v
PlistClaims.v
BgpOrf.v
BgpOrfSent.v
BgpOrfReceived.v
BgpOrfClaims.v
Command.v
CommandProofs.v
CommandConfig.v
CommandClaims.v
PlistConfig.v
PlistConfigWords.v
PlistConfigArgs.v
PlistConfigText.v
PlistConfigRead.v
PlistConfigClaims.v
