(* ===== verification/Prelude.v ===== *)
(** * Verification of the routing core of SdnQuagga (Distributedquagga-0.99.21)

    Quagga is a suite of routing daemons (zebra, bgpd, ospfd, ospf6d, ripd, ripngd, isisd) around a common library, lib/.
    Every daemon is one process that runs the cooperative scheduler of lib/thread.c: packets, timers and events become threads, and the
    handlers they run read and write packets through the byte streams of lib/stream.c, keep routes in the radix tree of lib/table.c under
    the prefixes of lib/prefix.c, and decide: bgpd which of several routes is the best (bgpd/bgp_route.c, on the AS paths of
    bgpd/bgp_aspath.c), ospfd which routers are adjacent and which one represents a network (ospfd/ospf_ism.c, ospf_nsm.c), and, from the link state
    database of ospfd/ospf_lsdb.c, the shortest paths to everything in an area (ospfd/ospf_spf.c, ospf_route.c).  Routes are filtered by the prefix lists of lib/plist.c, which bgpd also
    sends to its neighbours; they are configured with the commands of lib/command.c, typed on a terminal or read from a file the daemon saved before.
    This development models these parts; file names below are relative to src/Distributedquagga-0.99.21/.

    ** How C is modelled

    A C function is a Rocq function into [res] (this file): [Ok], a failed [assert] ([Abort]), or undefined behaviour ([Oob]: an access
    outside an object, a pointer to freed memory, and where it matters a signed overflow).  Machine integers are [Z] with their wrap-around
    written out ([wrap], [u8] .. [u64], [signed]); bytes are [Z] below 256.  Where objects are shared or linked (table nodes, LSAs, threads,
    streams in a queue, neighbours) the model has a heap, a [gmap] from pointers to records, and following a dangling pointer is [Oob].  All
    operations are executable.  Code outside the repository is a parameter: the platform's inet_aton, inet_ntop, inet_pton are the class [InetText] with
    the laws [Inet4Laws] (file Inet; the fallbacks of lib/sockunion.c are an instance), select(2) and the clocks are arguments of
    [thread_fetch], the comparison and callback of a priority queue are arguments with the class [CmpOrder].

    ** Files and what their theorems show

    - Prelude: [res], machine integers, flag words, bytes and bits, big-endian numbers.  CString: the C string functions the code uses.
    - Prefix (lib/prefix.c), Inet (lib/sockunion.c), PrefixText (the text functions of lib/prefix.c): [prefix_match] decides containment,
      masks and their lengths are inverse, prefixes survive printing and reading; /256 and more are accepted (a defect).
    - Table (lib/table.c): the radix tree with parent links and reference counts.  Every table clients can build is well formed
      ([table_inv], by rule induction on the client's calls); longest-prefix match, exact lookup, insertion and release do what they
      promise on it.
    - Stream, StreamFifo (lib/stream.c): no sequence of calls leaves the buffer, but for one exact case, where [stream_put_prefix] writes one byte past the end
      (a defect); fields are read back as they were written; the linked queue refines a list.
    - Aspath, AspathNormal, AspathWire, AspathOps, AspathText (bgpd/bgp_aspath.c): normal form, wire round trip (of paths whose segments and numbers fit) and text round trip, prepending,
      aggregation, reconciliation; three defects in rare cases.
    - BgpDecision, BgpDecisionProofs, BgpSelection (bgpd/bgp_route.c): [bgp_info_cmp] and [bgp_best_selection] for maximum-paths 1.  With MEDs compared
      between all routes and router ids compared, with or without deterministic-med, the selected route is the optimum of a lexicographic key; under any configuration only usable routes are selected
      and the pass marks are cleaned up; the comparison has a cycle by default.
    - Pqueue, PqueueProofs (lib/pqueue.c): the heap refines a multiset with extract-minimum.
    - OspfLsdb, OspfLsdbProofs (ospfd/ospf_lsdb.c, the LSA reference counts of ospf_lsa.c): a database is a finite map with exact counters,
      checksums and reference counts after any history of calls.
    - Thread, ThreadLists, ThreadProofs, ThreadFetch, ThreadClients (lib/thread.c): seven doubly linked lists.  No call fails whatever came
      before, if a cancelled thread came from the scheduler and watched descriptors are below FD_SETSIZE, which the code does not check (a defect); a ready thread is handed out within as many fetches as there are threads before it; cancelling the events of an object
      misses those that are ready (a defect).
    - Checksum (lib/checksum.c, isisd/iso_checksum.c, ospf_lsa_checksum): the Fletcher checksum never overflows and satisfies ISO 8473, the
      check of LSAs decides exactly that condition, the Internet checksum is independent of the byte order and checks itself;
      [iso_csum_verify] accepts every checksum without a zero byte (a defect).
    - OspfNeighbor, OspfFsm, OspfPacket (ospfd/ospf_neighbor.c, ospf_ism.c, ospf_nsm.c, ospf_interface.c, ospf_packet.c): one interface with its
      neighbours, alone in its area, whose counters are those of the interface: both transition tables and their functions, the election of the designated router, Hello and Database Description packets,
      the timers and the event queue; [step] is one thing that happens to the interface.  OspfElection, OspfInv, OspfNsm, OspfSteps, OspfSafety prove the invariant [inv] step by step, OspfClaims states the results: every step returns (no freed
      neighbour, no failed assertion) but the event of a freed neighbour that is already ready; without it, and without a new router id on a virtual link, counters, network-LSA, timers and lists agree with the states, an election gives one role and elects
      eligible routers only, a settled network is not preempted, an interface that goes down forgets its neighbours; and three defects: an
      event of a freed neighbour, a newer LSA that is not requested, a stale table entry after a change of the router id.

    - OspfLsaWire, OspfSpfTypes, OspfRoute, OspfSpf, OspfSpfTimer (ospfd/ospf_spf.c, ospf_route.c, the lookups and virtual links of ospf_interface.c,
      [ospf_packet_examin] of ospf_packet.c): LSAs as bytes, their examination, and the whole shortest path calculation with its memory: vertices
      and next hops in a heap, the candidate queue of Pqueue with [lsa->stat] as its positions, routes to routers, transit and stub
      networks, cleanup; the timer over all areas and its back-off.  PqueueSim, OspfSpfQueue: the queue stays a heap while distances decrease.
      OspfLsaProofs: what examination guarantees about loops over an LSA.  OspfSpfNexthop,
      OspfSpfInv, OspfSpfRelax, OspfSpfNext, OspfSpfLoop: the next hops as a relation ([first_hop], [spf_hop]) and that the code computes them, the database as a graph and its paths, the invariant of Dijkstra's algorithm, with the next hops of tight edges, kept
      by every link, vertex and turn.  OspfSpfHeap, OspfSpfTable: memory and routes.  OspfSpfStubs, OspfSpfFree,
      OspfSpfCalculate: the three stages.  OspfSpfExample: the conditions decided on a concrete area.  OspfSpfClaims: on well formed databases
      ([env_ok], below; for the whole calculation also without TOS metrics) the calculation returns, distances are least costs, parents carry exactly the next hops of shortest paths when no
      link costs 0, routes have least costs; runs are spaced; and the defects: LSAs that pass examination and crash the calculation, a route to an own network that is lost, reads beyond a packet.

    - DList: doubly linked nodes in a heap.  Plist, PlistCmd (lib/plist.c): prefix lists, the rules by which every daemon filters routes, with the functions
      behind the commands.  PlistRep: what they implement, finite maps from names to ordered rules, and
      how pointers represent it.  PlistEntry, PlistLists, PlistRefine, PlistOps: the
      representation invariant [rep] and that every operation refines its specification; PlistRules: what rules mean.  PlistClaims: every history of calls refines the
      specification, entries stay sorted, unique and linked, stored rules are well formed, the first match decides, a rule is taken back with the words it was given with; and one
      kind of rule that cannot be (a defect).
    - BgpOrf, BgpOrfSent, BgpOrfReceived, BgpOrfClaims (the route refresh messages of bgpd/bgp_packet.c): a router sends its prefix list to a neighbour.  Reading such a
      message is safe whatever its bytes, unless its entries bring the automatic sequence numbers beyond an [int] (a defect); what is sent is what is received; the request to remove a filter is not heard (a defect).

    - Command (lib/command.c, the configuration lock of lib/vty.c): command strings and lines cut into words, the eight tests of a word against an alternative (keyword, variable, option, range, addresses
      and prefixes), the choice of the strongest match, ambiguity, the arguments, execution in a node and in its parents, files, the commands that change the node.  CommandProofs: the
      narrowing filters select exactly the candidates of a one-pass reference definition, whatever the order of installation.  CommandConfig: words of a line, lines of a file, every search and file ends.
      Also there: stepping a table of commands along a line whose words are keywords.  CommandClaims: a line runs a command exactly if it is
      the only best candidate, and with which arguments; the order of installation does not matter; a file without end and exit is read to its end; with them the daemon may abort (a defect).
    - PlistConfig (the commands and the saved configuration of lib/plist.c): the commands of both address families as they are installed, each with its string and its function, and the function that writes the lists
      as lines.  PlistConfigArgs: no command reads an argument the engine did not pass.  PlistConfigWords, PlistConfigText, PlistConfigRead: each written line is cut into the words it was
      made of, selects the command it is meant for and gives its arguments.  PlistConfigClaims: reading the saved configuration into a daemon without lists restores every IPv4 list that can be saved ([savable_list]), with its description; a sequence number above 2^31 is saved as a line no daemon reads (a defect).

    How the parts meet: AspathWire is proved against the streams of Stream, PrefixText against the interface of Inet, the events of
    OspfNeighbor follow the two lists of Thread ([event_q], [ready_q]), whose defect reappears as [ospf_stale_event_fault]; OspfNeighbor compares LSAs with
    the functions of OspfLsdb.  A neighbour table is the association list a route table of Table implements.  The shortest path
    calculation runs on the model of Pqueue and is proved with its theorems, through a simulation that keeps positions in the LSAs.  Its condition [env_ok] on the
    database has three parts: examined LSAs, in the table of their type, under their key, which [ospf_packet_examin] and [ospf_lsdb_add] establish; metrics other than 0 on the router's own links that are not stub links, which nothing
    in ospfd establishes, and without which the calculation aborts (theorem [spf_examined_lsas_fault]); and a number of LSAs times 65535 below 2^31, so that no cost wraps around.
    BgpOrf writes with Stream and reads into the prefix lists of Plist, whose theorems its proofs use; prefixes are matched with [prefix_match] of Prefix.
    The round trip of PlistConfigClaims goes through four components: the text of PlistConfig, the files and lines of CommandConfig, the selection of CommandProofs, the operations of PlistOps, with addresses
    printed and read through the interface [InetText] of Inet (the class [Inet4Dotted] adds that addresses are printed as dotted numbers, which the command tests demand).

    ** Bounds and fuel

    Recursion that is not structural has fuel, and running out of it is [Oob] (but for [timeval_adjust], whose theorem shows that it does
    not run out), so a theorem that says [Ok] also says the fuel is enough: walks of
    a table 257 (a path has at most 129 nodes), [parse_loop] and [aspath_str2aspath] the length of their input, [put_loop] the number of
    segments, the heap loops index + 1 and size + 1, the queue and thread loops the number of nodes + 1, [timeval_adjust] the quotient + 2,
    [add_blocks] the length + 1, loops over an LSA the number of its bytes + 1, the loop and the recursions of the shortest path calculation
    the number of LSAs + 1 (every turn adds an LSA to the tree, children joined it after their parents), walks of linked nodes the size of the heap + 1, the loops over an ORF its length + 1, the words of a command string or line their characters + 1, the lines of a file its
    characters (each line takes one), the parents of a node 3 (no node is deeper than 2), [thread_execute] 3 levels (an interface event kills neighbours, which make the interface elect).  Counters of
    type [unsigned long] and reference counts are unbounded.

    ** Not modelled

    Terminal and logging code (lib/vty.c, vtysh/, lib/log.c, lib/memory.c): I/O and tables; of lib/command.c help and completion while typing, passwords, banners and logging commands.
    Only the commands of lib/plist.c are modelled as commands, those of the daemons are not; the show commands of lib/plist.c only print.  zebra's kernel
    interface: system calls.  In the modelled files: socket I/O, debugging output, statistics, teardown functions that only return memory; the NBMA branches of ospfd's handlers (an interface of that
    type can be created and is then treated without them), several interfaces in an area, multipath selection of bgpd, authentication, and the link state request, update and acknowledgement packets of ospfd (their effect on a neighbour is the step
    [Traffic]); inter-area and external routes (ospf_ia.c, ospf_ase.c) and the installation of routes.  Whole daemons not modelled: ospf6d, ripd, ripngd, isisd but for its checksum, watchquagga.

    ** Plan

    Next: the commands and saved configuration of lib/filter.c and lib/routemap.c, which use the same engine; the order in which [route_next] visits a table (modelled, not proved yet), the rest of ospfd's packets and flooding,
    inter-area routes, bgpd's session state machine and attribute parsing, and the containers of lib/. *)

From stdpp Require Export base tactics list gmap numbers.
From Stdlib Require Export ZArith Lia Bool.

Global Open Scope Z_scope.

(** ** Outcomes of C code

    A C function either returns ([Ok]), fails an [assert] ([Abort]; lib/zassert.h
    maps [assert] to [_zlog_assert_failed], which does not return), or performs an
    access outside its object ([Oob]), which C leaves undefined. *)

Inductive res (A : Type) : Type :=
| Ok (a : A)
| Abort
| Oob.
Arguments Ok {A} _.
Arguments Abort {A}.
Arguments Oob {A}.

Global Instance res_ret : MRet res := @Ok.
Global Instance res_bind : MBind res := fun A B f m =>
  match m with Ok a => f a | Abort => Abort | Oob => Oob end.
Global Instance res_fmap : FMap res := fun A B f m =>
  match m with Ok a => Ok (f a) | Abort => Abort | Oob => Oob end.

(** [assert (b)] *)
Definition c_assert (b : bool) : res unit := if b then Ok tt else Abort.

Lemma bind_Ok {A B} (m : res A) (f : A -> res B) b :
  (m ≫= f) = Ok b <-> exists a, m = Ok a /\ f a = Ok b.
Proof. destruct m; cbn; naive_solver. Qed.

Lemma bind_ret {T U} (a : T) (f : T -> res U) : (Ok a ≫= f) = f a.
Proof. done. Qed.

Lemma c_assert_Ok b u : c_assert b = Ok u <-> b = true.
Proof. destruct b, u; cbn; naive_solver. Qed.

(** ** Machine integers: a [w]-bit unsigned integer is a [Z] reduced modulo [2^w] *)

Definition wrap (w z : Z) : Z := z mod 2 ^ w.
Notation u8 := (wrap 8).
Notation u16 := (wrap 16).
Notation u32 := (wrap 32).
Notation u64 := (wrap 64).

Definition in_u (w z : Z) : Prop := 0 <= z < 2 ^ w.

Lemma wrap_small w z : in_u w z -> wrap w z = z.
Proof. intros H. by apply Z.mod_small. Qed.

Lemma wrap_range w z : 0 <= w -> in_u w (wrap w z).
Proof. intros H. apply Z.mod_pos_bound. by apply Z.pow_pos_nonneg. Qed.

(** ** Flag words (lib/zebra.h) *)

Definition CHECK_FLAG (v f : Z) : bool := negb (Z.land v f =? 0).
Definition SET_FLAG (v f : Z) : Z := Z.lor v f.
Definition UNSET_FLAG (v f : Z) : Z := Z.ldiff v f.

Lemma check_bit v n : 0 <= n -> CHECK_FLAG v (2 ^ n) = Z.testbit v n.
Proof.
  intros Hn. unfold CHECK_FLAG. destruct (Z.testbit v n) eqn:E.
  - destruct (Z.eqb_spec (Z.land v (2 ^ n)) 0) as [H | H]; [| done].
    assert (Z.testbit (Z.land v (2 ^ n)) n = false) as Ht by (rewrite H; apply Z.bits_0).
    rewrite Z.land_spec, E, Z.pow2_bits_true in Ht by done. done.
  - assert (Z.land v (2 ^ n) = 0) as ->; [| done]. apply Z.bits_inj'. intros k Hk.
    rewrite Z.land_spec, Z.bits_0, Z.pow2_bits_eqb by done.
    destruct (Z.eqb_spec n k) as [<- |]; [by rewrite E | apply andb_false_r].
Qed.

Lemma check_set v f n : 0 <= n -> CHECK_FLAG (SET_FLAG v f) (2 ^ n) = CHECK_FLAG v (2 ^ n) || CHECK_FLAG f (2 ^ n).
Proof. intros Hn. by rewrite !check_bit, <- Z.lor_spec. Qed.

Lemma check_unset v f n : 0 <= n -> CHECK_FLAG (UNSET_FLAG v f) (2 ^ n) = CHECK_FLAG v (2 ^ n) && negb (CHECK_FLAG f (2 ^ n)).
Proof. intros Hn. by rewrite !check_bit, <- Z.ldiff_spec. Qed.

(** A [w]-bit word read as a signed integer. *)
Definition signed (w z : Z) : Z := let u := wrap w z in if u <? 2 ^ (w - 1) then u else u - 2 ^ w.

(** ** Byte strings *)

Definition byte_ok (b : Z) : Prop := 0 <= b < 256.
Definition bytes_ok (l : list Z) : Prop := Forall byte_ok l.

(** [byte_at l i] is [l[i]] of a byte array; positions outside read 0, and every use is
    shown to stay inside by the component that makes it. *)
Definition byte_at (l : list Z) (i : Z) : Z := nth (Z.to_nat i) l 0.

(** Bit [i] of a byte string in network order: bit 0 is the top bit of byte 0. *)
Definition bit_at (l : list Z) (i : Z) : bool :=
  Z.testbit (byte_at l (i / 8)) (7 - i mod 8).

Lemma byte_at_ok l i : bytes_ok l -> byte_ok (byte_at l i).
Proof.
  intros H. unfold byte_at. destruct (nth_in_or_default (Z.to_nat i) l 0) as [Hin | ->].
  - apply (proj1 (List.Forall_forall _ _) H _ Hin).
  - split; lia.
Qed.

Lemma byte_at_app_l l1 l2 i :
  0 <= i < Z.of_nat (length l1) -> byte_at (l1 ++ l2) i = byte_at l1 i.
Proof. intros H. unfold byte_at. apply app_nth1. lia. Qed.

Lemma byte_at_app_r l1 l2 i :
  Z.of_nat (length l1) <= i ->
  byte_at (l1 ++ l2) i = byte_at l2 (i - Z.of_nat (length l1)).
Proof.
  intros H. unfold byte_at. rewrite app_nth2 by lia. f_equal. lia.
Qed.

Lemma byte_at_default l i : Z.of_nat (length l) <= i -> byte_at l i = 0.
Proof. intros H. apply nth_overflow. lia. Qed.

Lemma byte_at_ext l1 l2 :
  length l1 = length l2 ->
  (forall i, 0 <= i < Z.of_nat (length l1) -> byte_at l1 i = byte_at l2 i) -> l1 = l2.
Proof.
  intros Hl H. apply (nth_ext l1 l2 0 0 Hl). intros n Hn.
  specialize (H (Z.of_nat n)). unfold byte_at in H. rewrite Nat2Z.id in H. apply H. lia.
Qed.

Lemma byte_at_take l n i : 0 <= i < Z.of_nat n -> byte_at (take n l) i = byte_at l i.
Proof.
  intros H. destruct (decide (i < Z.of_nat (length (take n l)))) as [Hi | Hi].
  - rewrite <- (take_drop n l) at 2. by rewrite byte_at_app_l by lia.
  - rewrite length_take in Hi. rewrite !byte_at_default; rewrite ?length_take; lia.
Qed.

Lemma byte_at_drop l n i : 0 <= i -> byte_at (drop n l) i = byte_at l (i + Z.of_nat n).
Proof.
  intros H. unfold byte_at. rewrite nth_skipn. f_equal. lia.
Qed.

(** ** Bits of a byte *)

Lemma testbit_byte_high b k : byte_ok b -> 8 <= k -> Z.testbit b k = false.
Proof.
  intros Hb Hk. rewrite <- (Z.mod_small b (2 ^ 8)) by (unfold byte_ok in *; lia).
  by apply Z.mod_pow2_bits_high.
Qed.

Lemma byte_ext a b :
  byte_ok a -> byte_ok b ->
  (forall k, 0 <= k < 8 -> Z.testbit a k = Z.testbit b k) -> a = b.
Proof.
  intros Ha Hb H. apply Z.bits_inj'. intros k Hk.
  destruct (decide (k < 8)); [apply H; lia |].
  rewrite !testbit_byte_high by (done || lia). done.
Qed.

Lemma byte_ok_bits b : 0 <= b -> (forall k, 8 <= k -> Z.testbit b k = false) -> byte_ok b.
Proof.
  intros Hb H. split; [done |].
  assert (b = b mod 2 ^ 8) as ->; [| apply (Z.mod_pos_bound b (2 ^ 8)); lia].
  apply Z.bits_inj'. intros k Hk. destruct (decide (k < 8)).
  - rewrite Z.mod_pow2_bits_low by lia. done.
  - rewrite Z.mod_pow2_bits_high by lia. apply H. lia.
Qed.

Lemma byte_ok_land a b : byte_ok a -> 0 <= b -> byte_ok (Z.land a b).
Proof.
  intros Ha Hb. apply byte_ok_bits.
  - apply Z.land_nonneg. left. apply Ha.
  - intros k Hk. by rewrite Z.land_spec, (testbit_byte_high a).
Qed.

Lemma byte_ok_lxor a b : byte_ok a -> byte_ok b -> byte_ok (Z.lxor a b).
Proof.
  intros Ha Hb. apply byte_ok_bits.
  - apply Z.lxor_nonneg. unfold byte_ok in *. lia.
  - intros k Hk. by rewrite Z.lxor_spec, !testbit_byte_high.
Qed.

Lemma byte_ok_lor a b : byte_ok a -> byte_ok b -> byte_ok (Z.lor a b).
Proof.
  intros Ha Hb. apply byte_ok_bits.
  - apply Z.lor_nonneg. unfold byte_ok in *. lia.
  - intros k Hk. by rewrite Z.lor_spec, !testbit_byte_high.
Qed.

(** A mask has no bit in common with [x] exactly when [x] is 0 wherever the mask is 1. *)
Lemma land_eq_0_bits m x :
  Z.land m x = 0 <-> forall k, 0 <= k -> Z.testbit m k = true -> Z.testbit x k = false.
Proof.
  split.
  - intros H k Hk Hm. assert (Z.testbit (Z.land m x) k = false) as Ht by (rewrite H; apply Z.bits_0).
    rewrite Z.land_spec, Hm in Ht. done.
  - intros H. apply Z.bits_inj'. intros k Hk. rewrite Z.land_spec, Z.bits_0.
    destruct (Z.testbit m k) eqn:Hm; [by rewrite (H k) | done].
Qed.

(** ** Checking a decidable fact on a range of integers by evaluation *)

Definition check_range (P : Z -> bool) (lo : Z) (n : nat) : bool :=
  forallb (fun i => P (lo + Z.of_nat i)) (seq 0 n).

Lemma check_range_spec P lo n :
  check_range P lo n = true -> forall z, lo <= z < lo + Z.of_nat n -> P z = true.
Proof.
  unfold check_range. rewrite forallb_forall. intros H z Hz.
  replace z with (lo + Z.of_nat (Z.to_nat (z - lo))) by lia.
  apply H. apply in_seq. lia.
Qed.

(** Prove [P z] for [z] in a concrete range, [P] boolean, by evaluating [P] on the range. *)
Ltac by_range P lo n z :=
  apply (check_range_spec P lo n); [vm_compute; reflexivity | lia].

(** Closed comparisons of integers, and conjunctions of them, by evaluation. *)
Ltac z_eval := unfold in_u, byte_ok; repeat match goal with |- _ /\ _ => split end;
  vm_compute; first [reflexivity | discriminate].

(** ** Big-endian encodings *)

(** The [n] bytes of [z], most significant first: [(u_char)(z >> 8*(n-1))], ..., [(u_char) z]. *)
Fixpoint be_bytes (n : nat) (z : Z) : list Z :=
  match n with
  | O => []
  | S n' => u8 (Z.shiftr z (8 * Z.of_nat n')) :: be_bytes n' z
  end.

(** The value of a byte string read most significant byte first. *)
Fixpoint be_val_acc (acc : Z) (l : list Z) : Z :=
  match l with
  | [] => acc
  | b :: l' => be_val_acc (Z.lor (Z.shiftl acc 8) b) l'
  end.
Definition be_val (l : list Z) : Z := be_val_acc 0 l.

Lemma length_be_bytes n z : length (be_bytes n z) = n.
Proof. induction n; cbn; congruence. Qed.

Lemma be_bytes_ok n z : bytes_ok (be_bytes n z).
Proof.
  induction n as [|n IH]; constructor; [| exact IH].
  apply (wrap_range 8); lia.
Qed.

Lemma land_shiftl_small a b w : 0 <= w -> 0 <= b < 2 ^ w -> Z.land (Z.shiftl a w) b = 0.
Proof.
  intros Hw Hb. apply Z.bits_inj'. intros k Hk.
  rewrite <- (Z.mod_small b (2 ^ w)), Z.land_spec, Z.bits_0 by done.
  destruct (decide (k < w)).
  - by rewrite Z.shiftl_spec_low by lia.
  - rewrite Z.mod_pow2_bits_high by lia. apply andb_false_r.
Qed.

Lemma lor_shiftl_add a b w : 0 <= w -> 0 <= b < 2 ^ w -> Z.lor (Z.shiftl a w) b = a * 2 ^ w + b.
Proof.
  intros Hw Hb. rewrite <- Z.lxor_lor, <- Z.add_nocarry_lxor by by apply land_shiftl_small.
  by rewrite Z.shiftl_mul_pow2.
Qed.

Lemma be_val_acc_bound acc l n :
  bytes_ok l -> 0 <= acc < 2 ^ n -> 0 <= n ->
  0 <= be_val_acc acc l < 2 ^ (n + 8 * Z.of_nat (length l)).
Proof.
  revert acc n. induction l as [|b l IH]; intros acc n Hl Ha Hn; cbn [be_val_acc length].
  - by rewrite Z.add_0_r.
  - inversion Hl; subst. rewrite lor_shiftl_add by (unfold byte_ok in *; lia).
    replace (n + 8 * Z.of_nat (S (length l))) with ((n + 8) + 8 * Z.of_nat (length l)) by lia.
    apply IH; [done | | lia]. rewrite Z.pow_add_r by lia. unfold byte_ok in *. nia.
Qed.

Lemma be_val_bound l : bytes_ok l -> in_u (8 * Z.of_nat (length l)) (be_val l).
Proof.
  intros Hl. apply (be_val_acc_bound 0 l 0) in Hl; [| lia | lia]. exact Hl.
Qed.

Lemma be_val_acc_be_bytes n z acc :
  0 <= z -> be_val_acc acc (be_bytes n z) = acc * 2 ^ (8 * Z.of_nat n) + z mod 2 ^ (8 * Z.of_nat n).
Proof.
  intros Hz. revert acc. induction n as [|n IH]; intros acc; cbn [be_bytes be_val_acc].
  - rewrite Z.mul_0_r, Z.pow_0_r, Z.mod_1_r. lia.
  - rewrite IH, lor_shiftl_add by (try apply (wrap_range 8); lia).
    unfold wrap. rewrite Z.shiftr_div_pow2 by lia.
    replace (8 * Z.of_nat (S n)) with (8 * Z.of_nat n + 8) by lia.
    assert (0 < 2 ^ (8 * Z.of_nat n)) by (apply Z.pow_pos_nonneg; lia).
    rewrite Z.pow_add_r, (Z.rem_mul_r z) by lia. ring.
Qed.

Lemma be_val_be_bytes n z : in_u (8 * Z.of_nat n) z -> be_val (be_bytes n z) = z.
Proof.
  intros Hz. unfold be_val. rewrite be_val_acc_be_bytes by apply Hz.
  by rewrite Z.mod_small.
Qed.

Lemma byte_at_be_bytes n z i :
  0 <= i < Z.of_nat n -> byte_at (be_bytes n z) i = u8 (Z.shiftr z (8 * (Z.of_nat n - 1 - i))).
Proof.
  revert i. induction n as [|n IH]; intros i Hi; [lia |].
  cbn [be_bytes]. destruct (decide (i = 0)) as [-> | Hne].
  - cbn. do 2 f_equal. lia.
  - replace (byte_at (_ :: be_bytes n z) i) with (byte_at (be_bytes n z) (i - 1)).
    + rewrite IH by lia. do 2 f_equal. lia.
    + unfold byte_at. replace (Z.to_nat i) with (S (Z.to_nat (i - 1))) by lia. done.
Qed.

Lemma bit_at_be_bytes n z i :
  0 <= i < 8 * Z.of_nat n -> bit_at (be_bytes n z) i = Z.testbit z (8 * Z.of_nat n - 1 - i).
Proof.
  intros Hi. unfold bit_at.
  pose proof (Z.div_mod i 8). pose proof (Z.mod_pos_bound i 8).
  rewrite byte_at_be_bytes by lia.
  unfold wrap. rewrite Z.mod_pow2_bits_low, Z.shiftr_spec by lia. f_equal. lia.
Qed.

Lemma be_val_acc_split acc l :
  bytes_ok l -> be_val_acc acc l = acc * 2 ^ (8 * Z.of_nat (length l)) + be_val l.
Proof.
  unfold be_val. revert acc. induction l as [|b l IH]; intros acc Hl; cbn [be_val_acc length].
  - lia.
  - inversion Hl; subst. rewrite IH, (IH (Z.lor _ _)) by done.
    rewrite !lor_shiftl_add by (unfold byte_ok in *; lia).
    replace (8 * Z.of_nat (S (length l))) with (8 * Z.of_nat (length l) + 8) by lia.
    rewrite Z.pow_add_r by lia. ring.
Qed.

Lemma be_bytes_mod n z m :
  8 * Z.of_nat n <= m -> be_bytes n (z mod 2 ^ m) = be_bytes n z.
Proof.
  induction n as [|n IH]; intros Hm; [done |]. cbn [be_bytes]. rewrite IH by lia. f_equal.
  unfold wrap. apply Z.bits_inj'. intros k Hk. destruct (decide (k < 8)).
  - rewrite !Z.mod_pow2_bits_low, !Z.shiftr_spec, Z.mod_pow2_bits_low by lia. done.
  - rewrite !Z.mod_pow2_bits_high by lia. done.
Qed.

Lemma be_bytes_be_val l : bytes_ok l -> be_bytes (length l) (be_val l) = l.
Proof.
  induction l as [|b l IH]; intros Hl; [done |]. inversion Hl as [|?? Hb Hl']; subst.
  assert (be_val (b :: l) = b * 2 ^ (8 * Z.of_nat (length l)) + be_val l) as E.
  { unfold be_val. cbn [be_val_acc]. rewrite be_val_acc_split by done. cbn. done. }
  pose proof (be_val_bound l Hl') as Hv. unfold in_u in Hv.
  rewrite E. cbn [length be_bytes]. f_equal.
  - rewrite Z.shiftr_div_pow2, Z.div_add_l, (Z.div_small (be_val l)) by lia.
    rewrite Z.add_0_r. by apply (wrap_small 8).
  - rewrite <- (be_bytes_mod _ _ (8 * Z.of_nat (length l))) by lia.
    rewrite Z.add_comm, Z.mod_add, Z.mod_small by lia. by apply IH.
Qed.

Lemma byte_at_insert l i x j :
  (i < length l)%nat -> 0 <= j ->
  byte_at (<[i := x]> l) j = if j =? Z.of_nat i then x else byte_at l j.
Proof.
  intros Hi Hj. unfold byte_at.
  rewrite !nth_lookup. destruct (Z.eqb_spec j (Z.of_nat i)) as [-> | Hne].
  - by rewrite Nat2Z.id, list_lookup_insert_eq.
  - rewrite list_lookup_insert_ne by lia. done.
Qed.

Lemma bytes_ok_insert l i x : bytes_ok l -> byte_ok x -> bytes_ok (<[i := x]> l).
Proof. intros Hl Hx. by apply Forall_insert. Qed.

Lemma bytes_ok_app l1 l2 : bytes_ok (l1 ++ l2) <-> bytes_ok l1 /\ bytes_ok l2.
Proof. apply Forall_app. Qed.

Lemma bytes_ok_take n l : bytes_ok l -> bytes_ok (take n l).
Proof. apply Forall_take. Qed.

Lemma bytes_ok_drop n l : bytes_ok l -> bytes_ok (drop n l).
Proof. apply Forall_drop. Qed.

Create HintDb bytes.
#[export] Hint Resolve bytes_ok_insert bytes_ok_take bytes_ok_drop byte_at_ok be_bytes_ok
  byte_ok_land byte_ok_lor byte_ok_lxor : bytes.
