(* ===== verification/CString.v ===== *)
(** * C strings

    The parts of <string.h>, <stdlib.h> and <stdio.h> that the modelled code uses: [strchr],
    [strcmp], [strncmp], copying up to a position, [atoi], [isdigit] and the ["%d"] conversion of non-negative numbers. A C string
    is a [string]; its terminating NUL is the end of the list. *)

From stdpp Require Export strings.
From Stdlib Require Import Ascii.
From S2P Require Import Prelude.

(** Character codes. *)
Definition code (c : ascii) : Z := Z.of_N (N_of_ascii c).

Definition isdigit (c : ascii) : bool := (48 <=? code c) && (code c <=? 57).
Definition isspace (c : ascii) : bool := (code c =? 32) || ((9 <=? code c) && (code c <=? 13)).

Fixpoint sapp (s1 s2 : string) : string :=
  match s1 with EmptyString => s2 | String c s => String c (sapp s s2) end.

(** [strchr (s, c)]: the text before the first [c] and the text from it on (the [c] included). *)
Fixpoint strchr_split (c : ascii) (s : string) : option (string * string) :=
  match s with
  | EmptyString => None
  | String d s' =>
      if Ascii.eqb c d then Some (EmptyString, s)
      else match strchr_split c s' with
           | Some (b, a) => Some (String d b, a)
           | None => None
           end
  end.

(** [++pnt] *)
Definition stail (s : string) : string := match s with EmptyString => EmptyString | String _ s' => s' end.

Fixpoint skip_spaces (s : string) : string :=
  match s with String c s' => if isspace c then skip_spaces s' else s | EmptyString => s end.

Fixpoint atoi_digits (acc : Z) (s : string) : Z :=
  match s with
  | String c s' => if isdigit c then atoi_digits (10 * acc + (code c - 48)) s' else acc
  | EmptyString => acc
  end.

(** [atoi]: white space, an optional sign, digits.  The value is not limited: C leaves an
    [atoi] whose value does not fit [int] undefined. *)
Definition atoi (s : string) : Z :=
  match skip_spaces s with
  | String c s' =>
      if code c =? 45 then - atoi_digits 0 s'
      else if code c =? 43 then atoi_digits 0 s'
      else atoi_digits 0 (String c s')
  | EmptyString => 0
  end.

(** [strcmp]: the sign of the difference of the first characters that differ, as unsigned bytes. *)
Fixpoint strcmp (s1 s2 : string) : Z :=
  match s1, s2 with
  | EmptyString, EmptyString => 0
  | EmptyString, String _ _ => -1
  | String _ _, EmptyString => 1
  | String c1 s1', String c2 s2' =>
      if code c1 <? code c2 then -1 else if code c2 <? code c1 then 1 else strcmp s1' s2'
  end.

(** [strncmp (s1, s2, n)] *)
Definition strncmp (s1 s2 : string) (n : nat) : Z := strcmp (String.substring 0 n s1) (String.substring 0 n s2).

Definition digit (d : Z) : ascii := ascii_of_N (Z.to_N (48 + d)).

(** The decimal digits of [n], the last [fuel] of them. *)
Fixpoint dec_acc (fuel : nat) (n : Z) (acc : string) : string :=
  match fuel with
  | O => acc
  | S f =>
      let acc' := String (digit (n mod 10)) acc in
      if n / 10 =? 0 then acc' else dec_acc f (n / 10) acc'
  end.

(** ["%d"] of a non-negative [int], which has at most ten digits *)
Definition dec (n : Z) : string := dec_acc 10 n EmptyString.
Arguments dec : simpl never.

(** The model of [sapp] for checking that no character of [s] is [c]. *)
Fixpoint has_char (c : ascii) (s : string) : bool :=
  match s with EmptyString => false | String d s' => Ascii.eqb c d || has_char c s' end.

(** ** Lemmas *)

Lemma strchr_split_app c s1 s2 :
  has_char c s1 = false -> strchr_split c (sapp s1 (String c s2)) = Some (s1, String c s2).
Proof.
  induction s1 as [|d s1 IH]; cbn; [by rewrite Ascii.eqb_refl |].
  intros H. apply orb_false_iff in H as [-> H]. by rewrite IH.
Qed.

Lemma strchr_split_None c s : has_char c s = false -> strchr_split c s = None.
Proof.
  induction s as [|d s IH]; cbn; [done |]. intros H. apply orb_false_iff in H as [-> H]. by rewrite IH.
Qed.

Lemma strchr_split_has c s1 s2 : strchr_split c (sapp s1 s2) = None -> has_char c s1 = false.
Proof.
  induction s1 as [|d s1 IH]; cbn; [done |]. destruct (Ascii.eqb c d); [done |].
  destruct (strchr_split c (sapp s1 s2)) as [[? ?]|]; [done |]. auto.
Qed.

Lemma code_digit d : 0 <= d < 10 -> code (digit d) = 48 + d.
Proof.
  intros H. apply Z.eqb_eq. by_range (fun d => code (digit d) =? 48 + d) 0 10%nat d.
Qed.

Lemma isdigit_digit d : 0 <= d < 10 -> isdigit (digit d) = true.
Proof. intros H. unfold isdigit. rewrite code_digit by done. lia. Qed.

(** All characters of a string are digits. *)
Fixpoint all_digits (s : string) : bool :=
  match s with EmptyString => true | String c s' => isdigit c && all_digits s' end.

Lemma dec_acc_digits fuel n acc :
  0 <= n -> all_digits acc = true -> all_digits (dec_acc fuel n acc) = true.
Proof.
  revert n acc. induction fuel as [|f IH]; intros n acc Hn Ha; cbn [dec_acc]; [done |].
  pose proof (Z.mod_pos_bound n 10). assert (0 <= n / 10) by (apply Z.div_pos; lia).
  assert (all_digits (String (digit (n mod 10)) acc) = true) as H'
    by (cbn; by rewrite isdigit_digit, Ha by lia).
  destruct (n / 10 =? 0); [done | by apply IH].
Qed.

Lemma dec_digits n : 0 <= n -> all_digits (dec n) = true.
Proof. intros. by apply dec_acc_digits. Qed.

Lemma dec_acc_value fuel n acc a :
  0 <= n < 10 ^ Z.of_nat fuel -> (0 < fuel)%nat ->
  exists k, 0 <= k /\
    atoi_digits a (dec_acc fuel n acc) = atoi_digits (a * 10 ^ k + n) acc.
Proof.
  revert n acc a. induction fuel as [|f IH]; intros n acc a Hn Hf; [lia |]. cbn [dec_acc].
  pose proof (Z.mod_pos_bound n 10) as Hm. pose proof (Z.div_mod n 10) as Hdm.
  destruct (Z.eqb_spec (n / 10) 0) as [E | E].
  - exists 1. split; [lia |]. cbn [atoi_digits]. rewrite isdigit_digit, code_digit by lia. f_equal. lia.
  - destruct f as [|f'].
    { cbn in Hn. destruct E. apply Z.div_small. lia. }
    destruct (IH (n / 10) (String (digit (n mod 10)) acc) a) as (k & Hk & ->); [| lia |].
    + split; [apply Z.div_pos; lia |]. apply Z.div_lt_upper_bound; [lia |].
      replace (Z.of_nat (S (S f'))) with (1 + Z.of_nat (S f')) in Hn by lia. rewrite Z.pow_add_r in Hn by lia. lia.
    + exists (k + 1). split; [lia |]. cbn [atoi_digits]. rewrite isdigit_digit, code_digit by lia. f_equal.
      rewrite Z.pow_add_r by lia. lia.
Qed.

Lemma atoi_digits_dec n rest :
  0 <= n < 10 ^ 10 -> (forall c s, rest = String c s -> isdigit c = false) ->
  atoi_digits 0 (sapp (dec n) rest) = n.
Proof.
  intros Hn Hr. assert (forall f n acc, sapp (dec_acc f n acc) rest = dec_acc f n (sapp acc rest)) as Happ.
  { induction f as [|f IH]; intros m acc; cbn [dec_acc]; [done |].
    destruct (m / 10 =? 0); [done |]. by rewrite IH. }
  unfold dec. rewrite Happ. cbn [sapp].
  destruct (dec_acc_value 10 n rest 0) as (k & _ & ->); [by cbn | lia |].
  rewrite Z.mul_0_l. destruct rest as [|c s]; cbn; [done |]. by rewrite (Hr c s eq_refl).
Qed.

Lemma sapp_assoc s t u : sapp (sapp s t) u = sapp s (sapp t u).
Proof. induction s as [|c s IH]; cbn; [done |]. by rewrite IH. Qed.

Lemma sapp_nil_r s : sapp s EmptyString = s.
Proof. induction s; cbn; congruence. Qed.

Lemma atoi_dec n : 0 <= n < 10 ^ 10 -> atoi (dec n) = n.
Proof.
  intros Hn. pose proof (atoi_digits_dec n EmptyString Hn ltac:(done)) as H. rewrite sapp_nil_r in H.
  pose proof (dec_digits n ltac:(lia)) as Hd. unfold atoi.
  destruct (dec n) as [|c s]; [done |]. cbn in Hd. apply andb_true_iff in Hd as [Hc _].
  unfold isdigit in Hc. apply andb_true_iff in Hc as [H1 H2]. apply Z.leb_le in H1, H2.
  cbn [skip_spaces]. unfold isspace.
  destruct (Z.eqb_spec (code c) 32), (Z.leb_spec 9 (code c)), (Z.leb_spec (code c) 13); cbn [orb andb]; try lia.
  destruct (Z.eqb_spec (code c) 45), (Z.eqb_spec (code c) 43); lia || exact H.
Qed.

Lemma all_digits_no_char c s : isdigit c = false -> all_digits s = true -> has_char c s = false.
Proof.
  intros Hc. induction s as [|d s IH]; cbn; [done |]. intros H. apply andb_true_iff in H as [Hd Hs].
  rewrite IH, orb_false_r by done. destruct (Ascii.eqb_spec c d) as [-> |]; congruence.
Qed.

Lemma has_char_sapp c s1 s2 : has_char c (sapp s1 s2) = has_char c s1 || has_char c s2.
Proof. induction s1 as [|d s1 IH]; cbn; [done |]. by rewrite IH, orb_assoc. Qed.

(** ** The order of [strcmp] *)

Lemma code_inj c d : code c = code d -> c = d.
Proof. unfold code. intros H. apply N2Z.inj in H. rewrite <- (ascii_N_embedding c), <- (ascii_N_embedding d). by f_equal. Qed.

Lemma strcmp_0 s1 s2 : strcmp s1 s2 = 0 <-> s1 = s2.
Proof.
  revert s2. induction s1 as [|c s1 IH]; intros [|d s2]; cbn; try done.
  destruct (Z.ltb_spec (code c) (code d)), (Z.ltb_spec (code d) (code c)); [lia | | |].
  - split; [done |]. intros [= -> ->]. lia.
  - split; [done |]. intros [= -> ->]. lia.
  - rewrite IH. split; [intros ->; f_equal; apply code_inj; lia | by intros [= -> ->]].
Qed.

Lemma strcmp_values s1 s2 : strcmp s1 s2 = -1 \/ strcmp s1 s2 = 0 \/ strcmp s1 s2 = 1.
Proof. revert s2. induction s1 as [|c s1 IH]; intros [|d s2]; cbn; auto. repeat case_match; auto. Qed.

Lemma strcmp_opp s1 s2 : strcmp s2 s1 = - strcmp s1 s2.
Proof.
  revert s2. induction s1 as [|c s1 IH]; intros [|d s2]; cbn; try done.
  destruct (Z.ltb_spec (code c) (code d)), (Z.ltb_spec (code d) (code c)); try lia. apply IH.
Qed.

Lemma strcmp_trans s1 s2 s3 : strcmp s1 s2 = -1 -> strcmp s2 s3 = -1 -> strcmp s1 s3 = -1.
Proof.
  revert s2 s3. induction s1 as [|c s1 IH]; intros [|d s2] [|e s3]; cbn; try done.
  destruct (Z.ltb_spec (code c) (code d)), (Z.ltb_spec (code d) (code c)), (Z.ltb_spec (code d) (code e)),
    (Z.ltb_spec (code e) (code d)), (Z.ltb_spec (code c) (code e)), (Z.ltb_spec (code e) (code c)); try done; try lia. apply IH.
Qed.
