(* ===== verification/Prefix.v ===== *)
(** * lib/prefix.c: address prefixes

    The data of [struct prefix] and every function of lib/prefix.c: bit access, matching,
    comparison, masks, class rules, conversions to and from [union sockunion] and text.
    Addresses are kept as the bytes they have in memory (network order), so that
    [ntohl]/[htonl] are explicit and the model does not depend on the host's byte order.
    [HAVE_IPV6] is taken as defined.  [prefix_new] and the [_free] functions are the
    allocator's: a new prefix is all zero. *)

From stdpp Require Import strings.
From S2P Require Import Prelude.

(** ** Data *)

Definition AF_UNSPEC : Z := 0.
Definition AF_INET : Z := 2.
Definition AF_INET6 : Z := 10.
Definition AFI_IP : Z := 1.
Definition AFI_IP6 : Z := 2.
Definition PNBBY : Z := 8.
Definition IPV4_MAX_BYTELEN : Z := 4.
Definition IPV4_MAX_BITLEN : Z := 32.
Definition IPV4_MAX_PREFIXLEN : Z := 32.
Definition IPV6_MAX_BYTELEN : Z := 16.
Definition IPV6_MAX_BITLEN : Z := 128.

(** [struct prefix]; [u] is the 16 bytes of the union, whose members [prefix4] (first 4
    bytes), [prefix6] (16), [lp] (first 8) and [val] (first 8) all start at its head. *)
Record prefix := mk_prefix { family : Z; prefixlen : Z; u : list Z }.

Global Instance prefix_eq_dec : EqDecision prefix.
Proof. solve_decision. Defined.

(** The union of a [struct prefix] holds 16 bytes, and a prefix length fits them. *)
Definition prefix_wf (p : prefix) : Prop :=
  length (u p) = 16%nat /\ bytes_ok (u p) /\ 0 <= prefixlen p <= 128.

Definition prefix4 (p : prefix) : list Z := take 4 (u p).
Definition set_u_head (a : list Z) (p : prefix) : prefix :=
  mk_prefix (family p) (prefixlen p) (a ++ drop (length a) (u p)).

Definition maskbit : list Z := [0x00; 0x80; 0xc0; 0xe0; 0xf0; 0xf8; 0xfc; 0xfe; 0xff].

(** The 129 IPv6 masks, row by row as the source lists them (in decimal). *)
Definition maskbytes6 : list (list Z) :=
  [
   [0;0;0;0;0;0;0;0;0;0;0;0;0;0;0;0];
   [128;0;0;0;0;0;0;0;0;0;0;0;0;0;0;0];
   [192;0;0;0;0;0;0;0;0;0;0;0;0;0;0;0];
   [224;0;0;0;0;0;0;0;0;0;0;0;0;0;0;0];
   [240;0;0;0;0;0;0;0;0;0;0;0;0;0;0;0];
   [248;0;0;0;0;0;0;0;0;0;0;0;0;0;0;0];
   [252;0;0;0;0;0;0;0;0;0;0;0;0;0;0;0];
   [254;0;0;0;0;0;0;0;0;0;0;0;0;0;0;0];
   [255;0;0;0;0;0;0;0;0;0;0;0;0;0;0;0];
   [255;128;0;0;0;0;0;0;0;0;0;0;0;0;0;0];
   [255;192;0;0;0;0;0;0;0;0;0;0;0;0;0;0];
   [255;224;0;0;0;0;0;0;0;0;0;0;0;0;0;0];
   [255;240;0;0;0;0;0;0;0;0;0;0;0;0;0;0];
   [255;248;0;0;0;0;0;0;0;0;0;0;0;0;0;0];
   [255;252;0;0;0;0;0;0;0;0;0;0;0;0;0;0];
   [255;254;0;0;0;0;0;0;0;0;0;0;0;0;0;0];
   [255;255;0;0;0;0;0;0;0;0;0;0;0;0;0;0];
   [255;255;128;0;0;0;0;0;0;0;0;0;0;0;0;0];
   [255;255;192;0;0;0;0;0;0;0;0;0;0;0;0;0];
   [255;255;224;0;0;0;0;0;0;0;0;0;0;0;0;0];
   [255;255;240;0;0;0;0;0;0;0;0;0;0;0;0;0];
   [255;255;248;0;0;0;0;0;0;0;0;0;0;0;0;0];
   [255;255;252;0;0;0;0;0;0;0;0;0;0;0;0;0];
   [255;255;254;0;0;0;0;0;0;0;0;0;0;0;0;0];
   [255;255;255;0;0;0;0;0;0;0;0;0;0;0;0;0];
   [255;255;255;128;0;0;0;0;0;0;0;0;0;0;0;0];
   [255;255;255;192;0;0;0;0;0;0;0;0;0;0;0;0];
   [255;255;255;224;0;0;0;0;0;0;0;0;0;0;0;0];
   [255;255;255;240;0;0;0;0;0;0;0;0;0;0;0;0];
   [255;255;255;248;0;0;0;0;0;0;0;0;0;0;0;0];
   [255;255;255;252;0;0;0;0;0;0;0;0;0;0;0;0];
   [255;255;255;254;0;0;0;0;0;0;0;0;0;0;0;0];
   [255;255;255;255;0;0;0;0;0;0;0;0;0;0;0;0];
   [255;255;255;255;128;0;0;0;0;0;0;0;0;0;0;0];
   [255;255;255;255;192;0;0;0;0;0;0;0;0;0;0;0];
   [255;255;255;255;224;0;0;0;0;0;0;0;0;0;0;0];
   [255;255;255;255;240;0;0;0;0;0;0;0;0;0;0;0];
   [255;255;255;255;248;0;0;0;0;0;0;0;0;0;0;0];
   [255;255;255;255;252;0;0;0;0;0;0;0;0;0;0;0];
   [255;255;255;255;254;0;0;0;0;0;0;0;0;0;0;0];
   [255;255;255;255;255;0;0;0;0;0;0;0;0;0;0;0];
   [255;255;255;255;255;128;0;0;0;0;0;0;0;0;0;0];
   [255;255;255;255;255;192;0;0;0;0;0;0;0;0;0;0];
   [255;255;255;255;255;224;0;0;0;0;0;0;0;0;0;0];
   [255;255;255;255;255;240;0;0;0;0;0;0;0;0;0;0];
   [255;255;255;255;255;248;0;0;0;0;0;0;0;0;0;0];
   [255;255;255;255;255;252;0;0;0;0;0;0;0;0;0;0];
   [255;255;255;255;255;254;0;0;0;0;0;0;0;0;0;0];
   [255;255;255;255;255;255;0;0;0;0;0;0;0;0;0;0];
   [255;255;255;255;255;255;128;0;0;0;0;0;0;0;0;0];
   [255;255;255;255;255;255;192;0;0;0;0;0;0;0;0;0];
   [255;255;255;255;255;255;224;0;0;0;0;0;0;0;0;0];
   [255;255;255;255;255;255;240;0;0;0;0;0;0;0;0;0];
   [255;255;255;255;255;255;248;0;0;0;0;0;0;0;0;0];
   [255;255;255;255;255;255;252;0;0;0;0;0;0;0;0;0];
   [255;255;255;255;255;255;254;0;0;0;0;0;0;0;0;0];
   [255;255;255;255;255;255;255;0;0;0;0;0;0;0;0;0];
   [255;255;255;255;255;255;255;128;0;0;0;0;0;0;0;0];
   [255;255;255;255;255;255;255;192;0;0;0;0;0;0;0;0];
   [255;255;255;255;255;255;255;224;0;0;0;0;0;0;0;0];
   [255;255;255;255;255;255;255;240;0;0;0;0;0;0;0;0];
   [255;255;255;255;255;255;255;248;0;0;0;0;0;0;0;0];
   [255;255;255;255;255;255;255;252;0;0;0;0;0;0;0;0];
   [255;255;255;255;255;255;255;254;0;0;0;0;0;0;0;0];
   [255;255;255;255;255;255;255;255;0;0;0;0;0;0;0;0];
   [255;255;255;255;255;255;255;255;128;0;0;0;0;0;0;0];
   [255;255;255;255;255;255;255;255;192;0;0;0;0;0;0;0];
   [255;255;255;255;255;255;255;255;224;0;0;0;0;0;0;0];
   [255;255;255;255;255;255;255;255;240;0;0;0;0;0;0;0];
   [255;255;255;255;255;255;255;255;248;0;0;0;0;0;0;0];
   [255;255;255;255;255;255;255;255;252;0;0;0;0;0;0;0];
   [255;255;255;255;255;255;255;255;254;0;0;0;0;0;0;0];
   [255;255;255;255;255;255;255;255;255;0;0;0;0;0;0;0];
   [255;255;255;255;255;255;255;255;255;128;0;0;0;0;0;0];
   [255;255;255;255;255;255;255;255;255;192;0;0;0;0;0;0];
   [255;255;255;255;255;255;255;255;255;224;0;0;0;0;0;0];
   [255;255;255;255;255;255;255;255;255;240;0;0;0;0;0;0];
   [255;255;255;255;255;255;255;255;255;248;0;0;0;0;0;0];
   [255;255;255;255;255;255;255;255;255;252;0;0;0;0;0;0];
   [255;255;255;255;255;255;255;255;255;254;0;0;0;0;0;0];
   [255;255;255;255;255;255;255;255;255;255;0;0;0;0;0;0];
   [255;255;255;255;255;255;255;255;255;255;128;0;0;0;0;0];
   [255;255;255;255;255;255;255;255;255;255;192;0;0;0;0;0];
   [255;255;255;255;255;255;255;255;255;255;224;0;0;0;0;0];
   [255;255;255;255;255;255;255;255;255;255;240;0;0;0;0;0];
   [255;255;255;255;255;255;255;255;255;255;248;0;0;0;0;0];
   [255;255;255;255;255;255;255;255;255;255;252;0;0;0;0;0];
   [255;255;255;255;255;255;255;255;255;255;254;0;0;0;0;0];
   [255;255;255;255;255;255;255;255;255;255;255;0;0;0;0;0];
   [255;255;255;255;255;255;255;255;255;255;255;128;0;0;0;0];
   [255;255;255;255;255;255;255;255;255;255;255;192;0;0;0;0];
   [255;255;255;255;255;255;255;255;255;255;255;224;0;0;0;0];
   [255;255;255;255;255;255;255;255;255;255;255;240;0;0;0;0];
   [255;255;255;255;255;255;255;255;255;255;255;248;0;0;0;0];
   [255;255;255;255;255;255;255;255;255;255;255;252;0;0;0;0];
   [255;255;255;255;255;255;255;255;255;255;255;254;0;0;0;0];
   [255;255;255;255;255;255;255;255;255;255;255;255;0;0;0;0];
   [255;255;255;255;255;255;255;255;255;255;255;255;128;0;0;0];
   [255;255;255;255;255;255;255;255;255;255;255;255;192;0;0;0];
   [255;255;255;255;255;255;255;255;255;255;255;255;224;0;0;0];
   [255;255;255;255;255;255;255;255;255;255;255;255;240;0;0;0];
   [255;255;255;255;255;255;255;255;255;255;255;255;248;0;0;0];
   [255;255;255;255;255;255;255;255;255;255;255;255;252;0;0;0];
   [255;255;255;255;255;255;255;255;255;255;255;255;254;0;0;0];
   [255;255;255;255;255;255;255;255;255;255;255;255;255;0;0;0];
   [255;255;255;255;255;255;255;255;255;255;255;255;255;128;0;0];
   [255;255;255;255;255;255;255;255;255;255;255;255;255;192;0;0];
   [255;255;255;255;255;255;255;255;255;255;255;255;255;224;0;0];
   [255;255;255;255;255;255;255;255;255;255;255;255;255;240;0;0];
   [255;255;255;255;255;255;255;255;255;255;255;255;255;248;0;0];
   [255;255;255;255;255;255;255;255;255;255;255;255;255;252;0;0];
   [255;255;255;255;255;255;255;255;255;255;255;255;255;254;0;0];
   [255;255;255;255;255;255;255;255;255;255;255;255;255;255;0;0];
   [255;255;255;255;255;255;255;255;255;255;255;255;255;255;128;0];
   [255;255;255;255;255;255;255;255;255;255;255;255;255;255;192;0];
   [255;255;255;255;255;255;255;255;255;255;255;255;255;255;224;0];
   [255;255;255;255;255;255;255;255;255;255;255;255;255;255;240;0];
   [255;255;255;255;255;255;255;255;255;255;255;255;255;255;248;0];
   [255;255;255;255;255;255;255;255;255;255;255;255;255;255;252;0];
   [255;255;255;255;255;255;255;255;255;255;255;255;255;255;254;0];
   [255;255;255;255;255;255;255;255;255;255;255;255;255;255;255;0];
   [255;255;255;255;255;255;255;255;255;255;255;255;255;255;255;128];
   [255;255;255;255;255;255;255;255;255;255;255;255;255;255;255;192];
   [255;255;255;255;255;255;255;255;255;255;255;255;255;255;255;224];
   [255;255;255;255;255;255;255;255;255;255;255;255;255;255;255;240];
   [255;255;255;255;255;255;255;255;255;255;255;255;255;255;255;248];
   [255;255;255;255;255;255;255;255;255;255;255;255;255;255;255;252];
   [255;255;255;255;255;255;255;255;255;255;255;255;255;255;255;254];
   [255;255;255;255;255;255;255;255;255;255;255;255;255;255;255;255]
  ].

(** ** Bits, families *)

Definition prefix_bit (prefix : list Z) (prefixlen : Z) : Z :=
  let offset := prefixlen / 8 in
  let shift := 7 - prefixlen mod 8 in
  Z.land (Z.shiftr (byte_at prefix offset) shift) 1.

Definition prefix6_bit (prefix : list Z) (prefixlen : Z) : Z := prefix_bit prefix prefixlen.

Definition afi2family (afi : Z) : Z :=
  if afi =? AFI_IP then AF_INET else if afi =? AFI_IP6 then AF_INET6 else 0.

Definition family2afi (family : Z) : Z :=
  if family =? AF_INET then AFI_IP else if family =? AF_INET6 then AFI_IP6 else 0.

(** ** Matching and comparison *)

(** [while (offset--) if (np[offset] != pp[offset]) return ...]: true when no byte differs *)
Fixpoint bytes_same_down (np pp : list Z) (offset : nat) : bool :=
  match offset with
  | O => true
  | S o =>
      if negb (byte_at np (Z.of_nat o) =? byte_at pp (Z.of_nat o)) then false
      else bytes_same_down np pp o
  end.

Definition prefix_match (n p : prefix) : bool :=
  if prefixlen n >? prefixlen p then false
  else
    let np := u n in
    let pp := u p in
    let offset := prefixlen n / PNBBY in
    let shift := prefixlen n mod PNBBY in
    if negb (shift =? 0) &&
       negb (Z.land (byte_at maskbit shift) (Z.lxor (byte_at np offset) (byte_at pp offset)) =? 0)
    then false
    else bytes_same_down np pp (Z.to_nat offset).

Definition prefix_copy (dest src : prefix) : res prefix :=
  let d := mk_prefix (family src) (prefixlen src) (u dest) in
  if family src =? AF_INET then Ok (set_u_head (take 4 (u src)) d)
  else if family src =? AF_INET6 then Ok (set_u_head (take 16 (u src)) d)
  else if family src =? AF_UNSPEC then Ok (set_u_head (take 8 (u src)) d)
  else Abort.

Definition prefix_same (p1 p2 : prefix) : bool :=
  if (family p1 =? family p2) && (prefixlen p1 =? prefixlen p2) then
    if (family p1 =? AF_INET) && bool_decide (take 4 (u p1) = take 4 (u p2)) then true
    else if (family p1 =? AF_INET6) && bool_decide (take 16 (u p1) = take 16 (u p2)) then true
    else false
  else false.

Definition prefix_cmp (p1 p2 : prefix) : Z :=
  let pp1 := u p1 in
  let pp2 := u p2 in
  if negb (family p1 =? family p2) || negb (prefixlen p1 =? prefixlen p2) then 1
  else
    let offset := prefixlen p1 / PNBBY in
    let shift := prefixlen p1 mod PNBBY in
    if negb (shift =? 0) &&
       negb (Z.land (byte_at maskbit shift) (Z.lxor (byte_at pp1 offset) (byte_at pp2 offset)) =? 0)
    then 1
    else if bytes_same_down pp1 pp2 (Z.to_nat offset) then 0 else 1.

(** [for (pos = 0; pos < length; pos++) if (pp1[pos] != pp2[pos]) break;] with [n] rounds left *)
Fixpoint first_diff_byte (pp1 pp2 : list Z) (pos : Z) (n : nat) : Z :=
  match n with
  | O => pos
  | S n' =>
      if negb (byte_at pp1 pos =? byte_at pp2 pos) then pos
      else first_diff_byte pp1 pp2 (pos + 1) n'
  end.

(** [for (bit = 0; bit < 8; bit++) if (xor & (1 << (7 - bit))) break;] with [n] rounds left *)
Fixpoint first_set_bit (xor bit : Z) (n : nat) : Z :=
  match n with
  | O => bit
  | S n' =>
      if negb (Z.land xor (Z.shiftl 1 (7 - bit)) =? 0) then bit
      else first_set_bit xor (bit + 1) n'
  end.

Definition prefix_common_bits (p1 p2 : prefix) : Z :=
  let pp1 := u p1 in
  let pp2 := u p2 in
  let length := if family p1 =? AF_INET then IPV4_MAX_BYTELEN else 0 in
  let length := if family p1 =? AF_INET6 then IPV6_MAX_BYTELEN else length in
  if negb (family p1 =? family p2) || (length =? 0) then -1
  else
    let pos := first_diff_byte pp1 pp2 0 (Z.to_nat length) in
    if pos =? length then pos * 8
    else
      let xor := Z.lxor (byte_at pp1 pos) (byte_at pp2 pos) in
      let bit := first_set_bit xor 0 8 in
      pos * 8 + bit.

Definition prefix_family_str (p : prefix) : string :=
  if family p =? AF_INET then "inet"
  else if family p =? AF_INET6 then "inet6"
  else "unspec".

Definition prefix_new : prefix := mk_prefix 0 0 (replicate 16 0).
Definition prefix_ipv4_new : prefix := mk_prefix AF_INET 0 (replicate 16 0).
Definition prefix_ipv6_new : prefix := mk_prefix AF_INET6 0 (replicate 16 0).

(** ** Masks *)

Definition ntohl (a : list Z) : Z := be_val a.
Definition htonl (x : Z) : list Z := be_bytes 4 (u32 x).

(** [&], [|], [^], [~] on [in_addr_t] act on each byte, whatever the byte order. *)
Definition addr_and (a b : list Z) : list Z := zip_with Z.land a b.
Definition addr_or (a b : list Z) : list Z := zip_with Z.lor a b.
Definition addr_xor (a b : list Z) : list Z := zip_with Z.lxor a b.
Definition addr_not (a : list Z) : list Z := map (fun x => u8 (Z.lnot x)) a.

Definition masklen2ip (masklen : Z) : res (list Z) :=
  _ ← c_assert ((0 <=? masklen) && (masklen <=? IPV4_MAX_BITLEN));
  (* sizeof (unsigned long long) > 4 *)
  Ok (htonl (u64 (Z.shiftl 0xffffffff (32 - masklen)))).

(** [__builtin_clz] of a non-zero 32-bit word *)
Definition builtin_clz (x : Z) : Z := 31 - Z.log2 x.

Definition ip_masklen (netmask : list Z) : Z :=
  let tmp := u32 (Z.lnot (ntohl netmask)) in
  if negb (tmp =? 0) then u8 (builtin_clz tmp) else 32.

Definition apply_mask_ipv4 (p : prefix) : res prefix :=
  mask ← masklen2ip (prefixlen p);
  Ok (set_u_head (addr_and (prefix4 p) mask) p).

Definition prefix_ipv4_any (p : prefix) : bool :=
  bool_decide (prefix4 p = [0; 0; 0; 0]) && (prefixlen p =? 0).

(** A checked read of one byte. *)
Definition rd (l : list Z) (i : Z) : res Z :=
  if (0 <=? i) && (i <? Z.of_nat (length l)) then Ok (byte_at l i) else Oob.

(** [while (pnt[0] == 0xff && len < IPV6_MAX_BITLEN) { len += 8; pnt++; }]: the byte is read
    before [len] is tested.  Returns [len] and the position of [pnt]. *)
Fixpoint ip6_masklen_ff (netmask : list Z) (len pnt : Z) (n : nat) : res (Z * Z) :=
  b ← rd netmask pnt;
  if (b =? 0xff) && (len <? IPV6_MAX_BITLEN) then
    match n with
    | O => Ok (len, pnt)
    | S n' => ip6_masklen_ff netmask (len + 8) (pnt + 1) n'
    end
  else Ok (len, pnt).

(** [while (val) { len++; val <<= 1; }] on an [unsigned char]; it empties in 8 rounds. *)
Fixpoint ip6_masklen_shift (len val : Z) (n : nat) : Z :=
  match n with
  | O => len
  | S n' => if negb (val =? 0) then ip6_masklen_shift (len + 1) (u8 (Z.shiftl val 1)) n' else len
  end.

Definition ip6_masklen (netmask : list Z) : res Z :=
  '(len, pnt) ← ip6_masklen_ff netmask 0 0 17;
  if len <? IPV6_MAX_BITLEN then
    val ← rd netmask pnt;
    Ok (ip6_masklen_shift len val 8)
  else Ok len.

Definition masklen2ip6 (masklen : Z) : res (list Z) :=
  _ ← c_assert ((0 <=? masklen) && (masklen <=? IPV6_MAX_BITLEN));
  Ok (nth (Z.to_nat masklen) maskbytes6 []).

(** [while (index < 16) pnt[index++] = 0;] *)
Fixpoint zero_from (pnt : list Z) (index : nat) (n : nat) : list Z :=
  match n with
  | O => pnt
  | S n' => if (index <? 16)%nat then zero_from (<[index := 0]> pnt) (S index) n' else pnt
  end.

Definition apply_mask_ipv6 (p : prefix) : prefix :=
  let index := prefixlen p / 8 in
  if index <? 16 then
    let offset := prefixlen p mod 8 in
    let i := Z.to_nat index in
    let pnt := <[i := Z.land (byte_at (u p) index) (byte_at maskbit offset)]> (u p) in
    mk_prefix (family p) (prefixlen p) (zero_from pnt (S i) 16)
  else p.

Definition apply_mask (p : prefix) : res prefix :=
  if family p =? AF_INET then apply_mask_ipv4 p
  else if family p =? AF_INET6 then Ok (apply_mask_ipv6 p)
  else Ok p.

Definition prefix_blen (p : prefix) : Z :=
  if family p =? AF_INET then IPV4_MAX_BYTELEN
  else if family p =? AF_INET6 then IPV6_MAX_BYTELEN
  else 0.

(** ** Classful networks *)

(** <netinet/in.h> *)
Definition IN_CLASSA (a : Z) : bool := Z.land a 0x80000000 =? 0.
Definition IN_CLASSB (a : Z) : bool := Z.land a 0xc0000000 =? 0x80000000.
Definition IN_CLASSC (a : Z) : bool := Z.land a 0xe0000000 =? 0xc0000000.

Definition set_prefixlen (len : Z) (p : prefix) : prefix := mk_prefix (family p) len (u p).

Definition apply_classful_mask_ipv4 (p : prefix) : res prefix :=
  let destination := ntohl (prefix4 p) in
  if prefixlen p =? IPV4_MAX_PREFIXLEN then Ok p
  else if IN_CLASSC destination then apply_mask_ipv4 (set_prefixlen 24 p)
  else if IN_CLASSB destination then apply_mask_ipv4 (set_prefixlen 16 p)
  else apply_mask_ipv4 (set_prefixlen 8 p).

Definition ipv4_network_addr (hostaddr : list Z) (masklen : Z) : res (list Z) :=
  mask ← masklen2ip masklen;
  Ok (addr_and hostaddr mask).

Definition ipv4_broadcast_addr (hostaddr : list Z) (masklen : Z) : res (list Z) :=
  mask ← masklen2ip masklen;
  Ok (if negb (masklen =? IPV4_MAX_PREFIXLEN - 1)
      then addr_or hostaddr (addr_not mask)
      else addr_xor hostaddr (addr_not mask)).

(** ** [union sockunion]

    On the supported layouts [sin.sin_addr] (bytes 4-7) and [sin6.sin6_addr] (bytes 8-23)
    do not overlap, so the union is a record. *)
Record sockunion := mk_sockunion { sa_family : Z; sin_addr : list Z; sin6_addr : list Z }.

Definition sockunion2prefix (dest mask : sockunion) : res (option prefix) :=
  if sa_family dest =? AF_INET then
    Ok (Some (mk_prefix AF_INET (ip_masklen (sin_addr mask))
                (sin_addr dest ++ drop (length (sin_addr dest)) (u prefix_ipv4_new))))
  else if sa_family dest =? AF_INET6 then
    len ← ip6_masklen (sin6_addr mask);
    Ok (Some (mk_prefix AF_INET6 (u8 len) (sin6_addr dest)))
  else Ok None.

Definition sockunion2hostprefix (su : sockunion) : option prefix :=
  if sa_family su =? AF_INET then
    Some (mk_prefix AF_INET IPV4_MAX_BITLEN
            (sin_addr su ++ drop (length (sin_addr su)) (u prefix_ipv4_new)))
  else if sa_family su =? AF_INET6 then
    Some (mk_prefix AF_INET6 IPV6_MAX_BITLEN (sin6_addr su))
  else None.

Definition prefix2sockunion (p : prefix) : sockunion :=
  mk_sockunion (family p)
    (if family p =? AF_INET then prefix4 p else replicate 4 0)
    (if family p =? AF_INET6 then u p else replicate 16 0).

(** ** Specification vocabulary *)

(** The first [len] bits of two addresses agree. *)
Definition bits_agree (len : Z) (a b : list Z) : Prop :=
  forall i, 0 <= i < len -> bit_at a i = bit_at b i.

(** [p] lies inside [n]. *)
Definition covers (n p : prefix) : Prop :=
  prefixlen n <= prefixlen p /\ bits_agree (prefixlen n) (u n) (u p).

Global Instance bits_agree_equiv len : Equivalence (bits_agree len).
Proof.
  split; red; unfold bits_agree; intros.
  - done.
  - symmetry. auto.
  - etransitivity; eauto.
Qed.

Lemma bits_agree_le len len' a b : len' <= len -> bits_agree len a b -> bits_agree len' a b.
Proof. intros Hl H i Hi. apply H. lia. Qed.

Lemma bits_agree_ext len a b c d :
  bits_agree len a b -> bits_agree len b c -> bits_agree len c d -> bits_agree len a d.
Proof. intros. by do 2 (etransitivity; [eassumption |]). Qed.

(** ** Lemmas on bytes and bits *)

Lemma maskbit_testbit s k :
  0 <= s <= 8 -> 0 <= k < 8 -> Z.testbit (byte_at maskbit s) k = (8 - s <=? k).
Proof.
  intros Hs Hk.
  enough (eqb (Z.testbit (byte_at maskbit s) k) (8 - s <=? k) = true) as E by by apply eqb_prop.
  revert k Hk. apply (check_range_spec (fun k => _) 0 8). revert s Hs.
  intros s Hs. by_range (fun s => check_range (fun k => eqb (Z.testbit (byte_at maskbit s) k) (8 - s <=? k)) 0 8) 0 9%nat s.
Qed.

Lemma maskbit_ok s : byte_ok (byte_at maskbit s).
Proof. apply byte_at_ok. repeat constructor; lia. Qed.

Lemma byte_eq_bits a b j :
  bytes_ok a -> bytes_ok b -> 0 <= j ->
  byte_at a j = byte_at b j <-> forall i, 8 * j <= i < 8 * j + 8 -> bit_at a i = bit_at b i.
Proof.
  intros Ha Hb Hj. split.
  - intros E i Hi. unfold bit_at. replace (i / 8) with j by (apply Z.div_unique with (i - 8 * j); lia).
    by rewrite E.
  - intros H. apply byte_ext; try by apply byte_at_ok.
    intros k Hk. specialize (H (8 * j + (7 - k))). unfold bit_at in H.
    replace ((8 * j + (7 - k)) / 8) with j in H by (apply Z.div_unique with (7 - k); lia).
    replace ((8 * j + (7 - k)) mod 8) with (7 - k) in H by (apply Z.mod_unique with j; lia).
    replace (7 - (7 - k)) with k in H by lia. apply H. lia.
Qed.

Lemma masked_diff_bits x y s :
  byte_ok x -> byte_ok y -> 0 <= s < 8 ->
  Z.land (byte_at maskbit s) (Z.lxor x y) = 0 <->
  forall k, 8 - s <= k < 8 -> Z.testbit x k = Z.testbit y k.
Proof.
  intros Hx Hy Hs. rewrite land_eq_0_bits. split.
  - intros H k Hk. specialize (H k). rewrite maskbit_testbit, Z.lxor_spec in H by lia.
    apply xorb_eq. apply H; lia.
  - intros H k Hk Hm. rewrite Z.lxor_spec. destruct (decide (k < 8)).
    + rewrite maskbit_testbit in Hm by lia. rewrite H by lia. apply xorb_nilpotent.
    + by rewrite !testbit_byte_high by (done || lia).
Qed.

Lemma bytes_same_down_spec a b o :
  bytes_same_down a b o = true <-> forall j, 0 <= j < Z.of_nat o -> byte_at a j = byte_at b j.
Proof.
  induction o as [|o IH]; cbn.
  - split; [intros _ j Hj; lia | done].
  - destruct (Z.eqb_spec (byte_at a (Z.of_nat o)) (byte_at b (Z.of_nat o))) as [E | E]; cbn.
    + rewrite IH. split; intros H j Hj; [| apply H; lia].
      destruct (decide (j = Z.of_nat o)) as [-> |]; [done | apply H; lia].
    + split; [done |]. intros H. destruct E. apply H. lia.
Qed.

(** The body shared by [prefix_match] and [prefix_cmp] decides agreement on [len] bits. *)
Lemma network_part_spec a b len :
  bytes_ok a -> bytes_ok b -> 0 <= len ->
  (negb (len mod 8 =? 0) &&
     negb (Z.land (byte_at maskbit (len mod 8)) (Z.lxor (byte_at a (len / 8)) (byte_at b (len / 8))) =? 0)
     = false /\
   bytes_same_down a b (Z.to_nat (len / 8)) = true) <-> bits_agree len a b.
Proof.
  intros Ha Hb Hlen. pose proof (Z.div_mod len 8) as Hdm. pose proof (Z.mod_pos_bound len 8) as Hmod.
  assert (0 <= len / 8) as Hq by (apply Z.div_pos; lia).
  rewrite bytes_same_down_spec, Z2Nat.id, andb_false_iff, !negb_false_iff, !Z.eqb_eq by done.
  rewrite (masked_diff_bits (byte_at a (len / 8)) (byte_at b (len / 8))) by (lia || by apply byte_at_ok).
  split.
  - intros [Htop Hbytes] i Hi. destruct (decide (i / 8 < len / 8)) as [Hlt | Hge].
    + unfold bit_at. rewrite Hbytes; [done |]. split; [apply Z.div_pos; lia | done].
    + assert (i / 8 = len / 8) as Eq.
      { assert (i / 8 <= len / 8) by (apply Z.div_le_mono; lia). lia. }
      pose proof (Z.div_mod i 8). pose proof (Z.mod_pos_bound i 8).
      unfold bit_at. rewrite Eq. destruct Htop as [Hz | Htop]; [lia |]. apply Htop. lia.
  - intros H. split.
    + right. intros k Hk. specialize (H (8 * (len / 8) + (7 - k))). unfold bit_at in H.
      replace ((8 * (len / 8) + (7 - k)) / 8) with (len / 8) in H by (apply Z.div_unique with (7 - k); lia).
      replace ((8 * (len / 8) + (7 - k)) mod 8) with (7 - k) in H by (apply Z.mod_unique with (len / 8); lia).
      replace (7 - (7 - k)) with k in H by lia. apply H. lia.
    + intros j Hj. apply byte_eq_bits; [done | done | lia |]. intros i Hi. apply H. lia.
Qed.

(** ** Matching and comparison *)

Lemma prefix_match_spec n p :
  prefix_wf n -> prefix_wf p -> prefix_match n p = true <-> covers n p.
Proof.
  intros (_ & Hn & Hnl) (_ & Hp & _). unfold prefix_match, covers, PNBBY.
  rewrite <- (network_part_spec (u n) (u p)) by (done || lia).
  destruct (Z.gtb_spec (prefixlen n) (prefixlen p)); [split; [done | lia] |].
  destruct (_ && _); split; [done | by intros (_ & ? & _) | intros ->; split; [lia | done] | by intros (_ & _ & ?)].
Qed.

(** [prefix_match n p] returns 1 exactly when [n] is not longer than [p] and their first
    [n->prefixlen] bits agree, for any prefix length and whatever the host bits are; so it is a
    preorder on prefixes. *)
Theorem prefix_match_correct n p q :
  prefix_wf n -> prefix_wf p -> prefix_wf q ->
  (prefix_match n p = true <-> covers n p) /\
  prefix_match n n = true /\
  (prefix_match n p = true -> prefix_match p q = true -> prefix_match n q = true).
Proof.
  intros Hn Hp Hq. rewrite !prefix_match_spec by done. split; [done |]. split.
  - split; [lia | reflexivity].
  - intros [L1 A1] [L2 A2]. split; [lia |]. etransitivity; [exact A1 |].
    by apply (bits_agree_le (prefixlen p)).
Qed.

Lemma prefix_cmp_values p1 p2 : prefix_cmp p1 p2 = 0 \/ prefix_cmp p1 p2 = 1.
Proof. unfold prefix_cmp. repeat case_match; auto. Qed.

Lemma prefix_cmp_0 p1 p2 :
  prefix_wf p1 -> prefix_wf p2 ->
  prefix_cmp p1 p2 = 0 <->
  family p1 = family p2 /\ prefixlen p1 = prefixlen p2 /\ bits_agree (prefixlen p1) (u p1) (u p2).
Proof.
  intros (_ & H1 & Hl) (_ & H2 & _). unfold prefix_cmp, PNBBY.
  rewrite <- (network_part_spec (u p1) (u p2)) by (done || lia).
  destruct (Z.eqb_spec (family p1) (family p2)), (Z.eqb_spec (prefixlen p1) (prefixlen p2)); cbn [negb orb];
    [| split; [done | tauto] ..].
  destruct (_ && _), (bytes_same_down _ _ _); split; done || (intros (_ & _ & ? & ?); done).
Qed.

(** [prefix_cmp] returns 0 exactly when each prefix matches the other in the sense of
    [prefix_match] and the families are equal, and 1 otherwise: it compares network parts and
    ignores host bits. *)
Theorem prefix_cmp_mutual_match p1 p2 :
  prefix_wf p1 -> prefix_wf p2 ->
  prefix_cmp p1 p2 =
    if (family p1 =? family p2) && prefix_match p1 p2 && prefix_match p2 p1 then 0 else 1.
Proof.
  intros W1 W2.
  pose proof (prefix_cmp_0 p1 p2 W1 W2) as Hc. pose proof (prefix_cmp_values p1 p2) as Hv.
  destruct (_ && _) eqn:E.
  - rewrite !andb_true_iff, Z.eqb_eq, !prefix_match_spec in E by done.
    destruct E as [[Ef [L1 A1]] [L2 A2]]. apply Hc. repeat split; [done | lia | done].
  - destruct Hv as [Z0 | ?]; [| done]. apply Hc in Z0 as (Ef & El & Ea).
    assert (prefix_match p1 p2 = true) as M1 by (apply prefix_match_spec; [done .. | split; [lia | done]]).
    assert (prefix_match p2 p1 = true) as M2.
    { apply prefix_match_spec; [done .. |]. split; [lia |]. rewrite <- El. by symmetry. }
    rewrite Ef, Z.eqb_refl, M1, M2 in E. done.
Qed.

(** ** Common bits *)

Lemma first_diff_byte_spec a b pos n :
  0 <= pos ->
  let r := first_diff_byte a b pos n in
  pos <= r <= pos + Z.of_nat n /\
  (forall j, pos <= j < r -> byte_at a j = byte_at b j) /\
  (r < pos + Z.of_nat n -> byte_at a r <> byte_at b r).
Proof.
  revert pos. induction n as [|n IH]; intros pos Hpos; cbn [first_diff_byte].
  - repeat split; intros; lia.
  - destruct (Z.eqb_spec (byte_at a pos) (byte_at b pos)) as [E | E]; cbn [negb].
    + destruct (IH (pos + 1)) as (H1 & H2 & H3); [lia |]. split; [lia |]. split.
      * intros j Hj. destruct (decide (j = pos)) as [-> |]; [done | apply H2; lia].
      * intros Hr. apply H3. lia.
    + split; [lia |]. split; [intros; lia | done].
Qed.

Lemma first_set_bit_spec x bit n :
  0 <= bit -> bit + Z.of_nat n <= 8 ->
  let r := first_set_bit x bit n in
  bit <= r <= bit + Z.of_nat n /\
  (forall k, bit <= k < r -> Z.testbit x (7 - k) = false) /\
  (r < bit + Z.of_nat n -> Z.testbit x (7 - r) = true).
Proof.
  revert bit. induction n as [|n IH]; intros bit Hb Hn; cbn [first_set_bit].
  - repeat split; intros; lia.
  - assert ((Z.land x (Z.shiftl 1 (7 - bit)) =? 0) = negb (Z.testbit x (7 - bit))) as ->.
    { rewrite Z.shiftl_1_l. destruct (Z.testbit x (7 - bit)) eqn:E; cbn.
      - apply Z.eqb_neq. intros H. assert (Z.testbit (Z.land x (2 ^ (7 - bit))) (7 - bit) = false)
          by (rewrite H; apply Z.bits_0).
        rewrite Z.land_spec, E, Z.pow2_bits_true in * by lia. done.
      - apply Z.eqb_eq, Z.bits_inj'. intros k Hk. rewrite Z.land_spec, Z.bits_0.
        destruct (decide (k = 7 - bit)) as [-> |]; [by rewrite E |].
        rewrite Z.pow2_bits_false by lia. apply andb_false_r. }
    destruct (Z.testbit x (7 - bit)) eqn:E; cbn [negb].
    + repeat split; intros; lia || done.
    + destruct (IH (bit + 1)) as (H1 & H2 & H3); [lia .. |]. split; [lia |]. split.
      * intros k Hk. destruct (decide (k = bit)) as [-> |]; [done | apply H2; lia].
      * intros Hr. apply H3. lia.
Qed.

(** For two prefixes of the same supported family [prefix_common_bits] returns the length of
    the longest common bit string of the two addresses: a value between 0 and the family's
    width up to which all bits agree and at which, when it is not the width, they differ. *)
Theorem prefix_common_bits_longest p1 p2 :
  prefix_wf p1 -> prefix_wf p2 -> family p1 = family p2 -> prefix_blen p1 <> 0 ->
  let r := prefix_common_bits p1 p2 in
  0 <= r <= 8 * prefix_blen p1 /\ bits_agree r (u p1) (u p2) /\
  (r < 8 * prefix_blen p1 -> bit_at (u p1) r <> bit_at (u p2) r).
Proof.
  intros (_ & W1 & _) (_ & W2 & _) Ef Hb.
  assert (exists L : nat, prefix_blen p1 = Z.of_nat L /\
     (if family p1 =? AF_INET6 then IPV6_MAX_BYTELEN
      else if family p1 =? AF_INET then IPV4_MAX_BYTELEN else 0) = Z.of_nat L) as (L & EL & EL').
  { unfold prefix_blen in *. destruct (Z.eqb_spec (family p1) AF_INET) as [E | E].
    - exists 4%nat. rewrite E. done.
    - destruct (family p1 =? AF_INET6); [exists 16%nat | ]; done. }
  unfold prefix_common_bits. rewrite EL', EL, Ef, Z.eqb_refl, Nat2Z.id. rewrite EL in Hb. cbn [negb orb].
  destruct (Z.eqb_spec (Z.of_nat L) 0) as [|_]; [done |].
  destruct (first_diff_byte_spec (u p1) (u p2) 0 L) as (H1 & H2 & H3); [lia |].
  set (pos := first_diff_byte _ _ _ _) in *.
  assert (bits_agree (8 * pos) (u p1) (u p2)) as Hagree.
  { intros i Hi. unfold bit_at. rewrite H2; [done |]. split; [apply Z.div_pos; lia |].
    apply Z.div_lt_upper_bound; lia. }
  destruct (Z.eqb_spec pos (Z.of_nat L)) as [E | E].
  { split; [lia |]. split; [by replace (pos * 8) with (8 * pos) by lia | lia]. }
  set (x := Z.lxor _ _).
  destruct (first_set_bit_spec x 0 8) as (G1 & G2 & G3); [lia .. |].
  set (bit := first_set_bit x 0 8) in *.
  assert (bit < 8) as Hbit.
  { destruct (decide (bit < 8)) as [|Hge]; [done |]. destruct (H3 ltac:(lia)).
    apply byte_ext; try by apply byte_at_ok. intros k Hk.
    specialize (G2 (7 - k) ltac:(lia)). unfold x in G2. rewrite Z.lxor_spec in G2.
    replace (7 - (7 - k)) with k in G2 by lia. by apply xorb_eq. }
  assert (forall k, 0 <= k < 8 -> (pos * 8 + k) / 8 = pos /\ (pos * 8 + k) mod 8 = k) as Hdm.
  { intros k Hk. split; symmetry; [apply Z.div_unique with k | apply Z.mod_unique with pos]; lia. }
  split; [lia |]. split.
  - intros i Hi. destruct (decide (i < 8 * pos)); [apply Hagree; lia |].
    unfold bit_at. replace i with (pos * 8 + (i - pos * 8)) by lia.
    destruct (Hdm (i - pos * 8)) as [-> ->]; [lia |]. apply xorb_eq. rewrite <- Z.lxor_spec. apply G2. lia.
  - intros _. unfold bit_at. destruct (Hdm bit) as [-> ->]; [lia |].
    specialize (G3 ltac:(lia)). unfold x in G3. rewrite Z.lxor_spec in G3.
    intros Heq. by rewrite Heq, xorb_nilpotent in G3.
Qed.

(** ** Masks *)

Lemma eqb_true_eq (x y : bool) : eqb x y = true -> x = y.
Proof. apply eqb_prop. Qed.

(** The IPv4 mask of length [n] as bytes, for use by the lemmas below. *)
Definition mask4 (n : Z) : list Z := htonl (u64 (Z.shiftl 0xffffffff (32 - n))).

Lemma masklen2ip_Ok n : 0 <= n <= 32 -> masklen2ip n = Ok (mask4 n).
Proof.
  intros Hn. unfold masklen2ip, IPV4_MAX_BITLEN.
  destruct (Z.leb_spec 0 n), (Z.leb_spec n 32); done || lia.
Qed.

Lemma mask4_bits n i : 0 <= n <= 32 -> 0 <= i < 32 -> bit_at (mask4 n) i = (i <? n).
Proof.
  intros Hn Hi. apply eqb_true_eq. revert i Hi.
  apply (check_range_spec (fun i => eqb (bit_at (mask4 n) i) (i <? n)) 0 32).
  by_range (fun n => check_range (fun i => eqb (bit_at (mask4 n) i) (i <? n)) 0 32) 0 33%nat n.
Qed.

Lemma mask4_ok n : bytes_ok (mask4 n).
Proof. apply be_bytes_ok. Qed.

Lemma length_mask4 n : length (mask4 n) = 4%nat.
Proof. apply length_be_bytes. Qed.

(** The two IPv4 mask conversions are inverse: [masklen2ip] succeeds exactly for lengths 0 to
    32, gives the address whose first [n] bits are 1 and the others 0, and [ip_masklen] of
    that address is [n] again. *)
Theorem masklen_ipv4_roundtrip n :
  (0 <= n <= 32 ->
   exists m, masklen2ip n = Ok m /\ length m = 4%nat /\
     (forall i, 0 <= i < 32 -> bit_at m i = (i <? n)) /\ ip_masklen m = n) /\
  (~ 0 <= n <= 32 -> masklen2ip n = Abort).
Proof.
  split; intros Hn.
  - exists (mask4 n). split; [by apply masklen2ip_Ok |]. split; [apply length_mask4 |].
    split; [intros; by apply mask4_bits |]. apply Z.eqb_eq.
    by_range (fun n => ip_masklen (mask4 n) =? n) 0 33%nat n.
  - unfold masklen2ip, IPV4_MAX_BITLEN. destruct (Z.leb_spec 0 n), (Z.leb_spec n 32); done || lia.
Qed.

Lemma masklen2ip6_bits n i :
  0 <= n <= 128 -> 0 <= i < 128 -> bit_at (nth (Z.to_nat n) maskbytes6 []) i = (i <? n).
Proof.
  intros Hn Hi. apply eqb_true_eq. revert i Hi.
  apply (check_range_spec (fun i => eqb (bit_at (nth (Z.to_nat n) maskbytes6 []) i) (i <? n)) 0 128).
  by_range (fun n => check_range (fun i => eqb (bit_at (nth (Z.to_nat n) maskbytes6 []) i) (i <? n)) 0 128)
    0 129%nat n.
Qed.

Global Instance res_eq_dec {A} `{EqDecision A} : EqDecision (res A).
Proof. solve_decision. Defined.

(** The 129-row table [maskbytes6] is the IPv6 mask function, so [masklen2ip6] gives the
    address with [n] leading ones for every length 0 to 128, and [ip6_masklen] recovers [n]
    for every length below 128; on the all-ones mask it reads the byte after the address. *)
Theorem masklen_ipv6_roundtrip n :
  0 <= n <= 128 ->
  exists m, masklen2ip6 n = Ok m /\ length m = 16%nat /\
    (forall i, 0 <= i < 128 -> bit_at m i = (i <? n)) /\
    ip6_masklen m = (if n =? 128 then Oob else Ok n).
Proof.
  intros Hn. exists (nth (Z.to_nat n) maskbytes6 []).
  split.
  { unfold masklen2ip6, IPV6_MAX_BITLEN. destruct (Z.leb_spec 0 n), (Z.leb_spec n 128); done || lia. }
  split.
  { apply Nat.eqb_eq. by_range (fun n => (length (nth (Z.to_nat n) maskbytes6 []) =? 16)%nat) 0 129%nat n. }
  split; [intros; by apply masklen2ip6_bits |].
  apply (bool_decide_eq_true_1 _).
  by_range (fun n => bool_decide (ip6_masklen (nth (Z.to_nat n) maskbytes6 []) = (if n =? 128 then Oob else Ok n)))
    0 129%nat n.
Qed.

Lemma byte_at_zip_with f a b i :
  0 <= i < Z.of_nat (length a) -> length a = length b ->
  byte_at (zip_with f a b) i = f (byte_at a i) (byte_at b i).
Proof.
  intros Hi Hl. unfold byte_at. set (k := Z.to_nat i). assert (k < length a)%nat as Hk by lia. clearbody k.
  clear i Hi. revert b k Hl Hk. induction a as [|x a IH]; intros [|y b] [|k] Hl Hk; cbn in *; try lia; try done.
  apply IH; lia.
Qed.

Lemma zip_with_bytes_ok f a b :
  (forall x y, byte_ok x -> byte_ok y -> byte_ok (f x y)) ->
  bytes_ok a -> bytes_ok b -> bytes_ok (zip_with f a b).
Proof.
  intros Hf Ha. revert b. induction Ha; intros b Hb; [constructor |].
  inversion Hb; subst; cbn; constructor; [by apply Hf | by apply IHHa].
Qed.

Lemma bit_at_zip_land a b i :
  0 <= i < 8 * Z.of_nat (length a) -> length a = length b ->
  bit_at (zip_with Z.land a b) i = bit_at a i && bit_at b i.
Proof.
  intros Hi Hl. unfold bit_at. rewrite byte_at_zip_with; [apply Z.land_spec | | done].
  split; [apply Z.div_pos; lia | apply Z.div_lt_upper_bound; lia].
Qed.

(** ** Masking *)

Lemma apply_mask_ipv4_Ok p :
  prefix_wf p -> prefixlen p <= 32 ->
  exists q, apply_mask_ipv4 p = Ok q /\ family q = family p /\ prefixlen q = prefixlen p /\
    prefix_wf q /\ drop 4 (u q) = drop 4 (u p) /\
    forall i, 0 <= i < 32 -> bit_at (u q) i = (i <? prefixlen p) && bit_at (u p) i.
Proof.
  intros (Hl & Hb & Hp) H32. unfold apply_mask_ipv4. rewrite masklen2ip_Ok by lia. cbn [mbind res_bind].
  assert (length (prefix4 p) = 4%nat) as L4 by (unfold prefix4; rewrite length_take; lia).
  assert (length (addr_and (prefix4 p) (mask4 (prefixlen p))) = 4%nat) as La.
  { unfold addr_and. rewrite length_zip_with, L4, length_mask4. done. }
  eexists. split; [done |]. unfold set_u_head. rewrite La. cbn [family prefixlen u].
  split; [done |]. split; [done |]. split.
  - split; [| split; [| done]].
    + cbn [u]. rewrite length_app, La, length_drop. lia.
    + apply bytes_ok_app. split; [| by apply bytes_ok_drop].
      apply zip_with_bytes_ok; [| by apply bytes_ok_take | apply mask4_ok].
      intros x y Hx Hy. apply byte_ok_land; [done | apply Hy].
  - split; [by rewrite drop_app_length' by done |]. intros i Hi.
    assert (bit_at (addr_and (prefix4 p) (mask4 (prefixlen p)) ++ drop 4 (u p)) i =
            bit_at (addr_and (prefix4 p) (mask4 (prefixlen p))) i) as ->.
    { unfold bit_at. rewrite byte_at_app_l; [done |]. rewrite La.
      split; [apply Z.div_pos; lia | apply Z.div_lt_upper_bound; lia]. }
    unfold addr_and. rewrite bit_at_zip_land, mask4_bits by (rewrite ?L4, ?length_mask4; lia).
    rewrite andb_comm. f_equal. unfold bit_at, prefix4. rewrite byte_at_take; [done |].
    split; [apply Z.div_pos; lia | apply Z.div_lt_upper_bound; lia].
Qed.

Lemma zero_from_spec pnt index n :
  length pnt = 16%nat -> (16 <= index + n)%nat ->
  length (zero_from pnt index n) = 16%nat /\
  (bytes_ok pnt -> bytes_ok (zero_from pnt index n)) /\
  forall j, 0 <= j < 16 ->
    byte_at (zero_from pnt index n) j = if Z.of_nat index <=? j then 0 else byte_at pnt j.
Proof.
  revert pnt index. induction n as [|n IH]; intros pnt index Hl Hn; cbn [zero_from].
  - repeat split; [done | done |]. intros j Hj. by destruct (Z.leb_spec (Z.of_nat index) j); [lia |].
  - destruct (Nat.ltb_spec index 16) as [Hlt | Hge].
    + destruct (IH (<[index:=0]> pnt) (S index)) as (L & B & S); [by rewrite length_insert | lia |].
      split; [done |]. split.
      { intros Hb. apply B, bytes_ok_insert; [done | split; lia]. }
      intros j Hj. rewrite S, byte_at_insert by lia.
      destruct (Z.leb_spec (Z.of_nat (Datatypes.S index)) j), (Z.leb_spec (Z.of_nat index) j),
        (Z.eqb_spec j (Z.of_nat index)); done || lia.
    + repeat split; [done | done |]. intros j Hj. by destruct (Z.leb_spec (Z.of_nat index) j); [lia |].
Qed.

Lemma apply_mask_ipv6_spec p :
  prefix_wf p ->
  let q := apply_mask_ipv6 p in
  family q = family p /\ prefixlen q = prefixlen p /\ prefix_wf q /\
  forall i, 0 <= i < 128 -> bit_at (u q) i = (i <? prefixlen p) && bit_at (u p) i.
Proof.
  intros (Hl & Hb & Hp). unfold apply_mask_ipv6.
  pose proof (Z.div_mod (prefixlen p) 8) as Hdm. pose proof (Z.mod_pos_bound (prefixlen p) 8) as Hmod.
  destruct (Z.ltb_spec (prefixlen p / 8) 16) as [Hlt | Hge]; cbn [family prefixlen u].
  2: { repeat split; try done; try lia. intros i Hi. destruct (Z.ltb_spec i (prefixlen p)); [done | lia]. }
  assert (0 <= prefixlen p / 8) as Hq by (apply Z.div_pos; lia).
  set (b := Z.land _ _).
  assert (byte_ok b) as Hbk by (apply byte_ok_land; [by apply byte_at_ok | apply maskbit_ok]).
  destruct (zero_from_spec (<[Z.to_nat (prefixlen p / 8):=b]> (u p)) (S (Z.to_nat (prefixlen p / 8))) 16)
    as (L & B & S); [by rewrite length_insert | lia |].
  split; [done |]. split; [done |]. split.
  { split; [done |]. split; [| done]. by apply B, bytes_ok_insert. }
  intros i Hi. pose proof (Z.div_mod i 8) as Hidm. pose proof (Z.mod_pos_bound i 8) as Himod.
  unfold bit_at. rewrite S, byte_at_insert by lia.
  destruct (Z.leb_spec (Z.of_nat (Datatypes.S (Z.to_nat (prefixlen p / 8)))) (i / 8)) as [Hge | Hlt'].
  - rewrite Z.bits_0. destruct (Z.ltb_spec i (prefixlen p)); [lia | done].
  - destruct (Z.eqb_spec (i / 8) (Z.of_nat (Z.to_nat (prefixlen p / 8)))) as [E | E].
    + unfold b. rewrite Z.land_spec, maskbit_testbit, andb_comm by lia.
      replace (prefixlen p / 8) with (i / 8) by lia. f_equal.
      destruct (Z.leb_spec (8 - prefixlen p mod 8) (7 - i mod 8)), (Z.ltb_spec i (prefixlen p)); done || lia.
    + destruct (Z.ltb_spec i (prefixlen p)); [done | lia].
Qed.

(** A prefix of a supported family whose length fits the family. *)
Definition prefix_fits (p : prefix) : Prop :=
  prefix_wf p /\ prefix_blen p <> 0 /\ prefixlen p <= 8 * prefix_blen p.

Lemma apply_mask_Ok p :
  prefix_fits p ->
  exists q, apply_mask p = Ok q /\ family q = family p /\ prefixlen q = prefixlen p /\ prefix_wf q /\
    (forall i, 8 * prefix_blen p <= i < 128 -> bit_at (u q) i = bit_at (u p) i) /\
    forall i, 0 <= i < 8 * prefix_blen p -> bit_at (u q) i = (i <? prefixlen p) && bit_at (u p) i.
Proof.
  intros (W & Hb & Hlen). unfold apply_mask, prefix_blen in *.
  destruct (family p =? AF_INET).
  - destruct (apply_mask_ipv4_Ok p W Hlen) as (q & E & F & P & Wq & D & S).
    exists q. repeat split; try done; try apply Wq. intros i Hi. unfold bit_at.
    assert (4 <= i / 8) by (apply Z.div_le_lower_bound; unfold IPV4_MAX_BYTELEN in *; lia).
    replace (i / 8) with ((i / 8 - 4) + Z.of_nat 4) by lia.
    by rewrite <- !byte_at_drop, D by lia.
  - destruct (family p =? AF_INET6); [| done].
    destruct (apply_mask_ipv6_spec p W) as (F & P & Wq & S).
    exists (apply_mask_ipv6 p). repeat split; try done; try apply Wq. intros i Hi.
    unfold IPV6_MAX_BYTELEN in Hi. lia.
Qed.

(** Two 16-byte unions with the same 128 bits are equal. *)
Lemma u_bits_ext a b :
  length a = 16%nat -> length b = 16%nat -> bytes_ok a -> bytes_ok b ->
  bits_agree 128 a b -> a = b.
Proof.
  intros La Lb Ha Hb H. apply byte_at_ext; [congruence |]. intros j Hj.
  apply byte_eq_bits; [done | done | lia |]. intros i Hi. apply H. lia.
Qed.

Lemma prefix_ext p q :
  prefix_wf p -> prefix_wf q -> family p = family q -> prefixlen p = prefixlen q ->
  bits_agree 128 (u p) (u q) -> p = q.
Proof.
  destruct p, q. intros (L1 & B1 & _) (L2 & B2 & _). cbn in *. intros -> -> H. f_equal.
  by apply u_bits_ext.
Qed.

(** [apply_mask] clears exactly the host bits: for a prefix that fits its family it returns,
    keeps family, length and the first [prefixlen] bits, and makes the remaining bits of the
    address 0; the result names the same network ([prefix_cmp] 0), and masking it again
    changes nothing. *)
Theorem apply_mask_clears_host_bits p :
  prefix_fits p ->
  exists q, apply_mask p = Ok q /\ family q = family p /\ prefixlen q = prefixlen p /\
    (forall i, 0 <= i < 8 * prefix_blen p -> bit_at (u q) i = (i <? prefixlen p) && bit_at (u p) i) /\
    prefix_cmp p q = 0 /\ apply_mask q = Ok q.
Proof.
  intros Hf. pose proof Hf as (W & Hb & Hlen).
  destruct (apply_mask_Ok p Hf) as (q & E & F & P & Wq & R & S).
  exists q. split; [done |]. split; [done |]. split; [done |]. split; [done |]. split.
  - apply prefix_cmp_0; [done | done |]. split; [done |]. split; [done |].
    intros i Hi. rewrite S by lia. destruct (Z.ltb_spec i (prefixlen p)); [done | lia].
  - assert (prefix_blen q = prefix_blen p) as Eb by (unfold prefix_blen; by rewrite F).
    destruct (apply_mask_Ok q) as (r & E' & F' & P' & Wr & R' & S').
    { split; [done |]. rewrite Eb, P. done. }
    rewrite E'. f_equal. apply prefix_ext; [done .. |].
    intros i Hi. rewrite Eb in *. destruct (decide (i < 8 * prefix_blen p)).
    + rewrite S', !S, P by lia. destruct (i <? prefixlen p); done.
    + by rewrite R' by lia.
Qed.

(** the network and broadcast addresses of a host address: the network address keeps the
    first [n] bits and clears the rest, the broadcast address sets the rest, and for [/31] the
    result is the other host of the link (its last bit is flipped). *)
Theorem ipv4_network_broadcast a n :
  length a = 4%nat -> bytes_ok a -> 0 <= n <= 32 ->
  exists net bc, ipv4_network_addr a n = Ok net /\ ipv4_broadcast_addr a n = Ok bc /\
    forall i, 0 <= i < 32 ->
      bit_at net i = (i <? n) && bit_at a i /\
      bit_at bc i = (if n =? 31 then xorb (n <=? i) (bit_at a i) else (n <=? i) || bit_at a i).
Proof.
  intros La Ha Hn. unfold ipv4_network_addr, ipv4_broadcast_addr. rewrite masklen2ip_Ok by done.
  cbn [mbind res_bind]. eexists _, _. split; [done |]. split; [done |]. intros i Hi.
  assert (0 <= i / 8 < 4) as Hq by (split; [apply Z.div_pos; lia | apply Z.div_lt_upper_bound; lia]).
  pose proof (Z.mod_pos_bound i 8) as Hm.
  assert (length (addr_not (mask4 n)) = 4%nat) as Ln by (unfold addr_not; by rewrite length_map, length_mask4).
  assert (Z.testbit (byte_at (addr_not (mask4 n)) (i / 8)) (7 - i mod 8) = (n <=? i)) as Hnot.
  { unfold addr_not, byte_at. rewrite nth_indep with (d' := u8 (Z.lnot 0)) by
      (rewrite length_map, length_mask4; lia).
    rewrite (map_nth (fun x => u8 (Z.lnot x)) _ 0). unfold wrap at 1. rewrite Z.mod_pow2_bits_low, Z.lnot_spec by lia.
    fold (byte_at (mask4 n) (i / 8)). fold (bit_at (mask4 n) i). rewrite mask4_bits by lia.
    destruct (Z.ltb_spec i n), (Z.leb_spec n i); done || lia. }
  split.
  - unfold addr_and. rewrite bit_at_zip_land, mask4_bits, andb_comm by (rewrite ?length_mask4; lia). done.
  - change (IPV4_MAX_PREFIXLEN - 1) with 31. unfold bit_at.
    destruct (n =? 31); cbn [negb]; unfold addr_or, addr_xor;
      rewrite byte_at_zip_with by (rewrite ?Ln; lia); rewrite ?Z.lor_spec, ?Z.lxor_spec, Hnot.
    + apply xorb_comm.
    + apply orb_comm.
Qed.

(** ** Concrete prefixes *)

Definition ex_net (a b c d len : Z) : prefix := mk_prefix AF_INET len (a :: b :: c :: d :: replicate 12 0).

Lemma ex_net_wf a b c d len :
  byte_ok a -> byte_ok b -> byte_ok c -> byte_ok d -> 0 <= len <= 32 -> prefix_fits (ex_net a b c d len).
Proof.
  intros. split; [| split; [done | change (len <= 32); lia]]. split; [done |]. split; [| cbn; lia].
  cbn. repeat (constructor; [first [done | split; lia] |]). constructor.
Qed.

Ltac ex_net_wf :=
  lazymatch goal with
  | |- prefix_wf (ex_net ?a ?b ?c ?d ?len) => apply (proj1 (ex_net_wf a b c d len ltac:(split; lia)
      ltac:(split; lia) ltac:(split; lia) ltac:(split; lia) ltac:(lia)))
  | |- prefix_fits (ex_net ?a ?b ?c ?d ?len) => apply (ex_net_wf a b c d len); first [split; lia | lia]
  end.

Lemma prefix_match_correct_witness :
  prefix_match (ex_net 10 0 0 0 8) (ex_net 10 1 0 0 16) = true <-> covers (ex_net 10 0 0 0 8) (ex_net 10 1 0 0 16).
Proof.
  apply (prefix_match_correct (ex_net 10 0 0 0 8) (ex_net 10 1 0 0 16) (ex_net 10 1 2 0 24)); ex_net_wf.
Defined.

Lemma prefix_cmp_mutual_match_witness : prefix_cmp (ex_net 10 0 0 1 8) (ex_net 10 0 0 2 8) = 0.
Proof.
  rewrite (prefix_cmp_mutual_match (ex_net 10 0 0 1 8) (ex_net 10 0 0 2 8)); [reflexivity | ex_net_wf | ex_net_wf].
Defined.

Lemma prefix_common_bits_longest_witness :
  bits_agree 15 (u (ex_net 10 1 0 0 16)) (u (ex_net 10 0 0 0 16)).
Proof.
  apply (prefix_common_bits_longest (ex_net 10 1 0 0 16) (ex_net 10 0 0 0 16)); try ex_net_wf; done.
Defined.

Lemma masklen_ipv4_roundtrip_witness : exists m, masklen2ip 20 = Ok m /\ ip_masklen m = 20.
Proof.
  destruct (masklen_ipv4_roundtrip 20) as [H _]. destruct H as (m & E & _ & _ & R); [lia |].
  exists m. split; [exact E | exact R].
Defined.

Lemma masklen_ipv6_roundtrip_witness : exists m, masklen2ip6 64 = Ok m /\ ip6_masklen m = Ok 64.
Proof.
  destruct (masklen_ipv6_roundtrip 64) as (m & E & _ & _ & R); [lia |].
  exists m. split; [exact E | exact R].
Defined.

Lemma apply_mask_clears_host_bits_witness :
  exists q, apply_mask (ex_net 10 1 2 3 16) = Ok q /\ prefix_cmp (ex_net 10 1 2 3 16) q = 0.
Proof.
  destruct (apply_mask_clears_host_bits (ex_net 10 1 2 3 16)) as (q & E & _ & _ & _ & C & _).
  - ex_net_wf.
  - exists q. split; [exact E | exact C].
Defined.

Lemma ipv4_network_broadcast_witness :
  exists net bc, ipv4_network_addr [10; 1; 2; 3] 24 = Ok net /\ ipv4_broadcast_addr [10; 1; 2; 3] 24 = Ok bc.
Proof.
  destruct (ipv4_network_broadcast [10; 1; 2; 3] 24) as (net & bc & E1 & E2 & _).
  - reflexivity.
  - repeat (constructor; [split; lia |]); constructor.
  - lia.
  - exists net, bc. split; [exact E1 | exact E2].
Defined.
