(* ===== verification/Inet.v ===== *)
(** * Address text: the <arpa/inet.h> functions and lib/sockunion.c

    The address functions of the platform are an interface, [InetText], with what the IPv4 code
    relies on as the class [Inet4Laws].  lib/sockunion.c brings its own [inet_aton], [inet_pton] and
    [inet_ntop] for platforms without them; they are an instance of the interface.  The file also has
    the comparison functions of lib/sockunion.c. *)

From Stdlib Require Import Ascii.
From S2P Require Import Prelude CString Prefix.
Local Open Scope Z_scope.

(** ** The interface *)

Class InetText := {
  (** [inet_aton (cp, inp)]: the address it writes, or [None] when it returns 0 *)
  inet_aton : string -> option (list Z);
  (** [inet_pton (af, src, dst)]: the value it returns and what it writes *)
  inet_pton : Z -> string -> Z * option (list Z);
  (** [inet_ntop (af, src, dst, size)]: the text it writes, or [None] when it returns NULL *)
  inet_ntop : Z -> list Z -> Z -> option string
}.

(** What the callers rely on for IPv4: printing succeeds in a buffer of [INET_ADDRSTRLEN] bytes,
    reads the four bytes at the pointer only, writes at most 15 characters and no slash, and is
    inverted by [inet_aton]. *)
Class Inet4Laws `{InetText} : Prop := {
  inet4_text : forall a, length a = 4%nat -> bytes_ok a ->
    exists s, has_char "/"%char s = false /\ inet_aton s = Some a /\ (String.length s <= 15)%nat /\
      forall rest size, 16 <= size -> inet_ntop AF_INET (a ++ rest) size = Some s
}.

(** ** lib/sockunion.c: the fallback implementations *)

(** The loop of [inet_aton]; at the end of the string [dots] and [addr]. *)
Fixpoint inet_aton_loop (s : string) (dots addr val : Z) : option (Z * Z) :=
  match s with
  | EmptyString => if val >? 255 then None else Some (dots, u64 (Z.lor (Z.shiftl addr 8) val))
  | String c s' =>
      if isdigit c then inet_aton_loop s' dots addr (u64 (val * 10 + (code c - 48)))
      else if Ascii.eqb c "."%char then
        if dots + 1 >? 3 then None
        else if val >? 255 then None
        else inet_aton_loop s' (dots + 1) (u64 (Z.lor (Z.shiftl addr 8) val)) 0
      else None
  end.

Definition su_inet_aton (cp : string) : option (list Z) :=
  match inet_aton_loop cp 0 0 0 with
  | None => None
  | Some (dots, addr) =>
      let addr := if dots <? 3 then u64 (Z.shiftl addr (8 * (3 - dots))) else addr in
      Some (htonl addr)
  end.

Definition su_inet_pton (family : Z) (strptr : string) : Z * option (list Z) :=
  if family =? AF_INET then
    match su_inet_aton strptr with
    | Some in_val => (1, Some in_val)
    | None => (0, None)
    end
  else (-1, None).

(** ["%d.%d.%d.%d"] *)
Definition dotted (a b c d : Z) : string :=
  sapp (dec a) (String "." (sapp (dec b) (String "." (sapp (dec c) (String "." (dec d)))))).

Arguments dotted : simpl never.

Definition su_inet_ntop (family : Z) (p : list Z) (len : Z) : option string :=
  if family =? AF_INET then
    let temp := String.substring 0 15 (dotted (byte_at p 0) (byte_at p 1) (byte_at p 2) (byte_at p 3)) in
    if Z.of_nat (String.length temp) >=? len then None else Some temp
  else None.

#[export] Instance sockunion_inet : InetText := {
  inet_aton := su_inet_aton;
  inet_pton := su_inet_pton;
  inet_ntop := su_inet_ntop
}.

(** ** Comparison of socket addresses *)

Definition sockunion_same (su1 su2 : sockunion) : bool :=
  if negb (sa_family su1 =? sa_family su2) then false
  else if sa_family su1 =? AF_INET then bool_decide (sin_addr su1 = sin_addr su2)
  else if sa_family su1 =? AF_INET6 then bool_decide (sin6_addr su1 = sin6_addr su2)
  else true.

Fixpoint in6addr_cmp_from (p1 p2 : list Z) (i : Z) (n : nat) : Z :=
  match n with
  | O => 0
  | S n' =>
      if byte_at p1 i >? byte_at p2 i then 1
      else if byte_at p1 i <? byte_at p2 i then -1
      else in6addr_cmp_from p1 p2 (i + 1) n'
  end.

Definition in6addr_cmp (addr1 addr2 : list Z) : Z := in6addr_cmp_from addr1 addr2 0 16.

Definition sockunion_cmp (su1 su2 : sockunion) : Z :=
  if sa_family su1 >? sa_family su2 then 1
  else if sa_family su1 <? sa_family su2 then -1
  else if sa_family su1 =? AF_INET then
    if ntohl (sin_addr su1) =? ntohl (sin_addr su2) then 0
    else if ntohl (sin_addr su1) >? ntohl (sin_addr su2) then 1
    else -1
  else if sa_family su1 =? AF_INET6 then in6addr_cmp (sin6_addr su1) (sin6_addr su2)
  else 0.

(** ** The fallback satisfies the interface *)

Lemma atoi_digits_ge s v : 0 <= v -> all_digits s = true -> v <= atoi_digits v s.
Proof.
  revert v. induction s as [|c s IH]; intros v Hv; cbn; [lia |].
  intros H. apply andb_true_iff in H as [Hc Hs]. rewrite Hc.
  unfold isdigit in Hc. apply andb_true_iff in Hc as [H1 _]. apply Z.leb_le in H1.
  etransitivity; [| apply IH; [lia | done]]. lia.
Qed.

Lemma inet_aton_digits s rest dots addr v :
  0 <= v -> all_digits s = true -> atoi_digits v s <= 255 ->
  inet_aton_loop (sapp s rest) dots addr v = inet_aton_loop rest dots addr (atoi_digits v s).
Proof.
  revert v. induction s as [|c s IH]; intros v Hv Hd Hle; cbn in *; [done |].
  apply andb_true_iff in Hd as [Hc Hs]. rewrite Hc in *.
  assert (48 <= code c) by (unfold isdigit in Hc; apply andb_true_iff in Hc as [H1 _]; by apply Z.leb_le in H1).
  pose proof (atoi_digits_ge s (10 * v + (code c - 48)) ltac:(lia) Hs).
  rewrite (wrap_small 64) by (unfold in_u; lia). rewrite (Z.mul_comm v 10). apply IH; [lia | done | done].
Qed.

(** One component and the dot after it. *)
Lemma inet_aton_part n rest dots addr :
  byte_ok n -> dots < 3 -> 0 <= addr < 2 ^ 24 ->
  inet_aton_loop (sapp (dec n) (String "." rest)) dots addr 0 =
  inet_aton_loop rest (dots + 1) (addr * 256 + n) 0.
Proof.
  intros Hn Hd Ha. unfold byte_ok in Hn.
  pose proof (atoi_digits_dec n "" ltac:(lia) ltac:(done)) as E. rewrite sapp_nil_r in E.
  rewrite inet_aton_digits; [| lia | apply dec_digits; lia | rewrite E; lia]. rewrite E.
  cbn [inet_aton_loop]. change (isdigit ".") with false. change (Ascii.eqb "." ".") with true. cbn match.
  destruct (Z.gtb_spec (dots + 1) 3); [lia |]. destruct (Z.gtb_spec n 255); [lia |].
  rewrite lor_shiftl_add, (wrap_small 64) by (unfold in_u; lia). done.
Qed.

Lemma inet_aton_last n dots addr :
  byte_ok n -> 0 <= addr < 2 ^ 24 ->
  inet_aton_loop (dec n) dots addr 0 = Some (dots, addr * 256 + n).
Proof.
  intros Hn Ha. unfold byte_ok in Hn.
  pose proof (atoi_digits_dec n "" ltac:(lia) ltac:(done)) as E. rewrite sapp_nil_r in E.
  rewrite <- (sapp_nil_r (dec n)). rewrite inet_aton_digits; [| lia | apply dec_digits; lia | rewrite E; lia]. rewrite E. cbn.
  destruct (Z.gtb_spec n 255); [lia |].
  rewrite lor_shiftl_add, (wrap_small 64) by (unfold in_u; lia). done.
Qed.

Lemma su_inet_aton_dotted a b c d :
  byte_ok a -> byte_ok b -> byte_ok c -> byte_ok d -> su_inet_aton (dotted a b c d) = Some [a; b; c; d].
Proof.
  intros Ha Hb Hc Hd. unfold su_inet_aton, dotted, byte_ok in *.
  rewrite !inet_aton_part by (lia || (unfold byte_ok; lia)).
  rewrite inet_aton_last by (unfold byte_ok; lia). cbn [Z.ltb Z.compare].
  replace (0 + 1 + 1 + 1 <? 3) with false by done. f_equal. unfold htonl.
  rewrite (wrap_small 32) by (unfold in_u; lia).
  assert (bytes_ok [a; b; c; d]) as Hok by (repeat (constructor; [done |]); constructor).
  etransitivity; [| exact (be_bytes_be_val [a; b; c; d] Hok)]. cbn [length]. f_equal.
  unfold be_val. cbn [be_val_acc]. rewrite !lor_shiftl_add by lia. lia.
Qed.

(** A component has at most three digits. *)
Lemma dec_length n : byte_ok n -> (String.length (dec n) <= 3)%nat.
Proof.
  intros Hn. unfold byte_ok in Hn. apply Nat.leb_le. by_range (fun n => (String.length (dec n) <=? 3)%nat) 0 256%nat n.
Qed.

Lemma length_sapp s1 s2 : String.length (sapp s1 s2) = (String.length s1 + String.length s2)%nat.
Proof. induction s1; cbn; congruence. Qed.

Lemma substring_all n s : (String.length s <= n)%nat -> String.substring 0 n s = s.
Proof.
  revert s. induction n as [|n IH]; intros [|c s] H; cbn in *; try done; [lia |]. by rewrite IH by lia.
Qed.

Lemma dotted_length a b c d :
  byte_ok a -> byte_ok b -> byte_ok c -> byte_ok d -> (String.length (dotted a b c d) <= 15)%nat.
Proof.
  intros. unfold dotted. repeat (rewrite length_sapp; cbn [String.length]).
  pose proof (dec_length a). pose proof (dec_length b). pose proof (dec_length c). pose proof (dec_length d).
  intuition lia.
Qed.

Lemma dotted_no_char ch a b c d :
  byte_ok a -> byte_ok b -> byte_ok c -> byte_ok d -> isdigit ch = false -> Ascii.eqb ch "." = false ->
  has_char ch (dotted a b c d) = false.
Proof.
  intros Ha Hb Hc Hd H1 H2. unfold dotted, byte_ok in *.
  repeat (rewrite has_char_sapp; cbn [has_char]). rewrite H2.
  rewrite !(all_digits_no_char ch) by (done || (apply dec_digits; lia)). done.
Qed.

(** Four bytes. *)
Lemma four_bytes (a : list Z) : length a = 4%nat -> exists w x y z, a = [w; x; y; z].
Proof.
  destruct a as [|w [|x [|y [|z [|? ?]]]]]; try done. intros _. by exists w, x, y, z.
Qed.

#[export] Instance sockunion_inet_laws : Inet4Laws.
Proof.
  split. intros l Hl Hok. destruct (four_bytes l Hl) as (a & b & c & d & ->).
  repeat match goal with H : Forall _ (_ :: _) |- _ => inversion H; subst; clear H
         | H : bytes_ok _ |- _ => inversion H; subst; clear H end.
  exists (dotted a b c d). split; [by apply dotted_no_char |]. split; [by apply su_inet_aton_dotted |].
  split; [by apply dotted_length |]. intros rest size Hs.
  change (inet_ntop AF_INET ([a; b; c; d] ++ rest) size) with
    (let temp := String.substring 0 15 (dotted a b c d) in
     if Z.of_nat (String.length temp) >=? size then None else Some temp). cbn zeta.
  rewrite substring_all by by apply dotted_length.
  pose proof (dotted_length a b c d ltac:(done) ltac:(done) ltac:(done) ltac:(done)).
  destruct (Z.geb_spec (Z.of_nat (String.length (dotted a b c d))) size); [lia | done].
Qed.

(** The fallback [inet_aton] inverts the fallback [inet_ntop]: every IPv4 address prints in at
    most 15 characters and the text reads back as the same four bytes. *)
Theorem inet_fallback_roundtrip a b c d :
  byte_ok a -> byte_ok b -> byte_ok c -> byte_ok d ->
  exists s, su_inet_ntop AF_INET [a; b; c; d] 16 = Some s /\ su_inet_aton s = Some [a; b; c; d] /\
    su_inet_pton AF_INET s = (1, Some [a; b; c; d]).
Proof.
  intros Ha Hb Hc Hd. exists (dotted a b c d).
  change (su_inet_ntop AF_INET [a; b; c; d] 16) with
    (let temp := String.substring 0 15 (dotted a b c d) in
     if Z.of_nat (String.length temp) >=? 16 then None else Some temp). cbn zeta.
  unfold su_inet_pton. change (AF_INET =? AF_INET) with true. cbn match.
  rewrite substring_all, su_inet_aton_dotted by (done || by apply dotted_length).
  pose proof (dotted_length a b c d Ha Hb Hc Hd).
  destruct (Z.geb_spec (Z.of_nat (String.length (dotted a b c d))) 16); [lia | done].
Qed.

Lemma inet_fallback_roundtrip_witness :
  exists s, su_inet_ntop AF_INET [192; 168; 0; 1] 16 = Some s /\ su_inet_aton s = Some [192; 168; 0; 1] /\
    su_inet_pton AF_INET s = (1, Some [192; 168; 0; 1]).
Proof. apply (inet_fallback_roundtrip 192 168 0 1); split; lia. Defined.
