(* ===== verification/PrefixText.v ===== *)
(** * lib/prefix.c: prefixes and text

    The functions of lib/prefix.c that read and print prefixes, over the address-text interface
    of the file Inet.  A function that writes through a pointer returns the new value of the
    object with the value the C function returns. *)

From Stdlib Require Import Ascii.
From S2P Require Import Prelude CString Prefix Inet.
Local Open Scope Z_scope.

Section Text.
Context `{InetText}.

Definition slash : ascii := "/"%char.

Definition set_family_len (fam len : Z) (p : prefix) : prefix := mk_prefix fam len (u p).

(** What [inet_aton (str, &p->prefix)] leaves in [*p], and its return value. *)
Definition aton_into (str : string) (p : prefix) : Z * prefix :=
  match inet_aton str with
  | Some a => (1, set_u_head a p)
  | None => (0, p)
  end.

Definition str2prefix_ipv4 (str : string) (p : prefix) : Z * prefix :=
  match strchr_split slash str with
  | None =>
      let '(ret, p1) := aton_into str p in
      if ret =? 0 then (0, p1)
      else (ret, set_family_len AF_INET IPV4_MAX_BITLEN p1)
  | Some (cp, pnt) =>
      let '(ret, p1) := aton_into cp p in
      let plen := u8 (atoi (stail pnt)) in
      if plen >? IPV4_MAX_PREFIXLEN then (0, p1)
      else (ret, set_family_len AF_INET plen p1)
  end.

(** What [inet_pton (AF_INET6, str, &p->prefix)] leaves in [*p], and its return value. *)
Definition pton6_into (str : string) (p : prefix) : Z * prefix :=
  match inet_pton AF_INET6 str with
  | (ret, Some a) => (ret, set_u_head a p)
  | (ret, None) => (ret, p)
  end.

Definition str2prefix_ipv6 (str : string) (p : prefix) : Z * prefix :=
  match strchr_split slash str with
  | None =>
      let '(ret, p1) := pton6_into str p in
      if ret =? 0 then (0, p1)
      else (ret, set_family_len AF_INET6 IPV6_MAX_BITLEN p1)
  | Some (cp, pnt) =>
      let '(ret, p1) := pton6_into cp p in
      if ret =? 0 then (0, p1)
      else
        let plen := u8 (atoi (stail pnt)) in
        if plen >? IPV6_MAX_BITLEN then (0, p1)
        else (ret, set_family_len AF_INET6 plen p1)
  end.

Definition str2prefix (str : string) (p : prefix) : Z * prefix :=
  let '(ret, p1) := str2prefix_ipv4 str p in
  if negb (ret =? 0) then (ret, p1)
  else
    let '(ret, p2) := str2prefix_ipv6 str p1 in
    if negb (ret =? 0) then (ret, p2) else (0, p2).

Definition BUFSIZ : Z := 8192.

(** [prefix2str]: the text left in [str]; when [inet_ntop] fails the code prints an uninitialised
    buffer. *)
Definition prefix2str (p : prefix) (size : Z) : res string :=
  match inet_ntop (family p) (u p) BUFSIZ with
  | Some buf => Ok (String.substring 0 (Z.to_nat (size - 1)) (sapp buf (String slash (dec (prefixlen p)))))
  | None => Oob
  end.

Fixpoint all_digit (str : string) : Z :=
  match str with
  | EmptyString => 1
  | String c s => if negb (isdigit c) then 0 else all_digit s
  end.

(** [netmask_str2prefix_str (net_str, mask_str, prefix_str)]: the text written when it returns 1 *)
Definition netmask_str2prefix_str (net_str : string) (mask_str : option string) : option string :=
  match inet_aton net_str with
  | None => None
  | Some network =>
      let prefixlen :=
        match mask_str with
        | Some m =>
            match inet_aton m with
            | None => None
            | Some mask => Some (ip_masklen mask)
            end
        | None =>
            let destination := ntohl network in
            if bool_decide (network = [0; 0; 0; 0]) then Some 0
            else if IN_CLASSC destination then Some 24
            else if IN_CLASSB destination then Some 16
            else if IN_CLASSA destination then Some 8
            else None
        end in
      match prefixlen with
      | Some len => Some (sapp net_str (String slash (dec len)))
      | None => None
      end
  end.

(** ** Theorems *)

Lemma set_u_head_u a p : u (set_u_head a p) = a ++ drop (length a) (u p).
Proof. done. Qed.

(** The result of reading [addr/len]. *)
Lemma str2prefix_ipv4_slash s a n q :
  has_char slash s = false -> inet_aton s = Some a -> 0 <= n < 10 ^ 10 ->
  str2prefix_ipv4 (sapp s (String slash (dec n))) q =
    if n mod 256 <=? 32 then (1, set_family_len AF_INET (n mod 256) (set_u_head a q))
    else (0, set_u_head a q).
Proof.
  intros Hs Ha Hn. unfold str2prefix_ipv4, aton_into. rewrite strchr_split_app, Ha by done.
  cbn [stail]. rewrite atoi_dec by done. unfold wrap, IPV4_MAX_PREFIXLEN.
  change (2 ^ 8) with 256.
  destruct (Z.gtb_spec (n mod 256) 32), (Z.leb_spec (n mod 256) 32); done || lia.
Qed.

(** IPv4 prefixes survive printing and reading: for a valid IPv4 prefix and a large enough
    buffer, [str2prefix] of what [prefix2str] wrote succeeds and gives a prefix with the same family,
    length and address ([prefix_same]), whatever the destination held before. *)
Theorem prefix_text_roundtrip `{!Inet4Laws} p q size :
  prefix_fits p -> family p = AF_INET -> length (u q) = 16%nat -> 20 <= size ->
  exists s q', prefix2str p size = Ok s /\ str2prefix s q = (1, q') /\ prefix_same p q' = true.
Proof.
  intros (W & _ & Hlen) Hf Lq Hsz. pose proof W as (Lp & Bp & Hl).
  assert (prefixlen p <= 32) as H32. { unfold prefix_blen in Hlen. rewrite Hf in Hlen. exact Hlen. }
  destruct (inet4_text (take 4 (u p))) as (buf & Hs & Ha & Hb & Hn).
  { rewrite length_take. lia. }
  { by apply bytes_ok_take. }
  specialize (Hn (drop 4 (u p)) BUFSIZ ltac:(unfold BUFSIZ; lia)). rewrite take_drop in Hn.
  unfold prefix2str. rewrite Hf, Hn. eexists _, _. split; [done |].
  rewrite substring_all.
  2: { rewrite length_sapp. cbn [String.length].
       pose proof (dec_length (prefixlen p) ltac:(unfold byte_ok; lia)). lia. }
  unfold str2prefix. rewrite (str2prefix_ipv4_slash buf (take 4 (u p)) (prefixlen p) q) by (done || lia).
  rewrite Z.mod_small by lia. destruct (Z.leb_spec (prefixlen p) 32); [| lia]. cbn [negb Z.eqb].
  split; [done |]. unfold prefix_same. rewrite Hf. cbn [family prefixlen set_family_len].
  rewrite !Z.eqb_refl. cbn [andb u set_u_head set_family_len].
  rewrite take_app_length' by (rewrite length_take; lia). by rewrite bool_decide_eq_true_2.
Qed.

(** A prefix length in IPv4 text is taken modulo 256: after an address that [inet_aton] accepts,
    the text ["/n"] is accepted exactly when [n mod 256 <= 32], with length [n mod 256], so
    [10.0.0.0/264] reads as [10.0.0.0/8]. *)
Theorem str2prefix_ipv4_length_wraps s a n q :
  has_char slash s = false -> inet_aton s = Some a -> 0 <= n < 10 ^ 10 ->
  (str2prefix_ipv4 (sapp s (String slash (dec n))) q).1 <> 0 <-> n mod 256 <= 32.
Proof.
  intros Hs Ha Hn. rewrite (str2prefix_ipv4_slash s a n q Hs Ha Hn).
  destruct (Z.leb_spec (n mod 256) 32); cbn; lia.
Qed.

End Text.

Lemma prefix_text_roundtrip_witness :
  exists s q', prefix2str (ex_net 10 1 2 0 24) 51 = Ok s /\ str2prefix s prefix_new = (1, q') /\
    prefix_same (ex_net 10 1 2 0 24) q' = true.
Proof.
  apply (prefix_text_roundtrip (ex_net 10 1 2 0 24) prefix_new 51).
  - apply ex_net_wf; first [split; lia | lia].
  - reflexivity.
  - reflexivity.
  - lia.
Defined.

Lemma str2prefix_ipv4_length_wraps_witness :
  (str2prefix_ipv4 (sapp "10.0.0.0" (String slash (dec 264))) prefix_new).1 <> 0 <-> 264 mod 256 <= 32.
Proof.
  apply (str2prefix_ipv4_length_wraps "10.0.0.0" [10; 0; 0; 0] 264 prefix_new); [reflexivity | reflexivity | lia].
Defined.

Example str2prefix_264 :
  str2prefix "10.0.0.0/264" prefix_new = (1, ex_net 10 0 0 0 8).
Proof. vm_compute. reflexivity. Qed.
