(* ===== verification/Table.v ===== *)
(** * lib/table.c: the routing table

    A routing table is a binary radix tree of heap-allocated nodes with parent pointers and
    reference counts.  The model keeps the heap: a node is a record at a location, a table is
    its [top] pointer with the nodes it owns, and every operation of lib/table.c is a function
    from table to table that follows and updates pointers as the code does.  A pointer to no
    node is [Oob] when it is followed.

    [node->table] always points to the table that owns the node and is not kept; [aggregate] is
    not used by lib/table.c.  [info] is the client's pointer, [None] for NULL. *)

From S2P Require Import Prelude Prefix.

Definition loc := positive.

(** [struct route_node] *)
Record route_node (A : Type) := mk_node {
  rn_p : prefix;
  rn_parent : option loc;
  rn_left : option loc;      (* link[0] *)
  rn_right : option loc;     (* link[1] *)
  rn_lock : Z;
  rn_info : option A
}.
Arguments mk_node {A} _ _ _ _ _ _.
Arguments rn_p {A} _.
Arguments rn_parent {A} _.
Arguments rn_left {A} _.
Arguments rn_right {A} _.
Arguments rn_lock {A} _.
Arguments rn_info {A} _.

(** [struct route_table]: the top node, the nodes on the heap, and the allocator's next address *)
Record route_table (A : Type) := mk_table {
  rt_top : option loc;
  rt_nodes : gmap loc (route_node A);
  rt_brk : loc
}.
Arguments mk_table {A} _ _ _.
Arguments rt_top {A} _.
Arguments rt_nodes {A} _.
Arguments rt_brk {A} _.

Section Table.
Context {A : Type}.
Implicit Types (t : route_table A) (n m : route_node A) (p : prefix) (l c : loc).

(** ** Field access and update *)

Definition rn_link n (bit : Z) : option loc := if bit =? 0 then rn_left n else rn_right n.
Definition set_rn_link (bit : Z) (c : option loc) n : route_node A :=
  if bit =? 0 then mk_node (rn_p n) (rn_parent n) c (rn_right n) (rn_lock n) (rn_info n)
  else mk_node (rn_p n) (rn_parent n) (rn_left n) c (rn_lock n) (rn_info n).
Definition set_rn_parent (q : option loc) n : route_node A :=
  mk_node (rn_p n) q (rn_left n) (rn_right n) (rn_lock n) (rn_info n).
Definition set_rn_lock (k : Z) n : route_node A :=
  mk_node (rn_p n) (rn_parent n) (rn_left n) (rn_right n) k (rn_info n).
Definition set_rn_info (i : option A) n : route_node A :=
  mk_node (rn_p n) (rn_parent n) (rn_left n) (rn_right n) (rn_lock n) i.

(** Read and write the node at a location. *)
Definition get_node t l : res (route_node A) :=
  match rt_nodes t !! l with Some n => Ok n | None => Oob end.
Definition put_node l n t : route_table A :=
  mk_table (rt_top t) (<[l := n]> (rt_nodes t)) (rt_brk t).
Definition upd_node l (f : route_node A -> route_node A) t : res (route_table A) :=
  n ← get_node t l; Ok (put_node l (f n) t).
Definition set_top (o : option loc) t : route_table A := mk_table o (rt_nodes t) (rt_brk t).

(** ** Operations *)

Definition route_table_init : route_table A := mk_table None ∅ 1%positive.

(** [route_node_new]: a zeroed node at a fresh address *)
Definition route_node_new t : route_table A * loc :=
  (mk_table (rt_top t) (<[rt_brk t := mk_node prefix_new None None None 0 None]> (rt_nodes t))
     (Pos.succ (rt_brk t)), rt_brk t).

Definition route_node_set t (prefix : prefix) : res (route_table A * loc) :=
  let '(t1, node) := route_node_new t in
  n ← get_node t1 node;
  np ← prefix_copy (rn_p n) prefix;
  Ok (put_node node (mk_node np (rn_parent n) (rn_left n) (rn_right n) (rn_lock n) (rn_info n)) t1, node).

Definition route_node_free l t : route_table A :=
  mk_table (rt_top t) (delete l (rt_nodes t)) (rt_brk t).

(** First loop of [route_common]: copy whole bytes while they agree; returns [i] and [newp]. *)
Fixpoint route_common_bytes (np pp newp : list Z) (i : nat) (n : nat) : nat * list Z :=
  match n with
  | O => (i, newp)
  | S n' =>
      if byte_at np (Z.of_nat i) =? byte_at pp (Z.of_nat i)
      then route_common_bytes np pp (<[i := byte_at np (Z.of_nat i)]> newp) (S i) n'
      else (i, newp)
  end.

(** [while (new->prefixlen < p->prefixlen && !(mask & diff)) { mask >>= 1; new->prefixlen++; }];
    [fuel] bounds [p->prefixlen - new->prefixlen]. *)
Fixpoint route_common_bits (diff mask len plen : Z) (fuel : nat) : Z :=
  match fuel with
  | O => len
  | S f =>
      if (len <? plen) && (Z.land mask diff =? 0)
      then route_common_bits diff (Z.shiftr mask 1) (len + 1) plen f
      else len
  end.

Definition route_common (n p new : prefix) : prefix :=
  let np := u n in
  let pp := u p in
  let '(i, newp) := route_common_bytes np pp (u new) 0 (Z.to_nat (prefixlen p / 8)) in
  let newlen := u8 (Z.of_nat i * 8) in
  if negb (newlen =? prefixlen p) then
    let diff := Z.lxor (byte_at np (Z.of_nat i)) (byte_at pp (Z.of_nat i)) in
    let newlen' := route_common_bits diff 0x80 newlen (prefixlen p) (Z.to_nat (prefixlen p - newlen)) in
    mk_prefix (family new) newlen'
      (<[i := Z.land (byte_at np (Z.of_nat i)) (byte_at maskbit (newlen' mod 8))]> newp)
  else mk_prefix (family new) newlen newp.

Definition set_link t (node new : loc) : res (route_table A) :=
  nd ← get_node t node;
  nw ← get_node t new;
  let bit := prefix_bit (u (rn_p nw)) (prefixlen (rn_p nd)) in
  t1 ← upd_node node (set_rn_link bit (Some new)) t;
  upd_node new (set_rn_parent (Some node)) t1.

Definition route_lock_node t (node : loc) : res (route_table A) :=
  upd_node node (fun n => set_rn_lock (u32 (rn_lock n + 1)) n) t.

(** The walk down shared by the three searches has at most one step per prefix length. *)
Definition walk_fuel : nat := 257.

(** [while (node && node->p.prefixlen <= p->prefixlen && prefix_match (&node->p, p))] of
    [route_node_match] *)
Fixpoint route_node_match_loop (fuel : nat) t p (node matched : option loc) : res (option loc) :=
  match node with
  | None => Ok matched
  | Some l =>
      n ← get_node t l;
      if (prefixlen (rn_p n) <=? prefixlen p) && prefix_match (rn_p n) p then
        let matched := if rn_info n then Some l else matched in
        if prefixlen (rn_p n) =? prefixlen p then Ok matched
        else match fuel with
             | O => Oob
             | S f => route_node_match_loop f t p
                        (rn_link n (prefix_bit (u p) (prefixlen (rn_p n)))) matched
             end
      else Ok matched
  end.

Definition route_node_match t p : res (route_table A * option loc) :=
  matched ← route_node_match_loop walk_fuel t p (rt_top t) None;
  match matched with
  | Some l => t' ← route_lock_node t l; Ok (t', Some l)
  | None => Ok (t, None)
  end.

Definition route_node_match_ipv4 t (addr : list Z) : res (route_table A * option loc) :=
  route_node_match t (mk_prefix AF_INET IPV4_MAX_PREFIXLEN (addr ++ replicate 12 0)).

Definition route_node_match_ipv6 t (addr : list Z) : res (route_table A * option loc) :=
  route_node_match t (mk_prefix AF_INET6 IPV6_MAX_BITLEN addr).

Fixpoint route_node_lookup_loop (fuel : nat) t p (node : option loc) : res (option loc) :=
  match node with
  | None => Ok None
  | Some l =>
      n ← get_node t l;
      if (prefixlen (rn_p n) <=? prefixlen p) && prefix_match (rn_p n) p then
        if prefixlen (rn_p n) =? prefixlen p then Ok (if rn_info n then Some l else None)
        else match fuel with
             | O => Oob
             | S f => route_node_lookup_loop f t p
                        (rn_link n (prefix_bit (u p) (prefixlen (rn_p n))))
             end
      else Ok None
  end.

Definition route_node_lookup t p : res (route_table A * option loc) :=
  r ← route_node_lookup_loop walk_fuel t p (rt_top t);
  match r with
  | Some l => t' ← route_lock_node t l; Ok (t', Some l)
  | None => Ok (t, None)
  end.

(** How the walk of [route_node_get] ends: on a node with the same prefix length, or with the
    values of [node] and [match] at the end of the loop. *)
Inductive get_walk := WFound (l : loc) | WStop (node mtch : option loc).

Fixpoint route_node_get_loop (fuel : nat) t p (node mtch : option loc) : res get_walk :=
  match node with
  | None => Ok (WStop None mtch)
  | Some l =>
      n ← get_node t l;
      if (prefixlen (rn_p n) <=? prefixlen p) && prefix_match (rn_p n) p then
        if prefixlen (rn_p n) =? prefixlen p then Ok (WFound l)
        else match fuel with
             | O => Oob
             | S f => route_node_get_loop f t p
                        (rn_link n (prefix_bit (u p) (prefixlen (rn_p n)))) (Some l)
             end
      else Ok (WStop (Some l) mtch)
  end.

(** [if (match) set_link (match, new); else table->top = new;] *)
Definition attach t (mtch : option loc) (new : loc) : res (route_table A) :=
  match mtch with
  | Some q => set_link t q new
  | None => Ok (set_top (Some new) t)
  end.

Definition route_node_get t p : res (route_table A * loc) :=
  w ← route_node_get_loop walk_fuel t p (rt_top t) None;
  match w with
  | WFound l => t' ← route_lock_node t l; Ok (t', l)
  | WStop None mtch =>
      '(t1, new) ← route_node_set t p;
      t2 ← attach t1 mtch new;
      t3 ← route_lock_node t2 new;
      Ok (t3, new)
  | WStop (Some node) mtch =>
      let '(t1, new) := route_node_new t in
      nd ← get_node t1 node;
      nw ← get_node t1 new;
      let cp := route_common (rn_p nd) p (rn_p nw) in
      let cp := mk_prefix (family p) (prefixlen cp) (u cp) in
      t2 ← upd_node new (fun n => mk_node cp (rn_parent n) (rn_left n) (rn_right n) (rn_lock n) (rn_info n)) t1;
      t3 ← set_link t2 new node;
      t4 ← attach t3 mtch new;
      if negb (prefixlen cp =? prefixlen p) then
        '(t5, new') ← route_node_set t4 p;
        t6 ← set_link t5 new new';
        t7 ← route_lock_node t6 new';
        Ok (t7, new')
      else
        t5 ← route_lock_node t4 new;
        Ok (t5, new)
  end.

(** [if (parent->l_left == node) parent->l_left = child; else parent->l_right = child;] *)
Definition replace_child (node : loc) (child : option loc) n : route_node A :=
  if bool_decide (rn_left n = Some node) then set_rn_link 0 child n else set_rn_link 1 child n.

(** [route_node_delete] calls itself on the parent; [fuel] bounds the depth of the node. *)
Fixpoint route_node_delete (fuel : nat) t (node : loc) : res (route_table A) :=
  n ← get_node t node;
  _ ← c_assert (rn_lock n =? 0);
  _ ← c_assert (match rn_info n with None => true | Some _ => false end);
  if (if rn_left n then true else false) && (if rn_right n then true else false) then Ok t
  else
    let child := if rn_left n then rn_left n else rn_right n in
    let parent := rn_parent n in
    t1 ← match child with
         | Some c => upd_node c (set_rn_parent parent) t
         | None => Ok t
         end;
    t2 ← match parent with
         | Some q => upd_node q (replace_child node child) t1
         | None => Ok (set_top child t1)
         end;
    let t3 := route_node_free node t2 in
    match parent with
    | Some q =>
        m ← get_node t3 q;
        if rn_lock m =? 0 then
          match fuel with
          | O => Oob
          | S f => route_node_delete f t3 q
          end
        else Ok t3
    | None => Ok t3
    end.

Definition route_unlock_node t (node : loc) : res (route_table A) :=
  t1 ← upd_node node (fun n => set_rn_lock (u32 (rn_lock n - 1)) n) t;
  n ← get_node t1 node;
  if rn_lock n =? 0 then route_node_delete walk_fuel t1 node else Ok t1.

Definition route_top t : res (route_table A * option loc) :=
  match rt_top t with
  | None => Ok (t, None)
  | Some l => t' ← route_lock_node t l; Ok (t', Some l)
  end.

(** The climb of [route_next]: the right sibling of the first ancestor-or-self that is a left
    child of a parent with two children.  [route_next_until] stops at [limit]. *)
Fixpoint route_next_climb (fuel : nat) t (node : loc) (limit : option loc) : res (option loc) :=
  n ← get_node t node;
  match rn_parent n with
  | None => Ok None
  | Some q =>
      if bool_decide (limit = Some node) then Ok None
      else
        m ← get_node t q;
        match rn_right m with
        | Some r => if bool_decide (rn_left m = Some node) then Ok (Some r)
                    else match fuel with O => Oob | S f => route_next_climb f t q limit end
        | None => match fuel with O => Oob | S f => route_next_climb f t q limit end
        end
  end.

(** lock [next], then unlock the node the step started from *)
Definition lock_then_unlock t (next start : loc) : res (route_table A * option loc) :=
  t1 ← route_lock_node t next;
  t2 ← route_unlock_node t1 start;
  Ok (t2, Some next).

Definition route_next_until_opt t (node : loc) (limit : option loc) : res (route_table A * option loc) :=
  n ← get_node t node;
  match rn_left n, rn_right n with
  | Some next, _ => lock_then_unlock t next node
  | None, Some next => lock_then_unlock t next node
  | None, None =>
      r ← route_next_climb walk_fuel t node limit;
      match r with
      | Some next => lock_then_unlock t next node
      | None => t1 ← route_unlock_node t node; Ok (t1, None)
      end
  end.

Definition route_next t (node : loc) : res (route_table A * option loc) :=
  route_next_until_opt t node None.

Definition route_next_until t (node limit : loc) : res (route_table A * option loc) :=
  route_next_until_opt t node (Some limit).


(** ** Well-formed tables *)

(** The tree structure: [top] is the only node without a parent; parent and child links agree;
    a child is longer than its parent, lies inside it and hangs on the link selected by the
    first bit after the parent's prefix; every prefix is a valid one; addresses from [rt_brk]
    on are free. *)
Record table_wf t : Prop := {
  wf_top : forall l, rt_top t = Some l -> exists n, rt_nodes t !! l = Some n /\ rn_parent n = None;
  wf_root : forall l n, rt_nodes t !! l = Some n -> rn_parent n = None -> rt_top t = Some l;
  wf_parent : forall l n q, rt_nodes t !! l = Some n -> rn_parent n = Some q ->
    exists m, rt_nodes t !! q = Some m /\
      rn_link m (Z.b2z (bit_at (u (rn_p n)) (prefixlen (rn_p m)))) = Some l;
  wf_child : forall l n b c, rt_nodes t !! l = Some n -> rn_link n (Z.b2z b) = Some c ->
    exists m, rt_nodes t !! c = Some m /\ rn_parent m = Some l /\
      prefixlen (rn_p n) < prefixlen (rn_p m) /\
      bits_agree (prefixlen (rn_p n)) (u (rn_p n)) (u (rn_p m)) /\
      bit_at (u (rn_p m)) (prefixlen (rn_p n)) = b;
  wf_pfx : forall l n, rt_nodes t !! l = Some n -> prefix_wf (rn_p n);
  wf_brk : forall l n, rt_nodes t !! l = Some n -> (l < rt_brk t)%positive
}.

(** The reference counts: a node that nobody holds carries no information and is there only
    because it has two children. *)
Definition locks_wf t : Prop :=
  forall l n, rt_nodes t !! l = Some n ->
    in_u 32 (rn_lock n) /\
    (rn_lock n = 0 -> rn_info n = None /\ is_Some (rn_left n) /\ is_Some (rn_right n)).

Lemma prefix_bit_bit_at a i : prefix_bit a i = Z.b2z (bit_at a i).
Proof.
  unfold prefix_bit, bit_at. rewrite Z.testbit_odd.
  replace 1 with (Z.ones 1) by done. rewrite Z.land_ones by lia. change (2 ^ 1) with 2.
  by rewrite Zmod_odd, <- Z.bit0_odd.
Qed.

Lemma get_node_Some t l n : rt_nodes t !! l = Some n -> get_node t l = Ok n.
Proof. intros H. unfold get_node. by rewrite H. Qed.

Lemma rn_link_false n : rn_link n (Z.b2z false) = rn_left n.
Proof. done. Qed.

Lemma rn_link_true n : rn_link n (Z.b2z true) = rn_right n.
Proof. done. Qed.

(** A parent's prefix covers what its child's covers. *)
Lemma wf_parent_covers t l n q p :
  table_wf t -> rt_nodes t !! l = Some n -> rn_parent n = Some q -> covers (rn_p n) p ->
  exists m, rt_nodes t !! q = Some m /\ covers (rn_p m) p /\ prefixlen (rn_p m) < prefixlen (rn_p n) /\
    rn_link m (Z.b2z (bit_at (u p) (prefixlen (rn_p m)))) = Some l.
Proof.
  intros W Hl Hq [Hlen Hag].
  destruct (wf_parent t W l n q Hl Hq) as (m & Hm & Hlink).
  destruct (wf_child t W q m _ l Hm Hlink) as (n' & Hn' & _ & Hlt & Hag' & _).
  assert (n' = n) by congruence. subst n'. clear Hn'.
  exists m. split; [done |]. split; [split; [lia |] |].
  - etransitivity; [exact Hag' |]. by apply (bits_agree_le (prefixlen (rn_p n))); [lia |].
  - split; [done |]. destruct (wf_pfx t W q m Hm) as (_ & _ & ? & _). rewrite <- Hag by lia. done.
Qed.

(** Every node has the root above it. *)
Lemma wf_root_covers t l n p :
  table_wf t -> rt_nodes t !! l = Some n -> covers (rn_p n) p ->
  exists r m, rt_top t = Some r /\ rt_nodes t !! r = Some m /\ covers (rn_p m) p /\
    (prefixlen (rn_p m) < prefixlen (rn_p n) \/ r = l).
Proof.
  intros W. remember (Z.to_nat (prefixlen (rn_p n))) as k eqn:Hk. revert l n Hk.
  induction (lt_wf k) as [k _ IH]. intros l n Hk Hl Hc.
  destruct (rn_parent n) as [q|] eqn:Hq.
  - destruct (wf_parent_covers t l n q p W Hl Hq Hc) as (m & Hm & Hcm & Hlt & _).
    destruct (wf_pfx t W q m Hm) as (_ & _ & ? & _).
    destruct (IH (Z.to_nat (prefixlen (rn_p m)))) with (l := q) (n := m) as (r & m' & ? & ? & ? & Hd);
      [lia | done | done | done |].
    exists r, m'. split_and!; [done .. |]. left. destruct Hd as [? | ->]; [lia |].
    assert (m' = m) by congruence. subst. lia.
  - exists l, n. split_and!; [by apply (wf_root t W l n) | done | done | by right].
Qed.

(** Nodes that cover the same [p] form one path from the root: two of equal length are the same
    node, and from a shorter one the link selected by [p] leads towards a longer one. *)
Lemma covering_path t p :
  table_wf t ->
  forall k l n, rt_nodes t !! l = Some n -> covers (rn_p n) p -> Z.to_nat (prefixlen (rn_p n)) = k ->
  forall l0 n0, rt_nodes t !! l0 = Some n0 -> covers (rn_p n0) p ->
    (prefixlen (rn_p n0) = prefixlen (rn_p n) -> l0 = l) /\
    (prefixlen (rn_p n0) < prefixlen (rn_p n) ->
       exists c m, rn_link n0 (Z.b2z (bit_at (u p) (prefixlen (rn_p n0)))) = Some c /\
         rt_nodes t !! c = Some m /\ covers (rn_p m) p /\
         prefixlen (rn_p n0) < prefixlen (rn_p m) <= prefixlen (rn_p n)).
Proof.
  intros W k. induction (lt_wf k) as [k _ IH]. intros l n Hl Hc Hk l0 n0 Hl0 Hc0.
  pose proof (wf_pfx t W l n Hl) as (_ & _ & ? & _). pose proof (wf_pfx t W l0 n0 Hl0) as (_ & _ & ? & _).
  split.
  - intros Heq. destruct (rn_parent n) as [q|] eqn:Hq; destruct (rn_parent n0) as [q0|] eqn:Hq0.
    + destruct (wf_parent_covers t l n q p W Hl Hq Hc) as (m & Hm & Hcm & Hlt & Hlk).
      destruct (wf_parent_covers t l0 n0 q0 p W Hl0 Hq0 Hc0) as (m0 & Hm0 & Hcm0 & Hlt0 & Hlk0).
      pose proof (wf_pfx t W q m Hm) as (_ & _ & ? & _). pose proof (wf_pfx t W q0 m0 Hm0) as (_ & _ & ? & _).
      destruct (IH (Z.to_nat (prefixlen (rn_p m))) ltac:(lia) q m Hm Hcm eq_refl q0 m0 Hm0 Hcm0) as [U P].
      destruct (IH (Z.to_nat (prefixlen (rn_p m0))) ltac:(lia) q0 m0 Hm0 Hcm0 eq_refl q m Hm Hcm) as [_ P0].
      destruct (Z.lt_trichotomy (prefixlen (rn_p m0)) (prefixlen (rn_p m))) as [L | [E | L]].
      * destruct (P L) as (c & m' & Hc' & Hm' & _ & ? & ?).
        rewrite Hlk0 in Hc'. simplify_eq. lia.
      * specialize (U E). subst q0. assert (m0 = m) by congruence. subst. congruence.
      * destruct (P0 L) as (c & m' & Hc' & Hm' & _ & ? & ?).
        rewrite Hlk in Hc'. simplify_eq. lia.
    + destruct (wf_root_covers t l n p W Hl Hc) as (r & m & Hr & Hm & _ & Hd).
      assert (r = l0) by (pose proof (wf_root t W l0 n0 Hl0 Hq0); congruence). subst r.
      destruct Hd as [? | ?]; [| done]. assert (m = n0) by congruence. subst. lia.
    + destruct (wf_root_covers t l0 n0 p W Hl0 Hc0) as (r & m & Hr & Hm & _ & Hd).
      assert (r = l) by (pose proof (wf_root t W l n Hl Hq); congruence). subst r.
      destruct Hd as [? | ?]; [| done]. assert (m = n) by congruence. subst. lia.
    + pose proof (wf_root t W l n Hl Hq). pose proof (wf_root t W l0 n0 Hl0 Hq0). congruence.
  - intros Hlt. destruct (rn_parent n) as [q|] eqn:Hq.
    2: { destruct (wf_root_covers t l0 n0 p W Hl0 Hc0) as (r & m & Hr & Hm & _ & Hd).
         assert (r = l) by (pose proof (wf_root t W l n Hl Hq); congruence). subst r.
         assert (m = n) by congruence. subst. destruct Hd as [? | ->]; [lia |].
         assert (n0 = n) by congruence. subst. lia. }
    destruct (wf_parent_covers t l n q p W Hl Hq Hc) as (m & Hm & Hcm & Hltm & Hlk).
    pose proof (wf_pfx t W q m Hm) as (_ & _ & ? & _).
    destruct (Z.lt_trichotomy (prefixlen (rn_p n0)) (prefixlen (rn_p m))) as [L | [E | L]].
    + destruct (IH (Z.to_nat (prefixlen (rn_p m))) ltac:(lia) q m Hm Hcm eq_refl l0 n0 Hl0 Hc0) as [_ P].
      destruct (P L) as (c & m' & ? & ? & ? & ? & ?). exists c, m'. split_and!; try done; lia.
    + destruct (IH (Z.to_nat (prefixlen (rn_p m))) ltac:(lia) q m Hm Hcm eq_refl l0 n0 Hl0 Hc0) as [U _].
      specialize (U E). subst l0. assert (n0 = m) by congruence. subst n0.
      exists l, n. split_and!; try done; lia.
    + destruct (IH (Z.to_nat (prefixlen (rn_p n0))) ltac:(lia) l0 n0 Hl0 Hc0 eq_refl q m Hm Hcm) as [_ P].
      destruct (P L) as (c & m' & Hc' & Hm' & _ & ? & ?). rewrite Hlk in Hc'. simplify_eq. lia.
Qed.

Lemma covering_unique t p l n l0 n0 :
  table_wf t -> rt_nodes t !! l = Some n -> rt_nodes t !! l0 = Some n0 ->
  covers (rn_p n) p -> covers (rn_p n0) p -> prefixlen (rn_p n0) = prefixlen (rn_p n) -> l0 = l.
Proof. intros W Hl Hl0 Hc Hc0 E. by apply (covering_path t p W _ l n Hl Hc eq_refl l0 n0). Qed.

(** ** Searching *)

(** [node] is where the walk for [p] stands when all covering nodes shorter than [B] are behind
    it: every covering node of length [B] or more lies at or below [node]. *)
Definition ahead t p (B : Z) (node : option loc) : Prop :=
  (forall l, node = Some l -> exists n, rt_nodes t !! l = Some n /\ B <= prefixlen (rn_p n)) /\
  (forall l n, rt_nodes t !! l = Some n -> covers (rn_p n) p -> B <= prefixlen (rn_p n) ->
     exists l0 n0, node = Some l0 /\ rt_nodes t !! l0 = Some n0 /\ covers (rn_p n0) p /\
       prefixlen (rn_p n0) <= prefixlen (rn_p n)).

Lemma ahead_top t p : table_wf t -> ahead t p 0 (rt_top t).
Proof.
  intros W. split.
  - intros l Hl. destruct (wf_top t W l Hl) as (n & Hn & _). exists n. split; [done |].
    by destruct (wf_pfx t W l n Hn) as (_ & _ & ? & _).
  - intros l n Hl Hc _. destruct (wf_root_covers t l n p W Hl Hc) as (r & m & Hr & Hm & Hcm & Hd).
    exists r, m. split_and!; [done .. |]. destruct Hd as [? | ->]; [lia |].
    assert (m = n) by congruence. subst. lia.
Qed.

(** One step of the walk, from a covering node to its link selected by [p]. *)
Lemma ahead_step t p B l n :
  table_wf t -> prefix_wf p -> ahead t p B (Some l) -> rt_nodes t !! l = Some n -> covers (rn_p n) p ->
  ahead t p (prefixlen (rn_p n) + 1) (rn_link n (prefix_bit (u p) (prefixlen (rn_p n)))).
Proof.
  intros W Wp [_ Ha] Hl Hc. rewrite prefix_bit_bit_at. split.
  - intros c Hlk. destruct (wf_child t W l n _ c Hl Hlk) as (m & Hm & _ & Hlt & _).
    exists m. split; [done | lia].
  - intros l' n' Hl' Hc' Hge.
    destruct (covering_path t p W _ l' n' Hl' Hc' eq_refl l n Hl Hc) as [_ P].
    destruct (P ltac:(lia)) as (c & m & Hlk & Hm & Hcm & ?). exists c, m. split_and!; try done; lia.
Qed.

(** The guard of the walks. *)
Lemma walk_guard n p :
  prefix_wf (rn_p n) -> prefix_wf p ->
  (prefixlen (rn_p n) <=? prefixlen p) && prefix_match (rn_p n) p = true <-> covers (rn_p n) p.
Proof.
  intros Wn Wp. rewrite andb_true_iff, prefix_match_spec, Z.leb_le by done.
  split; [tauto |]. intros H. split; [apply H | done].
Qed.

(** [r] is the best match for [p] as far as the nodes shorter than [B] are concerned. *)
Definition best_match t p (B : Z) (r : option loc) : Prop :=
  match r with
  | Some l => exists n, rt_nodes t !! l = Some n /\ is_Some (rn_info n) /\ covers (rn_p n) p /\
      forall l' n', rt_nodes t !! l' = Some n' -> is_Some (rn_info n') -> covers (rn_p n') p ->
        prefixlen (rn_p n') < B -> prefixlen (rn_p n') <= prefixlen (rn_p n)
  | None => forall l' n', rt_nodes t !! l' = Some n' -> is_Some (rn_info n') -> covers (rn_p n') p ->
        prefixlen (rn_p n') < B -> False
  end.

(** [r] is the longest match: the longest of the nodes that cover [p] and carry information. *)
Definition longest_match t p (r : option loc) : Prop := best_match t p 129 r.

Lemma best_match_mono t p B B' r :
  best_match t p B r ->
  (forall l n, rt_nodes t !! l = Some n -> is_Some (rn_info n) -> covers (rn_p n) p ->
     prefixlen (rn_p n) < B' -> prefixlen (rn_p n) < B) ->
  best_match t p B' r.
Proof.
  intros Hb Hno. destruct r as [l|]; cbn in *.
  - destruct Hb as (n & Hl & Hi & Hc & Hmax). exists n. split_and!; try done. eauto.
  - eauto.
Qed.

(** At a covering node the walk updates the best match. *)
Lemma best_match_step t p B l n r :
  table_wf t -> ahead t p B (Some l) -> rt_nodes t !! l = Some n -> covers (rn_p n) p ->
  best_match t p B r ->
  best_match t p (prefixlen (rn_p n) + 1) (if rn_info n then Some l else r).
Proof.
  intros W [_ Ha] Hl Hc Hb. destruct (rn_info n) as [i|] eqn:Hi.
  - exists n. rewrite Hi. split_and!; try done. intros; lia.
  - apply (best_match_mono t p B); [done |]. intros l' n' Hl' Hi' Hc' Hlt.
    destruct (decide (prefixlen (rn_p n') < B)) as [|Hge]; [done |].
    destruct (Ha l' n' Hl' Hc' ltac:(lia)) as (l0 & n0 & E & Hn0 & _ & Hle).
    injection E as <-. assert (n0 = n) by congruence. subst n0.
    assert (l' = l) as -> by (apply (covering_unique t p l n l' n' W Hl Hl' Hc Hc'); lia).
    assert (n' = n) by congruence. subst n'. rewrite Hi in Hi'. by destruct Hi'.
Qed.

(** Where the walk stops, no covering node is left ahead. *)
Lemma ahead_none t p B l n :
  ahead t p B None -> rt_nodes t !! l = Some n -> covers (rn_p n) p -> prefixlen (rn_p n) < B.
Proof.
  intros [_ Ha] Hl Hc. destruct (decide (prefixlen (rn_p n) < B)) as [|Hge]; [done |].
  destruct (Ha l n Hl Hc ltac:(lia)) as (? & ? & ? & _). done.
Qed.

Lemma ahead_mismatch t p B l0 n0 l n :
  ahead t p B (Some l0) -> rt_nodes t !! l0 = Some n0 -> ~ covers (rn_p n0) p ->
  rt_nodes t !! l = Some n -> covers (rn_p n) p -> prefixlen (rn_p n) < B.
Proof.
  intros [_ Ha] Hl0 Hnc Hl Hc. destruct (decide (prefixlen (rn_p n) < B)) as [|Hge]; [done |].
  destruct (Ha l n Hl Hc ltac:(lia)) as (? & ? & ? & ? & ? & ?). simplify_eq. done.
Qed.

Lemma route_node_match_loop_spec t p fuel B node matched :
  table_wf t -> prefix_wf p -> (129 <= Z.of_nat fuel + B)%Z ->
  ahead t p B node -> best_match t p B matched ->
  exists r, route_node_match_loop fuel t p node matched = Ok r /\ longest_match t p r.
Proof.
  intros W Wp. revert B node matched. induction fuel as [|fuel IH]; intros B node matched Hf Ha Hb;
    (destruct node as [l|]; cbn [route_node_match_loop];
     [| exists matched; split; [done |]; apply (best_match_mono t p B); [done |];
        intros; eapply ahead_none; eauto]);
    destruct (proj1 Ha l eq_refl) as (n & Hl & HB); rewrite (get_node_Some t l n Hl);
    cbn [mbind res_bind]; pose proof (wf_pfx t W l n Hl) as Wn;
    (destruct (_ && _) eqn:G;
     [| exists matched; split; [done |]; apply (best_match_mono t p B); [done |]; intros;
        eapply (ahead_mismatch t p B l n); eauto;
        rewrite <- (walk_guard n p) by done; congruence]);
    apply walk_guard in G; try done;
    pose proof (best_match_step t p B l n matched W Ha Hl G Hb) as Hb'.
  - destruct Wn as (_ & _ & ? & ?). lia.
  - destruct (Z.eqb_spec (prefixlen (rn_p n)) (prefixlen p)) as [E | E].
    + eexists. split; [done |]. apply (best_match_mono t p (prefixlen (rn_p n) + 1)); [done |].
      intros l' n' _ _ [? _] _. lia.
    + apply (IH (prefixlen (rn_p n) + 1)); [lia | by apply (ahead_step t p B l n) | done].
Qed.

(** Locking a node changes its reference count only. *)
Definition locked t l : route_table A :=
  mk_table (rt_top t) (alter (fun n => set_rn_lock (u32 (rn_lock n + 1)) n) l (rt_nodes t)) (rt_brk t).

Lemma upd_node_Ok t l n f :
  rt_nodes t !! l = Some n ->
  upd_node l f t = Ok (mk_table (rt_top t) (alter f l (rt_nodes t)) (rt_brk t)).
Proof.
  intros H. unfold upd_node, put_node. rewrite (get_node_Some t l n H). cbn [mbind res_bind].
  do 2 f_equal. apply map_eq. intros j. destruct (decide (j = l)) as [-> |].
  - by rewrite lookup_insert_eq, lookup_alter_eq, H.
  - by rewrite lookup_insert_ne, lookup_alter_ne by congruence.
Qed.

Lemma route_lock_node_Ok t l n : rt_nodes t !! l = Some n -> route_lock_node t l = Ok (locked t l).
Proof. apply upd_node_Ok. Qed.

Lemma best_match_node t p B l : best_match t p B (Some l) -> exists n, rt_nodes t !! l = Some n.
Proof. intros (n & ? & _). by exists n. Qed.

(** C1: longest-prefix match: on a well-formed table [route_node_match] returns, and returns the
    node that carries information, covers [p] and is the longest such node of the whole table,
    with one more reference, or NULL with the table unchanged when no node that carries
    information covers [p]. *)
Theorem route_node_match_longest t p :
  table_wf t -> prefix_wf p ->
  exists r, longest_match t p r /\
    route_node_match t p = Ok (match r with Some l => locked t l | None => t end, r).
Proof.
  intros W Wp.
  destruct (route_node_match_loop_spec t p walk_fuel 0 (rt_top t) None) as (r & E & Hb); try done.
  { by apply ahead_top. }
  { intros l n Hl _ _ Hlt. destruct (wf_pfx t W l n Hl) as (_ & _ & ? & _). lia. }
  exists r. split; [done |]. unfold route_node_match. rewrite E. cbn [mbind res_bind].
  destruct r as [l|]; [| done]. destruct (best_match_node t p 129 l Hb) as (n & Hn).
  by rewrite (route_lock_node_Ok t l n Hn).
Qed.

(** ** Exact search *)

(** Two prefixes of the same length that agree on it: the same network. *)
Definition same_net (p q : prefix) : Prop := covers p q /\ prefixlen p = prefixlen q.

(** [node] is what hangs where the walk for [p] left the table: the [top] pointer, or the link of
    [mtch] selected by [p]. *)
Definition slot t p (mtch node : option loc) : Prop :=
  match mtch with
  | None => node = rt_top t
  | Some q => exists m, rt_nodes t !! q = Some m /\ covers (rn_p m) p /\
      prefixlen (rn_p m) < prefixlen p /\
      node = rn_link m (Z.b2z (bit_at (u p) (prefixlen (rn_p m))))
  end.

Definition walk_result t p (w : get_walk) : Prop :=
  match w with
  | WFound l => exists n, rt_nodes t !! l = Some n /\ same_net (rn_p n) p
  | WStop node mtch =>
      slot t p mtch node /\
      (forall l n, rt_nodes t !! l = Some n -> ~ same_net (rn_p n) p) /\
      (forall l, node = Some l -> exists n, rt_nodes t !! l = Some n /\ ~ covers (rn_p n) p)
  end.

Lemma route_node_get_loop_spec t p fuel B node mtch :
  table_wf t -> prefix_wf p -> (129 <= Z.of_nat fuel + B)%Z -> B <= prefixlen p ->
  ahead t p B node -> slot t p mtch node ->
  exists w, route_node_get_loop fuel t p node mtch = Ok w /\ walk_result t p w.
Proof.
  intros W Wp. revert B node mtch. induction fuel as [|fuel IH]; intros B node mtch Hf HB Ha Hs;
    (destruct node as [l|]; cbn [route_node_get_loop];
     [| eexists; split; [done |]; split; [done |]; split; [| done]; intros l n Hl [Hc ?];
        pose proof (ahead_none t p B l n Ha Hl Hc); lia]);
    destruct (proj1 Ha l eq_refl) as (n & Hl & HBl); rewrite (get_node_Some t l n Hl);
    cbn [mbind res_bind]; pose proof (wf_pfx t W l n Hl) as Wn;
    (destruct (_ && _) eqn:G;
     [| assert (~ covers (rn_p n) p) as Hnc by (rewrite <- (walk_guard n p) by done; congruence);
        eexists; split; [done |]; split; [done |]; split;
        [intros l' n' Hl' [Hc' ?]; pose proof (ahead_mismatch t p B l n l' n' Ha Hl Hnc Hl' Hc'); lia
        | intros l' [= <-]; by exists n]]);
    apply walk_guard in G; try done.
  - destruct Wn as (_ & _ & ? & ?). lia.
  - destruct (Z.eqb_spec (prefixlen (rn_p n)) (prefixlen p)) as [E | E].
    + eexists. split; [done |]. by exists n.
    + pose proof (proj1 G). apply (IH (prefixlen (rn_p n) + 1)); [lia | lia | by apply (ahead_step t p B l n) |].
      exists n. rewrite prefix_bit_bit_at. split_and!; try done. lia.
Qed.

Lemma route_node_get_walk t p :
  table_wf t -> prefix_wf p ->
  exists w, route_node_get_loop walk_fuel t p (rt_top t) None = Ok w /\ walk_result t p w.
Proof.
  intros W Wp. apply (route_node_get_loop_spec t p walk_fuel 0); try done.
  - apply Wp.
  - by apply ahead_top.
Qed.

(** The walk of [route_node_lookup] is the walk of [route_node_get]. *)
Lemma route_node_lookup_loop_get t p fuel node mtch :
  route_node_lookup_loop fuel t p node =
  (w ← route_node_get_loop fuel t p node mtch;
   match w with
   | WFound l => n ← get_node t l; Ok (if rn_info n then Some l else None)
   | WStop _ _ => Ok None
   end).
Proof.
  revert node mtch. induction fuel as [|fuel IH]; intros [l|] mtch;
    cbn [route_node_lookup_loop route_node_get_loop]; try done;
    destruct (get_node t l) as [n| |] eqn:E; cbn [mbind res_bind]; try done;
    destruct (_ && _); cbn [mbind res_bind]; try done;
    destruct (_ =? _); cbn [mbind res_bind]; rewrite ?E; try done; apply IH.
Qed.

(** Exact lookup: on a well-formed table [route_node_lookup] returns the one node of the table
    that carries information and has the same network as [p], with one more reference, and
    NULL with the table unchanged when there is none. *)
Theorem route_node_lookup_exact t p :
  table_wf t -> prefix_wf p ->
  (exists l n, rt_nodes t !! l = Some n /\ same_net (rn_p n) p /\ is_Some (rn_info n) /\
     route_node_lookup t p = Ok (locked t l, Some l) /\
     forall l' n', rt_nodes t !! l' = Some n' -> same_net (rn_p n') p -> l' = l) \/
  ((forall l n, rt_nodes t !! l = Some n -> same_net (rn_p n) p -> rn_info n = None) /\
   route_node_lookup t p = Ok (t, None)).
Proof.
  intros W Wp. unfold route_node_lookup.
  rewrite (route_node_lookup_loop_get t p walk_fuel (rt_top t) None).
  destruct (route_node_get_walk t p W Wp) as (w & -> & Hw). cbn [mbind res_bind].
  destruct w as [l | node mtch].
  - destruct Hw as (n & Hl & Hs). rewrite (get_node_Some t l n Hl). cbn [mbind res_bind].
    assert (forall l' n', rt_nodes t !! l' = Some n' -> same_net (rn_p n') p -> l' = l) as Hu.
    { intros l' n' Hl' [Hc' ?]. destruct Hs. apply (covering_unique t p l n l' n' W); try done. lia. }
    destruct (rn_info n) as [i|] eqn:Hi; cbn [mbind res_bind].
    + left. exists l, n. rewrite (route_lock_node_Ok t l n Hl), Hi. split_and!; eauto.
    + right. split; [| done]. intros l' n' Hl' Hs'. rewrite (Hu l' n' Hl' Hs') in Hl'. congruence.
  - right. split; [| done]. destruct Hw as (_ & Hno & _). intros l n Hl Hs. by destruct (Hno l n Hl).
Qed.

(** ** The common prefix *)

Lemma route_common_bytes_spec (np pp newp : list Z) (i n : nat) :
  length newp = 16%nat -> (i + n <= 16)%nat -> bytes_ok np -> bytes_ok newp ->
  let '(i', newp') := route_common_bytes np pp newp i n in
  (i <= i' <= i + n)%nat /\ length newp' = 16%nat /\ bytes_ok newp' /\
  (forall j, Z.of_nat i <= j < Z.of_nat i' -> byte_at np j = byte_at pp j /\ byte_at newp' j = byte_at np j) /\
  (forall j, 0 <= j < Z.of_nat i -> byte_at newp' j = byte_at newp j) /\
  ((i' < i + n)%nat -> byte_at np (Z.of_nat i') <> byte_at pp (Z.of_nat i')).
Proof.
  revert newp i. induction n as [|n IH]; intros newp i Hl Hi Hnp Hnew; cbn [route_common_bytes].
  - split_and!; try done; try lia.
  - destruct (Z.eqb_spec (byte_at np (Z.of_nat i)) (byte_at pp (Z.of_nat i))) as [E | E].
    2: { split_and!; try done; try lia. }
    specialize (IH (<[i := byte_at np (Z.of_nat i)]> newp) (S i)).
    destruct (route_common_bytes _ _ _ _ _) as [i' newp'].
    destruct IH as (H1 & H2 & H3 & H4 & H5 & H6);
      [by rewrite length_insert | lia | done | by apply bytes_ok_insert, byte_at_ok |].
    split_and!; try done; try lia.
    + intros j Hj. destruct (decide (j = Z.of_nat i)) as [-> |]; [| apply H4; lia].
      split; [done |]. by rewrite H5, byte_at_insert, Z.eqb_refl by lia.
    + intros j Hj. rewrite H5, byte_at_insert by lia. by destruct (Z.eqb_spec j (Z.of_nat i)); [lia |].
Qed.

Lemma land_pow2_testbit x k : 0 <= k -> (Z.land (2 ^ k) x =? 0) = negb (Z.testbit x k).
Proof.
  intros Hk. apply Bool.eq_iff_eq_true. rewrite Z.eqb_eq, negb_true_iff, land_eq_0_bits. split.
  - intros H. apply H; [done |]. by apply Z.pow2_bits_true.
  - intros H j Hj E. rewrite Z.pow2_bits_eqb in E by done. apply Z.eqb_eq in E. by subst.
Qed.

Lemma route_common_bits_spec (diff base plen : Z) (fuel : nat) (k : Z) :
  0 <= k <= 7 -> Z.of_nat fuel = plen - (base + k) ->
  (plen <= base + 7 \/ exists k0, k <= k0 <= 7 /\ Z.testbit diff (7 - k0) = true) ->
  let r := route_common_bits diff (2 ^ (7 - k)) (base + k) plen fuel in
  base + k <= r <= plen /\ r <= base + 7 /\
  (forall j, k <= j < r - base -> Z.testbit diff (7 - j) = false) /\
  (r < plen -> Z.testbit diff (7 - (r - base)) = true).
Proof.
  revert k. induction fuel as [|fuel IH]; intros k Hk Hf Hc; cbn [route_common_bits].
  - split_and!; try lia; intros; lia.
  - rewrite land_pow2_testbit by lia. destruct (Z.ltb_spec (base + k) plen) as [Hlt | Hge]; [| lia].
    cbn [andb]. destruct (Z.testbit diff (7 - k)) eqn:E; cbn [negb].
    + split_and!; try lia. intros _. by replace (7 - (base + k - base)) with (7 - k) by lia.
    + assert (k <= 6 /\ (plen <= base + 7 \/ exists k0, k + 1 <= k0 <= 7 /\ Z.testbit diff (7 - k0) = true))
        as [Hk6 Hc'].
      { destruct Hc as [? | (k0 & ? & Hb)]; [split; [lia | by left] |].
        assert (k0 <> k) by (intros ->; congruence). split; [lia |]. right. exists k0. split; [lia | done]. }
      assert (Z.shiftr (2 ^ (7 - k)) 1 = 2 ^ (7 - (k + 1))) as ->.
      { rewrite Z.shiftr_div_pow2 by lia. replace (7 - k) with (7 - (k + 1) + 1) by lia.
        rewrite Z.pow_add_r by lia. by rewrite Z.div_mul by lia. }
      replace (base + k + 1) with (base + (k + 1)) by lia.
      destruct (IH (k + 1)) as (H1 & H2 & H3 & H4); [lia | lia | done |].
      split_and!; try done; try lia. intros j Hj.
      destruct (decide (j = k)) as [-> |]; [done | apply H3; lia].
Qed.

(** [bit_at] at a position given by its byte and its bit in the byte. *)
Lemma bit_at_split a j k : 0 <= k < 8 -> bit_at a (8 * j + k) = Z.testbit (byte_at a j) (7 - k).
Proof.
  intros Hk. unfold bit_at.
  replace ((8 * j + k) / 8) with j by (apply Z.div_unique with k; lia).
  by replace ((8 * j + k) mod 8) with k by (apply Z.mod_unique with j; lia).
Qed.

Lemma bytes_agree_bits a b k :
  (forall j, 0 <= j < k -> byte_at a j = byte_at b j) -> bits_agree (8 * k) a b.
Proof.
  intros H i Hi. unfold bit_at. rewrite H; [done |].
  split; [apply Z.div_pos; lia | apply Z.div_lt_upper_bound; lia].
Qed.

(** Agreement on whole bytes, extended by some bits of the next byte. *)
Lemma bits_agree_extend a b j k :
  0 <= j -> 0 <= k <= 8 -> bits_agree (8 * j) a b ->
  (forall i, 0 <= i < k -> Z.testbit (byte_at a j) (7 - i) = Z.testbit (byte_at b j) (7 - i)) ->
  bits_agree (8 * j + k) a b.
Proof.
  intros Hj Hk H Hb i Hi. destruct (decide (i < 8 * j)); [apply H; lia |].
  replace i with (8 * j + (i - 8 * j)) by lia. rewrite !bit_at_split by lia. apply Hb. lia.
Qed.

Lemma route_common_spec (n p : prefix) :
  prefix_wf n -> prefix_wf p ->
  let c := route_common n p prefix_new in
  prefix_wf c /\ prefixlen c <= prefixlen p /\
  bits_agree (prefixlen c) (u c) (u n) /\ bits_agree (prefixlen c) (u n) (u p) /\
  (prefixlen c < prefixlen p -> bit_at (u n) (prefixlen c) <> bit_at (u p) (prefixlen c)).
Proof.
  intros (Ln & Bn & Hn) (Lp & Bp & Hp). unfold route_common.
  pose proof (Z.div_mod (prefixlen p) 8) as Hdm. pose proof (Z.mod_pos_bound (prefixlen p) 8) as Hmod.
  assert (0 <= prefixlen p / 8 <= 16) as Hq by (split; [apply Z.div_pos; lia | apply Z.div_le_upper_bound; lia]).
  pose proof (route_common_bytes_spec (u n) (u p) (u prefix_new) 0 (Z.to_nat (prefixlen p / 8))) as H.
  destruct (route_common_bytes _ _ _ _ _) as [i newp].
  destruct H as (H1 & H2 & H3 & H4 & _ & H6); [done | lia | done | by repeat constructor |].
  assert (bits_agree (8 * Z.of_nat i) (u n) (u p)) as Anp
    by (apply bytes_agree_bits; intros j Hj; apply H4; lia).
  assert (bits_agree (8 * Z.of_nat i) newp (u n)) as Acn
    by (apply bytes_agree_bits; intros j Hj; apply H4; lia).
  rewrite wrap_small by (unfold in_u; lia). replace (Z.of_nat i * 8) with (8 * Z.of_nat i) by lia.
  destruct (Z.eqb_spec (8 * Z.of_nat i) (prefixlen p)) as [E | E]; cbn [negb prefixlen u family].
  { split_and!; try done; try lia. split_and!; cbn; try done; lia. }
  set (diff := Z.lxor _ _). change 0x80 with (2 ^ (7 - 0)).
  set (r := route_common_bits _ _ _ _ _).
  destruct (route_common_bits_spec diff (8 * Z.of_nat i) (prefixlen p)
              (Z.to_nat (prefixlen p - 8 * Z.of_nat i)) 0) as (R1 & R2 & R3 & R4); [lia | lia | |].
  { destruct (decide (i < 0 + Z.to_nat (prefixlen p / 8))%nat) as [Hlt | Hge]; [right | left; lia].
    destruct (first_set_bit_spec diff 0 8) as (G1 & G2 & G3); [lia .. |].
    set (fb := first_set_bit diff 0 8) in *. destruct (decide (fb < 8)) as [Hf | Hf].
    { exists fb. split; [lia | apply G3; lia]. }
    destruct (H6 Hlt). apply byte_ext; try by apply byte_at_ok. intros k Hk.
    specialize (G2 (7 - k) ltac:(lia)). unfold diff in G2. rewrite Z.lxor_spec in G2.
    replace (7 - (7 - k)) with k in G2 by lia. by apply xorb_eq. }
  rewrite Z.add_0_r in R1, R2, R3, R4. fold r in R1, R2, R3, R4.
  cbn [prefixlen u family]. assert (Z.of_nat i < 16) by lia.
  assert (r mod 8 = r - 8 * Z.of_nat i) as Er by (symmetry; apply Z.mod_unique with (Z.of_nat i); lia).
  assert (byte_ok (Z.land (byte_at (u n) (Z.of_nat i)) (byte_at maskbit (r mod 8)))) as Hbk
    by (apply byte_ok_land; [by apply byte_at_ok | apply maskbit_ok]).
  set (k := r - 8 * Z.of_nat i) in *.
  assert (forall a, bit_at a r = Z.testbit (byte_at a (Z.of_nat i)) (7 - k)) as Hbr.
  { intros a. rewrite <- bit_at_split by lia. f_equal. lia. }
  split_and!.
  - split; [by cbn [u]; rewrite length_insert |]. split; [by apply bytes_ok_insert | cbn [prefixlen]; lia].
  - lia.
  - apply (bits_agree_le (8 * Z.of_nat i + k)); [lia |]. apply bits_agree_extend; [lia | lia | |].
    + etransitivity; [| exact Acn]. apply bytes_agree_bits. intros j Hj.
      rewrite byte_at_insert by lia. by destruct (Z.eqb_spec j (Z.of_nat i)); [lia |].
    + intros j Hj. rewrite byte_at_insert, Z.eqb_refl, Z.land_spec, Er, maskbit_testbit by lia.
      destruct (Z.leb_spec (8 - k) (7 - j)); [apply andb_true_r | lia].
  - apply (bits_agree_le (8 * Z.of_nat i + k)); [lia |]. apply bits_agree_extend; [lia | lia | done |].
    intros j Hj. apply xorb_eq. rewrite <- Z.lxor_spec. apply R3. lia.
  - intros Hlt. rewrite !Hbr. specialize (R4 ltac:(lia)). unfold diff in R4.
    rewrite Z.lxor_spec in R4. intros Heq. rewrite Heq, xorb_nilpotent in R4. done.
Qed.

(** ** Inserting one node

    [t'] is [t] with a node [N] at the fresh address [rt_brk t], hung where the walk for its prefix
    leaves the table ([mtch]'s link or [top]), above the node [child] that hung there. *)
Record inserted t t' (mtch child : option loc) (N : route_node A) : Prop := {
  ins_top : rt_top t' = match mtch with None => Some (rt_brk t) | Some _ => rt_top t end;
  ins_brk : rt_brk t' = Pos.succ (rt_brk t);
  ins_new : rt_nodes t' !! rt_brk t = Some N;
  ins_parent : rn_parent N = mtch;
  ins_links : forall b c, rn_link N (Z.b2z b) = Some c <->
    child = Some c /\ exists nc, rt_nodes t !! c = Some nc /\ bit_at (u (rn_p nc)) (prefixlen (rn_p N)) = b;
  ins_old : forall l n, rt_nodes t !! l = Some n ->
    exists n', rt_nodes t' !! l = Some n' /\ rn_p n' = rn_p n /\ rn_lock n' = rn_lock n /\
      rn_info n' = rn_info n /\
      rn_parent n' = (if decide (child = Some l) then Some (rt_brk t) else rn_parent n) /\
      forall b, rn_link n' (Z.b2z b) =
        if decide (mtch = Some l /\ bit_at (u (rn_p N)) (prefixlen (rn_p n)) = b)
        then Some (rt_brk t) else rn_link n (Z.b2z b);
  ins_dom : forall l n', rt_nodes t' !! l = Some n' -> l = rt_brk t \/ is_Some (rt_nodes t !! l)
}.

Lemma wf_insert_node t t' mtch child N :
  table_wf t -> prefix_wf (rn_p N) -> slot t (rn_p N) mtch child ->
  (forall c nc, child = Some c -> rt_nodes t !! c = Some nc ->
     prefixlen (rn_p N) < prefixlen (rn_p nc) /\ bits_agree (prefixlen (rn_p N)) (u (rn_p N)) (u (rn_p nc))) ->
  inserted t t' mtch child N -> table_wf t'.
Proof.
  intros W WN Hs Hch I.
  assert (forall l n, rt_nodes t !! l = Some n -> l <> rt_brk t) as Hfresh.
  { intros l n Hl ->. pose proof (wf_brk t W _ _ Hl). lia. }
  assert (forall l n', rt_nodes t' !! l = Some n' -> l <> rt_brk t -> exists n, rt_nodes t !! l = Some n) as Hold.
  { intros l n' Hl' Hne. destruct (ins_dom _ _ _ _ _ I l n' Hl') as [? | [n Hn]]; [done | by exists n]. }
  assert (forall c, child = Some c -> exists nc, rt_nodes t !! c = Some nc /\ rn_parent nc = mtch) as Hcp.
  { intros c ->. destruct mtch as [q|]; cbn in Hs.
    - destruct Hs as (m & Hm & _ & _ & Hlk). symmetry in Hlk.
      destruct (wf_child t W q m _ c Hm Hlk) as (nc & ? & ? & _). eauto.
    - symmetry in Hs. destruct (wf_top t W c Hs) as (nc & ? & ?). eauto. }
  split.
  - (* wf_top *) intros l. rewrite (ins_top _ _ _ _ _ I). destruct mtch as [q|].
    + intros Hl. destruct (wf_top t W l Hl) as (n & Hn & Hp).
      destruct (ins_old _ _ _ _ _ I l n Hn) as (n' & Hn' & _ & _ & _ & Hp' & _).
      exists n'. split; [done |]. rewrite Hp'. case_decide as Hd; [| done].
      destruct (Hcp l Hd) as (nc & ? & ?). congruence.
    + intros [= <-]. exists N. split; [apply I | apply (ins_parent _ _ _ _ _ I)].
  - (* wf_root *) intros l n' Hl' Hp'. rewrite (ins_top _ _ _ _ _ I).
    destruct (decide (l = rt_brk t)) as [-> | Hne].
    + rewrite (ins_new _ _ _ _ _ I) in Hl'. injection Hl' as <-.
      rewrite (ins_parent _ _ _ _ _ I) in Hp'. by rewrite Hp'.
    + destruct (Hold l n' Hl' Hne) as [n Hn].
      destruct (ins_old _ _ _ _ _ I l n Hn) as (n2 & Hn2 & _ & _ & _ & Hp2 & _).
      assert (n2 = n') by congruence. subst n2. rewrite Hp' in Hp2. case_decide as Hd; [done |].
      symmetry in Hp2. pose proof (wf_root t W l n Hn Hp2) as Ht.
      destruct mtch as [q|]; [done |]. cbn in Hs. congruence.
  - (* wf_parent *) intros l n' q Hl' Hp'. destruct (decide (l = rt_brk t)) as [-> | Hne].
    + rewrite (ins_new _ _ _ _ _ I) in Hl'. injection Hl' as <-.
      rewrite (ins_parent _ _ _ _ _ I) in Hp'. subst mtch. destruct Hs as (m & Hm & _ & _ & _).
      destruct (ins_old _ _ _ _ _ I q m Hm) as (m' & Hm' & Epm & _ & _ & _ & Hlk).
      exists m'. split; [done |]. rewrite Hlk, Epm. rewrite decide_True by done. done.
    + destruct (Hold l n' Hl' Hne) as [n Hn].
      destruct (ins_old _ _ _ _ _ I l n Hn) as (n2 & Hn2 & Ep & _ & _ & Hp2 & _).
      assert (n2 = n') by congruence. subst n2. rewrite Hp' in Hp2. case_decide as Hd.
      * injection Hp2 as ->. exists N. split; [apply I |].
        apply (ins_links _ _ _ _ _ I). split; [done |]. exists n. split; [done |]. by rewrite Ep.
      * symmetry in Hp2. destruct (wf_parent t W l n q Hn Hp2) as (m & Hm & Hlk).
        destruct (ins_old _ _ _ _ _ I q m Hm) as (m' & Hm' & Epm & _ & _ & _ & Hlk').
        exists m'. split; [done |]. rewrite Hlk', Epm, Ep. rewrite decide_False; [done |].
        intros [-> Hb]. destruct Hs as (m2 & Hm2 & _ & _ & Hc). assert (m2 = m) by congruence. subst m2.
        rewrite Hb in Hc. congruence.
  - (* wf_child *) intros l n' b c Hl' Hlk'. destruct (decide (l = rt_brk t)) as [-> | Hne].
    + rewrite (ins_new _ _ _ _ _ I) in Hl'. injection Hl' as <-.
      apply (ins_links _ _ _ _ _ I) in Hlk' as (Ec & nc & Hnc & Hb).
      destruct (ins_old _ _ _ _ _ I c nc Hnc) as (nc' & Hnc' & Ep & _ & _ & Hp & _).
      destruct (Hch c nc Ec Hnc) as [Hlt Hag]. exists nc'. rewrite Ep, Hp, decide_True by done.
      split_and!; done.
    + destruct (Hold l n' Hl' Hne) as [n Hn].
      destruct (ins_old _ _ _ _ _ I l n Hn) as (n2 & Hn2 & Ep & _ & _ & _ & Hlk).
      assert (n2 = n') by congruence. subst n2. rewrite Hlk in Hlk'. rewrite Ep. case_decide as Hd.
      * injection Hlk' as <-. destruct Hd as [-> Hb]. destruct Hs as (m & Hm & [_ Hag] & Hlt & _).
        assert (m = n) by congruence. subst m. exists N. split_and!; try done; apply I.
      * destruct (wf_child t W l n b c Hn Hlk') as (m & Hm & Hpm & Hlt & Hag & Hb).
        destruct (ins_old _ _ _ _ _ I c m Hm) as (m' & Hm' & Epm & _ & _ & Hp' & _).
        exists m'. rewrite Epm. split_and!; try done. rewrite Hp'. case_decide as Hd'; [| done].
        destruct Hd. destruct (Hcp c Hd') as (m2 & Hm2 & Hp2). assert (m2 = m) by congruence. subst m2.
        rewrite Hpm in Hp2. split; [done |]. subst mtch. destruct Hs as (n3 & Hn3 & _ & _ & Hc3).
        assert (n3 = n) by congruence. subst n3. symmetry in Hc3. rewrite Hd' in Hc3.
        destruct (wf_child t W l n _ c Hn Hc3) as (m3 & Hm3 & _ & _ & _ & Hb3). congruence.
  - (* wf_pfx *) intros l n' Hl'. destruct (decide (l = rt_brk t)) as [-> | Hne].
    + rewrite (ins_new _ _ _ _ _ I) in Hl'. by injection Hl' as <-.
    + destruct (Hold l n' Hl' Hne) as [n Hn].
      destruct (ins_old _ _ _ _ _ I l n Hn) as (n2 & Hn2 & Ep & _).
      assert (n2 = n') by congruence. subst n2. rewrite Ep. by apply (wf_pfx t W l).
  - (* wf_brk *) intros l n' Hl'. rewrite (ins_brk _ _ _ _ _ I).
    destruct (ins_dom _ _ _ _ _ I l n' Hl') as [-> | [n Hn]]; [lia |]. pose proof (wf_brk t W l n Hn). lia.
Qed.

(** ** [route_node_get] *)

Lemma rn_link_set_rn_link (b0 b : bool) (c : option loc) n :
  rn_link (set_rn_link (Z.b2z b0) c n) (Z.b2z b) = if decide (b0 = b) then c else rn_link n (Z.b2z b).
Proof. by destruct b0, b. Qed.

Lemma set_rn_link_fields (bit : Z) (c : option loc) n :
  rn_p (set_rn_link bit c n) = rn_p n /\ rn_parent (set_rn_link bit c n) = rn_parent n /\
  rn_lock (set_rn_link bit c n) = rn_lock n /\ rn_info (set_rn_link bit c n) = rn_info n.
Proof. unfold set_rn_link. by destruct (bit =? 0). Qed.

Lemma rn_link_set_rn_parent q n bit : rn_link (set_rn_parent q n) bit = rn_link n bit.
Proof. done. Qed.

Lemma set_link_Ok t node new nd nw :
  rt_nodes t !! node = Some nd -> rt_nodes t !! new = Some nw ->
  set_link t node new =
    Ok (mk_table (rt_top t)
          (alter (set_rn_parent (Some node)) new
             (alter (set_rn_link (Z.b2z (bit_at (u (rn_p nw)) (prefixlen (rn_p nd)))) (Some new)) node (rt_nodes t)))
          (rt_brk t)).
Proof.
  intros Hd Hw. unfold set_link. rewrite (get_node_Some t node nd Hd), (get_node_Some t new nw Hw).
  cbn [mbind res_bind]. rewrite (upd_node_Ok t node nd _ Hd), prefix_bit_bit_at. cbn [mbind res_bind].
  destruct (decide (node = new)) as [-> | Hne].
  - eapply upd_node_Ok. cbn. by rewrite lookup_alter_eq, Hd.
  - eapply upd_node_Ok. cbn. by rewrite lookup_alter_ne.
Qed.

(** [t1] is [t] with the node [N0] allocated and linked above [child], not yet hung. *)
Record prepared t t1 (child : option loc) (N0 : route_node A) : Prop := {
  pre_top : rt_top t1 = rt_top t;
  pre_brk : rt_brk t1 = Pos.succ (rt_brk t);
  pre_new : rt_nodes t1 !! rt_brk t = Some N0;
  pre_parent : rn_parent N0 = None;
  pre_links : forall b c, rn_link N0 (Z.b2z b) = Some c <->
    child = Some c /\ exists nc, rt_nodes t !! c = Some nc /\ bit_at (u (rn_p nc)) (prefixlen (rn_p N0)) = b;
  pre_old : forall l, l <> rt_brk t ->
    rt_nodes t1 !! l =
      (if decide (child = Some l) then set_rn_parent (Some (rt_brk t)) else id) <$> rt_nodes t !! l
}.

Lemma attach_Ok t t1 mtch child N0 :
  table_wf t -> prepared t t1 child N0 -> slot t (rn_p N0) mtch child ->
  exists t2, attach t1 mtch (rt_brk t) = Ok t2 /\ inserted t t2 mtch child (set_rn_parent mtch N0).
Proof.
  intros W P Hs.
  assert (forall l n, rt_nodes t !! l = Some n -> l <> rt_brk t) as Hfresh.
  { intros l n Hl ->. pose proof (wf_brk t W _ _ Hl). lia. }
  destruct mtch as [q|]; cbn [attach].
  - destruct Hs as (m & Hm & _). pose proof (Hfresh q m Hm) as Hq.
    assert (rt_nodes t1 !! q = Some ((if decide (child = Some q) then set_rn_parent (Some (rt_brk t)) else id) m))
      as Hq1 by by rewrite (pre_old _ _ _ _ P q Hq), Hm.
    rewrite (set_link_Ok t1 q (rt_brk t) _ N0 Hq1 (pre_new _ _ _ _ P)). eexists. split; [done |].
    split; cbn [rt_top rt_brk rt_nodes].
    + apply P.
    + apply P.
    + by rewrite lookup_alter_eq, lookup_alter_ne, (pre_new _ _ _ _ P) by done.
    + done.
    + apply (pre_links _ _ _ _ P).
    + intros l n Hl. pose proof (Hfresh l n Hl) as Hl0. rewrite lookup_alter_ne by done.
      set (f := if decide (child = Some l) then set_rn_parent (Some (rt_brk t)) else id).
      assert (rn_p (f n) = rn_p n /\ rn_lock (f n) = rn_lock n /\ rn_info (f n) = rn_info n /\
              rn_parent (f n) = (if decide (child = Some l) then Some (rt_brk t) else rn_parent n) /\
              forall b, rn_link (f n) b = rn_link n b) as (F1 & F2 & F3 & F4 & F5).
      { unfold f. repeat case_decide; split_and!; done. }
      destruct (decide (l = q)) as [-> | Hne].
      * assert (m = n) by congruence. subst m. rewrite lookup_alter_eq, Hq1. cbn [fmap option_fmap option_map].
        fold f. eexists. split; [done |].
        destruct (set_rn_link_fields (Z.b2z (bit_at (u (rn_p N0)) (prefixlen (rn_p (f n))))) (Some (rt_brk t)) (f n))
          as (G1 & G2 & G3 & G4).
        rewrite G1, G2, G3, G4, F1. split_and!; try done. intros b.
        rewrite rn_link_set_rn_link, F5. cbn. repeat case_decide; naive_solver.
      * rewrite lookup_alter_ne, (pre_old _ _ _ _ P l Hl0), Hl by done. fold f. cbn. eexists. split; [done |].
        split_and!; try done. intros b. rewrite decide_False by naive_solver. apply F5.
    + intros l n' Hl'. destruct (decide (l = rt_brk t)) as [| Hne]; [by left | right].
      rewrite lookup_alter_ne in Hl' by done. destruct (decide (l = q)) as [-> |]; [by rewrite Hm |].
      rewrite lookup_alter_ne, (pre_old _ _ _ _ P l Hne) in Hl' by done.
      destruct (rt_nodes t !! l); [done | done].
  - eexists. split; [done |]. split; cbn [set_top rt_top rt_brk rt_nodes].
    + done.
    + apply P.
    + rewrite (pre_new _ _ _ _ P). f_equal. pose proof (pre_parent _ _ _ _ P) as E.
      destruct N0; cbn in *; subst; done.
    + done.
    + apply (pre_links _ _ _ _ P).
    + intros l n Hl. pose proof (Hfresh l n Hl) as Hl0.
      rewrite (pre_old _ _ _ _ P l Hl0), Hl. cbn. eexists. split; [done |].
      case_decide; split_and!; try done; intros b; rewrite decide_False by naive_solver; done.
    + intros l n' Hl'. destruct (decide (l = rt_brk t)) as [| Hne]; [by left | right].
      rewrite (pre_old _ _ _ _ P l Hne) in Hl'. destruct (rt_nodes t !! l); done.
Qed.

(** The bytes [prefix_copy] copies. *)
Definition copy_len (p : prefix) : Z :=
  if family p =? AF_INET then 4 else if family p =? AF_INET6 then 16
  else if family p =? AF_UNSPEC then 8 else 0.

(** A prefix the table can store: a family that [prefix_copy] knows and a length within it. *)
Definition storable (p : prefix) : Prop :=
  prefix_wf p /\ copy_len p <> 0 /\ prefixlen p <= 8 * copy_len p.

Lemma prefix_copy_Ok p :
  storable p ->
  exists q, prefix_copy prefix_new p = Ok q /\ family q = family p /\ prefixlen q = prefixlen p /\
    prefix_wf q /\ bits_agree (prefixlen p) (u q) (u p).
Proof.
  intros ((Lp & Bp & Hp) & Hc & Hl).
  assert (forall k : nat, (k <= 16)%nat -> prefixlen p <= 8 * Z.of_nat k ->
    let q := set_u_head (take k (u p)) (mk_prefix (family p) (prefixlen p) (u prefix_new)) in
    family q = family p /\ prefixlen q = prefixlen p /\ prefix_wf q /\ bits_agree (prefixlen p) (u q) (u p)) as K.
  { intros k Hk Hlen. cbn [set_u_head family prefixlen u].
    assert (length (take k (u p)) = k) as Lk by (rewrite length_take; lia).
    split; [done |]. split; [done |]. split.
    - split; [| split; [| done]]; cbn [set_u_head u].
      + rewrite length_app, length_drop, Lk. cbn. lia.
      + apply bytes_ok_app. split; [by apply bytes_ok_take | apply bytes_ok_drop; by repeat constructor].
    - apply (bits_agree_le (8 * Z.of_nat k)); [done |]. apply bytes_agree_bits. intros j Hj.
      rewrite byte_at_app_l, byte_at_take by lia. done. }
  unfold prefix_copy, copy_len in *.
  destruct (family p =? AF_INET); [| destruct (family p =? AF_INET6); [| destruct (family p =? AF_UNSPEC); [| done]]];
    eexists; (split; [done |]); [apply (K 4%nat) | apply (K 16%nat) | apply (K 8%nat)]; lia.
Qed.

Lemma route_node_set_Ok t p q :
  prefix_copy prefix_new p = Ok q ->
  exists t1, route_node_set t p = Ok (t1, rt_brk t) /\
    prepared t t1 None (mk_node q None None None 0 None).
Proof.
  intros E. unfold route_node_set, route_node_new, get_node. cbn [rt_nodes].
  rewrite lookup_insert_eq. cbn [mbind res_bind rn_p]. rewrite E. cbn [mbind res_bind]. eexists. split; [done |].
  split; cbn [put_node rt_top rt_brk rt_nodes]; try done.
  - by rewrite lookup_insert_eq.
  - intros b c. destruct b; split; [done | by intros [? _] | done | by intros [? _]].
  - intros l Hl. rewrite !lookup_insert_ne by done. rewrite decide_False by done. by destruct (rt_nodes t !! l).
Qed.

Lemma slot_covers_eq t p q mtch node :
  table_wf t -> prefixlen p = prefixlen q -> bits_agree (prefixlen p) (u p) (u q) ->
  slot t p mtch node -> slot t q mtch node.
Proof.
  intros W El Ha. destruct mtch as [k|]; cbn; [| done].
  intros (m & Hm & [Hle Hc] & Hlt & Hlk). exists m. destruct (wf_pfx t W k m Hm) as (_ & _ & ? & _).
  split_and!; [done | split; [lia |] | lia |].
  - etransitivity; [exact Hc |]. apply (bits_agree_le (prefixlen p)); [lia | done].
  - rewrite Hlk. by rewrite Ha by lia.
Qed.

(** Adding a leaf. *)
Lemma add_leaf t p mtch :
  table_wf t -> storable p -> slot t p mtch None ->
  exists q t2, same_net q p /\ prefix_wf q /\
    (t1 ← route_node_set t p; let '(t1, new) := t1 in t2 ← attach t1 mtch new; Ok (t2, new)) = Ok (t2, rt_brk t) /\
    inserted t t2 mtch None (mk_node q mtch None None 0 None) /\ table_wf t2.
Proof.
  intros W Hp Hs. destruct (prefix_copy_Ok p Hp) as (q & E & _ & El & Wq & Ha).
  destruct (route_node_set_Ok t p q E) as (t1 & E1 & P). rewrite E1. cbn [mbind res_bind].
  assert (slot t q mtch None) as Hsq.
  { apply (slot_covers_eq t p q mtch None W); [done | by symmetry | done]. }
  destruct (attach_Ok t t1 mtch None _ W P Hsq) as (t2 & E2 & I). exists q, t2.
  assert (same_net q p) as Hn by (split; [split; [lia | by rewrite El] | done]).
  rewrite E2. cbn [mbind res_bind]. split_and!; try done.
  by apply (wf_insert_node t t2 mtch None (mk_node q mtch None None 0 None) W Wq Hsq).
Qed.

(** Adding the branching node above [node], which does not cover [p]. *)
Lemma add_branch t p mtch node nd :
  table_wf t -> prefix_wf p -> slot t p mtch (Some node) -> rt_nodes t !! node = Some nd ->
  ~ covers (rn_p nd) p ->
  let cp := route_common (rn_p nd) p prefix_new in
  let cp' := mk_prefix (family p) (prefixlen cp) (u cp) in
  prefix_wf cp' /\ prefixlen cp' <= prefixlen p /\ bits_agree (prefixlen cp') (u cp') (u p) /\
  (prefixlen cp' < prefixlen p -> bit_at (u (rn_p nd)) (prefixlen cp') <> bit_at (u p) (prefixlen cp')) /\
  prefixlen cp' < prefixlen (rn_p nd) /\ bits_agree (prefixlen cp') (u cp') (u (rn_p nd)) /\
  slot t cp' mtch (Some node).
Proof.
  intros W Wp Hs Hnd Hnc. pose proof (wf_pfx t W node nd Hnd) as Wnd.
  destruct (route_common_spec (rn_p nd) p Wnd Wp) as (Wc & Hle & Ac & Anp & Hdiff).
  cbn zeta in *. set (cp := route_common (rn_p nd) p prefix_new) in *. cbn [prefixlen u].
  assert (prefixlen cp < prefixlen (rn_p nd)) as Hlt.
  { destruct (decide (prefixlen cp < prefixlen (rn_p nd))) as [|Hge]; [done |]. destruct Hnc.
    split; [lia |]. apply (bits_agree_le (prefixlen cp)); [lia | done]. }
  assert (bits_agree (prefixlen cp) (u cp) (u p)) as Acp by (etransitivity; eassumption).
  split_and!; try done; try (by destruct Wc as (? & ? & ?)).
  destruct mtch as [k|]; cbn in *; [| done]. destruct Hs as (m & Hm & [Hlm Am] & Hltm & Hlk).
  symmetry in Hlk. destruct (wf_child t W k m _ node Hm Hlk) as (nd' & Hnd' & _ & Hlt' & Am' & Hb).
  assert (nd' = nd) by congruence. subst nd'. destruct (wf_pfx t W k m Hm) as (_ & _ & ? & _).
  assert (prefixlen (rn_p m) < prefixlen cp) as Hmc.
  { destruct (decide (prefixlen (rn_p m) < prefixlen cp)) as [|Hge]; [done |]. destruct Wc as (_ & _ & ? & _).
    destruct (Hdiff ltac:(lia)). destruct (decide (prefixlen cp = prefixlen (rn_p m))) as [-> |]; [done |].
    rewrite <- Am', <- Am by lia. done. }
  exists m. cbn [prefixlen u]. split_and!; try done; [split; [cbn; lia |] |]; cbn [u prefixlen].
  - etransitivity; [exact Am |]. apply (bits_agree_le (prefixlen cp)); [lia | by symmetry].
  - rewrite <- Hlk. by rewrite Acp by lia.
Qed.

(** The part of a node that the tree structure depends on. *)
Definition shape n : prefix * option loc * option loc * option loc :=
  (rn_p n, rn_parent n, rn_left n, rn_right n).

(** Two tables with the same structure; locks and information may differ. *)
Definition same_shape t t' : Prop :=
  rt_top t' = rt_top t /\ rt_brk t' = rt_brk t /\
  forall l, shape <$> rt_nodes t' !! l = shape <$> rt_nodes t !! l.

Lemma same_shape_lookup t t' l n' :
  same_shape t t' -> rt_nodes t' !! l = Some n' ->
  exists n, rt_nodes t !! l = Some n /\ rn_p n = rn_p n' /\ rn_parent n = rn_parent n' /\
    (forall b, rn_link n b = rn_link n' b).
Proof.
  intros (_ & _ & H) Hl. specialize (H l). rewrite Hl in H. cbn in H.
  destruct (rt_nodes t !! l) as [n|] eqn:E; [| done]. cbn in H. unfold shape in H. simplify_eq.
  exists n. split_and!; try done. intros b. unfold rn_link. destruct (b =? 0); congruence.
Qed.

Lemma same_shape_sym t t' : same_shape t t' -> same_shape t' t.
Proof. intros (? & ? & ?). by split_and!. Qed.

Lemma same_shape_wf t t' : same_shape t t' -> table_wf t -> table_wf t'.
Proof.
  intros Hs W. pose proof Hs as (Et & Eb & _). pose proof (same_shape_sym _ _ Hs) as Hs'.
  split.
  - intros l. rewrite Et. intros Hl. destruct (wf_top t W l Hl) as (n & Hn & Hp).
    destruct (same_shape_lookup t' t l n Hs' Hn) as (n' & Hn' & _ & Hp' & _). exists n'. split; congruence.
  - intros l n' Hl' Hp'. destruct (same_shape_lookup t t' l n' Hs Hl') as (n & Hn & _ & Hp & _).
    rewrite Et. apply (wf_root t W l n Hn). congruence.
  - intros l n' q Hl' Hp'. destruct (same_shape_lookup t t' l n' Hs Hl') as (n & Hn & Ep & Hp & _).
    destruct (wf_parent t W l n q Hn ltac:(congruence)) as (m & Hm & Hlk).
    destruct (same_shape_lookup t' t q m Hs' Hm) as (m' & Hm' & Epm & _ & Hlk').
    exists m'. split; [done |]. rewrite Hlk', Epm, <- Ep. done.
  - intros l n' b c Hl' Hlk'. destruct (same_shape_lookup t t' l n' Hs Hl') as (n & Hn & Ep & _ & Hlk).
    rewrite <- Hlk in Hlk'. destruct (wf_child t W l n b c Hn Hlk') as (m & Hm & Hpm & Hlt & Ha & Hb).
    destruct (same_shape_lookup t' t c m Hs' Hm) as (m' & Hm' & Epm & Hpm' & _).
    exists m'. rewrite Epm, <- Ep, Hpm'. done.
  - intros l n' Hl'. destruct (same_shape_lookup t t' l n' Hs Hl') as (n & Hn & <- & _).
    by apply (wf_pfx t W l).
  - intros l n' Hl'. destruct (same_shape_lookup t t' l n' Hs Hl') as (n & Hn & _). rewrite Eb.
    by apply (wf_brk t W l n).
Qed.

Lemma same_shape_alter t l f :
  (forall n, shape (f n) = shape n) ->
  same_shape t (mk_table (rt_top t) (alter f l (rt_nodes t)) (rt_brk t)).
Proof.
  intros Hf. split; [done |]. split; [done |]. intros j. cbn. destruct (decide (j = l)) as [-> |].
  - rewrite lookup_alter_eq. destruct (rt_nodes t !! l); cbn; [by rewrite Hf | done].
  - by rewrite lookup_alter_ne.
Qed.

Lemma locked_wf t l : table_wf t -> table_wf (locked t l).
Proof. apply same_shape_wf, same_shape_alter. done. Qed.

(** [t'] extends [t]: old nodes keep prefix, lock and information, new nodes carry nothing. *)
Definition extends t t' : Prop :=
  (forall l n, rt_nodes t !! l = Some n -> exists n', rt_nodes t' !! l = Some n' /\
     rn_p n' = rn_p n /\ rn_lock n' = rn_lock n /\ rn_info n' = rn_info n) /\
  (forall l n', rt_nodes t' !! l = Some n' -> rt_nodes t !! l = None -> rn_lock n' = 0 /\ rn_info n' = None).

Global Instance extends_trans : Transitive extends.
Proof.
  intros t1 t2 t3 [A1 B1] [A2 B2]. split.
  - intros l n Hl. destruct (A1 l n Hl) as (n2 & Hl2 & ? & ? & ?).
    destruct (A2 l n2 Hl2) as (n3 & Hl3 & ? & ? & ?). exists n3. split_and!; congruence.
  - intros l n3 Hl3 Hl1. destruct (rt_nodes t2 !! l) as [n2|] eqn:Hl2.
    + destruct (B1 l n2 Hl2 Hl1). destruct (A2 l n2 Hl2) as (n3' & Hl3' & ? & ? & ?).
      assert (n3' = n3) by congruence. subst. split; congruence.
    + by apply (B2 l).
Qed.

Global Instance extends_refl : Reflexive extends.
Proof. intros t. split; [eauto 6 | congruence]. Qed.

Lemma inserted_extends t t' mtch child N :
  inserted t t' mtch child N -> rn_lock N = 0 -> rn_info N = None -> extends t t'.
Proof.
  intros I HL HI. split.
  - intros l n Hl. destruct (ins_old _ _ _ _ _ I l n Hl) as (n' & ? & ? & ? & ? & _). eauto 6.
  - intros l n' Hl' Hl. destruct (ins_dom _ _ _ _ _ I l n' Hl') as [-> | [? ?]]; [| congruence].
    rewrite (ins_new _ _ _ _ _ I) in Hl'. injection Hl' as <-. done.
Qed.

Definition branching n : Prop := is_Some (rn_left n) /\ is_Some (rn_right n).

Lemma branching_links n : branching n <-> forall b, is_Some (rn_link n (Z.b2z b)).
Proof.
  split; [intros [? ?] [|]; done |]. intros H. split; [apply (H false) | apply (H true)].
Qed.

Lemma inserted_branching t t' mtch child N l n n' :
  inserted t t' mtch child N -> rt_nodes t !! l = Some n -> rt_nodes t' !! l = Some n' ->
  branching n -> branching n'.
Proof.
  intros I Hl Hl'. rewrite !branching_links. intros H b.
  destruct (ins_old _ _ _ _ _ I l n Hl) as (n2 & Hn2 & _ & _ & _ & _ & Hlk).
  assert (n2 = n') by congruence. subst n2. rewrite Hlk. destruct (decide (_ /\ _)); [by eexists | apply H].
Qed.

(** The branching node as [route_node_get] allocates it, before it is hung. *)
Lemma prepare_branch t p node nd :
  table_wf t -> rt_nodes t !! node = Some nd ->
  let cp := route_common (rn_p nd) p prefix_new in
  let cp' := mk_prefix (family p) (prefixlen cp) (u cp) in
  let G0 := set_rn_link (Z.b2z (bit_at (u (rn_p nd)) (prefixlen cp'))) (Some node)
              (mk_node cp' None None None 0 None) in
  exists t3,
    (let '(t1, new) := route_node_new t in
     nd ← get_node t1 node;
     nw ← get_node t1 new;
     let cp := route_common (rn_p nd) p (rn_p nw) in
     let cp := mk_prefix (family p) (prefixlen cp) (u cp) in
     t2 ← upd_node new (fun n => mk_node cp (rn_parent n) (rn_left n) (rn_right n) (rn_lock n) (rn_info n)) t1;
     t3 ← set_link t2 new node; Ok (cp, t3)) = Ok (cp', t3) /\
    prepared t t3 (Some node) G0.
Proof.
  intros W Hnd cp cp' G0.
  assert (node <> rt_brk t) as Hne by (intros ->; pose proof (wf_brk t W _ _ Hnd); lia).
  pose proof (set_rn_link_fields (Z.b2z (bit_at (u (rn_p nd)) (prefixlen cp'))) (Some node)
                (mk_node cp' None None None 0 None)) as G0f. fold G0 in G0f. cbn [rn_p rn_parent] in G0f.
  set (t1 := mk_table (rt_top t) (<[rt_brk t := mk_node prefix_new None None None 0 None]> (rt_nodes t))
               (Pos.succ (rt_brk t))).
  assert (rt_nodes t1 !! node = Some nd) as H1 by (cbn; by rewrite lookup_insert_ne).
  assert (rt_nodes t1 !! rt_brk t = Some (mk_node prefix_new None None None 0 None)) as H2
    by (cbn; by rewrite lookup_insert_eq).
  unfold route_node_new. fold t1. rewrite (get_node_Some t1 _ _ H1), (get_node_Some t1 _ _ H2).
  cbn [mbind res_bind rn_p]. fold cp cp'.
  rewrite (upd_node_Ok t1 _ _ _ H2). cbn [mbind res_bind].
  set (t2 := mk_table _ _ _).
  assert (rt_nodes t2 !! rt_brk t = Some (mk_node cp' None None None 0 None)) as H3
    by (unfold t2; cbn [rt_nodes]; by rewrite lookup_alter_eq, H2).
  assert (rt_nodes t2 !! node = Some nd) as H4
    by (unfold t2; cbn [rt_nodes]; by rewrite lookup_alter_ne).
  rewrite (set_link_Ok t2 _ _ _ _ H3 H4). cbn [mbind res_bind]. eexists. split; [done |].
  split; cbn [rt_top rt_brk rt_nodes]; try done.
  - by rewrite lookup_alter_ne, lookup_alter_eq, H3.
  - apply G0f.
  - intros b c. rewrite (proj1 G0f). unfold G0. rewrite rn_link_set_rn_link.
    case_decide as Hb.
    + split; [intros [= <-]; split; [done | by exists nd] | by intros [? _]].
    + split; [by destruct b |]. intros [[= <-] (nc & Hnc & ?)]. assert (nc = nd) by congruence. by subst.
  - intros l Hl. destruct (decide (l = node)) as [-> | Hln].
    + rewrite lookup_alter_eq, lookup_alter_ne, H4, Hnd by done. rewrite decide_True by done. done.
    + rewrite !lookup_alter_ne by done. rewrite decide_False by naive_solver.
      unfold t2, t1; cbn [rt_nodes]. rewrite lookup_alter_ne, lookup_insert_ne by done.
      by destruct (rt_nodes t !! l).
Qed.

(** What [route_node_get] does to the table before it locks the node it returns. *)
Definition grown t t2 p l : Prop :=
  table_wf t2 /\ extends t t2 /\ rt_nodes t !! l = None /\
  (exists n, rt_nodes t2 !! l = Some n /\ same_net (rn_p n) p /\ rn_lock n = 0 /\ rn_info n = None) /\
  (forall l0 n0, rt_nodes t2 !! l0 = Some n0 -> l0 <> l ->
     branching n0 \/ exists n, rt_nodes t !! l0 = Some n /\ rn_lock n0 = rn_lock n /\ (branching n -> branching n0)).

Lemma inserted_old_branching t t2 mtch child N l0 n0 :
  inserted t t2 mtch child N -> rt_nodes t2 !! l0 = Some n0 -> l0 <> rt_brk t ->
  exists n, rt_nodes t !! l0 = Some n /\ rn_lock n0 = rn_lock n /\ (branching n -> branching n0).
Proof.
  intros I H0 Hne. destruct (ins_dom _ _ _ _ _ I l0 n0 H0) as [? | [n Hn]]; [done |].
  exists n. split; [done |]. destruct (ins_old _ _ _ _ _ I l0 n Hn) as (n' & Hn' & _ & HL & _).
  assert (n' = n0) by congruence. subst. split; [done |]. by apply (inserted_branching t t2 mtch child N l0).
Qed.

Lemma brk_free t : table_wf t -> rt_nodes t !! rt_brk t = None.
Proof.
  intros W. destruct (rt_nodes t !! rt_brk t) as [n|] eqn:E; [| done].
  pose proof (wf_brk t W _ _ E). lia.
Qed.

Lemma grown_leaf t p mtch :
  table_wf t -> storable p -> slot t p mtch None ->
  exists t2, (t1 ← route_node_set t p; let '(t1, new) := t1 in t2 ← attach t1 mtch new; Ok (t2, new))
    = Ok (t2, rt_brk t) /\ grown t t2 p (rt_brk t) /\
    exists N, inserted t t2 mtch None N /\ same_net (rn_p N) p.
Proof.
  intros W Hp Hs. destruct (add_leaf t p mtch W Hp Hs) as (q & t2 & Hn & Wq & E & I & W2).
  exists t2. split; [done |]. split; [| by eexists]. split_and!; try done.
  - by apply (inserted_extends t t2 _ _ _ I).
  - by apply brk_free.
  - eexists. split; [apply I | done].
  - intros l0 n0 H0 Hne. right. by apply (inserted_old_branching t t2 _ _ _ l0 n0 I).
Qed.

(** The branching node has [node] on one side only. *)
Lemma branch_free_link t t2 mtch node nd N b :
  inserted t t2 mtch (Some node) N -> rt_nodes t !! node = Some nd ->
  bit_at (u (rn_p nd)) (prefixlen (rn_p N)) <> b -> rn_link N (Z.b2z b) = None.
Proof.
  intros I Hnd Hb. destruct (rn_link N (Z.b2z b)) as [c|] eqn:E; [| done].
  apply (ins_links _ _ _ _ _ I) in E as ([= <-] & nc & Hnc & Hbc). congruence.
Qed.

(** With the new leaf on the other side it has two children. *)
Lemma branch_full t t4 t6 mtch node nd G N n0 :
  inserted t t4 mtch (Some node) G -> inserted t4 t6 (Some (rt_brk t)) None N ->
  rt_nodes t !! node = Some nd -> rt_nodes t6 !! rt_brk t = Some n0 ->
  bit_at (u (rn_p nd)) (prefixlen (rn_p G)) <> bit_at (u (rn_p N)) (prefixlen (rn_p G)) ->
  branching n0.
Proof.
  intros I I6 Hnd H0 Hb. apply branching_links. intros b.
  destruct (ins_old _ _ _ _ _ I6 _ _ (ins_new _ _ _ _ _ I)) as (n' & Hn' & _ & _ & _ & _ & Hlk).
  assert (n' = n0) by congruence. subst n'. rewrite Hlk.
  destruct (decide (_ /\ _)) as [|Hd]; [by eexists |].
  assert (rn_link G (Z.b2z b) = Some node) as ->; [| by eexists].
  apply (ins_links _ _ _ _ _ I). split; [done |]. exists nd. split; [done |].
  destruct b, (bit_at (u (rn_p nd)) _), (bit_at (u (rn_p N)) _); naive_solver.
Qed.

Lemma grown_branch t p mtch node nd :
  table_wf t -> storable p -> slot t p mtch (Some node) -> rt_nodes t !! node = Some nd ->
  ~ covers (rn_p nd) p ->
  exists t2 l,
    (let '(t1, new) := route_node_new t in
     nd ← get_node t1 node;
     nw ← get_node t1 new;
     let cp := route_common (rn_p nd) p (rn_p nw) in
     let cp := mk_prefix (family p) (prefixlen cp) (u cp) in
     t2 ← upd_node new (fun n => mk_node cp (rn_parent n) (rn_left n) (rn_right n) (rn_lock n) (rn_info n)) t1;
     t3 ← set_link t2 new node;
     t4 ← attach t3 mtch new;
     if negb (prefixlen cp =? prefixlen p) then
       '(t5, new') ← route_node_set t4 p;
       t6 ← set_link t5 new new';
       t7 ← route_lock_node t6 new';
       Ok (t7, new')
     else
       t5 ← route_lock_node t4 new;
       Ok (t5, new)) = Ok (locked t2 l, l) /\ grown t t2 p l.
Proof.
  intros W Hp Hs Hnd Hnc. pose proof Hp as (Wp & _ & _).
  pose proof (prepare_branch t p node nd W Hnd) as (t3 & E3 & P).
  destruct (add_branch t p mtch node nd W Wp Hs Hnd Hnc) as (Wc & Hle & Acp & Hdiff & Hlt & Acn & Hsc).
  set (cp := mk_prefix (family p) _ _) in *. set (G0 := set_rn_link _ _ _) in P.
  pose proof (set_rn_link_fields (Z.b2z (bit_at (u (rn_p nd)) (prefixlen cp))) (Some node)
                (mk_node cp None None None 0 None)) as (Gp & _ & GL & GI). fold G0 in Gp, GL, GI.
  cbn [rn_p rn_lock rn_info] in Gp, GL, GI.
  destruct (attach_Ok t t3 mtch (Some node) G0 W P ltac:(by rewrite Gp)) as (t4 & E4 & I).
  set (G := set_rn_parent mtch G0) in *. assert (rn_p G = cp) as EG by exact Gp.
  assert (table_wf t4) as W4.
  { apply (wf_insert_node t t4 mtch (Some node) G W); [by rewrite EG | by rewrite EG | | done].
    intros c nc [= <-] Hc. assert (nc = nd) by congruence. subst nc. rewrite EG. done. }
  assert (extends t t4) as X4 by by apply (inserted_extends t t4 _ _ _ I).
  (* the common head of the computation *)
  revert E3. unfold route_node_new.
  destruct (get_node _ node) as [nd'| |] eqn:En; [| done | done]. cbn [mbind res_bind].
  destruct (get_node _ (rt_brk t)) as [nw'| |] eqn:Ew; [| done | done]. cbn [mbind res_bind].
  destruct (upd_node _ _ _) as [t2'| |]; [| done | done]. cbn [mbind res_bind].
  destruct (set_link t2' _ _) as [t3'| |]; [| done | done]. cbn [mbind res_bind].
  intros [= Elen Eu ->]. rewrite E4. cbn [mbind res_bind prefixlen]. rewrite Elen.
  change (prefixlen (route_common (rn_p nd) p prefix_new)) with (prefixlen cp).
  destruct (Z.eqb_spec (prefixlen cp) (prefixlen p)) as [El | El]; cbn [negb].
  - rewrite (route_lock_node_Ok t4 _ _ (ins_new _ _ _ _ _ I)). cbn [mbind res_bind].
    exists t4, (rt_brk t). split; [done |]. split_and!; try done; [by apply brk_free | |].
    + exists G. split; [apply I |]. rewrite EG. split; [| done]. split; [split; [lia |] | done]. done.
    + intros l0 n0 H0 Hne. right. by apply (inserted_old_branching t t4 _ _ _ l0 n0 I).
  - assert (slot t4 p (Some (rt_brk t)) None) as Hs4.
    { exists G. split; [apply I |]. rewrite EG. split; [by split |]. split; [lia |].
      symmetry. rewrite <- EG. apply (branch_free_link t t4 mtch node nd G); [done | done |].
      rewrite EG. apply Hdiff. lia. }
    destruct (grown_leaf t4 p (Some (rt_brk t)) W4 Hp Hs4) 
      as (t6 & E6 & (W6 & X6 & Hfree & (n & Hn & Hnet & HL & HI) & Hbr) & N6 & I6 & Hnet6).
    cbn [attach] in E6. destruct (route_node_set t4 p) as [[t5 new']| |]; [| done | done].
    cbn [mbind res_bind] in E6 |- *.
    destruct (set_link t5 _ _) as [t6'| |]; [| done | done]. cbn [mbind res_bind] in E6 |- *.
    injection E6 as -> ->. rewrite (route_lock_node_Ok t6 _ _ Hn). cbn [mbind res_bind].
    exists t6, (rt_brk t4). split; [done |]. split_and!; try done.
    + by transitivity t4.
    + destruct (rt_nodes t !! rt_brk t4) as [m|] eqn:Em; [| done].
      destruct (proj1 X4 _ m Em) as (m' & ? & _). congruence.
    + by exists n.
    + intros l0 n0 H0 Hne.
      destruct (decide (l0 = rt_brk t)) as [-> | Hl0].
      * left. apply (branch_full t t4 t6 mtch node nd G N6 n0); try done.
        destruct Hnet6 as [[_ A6] E6']. rewrite (A6 (prefixlen (rn_p G))); rewrite EG.
        -- apply Hdiff. lia.
        -- destruct Wc as (_ & _ & ? & _). lia.
      * destruct (Hbr l0 n0 H0 Hne) as [? | (n1 & H1 & EL1 & Hb1)]; [by left | right].
        destruct (inserted_old_branching t t4 _ _ _ l0 n1 I H1 Hl0) as (n2 & H2 & EL2 & Hb2).
        exists n2. split_and!; [done | congruence | auto].
Qed.

Lemma route_node_get_cases t p :
  table_wf t -> storable p ->
  (exists l n, rt_nodes t !! l = Some n /\ same_net (rn_p n) p /\ route_node_get t p = Ok (locked t l, l)) \/
  (exists t2 l, (forall l0 n0, rt_nodes t !! l0 = Some n0 -> ~ same_net (rn_p n0) p) /\
     route_node_get t p = Ok (locked t2 l, l) /\ grown t t2 p l).
Proof.
  intros W Hp. pose proof Hp as (Wp & _ & _). unfold route_node_get.
  destruct (route_node_get_walk t p W Wp) as (w & -> & Hw). cbn [mbind res_bind].
  destruct w as [l | node mtch].
  - left. destruct Hw as (n & Hn & Hs). exists l, n. by rewrite (route_lock_node_Ok t l n Hn).
  - right. destruct Hw as (Hs & Hno & Hnode). destruct node as [node|].
    + destruct (Hnode node eq_refl) as (nd & Hnd & Hnc).
      destruct (grown_branch t p mtch node nd W Hp Hs Hnd Hnc) as (t2 & l & E & G). exists t2, l. done.
    + destruct (grown_leaf t p mtch W Hp Hs) as (t2 & E & G & _). exists t2, (rt_brk t).
      destruct (route_node_set t p) as [[t1 new]| |]; [| done | done]. cbn [mbind res_bind] in *.
      destruct (attach t1 mtch new) as [t2'| |]; [| done | done]. cbn [mbind res_bind] in *.
      injection E as -> ->. pose proof G as (? & ? & ? & (n & Hn & ?) & ?).
      rewrite (route_lock_node_Ok t2 _ n Hn). split_and!; try done.
Qed.

Lemma locked_lookup t l k :
  rt_nodes (locked t l) !! k =
  (if decide (k = l) then fun n => set_rn_lock (u32 (rn_lock n + 1)) n else id) <$> rt_nodes t !! k.
Proof.
  cbn. case_decide as H; [subst; apply lookup_alter_eq |].
  rewrite lookup_alter_ne by done. by destruct (rt_nodes t !! k).
Qed.

(** C25: [route_node_get] adds a prefix: on a well-formed table and for a prefix the table can
    store it returns a node of the same network as the prefix, in a well-formed table; every old
    node is still there with its prefix and information, and its reference count unless it is
    the returned node; nodes it creates carry no information; and if a node of that network was
    already there, it is the one returned and nothing but its reference count changes. *)
Theorem route_node_get_correct t p :
  table_wf t -> storable p ->
  exists t' l n, route_node_get t p = Ok (t', l) /\ table_wf t' /\
    rt_nodes t' !! l = Some n /\ same_net (rn_p n) p /\
    (forall k m, rt_nodes t !! k = Some m -> exists m', rt_nodes t' !! k = Some m' /\
       rn_p m' = rn_p m /\ rn_info m' = rn_info m /\ (k <> l -> rn_lock m' = rn_lock m)) /\
    (forall k m', rt_nodes t' !! k = Some m' -> rt_nodes t !! k = None -> rn_info m' = None) /\
    (forall k m, rt_nodes t !! k = Some m -> same_net (rn_p m) p -> k = l /\ t' = locked t l).
Proof.
  intros W Hp. destruct (route_node_get_cases t p W Hp) as [(l & n & Hl & Hs & E) | (t2 & l & Hno & E & G)].
  - exists (locked t l), l, (set_rn_lock (u32 (rn_lock n + 1)) n).
    split_and!; try done; [by apply locked_wf | | | |].
    + by rewrite locked_lookup, decide_True, Hl.
    + intros k m Hk. rewrite locked_lookup, Hk. case_decide; by eexists.
    + intros k m' Hk' Hk. by rewrite locked_lookup, Hk in Hk'.
    + intros k m Hk [Hc ?]. split; [| done]. destruct Hs. apply (covering_unique t p l n k m W); try done. lia.
  - destruct G as (W2 & X & Hfree & (n & Hn & Hs & HL & HI) & _).
    exists (locked t2 l), l, (set_rn_lock (u32 (rn_lock n + 1)) n).
    split_and!; try done; [by apply locked_wf | | | |].
    + by rewrite locked_lookup, decide_True, Hn.
    + intros k m Hk. destruct (proj1 X k m Hk) as (m' & Hm' & ? & ? & ?).
      rewrite locked_lookup, Hm', decide_False by congruence. by exists m'.
    + intros k m'. rewrite locked_lookup. destruct (rt_nodes t2 !! k) as [m2|] eqn:E2; [| done].
      intros [= <-] Hk. destruct (proj2 X k m2 E2 Hk) as [_ HI2]. by case_decide.
    + intros k m Hk Hsm. by destruct (Hno k m Hk).
Qed.

Lemma wrap_succ z : 0 <= z -> z + 1 < 2 ^ 32 -> u32 (z + 1) = z + 1.
Proof. intros ??. apply wrap_small. unfold in_u. lia. Qed.

(** Locking keeps the reference counts consistent as long as the counter does not wrap. *)
Lemma locked_locks_wf t l n :
  (forall k m, rt_nodes t !! k = Some m -> k <> l -> in_u 32 (rn_lock m) /\
     (rn_lock m = 0 -> rn_info m = None /\ branching m)) ->
  rt_nodes t !! l = Some n -> 0 <= rn_lock n -> rn_lock n + 1 < 2 ^ 32 -> locks_wf (locked t l).
Proof.
  intros H Hl H0 H1 k m'. rewrite locked_lookup. destruct (rt_nodes t !! k) as [m|] eqn:Hk; [| done].
  intros [= <-]. case_decide as Hd.
  - subst k. assert (m = n) by congruence. subst m. cbn [set_rn_lock rn_lock].
    rewrite wrap_succ by lia. unfold in_u. split; lia.
  - by apply (H k).
Qed.

(** The reference counts after [route_node_get], as long as no counter wraps. *)
Lemma route_node_get_locks t p :
  table_wf t -> locks_wf t -> storable p ->
  (forall l n, rt_nodes t !! l = Some n -> rn_lock n + 1 < 2 ^ 32) ->
  exists t' l n, route_node_get t p = Ok (t', l) /\ locks_wf t' /\
    rt_nodes t' !! l = Some n /\ 0 < rn_lock n.
Proof.
  intros W L Hp Hw.
  destruct (route_node_get_cases t p W Hp) as [(l & n & Hl & Hs & E) | (t2 & l & Hno & E & G)].
  - destruct (L l n Hl) as [[? ?] ?]. pose proof (Hw l n Hl). exists (locked t l), l, (set_rn_lock (u32 (rn_lock n + 1)) n).
    split_and!; [done | | by rewrite locked_lookup, decide_True, Hl |].
    + apply (locked_locks_wf t l n); try done. intros k m Hk _. exact (L k m Hk).
    + cbn. rewrite wrap_succ by lia. lia.
  - destruct G as (W2 & X & Hfree & (n & Hn & _ & HL & HI) & Hbr).
    exists (locked t2 l), l, (set_rn_lock (u32 (rn_lock n + 1)) n).
    split_and!; [done | | by rewrite locked_lookup, decide_True, Hn |].
    + apply (locked_locks_wf t2 l n); [| done | lia | lia].
      intros k m Hk Hne. destruct (rt_nodes t !! k) as [m0|] eqn:Hk0.
      * destruct (proj1 X k m0 Hk0) as (m' & Hm' & _ & EL & EI). assert (m' = m) by congruence. subst m'.
        destruct (L k m0 Hk0) as [Hr H0]. rewrite EL, EI. split; [done |]. intros Hz.
        destruct (H0 Hz) as [? Hb0]. split; [done |].
        destruct (Hbr k m Hk Hne) as [? | (m1 & H1 & _ & Hbb)]; [done |].
        assert (m1 = m0) by congruence. subst m1. by apply Hbb.
      * destruct (proj2 X k m Hk Hk0) as [EL EI]. rewrite EL. split; [unfold in_u; lia |]. intros _.
        split; [done |]. destruct (Hbr k m Hk Hne) as [? | (m1 & H1 & _)]; [done | congruence].
    + cbn. rewrite HL. done.
Qed.

(** ** Removing one node

    [t'] is [t] without the node [n] at [l]; its only child, if any, takes its place. *)
Record removed t t' l n (child : option loc) : Prop := {
  rm_top : rt_top t' = match rn_parent n with None => child | Some _ => rt_top t end;
  rm_brk : rt_brk t' = rt_brk t;
  rm_gone : rt_nodes t' !! l = None;
  rm_old : forall k m, rt_nodes t !! k = Some m -> k <> l ->
    exists m', rt_nodes t' !! k = Some m' /\ rn_p m' = rn_p m /\ rn_lock m' = rn_lock m /\
      rn_info m' = rn_info m /\
      rn_parent m' = (if decide (child = Some k) then rn_parent n else rn_parent m) /\
      forall b, rn_link m' (Z.b2z b) =
        if decide (rn_parent n = Some k /\ rn_link m (Z.b2z b) = Some l) then child else rn_link m (Z.b2z b);
  rm_dom : forall k m', rt_nodes t' !! k = Some m' -> is_Some (rt_nodes t !! k)
}.

(** [child] is the only child of [n]. *)
Definition only_child n (child : option loc) : Prop :=
  (forall b c, rn_link n (Z.b2z b) = Some c -> child = Some c) /\
  (forall c, child = Some c -> exists b, rn_link n (Z.b2z b) = Some c).

Lemma wf_remove_node t t' l n child :
  table_wf t -> rt_nodes t !! l = Some n -> only_child n child -> removed t t' l n child -> table_wf t'.
Proof.
  intros W Hn [Hc1 Hc2] R.
  assert (forall k m', rt_nodes t' !! k = Some m' -> k <> l /\ exists m, rt_nodes t !! k = Some m) as Hold.
  { intros k m' Hk. split; [intros ->; by rewrite (rm_gone _ _ _ _ _ R) in Hk |].
    destruct (rm_dom _ _ _ _ _ R k m' Hk) as [m ?]. by exists m. }
  assert (forall c, child = Some c -> exists nc, rt_nodes t !! c = Some nc /\ rn_parent nc = Some l /\ c <> l /\
            prefixlen (rn_p n) < prefixlen (rn_p nc) /\ bits_agree (prefixlen (rn_p n)) (u (rn_p n)) (u (rn_p nc)))
    as Hcn.
  { intros c Hc. destruct (Hc2 c Hc) as [b Hb]. destruct (wf_child t W l n b c Hn Hb) as (nc & ? & ? & Hlt & ? & _).
    exists nc. split_and!; try done. intros ->. assert (nc = n) by congruence. subst. lia. }
  split.
  - (* wf_top *) intros k. rewrite (rm_top _ _ _ _ _ R). destruct (rn_parent n) as [q|] eqn:Hq.
    + intros Hk. destruct (wf_top t W k Hk) as (m & Hm & Hp). assert (k <> l) as Hkl by congruence.
      destruct (rm_old _ _ _ _ _ R k m Hm Hkl) as (m' & Hm' & _ & _ & _ & Hp' & _).
      exists m'. split; [done |]. rewrite Hp'. destruct (decide (child = Some k)) as [Hd|]; [| done].
      destruct (Hcn k Hd) as (nc & ? & ? & _). congruence.
    + intros Hk. destruct (Hcn k Hk) as (nc & Hnc & Hp & Hkl & _).
      destruct (rm_old _ _ _ _ _ R k nc Hnc Hkl) as (m' & Hm' & _ & _ & _ & Hp' & _).
      exists m'. split; [done |]. rewrite Hp', decide_True by done. done.
  - (* wf_root *) intros k m' Hk' Hp'. destruct (Hold k m' Hk') as [Hkl [m Hm]].
    destruct (rm_old _ _ _ _ _ R k m Hm Hkl) as (m2 & Hm2 & _ & _ & _ & Hp2 & _).
    assert (m2 = m') by congruence. subst m2. rewrite Hp' in Hp2. rewrite (rm_top _ _ _ _ _ R).
    destruct (decide (child = Some k)) as [Hd|Hd]; [by rewrite <- Hp2 |].
    symmetry in Hp2. pose proof (wf_root t W k m Hm Hp2) as Ht. destruct (rn_parent n) as [q|] eqn:Hq; [done |].
    pose proof (wf_root t W l n Hn Hq). congruence.
  - (* wf_parent *) intros k m' q Hk' Hp'. destruct (Hold k m' Hk') as [Hkl [m Hm]].
    destruct (rm_old _ _ _ _ _ R k m Hm Hkl) as (m2 & Hm2 & Ep & _ & _ & Hp2 & _).
    assert (m2 = m') by congruence. subst m2. rewrite Hp' in Hp2.
    destruct (decide (child = Some k)) as [Hd|Hd].
    + symmetry in Hp2. destruct (wf_parent t W l n q Hn Hp2) as (mq & Hmq & Hlk).
      destruct (wf_child t W q mq _ l Hmq Hlk) as (n2 & Hn2 & _ & Hlt & _). assert (n2 = n) by congruence. subst n2.
      assert (q <> l) as Hql by (intros ->; assert (mq = n) by congruence; subst; lia).
      destruct (Hcn k Hd) as (nc & Hnc & _ & _ & Hltc & Hag). assert (nc = m) by congruence. subst nc.
      destruct (wf_pfx t W q mq Hmq) as (_ & _ & ? & _).
      destruct (rm_old _ _ _ _ _ R q mq Hmq Hql) as (mq' & Hmq' & Epq & _ & _ & _ & Hlk').
      exists mq'. split; [done |]. rewrite Hlk', Epq, Ep, <- Hag by lia. by rewrite decide_True.
    + symmetry in Hp2. destruct (wf_parent t W k m q Hm Hp2) as (mq & Hmq & Hlk).
      assert (q <> l) as Hql.
      { intros ->. assert (mq = n) by congruence. subst mq. apply Hc1 in Hlk. congruence. }
      destruct (rm_old _ _ _ _ _ R q mq Hmq Hql) as (mq' & Hmq' & Epq & _ & _ & _ & Hlk').
      exists mq'. split; [done |]. rewrite Hlk', Epq, Ep, decide_False; [done |]. intros [_ ?]. congruence.
  - (* wf_child *) intros k m' b c Hk' Hlk'. destruct (Hold k m' Hk') as [Hkl [m Hm]].
    destruct (rm_old _ _ _ _ _ R k m Hm Hkl) as (m2 & Hm2 & Ep & _ & _ & _ & Hlk).
    assert (m2 = m') by congruence. subst m2. rewrite Hlk in Hlk'. rewrite Ep.
    destruct (decide (_ /\ _)) as [[Hq Hlkl]|Hd].
    + destruct (Hcn c Hlk') as (nc & Hnc & _ & Hcl & Hltc & Hagc).
      destruct (wf_child t W k m b l Hm Hlkl) as (n2 & Hn2 & _ & Hlt & Hag & Hb).
      assert (n2 = n) by congruence. subst n2.
      destruct (rm_old _ _ _ _ _ R c nc Hnc Hcl) as (nc' & Hnc' & Epc & _ & _ & Hpc & _).
      exists nc'. rewrite Epc, Hpc, decide_True by done. destruct (wf_pfx t W k m Hm) as (_ & _ & ? & _).
      split_and!; [done | done | lia | | by rewrite <- Hagc by lia].
      etransitivity; [exact Hag |]. apply (bits_agree_le (prefixlen (rn_p n))); [lia | done].
    + destruct (wf_child t W k m b c Hm Hlk') as (mc & Hmc & Hpc & Hlt & Hag & Hb).
      assert (c <> l) as Hcl. { intros ->. assert (mc = n) by congruence. subst. by destruct Hd. }
      destruct (rm_old _ _ _ _ _ R c mc Hmc Hcl) as (mc' & Hmc' & Epc & _ & _ & Hpc' & _).
      exists mc'. rewrite Epc, Hpc'. split_and!; try done.
      destruct (decide (child = Some c)) as [Hd'|]; [| done].
      destruct (Hcn c Hd') as (nc & Hnc & ? & _). congruence.
  - (* wf_pfx *) intros k m' Hk'. destruct (Hold k m' Hk') as [Hkl [m Hm]].
    destruct (rm_old _ _ _ _ _ R k m Hm Hkl) as (m2 & Hm2 & Ep & _). assert (m2 = m') by congruence. subst m2.
    rewrite Ep. by apply (wf_pfx t W k).
  - (* wf_brk *) intros k m' Hk'. rewrite (rm_brk _ _ _ _ _ R). destruct (Hold k m' Hk') as [Hkl [m Hm]].
    by apply (wf_brk t W k m).
Qed.

(** [replace_child] on the parent of [l] changes the one link that points to [l]. *)
Lemma replace_child_links t q m l n child :
  table_wf t -> rt_nodes t !! l = Some n -> rn_parent n = Some q -> rt_nodes t !! q = Some m ->
  (forall b, rn_link (replace_child l child m) (Z.b2z b) =
     if decide (rn_link m (Z.b2z b) = Some l) then child else rn_link m (Z.b2z b)) /\
  rn_p (replace_child l child m) = rn_p m /\ rn_parent (replace_child l child m) = rn_parent m /\
  rn_lock (replace_child l child m) = rn_lock m /\ rn_info (replace_child l child m) = rn_info m.
Proof.
  intros W Hl Hq Hm. destruct (wf_parent t W l n q Hl Hq) as (m' & Hm' & Hlk).
  assert (m' = m) by congruence. subst m'.
  assert (forall b, rn_link m (Z.b2z b) = Some l -> bit_at (u (rn_p n)) (prefixlen (rn_p m)) = b) as Hb.
  { intros b H. destruct (wf_child t W q m b l Hm H) as (n' & Hn' & _ & _ & _ & <-). congruence. }
  split; [| unfold replace_child; destruct (bool_decide _); apply set_rn_link_fields].
  intros b. unfold replace_child. destruct (bool_decide (rn_left m = Some l)) eqn:El.
  - apply bool_decide_eq_true in El. rewrite (rn_link_set_rn_link false b). destruct b.
    + destruct (decide (false = true)) as [|_]; [done |].
      destruct (decide (rn_link m (Z.b2z true) = Some l)) as [Hr|]; [| done].
      pose proof (Hb false El). pose proof (Hb true Hr). congruence.
    + destruct (decide (false = false)) as [_|]; [| done].
      destruct (decide (rn_link m (Z.b2z false) = Some l)) as [|Hr]; [done | by destruct Hr].
  - apply bool_decide_eq_false in El. rewrite (rn_link_set_rn_link true b). destruct b.
    + destruct (decide (true = true)) as [_|]; [| done].
      destruct (bit_at (u (rn_p n)) (prefixlen (rn_p m))); [| done].
      destruct (decide (rn_link m (Z.b2z true) = Some l)) as [|Hr]; [done | by destruct Hr].
    + destruct (decide (true = false)) as [|_]; [done |].
      destruct (decide (rn_link m (Z.b2z false) = Some l)) as [Hr|]; done.
Qed.

(** The pointer updates of [route_node_delete] on a node with at most one child remove it. *)
Lemma unlink_removed t l n child :
  table_wf t -> rt_nodes t !! l = Some n -> only_child n child ->
  exists t2,
    (t1 ← match child with Some c => upd_node c (set_rn_parent (rn_parent n)) t | None => Ok t end;
     match rn_parent n with
     | Some q => upd_node q (replace_child l child) t1
     | None => Ok (set_top child t1)
     end) = Ok t2 /\ removed t (route_node_free l t2) l n child.
Proof.
  intros W Hn Hoc. pose proof Hoc as [Hc1 Hc2].
  assert (forall c, child = Some c -> exists nc, rt_nodes t !! c = Some nc) as Hcn.
  { intros c Hc. destruct (Hc2 c Hc) as [b Hb]. destruct (wf_child t W l n b c Hn Hb) as (nc & ? & _). by exists nc. }
  set (t1 := match child with
             | Some c => mk_table (rt_top t) (alter (set_rn_parent (rn_parent n)) c (rt_nodes t)) (rt_brk t)
             | None => t end).
  assert (match child with Some c => upd_node c (set_rn_parent (rn_parent n)) t | None => Ok t end = Ok t1) as ->.
  { unfold t1. destruct child as [c|]; [| done]. destruct (Hcn c eq_refl) as [nc Hnc]. by apply (upd_node_Ok t c nc). }
  cbn [mbind res_bind].
  assert (forall k, rt_nodes t1 !! k =
            (if decide (child = Some k) then set_rn_parent (rn_parent n) else id) <$> rt_nodes t !! k) as Ht1.
  { intros k. unfold t1. destruct child as [c|].
    - cbn [rt_nodes]. destruct (decide (c = k)) as [-> |].
      + rewrite lookup_alter_eq, decide_True by done. done.
      + rewrite lookup_alter_ne, decide_False by congruence. by destruct (rt_nodes t !! k).
    - rewrite decide_False by done. by destruct (rt_nodes t !! k). }
  assert (rt_top t1 = rt_top t /\ rt_brk t1 = rt_brk t) as [Et1 Eb1] by (unfold t1; by destruct child).
  destruct (rn_parent n) as [q|] eqn:Hq.
  - destruct (wf_parent t W l n q Hn Hq) as (m & Hm & Hlk).
    assert (rt_nodes t1 !! q = Some ((if decide (child = Some q) then set_rn_parent (Some q) else id) m)) as Hq1
      by by rewrite Ht1, Hm.
    rewrite (upd_node_Ok t1 q _ _ Hq1). eexists. split; [done |].
    split; cbn [route_node_free rt_top rt_brk rt_nodes].
    + by rewrite Hq.
    + done.
    + apply lookup_delete_eq.
    + intros k mk Hk Hne. rewrite lookup_delete_ne by done. rewrite Hq.
      destruct (replace_child_links t q m l n child W Hn Hq Hm) as (HL & R1 & R2 & R3 & R4).
      destruct (decide (k = q)) as [-> | Hkq].
      * assert (mk = m) by congruence. subst mk. rewrite lookup_alter_eq, Hq1. eexists. split; [done |].
        assert (child <> Some q) as Hnq.
        { intros Hc. destruct (Hc2 q Hc) as [b Hb]. destruct (wf_child t W l n b q Hn Hb) as (m2 & Hm2 & _ & H1 & _).
          assert (m2 = m) by congruence. subst m2.
          destruct (wf_child t W q m _ l Hm Hlk) as (n2 & Hn2 & _ & H2 & _). assert (n2 = n) by congruence. subst n2. lia. }
        rewrite !decide_False by done. cbn [id]. split_and!; try done.
        intros b. rewrite HL. destruct (decide (rn_link m (Z.b2z b) = Some l)).
        -- by rewrite decide_True.
        -- rewrite decide_False by naive_solver. done.
      * rewrite lookup_alter_ne, Ht1, Hk by done. eexists. split; [done |].
        destruct (decide (child = Some k)); split_and!; try done; intros b;
          rewrite decide_False by naive_solver; done.
    + intros k m' Hk'. destruct (decide (k = l)) as [-> | Hkl]; [by rewrite Hn |].
      rewrite lookup_delete_ne in Hk' by done. destruct (decide (k = q)) as [-> |]; [by rewrite Hm |].
      rewrite lookup_alter_ne, Ht1 in Hk' by done. by destruct (rt_nodes t !! k).
  - eexists. split; [done |]. split; cbn [route_node_free set_top rt_top rt_brk rt_nodes].
    + by rewrite Hq.
    + done.
    + apply lookup_delete_eq.
    + intros k mk Hk Hne. rewrite lookup_delete_ne, Ht1, Hk, Hq by done. eexists. split; [done |].
      destruct (decide (child = Some k)); split_and!; try done; intros b;
        rewrite decide_False by naive_solver; done.
    + intros k m' Hk'. destruct (decide (k = l)) as [-> | Hkl]; [by rewrite Hn |].
      rewrite lookup_delete_ne, Ht1 in Hk' by done. by destruct (rt_nodes t !! k).
Qed.

(** [t'] keeps the nodes of [t] that somebody holds, and has no others than those of [t]. *)
Definition shrinks t t' : Prop :=
  (forall k m', rt_nodes t' !! k = Some m' -> exists m, rt_nodes t !! k = Some m /\
     rn_p m' = rn_p m /\ rn_lock m' = rn_lock m /\ rn_info m' = rn_info m) /\
  (forall k m, rt_nodes t !! k = Some m -> rn_lock m <> 0 -> is_Some (rt_nodes t' !! k)).

Global Instance shrinks_trans : Transitive shrinks.
Proof.
  intros t1 t2 t3 [P1 Q1] [P2 Q2]. split.
  - intros k m3 Hm3. destruct (P2 k m3 Hm3) as (m2 & Hm2 & ? & ? & ?).
    destruct (P1 k m2 Hm2) as (m1 & Hm1 & ? & ? & ?). exists m1. split_and!; congruence.
  - intros k m1 Hm1 Hne. destruct (Q1 k m1 Hm1 Hne) as [m2 Hm2].
    destruct (P1 k m2 Hm2) as (m1' & Hm1' & ? & ? & ?). apply (Q2 k m2 Hm2). congruence.
Qed.

Lemma shrinks_refl t : shrinks t t.
Proof. split; [eauto 6 | intros; by eexists]. Qed.

(** Reference counts are consistent at every node but [l]. *)
Definition locks_wf_but t (o : option loc) : Prop :=
  forall k m, rt_nodes t !! k = Some m -> o <> Some k ->
    in_u 32 (rn_lock m) /\ (rn_lock m = 0 -> rn_info m = None /\ branching m).

Lemma locks_wf_but_all t l n :
  locks_wf_but t (Some l) -> rt_nodes t !! l = Some n -> in_u 32 (rn_lock n) ->
  (rn_lock n = 0 -> rn_info n = None /\ branching n) -> locks_wf t.
Proof.
  intros H Hl Hr H0 k m Hk. destruct (decide (k = l)) as [-> | Hne].
  - assert (m = n) by congruence. by subst.
  - apply (H k m Hk). congruence.
Qed.

Lemma removed_shrinks t t' l n child :
  removed t t' l n child -> rt_nodes t !! l = Some n -> rn_lock n = 0 -> shrinks t t'.
Proof.
  intros R Hl H0. split.
  - intros k m' Hk'. destruct (rm_dom _ _ _ _ _ R k m' Hk') as [m Hm]. exists m. split; [done |].
    assert (k <> l) as Hne by (intros ->; by rewrite (rm_gone _ _ _ _ _ R) in Hk').
    destruct (rm_old _ _ _ _ _ R k m Hm Hne) as (m2 & Hm2 & ? & ? & ? & _).
    assert (m2 = m') by congruence. by subst.
  - intros k m Hk Hne. assert (k <> l) as Hkl by congruence.
    destruct (rm_old _ _ _ _ _ R k m Hk Hkl) as (m2 & Hm2 & _). by exists m2.
Qed.

(** A removal can unbalance the parent of the removed node only. *)
Lemma removed_locks t t' l n child :
  removed t t' l n child -> rt_nodes t !! l = Some n -> locks_wf_but t (Some l) ->
  locks_wf_but t' (rn_parent n).
Proof.
  intros R Hl HL k m' Hk' Hnq. destruct (rm_dom _ _ _ _ _ R k m' Hk') as [m Hm].
  assert (k <> l) as Hne by (intros ->; by rewrite (rm_gone _ _ _ _ _ R) in Hk').
  destruct (rm_old _ _ _ _ _ R k m Hm Hne) as (m2 & Hm2 & _ & EL & EI & _ & Hlk).
  assert (m2 = m') by congruence. subst m2. rewrite EL, EI.
  destruct (HL k m Hm ltac:(congruence)) as [Hr H0]. split; [done |]. intros Hz.
  destruct (H0 Hz) as [? Hb]. split; [done |]. rewrite branching_links in *. intros b. rewrite Hlk.
  rewrite decide_False; [apply Hb | naive_solver].
Qed.

Lemma has_both_spec n :
  (if rn_left n then true else false) && (if rn_right n then true else false) = true <-> branching n.
Proof.
  unfold branching. destruct (rn_left n), (rn_right n); cbn; split; try done;
    intros [[? ?] [? ?]]; done.
Qed.

Lemma only_child_choice n :
  ~ branching n -> only_child n (if rn_left n then rn_left n else rn_right n).
Proof.
  intros Hb. unfold only_child, branching in *. destruct (rn_left n) as [a|] eqn:E1.
  - split; [| intros c Hc; exists false; cbn; congruence]. intros [|] c Hc; cbn in Hc; [| congruence].
    destruct Hb. split; by eexists.
  - split; [| intros c Hc; by exists true]. intros [|] c Hc; cbn in Hc; congruence.
Qed.

(** Deleting an unheld, empty node. *)
Lemma route_node_delete_spec fuel t l n :
  table_wf t -> locks_wf_but t (Some l) -> rt_nodes t !! l = Some n ->
  rn_lock n = 0 -> rn_info n = None -> prefixlen (rn_p n) <= Z.of_nat fuel ->
  exists t', route_node_delete fuel t l = Ok t' /\ table_wf t' /\ locks_wf t' /\ shrinks t t'.
Proof.
  revert t l n. induction fuel as [|fuel IH]; intros t l n W HL Hl H0 HI Hf;
    cbn [route_node_delete]; rewrite (get_node_Some t l n Hl); cbn [mbind res_bind];
    rewrite H0, HI; cbn [mbind res_bind c_assert Z.eqb];
    (destruct (_ && _) eqn:Hb;
     [apply has_both_spec in Hb; exists t; split_and!; [done | done | | apply shrinks_refl];
      apply (locks_wf_but_all t l n HL Hl); [rewrite H0; unfold in_u; lia | done] |]);
    assert (~ branching n) as Hnb by (rewrite <- has_both_spec; congruence);
    pose proof (only_child_choice n Hnb) as Hoc; set (child := if rn_left n then rn_left n else rn_right n) in *;
    destruct (unlink_removed t l n child W Hl Hoc) as (t2 & E & R);
    pose proof (wf_remove_node t _ l n child W Hl Hoc R) as W3;
    pose proof (removed_shrinks t _ l n child R Hl H0) as S3;
    pose proof (removed_locks t _ l n child R Hl HL) as L3;
    set (t3 := route_node_free l t2) in *;
    (destruct (match child with Some c => _ | None => _ end) as [t1| |]; [| done | done]);
    cbn [mbind res_bind] in E |- *; rewrite E; cbn [mbind res_bind]; fold t3;
    (destruct (rn_parent n) as [q|] eqn:Hq;
     [| exists t3; split_and!; try done; intros k m Hk; by apply (L3 k m Hk)]);
    destruct (wf_parent t W l n q Hl Hq) as (mq & Hmq & Hlk);
    destruct (wf_child t W q mq _ l Hmq Hlk) as (n2 & Hn2 & _ & Hlt & _);
    assert (n2 = n) by congruence; subst n2;
    assert (q <> l) as Hql by (intros ->; assert (mq = n) by congruence; subst; lia);
    pose proof (wf_pfx t W q mq Hmq) as (_ & _ & ? & _).
  - lia.
  - destruct (rm_old _ _ _ _ _ R q mq Hmq Hql) as (m' & Hm' & Ep & EL & EI & _).
    rewrite (get_node_Some t3 q m' Hm'). cbn [mbind res_bind].
    destruct (HL q mq Hmq ltac:(congruence)) as [Hr Hz]. destruct (Z.eqb_spec (rn_lock m') 0) as [E0 | E0].
    + destruct (Hz ltac:(congruence)) as [HIq _].
      destruct (IH t3 q m' W3 L3 Hm') as (t' & E' & W' & L' & S'); [done | congruence | rewrite Ep; lia |].
      exists t'. split_and!; try done. by transitivity t3.
    + exists t3. split_and!; try done. apply (locks_wf_but_all t3 q m' L3 Hm'); [congruence | done].
Qed.

(** ** Histories of a table

    What a client may do with a table: the searches, [route_node_get], setting [info] of a node it
    holds, and releasing a node it holds (after clearing [info] if nobody else holds it). *)

Definition no_wrap t : Prop := forall l n, rt_nodes t !! l = Some n -> rn_lock n + 1 < 2 ^ 32.

Inductive table_step : route_table A -> route_table A -> Prop :=
| step_get t p t' l :
    storable p -> no_wrap t -> route_node_get t p = Ok (t', l) -> table_step t t'
| step_lookup t p t' r :
    prefix_wf p -> no_wrap t -> route_node_lookup t p = Ok (t', r) -> table_step t t'
| step_match t p t' r :
    prefix_wf p -> no_wrap t -> route_node_match t p = Ok (t', r) -> table_step t t'
| step_top t t' r :
    no_wrap t -> route_top t = Ok (t', r) -> table_step t t'
| step_info t l n i t' :
    rt_nodes t !! l = Some n -> 0 < rn_lock n -> upd_node l (set_rn_info i) t = Ok t' -> table_step t t'
| step_unlock t l n t' :
    rt_nodes t !! l = Some n -> 0 < rn_lock n -> (rn_lock n = 1 -> rn_info n = None) ->
    route_unlock_node t l = Ok t' -> table_step t t'.

Definition table_inv t : Prop := table_wf t /\ locks_wf t.

Lemma table_init_inv : table_inv route_table_init.
Proof. split; [split |]; cbn; try done; intros *; rewrite lookup_empty; done. Qed.

Lemma locked_inv t l n : table_inv t -> no_wrap t -> rt_nodes t !! l = Some n -> table_inv (locked t l).
Proof.
  intros [W L] Hw Hl. split; [by apply locked_wf |]. pose proof (Hw l n Hl). destruct (L l n Hl) as [[? ?] _].
  apply (locked_locks_wf t l n); [| done | lia | lia]. intros k m Hk _. exact (L k m Hk).
Qed.

(** Locking the node a search returns, if any. *)
Lemma lock_result_inv t (r : option loc) t' r' :
  table_inv t -> no_wrap t ->
  match r with Some l => t' ← route_lock_node t l; Ok (t', Some l) | None => Ok (t, None) end = Ok (t', r') ->
  table_inv t'.
Proof.
  intros I Hw. destruct r as [l|]; [| by intros [= <- <-]].
  destruct (rt_nodes t !! l) as [n|] eqn:Hl.
  - rewrite (route_lock_node_Ok t l n Hl). intros [= <- <-]. by apply (locked_inv t l n).
  - unfold route_lock_node, upd_node, get_node. by rewrite Hl.
Qed.

Lemma set_info_inv t l n i t' :
  table_inv t -> rt_nodes t !! l = Some n -> 0 < rn_lock n -> upd_node l (set_rn_info i) t = Ok t' -> table_inv t'.
Proof.
  intros [W L] Hl Hpos. rewrite (upd_node_Ok t l n _ Hl). intros [= <-]. split.
  - apply (same_shape_wf t); [by apply same_shape_alter | done].
  - intros k m. cbn [rt_nodes]. destruct (decide (k = l)) as [-> | Hne].
    + rewrite lookup_alter_eq, Hl. intros [= <-]. cbn. split; [apply (L l n Hl) | lia].
    + rewrite lookup_alter_ne by done. apply L.
Qed.

Lemma route_unlock_node_inv t l n :
  table_inv t -> rt_nodes t !! l = Some n -> 0 < rn_lock n -> (rn_lock n = 1 -> rn_info n = None) ->
  exists t', route_unlock_node t l = Ok t' /\ table_inv t' /\
    (forall k m', rt_nodes t' !! k = Some m' -> exists m, rt_nodes t !! k = Some m /\ rn_p m' = rn_p m /\
       rn_info m' = rn_info m /\ rn_lock m' = (if decide (k = l) then rn_lock m - 1 else rn_lock m)) /\
    (forall k m, rt_nodes t !! k = Some m -> (if decide (k = l) then rn_lock m <> 1 else rn_lock m <> 0) ->
       is_Some (rt_nodes t' !! k)).
Proof.
  intros [W L] Hl Hpos H1. unfold route_unlock_node. rewrite (upd_node_Ok t l n _ Hl). cbn [mbind res_bind].
  set (f := fun n => set_rn_lock (u32 (rn_lock n - 1)) n). set (t1 := mk_table _ _ _).
  destruct (L l n Hl) as [[_ Hr] _].
  assert (u32 (rn_lock n - 1) = rn_lock n - 1) as Eu by (apply wrap_small; unfold in_u; lia).
  assert (table_wf t1) as W1 by (apply (same_shape_wf t); [by apply same_shape_alter | done]).
  assert (rt_nodes t1 !! l = Some (f n)) as Hl1 by (cbn [t1 rt_nodes]; by rewrite lookup_alter_eq, Hl).
  assert (forall k, k <> l -> rt_nodes t1 !! k = rt_nodes t !! k) as Hk1
    by (intros k Hk; cbn [t1 rt_nodes]; by rewrite lookup_alter_ne).
  assert (locks_wf_but t1 (Some l)) as L1.
  { intros k m Hk Hne. rewrite Hk1 in Hk by congruence. exact (L k m Hk). }
  assert (exists t', (n ← get_node t1 l; if rn_lock n =? 0 then route_node_delete walk_fuel t1 l else Ok t1) = Ok t' /\
            table_wf t' /\ locks_wf t' /\ shrinks t1 t') as (t' & E & W' & L' & Hs1 & Hs2).
  { rewrite (get_node_Some t1 l _ Hl1). cbn [mbind res_bind f set_rn_lock rn_lock]. rewrite Eu.
    destruct (Z.eqb_spec (rn_lock n - 1) 0) as [E0 | E0].
    - apply (route_node_delete_spec walk_fuel t1 l (f n)); try done; cbn; [by rewrite Eu | apply H1; lia |].
      destruct (wf_pfx t W l n Hl) as (_ & _ & ? & ?). change (Z.of_nat walk_fuel) with 257. lia.
    - exists t1. split_and!; try done; [| apply shrinks_refl].
      apply (locks_wf_but_all t1 l (f n) L1 Hl1); cbn; rewrite Eu; [unfold in_u; lia | intros; lia]. }
  exists t'. split; [done |]. split; [done |]. split.
  - intros k m' Hk'. destruct (Hs1 k m' Hk') as (m1 & Hm1 & Ep & EL & EI).
    destruct (decide (k = l)) as [-> | Hne].
    + assert (m1 = f n) by congruence. subst m1. exists n. split_and!; try done. rewrite EL. cbn. done.
    + rewrite Hk1 in Hm1 by done. by exists m1.
  - intros k m Hk Hd. destruct (decide (k = l)) as [-> | Hne].
    + assert (m = n) by congruence. subst m. apply (Hs2 l (f n) Hl1). cbn. rewrite Eu. lia.
    + apply (Hs2 k m); [by rewrite Hk1 | done].
Qed.

(** Releasing a node: when a held node is unlocked (and its information has been taken away
    if this is the last reference), [route_unlock_node] returns, the table stays well formed with
    consistent reference counts, and the only nodes that disappear are ones that nobody holds:
    every other node keeps its prefix, count and information. *)
Theorem route_unlock_node_correct t l n :
  table_wf t -> locks_wf t -> rt_nodes t !! l = Some n -> 0 < rn_lock n ->
  (rn_lock n = 1 -> rn_info n = None) ->
  exists t', route_unlock_node t l = Ok t' /\ table_wf t' /\ locks_wf t' /\
    (forall k m', rt_nodes t' !! k = Some m' -> exists m, rt_nodes t !! k = Some m /\ rn_p m' = rn_p m /\
       rn_info m' = rn_info m /\ rn_lock m' = (if decide (k = l) then rn_lock m - 1 else rn_lock m)) /\
    (forall k m, rt_nodes t !! k = Some m -> (if decide (k = l) then rn_lock m <> 1 else rn_lock m <> 0) ->
       is_Some (rt_nodes t' !! k)).
Proof.
  intros W L Hl Hpos H1.
  destruct (route_unlock_node_inv t l n (conj W L) Hl Hpos H1) as (t' & E & [W' L'] & P & Q).
  by exists t'.
Qed.

Lemma table_step_inv t t' : table_inv t -> table_step t t' -> table_inv t'.
Proof.
  intros I St. pose proof I as [W L]. destruct St as [t p t' l Hp Hw E | t p t' r Hp Hw E | t p t' r Hp Hw E | t t' r Hw E
    | t l n i t' Hl Hpos E | t l n t' Hl Hpos H1 E].
  - destruct (route_node_get_locks t p W L Hp Hw) as (t2 & l2 & n2 & E2 & L2 & _).
    rewrite E in E2. injection E2 as <- <-. split; [| done].
    destruct (route_node_get_cases t p W Hp) as [(l0 & n & Hl & Hs & E0) | (t0 & l0 & Hno & E0 & G)];
      rewrite E in E0; injection E0 as -> ->; apply locked_wf; [done | apply G].
  - unfold route_node_lookup in E. apply bind_Ok in E as (r0 & _ & E). by apply (lock_result_inv t r0 t' r).
  - unfold route_node_match in E. apply bind_Ok in E as (r0 & _ & E). by apply (lock_result_inv t r0 t' r).
  - by apply (lock_result_inv t (rt_top t) t' r); [done | done |]; unfold route_top in E; destruct (rt_top t).
  - by apply (set_info_inv t l n i).
  - destruct (route_unlock_node_inv t l n I Hl Hpos H1) as (t2 & E2 & I2 & _).
    rewrite E in E2. by injection E2 as <-.
Qed.

(** C2: every table a client can build is well formed: starting from an empty table, after any
    sequence of lookups, longest-prefix matches, [route_node_get], [info] updates of held nodes
    and releases of held nodes, the tree structure and the reference counts are consistent. *)
Theorem reachable_table_inv t : rtc table_step route_table_init t -> table_inv t.
Proof.
  intros H. cut (table_inv route_table_init); [| apply table_init_inv].
  induction H as [| t1 t2 t3 H12 _ IH]; [done |]. intros I. apply IH. by apply (table_step_inv t1).
Qed.

End Table.

(** ** A concrete table

    10.0.0.0/8 and 10.1.0.0/16 with information, 10.1.2.0/24 added and held without, over a
    branching node once 10.128.0.0/9 is there as well. *)

Definition ex_prefix (a b c d len : Z) : prefix :=
  mk_prefix AF_INET len (a :: b :: c :: d :: replicate 12 0).

Definition ex_add (t : route_table nat) (p : prefix) (i : option nat) : res (route_table nat) :=
  '(t1, l) ← route_node_get t p; upd_node l (set_rn_info i) t1.

Definition ex_build : res (route_table nat) :=
  t1 ← ex_add route_table_init (ex_prefix 10 0 0 0 8) (Some 1%nat);
  t2 ← ex_add t1 (ex_prefix 10 1 0 0 16) (Some 2%nat);
  t3 ← ex_add t2 (ex_prefix 10 1 2 0 24) None;
  ex_add t3 (ex_prefix 10 128 0 0 9) (Some 3%nat).

Definition ex_table : route_table nat :=
  match ex_build with Ok t => t | _ => route_table_init end.

Lemma ex_prefix_storable a b c d len :
  byte_ok a -> byte_ok b -> byte_ok c -> byte_ok d -> 0 <= len <= 32 -> storable (ex_prefix a b c d len).
Proof.
  intros. split; [| split; [done | cbn; lia]]. split; [done |]. split; [| cbn; lia].
  cbn. repeat (constructor; [first [done | split; lia] |]). constructor.
Qed.

Lemma no_wrap_check (t : route_table nat) :
  forallb (fun '(_, n) => rn_lock n + 1 <? 2 ^ 32) (map_to_list (rt_nodes t)) = true -> no_wrap t.
Proof.
  rewrite forallb_forall. intros H l n Hl. apply Z.ltb_lt.
  apply (H (l, n)). by apply list_elem_of_In, elem_of_map_to_list.
Qed.

(** The last node a [route_node_get] locked is the one [ex_add] writes. *)
Lemma ex_add_steps t p i t' :
  table_inv t -> no_wrap t -> storable p -> ex_add t p i = Ok t' -> rtc table_step t t'.
Proof.
  intros I Hw Hp E. pose proof I as [W L]. unfold ex_add in E.
  destruct (route_node_get_locks t p W L Hp Hw) as (t1 & l & n & E1 & _ & Hl & Hpos).
  rewrite E1 in E. cbn [mbind res_bind] in E.
  apply rtc_l with t1; [by apply (step_get t p t1 l) |]. apply rtc_once. by apply (step_info t1 l n i).
Qed.

Lemma ex_add_inv t p i t' :
  table_inv t -> no_wrap t -> storable p -> ex_add t p i = Ok t' -> table_inv t'.
Proof.
  intros I Hw Hp E. pose proof (ex_add_steps t p i t' I Hw Hp E) as S.
  revert I. clear -S. induction S; [done |]. intros I. apply IHS. by apply (table_step_inv x).
Qed.

Ltac ex_storable := apply ex_prefix_storable; try (split; lia); lia.

(** The tables on the way to [ex_table]. *)
Definition ex_t1 : route_table nat :=
  match ex_add route_table_init (ex_prefix 10 0 0 0 8) (Some 1%nat) with Ok t => t | _ => route_table_init end.
Definition ex_t2 : route_table nat :=
  match ex_add ex_t1 (ex_prefix 10 1 0 0 16) (Some 2%nat) with Ok t => t | _ => route_table_init end.
Definition ex_t3 : route_table nat :=
  match ex_add ex_t2 (ex_prefix 10 1 2 0 24) None with Ok t => t | _ => route_table_init end.

Lemma ex_t1_inv : table_inv ex_t1.
Proof.
  apply (ex_add_inv route_table_init (ex_prefix 10 0 0 0 8) (Some 1%nat));
    [apply table_init_inv | apply no_wrap_check; vm_compute; reflexivity | ex_storable | vm_compute; reflexivity].
Qed.
Lemma ex_t2_inv : table_inv ex_t2.
Proof.
  apply (ex_add_inv ex_t1 (ex_prefix 10 1 0 0 16) (Some 2%nat));
    [apply ex_t1_inv | apply no_wrap_check; vm_compute; reflexivity | ex_storable | vm_compute; reflexivity].
Qed.
Lemma ex_t3_inv : table_inv ex_t3.
Proof.
  apply (ex_add_inv ex_t2 (ex_prefix 10 1 2 0 24) None);
    [apply ex_t2_inv | apply no_wrap_check; vm_compute; reflexivity | ex_storable | vm_compute; reflexivity].
Qed.
Lemma ex_table_inv : table_inv ex_table.
Proof.
  apply (ex_add_inv ex_t3 (ex_prefix 10 128 0 0 9) (Some 3%nat));
    [apply ex_t3_inv | apply no_wrap_check; vm_compute; reflexivity | ex_storable | vm_compute; reflexivity].
Qed.

(** 10.1.2.3 is matched by 10.1.0.0/16, whose node holds 2. *)
Lemma route_node_match_longest_witness :
  exists r, longest_match ex_table (ex_prefix 10 1 2 3 32) r /\
    route_node_match ex_table (ex_prefix 10 1 2 3 32) =
      Ok (match r with Some l => locked ex_table l | None => ex_table end, r).
Proof.
  apply (route_node_match_longest ex_table (ex_prefix 10 1 2 3 32) (proj1 ex_table_inv)).
  apply (ex_prefix_storable 10 1 2 3 32); try (split; lia); lia.
Defined.

Example route_node_match_ex :
  (r ← route_node_match ex_table (ex_prefix 10 1 2 3 32);
   Ok (match r.2 with Some l => rn_info <$> rt_nodes ex_table !! l | None => None end)) = Ok (Some (Some 2%nat)).
Proof. vm_compute. reflexivity. Qed.

Lemma route_node_lookup_exact_witness :
  (exists l n, rt_nodes ex_table !! l = Some n /\ same_net (rn_p n) (ex_prefix 10 1 0 0 16) /\ is_Some (rn_info n) /\
     route_node_lookup ex_table (ex_prefix 10 1 0 0 16) = Ok (locked ex_table l, Some l) /\
     forall l' n', rt_nodes ex_table !! l' = Some n' -> same_net (rn_p n') (ex_prefix 10 1 0 0 16) -> l' = l) \/
  ((forall l n, rt_nodes ex_table !! l = Some n -> same_net (rn_p n) (ex_prefix 10 1 0 0 16) -> rn_info n = None) /\
   route_node_lookup ex_table (ex_prefix 10 1 0 0 16) = Ok (ex_table, None)).
Proof.
  apply (route_node_lookup_exact ex_table (ex_prefix 10 1 0 0 16) (proj1 ex_table_inv)).
  apply (ex_prefix_storable 10 1 0 0 16); try (split; lia); lia.
Defined.

Lemma route_node_get_correct_witness :
  exists t' l, route_node_get ex_t3 (ex_prefix 10 128 0 0 9) = Ok (t', l) /\ table_wf t'.
Proof.
  destruct (route_node_get_correct ex_t3 (ex_prefix 10 128 0 0 9) (proj1 ex_t3_inv)) as (t' & l & n & E & W & _).
  - apply ex_prefix_storable; try (split; lia); lia.
  - exists t', l. split; [exact E | exact W].
Defined.

Lemma route_unlock_node_correct_witness :
  exists t', route_unlock_node ex_t3 3%positive = Ok t' /\ table_wf t'.
Proof.
  destruct (route_unlock_node_correct ex_t3 3%positive
              (mk_node (ex_prefix 10 1 2 0 24) (Some 2%positive) None None 1 None)
              (proj1 ex_t3_inv) (proj2 ex_t3_inv)) as (t' & E & W & _).
  - vm_compute. reflexivity.
  - vm_compute. reflexivity.
  - intros _. reflexivity.
  - exists t'. split; [exact E | exact W].
Defined.

Lemma reachable_table_inv_witness : table_inv ex_t1.
Proof.
  apply (reachable_table_inv ex_t1).
  apply (ex_add_steps route_table_init (ex_prefix 10 0 0 0 8) (Some 1%nat));
    [apply table_init_inv | apply no_wrap_check; vm_compute; reflexivity | | vm_compute; reflexivity].
  apply ex_prefix_storable; try (split; lia); lia.
Defined.
