(* ===== verification/Stream.v ===== *)
(** * lib/stream.c: bounded byte streams

    A [struct stream] is a buffer with a read position [getp] and a write position [endp].  Every
    function of lib/stream.c that works on the buffer is here; a failed [STREAM_VERIFY_SANE] or
    [STREAM_BOUND_WARN] is [Abort], because both end in an [assert] that fails, and an access outside
    the allocated block is [Oob].  Positions are [size_t] (64 bits).  The functions that read from a file
    descriptor take the outcome of the system call as an argument. *)

From S2P Require Import Prelude Prefix.
Local Open Scope Z_scope.

(** [struct stream]; [data] is the allocated block, of [size] bytes *)
Record stream := mk_stream { getp : Z; endp : Z; size : Z; data : list Z }.

Definition set_getp (n : Z) (s : stream) : stream := mk_stream n (endp s) (size s) (data s).
Definition set_endp (n : Z) (s : stream) : stream := mk_stream (getp s) n (size s) (data s).
Definition set_data (d : list Z) (s : stream) : stream := mk_stream (getp s) (endp s) (size s) d.

Definition GETP_VALID (s : stream) (g : Z) : bool := g <=? endp s.
Definition PUT_AT_VALID (s : stream) (g : Z) : bool := GETP_VALID s g.
Definition ENDP_VALID (s : stream) (e : Z) : bool := e <=? size s.

Definition STREAM_WRITEABLE (s : stream) : Z := u64 (size s - endp s).
Definition STREAM_READABLE (s : stream) : Z := u64 (endp s - getp s).

Definition STREAM_VERIFY_SANE (s : stream) : res unit :=
  _ ← c_assert (GETP_VALID s (getp s));
  c_assert (ENDP_VALID s (endp s)).

(** [CHECK_SIZE]: the size it leaves in its argument *)
Definition CHECK_SIZE (s : stream) (z : Z) : Z :=
  if u64 (endp s + z) >? size s then u64 (size s - endp s) else z.

(** ** Memory: checked block reads and writes *)

(** [memcpy (dst, d + pos, n)] *)
Definition rd_bytes (d : list Z) (pos : Z) (n : nat) : res (list Z) :=
  if (0 <=? pos) && (pos + Z.of_nat n <=? Z.of_nat (length d))
  then Ok (take n (drop (Z.to_nat pos) d)) else Oob.

(** [memcpy (d + pos, bs, length bs)] *)
Definition wr_bytes (d : list Z) (pos : Z) (bs : list Z) : res (list Z) :=
  if (0 <=? pos) && (pos + Z.of_nat (length bs) <=? Z.of_nat (length d))
  then Ok (take (Z.to_nat pos) d ++ bs ++ drop (Z.to_nat pos + length bs) d) else Oob.

(** ** Creation *)

(** [stream_new (size)] with [block] the contents of the memory [XMALLOC] returns *)
Definition stream_new (size : Z) (block : list Z) : res stream :=
  _ ← c_assert (size >? 0);
  Ok (mk_stream 0 0 size block).

Definition stream_copy (new src : stream) : res stream :=
  _ ← STREAM_VERIFY_SANE src;
  _ ← c_assert (size new >=? endp src);
  bs ← rd_bytes (data src) 0 (Z.to_nat (endp src));
  d ← wr_bytes (data new) 0 bs;
  Ok (mk_stream (getp src) (endp src) (size new) d).

Definition stream_dup (s : stream) (block : list Z) : res stream :=
  _ ← STREAM_VERIFY_SANE s;
  new ← stream_new (endp s) block;
  stream_copy new s.

(** [stream_resize]: [newdata] is what [XREALLOC] returned, [None] for NULL *)
Definition stream_resize (s : stream) (newsize : Z) (newdata : option (list Z)) : res (Z * stream) :=
  _ ← STREAM_VERIFY_SANE s;
  match newdata with
  | None => Ok (size s, s)
  | Some d =>
      let endp' := if endp s >? newsize then newsize else endp s in
      let getp' := if getp s >? endp' then endp' else getp s in
      let s' := mk_stream getp' endp' newsize d in
      _ ← STREAM_VERIFY_SANE s';
      Ok (newsize, s')
  end.

(** ** Positions *)

Definition stream_get_getp (s : stream) : res Z := _ ← STREAM_VERIFY_SANE s; Ok (getp s).
Definition stream_get_endp (s : stream) : res Z := _ ← STREAM_VERIFY_SANE s; Ok (endp s).
Definition stream_get_size (s : stream) : res Z := _ ← STREAM_VERIFY_SANE s; Ok (size s).

Definition stream_set_getp (s : stream) (pos : Z) : res stream :=
  _ ← STREAM_VERIFY_SANE s;
  if negb (GETP_VALID s pos) then Abort else Ok (set_getp pos s).

Definition stream_set_endp (s : stream) (pos : Z) : res stream :=
  _ ← STREAM_VERIFY_SANE s;
  if negb (GETP_VALID s pos) then Abort else Ok (set_endp pos s).

Definition stream_forward_getp (s : stream) (n : Z) : res stream :=
  _ ← STREAM_VERIFY_SANE s;
  if negb (GETP_VALID s (u64 (getp s + n))) then Abort else Ok (set_getp (u64 (getp s + n)) s).

Definition stream_forward_endp (s : stream) (n : Z) : res stream :=
  _ ← STREAM_VERIFY_SANE s;
  if negb (ENDP_VALID s (u64 (endp s + n))) then Abort else Ok (set_endp (u64 (endp s + n)) s).

(** ** Reading *)

Definition stream_get (s : stream) (n : Z) : res (list Z * stream) :=
  _ ← STREAM_VERIFY_SANE s;
  if STREAM_READABLE s <? n then Abort
  else
    bs ← rd_bytes (data s) (getp s) (Z.to_nat n);
    Ok (bs, set_getp (getp s + n) s).

(** The shifts and ors of the multi-byte readers. *)
Definition word_of (bs : list Z) : Z :=
  match bs with [a; b] => Z.lor (u16 (Z.shiftl a 8)) b | _ => 0 end.
Definition long_of (bs : list Z) : Z :=
  match bs with
  | [a; b; c; d] => Z.lor (Z.lor (Z.lor (Z.shiftl a 24) (Z.shiftl b 16)) (Z.shiftl c 8)) d
  | _ => 0
  end.
Definition quad_of (bs : list Z) : Z :=
  match bs with
  | [a; b; c; d; e; f; g; h] =>
      Z.lor (Z.lor (Z.lor (Z.lor (Z.lor (Z.lor (Z.lor (Z.shiftl a 56) (Z.shiftl b 48)) (Z.shiftl c 40))
        (Z.shiftl d 32)) (Z.shiftl e 24)) (Z.shiftl f 16)) (Z.shiftl g 8)) h
  | _ => 0
  end.

Definition stream_getc (s : stream) : res (Z * stream) :=
  _ ← STREAM_VERIFY_SANE s;
  if STREAM_READABLE s <? 1 then Abort
  else bs ← rd_bytes (data s) (getp s) 1; Ok (byte_at bs 0, set_getp (getp s + 1) s).

Definition stream_getc_from (s : stream) (from : Z) : res Z :=
  _ ← STREAM_VERIFY_SANE s;
  if negb (GETP_VALID s (u64 (from + 1))) then Abort
  else bs ← rd_bytes (data s) from 1; Ok (byte_at bs 0).

Definition stream_getw (s : stream) : res (Z * stream) :=
  _ ← STREAM_VERIFY_SANE s;
  if STREAM_READABLE s <? 2 then Abort
  else bs ← rd_bytes (data s) (getp s) 2; Ok (word_of bs, set_getp (getp s + 2) s).

Definition stream_getw_from (s : stream) (from : Z) : res Z :=
  _ ← STREAM_VERIFY_SANE s;
  if negb (GETP_VALID s (u64 (from + 2))) then Abort
  else bs ← rd_bytes (data s) from 2; Ok (word_of bs).

Definition stream_getl_from (s : stream) (from : Z) : res Z :=
  _ ← STREAM_VERIFY_SANE s;
  if negb (GETP_VALID s (u64 (from + 4))) then Abort
  else bs ← rd_bytes (data s) from 4; Ok (long_of bs).

Definition stream_getl (s : stream) : res (Z * stream) :=
  _ ← STREAM_VERIFY_SANE s;
  if STREAM_READABLE s <? 4 then Abort
  else bs ← rd_bytes (data s) (getp s) 4; Ok (long_of bs, set_getp (getp s + 4) s).

Definition stream_getq_from (s : stream) (from : Z) : res Z :=
  _ ← STREAM_VERIFY_SANE s;
  if negb (GETP_VALID s (u64 (from + 8))) then Abort
  else bs ← rd_bytes (data s) from 8; Ok (quad_of bs).

Definition stream_getq (s : stream) : res (Z * stream) :=
  _ ← STREAM_VERIFY_SANE s;
  if STREAM_READABLE s <? 8 then Abort
  else bs ← rd_bytes (data s) (getp s) 8; Ok (quad_of bs, set_getp (getp s + 8) s).

(** An [in_addr_t] is its four bytes in memory order. *)
Definition stream_get_ipv4 (s : stream) : res (list Z * stream) :=
  _ ← STREAM_VERIFY_SANE s;
  if STREAM_READABLE s <? 4 then Abort
  else l ← rd_bytes (data s) (getp s) 4; Ok (l, set_getp (getp s + 4) s).

(** ** Writing *)

(** [stream_put (s, src, size)]: [src] is [None] for NULL, else the memory it points to *)
Definition stream_put (s : stream) (src : option (list Z)) (n : Z) : res stream :=
  let n := CHECK_SIZE s n in
  _ ← STREAM_VERIFY_SANE s;
  if STREAM_WRITEABLE s <? n then Abort
  else
    bs ← match src with
         | Some m => rd_bytes m 0 (Z.to_nat n)
         | None => Ok (replicate (Z.to_nat n) 0)
         end;
    d ← wr_bytes (data s) (endp s) bs;
    Ok (mk_stream (getp s) (endp s + n) (size s) d).

(** Append the bytes [bs] at [endp]; the tail shared by the fixed-size writers. *)
Definition append (s : stream) (bs : list Z) : res stream :=
  d ← wr_bytes (data s) (endp s) bs;
  Ok (mk_stream (getp s) (endp s + Z.of_nat (length bs)) (size s) d).

Definition stream_putc (s : stream) (c : Z) : res (Z * stream) :=
  _ ← STREAM_VERIFY_SANE s;
  if STREAM_WRITEABLE s <? 1 then Abort
  else s' ← append s [u8 c]; Ok (1, s').

Definition stream_putw (s : stream) (w : Z) : res (Z * stream) :=
  _ ← STREAM_VERIFY_SANE s;
  if STREAM_WRITEABLE s <? 2 then Abort
  else s' ← append s [u8 (Z.shiftr w 8); u8 w]; Ok (2, s').

Definition stream_putl (s : stream) (l : Z) : res (Z * stream) :=
  _ ← STREAM_VERIFY_SANE s;
  if STREAM_WRITEABLE s <? 4 then Abort
  else s' ← append s [u8 (Z.shiftr l 24); u8 (Z.shiftr l 16); u8 (Z.shiftr l 8); u8 l]; Ok (4, s').

Definition stream_putq (s : stream) (q : Z) : res (Z * stream) :=
  _ ← STREAM_VERIFY_SANE s;
  if STREAM_WRITEABLE s <? 8 then Abort
  else s' ← append s [u8 (Z.shiftr q 56); u8 (Z.shiftr q 48); u8 (Z.shiftr q 40); u8 (Z.shiftr q 32);
                      u8 (Z.shiftr q 24); u8 (Z.shiftr q 16); u8 (Z.shiftr q 8); u8 q]; Ok (8, s').

Definition stream_putc_at (s : stream) (putp c : Z) : res (Z * stream) :=
  _ ← STREAM_VERIFY_SANE s;
  if negb (PUT_AT_VALID s (u64 (putp + 1))) then Abort
  else d ← wr_bytes (data s) putp [u8 c]; Ok (1, set_data d s).

Definition stream_putw_at (s : stream) (putp w : Z) : res (Z * stream) :=
  _ ← STREAM_VERIFY_SANE s;
  if negb (PUT_AT_VALID s (u64 (putp + 2))) then Abort
  else d ← wr_bytes (data s) putp [u8 (Z.shiftr w 8); u8 w]; Ok (2, set_data d s).

Definition stream_putl_at (s : stream) (putp l : Z) : res (Z * stream) :=
  _ ← STREAM_VERIFY_SANE s;
  if negb (PUT_AT_VALID s (u64 (putp + 4))) then Abort
  else d ← wr_bytes (data s) putp [u8 (Z.shiftr l 24); u8 (Z.shiftr l 16); u8 (Z.shiftr l 8); u8 l];
       Ok (4, set_data d s).

Definition stream_putq_at (s : stream) (putp q : Z) : res (Z * stream) :=
  _ ← STREAM_VERIFY_SANE s;
  if negb (PUT_AT_VALID s (u64 (putp + 8))) then Abort
  else d ← wr_bytes (data s) putp [u8 (Z.shiftr q 56); u8 (Z.shiftr q 48); u8 (Z.shiftr q 40); u8 (Z.shiftr q 32);
                      u8 (Z.shiftr q 24); u8 (Z.shiftr q 16); u8 (Z.shiftr q 8); u8 q];
       Ok (8, set_data d s).

Definition stream_put_ipv4 (s : stream) (l : list Z) : res (Z * stream) :=
  _ ← STREAM_VERIFY_SANE s;
  if STREAM_WRITEABLE s <? 4 then Abort
  else s' ← append s (take 4 l); Ok (4, s').

Definition stream_put_in_addr (s : stream) (addr : list Z) : res (Z * stream) :=
  _ ← STREAM_VERIFY_SANE s;
  if STREAM_WRITEABLE s <? 4 then Abort
  else s' ← append s (take 4 addr); Ok (4, s').

Definition PSIZE (a : Z) : Z := (a + 7) / 8.

Definition stream_put_prefix (s : stream) (p : prefix) : res (Z * stream) :=
  _ ← STREAM_VERIFY_SANE s;
  let psize := PSIZE (prefixlen p) in
  if STREAM_WRITEABLE s <? psize then Abort
  else
    '(_, s1) ← stream_putc s (prefixlen p);
    bs ← rd_bytes (u p) 0 (Z.to_nat psize);
    s2 ← append s1 bs;
    Ok (psize, s2).

(** ** Input: the outcome of [read]/[recvfrom]: return value, bytes stored, [ERRNO_IO_RETRY (errno)] *)
Record io_result := mk_io { io_ret : Z; io_bytes : list Z; io_retry : bool }.

Definition stream_read (s : stream) (n : Z) (r : io_result) : res (Z * stream) :=
  _ ← STREAM_VERIFY_SANE s;
  if STREAM_WRITEABLE s <? n then Abort
  else
    d ← wr_bytes (data s) (endp s) (io_bytes r);
    let s1 := set_data d s in
    Ok (io_ret r, if io_ret r >? 0 then set_endp (endp s1 + io_ret r) s1 else s1).

Definition stream_read_try (s : stream) (n : Z) (r : io_result) : res (Z * stream) :=
  _ ← STREAM_VERIFY_SANE s;
  if STREAM_WRITEABLE s <? n then Abort
  else
    d ← wr_bytes (data s) (endp s) (io_bytes r);
    let s1 := set_data d s in
    if io_ret r >=? 0 then Ok (io_ret r, set_endp (endp s1 + io_ret r) s1)
    else Ok (if io_retry r then -2 else -1, s1).

(** [stream_recvfrom] differs from [stream_read_try] in the system call only. *)
Definition stream_recvfrom (s : stream) (n : Z) (r : io_result) : res (Z * stream) := stream_read_try s n r.

Definition stream_write (s : stream) (ptr : list Z) (n : Z) : res (Z * stream) :=
  let n := CHECK_SIZE s n in
  _ ← STREAM_VERIFY_SANE s;
  if STREAM_WRITEABLE s <? n then Abort
  else
    bs ← rd_bytes ptr 0 (Z.to_nat n);
    s' ← append s bs;
    Ok (n, s').

Definition stream_empty (s : stream) : res bool := _ ← STREAM_VERIFY_SANE s; Ok (endp s =? 0).

Definition stream_reset (s : stream) : res stream :=
  _ ← STREAM_VERIFY_SANE s; Ok (set_getp 0 (set_endp 0 s)).

(** [stream_flush]: the bytes handed to [write] *)
Definition stream_flush (s : stream) : res (list Z) :=
  _ ← STREAM_VERIFY_SANE s;
  rd_bytes (data s) (getp s) (Z.to_nat (endp s - getp s)).

(** ** Well-formed streams and their abstract view

    A stream stands for the byte string [written] it holds, the part [contents] of it that is not read
    yet, and the room left.  [stream_wf] is the condition the comment at the top of lib/stream.c asks
    for ([getp <= endp <= size]), with the facts about the allocated block. *)

Record stream_wf (s : stream) : Prop := {
  wf_getp : 0 <= getp s <= endp s;
  wf_endp : endp s <= size s;
  wf_size : size s < 2 ^ 64;
  wf_block : Z.of_nat (length (data s)) = size s;
  wf_bytes : bytes_ok (data s) }.

Definition written (s : stream) : list Z := take (Z.to_nat (endp s)) (data s).
Definition contents (s : stream) : list Z := drop (Z.to_nat (getp s)) (written s).
Definition room (s : stream) : Z := size s - endp s.

(** The stream after [bs] is stored at [endp]. *)
Definition pushed (s : stream) (bs : list Z) : stream :=
  mk_stream (getp s) (endp s + Z.of_nat (length bs)) (size s)
    (written s ++ bs ++ drop (Z.to_nat (endp s) + length bs) (data s)).

(** A numeric item of [k] bytes, [k] one of 1, 2, 4, 8: the writer and the reader of its width. *)
Inductive width := W8 | W16 | W32 | W64.
Definition width_bytes (w : width) : nat :=
  match w with W8 => 1 | W16 => 2 | W32 => 4 | W64 => 8 end.
Definition width_bits (w : width) : Z := 8 * Z.of_nat (width_bytes w).
Definition put_item (s : stream) (w : width) (z : Z) : res (Z * stream) :=
  match w with W8 => stream_putc s z | W16 => stream_putw s z | W32 => stream_putl s z | W64 => stream_putq s z end.
Definition get_item (s : stream) (w : width) : res (Z * stream) :=
  match w with W8 => stream_getc s | W16 => stream_getw s | W32 => stream_getl s | W64 => stream_getq s end.
Definition get_item_from (s : stream) (w : width) (from : Z) : res Z :=
  match w with
  | W8 => stream_getc_from s from | W16 => stream_getw_from s from
  | W32 => stream_getl_from s from | W64 => stream_getq_from s from
  end.
Definition put_item_at (s : stream) (putp : Z) (w : width) (z : Z) : res (Z * stream) :=
  match w with
  | W8 => stream_putc_at s putp z | W16 => stream_putw_at s putp z
  | W32 => stream_putl_at s putp z | W64 => stream_putq_at s putp z
  end.

(** A message: its fields in order, written one by one and read back one by one. *)
Fixpoint put_items (s : stream) (l : list (width * Z)) : res stream :=
  match l with
  | [] => Ok s
  | (w, z) :: l' => '(_, s1) ← put_item s w z; put_items s1 l'
  end.
Fixpoint get_items (s : stream) (l : list width) : res (list Z * stream) :=
  match l with
  | [] => Ok ([], s)
  | w :: l' => '(z, s1) ← get_item s w; '(zs, s2) ← get_items s1 l'; Ok (z :: zs, s2)
  end.
Definition items_size (l : list (width * Z)) : Z := Z.of_nat (list_sum (map (fun x => width_bytes x.1) l)).
Definition items_bytes (l : list (width * Z)) : list Z :=
  concat (map (fun x => be_bytes (width_bytes x.1) x.2) l).

(** *** Bookkeeping lemmas *)

Section stream_facts.
Context (s : stream) (WF : stream_wf s).

Lemma verify_sane_ok : STREAM_VERIFY_SANE s = Ok tt.
Proof.
  destruct WF. unfold STREAM_VERIFY_SANE, GETP_VALID, ENDP_VALID.
  rewrite (proj2 (Z.leb_le _ _)) by lia. cbn. by rewrite (proj2 (Z.leb_le _ _)) by lia.
Qed.

Lemma writeable_eq : STREAM_WRITEABLE s = room s.
Proof. destruct WF. apply wrap_small. unfold in_u, room. lia. Qed.

Lemma readable_eq : STREAM_READABLE s = endp s - getp s.
Proof. destruct WF. apply wrap_small. unfold in_u. lia. Qed.

Lemma length_written : Z.of_nat (length (written s)) = endp s.
Proof. destruct WF. unfold written. rewrite length_take. lia. Qed.

Lemma length_contents : Z.of_nat (length (contents s)) = endp s - getp s.
Proof. pose proof length_written. destruct WF. unfold contents. rewrite length_drop. lia. Qed.

(** The bytes below [endp] are the ones [written] names. *)
Lemma rd_bytes_written pos n :
  0 <= pos -> pos + Z.of_nat n <= endp s ->
  rd_bytes (data s) pos n = Ok (take n (drop (Z.to_nat pos) (written s))).
Proof.
  intros H0 H1. destruct WF. unfold rd_bytes, written.
  rewrite (proj2 (Z.leb_le 0 pos)), (proj2 (Z.leb_le (pos + _) _)) by lia. cbn. f_equal.
  rewrite !take_drop_commute, take_take. do 2 f_equal. lia.
Qed.

Lemma wr_bytes_written bs :
  Z.of_nat (length bs) <= room s ->
  append s bs = Ok (pushed s bs).
Proof.
  intros H. destruct WF. unfold append, wr_bytes, pushed, room in *.
  rewrite (proj2 (Z.leb_le 0 _)), (proj2 (Z.leb_le (endp s + _) _)) by lia. done.
Qed.

Lemma pushed_wf bs : bytes_ok bs -> Z.of_nat (length bs) <= room s -> stream_wf (pushed s bs).
Proof.
  intros Hb H. pose proof length_written as Hw. destruct WF. unfold room in *.
  constructor; cbn; try lia.
  - rewrite !length_app, length_drop. lia.
  - unfold written. apply Forall_app; split; [by apply bytes_ok_take |].
    apply Forall_app; split; [done |]. by apply bytes_ok_drop.
Qed.

Lemma written_pushed bs : written (pushed s bs) = written s ++ bs.
Proof.
  pose proof length_written as Hw. destruct WF. unfold pushed. unfold written at 1. cbn.
  rewrite app_assoc, take_app_le by (rewrite length_app; lia).
  apply take_ge. rewrite length_app. lia.
Qed.

Lemma contents_pushed bs : contents (pushed s bs) = contents s ++ bs.
Proof.
  pose proof length_written as Hw. destruct WF. unfold contents. rewrite written_pushed. cbn.
  rewrite drop_app_le by lia. done.
Qed.

Lemma pushed_pushed a b : pushed (pushed s a) b = pushed s (a ++ b).
Proof.
  pose proof length_written as Hw. unfold pushed at 1. rewrite written_pushed.
  unfold pushed. cbn [getp endp size data]. rewrite length_app. f_equal; [lia |].
  rewrite <- !app_assoc. do 3 f_equal. destruct WF.
  rewrite !drop_app_ge, drop_drop by lia. f_equal. lia.
Qed.

Lemma written_ok : bytes_ok (written s).
Proof. destruct WF. by apply bytes_ok_take. Qed.

Lemma set_getp_wf g : 0 <= g <= endp s -> stream_wf (set_getp g s).
Proof. intros H. destruct WF. constructor; cbn; done. Qed.

End stream_facts.

Create HintDb stream.
#[export] Hint Resolve pushed_wf set_getp_wf be_bytes_ok written_ok : stream.

Lemma items_size_cons w z l :
  items_size ((w, z) :: l) = Z.of_nat (width_bytes w) + items_size l.
Proof. unfold items_size. by rewrite <- Nat2Z.inj_add. Qed.

Lemma items_size_nonneg l : 0 <= items_size l.
Proof. unfold items_size. lia. Qed.

Lemma length_items_bytes l : Z.of_nat (length (items_bytes l)) = items_size l.
Proof.
  induction l as [|[w z] l IH]; [done |]. rewrite items_size_cons.
  change (items_bytes ((w, z) :: l)) with (be_bytes (width_bytes w) z ++ items_bytes l).
  rewrite length_app, length_be_bytes. lia.
Qed.

(** ** What each operation does *)

(** The guard and the store that the fixed-size writers share. *)
Lemma put_guard s k bs :
  stream_wf s -> k = Z.of_nat (length bs) ->
  (_ ← STREAM_VERIFY_SANE s;
   if STREAM_WRITEABLE s <? k then Abort else s' ← append s bs; Ok (k, s')) =
  (if room s <? k then Abort else Ok (k, pushed s bs)).
Proof.
  intros WF ->. rewrite (verify_sane_ok s WF), (writeable_eq s WF). cbn -[append].
  destruct (Z.ltb_spec (room s) (Z.of_nat (length bs))); [done |].
  by rewrite wr_bytes_written.
Qed.

(** The writers store the item big-endian, after a bounds check. *)
Lemma put_item_spec s w z :
  stream_wf s ->
  put_item s w z = (if room s <? Z.of_nat (width_bytes w) then Abort
                    else Ok (Z.of_nat (width_bytes w), pushed s (be_bytes (width_bytes w) z))).
Proof.
  intros WF. destruct w.
  - exact (put_guard s 1 (be_bytes 1 z) WF eq_refl).
  - exact (put_guard s 2 (be_bytes 2 z) WF eq_refl).
  - exact (put_guard s 4 (be_bytes 4 z) WF eq_refl).
  - exact (put_guard s 8 (be_bytes 8 z) WF eq_refl).
Qed.

Lemma be_val_word bs : bytes_ok bs -> length bs = 2%nat -> word_of bs = be_val bs.
Proof.
  intros Hb Hl. destruct bs as [|a [|b [|]]]; try done. inversion Hb as [|?? Ha Hb']; inversion Hb'; subst.
  unfold be_val. cbn. rewrite wrap_small; [done |]. unfold in_u, byte_ok in *. rewrite Z.shiftl_mul_pow2; lia.
Qed.

(** Reading an item: the value is the big-endian value of the bytes. *)
Definition decode (w : width) (bs : list Z) : Z :=
  match w with W8 => byte_at bs 0 | W16 => word_of bs | W32 => long_of bs | W64 => quad_of bs end.

Lemma decode_be_val w bs : bytes_ok bs -> length bs = width_bytes w -> decode w bs = be_val bs.
Proof.
  intros Hb Hl. destruct w; cbn in Hl.
  - destruct bs as [|a [|]]; done.
  - by apply be_val_word.
  - destruct bs as [|a [|b [|c [|d [|]]]]]; try done. unfold be_val. cbn -[Z.lor Z.shiftl].
    rewrite !Z.shiftl_lor, !Z.shiftl_shiftl by lia. done.
  - destruct bs as [|a [|b [|c [|d [|e [|f [|g [|h [|]]]]]]]]]; try done. unfold be_val. cbn -[Z.lor Z.shiftl].
    rewrite !Z.shiftl_lor, !Z.shiftl_shiftl by lia. done.
Qed.

(** The guard and the load that the readers share. *)
Lemma get_guard {A} s k n (f : list Z -> A) :
  stream_wf s -> k = Z.of_nat n ->
  (_ ← STREAM_VERIFY_SANE s;
   if STREAM_READABLE s <? k then Abort
   else bs ← rd_bytes (data s) (getp s) n; Ok (f bs, set_getp (getp s + k) s)) =
  (if endp s - getp s <? k then Abort else Ok (f (take n (contents s)), set_getp (getp s + k) s)).
Proof.
  intros WF ->. rewrite (verify_sane_ok s WF), (readable_eq s WF). cbn -[rd_bytes].
  destruct (Z.ltb_spec (endp s - getp s) (Z.of_nat n)); [done |].
  by rewrite (rd_bytes_written s WF) by (destruct WF; lia).
Qed.

Lemma take_contents_ok s n :
  stream_wf s -> Z.of_nat n <= endp s - getp s ->
  bytes_ok (take n (contents s)) /\ length (take n (contents s)) = n.
Proof.
  intros WF H. pose proof (length_contents s WF). split.
  - apply bytes_ok_take, bytes_ok_drop. eauto with stream.
  - rewrite length_take. lia.
Qed.

(** The readers return the big-endian value of the next bytes. *)
Lemma get_item_spec s w :
  stream_wf s ->
  get_item s w = (if endp s - getp s <? Z.of_nat (width_bytes w) then Abort
                  else Ok (be_val (take (width_bytes w) (contents s)),
                           set_getp (getp s + Z.of_nat (width_bytes w)) s)).
Proof.
  intros WF.
  trans (if endp s - getp s <? Z.of_nat (width_bytes w) then Abort
         else Ok (decode w (take (width_bytes w) (contents s)),
                  set_getp (getp s + Z.of_nat (width_bytes w)) s)).
  - destruct w.
    + exact (get_guard s 1 1 (decode W8) WF eq_refl).
    + exact (get_guard s 2 2 (decode W16) WF eq_refl).
    + exact (get_guard s 4 4 (decode W32) WF eq_refl).
    + exact (get_guard s 8 8 (decode W64) WF eq_refl).
  - destruct (Z.ltb_spec (endp s - getp s) (Z.of_nat (width_bytes w))); [done |].
    destruct (take_contents_ok s (width_bytes w) WF) as [Hb Hl]; [done |].
    by rewrite decode_be_val.
Qed.

Lemma contents_set_getp s n :
  stream_wf s -> contents (set_getp (getp s + Z.of_nat n) s) = drop n (contents s).
Proof.
  intros WF. destruct WF. unfold contents, written. cbn. rewrite drop_drop. f_equal. lia.
Qed.

(** *** Messages *)

Lemma put_items_spec s l :
  stream_wf s -> 0 <= room s ->
  (room s < items_size l -> put_items s l = Abort) /\
  (items_size l <= room s -> exists s', put_items s l = Ok s' /\ stream_wf s' /\
     contents s' = contents s ++ items_bytes l /\ getp s' = getp s /\ room s' = room s - items_size l).
Proof.
  revert s. induction l as [|[w z] l IH]; intros s WF Hr.
  - change (items_size []) with 0. split; [lia |].
    intros _. exists s. split_and!; [done | done | by rewrite app_nil_r | done | lia].
  - rewrite items_size_cons. pose proof (items_size_nonneg l). cbn [put_items].
    rewrite (put_item_spec s w z WF).
    destruct (Z.ltb_spec (room s) (Z.of_nat (width_bytes w))) as [Hlt | Hge].
    + split; [done | lia].
    + cbn -[pushed]. set (s1 := pushed s (be_bytes (width_bytes w) z)).
      assert (stream_wf s1) as WF1 by (apply pushed_wf; rewrite ?length_be_bytes; eauto with stream).
      assert (room s1 = room s - Z.of_nat (width_bytes w)) as Hr1
        by (unfold s1, room; cbn; rewrite length_be_bytes; lia).
      destruct (IH s1 WF1) as [IH1 IH2]; [lia |]. split.
      * intros Hlt. apply IH1. lia.
      * intros Hfit. destruct IH2 as (s' & E & WF' & Hc & Hg & Hrm); [lia |].
        exists s'. split_and!; [done | done | | done | lia].
        unfold s1 in Hc. rewrite contents_pushed in Hc by done. rewrite Hc, <- app_assoc. done.
Qed.

Lemma get_items_spec l : forall s rest,
  stream_wf s -> Forall (fun x => in_u (width_bits x.1) x.2) l ->
  contents s = items_bytes l ++ rest ->
  exists s', get_items s (map fst l) = Ok (map snd l, s') /\ stream_wf s' /\ contents s' = rest.
Proof.
  induction l as [|[w z] l IH]; intros s rest WF Hl Hc; [by eexists |].
  inversion Hl as [|?? Hz Hl']; subst. cbn in Hz.
  change (items_bytes ((w, z) :: l)) with (be_bytes (width_bytes w) z ++ items_bytes l) in Hc.
  pose proof (length_contents s WF) as Hlen.
  rewrite Hc, !length_app, length_be_bytes in Hlen.
  cbn [map get_items fst]. rewrite (get_item_spec s w WF), (proj2 (Z.ltb_ge _ _)) by lia.
  cbn -[Z.add]. rewrite Hc, <- app_assoc, take_app_length' by by rewrite length_be_bytes.
  rewrite be_val_be_bytes by done.
  destruct (IH (set_getp (getp s + Z.of_nat (width_bytes w)) s) rest) as (s' & E & WF' & Hr).
  - apply set_getp_wf; [done |]. destruct WF; lia.
  - done.
  - rewrite contents_set_getp by done. rewrite Hc, <- app_assoc. apply drop_app_length'. by rewrite length_be_bytes.
  - exists s'. rewrite E. done.
Qed.

(** A message of 8-, 16-, 32- and 64-bit fields that fits in the room left is written by the
    [stream_put*] functions as the concatenation of the big-endian encodings of its fields, and the
    [stream_get*] functions of the same widths read the very values back and consume exactly the
    message; a message that does not fit makes one of the writers abort, and nothing else happens. *)
Theorem stream_message_roundtrip s l :
  stream_wf s -> contents s = [] -> Forall (fun x => in_u (width_bits x.1) x.2) l ->
  (room s < items_size l -> put_items s l = Abort) /\
  (items_size l <= room s ->
   exists s1 s2, put_items s l = Ok s1 /\ stream_wf s1 /\ contents s1 = items_bytes l /\
     room s1 = room s - items_size l /\
     get_items s1 (map fst l) = Ok (map snd l, s2) /\ stream_wf s2 /\ contents s2 = []).
Proof.
  intros WF Hc Hl.
  destruct (put_items_spec s l WF) as [H1 H2]; [destruct WF; unfold room; lia |]. split.
  - exact H1.
  - intros H. destruct (H2 H) as (s1 & E & WF1 & Hc1 & _ & Hr). rewrite Hc in Hc1.
    destruct (get_items_spec l s1 [] WF1 Hl) as (s2 & E2 & WF2 & Hc2).
    + by rewrite app_nil_r.
    + eauto 10.
Qed.

Definition ex_stream (n : Z) : stream := mk_stream 0 0 n (replicate (Z.to_nat n) 0).

Lemma ex_stream_wf n : 0 <= n < 2 ^ 64 -> stream_wf (ex_stream n).
Proof.
  intros H. constructor; cbn; try lia.
  - rewrite length_replicate. lia.
  - apply Forall_replicate. unfold byte_ok. lia.
Qed.

Lemma stream_message_roundtrip_witness :
  exists s1 s2, put_items (ex_stream 16) [(W8, 7); (W16, 65535); (W64, 2 ^ 63)] = Ok s1 /\
    get_items s1 [W8; W16; W64] = Ok ([7; 65535; 2 ^ 63], s2).
Proof.
  destruct (stream_message_roundtrip (ex_stream 16) [(W8, 7); (W16, 65535); (W64, 2 ^ 63)]) as [_ H].
  - apply ex_stream_wf. lia.
  - reflexivity.
  - repeat constructor; cbn; lia.
  - destruct H as (s1 & s2 & H1 & _ & _ & _ & H2 & _); [vm_compute; discriminate |].
    exists s1, s2. split; [exact H1 | exact H2].
Defined.

(** *** Patching a field in place *)

Lemma get_item_from_spec s w from :
  stream_wf s -> 0 <= from -> from + Z.of_nat (width_bytes w) < 2 ^ 64 ->
  get_item_from s w from =
    (if endp s <? from + Z.of_nat (width_bytes w) then Abort
     else Ok (be_val (take (width_bytes w) (drop (Z.to_nat from) (written s))))).
Proof.
  intros WF H0 H64.
  assert (forall k n f, k = Z.of_nat n -> from + k < 2 ^ 64 ->
    (_ ← STREAM_VERIFY_SANE s;
     if negb (GETP_VALID s (u64 (from + k))) then Abort
     else bs ← rd_bytes (data s) from n; Ok (f bs)) =
    (if endp s <? from + k then Abort
     else Ok ((f : list Z -> Z) (take n (drop (Z.to_nat from) (written s)))))) as G.
  { intros k n f -> Hk. rewrite (verify_sane_ok s WF). cbn -[rd_bytes wrap].
    unfold GETP_VALID. rewrite wrap_small by (unfold in_u; lia).
    rewrite Z.leb_antisym, negb_involutive.
    destruct (Z.ltb_spec (endp s) (from + Z.of_nat n)); [done |].
    by rewrite (rd_bytes_written s WF) by lia. }
  trans (if endp s <? from + Z.of_nat (width_bytes w) then Abort
         else Ok (decode w (take (width_bytes w) (drop (Z.to_nat from) (written s))))).
  - destruct w; [exact (G 1 1%nat (decode W8) eq_refl H64) | exact (G 2 2%nat (decode W16) eq_refl H64)
      | exact (G 4 4%nat (decode W32) eq_refl H64) | exact (G 8 8%nat (decode W64) eq_refl H64)].
  - destruct (Z.ltb_spec (endp s) (from + Z.of_nat (width_bytes w))); [done |].
    pose proof (length_written s WF). rewrite decode_be_val; [done | |].
    + apply bytes_ok_take, bytes_ok_drop. eauto with stream.
    + rewrite length_take, length_drop. lia.
Qed.

(** The stream after the bytes [bs] replace those at [pos]. *)
Definition patched (s : stream) (pos : Z) (bs : list Z) : stream :=
  set_data (take (Z.to_nat pos) (data s) ++ bs ++ drop (Z.to_nat pos + length bs) (data s)) s.

Lemma put_item_at_spec s putp w z :
  stream_wf s -> 0 <= putp -> putp + Z.of_nat (width_bytes w) < 2 ^ 64 ->
  put_item_at s putp w z =
    (if endp s <? putp + Z.of_nat (width_bytes w) then Abort
     else Ok (Z.of_nat (width_bytes w), patched s putp (be_bytes (width_bytes w) z))).
Proof.
  intros WF H0 H64.
  assert (forall k bs, k = Z.of_nat (length bs) -> putp + k < 2 ^ 64 ->
    (_ ← STREAM_VERIFY_SANE s;
     if negb (PUT_AT_VALID s (u64 (putp + k))) then Abort
     else d ← wr_bytes (data s) putp bs; Ok (k, set_data d s)) =
    (if endp s <? putp + k then Abort else Ok (k, patched s putp bs))) as G.
  { intros k bs -> Hk. rewrite (verify_sane_ok s WF). cbn -[wr_bytes wrap].
    unfold PUT_AT_VALID, GETP_VALID. rewrite wrap_small by (unfold in_u; lia).
    rewrite Z.leb_antisym, negb_involutive.
    destruct (Z.ltb_spec (endp s) (putp + Z.of_nat (length bs))); [done |].
    destruct WF. unfold wr_bytes.
    rewrite (proj2 (Z.leb_le 0 _)), (proj2 (Z.leb_le (putp + _) _)) by lia. done. }
  destruct w; [exact (G 1 (be_bytes 1 z) eq_refl H64) | exact (G 2 (be_bytes 2 z) eq_refl H64)
    | exact (G 4 (be_bytes 4 z) eq_refl H64) | exact (G 8 (be_bytes 8 z) eq_refl H64)].
Qed.

Lemma written_patched s pos bs :
  stream_wf s -> 0 <= pos -> pos + Z.of_nat (length bs) <= endp s ->
  written (patched s pos bs) =
    take (Z.to_nat pos) (written s) ++ bs ++ drop (Z.to_nat pos + length bs) (written s).
Proof.
  intros WF H0 H1. destruct WF. unfold patched, written. cbn.
  rewrite take_app, take_app, !take_take, length_take.
  rewrite (Nat.min_l (Z.to_nat pos)), Nat.min_r, Nat.min_l by lia.
  rewrite (take_ge bs) by lia. do 2 f_equal.
  replace (Z.to_nat (endp s)) with ((Z.to_nat pos + length bs) + (Z.to_nat (endp s) - Z.to_nat pos - length bs))%nat at 2 by lia.
  by rewrite take_drop_commute.
Qed.

Lemma patched_wf s pos bs :
  stream_wf s -> bytes_ok bs -> 0 <= pos -> pos + Z.of_nat (length bs) <= endp s ->
  stream_wf (patched s pos bs).
Proof.
  intros WF Hb H0 H1. destruct WF. constructor; cbn; try lia.
  - rewrite !length_app, length_take, length_drop. lia.
  - apply Forall_app; split; [by apply bytes_ok_take |].
    apply Forall_app; split; [done |]. by apply bytes_ok_drop.
Qed.

(** [stream_put{c,w,l,q}_at] overwrites a field inside the written part: it aborts when the field
    does not lie below [endp], otherwise [stream_get{c,w,l,q}_from] at that position returns the new
    value, the positions and every byte outside the field are as before, and the stream stays well
    formed. *)
Theorem stream_patch_roundtrip s putp w z :
  stream_wf s -> 0 <= putp -> putp + Z.of_nat (width_bytes w) < 2 ^ 64 -> in_u (width_bits w) z ->
  (endp s < putp + Z.of_nat (width_bytes w) -> put_item_at s putp w z = Abort) /\
  (putp + Z.of_nat (width_bytes w) <= endp s ->
   exists s', put_item_at s putp w z = Ok (Z.of_nat (width_bytes w), s') /\
     stream_wf s' /\ get_item_from s' w putp = Ok z /\
     getp s' = getp s /\ endp s' = endp s /\ size s' = size s /\
     (forall i, 0 <= i < putp \/ putp + Z.of_nat (width_bytes w) <= i ->
        byte_at (data s') i = byte_at (data s) i)).
Proof.
  intros WF H0 H64 Hz. rewrite (put_item_at_spec s putp w z WF H0 H64). split.
  { intros H. by rewrite (proj2 (Z.ltb_lt _ _)). }
  intros H. rewrite (proj2 (Z.ltb_ge _ _)) by done. eexists. split; [done |].
  set (bs := be_bytes (width_bytes w) z).
  assert (length bs = width_bytes w) as Hl by apply length_be_bytes.
  assert (stream_wf (patched s putp bs)) as WF' by (apply patched_wf; rewrite ?Hl; eauto with bytes).
  pose proof (length_written s WF). split_and!; try done.
  - rewrite get_item_from_spec, (proj2 (Z.ltb_ge _ _)), written_patched by (rewrite ?Hl; done).
    rewrite drop_app_length' by (rewrite length_take; lia).
    rewrite take_app_length' by done. f_equal. by apply be_val_be_bytes.
  - intros i Hi. unfold patched. cbn [data set_data]. destruct WF.
    destruct Hi as [Hi | Hi].
    + rewrite byte_at_app_l by (rewrite length_take; lia). apply byte_at_take. lia.
    + rewrite byte_at_app_r, byte_at_app_r by (rewrite length_take; lia).
      rewrite byte_at_drop, length_take by (rewrite length_take; lia). f_equal. lia.
Qed.

Lemma stream_patch_roundtrip_witness :
  exists s', put_item_at (pushed (ex_stream 8) [1; 2; 3; 4; 5]) 1 W16 513 = Ok (2, s') /\
    get_item_from s' W16 1 = Ok 513 /\ get_item_from s' W8 3 = Ok 4.
Proof.
  destruct (stream_patch_roundtrip (pushed (ex_stream 8) [1; 2; 3; 4; 5]) 1 W16 513) as [_ H].
  - apply pushed_wf; [by apply ex_stream_wf | repeat constructor; lia | vm_compute; discriminate].
  - lia.
  - z_eval.
  - z_eval.
  - destruct H as (s' & E & _ & Hg & _); [vm_compute; discriminate |].
    exists s'. split; [exact E |]. split; [exact Hg |].
    vm_compute in E. injection E as <-. reflexivity.
Defined.

(** *** The truncating writers *)

Lemma CHECK_SIZE_min s n :
  stream_wf s -> 0 <= n -> endp s + n < 2 ^ 64 -> CHECK_SIZE s n = Z.min n (room s).
Proof.
  intros WF H0 H64. destruct WF. unfold CHECK_SIZE, room.
  rewrite (wrap_small 64 (endp s + n)), (wrap_small 64 (_ - _)) by (unfold in_u; lia).
  rewrite Z.gtb_ltb. destruct (Z.ltb_spec (size s) (endp s + n)); lia.
Qed.

Lemma stream_put_spec s m n :
  stream_wf s -> 0 <= n <= Z.of_nat (length m) -> endp s + n < 2 ^ 64 ->
  let k := Z.to_nat (Z.min n (room s)) in
  stream_put s (Some m) n = Ok (pushed s (take k m)) /\
  stream_put s None n = Ok (pushed s (replicate k 0)) /\
  stream_write s m n = Ok (Z.of_nat k, pushed s (take k m)).
Proof.
  intros WF Hn H64 k. unfold stream_put, stream_write.
  rewrite (CHECK_SIZE_min s n WF), (verify_sane_ok s WF), (writeable_eq s WF) by lia.
  assert (0 <= room s) by (destruct WF; unfold room; lia).
  cbn -[wr_bytes append rd_bytes]. rewrite (proj2 (Z.ltb_ge _ _)) by lia.
  assert (rd_bytes m 0 k = Ok (take k m)) as R.
  { unfold rd_bytes. rewrite (proj2 (Z.leb_le _ _)), (proj2 (Z.leb_le _ _)) by lia. done. }
  assert (forall bs, length bs = k ->
    (d ← wr_bytes (data s) (endp s) bs;
     Ok (mk_stream (getp s) (endp s + Z.min n (room s)) (size s) d)) = Ok (pushed s bs)) as A.
  { intros bs Hb. rewrite <- (wr_bytes_written s WF) by lia. unfold append.
    by replace (Z.min n (room s)) with (Z.of_nat (length bs)) by lia. }
  fold k. rewrite R. cbn -[wr_bytes append].
  assert (length (take k m) = k) as L by (rewrite length_take; lia).
  rewrite (A (take k m) L), (A (replicate k 0)) by apply length_replicate.
  split_and!; [done | done |]. rewrite (wr_bytes_written s WF) by lia. cbn. do 2 f_equal. lia.
Qed.

(** [stream_put] and [stream_write] never overrun: of the [n] bytes asked for they store the first
    [min n room] and silently drop the rest ([stream_write] returns the number stored), and with a NULL
    source [stream_put] stores that many zeros. *)
Theorem stream_put_truncates s m n :
  stream_wf s -> 0 <= n <= Z.of_nat (length m) -> endp s + n < 2 ^ 64 ->
  let k := Z.to_nat (Z.min n (room s)) in
  stream_put s (Some m) n = Ok (pushed s (take k m)) /\
  stream_put s None n = Ok (pushed s (replicate k 0)) /\
  stream_write s m n = Ok (Z.of_nat k, pushed s (take k m)).
Proof. apply stream_put_spec. Qed.

Lemma stream_put_truncates_witness :
  stream_put (ex_stream 2) (Some [5; 6; 7]) 3 = Ok (mk_stream 0 2 2 [5; 6]).
Proof.
  destruct (stream_put_truncates (ex_stream 2) [5; 6; 7] 3) as [H _].
  - by apply ex_stream_wf.
  - z_eval.
  - z_eval.
  - exact H.
Defined.

(** *** NLRI prefixes *)

Lemma stream_put_prefix_spec s p :
  stream_wf s -> prefix_wf p ->
  let psize := PSIZE (prefixlen p) in
  (room s < psize -> stream_put_prefix s p = Abort) /\
  (room s = psize -> 0 < psize -> stream_put_prefix s p = Oob) /\
  (psize < room s ->
     stream_put_prefix s p = Ok (psize, pushed s (prefixlen p :: take (Z.to_nat psize) (u p)))).
Proof.
  intros WF (Hu & Hub & Hl) psize.
  assert (0 <= psize <= 16) as Hp.
  { unfold psize, PSIZE. split; [apply Z.div_pos; lia | apply Z.lt_succ_r, Z.div_lt_upper_bound; lia]. }
  unfold stream_put_prefix. rewrite (verify_sane_ok s WF), (writeable_eq s WF).
  cbn -[stream_putc rd_bytes append]. fold psize.
  change (stream_putc s (prefixlen p)) with (put_item s W8 (prefixlen p)).
  rewrite (put_item_spec s W8 _ WF). change (Z.of_nat (width_bytes W8)) with 1.
  assert (rd_bytes (u p) 0 (Z.to_nat psize) = Ok (take (Z.to_nat psize) (u p))) as R.
  { unfold rd_bytes. rewrite (proj2 (Z.leb_le _ _)), (proj2 (Z.leb_le _ _)) by lia. done. }
  assert (length (take (Z.to_nat psize) (u p)) = Z.to_nat psize) as L by (rewrite length_take; lia).
  change (be_bytes (width_bytes W8) (prefixlen p)) with [u8 (Z.shiftr (prefixlen p) 0)].
  rewrite Z.shiftr_0_r, wrap_small by (unfold in_u; lia).
  assert (length [prefixlen p] = 1%nat) as L1 by done.
  assert (1 <= room s -> stream_wf (pushed s [prefixlen p])) as WF1.
  { intros ?. apply pushed_wf; [done | repeat constructor; lia | cbn; lia]. }
  split_and!.
  - intros H. by rewrite (proj2 (Z.ltb_lt _ _)).
  - intros H H0. rewrite (proj2 (Z.ltb_ge _ _)), (proj2 (Z.ltb_ge _ _)) by lia.
    cbn -[rd_bytes append pushed]. rewrite R. cbn -[append pushed].
    unfold append, wr_bytes. cbn [endp pushed data].
    destruct (WF1 ltac:(lia)) as [_ _ _ Hb _]. cbn [data pushed size] in Hb. rewrite Hb, L, L1.
    rewrite (proj2 (Z.leb_gt (endp s + _ + _) _)) by (unfold room in H; lia).
    by rewrite andb_false_r.
  - intros H. rewrite (proj2 (Z.ltb_ge _ _)), (proj2 (Z.ltb_ge _ _)) by lia.
    cbn -[rd_bytes append pushed]. rewrite R. cbn -[append pushed].
    rewrite (wr_bytes_written _ (WF1 ltac:(lia))) by (unfold room; cbn [endp size pushed]; rewrite L, L1; unfold room in H; lia).
    cbn -[pushed]. by rewrite pushed_pushed.
Qed.

(** [stream_put_prefix] stores the length byte and the [PSIZE] significant address bytes, but its
    bounds check leaves the length byte out: with exactly [PSIZE] bytes of room it does not report the
    overflow and writes one byte past the end of the buffer; with less it aborts. *)
Theorem stream_put_prefix_cases s p :
  stream_wf s -> prefix_wf p ->
  let psize := PSIZE (prefixlen p) in
  (room s < psize -> stream_put_prefix s p = Abort) /\
  (room s = psize -> 0 < psize -> stream_put_prefix s p = Oob) /\
  (psize < room s ->
     stream_put_prefix s p = Ok (psize, pushed s (prefixlen p :: take (Z.to_nat psize) (u p)))).
Proof. apply stream_put_prefix_spec. Qed.

Lemma stream_put_prefix_cases_witness :
  stream_put_prefix (ex_stream 3) (mk_prefix AF_INET 17 [10; 1; 128; 0; 0; 0; 0; 0; 0; 0; 0; 0; 0; 0; 0; 0]) = Oob.
Proof.
  apply (stream_put_prefix_cases (ex_stream 3)
           (mk_prefix AF_INET 17 [10; 1; 128; 0; 0; 0; 0; 0; 0; 0; 0; 0; 0; 0; 0; 0])).
  - by apply ex_stream_wf.
  - split_and!; [done | repeat constructor; lia | cbn; lia | cbn; lia].
  - reflexivity.
  - z_eval.
Defined.

(** ** Every client of a stream *)

(** The calls that change a stream, with what their arguments stand for in the model. *)
Inductive stream_op :=
| OpSetGetp (pos : Z) | OpSetEndp (pos : Z) | OpForwardGetp (n : Z) | OpForwardEndp (n : Z)
| OpGet (n : Z) | OpGetItem (w : width) | OpGetIpv4
| OpPut (src : option (list Z)) (n : Z) | OpPutItem (w : width) (z : Z)
| OpPutItemAt (putp : Z) (w : width) (z : Z)
| OpPutIpv4 (l : list Z) | OpPutInAddr (l : list Z) | OpPutPrefix (p : prefix)
| OpRead (n : Z) (r : io_result) | OpReadTry (n : Z) (r : io_result) | OpRecvfrom (n : Z) (r : io_result)
| OpWrite (ptr : list Z) (n : Z) | OpReset | OpResize (n : Z) (d : option (list Z)).

Definition run_op (s : stream) (o : stream_op) : res stream :=
  match o with
  | OpSetGetp pos => stream_set_getp s pos
  | OpSetEndp pos => stream_set_endp s pos
  | OpForwardGetp n => stream_forward_getp s n
  | OpForwardEndp n => stream_forward_endp s n
  | OpGet n => snd <$> stream_get s n
  | OpGetItem w => snd <$> get_item s w
  | OpGetIpv4 => snd <$> stream_get_ipv4 s
  | OpPut src n => stream_put s src n
  | OpPutItem w z => snd <$> put_item s w z
  | OpPutItemAt p w z => snd <$> put_item_at s p w z
  | OpPutIpv4 l => snd <$> stream_put_ipv4 s l
  | OpPutInAddr l => snd <$> stream_put_in_addr s l
  | OpPutPrefix p => snd <$> stream_put_prefix s p
  | OpRead n r => snd <$> stream_read s n r
  | OpReadTry n r => snd <$> stream_read_try s n r
  | OpRecvfrom n r => snd <$> stream_recvfrom s n r
  | OpWrite m n => snd <$> stream_write s m n
  | OpReset => stream_reset s
  | OpResize n d => snd <$> stream_resize s n d
  end.

(** What the kernel promises of [read (fd, buf, n)]: at most [n] bytes, and nothing on error. *)
Definition io_ok (n : Z) (r : io_result) : Prop :=
  bytes_ok (io_bytes r) /\ io_ret r <= n /\ Z.of_nat (length (io_bytes r)) = Z.max 0 (io_ret r).

(** The callers' side: arguments are of their C types (source buffers as long as the count says, well-formed prefixes, what the kernel
    returns), [endp] is not set below [getp] ([stream_set_endp_below_getp] shows what happens then), and positions do not wrap around [size_t]. *)
Definition op_ok (s : stream) (o : stream_op) : Prop :=
  match o with
  | OpSetGetp pos => 0 <= pos
  | OpSetEndp pos => getp s <= pos
  | OpForwardGetp n => 0 <= n /\ getp s + n < 2 ^ 64
  | OpForwardEndp n => 0 <= n /\ endp s + n < 2 ^ 64
  | OpGet n => 0 <= n
  | OpGetItem _ | OpGetIpv4 | OpReset | OpPutItem _ _ => True
  | OpPut (Some m) n | OpWrite m n =>
      0 <= n <= Z.of_nat (length m) /\ bytes_ok m /\ endp s + n < 2 ^ 64
  | OpPut None n => 0 <= n /\ endp s + n < 2 ^ 64
  | OpPutItemAt p w _ => 0 <= p /\ p + Z.of_nat (width_bytes w) < 2 ^ 64
  | OpPutIpv4 l | OpPutInAddr l => length l = 4%nat /\ bytes_ok l
  | OpPutPrefix p => prefix_wf p
  | OpRead n r | OpReadTry n r | OpRecvfrom n r => 0 <= n /\ io_ok n r
  | OpResize n (Some d) => 0 <= n < 2 ^ 64 /\ Z.of_nat (length d) = n /\ bytes_ok d
  | OpResize n None => True
  end.

(** The one call that writes past the buffer: a prefix put into exactly as much room as its address bytes need, which leaves none for the length byte. *)
Definition overflows (s : stream) (o : stream_op) : Prop :=
  match o with OpPutPrefix p => room s = PSIZE (prefixlen p) /\ 0 < PSIZE (prefixlen p) | _ => False end.

(** The two outcomes of every other call. *)
Definition safe (m : res stream) : Prop := m = Abort \/ exists s', m = Ok s' /\ stream_wf s'.

Lemma safe_Ok s : stream_wf s -> safe (Ok s).
Proof. right. eauto. Qed.
Lemma safe_Abort : safe Abort.
Proof. by left. Qed.
#[export] Hint Resolve safe_Ok safe_Abort : stream.

Lemma pushed_safe s k bs :
  stream_wf s -> bytes_ok bs -> k = Z.of_nat (length bs) ->
  safe (snd <$> (if room s <? k then Abort else Ok (k, pushed s bs))).
Proof.
  intros WF Hb ->. destruct (Z.ltb_spec (room s) (Z.of_nat (length bs))); [apply safe_Abort |].
  apply safe_Ok, pushed_wf; done.
Qed.

Lemma got_safe {A} s k (x : A) :
  stream_wf s -> 0 <= k ->
  safe (snd <$> (if endp s - getp s <? k then Abort else Ok (x, set_getp (getp s + k) s))).
Proof.
  intros WF Hk. destruct (Z.ltb_spec (endp s - getp s) k); [apply safe_Abort |].
  apply safe_Ok, set_getp_wf; [done |]. destruct WF; lia.
Qed.

(** Storing what the kernel delivered, with [endp] moved past it. *)
Lemma io_pushed s n r :
  stream_wf s -> io_ok n r -> n <= room s ->
  exists d, wr_bytes (data s) (endp s) (io_bytes r) = Ok d /\
    stream_wf (set_data d s) /\
    (0 <= io_ret r -> stream_wf (set_endp (endp s + io_ret r) (set_data d s))).
Proof.
  intros WF (Hb & Hn & Hl) Hr. assert (0 <= room s) by (destruct WF; unfold room; lia).
  pose proof (wr_bytes_written s WF (io_bytes r) ltac:(lia)) as A.
  pose proof (pushed_wf s WF (io_bytes r) Hb ltac:(lia)) as W.
  unfold append in A. destruct (wr_bytes _ _ _) as [d| |]; [| done | done].
  exists d. injection A as A. destruct WF, W. cbn [data pushed size endp getp] in *. subst d.
  split; [done |]. split; [constructor; cbn; done |]. intros H0.
  constructor; cbn [set_endp set_data getp endp size data]; try done; unfold room in Hr; lia.
Qed.

Lemma position_op_safe s :
  stream_wf s ->
  (forall pos, 0 <= pos -> safe (stream_set_getp s pos)) /\
  (forall pos, getp s <= pos -> safe (stream_set_endp s pos)) /\
  (forall n, 0 <= n -> getp s + n < 2 ^ 64 -> safe (stream_forward_getp s n)) /\
  (forall n, 0 <= n -> endp s + n < 2 ^ 64 -> safe (stream_forward_endp s n)) /\
  safe (stream_reset s).
Proof.
  intros WF. unfold stream_set_getp, stream_set_endp, stream_forward_getp, stream_forward_endp, stream_reset.
  rewrite (verify_sane_ok s WF). cbn -[wrap]. unfold GETP_VALID, ENDP_VALID. destruct WF.
  split_and!; intros; rewrite ?(wrap_small 64) by (unfold in_u; lia);
    try match goal with |- safe (if negb (?a <=? ?b) then _ else _) => destruct (Z.leb_spec a b); cbn end;
    eauto with stream; apply safe_Ok; constructor; cbn; done || lia.
Qed.

Lemma put_op_safe s :
  stream_wf s ->
  (forall m n, 0 <= n <= Z.of_nat (length m) -> bytes_ok m -> endp s + n < 2 ^ 64 ->
     safe (stream_put s (Some m) n) /\ safe (snd <$> stream_write s m n)) /\
  (forall n, 0 <= n -> endp s + n < 2 ^ 64 -> safe (stream_put s None n)).
Proof.
  intros WF. assert (0 <= room s) by (destruct WF; unfold room; lia).
  assert (forall m n, 0 <= n <= Z.of_nat (length m) -> bytes_ok m -> endp s + n < 2 ^ 64 ->
    safe (stream_put s (Some m) n) /\ safe (snd <$> stream_write s m n) /\ safe (stream_put s None n)) as G.
  { intros m n Hn Hm H64. destruct (stream_put_spec s m n WF Hn H64) as (-> & -> & ->).
    cbn -[pushed]. split_and!; apply safe_Ok, pushed_wf; rewrite ?length_take, ?length_replicate;
      auto with bytes; try lia; apply Forall_replicate; unfold byte_ok; lia. }
  split.
  - intros m n ???. destruct (G m n) as (? & ? & _); done.
  - intros n ??. apply (G (replicate (Z.to_nat n) 0) n); [| | done].
    + rewrite length_replicate. lia.
    + apply Forall_replicate. unfold byte_ok. lia.
Qed.

Lemma io_op_safe s n r :
  stream_wf s -> 0 <= n -> io_ok n r ->
  safe (snd <$> stream_read s n r) /\ safe (snd <$> stream_read_try s n r).
Proof.
  intros WF Hn Hio. unfold stream_read, stream_read_try.
  rewrite (verify_sane_ok s WF), (writeable_eq s WF). cbn -[wr_bytes].
  destruct (Z.ltb_spec (room s) n) as [|Hr]; [eauto with stream |].
  destruct (io_pushed s n r WF Hio Hr) as (d & -> & W1 & W2). cbn.
  rewrite Z.gtb_ltb, Z.geb_leb. split.
  - destruct (Z.ltb_spec 0 (io_ret r)); apply safe_Ok; [apply W2; lia | done].
  - destruct (Z.leb_spec 0 (io_ret r)); apply safe_Ok; [by apply W2 | done].
Qed.

Lemma resize_safe s n d :
  stream_wf s -> op_ok s (OpResize n d) -> safe (snd <$> stream_resize s n d).
Proof.
  intros WF H. unfold stream_resize. rewrite (verify_sane_ok s WF). cbn [mbind res_bind].
  destruct d as [d|]; [| by apply safe_Ok]. destruct H as (Hn & Hd & Hb). destruct WF.
  set (s' := mk_stream _ _ n d). assert (stream_wf s') as WF'.
  { constructor; cbn; rewrite ?Z.gtb_ltb; try done;
      repeat match goal with |- context [?a <? ?b] => destruct (Z.ltb_spec a b) end; lia. }
  rewrite (verify_sane_ok s' WF'). by apply safe_Ok.
Qed.

Lemma run_op_safe s o : stream_wf s -> op_ok s o -> ~ overflows s o -> safe (run_op s o).
Proof.
  intros WF H Hov. destruct (position_op_safe s WF) as (P1 & P2 & P3 & P4 & P5).
  destruct (put_op_safe s WF) as [Q1 Q2].
  destruct o as [| | | |n|w| |[m|] n|w z|p w z|l|l|p|n r|n r|n r|m n| |n d]; cbn [run_op op_ok] in *;
    try (by (auto || (destruct_and! H; auto))).
  - assert (stream_get s n = _) as -> by exact (get_guard s n (Z.to_nat n) id WF ltac:(lia)).
    by apply got_safe.
  - rewrite (get_item_spec s w WF). apply got_safe; [done | lia].
  - assert (stream_get_ipv4 s = _) as -> by exact (get_guard s 4 4 id WF eq_refl).
    by apply got_safe.
  - destruct H as (? & ? & ?). by apply Q1.
  - rewrite (put_item_spec s w z WF). apply pushed_safe; [done | apply be_bytes_ok |].
    by rewrite length_be_bytes.
  - destruct H as [H0 H64]. rewrite (put_item_at_spec s p w z WF H0 H64).
    destruct (Z.ltb_spec (endp s) (p + Z.of_nat (width_bytes w))); [apply safe_Abort |].
    apply safe_Ok, patched_wf; rewrite ?length_be_bytes; auto with bytes.
  - destruct H as [Hl Hb]. unfold stream_put_ipv4.
    rewrite (put_guard s 4 (take 4 l) WF) by (rewrite length_take; lia).
    apply pushed_safe; [done | auto with bytes | rewrite length_take; lia].
  - destruct H as [Hl Hb]. unfold stream_put_in_addr.
    rewrite (put_guard s 4 (take 4 l) WF) by (rewrite length_take; lia).
    apply pushed_safe; [done | auto with bytes | rewrite length_take; lia].
  - rename H into Hp. destruct (stream_put_prefix_spec s p WF Hp) as (H1 & _ & H3). pose proof Hp as (_ & _ & Hl0).
    assert (0 <= PSIZE (prefixlen p)) by (apply Z.div_pos; lia).
    destruct (Z.lt_total (room s) (PSIZE (prefixlen p))) as [Hlt | [Heq | Hgt]].
    + rewrite H1 by done. apply safe_Abort.
    + destruct (Z.eq_dec (PSIZE (prefixlen p)) 0) as [H0 |]; [| destruct Hov; cbn; lia]. unfold stream_put_prefix. rewrite (verify_sane_ok s WF), (writeable_eq s WF).
      cbn [mbind res_bind]. rewrite Heq, Z.ltb_irrefl. pose proof (put_item_spec s W8 (prefixlen p) WF) as Hc. cbn [put_item width_bytes] in Hc. rewrite Hc.
      destruct (Z.ltb_spec (room s) (Z.of_nat 1)); [apply safe_Abort | lia].
    + rewrite H3 by done. destruct Hp as (Hu & Hub & Hl).
      apply safe_Ok, pushed_wf; [done | | cbn [length]; rewrite length_take; lia].
      constructor; [unfold byte_ok; lia | by apply bytes_ok_take].
  - destruct H as [? ?]. by apply io_op_safe.
  - destruct H as [? ?]. by apply io_op_safe.
  - destruct H as [? ?]. by apply io_op_safe.
  - destruct H as (? & ? & ?). by apply Q1.
  - by apply resize_safe.
Qed.

Lemma run_op_overflows s o : stream_wf s -> op_ok s o -> overflows s o -> run_op s o = Oob.
Proof. intros WF H Ho. destruct o; cbn in *; try done. destruct Ho as [H1 H2]. destruct (stream_put_prefix_spec s p WF H) as (_ & E & _). by rewrite E. Qed.

(** The streams a client can get: a new one, then any calls. *)
Inductive stream_reach : stream -> Prop :=
| reach_new n block s :
    0 <= n < 2 ^ 64 -> Z.of_nat (length block) = n -> bytes_ok block ->
    stream_new n block = Ok s -> stream_reach s
| reach_step s o s' :
    stream_reach s -> op_ok s o -> run_op s o = Ok s' -> stream_reach s'.

Lemma stream_reach_wf s : stream_reach s -> stream_wf s.
Proof.
  induction 1 as [n block s Hn Hl Hb E | s o s' _ IH Hok E].
  - unfold stream_new in E. destruct (n >? 0); [| done]. injection E as <-. constructor; cbn; done || lia.
  - destruct (run_op_safe s o IH Hok) as [E' | (s1 & E' & WF)]; [| congruence | congruence].
    intros Ho. by rewrite (run_op_overflows s o IH Hok Ho) in E.
Qed.

(** C22: from [stream_new] on, whatever sequence of calls a client makes, [getp <= endp <= size] holds, and every call returns such a stream again
    or stops in its own bounds check, with one exception, which is exact: [stream_put_prefix] with exactly [PSIZE] bytes of room, more than 0, passes its check, which
    forgets the length byte, and writes one byte past the end.  The arguments of the calls are of their types, counts are those of the buffers, [endp] is not set below
    [getp], and positions do not wrap around [size_t]. *)
Theorem stream_ops_safe s o :
  stream_reach s -> op_ok s o ->
  0 <= getp s <= endp s /\ endp s <= size s /\
  (overflows s o -> run_op s o = Oob) /\
  (~ overflows s o -> run_op s o = Abort \/ exists s', run_op s o = Ok s' /\ stream_wf s').
Proof.
  intros Hr Hok. pose proof (stream_reach_wf s Hr) as WF.
  split_and!; [apply WF | apply WF | apply WF | by apply run_op_overflows | by apply run_op_safe].
Qed.

Lemma stream_ops_safe_witness :
  exists s', run_op (ex_stream 4) (OpPutItem W32 305419896) = Ok s' /\ stream_wf s'.
Proof.
  destruct (stream_ops_safe (ex_stream 4) (OpPutItem W32 305419896)) as (_ & _ & _ & H).
  - apply (reach_new 4 (replicate 4 0)); [lia | reflexivity | repeat constructor; lia | reflexivity].
  - exact I.
  - destruct H as [H | H]; [intros [] | vm_compute in H; discriminate H | exact H].
Defined.

(** [stream_set_endp] tests the new [endp] against the old one only, not against [getp]: set below
    [getp] it succeeds, and leaves a stream on which every later call fails its sanity assertion. *)
Theorem stream_set_endp_below_getp s pos :
  stream_wf s -> 0 <= pos < getp s ->
  exists s', stream_set_endp s pos = Ok s' /\ forall o, run_op s' o = Abort.
Proof.
  intros WF Hpos. exists (set_endp pos s). unfold stream_set_endp. rewrite (verify_sane_ok s WF).
  cbn [mbind res_bind]. unfold GETP_VALID. destruct WF. rewrite (proj2 (Z.leb_le _ _)) by lia.
  split; [done |].
  assert (STREAM_VERIFY_SANE (set_endp pos s) = Abort) as E.
  { unfold STREAM_VERIFY_SANE, GETP_VALID. cbn. by rewrite (proj2 (Z.leb_gt _ _)) by lia. }
  intros o; destruct o as [| | | |n|[]| |src n|[] z|p [] z|l|l|p|n r|n r|n r|m n| |n d];
    unfold run_op, get_item, put_item, put_item_at, stream_set_getp, stream_set_endp, stream_forward_getp,
    stream_forward_endp, stream_get, stream_getc, stream_getw, stream_getl, stream_getq, stream_get_ipv4,
    stream_put, stream_putc, stream_putw, stream_putl, stream_putq, stream_putc_at, stream_putw_at,
    stream_putl_at, stream_putq_at, stream_put_ipv4, stream_put_in_addr, stream_put_prefix, stream_read,
    stream_recvfrom, stream_read_try, stream_write, stream_reset, stream_resize; by rewrite E.
Qed.

Lemma stream_set_endp_below_getp_witness :
  exists s', stream_set_endp (mk_stream 3 4 8 (replicate 8 0)) 1 = Ok s' /\ run_op s' OpReset = Abort.
Proof.
  destruct (stream_set_endp_below_getp (mk_stream 3 4 8 (replicate 8 0)) 1) as (s' & E & H).
  - constructor; cbn; try lia. repeat constructor; lia.
  - cbn. lia.
  - exists s'. split; [exact E | apply H].
Defined.
