(* ===== verification/StreamFifo.v ===== *)
(** * lib/stream.c: queues of streams

    [struct stream_fifo] links the streams themselves through [stream->next], so a queue is part of the
    heap.  The heap is a map from the address of a stream to its [next] pointer; a pointer that is not in
    the map is freed or invalid, and following it is [Oob].  The theorem shows that the four operations
    implement an abstract first-in first-out queue, and which streams may be pushed. *)

From S2P Require Import Prelude.
Local Open Scope Z_scope.

Notation ptr := positive (only parsing).
(** The [next] fields of the allocated streams. *)
Notation heap := (gmap positive (option positive)) (only parsing).

Record stream_fifo := mk_fifo { count : Z; head : option ptr; tail : option ptr }.

Definition stream_fifo_new : stream_fifo := mk_fifo 0 None None.

(** [p->next] and [p->next = v] *)
Definition get_next (h : heap) (p : ptr) : res (option ptr) :=
  match h !! p with Some n => Ok n | None => Oob end.
Definition set_next (h : heap) (p : ptr) (v : option ptr) : res heap :=
  match h !! p with Some _ => Ok (<[p := v]> h) | None => Oob end.

Definition stream_fifo_push (h : heap) (f : stream_fifo) (s : ptr) : res (heap * stream_fifo) :=
  '(h1, hd) ← match tail f with
              | Some t => h' ← set_next h t (Some s); Ok (h', head f)
              | None => Ok (h, Some s)
              end;
  Ok (h1, mk_fifo (u64 (count f + 1)) hd (Some s)).

Definition stream_fifo_pop (h : heap) (f : stream_fifo) : res (option ptr * stream_fifo) :=
  match head f with
  | Some s =>
      hd ← get_next h s;
      Ok (Some s, mk_fifo (u64 (count f - 1)) hd (match hd with None => None | Some _ => tail f end))
  | None => Ok (None, f)
  end.

Definition stream_fifo_head (f : stream_fifo) : option ptr := head f.

(** [stream_free]: the stream leaves the heap. *)
Definition stream_free (h : heap) (s : option ptr) : heap :=
  match s with None => h | Some p => delete p h end.

(** The loop of [stream_fifo_clean]; the fuel bounds the number of streams visited. *)
Fixpoint stream_fifo_clean_loop (fuel : nat) (h : heap) (s : option ptr) : res heap :=
  match fuel with
  | O => Oob
  | S n =>
      match s with
      | None => Ok h
      | Some p => next ← get_next h p; stream_fifo_clean_loop n (stream_free h (Some p)) next
      end
  end.

(** Every turn frees one stream, so the heap's size plus one is enough fuel. *)
Definition stream_fifo_clean (h : heap) (f : stream_fifo) : res (heap * stream_fifo) :=
  h' ← stream_fifo_clean_loop (S (base.size h)) h (head f);
  Ok (h', mk_fifo 0 None None).

(** ** The abstract queue *)

(** [xs] is linked: each stream's [next] is the one after it, the last one's is NULL. *)
Fixpoint chain (h : heap) (xs : list ptr) : Prop :=
  match xs with
  | [] => True
  | x :: r => h !! x = Some (hd_error r) /\ chain h r
  end.

(** The queue [f] in heap [h] holds the streams [xs], oldest first. *)
Record holds (h : heap) (f : stream_fifo) (xs : list ptr) : Prop := {
  holds_chain : chain h xs;
  holds_nodup : NoDup xs;
  holds_head : head f = hd_error xs;
  holds_tail : tail f = list.last xs;
  holds_count : count f = u64 (Z.of_nat (length xs)) }.

Lemma chain_insert h xs p v : p ∉ xs -> chain h xs -> chain (<[p := v]> h) xs.
Proof.
  induction xs as [|x r IH]; [done |]. rewrite not_elem_of_cons. intros [Hx Hr] [H1 H2]. cbn [chain].
  rewrite lookup_insert_ne by done. auto.
Qed.

Lemma chain_delete h xs p : p ∉ xs -> chain h xs -> chain (delete p h) xs.
Proof.
  induction xs as [|x r IH]; [done |]. rewrite not_elem_of_cons. intros [Hx Hr] [H1 H2]. cbn [chain].
  rewrite lookup_delete_ne by done. auto.
Qed.

(** Linking [s] behind the last stream [t]. *)
Lemma chain_snoc h xs t s :
  chain h (xs ++ [t]) -> NoDup (xs ++ [t]) -> s ∉ xs ++ [t] -> h !! s = Some None ->
  chain (<[t := Some s]> h) (xs ++ [t; s]).
Proof.
  intros Hc Hd Hs Hn. apply list.NoDup_app in Hd as (_ & Hd & _).
  assert (t ∉ xs) as Ht by (intros ?; apply (Hd t); [done | by apply list_elem_of_singleton]).
  clear Hd. induction xs as [|x r IH]; cbn [chain app] in *.
  - rewrite lookup_insert_eq, lookup_insert_ne by set_solver. done.
  - destruct Hc as [H1 H2]. rewrite lookup_insert_ne by set_solver. split.
    + rewrite H1. by destruct r.
    + apply IH; set_solver.
Qed.

Lemma push_holds h f xs s :
  holds h f xs -> s ∉ xs -> h !! s = Some None ->
  exists h' f', stream_fifo_push h f s = Ok (h', f') /\ holds h' f' (xs ++ [s]) /\
    forall p, p ∉ xs -> h' !! p = h !! p.
Proof.
  intros [Hc Hd Hh Ht Hn] Hs Hnext. unfold stream_fifo_push. rewrite Ht.
  assert (count (mk_fifo (u64 (count f + 1)) None None) = u64 (Z.of_nat (length (xs ++ [s])))) as Hcnt.
  { cbn. rewrite Hn, length_app. cbn. unfold wrap. rewrite Zplus_mod_idemp_l. f_equal. lia. }
  destruct xs as [|x r] using rev_ind; [| clear IHr].
  - cbn. do 2 eexists. split; [done |]. split; [| done]. split; cbn; try done. apply NoDup_singleton.
  - rewrite last_snoc. cbn.
    assert (h !! x = Some None) as Hx.
    { clear -Hc. induction r as [|y r IH]; cbn in *; [apply Hc | apply IH, Hc]. }
    unfold set_next. rewrite Hx. cbn. do 2 eexists. split; [done |].
    split; [| intros p Hp; apply lookup_insert_ne; set_solver]. split; cbn.
    + rewrite <- app_assoc. by apply chain_snoc.
    + apply list.NoDup_app. split_and!; [done | set_solver | apply NoDup_singleton].
    + rewrite Hh. by destruct r.
    + by rewrite last_snoc.
    + exact Hcnt.
Qed.

Lemma pop_holds h f x xs :
  holds h f (x :: xs) ->
  exists f', stream_fifo_pop h f = Ok (Some x, f') /\ holds h f' xs.
Proof.
  intros [[Hx Hc] Hd Hh Ht Hn]. unfold stream_fifo_pop, get_next. rewrite Hh. cbn. rewrite Hx. cbn.
  eexists. split; [done |]. apply list.NoDup_cons in Hd as [_ Hd]. split; cbn; try done.
  - rewrite Ht. by destruct xs.
  - rewrite Hn. unfold wrap. cbn [length]. rewrite Zminus_mod_idemp_l. f_equal. lia.
Qed.

Lemma clean_loop_frees n : forall h xs,
  chain h xs -> NoDup xs -> (length xs < n)%nat ->
  exists h', stream_fifo_clean_loop n h (hd_error xs) = Ok h' /\
    forall p, h' !! p = if decide (p ∈ xs) then None else h !! p.
Proof.
  induction n as [|n IH]; intros h xs Hc Hd Hn; [lia |].
  destruct xs as [|x r]; cbn.
  { exists h. split; [done |]. intros p. by rewrite decide_False by set_solver. }
  destruct Hc as [Hx Hc]. apply list.NoDup_cons in Hd as [Hxr Hd]. unfold get_next. rewrite Hx. cbn.
  destruct (IH (delete x h) r) as (h' & E & H); [by apply chain_delete | done | cbn in Hn; lia |].
  exists h'. split; [done |]. intros p. rewrite H.
  destruct (decide (p ∈ r)); [by rewrite decide_True by set_solver |].
  destruct (decide (p = x)) as [-> | Hne].
  - by rewrite lookup_delete_eq, decide_True by set_solver.
  - by rewrite lookup_delete_ne, decide_False by set_solver.
Qed.

Lemma chain_length h xs : chain h xs -> NoDup xs -> (length xs <= base.size h)%nat.
Proof.
  intros Hc Hd. rewrite <- size_dom, <- (size_list_to_set (C := gset ptr) xs Hd).
  apply subseteq_size. intros p Hp. apply elem_of_list_to_set in Hp. clear Hd.
  apply elem_of_dom. induction xs as [|x r IH]; [by apply not_elem_of_nil in Hp |].
  apply elem_of_cons in Hp as [-> | Hp]; [exists (hd_error r); apply Hc | apply IH; [apply Hc | done]].
Qed.

(** A client's calls, and the queue they mean. *)
Inductive fifo_op := Push (s : ptr) | Pop.

Fixpoint run_fifo (h : heap) (f : stream_fifo) (ops : list fifo_op)
    : res (list (option ptr) * heap * stream_fifo) :=
  match ops with
  | [] => Ok ([], h, f)
  | Push s :: r => '(h1, f1) ← stream_fifo_push h f s; run_fifo h1 f1 r
  | Pop :: r => '(o, f1) ← stream_fifo_pop h f; '(os, h2, f2) ← run_fifo h f1 r; Ok (o :: os, h2, f2)
  end.

Fixpoint run_queue (xs : list ptr) (ops : list fifo_op) : list (option ptr) * list ptr :=
  match ops with
  | [] => ([], xs)
  | Push s :: r => run_queue (xs ++ [s]) r
  | Pop :: r => let '(os, ys) := run_queue (List.tl xs) r in (hd_error xs :: os, ys)
  end.

Fixpoint pushes (ops : list fifo_op) : list ptr :=
  match ops with [] => [] | Push s :: r => s :: pushes r | Pop :: r => pushes r end.

(** C33: The linked queue refines a first-in first-out list: for any sequence of pushes and pops in
    which each pushed stream is new to the queue and has a NULL [next], the pops return what the list
    returns (NULL on the empty queue), the links, the two end pointers and the count describe the
    list that is left, and [stream_fifo_clean] frees exactly those streams and empties the queue. *)
Theorem stream_fifo_refines_queue ops : forall h f xs,
  holds h f xs -> NoDup (xs ++ pushes ops) -> (forall s, s ∈ pushes ops -> h !! s = Some None) ->
  exists h' f', run_fifo h f ops = Ok (fst (run_queue xs ops), h', f') /\
    holds h' f' (snd (run_queue xs ops)) /\ stream_fifo_head f' = hd_error (snd (run_queue xs ops)) /\
    exists h'', stream_fifo_clean h' f' = Ok (h'', stream_fifo_new) /\
      forall p, h'' !! p = if decide (p ∈ snd (run_queue xs ops)) then None else h' !! p.
Proof.
  induction ops as [|[s|] ops IH]; intros h f xs Hh Hd Hn; cbn [run_fifo run_queue pushes] in *.
  - exists h, f. split_and!; [done | done | apply Hh |]. unfold stream_fifo_clean.
    destruct Hh as [Hc Hx Hhd _ _]. rewrite Hhd.
    destruct (clean_loop_frees (S (base.size h)) h xs Hc Hx) as (h' & -> & H).
    { apply le_n_S. by apply chain_length. }
    exists h'. split; [done | exact H].
  - apply list.NoDup_app in Hd as (Hd1 & Hd2 & Hd3). apply list.NoDup_cons in Hd3 as [Hs Hd3].
    destruct (push_holds h f xs s Hh) as (h1 & f1 & -> & Hh1 & Hk); [set_solver | apply Hn; set_solver |].
    cbn. apply IH; [done | |].
    + rewrite <- app_assoc. apply list.NoDup_app. split_and!; [done | set_solver |].
      by apply list.NoDup_cons.
    + intros p Hp. rewrite Hk by set_solver. apply Hn. set_solver.
  - destruct xs as [|x xs].
    + destruct Hh as [Hc Hx Hhd Htl Hcnt]. unfold stream_fifo_pop. rewrite Hhd. cbn.
      destruct (IH h f [] ltac:(by split) Hd Hn) as (h' & f' & -> & H).
      cbn in *. destruct (run_queue [] ops). exists h', f'. split; [done | exact H].
    + destruct (pop_holds h f x xs Hh) as (f1 & -> & Hh1). cbn [mbind res_bind].
      destruct (IH h f1 xs Hh1 ltac:(by apply list.NoDup_cons in Hd as [_ ?]) Hn) as (h' & f' & -> & H).
      cbn in *. destruct (run_queue xs ops). exists h', f'. split; [done | exact H].
Qed.

Definition ex_heap : heap := <[1%positive := None]> (<[2%positive := None]> (<[3%positive := None]> ∅)).

Lemma stream_fifo_refines_queue_witness :
  exists h' f', run_fifo ex_heap stream_fifo_new [Push 1; Push 2; Pop; Push 3; Pop; Pop; Pop]%positive =
    Ok ([Some 1; Some 2; Some 3; None]%positive, h', f').
Proof.
  destruct (stream_fifo_refines_queue [Push 1; Push 2; Pop; Push 3; Pop; Pop; Pop]%positive
              ex_heap stream_fifo_new []) as (h' & f' & E & _).
  - split; try done. apply NoDup_nil_2.
  - repeat constructor; set_solver.
  - cbn. intros s Hs. repeat (apply list.elem_of_cons in Hs as [-> | Hs]; [reflexivity |]). set_solver.
  - exists h', f'. exact E.
Defined.

(** A popped stream keeps its [next]: pushed again as it is, it makes the queue cyclic, so the NULL
    [next] asked for above is needed. *)
Lemma repush_is_cyclic h f x y xs h' f' f'' :
  holds h f (x :: y :: xs) -> stream_fifo_pop h f = Ok (Some x, f') ->
  stream_fifo_push h f' x = Ok (h', f'') -> h' !! x = Some (Some y) /\ head f'' = Some y.
Proof.
  intros Hh E1 E2. destruct (pop_holds h f x (y :: xs) Hh) as (f1 & E & Hh1).
  rewrite E in E1. injection E1 as <-. unfold stream_fifo_push in E2. destruct Hh1 as [_ _ Hhd Htl _].
  destruct Hh as [[Hx _] Hd _ _ _]. apply list.NoDup_cons in Hd as [Hd _].
  destruct (list.last (y :: xs)) as [t|] eqn:Et; [| by apply last_None in Et].
  rewrite Htl in E2. unfold set_next in E2. destruct (h !! t); [| done]. injection E2 as <- <-.
  split; [| done]. rewrite lookup_insert_ne; [done |]. intros ->. apply Hd.
  apply last_Some in Et as [l ->]. set_solver.
Qed.
