(* ===== verification/Aspath.v ===== *)
(** * bgpd/bgp_aspath.c: AS paths

    An AS path is a chain of segments; the chain is owned by its [struct aspath] and never shared, so it
    is a list here.  [as_] holds the [length] valid entries of a segment's array; [length] is an
    [u_short], so growing an array past 65535 entries keeps [length mod 65536] of them ([trunc16]).
    Reading [as[0]] of a segment without entries reads through a NULL array and is [Oob], and so is the
    use of a segment after [assegment_free].  The text form is in AspathText.v; the cached string [str]
    and the reference count are not part of the state. *)

From stdpp Require Import sorting.
From S2P Require Import Prelude Prefix Stream.
Local Open Scope Z_scope.

Definition AS_SET : Z := 1.
Definition AS_SEQUENCE : Z := 2.
Definition AS_CONFED_SEQUENCE : Z := 3.
Definition AS_CONFED_SET : Z := 4.

Definition BGP_PRIVATE_AS_MIN : Z := 64512.
Definition BGP_PRIVATE_AS_MAX : Z := 65535.
Definition BGP_AS_MAX : Z := 65535.
Definition BGP_AS_TRANS : Z := 23456.
Definition AS_SEGMENT_MAX : Z := 255.
Definition AS_HEADER_SIZE : Z := 2.

Record assegment := mk_seg { as_type : Z; as_ : list Z }.
Definition aspath := list assegment.

Definition seg_length (seg : assegment) : Z := Z.of_nat (length (as_ seg)).

Global Instance assegment_eq_dec : EqDecision assegment.
Proof. solve_decision. Defined.

(** What an [u_short length] of [u16 (length l)] leaves visible of the array [l]. *)
Definition trunc16 (l : list Z) : list Z := take (Z.to_nat (u16 (Z.of_nat (length l)))) l.

Definition ASSEGMENT_SIZE (n : Z) (use32bit : bool) : Z :=
  AS_HEADER_SIZE + n * (if use32bit then 4 else 2).
Definition ASSEGMENT_LEN (x : assegment) (use32bit : bool) : Z := ASSEGMENT_SIZE (seg_length x) use32bit.
Definition ASSEGMENT_TYPES_PACKABLE (x y : assegment) : bool :=
  (as_type x =? as_type y) && (as_type x =? AS_SEQUENCE).
Definition ASSEGMENTS_PACKABLE (x y : assegment) : bool :=
  ASSEGMENT_TYPES_PACKABLE x y && (seg_length x + seg_length y <=? AS_SEGMENT_MAX).

(** [seg->as[0]] *)
Definition as0 (seg : assegment) : res Z := match as_ seg with [] => Oob | a :: _ => Ok a end.

(** ** Segments *)

Definition assegment_new (type : Z) (length : nat) : assegment := mk_seg type (replicate length 0).
Definition assegment_dup (seg : assegment) : assegment := mk_seg (as_type seg) (as_ seg).
Definition assegment_dup_all (seg : list assegment) : list assegment := map assegment_dup seg.

Definition assegment_prepend_asns (seg : assegment) (asnum num : Z) : assegment :=
  if num =? 0 then seg
  else if num >=? AS_SEGMENT_MAX then seg
  else mk_seg (as_type seg) (trunc16 (replicate (Z.to_nat num) asnum ++ as_ seg)).

Definition assegment_append_asns (seg : assegment) (asnos : list Z) : assegment :=
  mk_seg (as_type seg) (trunc16 (as_ seg ++ asnos)).

Definition int_cmp (as1 as2 : Z) : Z := if as1 =? as2 then 0 else if as1 >? as2 then 1 else -1.

(** [qsort (..., int_cmp)] *)
Definition int_le (a b : Z) : Prop := int_cmp a b <= 0.
Global Instance int_le_dec a b : Decision (int_le a b).
Proof. unfold int_le. apply _. Defined.
Definition qsort (l : list Z) : list Z := merge_sort int_le l.

(** The "weed out dupes" loop: [last] is [seg->as[tail]], the entry kept last. *)
Fixpoint weed (last : Z) (l : list Z) : list Z :=
  match l with
  | [] => []
  | x :: r => if last =? x then weed last r else x :: weed x r
  end.
Definition weed_dupes (l : list Z) : list Z :=
  match l with [] => [] | x :: r => x :: weed x r end.

Definition is_set (type : Z) : bool := (type =? AS_SET) || (type =? AS_CONFED_SET).

(** The first half of the body of [assegment_normalise]'s loop. *)
Definition sort_set (seg : assegment) : assegment :=
  if is_set (as_type seg) then mk_seg (as_type seg) (weed_dupes (qsort (as_ seg))) else seg.

(** The loop of [assegment_normalise] with [pin] sorted already: absorb the packable segments behind
    [pin], then move on. *)
Fixpoint normalise_from (pin : assegment) (rest : list assegment) : list assegment :=
  match rest with
  | [] => [pin]
  | seg :: r =>
      if ASSEGMENT_TYPES_PACKABLE pin seg then normalise_from (assegment_append_asns pin (as_ seg)) r
      else pin :: normalise_from (sort_set seg) r
  end.
Definition assegment_normalise (head : list assegment) : list assegment :=
  match head with [] => [] | seg :: r => normalise_from (sort_set seg) r end.

(** ** Counting and searching *)

Fixpoint assegment_count_asns (seg : list assegment) (from : Z) : Z :=
  match seg with
  | [] => 0
  | s :: r => (if from =? 0 then seg_length s else seg_length s - from) + assegment_count_asns r 0
  end.

Fixpoint aspath_count_confeds (p : aspath) : Z :=
  match p with
  | [] => 0
  | s :: r => (if as_type s =? AS_CONFED_SEQUENCE then seg_length s
               else if as_type s =? AS_CONFED_SET then 1 else 0) + aspath_count_confeds r
  end.

Fixpoint aspath_count_hops (p : aspath) : Z :=
  match p with
  | [] => 0
  | s :: r => (if as_type s =? AS_SEQUENCE then seg_length s
               else if as_type s =? AS_SET then 1 else 0) + aspath_count_hops r
  end.

Fixpoint aspath_size (p : aspath) : Z :=
  match p with [] => 0 | s :: r => ASSEGMENT_SIZE (seg_length s) true + aspath_size r end.

Definition aspath_highest (p : aspath) : Z :=
  fold_left (fun highest s =>
    fold_left (fun highest a =>
      if (a >? highest) && ((a <? BGP_PRIVATE_AS_MIN) || (a >? BGP_PRIVATE_AS_MAX)) then a else highest)
      (as_ s) highest) p 0.

Definition aspath_has_as4 (p : aspath) : bool := existsb (fun s => existsb (fun a => a >? BGP_AS_MAX) (as_ s)) p.

Definition aspath_firstas_check (p : option aspath) (asno : Z) : res bool :=
  match p with
  | None | Some [] => Ok false
  | Some (s :: _) => if as_type s =? AS_SEQUENCE then a ← as0 s; Ok (a =? asno) else Ok false
  end.

(** How often [asno] occurs in an array. *)
Fixpoint count_as (asno : Z) (l : list Z) : Z :=
  match l with [] => 0 | a :: r => (if a =? asno then 1 else 0) + count_as asno r end.

Fixpoint loop_count (p : aspath) (asno : Z) : Z :=
  match p with [] => 0 | s :: r => count_as asno (as_ s) + loop_count r asno end.
Definition aspath_loop_check (p : option aspath) (asno : Z) : Z :=
  match p with None | Some [] => 0 | Some segs => loop_count segs asno end.

Definition aspath_private_as_check (p : option aspath) : bool :=
  match p with
  | None | Some [] => false
  | Some segs =>
      forallb (fun s => forallb (fun a => negb ((a <? BGP_PRIVATE_AS_MIN) || (a >? BGP_PRIVATE_AS_MAX))) (as_ s)) segs
  end.

Definition is_confed (type : Z) : bool := (type =? AS_CONFED_SET) || (type =? AS_CONFED_SEQUENCE).

Definition aspath_confed_check (p : option aspath) : bool :=
  match p with None | Some [] => false | Some segs => existsb (fun s => is_confed (as_type s)) segs end.

Definition aspath_left_confed_check (p : option aspath) : bool :=
  match p with None | Some [] => false | Some (s :: _) => is_confed (as_type s) end.

(** The "find first non-confed segment" loops. *)
Fixpoint skip_confed (p : aspath) : aspath :=
  match p with s :: r => if is_confed (as_type s) then skip_confed r else p | [] => [] end.

Definition aspath_cmp_left (p1 p2 : option aspath) : res bool :=
  match p1, p2 with
  | Some p1, Some p2 =>
      match skip_confed p1, skip_confed p2 with
      | s1 :: _, s2 :: _ =>
          if (as_type s1 =? AS_SEQUENCE) && (as_type s2 =? AS_SEQUENCE)
          then a1 ← as0 s1; a2 ← as0 s2; Ok (a1 =? a2) else Ok false
      | _, _ => Ok false
      end
  | _, _ => Ok false
  end.

Definition aspath_cmp_left_confed (p1 p2 : option aspath) : res bool :=
  match p1, p2 with
  | Some (s1 :: _), Some (s2 :: _) =>
      if negb (as_type s1 =? AS_CONFED_SEQUENCE) || negb (as_type s2 =? AS_CONFED_SEQUENCE) then Ok false
      else a1 ← as0 s1; a2 ← as0 s2; Ok (a1 =? a2)
  | _, _ => Ok false
  end.

(** The loop over [i] of [aspath_cmp], for arrays of one length. *)
Fixpoint as_same (l1 l2 : list Z) : bool :=
  match l1, l2 with a :: r1, b :: r2 => if negb (a =? b) then false else as_same r1 r2 | _, _ => true end.

Fixpoint aspath_cmp (p1 p2 : aspath) : bool :=
  match p1, p2 with
  | [], [] => true
  | s1 :: r1, s2 :: r2 =>
      if negb (as_type s1 =? as_type s2) then false
      else if negb (seg_length s1 =? seg_length s2) then false
      else if as_same (as_ s1) (as_ s2) then aspath_cmp r1 r2 else false
  | _, _ => false
  end.

(** ** Building and combining paths *)

Definition aspath_dup (p : aspath) : aspath := assegment_dup_all p.

(** [aspath_add_one_as]: the path's first segment may have no entries. *)
Definition aspath_add_one_as (p : aspath) (asno type : Z) : aspath :=
  match p with
  | [] => [mk_seg type [asno]]
  | seg :: r =>
      if seg_length seg =? 0 then [mk_seg type [asno]]
      else if as_type seg =? type then assegment_prepend_asns seg asno 1 :: r
      else mk_seg type [asno] :: seg :: r
  end.
Definition aspath_add_seq (p : aspath) (asno : Z) : aspath := aspath_add_one_as p asno AS_SEQUENCE.
Definition aspath_add_confed_seq (p : aspath) (asno : Z) : aspath :=
  aspath_add_one_as p asno AS_CONFED_SEQUENCE.

Definition aspath_delete_confed_seq (p : option aspath) : option aspath :=
  match p with
  | Some (s :: r) => if negb (as_type s =? AS_CONFED_SEQUENCE) then p else Some (skip_confed (s :: r))
  | _ => p
  end.

(** [aspath_merge]: with an empty [as1] the code writes through the NULL [last]. *)
Definition aspath_merge (as1 as2 : option aspath) : res (option aspath) :=
  match as1, as2 with
  | Some [], Some _ => Oob
  | Some p1, Some p2 => Ok (Some (assegment_dup_all p1 ++ p2))
  | _, _ => Ok None
  end.

(** [aspath_prepend].  [seg2] still points to the first segment of [as2] after
    [aspath_delete_confed_seq] freed it, and its type is read next. *)
Definition aspath_prepend (as1 as2 : option aspath) : res (option aspath) :=
  match as1, as2 with
  | Some p1, Some p2 =>
      match p2, list.last p1 with
      | [], _ => Ok (Some (assegment_dup_all p1))
      | _, None => Ok (Some p2)
      | seg2 :: r2, Some seg1 =>
          if (as_type seg1 =? AS_SEQUENCE) && (as_type seg2 =? AS_CONFED_SEQUENCE) then Oob
          else if negb (as_type seg1 =? as_type seg2) then aspath_merge as1 as2
          else if as_type seg1 =? AS_SEQUENCE then
            Ok (Some (removelast (assegment_dup_all p1) ++ assegment_append_asns (assegment_dup seg1) (as_ seg2) :: r2))
          else aspath_merge as1 as2
      end
  | _, _ => Ok None
  end.

(** [skip_as]: is the AS number in the exclusion list? *)
Definition skip_as (a : Z) (exclude_list : aspath) : bool :=
  existsb (fun e => existsb (fun y => a =? y) (as_ e)) exclude_list.

Fixpoint aspath_filter_exclude (source exclude_list : aspath) : aspath :=
  match source with
  | [] => []
  | srcseg :: r =>
      match List.filter (fun a => negb (skip_as a exclude_list)) (as_ srcseg) with
      | [] => aspath_filter_exclude r exclude_list
      | l => mk_seg (as_type srcseg) l :: aspath_filter_exclude r exclude_list
      end
  end.

(** *** Aggregation *)

(** The length of the common beginning of two arrays. *)
Fixpoint common_len (l1 l2 : list Z) : nat :=
  match l1, l2 with a :: r1, b :: r2 => if negb (a =? b) then 0 else S (common_len r1 r2) | _, _ => 0 end.

(** The "common leading sequence" loop: the segments built so far, the two positions and [match]. *)
Fixpoint aggregate_common (seg1 seg2 : aspath) (matched : nat) (acc : aspath)
    : aspath * aspath * aspath * nat :=
  match seg1, seg2 with
  | s1 :: r1, s2 :: r2 =>
      if negb (as_type s1 =? as_type s2) then (acc, seg1, seg2, matched)
      else
        let minlen := Nat.min (length (as_ s1)) (length (as_ s2)) in
        let matched := common_len (as_ s1) (as_ s2) in
        let acc := if (0 <? matched)%nat
                   then acc ++ [assegment_append_asns (assegment_new (as_type s1) 0) (take matched (as_ s1))]
                   else acc in
        if negb (matched =? minlen)%nat || negb (matched =? length (as_ s1))%nat
           || negb (length (as_ s1) =? length (as_ s2))%nat
        then (acc, seg1, seg2, matched)
        else aggregate_common r1 r2 matched acc
  | _, _ => (acc, seg1, seg2, matched)
  end.

(** [aspath_aggregate_as_set_add]: [asset] is the segment at the end of the path, once it exists.
    A set of 65535 entries cannot grow: [length] wraps to 0 and the store goes to [as[-1]]. *)
Definition aspath_aggregate_as_set_add (asset : option (list Z)) (as_no : Z) : res (option (list Z)) :=
  match asset with
  | None => Ok (Some [as_no])
  | Some l =>
      if existsb (fun a => a =? as_no) l then Ok asset
      else if Z.of_nat (length l) =? 65535 then Oob
      else Ok (Some (l ++ [as_no]))
  end.

Fixpoint as_set_add_all (asset : option (list Z)) (l : list Z) : res (option (list Z)) :=
  match l with [] => Ok asset | a :: r => asset ← aspath_aggregate_as_set_add asset a; as_set_add_all asset r end.

(** The "rest of all information" loops: [from] applies to the first segment. *)
Fixpoint aggregate_rest (asset : option (list Z)) (seg : aspath) (from : nat) : res (option (list Z)) :=
  match seg with
  | [] => Ok asset
  | s :: r => asset ← as_set_add_all asset (drop from (as_ s)); aggregate_rest asset r 0
  end.

Definition aspath_aggregate (as1 as2 : aspath) : res aspath :=
  let '(acc, seg1, seg2, matched) := aggregate_common as1 as2 0 [] in
  asset ← aggregate_rest None seg1 matched;
  asset ← aggregate_rest asset seg2 matched;
  Ok (assegment_normalise (acc ++ match asset with None => [] | Some l => [mk_seg AS_SET l] end)).

(** *** AS_PATH and AS4_PATH *)

(** One turn of the loop of [aspath_reconcile_as4]: the new [hops] and [cpasns]. *)
Definition reconcile_step (seg : assegment) (hops cpasns : Z) : Z * Z :=
  if is_set (as_type seg) then (hops - 1, seg_length seg)
  else if as_type seg =? AS_CONFED_SEQUENCE then
    let hops := if hops <? seg_length seg then seg_length seg else hops in
    (hops - seg_length seg, Z.min (seg_length seg) hops)
  else if as_type seg =? AS_SEQUENCE then (hops - seg_length seg, Z.min (seg_length seg) hops)
  else (hops, cpasns).

Fixpoint reconcile_loop (seg : aspath) (hops cpasns : Z) : res aspath :=
  match seg with
  | s :: r =>
      if hops >? 0 then
        let '(hops, cpasns) := reconcile_step s hops cpasns in
        _ ← c_assert (cpasns <=? seg_length s);
        rest ← reconcile_loop r hops cpasns;
        Ok (assegment_append_asns (assegment_new (as_type s) 0) (take (Z.to_nat cpasns) (as_ s)) :: rest)
      else Ok []
  | [] => Ok []
  end.

Definition aspath_reconcile_as4 (p : option aspath) (as4path : aspath) : res (option aspath) :=
  match p with
  | None => Ok None
  | Some p =>
      let hops := aspath_count_hops p + aspath_count_confeds p - aspath_count_hops as4path in
      let hops := if hops <? 0 then aspath_count_hops p else hops in
      if hops =? 0 then Ok (Some (aspath_dup as4path))
      else
        newpath ← reconcile_loop p hops 0;
        mergedpath ← aspath_merge (match newpath with [] => None | _ => Some newpath end)
                                  (Some (aspath_dup as4path));
        match mergedpath with
        | None => Oob
        | Some m => Ok (Some (assegment_normalise m))
        end
  end.

(** *** Appending, for the text parser *)

Fixpoint aspath_as_add (p : aspath) (asno : Z) : aspath :=
  match p with
  | [] => []
  | [seg] => [assegment_append_asns seg [asno]]
  | seg :: r => seg :: aspath_as_add r asno
  end.
Definition aspath_segment_add (p : aspath) (type : Z) : aspath := p ++ [assegment_new type 0].

(** ** The wire format *)

Definition get_as (s : stream) (use32bit : bool) : res (Z * stream) :=
  if use32bit then stream_getl s else stream_getw s.

Fixpoint get_asns (n : nat) (s : stream) (use32bit : bool) : res (list Z * stream) :=
  match n with
  | O => Ok ([], s)
  | S n' => '(a, s1) ← get_as s use32bit; '(l, s2) ← get_asns n' s1 use32bit; Ok (a :: l, s2)
  end.

Definition valid_type (type : Z) : bool :=
  (type =? AS_SEQUENCE) || (type =? AS_SET) || (type =? AS_CONFED_SEQUENCE) || (type =? AS_CONFED_SET).

(** The loop of [assegments_parse]: [None] is the result -1.  Each turn consumes four bytes or more, so
    [length] turns are enough. *)
Fixpoint parse_loop (fuel : nat) (s : stream) (bytes length : Z) (head : list assegment) (use32bit : bool)
    : res (option (list assegment) * stream) :=
  if bytes <? length then
    match fuel with
    | O => Oob
    | S fuel' =>
        if length - bytes <=? AS_HEADER_SIZE then Ok (None, s)
        else
          '(segh_type, s) ← stream_getc s;
          '(segh_length, s) ← stream_getc s;
          let seg_size := ASSEGMENT_SIZE segh_length use32bit in
          if (bytes + seg_size >? length) || (segh_length =? 0) then Ok (None, s)
          else if negb (valid_type segh_type) then Ok (None, s)
          else
            '(l, s) ← get_asns (Z.to_nat segh_length) s use32bit;
            parse_loop fuel' s (bytes + seg_size) length (head ++ [mk_seg segh_type l]) use32bit
    end
  else Ok (Some (assegment_normalise head), s).

Definition assegments_parse (s : stream) (length : Z) (use32bit : bool)
    : res (option (list assegment) * stream) :=
  if length =? 0 then Ok (Some [], s)
  else if (STREAM_READABLE s <? length) || (STREAM_READABLE s <? AS_HEADER_SIZE)
          || negb (length mod 2 =? 0)
  then Ok (None, s)
  else parse_loop (Z.to_nat length) s 0 length [] use32bit.

(** [aspath_parse], up to the interning of the result. *)
Definition aspath_parse (s : stream) (length : Z) (use32bit : bool) : res (option aspath * stream) :=
  if negb (length mod 2 =? 0) then Ok (None, s) else assegments_parse s length use32bit.

Fixpoint put_asns (s : stream) (l : list Z) (use32bit : bool) : res stream :=
  match l with
  | [] => Ok s
  | a :: r =>
      '(_, s) ← (if use32bit then stream_putl s a
                 else if a <=? BGP_AS_MAX then stream_putw s a else stream_putw s BGP_AS_TRANS);
      put_asns s r use32bit
  end.

(** [assegment_data_put (s, as, num)]: reading past the array is [Oob]. *)
Definition assegment_data_put (s : stream) (l : list Z) (num : Z) (use32bit : bool) : res stream :=
  _ ← c_assert (num <=? AS_SEGMENT_MAX);
  if Z.of_nat (length l) <? num then Oob else put_asns s (take (Z.to_nat num) l) use32bit.

Definition assegment_header_put (s : stream) (type length : Z) : res (Z * stream) :=
  _ ← c_assert (length <=? AS_SEGMENT_MAX);
  '(_, s) ← stream_putc s type;
  lenp ← stream_get_endp s;
  '(_, s) ← stream_putc s length;
  Ok (lenp, s).

(** The "overlength segments have to be split up" loop: stream, [written], [bytes]. *)
Fixpoint put_split (fuel : nat) (s : stream) (seg : assegment) (written bytes : Z) (use32bit : bool)
    : res (stream * Z * Z) :=
  if seg_length seg - written >? AS_SEGMENT_MAX then
    match fuel with
    | O => Oob
    | S fuel' =>
        '(_, s) ← assegment_header_put s (as_type seg) AS_SEGMENT_MAX;
        s ← assegment_data_put s (as_ seg) AS_SEGMENT_MAX use32bit;
        let written := written + AS_SEGMENT_MAX in
        put_split fuel' s seg written (bytes + ASSEGMENT_SIZE written use32bit) use32bit
    end
  else Ok (s, written, bytes).

(** The packing loop: stream, [asns_packed] and the segments left. *)
Fixpoint put_pack (s : stream) (seg : assegment) (written lenp packed : Z) (next : aspath) (use32bit : bool)
    : res (stream * Z * aspath) :=
  match next with
  | n :: r =>
      if ASSEGMENTS_PACKABLE seg n then
        s ← assegment_data_put s (as_ n) (seg_length n) use32bit;
        '(_, s) ← stream_putc_at s lenp (seg_length seg - written + seg_length n);
        put_pack s seg written lenp (packed + seg_length n) r use32bit
      else Ok (s, packed, next)
  | [] => Ok (s, packed, [])
  end.

(** The outer loop of [aspath_put]; every turn takes at least one segment. *)
Fixpoint put_loop (fuel : nat) (s : stream) (segs : aspath) (bytes : Z) (use32bit : bool) : res (Z * stream) :=
  match segs with
  | [] => Ok (bytes, s)
  | seg :: next =>
      if ASSEGMENT_LEN seg use32bit <=? STREAM_WRITEABLE s then
        match fuel with
        | O => Oob
        | S fuel' =>
            '(s, written, bytes) ← put_split (length (as_ seg)) s seg 0 bytes use32bit;
            '(lenp, s) ← assegment_header_put s (as_type seg) (seg_length seg - written);
            s ← assegment_data_put s (drop (Z.to_nat written) (as_ seg)) (seg_length seg - written) use32bit;
            '(s, packed, next) ← put_pack s seg written lenp 0 next use32bit;
            put_loop fuel' s next (bytes + ASSEGMENT_SIZE (seg_length seg - written + packed) use32bit) use32bit
        end
      else Ok (bytes, s)
  end.

Definition aspath_put (s : stream) (p : aspath) (use32bit : bool) : res (Z * stream) :=
  match p with
  | [] => Ok (0, s)
  | seg :: _ => if seg_length seg =? 0 then Ok (0, s) else put_loop (length p) s p 0 use32bit
  end.
