(* ===== verification/AspathNormal.v ===== *)
(** * bgpd/bgp_aspath.c: the normal form of AS paths

    [assegment_normalise] sorts sets, removes their duplicates and merges runs of AS_SEQUENCE segments.
    Here are the normal form, that the function computes it, that paths in normal form are fixed points,
    and that the quantities the rest of bgpd looks at (the hop counts, which AS numbers occur) do not
    change. *)

From stdpp Require Import sorting.
From S2P Require Import Prelude Prefix Stream Aspath.
Local Open Scope Z_scope.

(** No two AS_SEQUENCE segments in a row. *)
Fixpoint unpackable (p : aspath) : bool :=
  match p with
  | s :: ((n :: _) as r) => negb (ASSEGMENT_TYPES_PACKABLE s n) && unpackable r
  | _ => true
  end.

(** Sets are strictly ascending. *)
Definition set_sorted (s : assegment) : Prop := is_set (as_type s) = true -> StronglySorted Z.lt (as_ s).

(** A path in the form [assegment_normalise] leaves. *)
Definition normal (p : aspath) : Prop := unpackable p = true /\ Forall set_sorted p.


(** ** Sorting *)

Lemma int_le_le a b : int_le a b <-> a <= b.
Proof.
  unfold int_le, int_cmp. destruct (Z.eqb_spec a b); [lia |].
  rewrite Z.gtb_ltb. destruct (Z.ltb_spec b a); lia.
Qed.

Global Instance int_le_trans : Transitive int_le.
Proof. intros a b c. rewrite !int_le_le. lia. Qed.
Global Instance int_le_total : Total int_le.
Proof. intros a b. rewrite !int_le_le. lia. Qed.
Global Instance int_le_antisymm : AntiSymm (=) int_le.
Proof. intros a b. rewrite !int_le_le. lia. Qed.

Lemma qsort_perm l : qsort l ≡ₚ l.
Proof. apply merge_sort_Permutation. Qed.

Lemma qsort_sorted l : StronglySorted int_le (qsort l).
Proof. apply StronglySorted_merge_sort; apply _. Qed.

Lemma qsort_fixed l : StronglySorted int_le l -> qsort l = l.
Proof.
  intros H. apply (StronglySorted_unique int_le); [apply qsort_sorted | done | apply qsort_perm].
Qed.

Lemma weed_elem x l a : a ∈ weed x l \/ a = x <-> a ∈ l \/ a = x.
Proof.
  revert x. induction l as [|y l IH]; intros x; cbn; [done |].
  destruct (Z.eqb_spec x y) as [-> | Hne].
  - rewrite IH, list.elem_of_cons. tauto.
  - specialize (IH y). rewrite !list.elem_of_cons. tauto.
Qed.

Lemma weed_dupes_elem l a : a ∈ weed_dupes l <-> a ∈ l.
Proof.
  destruct l as [|x l]; [done |]. cbn. rewrite !list.elem_of_cons. pose proof (weed_elem x l a). tauto.
Qed.

Lemma weed_lt x l : StronglySorted int_le (x :: l) -> StronglySorted Z.lt (x :: weed x l).
Proof.
  revert x. induction l as [|y l IH]; intros x H; cbn; [repeat constructor |].
  inversion H as [|?? Hs Hx]; subst. inversion Hx as [|?? Hxy Hx']; subst. apply (proj1 (int_le_le _ _)) in Hxy.
  destruct (Z.eqb_spec x y) as [-> | Hne]; [by apply IH |].
  pose proof (IH y Hs) as Hy. constructor; [done |]. constructor; [lia |].
  inversion Hy as [|?? _ Hf]; subst. eapply list.Forall_impl; [exact Hf |]. intros z Hz. cbn in Hz. lia.
Qed.

Lemma weed_dupes_sorted l : StronglySorted int_le l -> StronglySorted Z.lt (weed_dupes l).
Proof. intros H. destruct l; [constructor |]. by apply weed_lt. Qed.

Lemma weed_fixed x l : StronglySorted Z.lt (x :: l) -> weed x l = l.
Proof.
  revert x. induction l as [|y l IH]; intros x H; cbn; [done |].
  inversion H as [|?? Hs Hx]; subst. inversion Hx; subst. rewrite (proj2 (Z.eqb_neq _ _)) by lia.
  by rewrite IH.
Qed.

Lemma sorted_lt_le l : StronglySorted Z.lt l -> StronglySorted int_le l.
Proof.
  induction 1 as [|x l _ IH H]; constructor; [done |]. eapply list.Forall_impl; [exact H |].
  intros y Hy. apply int_le_le. lia.
Qed.

Lemma sort_set_fixed s : set_sorted s -> sort_set s = s.
Proof.
  intros H. unfold sort_set, set_sorted in *. destruct (is_set (as_type s)); [| done].
  specialize (H eq_refl). rewrite (qsort_fixed _ (sorted_lt_le _ H)). destruct s as [t l]; cbn in *. f_equal.
  destruct l as [|x l]; [done |]. cbn. by rewrite weed_fixed.
Qed.

Lemma sort_set_sorted s : set_sorted (sort_set s).
Proof.
  unfold set_sorted, sort_set. destruct (is_set (as_type s)) eqn:E; cbn; [| congruence].
  intros _. apply weed_dupes_sorted, qsort_sorted.
Qed.

Lemma sort_set_type s : as_type (sort_set s) = as_type s.
Proof. unfold sort_set. by destruct (is_set _). Qed.

Lemma sort_set_elem s a : a ∈ as_ (sort_set s) <-> a ∈ as_ s.
Proof.
  unfold sort_set. destruct (is_set _); [| done]. cbn. by rewrite weed_dupes_elem, qsort_perm.
Qed.

(** ** The normal form *)

Lemma trunc16_small l : Z.of_nat (length l) < 65536 -> trunc16 l = l.
Proof. intros H. unfold trunc16. rewrite wrap_small by (unfold in_u; lia). apply take_ge. lia. Qed.

Lemma packable_seq x y :
  ASSEGMENT_TYPES_PACKABLE x y = true <-> as_type x = AS_SEQUENCE /\ as_type y = AS_SEQUENCE.
Proof. unfold ASSEGMENT_TYPES_PACKABLE. rewrite andb_true_iff, !Z.eqb_eq. intuition congruence. Qed.

Lemma packable_types x x' y y' :
  as_type x = as_type x' -> as_type y = as_type y' ->
  ASSEGMENT_TYPES_PACKABLE x y = ASSEGMENT_TYPES_PACKABLE x' y'.
Proof. intros H1 H2. unfold ASSEGMENT_TYPES_PACKABLE. by rewrite H1, H2. Qed.

Lemma set_sorted_seq s : as_type s = AS_SEQUENCE -> set_sorted s.
Proof. intros H. unfold set_sorted. rewrite H. done. Qed.

Lemma normalise_from_head pin rest :
  exists x r, normalise_from pin rest = x :: r /\ as_type x = as_type pin.
Proof.
  revert pin. induction rest as [|s rest IH]; intros pin; cbn; [by do 2 eexists |].
  destruct (ASSEGMENT_TYPES_PACKABLE pin s); [| by do 2 eexists].
  destruct (IH (assegment_append_asns pin (as_ s))) as (x & r & E & Ht). eauto.
Qed.

Lemma normalise_from_normal rest : forall pin, set_sorted pin -> normal (normalise_from pin rest).
Proof.
  induction rest as [|s rest IH]; intros pin Hp; cbn; [by repeat constructor |].
  destruct (ASSEGMENT_TYPES_PACKABLE pin s) eqn:E.
  - apply packable_seq in E as [Ht _]. apply IH. by apply set_sorted_seq.
  - destruct (IH (sort_set s) (sort_set_sorted s)) as [Hu Hs]. split; [| by constructor].
    destruct (normalise_from_head (sort_set s) rest) as (x & r & Ex & Ht). rewrite Ex in *.
    cbn in *. rewrite Hu, (packable_types pin pin x s) by (rewrite ?Ht, ?sort_set_type; done).
    by rewrite E.
Qed.

Lemma normalise_normal p : normal (assegment_normalise p).
Proof. destruct p; [by repeat constructor |]. apply normalise_from_normal, sort_set_sorted. Qed.

Lemma normal_cons s p : normal (s :: p) -> set_sorted s /\ normal p.
Proof.
  intros [Hu Hs]. inversion Hs; subst. split; [done |]. split; [| done].
  destruct p; [done |]. cbn in Hu. by apply andb_true_iff in Hu as [_ Hu].
Qed.

Lemma normalise_from_fixed p : forall s, normal (s :: p) -> normalise_from s p = s :: p.
Proof.
  induction p as [|n p IH]; intros s H; [done |]. cbn.
  destruct (normal_cons _ _ H) as [_ Hn]. destruct H as [Hu _]. cbn in Hu. apply andb_true_iff in Hu as [Hu _].
  apply negb_true_iff in Hu. rewrite Hu, sort_set_fixed by apply (normal_cons _ _ Hn). by rewrite IH.
Qed.

Lemma normalise_fixed p : normal p -> assegment_normalise p = p.
Proof.
  destruct p as [|s p]; [done |]. intros H. cbn. destruct (normal_cons _ _ H) as [Hs _].
  rewrite sort_set_fixed by done. by apply normalise_from_fixed.
Qed.

(** *** What normalising keeps *)

(** The AS number occurs in the path. *)
Definition mentions (p : aspath) (a : Z) : Prop := exists s, s ∈ p /\ a ∈ as_ s.

Lemma mentions_nil a : ~ mentions [] a.
Proof. intros (s & H & _). by apply list.not_elem_of_nil in H. Qed.

Lemma mentions_cons s p a : mentions (s :: p) a <-> a ∈ as_ s \/ mentions p a.
Proof.
  unfold mentions. setoid_rewrite list.elem_of_cons. split.
  - intros (x & [-> | Hx] & Ha); eauto.
  - intros [Ha | (x & Hx & Ha)]; eauto.
Qed.

Lemma mentions_app p q a : mentions (p ++ q) a <-> mentions p a \/ mentions q a.
Proof.
  induction p as [|s p IH]; cbn.
  - pose proof (mentions_nil a). tauto.
  - rewrite !mentions_cons, IH. tauto.
Qed.

Lemma count_as_pos a l : 0 < count_as a l <-> a ∈ l.
Proof.
  assert (forall l, 0 <= count_as a l) as Hnn
    by (intros k; induction k as [|x k IH]; cbn; [lia | destruct (x =? a); lia]).
  induction l as [|x l IH]; cbn.
  - split; [lia |]. intros H. by apply list.not_elem_of_nil in H.
  - rewrite list.elem_of_cons. pose proof (Hnn l). destruct (Z.eqb_spec x a) as [-> | Hne].
    + split; [tauto | lia].
    + rewrite <- IH. split; [right; lia |]. intros [-> | ?]; [done | lia].
Qed.

Lemma loop_count_nonneg p a : 0 <= loop_count p a.
Proof.
  assert (forall l, 0 <= count_as a l) as Hnn
    by (intros k; induction k as [|x k IH]; cbn; [lia | destruct (x =? a); lia]).
  induction p as [|s p IH]; cbn; [lia |]. pose proof (Hnn (as_ s)). lia.
Qed.

(** [aspath_loop_check] is positive exactly when the AS number occurs. *)
Lemma loop_check_mentions p a : 0 < aspath_loop_check (Some p) a <-> mentions p a.
Proof.
  assert (aspath_loop_check (Some p) a = loop_count p a) as -> by by destruct p.
  induction p as [|s p IH]; cbn.
  - split; [lia |]. intros H. by apply mentions_nil in H.
  - rewrite mentions_cons, <- count_as_pos, <- IH. pose proof (loop_count_nonneg p a).
    destruct (decide (0 < count_as a (as_ s))); [split; [tauto | lia] |]. 
    assert (0 <= count_as a (as_ s)) by (clear; induction (as_ s) as [|x k IH]; cbn; [lia | destruct (x =? a); lia]).
    split; [intros; right; lia | intros [? | ?]; lia].
Qed.

Lemma count_asns_nonneg p : 0 <= assegment_count_asns p 0.
Proof. induction p as [|s p IH]; cbn; [lia |]. unfold seg_length. lia. Qed.

Lemma append_small s l :
  seg_length s + Z.of_nat (length l) < 65536 -> assegment_append_asns s l = mk_seg (as_type s) (as_ s ++ l).
Proof. intros H. unfold assegment_append_asns. rewrite trunc16_small; [done |]. rewrite length_app. unfold seg_length in H. lia. Qed.

Lemma sort_set_length s : seg_length (sort_set s) <= seg_length s.
Proof.
  unfold seg_length, sort_set. destruct (is_set _); [| lia]. cbn.
  rewrite <- (Permutation_length (qsort_perm (as_ s))).
  assert (forall l x, (length (weed x l) <= length l)%nat) as Hw.
  { intros l. induction l as [|y l IH]; intros x; cbn; [done |].
    destruct (x =? y); cbn; [pose proof (IH x) | pose proof (IH y)]; lia. }
  destruct (qsort (as_ s)) as [|x l]; cbn; [lia |]. pose proof (Hw l x). lia.
Qed.

(** Normalising keeps the AS numbers and the two hop counts, as long as no array outgrows [u_short]. *)
Lemma normalise_from_keeps rest : forall pin,
  seg_length pin + assegment_count_asns rest 0 < 65536 ->
  (forall a, mentions (normalise_from pin rest) a <-> mentions (pin :: rest) a) /\
  aspath_count_hops (normalise_from pin rest) = aspath_count_hops (pin :: rest) /\
  aspath_count_confeds (normalise_from pin rest) = aspath_count_confeds (pin :: rest).
Proof.
  induction rest as [|s rest IH]; intros pin Hb; [done |]. cbn in Hb.
  pose proof (count_asns_nonneg rest). cbn [normalise_from].
  destruct (ASSEGMENT_TYPES_PACKABLE pin s) eqn:E.
  - unfold seg_length in Hb. rewrite append_small by (unfold seg_length; lia).
    destruct (IH (mk_seg (as_type pin) (as_ pin ++ as_ s))) as (IH1 & IH2 & IH3).
    { unfold seg_length. cbn. rewrite length_app. lia. }
    apply packable_seq in E as [E1 E2]. split_and!.
    + intros a. rewrite IH1, !mentions_cons. cbn. rewrite list.elem_of_app. tauto.
    + rewrite IH2. cbn. rewrite E1, E2. cbn. unfold seg_length. cbn. rewrite length_app. lia.
    + rewrite IH3. cbn. rewrite E1, E2. done.
  - pose proof (sort_set_length s). destruct (IH (sort_set s)) as (IH1 & IH2 & IH3).
    { unfold seg_length in *. lia. }
    split_and!.
    + intros a. rewrite mentions_cons, IH1, !mentions_cons, sort_set_elem. done.
    + cbn in IH2 |- *. rewrite IH2, sort_set_type. unfold sort_set, is_set, AS_SEQUENCE, AS_SET, AS_CONFED_SET.
      destruct (Z.eqb_spec (as_type s) 2) as [-> |]; done.
    + cbn in IH3 |- *. rewrite IH3, sort_set_type.
      unfold sort_set, is_set, AS_CONFED_SEQUENCE, AS_SET, AS_CONFED_SET.
      destruct (Z.eqb_spec (as_type s) 3) as [-> |]; done.
Qed.

Lemma normalise_keeps p :
  assegment_count_asns p 0 < 65536 ->
  (forall a, mentions (assegment_normalise p) a <-> mentions p a) /\
  aspath_count_hops (assegment_normalise p) = aspath_count_hops p /\
  aspath_count_confeds (assegment_normalise p) = aspath_count_confeds p.
Proof.
  destruct p as [|s p]; [done |]. intros Hb. cbn in Hb. cbn [assegment_normalise].
  pose proof (sort_set_length s). destruct (normalise_from_keeps p (sort_set s)) as (H1 & H2 & H3); [lia |].
  split_and!.
  - intros a. by rewrite H1, !mentions_cons, sort_set_elem.
  - rewrite H2. cbn. rewrite sort_set_type. unfold sort_set, is_set, AS_SEQUENCE, AS_SET, AS_CONFED_SET.
    destruct (Z.eqb_spec (as_type s) 2) as [-> |]; done.
  - rewrite H3. cbn. rewrite sort_set_type. unfold sort_set, is_set, AS_CONFED_SEQUENCE, AS_SET, AS_CONFED_SET.
    destruct (Z.eqb_spec (as_type s) 3) as [-> |]; done.
Qed.

(** [assegment_normalise] computes a canonical form: afterwards every set is strictly ascending and no
    AS_SEQUENCE follows another, and a path of that form is left as it is.  It changes no decision that
    depends on the path: the same AS numbers fail the loop check, and the hop counts of the path and of
    its confederation part stay the same (for paths of less than 65536 AS numbers, where no segment
    length wraps). *)
Theorem assegment_normalise_canonical p :
  assegment_count_asns p 0 < 65536 ->
  normal (assegment_normalise p) /\
  (normal p -> assegment_normalise p = p) /\
  assegment_normalise (assegment_normalise p) = assegment_normalise p /\
  (forall a, 0 < aspath_loop_check (Some (assegment_normalise p)) a <-> 0 < aspath_loop_check (Some p) a) /\
  aspath_count_hops (assegment_normalise p) = aspath_count_hops p /\
  aspath_count_confeds (assegment_normalise p) = aspath_count_confeds p.
Proof.
  intros Hb. destruct (normalise_keeps p Hb) as (H1 & H2 & H3).
  split_and!; [apply normalise_normal | apply normalise_fixed | apply normalise_fixed, normalise_normal | | done | done].
  intros a. rewrite !loop_check_mentions. apply H1.
Qed.

Lemma assegment_normalise_canonical_witness :
  assegment_normalise [mk_seg AS_SEQUENCE [1; 2]; mk_seg AS_SEQUENCE [3]; mk_seg AS_SET [9; 7; 9; 8]] =
    [mk_seg AS_SEQUENCE [1; 2; 3]; mk_seg AS_SET [7; 8; 9]] /\
  aspath_count_hops [mk_seg AS_SEQUENCE [1; 2]; mk_seg AS_SEQUENCE [3]; mk_seg AS_SET [9; 7; 9; 8]] = 4.
Proof.
  destruct (assegment_normalise_canonical
    [mk_seg AS_SEQUENCE [1; 2]; mk_seg AS_SEQUENCE [3]; mk_seg AS_SET [9; 7; 9; 8]])
    as (_ & _ & _ & _ & H & _).
  - z_eval.
  - split; [vm_compute; reflexivity | rewrite <- H; vm_compute; reflexivity].
Defined.
