(* ===== verification/AspathWire.v ===== *)
(** * bgpd/bgp_aspath.c: writing a path and reading it back

    [aspath_put] and [assegments_parse] against the streams of Stream.v: what is written, that reading it
    gives the path again, and where an over-long segment is not written faithfully. *)

From S2P Require Import Prelude Prefix Stream Aspath AspathNormal.
Local Open Scope Z_scope.

(** ** Paths that fit the wire *)

Definition as_width (use32bit : bool) : nat := if use32bit then 4 else 2.
Definition as_limit (use32bit : bool) : Z := if use32bit then 2 ^ 32 else 2 ^ 16.

(** A segment that fits the wire: up to 255 entries, or up to 510 in a sequence, which is written as two. *)
Definition seg_fits (use32bit : bool) (s : assegment) : Prop :=
  valid_type (as_type s) = true /\ Forall (fun a => 0 <= a < as_limit use32bit) (as_ s) /\
  0 < seg_length s /\ (seg_length s <= 255 \/ as_type s = AS_SEQUENCE /\ seg_length s <= 510).

Global Instance seg_fits_dec use32bit s : Decision (seg_fits use32bit s).
Proof. unfold seg_fits. apply _. Defined.

(** ** The bytes of a path *)

Definition as_bytes (use32bit : bool) (a : Z) : list Z :=
  be_bytes (as_width use32bit) (if use32bit then a else if a <=? BGP_AS_MAX then a else BGP_AS_TRANS).
Definition data_bytes (use32bit : bool) (l : list Z) : list Z := concat (map (as_bytes use32bit) l).
Definition chunk_bytes (use32bit : bool) (c : assegment) : list Z :=
  [as_type c; seg_length c] ++ data_bytes use32bit (as_ c).
(** A segment of more than 255 entries goes out as two. *)
Definition chunks (s : assegment) : list assegment :=
  if seg_length s <=? 255 then [s]
  else [mk_seg (as_type s) (take 255 (as_ s)); mk_seg (as_type s) (drop 255 (as_ s))].
Definition wire (use32bit : bool) (p : aspath) : list Z :=
  concat (map (chunk_bytes use32bit) (concat (map chunks p))).
Definition blen (l : list Z) : Z := Z.of_nat (length l).

Lemma blen_app l1 l2 : blen (l1 ++ l2) = blen l1 + blen l2.
Proof. unfold blen. rewrite length_app. lia. Qed.

Lemma blen_data b l : blen (data_bytes b l) = Z.of_nat (length l) * Z.of_nat (as_width b).
Proof.
  induction l as [|a l IH]; [done |].
  change (data_bytes b (a :: l)) with (as_bytes b a ++ data_bytes b l). rewrite blen_app, IH.
  unfold blen, as_bytes. rewrite length_be_bytes. cbn [length]. lia.
Qed.

Lemma blen_chunk b c : blen (chunk_bytes b c) = ASSEGMENT_SIZE (seg_length c) b.
Proof.
  unfold chunk_bytes. rewrite blen_app, blen_data. unfold ASSEGMENT_SIZE, AS_HEADER_SIZE, seg_length, as_width.
  change (blen [_; _]) with 2. destruct b; lia.
Qed.

Lemma data_bytes_ok b l : bytes_ok (data_bytes b l).
Proof.
  induction l as [|a l IH]; [constructor |].
  change (data_bytes b (a :: l)) with (as_bytes b a ++ data_bytes b l).
  apply bytes_ok_app. split; [apply be_bytes_ok | done].
Qed.

Lemma chunk_bytes_ok b c :
  byte_ok (as_type c) -> seg_length c <= 255 -> bytes_ok (chunk_bytes b c).
Proof.
  intros Ht Hl. apply bytes_ok_app. split; [| apply data_bytes_ok].
  repeat constructor; try apply Ht; unfold byte_ok, seg_length in *; lia.
Qed.

Lemma valid_type_byte t : valid_type t = true -> byte_ok t.
Proof. unfold valid_type, AS_SEQUENCE, AS_SET, AS_CONFED_SEQUENCE, AS_CONFED_SET, byte_ok. lia. Qed.

(** ** Writing *)

Lemma put_item_fits s w z :
  stream_wf s -> Z.of_nat (width_bytes w) <= room s ->
  put_item s w z = Ok (Z.of_nat (width_bytes w), pushed s (be_bytes (width_bytes w) z)).
Proof. intros WF H. rewrite put_item_spec, (proj2 (Z.ltb_ge _ _)) by done. done. Qed.

Lemma room_pushed s bs : room (pushed s bs) = room s - blen bs.
Proof. unfold room, blen. cbn. lia. Qed.

Lemma put_asns_spec b l : forall s,
  stream_wf s -> blen (data_bytes b l) <= room s -> put_asns s l b = Ok (pushed s (data_bytes b l)).
Proof.
  induction l as [|a l IH]; intros s WF Hr.
  - cbn. unfold pushed, data_bytes. cbn. rewrite Nat.add_0_r. unfold written. rewrite take_drop.
    destruct s as [g e z d]; cbn. do 2 f_equal. lia.
  - change (data_bytes b (a :: l)) with (as_bytes b a ++ data_bytes b l) in *.
    rewrite blen_app in Hr. pose proof (blen_data b l).
    assert (0 <= blen (data_bytes b l)) by (unfold blen; lia).
    assert (length (as_bytes b a) = as_width b) as Hl by apply length_be_bytes.
    assert (stream_wf (pushed s (as_bytes b a))) as WF'
      by (apply pushed_wf; [done | apply be_bytes_ok | unfold blen in Hr; lia]).
    rewrite <- (pushed_pushed s WF), <- IH by (rewrite ?room_pushed; done || lia).
    unfold blen in Hr. rewrite Hl in Hr. cbn [put_asns]. unfold as_bytes in *. destruct b; cbn [as_width] in Hr.
    + change (stream_putl s a) with (put_item s W32 a). by rewrite (put_item_fits s W32 a WF) by (cbn [width_bytes]; lia).
    + change (stream_putw s a) with (put_item s W16 a).
      change (stream_putw s BGP_AS_TRANS) with (put_item s W16 BGP_AS_TRANS).
      destruct (a <=? BGP_AS_MAX); by rewrite (put_item_fits s W16 _ WF) by (cbn [width_bytes]; lia).
Qed.

Lemma data_put_spec b l n s :
  stream_wf s -> n <= 255 -> n <= Z.of_nat (length l) ->
  blen (data_bytes b (take (Z.to_nat n) l)) <= room s ->
  assegment_data_put s l n b = Ok (pushed s (data_bytes b (take (Z.to_nat n) l))).
Proof.
  intros WF H1 H2 Hr. unfold assegment_data_put, AS_SEGMENT_MAX.
  rewrite (proj2 (Z.leb_le _ _)), (proj2 (Z.ltb_ge _ _)) by lia. cbn [c_assert mbind res_bind].
  by apply put_asns_spec.
Qed.

Lemma header_put_spec t n s :
  stream_wf s -> byte_ok t -> 0 <= n <= 255 -> 2 <= room s ->
  assegment_header_put s t n = Ok (endp s + 1, pushed s [t; n]).
Proof.
  intros WF Ht Hn Hr. unfold assegment_header_put, AS_SEGMENT_MAX. rewrite (proj2 (Z.leb_le _ _)) by lia.
  cbn [c_assert mbind res_bind].
  change (stream_putc s t) with (put_item s W8 t). rewrite (put_item_fits s W8 t WF) by (cbn [width_bytes]; lia).
  cbn [mbind res_bind].
  assert (forall z, byte_ok z -> be_bytes (width_bytes W8) z = [z]) as Hbe.
  { intros z Hz. cbn [width_bytes be_bytes]. by rewrite Z.shiftr_0_r, wrap_small by exact Hz. }
  rewrite Hbe by done.
  assert (stream_wf (pushed s [t])) as WF1
    by (apply pushed_wf; [done | by repeat constructor; apply Ht | cbn [length]; lia]).
  unfold stream_get_endp. rewrite (verify_sane_ok _ WF1). cbn -[pushed stream_putc].
  change (stream_putc (pushed s [t]) n) with (put_item (pushed s [t]) W8 n).
  rewrite (put_item_fits _ W8 n WF1) by (rewrite room_pushed; unfold blen; cbn [width_bytes length]; lia).
  cbn -[pushed put_item be_bytes]. rewrite Hbe by (unfold byte_ok; lia). by rewrite (pushed_pushed s WF).
Qed.

(** One turn of the splitting loop writes the first 255 entries of the array. *)
Lemma put_split_step b fuel s seg written bytes :
  stream_wf s -> byte_ok (as_type seg) -> 0 <= written -> 255 < seg_length seg - written ->
  ASSEGMENT_SIZE 255 b <= room s ->
  put_split (S fuel) s seg written bytes b =
  put_split fuel (pushed s (chunk_bytes b (mk_seg (as_type seg) (take 255 (as_ seg))))) seg
    (written + 255) (bytes + ASSEGMENT_SIZE (written + 255) b) b.
Proof.
  intros WF Ht Hw Hl Hr. cbn [put_split]. unfold AS_SEGMENT_MAX. rewrite (proj2 (Z.gtb_lt _ _)) by lia.
  assert (length (take 255 (as_ seg)) = 255%nat) as L by (rewrite length_take; unfold seg_length in Hl; lia).
  assert (blen (data_bytes b (take 255 (as_ seg))) = ASSEGMENT_SIZE 255 b - 2) as Hd
    by (rewrite blen_data, L; unfold ASSEGMENT_SIZE, AS_HEADER_SIZE, as_width; destruct b; lia).
  assert (0 <= ASSEGMENT_SIZE 255 b - 2) by (rewrite <- Hd; unfold blen; lia).
  rewrite header_put_spec by (done || lia). cbn [mbind res_bind].
  assert (stream_wf (pushed s [as_type seg; 255])) as WF1.
  { apply pushed_wf; [done | | cbn [length]; lia]. constructor; [done |]. repeat constructor; lia. }
  rewrite data_put_spec by
    (try done; try lia; try (unfold seg_length in Hl; lia); rewrite room_pushed; change (Z.to_nat 255) with 255%nat; rewrite Hd; unfold blen; cbn [length]; lia).
  cbn [mbind res_bind]. change (Z.to_nat 255) with 255%nat. rewrite (pushed_pushed s WF).
  unfold chunk_bytes, seg_length at 1. cbn [as_type as_]. rewrite L. done.
Qed.

Lemma put_split_stop b fuel s seg written bytes :
  seg_length seg - written <= 255 -> put_split fuel s seg written bytes b = Ok (s, written, bytes).
Proof.
  intros H. destruct fuel; cbn [put_split]; unfold AS_SEGMENT_MAX;
    by rewrite Z.gtb_ltb, (proj2 (Z.ltb_ge _ _)) by lia.
Qed.

(** The last chunk of a segment. *)
Lemma put_final b s seg w :
  stream_wf s -> byte_ok (as_type seg) -> 0 <= w -> 0 < seg_length seg - w <= 255 ->
  ASSEGMENT_SIZE (seg_length seg - w) b <= room s ->
  exists s1, assegment_header_put s (as_type seg) (seg_length seg - w) = Ok (endp s + 1, s1) /\
    assegment_data_put s1 (drop (Z.to_nat w) (as_ seg)) (seg_length seg - w) b =
    Ok (pushed s (chunk_bytes b (mk_seg (as_type seg) (drop (Z.to_nat w) (as_ seg))))).
Proof.
  intros WF Ht Hw Hl Hr. set (l := drop (Z.to_nat w) (as_ seg)).
  assert (Z.of_nat (length l) = seg_length seg - w) as L
    by (unfold l; rewrite length_drop; unfold seg_length in *; lia).
  assert (take (Z.to_nat (seg_length seg - w)) l = l) as Ht' by (apply take_ge; lia).
  assert (blen (data_bytes b l) = ASSEGMENT_SIZE (seg_length seg - w) b - 2) as Hd
    by (rewrite blen_data, L; unfold ASSEGMENT_SIZE, AS_HEADER_SIZE, as_width; destruct b; lia).
  assert (0 <= ASSEGMENT_SIZE (seg_length seg - w) b - 2) by (rewrite <- Hd; unfold blen; lia).
  exists (pushed s [as_type seg; seg_length seg - w]). split; [apply header_put_spec; done || lia |].
  assert (stream_wf (pushed s [as_type seg; seg_length seg - w])) as WF1.
  { apply pushed_wf; [done | | cbn [length]; lia]. constructor; [done |]. repeat constructor; lia. }
  rewrite data_put_spec by
    (try done; try lia; rewrite room_pushed, Ht', Hd; unfold blen; cbn [length]; lia).
  rewrite Ht', (pushed_pushed s WF). unfold chunk_bytes. cbn [as_type as_].
  replace (seg_length (mk_seg (as_type seg) l)) with (seg_length seg - w) by (unfold seg_length at 2; cbn; lia).
  done.
Qed.

Lemma put_pack_unpackable b s seg w lenp packed next :
  match next with n :: _ => ASSEGMENT_TYPES_PACKABLE seg n = false | [] => True end ->
  put_pack s seg w lenp packed next b = Ok (s, packed, next).
Proof. intros H. destruct next as [|n r]; [done |]. cbn. unfold ASSEGMENTS_PACKABLE. by rewrite H. Qed.

Definition seg_bytes (b : bool) (s : assegment) : list Z := concat (map (chunk_bytes b) (chunks s)).

Lemma wire_cons b s p : wire b (s :: p) = seg_bytes b s ++ wire b p.
Proof. unfold wire, seg_bytes. cbn. by rewrite map_app, concat_app. Qed.

Lemma seg_bytes_short b s : seg_length s <= 255 -> seg_bytes b s = chunk_bytes b s.
Proof.
  intros H. unfold seg_bytes, chunks. rewrite (proj2 (Z.leb_le _ _)) by lia. cbn [map concat].
  apply app_nil_r.
Qed.

Lemma seg_bytes_long b s : 255 < seg_length s ->
  seg_bytes b s = chunk_bytes b (mk_seg (as_type s) (take 255 (as_ s))) ++
                  chunk_bytes b (mk_seg (as_type s) (drop 255 (as_ s))).
Proof.
  intros H. unfold seg_bytes, chunks. rewrite (proj2 (Z.leb_gt _ _)) by lia. cbn [map concat].
  by rewrite app_nil_r.
Qed.

Lemma seg_fits_type b s : seg_fits b s -> byte_ok (as_type s).
Proof. intros [H _]. by apply valid_type_byte. Qed.

Lemma chunk_wf b s c :
  stream_wf s -> byte_ok (as_type c) -> seg_length c <= 255 -> blen (chunk_bytes b c) <= room s ->
  stream_wf (pushed s (chunk_bytes b c)).
Proof. intros WF Ht Hl Hr. apply pushed_wf; [done | by apply chunk_bytes_ok | done]. Qed.

(** A turn of the outer loop: a segment that fits goes out as [seg_bytes]. *)
Lemma put_loop_step b fuel s seg next bytes :
  stream_wf s -> seg_fits b seg -> unpackable (seg :: next) = true -> blen (seg_bytes b seg) <= room s ->
  stream_wf (pushed s (seg_bytes b seg)) /\
  put_loop (S fuel) s (seg :: next) bytes b =
  put_loop fuel (pushed s (seg_bytes b seg)) next (bytes + blen (seg_bytes b seg)) b.
Proof.
  intros WF Hf Hu Hr. pose proof (seg_fits_type b seg Hf) as Ht. destruct Hf as (_ & _ & Hpos & Hlen).
  assert (match next with n :: _ => ASSEGMENT_TYPES_PACKABLE seg n = false | [] => True end) as Hp.
  { destruct next; [done |]. cbn in Hu. apply andb_true_iff in Hu as [Hu _]. by apply negb_true_iff in Hu. }
  destruct (Z.leb_spec (seg_length seg) 255) as [Hs | Hs].
  - rewrite seg_bytes_short in * by done. split; [by apply chunk_wf |].
    rewrite blen_chunk in *. cbn [put_loop]. unfold ASSEGMENT_LEN. rewrite (writeable_eq s WF), (proj2 (Z.leb_le _ _)) by done.
    rewrite put_split_stop by lia. cbn [mbind res_bind].
    destruct (put_final b s seg 0) as (s1 & -> & E); rewrite ?Z.sub_0_r; try (done || lia).
    rewrite ?Z.sub_0_r in E. cbn [mbind res_bind]. rewrite E. cbn [mbind res_bind].
    rewrite put_pack_unpackable by done. cbn [mbind res_bind]. rewrite Z.add_0_r. by destruct seg.
  - assert (255 < seg_length seg <= 510) as Hl by lia. clear Hlen.
    rewrite seg_bytes_long in * by done. rewrite blen_app in *. rewrite <- (pushed_pushed s WF).
    set (c1 := mk_seg (as_type seg) (take 255 (as_ seg))) in *.
    set (c2 := mk_seg (as_type seg) (drop 255 (as_ seg))) in *.
    assert (seg_length c1 = 255) as L1 by (unfold c1, seg_length in *; cbn [as_]; rewrite length_take; lia).
    assert (seg_length c2 = seg_length seg - 255) as L2
      by (unfold c2, seg_length in *; cbn [as_]; rewrite length_drop; lia).
    rewrite !blen_chunk, L1, L2 in *.
    assert (0 <= ASSEGMENT_SIZE 255 b /\ 0 <= ASSEGMENT_SIZE (seg_length seg - 255) b /\
            ASSEGMENT_SIZE (seg_length seg) b <= ASSEGMENT_SIZE 255 b + ASSEGMENT_SIZE (seg_length seg - 255) b) as (? & ? & ?)
      by (unfold ASSEGMENT_SIZE, AS_HEADER_SIZE; destruct b; lia).
    assert (stream_wf (pushed s (chunk_bytes b c1))) as WF1
      by (apply chunk_wf; [done | done | lia | rewrite blen_chunk, L1; lia]).
    split; [apply chunk_wf; [done | done | lia |]; rewrite room_pushed, !blen_chunk, L1, L2; lia |].
    cbn [put_loop]. unfold ASSEGMENT_LEN. rewrite (writeable_eq s WF), (proj2 (Z.leb_le _ _)) by lia.
    destruct (length (as_ seg)) as [|n] eqn:En; [unfold seg_length in *; lia |].
    rewrite put_split_step, put_split_stop by (done || lia). cbn [mbind res_bind]. rewrite Z.add_0_l.
    fold c1. destruct (put_final b (pushed s (chunk_bytes b c1)) seg 255) as (s1 & -> & E); try (done || lia).
    { rewrite room_pushed, blen_chunk, L1. lia. }
    cbn [mbind res_bind]. rewrite E. cbn [mbind res_bind].
    rewrite put_pack_unpackable by done. cbn [mbind res_bind]. rewrite Z.add_0_r.
    f_equal. lia.
Qed.

Lemma put_loop_spec b p : forall fuel s bytes,
  (length p <= fuel)%nat -> stream_wf s -> Forall (seg_fits b) p -> unpackable p = true ->
  blen (wire b p) <= room s ->
  put_loop fuel s p bytes b = Ok (bytes + blen (wire b p), pushed s (wire b p)) /\
  stream_wf (pushed s (wire b p)).
Proof.
  induction p as [|seg p IH]; intros fuel s bytes Hfuel WF Hf Hu Hr.
  - assert (pushed s [] = s) as E.
    { unfold pushed, written. cbn. rewrite Nat.add_0_r, take_drop. destruct s; cbn. f_equal. lia. }
    change (wire b []) with (@nil Z). change (blen []) with 0. rewrite E, Z.add_0_r. by destruct fuel.
  - destruct fuel as [|fuel]; [cbn in Hfuel; lia |]. inversion Hf; subst.
    rewrite wire_cons, blen_app in *.
    assert (0 <= blen (wire b p)) by (unfold blen; lia).
    destruct (put_loop_step b fuel s seg p bytes) as [WF1 E]; [done | done | done | lia |].
    rewrite E, <- (pushed_pushed s WF), Z.add_assoc. apply IH; try done.
    + cbn in Hfuel. lia.
    + destruct p; [done |]. cbn in Hu. by apply andb_true_iff in Hu as [_ Hu].
    + rewrite room_pushed. lia.
Qed.

(** ** Reading *)

Lemma get_as_spec b a rest s :
  stream_wf s -> 0 <= a < as_limit b -> contents s = as_bytes b a ++ rest ->
  exists s', get_as s b = Ok (a, s') /\ stream_wf s' /\ contents s' = rest.
Proof.
  intros WF Ha Hc.
  assert (as_bytes b a = be_bytes (as_width b) a) as E.
  { unfold as_bytes, as_limit, BGP_AS_MAX in *. destruct b; [done |]. by rewrite (proj2 (Z.leb_le _ _)) by lia. }
  rewrite E in Hc.
  destruct (get_items_spec [(if b then W32 else W16, a)] s rest WF) as (s' & Hg & WF' & Hr).
  - constructor; [| done]. unfold as_limit, in_u in *. by destruct b.
  - rewrite Hc. unfold items_bytes. cbn -[be_bytes]. rewrite app_nil_r. by destruct b.
  - exists s'. cbn in Hg. unfold get_as. destruct b; cbn in Hg.
    + destruct (stream_getl s) as [[z s1]| |]; cbn in Hg; [| done | done]. by injection Hg as -> ->.
    + destruct (stream_getw s) as [[z s1]| |]; cbn in Hg; [| done | done]. by injection Hg as -> ->.
Qed.

Lemma get_asns_spec b l : forall s rest,
  stream_wf s -> Forall (fun a => 0 <= a < as_limit b) l -> contents s = data_bytes b l ++ rest ->
  exists s', get_asns (length l) s b = Ok (l, s') /\ stream_wf s' /\ contents s' = rest.
Proof.
  induction l as [|a l IH]; intros s rest WF Hl Hc; [by eexists |]. inversion Hl; subst.
  change (data_bytes b (a :: l)) with (as_bytes b a ++ data_bytes b l) in Hc. rewrite <- app_assoc in Hc.
  destruct (get_as_spec b a _ s WF ltac:(done) Hc) as (s1 & E & WF1 & Hc1).
  destruct (IH s1 rest WF1 ltac:(done) Hc1) as (s2 & E2 & WF2 & Hc2).
  exists s2. cbn [length get_asns]. rewrite E. cbn [mbind res_bind]. by rewrite E2.
Qed.

Lemma getc_spec s z rest :
  stream_wf s -> byte_ok z -> contents s = z :: rest ->
  exists s', stream_getc s = Ok (z, s') /\ stream_wf s' /\ contents s' = rest.
Proof.
  intros WF Hz Hc. destruct (get_items_spec [(W8, z)] s rest WF) as (s' & Hg & WF' & Hr).
  - constructor; [exact Hz | done].
  - rewrite Hc. unfold items_bytes. cbn. by rewrite Z.shiftr_0_r, wrap_small by exact Hz.
  - exists s'. cbn in Hg. destruct (stream_getc s) as [[y s1]| |]; cbn in Hg; [| done | done].
    by injection Hg as -> ->.
Qed.

(** A chunk as it may appear on the wire. *)
Definition chunk_ok (b : bool) (c : assegment) : Prop :=
  valid_type (as_type c) = true /\ Forall (fun a => 0 <= a < as_limit b) (as_ c) /\ 0 < seg_length c <= 255.

Lemma parse_loop_spec b cs : forall fuel s bytes len head rest,
  stream_wf s -> Forall (chunk_ok b) cs ->
  contents s = concat (map (chunk_bytes b) cs) ++ rest ->
  len = bytes + blen (concat (map (chunk_bytes b) cs)) -> (length cs <= fuel)%nat ->
  exists s', parse_loop fuel s bytes len head b = Ok (Some (assegment_normalise (head ++ cs)), s') /\
    stream_wf s' /\ contents s' = rest.
Proof.
  induction cs as [|c cs IH]; intros fuel s bytes len head rest WF Hcs Hc Hlen Hfuel.
  - exists s. rewrite app_nil_r. change (blen (concat (map (chunk_bytes b) []))) with 0 in Hlen.
    destruct fuel; cbn [parse_loop]; rewrite (proj2 (Z.ltb_ge _ _)) by lia; done.
  - destruct fuel as [|fuel]; [cbn in Hfuel; lia |]. inversion Hcs as [|?? (Hv & Ha & Hl) Hcs']; subst.
    cbn [map concat] in *. rewrite blen_app, blen_chunk in *.
    assert (0 <= blen (concat (map (chunk_bytes b) cs))) by (unfold blen; lia).
    assert (AS_HEADER_SIZE < ASSEGMENT_SIZE (seg_length c) b) by
      (unfold ASSEGMENT_SIZE, AS_HEADER_SIZE; destruct b; lia).
    unfold chunk_bytes in Hc at 1. rewrite <- !app_assoc in Hc. cbn [app] in Hc.
    destruct (getc_spec s _ _ WF (valid_type_byte _ Hv) Hc) as (s1 & E1 & WF1 & Hc1).
    destruct (getc_spec s1 (seg_length c) _ WF1 ltac:(unfold byte_ok; lia) Hc1) as (s2 & E2 & WF2 & Hc2).
    destruct (get_asns_spec b (as_ c) s2 _ WF2 Ha Hc2) as (s3 & E3 & WF3 & Hc3).
    cbn [parse_loop]. unfold AS_HEADER_SIZE in *. rewrite (proj2 (Z.ltb_lt _ _)), (proj2 (Z.leb_gt _ _)) by lia.
    rewrite E1. cbn [mbind res_bind]. rewrite E2. cbn [mbind res_bind].
    rewrite Z.gtb_ltb, (proj2 (Z.ltb_ge _ _)), (proj2 (Z.eqb_neq _ _)), Hv by lia. cbn [orb negb].
    replace (Z.to_nat (seg_length c)) with (length (as_ c)) by (unfold seg_length; lia).
    rewrite E3. cbn [mbind res_bind].
    destruct (IH fuel s3 (bytes + ASSEGMENT_SIZE (seg_length c) b)
                (bytes + (ASSEGMENT_SIZE (seg_length c) b + blen (concat (map (chunk_bytes b) cs))))
                (head ++ [mk_seg (as_type c) (as_ c)]) rest) as (s' & E & WF' & Hr);
      [done | done | done | lia | cbn in Hfuel; lia |].
    exists s'. rewrite E. rewrite <- app_assoc. by destruct c.
Qed.

(** ** Round trip *)

Lemma chunks_head s : exists c r, chunks s = c :: r /\ as_type c = as_type s.
Proof. unfold chunks. destruct (_ <=? _); by do 2 eexists. Qed.

Lemma normalise_from_chunks b p : forall s,
  normal (s :: p) -> Forall (seg_fits b) p -> normalise_from s (concat (map chunks p)) = s :: p.
Proof.
  induction p as [|n p IH]; intros s Hn Hf; [done |]. inversion Hf as [|?? (Hv & _ & Hpos & Hlen) Hf']; subst.
  destruct (normal_cons _ _ Hn) as [_ Hn']. destruct (normal_cons _ _ Hn') as [Hsn _].
  destruct Hn as [Hu _]. cbn in Hu. apply andb_true_iff in Hu as [Hu _]. apply negb_true_iff in Hu.
  cbn [map concat]. unfold chunks at 1. destruct (Z.leb_spec (seg_length n) 255) as [Hs | Hs].
  - cbn. by rewrite Hu, sort_set_fixed, IH.
  - destruct Hlen as [Hlen | [Ht Hlen]]; [lia |]. cbn.
    rewrite (packable_types s s _ n), Hu by done.
    rewrite sort_set_fixed by by apply set_sorted_seq.
    rewrite (proj2 (packable_seq _ _)) by done.
    rewrite append_small; cbn.
    + rewrite firstn_skipn. destruct n as [t l]; cbn in *. by rewrite IH.
    + unfold seg_length in *. cbn. rewrite length_take, length_drop. lia.
Qed.

Lemma normalise_chunks b p :
  normal p -> Forall (seg_fits b) p -> assegment_normalise (concat (map chunks p)) = p.
Proof.
  intros Hn Hf. pose proof (normalise_from_chunks b p (mk_seg 0 [])) as H.
  destruct p as [|s p]; [done |]. destruct (chunks_head s) as (c & r & E & Ht).
  cbn [map concat] in *. rewrite E in *. cbn [app normalise_from assegment_normalise] in H |- *.
  assert (forall x, ASSEGMENT_TYPES_PACKABLE (mk_seg 0 []) x = false) as Hp
    by (intros x; apply andb_false_r).
  assert (normal (mk_seg 0 [] :: s :: p)) as Hn0.
  { destruct Hn as [Hu Hs]. split; [| constructor; [done | done]].
    change (negb (ASSEGMENT_TYPES_PACKABLE (mk_seg 0 []) s) && unpackable (s :: p) = true). by rewrite Hp, Hu. }
  specialize (H Hn0 Hf). rewrite Hp in H. congruence.
Qed.

Lemma chunks_ok b p : Forall (seg_fits b) p -> Forall (chunk_ok b) (concat (map chunks p)).
Proof.
  induction 1 as [|s p (Hv & Ha & Hpos & Hlen) _ IH]; [constructor |]. cbn [map concat].
  apply Forall_app. split; [| done]. unfold chunks. destruct (Z.leb_spec (seg_length s) 255).
  - by repeat constructor.
  - assert (seg_length s <= 510) as Hl by (destruct Hlen as [? | [_ ?]]; lia). unfold seg_length in *.
    repeat constructor; cbn; try done; try (by apply Forall_take); try (by apply Forall_drop);
      unfold seg_length; cbn; rewrite ?length_take, ?length_drop; lia.
Qed.

Lemma blen_wire_even b p : blen (wire b p) mod 2 = 0.
Proof.
  unfold wire. induction (concat (map chunks p)) as [|c cs IH]; [done |]. cbn [map concat].
  rewrite blen_app, blen_chunk. unfold ASSEGMENT_SIZE, AS_HEADER_SIZE.
  apply Z.mod_divide in IH as [k ->]; [| done]. apply Z.mod_divide; [done |].
  exists (1 + seg_length c * (if b then 2 else 1) + k). destruct b; lia.
Qed.

Lemma length_chunks_wire b p :
  (length (concat (map chunks p)) <= length (wire b p))%nat.
Proof.
  unfold wire. induction (concat (map chunks p)) as [|c cs IH]; [done |]. cbn [map concat].
  rewrite length_app. cbn. lia.
Qed.

(** C7: the wire format is lossless on paths that fit it: a normalised path whose segments have between 1 and 255 entries (or, in an
    AS_SEQUENCE, up to 510, which go out as two segments and are merged again on the way in) and AS numbers that fit the width (four bytes,
    or two bytes without AS_TRANS substitution) is written by [aspath_put] when the stream has room for it, the value returned is the number
    of bytes written, and [aspath_parse] reads exactly these bytes back as the same path. Longer segments and four-byte numbers in two-byte
    mode are outside: the first are written wrongly, the second become AS_TRANS. *)
Theorem aspath_wire_roundtrip b s p :
  stream_wf s -> contents s = [] -> normal p -> Forall (seg_fits b) p -> blen (wire b p) <= room s ->
  exists s1 s2, aspath_put s p b = Ok (blen (wire b p), s1) /\ contents s1 = wire b p /\
    aspath_parse s1 (blen (wire b p)) b = Ok (Some p, s2) /\ stream_wf s2 /\ contents s2 = [].
Proof.
  intros WF Hc Hn Hf Hr. destruct (decide (p = [])) as [-> | Hne].
  { exists s, s. done. }
  destruct (put_loop_spec b p (length p) s 0 ltac:(done) WF Hf (proj1 Hn) Hr) as [E WF1].
  assert (contents (pushed s (wire b p)) = wire b p) as Hc1 by (by rewrite (contents_pushed s WF), Hc).
  destruct (parse_loop_spec b (concat (map chunks p)) (Z.to_nat (blen (wire b p))) (pushed s (wire b p))
    0 (blen (wire b p)) [] []) as (s2 & E2 & WF2 & Hc2);
    [done | by apply chunks_ok | by rewrite app_nil_r | done
    | unfold blen; rewrite Nat2Z.id; apply length_chunks_wire |].
  exists (pushed s (wire b p)), s2. split_and!; [| done | | done | done].
  - rewrite Z.add_0_l in E. rewrite <- E. destruct p as [|seg p]; [done |]. inversion Hf as [|?? (_ & _ & Hp & _) _]; subst.
    unfold aspath_put. by rewrite (proj2 (Z.eqb_neq _ _)) by lia.
  - assert (2 < blen (wire b p)) as H2.
    { destruct p as [|seg p]; [done |]. inversion Hf as [|?? (_ & _ & Hp & _) _]; subst.
      rewrite wire_cons, blen_app. assert (0 <= blen (wire b p)) by (unfold blen; lia).
      destruct (Z.leb_spec (seg_length seg) 255).
      - rewrite seg_bytes_short, blen_chunk by done. unfold ASSEGMENT_SIZE, AS_HEADER_SIZE. destruct b; lia.
      - rewrite seg_bytes_long, blen_app, blen_chunk by done. unfold seg_length in *. cbn.
        rewrite length_take. unfold blen, ASSEGMENT_SIZE, AS_HEADER_SIZE. destruct b; lia. }
    unfold aspath_parse, assegments_parse, AS_HEADER_SIZE. rewrite blen_wire_even. cbn [negb Z.eqb].
    pose proof (length_contents _ WF1) as Hl. rewrite Hc1 in Hl.
    rewrite (proj2 (Z.eqb_neq (blen _) 0)), (readable_eq _ WF1), <- Hl by lia.
    unfold blen in *. rewrite !(proj2 (Z.ltb_ge _ _)) by lia. cbn [orb]. rewrite E2.
    cbn [app]. by rewrite (normalise_chunks b).
Qed.

Lemma aspath_wire_roundtrip_witness :
  exists s1 s2,
    aspath_put (ex_stream 64) [mk_seg AS_SEQUENCE [65001; 4200000000]; mk_seg AS_SET [1; 2; 3]] true = Ok (24, s1) /\
    aspath_parse s1 24 true = Ok (Some [mk_seg AS_SEQUENCE [65001; 4200000000]; mk_seg AS_SET [1; 2; 3]], s2).
Proof.
  destruct (aspath_wire_roundtrip true (ex_stream 64)
    [mk_seg AS_SEQUENCE [65001; 4200000000]; mk_seg AS_SET [1; 2; 3]]) as (s1 & s2 & H1 & _ & H2 & _).
  - by apply ex_stream_wf.
  - reflexivity.
  - split; [reflexivity |]. constructor; [done |]. constructor; [| done]. intros _. repeat constructor; lia.
  - apply (bool_decide_unpack _). vm_compute. exact I.
  - z_eval.
  - exists s1, s2. split; [exact H1 | exact H2].
Defined.

(** ** Over-long segments *)

(** A sequence of 511 to 765 AS numbers is not written faithfully: the second chunk repeats the first
    255 entries instead of the next 255, so entries 256 to 510 never leave the router and the peer
    reads a different path, and the returned size exceeds the bytes written by 255 entries. *)
Theorem aspath_put_overlong s l b :
  stream_wf s -> 510 < Z.of_nat (length l) <= 765 ->
  ASSEGMENT_SIZE (Z.of_nat (length l)) b + 4 <= room s ->
  let c1 := mk_seg AS_SEQUENCE (take 255 l) in
  let c3 := mk_seg AS_SEQUENCE (drop 510 l) in
  let out := chunk_bytes b c1 ++ chunk_bytes b c1 ++ chunk_bytes b c3 in
  exists bytes, aspath_put s [mk_seg AS_SEQUENCE l] b = Ok (bytes, pushed s out) /\
    bytes = blen out + 255 * Z.of_nat (as_width b).
Proof.
  intros WF Hl Hr c1 c3 out. set (seg := mk_seg AS_SEQUENCE l).
  assert (seg_length seg = Z.of_nat (length l)) as Ls by done.
  assert (seg_length c1 = 255) as L1 by (unfold seg_length; cbn; rewrite length_take; lia).
  assert (seg_length c3 = seg_length seg - 510) as L3 by (unfold seg_length; cbn; rewrite length_drop; lia).
  assert (byte_ok AS_SEQUENCE) as Ht by z_eval.
  assert (forall n, ASSEGMENT_SIZE n b = 2 + n * Z.of_nat (as_width b)) as Hsz
    by (intros n; unfold ASSEGMENT_SIZE, AS_HEADER_SIZE, as_width; destruct b; lia).
  assert (2 <= Z.of_nat (as_width b)) as Hw by (unfold as_width; destruct b; lia).
  rewrite Hsz in Hr.
  assert (stream_wf (pushed s (chunk_bytes b c1))) as WF1
    by (apply chunk_wf; [done | done | lia | rewrite blen_chunk, L1, Hsz; nia]).
  assert (stream_wf (pushed (pushed s (chunk_bytes b c1)) (chunk_bytes b c1))) as WF2
    by (apply chunk_wf; [done | done | lia | rewrite room_pushed, blen_chunk, L1, Hsz; nia]).
  eexists. split.
  - unfold aspath_put. rewrite (proj2 (Z.eqb_neq _ _)) by lia.
    cbn [length put_loop]. unfold ASSEGMENT_LEN. rewrite (writeable_eq s WF), (proj2 (Z.leb_le _ _)) by (rewrite Hsz, Ls; nia).
    destruct (length (as_ seg)) as [|[|n]] eqn:En; [cbn in En; lia | cbn in En; lia |].
    rewrite put_split_step by (try done; try lia; rewrite Hsz; nia). fold seg.
    change (mk_seg (as_type seg) (take 255 (as_ seg))) with c1.
    rewrite put_split_step, put_split_stop by (try done; try lia; rewrite room_pushed, blen_chunk, L1, !Hsz; nia).
    change (mk_seg (as_type seg) (take 255 (as_ seg))) with c1. cbn [mbind res_bind].
    destruct (put_final b (pushed (pushed s (chunk_bytes b c1)) (chunk_bytes b c1)) seg (0 + 255 + 255))
      as (s1 & -> & E); try (done || lia).
    { rewrite !room_pushed, !blen_chunk, L1, !Hsz. nia. }
    cbn [mbind res_bind]. rewrite E. cbn [mbind res_bind put_pack put_loop].
    change (mk_seg (as_type seg) (drop (Z.to_nat (0 + 255 + 255)) (as_ seg))) with c3.
    rewrite (pushed_pushed _ WF1), (pushed_pushed s WF). reflexivity.
  - unfold out. rewrite !blen_app, !blen_chunk, L1, L3, !Hsz. lia.
Qed.

Lemma aspath_put_overlong_witness :
  exists bytes s1, aspath_put (ex_stream 4096) [mk_seg AS_SEQUENCE (map Z.of_nat (seq 1 511))] false = Ok (bytes, s1) /\
    get_item_from s1 W16 2 = Ok 1 /\ get_item_from s1 W16 514 = Ok 1 /\ bytes = endp s1 + 510.
Proof.
  destruct (aspath_put_overlong (ex_stream 4096) (map Z.of_nat (seq 1 511)) false) as (bytes & E & Hb).
  - by apply ex_stream_wf.
  - z_eval.
  - z_eval.
  - exists bytes, (pushed (ex_stream 4096)
      (chunk_bytes false (mk_seg AS_SEQUENCE (take 255 (map Z.of_nat (seq 1 511)))) ++
       chunk_bytes false (mk_seg AS_SEQUENCE (take 255 (map Z.of_nat (seq 1 511)))) ++
       chunk_bytes false (mk_seg AS_SEQUENCE (drop 510 (map Z.of_nat (seq 1 511)))))).
    split; [exact E |]. rewrite Hb. split; [| split]; vm_compute; reflexivity.
Defined.
