(* ===== verification/AspathOps.v ===== *)
(** * bgpd/bgp_aspath.c: combining AS paths

    What prepending, aggregating, filtering and reconciling do to a path, in the terms that matter for
    BGP: which AS numbers the result mentions (the loop check looks for them) and how many hops it
    counts (the decision process compares them). *)

From S2P Require Import Prelude Prefix Stream Aspath AspathNormal.
Local Open Scope Z_scope.

Definition asns (p : aspath) : Z := assegment_count_asns p 0.
Arguments asns : simpl never.

Lemma asns_cons s p : asns (s :: p) = seg_length s + asns p.
Proof. done. Qed.

Lemma asns_app p q : asns (p ++ q) = asns p + asns q.
Proof. induction p as [|s p IH]; [done |]. cbn [app]. rewrite !asns_cons, IH. lia. Qed.

Lemma hops_app p q : aspath_count_hops (p ++ q) = aspath_count_hops p + aspath_count_hops q.
Proof. induction p as [|s p IH]; cbn; [done |]. rewrite IH. lia. Qed.

Lemma confeds_app p q : aspath_count_confeds (p ++ q) = aspath_count_confeds p + aspath_count_confeds q.
Proof. induction p as [|s p IH]; cbn; [done |]. rewrite IH. lia. Qed.

Lemma dup_all_id p : assegment_dup_all p = p.
Proof. unfold assegment_dup_all. rewrite <- (map_id p) at 2. apply map_ext. by intros []. Qed.

Lemma asns_nonneg p : 0 <= asns p.
Proof. apply count_asns_nonneg. Qed.

(** Appending to an empty segment copies the array. *)
Lemma append_new t l :
  Z.of_nat (length l) < 65536 -> assegment_append_asns (assegment_new t 0) l = mk_seg t l.
Proof. intros H. rewrite append_small; [done |]. change (seg_length (assegment_new t 0)) with 0. lia. Qed.

(** [aspath_cmp] decides equality of paths. *)
Lemma aspath_cmp_eq p q : aspath_cmp p q = true <-> p = q.
Proof.
  assert (forall l1 l2, length l1 = length l2 -> as_same l1 l2 = true <-> l1 = l2) as Hs.
  { induction l1 as [|a l1 IH]; intros [|b l2] Hl; try done. cbn in *.
    destruct (Z.eqb_spec a b) as [-> | Hne]; cbn; [| naive_solver].
    rewrite IH by lia. naive_solver. }
  revert q. induction p as [|[t1 l1] p IH]; intros [|[t2 l2] q]; try done. cbn -[Z.eqb].
  destruct (Z.eqb_spec t1 t2) as [-> |]; cbn -[Z.eqb]; [| naive_solver].
  unfold seg_length. cbn [as_]. destruct (Z.eqb_spec (Z.of_nat (length l1)) (Z.of_nat (length l2))) as [Hl |]; cbn.
  - specialize (Hs l1 l2 ltac:(lia)). destruct (as_same l1 l2).
    + rewrite IH. naive_solver.
    + split; [done |]. intros [= -> ->]. by apply Hs.
  - split; [done |]. intros [= -> ->]. done.
Qed.

(** ** Prepending *)

Lemma last_split (p : aspath) s : list.last p = Some s -> p = removelast p ++ [s].
Proof. intros H. apply last_Some in H as [l ->]. by rewrite removelast_last. Qed.

(** Joining two chains whose ends are not packable. *)
Lemma unpackable_join p s q :
  unpackable (p ++ [s]) = true -> unpackable (s :: q) = true -> unpackable (p ++ s :: q) = true.
Proof.
  induction p as [|x p IH]; intros Hp Hq; [done |]. destruct p as [|y p]; cbn in *.
  - apply andb_true_iff in Hp as [-> _]. exact Hq.
  - apply andb_true_iff in Hp as [-> Hp]. cbn. by apply IH.
Qed.

Lemma unpackable_snoc_type p s s' :
  as_type s = as_type s' -> unpackable (p ++ [s]) = true -> unpackable (p ++ [s']) = true.
Proof.
  intros Ht. induction p as [|x p IH]; [done |]. destruct p as [|y p]; cbn in *.
  - by rewrite (packable_types x x s' s).
  - intros H. apply andb_true_iff in H as [-> H]. by apply IH.
Qed.

Lemma unpackable_cons_type s s' p :
  as_type s = as_type s' -> unpackable (s :: p) = true -> unpackable (s' :: p) = true.
Proof. intros Ht H. destruct p as [|n p]; [done |]. cbn in *. by rewrite (packable_types s' s n n). Qed.

(** What concatenating two paths does. *)
Definition joins (p p1 p2 : aspath) : Prop :=
  (forall a, mentions p a <-> mentions p1 a \/ mentions p2 a) /\
  aspath_count_hops p = aspath_count_hops p1 + aspath_count_hops p2 /\
  aspath_count_confeds p = aspath_count_confeds p1 + aspath_count_confeds p2 /\
  (normal p1 -> normal p2 -> normal p).

Lemma joins_app q1 s1 s2 r2 :
  ASSEGMENT_TYPES_PACKABLE s1 s2 = false ->
  joins ((q1 ++ [s1]) ++ s2 :: r2) (q1 ++ [s1]) (s2 :: r2).
Proof.
  intros Hp. split_and!; [intros a; apply mentions_app | apply hops_app | apply confeds_app |].
  intros [Hu1 Hs1] [Hu2 Hs2]. split; [| by apply Forall_app].
  rewrite <- app_assoc. apply unpackable_join; [done |]. cbn [app]. cbn in Hu2 |- *. by rewrite Hp, Hu2.
Qed.

Lemma joins_merge q1 s1 s2 r2 :
  as_type s1 = AS_SEQUENCE -> as_type s2 = AS_SEQUENCE ->
  joins (q1 ++ mk_seg (as_type s1) (as_ s1 ++ as_ s2) :: r2) (q1 ++ [s1]) (s2 :: r2).
Proof.
  intros T1 T2. set (m := mk_seg _ _). split_and!.
  - intros a. rewrite !mentions_app, !mentions_cons. cbn. rewrite list.elem_of_app.
    pose proof (mentions_nil a). tauto.
  - rewrite !hops_app. cbn. rewrite T1, T2. cbn. unfold seg_length. cbn. rewrite length_app. lia.
  - rewrite !confeds_app. cbn. rewrite T1, T2. cbn. lia.
  - intros [Hu1 Hs1] [Hu2 Hs2]. apply Forall_app in Hs1 as [Hs1 _]. inversion Hs2; subst. split.
    + apply unpackable_join; [by apply (unpackable_snoc_type q1 s1 m) |].
      apply (unpackable_cons_type s2 m); [by rewrite T2 | done].
    + apply Forall_app. split; [done |]. constructor; [by apply set_sorted_seq | done].
Qed.

Lemma joins_nil_r p : joins p p [].
Proof.
  split; [intros a; pose proof (mentions_nil a); tauto |]. split; [cbn; lia |]. split; [cbn; lia | done].
Qed.

Lemma joins_nil_l p : joins p [] p.
Proof.
  split; [intros a; pose proof (mentions_nil a); tauto |]. split; [cbn; lia |]. split; [cbn; lia | done].
Qed.

(** [aspath_prepend] puts the whole of [as1] before the whole of [as2]: the result mentions the AS
    numbers of both, counts the hops of both, and is normal when both are (the touching AS_SEQUENCE
    segments are merged).  The exception is an [as1] that ends in an AS_SEQUENCE before an [as2] that
    starts with an AS_CONFED_SEQUENCE: there the code frees that first segment and then reads its
    type. *)
Theorem aspath_prepend_correct p1 p2 :
  asns p1 + asns p2 < 65536 ->
  let confed_clash := match list.last p1, p2 with
                      | Some s1, s2 :: _ => (as_type s1 =? AS_SEQUENCE) && (as_type s2 =? AS_CONFED_SEQUENCE)
                      | _, _ => false
                      end in
  (confed_clash = true -> aspath_prepend (Some p1) (Some p2) = Oob) /\
  (confed_clash = false ->
   exists p, aspath_prepend (Some p1) (Some p2) = Ok (Some p) /\ joins p p1 p2).
Proof.
  intros Hb. unfold aspath_prepend.
  destruct p2 as [|s2 r2].
  { destruct (list.last p1); (split; [done |]); intros _; exists p1; rewrite dup_all_id;
      (split; [done | apply joins_nil_r]). }
  destruct (list.last p1) as [s1|] eqn:El.
  2: { apply last_None in El as ->. split; [done |]. intros _. eexists. split; [done |].
       apply joins_nil_l. }
  apply last_split in El. set (q1 := removelast p1) in *. clearbody q1. subst p1.
  cbn zeta. destruct ((as_type s1 =? AS_SEQUENCE) && (as_type s2 =? AS_CONFED_SEQUENCE)) eqn:Ec; [done |].
  split; [done |]. intros _.
  assert (aspath_merge (@Some aspath (q1 ++ [s1])) (@Some aspath (s2 :: r2)) = Ok (Some ((q1 ++ [s1]) ++ s2 :: r2))) as Hm.
  { unfold aspath_merge. rewrite dup_all_id. by destruct q1. }
  destruct (Z.eqb_spec (as_type s1) (as_type s2)) as [Ht | Ht]; cbn [negb].
  - destruct (Z.eqb_spec (as_type s1) AS_SEQUENCE) as [Hs | Hs].
    + eexists. split; [done |]. rewrite dup_all_id, removelast_last.
      rewrite asns_app, !asns_cons in Hb. pose proof (asns_nonneg q1). pose proof (asns_nonneg r2).
      change (asns []) with 0 in Hb.
      replace (assegment_dup s1) with s1 by by destruct s1.
      rewrite append_small by (unfold seg_length in *; lia).
      apply joins_merge; congruence.
    + rewrite Hm. eexists. split; [done |]. apply joins_app. unfold ASSEGMENT_TYPES_PACKABLE.
      by rewrite (proj2 (Z.eqb_neq (as_type s1) AS_SEQUENCE)), andb_false_r.
  - rewrite Hm. eexists. split; [done |]. apply joins_app. unfold ASSEGMENT_TYPES_PACKABLE.
    by rewrite (proj2 (Z.eqb_neq _ _)).
Qed.

Lemma aspath_prepend_correct_witness :
  (exists p, aspath_prepend (Some [mk_seg AS_SEQUENCE [1; 1]]) (Some [mk_seg AS_SEQUENCE [2]; mk_seg AS_SET [3; 4]])
     = Ok (Some p) /\ aspath_count_hops p = 4) /\
  aspath_prepend (Some [mk_seg AS_SEQUENCE [1; 1]]) (Some [mk_seg AS_CONFED_SEQUENCE [2]]) = Oob.
Proof.
  split.
  - destruct (aspath_prepend_correct [mk_seg AS_SEQUENCE [1; 1]] [mk_seg AS_SEQUENCE [2]; mk_seg AS_SET [3; 4]])
      as [_ H]; [z_eval |].
    destruct (H eq_refl) as (p & E & _ & Hh & _). exists p. split; [exact E | exact Hh].
  - apply (aspath_prepend_correct [mk_seg AS_SEQUENCE [1; 1]] [mk_seg AS_CONFED_SEQUENCE [2]]); [z_eval | reflexivity].
Defined.

(** ** Aggregation *)

Lemma set_add_spec asset a :
  (match asset with Some l => Z.of_nat (length l) < 65535 | None => True end) ->
  exists l, aspath_aggregate_as_set_add asset a = Ok (Some l) /\
    (forall x, x ∈ l <-> x ∈ default [] asset \/ x = a) /\
    (length l <= S (length (default [] asset)))%nat.
Proof.
  intros H. destruct asset as [l|]; cbn.
  - destruct (existsb (fun x => x =? a) l) eqn:E.
    + exists l. split_and!; [done | | lia]. intros x. apply existsb_exists in E as (y & Hy & Ey).
      apply Z.eqb_eq in Ey as ->. apply list_elem_of_In in Hy. naive_solver.
    + rewrite (proj2 (Z.eqb_neq _ _)) by lia. exists (l ++ [a]). split_and!; [done | |].
      * intros x. by rewrite list.elem_of_app, list.list_elem_of_singleton.
      * rewrite length_app. cbn. lia.
  - exists [a]. split_and!; [done | | cbn; lia]. intros x.
    rewrite list.list_elem_of_singleton. pose proof (list.not_elem_of_nil x). tauto.
Qed.

Lemma set_add_all_spec l : forall asset,
  Z.of_nat (length (default [] asset)) + Z.of_nat (length l) < 65536 ->
  exists asset', as_set_add_all asset l = Ok asset' /\
    (forall x, x ∈ default [] asset' <-> x ∈ default [] asset \/ x ∈ l) /\
    (length (default [] asset') <= length (default [] asset) + length l)%nat.
Proof.
  induction l as [|a l IH]; intros asset Hb.
  - exists asset. split_and!; [done | | cbn; lia]. intros x. pose proof (list.not_elem_of_nil x). tauto.
  - cbn [length] in Hb. destruct (set_add_spec asset a) as (l1 & E & Hx & Hl).
    { destruct asset; cbn in *; [lia | done]. }
    destruct (IH (Some l1)) as (as' & E' & Hx' & Hl'); [cbn; lia |].
    exists as'. cbn [as_set_add_all]. rewrite E. cbn [mbind res_bind]. split_and!; [done | | cbn in *; lia].
    intros x. rewrite Hx', list.elem_of_cons. cbn. rewrite Hx. tauto.
Qed.

(** What is left of the path [seg] after its first [from] entries. *)
Definition rest_of (seg : aspath) (from : nat) (x : Z) : Prop :=
  match seg with [] => False | s :: r => x ∈ drop from (as_ s) \/ mentions r x end.

Lemma rest_of_0 seg x : rest_of seg 0 x <-> mentions seg x.
Proof. destruct seg as [|s r]; cbn; [pose proof (mentions_nil x); tauto |]. by rewrite mentions_cons. Qed.

Lemma aggregate_rest_spec seg : forall asset from,
  Z.of_nat (length (default [] asset)) + asns seg < 65536 ->
  exists asset', aggregate_rest asset seg from = Ok asset' /\
    (forall x, x ∈ default [] asset' <-> x ∈ default [] asset \/ rest_of seg from x) /\
    Z.of_nat (length (default [] asset')) <= Z.of_nat (length (default [] asset)) + asns seg.
Proof.
  induction seg as [|s r IH]; intros asset from Hb.
  - exists asset. change (asns []) with 0. split_and!; [done | intros x; cbn; tauto | lia].
  - rewrite asns_cons in *. pose proof (asns_nonneg r). unfold seg_length in *.
    destruct (set_add_all_spec (drop from (as_ s)) asset) as (a1 & E & Hx & Hl).
    { rewrite length_drop. lia. }
    rewrite length_drop in Hl. destruct (IH a1 0%nat) as (a2 & E2 & Hx2 & Hl2); [lia |].
    exists a2. cbn [aggregate_rest]. rewrite E. cbn [mbind res_bind]. split_and!; [done | | lia].
    intros x. rewrite Hx2, Hx, rest_of_0. cbn. tauto.
Qed.

Lemma common_len_spec l1 l2 :
  (common_len l1 l2 <= length l1)%nat /\ (common_len l1 l2 <= length l2)%nat /\
  take (common_len l1 l2) l1 = take (common_len l1 l2) l2.
Proof.
  revert l2. induction l1 as [|a l1 IH]; intros [|b l2]; cbn; try (split_and!; [lia | lia | done]).
  destruct (Z.eqb_spec a b) as [-> |]; cbn; [| split_and!; [lia | lia | done]].
  destruct (IH l2) as (H1 & H2 & H3). rewrite H3. split_and!; [lia | lia | done].
Qed.

(** The first turn of the common-prefix loop, when the first segments are not the same. *)
Lemma aggregate_common_first s1 r1 s2 r2 :
  seg_length s1 < 65536 -> s1 <> s2 ->
  exists m, (m = 0 \/ as_type s1 = as_type s2 /\ (m <= length (as_ s1))%nat /\ take m (as_ s1) = take m (as_ s2))%nat /\
    aggregate_common (s1 :: r1) (s2 :: r2) 0 [] =
      (if (0 <? m)%nat then [mk_seg (as_type s1) (take m (as_ s1))] else [], s1 :: r1, s2 :: r2, m).
Proof.
  intros Hl Hne. cbn [aggregate_common].
  destruct (Z.eqb_spec (as_type s1) (as_type s2)) as [Ht | Ht]; cbn [negb]; [| exists 0%nat; auto].
  destruct (common_len_spec (as_ s1) (as_ s2)) as (H1 & H2 & H3). set (m := common_len _ _) in *.
  exists m. split; [auto |]. cbn zeta. rewrite append_new by (rewrite length_take; unfold seg_length in Hl; lia).
  destruct (negb (m =? Nat.min (length (as_ s1)) (length (as_ s2)))%nat || negb (m =? length (as_ s1))%nat
           || negb (length (as_ s1) =? length (as_ s2))%nat) eqn:E; [done |]. exfalso. apply Hne.
  apply orb_false_iff in E as [E E3]. apply orb_false_iff in E as [_ E2].
  apply negb_false_iff, Nat.eqb_eq in E2, E3. rewrite !take_ge in H3 by lia.
  destruct s1, s2; cbn in *. congruence.
Qed.

(** Aggregating two paths whose first segments differ loses nothing: the result exists, is normal, and
    mentions exactly the AS numbers of the two paths, so every loop that either path would have shown
    is still found. *)
Theorem aspath_aggregate_complete s1 r1 s2 r2 :
  asns (s1 :: r1) + asns (s2 :: r2) < 32768 -> s1 <> s2 ->
  exists p, aspath_aggregate (s1 :: r1) (s2 :: r2) = Ok p /\ normal p /\
    (forall a, 0 < aspath_loop_check (Some p) a <->
       0 < aspath_loop_check (Some (s1 :: r1)) a \/ 0 < aspath_loop_check (Some (s2 :: r2)) a).
Proof.
  intros Hb Hne. pose proof (asns_nonneg r1). pose proof (asns_nonneg r2).
  rewrite !asns_cons in Hb. assert (0 <= seg_length s1 /\ 0 <= seg_length s2) as [? ?] by (unfold seg_length; lia).
  destruct (aggregate_common_first s1 r1 s2 r2) as (m & Hm & E); [lia | done |].
  unfold aspath_aggregate. rewrite E. cbn zeta.
  destruct (aggregate_rest_spec (s1 :: r1) None m) as (a1 & E1 & Hx1 & Hl1); [rewrite asns_cons; change (default [] None) with (@nil Z); cbn [length]; lia |].
  rewrite asns_cons in Hl1. change (default [] None) with (@nil Z) in *. cbn [length] in Hl1.
  destruct (aggregate_rest_spec (s2 :: r2) a1 m) as (a2 & E2 & Hx2 & Hl2); [rewrite asns_cons; lia |].
  rewrite asns_cons in Hl2. rewrite E1. cbn [mbind res_bind]. rewrite E2. cbn [mbind res_bind].
  set (acc := if (0 <? m)%nat then _ else _). set (pre := acc ++ _).
  assert (forall x, mentions pre x <-> x ∈ take m (as_ s1) \/ x ∈ default [] a2) as Hpre.
  { intros x. unfold pre, acc. rewrite mentions_app. pose proof (mentions_nil x). pose proof (list.not_elem_of_nil x).
    destruct m, a2; cbn; rewrite ?mentions_cons; cbn [as_]; tauto. }
  assert (asns pre < 65536) as Hpb.
  { unfold pre, acc. rewrite asns_app. unfold seg_length in *.
    destruct m, a2; cbn [Nat.ltb Nat.leb]; rewrite ?asns_cons; change (asns []) with 0; unfold seg_length; cbn [as_];
      rewrite ?length_take; cbn [from_option id length] in *; lia. }
  eexists. split; [done |]. split; [apply normalise_normal |]. intros a. rewrite !loop_check_mentions.
  rewrite (proj1 (normalise_keeps pre Hpb)), Hpre, Hx2, Hx1, !mentions_cons. cbn [rest_of].
  assert (forall l : list Z, a ∈ l <-> a ∈ take m l \/ a ∈ drop m l) as Hsplit
    by (intros l; rewrite <- list.elem_of_app, firstn_skipn; done).
  rewrite (Hsplit (as_ s1)), (Hsplit (as_ s2)). pose proof (list.not_elem_of_nil a).
  destruct Hm as [-> | (_ & _ & <-)]; cbn [take]; tauto.
Qed.

Lemma aspath_aggregate_complete_witness :
  exists p, aspath_aggregate [mk_seg AS_SEQUENCE [1; 2; 3]] [mk_seg AS_SEQUENCE [1; 2; 4]] = Ok p /\ normal p.
Proof.
  destruct (aspath_aggregate_complete (mk_seg AS_SEQUENCE [1; 2; 3]) [] (mk_seg AS_SEQUENCE [1; 2; 4]) [])
    as (p & E & Hn & _).
  - z_eval.
  - discriminate.
  - exists p. split; [exact E | exact Hn].
Defined.

(** When a path continues after a first segment that both paths share, [aspath_aggregate] applies the
    length of that segment to the next one too: the AS numbers of a following segment that is not
    longer than the shared one are all dropped, and a loop through them is no longer found. *)
Theorem aspath_aggregate_loses_asns l s2 a :
  l <> [] -> Z.of_nat (length l) < 65536 -> (length (as_ s2) <= length l)%nat -> a ∈ as_ s2 -> a ∉ l ->
  let as1 := [mk_seg AS_SEQUENCE l] in
  let as2 := [mk_seg AS_SEQUENCE l; s2] in
  aspath_aggregate as1 as2 = Ok as1 /\
  0 < aspath_loop_check (Some as2) a /\ aspath_loop_check (Some as1) a = 0.
Proof.
  intros Hl Hb Hs Ha Hn as1 as2. split_and!.
  - unfold aspath_aggregate, as1, as2. cbn [aggregate_common as_type as_]. rewrite Z.eqb_refl. cbn [negb].
    assert (common_len l l = length l) as ->.
    { clear. induction l as [|x l IH]; cbn; [done |]. by rewrite Z.eqb_refl, IH. }
    rewrite Nat.min_id, !Nat.eqb_refl. cbn [negb orb]. destruct l as [|x l]; [done |].
    cbn [length Nat.ltb Nat.leb]. change (S (length l)) with (length (x :: l)).
    rewrite firstn_all, append_new by done. cbn -[drop Nat.ltb append_new assegment_normalise].
    rewrite skipn_all2 by done. done.
  - apply loop_check_mentions. unfold as2. rewrite !mentions_cons. tauto.
  - assert (~ 0 < aspath_loop_check (Some as1) a).
    { rewrite loop_check_mentions. unfold as1. rewrite mentions_cons. pose proof (mentions_nil a). tauto. }
    assert (0 <= aspath_loop_check (Some as1) a) by apply loop_count_nonneg. lia.
Qed.

Lemma aspath_aggregate_loses_asns_witness :
  aspath_aggregate [mk_seg AS_SEQUENCE [10; 20]] [mk_seg AS_SEQUENCE [10; 20]; mk_seg AS_SET [30; 40]] =
    Ok [mk_seg AS_SEQUENCE [10; 20]].
Proof.
  apply (aspath_aggregate_loses_asns [10; 20] (mk_seg AS_SET [30; 40]) 30).
  - discriminate.
  - z_eval.
  - apply le_n.
  - apply (bool_decide_unpack _). exact I.
  - apply (bool_decide_unpack _). exact I.
Defined.

(** ** Reconciling AS_PATH with AS4_PATH *)

Definition plain (s : assegment) : Prop := as_type s = AS_SEQUENCE \/ as_type s = AS_SET.

Lemma hops_nonneg p : 0 <= aspath_count_hops p.
Proof.
  induction p as [|s p IH]; cbn; [lia |]. unfold seg_length.
  destruct (as_type s =? AS_SEQUENCE), (as_type s =? AS_SET); lia.
Qed.

Lemma plain_no_confeds p : Forall plain p -> aspath_count_confeds p = 0.
Proof. induction 1 as [|s p H _ IH]; cbn; [done |]. destruct H as [-> | ->]; cbn; lia. Qed.

Lemma hops_0_empty p a : Forall plain p -> aspath_count_hops p = 0 -> ~ mentions p a.
Proof.
  induction 1 as [|s p H _ IH]; cbn; intros Hh; [apply mentions_nil |].
  pose proof (hops_nonneg p). unfold seg_length in Hh. rewrite mentions_cons.
  destruct H as [H | H]; rewrite H in Hh; cbn in Hh.
  - destruct (as_ s); cbn in Hh; [| lia]. intros [Hx | Hx]; [by apply list.not_elem_of_nil in Hx | apply IH; [lia | done]].
  - lia.
Qed.

(** The loop copies the first [h] hops. *)
Lemma reconcile_loop_spec p : forall h cp,
  Forall plain p -> asns p < 65536 -> h <= aspath_count_hops p ->
  exists np, reconcile_loop p h cp = Ok np /\ aspath_count_hops np = Z.max 0 h /\
    asns np <= asns p /\ (forall a, mentions np a -> mentions p a) /\
    (h = aspath_count_hops p -> forall a, mentions p a -> mentions np a).
Proof.
  induction p as [|s p IH]; intros h cp Hp Hb Hh.
  { exists []. cbn in Hh. split; [done |]. cbn. split_and!; [lia | done | done | done]. }
  cbn [reconcile_loop]. rewrite Z.gtb_ltb. destruct (Z.ltb_spec 0 h) as [Hpos | Hneg].
  2: { exists []. split; [done |]. split; [cbn; lia |]. split; [apply asns_nonneg |]. split.
       - intros a Ha. by apply mentions_nil in Ha.
       - intros -> a Ha. pose proof (hops_nonneg (s :: p)). exfalso. eapply hops_0_empty; [exact Hp | lia | exact Ha]. }
  inversion Hp as [|?? Hs Hp']; subst. rewrite asns_cons in *. pose proof (asns_nonneg p).
  cbn [aspath_count_hops] in Hh. unfold reconcile_step. unfold seg_length in *.
  destruct Hs as [Ht | Ht]; rewrite Ht in *; cbn [is_set AS_SEQUENCE AS_SET AS_CONFED_SET AS_CONFED_SEQUENCE Z.eqb Pos.eqb orb] in *.
  - destruct (IH (h - Z.of_nat (length (as_ s))) (Z.min (Z.of_nat (length (as_ s))) h)) as (np & E & H1 & H2 & H3 & H4);
      [done | lia | lia |].
    rewrite (proj2 (Z.leb_le _ _)) by lia. cbn [c_assert mbind res_bind]. rewrite E. cbn [mbind res_bind].
    eexists. split; [done |]. rewrite append_new by (rewrite length_take; lia).
    set (k := Z.to_nat (Z.min (Z.of_nat (length (as_ s))) h)).
    assert (length (take k (as_ s)) = k) as Lk by (rewrite length_take; lia).
    split; [| split; [| split]].
    + cbn. unfold seg_length. cbn [as_]. rewrite Lk. lia.
    + rewrite asns_cons. unfold seg_length. cbn [as_]. rewrite Lk. lia.
    + intros a. rewrite !mentions_cons. cbn [as_]. intros [Ha | Ha]; [left | right; auto].
      by apply (elem_of_take a) in Ha as (? & ? & _); eapply list_elem_of_lookup_2.
    + intros Heq a. rewrite !mentions_cons. cbn [as_]. pose proof (hops_nonneg p).
      cbn in Heq. rewrite Ht in Heq. cbn in Heq. unfold seg_length in Heq.
      intros [Ha | Ha]; [left; rewrite take_ge by lia; done | right; apply H4; [lia | done]].
  - destruct (IH (h - 1) (Z.of_nat (length (as_ s)))) as (np & E & H1 & H2 & H3 & H4); [done | lia | lia |].
    rewrite (proj2 (Z.leb_le _ _)) by lia. cbn [c_assert mbind res_bind]. rewrite E. cbn [mbind res_bind].
    eexists. split; [done |]. rewrite Nat2Z.id, firstn_all, append_new by lia.
    split; [| split; [| split]].
    + cbn. lia.
    + rewrite asns_cons. unfold seg_length. cbn [as_]. lia.
    + intros a. rewrite !mentions_cons. cbn [as_]. intros [Ha | Ha]; auto.
    + intros Heq a. rewrite !mentions_cons. cbn [as_]. cbn in Heq. rewrite Ht in Heq. cbn in Heq.
      intros [Ha | Ha]; [auto | right; apply H4; [lia | done]].
Qed.

(** Merging an AS_PATH without confederation segments with an AS4_PATH keeps the length that the
    decision process compares: if the AS4_PATH has no more hops than the AS_PATH, the result has exactly
    the hops of the AS_PATH; if it has more, both are kept whole.  In every case all AS numbers of
    the AS4_PATH are in the result, and none that was in neither path. *)
Theorem aspath_reconcile_as4_hops p q :
  Forall plain p -> asns p + asns q < 65536 ->
  exists r, aspath_reconcile_as4 (Some p) q = Ok (Some r) /\
    (forall a, mentions q a -> mentions r a) /\ (forall a, mentions r a -> mentions p a \/ mentions q a) /\
    (aspath_count_hops q <= aspath_count_hops p -> aspath_count_hops r = aspath_count_hops p) /\
    (aspath_count_hops p < aspath_count_hops q ->
       aspath_count_hops r = aspath_count_hops p + aspath_count_hops q /\ forall a, mentions p a -> mentions r a).
Proof.
  intros Hp Hb. pose proof (asns_nonneg p). pose proof (asns_nonneg q). pose proof (hops_nonneg q).
  unfold aspath_reconcile_as4. rewrite (plain_no_confeds p Hp), Z.add_0_r.
  set (h := if _ <? 0 then _ else _). pose proof (hops_nonneg p).
  assert (h = if aspath_count_hops p <? aspath_count_hops q then aspath_count_hops p
              else aspath_count_hops p - aspath_count_hops q) as Hh.
  { unfold h. destruct (Z.ltb_spec (aspath_count_hops p - aspath_count_hops q) 0),
      (Z.ltb_spec (aspath_count_hops p) (aspath_count_hops q)); lia. }
  clearbody h. unfold aspath_dup. rewrite dup_all_id. destruct (Z.eqb_spec h 0) as [Hz | Hz].
  - exists q. split; [done |]. split; [done |]. split; [auto |].
    destruct (Z.ltb_spec (aspath_count_hops p) (aspath_count_hops q)); (split; [lia |]); [| lia].
    intros _. split; [lia |]. intros a Ha. exfalso. eapply hops_0_empty; [exact Hp | lia | exact Ha].
  - destruct (reconcile_loop_spec p h 0 Hp) as (np & -> & R1 & R2 & R3 & R4); [lia | destruct (aspath_count_hops p <? aspath_count_hops q); lia |].
    cbn [mbind res_bind]. assert (0 < h) by (destruct (Z.ltb_spec (aspath_count_hops p) (aspath_count_hops q)); lia).
    destruct np as [|s np]; [cbn in R1; lia |]. cbn [aspath_merge mbind res_bind]. rewrite dup_all_id.
    destruct (normalise_keeps ((s :: np) ++ q)) as (N1 & N2 & _).
    { change (asns ((s :: np) ++ q) < 65536). rewrite asns_app. lia. }
    eexists. split; [done |]. rewrite N2, hops_app, R1, Z.max_r by lia.
    split; [| split; [| split]].
    + intros a Ha. rewrite N1, mentions_app. auto.
    + intros a. rewrite N1, mentions_app. intros [Ha | Ha]; auto.
    + destruct (Z.ltb_spec (aspath_count_hops p) (aspath_count_hops q)); lia.
    + destruct (Z.ltb_spec (aspath_count_hops p) (aspath_count_hops q)); [| lia]. intros _. split; [lia |].
      intros a Ha. rewrite N1, mentions_app. left. by apply R4.
Qed.

Lemma aspath_reconcile_as4_hops_witness :
  exists r, aspath_reconcile_as4 (Some [mk_seg AS_SEQUENCE [100; 23456; 300]]) [mk_seg AS_SEQUENCE [70000; 300]]
    = Ok (Some r) /\ aspath_count_hops r = 3.
Proof.
  destruct (aspath_reconcile_as4_hops [mk_seg AS_SEQUENCE [100; 23456; 300]] [mk_seg AS_SEQUENCE [70000; 300]])
    as (r & E & _ & _ & H & _).
  - constructor; [left; reflexivity | constructor].
  - z_eval.
  - exists r. split; [exact E | apply H; z_eval].
Defined.
