(* ===== verification/AspathText.v ===== *)
(** * bgpd/bgp_aspath.c: AS paths as text

    [aspath_make_str_count] prints a path into a buffer whose size it estimates first; every [snprintf]
    that would not fit is [Oob] here, and the closing [assert] is modelled too.  [aspath_str2aspath] is
    the parser of configuration commands and regular-expression input. *)

From Stdlib Require Import Ascii String.
From S2P Require Import Prelude CString Prefix Stream Aspath AspathNormal.
Local Open Scope Z_scope.

Definition slen (s : string) : Z := Z.of_nat (String.length s).
Definition chr (c : ascii) : string := String c EmptyString.

(** ** Printing *)

Inductive delim := AS_SEG_START | AS_SEG_END.

Definition aspath_delimiter_char (type : Z) (which : delim) : ascii :=
  if type =? AS_SET then match which with AS_SEG_START => "{" | AS_SEG_END => "}" end
  else if type =? AS_CONFED_SET then match which with AS_SEG_START => "[" | AS_SEG_END => "]" end
  else if type =? AS_CONFED_SEQUENCE then match which with AS_SEG_START => "(" | AS_SEG_END => ")" end
  else " ".

Definition ASPATH_STR_DEFAULT_LEN : Z := 32.
Definition ASN_STR_LEN : Z := 10 + 1.
Definition SEGMENT_STR_LEN (x : assegment) : Z := seg_length x * ASN_STR_LEN + 2 + 1 + 1.

(** [len += snprintf (str_buf + len, str_size - len, ...)] of the text [t] *)
Definition emit (str_size : Z) (buf t : string) : res string :=
  if slen buf + slen t <? str_size then Ok (sapp buf t) else Oob.

(** The loop over the AS numbers of a segment, with the separator between them. *)
Fixpoint emit_asns (str_size : Z) (sep : ascii) (buf : string) (l : list Z) : res string :=
  match l with
  | [] => Ok buf
  | a :: r =>
      buf ← emit str_size buf (dec a);
      match r with
      | [] => Ok buf
      | _ => buf ← emit str_size buf (chr sep); emit_asns str_size sep buf r
      end
  end.

(** The loop over the segments; [None] is the result NULL for an unknown segment type. *)
Fixpoint make_str_loop (segs : aspath) (str_size : Z) (buf : string) : res (option string) :=
  match segs with
  | [] => _ ← c_assert (slen buf <? str_size); Ok (Some buf)
  | seg :: next =>
      if negb (valid_type (as_type seg)) then Ok None
      else
        let seperator := if is_set (as_type seg) then ","%char else " "%char in
        let str_size := if slen buf + SEGMENT_STR_LEN seg >? str_size
                        then slen buf + SEGMENT_STR_LEN seg else str_size in
        buf ← (if negb (as_type seg =? AS_SEQUENCE)
               then emit str_size buf (chr (aspath_delimiter_char (as_type seg) AS_SEG_START)) else Ok buf);
        buf ← emit_asns str_size seperator buf (as_ seg);
        buf ← (if negb (as_type seg =? AS_SEQUENCE)
               then emit str_size buf (chr (aspath_delimiter_char (as_type seg) AS_SEG_END)) else Ok buf);
        buf ← match next with [] => Ok buf | _ => emit str_size buf (chr " ") end;
        make_str_loop next str_size buf
  end.

Definition aspath_make_str_count (p : aspath) : res (option string) :=
  match p with
  | [] => Ok (Some EmptyString)
  | _ =>
      let str_size := Z.max (assegment_count_asns p 0 * ASN_STR_LEN + 2 + 1) ASPATH_STR_DEFAULT_LEN in
      make_str_loop p str_size EmptyString
  end.

(** ** Parsing *)

Inductive as_token :=
| as_token_asval (asno : Z)
| as_token_set_start | as_token_set_end
| as_token_confed_seq_start | as_token_confed_seq_end
| as_token_confed_set_start | as_token_confed_set_end
| as_token_unknown.

Fixpoint skip_separators (s : string) : string :=
  match s with
  | String c s' => if isspace c || Ascii.eqb c "," then skip_separators s' else s
  | EmptyString => s
  end.

(** The digits after the first one, in an [as_t]. *)
Fixpoint get_digits (asval : Z) (s : string) : Z * string :=
  match s with
  | String c s' => if isdigit c then get_digits (u32 (u32 (asval * 10) + (code c - 48))) s' else (asval, s)
  | EmptyString => (asval, s)
  end.

Definition aspath_gettoken (buf : string) : option (as_token * string) :=
  match skip_separators buf with
  | EmptyString => None
  | String c p =>
      if Ascii.eqb c "{" then Some (as_token_set_start, p)
      else if Ascii.eqb c "}" then Some (as_token_set_end, p)
      else if Ascii.eqb c "(" then Some (as_token_confed_seq_start, p)
      else if Ascii.eqb c ")" then Some (as_token_confed_seq_end, p)
      else if Ascii.eqb c "[" then Some (as_token_confed_set_start, p)
      else if Ascii.eqb c "]" then Some (as_token_confed_set_end, p)
      else if isdigit c then let '(asval, p) := get_digits (code c - 48) p in Some (as_token_asval asval, p)
      else Some (as_token_unknown, String c p)
  end.

(** The state of [aspath_str2aspath]: the path, [as_type] and [needtype]. *)
Record pstate := mk_pstate { ps_path : aspath; ps_type : Z; ps_need : bool }.

(** One token; [None] is the error return. *)
Definition token_step (st : pstate) (t : as_token) : option pstate :=
  match t with
  | as_token_asval asno =>
      let p := if ps_need st then aspath_segment_add (ps_path st) (ps_type st) else ps_path st in
      Some (mk_pstate (aspath_as_add p asno) (ps_type st) false)
  | as_token_set_start => Some (mk_pstate (aspath_segment_add (ps_path st) AS_SET) AS_SET false)
  | as_token_confed_seq_start =>
      Some (mk_pstate (aspath_segment_add (ps_path st) AS_CONFED_SEQUENCE) AS_CONFED_SEQUENCE false)
  | as_token_confed_set_start =>
      Some (mk_pstate (aspath_segment_add (ps_path st) AS_CONFED_SET) AS_CONFED_SET false)
  | as_token_set_end | as_token_confed_seq_end | as_token_confed_set_end =>
      Some (mk_pstate (ps_path st) AS_SEQUENCE true)
  | as_token_unknown => None
  end.

(** The token loop: every token takes a character, so the length of the text is enough fuel. *)
Fixpoint str2aspath_loop (fuel : nat) (str : string) (st : pstate) : option aspath :=
  match fuel with
  | O => None
  | S n =>
      match aspath_gettoken str with
      | None => Some (ps_path st)
      | Some (t, str') => st' ← token_step st t; str2aspath_loop n str' st'
      end
  end.

Definition aspath_str2aspath (str : string) : option aspath :=
  str2aspath_loop (S (String.length str)) str (mk_pstate [] AS_SEQUENCE true).

(** ** The text of a path *)

Fixpoint asns_text (sep : ascii) (l : list Z) : string :=
  match l with
  | [] => EmptyString
  | a :: r => sapp (dec a) (match r with [] => EmptyString | _ => String sep (asns_text sep r) end)
  end.

Definition seg_text (s : assegment) : string :=
  let body := asns_text (if is_set (as_type s) then "," else " ")%char (as_ s) in
  if as_type s =? AS_SEQUENCE then body
  else String (aspath_delimiter_char (as_type s) AS_SEG_START)
         (sapp body (chr (aspath_delimiter_char (as_type s) AS_SEG_END))).

Fixpoint path_text (p : aspath) : string :=
  match p with
  | [] => EmptyString
  | s :: r => sapp (seg_text s) (match r with [] => EmptyString | _ => String " " (path_text r) end)
  end.

(** Paths whose text is faithful: known types, no empty sequence, no sequence after a sequence. *)
Definition text_seg (s : assegment) : Prop :=
  valid_type (as_type s) = true /\ seg_length s < 65536 /\ Forall (fun a => 0 <= a < 2 ^ 32) (as_ s) /\
  (as_type s = AS_SEQUENCE -> as_ s <> []).
Definition text_ok (p : aspath) : Prop := unpackable p = true /\ Forall text_seg p.

Lemma slen_sapp s t : slen (sapp s t) = slen s + slen t.
Proof. unfold slen. induction s as [|c s IH]; cbn; [done |]. cbn in IH. lia. Qed.

Lemma slen_nonneg s : 0 <= slen s.
Proof. unfold slen. lia. Qed.

Lemma slen_String c s : slen (String c s) = 1 + slen s.
Proof. unfold slen. cbn. lia. Qed.

Lemma slen_dec a : slen (dec a) <= 10.
Proof.
  assert (forall f n acc, slen (dec_acc f n acc) <= Z.of_nat f + slen acc) as H.
  { induction f as [|f IH]; intros n acc; cbn [dec_acc]; [lia |].
    destruct (n / 10 =? 0); rewrite ?slen_String; [lia |]. etrans; [apply IH |]. rewrite slen_String. lia. }
  apply (H 10%nat a EmptyString).
Qed.

Lemma slen_asns_text sep l : l <> [] -> slen (asns_text sep l) <= Z.of_nat (length l) * 11 - 1.
Proof.
  induction l as [|a [|b r] IH]; intros Hne; [done | |]; cbn [asns_text]; rewrite slen_sapp; pose proof (slen_dec a).
  - change (slen EmptyString) with 0. cbn [length]. lia.
  - rewrite slen_String. specialize (IH ltac:(done)). cbn [length] in *. cbn [asns_text] in IH. lia.
Qed.

(** *** Printing never overruns its buffer *)

Lemma emit_fits size buf t : slen buf + slen t < size -> emit size buf t = Ok (sapp buf t).
Proof. intros H. unfold emit. by rewrite (proj2 (Z.ltb_lt _ _)). Qed.

Lemma emit_asns_fits size sep l : forall buf,
  slen buf + slen (asns_text sep l) < size -> emit_asns size sep buf l = Ok (sapp buf (asns_text sep l)).
Proof.
  induction l as [|a r IH]; intros buf Hs; cbn [emit_asns asns_text] in *; [by rewrite sapp_nil_r |].
  rewrite slen_sapp in Hs. destruct r as [|b r].
  - change (slen EmptyString) with 0 in Hs. rewrite emit_fits by lia. cbn. by rewrite sapp_nil_r.
  - rewrite slen_String in Hs. pose proof (slen_nonneg (asns_text sep (b :: r))).
    rewrite emit_fits by lia. cbn [mbind res_bind].
    rewrite emit_fits by (rewrite slen_sapp; change (slen (chr sep)) with 1; lia). cbn [mbind res_bind].
    rewrite IH by (rewrite !slen_sapp; change (slen (chr sep)) with 1; lia).
    by rewrite !sapp_assoc.
Qed.

Lemma slen_seg_text s : text_seg s -> slen (seg_text s) <= SEGMENT_STR_LEN s - 2.
Proof.
  intros (_ & _ & _ & Hne). unfold SEGMENT_STR_LEN, ASN_STR_LEN, seg_length, seg_text.
  set (sep := if is_set (as_type s) then _ else _).
  assert (slen (asns_text sep (as_ s)) <= Z.max 0 (Z.of_nat (length (as_ s)) * 11 - 1)) as H.
  { destruct (as_ s) eqn:E; [done |]. pose proof (slen_asns_text sep (as_ s)) as H. rewrite E in H.
    specialize (H ltac:(done)). lia. }
  destruct (Z.eqb_spec (as_type s) AS_SEQUENCE) as [Ht | Ht].
  - specialize (Hne Ht). destruct (as_ s); [done |]. cbn [length] in *. lia.
  - rewrite slen_String, slen_sapp. change (slen (chr _)) with 1. destruct (as_ s); cbn [length] in *; lia.
Qed.

Lemma make_str_loop_spec p : forall size buf,
  Forall text_seg p -> slen buf < size ->
  make_str_loop p size buf = Ok (Some (sapp buf (path_text p))).
Proof.
  induction p as [|s p IH]; intros size buf Hp Hs; cbn [make_str_loop path_text].
  { rewrite (proj2 (Z.ltb_lt _ _)) by done. cbn. by rewrite sapp_nil_r. }
  inversion Hp as [|?? Hts Hp']; subst. pose proof (slen_seg_text s Hts) as Hl.
  destruct Hts as (Hv & _). rewrite Hv. cbn [negb]. set (size' := if _ >? _ then _ else _).
  assert (slen buf + SEGMENT_STR_LEN s <= size') as Hsz.
  { unfold size'. rewrite Z.gtb_ltb. destruct (Z.ltb_spec size (slen buf + SEGMENT_STR_LEN s)); lia. }
  assert (forall t, slen t + 1 < size' ->
    (buf ← match p with [] => Ok t | _ => emit size' t (chr " ") end; make_str_loop p size' buf) =
    Ok (Some (sapp t (match p with [] => EmptyString | _ => String " " (path_text p) end)))) as K.
  { intros t Ht. destruct p as [|n p].
    - cbn -[make_str_loop]. by rewrite IH by (done || lia).
    - rewrite emit_fits by done. cbn [mbind res_bind].
      rewrite IH by (rewrite ?slen_sapp; done || (change (slen (chr " ")) with 1; lia)). by rewrite sapp_assoc. }
  unfold seg_text in *. set (sep := if is_set (as_type s) then _ else _) in *.
  destruct (as_type s =? AS_SEQUENCE); cbn [negb mbind res_bind].
  - rewrite emit_asns_fits by lia. cbn [mbind res_bind]. rewrite K by (rewrite slen_sapp; lia).
    by rewrite sapp_assoc.
  - set (c := aspath_delimiter_char (as_type s) AS_SEG_START) in *. set (d := aspath_delimiter_char (as_type s) AS_SEG_END) in *.
    rewrite slen_String, slen_sapp in Hl. change (slen (chr d)) with 1 in Hl. pose proof (slen_nonneg (asns_text sep (as_ s))).
    rewrite emit_fits by (change (slen (chr c)) with 1; lia). cbn [mbind res_bind].
    rewrite emit_asns_fits by (rewrite slen_sapp; change (slen (chr c)) with 1; lia). cbn [mbind res_bind].
    rewrite emit_fits by (rewrite !slen_sapp; change (slen (chr c)) with 1; change (slen (chr d)) with 1; lia). cbn [mbind res_bind].
    rewrite K by (rewrite !slen_sapp; change (slen (chr c)) with 1; change (slen (chr d)) with 1; lia).
    rewrite !sapp_assoc. cbn. by rewrite !sapp_assoc.
Qed.

(** *** Parsing *)

Lemma get_digits_value s : forall acc, fst (get_digits (u32 acc) s) = u32 (atoi_digits acc s).
Proof.
  induction s as [|c s IH]; intros acc; cbn [get_digits atoi_digits]; [done |].
  destruct (isdigit c); [| done]. rewrite <- IH. do 2 f_equal. unfold wrap.
  rewrite Zplus_mod_idemp_l, <- Zplus_mod_idemp_l, Zmult_mod_idemp_l, Zplus_mod_idemp_l. f_equal. lia.
Qed.

Lemma get_digits_rest ds : forall acc rest,
  all_digits ds = true -> (forall c s, rest = String c s -> isdigit c = false) ->
  snd (get_digits acc (sapp ds rest)) = rest.
Proof.
  induction ds as [|c ds IH]; intros acc rest Hd Hr; cbn [sapp get_digits].
  - destruct rest as [|c s]; cbn; [done |]. by rewrite (Hr c s eq_refl).
  - cbn in Hd. apply andb_true_iff in Hd as [-> Hd]. by apply IH.
Qed.

Lemma dec_nonempty a : exists c s, dec a = String c s.
Proof.
  assert (forall f n acc, (acc <> EmptyString \/ 0 < f)%nat -> dec_acc f n acc <> EmptyString) as H.
  { induction f as [|f IH]; intros n acc Hn; cbn [dec_acc]; [destruct Hn; [done | lia] |].
    destruct (n / 10 =? 0); [done |]. apply IH. by left. }
  unfold dec. destruct (dec_acc 10 a EmptyString) eqn:E; [| eauto].
  exfalso. apply (H 10%nat a EmptyString); [right; lia | done].
Qed.

(** What comes after a number does not continue it. *)
Definition ends_number (rest : string) : Prop := forall c s, rest = String c s -> isdigit c = false.

Lemma isdigit_plain c :
  isdigit c = true ->
  isspace c = false /\ Ascii.eqb c "," = false /\ Ascii.eqb c "{" = false /\ Ascii.eqb c "}" = false /\
  Ascii.eqb c "(" = false /\ Ascii.eqb c ")" = false /\ Ascii.eqb c "[" = false /\ Ascii.eqb c "]" = false.
Proof. destruct c as [[] [] [] [] [] [] [] []]; vm_compute; intros H; try discriminate H; repeat split. Qed.

Lemma gettoken_number a rest :
  0 <= a < 2 ^ 32 -> ends_number rest -> aspath_gettoken (sapp (dec a) rest) = Some (as_token_asval a, rest).
Proof.
  intros Ha Hr. pose proof (dec_digits a ltac:(lia)) as Hd.
  pose proof (atoi_digits_dec a rest ltac:(lia) Hr) as Hv.
  destruct (dec_nonempty a) as (c & ds & E). rewrite E in *. cbn in Hd. apply andb_true_iff in Hd as [Hc Hd].
  cbn [sapp] in *. cbn [atoi_digits] in Hv. rewrite Hc in Hv.
  destruct (isdigit_plain c Hc) as (H1 & H2 & H3 & H4 & H5 & H6 & H7 & H8).
  unfold aspath_gettoken. cbn [skip_separators]. rewrite H1, H2. cbn [orb]. rewrite H3, H4, H5, H6, H7, H8, Hc.
  assert (u32 (code c - 48) = code c - 48) as Hw.
  { apply wrap_small. unfold isdigit in Hc. unfold in_u. lia. }
  pose proof (get_digits_value (sapp ds rest) (code c - 48)) as G1. rewrite Hw in G1.
  pose proof (get_digits_rest ds (code c - 48) rest Hd Hr) as G2.
  destruct (get_digits (code c - 48) (sapp ds rest)) as [v p]. cbn in G1, G2.
  rewrite Z.mul_0_r, Z.add_0_l in Hv. rewrite Hv, wrap_small in G1 by done. by rewrite G1, G2.
Qed.

(** A separator before a token is skipped. *)
Lemma gettoken_sep c s : (c = " " \/ c = ",")%char -> aspath_gettoken (String c s) = aspath_gettoken s.
Proof. intros [-> | ->]; done. Qed.

(** The parser's position moves over text: from enough fuel for [str] to enough fuel for [str']. *)
Definition moves (str : string) (st : pstate) (str' : string) (st' : pstate) : Prop :=
  forall n, (String.length str < n)%nat ->
  exists n', (String.length str' < n')%nat /\ str2aspath_loop n str st = str2aspath_loop n' str' st'.

Lemma moves_refl str st : moves str st str st.
Proof. intros n Hn. eauto. Qed.

Lemma moves_trans s1 st1 s2 st2 s3 st3 :
  moves s1 st1 s2 st2 -> moves s2 st2 s3 st3 -> moves s1 st1 s3 st3.
Proof. intros H1 H2 n Hn. destruct (H1 n Hn) as (m & Hm & ->). apply (H2 m Hm). Qed.

Lemma moves_token str st t str' st' :
  aspath_gettoken str = Some (t, str') -> token_step st t = Some st' ->
  (String.length str' < String.length str)%nat -> moves str st str' st'.
Proof.
  intros Hg Ht Hl n Hn. destruct n as [|n]; [lia |]. exists n. split; [lia |].
  cbn [str2aspath_loop]. rewrite Hg. cbn. by rewrite Ht.
Qed.

Lemma as_add_snoc p t l a :
  Z.of_nat (length l) < 65535 -> aspath_as_add (p ++ [mk_seg t l]) a = p ++ [mk_seg t (l ++ [a])].
Proof.
  intros H. induction p as [|s p IH]; cbn [app].
  - cbn. rewrite append_small; [done |]. unfold seg_length. cbn [length as_]. lia.
  - destruct p as [|s' p]; cbn in *; by rewrite IH.
Qed.

(** The numbers of a segment are appended to the last segment. *)
Lemma moves_numbers l : forall sep p t acc ty rest,
  (sep = " " \/ sep = ",")%char -> Forall (fun a => 0 <= a < 2 ^ 32) l ->
  Z.of_nat (length acc + length l) < 65536 -> ends_number rest ->
  moves (sapp (asns_text sep l) rest) (mk_pstate (p ++ [mk_seg t acc]) ty false)
        rest (mk_pstate (p ++ [mk_seg t (acc ++ l)]) ty false).
Proof.
  induction l as [|a l IH]; intros sep p t acc ty rest Hsep Ha Hb Hr; cbn [asns_text].
  { rewrite app_nil_r. apply moves_refl. }
  inversion Ha; subst. cbn [length] in Hb. rewrite sapp_assoc.
  set (rest' := sapp (match l with [] => EmptyString | _ => String sep (asns_text sep l) end) rest).
  assert (ends_number rest') as Hr'.
  { unfold rest'. destruct l; [done |]. intros c s [= <- _]. by destruct Hsep as [-> | ->]. }
  eapply moves_trans.
  - apply (moves_token _ _ (as_token_asval a) rest'); [by apply gettoken_number | done |].
    destruct (dec_nonempty a) as (c & s & ->). fold rest'. cbn.
    assert (forall s t, (String.length t <= String.length (sapp s t))%nat) as Hle
      by (clear; induction s; cbn; intros; [lia | specialize (IHs t); lia]).
    pose proof (Hle s rest'). lia.
  - cbn [ps_need ps_path ps_type]. rewrite as_add_snoc by lia. unfold rest'. destruct l as [|b l].
    + cbn [sapp]. apply moves_refl.
    + cbn [sapp]. specialize (IH sep p t (acc ++ [a]) ty rest Hsep ltac:(done)).
      rewrite <- app_assoc in IH. cbn [app] in IH.
      intros n Hn. destruct (IH ltac:(rewrite length_app; cbn [length] in *; lia) Hr n) as (n' & Hn' & E).
      { cbn [String.length] in Hn. lia. }
      exists n'. split; [done |]. rewrite <- E. destruct n; [lia |]. cbn [str2aspath_loop].
      by rewrite gettoken_sep.
Qed.

Lemma ends_number_char c s : isdigit c = false -> ends_number (String c s).
Proof. intros H d t [= <- _]. exact H. Qed.

(** Bracketed segments: the opening token adds the segment, the closing one asks for a new type. *)
Lemma moves_bracketed op cl tok_op tok_cl sep l p ty0 need ty rest :
  (sep = " " \/ sep = ",")%char -> Forall (fun a => 0 <= a < 2 ^ 32) l -> Z.of_nat (length l) < 65536 ->
  isdigit cl = false ->
  (forall s, aspath_gettoken (String op s) = Some (tok_op, s)) ->
  (forall s, aspath_gettoken (String cl s) = Some (tok_cl, s)) ->
  (forall p t n, token_step (mk_pstate p t n) tok_op = Some (mk_pstate (aspath_segment_add p ty) ty false)) ->
  (forall p t n, token_step (mk_pstate p t n) tok_cl = Some (mk_pstate p AS_SEQUENCE true)) ->
  moves (String op (sapp (sapp (asns_text sep l) (chr cl)) rest)) (mk_pstate p ty0 need)
        rest (mk_pstate (p ++ [mk_seg ty l]) AS_SEQUENCE true).
Proof.
  intros Hsep Ha Hl Hcl G1 G2 T1 T2. rewrite sapp_assoc. eapply moves_trans; [| eapply moves_trans].
  - eapply moves_token; [apply G1 | apply T1 | cbn; lia].
  - apply (moves_numbers l sep p ty [] ty (sapp (chr cl) rest)); try done. by apply ends_number_char.
  - eapply moves_token; [apply G2 | apply T2 | cbn; lia].
Qed.

Lemma moves_segment s p need rest :
  text_seg s -> (need = true \/ as_type s <> AS_SEQUENCE) -> ends_number rest ->
  moves (sapp (seg_text s) rest) (mk_pstate p AS_SEQUENCE need)
        rest (mk_pstate (p ++ [s]) AS_SEQUENCE (negb (as_type s =? AS_SEQUENCE))).
Proof.
  intros (Hv & Hl & Ha & Hne) Hneed Hr. destruct s as [t l]. cbn [as_type as_] in *. unfold seg_length in Hl. cbn in Hl.
  unfold seg_text. cbn [as_type as_]. destruct (Z.eqb_spec t AS_SEQUENCE) as [-> | Ht].
  - destruct Hneed as [-> | ?]; [| done]. destruct l as [|a l]; [by destruct (Hne eq_refl) |].
    intros n Hn. destruct (moves_numbers (a :: l) " " p AS_SEQUENCE [] AS_SEQUENCE rest) with (n := n)
      as (n' & Hn' & E); [by left | done | cbn in *; lia | done | done |].
    exists n'. split; [done |]. cbn [app negb] in *. rewrite <- E. destruct n; [lia |].
    cbn [is_set AS_SEQUENCE AS_SET AS_CONFED_SET Z.eqb Pos.eqb orb] in *.
    cbn [str2aspath_loop asns_text] in *. rewrite sapp_assoc, gettoken_number; [done | by inversion Ha |].
    destruct l as [|b l]; [done | by apply ends_number_char].
  - unfold valid_type in Hv. rewrite !orb_true_iff, !Z.eqb_eq in Hv. cbn [sapp negb].
    destruct Hv as [[[-> | ->] | ->] | ->]; [done | | |].
    + apply (moves_bracketed _ _ as_token_set_start as_token_set_end); try done; by right.
    + apply (moves_bracketed _ _ as_token_confed_seq_start as_token_confed_seq_end); try done; by left.
    + apply (moves_bracketed _ _ as_token_confed_set_start as_token_confed_set_end); try done; by right.
Qed.

Lemma moves_path p : forall q need,
  text_ok p -> (need = true \/ match p with s :: _ => as_type s <> AS_SEQUENCE | [] => True end) ->
  exists need', moves (path_text p) (mk_pstate q AS_SEQUENCE need) EmptyString (mk_pstate (q ++ p) AS_SEQUENCE need').
Proof.
  induction p as [|s p IH]; intros q need [Hu Hp] Hneed; cbn [path_text].
  { exists need. rewrite app_nil_r. apply moves_refl. }
  inversion Hp as [|?? Hs Hp']; subst. destruct p as [|n p].
  - eexists. eapply moves_segment; [done | done | by intros ? ? ?].
  - assert (text_ok (n :: p)) as Hok by (split; [cbn in Hu |- *; by apply andb_true_iff in Hu as [_ ?] | done]).
    destruct (IH (q ++ [s]) (negb (as_type s =? AS_SEQUENCE)) Hok) as (need' & H).
    { cbn in Hu. apply andb_true_iff in Hu as [Hu _]. apply negb_true_iff in Hu.
      destruct (Z.eqb_spec (as_type s) AS_SEQUENCE); [right | by left]. intros ?.
      by rewrite (proj2 (packable_seq _ _)) in Hu. }
    exists need'. rewrite <- app_assoc in H. cbn [app] in H. eapply moves_trans.
    + apply moves_segment; [done | done | by apply ends_number_char].
    + intros k Hk. destruct (H k) as (k' & Hk' & E); [cbn [String.length] in Hk; lia |]. exists k'. split; [done |].
      rewrite <- E. destruct k; [lia |]. cbn [str2aspath_loop]. by rewrite gettoken_sep by by left.
Qed.

(** C32: The text form of AS paths is faithful: for a path of 32-bit AS numbers without empty or adjacent
    AS_SEQUENCE segments, [aspath_make_str_count] never overruns the buffer it sized and never fails its
    assertion, and [aspath_str2aspath] reads the text back as the same path, confederation segments
    and sets included. *)
Theorem aspath_text_roundtrip p :
  text_ok p ->
  exists str, aspath_make_str_count p = Ok (Some str) /\ aspath_str2aspath str = Some p.
Proof.
  intros Hok. exists (path_text p). split.
  - destruct p as [|s p]; [done |]. unfold aspath_make_str_count.
    rewrite make_str_loop_spec; [done | apply Hok |]. unfold ASPATH_STR_DEFAULT_LEN. change (slen EmptyString) with 0. lia.
  - unfold aspath_str2aspath. destruct (moves_path p [] true Hok) as (need & H); [by left |].
    destruct (H (S (String.length (path_text p)))) as (n & Hn & ->); [lia |].
    destruct n; [lia |]. done.
Qed.

Lemma aspath_text_roundtrip_witness :
  exists str, aspath_make_str_count [mk_seg AS_CONFED_SEQUENCE [65001]; mk_seg AS_SEQUENCE [3320; 4294967295]; mk_seg AS_SET [1; 2]]
    = Ok (Some str) /\ aspath_str2aspath str =
    Some [mk_seg AS_CONFED_SEQUENCE [65001]; mk_seg AS_SEQUENCE [3320; 4294967295]; mk_seg AS_SET [1; 2]].
Proof.
  apply (aspath_text_roundtrip
    [mk_seg AS_CONFED_SEQUENCE [65001]; mk_seg AS_SEQUENCE [3320; 4294967295]; mk_seg AS_SET [1; 2]]).
  split; [reflexivity |]. unfold text_seg. repeat (constructor; [split; [reflexivity |]; split; [z_eval |]; split;
    [apply (bool_decide_unpack _); vm_compute; exact I | discriminate] |]). constructor.
Defined.
