(* ===== verification/BgpDecision.v ===== *)
(** * bgpd/bgp_route.c: the BGP decision process

    [bgp_info_cmp] decides which of two routes to a network is better, [bgp_best_selection] picks the best
    of all routes of a table node.  The functions of bgpd.c they use ([peer_sort],
    [bgp_confederation_peers_check]) are here as well; the AS path functions are those of Aspath.v and
    [sockunion_cmp] is that of Inet.v.

    [bgp_best_selection] is modelled for the default configuration [maximum-paths 1] ([do_mpath] false):
    the multipath list is then empty, and what bgp_mpath.c does to the routes' multipath data is not
    part of the state. *)

From S2P Require Import Prelude Prefix Stream Aspath CString Inet.
Local Open Scope Z_scope.

(** ** Data *)

Definition BGP_ATTR_MULTI_EXIT_DISC : Z := 4.
Definition BGP_ATTR_LOCAL_PREF : Z := 5.
Definition BGP_ATTR_ORIGINATOR_ID : Z := 9.
Definition BGP_ATTR_CLUSTER_LIST : Z := 10.
Definition BGP_MED_MAX : Z := 2 ^ 32 - 1.

Definition ATTR_FLAG_BIT (x : Z) : Z := Z.shiftl 1 (x - 1).

Definition BGP_INFO_DAMPED : Z := 2.
Definition BGP_INFO_HISTORY : Z := 4.
Definition BGP_INFO_SELECTED : Z := 8.
Definition BGP_INFO_VALID : Z := 16.
Definition BGP_INFO_DMED_CHECK : Z := 64.
Definition BGP_INFO_DMED_SELECTED : Z := 128.
Definition BGP_INFO_REMOVED : Z := 512.
Definition BGP_INFO_UNUSEABLE : Z := Z.lor (Z.lor BGP_INFO_HISTORY BGP_INFO_DAMPED) BGP_INFO_REMOVED.

Inductive bgp_sub_type := BGP_ROUTE_NORMAL | BGP_ROUTE_STATIC | BGP_ROUTE_AGGREGATE | BGP_ROUTE_REDISTRIBUTE.
Global Instance bgp_sub_type_eq_dec : EqDecision bgp_sub_type.
Proof. solve_decision. Defined.

Inductive peer_kind := BGP_PEER_IBGP | BGP_PEER_EBGP | BGP_PEER_INTERNAL | BGP_PEER_CONFED.
Global Instance peer_kind_eq_dec : EqDecision peer_kind.
Proof. solve_decision. Defined.

(** The fields of [struct bgp] that are read: the configuration flags by name. *)
Record bgp := mk_bgp {
  bgp_as : Z; bgp_confederation : bool; confed_id : Z; confed_peers : list Z; default_local_pref : Z;
  always_compare_med : bool; deterministic_med : bool; med_missing_as_worst : bool; med_confed : bool;
  compare_router_id : bool; aspath_ignore : bool; aspath_confed : bool }.

(** [group_head] is the [local_as] and [as] of the first peer of a peer group. *)
Record peer := mk_peer {
  is_group : bool; group_head : option (Z * Z); peer_as : Z; local_as : Z;
  remote_id : list Z; su_remote : sockunion }.

(** [cluster] is [cluster->length]. *)
Record attr_extra := mk_extra { weight : Z; originator_id : list Z; cluster : Z }.
Record attr := mk_attr { aflag : Z; local_pref : Z; med : Z; origin : Z; a_aspath : aspath; extra : option attr_extra }.

(** [bi_id] stands for the address of the structure. *)
Record bgp_info := mk_info {
  bi_id : Z; bi_peer : peer; bi_attr : attr; igpmetric : option Z; bi_flags : Z; bi_sub_type : bgp_sub_type }.

Definition set_flags (f : Z) (ri : bgp_info) : bgp_info :=
  mk_info (bi_id ri) (bi_peer ri) (bi_attr ri) (igpmetric ri) f (bi_sub_type ri).

Definition BGP_INFO_HOLDDOWN (bi : bgp_info) : bool :=
  negb (CHECK_FLAG (bi_flags bi) BGP_INFO_VALID) || CHECK_FLAG (bi_flags bi) BGP_INFO_UNUSEABLE.

(** ** Peers *)

Definition bgp_confederation_peers_check (b : bgp) (as_no : Z) : bool :=
  existsb (fun a => a =? as_no) (confed_peers b).

Definition peer_sort (b : bgp) (p : peer) : peer_kind :=
  if is_group p then
    if negb (peer_as p =? 0) then (if bgp_as b =? peer_as p then BGP_PEER_IBGP else BGP_PEER_EBGP)
    else match group_head p with
         | Some (l, a) => if l =? a then BGP_PEER_IBGP else BGP_PEER_EBGP
         | None => BGP_PEER_INTERNAL
         end
  else if bgp_confederation b then
    if local_as p =? 0 then BGP_PEER_INTERNAL
    else if local_as p =? peer_as p then
      if local_as p =? confed_id b then BGP_PEER_EBGP else BGP_PEER_IBGP
    else if bgp_confederation_peers_check b (peer_as p) then BGP_PEER_CONFED
    else BGP_PEER_EBGP
  else if local_as p =? 0 then BGP_PEER_INTERNAL
  else if local_as p =? peer_as p then BGP_PEER_IBGP else BGP_PEER_EBGP.

(** ** Comparing two routes *)

Definition bgp_med_value (a : attr) (b : bgp) : Z :=
  if CHECK_FLAG (aflag a) (ATTR_FLAG_BIT BGP_ATTR_MULTI_EXIT_DISC) then med a
  else if med_missing_as_worst b then BGP_MED_MAX else 0.

Definition attr_weight (a : attr) : Z := match extra a with Some e => weight e | None => 0 end.

Definition attr_pref (b : bgp) (a : attr) : Z :=
  if CHECK_FLAG (aflag a) (ATTR_FLAG_BIT BGP_ATTR_LOCAL_PREF) then local_pref a else default_local_pref b.

(** [attr->extra->originator_id] or [peer->remote_id]; a flag without [extra] dereferences NULL. *)
Definition router_id (ri : bgp_info) : res (list Z) :=
  if CHECK_FLAG (aflag (bi_attr ri)) (ATTR_FLAG_BIT BGP_ATTR_ORIGINATOR_ID)
  then match extra (bi_attr ri) with Some e => Ok (originator_id e) | None => Oob end
  else Ok (remote_id (bi_peer ri)).

Definition cluster_length (ri : bgp_info) : res Z :=
  if CHECK_FLAG (aflag (bi_attr ri)) (ATTR_FLAG_BIT BGP_ATTR_CLUSTER_LIST)
  then match extra (bi_attr ri) with Some e => Ok (cluster e) | None => Oob end
  else Ok 0.

Definition metric (ri : bgp_info) : Z := match igpmetric ri with Some m => m | None => 0 end.

(** [if (a > b) return 1; if (a < b) return 0;] and go on; the result pairs the return value with
    [*paths_eq]. *)
Definition prefer_higher (a b : Z) (k : res (bool * bool)) : res (bool * bool) :=
  if a >? b then Ok (true, false) else if a <? b then Ok (false, false) else k.
Definition prefer_lower (a b : Z) (eq : bool) (k : res (bool * bool)) : res (bool * bool) :=
  if a <? b then Ok (true, eq) else if a >? b then Ok (false, eq) else k.
Definition prefer_kind (t : bgp_sub_type) (new exist : bgp_info) (k : res (bool * bool)) : res (bool * bool) :=
  if bool_decide (bi_sub_type new = t) then Ok (true, false)
  else if bool_decide (bi_sub_type exist = t) then Ok (false, false) else k.

(** Steps 11 to 13: router id, cluster list length, peer address. *)
Definition cmp_router (new exist : bgp_info) (eq : bool) : res (bool * bool) :=
  new_id ← router_id new;
  exist_id ← router_id exist;
  prefer_lower (ntohl new_id) (ntohl exist_id) eq (
    new_cluster ← cluster_length new;
    exist_cluster ← cluster_length exist;
    prefer_lower new_cluster exist_cluster eq (
      let ret := sockunion_cmp (su_remote (bi_peer new)) (su_remote (bi_peer exist)) in
      if ret =? 1 then Ok (false, eq) else Ok (true, eq))).

(** Steps 7 to 10: peer type, IGP metric, multipath equality, oldest external route. *)
Definition cmp_peer (b : bgp) (new exist : bgp_info) : res (bool * bool) :=
  let ns := peer_sort b (bi_peer new) in
  let es := peer_sort b (bi_peer exist) in
  if bool_decide (ns = BGP_PEER_EBGP) && bool_decide (es = BGP_PEER_IBGP) then Ok (true, false)
  else if bool_decide (ns = BGP_PEER_EBGP) && bool_decide (es = BGP_PEER_CONFED) then Ok (true, false)
  else if bool_decide (ns = BGP_PEER_IBGP) && bool_decide (es = BGP_PEER_EBGP) then Ok (false, false)
  else if bool_decide (ns = BGP_PEER_CONFED) && bool_decide (es = BGP_PEER_EBGP) then Ok (false, false)
  else
    prefer_lower (metric new) (metric exist) false (
      let paths_eq := if bool_decide (ns = BGP_PEER_IBGP)
                      then aspath_cmp (a_aspath (bi_attr new)) (a_aspath (bi_attr exist))
                      else peer_as (bi_peer new) =? peer_as (bi_peer exist) in
      if negb (compare_router_id b) && bool_decide (ns = BGP_PEER_EBGP) && bool_decide (es = BGP_PEER_EBGP) then
        if CHECK_FLAG (bi_flags new) BGP_INFO_SELECTED then Ok (true, paths_eq)
        else if CHECK_FLAG (bi_flags exist) BGP_INFO_SELECTED then Ok (false, paths_eq)
        else cmp_router new exist paths_eq
      else cmp_router new exist paths_eq).

(** Is the MED compared?  The operands of || are evaluated from left to right. *)
Definition compares_med (b : bgp) (new exist : aspath) : res bool :=
  let internal_as_route := (aspath_count_hops new =? 0) && (aspath_count_hops exist =? 0) in
  let confed_as_route := (aspath_count_confeds new >? 0) && (aspath_count_confeds exist >? 0)
                         && (aspath_count_hops new =? 0) && (aspath_count_hops exist =? 0) in
  if always_compare_med b || (med_confed b && confed_as_route) then Ok true
  else
    left_ ← aspath_cmp_left (Some new) (Some exist);
    if left_ : bool then Ok true
    else
      confed ← aspath_cmp_left_confed (Some new) (Some exist);
      if confed : bool then Ok true else Ok internal_as_route.

(** Steps 4 to 6: AS path length, origin, MED. *)
Definition cmp_path (b : bgp) (new exist : bgp_info) : res (bool * bool) :=
  let np := a_aspath (bi_attr new) in
  let ep := a_aspath (bi_attr exist) in
  let after_length :=
    prefer_lower (origin (bi_attr new)) (origin (bi_attr exist)) false (
      med_compared ← compares_med b np ep;
      if med_compared : bool
      then prefer_lower (bgp_med_value (bi_attr new) b) (bgp_med_value (bi_attr exist) b) false (cmp_peer b new exist)
      else cmp_peer b new exist) in
  if aspath_ignore b then after_length
  else if aspath_confed b
  then prefer_lower (aspath_count_hops np + aspath_count_confeds np)
         (aspath_count_hops ep + aspath_count_confeds ep) false after_length
  else prefer_lower (aspath_count_hops np) (aspath_count_hops ep) false after_length.

(** [bgp_info_cmp (bgp, new, exist, &paths_eq)]: [None] is a NULL pointer. *)
Definition bgp_info_cmp (b : bgp) (new exist : option bgp_info) : res (bool * bool) :=
  match new, exist with
  | None, _ => Ok (false, false)
  | Some _, None => Ok (true, false)
  | Some n, Some e =>
      prefer_higher (attr_weight (bi_attr n)) (attr_weight (bi_attr e)) (
      prefer_higher (attr_pref b (bi_attr n)) (attr_pref b (bi_attr e)) (
      prefer_kind BGP_ROUTE_STATIC n e (
      prefer_kind BGP_ROUTE_REDISTRIBUTE n e (
      prefer_kind BGP_ROUTE_AGGREGATE n e (
      cmp_path b n e)))))
  end.

(** ** Selecting the best route of a node *)

(** [bgp_info_set_flag] and [bgp_info_unset_flag] for flags that do not change whether a route is usable
    (the prefix count is left alone), on the route at position [i] of the node's list. *)
Definition set_flag_at (f : Z) (i : nat) (l : list bgp_info) : list bgp_info :=
  alter (fun ri => set_flags (SET_FLAG (bi_flags ri) f) ri) i l.
Definition unset_flag_at (f : Z) (i : nat) (l : list bgp_info) : list bgp_info :=
  alter (fun ri => set_flags (UNSET_FLAG (bi_flags ri) f) ri) i l.

(** [CHECK_FLAG (ri->flags, BGP_INFO_DMED_CHECK)] or held down: the route is skipped *)
Definition dmed_skip (ri : bgp_info) : bool :=
  CHECK_FLAG (bi_flags ri) BGP_INFO_DMED_CHECK || BGP_INFO_HOLDDOWN ri.

(** The loop over [ri2] at positions [js]: [new_select] is a position. *)
Fixpoint dmed_inner (b : bgp) (ri1 : nat) (js : list nat) (new_select : nat) (l : list bgp_info)
    : res (nat * list bgp_info) :=
  match js with
  | [] => Ok (new_select, l)
  | j :: js' =>
      match l !! ri1, l !! j, l !! new_select with
      | Some r1, Some r2, Some sel =>
          if dmed_skip r2 then dmed_inner b ri1 js' new_select l
          else
            left_ ← aspath_cmp_left (Some (a_aspath (bi_attr r1))) (Some (a_aspath (bi_attr r2)));
            same ← (if left_ : bool then Ok true
                    else aspath_cmp_left_confed (Some (a_aspath (bi_attr r1))) (Some (a_aspath (bi_attr r2))));
            if same : bool then
              '(better, _) ← bgp_info_cmp b (Some r2) (Some sel);
              let l := if better : bool then unset_flag_at BGP_INFO_DMED_SELECTED new_select l else l in
              let new_select := if better : bool then j else new_select in
              dmed_inner b ri1 js' new_select (set_flag_at BGP_INFO_DMED_CHECK j l)
            else dmed_inner b ri1 js' new_select l
      | _, _, _ => Oob
      end
  end.

(** The loop over [ri1] at positions [idx], of a list of [n] routes. *)
Fixpoint dmed_outer (b : bgp) (n : nat) (idx : list nat) (l : list bgp_info) : res (list bgp_info) :=
  match idx with
  | [] => Ok l
  | i :: idx' =>
      match l !! i with
      | None => Oob
      | Some r1 =>
          if dmed_skip r1 then dmed_outer b n idx' l
          else
            '(sel, l) ← dmed_inner b i (seq (S i) (n - S i)) i l;
            dmed_outer b n idx' (set_flag_at BGP_INFO_DMED_SELECTED sel (set_flag_at BGP_INFO_DMED_CHECK sel l))
      end
  end.

Definition dmed_pass (b : bgp) (l : list bgp_info) : res (list bgp_info) :=
  if deterministic_med b then dmed_outer b (length l) (seq 0 (length l)) l else Ok l.

(** The second loop: the routes that stay, [old_select] (as an address) and [new_select].  A reaped
    route is dropped. *)
Fixpoint select_loop (b : bgp) (l : list bgp_info) (old_select : option Z) (new_select : option bgp_info)
    : res (list bgp_info * option Z * option bgp_info) :=
  match l with
  | [] => Ok ([], old_select, new_select)
  | ri :: r =>
      let is_old := CHECK_FLAG (bi_flags ri) BGP_INFO_SELECTED in
      let old_select := if is_old then Some (bi_id ri) else old_select in
      if BGP_INFO_HOLDDOWN ri then
        '(r', o, n) ← select_loop b r old_select new_select;
        if CHECK_FLAG (bi_flags ri) BGP_INFO_REMOVED && negb is_old then Ok (r', o, n) else Ok (ri :: r', o, n)
      else
        let ri1 := set_flags (UNSET_FLAG (bi_flags ri) BGP_INFO_DMED_CHECK) ri in
        if deterministic_med b && negb (CHECK_FLAG (bi_flags ri) BGP_INFO_DMED_SELECTED) then
          '(r', o, n) ← select_loop b r old_select new_select; Ok (ri1 :: r', o, n)
        else
          let ri2 := set_flags (UNSET_FLAG (bi_flags ri1) BGP_INFO_DMED_SELECTED) ri1 in
          '(better, _) ← bgp_info_cmp b (Some ri2) new_select;
          '(r', o, n) ← select_loop b r old_select (if better : bool then Some ri2 else new_select);
          Ok (ri2 :: r', o, n)
  end.

(** [bgp_best_selection]: the node's list afterwards, [result->old] and [result->new]. *)
Definition bgp_best_selection (b : bgp) (info : list bgp_info)
    : res (list bgp_info * option Z * option bgp_info) :=
  l ← dmed_pass b info;
  select_loop b l None None.
