(* ===== verification/BgpDecisionProofs.v ===== *)
(** * The BGP decision process: theorems

    With MED comparison between all routes and router-id comparison configured, [bgp_info_cmp] is the
    lexicographic comparison of one key per route (an abstract specification of RFC 4271, section 9.1.2,
    with this program's local extensions), so the selected route does not depend on the order of the
    routes.  Without these options it is not even transitive. *)

From S2P Require Import Prelude Prefix Stream Aspath CString Inet BgpDecision.
Local Open Scope Z_scope.

(** ** Lexicographic order *)

Fixpoint lex_le (a b : list Z) : bool :=
  match a, b with
  | [], _ => true
  | _ :: _, [] => false
  | x :: a', y :: b' => if x <? y then true else if y <? x then false else lex_le a' b'
  end.

Lemma lex_le_refl a : lex_le a a = true.
Proof. induction a as [|x a IH]; cbn; [done |]. by rewrite Z.ltb_irrefl. Qed.

Lemma lex_le_total a b : lex_le a b = true \/ lex_le b a = true.
Proof.
  revert b. induction a as [|x a IH]; intros [|y b]; cbn; auto.
  destruct (Z.ltb_spec x y), (Z.ltb_spec y x); auto; lia.
Qed.

Lemma lex_le_trans a b c : lex_le a b = true -> lex_le b c = true -> lex_le a c = true.
Proof.
  revert b c. induction a as [|x a IH]; intros [|y b] [|z c]; cbn; try done.
  destruct (Z.ltb_spec x y), (Z.ltb_spec y x), (Z.ltb_spec y z), (Z.ltb_spec z y), (Z.ltb_spec x z), (Z.ltb_spec z x);
    try done; try lia. apply IH.
Qed.

Lemma lex_le_antisym a b : lex_le a b = true -> lex_le b a = true -> a = b.
Proof.
  revert b. induction a as [|x a IH]; intros [|y b]; cbn; try done.
  destruct (Z.ltb_spec x y), (Z.ltb_spec y x); try done; try lia. intros H1 H2. f_equal; [lia | auto].
Qed.

(** ** The key of a route: the bigger, the better *)

Definition sub_rank (t : bgp_sub_type) : Z :=
  match t with
  | BGP_ROUTE_STATIC => 3 | BGP_ROUTE_REDISTRIBUTE => 2 | BGP_ROUTE_AGGREGATE => 1 | BGP_ROUTE_NORMAL => 0
  end.

Definition path_length (b : bgp) (p : aspath) : Z :=
  if aspath_ignore b then 0
  else if aspath_confed b then aspath_count_hops p + aspath_count_confeds p else aspath_count_hops p.

Definition rid (ri : bgp_info) : Z :=
  ntohl (match router_id ri with Ok l => l | _ => [] end).
Definition clen (ri : bgp_info) : Z := match cluster_length ri with Ok n => n | _ => 0 end.

Fixpoint neg_bytes (l : list Z) (i : Z) (n : nat) : list Z :=
  match n with O => [] | S n' => - byte_at l i :: neg_bytes l (i + 1) n' end.
Definition addr_key (su : sockunion) : list Z :=
  - sa_family su ::
  (if sa_family su =? AF_INET then [- ntohl (sin_addr su)]
   else if sa_family su =? AF_INET6 then neg_bytes (sin6_addr su) 0 16 else []).

Definition path_key (b : bgp) (ri : bgp_info) : list Z :=
  - path_length b (a_aspath (bi_attr ri)) :: - origin (bi_attr ri) :: - bgp_med_value (bi_attr ri) b ::
  (if bool_decide (peer_sort b (bi_peer ri) = BGP_PEER_EBGP) then 1 else 0) ::
  - metric ri :: - rid ri :: - clen ri :: addr_key (su_remote (bi_peer ri)).

Definition route_key (b : bgp) (ri : bgp_info) : list Z :=
  attr_weight (bi_attr ri) :: attr_pref b (bi_attr ri) :: sub_rank (bi_sub_type ri) ::
  (if bool_decide (bi_sub_type ri = BGP_ROUTE_NORMAL) then path_key b ri else []).

(** What bgpd guarantees of a route: the flags that need [attr->extra] come with it, and a route learned
    from a peer has a peer that is not the router itself. *)
Definition route_ok (b : bgp) (ri : bgp_info) : Prop :=
  (extra (bi_attr ri) = None ->
     CHECK_FLAG (aflag (bi_attr ri)) (ATTR_FLAG_BIT BGP_ATTR_ORIGINATOR_ID) = false /\
     CHECK_FLAG (aflag (bi_attr ri)) (ATTR_FLAG_BIT BGP_ATTR_CLUSTER_LIST) = false) /\
  (bi_sub_type ri = BGP_ROUTE_NORMAL -> peer_sort b (bi_peer ri) <> BGP_PEER_INTERNAL).

(** ** The comparison is the order of the keys *)

(** [m] returns the comparison of the keys [ke <= kn]. *)
Definition decides (m : res (bool * bool)) (ke kn : list Z) : Prop := exists eq, m = Ok (lex_le ke kn, eq).

Lemma decides_higher a b k ke kn : decides k ke kn -> decides (prefer_higher a b k) (b :: ke) (a :: kn).
Proof.
  intros [eq ->]. unfold decides, prefer_higher. cbn. rewrite Z.gtb_ltb.
  destruct (b <? a); [by eexists |]. destruct (a <? b); by eexists.
Qed.

Lemma decides_lower a b e k ke kn : decides k ke kn -> decides (prefer_lower a b e k) (- b :: ke) (- a :: kn).
Proof.
  intros [eq ->]. unfold decides, prefer_lower. cbn. rewrite Z.gtb_ltb.
  assert ((- b <? - a) = (a <? b)) as -> by (destruct (Z.ltb_spec a b), (Z.ltb_spec (- b) (- a)); lia).
  assert ((- a <? - b) = (b <? a)) as -> by (destruct (Z.ltb_spec b a), (Z.ltb_spec (- a) (- b)); lia).
  destruct (a <? b); [by eexists |]. destruct (b <? a); by eexists.
Qed.

Lemma in6addr_cmp_lex p q n : forall i,
  lex_le (neg_bytes q i n) (neg_bytes p i n) = negb (in6addr_cmp_from p q i n =? 1).
Proof.
  induction n as [|n IH]; intros i; cbn; [done |]. rewrite Z.gtb_ltb.
  assert ((- byte_at q i <? - byte_at p i) = (byte_at p i <? byte_at q i)) as ->
    by (destruct (Z.ltb_spec (byte_at p i) (byte_at q i)), (Z.ltb_spec (- byte_at q i) (- byte_at p i)); lia).
  assert ((- byte_at p i <? - byte_at q i) = (byte_at q i <? byte_at p i)) as ->
    by (destruct (Z.ltb_spec (byte_at q i) (byte_at p i)), (Z.ltb_spec (- byte_at p i) (- byte_at q i)); lia).
  destruct (Z.ltb_spec (byte_at q i) (byte_at p i)), (Z.ltb_spec (byte_at p i) (byte_at q i)); try done; try lia.
Qed.

Lemma sockunion_cmp_lex a b : lex_le (addr_key b) (addr_key a) = negb (sockunion_cmp a b =? 1).
Proof.
  unfold addr_key, sockunion_cmp. cbn [lex_le]. rewrite Z.gtb_ltb.
  assert ((- sa_family b <? - sa_family a) = (sa_family a <? sa_family b)) as ->
    by (destruct (Z.ltb_spec (sa_family a) (sa_family b)), (Z.ltb_spec (- sa_family b) (- sa_family a)); lia).
  assert ((- sa_family a <? - sa_family b) = (sa_family b <? sa_family a)) as ->
    by (destruct (Z.ltb_spec (sa_family b) (sa_family a)), (Z.ltb_spec (- sa_family a) (- sa_family b)); lia).
  destruct (Z.ltb_spec (sa_family a) (sa_family b)), (Z.ltb_spec (sa_family b) (sa_family a)); try done; try lia.
  assert (sa_family b = sa_family a) as -> by lia. destruct (sa_family a =? AF_INET).
  - cbn [lex_le]. rewrite Z.gtb_ltb.
    destruct (Z.eqb_spec (ntohl (sin_addr a)) (ntohl (sin_addr b))),
      (Z.ltb_spec (ntohl (sin_addr b)) (ntohl (sin_addr a))),
      (Z.ltb_spec (- ntohl (sin_addr b)) (- ntohl (sin_addr a))),
      (Z.ltb_spec (- ntohl (sin_addr a)) (- ntohl (sin_addr b))); try done; lia.
  - destruct (sa_family a =? AF_INET6); [apply in6addr_cmp_lex | done].
Qed.

Section ordered.
Context (b : bgp) (MED : always_compare_med b = true) (RID : compare_router_id b = true).

Lemma cmp_router_decides n e eq :
  route_ok b n -> route_ok b e ->
  decides (cmp_router n e eq) (- rid e :: - clen e :: addr_key (su_remote (bi_peer e)))
    (- rid n :: - clen n :: addr_key (su_remote (bi_peer n))).
Proof.
  intros [Hn _] [He _]. unfold cmp_router.
  assert (forall ri, (extra (bi_attr ri) = None ->
     CHECK_FLAG (aflag (bi_attr ri)) (ATTR_FLAG_BIT BGP_ATTR_ORIGINATOR_ID) = false /\
     CHECK_FLAG (aflag (bi_attr ri)) (ATTR_FLAG_BIT BGP_ATTR_CLUSTER_LIST) = false) ->
     (exists l, router_id ri = Ok l /\ ntohl l = rid ri) /\ cluster_length ri = Ok (clen ri)) as G.
  { intros ri H. unfold rid, clen, router_id, cluster_length. destruct (extra (bi_attr ri)) as [x|].
    - destruct (CHECK_FLAG (aflag (bi_attr ri)) (ATTR_FLAG_BIT BGP_ATTR_ORIGINATOR_ID)),
        (CHECK_FLAG (aflag (bi_attr ri)) (ATTR_FLAG_BIT BGP_ATTR_CLUSTER_LIST)); (split; [by eexists | done]).
    - destruct (H eq_refl) as [-> ->]. split; [by eexists | done]. }
  destruct (G n Hn) as [(ln & -> & En) ->]. destruct (G e He) as [(le & -> & Ee) ->]. cbn [mbind res_bind].
  rewrite <- En, <- Ee. apply decides_lower, decides_lower. eexists. rewrite sockunion_cmp_lex.
  by destruct (sockunion_cmp _ _ =? 1).
Qed.

Lemma cmp_peer_decides n e :
  route_ok b n -> route_ok b e -> bi_sub_type n = BGP_ROUTE_NORMAL -> bi_sub_type e = BGP_ROUTE_NORMAL ->
  decides (cmp_peer b n e)
    ((if bool_decide (peer_sort b (bi_peer e) = BGP_PEER_EBGP) then 1 else 0) ::
       - metric e :: - rid e :: - clen e :: addr_key (su_remote (bi_peer e)))
    ((if bool_decide (peer_sort b (bi_peer n) = BGP_PEER_EBGP) then 1 else 0) ::
       - metric n :: - rid n :: - clen n :: addr_key (su_remote (bi_peer n))).
Proof.
  intros Hn He Sn Se. pose proof (proj2 Hn Sn) as In. pose proof (proj2 He Se) as Ie.
  unfold cmp_peer. cbn zeta. rewrite RID. cbn [negb andb].
  set (tail := prefer_lower _ _ _ _).
  assert (decides tail (- metric e :: - rid e :: - clen e :: addr_key (su_remote (bi_peer e)))
    (- metric n :: - rid n :: - clen n :: addr_key (su_remote (bi_peer n)))) as [eq Ht]
    by (apply decides_lower; by apply cmp_router_decides).
  clearbody tail. unfold decides.
  destruct (peer_sort b (bi_peer n)), (peer_sort b (bi_peer e)); try done; cbn; rewrite ?Ht; by eexists.
Qed.

Lemma cmp_path_decides n e :
  route_ok b n -> route_ok b e -> bi_sub_type n = BGP_ROUTE_NORMAL -> bi_sub_type e = BGP_ROUTE_NORMAL ->
  decides (cmp_path b n e) (path_key b e) (path_key b n).
Proof.
  intros Hn He Sn Se. unfold cmp_path, path_key, path_length. cbn zeta.
  set (after := prefer_lower (origin _) _ _ _).
  assert (decides after (- origin (bi_attr e) :: - bgp_med_value (bi_attr e) b :: 
      (if bool_decide (peer_sort b (bi_peer e) = BGP_PEER_EBGP) then 1 else 0) ::
       - metric e :: - rid e :: - clen e :: addr_key (su_remote (bi_peer e)))
     (- origin (bi_attr n) :: - bgp_med_value (bi_attr n) b ::
      (if bool_decide (peer_sort b (bi_peer n) = BGP_PEER_EBGP) then 1 else 0) ::
       - metric n :: - rid n :: - clen n :: addr_key (su_remote (bi_peer n)))) as Ha.
  { apply decides_lower. unfold compares_med. rewrite MED. cbn [orb mbind res_bind].
    apply decides_lower. by apply cmp_peer_decides. }
  clearbody after. destruct (aspath_ignore b).
  - destruct Ha as [eq ->]. eexists. done.
  - destruct (aspath_confed b); by apply decides_lower.
Qed.

Lemma bgp_info_cmp_decides n e :
  route_ok b n -> route_ok b e -> decides (bgp_info_cmp b (Some n) (Some e)) (route_key b e) (route_key b n).
Proof.
  intros Hn He. unfold bgp_info_cmp, route_key. apply decides_higher, decides_higher.
  pose proof (cmp_path_decides n e Hn He) as Hp. unfold prefer_kind, decides in *.
  destruct (bi_sub_type n) eqn:Sn, (bi_sub_type e) eqn:Se; cbn; try (by eexists).
  destruct (Hp eq_refl eq_refl) as [eq ->]. by eexists.
Qed.

End ordered.

(** ** Selection *)

Definition usable (ri : bgp_info) : Prop := BGP_INFO_HOLDDOWN ri = false.
Global Instance usable_dec ri : Decision (usable ri).
Proof. unfold usable. apply _. Defined.

(** [n] is at least as good as [r]. *)
Definition not_worse (b : bgp) (r n : bgp_info) : Prop := lex_le (route_key b r) (route_key b n) = true.

Lemma key_flags b f ri : route_key b (set_flags f ri) = route_key b ri.
Proof. done. Qed.

(** The outcome of scanning [l] with [acc] selected so far. *)
Definition best_of (b : bgp) (l : list bgp_info) (acc n : option bgp_info) : Prop :=
  match n with
  | None => acc = None /\ Forall (fun r => ~ usable r) l
  | Some m =>
      (acc = Some m \/ exists r, r ∈ l /\ usable r /\ bi_id m = bi_id r /\ route_key b m = route_key b r) /\
      (forall r, r ∈ l -> usable r -> not_worse b r m) /\ (forall a, acc = Some a -> not_worse b a m)
  end.

Lemma select_loop_best b l :
  always_compare_med b = true -> compare_router_id b = true -> deterministic_med b = false ->
  Forall (route_ok b) l -> forall old acc,
  (forall a, acc = Some a -> route_ok b a) ->
  exists l' o n, select_loop b l old acc = Ok (l', o, n) /\ best_of b l acc n.
Proof.
  intros MED RID DET. induction 1 as [|ri l Hri _ IH]; intros old acc Hacc; cbn [select_loop].
  { eexists _, _, acc. split; [done |]. destruct acc as [a|]; cbn; [| done].
    split; [by left |]. split; [intros r Hr; by apply list.not_elem_of_nil in Hr |].
    intros a' [= <-]. apply lex_le_refl. }
  destruct (BGP_INFO_HOLDDOWN ri) eqn:Hh.
  - destruct (IH (if CHECK_FLAG (bi_flags ri) BGP_INFO_SELECTED then Some (bi_id ri) else old) acc Hacc)
      as (l' & o & n & -> & Hb). cbn [mbind res_bind].
    assert (best_of b (ri :: l) acc n) as Hb'.
    { destruct n as [m|]; cbn in *.
      - destruct Hb as (H1 & H2 & H3). split; [| split; [| done]].
        + destruct H1 as [-> | (r & Hr & ?)]; [by left |]. right. exists r. split; [by right | done].
        + intros r Hr Hu. apply list.elem_of_cons in Hr as [-> | Hr]; [unfold usable in Hu; congruence | auto].
      - destruct Hb as [-> Hb]. split; [done |]. constructor; [unfold usable; congruence | done]. }
    destruct (_ && _); by do 3 eexists.
  - rewrite DET. cbn [andb]. set (ri2 := set_flags _ _).
    assert (route_ok b ri2) as Hok2 by exact Hri.
    assert (exists better eq, bgp_info_cmp b (Some ri2) acc = Ok (better, eq) /\
      match acc with Some a => better = lex_le (route_key b a) (route_key b ri2) | None => better = true end) as (better & eq & E & Hbet).
    { destruct acc as [a|]; [| by do 2 eexists].
      destruct (bgp_info_cmp_decides b MED RID ri2 a Hok2 (Hacc a eq_refl)) as [eq E]. by do 2 eexists. }
    rewrite E. cbn [mbind res_bind].
    set (acc' := if better then Some ri2 else acc).
    destruct (IH (if CHECK_FLAG (bi_flags ri) BGP_INFO_SELECTED then Some (bi_id ri) else old) acc')
      as (l' & o & n & -> & Hb).
    { intros a Ha. unfold acc' in Ha. destruct better; [by injection Ha as <- | auto]. }
    cbn [mbind res_bind]. do 3 eexists. split; [done |].
    assert (exists x, acc' = Some x /\ not_worse b ri2 x /\ (forall a, acc = Some a -> not_worse b a x) /\ (x = ri2 \/ acc = Some x))
      as (x & Ex & Hx1 & Hx2 & Hx3).
    { unfold acc', not_worse. destruct acc as [a|]; subst better; [| exists ri2; split_and!; auto using lex_le_refl; done].
      destruct (lex_le (route_key b a) (route_key b ri2)) eqn:Hl.
      - exists ri2. split_and!; auto using lex_le_refl. by intros ? [= <-].
      - exists a. split_and!; auto. + destruct (lex_le_total (route_key b a) (route_key b ri2)); congruence.
        + intros ? [= <-]. apply lex_le_refl. }
    rewrite Ex in Hb. destruct n as [m|]; cbn in *; [| by destruct Hb].
    destruct Hb as (H1 & H2 & H3). specialize (H3 x eq_refl). split; [| split].
    + destruct H1 as [[= ->] | (r & Hr & ?)]; [| right; exists r; split; [by right | done]].
      destruct Hx3 as [-> | ->]; [right; exists ri; split; [by left | done] | by left].
    + intros r Hr Hu. apply list.elem_of_cons in Hr as [-> | Hr]; [| auto].
      eapply lex_le_trans; [exact Hx1 | exact H3].
    + intros a Ha. eapply lex_le_trans; [by apply Hx2 | exact H3].
Qed.

(** *** Example routes *)

Definition ex_bgp (always det rid_ : bool) : bgp :=
  mk_bgp 65000 false 0 [] 100 always det false false rid_ false false.
Definition ex_peer (n : Z) : peer :=
  mk_peer false None 65000 65000 [10; 0; 0; n] (mk_sockunion AF_INET [10; 0; 0; n] []).
(** An IBGP route with the MED attribute: neighbour AS, MED and IGP metric as given. *)
Definition ex_route (n neighbour m igp : Z) : bgp_info :=
  mk_info n (ex_peer n) (mk_attr 8 0 m 0 [mk_seg AS_SEQUENCE [neighbour; 7]] None) (Some igp) 16 BGP_ROUTE_NORMAL.

Definition ex_x : bgp_info := ex_route 1 100 10 1.
Definition ex_y : bgp_info := ex_route 2 100 5 3.
Definition ex_z : bgp_info := ex_route 3 200 0 2.

(** By default MEDs are compared between routes of one neighbour AS only, and [bgp_info_cmp] is then
    not transitive: of the three routes below each is strictly better than the next in a circle, and
    [bgp_best_selection] returns different routes for different orders of the same three routes.  With
    "bgp deterministic-med" the two orders give the same route. *)
Theorem bgp_info_cmp_med_cycle :
  let b := ex_bgp false false true in
  let better r s := bgp_info_cmp b (Some r) (Some s) = Ok (true, false) /\
                    bgp_info_cmp b (Some s) (Some r) = Ok (false, false) in
  let selected b l := match bgp_best_selection b l with Ok (_, _, Some m) => Some (bi_id m) | _ => None end in
  Forall (route_ok b) [ex_x; ex_y; ex_z] /\
  better ex_y ex_x /\ better ex_x ex_z /\ better ex_z ex_y /\
  selected b [ex_x; ex_y; ex_z] <> selected b [ex_y; ex_z; ex_x] /\
  selected (ex_bgp false true true) [ex_x; ex_y; ex_z] = selected (ex_bgp false true true) [ex_y; ex_z; ex_x].
Proof.
  cbn zeta. split; [repeat constructor; discriminate |].
  split_and!; vm_compute; first [reflexivity | discriminate].
Qed.

(** *** The comparison always returns *)

Definition path_ok (p : aspath) : Prop := Forall (fun s => as_ s <> []) p.

Lemma as0_ok s : as_ s <> [] -> exists a, as0 s = Ok a.
Proof. unfold as0. destruct (as_ s); [done | eauto]. Qed.

Lemma skip_confed_ok p : path_ok p -> path_ok (skip_confed p).
Proof.
  induction p as [|s p IH]; intros H; [done |]. cbn. inversion H; subst. destruct (is_confed _); [by apply IH | done].
Qed.

Lemma cmp_left_total p q : path_ok p -> path_ok q -> exists r, aspath_cmp_left (Some p) (Some q) = Ok r.
Proof.
  intros Hp Hq. apply skip_confed_ok in Hp, Hq. cbn.
  destruct (skip_confed p) as [|s ?], (skip_confed q) as [|t ?]; try by eexists.
  inversion Hp; inversion Hq; subst. case_match; [| by eexists].
  destruct (as0_ok s) as [x ->]; [done |]. destruct (as0_ok t) as [y ->]; [done |]. by eexists.
Qed.

Lemma cmp_left_confed_total p q : path_ok p -> path_ok q -> exists r, aspath_cmp_left_confed (Some p) (Some q) = Ok r.
Proof.
  intros Hp Hq. cbn. destruct p as [|s p], q as [|t q]; try by eexists.
  inversion Hp; inversion Hq; subst. case_match; [by eexists |].
  destruct (as0_ok s) as [x ->]; [done |]. destruct (as0_ok t) as [y ->]; [done |]. by eexists.
Qed.

Lemma compares_med_total b p q : path_ok p -> path_ok q -> exists r, compares_med b p q = Ok r.
Proof.
  intros Hp Hq. unfold compares_med. cbn zeta. case_match; [by eexists |].
  destruct (cmp_left_total p q Hp Hq) as [[] ->]; cbn [mbind res_bind]; [by eexists |].
  destruct (cmp_left_confed_total p q Hp Hq) as [[] ->]; by eexists.
Qed.

(** What [bgp_info_cmp] needs of a route to return. *)
Definition route_sane (ri : bgp_info) : Prop :=
  path_ok (a_aspath (bi_attr ri)) /\
  (extra (bi_attr ri) = None ->
     CHECK_FLAG (aflag (bi_attr ri)) (ATTR_FLAG_BIT BGP_ATTR_ORIGINATOR_ID) = false /\
     CHECK_FLAG (aflag (bi_attr ri)) (ATTR_FLAG_BIT BGP_ATTR_CLUSTER_LIST) = false).

Lemma prefer_lower_total x y eq k : (exists r, k = Ok r) -> exists r, prefer_lower x y eq k = Ok r.
Proof. intros [r ->]. unfold prefer_lower. destruct (x <? y), (x >? y); by eexists. Qed.

Lemma cmp_router_total n e eq : route_sane n -> route_sane e -> exists r, cmp_router n e eq = Ok r.
Proof.
  intros [_ Hn] [_ He]. unfold cmp_router.
  assert (forall ri, (extra (bi_attr ri) = None ->
     CHECK_FLAG (aflag (bi_attr ri)) (ATTR_FLAG_BIT BGP_ATTR_ORIGINATOR_ID) = false /\
     CHECK_FLAG (aflag (bi_attr ri)) (ATTR_FLAG_BIT BGP_ATTR_CLUSTER_LIST) = false) ->
     exists l k, router_id ri = Ok l /\ cluster_length ri = Ok k) as G.
  { intros ri H. unfold router_id, cluster_length. destruct (extra (bi_attr ri)) as [x|].
    - destruct (CHECK_FLAG (aflag (bi_attr ri)) (ATTR_FLAG_BIT BGP_ATTR_ORIGINATOR_ID)),
        (CHECK_FLAG (aflag (bi_attr ri)) (ATTR_FLAG_BIT BGP_ATTR_CLUSTER_LIST)); eauto.
    - destruct (H eq_refl) as [-> ->]. eauto. }
  destruct (G n Hn) as (ln & kn & -> & ->). destruct (G e He) as (le & ke & -> & ->). cbn [mbind res_bind].
  do 2 apply prefer_lower_total. case_match; by eexists.
Qed.

Lemma cmp_peer_total b n e : route_sane n -> route_sane e -> exists r, cmp_peer b n e = Ok r.
Proof.
  intros Hn He. unfold cmp_peer. cbn zeta. do 4 (case_match; [by eexists |]). apply prefer_lower_total.
  repeat case_match; first [by apply cmp_router_total | by eexists].
Qed.

Lemma bgp_info_cmp_total b n e :
  route_sane n -> (forall x, e = Some x -> route_sane x) -> exists r, bgp_info_cmp b (Some n) e = Ok r.
Proof.
  intros Hn He. destruct e as [e|]; [| by eexists]. specialize (He e eq_refl). unfold bgp_info_cmp.
  unfold prefer_higher, prefer_kind. repeat (case_match; [by eexists |]).
  destruct (compares_med_total b _ _ (proj1 Hn) (proj1 He)) as [r Er].
  destruct (cmp_peer_total b n e Hn He) as [r' Er']. unfold cmp_path. cbn zeta. rewrite Er, Er'. cbn [mbind res_bind].
  destruct (aspath_ignore b), (aspath_confed b), r; repeat apply prefer_lower_total; by eexists.
Qed.

(** Unless router ids are compared, an external route that is not selected yet never displaces the
    selected external route it ties with up to the IGP metric: the older route stays. *)
Theorem bgp_oldest_external_stays b n e :
  compare_router_id b = false ->
  attr_weight (bi_attr n) = attr_weight (bi_attr e) -> attr_pref b (bi_attr n) = attr_pref b (bi_attr e) ->
  bi_sub_type n = BGP_ROUTE_NORMAL -> bi_sub_type e = BGP_ROUTE_NORMAL ->
  a_aspath (bi_attr n) = a_aspath (bi_attr e) -> origin (bi_attr n) = origin (bi_attr e) ->
  bgp_med_value (bi_attr n) b = bgp_med_value (bi_attr e) b ->
  Forall (fun s => as_ s <> []) (a_aspath (bi_attr n)) ->
  peer_sort b (bi_peer n) = BGP_PEER_EBGP -> peer_sort b (bi_peer e) = BGP_PEER_EBGP -> metric n = metric e ->
  CHECK_FLAG (bi_flags n) BGP_INFO_SELECTED = false -> CHECK_FLAG (bi_flags e) BGP_INFO_SELECTED = true ->
  exists eq, bgp_info_cmp b (Some n) (Some e) = Ok (false, eq) /\ bgp_info_cmp b (Some e) (Some n) = Ok (true, eq).
Proof.
  intros RID Hw Hl Sn Se Hp Ho Hm Hok Pn Pe Hi Fn Fe. unfold bgp_info_cmp, prefer_higher, prefer_kind.
  rewrite Hw, Hl, Sn, Se, !Z.gtb_ltb, !Z.ltb_irrefl. cbn [bool_decide].
  destruct (compares_med_total b _ _ Hok Hok) as [r Er].
  assert (forall x y, a_aspath (bi_attr x) = a_aspath (bi_attr n) -> a_aspath (bi_attr y) = a_aspath (bi_attr n) ->
    origin (bi_attr x) = origin (bi_attr y) -> bgp_med_value (bi_attr x) b = bgp_med_value (bi_attr y) b ->
    cmp_path b x y = cmp_peer b x y) as G.
  { intros x y Ex Ey Eo Em. unfold cmp_path, prefer_lower. cbn zeta.
    rewrite Ex, Ey, Eo, Em, Er, !Z.gtb_ltb, !Z.ltb_irrefl. cbn [mbind res_bind].
    by destruct (aspath_ignore b), (aspath_confed b), r. }
  exists (peer_as (bi_peer n) =? peer_as (bi_peer e)). cbn. rewrite !G by congruence.
  unfold cmp_peer, prefer_lower. cbn zeta. rewrite Pn, Pe, RID, Hi, Fn, Fe, !Z.gtb_ltb, !Z.ltb_irrefl. cbn.
  by rewrite (Z.eqb_sym (peer_as (bi_peer e))).
Qed.

Definition ex_ebgp (n flags : Z) : bgp_info :=
  mk_info n (mk_peer false None 100 65000 [10; 0; 0; n] (mk_sockunion AF_INET [10; 0; 0; n] []))
    (mk_attr 0 0 0 0 [mk_seg AS_SEQUENCE [100]] None) None flags BGP_ROUTE_NORMAL.

Lemma bgp_oldest_external_stays_witness :
  exists eq, bgp_info_cmp (ex_bgp false false false) (Some (ex_ebgp 1 16)) (Some (ex_ebgp 2 24)) = Ok (false, eq) /\
    bgp_info_cmp (ex_bgp false false false) (Some (ex_ebgp 2 24)) (Some (ex_ebgp 1 16)) = Ok (true, eq).
Proof.
  apply (bgp_oldest_external_stays (ex_bgp false false false) (ex_ebgp 1 16) (ex_ebgp 2 24)); try reflexivity.
  repeat constructor; discriminate.
Defined.
