(* ===== verification/BgpSelection.v ===== *)
(** * The BGP decision process: selection under any configuration

    Whatever comparison options are set, "bgp deterministic-med" included, [bgp_best_selection] returns,
    never selects a route that is held down, always selects one when there is one, and takes its
    temporary marks (DMED_CHECK, DMED_SELECTED) off again; with MEDs and router ids compared between all routes it selects an optimum. *)

From S2P Require Import Prelude Prefix Stream Aspath CString Inet BgpDecision BgpDecisionProofs.
Local Open Scope Z_scope.

(** A route between two runs: no mark of the deterministic-med pass. *)
Definition clean (ri : bgp_info) : Prop :=
  CHECK_FLAG (bi_flags ri) BGP_INFO_DMED_CHECK = false /\ CHECK_FLAG (bi_flags ri) BGP_INFO_DMED_SELECTED = false.

(** The marks of the deterministic-med pass: none, seen, seen and selected. *)
Inductive mark := M0 | MC | MS.
Global Instance mark_eq_dec : EqDecision mark.
Proof. solve_decision. Defined.

Definition marked (ri : bgp_info) (m : mark) : bgp_info :=
  match m with
  | M0 => ri
  | MC => set_flags (SET_FLAG (bi_flags ri) BGP_INFO_DMED_CHECK) ri
  | MS => set_flags (SET_FLAG (SET_FLAG (bi_flags ri) BGP_INFO_DMED_CHECK) BGP_INFO_DMED_SELECTED) ri
  end.

Lemma set_flags_id ri : set_flags (bi_flags ri) ri = ri.
Proof. by destruct ri. Qed.

Lemma dmed_bits : BGP_INFO_DMED_CHECK = 2 ^ 6 /\ BGP_INFO_DMED_SELECTED = 2 ^ 7.
Proof. done. Qed.

(** Two flag words are the same when their bits are; the marks are bits 6 and 7. *)
Ltac flag_bits :=
  apply Z.bits_inj'; intros k Hk; unfold SET_FLAG, UNSET_FLAG;
  rewrite ?Z.ldiff_spec, ?Z.lor_spec, ?Z.ldiff_spec, ?Z.lor_spec, ?(proj1 dmed_bits), ?(proj2 dmed_bits), ?Z.pow2_bits_eqb by lia;
  destruct (Z.eqb_spec 6 k) as [<- |]; [| destruct (Z.eqb_spec 7 k) as [<- |]].

Lemma clean_bits ri : clean ri -> Z.testbit (bi_flags ri) 6 = false /\ Z.testbit (bi_flags ri) 7 = false.
Proof.
  intros [H1 H2]. rewrite (proj1 dmed_bits), check_bit in H1 by lia.
  rewrite (proj2 dmed_bits), check_bit in H2 by lia. done.
Qed.

Lemma marked_set f ri m : f = bi_flags ri -> set_flags f (marked ri m) = ri.
Proof. intros ->. by destruct m, ri. Qed.

Lemma unset_check ri m : clean ri -> m <> MS ->
  set_flags (UNSET_FLAG (bi_flags (marked ri m)) BGP_INFO_DMED_CHECK) (marked ri m) = ri.
Proof.
  intros Hc Hm. destruct (clean_bits ri Hc) as [H6 H7]. apply marked_set.
  destruct m; [| | done]; cbn [marked bi_flags set_flags];
    flag_bits; rewrite ?H6, ?H7; cbn; rewrite ?andb_true_r, ?orb_false_r; done.
Qed.

Lemma unset_both ri m : clean ri ->
  let ri1 := set_flags (UNSET_FLAG (bi_flags (marked ri m)) BGP_INFO_DMED_CHECK) (marked ri m) in
  set_flags (UNSET_FLAG (bi_flags ri1) BGP_INFO_DMED_SELECTED) ri1 = ri.
Proof.
  intros Hc. destruct (clean_bits ri Hc) as [H6 H7]. cbn zeta.
  apply (marked_set (UNSET_FLAG (UNSET_FLAG (bi_flags (marked ri m)) BGP_INFO_DMED_CHECK) BGP_INFO_DMED_SELECTED) ri m).
  destruct m; cbn [marked bi_flags set_flags];
    flag_bits; rewrite ?H6, ?H7; cbn; rewrite ?andb_true_r, ?orb_false_r; done.
Qed.

Lemma unset_selected ri m : clean ri -> m <> MS ->
  set_flags (UNSET_FLAG (bi_flags (marked ri m)) BGP_INFO_DMED_SELECTED) (marked ri m) = marked ri m.
Proof.
  intros Hc Hm. destruct (clean_bits ri Hc) as [H6 H7].
  trans (set_flags (bi_flags (marked ri m)) (marked ri m)); [f_equal | apply set_flags_id].
  destruct m; [| | done]; cbn [marked bi_flags set_flags];
    flag_bits; rewrite ?H6, ?H7; cbn; rewrite ?andb_true_r, ?orb_false_r; done.
Qed.

Lemma set_check ri m : m <> MS ->
  set_flags (SET_FLAG (bi_flags (marked ri m)) BGP_INFO_DMED_CHECK) (marked ri m) = marked ri MC.
Proof.
  intros Hm. destruct m; [done | | done]. unfold marked, set_flags. cbn. f_equal.
  flag_bits; rewrite ?orb_true_r, ?orb_false_r; done.
Qed.

(** Other flags do not see the marks. *)
Lemma check_marked ri m n :
  0 <= n -> n <> 6 -> n <> 7 -> CHECK_FLAG (bi_flags (marked ri m)) (2 ^ n) = CHECK_FLAG (bi_flags ri) (2 ^ n).
Proof.
  intros H0 H6 H7. rewrite !check_bit by done. destruct m; [done | |]; unfold marked, SET_FLAG; cbn [bi_flags set_flags];
    rewrite ?(proj1 dmed_bits), ?(proj2 dmed_bits), !Z.lor_spec, !Z.pow2_bits_eqb by lia;
    rewrite ?(proj2 (Z.eqb_neq 6 n)), ?(proj2 (Z.eqb_neq 7 n)), ?orb_false_r by lia; done.
Qed.

Lemma check_lor3 v a b c : 
  CHECK_FLAG v (Z.lor (Z.lor a b) c) = CHECK_FLAG v a || CHECK_FLAG v b || CHECK_FLAG v c.
Proof.
  unfold CHECK_FLAG. rewrite !Z.land_lor_distr_r.
  assert (forall x y, (Z.lor x y =? 0) = (x =? 0) && (y =? 0)) as H.
  { intros x y. destruct (Z.eqb_spec (Z.lor x y) 0) as [E | E].
    - apply Z.lor_eq_0_iff in E as [-> ->]. done.
    - destruct (Z.eqb_spec x 0) as [-> |], (Z.eqb_spec y 0) as [-> |]; done. }
  rewrite !H. by rewrite !negb_andb.
Qed.

Lemma holddown_marked ri m : BGP_INFO_HOLDDOWN (marked ri m) = BGP_INFO_HOLDDOWN ri.
Proof.
  unfold BGP_INFO_HOLDDOWN, BGP_INFO_UNUSEABLE. rewrite !check_lor3.
  change BGP_INFO_VALID with (2 ^ 4). change BGP_INFO_HISTORY with (2 ^ 2).
  change BGP_INFO_DAMPED with (2 ^ 1). change BGP_INFO_REMOVED with (2 ^ 9).
  by rewrite !check_marked by lia.
Qed.

Lemma skip_marked ri m : clean ri -> dmed_skip (marked ri m) = negb (bool_decide (m = M0)) || BGP_INFO_HOLDDOWN ri.
Proof.
  intros Hc. unfold dmed_skip. rewrite holddown_marked. f_equal. destruct m; cbn.
  - apply Hc.
  - rewrite (proj1 dmed_bits), check_bit by lia. unfold SET_FLAG. by rewrite Z.lor_spec, Z.pow2_bits_true, orb_true_r by lia.
  - rewrite (proj1 dmed_bits), check_bit by lia. unfold SET_FLAG.
    by rewrite !Z.lor_spec, Z.pow2_bits_true, orb_true_r by lia.
Qed.

Lemma dselected_marked ri m : clean ri ->
  CHECK_FLAG (bi_flags (marked ri m)) BGP_INFO_DMED_SELECTED = bool_decide (m = MS).
Proof.
  intros Hc. destruct (clean_bits ri Hc) as [H6 H7]. rewrite (proj2 dmed_bits), check_bit by lia.
  destruct m; cbn [marked bi_flags set_flags]; unfold SET_FLAG; rewrite ?(proj1 dmed_bits), ?(proj2 dmed_bits), ?Z.lor_spec, ?H7, ?Z.pow2_bits_eqb by lia; done.
Qed.

(** ** The deterministic-med pass as a change of marks *)

(** The lemmas are about any preorder [ge] ([ge r n]: the route [n] is not worse than [r]) that the comparison follows on the routes [Q]; with the
    trivial preorder they say that the passes return, with the order of the keys that they keep the best. *)
Section selection.
Context (b : bgp) (Q : bgp_info -> Prop) (ge : bgp_info -> bgp_info -> Prop) `{!PreOrder ge}.
Context (CMP : forall r n m better eq, Q r -> Q n -> bgp_info_cmp b (Some r) (Some (marked n m)) = Ok (better, eq) -> if better : bool then ge n r else ge r n).

Section pass.
Context (info : list bgp_info).
Context (SANE : Forall route_sane info) (CLEAN : Forall clean info) (QS : Forall Q info).

Definition state (ms : list mark) : list bgp_info := zip_with marked info ms.

(** Only usable routes are marked. *)
Definition marks_ok (ms : list mark) : Prop :=
  length ms = length info /\
  forall i r m, info !! i = Some r -> ms !! i = Some m -> m <> M0 -> usable r.

Lemma state_lookup ms i r m : info !! i = Some r -> ms !! i = Some m -> state ms !! i = Some (marked r m).
Proof. intros Hr Hm. unfold state. by rewrite lookup_zip_with, Hr, Hm. Qed.

Lemma state_alter g ms i r m m' :
  info !! i = Some r -> ms !! i = Some m -> g (marked r m) = marked r m' ->
  alter g i (state ms) = state (<[i := m']> ms).
Proof.
  intros Hr Hm Hg. apply list_eq. intros j. unfold state. rewrite lookup_zip_with.
  destruct (decide (j = i)) as [-> | Hne].
  - rewrite list_lookup_alter_eq, lookup_zip_with, Hr, Hm. cbn. rewrite Hg.
    by rewrite list_lookup_insert_eq by (by eapply lookup_lt_Some).
  - rewrite list_lookup_alter_ne, lookup_zip_with, list_lookup_insert_ne by done. done.
Qed.

Lemma sane_marked r m : route_sane r -> route_sane (marked r m).
Proof. by destruct m. Qed.

Lemma clean_at i r : info !! i = Some r -> clean r.
Proof. intros H. by eapply (Forall_lookup_1 clean). Qed.
Lemma sane_at i r : info !! i = Some r -> route_sane r.
Proof. intros H. by eapply (Forall_lookup_1 route_sane). Qed.
Lemma Q_at i r : info !! i = Some r -> Q r.
Proof. intros H. by eapply (Forall_lookup_1 Q). Qed.

Lemma lookups ms i : marks_ok ms -> (i < length info)%nat -> exists r m, info !! i = Some r /\ ms !! i = Some m.
Proof.
  intros [Hl _] Hi. destruct (lookup_lt_is_Some_2 info i Hi) as [r Hr].
  destruct (lookup_lt_is_Some_2 ms i ltac:(lia)) as [m Hm]. eauto.
Qed.

(** The position [k] is a usable route that is not yet marked as selected. *)
Definition candidate (ms : list mark) (k : nat) : Prop :=
  exists r m, info !! k = Some r /\ ms !! k = Some m /\ m <> MS /\ usable r.

(** The route at [k] is not worse than the one at [j]. *)
Definition no_worse (j k : nat) : Prop := forall r n, info !! j = Some r -> info !! k = Some n -> ge r n.

Lemma no_worse_trans i j k : is_Some (info !! j) -> no_worse i j -> no_worse j k -> no_worse i k.
Proof. intros [x Hx] H1 H2 r n Hr Hn. etrans; [by eapply H1 | by eapply H2]. Qed.

Lemma dmed_inner_spec i js : forall k ms,
  marks_ok ms -> (i < length info)%nat -> Forall (fun j => (j < length info)%nat) js -> candidate ms k ->
  exists k' ms', dmed_inner b i js k (state ms) = Ok (k', state ms') /\ marks_ok ms' /\ candidate ms' k' /\
    (forall x, ms' !! x = Some MS <-> ms !! x = Some MS) /\ no_worse k k' /\
    (forall x m, ms !! x = Some M0 -> ms' !! x = Some m -> m <> M0 -> no_worse x k').
Proof.
  induction js as [|j js IH]; intros k ms Hok Hi Hjs Hk.
  { exists k, ms. split_and!; try done; [intros a c Ha Hc; by simplify_eq | intros x m ? ?; congruence]. }
  inversion Hjs as [|?? Hj Hjs']; subst. cbn [dmed_inner].
  destruct (lookups ms i Hok Hi) as (r1 & m1 & R1 & M1). destruct (lookups ms j Hok Hj) as (r2 & m2 & R2 & M2).
  pose proof Hk as (rk & mk & Rk & Mk & Hmk & Hu). rewrite (state_lookup _ _ _ _ R1 M1), (state_lookup _ _ _ _ R2 M2), (state_lookup _ _ _ _ Rk Mk).
  rewrite (skip_marked _ _ (clean_at _ _ R2)). destruct (bool_decide (m2 = M0)) eqn:E2; cbn [negb orb]; [| by apply IH].
  apply bool_decide_eq_true in E2 as ->. destruct (BGP_INFO_HOLDDOWN r2) eqn:Hh; [by apply IH |].
  destruct (sane_marked r1 m1 (sane_at _ _ R1)) as [P1 _]. destruct (sane_at _ _ R2) as [P2 _].
  change (marked r2 M0) with r2. destruct (cmp_left_total _ _ P1 P2) as [lf ->]. cbn [mbind res_bind].
  assert (exists same, (if lf then Ok true else aspath_cmp_left_confed (Some (a_aspath (bi_attr (marked r1 m1))))
     (Some (a_aspath (bi_attr r2)))) = Ok same) as [same Es].
  { destruct lf; [by eexists | by apply cmp_left_confed_total]. }
  rewrite Es. cbn [mbind res_bind]. destruct same; [| by apply IH].
  destruct (bgp_info_cmp_total b r2 (Some (marked rk mk)) (sane_at _ _ R2)) as [[better eq] Ec].
  { intros x [= <-]. apply sane_marked. by eapply sane_at. }
  rewrite Ec. cbn [mbind res_bind]. apply CMP in Ec; [| by eapply Q_at | by eapply Q_at].
  assert ((if better then unset_flag_at BGP_INFO_DMED_SELECTED k (state ms) else state ms) = state ms) as ->.
  { destruct better; [| done]. unfold unset_flag_at. rewrite (state_alter _ ms k rk mk mk Rk Mk).
    - f_equal. by apply list_insert_id.
    - apply unset_selected; [by eapply clean_at | done]. }
  unfold set_flag_at. rewrite (state_alter _ ms j r2 M0 MC R2 M2) by by apply (set_check r2 M0).
  assert (j < length ms)%nat as Hjm by by eapply lookup_lt_Some.
  destruct (IH (if better then j else k) (<[j := MC]> ms)) as (k' & ms' & E & Hok' & Hk' & HMS & Hw & Hnew).
  - destruct Hok as [Hl Hok]. split; [by rewrite length_insert |]. intros x r m Rx Mx Hm.
    destruct (decide (x = j)) as [-> | Hne]; [congruence |]. rewrite list_lookup_insert_ne in Mx by done. eauto.
  - done.
  - done.
  - destruct better; [exists r2, MC; rewrite list_lookup_insert_eq by done; done |].
    destruct (decide (k = j)) as [-> | Hne].
    + exists r2, MC. rewrite list_lookup_insert_eq by done. done.
    + exists rk, mk. by rewrite list_lookup_insert_ne.
  - assert (no_worse k (if better then j else k) /\ no_worse j (if better then j else k)) as [Wk Wj].
    { split; intros r n Hr Hn; destruct better; simplify_eq; try done. }
    assert (is_Some (info !! (if better then j else k))) as HS by (destruct better; eauto).
    exists k', ms'. split_and!; [done | done | done | | by eapply no_worse_trans |].
    + intros x. rewrite HMS. destruct (decide (x = j)) as [-> | Hne]; [rewrite list_lookup_insert_eq, M2 by done; done |].
      by rewrite list_lookup_insert_ne.
    + intros x m Hx Hx' Hm. destruct (decide (x = j)) as [-> | Hne]; [by eapply no_worse_trans |].
      apply (Hnew x m); [by rewrite list_lookup_insert_ne | done | done].
Qed.

(** The route at [i] is not better than some selected one. *)
Definition covered (ms : list mark) (i : nat) : Prop := exists y, ms !! y = Some MS /\ no_worse i y.

Lemma dmed_outer_spec idx : forall ms,
  marks_ok ms -> Forall (fun i => (i < length info)%nat) idx ->
  (forall x m, ms !! x = Some m -> m <> M0 -> covered ms x) ->
  exists ms', dmed_outer b (length info) idx (state ms) = Ok (state ms') /\ marks_ok ms' /\
    (forall x, ms !! x = Some MS -> ms' !! x = Some MS) /\
    (forall i r, i ∈ idx -> info !! i = Some r -> usable r -> covered ms' i).
Proof.
  induction idx as [|i idx IH]; intros ms Hok Hidx Hsel.
  { exists ms. split_and!; try done. intros i r Hi. by apply list.not_elem_of_nil in Hi. }
  inversion Hidx as [|?? Hi Hidx']; subst. cbn [dmed_outer].
  assert (forall ms ms' x, (forall y, ms !! y = Some MS -> ms' !! y = Some MS) -> covered ms x -> covered ms' x) as Hmono.
  { intros m1 m2 x H (y & Hy & Hw). exists y. auto. }
  destruct (lookups ms i Hok Hi) as (r1 & m1 & R1 & M1). rewrite (state_lookup _ _ _ _ R1 M1).
  rewrite (skip_marked _ _ (clean_at _ _ R1)).
  destruct (negb (bool_decide (m1 = M0)) || BGP_INFO_HOLDDOWN r1) eqn:Hskip.
  - destruct (IH ms Hok Hidx' Hsel) as (ms' & E & Hok' & Hm & Hp). exists ms'. split_and!; try done.
    intros j r Hj Rj Hu. apply list.elem_of_cons in Hj as [-> | Hj]; [| eauto].
    rewrite R1 in Rj. injection Rj as <-. apply (Hmono ms); [done |]. apply (Hsel i m1 M1). intros ->.
    rewrite bool_decide_true in Hskip by done. cbn [negb orb] in Hskip. unfold usable in Hu. congruence.
  - apply orb_false_iff in Hskip as [E1 Hh]. apply negb_false_iff, bool_decide_eq_true in E1 as ->.
    destruct (dmed_inner_spec i (seq (S i) (length info - S i)) i ms) as (k & ms1 & -> & Hok1 & Hk & HMS & Hw & Hnew).
    + done.
    + done.
    + apply list.Forall_forall. intros j Hj. apply elem_of_seq in Hj. lia.
    + exists r1, M0. done.
    + cbn [mbind res_bind]. destruct Hk as (rk & mk & Rk & Mk & Hmk & Hu).
      assert (k < length ms1)%nat as Hlt by by eapply lookup_lt_Some.
      unfold set_flag_at. rewrite (state_alter _ ms1 k rk mk MC Rk Mk) by by apply set_check.
      rewrite (state_alter _ (<[k:=MC]> ms1) k rk MC MS Rk) by (rewrite ?list_lookup_insert_eq; done).
      rewrite list_insert_insert_eq.
      assert (<[k := MS]> ms1 !! k = Some MS) as HkS by by rewrite list_lookup_insert_eq.
      assert (forall x, ms !! x = Some MS -> <[k := MS]> ms1 !! x = Some MS) as Hold.
      { intros x Hx. apply HMS in Hx. destruct (decide (x = k)) as [-> |]; [done | by rewrite list_lookup_insert_ne]. }
      destruct (IH (<[k := MS]> ms1)) as (ms' & E & Hok' & Hm & Hp).
      * destruct Hok1 as [Hl Hok1]. split; [by rewrite length_insert |]. intros x r m Rx Mx Hne.
        destruct (decide (x = k)) as [-> | Hxk]; [congruence |]. rewrite list_lookup_insert_ne in Mx by done. eauto.
      * done.
      * intros x m Mx Hne. destruct (decide (x = k)) as [-> | Hxk]; [exists k; split; [done |]; intros ? ? ? ?; by simplify_eq |].
        rewrite list_lookup_insert_ne in Mx by done. assert (x < length info)%nat as Hx by (destruct Hok1 as [<- _]; by eapply lookup_lt_Some).
        destruct (lookups ms x Hok Hx) as (rx & m0 & Rx & Mx0). destruct (decide (m0 = M0)) as [-> | H0]; [exists k; eauto |].
        apply (Hmono ms); [done |]. by eapply Hsel.
      * exists ms'. split_and!; [done | done | auto |]. intros j r Hj Rj Hur. apply list.elem_of_cons in Hj as [-> | Hj]; [| eauto].
        exists k. auto.
Qed.
End pass.

(** ** The second loop *)

(** A removed route is reaped unless it is still the selected one. *)
Definition kept (ri : bgp_info) : bool :=
  negb (BGP_INFO_HOLDDOWN ri && CHECK_FLAG (bi_flags ri) BGP_INFO_REMOVED
        && negb (CHECK_FLAG (bi_flags ri) BGP_INFO_SELECTED)).

(** The address of the last route with the SELECTED flag. *)
Definition last_selected (l : list bgp_info) (o : option Z) : option Z :=
  fold_left (fun o r => if CHECK_FLAG (bi_flags r) BGP_INFO_SELECTED then Some (bi_id r) else o) l o.

(** A route takes part in the second loop. *)
Definition takes_part (b : bgp) (m : mark) : bool := negb (deterministic_med b) || bool_decide (m = MS).

(** The outcome of the second loop over [info] with the marks [ms], [acc] being selected so far. *)
Definition chosen (info : list bgp_info) (ms : list mark) (acc n : option bgp_info) : Prop :=
  match n with
  | Some m => (acc = Some m \/ m ∈ info /\ usable m) /\ (forall a, acc = Some a -> ge a m) /\
      (forall i r k, info !! i = Some r -> ms !! i = Some k -> takes_part b k = true -> usable r -> ge r m)
  | None => acc = None /\ (forall i r k, info !! i = Some r -> ms !! i = Some k -> takes_part b k = true -> ~ usable r)
  end.

Lemma chosen_skip ri k info ms acc n :
  (takes_part b k = true -> ~ usable ri) -> chosen info ms acc n -> chosen (ri :: info) (k :: ms) acc n.
Proof.
  intros Hs. destruct n as [m|]; cbn.
  - intros (H1 & H2 & H3). split_and!; [rewrite list.elem_of_cons; naive_solver | done |].
    intros [|i] r k' Hr Hk Ht Hu; [injection Hr as <-; injection Hk as <-; by destruct Hs | by eapply H3].
  - intros [-> H]. split; [done |]. intros [|i] r k' Hr Hk; [injection Hr as <-; injection Hk as <-; done | by eapply H].
Qed.

Lemma chosen_take ri k info ms acc x n :
  usable ri -> x = ri \/ acc = Some x -> ge ri x -> (forall a, acc = Some a -> ge a x) ->
  chosen info ms (Some x) n -> chosen (ri :: info) (k :: ms) acc n.
Proof.
  intros Hu Hx Hr Ha. destruct n as [m|]; cbn; [| by intros []]. intros (H1 & H2 & H3). specialize (H2 x eq_refl). split_and!.
  - rewrite list.elem_of_cons. destruct H1 as [[= <-] | ?]; naive_solver.
  - intros a E. etrans; [by apply Ha | done].
  - intros [|i] r k' Hri Hk Ht Hur; [injection Hri as <-; by etrans | by eapply H3].
Qed.

Lemma select_loop_marked info : forall ms o acc,
  Forall2 (fun r m => m <> M0 -> usable r) info ms -> (deterministic_med b = false -> Forall (fun m => m <> MS) ms) ->
  Forall route_sane info -> Forall clean info -> Forall Q info -> (forall a, acc = Some a -> route_sane a /\ Q a) ->
  exists n, select_loop b (zip_with marked info ms) o acc = Ok (List.filter kept info, last_selected info o, n) /\ chosen info ms acc n.
Proof.
  induction info as [|ri info IH]; intros ms o acc Hl Hd Hs Hc HQ Hacc.
  { inversion Hl; subst. exists acc. split; [done |]. destruct acc as [a|]; cbn; [| done]. split_and!; [by left | by intros ? [= <-] | done]. }
  inversion Hl as [|? m ? ms' Hm Hl']; subst. clear Hl. rename ms' into ms.
  inversion Hs as [|?? Sr Hs']; inversion Hc as [|?? Cr Hc']; inversion HQ as [|?? Qr HQ']; subst.
  assert (deterministic_med b = false -> Forall (fun m => m <> MS) ms) as Hd' by (intros H; by specialize (Hd H); inversion Hd).
  cbn [zip_with select_loop]. rewrite holddown_marked.
  change BGP_INFO_SELECTED with (2 ^ 3). change BGP_INFO_REMOVED with (2 ^ 9). rewrite !check_marked by lia.
  change (2 ^ 3) with BGP_INFO_SELECTED. change (2 ^ 9) with BGP_INFO_REMOVED.
  assert (bi_id (marked ri m) = bi_id ri) as -> by by destruct m.
  set (o' := if CHECK_FLAG (bi_flags ri) BGP_INFO_SELECTED then Some (bi_id ri) else o).
  change (last_selected (ri :: info) o) with (last_selected info o').
  cbn [List.filter]. unfold kept at 1. destruct (BGP_INFO_HOLDDOWN ri) eqn:Hh; cbn [andb].
  - destruct (IH ms o' acc Hl' Hd' Hs' Hc' HQ' Hacc) as (n & -> & H). cbn [mbind res_bind]. exists n. split.
    + assert (m = M0) as -> by (destruct (decide (m = M0)); [done |]; specialize (Hm ltac:(done)); unfold usable in Hm; congruence).
      by destruct (CHECK_FLAG (bi_flags ri) BGP_INFO_REMOVED && negb (CHECK_FLAG (bi_flags ri) BGP_INFO_SELECTED)).
    + apply chosen_skip; [unfold usable; congruence | done].
  - cbn [negb]. rewrite (dselected_marked ri m Cr).
    destruct (deterministic_med b && negb (bool_decide (m = MS))) eqn:Ep.
    + apply andb_true_iff in Ep as [Ed Em]. apply negb_true_iff, bool_decide_eq_false in Em.
      rewrite (unset_check ri m Cr Em). destruct (IH ms o' acc Hl' Hd' Hs' Hc' HQ' Hacc) as (n & -> & H).
      cbn [mbind res_bind]. exists n. split; [done |]. apply chosen_skip; [| done].
      unfold takes_part. by rewrite Ed, bool_decide_false.
    + pose proof (unset_both ri m Cr) as Hu. cbn zeta in Hu. rewrite Hu. clear Hu.
      destruct (bgp_info_cmp_total b ri acc Sr) as [[better eq] Eb]; [intros a Ha; by apply Hacc |]. rewrite Eb. cbn [mbind res_bind].
      assert (exists x, (if better then Some ri else acc) = Some x /\ (x = ri \/ acc = Some x) /\ ge ri x /\ (forall a, acc = Some a -> ge a x) /\ route_sane x /\ Q x)
        as (x & Ex & Hx & Hr & Ha & Sx & Qx).
      { destruct acc as [a|]; [| injection Eb as <- <-; exists ri; split_and!; auto; done].
        destruct (Hacc a eq_refl) as [Sa Qa]. apply (CMP ri a M0 _ _ Qr Qa) in Eb. destruct better; [exists ri | exists a]; split_and!; auto; first [done | by intros ? [= <-]]. }
      rewrite Ex. destruct (IH ms o' (Some x) Hl' Hd' Hs' Hc' HQ') as (n & -> & H); [by intros ? [= <-] |].
      cbn [mbind res_bind]. exists n. split; [done |]. by eapply chosen_take.
Qed.

(** The first loop: marks on usable routes only, and every usable route has one to consider that is not worse. *)
Lemma dmed_pass_spec info :
  Forall route_sane info -> Forall clean info -> Forall Q info ->
  exists ms, dmed_pass b info = Ok (zip_with marked info ms) /\
    Forall2 (fun r m => m <> M0 -> usable r) info ms /\
    (deterministic_med b = false -> Forall (fun m => m <> MS) ms) /\
    (forall i r, info !! i = Some r -> usable r ->
     exists j n k, info !! j = Some n /\ ms !! j = Some k /\ takes_part b k = true /\ usable n /\ ge r n).
Proof.
  intros Hs Hc HQ. set (ms0 := replicate (length info) M0).
  assert (zip_with marked info ms0 = info) as H0.
  { unfold ms0. clear. induction info as [|r info IH]; [done |]. cbn. by rewrite IH. }
  assert (marks_ok info ms0) as Hok0.
  { split; [apply length_replicate |]. intros i r m _ Hm. apply lookup_replicate in Hm as [-> _]. done. }
  assert (forall ms, marks_ok info ms -> Forall2 (fun r m => m <> M0 -> usable r) info ms) as HF.
  { intros ms [Hl Hm]. apply Forall2_same_length_lookup. split; [done | eauto]. }
  unfold dmed_pass. destruct (deterministic_med b) eqn:Ed.
  - destruct (dmed_outer_spec info Hs Hc HQ (seq 0 (length info)) ms0) as (ms & E & Hok & _ & Hsel).
    + done.
    + apply list.Forall_forall. intros i Hi. apply elem_of_seq in Hi. lia.
    + intros x m Hm. by apply lookup_replicate in Hm as [-> _].
    + unfold state in E. rewrite H0 in E. exists ms. split_and!; [done | auto | done |].
      intros i r Hi Hur. destruct (Hsel i r) as (x & Hx & Hw); [apply elem_of_seq; apply lookup_lt_Some in Hi; lia | done | done |].
      assert (x < length info)%nat as Hlt by (destruct Hok as [<- _]; by eapply lookup_lt_Some).
      destruct (lookup_lt_is_Some_2 info x Hlt) as [rx Hrx].
      exists x, rx, MS. split_and!; [done | done | | by eapply Hok | by apply Hw].
      unfold takes_part. rewrite bool_decide_true by done. apply orb_true_r.
  - exists ms0. rewrite H0. split_and!; [done | auto | |].
    + intros _. apply Forall_replicate. done.
    + intros i r Hi Hur. exists i, r, M0. split_and!; [done | | unfold takes_part; by rewrite Ed | done | done].
      apply lookup_replicate. split; [done | by eapply lookup_lt_Some].
Qed.

(** The whole selection. *)
Lemma selection_spec info :
  Forall route_sane info -> Forall clean info -> Forall Q info ->
  exists n, bgp_best_selection b info = Ok (List.filter kept info, last_selected info None, n) /\
    match n with
    | Some m => m ∈ info /\ usable m /\ forall r, r ∈ info -> usable r -> ge r m
    | None => Forall (fun r => ~ usable r) info
    end.
Proof.
  intros Hs Hc HQ. destruct (dmed_pass_spec info Hs Hc HQ) as (ms & Ep & Hl & Hd & Hp).
  unfold bgp_best_selection. rewrite Ep. cbn [mbind res_bind].
  destruct (select_loop_marked info ms None None Hl Hd Hs Hc HQ) as (n & E & H); [done |].
  exists n. split; [done |]. destruct n as [m|].
  - destruct H as ([? | [Hm Hu]] & _ & H); [done |]. split_and!; [done | done |]. intros r [i Hi]%list_elem_of_lookup Hur.
    destruct (Hp i r Hi Hur) as (j & x & k & Hj & Hk & Ht & Hux & Hg). etrans; [exact Hg | by eapply H].
  - destruct H as [_ H]. apply Forall_lookup. intros i r Hi Hur. destruct (Hp i r Hi Hur) as (j & x & k & Hj & Hk & Ht & Hux & _). by destruct (H j x k Hj Hk Ht).
Qed.
End selection.



(** ** The optimum *)

Lemma key_marked b r m : route_key b (marked r m) = route_key b r.
Proof. by destruct m. Qed.

Lemma ok_marked b r m : route_ok b r -> route_ok b (marked r m).
Proof. by destruct m. Qed.

#[local] Instance not_worse_preorder b : PreOrder (not_worse b).
Proof. split; [intros r; apply lex_le_refl | intros r n m; apply lex_le_trans]. Qed.

(** What the pass of deterministic-med needs besides: AS paths it can look into, and no marks of an earlier pass. *)
Definition dmed_ready (b : bgp) (info : list bgp_info) : Prop :=
  deterministic_med b = true -> Forall route_sane info /\ Forall clean info.

Lemma selection_best b info :
  always_compare_med b = true -> compare_router_id b = true -> Forall (route_ok b) info -> dmed_ready b info ->
  exists l o n, bgp_best_selection b info = Ok (l, o, n) /\ best_of b info None n.
Proof.
  intros MED RID Hok Hd. destruct (deterministic_med b) eqn:DET.
  - destruct (Hd DET) as [Hs Hc]. destruct (selection_spec b (route_ok b) (not_worse b)) with (info := info) as (n & -> & H); [| done | done | done |].
    + intros r n m better eq Hr Hn E. destruct (bgp_info_cmp_decides b MED RID r (marked n m) Hr (ok_marked b n m Hn)) as [eq' E'].
      rewrite E, key_marked in E'. assert (better = lex_le (route_key b n) (route_key b r)) as -> by congruence. unfold not_worse. destruct (lex_le (route_key b n) (route_key b r)) eqn:El; [done |].
      by destruct (lex_le_total (route_key b r) (route_key b n)) as [? | ?]; [| congruence].
    + do 3 eexists. split; [done |]. destruct n as [m|]; cbn; [| done]. destruct H as (Hm & Hu & H). split_and!; [| done | done]. right. by exists m.
  - unfold bgp_best_selection, dmed_pass. rewrite DET. cbn [mbind res_bind]. by apply select_loop_best.
Qed.


