(* ===== verification/Pqueue.v ===== *)
(** * lib/pqueue.c: priority queues

    A binary heap in an array that grows by doubling.  The elements ([void *]) are of any type [A], [null]
    is the zero that XCALLOC leaves in new slots, [cmp] is the client's comparison function and
    [update] its callback, which is told the position of every element that moves; the callback changes a
    state [St] of the client (OSPF stores the position in the LSA to be able to move it up later).
    Reading or writing outside the array is [Oob].  [int] sizes are unbounded here. *)

From stdpp Require Import sorting.
From S2P Require Import Prelude.
Local Open Scope nat_scope.

Section pqueue.
Context {A St : Type} (null : A) (cmp : A -> A -> Z) (update : option (A -> Z -> St -> St)).

(** [struct pqueue]; the length of [array] is [array_size]. *)
Record pqueue := mk_pqueue { array : list A; size : nat }.
Definition array_size (q : pqueue) : nat := length (array q).

Definition PQUEUE_INIT_ARRAYSIZE : nat := 32.
Definition PARENT_OF (x : nat) : nat := (x - 1) / 2.
Definition LEFT_OF (x : nat) : nat := 2 * x + 1.
Definition RIGHT_OF (x : nat) : nat := 2 * x + 2.
Definition HAVE_CHILD (x : nat) (n : nat) : bool := x <? n / 2.

Definition rd (a : list A) (i : nat) : res A := match a !! i with Some x => Ok x | None => Oob end.
Definition wr (a : list A) (i : nat) (x : A) : res (list A) := if i <? length a then Ok (<[i := x]> a) else Oob.

Definition notify (x : A) (i : nat) (s : St) : St :=
  match update with Some f => f x (Z.of_nat i) s | None => s end.

(** The loop of [trickle_up] with the saved node [tmp]; every turn halves [index]. *)
Fixpoint trickle_up_loop (fuel : nat) (index : nat) (tmp : A) (a : list A) (s : St) : res (list A * St) :=
  match fuel with
  | 0 => Oob
  | S fuel' =>
      if 0 <? index then
        up ← rd a (PARENT_OF index);
        if (cmp tmp up <? 0)%Z then
          a ← wr a index up;
          trickle_up_loop fuel' (PARENT_OF index) tmp a (notify up index s)
        else a ← wr a index tmp; Ok (a, notify tmp index s)
      else a ← wr a index tmp; Ok (a, notify tmp index s)
  end.

Definition trickle_up (index : nat) (q : pqueue) (s : St) : res (pqueue * St) :=
  tmp ← rd (array q) index;
  '(a, s) ← trickle_up_loop (S index) index tmp (array q) s;
  Ok (mk_pqueue a (size q), s).

(** The loop of [trickle_down]; [index] grows and stays below [n], the size of the queue. *)
Fixpoint trickle_down_loop (fuel : nat) (n index : nat) (tmp : A) (a : list A) (s : St) : res (list A * St) :=
  match fuel with
  | 0 => Oob
  | S fuel' =>
      if HAVE_CHILD index n then
        which ← (if RIGHT_OF index <? n then
                   l ← rd a (LEFT_OF index); r ← rd a (RIGHT_OF index);
                   Ok (if (cmp l r >? 0)%Z then RIGHT_OF index else LEFT_OF index)
                 else Ok (LEFT_OF index));
        x ← rd a which;
        if (cmp x tmp >? 0)%Z then a ← wr a index tmp; Ok (a, notify tmp index s)
        else
          a ← wr a index x;
          trickle_down_loop fuel' n which tmp a (notify x index s)
      else a ← wr a index tmp; Ok (a, notify tmp index s)
  end.

Definition trickle_down (index : nat) (q : pqueue) (s : St) : res (pqueue * St) :=
  tmp ← rd (array q) index;
  '(a, s) ← trickle_down_loop (S (size q)) (size q) index tmp (array q) s;
  Ok (mk_pqueue a (size q), s).

Definition pqueue_create : pqueue := mk_pqueue (replicate PQUEUE_INIT_ARRAYSIZE null) 0.

Definition pqueue_expand (q : pqueue) : pqueue :=
  mk_pqueue (array q ++ replicate (array_size q) null) (size q).

Definition pqueue_enqueue (data : A) (q : pqueue) (s : St) : res (pqueue * St) :=
  let q := if array_size q <=? size q + 2 then pqueue_expand q else q in
  a ← wr (array q) (size q) data;
  let s := notify data (size q) s in
  '(q, s) ← trickle_up (size q) (mk_pqueue a (size q)) s;
  Ok (mk_pqueue (array q) (size q + 1), s).

(** With an empty queue the code reads [array[-1]]. *)
Definition pqueue_dequeue (q : pqueue) (s : St) : res (A * pqueue * St) :=
  data ← rd (array q) 0;
  if size q =? 0 then Oob
  else
    last ← rd (array q) (size q - 1);
    a ← wr (array q) 0 last;
    '(q, s) ← trickle_down 0 (mk_pqueue a (size q - 1)) s;
    Ok (data, q, s).
End pqueue.
