(* ===== verification/PqueueProofs.v ===== *)
(** * Priority queues: theorems

    For a comparison function that is a total preorder, the queue is a heap after every operation, an
    enqueued element is neither lost nor duplicated, [pqueue_dequeue] returns a least element, and a client
    whose [update] callback records positions always finds its elements there. *)

From stdpp Require Import sorting.
From S2P Require Import Prelude Pqueue.
Local Open Scope nat_scope.

(** What lib/pqueue.c asks of [cmp]: the sign of the comparison is that of a total preorder. *)
Class CmpOrder {A} (cmp : A -> A -> Z) : Prop := {
  cmp_anti a b : (cmp a b < 0 <-> 0 < cmp b a)%Z;
  cmp_trans a b c : (cmp a b <= 0 -> cmp b c <= 0 -> cmp a c <= 0)%Z }.

(** Replacing an element, as a change of the multiset. *)
Lemma insert_permutation {A} (l : list A) i x y : l !! i = Some x -> y :: l ≡ₚ x :: <[i := y]> l.
Proof.
  intros H. rewrite (insert_take_drop l i y) by by eapply lookup_lt_Some.
  rewrite <- (take_drop_middle l i x H) at 1. by rewrite <- !Permutation_middle, Permutation_swap.
Qed.

Section proofs.
Context {A St : Type} (null : A) (cmp : A -> A -> Z) (update : option (A -> Z -> St -> St)).
Context `{ORD : !CmpOrder cmp}.

Definition le (a b : A) : Prop := (cmp a b <= 0)%Z.

Lemma le_total a b : le a b \/ le b a.
Proof. unfold le. pose proof (cmp_anti b a). lia. Qed.
Lemma lt_le a b : (cmp a b < 0)%Z -> le a b.
Proof. unfold le. lia. Qed.
Lemma not_lt_le a b : ~ (cmp a b < 0)%Z -> le b a.
Proof. unfold le. pose proof (cmp_anti a b). lia. Qed.
Lemma gt_le a b : (0 < cmp a b)%Z -> le b a.
Proof. unfold le. pose proof (cmp_anti b a). lia. Qed.

(** [a[i]] *)
Definition at_ (a : list A) (i : nat) : A := nth i a null.

Lemma lookup_at a i : i < length a -> a !! i = Some (at_ a i).
Proof. intros H. unfold at_. destruct (nth_lookup_or_length a i null) as [| ?]; [done | lia]. Qed.

Lemma rd_at (a : list A) i : i < length a -> rd a i = Ok (at_ a i).
Proof. intros H. unfold rd. by rewrite lookup_at. Qed.

Lemma wr_at (a : list A) i x : i < length a -> wr a i x = Ok (<[i := x]> a).
Proof. intros H. unfold wr. by rewrite (proj2 (Nat.ltb_lt _ _) H). Qed.

Lemma at_insert a i j x : i < length a -> at_ (<[i := x]> a) j = if decide (j = i) then x else at_ a j.
Proof.
  intros H. unfold at_. rewrite !nth_lookup. destruct (decide (j = i)) as [-> |].
  - by rewrite list_lookup_insert_eq.
  - by rewrite list_lookup_insert_ne.
Qed.

Lemma at_insert_eq a i x : i < length a -> at_ (<[i := x]> a) i = x.
Proof. intros H. rewrite at_insert by done. by rewrite decide_True. Qed.
Lemma at_insert_ne a i j x : i < length a -> j <> i -> at_ (<[i := x]> a) j = at_ a j.
Proof. intros H Hne. rewrite at_insert by done. by rewrite decide_False. Qed.

(** ** Heaps *)

Definition heap (a : list A) (n : nat) : Prop := forall j, 0 < j < n -> le (at_ a (PARENT_OF j)) (at_ a j).

Lemma parent_lt j : 0 < j -> PARENT_OF j < j.
Proof. intros H. unfold PARENT_OF. apply Nat.Div0.div_lt_upper_bound. lia. Qed.

Lemma parent_children i j : 0 < j -> PARENT_OF j = i <-> j = LEFT_OF i \/ j = RIGHT_OF i.
Proof.
  intros Hj. unfold PARENT_OF, LEFT_OF, RIGHT_OF. pose proof (Nat.div_mod_eq (j - 1) 2).
  pose proof (Nat.mod_upper_bound (j - 1) 2). split; [lia |]. intros [-> | ->].
  - symmetry. apply (Nat.div_unique _ _ _ 0); lia.
  - symmetry. apply (Nat.div_unique _ _ _ 1); lia.
Qed.

(** The root of a heap is a least element. *)
Lemma heap_root a n j : heap a n -> j < n -> le (at_ a 0) (at_ a j).
Proof.
  intros H. induction j as [j IH] using lt_wf_ind. intros Hj. destruct (decide (j = 0)) as [-> |].
  - destruct (le_total (at_ a 0) (at_ a 0)); done.
  - pose proof (parent_lt j). apply (cmp_trans _ (at_ a (PARENT_OF j))); [apply IH; lia | apply H; lia].
Qed.

(** A heap but for the element at [i], which may be too small for its place. *)
Definition heap_up (a : list A) (n i : nat) : Prop :=
  (forall j, 0 < j < n -> j <> i -> le (at_ a (PARENT_OF j)) (at_ a j)) /\
  (forall j, 0 < j < n -> PARENT_OF j = i -> 0 < i -> le (at_ a (PARENT_OF i)) (at_ a j)).

(** A heap but for the element at [i], which may be too big for its place. *)
Definition heap_down (a : list A) (n i : nat) : Prop :=
  (forall j, 0 < j < n -> PARENT_OF j <> i -> le (at_ a (PARENT_OF j)) (at_ a j)) /\
  (forall j, 0 < j < n -> PARENT_OF j = i -> 0 < i -> le (at_ a (PARENT_OF i)) (at_ a j)).

(** The array with the elements at [i] and [k] exchanged, [x] going to [i] and [t] to [k]. *)
Definition moved (v : list A) (i k : nat) (x t : A) : list A := <[k := t]> (<[i := x]> v).

Lemma moved_perm v i k : i < length v -> k < length v -> i <> k -> moved v i k (at_ v k) (at_ v i) ≡ₚ v.
Proof.
  intros Hi Hk Hne. unfold moved. set (x := at_ v k). set (t := at_ v i).
  pose proof (insert_permutation v i t x (lookup_at v i Hi)) as P1.
  assert (<[i := x]> v !! k = Some x) as Hx by (rewrite list_lookup_insert_ne by done; by apply lookup_at).
  pose proof (insert_permutation (<[i := x]> v) k x t Hx) as P2.
  apply (Permutation_cons_inv (a := x)). by rewrite <- P2, <- P1.
Qed.

Lemma heap_up_step v n i :
  i < n -> n <= length v -> 0 < i -> heap_up v n i -> le (at_ v i) (at_ v (PARENT_OF i)) ->
  heap_up (moved v i (PARENT_OF i) (at_ v (PARENT_OF i)) (at_ v i)) n (PARENT_OF i).
Proof.
  intros Hi Hn H0 [H1 H2] Hle. set (p := PARENT_OF i) in *. pose proof (parent_lt i H0) as Hp. fold p in Hp.
  set (v' := moved _ _ _ _ _).
  assert (forall j, at_ v' j = if decide (j = p) then at_ v i else if decide (j = i) then at_ v p else at_ v j) as E.
  { intros j. unfold v', moved. rewrite at_insert by (rewrite length_insert; lia).
    destruct (decide (j = p)); [done |]. by rewrite at_insert by lia. }
  split.
  - intros j Hj Hjp. rewrite !E, (decide_False (P := j = p)) by done.
    destruct (decide (j = i)) as [-> |].
    + fold p. by rewrite decide_True.
    + destruct (decide (PARENT_OF j = p)) as [Ep |].
      * eapply cmp_trans; [exact Hle |]. rewrite <- Ep. by apply H1.
      * destruct (decide (PARENT_OF j = i)); [by apply H2 | by apply H1].
  - intros j Hj Hjp Hp0. rewrite !E. pose proof (parent_lt p Hp0). pose proof (parent_lt j).
    rewrite (decide_False (P := PARENT_OF p = p)), (decide_False (P := PARENT_OF p = i)), (decide_False (P := j = p)) by lia.
    assert (le (at_ v (PARENT_OF p)) (at_ v p)) by (apply H1; lia).
    destruct (decide (j = i)); [done |]. eapply cmp_trans; [done |]. rewrite <- Hjp. by apply H1.
Qed.

Lemma heap_up_done v n i :
  heap_up v n i -> (i = 0 \/ le (at_ v (PARENT_OF i)) (at_ v i)) -> heap v n.
Proof.
  intros [H1 _] Hi j Hj. destruct (decide (j = i)) as [-> |]; [destruct Hi; [lia | done] | by apply H1].
Qed.

Lemma heap_down_step v n i w :
  i < n -> w < n -> n <= length v -> 0 < w -> PARENT_OF w = i -> heap_down v n i ->
  (forall j, 0 < j < n -> PARENT_OF j = i -> le (at_ v w) (at_ v j)) -> le (at_ v w) (at_ v i) ->
  heap_down (moved v i w (at_ v w) (at_ v i)) n w.
Proof.
  intros Hi Hw Hn Hw0 Hpw [H1 H2] Hmin Hle. pose proof (parent_lt w Hw0) as Hlt. rewrite Hpw in Hlt.
  set (v' := moved _ _ _ _ _).
  assert (forall j, at_ v' j = if decide (j = w) then at_ v i else if decide (j = i) then at_ v w else at_ v j) as E.
  { intros j. unfold v', moved. rewrite at_insert by (rewrite length_insert; lia).
    destruct (decide (j = w)); [done |]. by rewrite at_insert by lia. }
  split.
  - intros j Hj Hjp. rewrite !E, (decide_False (P := PARENT_OF j = w)) by done.
    destruct (decide (j = w)) as [-> | Hjw].
    + by rewrite decide_True.
    + destruct (decide (PARENT_OF j = i)) as [Ep | Ep].
      * pose proof (parent_lt j). rewrite decide_False by lia. by apply Hmin.
      * destruct (decide (j = i)) as [-> |]; [apply H2; (done || lia) | by apply H1].
  - intros j Hj Hjp _. rewrite !E, Hpw. pose proof (parent_lt j).
    rewrite (decide_False (P := i = w)), (decide_True (P := i = i)), (decide_False (P := j = w)), (decide_False (P := j = i)) by lia.
    rewrite <- Hjp. apply H1; lia.
Qed.

Lemma heap_down_done v n i :
  heap_down v n i -> (forall j, 0 < j < n -> PARENT_OF j = i -> le (at_ v i) (at_ v j)) -> heap v n.
Proof.
  intros [H1 _] Hc j Hj. destruct (decide (PARENT_OF j = i)) as [E |]; [rewrite E; by apply Hc | by apply H1].
Qed.

(** ** The loops *)

(** Moving the hole from [i] to [k]: the array with the saved node put back. *)
Lemma moved_hole a i k tmp :
  i < length a -> k <> i ->
  let v := <[i := tmp]> a in
  <[k := tmp]> (<[i := at_ a k]> a) = moved v i k (at_ v k) (at_ v i) /\ at_ v k = at_ a k /\ at_ v i = tmp.
Proof.
  intros Hi Hne v. unfold v, moved. rewrite at_insert_eq, at_insert_ne by done. by rewrite list_insert_insert_eq.
Qed.

(** What a loop leaves: a heap in the same array with the same elements. *)
Definition settled (n : nat) (v a' : list A) : Prop :=
  heap a' n /\ a' ≡ₚ v /\ drop n a' = drop n v /\ length a' = length v.

Lemma drop_moved v i k n x t : i < n -> k < n -> drop n (moved v i k x t) = drop n v.
Proof. intros Hi Hk. unfold moved. by rewrite !drop_insert_lt. Qed.

Lemma settled_moved n v i k a' :
  i < n -> k < n -> n <= length v -> i <> k ->
  settled n (moved v i k (at_ v k) (at_ v i)) a' -> settled n v a'.
Proof.
  intros Hi Hk Hn Hne (H1 & H2 & H3 & H4). split_and!; [done | | | ].
  - rewrite H2. apply moved_perm; lia.
  - by rewrite H3, drop_moved.
  - rewrite H4. unfold moved. by rewrite !length_insert.
Qed.

Lemma trickle_up_loop_spec n fuel : forall i tmp a s,
  i < fuel -> i < n -> n <= length a -> heap_up (<[i := tmp]> a) n i ->
  exists a' s', trickle_up_loop cmp update fuel i tmp a s = Ok (a', s') /\ settled n (<[i := tmp]> a) a'.
Proof.
  induction fuel as [|fuel IH]; intros i tmp a s Hf Hi Hn Hh; [lia |]. cbn [trickle_up_loop].
  set (v := <[i := tmp]> a) in *.
  assert (heap v n -> exists a' s', (a ← wr a i tmp; Ok (a, notify update tmp i s)) = Ok (a', s') /\ settled n v a') as Hstop.
  { intros Hhv. rewrite wr_at by lia. cbn [mbind res_bind]. do 2 eexists. split; [done |]. by split_and!. }
  destruct (Nat.ltb_spec 0 i) as [H0 | H0]; [| apply Hstop; eapply heap_up_done; [done | left; lia]].
  pose proof (parent_lt i H0) as Hp. set (p := PARENT_OF i) in *.
  rewrite rd_at by lia. cbn [mbind res_bind].
  destruct (moved_hole a i p tmp) as (Em & Ek & Ei); [lia | lia |]. fold v in Em, Ek, Ei.
  destruct (Z.ltb_spec (cmp tmp (at_ a p)) 0) as [Hlt | Hge].
  - rewrite wr_at by lia. cbn [mbind res_bind].
    destruct (IH p tmp (<[i := at_ a p]> a) (notify update (at_ a p) i s)) as (a' & s' & E & Hs).
    + lia.
    + lia.
    + rewrite length_insert. lia.
    + rewrite Em. apply heap_up_step; [done | unfold v; rewrite length_insert; lia | done | done |].
      fold p. rewrite Ei, Ek. by apply lt_le.
    + exists a', s'. split; [done |]. rewrite Em in Hs.
      apply (settled_moved n v i p); [done | lia | unfold v; rewrite length_insert; lia | lia | done].
  - apply Hstop. eapply heap_up_done; [done |]. right. fold p. rewrite Ei, Ek. apply not_lt_le. lia.
Qed.

(** The child the loop looks at is a least one. *)
Lemma which_spec (a : list A) n i :
  HAVE_CHILD i n = true -> n <= length a ->
  exists w, (if RIGHT_OF i <? n then
               l ← rd a (LEFT_OF i); r ← rd a (RIGHT_OF i);
               Ok (if (cmp l r >? 0)%Z then RIGHT_OF i else LEFT_OF i)
             else Ok (LEFT_OF i)) = Ok w /\ 0 < w < n /\ PARENT_OF w = i /\
    forall j, 0 < j < n -> PARENT_OF j = i -> le (at_ a w) (at_ a j).
Proof.
  intros Hc Hn. unfold HAVE_CHILD in Hc. apply Nat.ltb_lt in Hc.
  assert (LEFT_OF i < n) as Hl by (pose proof (Nat.div_mod_eq n 2); unfold LEFT_OF; lia).
  assert (forall x, le x x) as Hrefl by (intros x; destruct (le_total x x); done).
  assert (PARENT_OF (LEFT_OF i) = i /\ PARENT_OF (RIGHT_OF i) = i) as [Pl Pr]
    by (split; apply parent_children; unfold LEFT_OF, RIGHT_OF; lia).
  destruct (Nat.ltb_spec (RIGHT_OF i) n) as [Hr | Hr].
  - rewrite !rd_at by lia. cbn [mbind res_bind]. eexists. split; [done |].
    rewrite Z.gtb_ltb. destruct (Z.ltb_spec 0 (cmp (at_ a (LEFT_OF i)) (at_ a (RIGHT_OF i)))) as [Hg | Hg].
    + split; [unfold RIGHT_OF in *; lia |]. split; [done |]. intros j Hj Hp.
      apply parent_children in Hp as [-> | ->]; [by apply gt_le | done | lia].
    + split; [unfold LEFT_OF in *; lia |]. split; [done |]. intros j Hj Hp.
      apply parent_children in Hp as [-> | ->]; [done | done | lia].
  - exists (LEFT_OF i). split; [done |]. split; [unfold LEFT_OF in *; lia |]. split; [done |].
    intros j Hj Hp. apply parent_children in Hp as [-> | ->]; [done | lia | lia].
Qed.

Lemma no_child i n j : HAVE_CHILD i n = false -> 0 < j < n -> PARENT_OF j = i -> False.
Proof.
  intros Hc Hj Hp. unfold HAVE_CHILD in Hc. apply Nat.ltb_ge in Hc.
  pose proof (Nat.div_mod_eq n 2). pose proof (Nat.mod_upper_bound n 2).
  apply parent_children in Hp; [| lia]. unfold LEFT_OF, RIGHT_OF in Hp. lia.
Qed.

Lemma trickle_down_loop_spec n fuel : forall i tmp a s,
  n < fuel + i -> i < n -> n <= length a -> heap_down (<[i := tmp]> a) n i ->
  exists a' s', trickle_down_loop cmp update fuel n i tmp a s = Ok (a', s') /\ settled n (<[i := tmp]> a) a'.
Proof.
  induction fuel as [|fuel IH]; intros i tmp a s Hf Hi Hn Hh; [lia |]. cbn [trickle_down_loop].
  set (v := <[i := tmp]> a) in *.
  assert (length v = length a) as Lv by apply length_insert.
  assert (heap v n -> exists a' s', (a ← wr a i tmp; Ok (a, notify update tmp i s)) = Ok (a', s') /\ settled n v a') as Hstop.
  { intros Hhv. rewrite wr_at by lia. cbn [mbind res_bind]. do 2 eexists. split; [done |]. by split_and!. }
  destruct (HAVE_CHILD i n) eqn:Hc.
  2: { apply Hstop. eapply heap_down_done; [done |]. intros j Hj Hp. destruct (no_child i n j Hc Hj Hp). }
  destruct (which_spec a n i Hc Hn) as (w & -> & Hw & Hp & Hmin). cbn [mbind res_bind].
  pose proof (parent_lt w ltac:(lia)) as Hlt. rewrite Hp in Hlt.
  rewrite rd_at by lia. cbn [mbind res_bind].
  destruct (moved_hole a i w tmp) as (Em & Ek & Ei); [lia | lia |]. fold v in Em, Ek, Ei.
  assert (forall j, 0 < j < n -> PARENT_OF j = i -> le (at_ v w) (at_ v j)) as Hmin'.
  { intros j Hj Hpj. pose proof (parent_lt j). rewrite Ek. unfold v. rewrite at_insert_ne by lia. by apply Hmin. }
  rewrite Z.gtb_ltb. destruct (Z.ltb_spec 0 (cmp (at_ a w) tmp)) as [Hg | Hg].
  - apply Hstop. eapply heap_down_done; [done |]. intros j Hj Hpj.
    eapply cmp_trans; [| by apply Hmin']. rewrite Ei, Ek. by apply gt_le.
  - rewrite wr_at by lia. cbn [mbind res_bind].
    destruct (IH w tmp (<[i := at_ a w]> a) (notify update (at_ a w) i s)) as (a' & s' & E & Hs).
    + lia.
    + lia.
    + rewrite length_insert. lia.
    + rewrite Em. apply heap_down_step; try done; try lia. rewrite Ei, Ek. exact Hg.
    + exists a', s'. split; [done |]. rewrite Em in Hs.
      apply (settled_moved n v i w); [done | lia | lia | lia | done].
Qed.

(** ** The operations *)

Notation enqueue := (pqueue_enqueue null cmp update).
Notation dequeue := (pqueue_dequeue cmp update).

Record pq_wf (q : pqueue) : Prop := {
  wf_cap : 3 <= array_size q;
  wf_fits : size q <= array_size q;
  wf_heap : heap (array q) (size q) }.

(** The elements in the queue. *)
Definition elems (q : pqueue) : list A := take (size q) (array q).

Lemma take_perm n (a' v : list A) : a' ≡ₚ v -> drop n a' = drop n v -> take n a' ≡ₚ take n v.
Proof.
  intros Hp Hd. rewrite <- (take_drop n a'), <- (take_drop n v), Hd in Hp. by apply Permutation_app_inv_r in Hp.
Qed.

Lemma elems_at (q : pqueue) x : pq_wf q -> x ∈ elems q -> exists j, j < size q /\ x = at_ (array q) j.
Proof.
  intros [_ Hf _] Hx. apply list_elem_of_lookup in Hx as [j Hj]. apply lookup_take_Some in Hj as [Hj Hl].
  exists j. split; [done |]. unfold array_size in Hf. rewrite lookup_at in Hj by lia. by injection Hj as <-.
Qed.

Lemma create_wf : pq_wf (pqueue_create null) /\ elems (pqueue_create null) = [].
Proof.
  split; [| done]. constructor; unfold array_size; cbn; try lia. intros j Hj. cbn in Hj. lia.
Qed.

Lemma enqueue_spec x q s :
  pq_wf q -> exists q' s', enqueue x q s = Ok (q', s') /\ pq_wf q' /\ elems q' ≡ₚ x :: elems q.
Proof.
  intros WF. unfold pqueue_enqueue. set (q1 := if _ <=? _ then _ else _).
  assert (pq_wf q1 /\ size q1 = size q /\ elems q1 = elems q /\ size q + 2 < array_size q1) as (WF1 & Hs & He & Hc).
  { destruct WF as [H3 Hf Hh]. unfold q1. destruct (Nat.leb_spec (array_size q) (size q + 2)); [| by split_and!].
    unfold array_size in *. split_and!; try done.
    - constructor; unfold array_size; cbn; rewrite ?length_app, ?length_replicate; try lia.
      intros j Hj. pose proof (parent_lt j). unfold at_. rewrite !app_nth1 by lia. by apply Hh.
    - unfold elems. cbn. by rewrite take_app_le by lia.
    - cbn. rewrite length_app, length_replicate. unfold array_size. lia. }
  clearbody q1. rewrite Hs, <- He. rewrite wr_at by (unfold array_size in Hc; lia). cbn [mbind res_bind].
  set (n := size q) in *. set (a1 := <[n := x]> (array q1)). unfold trickle_up. cbn [array size].
  assert (length a1 = array_size q1) as L1 by apply length_insert.
  assert (at_ a1 n = x) as Ex by (apply at_insert_eq; unfold array_size in Hc; lia).
  rewrite rd_at, Ex by lia. cbn [mbind res_bind].
  assert (<[n := x]> a1 = a1) as Ea by (unfold a1; by rewrite list_insert_insert_eq).
  destruct (trickle_up_loop_spec (n + 1) (S n) n x a1 (notify update x n s)) as (a' & s' & E & Hset); [lia | lia | lia | |].
  { rewrite Ea. assert (forall j, j < n -> at_ a1 j = at_ (array q1) j) as Hlow
      by (intros j Hj; apply at_insert_ne; unfold array_size in Hc; lia).
    split; intros j Hj; pose proof (parent_lt j); [intros Hne; rewrite !Hlow by lia; apply WF1; lia | lia]. }
  rewrite Ea in Hset. destruct Hset as (Hh & Hp & Hd & Hl).
  rewrite E. cbn [mbind res_bind array size]. do 2 eexists. split; [done |]. split.
  - constructor; unfold array_size; cbn; try done; unfold array_size in *; lia.
  - unfold elems. cbn. rewrite (take_perm _ _ _ Hp Hd). rewrite Hs. unfold a1.
    rewrite Nat.add_1_r, (take_S_r _ _ x) by (apply list_lookup_insert_eq; unfold array_size in Hc; lia).
    rewrite take_insert_ge by lia. by rewrite Permutation_app_comm.
Qed.

Lemma dequeue_spec q s :
  pq_wf q -> 0 < size q ->
  exists x q' s', dequeue q s = Ok (x, q', s') /\ pq_wf q' /\ elems q ≡ₚ x :: elems q' /\
    (forall y, y ∈ elems q -> le x y).
Proof.
  intros WF Hpos. pose proof WF as [H3 Hf Hh]. unfold array_size in *. unfold pqueue_dequeue.
  set (n := size q) in *. set (a := array q) in *.
  rewrite (rd_at a 0) by lia. cbn [mbind res_bind]. rewrite (proj2 (Nat.eqb_neq n 0)), (rd_at a (n - 1)) by lia.
  cbn [mbind res_bind]. rewrite wr_at by lia. cbn [mbind res_bind].
  set (a1 := <[0 := at_ a (n - 1)]> a). assert (length a1 = length a) as L1 by apply length_insert.
  assert (at_ a1 0 = at_ a (n - 1)) as E0 by (apply at_insert_eq; lia).
  unfold trickle_down. cbn [array size]. rewrite rd_at, E0 by lia. cbn [mbind res_bind].
  assert (<[0 := at_ a (n - 1)]> a1 = a1) as Ea by (unfold a1; by rewrite list_insert_insert_eq).
  assert (exists a' s', trickle_down_loop cmp update (S (n - 1)) (n - 1) 0 (at_ a (n - 1)) a1 s = Ok (a', s') /\
    settled (n - 1) a1 a') as (a' & s' & E & Hhp & Hp & Hd & Hl).
  { destruct (decide (n = 1)) as [Hn1 | Hn1].
    - rewrite Hn1. cbn [Nat.sub trickle_down_loop HAVE_CHILD Nat.div Nat.ltb Nat.leb]. change (HAVE_CHILD 0 0) with false. cbn iota.
      rewrite wr_at by lia. cbn [mbind res_bind]. do 2 eexists. split; [done |]. rewrite Hn1 in Ea. cbn in Ea. rewrite Ea.
      split_and!; try done. intros j Hj. lia.
    - destruct (trickle_down_loop_spec (n - 1) (S (n - 1)) 0 (at_ a (n - 1)) a1 s) as (a' & s' & E & H); [lia | lia | lia | |].
      + rewrite Ea. split; intros j Hj; [| lia].
        intros Hpj. pose proof (parent_lt j). unfold a1. rewrite !at_insert_ne by lia. apply Hh. lia.
      + rewrite Ea in H. eauto. }
  rewrite E. cbn [mbind res_bind]. do 3 eexists. split; [done |]. split_and!.
  - constructor; unfold array_size; cbn; try done; lia.
  - unfold elems. cbn. rewrite (take_perm _ _ _ Hp Hd). fold n a.
    replace n with (S (n - 1)) at 1 by lia. rewrite (take_S_r _ _ (at_ a (n - 1))) by (apply lookup_at; lia).
    unfold a1. destruct (decide (n = 1)) as [Hn1 | Hn1].
    + rewrite Hn1. cbn. done.
    + rewrite take_insert_lt by lia. rewrite Permutation_app_comm. cbn [app].
      apply insert_permutation. rewrite lookup_take_lt by lia. apply lookup_at. lia.
  - intros y Hy. destruct (elems_at q y WF Hy) as (j & Hj & ->). apply (heap_root _ n); [done | exact Hj].
Qed.

(** ** The abstract priority queue *)

Inductive pq_op := Enqueue (x : A) | Dequeue.

Fixpoint run_pqueue (q : pqueue) (s : St) (ops : list pq_op) : res (list A * pqueue * St) :=
  match ops with
  | [] => Ok ([], q, s)
  | Enqueue x :: r => '(q, s) ← enqueue x q s; run_pqueue q s r
  | Dequeue :: r =>
      '(x, q, s) ← dequeue q s;
      '(xs, q, s) ← run_pqueue q s r;
      Ok (x :: xs, q, s)
  end.

(** The multiset [m] after the operations, and what they return: always a least element. *)
Inductive multiset_run : list A -> list pq_op -> list A -> list A -> Prop :=
| run_nil m m' : m ≡ₚ m' -> multiset_run m [] [] m'
| run_enqueue m x ops outs m' :
    multiset_run (x :: m) ops outs m' -> multiset_run m (Enqueue x :: ops) outs m'
| run_dequeue m x m1 ops outs m' :
    m ≡ₚ x :: m1 -> (forall y, y ∈ m -> le x y) -> multiset_run m1 ops outs m' ->
    multiset_run m (Dequeue :: ops) (x :: outs) m'.

(** No dequeue from an empty queue of [n] elements. *)
Fixpoint never_empty (n : nat) (ops : list pq_op) : bool :=
  match ops with
  | [] => true
  | Enqueue _ :: r => never_empty (S n) r
  | Dequeue :: r => (0 <? n) && never_empty (n - 1) r
  end.

Lemma multiset_run_perm m ops outs m' m2 : multiset_run m ops outs m' -> m ≡ₚ m2 -> multiset_run m2 ops outs m'.
Proof.
  intros H. revert m2. induction H as [m m' H | m x ops outs m' _ IH | m x m1 ops outs m' H Hl Hr IH]; intros m2 Hp.
  - constructor. by rewrite <- Hp.
  - constructor. apply IH. by rewrite Hp.
  - econstructor; [by rewrite <- Hp | | exact Hr]. intros y Hy. apply Hl. by rewrite Hp.
Qed.

Lemma run_pqueue_spec ops : forall q s,
  pq_wf q -> never_empty (length (elems q)) ops = true ->
  exists outs q' s', run_pqueue q s ops = Ok (outs, q', s') /\ pq_wf q' /\ multiset_run (elems q) ops outs (elems q').
Proof.
  induction ops as [|[x|] ops IH]; intros q s WF Hne; cbn [run_pqueue never_empty] in *.
  - do 3 eexists. split; [done |]. split; [done | by constructor].
  - destruct (enqueue_spec x q s WF) as (q1 & s1 & -> & WF1 & Hp). cbn [mbind res_bind].
    destruct (IH q1 s1 WF1) as (outs & q' & s' & E & WF' & Hr); [by rewrite (Permutation_length Hp) |].
    do 3 eexists. split; [done |]. split; [done |]. constructor. eapply multiset_run_perm; [exact Hr | by rewrite Hp].
  - apply andb_true_iff in Hne as [H0 Hne]. apply Nat.ltb_lt in H0.
    assert (length (elems q) = size q) as Hl.
    { unfold elems. rewrite length_take. destruct WF as [_ Hf _]. unfold array_size in Hf. lia. }
    destruct (dequeue_spec q s WF) as (x & q1 & s1 & -> & WF1 & Hp & Hmin); [lia |]. cbn [mbind res_bind].
    assert (length (elems q) = S (length (elems q1))) as Hl1 by by rewrite (Permutation_length Hp).
    destruct (IH q1 s1 WF1) as (outs & q' & s' & -> & WF' & Hr).
    { by replace (length (elems q1)) with (length (elems q) - 1) by lia. }
    cbn [mbind res_bind]. do 3 eexists. split; [done |]. split; [done |]. by econstructor.
Qed.

(** C34: The heap implements a priority queue: whatever sequence of enqueues and dequeues a client makes on a
    new queue (never dequeuing from an empty one, which reads [array[-1]]), every access stays inside
    the array, no element is lost or duplicated, and every dequeue returns an element that is least,
    for the client's comparison, among those in the queue. *)
Theorem pqueue_refines_multiset ops s :
  never_empty 0 ops = true ->
  (exists outs q' s', run_pqueue (pqueue_create null) s ops = Ok (outs, q', s') /\ pq_wf q' /\
     multiset_run [] ops outs (elems q')) /\
  (forall q, size q = 0 -> pq_wf q -> dequeue q s = Oob).
Proof.
  intros Hne. destruct create_wf as [WF E]. split.
  - destruct (run_pqueue_spec ops (pqueue_create null) s WF) as (outs & q' & s' & H); [by rewrite E |].
    rewrite E in H. eauto.
  - intros q Hs [H3 _ _]. unfold pqueue_dequeue, array_size in *. rewrite (rd_at (array q) 0) by lia. cbn [mbind res_bind]. by rewrite Hs.
Qed.
End proofs.

Global Instance Z_sub_order : CmpOrder Z.sub.
Proof. split; intros; lia. Qed.

Lemma pqueue_refines_multiset_witness :
  exists outs q' s', run_pqueue 0%Z Z.sub (@None (Z -> Z -> unit -> unit)) (pqueue_create 0%Z) tt
    [Enqueue 5%Z; Enqueue 3%Z; Enqueue 9%Z; Dequeue; Enqueue 1%Z; Dequeue; Dequeue] = Ok (outs, q', s') /\
    outs = [3; 1; 5]%Z.
Proof.
  destruct (pqueue_refines_multiset 0%Z Z.sub (@None (Z -> Z -> unit -> unit))
    [Enqueue 5%Z; Enqueue 3%Z; Enqueue 9%Z; Dequeue; Enqueue 1%Z; Dequeue; Dequeue] tt) as [(outs & q' & s' & E & _) _].
  - reflexivity.
  - exists outs, q', s'. split; [exact E |]. vm_compute in E. injection E as <- _ _. reflexivity.
Defined.

(** ** Clients that record positions *)

Section tracking.
Context {A St : Type} `{EqDecision A} (null : A) (cmp : A -> A -> Z) (update : option (A -> Z -> St -> St)).
Context `{ORD : !CmpOrder cmp}.
(** The client's state records a position for every element, and [update] sets it. *)
Context (posn : St -> A -> Z).
Context (UPD : forall x i s y, posn (notify update x i s) y = if decide (y = x) then Z.of_nat i else posn s y).

(** All positions below [n] are recorded, [i] excepted. *)
Definition tracks_but (a : list A) (n i : nat) (s : St) : Prop :=
  forall j, j < n -> j <> i -> posn s (at_ null a j) = Z.of_nat j.
Definition tracks (a : list A) (n : nat) (s : St) : Prop := forall j, j < n -> posn s (at_ null a j) = Z.of_nat j.

(** The elements below [n] are distinct. *)
Definition distinct (v : list A) (n : nat) : Prop :=
  forall j k, j < n -> k < n -> at_ null v j = at_ null v k -> j = k.

Lemma tracks_restore a n i tmp s :
  i < length a -> distinct (<[i := tmp]> a) n -> i < n -> tracks_but a n i s -> tracks (<[i := tmp]> a) n (notify update tmp i s).
Proof.
  intros Hi Hd Hin Ht j Hj. rewrite UPD. destruct (decide (j = i)) as [-> | Hne].
  - rewrite at_insert_eq by done. by rewrite decide_True.
  - rewrite decide_False; [rewrite at_insert_ne by done; by apply Ht |]. intros E. apply Hne. apply Hd; [done | done |].
    by rewrite E, at_insert_eq.
Qed.

(** Moving the element at [k] into the hole [i]. *)
Lemma tracks_move a n i k tmp s :
  i < length a -> k < length a -> i < n -> k < n -> k <> i ->
  distinct (<[i := tmp]> a) n -> tracks_but a n i s ->
  distinct (<[k := tmp]> (<[i := at_ null a k]> a)) n /\
  tracks_but (<[i := at_ null a k]> a) n k (notify update (at_ null a k) i s).
Proof.
  intros Hi Hk Hin Hkn Hne Hd Ht. split.
  - intros j l Hj Hl E.
    set (sw := fun x => if decide (x = i) then k else if decide (x = k) then i else x).
    assert (forall x, at_ null (<[k := tmp]> (<[i := at_ null a k]> a)) x = at_ null (<[i := tmp]> a) (sw x)) as Hsw.
    { intros x. rewrite (at_insert null _ k) by (rewrite length_insert; lia).
      rewrite !(at_insert null a i) by done. unfold sw.
      destruct (decide (x = k)) as [-> | Hxk].
      - rewrite (decide_False (P := k = i)), decide_True by done. done.
      - destruct (decide (x = i)) as [-> |]; [by rewrite (decide_False (P := k = i)) |].
        by rewrite decide_False. }
    assert (forall x, x < n -> sw x < n) as Hlt by (intros x Hx; unfold sw; repeat case_decide; lia).
    rewrite !Hsw in E. apply Hd in E; [| by apply Hlt | by apply Hlt]. unfold sw in E. repeat case_decide; lia.
  - intros j Hj Hjk. rewrite UPD. destruct (decide (j = i)) as [-> | Hji].
    + rewrite at_insert_eq by done. by rewrite decide_True.
    + rewrite at_insert_ne by done. rewrite decide_False; [by apply Ht |]. intros E. apply Hjk.
      apply Hd; [done | done |]. by rewrite !at_insert_ne.
Qed.

Lemma trickle_up_loop_tracks n fuel : forall i tmp a s a' s',
  i < n -> n <= length a -> distinct (<[i := tmp]> a) n -> tracks_but a n i s ->
  trickle_up_loop cmp update fuel i tmp a s = Ok (a', s') -> tracks a' n s'.
Proof.
  induction fuel as [|fuel IH]; intros i tmp a s a' s' Hi Hn Hd Ht E; [done |]. cbn [trickle_up_loop] in E.
  assert ((a ← wr a i tmp; Ok (a, notify update tmp i s)) = Ok (a', s') -> tracks a' n s') as Hstop.
  { rewrite wr_at by lia. cbn. intros [= <- <-]. apply tracks_restore; (done || lia). }
  destruct (Nat.ltb_spec 0 i) as [H0 | H0]; [| auto]. pose proof (parent_lt i H0).
  rewrite (rd_at null) in E by lia. cbn [mbind res_bind] in E.
  destruct (cmp tmp _ <? 0)%Z; [| auto]. rewrite wr_at in E by lia. cbn [mbind res_bind] in E.
  destruct (tracks_move a n i (PARENT_OF i) tmp s) as [Hd' Ht']; try lia; try done.
  eapply IH; [| | exact Hd' | exact Ht' | exact E]; rewrite ?length_insert; lia.
Qed.

Lemma trickle_down_loop_tracks n fuel : forall i tmp a s a' s',
  i < n -> n <= length a -> distinct (<[i := tmp]> a) n -> tracks_but a n i s ->
  trickle_down_loop cmp update fuel n i tmp a s = Ok (a', s') -> tracks a' n s'.
Proof.
  induction fuel as [|fuel IH]; intros i tmp a s a' s' Hi Hn Hd Ht E; [done |]. cbn [trickle_down_loop] in E.
  assert ((a ← wr a i tmp; Ok (a, notify update tmp i s)) = Ok (a', s') -> tracks a' n s') as Hstop.
  { rewrite wr_at by lia. cbn. intros [= <- <-]. apply tracks_restore; (done || lia). }
  destruct (HAVE_CHILD i n) eqn:Hc; [| auto].
  destruct (which_spec null cmp a n i Hc Hn) as (w & Ew & Hw & Hp & _). rewrite Ew in E. cbn [mbind res_bind] in E.
  pose proof (parent_lt w ltac:(lia)). rewrite (rd_at null) in E by lia. cbn [mbind res_bind] in E.
  destruct (cmp _ tmp >? 0)%Z; [auto |]. rewrite wr_at in E by lia. cbn [mbind res_bind] in E.
  destruct (tracks_move a n i w tmp s) as [Hd' Ht']; try lia; try done.
  eapply IH; [| | exact Hd' | exact Ht' | exact E]; rewrite ?length_insert; lia.
Qed.

(** The queue's elements are distinct and their positions recorded. *)
Definition pos_inv (q : pqueue) (s : St) : Prop := distinct (array q) (size q) /\ tracks (array q) (size q) s.

Lemma tracks_distinct a n s : tracks a n s -> distinct a n.
Proof. intros H j k Hj Hk E. pose proof (H j Hj) as P1. pose proof (H k Hk) as P2. rewrite E in P1. lia. Qed.

Lemma enqueue_pos x q s q' s' :
  pq_wf null cmp q -> pos_inv q s -> x ∉ elems q -> pqueue_enqueue null cmp update x q s = Ok (q', s') -> pos_inv q' s'.
Proof.
  intros WF [Hd Ht] Hx E. unfold pqueue_enqueue in E. set (q1 := if _ <=? _ then _ else _) in E.
  assert (size q1 = size q /\ size q < length (array q1) /\ forall j, j < size q -> at_ null (array q1) j = at_ null (array q) j)
    as (Hs & Hc & Ha).
  { destruct WF as [H3 Hf _]. unfold q1. unfold array_size in *.
    destruct (Nat.leb_spec (length (array q)) (size q + 2)) as [H | H]; [| split_and!; (done || lia)].
    cbn. split_and!; [done | rewrite length_app, length_replicate; unfold array_size; lia |].
    intros j Hj. unfold at_. by rewrite app_nth1 by lia. }
  clearbody q1. rewrite Hs in E. set (n := size q) in *. rewrite wr_at in E by lia. cbn [mbind res_bind] in E.
  unfold trickle_up in E. cbn [array size] in E. set (a1 := <[n := x]> (array q1)) in E.
  assert (n < length a1) as Hl by (unfold a1; by rewrite length_insert).
  rewrite (rd_at null) in E by done. cbn [mbind res_bind] in E.
  replace (at_ null a1 n) with x in E by (symmetry; by apply at_insert_eq).
  destruct (trickle_up_loop _ _ _ _ _ _ _) as [[a2 s2]| |] eqn:El; cbn in E; [| done | done]. injection E as <- <-.
  assert (forall j, j < n -> at_ null a1 j = at_ null (array q) j) as Hlow.
  { intros j Hj. unfold a1. rewrite at_insert_ne by lia. by apply Ha. }
  assert (forall j, j < n -> at_ null (array q) j <> x) as Hxn.
  { intros j Hj E. apply Hx. unfold elems. apply (list_elem_of_lookup_2 _ j). rewrite lookup_take_lt by done. rewrite <- E.
    apply lookup_at. destruct WF as [_ Hf _]. unfold array_size in Hf. fold n in Hf. lia. }
  assert (tracks a2 (n + 1) s2) as Ht2.
  { eapply (trickle_up_loop_tracks (n + 1)); [| | | | exact El]; [lia | lia | |].
    - replace (<[n := x]> a1) with a1 by (unfold a1; by rewrite list_insert_insert_eq).
      assert (forall j, j < n + 1 -> j = n \/ j < n) as Hjn by lia.
      assert (at_ null a1 n = x) as En by by apply at_insert_eq.
      intros j k Hj Hk Ejk. destruct (Hjn j Hj) as [-> | Hj'], (Hjn k Hk) as [-> | Hk']; [done | | |].
      + rewrite En, Hlow in Ejk by done. by destruct (Hxn k Hk').
      + rewrite En, Hlow in Ejk by done. by destruct (Hxn j Hj').
      + rewrite !Hlow in Ejk by done. by apply Hd.
    - intros j Hj Hjn. rewrite Hlow by lia. rewrite UPD, decide_False by (apply Hxn; lia). apply Ht. lia. }
  split; [by eapply tracks_distinct | exact Ht2].
Qed.

Lemma dequeue_pos q s x q' s' :
  pq_wf null cmp q -> pos_inv q s -> pqueue_dequeue cmp update q s = Ok (x, q', s') -> pos_inv q' s'.
Proof.
  intros [H3 Hf _] [Hd Ht] E. unfold pqueue_dequeue, array_size in *. set (n := size q) in *. set (a := array q) in *.
  rewrite (rd_at null a 0) in E by lia. cbn [mbind res_bind] in E. destruct (Nat.eqb_spec n 0) as [|Hn]; [done |].
  rewrite (rd_at null a (n - 1)) in E by lia. cbn [mbind res_bind] in E. rewrite wr_at in E by lia. cbn [mbind res_bind] in E.
  unfold trickle_down in E. cbn [array size] in E. set (a1 := <[0 := at_ null a (n - 1)]> a) in E.
  assert (length a1 = length a) as L1 by apply length_insert.
  rewrite (rd_at null) in E by lia. cbn [mbind res_bind] in E.
  replace (at_ null a1 0) with (at_ null a (n - 1)) in E by (symmetry; apply at_insert_eq; lia).
  destruct (trickle_down_loop _ _ _ _ _ _ _ _) as [[a2 s2]| |] eqn:El; cbn in E; [| done | done]. injection E as _ <- <-.
  assert (tracks a2 (n - 1) s2) as Ht2.
  { destruct (decide (n = 1)) as [-> | Hn1]; [intros j Hj; lia |].
    eapply (trickle_down_loop_tracks (n - 1)); [| | | | exact El]; [lia | lia | |].
    - replace (<[0 := at_ null a (n - 1)]> a1) with a1 by (unfold a1; by rewrite list_insert_insert_eq).
      set (f := fun j => if decide (j = 0) then n - 1 else j).
      assert (forall j, at_ null a1 j = at_ null a (f j)) as Hf1.
      { intros j. unfold a1, f. rewrite at_insert by lia. by destruct (decide (j = 0)). }
      intros j k Hj Hk Ejk. rewrite !Hf1 in Ejk. apply Hd in Ejk; unfold f in *; repeat case_decide; lia.
    - intros j Hj Hj0. unfold a1. rewrite at_insert_ne by lia. apply Ht. lia. }
  split; [by eapply tracks_distinct | exact Ht2].
Qed.

(** Raising the priority of the element at [i] leaves a heap but for that element. *)
Lemma raised_heap_up (cmp' : A -> A -> Z) a n i :
  heap null cmp a n -> distinct a n -> i < n ->
  (forall y z, y <> at_ null a i -> z <> at_ null a i -> cmp' y z = cmp y z) ->
  (forall y, le cmp (at_ null a i) y -> le cmp' (at_ null a i) y) ->
  heap_up null cmp' a n i.
Proof.
  intros Hh Hd Hi Hsame Hraise.
  assert (forall j, j < n -> j <> i -> at_ null a j <> at_ null a i) as Hne by (intros j Hj Hji E; apply Hji; by apply Hd).
  split.
  - intros j Hj Hji. pose proof (parent_lt j ltac:(lia)). destruct (decide (PARENT_OF j = i)) as [E | Hp].
    + rewrite E. apply Hraise. rewrite <- E. by apply Hh.
    + unfold le. rewrite Hsame by (apply Hne; (done || lia)). by apply Hh.
  - intros j Hj Hp H0. pose proof (parent_lt i H0). pose proof (parent_lt j ltac:(lia)).
    unfold le. rewrite Hsame by (apply Hne; lia). apply (cmp_trans _ (at_ null a i)); [apply Hh; lia |].
    rewrite <- Hp. by apply Hh.
Qed.

(** [trickle_up] at [i] repairs such a heap and the recorded positions. *)
Lemma trickle_up_pos q s i :
  3 <= array_size q -> size q <= array_size q -> i < size q -> heap_up null cmp (array q) (size q) i -> pos_inv q s ->
  exists q' s', trickle_up cmp update i q s = Ok (q', s') /\ pq_wf null cmp q' /\ elems q' ≡ₚ elems q /\ pos_inv q' s'.
Proof.
  intros H3 Hf Hi Hh [Hd Ht]. unfold array_size in *. unfold trickle_up. set (a := array q) in *. set (n := size q) in *.
  rewrite (rd_at null) by lia. cbn [mbind res_bind].
  assert (<[i := at_ null a i]> a = a) as Ea by (apply list_insert_id, lookup_at; lia).
  destruct (trickle_up_loop_spec null cmp update n (S i) i (at_ null a i) a s) as (a' & s' & E & Hhp & Hp & Hdr & Hl');
    [lia | lia | lia | by rewrite Ea |].
  rewrite E. cbn [mbind res_bind]. do 2 eexists. split; [done |]. rewrite Ea in Hp, Hl', Hdr.
  assert (tracks a' n s') as Ht'.
  { eapply (trickle_up_loop_tracks n); [| | | | exact E]; [done | lia | by rewrite Ea |]. intros j Hj _. by apply Ht. }
  split_and!; [| by apply take_perm | split; [by eapply tracks_distinct | done]].
  constructor; unfold array_size; cbn; try done; lia.
Qed.
End tracking.

(** A client whose callback records positions can rely on them: on a queue of distinct elements whose
    positions are recorded, [pqueue_enqueue] of a new element and [pqueue_dequeue] keep every recorded
    position right; and when the client raises the priority of the element at position [i] in place
    (from [cmp] to [cmp'], which differ only on that element), [trickle_up] at [i] gives a
    well-formed queue for the new priorities, with the same elements and their positions right. *)
Theorem pqueue_positions_recorded {A St} `{EqDecision A} (null : A) (cmp cmp' : A -> A -> Z)
    (update : option (A -> Z -> St -> St)) `{ORD : !CmpOrder cmp} `{ORD' : !CmpOrder cmp'} (posn : St -> A -> Z) q s :
  (forall x i s y, posn (notify update x i s) y = if decide (y = x) then Z.of_nat i else posn s y) ->
  pq_wf null cmp q -> pos_inv null posn q s ->
  (forall x, x ∉ elems q ->
     exists q' s', pqueue_enqueue null cmp update x q s = Ok (q', s') /\ pos_inv null posn q' s') /\
  (0 < size q -> exists x q' s', pqueue_dequeue cmp update q s = Ok (x, q', s') /\ pos_inv null posn q' s') /\
  (forall i, i < size q ->
     let x := at_ null (array q) i in
     (forall y z, y <> x -> z <> x -> cmp' y z = cmp y z) -> (forall y, cmp x y <= 0 -> cmp' x y <= 0)%Z ->
     exists q' s', trickle_up cmp' update i q s = Ok (q', s') /\
       pq_wf null cmp' q' /\ elems q' ≡ₚ elems q /\ pos_inv null posn q' s').
Proof.
  intros UPD WF HP. split_and!.
  - intros x Hx. destruct (enqueue_spec null cmp update x q s WF) as (q' & s' & E & _). exists q', s'.
    split; [done | by eapply enqueue_pos].
  - intros H0. destruct (dequeue_spec null cmp update q s WF H0) as (x & q' & s' & E & _). exists x, q', s'.
    split; [done | by eapply (dequeue_pos null cmp update posn UPD)].
  - intros i Hi x Hsame Hraise. destruct WF as [H3 Hf Hh]. apply trickle_up_pos; try done.
    destruct HP as [Hd _]. by apply (raised_heap_up null cmp).
Qed.

(** An example client: positions in a function, distances as elements. *)
Definition ex_update : option (Z -> Z -> (Z -> Z) -> (Z -> Z)) :=
  Some (fun x i pos y => if decide (y = x) then i else pos y).

(** Key 9 becomes the least, whatever it is compared with. *)
Definition ex_raised (a b : Z) : Z :=
  let key x := if decide (x = 9)%Z then (-1)%Z else x in (key a - key b)%Z.
Global Instance ex_raised_order : CmpOrder ex_raised.
Proof. split; unfold ex_raised; intros; lia. Qed.

(** A queue holding 3, 5, 9 with its positions. *)
Definition ex_queue : pqueue := mk_pqueue ([3; 5; 9] ++ replicate 29 0)%Z 3.
Definition ex_pos (y : Z) : Z := if decide (y = 3)%Z then 0 else if decide (y = 5)%Z then 1 else 2.

Lemma pqueue_positions_recorded_witness :
  exists q' s', trickle_up ex_raised ex_update 2 ex_queue ex_pos = Ok (q', s') /\
    elems q' = [9; 5; 3]%Z /\ (s' 9 = 0 /\ s' 5 = 1 /\ s' 3 = 2)%Z.
Proof.
  destruct (pqueue_positions_recorded 0%Z Z.sub ex_raised ex_update (fun s y => s y) ex_queue ex_pos) as (_ & _ & H).
  - reflexivity.
  - split; [cbn; lia | cbn; lia |]. intros j Hj. cbn in Hj. assert (j = 1 \/ j = 2) as [-> | ->] by lia; cbv; discriminate.
  - assert (forall j, j < 3 -> j = 0 \/ j = 1 \/ j = 2) as Hc by lia. split.
    + intros j k Hj Hk. destruct (Hc j Hj) as [-> | [-> | ->]], (Hc k Hk) as [-> | [-> | ->]]; cbv; (done || discriminate).
    + intros j Hj. destruct (Hc j Hj) as [-> | [-> | ->]]; reflexivity.
  - destruct (H 2) as (q' & s' & E & _).
    + cbn; lia.
    + intros y z Hy Hz. change (at_ 0%Z (array ex_queue) 2) with 9%Z in *. unfold ex_raised.
      by rewrite !decide_False.
    + intros y Hy. change (at_ 0%Z (array ex_queue) 2) with 9%Z in *. unfold ex_raised. repeat case_decide; lia.
    + exists q', s'. split; [exact E |]. vm_compute in E. injection E as <- <-. split_and!; reflexivity.
Defined.
