(* ===== verification/OspfLsdb.v ===== *)
(** * ospfd/ospf_lsdb.c: link state databases

    LSAs live in a heap and are shared: the area and AS databases, the three lists of every neighbour and
    other parts of ospfd hold references to them, counted in [lock].  A database has one route table per
    LSA type, indexed by link state ID and advertising router; lib/table.c is modelled and verified in the
    file Table, and here a table is the finite map it implements.  Counters of type [unsigned long] and the
    reference counts are unbounded, the sum of checksums wraps at 32 bits.  Following a pointer to a freed
    LSA, or to a table that was not created, is [Oob].  The hooks of the databases are modelled by a log
    of their calls.  The build has opaque LSAs (the default of configure.ac). *)

From S2P Require Import Prelude.
Local Open Scope Z_scope.

(** ** LSAs (ospfd/ospf_lsa.c, ospfd/ospf_lsa.h) *)

Record lsa_header := mk_header {
  ls_age : Z; ls_options : Z; ls_type : Z; ls_id : Z; ls_adv_router : Z; ls_seqnum : Z; ls_checksum : Z }.

(** [tv_recv] is in microseconds. *)
Record ospf_lsa := mk_lsa { flags : Z; data : lsa_header; tv_recv : Z; lock : Z; refresh_list : Z }.

Notation lsa_ptr := positive (only parsing).
Notation lsas := (gmap positive ospf_lsa) (only parsing).

Definition OSPF_LSA_SELF : Z := 1.
Definition OSPF_LSA_DISCARD : Z := 16.
Definition OSPF_LSA_LOCAL_XLT : Z := 32.
Definition OSPF_LSA_MAXAGE : Z := 3600.
Definition OSPF_LSA_MAXAGE_DIFF : Z := 900.
Definition OSPF_MIN_LSA : Z := 1.
Definition OSPF_MAX_LSA : Z := 12.

Definition IS_LSA_SELF (l : ospf_lsa) : bool := CHECK_FLAG (flags l) OSPF_LSA_SELF.

(** [tv_floor (tv_sub (a, b))] *)
Definition tv_floor_sub (a b : Z) : Z := (a - b) / 1000000.
Definition get_age (now : Z) (l : ospf_lsa) : Z := ls_age (data l) + tv_floor_sub now (tv_recv l).
Definition LS_AGE (now : Z) (l : ospf_lsa) : Z :=
  if OSPF_LSA_MAXAGE <? get_age now l then OSPF_LSA_MAXAGE else get_age now l.
Definition IS_LSA_MAXAGE (now : Z) (l : ospf_lsa) : bool := LS_AGE now l =? OSPF_LSA_MAXAGE.

Definition get_lsa (h : lsas) (p : lsa_ptr) : res ospf_lsa := match h !! p with Some l => Ok l | None => Oob end.
Definition set_lock (v : Z) (l : ospf_lsa) : ospf_lsa := mk_lsa (flags l) (data l) (tv_recv l) v (refresh_list l).
Definition set_lsa_flags (v : Z) (l : ospf_lsa) : ospf_lsa := mk_lsa v (data l) (tv_recv l) (lock l) (refresh_list l).

(** [ospf_lsa_new ()]; the caller fills in the data. *)
Definition ospf_lsa_new (hdr : lsa_header) (now : Z) : ospf_lsa := mk_lsa 0 hdr now 1 (-1).

Definition ospf_lsa_lock (h : lsas) (p : lsa_ptr) : res lsas :=
  l ← get_lsa h p; Ok (<[p := set_lock (lock l + 1) l]> h).

Definition ospf_lsa_free (h : lsas) (p : lsa_ptr) : res lsas :=
  l ← get_lsa h p;
  _ ← c_assert (lock l =? 0);
  _ ← c_assert (refresh_list l <? 0);
  Ok (delete p h).

(** [ospf_lsa_unlock (&lsa)]: the pointer becomes NULL when the LSA is freed. *)
Definition ospf_lsa_unlock (h : lsas) (lsa : option lsa_ptr) : res (lsas * option lsa_ptr) :=
  match lsa with
  | None => Ok (h, None)
  | Some p =>
      l ← get_lsa h p;
      let l := set_lock (lock l - 1) l in
      let h := <[p := l]> h in
      _ ← c_assert (0 <=? lock l);
      if lock l =? 0 then
        _ ← c_assert (CHECK_FLAG (flags l) OSPF_LSA_DISCARD);
        h ← ospf_lsa_free h p;
        Ok (h, None)
      else Ok (h, lsa)
  end.

Definition ospf_lsa_discard (h : lsas) (p : lsa_ptr) : res lsas :=
  l ← get_lsa h p;
  if CHECK_FLAG (flags l) OSPF_LSA_DISCARD then Ok h
  else
    '(h, _) ← ospf_lsa_unlock (<[p := set_lsa_flags (SET_FLAG (flags l) OSPF_LSA_DISCARD) l]> h) (Some p);
    Ok h.

(** [ospf_lsa_more_recent]; [now] is [recent_relative_time ()]. *)
Definition ospf_lsa_more_recent (now : Z) (l1 l2 : option ospf_lsa) : Z :=
  match l1, l2 with
  | None, None => 0
  | None, _ => -1
  | _, None => 1
  | Some l1, Some l2 =>
      let x := signed 32 (ls_seqnum (data l1)) in
      let y := signed 32 (ls_seqnum (data l2)) in
      if x >? y then 1
      else if x <? y then -1
      else
        let r := ls_checksum (data l1) - ls_checksum (data l2) in
        if negb (r =? 0) then r
        else if IS_LSA_MAXAGE now l1 && negb (IS_LSA_MAXAGE now l2) then 1
        else if negb (IS_LSA_MAXAGE now l1) && IS_LSA_MAXAGE now l2 then -1
        else if LS_AGE now l1 - LS_AGE now l2 >? OSPF_LSA_MAXAGE_DIFF then -1
        else if LS_AGE now l2 - LS_AGE now l1 >? OSPF_LSA_MAXAGE_DIFF then 1
        else 0
  end.

(** ** Databases *)

(** The key of an LSA in its table: [lsdb_prefix_set] *)
Definition lsdb_prefix_set (l : ospf_lsa) : Z * Z := (ls_id (data l), ls_adv_router (data l)).

Notation table := (gmap (Z * Z) positive) (only parsing).
Record lsdb_type := mk_type { count : Z; count_self : Z; csum : Z; db : option table }.
(** A call of [new_lsa_hook] or [del_lsa_hook]. *)
Inductive hook_call := New_lsa (p : lsa_ptr) | Del_lsa (p : lsa_ptr).
Record ospf_lsdb := mk_lsdb { types : list lsdb_type; total : Z; hooks : bool; hook_log : list hook_call }.

(** [ospf_lsdb_init] on zeroed memory: no table for type 0. *)
Definition ospf_lsdb_init (hk : bool) : ospf_lsdb :=
  mk_lsdb (mk_type 0 0 0 None :: replicate (Z.to_nat (OSPF_MAX_LSA - OSPF_MIN_LSA)) (mk_type 0 0 0 (Some ∅))) 0 hk [].

(** [lsdb->type[i]] and its table. *)
Definition get_type (d : ospf_lsdb) (i : Z) : res lsdb_type :=
  if i <? 0 then Oob else match types d !! Z.to_nat i with Some t => Ok t | None => Oob end.
Definition get_table (d : ospf_lsdb) (i : Z) : res table :=
  t ← get_type d i; match db t with Some m => Ok m | None => Oob end.
Definition set_type (d : ospf_lsdb) (i : Z) (t : lsdb_type) (tot : Z) : ospf_lsdb :=
  mk_lsdb (<[Z.to_nat i := t]> (types d)) tot (hooks d) (hook_log d).
Definition call_hook (c : hook_call) (d : ospf_lsdb) : ospf_lsdb :=
  mk_lsdb (types d) (total d) (hooks d) (if hooks d then hook_log d ++ [c] else hook_log d).

Definition self_count (l : ospf_lsa) : Z := if IS_LSA_SELF l then 1 else 0.

(** [ospf_lsdb_delete_entry (lsdb, rn)], [rn] being the node of key [k] in the table of type [i]. *)
Definition ospf_lsdb_delete_entry (h : lsas) (d : ospf_lsdb) (i : Z) (k : Z * Z) : res (lsas * ospf_lsdb) :=
  m ← get_table d i;
  match m !! k with
  | None => Ok (h, d)
  | Some p =>
      l ← get_lsa h p;
      let ty := ls_type (data l) in
      _ ← c_assert (i =? ty);
      t ← get_type d ty;
      let t := mk_type (count t - 1) (count_self t - self_count l) (u32 (csum t - ls_checksum (data l))) (Some (delete k m)) in
      let d := call_hook (Del_lsa p) (set_type d ty t (total d - 1)) in
      '(h, _) ← ospf_lsa_unlock h (Some p);
      Ok (h, d)
  end.

(** The second half of [ospf_lsdb_add]: the node of the LSA is empty. *)
Definition lsdb_enter (h : lsas) (d : ospf_lsdb) (p : lsa_ptr) : res (lsas * ospf_lsdb) :=
  l ← get_lsa h p;
  let ty := ls_type (data l) in
  t ← get_type d ty;
  m ← get_table d ty;
  let t := mk_type (count t + 1) (count_self t + self_count l) (u32 (csum t + ls_checksum (data l)))
             (Some (<[lsdb_prefix_set l := p]> m)) in
  let d := call_hook (New_lsa p) (set_type d ty t (total d + 1)) in
  h ← ospf_lsa_lock h p;
  Ok (h, d).

Definition ospf_lsdb_add (h : lsas) (d : ospf_lsdb) (p : lsa_ptr) : res (lsas * ospf_lsdb) :=
  l ← get_lsa h p;
  m ← get_table d (ls_type (data l));
  match m !! lsdb_prefix_set l with
  | Some q =>
      if decide (q = p) then Ok (h, d)
      else
        '(h, d) ← ospf_lsdb_delete_entry h d (ls_type (data l)) (lsdb_prefix_set l);
        lsdb_enter h d p
  | None => lsdb_enter h d p
  end.

Definition ospf_lsdb_delete (h : lsas) (d : ospf_lsdb) (lsa : option lsa_ptr) : res (lsas * ospf_lsdb) :=
  match lsa with
  | None => Ok (h, d)
  | Some p =>
      l ← get_lsa h p;
      _ ← c_assert (ls_type (data l) <? OSPF_MAX_LSA);
      m ← get_table d (ls_type (data l));
      match m !! lsdb_prefix_set l with
      | Some q => if decide (q = p) then ospf_lsdb_delete_entry h d (ls_type (data l)) (lsdb_prefix_set l) else Ok (h, d)
      | None => Ok (h, d)
      end
  end.

(** The walk over the nodes [ks] of the table of type [i] in [ospf_lsdb_delete_all]. *)
Fixpoint delete_entries (h : lsas) (d : ospf_lsdb) (i : Z) (ks : list (Z * Z)) : res (lsas * ospf_lsdb) :=
  match ks with
  | [] => Ok (h, d)
  | k :: ks => '(h, d) ← ospf_lsdb_delete_entry h d i k; delete_entries h d i ks
  end.

Fixpoint delete_types (h : lsas) (d : ospf_lsdb) (is_ : list Z) : res (lsas * ospf_lsdb) :=
  match is_ with
  | [] => Ok (h, d)
  | i :: r =>
      m ← get_table d i;
      '(h, d) ← delete_entries h d i (map_to_list m).*1;
      delete_types h d r
  end.

(** [for (i = OSPF_MIN_LSA; i < OSPF_MAX_LSA; i++)] *)
Definition lsa_types : list Z := seqZ OSPF_MIN_LSA (OSPF_MAX_LSA - OSPF_MIN_LSA).
Definition ospf_lsdb_delete_all (h : lsas) (d : ospf_lsdb) : res (lsas * ospf_lsdb) := delete_types h d lsa_types.

Definition ospf_lsdb_lookup (h : lsas) (d : ospf_lsdb) (p : lsa_ptr) : res (option lsa_ptr) :=
  l ← get_lsa h p; m ← get_table d (ls_type (data l)); Ok (m !! lsdb_prefix_set l).

Definition ospf_lsdb_lookup_by_id (d : ospf_lsdb) (ty id adv : Z) : res (option lsa_ptr) :=
  m ← get_table d ty; Ok (m !! (id, adv)).

Definition ospf_lsdb_count_all (d : ospf_lsdb) : Z := total d.
Definition ospf_lsdb_count (d : ospf_lsdb) (ty : Z) : res Z := t ← get_type d ty; Ok (count t).
Definition ospf_lsdb_count_self (d : ospf_lsdb) (ty : Z) : res Z := t ← get_type d ty; Ok (count_self t).
Definition ospf_lsdb_checksum (d : ospf_lsdb) (ty : Z) : res Z := t ← get_type d ty; Ok (csum t).
Definition ospf_lsdb_isempty (d : ospf_lsdb) : bool := total d =? 0.

(** [ospf_lsdb_cleanup] finishes the tables. *)
Definition ospf_lsdb_cleanup (h : lsas) (d : ospf_lsdb) : res (lsas * ospf_lsdb) :=
  _ ← c_assert (total d =? 0);
  '(h, d) ← ospf_lsdb_delete_all h d;
  Ok (h, mk_lsdb ((fun t => mk_type (count t) (count_self t) (csum t) None) <$> types d) (total d) (hooks d) (hook_log d)).
