(* ===== verification/OspfLsdbProofs.v ===== *)
(** * Link state databases: theorems

    Whatever its clients do, a database is the finite map its tables hold: the counters and the
    checksum describe exactly the stored LSAs, the references are counted right, so that no LSA is freed
    while the database or a client refers to it, and the hooks report every change. *)

From S2P Require Import Prelude OspfLsdb.
Local Open Scope Z_scope.

(** ** Sums over tables and arrays *)

Notation lsa_ptr := positive (only parsing).
Notation lsas := (gmap positive ospf_lsa) (only parsing).
Notation table := (gmap (Z * Z) positive) (only parsing).

(** The sum of [f] over the LSAs of a table. *)
Definition tsum (f : lsa_ptr -> Z) (m : table) : Z := map_fold (fun _ p a => f p + a) 0 m.

Lemma tsum_insert (f : positive -> Z) (m : table) k p : m !! k = None -> tsum f (<[k := p]> m) = f p + tsum f m.
Proof. intros H. unfold tsum. rewrite map_fold_insert_L; [done | intros; lia | done]. Qed.

Lemma tsum_delete (f : positive -> Z) (m : table) k p : m !! k = Some p -> tsum f (delete k m) = tsum f m - f p.
Proof. intros H. rewrite <- (insert_delete_id m k p H) at 2. rewrite tsum_insert by apply lookup_delete_eq. lia. Qed.

Lemma tsum_ext (f g : positive -> Z) (m : table) : (forall k p, m !! k = Some p -> f p = g p) -> tsum f m = tsum g m.
Proof.
  induction m as [|k p m Hk IH] using map_ind; intros H; [done |]. rewrite !tsum_insert by done.
  rewrite (H k p) by apply lookup_insert_eq. rewrite IH; [done |]. intros k' p' Hk'. apply (H k').
  rewrite lookup_insert_ne; [done |]. intros <-. congruence.
Qed.

Lemma tsum_size (m : table) : tsum (fun _ => 1) m = Z.of_nat (size m).
Proof.
  induction m as [|k p m Hk IH] using map_ind; [done |]. rewrite tsum_insert, map_size_insert_None, IH by done. lia.
Qed.

Definition fsum (ts : list lsdb_type) : Z := foldr (fun t a => count t + a) 0 ts.

Lemma fsum_insert ts i t t' : ts !! i = Some t -> fsum (<[i := t']> ts) = fsum ts - count t + count t'.
Proof.
  revert i. induction ts as [|x ts IH]; intros [|i] H; try done.
  - injection H as ->. cbn. lia.
  - change (count x + fsum (<[i := t']> ts) = count x + fsum ts - count t + count t'). rewrite (IH i H). lia.
Qed.

(** ** The invariant *)

Definition self_of (h : lsas) (p : lsa_ptr) : Z := match h !! p with Some l => self_count l | None => 0 end.
Definition cksum_of (h : lsas) (p : lsa_ptr) : Z := match h !! p with Some l => ls_checksum (data l) | None => 0 end.

(** The table of type [i] holds live LSAs under their keys and the counters describe it. *)
Record type_ok (h : lsas) (i : Z) (t : lsdb_type) (m : table) : Prop := {
  to_db : db t = Some m;
  to_count : count t = tsum (fun _ => 1) m;
  to_self : count_self t = tsum (self_of h) m;
  to_sum : csum t = u32 (tsum (cksum_of h) m);
  to_keys k p : m !! k = Some p -> exists l, h !! p = Some l /\ ls_type (data l) = i /\ lsdb_prefix_set l = k }.

Definition valid_type (i : Z) : Prop := OSPF_MIN_LSA <= i < OSPF_MAX_LSA.

(** The entry under a type and a key. *)
Definition view (d : ospf_lsdb) (i : Z) (k : Z * Z) : option lsa_ptr :=
  match get_table d i with Ok m => m !! k | _ => None end.

(** What a monitor that follows the hooks takes the database to hold. *)
Definition replay (log : list hook_call) : gset lsa_ptr :=
  fold_left (fun s c => match c with New_lsa p => {[p]} ∪ s | Del_lsa p => s ∖ {[p]} end) log ∅.

Record lsdb_ok (h : lsas) (d : ospf_lsdb) : Prop := {
  lo_len : length (types d) = Z.to_nat OSPF_MAX_LSA;
  lo_zero : exists t, types d !! 0%nat = Some t /\ count t = 0;
  lo_type i : valid_type i -> exists t m, types d !! Z.to_nat i = Some t /\ type_ok h i t m;
  lo_total : total d = fsum (types d);
  lo_hooks p : hooks d = true -> (p ∈ replay (hook_log d) <-> exists i k, valid_type i /\ view d i k = Some p) }.

Definition in_db (h : lsas) (d : ospf_lsdb) (p : lsa_ptr) : bool :=
  match h !! p with
  | Some l => bool_decide (view d (ls_type (data l)) (lsdb_prefix_set l) = Some p)
  | None => false
  end.

(** [ext p] references to [p] are held outside the database; the reference that an LSA is created with is
    one of them until [ospf_lsa_discard] gives it back. *)
Definition lsa_ok (h : lsas) (d : ospf_lsdb) (ext : lsa_ptr -> Z) (p : lsa_ptr) (l : ospf_lsa) : Prop :=
  lock l = ext p + (if in_db h d p then 1 else 0) /\ 0 <= ext p /\ 0 < lock l /\
  (CHECK_FLAG (flags l) OSPF_LSA_DISCARD = false -> 1 <= ext p) /\ refresh_list l < 0 /\ valid_type (ls_type (data l)).

Definition heap_ok (h : lsas) (d : ospf_lsdb) (ext : lsa_ptr -> Z) : Prop :=
  forall p l, h !! p = Some l -> lsa_ok h d ext p l.

Record inv (h : lsas) (d : ospf_lsdb) (ext : lsa_ptr -> Z) : Prop := { inv_db : lsdb_ok h d; inv_heap : heap_ok h d ext }.

(** ** Access *)

Lemma get_table_ok h d i :
  lsdb_ok h d -> valid_type i -> exists t m, get_type d i = Ok t /\ get_table d i = Ok m /\
    types d !! Z.to_nat i = Some t /\ type_ok h i t m.
Proof.
  intros O Hi. destruct (lo_type _ _ O i Hi) as (t & m & Ht & Hok). exists t, m.
  assert (get_type d i = Ok t) as E.
  { unfold get_type. destruct (Z.ltb_spec i 0) as [H | H]; [unfold valid_type, OSPF_MIN_LSA in Hi; lia | by rewrite Ht]. }
  unfold get_table. rewrite E. cbn. by rewrite (to_db _ _ _ _ Hok).
Qed.

Lemma view_table d i m k : get_table d i = Ok m -> view d i k = m !! k.
Proof. intros H. unfold view. by rewrite H. Qed.

Lemma get_table_update d i t c tot j m :
  (Z.to_nat i < length (types d))%nat -> 0 <= i -> db t = Some m ->
  get_table (call_hook c (set_type d i t tot)) j = if decide (j = i) then Ok m else get_table d j.
Proof.
  intros Hl Hi Hm. unfold get_table, get_type, call_hook, set_type. cbn.
  destruct (Z.ltb_spec j 0) as [Hj | Hj]; [by rewrite decide_False by lia |].
  destruct (decide (j = i)) as [-> | Hne].
  - rewrite list_lookup_insert_eq by done. cbn. by rewrite Hm.
  - by rewrite list_lookup_insert_ne by lia.
Qed.

Lemma view_update d i t c tot j k m :
  (Z.to_nat i < length (types d))%nat -> 0 <= i -> db t = Some m ->
  view (call_hook c (set_type d i t tot)) j k = if decide (j = i) then m !! k else view d j k.
Proof. intros Hl Hi Hm. unfold view. rewrite (get_table_update _ _ _ _ _ _ m) by done. by destruct (decide (j = i)). Qed.

Lemma valid_index h d i : lsdb_ok h d -> valid_type i -> (Z.to_nat i < length (types d))%nat /\ 0 <= i.
Proof. intros O Hi. rewrite (lo_len _ _ O). unfold valid_type, OSPF_MIN_LSA, OSPF_MAX_LSA in *. lia. Qed.

(** An LSA whose key and self flag did not change. *)
Definition same_lsa (l l' : ospf_lsa) : Prop := data l' = data l /\ self_count l' = self_count l.

Lemma type_ok_heap h h' i t m :
  type_ok h i t m ->
  (forall k p l, m !! k = Some p -> h !! p = Some l -> exists l', h' !! p = Some l' /\ same_lsa l l') ->
  type_ok h' i t m.
Proof.
  intros [D C S K Hk] Hh. split; [done | done | | |].
  - rewrite S. apply tsum_ext. intros k p E. destruct (Hk k p E) as (l & Hl & _).
    destruct (Hh k p l E Hl) as (l' & Hl' & _ & Hs). unfold self_of. by rewrite Hl, Hl'.
  - rewrite K. f_equal. apply tsum_ext. intros k p E. destruct (Hk k p E) as (l & Hl & _).
    destruct (Hh k p l E Hl) as (l' & Hl' & Hd & _). unfold cksum_of. by rewrite Hl, Hl', Hd.
  - intros k p E. destruct (Hk k p E) as (l & Hl & Ht & Hp). destruct (Hh k p l E Hl) as (l' & Hl' & Hd & _).
    exists l'. unfold lsdb_prefix_set in *. by rewrite Hd.
Qed.

Lemma wrap_add_l w a b : 0 <= w -> wrap w (wrap w a + b) = wrap w (a + b).
Proof. intros. unfold wrap. by rewrite Zplus_mod_idemp_l. Qed.

Lemma type_ok_enter h i t m p l :
  type_ok h i t m -> h !! p = Some l -> ls_type (data l) = i -> m !! lsdb_prefix_set l = None ->
  type_ok h i (mk_type (count t + 1) (count_self t + self_count l) (u32 (csum t + ls_checksum (data l)))
                 (Some (<[lsdb_prefix_set l := p]> m))) (<[lsdb_prefix_set l := p]> m).
Proof.
  intros [D C S K Hk] Hl Hi Hn. split; cbn.
  - done.
  - rewrite tsum_insert, C by done. lia.
  - rewrite tsum_insert, S by done. unfold self_of at 2. rewrite Hl. lia.
  - rewrite tsum_insert, K by done. rewrite wrap_add_l by lia. unfold cksum_of at 2. rewrite Hl. f_equal. lia.
  - intros k q. rewrite lookup_insert_Some. intros [[<- <-] | [_ H]]; eauto.
Qed.

Lemma type_ok_remove h i t m k p l :
  type_ok h i t m -> m !! k = Some p -> h !! p = Some l ->
  type_ok h i (mk_type (count t - 1) (count_self t - self_count l) (u32 (csum t - ls_checksum (data l)))
                 (Some (delete k m))) (delete k m).
Proof.
  intros [D C S K Hk] Hm Hl. split; cbn.
  - done.
  - rewrite (tsum_delete _ _ _ p), C by done. lia.
  - rewrite (tsum_delete _ _ _ p), S by done. unfold self_of at 3. by rewrite Hl.
  - rewrite (tsum_delete _ _ _ p), K by done. unfold Z.sub. rewrite wrap_add_l by lia.
    unfold cksum_of at 3. by rewrite Hl.
  - intros k' q. rewrite lookup_delete_Some. intros [_ H]. eauto.
Qed.

(** An LSA is stored at most once. *)
Lemma view_key h d i k p :
  lsdb_ok h d -> valid_type i -> view d i k = Some p ->
  exists l, h !! p = Some l /\ ls_type (data l) = i /\ lsdb_prefix_set l = k.
Proof.
  intros O Hi Hv. destruct (get_table_ok h d i O Hi) as (t & m & _ & Hm & _ & Hok).
  rewrite (view_table _ _ _ _ Hm) in Hv. by apply (to_keys _ _ _ _ Hok).
Qed.

(** ** Reference counts *)

Lemma unlock_ok h p l :
  h !! p = Some l -> 0 < lock l ->
  (lock l = 1 -> CHECK_FLAG (flags l) OSPF_LSA_DISCARD = true /\ refresh_list l < 0) ->
  exists r, ospf_lsa_unlock h (Some p) = Ok (if lock l =? 1 then delete p h else <[p := set_lock (lock l - 1) l]> h, r).
Proof.
  intros Hl H0 H1. unfold ospf_lsa_unlock, get_lsa. rewrite Hl. cbn.
  rewrite (proj2 (Z.leb_le _ _)) by lia. cbn. destruct (Z.eqb_spec (lock l) 1) as [E | E].
  - rewrite E. cbn. destruct (H1 E) as [-> Hr]. cbn. unfold ospf_lsa_free, get_lsa. rewrite lookup_insert_eq. cbn.
    rewrite (proj2 (Z.ltb_lt _ _)) by done. cbn. rewrite delete_insert_eq. by eexists.
  - rewrite (proj2 (Z.eqb_neq _ _)) by lia. by eexists.
Qed.

(** The heap after a reference to [p] was dropped. *)
Definition dropped (h h' : lsas) (p : lsa_ptr) (l : ospf_lsa) : Prop :=
  (forall q, q <> p -> h' !! q = h !! q) /\
  h' !! p = if lock l =? 1 then None else Some (set_lock (lock l - 1) l).

Lemma dropped_if h p l : dropped h (if lock l =? 1 then delete p h else <[p := set_lock (lock l - 1) l]> h) p l.
Proof.
  split.
  - intros q Hq. destruct (lock l =? 1); [by rewrite lookup_delete_ne | by rewrite lookup_insert_ne].
  - destruct (lock l =? 1); [by rewrite lookup_delete_eq | by rewrite lookup_insert_eq].
Qed.

Lemma replay_snoc log c :
  replay (log ++ [c]) = match c with New_lsa p => {[p]} ∪ replay log | Del_lsa p => replay log ∖ {[p]} end.
Proof. unfold replay. by rewrite fold_left_app. Qed.

Lemma in_db_iff h d p l :
  h !! p = Some l -> in_db h d p = bool_decide (view d (ls_type (data l)) (lsdb_prefix_set l) = Some p).
Proof. intros H. unfold in_db. by rewrite H. Qed.

Lemma in_db_data h h' d d' q l l' :
  h !! q = Some l -> h' !! q = Some l' -> data l' = data l ->
  view d' (ls_type (data l)) (lsdb_prefix_set l) = view d (ls_type (data l)) (lsdb_prefix_set l) ->
  in_db h' d' q = in_db h d q.
Proof. intros H H' Hd Hv. rewrite (in_db_iff _ _ _ _ H), (in_db_iff _ _ _ _ H'). unfold lsdb_prefix_set in *. by rewrite Hd, Hv. Qed.

(** The database after one table was replaced. *)
Lemma lsdb_ok_update h h' d i t t' m m' c :
  lsdb_ok h d -> valid_type i -> types d !! Z.to_nat i = Some t -> get_table d i = Ok m -> type_ok h' i t' m' ->
  (forall j k q l, valid_type j -> j <> i -> view d j k = Some q -> h !! q = Some l -> exists l', h' !! q = Some l' /\ same_lsa l l') ->
  (forall p, hooks d = true ->
     (p ∈ replay (hook_log d ++ [c]) <-> exists j k, valid_type j /\ (if decide (j = i) then m' !! k else view d j k) = Some p)) ->
  lsdb_ok h' (call_hook c (set_type d i t' (total d - count t + count t'))).
Proof.
  intros O Hi Ht Hm Hok' Hh Hlog. destruct (valid_index h d i O Hi) as [Hl H0]. split.
  - cbn. rewrite length_insert. apply (lo_len _ _ O).
  - cbn. rewrite list_lookup_insert_ne by (unfold valid_type, OSPF_MIN_LSA in Hi; lia). apply (lo_zero _ _ O).
  - intros j Hj. destruct (get_table_ok h d j O Hj) as (tj & mj & _ & Hmj & Htj & Hokj). cbn.
    destruct (decide (j = i)) as [-> | Hne].
    + exists t', m'. by rewrite list_lookup_insert_eq.
    + exists tj, mj. assert (0 <= j) by (destruct (valid_index h d j O Hj); done).
      rewrite list_lookup_insert_ne by lia. split; [done |]. eapply type_ok_heap; [done |].
      intros k q l Hk Hq. eapply Hh; [done | done | | done]. by rewrite (view_table _ _ _ _ Hmj).
  - cbn. rewrite (fsum_insert _ _ t), (lo_total _ _ O) by done. done.
  - intros p Hk. cbn [hooks hook_log call_hook set_type] in *. rewrite Hk. rewrite Hlog by done.
    split; intros (j & k & Hj & Hv); exists j, k; (split; [done |]);
      rewrite (view_update _ _ _ _ _ _ _ m') in *; (done || apply Hok').
Qed.

(** Taking the entry of [p] out and dropping its reference keeps the counts right. *)
Lemma heap_ok_drop h h' d d' ext i k p l :
  heap_ok h d ext -> view d i k = Some p -> h !! p = Some l -> ls_type (data l) = i -> lsdb_prefix_set l = k ->
  dropped h h' p l -> (forall j k', view d' j k' = if decide (j = i /\ k' = k) then None else view d j k') ->
  heap_ok h' d' ext.
Proof.
  intros H Hv Hl Hty Hkey [Hoth Hp] Hview q lq Hq. destruct (H p l Hl) as (Hlk & Hext & Hpos & Hdis & Href & Hvt).
  rewrite (in_db_iff _ _ _ _ Hl), Hty, Hkey, (bool_decide_eq_true_2 _ Hv) in Hlk.
  destruct (decide (q = p)) as [-> | Hne].
  - rewrite Hp in Hq. destruct (Z.eqb_spec (lock l) 1) as [| E1]; [done |]. injection Hq as <-.
    unfold lsa_ok. rewrite (in_db_iff _ _ _ _ Hp), Hview. cbn. unfold lsdb_prefix_set in *. cbn.
    rewrite Hty, Hkey, decide_True by done. rewrite bool_decide_eq_false_2 by done.
    rewrite Hty in Hvt. split_and!; (done || lia || auto).
  - pose proof Hq as Hq'. rewrite Hoth in Hq' by done. destruct (H q lq Hq') as (E & R). split; [| done].
    rewrite E. f_equal. rewrite (in_db_iff _ _ _ _ Hq), (in_db_iff _ _ _ _ Hq'), Hview.
    destruct (decide _) as [[E1 E2] |]; [| done]. rewrite E1, E2, Hv.
    by rewrite !bool_decide_eq_false_2 by congruence.
Qed.

Lemma delete_entry_ok h d ext i k p :
  inv h d ext -> valid_type i -> view d i k = Some p ->
  exists h' d' l, h !! p = Some l /\ ospf_lsdb_delete_entry h d i k = Ok (h', d') /\ inv h' d' ext /\ dropped h h' p l /\
    (forall j k', view d' j k' = if decide (j = i /\ k' = k) then None else view d j k').
Proof.
  intros [O H] Hi Hv. destruct (view_key _ _ _ _ _ O Hi Hv) as (l & Hl & Hty & Hkey).
  destruct (get_table_ok h d i O Hi) as (t & m & Hgt & Hm & Ht & Hok). destruct (valid_index h d i O Hi) as [Hlen H0].
  pose proof Hv as Hmk. rewrite (view_table _ _ _ _ Hm) in Hmk.
  destruct (H p l Hl) as (Hlk & Hext & Hpos & Hdis & Href & Hvt).
  rewrite (in_db_iff _ _ _ _ Hl), Hty, Hkey, (bool_decide_eq_true_2 _ Hv) in Hlk.
  destruct (unlock_ok h p l Hl Hpos) as (r & Er).
  { intros E. split; [| done]. destruct (CHECK_FLAG _ _); [done | lia]. }
  unfold ospf_lsdb_delete_entry. rewrite Hm. cbn [mbind res_bind]. rewrite Hmk. unfold get_lsa at 1. rewrite Hl. cbn [mbind res_bind].
  rewrite Hty, Z.eqb_refl. cbn [c_assert mbind res_bind]. rewrite Hgt. cbn [mbind res_bind]. rewrite Er. cbn [mbind res_bind].
  do 2 eexists. exists l. split; [done |]. split; [done |].
  pose proof (dropped_if h p l) as Hdr. set (h' := if lock l =? 1 then _ else _) in *. destruct Hdr as [Hoth Hp].
  set (t' := mk_type _ _ _ _). pose proof (type_ok_remove h i t m k p l Hok Hmk Hl) as Hrem. fold t' in Hrem.
  assert (forall j k', view (call_hook (Del_lsa p) (set_type d i t' (total d - 1))) j k' = if decide (j = i /\ k' = k) then None else view d j k') as Hview.
  { intros j k'. rewrite (view_update _ _ _ _ _ _ _ (delete k m)) by done. destruct (decide (j = i)) as [-> | Hj].
    - destruct (decide (k' = k)) as [-> | Hk']; [rewrite decide_True by done; apply lookup_delete_eq |].
      rewrite decide_False by naive_solver. by rewrite (view_table _ _ _ _ Hm), lookup_delete_ne.
    - by rewrite decide_False by naive_solver. }
  assert (forall j k' q, valid_type j -> (j <> i \/ k' <> k) -> view d j k' = Some q -> q <> p) as Hqp.
  { intros j k' q Hj Hne Hq ->. destruct (view_key _ _ _ _ _ O Hj Hq) as (l' & Hl' & Hty' & Hk'). naive_solver. }
  split; [split |].
  - replace (total d - 1) with (total d - count t + count t') by (cbn; lia).
    eapply (lsdb_ok_update h); try done.
    + eapply type_ok_heap; [exact Hrem |]. intros k' q l' Hk' Hq. apply lookup_delete_Some in Hk' as [Hne Hk'].
      exists l'. rewrite Hoth; [done |]. eapply (Hqp i k'); [done | by right | by rewrite (view_table _ _ _ _ Hm)].
    + intros j k' q l' Hj Hne Hq Hq'. exists l'. rewrite Hoth; [done |]. eapply (Hqp j k'); [done | by left | done].
    + intros q Hk. rewrite replay_snoc, elem_of_difference, (lo_hooks _ _ O) by done. rewrite not_elem_of_singleton. split.
      * intros [(j & k' & Hj & Hq) Hne]. exists j, k'. split; [done |]. destruct (decide (j = i)) as [-> |]; [| done].
        rewrite (view_table _ _ _ _ Hm) in Hq. rewrite lookup_delete_ne; [done |]. intros ->. congruence.
      * intros (j & k' & Hj & Hq). destruct (decide (j = i)) as [-> | Hji].
        -- apply lookup_delete_Some in Hq as [Hne Hq]. rewrite <- (view_table _ _ _ _ Hm) in Hq.
           split; [eauto | eapply (Hqp i k'); eauto].
        -- split; [eauto | eapply (Hqp j k'); eauto].
  - by eapply heap_ok_drop.
  - done.
Qed.

Lemma lock_same l v : same_lsa l (set_lock v l).
Proof. done. Qed.

(** Entering [p] and taking a reference keeps the counts right. *)
Lemma heap_ok_enter h d d' ext p l :
  heap_ok h d ext -> h !! p = Some l -> view d (ls_type (data l)) (lsdb_prefix_set l) = None ->
  (forall j k, view d' j k = if decide (j = ls_type (data l) /\ k = lsdb_prefix_set l) then Some p else view d j k) ->
  heap_ok (<[p := set_lock (lock l + 1) l]> h) d' ext.
Proof.
  intros H Hl Hv Hview q lq Hq. destruct (H p l Hl) as (Hlk & Hext & Hpos & Hdis & Href & Hi).
  replace (in_db h d p) with false in Hlk by (by rewrite (in_db_iff _ _ _ _ Hl), bool_decide_eq_false_2 by congruence).
  pose proof Hq as Hq'. destruct (decide (q = p)) as [-> | Hne].
  - rewrite lookup_insert_eq in Hq. injection Hq as <-. unfold lsa_ok.
    rewrite (in_db_iff _ _ _ _ Hq'), Hview. unfold lsdb_prefix_set. cbn.
    rewrite decide_True, bool_decide_eq_true_2 by done. split_and!; (done || lia || auto).
  - rewrite lookup_insert_ne in Hq' by done. destruct (H q lq Hq') as (E & R). split; [| done].
    rewrite E. f_equal. rewrite (in_db_iff _ _ _ _ Hq), (in_db_iff _ _ _ _ Hq'), Hview.
    destruct (decide _) as [[E1 E2] |]; [| done]. rewrite E1, E2, Hv. by rewrite !bool_decide_eq_false_2 by congruence.
Qed.

Lemma enter_ok h d ext p l :
  inv h d ext -> h !! p = Some l -> view d (ls_type (data l)) (lsdb_prefix_set l) = None ->
  exists d', lsdb_enter h d p = Ok (<[p := set_lock (lock l + 1) l]> h, d') /\ inv (<[p := set_lock (lock l + 1) l]> h) d' ext /\
    (forall j k, view d' j k = if decide (j = ls_type (data l) /\ k = lsdb_prefix_set l) then Some p else view d j k).
Proof.
  intros [O H] Hl Hv. destruct (H p l Hl) as (Hlk & Hext & Hpos & Hdis & Href & Hi). set (i := ls_type (data l)) in *.
  destruct (get_table_ok h d i O Hi) as (t & m & Hgt & Hm & Ht & Hok). destruct (valid_index h d i O Hi) as [Hlen H0].
  pose proof Hv as Hmk. rewrite (view_table _ _ _ _ Hm) in Hmk. set (k := lsdb_prefix_set l) in *.
  replace (in_db h d p) with false in Hlk by (rewrite (in_db_iff _ _ _ _ Hl), bool_decide_eq_false_2; [done |]; fold i k; by rewrite Hv).
  unfold lsdb_enter, ospf_lsa_lock, get_lsa. rewrite Hl. cbn [mbind res_bind]. fold i. rewrite Hgt. cbn [mbind res_bind].
  rewrite Hm. cbn [mbind res_bind]. fold k. eexists. split; [done |]. set (h' := <[p := _]> h). set (t' := mk_type _ _ _ _).
  assert (forall q lq, h !! q = Some lq -> exists l', h' !! q = Some l' /\ same_lsa lq l') as Hsame.
  { intros q lq Hq. unfold h'. destruct (decide (q = p)) as [-> | Hne]; [| rewrite lookup_insert_ne by done; by exists lq].
    rewrite lookup_insert_eq. eexists. split; [done |]. replace lq with l by congruence. apply lock_same. }
  assert (forall j k', view (call_hook (New_lsa p) (set_type d i t' (total d + 1))) j k' = if decide (j = i /\ k' = k) then Some p else view d j k') as Hview.
  { intros j k'. rewrite (view_update _ _ _ _ _ _ _ (<[k := p]> m)) by done. destruct (decide (j = i)) as [-> | Hj].
    - destruct (decide (k' = k)) as [-> | Hk']; [rewrite decide_True by done; apply lookup_insert_eq |].
      rewrite decide_False by naive_solver. by rewrite (view_table _ _ _ _ Hm), lookup_insert_ne.
    - by rewrite decide_False by naive_solver. }
  split; [split |]; [| | exact Hview].
  - replace (total d + 1) with (total d - count t + count t') by (cbn; lia).
    eapply (lsdb_ok_update h); try done.
    + eapply type_ok_heap; [by apply type_ok_enter |]. intros; by apply Hsame.
    + intros; by apply Hsame.
    + intros q Hk. rewrite replay_snoc, elem_of_union, (lo_hooks _ _ O), elem_of_singleton by done. split.
      * intros [-> | (j & k' & Hj & Hq)].
        -- exists i, k. rewrite decide_True by done. by rewrite lookup_insert_eq.
        -- exists j, k'. split; [done |]. destruct (decide (j = i)) as [-> |]; [| done].
           rewrite (view_table _ _ _ _ Hm) in Hq. rewrite lookup_insert_ne; [done |]. intros E. rewrite <- E in Hq. unfold k in Hmk. by rewrite Hmk in Hq.
      * intros (j & k' & Hj & Hq). destruct (decide (j = i)) as [-> | Hji]; [| by eauto].
        apply lookup_insert_Some in Hq as [[_ <-] | [_ Hq]]; [by left | right]. exists i, k'. by rewrite (view_table _ _ _ _ Hm).
  - by eapply heap_ok_enter.
Qed.

(** ** The operations *)

Lemma add_ok h d ext p l :
  inv h d ext -> h !! p = Some l ->
  exists h' d', ospf_lsdb_add h d p = Ok (h', d') /\ inv h' d' ext /\
    (forall j k, view d' j k = if decide (j = ls_type (data l) /\ k = lsdb_prefix_set l) then Some p else view d j k).
Proof.
  intros I Hl. pose proof I as [O H]. destruct (H p l Hl) as (_ & _ & _ & _ & _ & Hi).
  destruct (get_table_ok h d _ O Hi) as (t & m & _ & Hm & _ & _). unfold ospf_lsdb_add, get_lsa. rewrite Hl. cbn [mbind res_bind].
  rewrite Hm. cbn [mbind res_bind]. rewrite <- (view_table _ _ _ _ Hm). destruct (view d _ _) as [q |] eqn:Hv.
  - destruct (decide (q = p)) as [-> | Hne].
    { do 2 eexists. split; [done |]. split; [done |]. intros j k. destruct (decide _) as [[-> ->] |]; done. }
    destruct (delete_entry_ok h d ext _ _ q I Hi Hv) as (h1 & d1 & lq & Hq & E & I1 & [Hoth _] & Hview). rewrite E. cbn [mbind res_bind].
    destruct (enter_ok h1 d1 ext p l I1) as (d2 & E2 & I2 & Hview2).
    + by rewrite Hoth by done.
    + rewrite Hview. by rewrite decide_True.
    + do 2 eexists. split; [done |]. split; [done |]. intros j k. rewrite Hview2, Hview. by destruct (decide _).
  - destruct (enter_ok h d ext p l I Hl Hv) as (d2 & E2 & I2 & Hview2). eauto.
Qed.

Lemma delete_ok h d ext p l :
  inv h d ext -> h !! p = Some l ->
  exists h' d', ospf_lsdb_delete h d (Some p) = Ok (h', d') /\ inv h' d' ext /\
    (forall j k, valid_type j -> view d' j k = if decide (view d j k = Some p) then None else view d j k).
Proof.
  intros I Hl. pose proof I as [O H]. destruct (H p l Hl) as (_ & _ & _ & _ & _ & Hi).
  destruct (get_table_ok h d _ O Hi) as (t & m & _ & Hm & _ & _). unfold ospf_lsdb_delete, get_lsa. rewrite Hl. cbn [mbind res_bind].
  rewrite (proj2 (Z.ltb_lt _ _)) by apply Hi. cbn [c_assert mbind res_bind].
  rewrite Hm. cbn [mbind res_bind]. rewrite <- (view_table _ _ _ _ Hm).
  assert (forall j k, valid_type j -> view d j k = Some p -> j = ls_type (data l) /\ k = lsdb_prefix_set l) as Hkey.
  { intros j k Hj Hv. destruct (view_key _ _ _ _ _ O Hj Hv) as (l' & Hl' & <- & <-). by replace l' with l by congruence. }
  assert (view d (ls_type (data l)) (lsdb_prefix_set l) <> Some p ->
          forall j k, valid_type j -> view d j k = if decide (view d j k = Some p) then None else view d j k) as Hnot.
  { intros Hn j k Hj. destruct (decide _) as [E |]; [| done]. destruct (Hkey j k Hj E) as [-> ->]. done. }
  destruct (view d _ _) as [q |] eqn:Hv.
  - destruct (decide (q = p)) as [-> | Hne].
    + destruct (delete_entry_ok h d ext _ _ p I Hi Hv) as (h1 & d1 & lq & Hq & E & I1 & _ & Hview).
      do 2 eexists. split; [done |]. split; [done |]. intros j k Hj. rewrite Hview. destruct (decide _) as [[-> ->] | Hn].
      * by rewrite decide_True.
      * rewrite decide_False; [done |]. intros E'. apply Hn. by apply Hkey.
    + do 2 eexists. split; [done |]. split; [done |]. apply Hnot. congruence.
  - do 2 eexists. split; [done |]. split; [done |]. by apply Hnot.
Qed.

Lemma delete_entries_ok ks : forall h d ext i,
  inv h d ext -> valid_type i ->
  exists h' d', delete_entries h d i ks = Ok (h', d') /\ inv h' d' ext /\
    (forall j k, view d' j k = if decide (j = i /\ k ∈ ks) then None else view d j k).
Proof.
  induction ks as [|k0 ks IH]; intros h d ext i I Hi; cbn [delete_entries].
  - do 2 eexists. split; [done |]. split; [done |]. intros j k. rewrite decide_False by set_solver. done.
  - pose proof I as [O _]. destruct (view d i k0) as [p |] eqn:Hv.
    + destruct (delete_entry_ok h d ext i k0 p I Hi Hv) as (h1 & d1 & l & _ & E & I1 & _ & Hview). rewrite E. cbn [mbind res_bind].
      destruct (IH h1 d1 ext i I1 Hi) as (h2 & d2 & E2 & I2 & Hview2). do 2 eexists. split; [done |]. split; [done |].
      intros j k. rewrite Hview2, Hview. repeat case_decide; set_solver.
    + destruct (get_table_ok h d i O Hi) as (t & m & _ & Hm & _ & _). unfold ospf_lsdb_delete_entry. rewrite Hm. cbn [mbind res_bind].
      rewrite <- (view_table _ _ _ _ Hm), Hv. cbn [mbind res_bind].
      destruct (IH h d ext i I Hi) as (h2 & d2 & E2 & I2 & Hview2). do 2 eexists. split; [done |]. split; [done |].
      intros j k. rewrite Hview2. repeat case_decide; set_solver.
Qed.

Lemma delete_types_ok is_ : forall h d ext,
  inv h d ext -> Forall valid_type is_ ->
  exists h' d', delete_types h d is_ = Ok (h', d') /\ inv h' d' ext /\
    (forall j k, view d' j k = if decide (j ∈ is_) then None else view d j k).
Proof.
  induction is_ as [|i is_ IH]; intros h d ext I Hf; cbn [delete_types].
  - do 2 eexists. split; [done |]. split; [done |]. intros j k. rewrite decide_False by set_solver. done.
  - inversion Hf as [|?? Hi Hf']; subst. pose proof I as [O _]. destruct (get_table_ok h d i O Hi) as (t & m & _ & Hm & _ & _).
    rewrite Hm. cbn [mbind res_bind]. destruct (delete_entries_ok (map_to_list m).*1 h d ext i I Hi) as (h1 & d1 & E & I1 & Hview).
    rewrite E. cbn [mbind res_bind]. destruct (IH h1 d1 ext I1 Hf') as (h2 & d2 & E2 & I2 & Hview2).
    do 2 eexists. split; [done |]. split; [done |]. intros j k. rewrite Hview2, Hview.
    assert (j ∈ i :: is_ <-> j = i \/ j ∈ is_) as Hin by apply elem_of_cons. destruct (decide (j ∈ is_)) as [H1 | H1]; [by rewrite decide_True by tauto |].
    destruct (decide (j ∈ i :: is_)) as [H2 | H2]; [| by rewrite decide_False by tauto].
    assert (j = i) as -> by tauto. destruct (decide _) as [| Hn]; [done |].
    rewrite (view_table _ _ _ _ Hm). destruct (m !! k) as [p |] eqn:E3; [| done]. destruct Hn. split; [done |].
    apply list_elem_of_fmap. exists (k, p). split; [done | by apply elem_of_map_to_list].
Qed.

Lemma lsa_types_valid : Forall valid_type lsa_types.
Proof. apply Forall_forall. intros i Hi. unfold lsa_types in Hi. apply list_elem_of_In, elem_of_seqZ in Hi. unfold valid_type, OSPF_MIN_LSA, OSPF_MAX_LSA in *. lia. Qed.

Lemma valid_in_types i : valid_type i -> i ∈ lsa_types.
Proof. intros H. apply elem_of_seqZ. unfold valid_type, OSPF_MIN_LSA, OSPF_MAX_LSA in *. lia. Qed.

(** ** Clients *)

Lemma lsdb_ok_heap h h' d :
  lsdb_ok h d ->
  (forall i k q l, valid_type i -> view d i k = Some q -> h !! q = Some l -> exists l', h' !! q = Some l' /\ same_lsa l l') ->
  lsdb_ok h' d.
Proof.
  intros O Hh. split; [apply (lo_len _ _ O) | apply (lo_zero _ _ O) | | apply (lo_total _ _ O) | apply (lo_hooks _ _ O)].
  intros i Hi. destruct (get_table_ok h d i O Hi) as (t & m & _ & Hm & Ht & Hok). exists t, m. split; [done |].
  eapply type_ok_heap; [done |]. intros k q l Hk Hq. eapply Hh; [done | by rewrite (view_table _ _ _ _ Hm) | done].
Qed.

(** A live LSA changes its reference count or flags. *)
Lemma inv_set h d ext ext' p l l' :
  inv h d ext -> h !! p = Some l -> same_lsa l l' -> (forall q, q <> p -> ext' q = ext q) ->
  lock l' - ext' p = lock l - ext p -> 0 <= ext' p -> 0 < lock l' ->
  (CHECK_FLAG (flags l') OSPF_LSA_DISCARD = false -> 1 <= ext' p) -> refresh_list l' = refresh_list l ->
  inv (<[p := l']> h) d ext'.
Proof.
  intros [O H] Hl [Hd Hs] Hx Hlk H0 Hpos Hdis Href. split.
  - apply (lsdb_ok_heap h); [done |]. intros i k q lq _ _ Hq. destruct (decide (q = p)) as [-> | Hne].
    + exists l'. rewrite lookup_insert_eq. replace lq with l by congruence. done.
    + exists lq. by rewrite lookup_insert_ne.
  - intros q lq Hq. destruct (decide (q = p)) as [-> | Hne].
    + pose proof Hq as Hq'. rewrite lookup_insert_eq in Hq. injection Hq as <-. destruct (H p l Hl) as (E & _ & _ & _ & E2 & E3).
      unfold lsa_ok. rewrite (in_db_data h _ d d p l l') by done. rewrite Hd, Href. split_and!; (done || lia || apply E3).
    + pose proof Hq as Hq'. rewrite lookup_insert_ne in Hq' by done. destruct (H q lq Hq') as (E & R).
      unfold lsa_ok. rewrite (in_db_data h _ d d q lq lq), Hx by done. done.
Qed.

(** An LSA to which the database does not refer is freed. *)
Lemma inv_free h d ext ext' p l :
  inv h d ext -> h !! p = Some l -> in_db h d p = false -> (forall q, q <> p -> ext' q = ext q) -> inv (delete p h) d ext'.
Proof.
  intros [O H] Hl Hn Hx. split.
  - apply (lsdb_ok_heap h); [done |]. intros i k q lq Hi Hv Hq. exists lq. rewrite lookup_delete_ne; [done |]. intros <-.
    destruct (view_key _ _ _ _ _ O Hi Hv) as (l' & Hl' & <- & <-). rewrite (in_db_iff _ _ _ _ Hl'), bool_decide_eq_true_2 in Hn; done.
  - intros q lq Hq. apply lookup_delete_Some in Hq as [Hne Hq]. destruct (H q lq Hq) as (E & R).
    unfold lsa_ok. rewrite (in_db_data h _ d d q lq lq), Hx by (done || by rewrite lookup_delete_ne). done.
Qed.

Lemma inv_new h d ext ext' p l :
  inv h d ext -> h !! p = None -> (forall q, q <> p -> ext' q = ext q) -> ext' p = 1 -> lock l = 1 -> refresh_list l < 0 ->
  valid_type (ls_type (data l)) -> inv (<[p := l]> h) d ext'.
Proof.
  intros [O H] Hn Hx H1 Hlk Href Hty.
  assert (forall i k, valid_type i -> view d i k <> Some p) as Hnv.
  { intros i k Hi Hv. destruct (view_key _ _ _ _ _ O Hi Hv) as (l' & Hl' & _). congruence. }
  split.
  - apply (lsdb_ok_heap h); [done |]. intros i k q lq Hi Hv Hq. exists lq. rewrite lookup_insert_ne; [done |]. by intros <-; congruence.
  - intros q lq Hq. pose proof Hq as Hq'. destruct (decide (q = p)) as [-> | Hne].
    + rewrite lookup_insert_eq in Hq. injection Hq as <-. unfold lsa_ok.
      rewrite (in_db_iff _ _ _ _ Hq'), bool_decide_eq_false_2 by auto. split_and!; (done || lia || apply Hty).
    + rewrite lookup_insert_ne in Hq by done. destruct (H q lq Hq) as (E & R).
      unfold lsa_ok. rewrite (in_db_data h _ d d q lq lq), Hx by done. done.
Qed.

(** A count of references changes. *)
Definition upd (ext : lsa_ptr -> Z) (p : lsa_ptr) (v : Z) : lsa_ptr -> Z := fun q => if decide (q = p) then v else ext q.
Lemma upd_eq ext p v : upd ext p v p = v.
Proof. unfold upd. by rewrite decide_True. Qed.
Lemma upd_ne ext p v q : q <> p -> upd ext p v q = ext q.
Proof. intros H. unfold upd. by rewrite decide_False. Qed.

(** A reference from outside is dropped. *)
Lemma unlock_inv h d ext p l :
  inv h d ext -> h !! p = Some l -> 1 <= ext p -> (CHECK_FLAG (flags l) OSPF_LSA_DISCARD = false -> 2 <= ext p) ->
  exists h' r, ospf_lsa_unlock h (Some p) = Ok (h', r) /\ inv h' d (upd ext p (ext p - 1)).
Proof.
  intros I Hl H1 H2. pose proof I as [O H]. destruct (H p l Hl) as (Hlk & Hext & Hpos & Hdis & Href & Hi).
  destruct (unlock_ok h p l Hl Hpos) as (r & E).
  { intros E. split; [| done]. destruct (CHECK_FLAG _ _); [done |]. destruct (in_db h d p); lia. }
  rewrite E. do 2 eexists. split; [done |].
  destruct (Z.eqb_spec (lock l) 1) as [E1 | E1].
  - eapply inv_free; [done | done | | by apply upd_ne]. destruct (in_db h d p); [lia | done].
  - eapply inv_set; [done | done | apply lock_same | by apply upd_ne | ..]; rewrite ?upd_eq; cbn; try (done || lia).
    intros Hd. specialize (H2 Hd). lia.
Qed.

(** What a client may do.  [Create] allocates an LSA, [Lock] and [Unlock] take and drop a client's own
    reference, [Discard] gives the reference of the creator back. *)
Inductive lsdb_op :=
| Create (p : lsa_ptr) (hdr : lsa_header) (now : Z) (self : bool)
| Add (p : lsa_ptr) | Delete (p : lsa_ptr) | DeleteAll | Lock (p : lsa_ptr) | Unlock (p : lsa_ptr) | Discard (p : lsa_ptr).

Definition state : Type := lsas * ospf_lsdb * (lsa_ptr -> Z).

Definition created (hdr : lsa_header) (now : Z) (self : bool) : ospf_lsa :=
  let l := ospf_lsa_new hdr now in set_lsa_flags (if self then SET_FLAG (flags l) OSPF_LSA_SELF else flags l) l.

Definition run_op (s : state) (o : lsdb_op) : res state :=
  let '(h, d, ext) := s in
  match o with
  | Create p hdr now self => Ok (<[p := created hdr now self]> h, d, upd ext p 1)
  | Add p => '(h, d) ← ospf_lsdb_add h d p; Ok (h, d, ext)
  | Delete p => '(h, d) ← ospf_lsdb_delete h d (Some p); Ok (h, d, ext)
  | DeleteAll => '(h, d) ← ospf_lsdb_delete_all h d; Ok (h, d, ext)
  | Lock p => h ← ospf_lsa_lock h p; Ok (h, d, upd ext p (ext p + 1))
  | Unlock p => '(h, _) ← ospf_lsa_unlock h (Some p); Ok (h, d, upd ext p (ext p - 1))
  | Discard p =>
      l ← get_lsa h p;
      h ← ospf_lsa_discard h p;
      Ok (h, d, if CHECK_FLAG (flags l) OSPF_LSA_DISCARD then ext else upd ext p (ext p - 1))
  end.

(** The discipline of the clients: they use pointers to live LSAs and drop only references they hold. *)
Definition allowed (s : state) (o : lsdb_op) : Prop :=
  let '(h, d, ext) := s in
  match o with
  | Create p hdr _ _ => h !! p = None /\ valid_type (ls_type hdr)
  | Add p | Delete p | Lock p | Discard p => is_Some (h !! p)
  | DeleteAll => True
  | Unlock p => exists l, h !! p = Some l /\ 1 <= ext p /\ (CHECK_FLAG (flags l) OSPF_LSA_DISCARD = false -> 2 <= ext p)
  end.

(** The effect on the contents. *)
Definition spec_view (h : lsas) (o : lsdb_op) (v : Z -> Z * Z -> option lsa_ptr) (i : Z) (k : Z * Z) : option lsa_ptr :=
  match o with
  | Add p => match h !! p with
             | Some l => if decide (i = ls_type (data l) /\ k = lsdb_prefix_set l) then Some p else v i k
             | None => v i k
             end
  | Delete p => if decide (v i k = Some p) then None else v i k
  | DeleteAll => None
  | _ => v i k
  end.

Definition state_inv (s : state) : Prop := let '(h, d, ext) := s in inv h d ext.

Lemma run_op_ok s o :
  state_inv s -> allowed s o ->
  exists s', run_op s o = Ok s' /\ state_inv s' /\
    (forall i k, valid_type i -> view s'.1.2 i k = spec_view s.1.1 o (view s.1.2) i k).
Proof.
  destruct s as [[h d] ext]. intros I A. cbn in I. destruct o as [p hdr now self | p | p | | p | p | p]; cbn in A |- *.
  - destruct A as [Hn Hty]. eexists. split; [done |]. split; [| done].
    eapply inv_new; [done | done | by apply upd_ne | apply upd_eq | by destruct self | by destruct self | by destruct self].
  - destruct A as [l Hl]. destruct (add_ok h d ext p l I Hl) as (h' & d' & E & I' & Hv). rewrite E. cbn.
    eexists. split; [done |]. split; [done |]. intros i k _. cbn. by rewrite Hv, Hl.
  - destruct A as [l Hl]. destruct (delete_ok h d ext p l I Hl) as (h' & d' & E & I' & Hv).
    unfold ospf_lsdb_delete in E. cbn in E. rewrite E. cbn. eexists. split; [done |]. split; [done |]. intros i k Hi. by apply Hv.
  - unfold ospf_lsdb_delete_all. destruct (delete_types_ok lsa_types h d ext I lsa_types_valid) as (h' & d' & E & I' & Hv).
    rewrite E. cbn. eexists. split; [done |]. split; [done |]. intros i k Hi. cbn. rewrite Hv. by rewrite decide_True by by apply valid_in_types.
  - destruct A as [l Hl]. pose proof I as [_ H]. destruct (H p l Hl) as (Hlk & Hext & Hpos & Hdis & Href & Hi).
    unfold ospf_lsa_lock, get_lsa. rewrite Hl. cbn. eexists. split; [done |]. split; [| done].
    eapply inv_set; [done | done | apply lock_same | by apply upd_ne | ..]; rewrite ?upd_eq; cbn; (done || lia).
  - destruct A as (l & Hl & H1 & H2). destruct (unlock_inv h d ext p l I Hl H1 H2) as (h' & r & E & I').
    unfold ospf_lsa_unlock in E. cbn in E. rewrite E. cbn. eexists. split; [done |]. done.
  - destruct A as [l Hl]. pose proof I as [_ H]. destruct (H p l Hl) as (Hlk & Hext & Hpos & Hdis & Href & Hi).
    unfold ospf_lsa_discard, get_lsa. rewrite Hl. cbn [mbind res_bind]. destruct (CHECK_FLAG (flags l) OSPF_LSA_DISCARD) eqn:Ed.
    { eexists. split; [done |]. done. }
    set (l1 := set_lsa_flags _ l).
    assert (CHECK_FLAG (flags l1) OSPF_LSA_DISCARD = true) as Ed1.
    { cbn. change OSPF_LSA_DISCARD with (2 ^ 4). rewrite check_set by lia. by rewrite orb_true_r. }
    assert (self_count l1 = self_count l) as Es.
    { unfold self_count, IS_LSA_SELF. cbn. change OSPF_LSA_SELF with (2 ^ 0). rewrite check_set by lia. by rewrite orb_false_r. }
    assert (inv (<[p := l1]> h) d ext) as I1.
    { eapply inv_set; [done | done | done | done | ..]; cbn; (done || lia || auto). }
    destruct (unlock_inv _ d ext p l1 I1) as (h' & r & E & I'); [apply lookup_insert_eq | auto | by rewrite Ed1 |].
    rewrite E. cbn. eexists. split; [done |]. done.
Qed.

Inductive lsdb_reach (hk : bool) : state -> Prop :=
| reach_init : lsdb_reach hk (∅, ospf_lsdb_init hk, fun _ => 0)
| reach_step s o s' : lsdb_reach hk s -> allowed s o -> run_op s o = Ok s' -> lsdb_reach hk s'.

Lemma init_type i : valid_type i -> types (ospf_lsdb_init true) !! Z.to_nat i = Some (mk_type 0 0 0 (Some ∅)).
Proof.
  unfold valid_type, OSPF_MIN_LSA, OSPF_MAX_LSA. intros H. unfold ospf_lsdb_init. cbn [types].
  replace (Z.to_nat i) with (S (Z.to_nat (i - 1))) by lia. apply lookup_replicate_2. unfold OSPF_MAX_LSA, OSPF_MIN_LSA. lia.
Qed.

Lemma init_inv hk : state_inv (∅, ospf_lsdb_init hk, fun _ => 0).
Proof.
  split; [| intros p l H; by apply lookup_empty_Some in H]. split.
  - done.
  - by exists (mk_type 0 0 0 None).
  - intros i Hi. exists (mk_type 0 0 0 (Some ∅)), ∅. split; [by apply init_type |]. split; try done.
    all: intros k p H; by apply lookup_empty_Some in H.
  - done.
  - intros p _. split; [intros H; by apply elem_of_empty in H |]. intros (i & k & Hi & Hv).
    assert (get_type (ospf_lsdb_init hk) i = Ok (mk_type 0 0 0 (Some ∅))) as E.
    { unfold get_type. rewrite (proj2 (Z.ltb_ge _ _)) by (unfold valid_type, OSPF_MIN_LSA in Hi; lia).
      change (types (ospf_lsdb_init hk)) with (types (ospf_lsdb_init true)). by rewrite init_type. }
    unfold view, get_table in Hv. rewrite E in Hv. cbn in Hv. by apply lookup_empty_Some in Hv.
Qed.

Lemma reach_inv hk s : lsdb_reach hk s -> state_inv s.
Proof.
  induction 1 as [| s o s' _ IH A E]; [apply init_inv |]. destruct (run_op_ok s o IH A) as (s'' & E' & I & _). congruence.
Qed.

Lemma fsum_zero ts : (forall t, t ∈ ts -> 0 <= count t) -> 0 <= fsum ts /\ (fsum ts = 0 <-> forall t, t ∈ ts -> count t = 0).
Proof.
  induction ts as [|t ts IH]; intros H; [split; [done |]; split; [intros _ t' Ht; by apply elem_of_nil in Ht | done] |].
  assert (forall t', t' ∈ ts -> 0 <= count t') as Hts by (intros; apply H; by right).
  destruct (IH Hts) as [H0 H1]. pose proof (H t ltac:(by left)). change (fsum (t :: ts)) with (count t + fsum ts).
  split; [lia |]. split.
  - intros E t' Ht. apply elem_of_cons in Ht as [-> | Ht]; [lia |]. apply H1; [lia | done].
  - intros Hz. rewrite (Hz t) by (by left). rewrite (proj2 H1); [done |]. intros; apply Hz; by right.
Qed.

Lemma isempty_ok h d : lsdb_ok h d -> ospf_lsdb_isempty d = true <-> forall i k, valid_type i -> view d i k = None.
Proof.
  intros O. unfold ospf_lsdb_isempty. rewrite Z.eqb_eq, (lo_total _ _ O).
  assert (forall t, t ∈ types d -> count t = 0 \/ exists i m, valid_type i /\ types d !! Z.to_nat i = Some t /\ type_ok h i t m) as Hall.
  { intros t Ht. apply list_elem_of_lookup in Ht as [n Hn]. pose proof (lookup_lt_Some _ _ _ Hn) as Hlt. rewrite (lo_len _ _ O) in Hlt.
    destruct (decide (n = 0%nat)) as [-> | Hn0]; [destruct (lo_zero _ _ O) as (t0 & Ht0 & E0); left; congruence | right].
    assert (valid_type (Z.of_nat n)) as Hv by (unfold valid_type, OSPF_MIN_LSA; unfold OSPF_MAX_LSA in *; lia).
    destruct (lo_type _ _ O _ Hv) as (t' & m & Ht' & Hok). exists (Z.of_nat n), m. rewrite Nat2Z.id in Ht' |- *. split; [done |].
    split; [done |]. by replace t with t' by congruence. }
  assert (forall t, t ∈ types d -> 0 <= count t) as Hnn.
  { intros t Ht. destruct (Hall t Ht) as [E | (i & m & _ & _ & Hok)]; [lia | rewrite (to_count _ _ _ _ Hok), tsum_size; lia]. }
  rewrite (proj2 (fsum_zero _ Hnn)). split.
  - intros Hz i k Hi. destruct (get_table_ok h d i O Hi) as (t & m & _ & Hm & Ht & Hok). rewrite (view_table _ _ _ _ Hm).
    assert (size m = 0%nat) as Hs. { specialize (Hz t ltac:(by eapply list_elem_of_lookup_2)). rewrite (to_count _ _ _ _ Hok), tsum_size in Hz. lia. }
    apply map_size_empty_iff in Hs. by rewrite Hs, lookup_empty.
  - intros Hz t Ht. destruct (Hall t Ht) as [E | (i & m & Hi & Hl & Hok)]; [done |].
    rewrite (to_count _ _ _ _ Hok), tsum_size. assert (m = ∅) as ->; [| by rewrite map_size_empty].
    apply map_empty. intros k. specialize (Hz i k Hi). destruct (get_table_ok h d i O Hi) as (t' & m' & _ & Hm & Ht' & Hok').
    rewrite (view_table _ _ _ _ Hm) in Hz. assert (t' = t) as -> by congruence.
    pose proof (to_db _ _ _ _ Hok). pose proof (to_db _ _ _ _ Hok'). congruence.
Qed.

(** C26: A link state database is a finite map with exact statistics.  After any history of client calls
    (LSAs created, added, deleted, locked, unlocked and discarded, each client using live LSAs and dropping only
    references it holds): the per-type counts, self-originated counts and checksums describe exactly the stored LSAs;
    the database is reported empty exactly when it holds nothing; a monitor that follows the hooks knows its contents;
    every stored LSA is live and every live LSA is referenced exactly as often as its lock says; and
    every further allowed call runs without an assertion failing or a freed LSA being touched, and changes
    the contents as specified. *)
Theorem ospf_lsdb_correct hk h d ext :
  lsdb_reach hk (h, d, ext) ->
  (forall i, valid_type i -> exists m, get_table d i = Ok m /\ ospf_lsdb_count d i = Ok (Z.of_nat (size m)) /\
     ospf_lsdb_count_self d i = Ok (tsum (self_of h) m) /\ ospf_lsdb_checksum d i = Ok (u32 (tsum (cksum_of h) m)) /\
     (forall id adv, ospf_lsdb_lookup_by_id d i id adv = Ok (view d i (id, adv)))) /\
  (ospf_lsdb_isempty d = true <-> forall i k, valid_type i -> view d i k = None) /\
  (forall p, hooks d = true -> p ∈ replay (hook_log d) <-> exists i k, valid_type i /\ view d i k = Some p) /\
  (forall i k p, valid_type i -> view d i k = Some p ->
     exists l, h !! p = Some l /\ ls_type (data l) = i /\ lsdb_prefix_set l = k) /\
  (forall p l, h !! p = Some l -> lock l = ext p + (if in_db h d p then 1 else 0) /\ 0 < lock l) /\
  (forall o, allowed (h, d, ext) o -> exists h' d' ext', run_op (h, d, ext) o = Ok (h', d', ext') /\
     forall i k, valid_type i -> view d' i k = spec_view h o (view d) i k).
Proof.
  intros R. pose proof (reach_inv hk _ R) as I. pose proof I as [O H]. split_and!.
  - intros i Hi. destruct (get_table_ok h d i O Hi) as (t & m & Hgt & Hm & Ht & Hok). exists m.
    unfold ospf_lsdb_count, ospf_lsdb_count_self, ospf_lsdb_checksum, ospf_lsdb_lookup_by_id. rewrite Hgt, Hm. cbn.
    rewrite (to_count _ _ _ _ Hok), tsum_size, (to_self _ _ _ _ Hok), (to_sum _ _ _ _ Hok). split_and!; try done.
    intros id adv. by rewrite (view_table _ _ _ _ Hm).
  - by apply (isempty_ok h).
  - apply (lo_hooks _ _ O).
  - intros i k p Hi Hv. by apply (view_key h d).
  - intros p l Hl. destruct (H p l Hl) as (E & _ & Hpos & _). done.
  - intros o A. destruct (run_op_ok _ o I A) as ([[h' d'] ext'] & E & _ & Hv). by exists h', d', ext'.
Qed.

(** Runs that check the discipline of the clients. *)
Definition allowedb (s : state) (o : lsdb_op) : bool :=
  let '(h, d, ext) := s in
  match o with
  | Create p hdr _ _ => bool_decide (h !! p = None) && (OSPF_MIN_LSA <=? ls_type hdr) && (ls_type hdr <? OSPF_MAX_LSA)
  | Add p | Delete p | Lock p | Discard p => bool_decide (is_Some (h !! p))
  | DeleteAll => true
  | Unlock p => match h !! p with
                | Some l => (if CHECK_FLAG (flags l) OSPF_LSA_DISCARD then 1 else 2) <=? ext p
                | None => false
                end
  end.

Lemma allowedb_allowed s o : allowedb s o = true -> allowed s o.
Proof.
  destruct s as [[h d] ext], o as [p hdr now self | p | p | | p | p | p]; cbn; rewrite ?bool_decide_eq_true; try done.
  - rewrite !andb_true_iff, bool_decide_eq_true, Z.leb_le, Z.ltb_lt. unfold valid_type. tauto.
  - destruct (h !! p) as [l |]; [| done]. intros H. exists l. apply Z.leb_le in H. destruct (CHECK_FLAG _ _); split_and!; (done || lia).
Qed.

Fixpoint checked_run (s : state) (ops : list lsdb_op) : res state :=
  match ops with
  | [] => Ok s
  | o :: ops => if allowedb s o then s ← run_op s o; checked_run s ops else Oob
  end.

Lemma checked_reach hk ops : forall s s', lsdb_reach hk s -> checked_run s ops = Ok s' -> lsdb_reach hk s'.
Proof.
  induction ops as [|o ops IH]; intros s s' R E; cbn in E; [by injection E as <- |].
  destruct (allowedb s o) eqn:A; [| done]. apply bind_Ok in E as (s1 & E1 & E). eapply IH; [| exact E].
  eapply reach_step; [exact R | by apply allowedb_allowed | exact E1].
Qed.

(** Two instances of one router-LSA; the second replaces the first, which is then discarded. *)
Definition ex_header (seq ck : Z) : lsa_header := mk_header 1 0 1 5 5 seq ck.
Definition ex_ops : list lsdb_op :=
  [Create 1 (ex_header 7 100) 0 true; Add 1; Create 2 (ex_header 8 200) 0 true; Add 2; Discard 1].
Definition ex_run : res state := checked_run (∅, ospf_lsdb_init true, fun _ => 0) ex_ops.

Lemma ospf_lsdb_correct_witness :
  exists h d ext, lsdb_reach true (h, d, ext) /\ h !! 1%positive = None /\ view d 1 (5, 5) = Some 2%positive /\
    ospf_lsdb_count d 1 = Ok 1 /\ ospf_lsdb_checksum d 1 = Ok 200 /\ 2%positive ∈ replay (hook_log d).
Proof.
  assert (exists h d ext, ex_run = Ok (h, d, ext)) as (h & d & ext & E) by (vm_compute; repeat eexists).
  assert (lsdb_reach true (h, d, ext)) as R.
  { apply (checked_reach true ex_ops (∅, ospf_lsdb_init true, fun _ => 0)); [apply reach_init | exact E]. }
  destruct (ospf_lsdb_correct true h d ext R) as (_ & _ & H3 & _). exists h, d, ext. split; [exact R |].
  assert (view d 1 (5, 5) = Some 2%positive) as V by (vm_compute in E; injection E as <- <- <-; reflexivity).
  assert (hooks d = true) as K by (vm_compute in E; injection E as <- <- <-; reflexivity).
  split; [vm_compute in E; injection E as <- <- <-; reflexivity |]. split; [exact V |].
  split; [vm_compute in E; injection E as <- <- <-; reflexivity |].
  split; [vm_compute in E; injection E as <- <- <-; reflexivity |].
  apply (H3 _ K). exists 1, (5, 5). split; [| exact V]. unfold valid_type, OSPF_MIN_LSA, OSPF_MAX_LSA. lia.
Defined.
