(* ===== verification/Thread.v ===== *)
(** * lib/thread.c: the cooperative scheduler

    All daemons run on this event loop.  A [thread_master] keeps seven doubly linked lists of [struct thread];
    the nodes live in a heap, following a pointer that is not in it is [Oob].  The two arguments of a
    thread ([func] and [arg]) are numbers that name a handler and an object.  The system is an argument:
    [thread_fetch] takes the list of what every round of its loop meets (events that signal handlers
    add, the clock, the outcome of select(2)) and returns the timeouts it passed to select.
    The CPU statistics and the names of the functions are left out. *)

From S2P Require Import Prelude.
Local Open Scope Z_scope.

(** ** Times *)

Record timeval := mk_tv { tv_sec : Z; tv_usec : Z }.
Definition TIMER_SECOND_MICRO : Z := 1000000.

(** The two loops of [timeval_adjust]; the fuel is at least the number of turns. *)
Fixpoint adjust_down (fuel : nat) (a : timeval) : timeval :=
  match fuel with
  | O => a
  | S f => if TIMER_SECOND_MICRO <=? tv_usec a
           then adjust_down f (mk_tv (tv_sec a + 1) (tv_usec a - TIMER_SECOND_MICRO)) else a
  end.
Fixpoint adjust_up (fuel : nat) (a : timeval) : timeval :=
  match fuel with
  | O => a
  | S f => if tv_usec a <? 0 then adjust_up f (mk_tv (tv_sec a - 1) (tv_usec a + TIMER_SECOND_MICRO)) else a
  end.
Definition adjust_fuel (a : timeval) : nat := Z.to_nat (Z.abs (tv_usec a) / TIMER_SECOND_MICRO) + 2.

Definition timeval_adjust (a : timeval) : timeval :=
  let a := adjust_down (adjust_fuel a) a in
  let a := adjust_up (adjust_fuel a) a in
  if tv_sec a <? 0 then mk_tv 0 0 else a.

Definition timeval_subtract (a b : timeval) : timeval :=
  timeval_adjust (mk_tv (tv_sec a - tv_sec b) (tv_usec a - tv_usec b)).

Definition timeval_cmp (a b : timeval) : Z :=
  if tv_sec a =? tv_sec b then tv_usec a - tv_usec b else tv_sec a - tv_sec b.

(** ** Data *)

Notation ptr := positive (only parsing).

Definition THREAD_READ : Z := 0.
Definition THREAD_WRITE : Z := 1.
Definition THREAD_TIMER : Z := 2.
Definition THREAD_EVENT : Z := 3.
Definition THREAD_READY : Z := 4.
Definition THREAD_BACKGROUND : Z := 5.
Definition THREAD_UNUSED : Z := 6.

(** The union [thread->u]. *)
Inductive uval := Val (v : Z) | Fd (fd : Z) | Sands (t : timeval).

Record thread := mk_thread {
  t_type : Z; add_type : Z; next : option ptr; prev : option ptr; func : Z; arg : Z; u : uval }.

Record thread_list := mk_list { head : option ptr; tail : option ptr; count : Z }.

(** The seven lists of [struct thread_master]. *)
Inductive lname := LRead | LWrite | LTimer | LEvent | LReady | LUnuse | LBackground.
Global Instance lname_eq_dec : EqDecision lname.
Proof. solve_decision. Defined.

Notation heap := (gmap positive thread) (only parsing).

Record thread_master := mk_master {
  mem : heap; lists : lname -> thread_list; readfd : gset Z; writefd : gset Z; alloc : Z }.

Definition thread_master_create : thread_master := mk_master ∅ (fun _ => mk_list None None 0) ∅ ∅ 0.

(** ** Lists *)

Definition get (h : heap) (t : ptr) : res thread := match h !! t with Some n => Ok n | None => Oob end.
Definition upd (h : heap) (t : ptr) (f : thread -> thread) : res heap := n ← get h t; Ok (<[t := f n]> h).

Definition set_next (p : option ptr) (n : thread) : thread := mk_thread (t_type n) (add_type n) p (prev n) (func n) (arg n) (u n).
Definition set_prev (p : option ptr) (n : thread) : thread := mk_thread (t_type n) (add_type n) (next n) p (func n) (arg n) (u n).
Definition set_t_type (ty : Z) (n : thread) : thread := mk_thread ty (add_type n) (next n) (prev n) (func n) (arg n) (u n).

Definition thread_list_add (h : heap) (list : thread_list) (t : ptr) : res (heap * thread_list) :=
  h ← upd h t (set_next None);
  h ← upd h t (set_prev (tail list));
  '(h, hd) ← match tail list with
             | Some p => h ← upd h p (set_next (Some t)); Ok (h, head list)
             | None => Ok (h, Some t)
             end;
  Ok (h, mk_list hd (Some t) (count list + 1)).

Definition thread_list_add_before (h : heap) (list : thread_list) (point t : ptr) : res (heap * thread_list) :=
  h ← upd h t (set_next (Some point));
  pt ← get h point;
  h ← upd h t (set_prev (prev pt));
  pt ← get h point;
  '(h, hd) ← match prev pt with
             | Some p => h ← upd h p (set_next (Some t)); Ok (h, head list)
             | None => Ok (h, Some t)
             end;
  h ← upd h point (set_prev (Some t));
  Ok (h, mk_list hd (tail list) (count list + 1)).

Definition thread_list_delete (h : heap) (list : thread_list) (t : ptr) : res (heap * thread_list) :=
  n ← get h t;
  '(h, tl) ← match next n with
             | Some x => h ← upd h x (set_prev (prev n)); Ok (h, tail list)
             | None => Ok (h, prev n)
             end;
  n ← get h t;
  '(h, hd) ← match prev n with
             | Some x => h ← upd h x (set_next (next n)); Ok (h, head list)
             | None => Ok (h, next n)
             end;
  h ← upd h t (fun n => set_next None (set_prev None n));
  Ok (h, mk_list hd tl (count list - 1)).

Definition thread_empty (list : thread_list) : bool := match head list with Some _ => false | None => true end.

(** [list] of a master is replaced. *)
Definition set_list (m : thread_master) (k : lname) (h : heap) (l : thread_list) : thread_master :=
  mk_master h (fun j => if decide (j = k) then l else lists m j) (readfd m) (writefd m) (alloc m).
Definition set_mem (m : thread_master) (h : heap) : thread_master := mk_master h (lists m) (readfd m) (writefd m) (alloc m).

Definition list_add (m : thread_master) (k : lname) (t : ptr) : res thread_master :=
  '(h, l) ← thread_list_add (mem m) (lists m k) t; Ok (set_list m k h l).
Definition list_add_before (m : thread_master) (k : lname) (point t : ptr) : res thread_master :=
  '(h, l) ← thread_list_add_before (mem m) (lists m k) point t; Ok (set_list m k h l).
Definition list_delete (m : thread_master) (k : lname) (t : ptr) : res thread_master :=
  '(h, l) ← thread_list_delete (mem m) (lists m k) t; Ok (set_list m k h l).

(** [thread_trim_head]: [None] when the list is empty. *)
Definition thread_trim_head (m : thread_master) (k : lname) : res (thread_master * option ptr) :=
  match head (lists m k) with
  | Some t => m ← list_delete m k t; Ok (m, Some t)
  | None => Ok (m, None)
  end.

Definition thread_add_unuse (m : thread_master) (t : ptr) : res thread_master :=
  n ← get (mem m) t;
  _ ← c_assert (match next n with None => true | Some _ => false end);
  _ ← c_assert (match prev n with None => true | Some _ => false end);
  _ ← c_assert (t_type n =? THREAD_UNUSED);
  list_add m LUnuse t.

(** ** Scheduling *)

(** [thread_get]: an unused thread is taken again, or a new one allocated; the links and the
    union keep their old contents. *)
Definition thread_get (m : thread_master) (type fn a : Z) : res (thread_master * ptr) :=
  '(m, t) ← (if thread_empty (lists m LUnuse) then
               let t := fresh (dom (mem m)) in
               Ok (mk_master (<[t := mk_thread 0 0 None None 0 0 (Val 0)]> (mem m)) (lists m) (readfd m) (writefd m) (alloc m + 1), t)
             else
               '(m, t) ← thread_trim_head m LUnuse;
               match t with Some t => Ok (m, t) | None => Oob end);
  h ← upd (mem m) t (fun n => mk_thread type type (next n) (prev n) fn a (u n));
  Ok (set_mem m h, t).

Definition set_u (v : uval) (n : thread) : thread := mk_thread (t_type n) (add_type n) (next n) (prev n) (func n) (arg n) v.

(** An [fd_set] holds the descriptors below [FD_SETSIZE] (1024 on the platforms of the daemons); the macros do not check, so that any other descriptor is
    outside of the object. *)
Definition FD_SETSIZE : Z := 1024.
Definition fd_valid (fd : Z) : bool := (0 <=? fd) && (fd <? FD_SETSIZE).
Definition FD_ISSET (fd : Z) (set : gset Z) : res bool := if fd_valid fd then Ok (bool_decide (fd ∈ set)) else Oob.
Definition FD_SET (fd : Z) (set : gset Z) : res (gset Z) := if fd_valid fd then Ok ({[fd]} ∪ set) else Oob.
Definition FD_CLR (fd : Z) (set : gset Z) : res (gset Z) := if fd_valid fd then Ok (set ∖ {[fd]}) else Oob.

(** [thread_add_read], [thread_add_write]: [None] when the descriptor is already watched. *)
Definition thread_add_read (m : thread_master) (fn a fd : Z) : res (thread_master * option ptr) :=
  watched ← FD_ISSET fd (readfd m);
  if watched : bool then Ok (m, None)
  else
    '(m, t) ← thread_get m THREAD_READ fn a;
    fds ← FD_SET fd (readfd m);
    h ← upd (mem m) t (set_u (Fd fd));
    m ← list_add (mk_master h (lists m) fds (writefd m) (alloc m)) LRead t;
    Ok (m, Some t).

Definition thread_add_write (m : thread_master) (fn a fd : Z) : res (thread_master * option ptr) :=
  watched ← FD_ISSET fd (writefd m);
  if watched : bool then Ok (m, None)
  else
    '(m, t) ← thread_get m THREAD_WRITE fn a;
    fds ← FD_SET fd (writefd m);
    h ← upd (mem m) t (set_u (Fd fd));
    m ← list_add (mk_master h (lists m) (readfd m) fds (alloc m)) LWrite t;
    Ok (m, Some t).

Definition as_sands (n : thread) : res timeval := match u n with Sands t => Ok t | _ => Oob end.
Definition as_fd (n : thread) : res Z := match u n with Fd fd => Ok fd | _ => Oob end.

(** The search for the first timer that is not earlier; the fuel bounds the length of the list. *)
Fixpoint find_point (fuel : nat) (h : heap) (sands : timeval) (tt : option ptr) : res (option ptr) :=
  match fuel with
  | O => Oob
  | S f =>
      match tt with
      | None => Ok None
      | Some t =>
          n ← get h t;
          s ← as_sands n;
          if timeval_cmp sands s <=? 0 then Ok tt else find_point f h sands (next n)
      end
  end.

Definition timer_list (type : Z) : lname := if type =? THREAD_TIMER then LTimer else LBackground.

(** [funcname_thread_add_timer_timeval]; [now] is [relative_time]. *)
Definition thread_add_timer_timeval (m : thread_master) (now : timeval) (fn type a : Z) (trel : timeval)
    : res (thread_master * ptr) :=
  _ ← c_assert ((type =? THREAD_TIMER) || (type =? THREAD_BACKGROUND));
  let k := timer_list type in
  '(m, t) ← thread_get m type fn a;
  let sands := timeval_adjust (mk_tv (tv_sec now + tv_sec trel) (tv_usec now + tv_usec trel)) in
  h ← upd (mem m) t (set_u (Sands sands));
  let m := set_mem m h in
  tt ← find_point (S (size (mem m))) (mem m) sands (head (lists m k));
  m ← match tt with
      | Some point => list_add_before m k point t
      | None => list_add m k t
      end;
  Ok (m, t).

Definition thread_add_timer (m : thread_master) (now : timeval) (fn a timer : Z) : res (thread_master * ptr) :=
  thread_add_timer_timeval m now fn THREAD_TIMER a (mk_tv timer 0).

(** [timer / 1000] and [timer % 1000] truncate. *)
Definition thread_add_timer_msec (m : thread_master) (now : timeval) (fn a timer : Z) : res (thread_master * ptr) :=
  thread_add_timer_timeval m now fn THREAD_TIMER a (mk_tv (Z.quot timer 1000) (1000 * Z.rem timer 1000)).

Definition thread_add_background (m : thread_master) (now : timeval) (fn a delay : Z) : res (thread_master * ptr) :=
  let trel := if delay =? 0 then mk_tv 0 0 else mk_tv (Z.quot delay 1000) (1000 * Z.rem delay 1000) in
  thread_add_timer_timeval m now fn THREAD_BACKGROUND a trel.

Definition thread_add_event (m : thread_master) (fn a val : Z) : res (thread_master * ptr) :=
  '(m, t) ← thread_get m THREAD_EVENT fn a;
  h ← upd (mem m) t (set_u (Val val));
  m ← list_add (set_mem m h) LEvent t;
  Ok (m, t).

(** ** Cancelling *)

Definition retire (m : thread_master) (k : lname) (t : ptr) : res thread_master :=
  m ← list_delete m k t;
  h ← upd (mem m) t (set_t_type THREAD_UNUSED);
  thread_add_unuse (set_mem m h) t.

Definition thread_cancel (m : thread_master) (t : ptr) : res thread_master :=
  n ← get (mem m) t;
  let ty := t_type n in
  if ty =? THREAD_READ then
    fd ← as_fd n;
    watched ← FD_ISSET fd (readfd m);
    _ ← c_assert watched;
    fds ← FD_CLR fd (readfd m);
    retire (mk_master (mem m) (lists m) fds (writefd m) (alloc m)) LRead t
  else if ty =? THREAD_WRITE then
    fd ← as_fd n;
    watched ← FD_ISSET fd (writefd m);
    _ ← c_assert watched;
    fds ← FD_CLR fd (writefd m);
    retire (mk_master (mem m) (lists m) (readfd m) fds (alloc m)) LWrite t
  else if ty =? THREAD_TIMER then retire m LTimer t
  else if ty =? THREAD_EVENT then retire m LEvent t
  else if ty =? THREAD_READY then retire m LReady t
  else if ty =? THREAD_BACKGROUND then retire m LBackground t
  else Ok m.

(** The loop of [thread_cancel_event] over the event list. *)
Fixpoint cancel_event_loop (fuel : nat) (m : thread_master) (a : Z) (t : option ptr) (ret : Z) : res (thread_master * Z) :=
  match fuel with
  | O => Oob
  | S f =>
      match t with
      | None => Ok (m, ret)
      | Some p =>
          n ← get (mem m) p;
          if arg n =? a then m ← retire m LEvent p; cancel_event_loop f m a (next n) (ret + 1)
          else cancel_event_loop f m a (next n) ret
      end
  end.
Definition thread_cancel_event (m : thread_master) (a : Z) : res (thread_master * Z) :=
  cancel_event_loop (S (size (mem m))) m a (head (lists m LEvent)) 0.

(** ** Running *)

(** [thread_run]: the thread is copied out and its node goes to the unused list. *)
Definition thread_run (m : thread_master) (t : ptr) : res (thread_master * thread) :=
  n ← get (mem m) t;
  h ← upd (mem m) t (set_t_type THREAD_UNUSED);
  m ← thread_add_unuse (set_mem m h) t;
  Ok (m, n).

(** A thread moves from list [k] to the ready list. *)
Definition make_ready (m : thread_master) (k : lname) (t : ptr) : res thread_master :=
  m ← list_delete m k t;
  h ← upd (mem m) t (set_t_type THREAD_READY);
  list_add (set_mem m h) LReady t.

(** [thread_process_fd]: [fdset] is what select returned; [fds] and [set_fds] are [m->readfd] or [m->writefd]. *)
Fixpoint process_fd_loop (fuel : nat) (k : lname) (fds : thread_master -> gset Z)
    (set_fds : gset Z -> thread_master -> thread_master) (fdset : gset Z) (m : thread_master) (t : option ptr) (ready : Z)
    : res (thread_master * Z) :=
  match fuel with
  | O => Oob
  | S f =>
      match t with
      | None => Ok (m, ready)
      | Some p =>
          n ← get (mem m) p;
          fd ← as_fd n;
          ready_fd ← FD_ISSET fd fdset;
          if ready_fd : bool then
            watched ← FD_ISSET fd (fds m);
            _ ← c_assert watched;
            mfds ← FD_CLR fd (fds m);
            m ← make_ready (set_fds mfds m) k p;
            process_fd_loop f k fds set_fds fdset m (next n) (ready + 1)
          else process_fd_loop f k fds set_fds fdset m (next n) ready
      end
  end.
Definition set_readfd (s : gset Z) (m : thread_master) : thread_master := mk_master (mem m) (lists m) s (writefd m) (alloc m).
Definition set_writefd (s : gset Z) (m : thread_master) : thread_master := mk_master (mem m) (lists m) (readfd m) s (alloc m).
Definition process_read (m : thread_master) (fdset : gset Z) : res (thread_master * Z) :=
  process_fd_loop (S (size (mem m))) LRead readfd set_readfd fdset m (head (lists m LRead)) 0.
Definition process_write (m : thread_master) (fdset : gset Z) : res (thread_master * Z) :=
  process_fd_loop (S (size (mem m))) LWrite writefd set_writefd fdset m (head (lists m LWrite)) 0.

(** [thread_timer_process] *)
Fixpoint timer_process_loop (fuel : nat) (k : lname) (now : timeval) (m : thread_master) (t : option ptr) (ready : Z)
    : res (thread_master * Z) :=
  match fuel with
  | O => Oob
  | S f =>
      match t with
      | None => Ok (m, ready)
      | Some p =>
          n ← get (mem m) p;
          s ← as_sands n;
          if timeval_cmp now s <? 0 then Ok (m, ready)
          else m ← make_ready m k p; timer_process_loop f k now m (next n) (ready + 1)
      end
  end.
Definition thread_timer_process (m : thread_master) (k : lname) (now : timeval) : res (thread_master * Z) :=
  timer_process_loop (S (size (mem m))) k now m (head (lists m k)) 0.

(** [thread_process]: the whole list becomes ready. *)
Fixpoint process_loop (fuel : nat) (k : lname) (m : thread_master) (t : option ptr) (ready : Z) : res (thread_master * Z) :=
  match fuel with
  | O => Oob
  | S f =>
      match t with
      | None => Ok (m, ready)
      | Some p => n ← get (mem m) p; m ← make_ready m k p; process_loop f k m (next n) (ready + 1)
      end
  end.
Definition thread_process (m : thread_master) (k : lname) : res (thread_master * Z) :=
  process_loop (S (size (mem m))) k m (head (lists m k)) 0.

Definition thread_timer_wait (m : thread_master) (k : lname) (now : timeval) : res (option timeval) :=
  match head (lists m k) with
  | Some t => n ← get (mem m) t; s ← as_sands n; Ok (Some (timeval_subtract s now))
  | None => Ok None
  end.

(** What one turn of the loop of [thread_fetch] meets: the events added by signal handlers
    ([quagga_sigevent_process]), the clock before select, what select returns and leaves in its timeout, and
    the clock after it. *)
Record round := mk_round {
  r_signals : list (Z * Z * Z); r_before : timeval;
  r_num : Z; r_eintr : bool; r_readfd : gset Z; r_writefd : gset Z; r_left : timeval; r_after : timeval }.

Inductive fetched := Fetched (t : thread) | SelectError | Waiting.

Fixpoint add_events (m : thread_master) (evs : list (Z * Z * Z)) : res thread_master :=
  match evs with
  | [] => Ok m
  | (fn, a, v) :: r => '(m, _) ← thread_add_event m fn a v; add_events m r
  end.

(** The timeout of select: the nearer of the first timer and the first background timer; computed only
    when nothing is ready, otherwise what it was. *)
Definition select_timeout (m : thread_master) (now : timeval) (timer_wait : option timeval) : res (option timeval) :=
  if count (lists m LReady) =? 0 then
    tw ← thread_timer_wait m LTimer now;
    bg ← thread_timer_wait m LBackground now;
    Ok (match bg, tw with
        | Some b, Some w => if timeval_cmp w b >? 0 then bg else tw
        | Some b, None => bg
        | None, _ => tw
        end)
  else Ok timer_wait.

(** The calls after select. *)
Definition collect (m : thread_master) (r : round) : res thread_master :=
  '(m, _) ← thread_timer_process m LTimer (r_after r);
  m ← (if r_num r >? 0 then
         '(m, _) ← process_read m (r_readfd r);
         '(m, _) ← process_write m (r_writefd r);
         Ok m
       else Ok m);
  '(m, _) ← thread_timer_process m LBackground (r_after r);
  Ok m.

(** [waits] collects the timeouts passed to select, NULL as [None]. *)
Fixpoint fetch_loop (env : list round) (m : thread_master) (timer_wait : option timeval) (waits : list (option timeval))
    : res (thread_master * fetched * list (option timeval)) :=
  match env with
  | [] => Ok (m, Waiting, waits)
  | r :: env =>
      m ← add_events m (r_signals r);
      '(m, t) ← thread_trim_head m LReady;
      match t with
      | Some t => '(m, n) ← thread_run m t; Ok (m, Fetched n, waits)
      | None =>
          '(m, _) ← thread_process m LEvent;
          timer_wait ← select_timeout m (r_before r) timer_wait;
          let waits := waits ++ [timer_wait] in
          let timer_wait := match timer_wait with Some _ => Some (r_left r) | None => None end in
          if r_num r <? 0 then
            if r_eintr r then fetch_loop env m timer_wait waits else Ok (m, SelectError, waits)
          else
            m ← collect m r;
            '(m, t) ← thread_trim_head m LReady;
            match t with
            | Some t => '(m, n) ← thread_run m t; Ok (m, Fetched n, waits)
            | None => fetch_loop env m timer_wait waits
            end
      end
  end.

(** [timer_wait] starts as a pointer to a zero [timer_val]. *)
Definition thread_fetch (m : thread_master) (env : list round) : res (thread_master * fetched * list (option timeval)) :=
  fetch_loop env m (Some (mk_tv 0 0)) [].
