(* ===== verification/ThreadLists.v ===== *)
(** * lib/thread.c: the doubly linked lists

    [dll h l xs]: the list [l] links the nodes [xs] of the heap [h], forwards and backwards.  The three
    list functions insert and remove a node of any list without touching the nodes outside it. *)

From S2P Require Import Prelude Thread.
Local Open Scope Z_scope.

Notation ptr := positive (only parsing).
Notation heap := (gmap positive thread) (only parsing).

(** ** Segments *)

Definition nxt (ys : list ptr) (q : option ptr) : option ptr := match ys with y :: _ => Some y | [] => q end.
Definition lst (xs : list ptr) (p : option ptr) : option ptr := match list.last xs with Some x => Some x | None => p end.

(** The nodes [xs] in a chain that comes from [p] and leads to [q]. *)
Fixpoint dseg (h : heap) (p : option ptr) (xs : list ptr) (q : option ptr) : Prop :=
  match xs with
  | [] => True
  | t :: r => (exists n, h !! t = Some n /\ prev n = p /\ next n = nxt r q) /\ dseg h (Some t) r q
  end.

Lemma lst_cons x xs p : lst (x :: xs) p = lst xs (Some x).
Proof. unfold lst. rewrite last_cons. by destruct (list.last xs). Qed.

Lemma lst_snoc xs x p : lst (xs ++ [x]) p = Some x.
Proof. unfold lst. by rewrite last_snoc. Qed.

Lemma nxt_app xs ys q : nxt (xs ++ ys) q = nxt xs (nxt ys q).
Proof. by destruct xs. Qed.

Lemma dseg_app h xs : forall p ys q, dseg h p (xs ++ ys) q <-> dseg h p xs (nxt ys q) /\ dseg h (lst xs p) ys q.
Proof.
  induction xs as [|x xs IH]; intros p ys q; cbn; [naive_solver |]. rewrite IH, lst_cons, nxt_app. naive_solver.
Qed.

Lemma dseg_frame h h' xs : forall p q,
  (forall t, t ∈ xs -> h' !! t = h !! t) -> dseg h p xs q -> dseg h' p xs q.
Proof.
  induction xs as [|x xs IH]; intros p q Hf; cbn; [done |]. intros [(n & Hn & R) Hs]. split.
  - exists n. rewrite Hf by (by left). done.
  - apply IH; [| done]. intros t Ht. apply Hf. by right.
Qed.

Lemma dseg_node h p xs1 t xs2 q :
  dseg h p (xs1 ++ t :: xs2) q -> exists n, h !! t = Some n /\ prev n = lst xs1 p /\ next n = nxt xs2 q.
Proof. rewrite dseg_app. cbn. naive_solver. Qed.

(** The first node gets a new predecessor, the last one a new successor. *)
Lemma dseg_set_prev h p p' x xs q n :
  x ∉ xs -> h !! x = Some n -> dseg h p (x :: xs) q -> dseg (<[x := set_prev p' n]> h) p' (x :: xs) q.
Proof.
  intros Hx Hn [(n' & Hn' & _ & Hq) Hs]. cbn. split.
  - exists (set_prev p' n). rewrite lookup_insert_eq. replace n' with n in Hq by congruence. done.
  - eapply dseg_frame; [| exact Hs]. intros t Ht. apply lookup_insert_ne. by intros <-.
Qed.

Lemma dseg_set_next h p xs x q q' n :
  x ∉ xs -> h !! x = Some n -> dseg h p (xs ++ [x]) q -> dseg (<[x := set_next q' n]> h) p (xs ++ [x]) q'.
Proof.
  rewrite !dseg_app. cbn. intros Hx Hn [Hs [(n' & Hn' & Hp & _) _]]. split.
  - eapply dseg_frame; [| exact Hs]. intros t Ht. apply lookup_insert_ne. by intros <-.
  - split; [| done]. exists (set_next q' n). rewrite lookup_insert_eq. replace n' with n in Hp by congruence. done.
Qed.

(** ** Lists *)

Record dll (h : heap) (l : thread_list) (xs : list ptr) : Prop := {
  dl_nodup : NoDup xs;
  dl_head : head l = nxt xs None;
  dl_tail : tail l = lst xs None;
  dl_count : count l = Z.of_nat (length xs);
  dl_seg : dseg h None xs None }.

(** A node without its links. *)
Record pay := mk_pay { p_type : Z; p_add : Z; p_func : Z; p_arg : Z; p_u : uval }.
Definition payload (n : thread) : pay := mk_pay (t_type n) (add_type n) (func n) (arg n) (u n).

(** [h'] differs from [h] at most in the links of the nodes [xs]. *)
Definition relinked (h h' : heap) (xs : list ptr) : Prop :=
  (forall q, q ∉ xs -> h' !! q = h !! q) /\ (forall q, payload <$> h' !! q = payload <$> h !! q).

Lemma relinked_refl h xs : relinked h h xs.
Proof. done. Qed.

Lemma relinked_trans h h1 h2 xs : relinked h h1 xs -> relinked h1 h2 xs -> relinked h h2 xs.
Proof. intros [A1 B1] [A2 B2]. split; intros q; [intros Hq; by rewrite A2, A1 | by rewrite B2, B1]. Qed.

Lemma relinked_insert h xs t n n' : h !! t = Some n -> t ∈ xs -> payload n' = payload n -> relinked h (<[t := n']> h) xs.
Proof.
  intros Hn Ht Hp. split; intros q.
  - intros Hq. apply lookup_insert_ne. by intros <-.
  - destruct (decide (q = t)) as [-> | Hne]; [| by rewrite lookup_insert_ne]. rewrite lookup_insert_eq, Hn. cbn. by f_equal.
Qed.

Lemma upd_Ok h t n f : h !! t = Some n -> upd h t f = Ok (<[t := f n]> h).
Proof. intros H. unfold upd, get. by rewrite H. Qed.

Lemma get_Ok h t n : h !! t = Some n -> get h t = Ok n.
Proof. intros H. unfold get. by rewrite H. Qed.

Lemma dll_frame h h' l xs : (forall t, t ∈ xs -> h' !! t = h !! t) -> dll h l xs -> dll h' l xs.
Proof. intros Hf [A B C D E]. split; try done. by eapply dseg_frame. Qed.

Lemma dll_node h l xs t : dll h l xs -> t ∈ xs -> exists n, h !! t = Some n.
Proof.
  intros D Ht. apply list_elem_of_split in Ht as (xs1 & xs2 & ->). destruct (dseg_node _ _ _ _ _ _ (dl_seg _ _ _ D)) as (n & Hn & _). eauto.
Qed.

Lemma add_spec h l xs t n :
  dll h l xs -> t ∉ xs -> h !! t = Some n ->
  exists h' l', thread_list_add h l t = Ok (h', l') /\ dll h' l' (xs ++ [t]) /\ relinked h h' (t :: xs).
Proof.
  intros [ND HD TL CT SG] Ht Hn. unfold thread_list_add. rewrite (upd_Ok _ _ _ _ Hn). cbn [mbind res_bind].
  rewrite (upd_Ok _ _ (set_next None n)) by apply lookup_insert_eq. cbn [mbind res_bind]. rewrite insert_insert_eq.
  set (nt := set_prev (tail l) (set_next None n)). set (h1 := <[t := nt]> h).
  assert (relinked h h1 (t :: xs)) as R1 by (apply (relinked_insert _ _ _ n); [done | by left | done]).
  assert (dseg h1 None xs None) as S1 by (eapply dseg_frame; [| exact SG]; intros q Hq; apply lookup_insert_ne; by intros <-).
  assert (h1 !! t = Some nt) as Ht1 by apply lookup_insert_eq.
  assert (forall l' hd, hd = nxt (xs ++ [t]) None -> forall h', dseg h' None (xs ++ [t]) None -> l' = mk_list hd (Some t) (count l + 1) ->
    dll h' l' (xs ++ [t])) as Fin.
  { intros l' hd -> h' Hs ->. split; cbn; try done.
    - apply list.NoDup_app. split_and!; [done | | apply NoDup_singleton]. intros q Hq ->%list_elem_of_singleton. done.
    - by rewrite lst_snoc.
    - rewrite CT, length_app. cbn. lia. }
  destruct xs as [|p xs' _] using rev_ind.
  - cbn in TL. rewrite TL. cbn [mbind res_bind]. do 2 eexists. split; [done |]. split; [| done].
    eapply Fin; [done | | done]. cbn. split; [| done]. by exists nt.
  - rewrite lst_snoc in TL. rewrite TL. apply list.NoDup_app in ND as (ND' & Hnp & _).
    assert (p ∉ xs') as Hp by (intros Hp; apply (Hnp p Hp); by left).
    destruct (dseg_node h1 None xs' p [] None S1) as (np & Hnp1 & _). rewrite (upd_Ok _ _ _ _ Hnp1). cbn [mbind res_bind].
    do 2 eexists. split; [done |]. split.
    + eapply Fin; [| | done].
      * rewrite HD. by destruct xs'.
      * apply dseg_app. split.
        -- apply (dseg_set_next h1 None xs' p None); done.
        -- rewrite lst_snoc. cbn. split; [| done]. exists nt. by rewrite lookup_insert_ne by set_solver.
    + eapply relinked_trans; [exact R1 |]. apply (relinked_insert _ _ _ np); [done | set_solver | done].
Qed.

Lemma nodup_mid (xs1 : list ptr) t xs2 :
  NoDup (xs1 ++ t :: xs2) -> t ∉ xs1 /\ t ∉ xs2 /\ NoDup xs1 /\ NoDup xs2 /\ (forall q, q ∈ xs1 -> q ∉ xs2).
Proof.
  intros (N1 & N2 & N3)%list.NoDup_app. apply list.NoDup_cons in N3 as [N3 N4]. split_and!; try done.
  - intros H. apply (N2 t H). by left.
  - intros q H H'. apply (N2 q H). by right.
Qed.

Lemma nodup_remove (xs1 : list ptr) t xs2 : NoDup (xs1 ++ t :: xs2) -> NoDup (xs1 ++ xs2).
Proof. intros (_ & _ & N1 & N2 & N3)%nodup_mid. by apply list.NoDup_app. Qed.

(** A chain that ends before [t] gets a new successor, when it is not empty. *)
Lemma link_last h xs q q' t :
  dseg h None xs q -> NoDup xs -> t ∉ xs ->
  exists h', (match lst xs None with Some p => upd h p (set_next q') | None => Ok h end) = Ok h' /\
    dseg h' None xs q' /\ relinked h h' xs.
Proof.
  intros S N Ht. destruct xs as [|p xs _] using rev_ind; [by exists h |].
  rewrite lst_snoc. apply nodup_mid in N as (Hp & _). destruct (dseg_node _ _ _ _ _ _ S) as (np & Hnp & _).
  rewrite (upd_Ok _ _ _ _ Hnp). eexists. split; [done |]. split; [by eapply dseg_set_next |].
  apply (relinked_insert _ _ _ np); [done | set_solver | done].
Qed.

Lemma relinked_weaken h h' xs ys : (forall q, q ∈ xs -> q ∈ ys) -> relinked h h' xs -> relinked h h' ys.
Proof. intros Hs [A B]. split; [| done]. intros q Hq. apply A. auto. Qed.

Lemma add_before_spec h l xs1 point xs2 t n :
  dll h l (xs1 ++ point :: xs2) -> t ∉ xs1 ++ point :: xs2 -> h !! t = Some n ->
  exists h' l', thread_list_add_before h l point t = Ok (h', l') /\ dll h' l' (xs1 ++ t :: point :: xs2) /\
    relinked h h' (t :: xs1 ++ point :: xs2).
Proof.
  intros [ND HD TL CT SG] Ht Hn. pose proof ND as (P1 & P2 & N1 & N2 & N12)%nodup_mid.
  assert (t <> point /\ t ∉ xs1 /\ t ∉ xs2) as (Htp & Ht1 & Ht2) by set_solver.
  destruct (dseg_node _ _ _ _ _ _ SG) as (np & Hnp & Hprev & Hnext).
  unfold thread_list_add_before. rewrite (upd_Ok _ _ _ _ Hn). cbn [mbind res_bind].
  rewrite (get_Ok _ point np) by (by rewrite lookup_insert_ne). cbn [mbind res_bind].
  rewrite (upd_Ok _ _ (set_next (Some point) n)) by apply lookup_insert_eq. cbn [mbind res_bind]. rewrite insert_insert_eq.
  set (nt := set_prev (prev np) _). set (h1 := <[t := nt]> h).
  assert (h1 !! point = Some np) as Hnp1 by (unfold h1; by rewrite lookup_insert_ne).
  rewrite (get_Ok _ point np Hnp1). cbn [mbind res_bind]. rewrite Hprev.
  apply dseg_app in SG as [S1 S2]. cbn [nxt] in S1.
  assert (dseg h1 None xs1 (Some point)) as S1' by (eapply dseg_frame; [| exact S1]; intros q Hq; apply lookup_insert_ne; by intros <-).
  destruct (link_last h1 xs1 _ (Some t) t S1' N1 Ht1) as (h2 & E2 & S2' & [R2 R2']).
  assert (h2 !! t = Some nt) as Ht2' by (rewrite R2 by done; apply lookup_insert_eq).
  assert (h2 !! point = Some np) as Hp2 by (by rewrite R2).
  assert (exists hd, match lst xs1 None with
    | Some p => h ← upd h1 p (set_next (Some t)); Ok (h, head l)
    | None => Ok (h1, Some t) end = Ok (h2, hd) /\ hd = nxt (xs1 ++ t :: point :: xs2) None) as (hd & -> & Hhd).
  { destruct (lst xs1 None) as [p |] eqn:El.
    - rewrite E2. cbn. eexists. split; [done |]. rewrite HD. by destruct xs1.
    - injection E2 as <-. eexists. split; [done |]. destruct xs1 as [|x xs1]; [done |].
      rewrite lst_cons in El. unfold lst in El. by destruct (list.last xs1). }
  cbn [mbind res_bind]. rewrite (upd_Ok _ _ _ _ Hp2). cbn [mbind res_bind]. do 2 eexists. split; [done |].
  split.
  - split; cbn.
    + apply list.NoDup_app. split_and!; [done | set_solver |]. apply list.NoDup_cons. split; [set_solver |]. by apply list.NoDup_cons.
    + done.
    + rewrite TL. unfold lst. rewrite !last_app. by destruct xs2.
    + rewrite CT, !length_app. cbn. lia.
    + apply dseg_app. cbn [nxt]. split; [| split].
      * eapply dseg_frame; [| exact S2']. intros q Hq. apply lookup_insert_ne. by intros <-.
      * exists nt. rewrite lookup_insert_ne by done. split_and!; [exact Ht2' | exact Hprev | done].
      * eapply dseg_set_prev; [done | done |]. eapply (dseg_frame h); [| exact S2]. intros q Hq.
        rewrite R2 by set_solver. apply lookup_insert_ne. set_solver.
  - apply (relinked_trans _ h1); [apply (relinked_insert h _ t n); [done | by left | done] |].
    eapply relinked_trans; [apply (relinked_weaken h1 h2 xs1); [set_solver | by split] |].
    apply (relinked_insert _ _ _ np); [done | set_solver | done].
Qed.

Lemma delete_spec h l xs1 t xs2 :
  dll h l (xs1 ++ t :: xs2) ->
  exists h' l', thread_list_delete h l t = Ok (h', l') /\ dll h' l' (xs1 ++ xs2) /\ relinked h h' (xs1 ++ t :: xs2) /\
    (exists n, h' !! t = Some n /\ next n = None /\ prev n = None).
Proof.
  intros [ND HD TL CT SG]. pose proof ND as (P1 & P2 & N1 & N2 & N12)%nodup_mid.
  destruct (dseg_node _ _ _ _ _ _ SG) as (n & Hn & Hprev & Hnext). unfold thread_list_delete.
  rewrite (get_Ok _ _ _ Hn). cbn [mbind res_bind]. apply dseg_app in SG as [S1 [_ S2]]. cbn [nxt] in S1.
  (* the successor *)
  assert (exists h1 tl, match next n with
    | Some x => h0 ← upd h x (set_prev (prev n)); Ok (h0, tail l)
    | None => Ok (h, prev n) end = Ok (h1, tl) /\ tl = lst (xs1 ++ xs2) None /\ dseg h1 (lst xs1 None) xs2 None /\ relinked h h1 xs2)
    as (h1 & tl & -> & Htl & S2' & R1).
  { rewrite Hnext. destruct xs2 as [|x xs2]; cbn [nxt].
    - exists h, (prev n). rewrite app_nil_r, Hprev. done.
    - destruct S2 as [(nx & Hx & Hx1 & Hx2) S2]. rewrite (upd_Ok _ _ _ _ Hx). cbn. do 2 eexists. split; [done |].
      apply list.NoDup_cons in N2 as [Hxx _]. split_and!.
      + rewrite TL. unfold lst. rewrite !last_app. done.
      + exists (set_prev (prev n) nx). rewrite lookup_insert_eq. by rewrite <- Hprev.
      + eapply dseg_frame; [| exact S2]. intros q Hq. apply lookup_insert_ne. by intros <-.
      + apply (relinked_insert _ _ _ nx); [done | by left | done]. }
  cbn [mbind res_bind]. destruct R1 as [R1 R1']. assert (h1 !! t = Some n) as Hn1 by (by rewrite R1).
  rewrite (get_Ok _ _ _ Hn1). cbn [mbind res_bind]. rewrite Hprev, Hnext.
  assert (dseg h1 None xs1 (Some t)) as S1' by (eapply dseg_frame; [| exact S1]; intros q Hq; apply R1; by apply N12).
  destruct (link_last h1 xs1 _ (nxt xs2 None) t S1' N1 P1) as (h2 & E2 & S1'' & [R2 R2']).
  assert (exists hd, match lst xs1 None with
    | Some x => h0 ← upd h1 x (set_next (nxt xs2 None)); Ok (h0, head l)
    | None => Ok (h1, nxt xs2 None) end = Ok (h2, hd) /\ hd = nxt (xs1 ++ xs2) None) as (hd & -> & Hhd).
  { destruct (lst xs1 None) as [p |] eqn:El.
    - rewrite E2. cbn. eexists. split; [done |]. rewrite HD. destruct xs1; done.
    - injection E2 as <-. eexists. split; [done |]. destruct xs1 as [|x xs1]; [done |].
      rewrite lst_cons in El. unfold lst in El. by destruct (list.last xs1). }
  cbn [mbind res_bind]. assert (h2 !! t = Some n) as Hn2 by (by rewrite R2). rewrite (upd_Ok _ _ _ _ Hn2). cbn [mbind res_bind].
  do 2 eexists. split; [done |]. split_and!.
  - split; cbn.
    + by eapply nodup_remove.
    + done.
    + done.
    + rewrite CT, !length_app. cbn. lia.
    + apply dseg_app. split.
      * eapply dseg_frame; [| exact S1'']. intros q Hq. apply lookup_insert_ne. by intros <-.
      * eapply dseg_frame; [| exact S2']. intros q Hq. rewrite lookup_insert_ne by (by intros <-). apply R2. set_solver.
  - eapply relinked_trans; [eapply (relinked_weaken h h1 xs2); [set_solver | by split] |].
    eapply relinked_trans; [eapply (relinked_weaken h1 h2 xs1); [set_solver | by split] |].
    apply (relinked_insert _ _ _ n); [done | set_solver | done].
  - eexists. by rewrite lookup_insert_eq.
Qed.
