(* ===== verification/ThreadProofs.v ===== *)
(** * lib/thread.c: the scheduler's invariant

    [struct_ok m L]: the seven lists of the master link the nodes [L k], and no node is in two lists.
    [master_ok] adds what the nodes hold: the type of a thread tells its list, the watched descriptors are those of
    the read and write lists, the timers are sorted. *)

From stdpp Require Import sorting.
From S2P Require Import Prelude Thread ThreadLists.
Local Open Scope Z_scope.

Notation ptr := positive (only parsing).

(** ** Structure *)

Definition pl (m : thread_master) (t : ptr) : option pay := payload <$> mem m !! t.

Record struct_ok (m : thread_master) (L : lname -> list ptr) : Prop := {
  so_dll k : dll (mem m) (lists m k) (L k);
  so_disj k1 k2 t : t ∈ L k1 -> t ∈ L k2 -> k1 = k2 }.

Definition set_l (L : lname -> list ptr) (k : lname) (xs : list ptr) : lname -> list ptr :=
  fun j => if decide (j = k) then xs else L j.

Lemma set_l_eq L k xs : set_l L k xs k = xs.
Proof. unfold set_l. by rewrite decide_True. Qed.
Lemma set_l_ne L k xs j : j <> k -> set_l L k xs j = L j.
Proof. intros H. unfold set_l. by rewrite decide_False. Qed.

(** The parts of the master other than the nodes and the lists. *)
Definition same_rest (m m' : thread_master) : Prop := readfd m' = readfd m /\ writefd m' = writefd m /\ alloc m' = alloc m.

Definition links (n : thread) : option ptr * option ptr := (prev n, next n).

Lemma dseg_links (h h' : gmap positive thread) xs : forall p q,
  (forall t, t ∈ xs -> links <$> h' !! t = links <$> h !! t) -> dseg h p xs q -> dseg h' p xs q.
Proof.
  induction xs as [|x xs IH]; intros p q Hf; cbn; [done |]. intros [(n & Hn & H1 & H2) Hs]. split.
  - specialize (Hf x ltac:(by left)). rewrite Hn in Hf. cbn in Hf. destruct (h' !! x) as [n' |]; [| done].
    injection Hf as E1 E2. exists n'. by rewrite E1, E2.
  - apply IH; [| done]. intros t Ht. apply Hf. by right.
Qed.

(** Changing the contents of a node but not its links. *)
Lemma struct_set_node m L t n n' :
  struct_ok m L -> mem m !! t = Some n -> links n' = links n -> struct_ok (set_mem m (<[t := n']> (mem m))) L.
Proof.
  intros [D J] Hn Hl. split; [| done]. intros k. destruct (D k) as [A B C E F]. split; try done. cbn.
  eapply dseg_links; [| exact F]. intros q _. destruct (decide (q = t)) as [-> |]; [| by rewrite lookup_insert_ne].
  rewrite lookup_insert_eq, Hn. cbn. by rewrite Hl.
Qed.

Lemma pl_dom m m' t : pl m' t = pl m t -> is_Some (mem m !! t) -> is_Some (mem m' !! t).
Proof. unfold pl. intros H [n Hn]. rewrite Hn in H. destruct (mem m' !! t); [eauto | done]. Qed.

Lemma struct_node m L k t : struct_ok m L -> t ∈ L k -> is_Some (mem m !! t).
Proof. intros [D _] Ht. destruct (dll_node _ _ _ _ (D k) Ht) as [n Hn]. by exists n. Qed.

(** The other lists do not see what happens to the nodes of one list. *)
Lemma struct_relink m L k xs h l :
  struct_ok m L -> dll h l xs -> relinked (mem m) h (xs ++ L k) ->
  (forall j t, j <> k -> t ∈ L j -> t ∉ xs) -> struct_ok (set_list m k h l) (set_l L k xs).
Proof.
  intros [D J] Hd [R _] Hx. split.
  - intros j. cbn. destruct (decide (j = k)) as [-> | Hne]; [by rewrite set_l_eq |]. rewrite set_l_ne by done.
    eapply dll_frame; [| apply D]. intros t Ht. apply R. rewrite elem_of_app. intros [H | H]; [by apply (Hx j t) | by apply Hne, (J _ _ t)].
  - intros k1 k2 t. destruct (decide (k1 = k)) as [-> | N1], (decide (k2 = k)) as [-> | N2]; rewrite ?set_l_eq, ?set_l_ne by done; try done.
    + intros H1 H2. by destruct (Hx k2 t N2 H2).
    + intros H1 H2. by destruct (Hx k1 t N1 H1).
    + apply J.
Qed.

Lemma list_add_ok m L k t n :
  struct_ok m L -> mem m !! t = Some n -> (forall j, t ∉ L j) ->
  exists m', list_add m k t = Ok m' /\ struct_ok m' (set_l L k (L k ++ [t])) /\ (forall q, pl m' q = pl m q) /\ same_rest m m'.
Proof.
  intros S Hn Ht. pose proof S as [D _]. destruct (add_spec _ _ _ t n (D k) (Ht k) Hn) as (h & l & E & Hd & R).
  unfold list_add. rewrite E. cbn. eexists. split; [done |]. split; [| by split; [apply R |]].
  eapply struct_relink; [done | done | | ].
  - eapply relinked_weaken; [| exact R]. set_solver.
  - intros j q Hj Hq. rewrite elem_of_app, list_elem_of_singleton. intros [H | ->]; [| by apply (Ht j)].
    apply Hj. by apply (so_disj _ _ S j k q).
Qed.

Lemma list_add_before_ok m L k xs1 point xs2 t n :
  struct_ok m L -> L k = xs1 ++ point :: xs2 -> mem m !! t = Some n -> (forall j, t ∉ L j) ->
  exists m', list_add_before m k point t = Ok m' /\ struct_ok m' (set_l L k (xs1 ++ t :: point :: xs2)) /\
    (forall q, pl m' q = pl m q) /\ same_rest m m'.
Proof.
  intros S Ek Hn Ht. pose proof S as [D J]. pose proof (D k) as Dk. rewrite Ek in Dk. pose proof (Ht k) as Htk. rewrite Ek in Htk.
  destruct (add_before_spec _ _ _ _ _ t n Dk Htk Hn) as (h & l & E & Hd & R).
  unfold list_add_before. rewrite E. cbn. eexists. split; [done |]. split; [| by split; [apply R |]].
  eapply struct_relink; [done | done | | ].
  - eapply relinked_weaken; [| exact R]. set_solver.
  - intros j q Hj Hq H. assert (q = t \/ q ∈ L k) as [-> | H'] by (rewrite Ek; set_solver); [by apply (Ht j) |]. by apply Hj, (J j k q).
Qed.

Lemma list_delete_ok m L k xs1 t xs2 :
  struct_ok m L -> L k = xs1 ++ t :: xs2 ->
  exists m', list_delete m k t = Ok m' /\ struct_ok m' (set_l L k (xs1 ++ xs2)) /\ (forall q, pl m' q = pl m q) /\ same_rest m m' /\
    (exists n, mem m' !! t = Some n /\ next n = None /\ prev n = None) /\ (forall j, t ∉ set_l L k (xs1 ++ xs2) j).
Proof.
  intros S Ek. pose proof S as [D J]. pose proof (D k) as Dk. rewrite Ek in Dk.
  destruct (delete_spec _ _ _ _ _ Dk) as (h & l & E & Hd & R & Hn). pose proof (dl_nodup _ _ _ Dk) as (P1 & P2 & _)%nodup_mid.
  unfold list_delete. rewrite E. cbn. eexists. split; [done |]. split; [| split; [apply R |]; split; [done |]; split; [done |]].
  - eapply struct_relink; [done | done | | ].
    + eapply relinked_weaken; [| exact R]. rewrite Ek. set_solver.
    + intros j q Hj Hq H. apply Hj, (J j k q); [done |]. rewrite Ek. set_solver.
  - intros j. destruct (decide (j = k)) as [-> | Hne]; [rewrite set_l_eq; set_solver |]. rewrite set_l_ne by done.
    intros H. apply Hne, (J j k t); [done |]. rewrite Ek. set_solver.
Qed.

(** ** Moving a thread to another list *)

Definition retype (ty : Z) (p : pay) : pay := mk_pay ty (p_add p) (p_func p) (p_arg p) (p_u p).

Definition moved (L : lname -> list ptr) (k : lname) (xs : list ptr) (k' : lname) (t : ptr) : lname -> list ptr :=
  set_l (set_l L k xs) k' (L k' ++ [t]).

(** ** Contents *)

(** The type of the threads of a list. *)
Definition list_type (k : lname) : Z :=
  match k with
  | LRead => THREAD_READ | LWrite => THREAD_WRITE | LTimer => THREAD_TIMER | LEvent => THREAD_EVENT
  | LReady => THREAD_READY | LUnuse => THREAD_UNUSED | LBackground => THREAD_BACKGROUND
  end.

Lemma list_type_inj k k' : list_type k = list_type k' -> k = k'.
Proof. destruct k, k'; done. Qed.

(** The descriptors of the threads of a list, in order; the deadlines likewise. *)
Definition fd_of (m : thread_master) (t : ptr) : option Z := p ← pl m t; match p_u p with Fd fd => Some fd | _ => None end.
Definition sands_of (m : thread_master) (t : ptr) : option timeval := p ← pl m t; match p_u p with Sands s => Some s | _ => None end.

Definition tv_le (a b : timeval) : Prop := timeval_cmp a b <= 0.

(** [fds] are exactly the descriptors of the threads [xs], all different and of an [fd_set]. *)
Definition watches (m : thread_master) (xs : list ptr) (fds : gset Z) : Prop :=
  exists l, fd_of m <$> xs = Some <$> l /\ NoDup l /\ (forall fd, fd ∈ fds <-> fd ∈ l) /\ forall fd, fd ∈ fds -> fd_valid fd = true.

(** The threads [xs] have deadlines, in order. *)
Definition ordered (m : thread_master) (xs : list ptr) : Prop :=
  exists l, sands_of m <$> xs = Some <$> l /\ StronglySorted tv_le l.

(** The master with the thread [out] (if any) taken out of the lists. *)
Record master_but (out : option ptr) (m : thread_master) (L : lname -> list ptr) : Prop := {
  mo_struct : struct_ok m L;
  mo_type k t p : t ∈ L k -> pl m t = Some p -> p_type p = list_type k;
  mo_all t : is_Some (mem m !! t) -> out = Some t \/ exists k, t ∈ L k;
  mo_out t : out = Some t -> is_Some (mem m !! t) /\ forall k, t ∉ L k;
  mo_read : watches m (L LRead) (readfd m);
  mo_write : watches m (L LWrite) (writefd m);
  mo_timer : ordered m (L LTimer);
  mo_background : ordered m (L LBackground);
  mo_alloc : alloc m = Z.of_nat (size (mem m)) }.
Notation master_ok := (master_but None).

Lemma tv_le_trans a b c : tv_le a b -> tv_le b c -> tv_le a c.
Proof. unfold tv_le, timeval_cmp. repeat case_match; rewrite ?Z.eqb_eq, ?Z.eqb_neq in *; lia. Qed.
Lemma tv_le_total a b : tv_le a b \/ tv_le b a.
Proof. unfold tv_le, timeval_cmp. repeat case_match; rewrite ?Z.eqb_eq, ?Z.eqb_neq in *; lia. Qed.

Lemma watches_ext m m' xs fds : (forall t, t ∈ xs -> fd_of m' t = fd_of m t) -> watches m xs fds -> watches m' xs fds.
Proof.
  intros He (l & E & R). exists l. split; [| done]. rewrite <- E. apply list_fmap_ext. intros i t Ht. apply He. by eapply list_elem_of_lookup_2.
Qed.
Lemma ordered_ext m m' xs : (forall t, t ∈ xs -> sands_of m' t = sands_of m t) -> ordered m xs -> ordered m' xs.
Proof.
  intros He (l & E & R). exists l. split; [| done]. rewrite <- E. apply list_fmap_ext. intros i t Ht. apply He. by eapply list_elem_of_lookup_2.
Qed.

Lemma fmap_Some_split {A B} (f : A -> option B) xs1 x xs2 l :
  f <$> (xs1 ++ x :: xs2) = Some <$> l ->
  exists l1 y l2, l = l1 ++ y :: l2 /\ f <$> xs1 = Some <$> l1 /\ f x = Some y /\ f <$> xs2 = Some <$> l2.
Proof.
  intros E. rewrite fmap_app, fmap_cons in E. symmetry in E. apply fmap_app_inv in E as (l1 & l' & E1 & E2 & ->).
  symmetry in E2. apply fmap_cons_inv in E2 as (y & l2 & E2 & E3 & ->). exists l1, y, l2. by rewrite <- E2.
Qed.

Lemma watches_remove m xs1 t xs2 fds :
  watches m (xs1 ++ t :: xs2) fds -> exists fd, fd_of m t = Some fd /\ (fd ∈ fds /\ fd_valid fd = true) /\ watches m (xs1 ++ xs2) (fds ∖ {[fd]}).
Proof.
  intros (l & E & N & Hf & Hv). apply fmap_Some_split in E as (l1 & fd & l2 & -> & E1 & Et & E2). exists fd.
  assert (fd ∈ fds) as Hin by (apply Hf; set_solver). split; [done |]. split; [auto |]. exists (l1 ++ l2). split; [by rewrite !fmap_app, E1, E2 |].
  apply list.NoDup_app in N as (N1 & N2 & N3). apply list.NoDup_cons in N3 as [N3 N4]. split; [| split].
  - apply list.NoDup_app. split_and!; set_solver.
  - intros x. rewrite elem_of_difference, Hf, !elem_of_app, elem_of_cons, elem_of_singleton. set_solver.
  - intros x [Hx _]%elem_of_difference. by apply Hv.
Qed.

Lemma watches_snoc m xs t fds fd :
  watches m xs fds -> fd_of m t = Some fd -> fd ∉ fds -> fd_valid fd = true -> watches m (xs ++ [t]) ({[fd]} ∪ fds).
Proof.
  intros (l & E & N & Hf & Hv) Et Hn Hfd. exists (l ++ [fd]). split; [by rewrite !fmap_app, E; cbn; rewrite Et |]. split; [| split].
  - apply list.NoDup_app. split_and!; [done | | apply NoDup_singleton]. intros x Hx ->%list_elem_of_singleton. apply Hn. by apply Hf.
  - intros x. rewrite elem_of_union, Hf, elem_of_app, elem_of_singleton, list_elem_of_singleton. tauto.
  - intros x [->%elem_of_singleton | Hx]%elem_of_union; auto.
Qed.

Lemma sorted_app_remove l1 y l2 : StronglySorted tv_le (l1 ++ y :: l2) -> StronglySorted tv_le (l1 ++ l2).
Proof. intros (H1 & H2 & H3)%StronglySorted_app. apply StronglySorted_app. inversion H3; subst. split_and!; [| done | done]. intros a b Ha Hb. apply H1; set_solver. Qed.

(** ** Taking a thread out and putting it in *)

Lemma pl_size m m' : (forall q, pl m' q = pl m q) -> size (mem m') = size (mem m).
Proof.
  intros H. rewrite <- !size_dom. f_equal. apply set_eq. intros q. rewrite !elem_of_dom.
  specialize (H q). unfold pl in H. destruct (mem m !! q), (mem m' !! q); naive_solver.
Qed.

Lemma fd_of_pl m m' t : pl m' t = pl m t -> fd_of m' t = fd_of m t.
Proof. intros H. unfold fd_of. by rewrite H. Qed.
Lemma sands_of_pl m m' t : pl m' t = pl m t -> sands_of m' t = sands_of m t.
Proof. intros H. unfold sands_of. by rewrite H. Qed.

(** The watched descriptors when [t] leaves list [k]. *)
Definition unwatch (m : thread_master) (k k' : lname) (t : ptr) (fds : gset Z) : gset Z :=
  if decide (k = k') then match fd_of m t with Some fd => fds ∖ {[fd]} | None => fds end else fds.

Lemma ordered_remove m xs1 t xs2 : ordered m (xs1 ++ t :: xs2) -> ordered m (xs1 ++ xs2).
Proof.
  intros (l & E & S). apply fmap_Some_split in E as (l1 & s & l2 & -> & E1 & Et & E2). exists (l1 ++ l2).
  split; [by rewrite !fmap_app, E1, E2 | by eapply sorted_app_remove].
Qed.

Lemma take_out m m' L k xs1 t xs2 :
  master_ok m L -> L k = xs1 ++ t :: xs2 -> struct_ok m' (set_l L k (xs1 ++ xs2)) ->
  (forall q, pl m' q = pl m q) -> (forall j, t ∉ set_l L k (xs1 ++ xs2) j) -> alloc m' = alloc m ->
  readfd m' = unwatch m k LRead t (readfd m) -> writefd m' = unwatch m k LWrite t (writefd m) ->
  master_but (Some t) m' (set_l L k (xs1 ++ xs2)).
Proof.
  intros [S T A O R W TI BG AL] Ek S' P Hnot Ha Hr Hw.
  assert (t ∈ L k) as Htk by (rewrite Ek; set_solver).
  assert (forall j q, q ∈ set_l L k (xs1 ++ xs2) j -> q ∈ L j) as Hsub.
  { intros j q. destruct (decide (j = k)) as [-> |]; [rewrite set_l_eq, Ek; set_solver | by rewrite set_l_ne]. }
  assert (forall q, fd_of m' q = fd_of m q) as Hfd by (intros q; by apply fd_of_pl).
  assert (forall q, sands_of m' q = sands_of m q) as Hsa by (intros q; by apply sands_of_pl).
  assert (forall j fds, watches m (L j) fds -> watches m' (set_l L k (xs1 ++ xs2) j) (unwatch m k j t fds)) as HW.
  { intros j fds Hj. eapply watches_ext; [by intros; apply Hfd |]. unfold unwatch. destruct (decide (k = j)) as [<- | Hne].
    - rewrite set_l_eq. rewrite Ek in Hj. destruct (watches_remove _ _ _ _ _ Hj) as (fd & -> & _ & H). done.
    - by rewrite set_l_ne by done. }
  assert (forall j, ordered m (L j) -> ordered m' (set_l L k (xs1 ++ xs2) j)) as HO.
  { intros j Hj. eapply ordered_ext; [by intros; apply Hsa |]. destruct (decide (j = k)) as [-> | Hne]; [| by rewrite set_l_ne].
    rewrite set_l_eq. rewrite Ek in Hj. by eapply ordered_remove. }
  split; try done.
  - intros j q p Hq. rewrite P. apply T. by apply Hsub.
  - intros q Hq. destruct (decide (q = t)) as [-> | Hne]; [by left | right].
    destruct (A q) as [| [j Hj]]; [by eapply pl_dom; [symmetry; apply P |] | done |]. exists j.
    destruct (decide (j = k)) as [-> |]; [rewrite set_l_eq; rewrite Ek in Hj; set_solver | by rewrite set_l_ne].
  - intros q [= <-]. split; [| done]. eapply pl_dom; [apply P | by eapply struct_node].
  - rewrite Hr. by apply HW.
  - rewrite Hw. by apply HW.
  - by apply HO.
  - by apply HO.
  - rewrite Ha, AL. by rewrite (pl_size m m').
Qed.

(** The contents of the thread that is out change. *)
Lemma change_out m m' L t :
  master_but (Some t) m L -> struct_ok m' L -> (forall q, q <> t -> pl m' q = pl m q) -> is_Some (pl m' t) -> same_rest m m' ->
  size (mem m') = size (mem m) -> master_but (Some t) m' L.
Proof.
  intros [S T A O R W TI BG AL] S' P Ht (E1 & E2 & E3) Hsz. destruct (O t eq_refl) as [Hm Hnot].
  assert (forall j q, q ∈ L j -> pl m' q = pl m q) as HP by (intros j q Hq; apply P; intros ->; by apply (Hnot j)).
  split; try done.
  - intros j q p Hq. rewrite (HP j) by done. by apply T.
  - intros q Hq. destruct (decide (q = t)) as [-> | Hne]; [by left |]. apply A. eapply pl_dom; [symmetry; by apply P | done].
  - intros q [= <-]. split; [| done]. destruct Ht as [p Hp]. unfold pl in Hp. destruct (mem m' !! t); [eauto | done].
  - rewrite E1. eapply watches_ext; [| done]. intros q Hq. by eapply fd_of_pl, HP.
  - rewrite E2. eapply watches_ext; [| done]. intros q Hq. by eapply fd_of_pl, HP.
  - eapply ordered_ext; [| done]. intros q Hq. by eapply sands_of_pl, HP.
  - eapply ordered_ext; [| done]. intros q Hq. by eapply sands_of_pl, HP.
  - by rewrite E3, AL, Hsz.
Qed.

(** What a list asks of a new thread. *)
Definition fits (m m' : thread_master) (k : lname) (xs1 : list ptr) (t : ptr) (xs2 : list ptr) : Prop :=
  match k with
  | LRead => xs2 = [] /\ (exists fd, fd_of m t = Some fd /\ fd ∉ readfd m /\ fd_valid fd = true /\ readfd m' = {[fd]} ∪ readfd m) /\ writefd m' = writefd m
  | LWrite => xs2 = [] /\ (exists fd, fd_of m t = Some fd /\ fd ∉ writefd m /\ fd_valid fd = true /\ writefd m' = {[fd]} ∪ writefd m) /\ readfd m' = readfd m
  | LTimer | LBackground => ordered m (xs1 ++ t :: xs2) /\ readfd m' = readfd m /\ writefd m' = writefd m
  | _ => readfd m' = readfd m /\ writefd m' = writefd m
  end.

Lemma put_in m m' L t k xs1 xs2 :
  master_but (Some t) m L -> L k = xs1 ++ xs2 -> struct_ok m' (set_l L k (xs1 ++ t :: xs2)) -> (forall q, pl m' q = pl m q) ->
  (forall p, pl m t = Some p -> p_type p = list_type k) -> alloc m' = alloc m -> fits m m' k xs1 t xs2 ->
  master_ok m' (set_l L k (xs1 ++ t :: xs2)).
Proof.
  intros [S T A O R W TI BG AL] Ek S' P Hty Ha Hfit.
  assert (forall q, fd_of m' q = fd_of m q) as Hfd by (intros q; by apply fd_of_pl).
  assert (forall q, sands_of m' q = sands_of m q) as Hsa by (intros q; by apply sands_of_pl).
  assert (forall j, j <> k -> set_l L k (xs1 ++ t :: xs2) j = L j) as Hoth by (intros; by apply set_l_ne).
  split; try done.
  - intros j q p Hq. rewrite P. destruct (decide (j = k)) as [-> |]; [| rewrite Hoth in Hq by done; by apply T].
    rewrite set_l_eq in Hq. intros Hp. destruct (decide (q = t)) as [-> |]; [by apply Hty |].
    apply (T k q p); [rewrite Ek; set_solver | done].
  - intros q Hq. right. destruct (A q) as [[= ->] | [j Hj]]; [by eapply pl_dom; [symmetry; apply P |] | |].
    + exists k. rewrite set_l_eq. set_solver.
    + exists j. destruct (decide (j = k)) as [-> |]; [rewrite set_l_eq; rewrite Ek in Hj; set_solver | by rewrite Hoth].
  - destruct (decide (k = LRead)) as [-> | Hk].
    + destruct Hfit as (-> & (fd & Ht & Hfn & Hfv & ->) & _). rewrite set_l_eq. rewrite app_nil_r in Ek. rewrite Ek in R.
      eapply watches_ext; [by intros; apply Hfd |]. by apply watches_snoc.
    + rewrite Hoth by done. assert (readfd m' = readfd m) as -> by (destruct k; cbn in Hfit; naive_solver).
      eapply watches_ext; [by intros; apply Hfd | done].
  - destruct (decide (k = LWrite)) as [-> | Hk].
    + destruct Hfit as (-> & (fd & Ht & Hfn & Hfv & ->) & _). rewrite set_l_eq. rewrite app_nil_r in Ek. rewrite Ek in W.
      eapply watches_ext; [by intros; apply Hfd |]. by apply watches_snoc.
    + rewrite Hoth by done. assert (writefd m' = writefd m) as -> by (destruct k; cbn in Hfit; naive_solver).
      eapply watches_ext; [by intros; apply Hfd | done].
  - eapply ordered_ext; [by intros; apply Hsa |]. destruct (decide (k = LTimer)) as [-> | Hk]; [rewrite set_l_eq; apply Hfit | by rewrite Hoth].
  - eapply ordered_ext; [by intros; apply Hsa |]. destruct (decide (k = LBackground)) as [-> | Hk]; [rewrite set_l_eq; apply Hfit | by rewrite Hoth].
  - rewrite Ha, AL. by rewrite (pl_size m m').
Qed.

(** ** Moving threads *)

(** [m] is [m0] with the descriptor of [t] no longer watched, when [t] is in list [k]. *)
Definition cleared (m0 m : thread_master) (k : lname) (t : ptr) : Prop :=
  mem m = mem m0 /\ lists m = lists m0 /\ alloc m = alloc m0 /\
  readfd m = unwatch m0 k LRead t (readfd m0) /\ writefd m = unwatch m0 k LWrite t (writefd m0).

Lemma cleared_refl m k t : k <> LRead -> k <> LWrite -> cleared m m k t.
Proof. intros H1 H2. unfold cleared, unwatch. by rewrite !decide_False. Qed.

Lemma cleared_struct m0 m k t L : cleared m0 m k t -> struct_ok m0 L -> struct_ok m L.
Proof. intros (E1 & E2 & _) [D J]. split; [| done]. intros j. rewrite E1, E2. apply D. Qed.

Lemma retype_out m L t n ty :
  master_but (Some t) m L -> mem m !! t = Some n -> master_but (Some t) (set_mem m (<[t := set_t_type ty n]> (mem m))) L.
Proof.
  intros M Hn. eapply change_out; [done | eapply struct_set_node; [apply M | done | done] | | | done |].
  - intros q Hq. unfold pl. cbn. by rewrite lookup_insert_ne.
  - unfold pl. cbn. rewrite lookup_insert_eq. by eexists.
  - cbn. by apply map_size_insert_Some; rewrite Hn; eexists.
Qed.

(** The common part of [make_ready] and [retire]. *)
Lemma extract m0 m L k xs1 t xs2 ty :
  master_ok m0 L -> cleared m0 m k t -> L k = xs1 ++ t :: xs2 ->
  exists m1 n1, list_delete m k t = Ok m1 /\ upd (mem m1) t (set_t_type ty) = Ok (<[t := set_t_type ty n1]> (mem m1)) /\
    next n1 = None /\ prev n1 = None /\
    let m2 := set_mem m1 (<[t := set_t_type ty n1]> (mem m1)) in
    master_but (Some t) m2 (set_l L k (xs1 ++ xs2)) /\ pl m2 t = retype ty <$> pl m0 t /\ (forall q, q <> t -> pl m2 q = pl m0 q).
Proof.
  intros M C Ek. pose proof C as (C1 & C2 & C3 & C4 & C5).
  destruct (list_delete_ok m L k xs1 t xs2 (cleared_struct _ _ _ _ _ C (mo_struct _ _ _ M)) Ek) as (m1 & E1 & S1 & P1 & (R1 & R2 & R3) & (n1 & Hn1 & Hx & Hp) & Hnot).
  assert (forall q, pl m1 q = pl m0 q) as P0 by (intros q; rewrite P1; unfold pl; by rewrite C1).
  assert (master_but (Some t) m1 (set_l L k (xs1 ++ xs2))) as M1 by (eapply take_out; try done; congruence).
  exists m1, n1. split; [done |]. split; [by apply upd_Ok |]. split; [done |]. split; [done |]. cbn zeta. split; [by apply retype_out |]. split.
  - rewrite <- P0. unfold pl. cbn. by rewrite lookup_insert_eq, Hn1.
  - intros q Hq. rewrite <- P0. unfold pl. cbn. by rewrite lookup_insert_ne.
Qed.

Lemma make_ready_master m0 m L k xs1 t xs2 :
  master_ok m0 L -> cleared m0 m k t -> L k = xs1 ++ t :: xs2 -> k <> LReady ->
  exists m', make_ready m k t = Ok m' /\ master_ok m' (moved L k (xs1 ++ xs2) LReady t) /\
    pl m' t = retype THREAD_READY <$> pl m0 t /\ (forall q, q <> t -> pl m' q = pl m0 q) /\
    readfd m' = readfd m /\ writefd m' = writefd m.
Proof.
  intros M C Ek Hk. destruct (extract m0 m L k xs1 t xs2 THREAD_READY M C Ek) as (m1 & n1 & E1 & E2 & _ & _ & M2 & P2 & Q2).
  unfold make_ready. rewrite E1. cbn [mbind res_bind]. rewrite E2. cbn [mbind res_bind]. set (m2 := set_mem m1 _) in *.
  destruct (list_add_ok m2 _ LReady t (set_t_type THREAD_READY n1) (mo_struct _ _ _ M2)) as (m3 & E3 & S3 & P3 & (R3 & R4 & R5));
    [apply lookup_insert_eq | apply M2; done |].
  rewrite set_l_ne in S3 by done. exists m3. split; [done |]. split.
  - apply (put_in m2); try done. { by rewrite set_l_ne, app_nil_r by done. }
    intros p Hp. rewrite P2 in Hp. by apply fmap_Some in Hp as (p0 & _ & ->).
  - split; [by rewrite P3 |]. split; [intros q Hq; rewrite P3; by apply Q2 |].
    unfold list_delete in E1. destruct (thread_list_delete _ _ _) as [[h l]| |]; [| done | done]. injection E1 as <-. done.
Qed.

Lemma retire_master m0 m L k xs1 t xs2 :
  master_ok m0 L -> cleared m0 m k t -> L k = xs1 ++ t :: xs2 -> k <> LUnuse ->
  exists m', retire m k t = Ok m' /\ master_ok m' (moved L k (xs1 ++ xs2) LUnuse t) /\
    pl m' t = retype THREAD_UNUSED <$> pl m0 t /\ (forall q, q <> t -> pl m' q = pl m0 q).
Proof.
  intros M C Ek Hk. destruct (extract m0 m L k xs1 t xs2 THREAD_UNUSED M C Ek) as (m1 & n1 & E1 & E2 & Hx & Hp & M2 & P2 & Q2).
  unfold retire. rewrite E1. cbn [mbind res_bind]. rewrite E2. cbn [mbind res_bind]. set (m2 := set_mem m1 _) in *.
  assert (mem m2 !! t = Some (set_t_type THREAD_UNUSED n1)) as Ht2 by apply lookup_insert_eq.
  unfold thread_add_unuse. rewrite (get_Ok _ _ _ Ht2). cbn [mbind res_bind next prev set_t_type t_type]. rewrite Hx, Hp. cbn [c_assert mbind res_bind].
  rewrite Z.eqb_refl. cbn [c_assert mbind res_bind].
  destruct (list_add_ok m2 _ LUnuse t (set_t_type THREAD_UNUSED n1) (mo_struct _ _ _ M2)) as (m3 & E3 & S3 & P3 & (R3 & R4 & R5)); [done | apply M2; done |].
  rewrite set_l_ne in S3 by done. exists m3. split; [done |]. split.
  - apply (put_in m2); try done. { by rewrite set_l_ne, app_nil_r by done. }
    intros p Hp'. rewrite P2 in Hp'. by apply fmap_Some in Hp' as (p0 & _ & ->).
  - split; [by rewrite P3 |]. intros q Hq. rewrite P3. by apply Q2.
Qed.

(** ** New threads *)

Lemma head_dll m L k : struct_ok m L -> head (lists m k) = nxt (L k) None.
Proof. intros [D _]. apply (D k). Qed.

(** A node with new contents that is in no list. *)
Lemma set_out m L t n n' :
  master_but (Some t) m L -> mem m !! t = Some n -> links n' = links n -> master_but (Some t) (set_mem m (<[t := n']> (mem m))) L.
Proof.
  intros M Hn Hl. eapply change_out; [done | by eapply struct_set_node; [apply M | |] | | | done |].
  - intros q Hq. unfold pl. cbn. by rewrite lookup_insert_ne.
  - unfold pl. cbn. rewrite lookup_insert_eq. by eexists.
  - cbn. apply map_size_insert_Some. by rewrite Hn.
Qed.

Lemma alloc_out m L n :
  master_ok m L -> let t := fresh (dom (mem m)) in
  master_but (Some t) (mk_master (<[t := n]> (mem m)) (lists m) (readfd m) (writefd m) (alloc m + 1)) L /\ (forall q, q <> t -> pl m q = payload <$> <[t := n]> (mem m) !! q).
Proof.
  intros M t. assert (mem m !! t = None) as Hn by (apply not_elem_of_dom, is_fresh).
  assert (forall j, t ∉ L j) as Hnot by (intros j Hj; destruct (struct_node _ _ _ _ (mo_struct _ _ _ M) Hj); congruence).
  assert (forall q, q <> t -> pl m q = payload <$> <[t := n]> (mem m) !! q) as P by (intros q Hq; unfold pl; by rewrite lookup_insert_ne).
  split; [| done]. destruct M as [[D J] T A O R W TI BG AL].
  assert (forall j q, q ∈ L j -> pl (mk_master (<[t := n]> (mem m)) (lists m) (readfd m) (writefd m) (alloc m + 1)) q = pl m q) as HP.
  { intros j q Hq. unfold pl at 1. cbn. symmetry. apply P. intros ->. by apply (Hnot j). }
  split; cbn.
  - split; [| done]. intros k. eapply dll_frame; [| apply D]. intros q Hq. apply lookup_insert_ne. intros <-. by apply (Hnot k).
  - intros j q p Hq. rewrite (HP j) by done. by apply T.
  - intros q Hq. destruct (decide (q = t)) as [-> | Hne]; [by left |]. rewrite lookup_insert_ne in Hq by done.
    destruct (A q Hq) as [|]; [done | by right].
  - intros q [= <-]. rewrite lookup_insert_eq. by split.
  - eapply watches_ext; [| done]. intros q Hq. by eapply fd_of_pl, HP.
  - eapply watches_ext; [| done]. intros q Hq. by eapply fd_of_pl, HP.
  - eapply ordered_ext; [| done]. intros q Hq. by eapply sands_of_pl, HP.
  - eapply ordered_ext; [| done]. intros q Hq. by eapply sands_of_pl, HP.
  - rewrite map_size_insert_None by done. rewrite AL. lia.
Qed.

Lemma trim_head_out m L k t xs :
  master_ok m L -> L k = t :: xs -> k <> LRead -> k <> LWrite ->
  exists m', thread_trim_head m k = Ok (m', Some t) /\ master_but (Some t) m' (set_l L k xs) /\ (forall q, pl m' q = pl m q) /\
    same_rest m m' /\ (exists n, mem m' !! t = Some n /\ next n = None /\ prev n = None).
Proof.
  intros M Ek K1 K2. unfold thread_trim_head. rewrite (head_dll m L) by apply M. rewrite Ek. cbn [nxt].
  destruct (list_delete_ok m L k [] t xs (mo_struct _ _ _ M) Ek) as (m1 & E1 & S1 & P1 & (R1 & R2 & R3) & Hn & Hnot).
  rewrite E1. cbn. exists m1. split; [done |]. split; [| done]. apply (take_out m m1 L k [] t xs); try done.
  - rewrite R1. unfold unwatch. by rewrite decide_False.
  - rewrite R2. unfold unwatch. by rewrite decide_False.
Qed.

Lemma thread_get_ok m L ty fn a :
  master_ok m L ->
  exists m' t L' v, thread_get m ty fn a = Ok (m', t) /\ master_but (Some t) m' L' /\ (forall k, k <> LUnuse -> L' k = L k) /\
    pl m' t = Some (mk_pay ty ty fn a v) /\ (forall q, q <> t -> pl m' q = pl m q) /\ readfd m' = readfd m /\ writefd m' = writefd m.
Proof.
  intros M. unfold thread_get, thread_empty. rewrite (head_dll m L LUnuse) by apply M. destruct (L LUnuse) as [|t xs] eqn:Eu; cbn [nxt mbind res_bind].
  - set (n0 := mk_thread 0 0 None None 0 0 (Val 0)). destruct (alloc_out m L n0 M) as [M1 P1]. set (t := fresh (dom (mem m))) in *.
    set (m1 := mk_master _ _ _ _ _) in *. cbn [mem m1]. rewrite (upd_Ok _ t n0) by apply lookup_insert_eq. cbn [mbind res_bind].
    do 2 eexists. exists L. eexists. split; [done |]. split; [eapply (set_out m1 L t n0); [done | apply lookup_insert_eq | done] |].
    split; [done |]. unfold pl. cbn. split; [by rewrite lookup_insert_eq |]. split; [| done].
    intros q Hq. rewrite lookup_insert_ne by done. symmetry. by apply P1.
  - destruct (trim_head_out m L LUnuse t xs M Eu) as (m1 & E1 & M1 & P1 & (R1 & R2 & R3) & (n & Hn & _)); [done | done |].
    rewrite E1. cbn [mbind res_bind]. rewrite (upd_Ok _ _ _ _ Hn). cbn [mbind res_bind].
    do 2 eexists. exists (set_l L LUnuse xs). eexists. split; [done |]. split; [by eapply set_out |].
    split; [intros; by apply set_l_ne |]. unfold pl. cbn. split; [by rewrite lookup_insert_eq |]. split; [| done].
    intros q Hq. rewrite lookup_insert_ne by done. apply P1.
Qed.

(** The union of the new thread is set. *)
Lemma set_u_out m L t p v :
  master_but (Some t) m L -> pl m t = Some p ->
  exists h, upd (mem m) t (set_u v) = Ok h /\ master_but (Some t) (set_mem m h) L /\
    pl (set_mem m h) t = Some (mk_pay (p_type p) (p_add p) (p_func p) (p_arg p) v) /\ (forall q, q <> t -> pl (set_mem m h) q = pl m q).
Proof.
  intros M Hp. unfold pl in Hp. apply fmap_Some in Hp as (n & Hn & ->). rewrite (upd_Ok _ _ _ _ Hn). eexists. split; [done |].
  split; [by eapply set_out |]. unfold pl. cbn. split; [by rewrite lookup_insert_eq |]. intros q Hq. by rewrite lookup_insert_ne.
Qed.

Lemma list_len m L k : struct_ok m L -> (length (L k) <= size (mem m))%nat.
Proof.
  intros S. pose proof (dl_nodup _ _ _ (so_dll _ _ S k)) as N. rewrite <- (size_list_to_set (C := gset positive) _ N), <- size_dom.
  apply subseteq_size. intros t Ht. apply elem_of_list_to_set in Ht. apply elem_of_dom. by eapply struct_node.
Qed.

(** [t] goes to the end of list [k] of [mf], which is [m] up to the watched descriptors. *)
Lemma finish_add m mf L t k :
  master_but (Some t) m L -> mem mf = mem m -> lists mf = lists m -> alloc mf = alloc m ->
  (forall p, pl m t = Some p -> p_type p = list_type k) -> fits m mf k (L k) t [] ->
  exists m', list_add mf k t = Ok m' /\ master_ok m' (set_l L k (L k ++ [t])) /\ (forall q, pl m' q = pl m q) /\
    readfd m' = readfd mf /\ writefd m' = writefd mf.
Proof.
  intros M E1 E2 E3 Hty Hfit. destruct (mo_out _ _ _ M t eq_refl) as [[n Hn] Hnot].
  assert (struct_ok mf L) as Sf. { destruct (mo_struct _ _ _ M) as [D J]. split; [| done]. intros j. rewrite E1, E2. apply D. }
  destruct (list_add_ok mf L k t n Sf) as (m' & E & S' & P & (R1 & R2 & R3)); [by rewrite E1 | done |].
  assert (forall q, pl m' q = pl m q) as P' by (intros q; rewrite P; unfold pl; by rewrite E1).
  exists m'. split; [done |]. split; [| done]. apply (put_in m); try done.
  - by rewrite app_nil_r.
  - by rewrite R3.
  - destruct k; cbn in Hfit |- *; rewrite ?R1, ?R2; done.
Qed.

(** A new thread [t] with contents [p] was added to list [k]. *)
Record added (m : thread_master) (L : lname -> list ptr) (k : lname) (p : pay) (m' : thread_master) (t : ptr) (L' : lname -> list ptr) : Prop := {
  ad_ok : master_ok m' L';
  ad_new : pl m' t = Some p;
  ad_old q : q <> t -> pl m' q = pl m q;
  ad_lists j : j <> LUnuse -> j <> k -> L' j = L j;
  ad_fresh j : j <> LUnuse -> t ∉ L j }.

Lemma out_fresh m L L' t : master_but (Some t) m L' -> (forall k, k <> LUnuse -> L' k = L k) -> forall j, j <> LUnuse -> t ∉ L j.
Proof. intros M H j Hj. rewrite <- H by done. by apply M. Qed.

Lemma add_event_ok m L fn a v :
  master_ok m L ->
  exists m' t L', thread_add_event m fn a v = Ok (m', t) /\ added m L LEvent (mk_pay THREAD_EVENT THREAD_EVENT fn a (Val v)) m' t L' /\
    L' LEvent = L LEvent ++ [t].
Proof.
  intros M. unfold thread_add_event. destruct (thread_get_ok m L THREAD_EVENT fn a M) as (m1 & t & L1 & v1 & E1 & M1 & HL & P1 & Q1 & F1 & F2).
  rewrite E1. cbn [mbind res_bind]. destruct (set_u_out m1 L1 t _ (Val v) M1 P1) as (h & E2 & M2 & P2 & Q2). rewrite E2. cbn [mbind res_bind].
  destruct (finish_add _ (set_mem m1 h) L1 t LEvent M2) as (m3 & E3 & M3 & P3 & _); try done.
  { intros p Hp. rewrite P2 in Hp. by injection Hp as <-. }
  rewrite E3. cbn. do 2 eexists. exists (set_l L1 LEvent (L1 LEvent ++ [t])). split; [done |]. split; [| by rewrite set_l_eq, HL].
  split; [done | by rewrite P3, P2 | | |].
  - intros q Hq. by rewrite P3, Q2, Q1.
  - intros j H1 H2. by rewrite set_l_ne, HL.
  - by eapply out_fresh.
Qed.

(** The macros inside of an [fd_set]. *)
Lemma fd_macros fd set : fd_valid fd = true -> FD_ISSET fd set = Ok (bool_decide (fd ∈ set)) /\ FD_SET fd set = Ok ({[fd]} ∪ set) /\ FD_CLR fd set = Ok (set ∖ {[fd]}).
Proof. intros H. unfold FD_ISSET, FD_SET, FD_CLR. by rewrite H. Qed.

Lemma add_read_ok m L fn a fd :
  master_ok m L -> fd_valid fd = true ->
  exists m' r, thread_add_read m fn a fd = Ok (m', r) /\
    ((fd ∈ readfd m /\ r = None /\ m' = m) \/
     (fd ∉ readfd m /\ exists t L', r = Some t /\ added m L LRead (mk_pay THREAD_READ THREAD_READ fn a (Fd fd)) m' t L' /\ L' LRead = L LRead ++ [t])).
Proof.
  intros M Hv. unfold thread_add_read. rewrite (proj1 (fd_macros fd (readfd m) Hv)), bind_ret. destruct (decide (fd ∈ readfd m)) as [Hin | Hnin].
  { rewrite bool_decide_true by done. do 2 eexists. split; [done |]. by left. }
  rewrite bool_decide_false by done.
  destruct (thread_get_ok m L THREAD_READ fn a M) as (m1 & t & L1 & v1 & E1 & M1 & HL & P1 & Q1 & F1 & F2).
  rewrite E1. cbn [mbind res_bind]. rewrite (proj1 (proj2 (fd_macros fd _ Hv))), bind_ret. destruct (set_u_out m1 L1 t _ (Fd fd) M1 P1) as (h & E2 & M2 & P2 & Q2). rewrite E2. cbn [mbind res_bind].
  destruct (finish_add _ (mk_master h (lists m1) ({[fd]} ∪ readfd m1) (writefd m1) (alloc m1)) L1 t LRead M2) as (m3 & E3 & M3 & P3 & _); try done.
  { intros p Hp. rewrite P2 in Hp. by injection Hp as <-. }
  { split; [done |]. split; [| done]. exists fd. split; [unfold fd_of; by rewrite P2 |]. cbn. by rewrite F1. }
  rewrite E3. cbn. do 2 eexists. split; [done |]. right. split; [done |]. exists t, (set_l L1 LRead (L1 LRead ++ [t])).
  split; [done |]. split; [| by rewrite set_l_eq, HL]. split; [done | by rewrite P3, P2 | | |].
  - intros q Hq. by rewrite P3, Q2, Q1.
  - intros j H1 H2. by rewrite set_l_ne, HL.
  - by eapply out_fresh.
Qed.

Lemma add_write_ok m L fn a fd :
  master_ok m L -> fd_valid fd = true ->
  exists m' r, thread_add_write m fn a fd = Ok (m', r) /\
    ((fd ∈ writefd m /\ r = None /\ m' = m) \/
     (fd ∉ writefd m /\ exists t L', r = Some t /\ added m L LWrite (mk_pay THREAD_WRITE THREAD_WRITE fn a (Fd fd)) m' t L' /\ L' LWrite = L LWrite ++ [t])).
Proof.
  intros M Hv. unfold thread_add_write. rewrite (proj1 (fd_macros fd (writefd m) Hv)), bind_ret. destruct (decide (fd ∈ writefd m)) as [Hin | Hnin].
  { rewrite bool_decide_true by done. do 2 eexists. split; [done |]. by left. }
  rewrite bool_decide_false by done.
  destruct (thread_get_ok m L THREAD_WRITE fn a M) as (m1 & t & L1 & v1 & E1 & M1 & HL & P1 & Q1 & F1 & F2).
  rewrite E1. cbn [mbind res_bind]. rewrite (proj1 (proj2 (fd_macros fd _ Hv))), bind_ret. destruct (set_u_out m1 L1 t _ (Fd fd) M1 P1) as (h & E2 & M2 & P2 & Q2). rewrite E2. cbn [mbind res_bind].
  destruct (finish_add _ (mk_master h (lists m1) (readfd m1) ({[fd]} ∪ writefd m1) (alloc m1)) L1 t LWrite M2) as (m3 & E3 & M3 & P3 & _); try done.
  { intros p Hp. rewrite P2 in Hp. by injection Hp as <-. }
  { split; [done |]. split; [| done]. exists fd. split; [unfold fd_of; by rewrite P2 |]. cbn. by rewrite F2. }
  rewrite E3. cbn. do 2 eexists. split; [done |]. right. split; [done |]. exists t, (set_l L1 LWrite (L1 LWrite ++ [t])).
  split; [done |]. split; [| by rewrite set_l_eq, HL]. split; [done | by rewrite P3, P2 | | |].
  - intros q Hq. by rewrite P3, Q2, Q1.
  - intros j H1 H2. by rewrite set_l_ne, HL.
  - by eapply out_fresh.
Qed.

(** ** Timers *)

Lemma get_sands m t s : sands_of m t = Some s -> exists n, mem m !! t = Some n /\ as_sands n = Ok s /\ get (mem m) t = Ok n.
Proof.
  unfold sands_of, pl. destruct (mem m !! t) as [n |] eqn:Hn; [| done]. cbn. intros H. exists n. split; [done |].
  split; [| by apply get_Ok]. unfold as_sands. destruct (u n); [done | done | congruence].
Qed.

Lemma get_fd m t fd : fd_of m t = Some fd -> exists n, mem m !! t = Some n /\ as_fd n = Ok fd /\ get (mem m) t = Ok n.
Proof.
  unfold fd_of, pl. destruct (mem m !! t) as [n |] eqn:Hn; [| done]. cbn. intros H. exists n. split; [done |].
  split; [| by apply get_Ok]. unfold as_fd. destruct (u n); [done | congruence | done].
Qed.

Lemma find_point_ok m sands fuel : forall p xs l,
  dseg (mem m) p xs None -> sands_of m <$> xs = Some <$> l -> (length xs < fuel)%nat ->
  exists xs1 xs2 l1 l2, xs = xs1 ++ xs2 /\ l = l1 ++ l2 /\ length xs1 = length l1 /\ find_point fuel (mem m) sands (nxt xs None) = Ok (nxt xs2 None) /\
    Forall (fun s => tv_le s sands) l1 /\ match l2 with s :: _ => tv_le sands s | [] => True end.
Proof.
  induction fuel as [|fuel IH]; intros p xs l D E Hf; [lia |]. destruct xs as [|t xs]; cbn [find_point nxt].
  - destruct l; [| done]. by exists [], [], [], [].
  - destruct D as [(n & Hn & _ & Hnx) D]. destruct l as [|s l]; [done |]. rewrite fmap_cons in E. injection E as E1 E2.
    destruct (get_sands m t s E1) as (n' & Hn' & Hs & Hg). replace n' with n in * by congruence. rewrite Hg. cbn. rewrite Hs. cbn.
    destruct (Z.leb_spec (timeval_cmp sands s) 0) as [Hc | Hc].
    + exists [], (t :: xs), [], (s :: l). by split_and!.
    + rewrite Hnx. destruct (IH _ xs l D E2) as (xs1 & xs2 & l1 & l2 & -> & -> & Hl & E & F & G); [cbn in Hf; lia |].
      exists (t :: xs1), xs2, (s :: l1), l2. split_and!; try done; [cbn; lia |].
      constructor; [| done]. destruct (tv_le_total s sands) as [| H]; [done | unfold tv_le in H; lia].
Qed.


Lemma sorted_insert sands l1 l2 :
  StronglySorted tv_le (l1 ++ l2) -> Forall (fun s => tv_le s sands) l1 -> match l2 with s :: _ => tv_le sands s | [] => True end ->
  StronglySorted tv_le (l1 ++ sands :: l2).
Proof.
  intros (H1 & H2 & H3)%StronglySorted_app F G. rewrite list.Forall_forall in F.
  assert (forall s, s ∈ l2 -> tv_le sands s) as G2.
  { destruct l2 as [|s0 l2]; [intros s Hs; by apply elem_of_nil in Hs |]. apply StronglySorted_cons in H3 as [H3 _]. rewrite list.Forall_forall in H3.
    intros s [-> | Hs]%elem_of_cons; [done |]. eapply tv_le_trans; [exact G | by apply H3]. }
  apply StronglySorted_app. split_and!; [| done |].
  - intros a b Ha [-> | Hb]%elem_of_cons; [by apply F | by apply H1].
  - apply StronglySorted_cons. split; [| done]. by apply list.Forall_forall.
Qed.

Lemma add_timer_ok m L now fn ty a trel :
  master_ok m L -> ty = THREAD_TIMER \/ ty = THREAD_BACKGROUND ->
  let sands := timeval_adjust (mk_tv (tv_sec now + tv_sec trel) (tv_usec now + tv_usec trel)) in
  exists m' t L', thread_add_timer_timeval m now fn ty a trel = Ok (m', t) /\
    added m L (timer_list ty) (mk_pay ty ty fn a (Sands sands)) m' t L' /\
    exists xs1 xs2, L (timer_list ty) = xs1 ++ xs2 /\ L' (timer_list ty) = xs1 ++ t :: xs2.
Proof.
  intros M Hty sands. set (k := timer_list ty). unfold thread_add_timer_timeval. fold k.
  assert ((ty =? THREAD_TIMER) || (ty =? THREAD_BACKGROUND) = true /\ (k = LTimer \/ k = LBackground) /\ list_type k = ty) as (-> & Hk & Hkt)
    by (unfold k; destruct Hty as [-> | ->]; cbn; auto).
  cbn [c_assert mbind res_bind]. destruct (thread_get_ok m L ty fn a M) as (m1 & t & L1 & v1 & E1 & M1 & HL & P1 & Q1 & F1 & F2).
  assert (k <> LUnuse) as HkU by (destruct Hk as [-> | ->]; done).
  rewrite E1. cbn [mbind res_bind]. fold sands. destruct (set_u_out m1 L1 t _ (Sands sands) M1 P1) as (h & E2 & M2 & P2 & Q2). rewrite E2. cbn [mbind res_bind].
  set (m2 := set_mem m1 h) in *. rewrite (head_dll m2 L1) by apply M2.
  assert (ordered m2 (L1 k)) as (l & El & Sl) by (destruct Hk as [-> | ->]; apply M2).
  destruct (find_point_ok m2 sands (S (size (mem m2))) None (L1 k) l) as (xs1 & xs2 & l1 & l2 & Ex & -> & Hlen & Ef & F & G);
    [apply (dl_seg _ _ _ (so_dll _ _ (mo_struct _ _ _ M2) k)) | done | pose proof (list_len m2 L1 k (mo_struct _ _ _ M2)); lia |].
  rewrite Ef. cbn [mbind res_bind]. rewrite Ex, !fmap_app in El. apply app_inj_1 in El as [El1 El2]; [| by rewrite !length_fmap].
  assert (ordered m2 (xs1 ++ t :: xs2)) as Ho.
  { exists (l1 ++ sands :: l2). split; [| by apply sorted_insert]. rewrite !fmap_app, El1. f_equal. rewrite fmap_cons, El2. cbn.
    f_equal. unfold sands_of. by rewrite P2. }
  destruct (mo_out _ _ _ M2 t eq_refl) as [[n Hn] Hnot].
  assert (exists m3, match nxt xs2 None with Some point => list_add_before m2 k point t | None => list_add m2 k t end = Ok m3 /\
    struct_ok m3 (set_l L1 k (xs1 ++ t :: xs2)) /\ (forall q, pl m3 q = pl m2 q) /\ same_rest m2 m3) as (m3 & E3 & S3 & P3 & (R1 & R2 & R3)).
  { destruct xs2 as [|point xs2]; cbn [nxt].
    - rewrite app_nil_r in Ex. destruct (list_add_ok m2 L1 k t n) as (m3 & ? & ? & ? & ?); [apply M2 | done | done |]. exists m3. by rewrite <- Ex.
    - destruct (list_add_before_ok m2 L1 k xs1 point xs2 t n) as (m3 & ? & ? & ? & ?); [apply M2 | done | done | done |]. by exists m3. }
  assert (master_ok m3 (set_l L1 k (xs1 ++ t :: xs2))) as M3.
  { apply (put_in m2); try done.
    - intros p Hp. rewrite P2 in Hp. by injection Hp as <-.
    - destruct Hk as [-> | ->]; done. }
  rewrite E3. cbn. do 2 eexists. exists (set_l L1 k (xs1 ++ t :: xs2)). split; [done |]. split.
  - split; [done | by rewrite P3, P2 | | |].
    + intros q Hq. by rewrite P3, Q2, Q1.
    + intros j H1 H2. by rewrite set_l_ne, HL.
    + by eapply out_fresh.
  - exists xs1, xs2. by rewrite set_l_eq, <- HL.
Qed.

(** ** Cancelling *)

Lemma moved_from L k xs k' t : k <> k' -> moved L k xs k' t k = xs.
Proof. intros H. unfold moved. by rewrite set_l_ne, set_l_eq. Qed.
Lemma moved_to L k xs k' t : moved L k xs k' t k' = L k' ++ [t].
Proof. apply set_l_eq. Qed.
Lemma moved_other L k xs k' t j : j <> k -> j <> k' -> moved L k xs k' t j = L j.
Proof. intros H1 H2. unfold moved. by rewrite !set_l_ne. Qed.

(** What a thread was created with; it is never changed while the thread is scheduled. *)
Definition core (p : pay) : Z * Z * Z * uval := (p_add p, p_func p, p_arg p, p_u p).
Definition core_of (m : thread_master) (t : ptr) : option (Z * Z * Z * uval) := core <$> pl m t.

Lemma core_retype m m' t ty : pl m' t = retype ty <$> pl m t -> core_of m' t = core_of m t.
Proof. intros H. unfold core_of. rewrite H. by destruct (pl m t). Qed.

Lemma core_moved m m' t ty :
  pl m' t = retype ty <$> pl m t -> (forall q, q <> t -> pl m' q = pl m q) -> forall q, core_of m' q = core_of m q.
Proof. intros H1 H2 q. destruct (decide (q = t)) as [-> |]; [by eapply core_retype | unfold core_of; by rewrite H2]. Qed.

Lemma cancel_ok m L t k :
  master_ok m L -> t ∈ L k ->
  exists m' L', thread_cancel m t = Ok m' /\ master_ok m' L' /\ (forall q, core_of m' q = core_of m q) /\
    if decide (k = LUnuse) then m' = m /\ L' = L
    else exists xs1 xs2, L k = xs1 ++ t :: xs2 /\ L' = moved L k (xs1 ++ xs2) LUnuse t.
Proof.
  intros M Ht. destruct (struct_node _ _ _ _ (mo_struct _ _ _ M) Ht) as [n Hn].
  assert (pl m t = Some (payload n)) as Hp by (unfold pl; by rewrite Hn).
  pose proof (mo_type _ _ _ M k t _ Ht Hp) as Hty. cbn in Hty.
  pose proof Ht as (xs1 & xs2 & Ek)%list_elem_of_split.
  assert (forall m1, cleared m m1 k t -> k <> LUnuse -> exists m' L', retire m1 k t = Ok m' /\ master_ok m' L' /\ (forall q, core_of m' q = core_of m q) /\
    if decide (k = LUnuse) then m' = m /\ L' = L else exists xs1 xs2, L k = xs1 ++ t :: xs2 /\ L' = moved L k (xs1 ++ xs2) LUnuse t) as Fin.
  { intros m1 C Hk. destruct (retire_master m m1 L k xs1 t xs2 M C Ek Hk) as (m' & E & M' & P1 & P2).
    do 2 eexists. split; [done |]. split; [done |]. split; [by eapply core_moved |]. rewrite decide_False by done. eauto. }
  unfold thread_cancel. rewrite (get_Ok _ _ _ Hn). cbn [mbind res_bind]. rewrite Hty.
  destruct k; cbn [list_type]; try (apply (Fin m); [by apply cleared_refl | done]).
  - pose proof (mo_read _ _ _ M) as W. rewrite Ek in W. destruct (watches_remove _ _ _ _ _ W) as (fd & Hfd & [Hin Hv] & _).
    destruct (get_fd m t fd Hfd) as (n' & Hn' & Ef & _). replace n' with n in * by congruence. cbn. rewrite Ef. cbn [mbind res_bind].
    destruct (fd_macros fd (readfd m) Hv) as (-> & _ & ->). rewrite bind_ret, bool_decide_eq_true_2 by done. cbn [c_assert mbind res_bind]. apply Fin; [| done].
    unfold cleared, unwatch. cbn. by rewrite Hfd.
  - pose proof (mo_write _ _ _ M) as W. rewrite Ek in W. destruct (watches_remove _ _ _ _ _ W) as (fd & Hfd & [Hin Hv] & _).
    destruct (get_fd m t fd Hfd) as (n' & Hn' & Ef & _). replace n' with n in * by congruence. cbn. rewrite Ef. cbn [mbind res_bind].
    destruct (fd_macros fd (writefd m) Hv) as (-> & _ & ->). rewrite bind_ret, bool_decide_eq_true_2 by done. cbn [c_assert mbind res_bind]. apply Fin; [| done].
    unfold cleared, unwatch. cbn. by rewrite Hfd.
  - cbn. exists m, L. done.
Qed.

(** The node of [t], and what follows it. *)
Lemma node_at m L k xs1 t xs2 :
  struct_ok m L -> L k = xs1 ++ t :: xs2 -> exists n, mem m !! t = Some n /\ get (mem m) t = Ok n /\ next n = nxt xs2 None.
Proof.
  intros S Ek. pose proof (dl_seg _ _ _ (so_dll _ _ S k)) as D. rewrite Ek in D. destruct (dseg_node _ _ _ _ _ _ D) as (n & Hn & _ & Hx).
  exists n. split; [done |]. split; [by apply get_Ok | done].
Qed.

(** Is [a] the argument of [t]? *)
Definition has_arg (m : thread_master) (a : Z) (t : ptr) : Prop := exists p, pl m t = Some p /\ p_arg p = a.
Global Instance has_arg_dec m a t : Decision (has_arg m a t).
Proof.
  destruct (pl m t) as [p |] eqn:E; [destruct (decide (p_arg p = a)) |].
  - left. by exists p.
  - right. intros (q & Hq & Ha). congruence.
  - right. intros (q & Hq & Ha). congruence.
Defined.

Lemma has_arg_core m m' a t : core_of m' t = core_of m t -> has_arg m' a t <-> has_arg m a t.
Proof.
  unfold core_of, has_arg, core. intros H. destruct (pl m t) as [p |], (pl m' t) as [p' |]; cbn in H; try done.
  injection H as _ _ E _. split; intros (x & [= <-] & Ha); eexists; (split; [done |]); congruence.
Qed.

Lemma cancel_event_loop_ok a fuel : forall m L kept ys ret,
  master_ok m L -> L LEvent = kept ++ ys -> (length ys < fuel)%nat ->
  exists m' L' ret', cancel_event_loop fuel m a (nxt ys None) ret = Ok (m', ret') /\ master_ok m' L' /\
    L' LEvent = kept ++ filter (fun t => ~ has_arg m a t) ys /\ (forall j, j <> LEvent -> j <> LUnuse -> L' j = L j) /\
    (forall q, core_of m' q = core_of m q).
Proof.
  induction fuel as [|fuel IH]; intros m L kept ys ret M Ek Hf; [lia |]. destruct ys as [|t ys]; cbn [nxt cancel_event_loop].
  - exists m, L, ret. done.
  - destruct (node_at m L LEvent kept t ys (mo_struct _ _ _ M) Ek) as (n & Hn & Hg & Hx). rewrite Hg. cbn [mbind res_bind]. rewrite Hx.
    assert (has_arg m a t <-> arg n = a) as Ha.
    { unfold has_arg, pl. rewrite Hn. cbn. split; [intros (p & [= <-] & E); done | eauto]. }
    cbn in Hf. rewrite filter_cons. destruct (Z.eqb_spec (arg n) a) as [E | E].
    + rewrite decide_False by tauto. destruct (retire_master m m L LEvent kept t ys M) as (m1 & E1 & M1 & P1 & P2); [by apply cleared_refl | done | done |].
      rewrite E1. cbn [mbind res_bind]. pose proof (core_moved _ _ _ _ P1 P2) as C1.
      destruct (IH m1 _ kept ys (ret + 1) M1) as (m2 & L2 & r2 & E2 & M2 & F2 & O2 & C2); [by apply moved_from | lia |].
      exists m2, L2, r2. split; [done |]. split; [done |]. split; [| split].
      * rewrite F2. f_equal. apply list_filter_iff. intros q. by rewrite (has_arg_core m m1) by apply C1.
      * intros j H1 H2. by rewrite O2, moved_other.
      * intros q. by rewrite C2, C1.
    + rewrite decide_True by tauto. destruct (IH m L (kept ++ [t]) ys ret M) as (m2 & L2 & r2 & E2 & M2 & F2 & O2 & C2); [by rewrite Ek, <- app_assoc | lia |].
      exists m2, L2, r2. split; [done |]. split; [done |]. split; [by rewrite F2, <- app_assoc | done].
Qed.
