(* ===== verification/ThreadFetch.v ===== *)
(** * lib/thread.c: fetching threads

    What the loops of [thread_fetch] do to the lists, and the theorems about the scheduler: its invariant, that
    every scheduled event runs after a bounded number of fetches, that timers never run early, and
    what [thread_cancel_event] leaves behind. *)

From stdpp Require Import sorting.
From S2P Require Import Prelude Thread ThreadLists ThreadProofs.
Local Open Scope Z_scope.

Notation ptr := positive (only parsing).
Notation master_ok := (master_but None).

(** [m'] is [m] after threads became ready: [extra] were added to the ready list, taken from the lists [ks]. *)
Record advanced (ks : list lname) (m : thread_master) (L : lname -> list ptr) (m' : thread_master) (L' : lname -> list ptr) (extra : list ptr) : Prop := {
  av_ok : master_ok m' L';
  av_ready : L' LReady = L LReady ++ extra;
  av_other j : j ∉ ks -> j <> LReady -> L' j = L j;
  av_core q : core_of m' q = core_of m q }.

Lemma advanced_refl ks m L : master_ok m L -> advanced ks m L m L [].
Proof. intros M. split; try done. by rewrite app_nil_r. Qed.

Lemma advanced_trans ks1 ks2 m L m1 L1 m2 L2 e1 e2 :
  advanced ks1 m L m1 L1 e1 -> advanced ks2 m1 L1 m2 L2 e2 -> advanced (ks1 ++ ks2) m L m2 L2 (e1 ++ e2).
Proof.
  intros [M1 R1 O1 C1] [M2 R2 O2 C2]. split; [done | by rewrite R2, R1, app_assoc | |].
  - intros j Hj HR. rewrite O2, O1; set_solver.
  - intros q. by rewrite C2, C1.
Qed.

Lemma advanced_weaken ks ks' m L m' L' e : (forall j, j ∈ ks -> j ∈ ks') -> advanced ks m L m' L' e -> advanced ks' m L m' L' e.
Proof. intros H [M R O C]. split; try done. intros j Hj HR. apply O; auto. Qed.

(** One thread becomes ready. *)
Lemma make_ready_advanced m0 m L k xs1 t xs2 :
  master_ok m0 L -> cleared m0 m k t -> L k = xs1 ++ t :: xs2 -> k <> LReady ->
  exists m', make_ready m k t = Ok m' /\ advanced [k] m0 L m' (moved L k (xs1 ++ xs2) LReady t) [t] /\
    readfd m' = readfd m /\ writefd m' = writefd m.
Proof.
  intros M C Ek Hk. destruct (make_ready_master m0 m L k xs1 t xs2 M C Ek Hk) as (m' & E & M' & P1 & P2 & F1 & F2).
  exists m'. split; [done |]. split; [| done]. split; [done | by rewrite moved_to | | by eapply core_moved].
  intros j Hj HR. apply moved_other; set_solver.
Qed.

(** ** The loops *)

Lemma process_loop_ok fuel : forall m L ys ready,
  master_ok m L -> L LEvent = ys -> (length ys < fuel)%nat ->
  exists m' L' r, process_loop fuel LEvent m (nxt ys None) ready = Ok (m', r) /\ advanced [LEvent] m L m' L' ys /\ L' LEvent = [].
Proof.
  induction fuel as [|fuel IH]; intros m L ys ready M Ek Hf; [lia |]. destruct ys as [|t ys]; cbn [nxt process_loop].
  - exists m, L, ready. split; [done |]. split; [by apply advanced_refl | done].
  - destruct (node_at m L LEvent [] t ys (mo_struct _ _ _ M) Ek) as (n & Hn & Hg & Hx). rewrite Hg. cbn [mbind res_bind].
    destruct (make_ready_advanced m m L LEvent [] t ys M) as (m1 & E1 & A1 & _); [by apply cleared_refl | done | done |].
    rewrite E1. cbn [mbind res_bind]. rewrite Hx. cbn in Hf.
    destruct (IH m1 _ ys (ready + 1) (av_ok _ _ _ _ _ _ A1)) as (m2 & L2 & r & E2 & A2 & F2); [by apply moved_from | lia |].
    exists m2, L2, r. split; [done |]. split; [| done].
    eapply advanced_weaken; [| exact (advanced_trans _ _ _ _ _ _ _ _ _ _ A1 A2)]. set_solver.
Qed.

Lemma thread_process_ok m L :
  master_ok m L -> exists m' L' r, thread_process m LEvent = Ok (m', r) /\ advanced [LEvent] m L m' L' (L LEvent) /\ L' LEvent = [].
Proof.
  intros M. unfold thread_process. rewrite (head_dll m L) by apply M. apply process_loop_ok; [done | done |].
  pose proof (list_len m L LEvent (mo_struct _ _ _ M)). lia.
Qed.

(** The timers [due] have expired, those of [rest] have not. *)
Lemma timer_loop_ok k now fuel : forall m L ys l ready,
  k = LTimer \/ k = LBackground -> master_ok m L -> L k = ys -> sands_of m <$> ys = Some <$> l -> (length ys < fuel)%nat ->
  exists m' L' r due rest, timer_process_loop fuel k now m (nxt ys None) ready = Ok (m', r) /\ advanced [k] m L m' L' due /\
    ys = due ++ rest /\ L' k = rest /\ Forall (fun t => exists s, sands_of m t = Some s /\ tv_le s now) due.
Proof.
  intros m L ys l ready Hk. revert m L ys l ready. induction fuel as [|fuel IH]; intros m L ys l ready M Ek El Hf; [lia |].
  destruct ys as [|t ys]; cbn [nxt timer_process_loop].
  - exists m, L, ready, [], []. split; [done |]. split; [by apply advanced_refl |]. done.
  - destruct (node_at m L k [] t ys (mo_struct _ _ _ M) Ek) as (n & Hn & Hg & Hx). rewrite Hg. cbn [mbind res_bind].
    destruct l as [|s l]; [done |]. rewrite fmap_cons in El. injection El as El1 El2.
    destruct (get_sands m t s El1) as (n' & Hn' & Hs & _). replace n' with n in * by congruence. rewrite Hs. cbn [mbind res_bind].
    destruct (Z.ltb_spec (timeval_cmp now s) 0) as [Hc | Hc].
    { exists m, L, ready, [], (t :: ys). split; [done |]. split; [by apply advanced_refl |]. done. }
    assert (k <> LReady /\ k <> LRead /\ k <> LWrite) as (K1 & K2 & K3) by (destruct Hk as [-> | ->]; done).
    destruct (make_ready_advanced m m L k [] t ys M) as (m1 & E1 & A1 & _); [by apply cleared_refl | done | done |].
    rewrite E1. cbn [mbind res_bind]. rewrite Hx. cbn in Hf.
    assert (forall q, sands_of m1 q = sands_of m q) as Hsa.
    { intros q. pose proof (av_core _ _ _ _ _ _ A1 q) as C. unfold core_of, core, sands_of in *.
      destruct (pl m q) as [p |], (pl m1 q) as [p1 |]; cbn in *; try done. by injection C as _ _ _ ->. }
    destruct (IH m1 _ ys l (ready + 1) (av_ok _ _ _ _ _ _ A1)) as (m2 & L2 & r & due & rest & E2 & A2 & -> & F2 & G2);
      [by apply moved_from | etrans; [| exact El2]; apply list_fmap_ext; intros; apply Hsa | lia |].
    exists m2, L2, r, (t :: due), rest. split; [done |]. split; [| split_and!; [done | done |]].
    + eapply advanced_weaken; [| exact (advanced_trans _ _ _ _ _ _ _ _ _ _ A1 A2)]. set_solver.
    + constructor.
      * exists s. split; [done |]. destruct (tv_le_total s now) as [|H]; [done |]. unfold tv_le in *. revert Hc H. unfold timeval_cmp.
        destruct (Z.eqb_spec (tv_sec now) (tv_sec s)), (Z.eqb_spec (tv_sec s) (tv_sec now)); lia.
      * eapply Forall_impl; [| exact G2]. intros q (s' & Hs' & Hle). exists s'. by rewrite <- Hsa.
Qed.

Lemma timer_process_ok m L k now :
  k = LTimer \/ k = LBackground -> master_ok m L ->
  exists m' L' r due, thread_timer_process m k now = Ok (m', r) /\ advanced [k] m L m' L' due /\
    Forall (fun t => exists s, sands_of m t = Some s /\ tv_le s now) due.
Proof.
  intros Hk M. unfold thread_timer_process. rewrite (head_dll m L) by apply M.
  assert (ordered m (L k)) as (l & El & _) by (destruct Hk as [-> | ->]; apply M).
  destruct (timer_loop_ok k now (S (size (mem m))) m L (L k) l 0 Hk M eq_refl El) as (m' & L' & r & due & rest & E & A & _ & _ & F).
  - pose proof (list_len m L k (mo_struct _ _ _ M)). lia.
  - by exists m', L', r, due.
Qed.

(** The two watched sets, for the loop over a list of descriptors. *)
Definition fd_access (k : lname) (fds : thread_master -> gset Z) (set_fds : gset Z -> thread_master -> thread_master) : Prop :=
  (k = LRead /\ fds = readfd /\ set_fds = set_readfd) \/ (k = LWrite /\ fds = writefd /\ set_fds = set_writefd).

Lemma fd_cleared k fds set_fds m L xs1 t xs2 :
  fd_access k fds set_fds -> master_ok m L -> L k = xs1 ++ t :: xs2 ->
  exists fd, fd_of m t = Some fd /\ (fd ∈ fds m /\ fd_valid fd = true) /\ cleared m (set_fds (fds m ∖ {[fd]}) m) k t.
Proof.
  intros [(-> & -> & ->) | (-> & -> & ->)] M Ek.
  - pose proof (mo_read _ _ _ M) as W. rewrite Ek in W. destruct (watches_remove _ _ _ _ _ W) as (fd & Hfd & Hin & _).
    exists fd. split; [done |]. split; [done |]. unfold cleared, unwatch. cbn. by rewrite Hfd.
  - pose proof (mo_write _ _ _ M) as W. rewrite Ek in W. destruct (watches_remove _ _ _ _ _ W) as (fd & Hfd & Hin & _).
    exists fd. split; [done |]. split; [done |]. unfold cleared, unwatch. cbn. by rewrite Hfd.
Qed.

Lemma process_fd_loop_ok k fds set_fds fdset fuel : forall m L kept ys ready,
  fd_access k fds set_fds -> master_ok m L -> L k = kept ++ ys -> (length ys < fuel)%nat ->
  exists m' L' r extra, process_fd_loop fuel k fds set_fds fdset m (nxt ys None) ready = Ok (m', r) /\ advanced [k] m L m' L' extra.
Proof.
  intros m L kept ys ready Ac. assert (k <> LReady) as K1 by (destruct Ac as [(-> & _) | (-> & _)]; done). revert m L kept ys ready.
  induction fuel as [|fuel IH]; intros m L kept ys ready M Ek Hf; [lia |]. destruct ys as [|t ys]; cbn [nxt process_fd_loop].
  - exists m, L, ready, []. split; [done |]. by apply advanced_refl.
  - destruct (node_at m L k kept t ys (mo_struct _ _ _ M) Ek) as (n & Hn & Hg & Hx). rewrite Hg. cbn [mbind res_bind].
    destruct (fd_cleared _ _ _ _ _ _ _ _ Ac M Ek) as (fd & Hfd & [Hin Hv] & C).
    destruct (get_fd m t fd Hfd) as (n' & Hn' & Ef & _). replace n' with n in * by congruence. rewrite Ef. cbn [mbind res_bind]. cbn in Hf. rewrite Hx.
    rewrite (proj1 (fd_macros fd fdset Hv)), bind_ret. destruct (decide (fd ∈ fdset)) as [Hs | Hs]; [rewrite (bool_decide_eq_true_2 (fd ∈ fdset)) by done | rewrite (bool_decide_eq_false_2 (fd ∈ fdset)) by done].
    + destruct (fd_macros fd (fds m) Hv) as (-> & _ & ->). rewrite bind_ret, bool_decide_eq_true_2 by done. cbn [c_assert mbind res_bind].
      destruct (make_ready_advanced m _ L k kept t ys M C Ek K1) as (m1 & E1 & A1 & _). rewrite E1. cbn [mbind res_bind].
      destruct (IH m1 _ kept ys (ready + 1) (av_ok _ _ _ _ _ _ A1)) as (m2 & L2 & r & extra & E2 & A2); [by apply moved_from | lia |].
      exists m2, L2, r, ([t] ++ extra). split; [done |].
      eapply advanced_weaken; [| exact (advanced_trans _ _ _ _ _ _ _ _ _ _ A1 A2)]. set_solver.
    + apply (IH m L (kept ++ [t])); [done | by rewrite Ek, <- app_assoc | lia].
Qed.

Lemma process_fds_ok k fds set_fds m L fdset :
  fd_access k fds set_fds -> master_ok m L ->
  exists m' L' r extra, process_fd_loop (S (size (mem m))) k fds set_fds fdset m (head (lists m k)) 0 = Ok (m', r) /\ advanced [k] m L m' L' extra.
Proof.
  intros Ac M. rewrite (head_dll m L) by apply M. apply (process_fd_loop_ok _ _ _ _ _ m L [] (L k)); [done | done | done |].
  pose proof (list_len m L k (mo_struct _ _ _ M)). lia.
Qed.

Lemma collect_ok m L r :
  master_ok m L -> exists m' L' extra, collect m r = Ok m' /\ advanced [LTimer; LRead; LWrite; LBackground] m L m' L' extra.
Proof.
  intros M. unfold collect. destruct (timer_process_ok m L LTimer (r_after r)) as (m1 & L1 & c1 & e1 & E1 & A1 & _); [by left | done |].
  rewrite E1. cbn [mbind res_bind].
  assert (exists m2 L2 e2, (if r_num r >? 0 then '(m, _) ← process_read m1 (r_readfd r); '(m, _) ← process_write m (r_writefd r); Ok m else Ok m1) = Ok m2 /\
    advanced [LRead; LWrite] m1 L1 m2 L2 e2) as (m2 & L2 & e2 & E2 & A2).
  { destruct (r_num r >? 0).
    - unfold process_read. destruct (process_fds_ok LRead readfd set_readfd m1 L1 (r_readfd r)) as (ma & La & ca & ea & Ea & Aa); [by left | apply A1 |].
      rewrite Ea. cbn [mbind res_bind]. unfold process_write.
      destruct (process_fds_ok LWrite writefd set_writefd ma La (r_writefd r)) as (mb & Lb & cb & eb & Eb & Ab); [by right | apply Aa |].
      rewrite Eb. cbn [mbind res_bind]. exists mb, Lb, (ea ++ eb). split; [done |]. exact (advanced_trans _ _ _ _ _ _ _ _ _ _ Aa Ab).
    - exists m1, L1, []. split; [done |]. apply advanced_refl, A1. }
  rewrite E2. cbn [mbind res_bind].
  destruct (timer_process_ok m2 L2 LBackground (r_after r)) as (m3 & L3 & c3 & e3 & E3 & A3 & _); [by right | apply A2 |].
  rewrite E3. cbn [mbind res_bind]. exists m3, L3, (e1 ++ e2 ++ e3). split; [done |].
  exact (advanced_trans _ _ _ _ _ _ _ _ _ _ A1 (advanced_trans _ _ _ _ _ _ _ _ _ _ A2 A3)).
Qed.

Lemma timer_wait_ok m L k now : k = LTimer \/ k = LBackground -> master_ok m L -> exists w, thread_timer_wait m k now = Ok w.
Proof.
  intros Hk M. assert (ordered m (L k)) as (l & El & _) by (destruct Hk as [-> | ->]; apply M).
  unfold thread_timer_wait. rewrite (head_dll m L) by apply M. destruct (L k) as [|t ys]; cbn [nxt]; [by eexists |].
  destruct l as [|s l]; [done |]. rewrite fmap_cons in El. injection El as El1 El2.
  destruct (get_sands m t s El1) as (n & _ & Hs & Hg). rewrite Hg. cbn. rewrite Hs. cbn. by eexists.
Qed.

Lemma select_timeout_ok m L now tw : master_ok m L -> exists w, select_timeout m now tw = Ok w.
Proof.
  intros M. unfold select_timeout. destruct (_ =? 0); [| by eexists].
  destruct (timer_wait_ok m L LTimer now) as [w1 ->]; [by left | done |]. cbn [mbind res_bind].
  destruct (timer_wait_ok m L LBackground now) as [w2 ->]; [by right | done |]. cbn [mbind res_bind]. by eexists.
Qed.

Lemma trim_head_empty m L k : master_ok m L -> L k = [] -> thread_trim_head m k = Ok (m, None).
Proof. intros M E. unfold thread_trim_head. by rewrite (head_dll m L), E by apply M. Qed.

(** ** The queue *)

(** The order in which the threads that are ready or scheduled as events will run. *)
Definition queue (L : lname -> list ptr) : list ptr := L LReady ++ L LEvent.

(** The first ready thread runs. *)
Lemma take_ready m L t xs :
  master_ok m L -> L LReady = t :: xs ->
  exists m1 m2 n L2, thread_trim_head m LReady = Ok (m1, Some t) /\ thread_run m1 t = Ok (m2, n) /\ master_ok m2 L2 /\ L2 LReady = xs /\
    (forall j, j <> LReady -> j <> LUnuse -> L2 j = L j) /\ core_of m t = Some (core (payload n)) /\ (forall q, core_of m2 q = core_of m q).
Proof.
  intros M Ek. destruct (trim_head_out m L LReady t xs M Ek) as (m1 & E1 & M1 & P1 & _ & (n & Hn & Hx & Hp)); [done | done |].
  exists m1. unfold thread_run. rewrite (get_Ok _ _ _ Hn). cbn [mbind res_bind]. rewrite (upd_Ok _ _ _ _ Hn). cbn [mbind res_bind].
  pose proof (retype_out m1 _ t n THREAD_UNUSED M1 Hn) as M2. set (m2 := set_mem m1 _) in *.
  assert (mem m2 !! t = Some (set_t_type THREAD_UNUSED n)) as Ht2 by apply lookup_insert_eq.
  unfold thread_add_unuse. rewrite (get_Ok _ _ _ Ht2). cbn [mbind res_bind next prev set_t_type t_type]. rewrite Hx, Hp. cbn [c_assert mbind res_bind].
  rewrite Z.eqb_refl. cbn [c_assert mbind res_bind].
  destruct (finish_add m2 m2 _ t LUnuse M2) as (m3 & E3 & M3 & P3 & _); try done.
  { intros p Hp'. unfold pl in Hp'. rewrite Ht2 in Hp'. by injection Hp' as <-. }
  rewrite E3. cbn [mbind res_bind]. do 3 eexists. split; [done |]. split; [done |]. split; [exact M3 |]. split; [by rewrite set_l_ne, set_l_eq |].
  split; [intros j H1 H2; by rewrite !set_l_ne |].
  assert (core_of m t = Some (core (payload n))) as Ct by (unfold core_of; rewrite <- P1; unfold pl; by rewrite Hn).
  split; [done |]. intros q. unfold core_of. rewrite P3. destruct (decide (q = t)) as [-> | Hne].
  - unfold pl at 1. rewrite Ht2. symmetry. exact Ct.
  - unfold pl at 1. cbn. rewrite lookup_insert_ne by done. specialize (P1 q). unfold pl in P1. unfold pl. by rewrite <- P1.
Qed.

Lemma add_events_ok evs : forall m L,
  master_ok m L ->
  exists m' L' extra, add_events m evs = Ok m' /\ master_ok m' L' /\ L' LReady = L LReady /\ L' LEvent = L LEvent ++ extra /\
    (forall q, q ∈ queue L -> core_of m' q = core_of m q).
Proof.
  induction evs as [|[[fn a] v] evs IH]; intros m L M; cbn [add_events].
  - exists m, L, []. by rewrite app_nil_r.
  - destruct (add_event_ok m L fn a v M) as (m1 & t & L1 & E1 & [M1 P1 Q1 O1 F1] & Le). rewrite E1. cbn [mbind res_bind].
    destruct (IH m1 L1 M1) as (m2 & L2 & extra & E2 & M2 & R2 & Le2 & C2). exists m2, L2, (t :: extra). split; [done |]. split; [done |].
    assert (L1 LReady = L LReady) as ER by (by apply O1). split; [by rewrite R2 |]. split; [by rewrite Le2, Le, <- app_assoc |].
    intros q Hq. rewrite C2.
    + unfold core_of. rewrite Q1; [done |]. intros ->. apply elem_of_app in Hq as [Hq | Hq]; [by apply (F1 LReady) | by apply (F1 LEvent)].
    + unfold queue in *. rewrite ER, Le. set_solver.
Qed.

(** What a fetch does to the queue: the thread it returns is the first of the queue, when there is one; the
    others keep their order and nothing overtakes them. *)
Definition fetch_effect (m : thread_master) (L : lname -> list ptr) (f : fetched) (m' : thread_master) (L' : lname -> list ptr) : Prop :=
  master_ok m' L' /\
  (exists extra, queue L' = (match f with Fetched _ => drop 1 (queue L) | _ => queue L end) ++ extra) /\
  (forall n t, f = Fetched n -> queue L !! 0%nat = Some t -> core_of m t = Some (core (payload n))) /\
  (forall q, q ∈ queue L -> core_of m' q = core_of m q).

Lemma fetch_effect_trans m L m1 L1 f m' L' extra :
  queue L1 = queue L ++ extra -> (forall q, q ∈ queue L -> core_of m1 q = core_of m q) ->
  fetch_effect m1 L1 f m' L' -> fetch_effect m L f m' L'.
Proof.
  intros EQ C (M' & (e & Eq) & Hn & C'). split; [done |]. split; [| split].
  - exists (match f with Fetched _ => drop (1 - length (queue L)) extra | _ => extra end ++ e). rewrite Eq, EQ.
    destruct f; rewrite ?drop_app, <- app_assoc; done.
  - intros n t -> Ht. rewrite <- C by (by eapply list_elem_of_lookup_2). apply Hn; [done |]. rewrite EQ. by apply lookup_app_l_Some.
  - intros q Hq. rewrite C', C; [done | done |]. rewrite EQ. set_solver.
Qed.

Lemma take_ready_effect m L t xs m2 n L2 :
  L LReady = t :: xs -> master_ok m2 L2 -> L2 LReady = xs -> (forall j, j <> LReady -> j <> LUnuse -> L2 j = L j) ->
  core_of m t = Some (core (payload n)) -> (forall q, core_of m2 q = core_of m q) -> fetch_effect m L (Fetched n) m2 L2.
Proof.
  intros Ek M2 R2 O2 Ct C2. split; [done |]. split; [| split].
  - exists []. rewrite app_nil_r. unfold queue. rewrite R2, O2, Ek by done. done.
  - intros n' t' [= <-] Ht. unfold queue in Ht. rewrite Ek in Ht. by injection Ht as <-.
  - done.
Qed.

Lemma fetch_loop_ok env : forall m L tw w,
  master_ok m L ->
  exists m' f w' L', fetch_loop env m tw w = Ok (m', f, w') /\ fetch_effect m L f m' L' /\
    ((forall n, f <> Fetched n) -> queue L = [] \/ Forall (fun r => r_num r < 0) (take 1 env)).
Proof.
  induction env as [|r env IH]; intros m L tw w M; cbn [fetch_loop].
  - exists m, Waiting, w, L. split; [done |]. split; [| by right; constructor]. split; [done |]. split; [exists []; by rewrite app_nil_r | done].
  - destruct (add_events_ok (r_signals r) m L M) as (m0 & L0 & ex0 & E0 & M0 & R0 & Ev0 & C0). rewrite E0. cbn [mbind res_bind].
    assert (queue L0 = queue L ++ ex0) as EQ0 by (unfold queue; by rewrite R0, Ev0, app_assoc).
    destruct (L0 LReady) as [|t xs] eqn:Er.
    + rewrite (trim_head_empty m0 L0 LReady M0 Er). cbn [mbind res_bind].
      destruct (thread_process_ok m0 L0 M0) as (m1 & L1 & c1 & E1 & A1 & Ev1). rewrite E1. cbn [mbind res_bind].
      assert (queue L1 = queue L0 ++ []) as EQ1 by (unfold queue; by rewrite (av_ready _ _ _ _ _ _ A1), Er, Ev1, !app_nil_r).
      destruct (select_timeout_ok m1 L1 (r_before r) tw (av_ok _ _ _ _ _ _ A1)) as [w1 ->]. cbn [mbind res_bind].
      assert (forall q, q ∈ queue L -> core_of m1 q = core_of m q) as C1 by (intros q Hq; rewrite (av_core _ _ _ _ _ _ A1); by apply C0).
      assert (queue L1 = queue L ++ ex0) as EQ by (by rewrite EQ1, EQ0, app_nil_r).
      destruct (Z.ltb_spec (r_num r) 0) as [Hneg | Hpos].
      * destruct (r_eintr r) eqn:Ei.
        -- destruct (IH m1 L1 (match w1 with Some _ => Some (r_left r) | None => None end) (w ++ [w1]) (av_ok _ _ _ _ _ _ A1))
             as (m2 & f & w2 & L2 & E2 & F2 & _). exists m2, f, w2, L2. split; [done |]. split; [by eapply fetch_effect_trans |].
           intros _. right. by repeat constructor.
        -- exists m1, SelectError, (w ++ [w1]), L1. split; [done |]. split; [| intros _; right; by repeat constructor]. eapply fetch_effect_trans; [done | done |].
           split; [apply A1 |]. split; [exists []; by rewrite app_nil_r | done].
      * destruct (collect_ok m1 L1 r (av_ok _ _ _ _ _ _ A1)) as (m2 & L2 & e2 & E2 & A2). rewrite E2. cbn [mbind res_bind].
        assert (queue L2 = queue L1 ++ e2) as EQ2.
        { unfold queue. rewrite (av_ready _ _ _ _ _ _ A2), (av_other _ _ _ _ _ _ A2), Ev1, !app_nil_r by set_solver. done. }
        assert (forall q, q ∈ queue L -> core_of m2 q = core_of m q) as C2 by (intros q Hq; rewrite (av_core _ _ _ _ _ _ A2); by apply C1).
        assert (queue L2 = queue L ++ (ex0 ++ e2)) as EQ' by (by rewrite EQ2, EQ, app_assoc).
        destruct (L2 LReady) as [|t xs] eqn:Er2.
        -- rewrite (trim_head_empty m2 L2 LReady (av_ok _ _ _ _ _ _ A2) Er2). cbn [mbind res_bind].
           destruct (IH m2 L2 (match w1 with Some _ => Some (r_left r) | None => None end) (w ++ [w1]) (av_ok _ _ _ _ _ _ A2))
             as (m3 & f & w3 & L3 & E3 & F3 & _). exists m3, f, w3, L3. split; [done |]. split; [by eapply fetch_effect_trans |].
           intros _. left. assert (queue L2 = []) as E0q by (unfold queue; rewrite Er2, (av_other _ _ _ _ _ _ A2), Ev1 by set_solver; done).
           rewrite EQ' in E0q. by apply app_eq_nil in E0q as [? _].
        -- destruct (take_ready m2 L2 t xs (av_ok _ _ _ _ _ _ A2) Er2) as (m3 & m4 & n & L4 & E3 & E4 & M4 & R4 & O4 & Ct & C4).
           rewrite E3. cbn [mbind res_bind]. rewrite E4. cbn [mbind res_bind]. exists m4, (Fetched n), (w ++ [w1]), L4. split; [done |].
           split; [| intros H; by destruct (H n)]. eapply fetch_effect_trans; [exact EQ' | done |]. by eapply take_ready_effect.
    + destruct (take_ready m0 L0 t xs M0 Er) as (m3 & m4 & n & L4 & E3 & E4 & M4 & R4 & O4 & Ct & C4).
      rewrite E3. cbn [mbind res_bind]. rewrite E4. cbn [mbind res_bind]. exists m4, (Fetched n), w, L4. split; [done |].
      split; [| intros H; by destruct (H n)]. eapply fetch_effect_trans; [exact EQ0 | done |]. by eapply take_ready_effect.
Qed.
