(* ===== verification/ThreadClients.v ===== *)
(** * lib/thread.c: the scheduler and its clients

    The calls of the scheduler as one operation type, and what holds of every sequence of them: no call fails (but for descriptors no
    fd set can hold), the invariant holds, the queue of ready threads and events is fair. *)

From S2P Require Import Prelude Thread ThreadLists ThreadProofs ThreadFetch.
Local Open Scope Z_scope.

Notation ptr := positive (only parsing).

(** ** Operations *)

Inductive sched_op :=
| OpRead (fn a fd : Z) | OpWrite (fn a fd : Z)
| OpTimer (now : timeval) (fn a sec : Z) | OpTimerMsec (now : timeval) (fn a msec : Z) | OpBackground (now : timeval) (fn a msec : Z)
| OpEvent (fn a v : Z) | OpCancel (t : ptr) | OpCancelEvent (a : Z) | OpFetch (env : list round).

(** The thread that a fetch returned, for the caller to run. *)
Definition run_op (m : thread_master) (o : sched_op) : res (thread_master * option thread) :=
  match o with
  | OpRead fn a fd => '(m, _) ← thread_add_read m fn a fd; Ok (m, None)
  | OpWrite fn a fd => '(m, _) ← thread_add_write m fn a fd; Ok (m, None)
  | OpTimer now fn a s => '(m, _) ← thread_add_timer m now fn a s; Ok (m, None)
  | OpTimerMsec now fn a s => '(m, _) ← thread_add_timer_msec m now fn a s; Ok (m, None)
  | OpBackground now fn a s => '(m, _) ← thread_add_background m now fn a s; Ok (m, None)
  | OpEvent fn a v => '(m, _) ← thread_add_event m fn a v; Ok (m, None)
  | OpCancel t => m ← thread_cancel m t; Ok (m, None)
  | OpCancelEvent a => '(m, _) ← thread_cancel_event m a; Ok (m, None)
  | OpFetch env => '(m, f, _) ← thread_fetch m env; Ok (m, match f with Fetched n => Some n | _ => None end)
  end.

(** A descriptor is not one of an [fd_set]. *)
Definition bad_fd (o : sched_op) : bool := match o with OpRead _ _ fd | OpWrite _ _ fd => negb (fd_valid fd) | _ => false end.

(** Clients cancel only threads they got from the scheduler, and watch descriptors that [fd_set]s can hold. *)
Definition allowed (m : thread_master) (o : sched_op) : Prop :=
  bad_fd o = false /\ match o with OpCancel t => is_Some (mem m !! t) | _ => True end.

Lemma bad_fd_fault m o : bad_fd o = true -> run_op m o = Oob.
Proof. destruct o; cbn; try done; intros H%negb_true_iff; [unfold thread_add_read | unfold thread_add_write]; unfold FD_ISSET; by rewrite H. Qed.

(** The operation does not cancel [t]. *)
Definition keeps (m : thread_master) (t : ptr) (o : sched_op) : Prop :=
  match o with OpCancel q => q <> t | OpCancelEvent a => ~ has_arg m a t | _ => True end.

(** The thread [t] is at position [p] of the queue before and at most there after; a fetch that does not return
    it moves it forward. *)
Definition moves_on (m : thread_master) (L : lname -> list ptr) (o : sched_op) (m' : thread_master) (L' : lname -> list ptr) (out : option thread) : Prop :=
  forall p t, queue L !! p = Some t -> keeps m t o ->
    (exists n, out = Some n /\ p = 0%nat /\ core_of m t = Some (core (payload n))) \/
    (exists p', queue L' !! p' = Some t /\ (p' + (if out then 1 else 0) <= p)%nat /\ core_of m' t = core_of m t).

(** A fetch whose first select does not fail. *)
Definition asks (o : sched_op) : bool := match o with OpFetch (r :: _) => 0 <=? r_num r | _ => false end.

Lemma lookup_remove (xs1 : list ptr) q xs2 p t :
  (xs1 ++ q :: xs2) !! p = Some t -> q <> t -> exists p', (p' <= p)%nat /\ (xs1 ++ xs2) !! p' = Some t.
Proof.
  intros H Hne. destruct (decide (p < length xs1)%nat) as [Hl | Hl].
  - rewrite lookup_app_l in H by done. exists p. split; [done |]. by rewrite lookup_app_l.
  - rewrite lookup_app_r in H by lia. destruct (p - length xs1)%nat as [|j] eqn:Ej; [by injection H as -> |].
    exists (length xs1 + j)%nat. split; [lia |]. rewrite lookup_app_r by lia. cbn in H. by replace (length xs1 + j - length xs1)%nat with j by lia.
Qed.

Lemma lookup_filter_le (P : ptr -> Prop) `{HP : !forall x, Decision (P x)} (xs : list ptr) : forall p t,
  xs !! p = Some t -> P t -> exists p', (p' <= p)%nat /\ filter P xs !! p' = Some t.
Proof.
  induction xs as [|x xs IH]; intros p t H Pt; [done |]. rewrite filter_cons. destruct p as [|p].
  - injection H as ->. exists 0%nat. by rewrite decide_True.
  - cbn in H. destruct (IH p t H Pt) as (p' & Hp & E). destruct (decide (P x)); [exists (S p') | exists p']; (split; [lia | done]).
Qed.

Lemma added_moves_on m L k pay0 m' t0 L' o :
  added m L k pay0 m' t0 L' -> (k = LEvent -> L' LEvent = L LEvent ++ [t0]) -> k <> LReady -> moves_on m L o m' L' None.
Proof.
  intros [M P Q O F] Ev Hk p t Hp _. right. exists p. assert (L' LReady = L LReady) as ER by (by apply O).
  assert (t <> t0) as Hne.
  { intros ->. apply list_elem_of_lookup_2, elem_of_app in Hp as [H | H]; [by apply (F LReady) | by apply (F LEvent)]. }
  split; [| split; [lia |]; unfold core_of; by rewrite Q]. unfold queue in *. rewrite ER.
  destruct (decide (k = LEvent)) as [-> | HkE]; [| by rewrite O].
  rewrite Ev, app_assoc by done. by apply lookup_app_l_Some.
Qed.

Lemma same_moves_on m L o : moves_on m L o m L None.
Proof. intros p t Hp _. right. exists p. split; [done |]. split; [lia | done]. Qed.

Lemma cancel_moves_on m L t k m' L' :
  t ∈ L k -> (forall q, core_of m' q = core_of m q) ->
  (if decide (k = LUnuse) then m' = m /\ L' = L else exists xs1 xs2, L k = xs1 ++ t :: xs2 /\ L' = moved L k (xs1 ++ xs2) LUnuse t) ->
  moves_on m L (OpCancel t) m' L' None.
Proof.
  intros Ht C H. destruct (decide (k = LUnuse)) as [-> | Hk]; [destruct H as [-> ->]; apply same_moves_on |].
  destruct H as (xs1 & xs2 & Ek & ->). intros p q Hp Hq. right. cbn in Hq.
  assert (exists p', (p' <= p)%nat /\ queue (moved L k (xs1 ++ xs2) LUnuse t) !! p' = Some q) as (p' & Hle & E).
  { unfold queue in *. destruct (decide (k = LReady)) as [-> | K1].
    - rewrite Ek, <- app_assoc in Hp. rewrite moved_from, moved_other, <- app_assoc by done. by apply (lookup_remove xs1 t).
    - destruct (decide (k = LEvent)) as [-> | K2].
      + rewrite Ek, app_assoc in Hp. rewrite moved_from, moved_other, app_assoc by done. by apply (lookup_remove _ t).
      + exists p. split; [done |]. by rewrite !moved_other by done. }
  exists p'. split; [done |]. split; [lia | apply C].
Qed.

Lemma cancel_event_moves_on m L a m' L' :
  L' LEvent = filter (fun t => ~ has_arg m a t) (L LEvent) -> L' LReady = L LReady -> (forall q, core_of m' q = core_of m q) ->
  moves_on m L (OpCancelEvent a) m' L' None.
Proof.
  intros Ev R C p t Hp Hk. right. cbn in Hk. unfold queue in *. rewrite R, Ev. apply lookup_app_Some in Hp as [Hp | [Hl Hp]].
  - exists p. split; [by apply lookup_app_l_Some |]. split; [lia | apply C].
  - destruct (lookup_filter_le (fun t => ~ has_arg m a t) (L LEvent) _ _ Hp Hk) as (p' & Hle & E). exists (length (L LReady) + p')%nat.
    split; [rewrite lookup_app_r by lia; by replace (length (L LReady) + p' - length (L LReady))%nat with p' by lia |]. split; [lia | apply C].
Qed.

Lemma fetch_moves_on m L env f m' L' :
  fetch_effect m L f m' L' -> moves_on m L (OpFetch env) m' L' (match f with Fetched n => Some n | _ => None end).
Proof.
  intros (M & (extra & EQ) & Hn & C) p t Hp _. assert (t ∈ queue L) as Hin by by eapply list_elem_of_lookup_2.
  destruct f as [n | |].
  - destruct p as [|p]; [left; exists n; split; [done |]; split; [done |]; by apply Hn |]. right. exists p.
    split; [| split; [lia | by apply C]]. rewrite EQ. apply lookup_app_l_Some. by rewrite lookup_drop.
  - right. exists p. split; [rewrite EQ; by apply lookup_app_l_Some |]. split; [lia | by apply C].
  - right. exists p. split; [rewrite EQ; by apply lookup_app_l_Some |]. split; [lia | by apply C].
Qed.

Lemma add_timer_run m L now fn ty a trel o :
  master_ok m L -> ty = THREAD_TIMER \/ ty = THREAD_BACKGROUND ->
  exists m' L', ('(m', _) ← thread_add_timer_timeval m now fn ty a trel; Ok (m', @None thread)) = Ok (m', None) /\ master_ok m' L' /\ moves_on m L o m' L' None.
Proof.
  intros M Hty. destruct (add_timer_ok m L now fn ty a trel M Hty) as (m' & t & L' & E & A & _). rewrite E. cbn. exists m', L'.
  split; [done |]. split; [apply A |]. eapply added_moves_on; [exact A | |]; destruct Hty as [-> | ->]; done.
Qed.

Lemma sched_op_ok m L o :
  master_ok m L -> allowed m o ->
  exists m' out L', run_op m o = Ok (m', out) /\ master_ok m' L' /\ moves_on m L o m' L' out /\
    (asks o = true -> queue L <> [] -> is_Some out).
Proof.
  intros M [Hfd Al]. destruct o as [fn a fd | fn a fd | now fn a s | now fn a s | now fn a s | fn a v | t | a | env]; cbn [run_op].
  - cbn in Hfd. apply negb_false_iff in Hfd. destruct (add_read_ok m L fn a fd M Hfd) as (m' & r & E & [(_ & _ & ->) | (_ & t & L' & _ & A & _)]); rewrite E; cbn; do 2 eexists.
    + exists L. split; [done |]. split; [done |]. split; [apply same_moves_on | done].
    + exists L'. split; [done |]. split; [apply A |]. split; [by eapply added_moves_on | done].
  - cbn in Hfd. apply negb_false_iff in Hfd. destruct (add_write_ok m L fn a fd M Hfd) as (m' & r & E & [(_ & _ & ->) | (_ & t & L' & _ & A & _)]); rewrite E; cbn; do 2 eexists.
    + exists L. split; [done |]. split; [done |]. split; [apply same_moves_on | done].
    + exists L'. split; [done |]. split; [apply A |]. split; [by eapply added_moves_on | done].
  - destruct (add_timer_run m L now fn THREAD_TIMER a (mk_tv s 0) (OpTimer now fn a s) M) as (m' & L' & E & R1 & R2); [by left |].
    exists m', None, L'. by split; [exact E |].
  - destruct (add_timer_run m L now fn THREAD_TIMER a (mk_tv (Z.quot s 1000) (1000 * Z.rem s 1000)) (OpTimerMsec now fn a s) M) as (m' & L' & E & R1 & R2);
      [by left |]. exists m', None, L'. by split; [exact E |].
  - unfold thread_add_background. edestruct (add_timer_run m L now fn THREAD_BACKGROUND a) as (m' & L' & E & R1 & R2); [done | by right |].
    exists m', None, L'. by split; [exact E |].
  - destruct (add_event_ok m L fn a v M) as (m' & t & L' & E & A & Ev). rewrite E. cbn. do 2 eexists. exists L'.
    split; [done |]. split; [apply A |]. split; [by eapply added_moves_on | done].
  - destruct (mo_all _ _ _ M t Al) as [| [k Hk]]; [done |]. destruct (cancel_ok m L t k M Hk) as (m' & L' & E & M' & C & H). rewrite E. cbn.
    do 2 eexists. exists L'. split; [done |]. split; [done |]. split; [by eapply cancel_moves_on | done].
  - unfold thread_cancel_event. rewrite (head_dll m L) by apply M.
    destruct (cancel_event_loop_ok a (S (size (mem m))) m L [] (L LEvent) 0 M eq_refl) as (m' & L' & r & E & M' & Ev & O & C).
    { pose proof (list_len m L LEvent (mo_struct _ _ _ M)). lia. }
    rewrite E. cbn. do 2 eexists. exists L'. split; [done |]. split; [done |]. split; [| done]. apply cancel_event_moves_on; [done | by apply O | done].
  - unfold thread_fetch. destruct (fetch_loop_ok env m L (Some (mk_tv 0 0)) [] M) as (m' & f & w & L' & E & F & G). rewrite E. cbn.
    do 2 eexists. exists L'. split; [done |]. split; [apply F |]. split; [by apply fetch_moves_on |].
    intros Ha Hq. destruct f as [n | |]; [done | |]; exfalso; (destruct (G ltac:(done)) as [G' | G']; [done |]);
      (destruct env as [|r env]; [done |]); apply list.Forall_cons in G' as [G' _]; cbn in Ha; lia.
Qed.

(** ** Histories *)

(** [runs t m os outs m']: the calls [os] made one after another from [m], with what they return;
    none of them cancels the thread [t] (if there is one). *)
Inductive runs (t : option ptr) : thread_master -> list sched_op -> list (option thread) -> thread_master -> Prop :=
| runs_nil m : runs t m [] [] m
| runs_cons m o m1 out os outs m2 :
    allowed m o -> (forall q, t = Some q -> keeps m q o) -> run_op m o = Ok (m1, out) -> runs t m1 os outs m2 ->
    runs t m (o :: os) (out :: outs) m2.

Definition reachable (m : thread_master) : Prop := exists os outs, runs None thread_master_create os outs m.

Lemma create_ok : master_ok thread_master_create (fun _ => []).
Proof.
  split; try done; try (exists []; split; [done | by repeat constructor]); try (intros; set_solver).
  - split; [intros k; split; try done; constructor | set_solver].
  - intros t [n H]. change ((∅ : gmap positive thread) !! t = Some n) in H. by rewrite lookup_empty in H.
  - exists []. split; [done |]. split_and!; [constructor | set_solver | set_solver].
  - exists []. split; [done |]. split_and!; [constructor | set_solver | set_solver].
Qed.

Lemma runs_ok t m os outs m' L : runs t m os outs m' -> master_ok m L -> exists L', master_ok m' L'.
Proof.
  intros R. revert L. induction R as [| m o m1 out os outs m2 Al _ E R IH]; intros L M; [by exists L |].
  destruct (sched_op_ok m L o M Al) as (m1' & out' & L1 & E1 & M1 & _). rewrite E in E1. injection E1 as <- <-. by apply (IH L1).
Qed.

Lemma reachable_ok m : reachable m -> exists L, master_ok m L.
Proof. intros (os & outs & R). exact (runs_ok _ _ _ _ _ _ R create_ok). Qed.

Lemma runs_snoc m o m' out : reachable m -> allowed m o -> run_op m o = Ok (m', out) -> reachable m'.
Proof.
  intros (os & outs & R) Al E. exists (os ++ [o]), (outs ++ [out]). induction R as [| m0 o0 m1 out0 os outs m2 Al0 K0 E0 R IH]; cbn.
  - eapply runs_cons; [done | done | exact E | constructor].
  - eapply runs_cons; [done | done | exact E0 | by apply IH].
Qed.

(** C23: the scheduler fails in one case only: from every master that a history of calls built, every call returns (no assertion of thread_add_unuse,
    thread_cancel or the fd loops fails, no dangling link is followed, no loop runs past its fuel), and the master it leaves is well formed: seven
    disjoint doubly linked lists that hold every node, types that tell the list, fd sets below FD_SETSIZE that match the read and write
    lists, sorted timers, the allocation count.  Two things are left to the caller: a cancelled thread came from the scheduler, and a descriptor to watch is from 0 to
    FD_SETSIZE - 1; thread_add_read and thread_add_write do not check it, and any other descriptor is an access outside of the fd set. *)
Theorem scheduler_safe m o :
  reachable m ->
  (allowed m o -> exists m' out, run_op m o = Ok (m', out) /\ reachable m' /\ exists L', master_ok m' L') /\
  (bad_fd o = true -> run_op m o = Oob).
Proof.
  intros R. split; [| apply bad_fd_fault]. intros Al. destruct (reachable_ok m R) as [L M]. destruct (sched_op_ok m L o M Al) as (m' & out & L' & E & M' & _).
  exists m', out. split; [done |]. split; [by eapply runs_snoc | by exists L'].
Qed.

(** ** Fairness *)

Definition asked (os : list sched_op) : nat := length (filter (fun o => asks o = true) os).

Lemma asked_cons o os : asked (o :: os) = ((if asks o then 1 else 0) + asked os)%nat.
Proof. unfold asked. rewrite filter_cons. by destruct (asks o). Qed.

Lemma queue_served t m os outs m' : runs (Some t) m os outs m' -> forall L p,
  master_ok m L -> queue L !! p = Some t -> (p < asked os)%nat ->
  exists n, Some n ∈ outs /\ core_of m t = Some (core (payload n)).
Proof.
  induction 1 as [| m o m1 out os outs m2 Al K E R IH]; intros L p M Hp Hlt; [cbn in Hlt; lia |].
  destruct (sched_op_ok m L o M Al) as (m1' & out' & L1 & E1 & M1 & Mv & Pr). rewrite E in E1. injection E1 as <- <-.
  assert (queue L <> []) as Hq by (intros H; by rewrite H in Hp).
  destruct (Mv p t Hp (K t eq_refl)) as [(n & -> & _ & C) | (p' & Hp' & Hle & C)]; [exists n; split; [by left | done] |].
  rewrite asked_cons in Hlt. destruct (IH L1 p' M1 Hp') as (n & Hn & Cn).
  - destruct (asks o); [destruct (Pr eq_refl Hq) as [n ->]; lia |]. destruct out; lia.
  - exists n. split; [by right | by rewrite <- C].
Qed.

(** The nodes of a list, read along its [next] links. *)
Fixpoint walk (fuel : nat) (h : gmap positive thread) (o : option ptr) : list ptr :=
  match fuel, o with
  | S f, Some t => t :: match h !! t with Some n => walk f h (next n) | None => [] end
  | _, _ => []
  end.
Definition nodes (m : thread_master) (k : lname) : list ptr := walk (size (mem m)) (mem m) (head (lists m k)).

Lemma walk_dseg h xs : forall fuel p, dseg h p xs None -> (length xs <= fuel)%nat -> walk fuel h (nxt xs None) = xs.
Proof.
  induction xs as [|x xs IH]; intros [|f] p S Hf; cbn in Hf; try done; try lia.
  destruct S as [(n & Hn & _ & Hx) S]. cbn. rewrite Hn, Hx. f_equal. apply (IH f (Some x)); [done | lia].
Qed.

Lemma nodes_ok m L k : master_ok m L -> nodes m k = L k.
Proof.
  intros M. pose proof (so_dll _ _ (mo_struct _ _ _ M) k) as D. unfold nodes. rewrite (dl_head _ _ _ D).
  apply (walk_dseg _ _ _ None); [apply D | by apply list_len, M].
Qed.

(** C24: no ready thread starves: a thread at position [p] of the ready list followed by the event list, which
    no later call cancels, is handed out (its function, argument and value unchanged) before [p + 1] fetches
    whose first select does not fail are over, whatever else is added, cancelled or made ready in between. *)
Theorem scheduler_fair m p t os outs m' :
  reachable m -> (nodes m LReady ++ nodes m LEvent) !! p = Some t -> runs (Some t) m os outs m' -> (p < asked os)%nat ->
  exists n, Some n ∈ outs /\ core_of m t = Some (core (payload n)).
Proof.
  intros R Hp. destruct (reachable_ok m R) as [L M]. rewrite !(nodes_ok m L) in Hp by done.
  intros R' Hlt. exact (queue_served t m os outs m' R' L p M Hp Hlt).
Qed.

(** ** Cancelling events *)

Lemma cancel_event_ok m L a :
  master_ok m L ->
  exists m' L' r, thread_cancel_event m a = Ok (m', r) /\ master_ok m' L' /\ L' LEvent = filter (fun t => ~ has_arg m a t) (L LEvent) /\
    L' LReady = L LReady /\ (forall q, core_of m' q = core_of m q).
Proof.
  intros M. unfold thread_cancel_event. rewrite (head_dll m L) by apply M.
  destruct (cancel_event_loop_ok a (S (size (mem m))) m L [] (L LEvent) 0 M eq_refl) as (m' & L' & r & E & M' & Ev & O & C).
  { pose proof (list_len m L LEvent (mo_struct _ _ _ M)). lia. }
  exists m', L', r. split; [exact E |]. split; [done |]. split; [done |]. split; [by apply O | done].
Qed.

(** Thread_cancel_event empties the event list of the threads with argument [a] and touches no other: an
    event that an earlier fetch moved to the ready list survives, and the next fetch hands it out although its owner
    has cancelled its events. *)
Theorem cancel_event_spares_ready m a t env :
  reachable m -> nodes m LReady !! 0%nat = Some t -> has_arg m a t -> asks (OpFetch env) = true ->
  exists m' r m2 n w, thread_cancel_event m a = Ok (m', r) /\
    nodes m' LEvent = filter (fun q => ~ has_arg m a q) (nodes m LEvent) /\ nodes m' LReady = nodes m LReady /\
    thread_fetch m' env = Ok (m2, Fetched n, w) /\ arg n = a /\ core_of m t = Some (core (payload n)).
Proof.
  intros R Ht (p & Hp & Hpa) Ha. destruct (reachable_ok m R) as [L M]. rewrite (nodes_ok m L) in Ht by done.
  destruct (cancel_event_ok m L a M) as (m' & L' & r & E & M' & Ev & Er & C).
  destruct (fetch_loop_ok env m' L' (Some (mk_tv 0 0)) [] M') as (m2 & f & w & L2 & E2 & (_ & _ & Hn & _) & G).
  assert (queue L' !! 0%nat = Some t) as Hq by (unfold queue; rewrite Er; by apply lookup_app_l_Some).
  assert (exists n, f = Fetched n) as [n ->].
  { destruct f as [n | |]; [by exists n | |]; exfalso; (destruct (G ltac:(done)) as [G' | G']; [by rewrite G' in Hq |]);
      (destruct env as [|r0 env]; [done |]); apply list.Forall_cons in G' as [G' _]; cbn in Ha; lia. }
  specialize (Hn n t eq_refl Hq). rewrite C in Hn. exists m', r, m2, n, w. split; [done |].
  rewrite !(nodes_ok m' L'), !(nodes_ok m L) by done. split; [done |]. split; [done |]. split; [exact E2 |]. split; [| done].
  unfold core_of in Hn. rewrite Hp in Hn. cbn in Hn. unfold core in Hn. injection Hn as _ _ H _. cbn in H. congruence.
Qed.

(** ** Examples *)

(** Two events for the objects 7 and 8, a descriptor and a timer; then one fetch. *)
Definition ex_round : round := mk_round [] (mk_tv 10 0) 0 false ∅ ∅ (mk_tv 0 0) (mk_tv 10 0).
Definition ex_ops : list sched_op :=
  [OpEvent 1 8 0; OpRead 3 9 5; OpTimer (mk_tv 10 0) 2 9 4; OpEvent 1 7 0; OpFetch [ex_round]].

Fixpoint run_ops (m : thread_master) (os : list sched_op) : res (thread_master * list (option thread)) :=
  match os with
  | [] => Ok (m, [])
  | o :: os => '(m, out) ← run_op m o; '(m, outs) ← run_ops m os; Ok (m, out :: outs)
  end.

Definition no_cancel (o : sched_op) : bool := match o with OpCancel _ | OpCancelEvent _ => false | _ => true end.

Lemma run_ops_runs t os : forall m m' outs, forallb no_cancel os = true -> run_ops m os = Ok (m', outs) -> runs t m os outs m'.
Proof.
  induction os as [|o os IH]; intros m m' outs Hc E; cbn in E; [injection E as <- <-; constructor |].
  cbn in Hc. apply andb_prop in Hc as [Ho Hc]. destruct (run_op m o) as [[m1 out] | |] eqn:E1; cbn in E; try done.
  destruct (run_ops m1 os) as [[m2 outs2] | |] eqn:E2; cbn in E; try done. injection E as <- <-.
  eapply runs_cons; [| by destruct o | exact E1 | by apply IH]. split; [| by destruct o].
  destruct (bad_fd o) eqn:Hb; [| done]. by rewrite bad_fd_fault in E1.
Qed.

Definition ex_master : thread_master := match run_ops thread_master_create ex_ops with Ok (m, _) => m | _ => thread_master_create end.
Definition ex_outs : list (option thread) := match run_ops thread_master_create ex_ops with Ok (_, o) => o | _ => [] end.

Lemma ex_reachable : reachable ex_master.
Proof. exists ex_ops, ex_outs. apply run_ops_runs; vm_compute; reflexivity. Qed.

(** The timer of the example is cancelled. *)
Lemma scheduler_safe_witness :
  exists m' out, run_op ex_master (OpCancel 3) = Ok (m', out) /\ reachable m' /\ exists L', master_ok m' L'.
Proof.
  apply (proj1 (scheduler_safe ex_master (OpCancel 3) ex_reachable)). split; [reflexivity |]. eexists. vm_compute. reflexivity.
Defined.

(** The second event of the example, ready since the first fetch. *)
Lemma scheduler_fair_witness :
  exists n, Some n ∈ match run_ops ex_master [OpEvent 1 8 1; OpFetch [ex_round]] with Ok (_, o) => o | _ => [] end /\
    core_of ex_master 4 = Some (core (payload n)).
Proof.
  eapply (scheduler_fair ex_master 0 4 [OpEvent 1 8 1; OpFetch [ex_round]]).
  - exact ex_reachable.
  - vm_compute. reflexivity.
  - eapply run_ops_runs; vm_compute; reflexivity.
  - vm_compute. lia.
Defined.

Lemma cancel_event_spares_ready_witness :
  exists m' r m2 n w, thread_cancel_event ex_master 7 = Ok (m', r) /\
    nodes m' LEvent = filter (fun q => ~ has_arg ex_master 7 q) (nodes ex_master LEvent) /\ nodes m' LReady = nodes ex_master LReady /\
    thread_fetch m' [ex_round] = Ok (m2, Fetched n, w) /\ arg n = 7 /\ core_of ex_master 4 = Some (core (payload n)).
Proof.
  apply (cancel_event_spares_ready ex_master 7 4 [ex_round]); [exact ex_reachable | vm_compute; reflexivity | | reflexivity].
  eexists. split; [vm_compute; reflexivity | reflexivity].
Defined.

(** ** Times *)

(** A time in microseconds. *)
Definition micros (a : timeval) : Z := tv_sec a * TIMER_SECOND_MICRO + tv_usec a.

Lemma adjust_down_ok fuel : forall a,
  tv_usec a < Z.of_nat fuel * TIMER_SECOND_MICRO ->
  tv_usec (adjust_down fuel a) < TIMER_SECOND_MICRO /\ micros (adjust_down fuel a) = micros a /\
  (tv_usec a < TIMER_SECOND_MICRO -> adjust_down fuel a = a) /\ (0 <= tv_usec a -> 0 <= tv_usec (adjust_down fuel a)).
Proof.
  unfold micros, TIMER_SECOND_MICRO. induction fuel as [|f IH]; intros a H; cbn [adjust_down]; [split; [lia | done] |].
  unfold TIMER_SECOND_MICRO. destruct (Z.leb_spec 1000000 (tv_usec a)); [| split; [lia | done]].
  destruct (IH (mk_tv (tv_sec a + 1) (tv_usec a - 1000000))) as (I1 & I2 & I3 & I4); cbn in *; [lia |].
  split; [done |]. split; [lia |]. split; [lia |]. intros _. apply I4. lia.
Qed.

Lemma adjust_up_ok fuel : forall a,
  - tv_usec a <= Z.of_nat fuel * TIMER_SECOND_MICRO -> tv_usec a < TIMER_SECOND_MICRO ->
  0 <= tv_usec (adjust_up fuel a) < TIMER_SECOND_MICRO /\ micros (adjust_up fuel a) = micros a.
Proof.
  unfold micros, TIMER_SECOND_MICRO. induction fuel as [|f IH]; intros a H1 H2; cbn [adjust_up]; [split; [lia | done] |].
  unfold TIMER_SECOND_MICRO. destruct (Z.ltb_spec (tv_usec a) 0); [| split; [lia | done]].
  destruct (IH (mk_tv (tv_sec a - 1) (tv_usec a + 1000000))) as (I1 & I2); cbn in *; [lia | lia |]. split; [done | lia].
Qed.

(** Timeval_adjust terminates: its two loops are over within [|tv_usec| / 1000000 + 2] turns each (the fuel they
    are given), the microseconds of the result are in [0, 1000000), and its value is the argument's, or zero when that is
    negative. *)
Theorem timeval_adjust_normal a :
  0 <= tv_usec (timeval_adjust a) < TIMER_SECOND_MICRO /\ micros (timeval_adjust a) = Z.max 0 (micros a).
Proof.
  unfold timeval_adjust. assert (Z.of_nat (adjust_fuel a) * TIMER_SECOND_MICRO > Z.abs (tv_usec a)) as F.
  { unfold adjust_fuel, TIMER_SECOND_MICRO. pose proof (Z.div_mod (Z.abs (tv_usec a)) 1000000) as D.
    pose proof (Z.mod_pos_bound (Z.abs (tv_usec a)) 1000000). lia. }
  destruct (adjust_down_ok (adjust_fuel a) a) as (D1 & D2 & D3 & D4); [lia |]. set (b := adjust_down _ a) in *.
  assert (0 <= tv_usec b \/ b = a) as Hb by (destruct (decide (0 <= tv_usec a)); [left; auto | right; apply D3; unfold TIMER_SECOND_MICRO; lia]).
  destruct (adjust_up_ok (adjust_fuel b) b) as (U1 & U2).
  { unfold adjust_fuel, TIMER_SECOND_MICRO. pose proof (Z.div_mod (Z.abs (tv_usec b)) 1000000) as D.
    pose proof (Z.mod_pos_bound (Z.abs (tv_usec b)) 1000000). lia. }
  { done. }
  set (c := adjust_up _ b) in *. rewrite <- D2, <- U2. clearbody b c. unfold micros, TIMER_SECOND_MICRO in *.
  destruct (Z.ltb_spec (tv_sec c) 0); cbn; lia.
Qed.
