(* ===== verification/Checksum.v ===== *)
(** * lib/checksum.c, isisd/iso_checksum.c: the Internet and the Fletcher checksum

    Memory is a list of bytes.  A 16-bit word in memory is read in the byte order of the machine: [native] puts its two bytes
    together, for either order.  [int] arithmetic that overflows is undefined ([Oob], by [c_int]), as is an access outside the
    buffer.  The Fletcher checksum is the one of ISO 8473: the sum of the bytes and the sum of its partial sums are both divisible by
    255 ([iso_valid]). *)

From S2P Require Import Prelude.
Local Open Scope Z_scope.

Definition c_int (z : Z) : res Z := if (- 2 ^ 31 <=? z) && (z <? 2 ^ 31) then Ok z else Oob.

Definition get_byte (l : list Z) (i : Z) : res Z := if i <? 0 then Oob else match l !! Z.to_nat i with Some b => Ok b | None => Oob end.
Definition put_byte (l : list Z) (i b : Z) : res (list Z) := _ ← get_byte l i; Ok (<[Z.to_nat i := u8 b]> l).

Section Machine.
(** The machine has the least significant byte first. *)
Context (le : bool).

Definition native (b0 b1 : Z) : Z := if le then b1 * 256 + b0 else b0 * 256 + b1.
Definition htons (v : Z) : Z := native (u16 v / 256) (u16 v mod 256).
Definition get_word (l : list Z) (i : Z) : res Z := b0 ← get_byte l i; b1 ← get_byte l (i + 1); Ok (native b0 b1).

(** ** [in_cksum] *)

(** The loop over the words, with the bytes that follow. *)
Fixpoint add_words (n : nat) (ptr : list Z) (sum : Z) : res (list Z * Z) :=
  match n with
  | O => Ok (ptr, sum)
  | S m => match ptr with b0 :: b1 :: r => add_words m r (sum + native b0 b1) | _ => Oob end
  end.

Definition in_cksum (parg : list Z) (nbytes : Z) : res Z :=
  '(ptr, sum) ← add_words (Z.to_nat (nbytes / 2)) parg 0;
  sum ← (if (0 <=? nbytes) && Z.odd nbytes then b ← get_byte ptr 0; Ok (sum + native b 0) else Ok sum);
  let sum := Z.shiftr sum 16 + Z.land sum 65535 in
  let sum := sum + Z.shiftr sum 16 in
  Ok (u16 (Z.lnot sum)).

(** ** [fletcher_checksum] *)

Definition MODX : Z := 4102.

(** The inner loop. *)
Fixpoint add_bytes (n : nat) (p : list Z) (c0 c1 : Z) : res (list Z * Z * Z) :=
  match n with
  | O => Ok (p, c0, c1)
  | S m =>
      match p with
      | b :: r => c0 ← c_int (c0 + b); c1 ← c_int (c1 + c0); add_bytes m r c0 c1
      | [] => Oob
      end
  end.

(** The outer loop: blocks of at most [MODX] bytes. *)
Fixpoint add_blocks (fuel : nat) (left : Z) (p : list Z) (c0 c1 : Z) : res (Z * Z) :=
  match fuel with
  | O => Oob
  | S f =>
      if left =? 0 then Ok (c0, c1)
      else
        let partial_len := Z.min left MODX in
        '(p, c0, c1) ← add_bytes (Z.to_nat partial_len) p c0 c1;
        add_blocks f (left - partial_len) p (Z.rem c0 255) (Z.rem c1 255)
  end.

(** The two bytes of the checksum, from the sums. *)
Definition check_bytes (len offset c0 c1 : Z) : Z * Z :=
  let x := Z.rem (signed 32 (wrap 64 ((len - offset - 1) * c0 - c1))) 255 in
  let x := if x <=? 0 then x + 255 else x in
  let y := 510 - c0 - x in
  let y := if y >? 255 then y - 255 else y in
  (x, y).

(** The buffer after it and the checksum. *)
Definition fletcher_checksum (buffer : list Z) (len offset : Z) : res (list Z * Z) :=
  _ ← c_assert (offset <? len);
  buffer ← put_byte buffer offset 0;
  buffer ← put_byte buffer (offset + 1) 0;
  '(c0, c1) ← add_blocks (S (Z.to_nat len)) len buffer 0 0;
  let '(x, y) := check_bytes len offset c0 c1 in
  buffer ← put_byte buffer offset x;
  buffer ← put_byte buffer (offset + 1) y;
  Ok (buffer, htons (Z.lor (Z.shiftl x 8) (Z.land y 255))).

(** ** The callers *)

(** [ospf_lsa_checksum] (ospfd/ospf_lsa.c): the LSA as bytes.  Its length is in the bytes 18 and 19. *)
Definition ospf_lsa_checksum (lsa : list Z) : res (list Z * Z) :=
  b0 ← get_byte lsa 18;
  b1 ← get_byte lsa 19;
  '(buffer, sum) ← fletcher_checksum (drop 2 lsa) (u16 (b0 * 256 + b1 - 2)) 14;
  Ok (take 2 lsa ++ buffer, sum).

(** The check of [ospf_ls_upd_list_lsa] (ospfd/ospf_packet.c). *)
Definition lsa_checksum_ok (lsa : list Z) : res (list Z * bool) :=
  sum ← get_word lsa 16;
  '(lsa, s) ← ospf_lsa_checksum lsa;
  Ok (lsa, sum =? s).

(** [iso_csum_verify] (isisd/iso_checksum.c); [csum] points to the byte [offset] of the buffer. *)
Definition iso_csum_verify (buffer : list Z) (len offset : Z) : res (list Z * Z) :=
  csum ← get_word buffer offset;
  let c0 := Z.land csum 65280 in
  let c1 := Z.land csum 255 in
  if (c0 =? 0) && (c1 =? 0) then Ok (buffer, 0)
  else if (c0 =? 0) || (c1 =? 0) then Ok (buffer, 1)
  else
    '(buffer, checksum) ← fletcher_checksum buffer len (u16 offset);
    csum ← get_word buffer offset;
    Ok (buffer, if checksum =? csum then 0 else 1).

End Machine.

(** ** The sums *)

Fixpoint S0 (l : list Z) : Z := match l with [] => 0 | b :: r => b + S0 r end.
(** The sum of the partial sums: byte [i] of [L] counts [L - i] times. *)
Fixpoint S1 (l : list Z) : Z := match l with [] => 0 | b :: r => (Z.of_nat (length r) + 1) * b + S1 r end.

Definition iso_valid (l : list Z) : Prop := S0 l mod 255 = 0 /\ S1 l mod 255 = 0.

Lemma S0_app l1 l2 : S0 (l1 ++ l2) = S0 l1 + S0 l2.
Proof. induction l1 as [|b l1 IH]; cbn; lia. Qed.
Lemma S1_app l1 l2 : S1 (l1 ++ l2) = S1 l1 + Z.of_nat (length l2) * S0 l1 + S1 l2.
Proof. induction l1 as [|b l1 IH]; cbn; [lia |]. rewrite IH, length_app. lia. Qed.

Lemma bytes_ok_cons b l : bytes_ok (b :: l) <-> byte_ok b /\ bytes_ok l.
Proof. apply list.Forall_cons. Qed.

Lemma S0_bound l : bytes_ok l -> 0 <= S0 l <= 255 * Z.of_nat (length l).
Proof. induction l as [|b l IH]; [cbn; lia |]. rewrite bytes_ok_cons. unfold byte_ok. intros [Hb Hl%IH]. cbn [S0 length]. lia. Qed.
Lemma S1_bound l : bytes_ok l -> 0 <= 2 * S1 l <= 255 * (Z.of_nat (length l) * (Z.of_nat (length l) + 1)).
Proof. induction l as [|b l IH]; [cbn; lia |]. rewrite bytes_ok_cons. unfold byte_ok. intros [Hb Hl%IH]. cbn [S1 length]. nia. Qed.

(** ** The loops *)

Lemma c_int_ok z : 0 <= z < 2 ^ 31 -> c_int z = Ok z.
Proof. intros H. unfold c_int. rewrite (proj2 (Z.leb_le _ _)), (proj2 (Z.ltb_lt _ _)) by lia. done. Qed.

Lemma add_bytes_ok p q : bytes_ok p -> forall c0 c1, 0 <= c0 -> 0 <= c1 -> c0 + S0 p < 2 ^ 31 -> c1 + Z.of_nat (length p) * c0 + S1 p < 2 ^ 31 ->
  add_bytes (length p) (p ++ q) c0 c1 = Ok (q, c0 + S0 p, c1 + Z.of_nat (length p) * c0 + S1 p).
Proof.
  induction p as [|b p IH]; intros Hp c0 c1 H0 H1 B0 B1; cbn [add_bytes length app S0 S1]; [f_equal; f_equal; [f_equal |]; lia |].
  apply bytes_ok_cons in Hp as [Hb Hp]. unfold byte_ok in Hb. cbn [S0 S1 length] in B0, B1. pose proof (S0_bound p Hp). pose proof (S1_bound p Hp).
  rewrite Nat2Z.inj_succ in B1 |- *. assert (0 <= Z.of_nat (length p) * c0) by nia. assert (0 <= Z.of_nat (length p) * b) by nia.
  rewrite c_int_ok by lia. cbn [mbind res_bind]. rewrite c_int_ok by lia. cbn [mbind res_bind]. rewrite IH; [| done | lia | lia | lia | lia]. f_equal. f_equal; [f_equal |]; lia.
Qed.

(** One block, from sums below 255: no overflow, which is what [MODX] is for. *)
Lemma block_ok p q c0 c1 : bytes_ok p -> Z.of_nat (length p) <= MODX -> 0 <= c0 < 255 -> 0 <= c1 < 255 ->
  add_bytes (length p) (p ++ q) c0 c1 = Ok (q, c0 + S0 p, c1 + Z.of_nat (length p) * c0 + S1 p).
Proof.
  intros Hp Hl H0 H1. pose proof (S0_bound p Hp). pose proof (S1_bound p Hp). unfold MODX in Hl. apply add_bytes_ok; try lia; [done |].
  assert (Z.of_nat (length p) * (Z.of_nat (length p) + 1) <= 4102 * 4103) by nia. assert (Z.of_nat (length p) * c0 <= 4102 * 254) by nia. lia.
Qed.

Lemma take_drop_split (p : list Z) k : 0 <= k <= Z.of_nat (length p) -> exists p1 p2, p = p1 ++ p2 /\ Z.of_nat (length p1) = k.
Proof. intros H. exists (take (Z.to_nat k) p), (drop (Z.to_nat k) p). rewrite take_drop, length_take. split; [done | lia]. Qed.

Lemma add_blocks_ok fuel : forall p c0 c1, bytes_ok p -> (length p < fuel)%nat -> 0 <= c0 < 255 -> 0 <= c1 < 255 -> forall q,
  add_blocks fuel (Z.of_nat (length p)) (p ++ q) c0 c1 = Ok ((c0 + S0 p) mod 255, (c1 + Z.of_nat (length p) * c0 + S1 p) mod 255).
Proof.
  induction fuel as [|fuel IH]; intros p c0 c1 Hp Hf H0 H1 q; [lia |]. cbn [add_blocks]. destruct (Z.eqb_spec (Z.of_nat (length p)) 0) as [E | E].
  - destruct p; [| cbn in E; lia]. cbn. rewrite !Z.add_0_r, !Z.mod_small by lia. done.
  - set (k := Z.min (Z.of_nat (length p)) MODX). assert (0 < k <= Z.of_nat (length p) /\ k <= MODX) as [Hk1 Hk2] by (unfold k, MODX in *; lia).
    destruct (take_drop_split p k ltac:(lia)) as (p1 & p2 & -> & L1). apply bytes_ok_app in Hp as [Hp1 Hp2]. rewrite length_app in *. rewrite <- app_assoc.
    assert (Z.to_nat k = length p1) as -> by lia. rewrite block_ok by (done || lia). cbn [mbind res_bind].
    pose proof (S0_bound p1 Hp1). pose proof (S1_bound p1 Hp1).
    rewrite !Z.rem_mod_nonneg by nia. replace (Z.of_nat (length p1 + length p2) - k) with (Z.of_nat (length p2)) by lia.
    rewrite IH; [| done | lia | apply Z.mod_pos_bound; lia | apply Z.mod_pos_bound; lia].
    rewrite S0_app, S1_app. f_equal. f_equal.
    + rewrite Zplus_mod_idemp_l. f_equal. lia.
    + rewrite <- Z.add_assoc, Zplus_mod_idemp_l.
      set (a := c1 + Z.of_nat (length p1) * c0 + S1 p1). replace (a + (Z.of_nat (length p2) * ((c0 + S0 p1) mod 255) + S1 p2)) with (a + S1 p2 + Z.of_nat (length p2) * ((c0 + S0 p1) mod 255)) by lia.
      rewrite <- Zplus_mod_idemp_r, Zmult_mod_idemp_r, Zplus_mod_idemp_r. f_equal. unfold a. lia.
Qed.

(** ** The bytes of the checksum *)

Lemma signed_small z : - 2 ^ 31 <= z < 2 ^ 31 -> signed 32 (wrap 64 z) = z.
Proof.
  intros H. unfold signed, wrap. assert ((z mod 2 ^ 64) mod 2 ^ 32 = z mod 2 ^ 32) as ->.
  { symmetry. apply Znumtheory.Zmod_div_mod; [lia | lia |]. exists (2 ^ 32). lia. }
  destruct (Z.ltb_spec z 0) as [Hz | Hz].
  - assert (z mod 2 ^ 32 = z + 2 ^ 32) as -> by (symmetry; apply (Z.mod_unique_pos _ _ (-1)); lia). destruct (Z.ltb_spec (z + 2 ^ 32) (2 ^ (32 - 1))); lia.
  - rewrite Z.mod_small by lia. destruct (Z.ltb_spec z (2 ^ (32 - 1))); lia.
Qed.

Definition cong (a b : Z) : Prop := exists k, a = b + 255 * k.

Lemma cong_mod a : a mod 255 = 0 <-> cong a 0.
Proof.
  split; [intros H; exists (a / 255); pose proof (Z.div_mod a 255); lia | intros [k ->]]. rewrite Z.add_0_l, Z.mul_comm. by apply Z.mod_mul.
Qed.

Lemma check_bytes_ok len offset c0 c1 : 0 <= offset -> offset + 1 < len < 2 ^ 16 -> 0 <= c0 < 255 -> 0 <= c1 < 255 ->
  let '(x, y) := check_bytes len offset c0 c1 in 1 <= x <= 255 /\ 1 <= y <= 255 /\ cong x ((len - offset - 1) * c0 - c1) /\ cong (c0 + x + y) 0.
Proof.
  intros Ho Hl H0 H1. unfold check_bytes. cbn zeta. set (z := (len - offset - 1) * c0 - c1). assert (- 255 <= z < 2 ^ 24) as Hz by (unfold z; nia).
  rewrite signed_small by lia. pose proof (Z.quot_rem z 255 ltac:(lia)) as Hq. pose proof (Z.rem_bound_abs z 255 ltac:(lia)) as Hb. set (r := Z.rem z 255) in *. set (q := Z.quot z 255) in *. clearbody r q z.
  destruct (Z.leb_spec r 0) as [Hr | Hr]; [destruct (Z.gtb_spec (510 - c0 - (r + 255)) 255) as [Hy | Hy] | destruct (Z.gtb_spec (510 - c0 - r) 255) as [Hy | Hy]];
    (split; [lia |]; split; [lia |]; split).
  - exists (1 - q). lia.
  - exists 1. lia.
  - exists (1 - q). lia.
  - exists 2. lia.
  - exists (- q). lia.
  - exists 1. lia.
  - exists (- q). lia.
  - exists 2. lia.
Qed.

(** There is one pair of bytes that makes the sums right. *)
Lemma bytes_unique k c0 c1 x y x' y' :
  1 <= x <= 255 -> 1 <= y <= 255 -> 1 <= x' <= 255 -> 1 <= y' <= 255 ->
  cong (c0 + x + y) 0 -> cong (c1 + (k + 1) * x + k * y) 0 -> cong (c0 + x' + y') 0 -> cong (c1 + (k + 1) * x' + k * y') 0 -> x = x' /\ y = y'.
Proof.
  intros X Y X' Y' [a A] [b B] [a' A'] [b' B']. assert (x = x') as ->; [| split; [done | lia]].
  assert (x - x' = 255 * (b - b' - k * (a - a'))) by nia. lia.
Qed.

(** ** [fletcher_checksum] *)

Lemma get_byte_mid pre b post : get_byte (pre ++ b :: post) (Z.of_nat (length pre)) = Ok b.
Proof. unfold get_byte. destruct (Z.ltb_spec (Z.of_nat (length pre)) 0); [lia |]. by rewrite Nat2Z.id, list_lookup_middle. Qed.
Lemma get_byte_next pre b c post : get_byte (pre ++ b :: c :: post) (Z.of_nat (length pre) + 1) = Ok c.
Proof.
  replace (pre ++ b :: c :: post) with ((pre ++ [b]) ++ c :: post) by (by rewrite <- app_assoc). replace (Z.of_nat (length pre) + 1) with (Z.of_nat (length (pre ++ [b]))) by (rewrite length_app; cbn; lia).
  apply get_byte_mid.
Qed.

Lemma put_byte_mid pre b post v : put_byte (pre ++ b :: post) (Z.of_nat (length pre)) v = Ok (pre ++ u8 v :: post).
Proof. unfold put_byte. rewrite get_byte_mid. cbn [mbind res_bind]. rewrite Nat2Z.id, insert_app_r_alt, Nat.sub_diag by lia. done. Qed.
Lemma put_byte_next pre b c post v : put_byte (pre ++ b :: c :: post) (Z.of_nat (length pre) + 1) v = Ok (pre ++ b :: u8 v :: post).
Proof.
  replace (pre ++ b :: c :: post) with ((pre ++ [b]) ++ c :: post) by (by rewrite <- app_assoc). replace (Z.of_nat (length pre) + 1) with (Z.of_nat (length (pre ++ [b]))) by (rewrite length_app; cbn; lia).
  rewrite put_byte_mid. by rewrite <- app_assoc.
Qed.

Lemma S0_field pre x y post : S0 (pre ++ x :: y :: post) = S0 (pre ++ 0 :: 0 :: post) + x + y.
Proof. rewrite !S0_app. cbn. lia. Qed.
Lemma S1_field pre x y post : let k := Z.of_nat (length post) + 1 in S1 (pre ++ x :: y :: post) = S1 (pre ++ 0 :: 0 :: post) + (k + 1) * x + k * y.
Proof. cbn zeta. rewrite !S1_app. cbn [length S1]. rewrite !Nat2Z.inj_succ. lia. Qed.

Lemma u8_small z : 0 <= z <= 255 -> u8 z = z.
Proof. intros H. apply wrap_small. unfold in_u. lia. Qed.

(** The field of the checksum at [offset], [x] and [y] the bytes found: the sums are right. *)
Lemma fletcher_split le pre a b post rest :
  bytes_ok (pre ++ post) -> let len := Z.of_nat (length pre) + 2 + Z.of_nat (length post) in len < 2 ^ 16 ->
  exists x y, fletcher_checksum le (pre ++ a :: b :: post ++ rest) len (Z.of_nat (length pre)) = Ok (pre ++ x :: y :: post ++ rest, native le x y) /\
    1 <= x <= 255 /\ 1 <= y <= 255 /\ iso_valid (pre ++ x :: y :: post).
Proof.
  intros [Hp Hq]%bytes_ok_app len Hl. unfold fletcher_checksum. rewrite (proj2 (Z.ltb_lt _ _)) by (unfold len; lia). cbn [c_assert mbind res_bind].
  rewrite put_byte_mid. cbn [mbind res_bind]. rewrite put_byte_next. cbn [mbind res_bind]. change (u8 0) with 0.
  assert (bytes_ok (pre ++ 0 :: 0 :: post)) as Hz by (apply bytes_ok_app; split; [done |]; rewrite !bytes_ok_cons; unfold byte_ok; split; [lia |]; split; [lia | done]).
  assert (Z.of_nat (length (pre ++ 0 :: 0 :: post)) = len) as Hlen by (unfold len; rewrite length_app; cbn; lia).
  replace (pre ++ 0 :: 0 :: post ++ rest) with ((pre ++ 0 :: 0 :: post) ++ rest) by (by rewrite <- app_assoc). 
  pose proof (add_blocks_ok (S (Z.to_nat len)) _ 0 0 Hz ltac:(lia) ltac:(lia) ltac:(lia) rest) as Ha. rewrite Hlen in Ha. rewrite Ha. clear Ha.
  rewrite Z.mul_0_r, !Z.add_0_l. cbn [mbind res_bind]. set (c0 := S0 _ mod 255). set (c1 := S1 _ mod 255).
  assert (0 <= c0 < 255 /\ 0 <= c1 < 255) as [H0 H1] by (split; apply Z.mod_pos_bound; lia).
  pose proof (check_bytes_ok len (Z.of_nat (length pre)) c0 c1 ltac:(lia) ltac:(unfold len in *; lia) H0 H1) as Hc. destruct (check_bytes len (Z.of_nat (length pre)) c0 c1) as [x y].
  destruct Hc as (Hx & Hy & [i Hi] & [j Hj]). rewrite <- app_assoc. cbn [app]. rewrite put_byte_mid. cbn [mbind res_bind]. rewrite put_byte_next. cbn [mbind res_bind].
  rewrite !u8_small by lia. exists x, y. split; [| split; [done |]; split; [done |]].
  - f_equal. f_equal. unfold htons. assert (Z.lor (Z.shiftl x 8) (Z.land y 255) = x * 256 + y) as ->.
    { change 255 with (Z.ones 8). rewrite Z.land_ones, Z.mod_small by lia. rewrite lor_shiftl_add by lia. done. }
    rewrite wrap_small by (unfold in_u; lia). f_equal; [rewrite Z.div_add_l by lia; rewrite Z.div_small by lia; lia |]. rewrite Z.add_comm, Z.mod_add by lia. apply Z.mod_small. lia.
  - assert (cong (S0 (pre ++ 0 :: 0 :: post)) c0 /\ cong (S1 (pre ++ 0 :: 0 :: post)) c1) as [[u Hu] [v Hv]].
    { split; [exists (S0 (pre ++ 0 :: 0 :: post) / 255) | exists (S1 (pre ++ 0 :: 0 :: post) / 255)]; unfold c0, c1; rewrite Z.add_comm; apply Z.div_mod; lia. }
    split; apply cong_mod.
    + rewrite S0_field, Hu. exists (u + j). lia.
    + rewrite S1_field, Hv. set (k := Z.of_nat (length post) + 1). replace (len - Z.of_nat (length pre) - 1) with k in Hi by (unfold len, k; lia).
      exists (v + i + k * j). nia.
Qed.

(** A buffer with a field of two bytes. *)
Lemma split_field (buffer : list Z) len offset : 0 <= offset -> offset + 1 < len <= Z.of_nat (length buffer) ->
  exists pre a b post rest, buffer = pre ++ a :: b :: post ++ rest /\ offset = Z.of_nat (length pre) /\ len = Z.of_nat (length pre) + 2 + Z.of_nat (length post).
Proof.
  intros Ho Hl. destruct (take_drop_split buffer offset ltac:(lia)) as (pre & r & -> & Hp). rewrite length_app in Hl. destruct r as [|a [|b r]]; cbn in Hl; [lia | lia |].
  destruct (take_drop_split r (len - offset - 2) ltac:(lia)) as (post & rest & -> & Hq). exists pre, a, b, post, rest. split; [done |]. lia.
Qed.

Lemma bytes_ok_field pre a b post rest : bytes_ok (pre ++ a :: b :: post ++ rest) <-> bytes_ok (pre ++ post) /\ byte_ok a /\ byte_ok b /\ bytes_ok rest.
Proof. rewrite !bytes_ok_app, !bytes_ok_cons, bytes_ok_app. tauto. Qed.

Lemma insert_field (pre : list Z) a b x y r : <[length pre := x]> (<[S (length pre) := y]> (pre ++ a :: b :: r)) = pre ++ x :: y :: r.
Proof.
  rewrite insert_app_r_alt by lia. replace (S (length pre) - length pre)%nat with 1%nat by lia. rewrite insert_app_r_alt by lia. rewrite Nat.sub_diag. done.
Qed.

Lemma take_field (pre : list Z) x y post rest n : n = (length pre + 2 + length post)%nat -> take n (pre ++ x :: y :: post ++ rest) = pre ++ x :: y :: post.
Proof.
  intros ->. change (x :: y :: post ++ rest) with ((x :: y :: post) ++ rest). rewrite app_assoc. apply take_app_length'. rewrite length_app. cbn. lia.
Qed.

(** [fletcher_checksum] on a buffer of fewer than 65536 bytes overflows no [int]; it overwrites the two bytes at [offset], both
    with values from 1 to 255, and then the sum of the bytes and the sum of the partial sums are divisible by 255, as ISO 8473 demands.  An
    offset past the end aborts; the assertion lets the offset of the last byte through, and the second byte is written past the buffer. *)
Theorem fletcher_checksum_cases le buffer len offset : bytes_ok buffer -> 0 <= offset -> len = Z.of_nat (length buffer) -> len < 2 ^ 16 ->
  (len <= offset -> fletcher_checksum le buffer len offset = Abort) /\
  (offset = len - 1 -> fletcher_checksum le buffer len offset = Oob) /\
  (offset < len - 1 -> exists x y, let buffer' := <[Z.to_nat offset := x]> (<[S (Z.to_nat offset) := y]> buffer) in
    fletcher_checksum le buffer len offset = Ok (buffer', native le x y) /\ 1 <= x <= 255 /\ 1 <= y <= 255 /\ iso_valid buffer').
Proof.
  intros Hb Ho Hlen Hl. split; [| split].
  - intros H. unfold fletcher_checksum. by rewrite (proj2 (Z.ltb_ge _ _)).
  - intros H. unfold fletcher_checksum. rewrite (proj2 (Z.ltb_lt _ _)) by lia. cbn [c_assert mbind res_bind].
    destruct (take_drop_split buffer offset ltac:(lia)) as (pre & r & -> & Hp). rewrite length_app in Hlen. destruct r as [|a [|b r]]; cbn in Hlen; [lia | | lia].
    rewrite <- Hp at 1. rewrite put_byte_mid. cbn [mbind res_bind]. unfold put_byte, get_byte. destruct (Z.ltb_spec (offset + 1) 0); [lia |].
    rewrite lookup_ge_None_2; [done |]. rewrite length_app. cbn. lia.
  - intros H. destruct (split_field buffer len offset Ho ltac:(lia)) as (pre & a & b & post & rest & -> & -> & E). apply bytes_ok_field in Hb as (Hp & _).
    assert (rest = []) as -> by (apply nil_length_inv; rewrite length_app in Hlen; cbn in Hlen; rewrite length_app in Hlen; lia).
    destruct (fletcher_split le pre a b post [] Hp ltac:(lia)) as (x & y & F & Hx & Hy & V). exists x, y. cbn zeta. rewrite Nat2Z.id, insert_field, E. split; [exact F |]. split; [done |]. split; [done |].
    by rewrite app_nil_r.
Qed.

Lemma fletcher_checksum_cases_witness : exists x y, fletcher_checksum true [1; 2; 3; 0; 0; 9] 6 3 = Ok ([1; 2; 3; x; y; 9], native true x y) /\ iso_valid [1; 2; 3; x; y; 9].
Proof.
  destruct (fletcher_checksum_cases true [1; 2; 3; 0; 0; 9] 6 3) as (_ & _ & H); [repeat constructor; unfold byte_ok; lia | lia | reflexivity | lia |].
  destruct H as (x & y & E & _ & _ & V); [lia |]. exists x, y. split; [exact E | exact V].
Defined.

(** ** Link state advertisements *)

Lemma native_inj le a b x y : byte_ok a -> byte_ok b -> byte_ok x -> byte_ok y -> native le a b = native le x y -> a = x /\ b = y.
Proof. unfold byte_ok, native. destruct le; lia. Qed.

Lemma lsa_split (lsa : list Z) L : 20 <= L <= Z.of_nat (length lsa) -> exists h1 h2 pre a b post rest,
  lsa = h1 :: h2 :: pre ++ a :: b :: post ++ rest /\ length pre = 14%nat /\ L = 18 + Z.of_nat (length post) /\ (2 <= length post)%nat.
Proof.
  intros H. destruct lsa as [|h1 [|h2 r]]; cbn in H; [lia | lia |]. destruct (split_field r (L - 2) 14 ltac:(lia) ltac:(lia)) as (pre & a & b & post & rest & -> & E1 & E2).
  exists h1, h2, pre, a, b, post, rest. split; [done |]. lia.
Qed.

Lemma get_byte_drop2 h1 h2 r i : 2 <= i -> get_byte (h1 :: h2 :: r) i = get_byte r (i - 2).
Proof.
  intros H. unfold get_byte. destruct (Z.ltb_spec i 0); [lia |]. destruct (Z.ltb_spec (i - 2) 0); [lia |]. replace (Z.to_nat i) with (S (S (Z.to_nat (i - 2)))) by lia. done.
Qed.

(** The checksum field of the LSA and the check, on the parts of the LSA. *)
Lemma lsa_check_run le h1 h2 pre a b post rest :
  bytes_ok (h1 :: h2 :: pre ++ a :: b :: post ++ rest) -> length pre = 14%nat -> (2 <= length post)%nat -> 
  (exists l0 l1, get_byte post 0 = Ok l0 /\ get_byte post 1 = Ok l1 /\ l0 * 256 + l1 = 18 + Z.of_nat (length post)) ->
  exists x y, lsa_checksum_ok le (h1 :: h2 :: pre ++ a :: b :: post ++ rest) = Ok (h1 :: h2 :: pre ++ x :: y :: post ++ rest, native le a b =? native le x y) /\
    1 <= x <= 255 /\ 1 <= y <= 255 /\ iso_valid (pre ++ x :: y :: post).
Proof.
  intros Hb Hp Hq (l0 & l1 & G0 & G1 & HL). rewrite !bytes_ok_cons, bytes_ok_field in Hb. destruct Hb as (_ & _ & Hb & _).
  destruct post as [|q0 [|q1 post]]; cbn in Hq; [lia | lia |]. cbn in G0, G1. injection G0 as <-. injection G1 as <-.
  assert (byte_ok q0 /\ byte_ok q1) as [B0 B1] by (apply bytes_ok_app in Hb as [_ Hb]; rewrite !bytes_ok_cons in Hb; tauto). unfold byte_ok in B0, B1.
  set (post' := q0 :: q1 :: post) in *. assert (14 = Z.of_nat (length pre)) as E14 by lia.
  destruct (fletcher_split le pre a b post' rest Hb) as (x & y & F & Hx & Hy & V); [lia |]. exists x, y. split; [| done].
  unfold lsa_checksum_ok, get_word. rewrite !get_byte_drop2 by lia. change (16 - 2) with 14. change (16 + 1 - 2) with (14 + 1). rewrite E14, get_byte_mid. cbn [mbind res_bind]. rewrite get_byte_next. cbn [mbind res_bind].
  unfold ospf_lsa_checksum. rewrite !get_byte_drop2 by lia.
  assert (get_byte (pre ++ a :: b :: post' ++ rest) (18 - 2) = Ok q0) as ->.
  { replace (pre ++ a :: b :: post' ++ rest) with ((pre ++ [a; b]) ++ q0 :: q1 :: post ++ rest) by (by rewrite <- app_assoc).
    replace (18 - 2) with (Z.of_nat (length (pre ++ [a; b]))) by (rewrite length_app; cbn; lia). apply get_byte_mid. }
  assert (get_byte (pre ++ a :: b :: post' ++ rest) (19 - 2) = Ok q1) as ->.
  { replace (pre ++ a :: b :: post' ++ rest) with ((pre ++ [a; b]) ++ q0 :: q1 :: post ++ rest) by (by rewrite <- app_assoc).
    replace (19 - 2) with (Z.of_nat (length (pre ++ [a; b])) + 1) by (rewrite length_app; cbn; lia). apply get_byte_next. }
  cbn [mbind res_bind]. rewrite HL. rewrite wrap_small by (unfold in_u; lia). cbn [drop]. rewrite ?skipn_O.
  replace (18 + Z.of_nat (length post') - 2) with (Z.of_nat (length pre) + 2 + Z.of_nat (length post')) by lia. rewrite E14. rewrite F. done.
Qed.

(** The length field of the parts. *)
Lemma lsa_length_parts h1 h2 pre a b post rest i : length pre = 14%nat -> (2 <= length post)%nat -> 0 <= i <= 1 ->
  get_byte (h1 :: h2 :: pre ++ a :: b :: post ++ rest) (18 + i) = get_byte post i.
Proof.
  intros Hp Hq Hi. rewrite get_byte_drop2 by lia. unfold get_byte. destruct (Z.ltb_spec (18 + i - 2) 0), (Z.ltb_spec i 0); try lia.
  rewrite lookup_app_r by lia. replace (Z.to_nat (18 + i - 2) - length pre)%nat with (S (S (Z.to_nat i))) by lia. change ((a :: b :: post ++ rest) !! S (S (Z.to_nat i))) with ((post ++ rest) !! Z.to_nat i). by rewrite lookup_app_l by lia.
Qed.

(** C31: the check of a received LSA decides the Fletcher condition: an LSA that is as long as it says is accepted exactly when
    neither byte of its checksum is 0 and, from the options on (the age is left out), the sum of its bytes and the sum of the partial sums are
    divisible by 255. *)
Theorem lsa_checksum_ok_iff le lsa l0 l1 a b :
  bytes_ok lsa -> get_byte lsa 18 = Ok l0 -> get_byte lsa 19 = Ok l1 -> get_byte lsa 16 = Ok a -> get_byte lsa 17 = Ok b -> 20 <= l0 * 256 + l1 <= Z.of_nat (length lsa) ->
  exists lsa' ok, lsa_checksum_ok le lsa = Ok (lsa', ok) /\
    (ok = true <-> iso_valid (take (Z.to_nat (l0 * 256 + l1 - 2)) (drop 2 lsa)) /\ a <> 0 /\ b <> 0).
Proof.
  intros Hb G0 G1 Ga Gb HL. destruct (lsa_split lsa (l0 * 256 + l1) HL) as (h1 & h2 & pre & a' & b' & post & rest & -> & Hp & EL & Hq).
  pose proof (lsa_length_parts h1 h2 pre a' b' post rest 0 Hp Hq ltac:(lia)) as P0. pose proof (lsa_length_parts h1 h2 pre a' b' post rest 1 Hp Hq ltac:(lia)) as P1.
  change (18 + 0) with 18 in P0. change (18 + 1) with 19 in P1. rewrite G0 in P0. rewrite G1 in P1.
  rewrite get_byte_drop2 in Ga, Gb by lia. change (16 - 2) with (Z.of_nat 14) in Ga. change (17 - 2) with (Z.of_nat 14 + 1) in Gb. rewrite <- Hp in Ga, Gb. rewrite get_byte_mid in Ga. rewrite get_byte_next in Gb.
  injection Ga as <-. injection Gb as <-. destruct (lsa_check_run le h1 h2 pre a' b' post rest Hb Hp Hq) as (x & y & E & Hx & Hy & V); [by exists l0, l1 |].
  eexists _, _. split; [exact E |]. rewrite !bytes_ok_cons, bytes_ok_field in Hb. destruct Hb as (_ & _ & Hb & Ba & Bb & _). cbn [drop]. rewrite ?skipn_O.
  rewrite take_field by lia. rewrite Z.eqb_eq. split.
  - intros [-> ->]%native_inj; [split; [done | lia] | done | done | unfold byte_ok; lia | unfold byte_ok; lia].
  - intros ([V0 V1] & Na & Nb). destruct V as [W0 W1]. unfold byte_ok in *. rewrite cong_mod in V0, V1, W0, W1. rewrite S0_field in V0, W0. rewrite S1_field in V1, W1.
    destruct (bytes_unique (Z.of_nat (length post) + 1) (S0 (pre ++ 0 :: 0 :: post)) (S1 (pre ++ 0 :: 0 :: post)) a' b' x y) as [-> ->]; try done; lia.
Qed.

Definition sample_lsa : list Z := [0; 1; 2; 1; 10; 0; 0; 1; 10; 0; 0; 1; 128; 0; 0; 1; 5; 5; 0; 24; 1; 2; 3; 4].

Lemma lsa_checksum_ok_iff_witness : exists lsa', lsa_checksum_ok true sample_lsa = Ok (lsa', false).
Proof.
  destruct (lsa_checksum_ok_iff true sample_lsa 0 24 5 5) as (lsa' & ok & E & H); [repeat constructor; unfold byte_ok; lia | reflexivity | reflexivity | reflexivity | reflexivity | cbn; lia |].
  exists lsa'. rewrite E. destruct ok; [| reflexivity]. destruct (proj1 H eq_refl) as [[V _] _]. exfalso. revert V. vm_compute. discriminate.
Defined.

(** ** IS-IS *)

Lemma land_bytes le a b : byte_ok a -> byte_ok b -> Z.land (native le a b) 65280 = (if le then b else a) * 256 /\ Z.land (native le a b) 255 = (if le then a else b).
Proof.
  intros Ha Hb. assert (forall h l, byte_ok h -> byte_ok l -> Z.land (h * 256 + l) 65280 = h * 256 /\ Z.land (h * 256 + l) 255 = l) as P.
  { intros h l Hh Hl. unfold byte_ok in *. split.
    - change 65280 with (Z.shiftl (Z.ones 8) 8). replace (h * 256 + l) with (Z.lor (Z.shiftl h 8) l) by (rewrite lor_shiftl_add by lia; lia). apply Z.bits_inj'. intros i Hi.
      rewrite Z.land_spec, Z.lor_spec. replace (h * 256) with (Z.shiftl h 8) by (rewrite Z.shiftl_mul_pow2; lia). rewrite !Z.shiftl_spec by lia.
      destruct (Z.ltb_spec i 8); [rewrite (Z.testbit_neg_r h), (Z.testbit_neg_r (Z.ones 8)) by lia; by rewrite andb_false_r |].
      assert (Z.testbit l i = false) as -> by (apply testbit_byte_high; [done | lia]). rewrite orb_false_r. destruct (Z.ltb_spec (i - 8) 8); [rewrite Z.ones_spec_low by lia; by rewrite andb_true_r |].
      rewrite (testbit_byte_high h) by (done || lia). done.
    - change 255 with (Z.ones 8). rewrite Z.land_ones by lia. change (2 ^ 8) with 256. rewrite Z.add_comm, Z.mod_add by lia. apply Z.mod_small. lia. }
  unfold native. destruct le; apply P; done.
Qed.

(** [iso_csum_verify] verifies nothing: [fletcher_checksum] has stored the checksum it computes where the received one was
    before the two are compared, so that every buffer whose checksum has no zero byte passes. *)
Theorem iso_csum_verify_accepts_all le buffer len offset a b :
  bytes_ok buffer -> 0 <= offset -> offset + 1 < len <= Z.of_nat (length buffer) -> len < 2 ^ 16 ->
  get_byte buffer offset = Ok a -> get_byte buffer (offset + 1) = Ok b -> a <> 0 -> b <> 0 ->
  exists buffer', iso_csum_verify le buffer len offset = Ok (buffer', 0).
Proof.
  intros Hb Ho Hl Hl2 Ga Gb Na Nb. destruct (split_field buffer len offset Ho Hl) as (pre & a' & b' & post & rest & -> & -> & E). rewrite get_byte_mid in Ga. rewrite get_byte_next in Gb.
  injection Ga as ->. injection Gb as ->. apply bytes_ok_field in Hb as (Hp & Ba & Bb & _). unfold iso_csum_verify, get_word. rewrite get_byte_mid. cbn [mbind res_bind]. rewrite get_byte_next. cbn [mbind res_bind].
  destruct (land_bytes le a b Ba Bb) as [-> ->]. rewrite (proj2 (Z.eqb_neq ((if le then b else a) * 256) 0)) by (destruct le; lia). rewrite (proj2 (Z.eqb_neq (if le then a else b) 0)) by (by destruct le). cbn [andb orb].
  rewrite wrap_small by (unfold in_u; lia). destruct (fletcher_split le pre a b post rest Hp ltac:(lia)) as (x & y & F & _). rewrite E, F. cbn [mbind res_bind].
  rewrite get_byte_mid. cbn [mbind res_bind]. rewrite get_byte_next. cbn [mbind res_bind]. rewrite Z.eqb_refl. eauto.
Qed.

(** A buffer that violates the condition passes. *)
Lemma iso_csum_verify_accepts_all_witness : ~ iso_valid [7; 7; 1; 1; 7] /\ exists buffer', iso_csum_verify true [7; 7; 1; 1; 7] 5 2 = Ok (buffer', 0).
Proof.
  split; [intros [V _]; revert V; vm_compute; discriminate |].
  apply (iso_csum_verify_accepts_all true [7; 7; 1; 1; 7] 5 2 1 1); [repeat constructor; unfold byte_ok; lia | lia | cbn; lia | lia | reflexivity | reflexivity | lia | lia].
Defined.

(** ** The Internet checksum *)

(** The sum of the words, an odd last byte completed with 0. *)
Fixpoint wsum (le : bool) (l : list Z) : Z :=
  match l with a :: b :: r => native le a b + wsum le r | [a] => native le a 0 | [] => 0 end.

(** The sum of the bytes at even places. *)
Fixpoint evens (l : list Z) : Z := match l with a :: b :: r => a + evens r | [a] => a | [] => 0 end.

(** Induction two bytes at a time. *)
Lemma pairs_ind (P : list Z -> Prop) : P [] -> (forall a, P [a]) -> (forall a b r, P r -> P (a :: b :: r)) -> forall l, P l.
Proof. intros H0 H1 H2. assert (forall l, P l /\ forall a, P (a :: l)) as H; [| intros l; apply H]. induction l as [|b l [IH1 IH2]]; auto. Qed.

Lemma wsum_app le l1 : forall l2, Nat.Even (length l1) -> wsum le (l1 ++ l2) = wsum le l1 + wsum le l2.
Proof.
  induction l1 as [| a | a b r IH] using pairs_ind; intros l2 [k Hk]; cbn in *; [done | lia |]. rewrite IH; [lia |]. exists (k - 1)%nat. lia.
Qed.

Lemma wsum_bound le l : bytes_ok l -> 0 <= 2 * wsum le l <= 65535 * (Z.of_nat (length l) + 1) /\ evens l <= wsum le l /\ 0 <= evens l.
Proof.
  induction l as [| a | a b r IH] using pairs_ind; rewrite ?bytes_ok_cons; unfold byte_ok; intros H; cbn [wsum evens length]; [lia | unfold native; destruct le; lia |].
  destruct H as (Ha & Hb & Hr%IH). unfold native. destruct le; lia.
Qed.

(** The two byte orders. *)
Lemma wsum_swap l : wsum true l = 256 * wsum false l - 65535 * evens l.
Proof. induction l as [| a | a b r IH] using pairs_ind; cbn [wsum evens]; unfold native in *; lia. Qed.

(** The residue of the one's complement sum: 0 for the sum 0 only. *)
Definition fold16 (s : Z) : Z := if s =? 0 then 0 else (s - 1) mod 65535 + 1.

Lemma fold16_unique s v : 0 < s -> 1 <= v <= 65535 -> (exists k, s = v + 65535 * k) -> fold16 s = v.
Proof.
  intros Hs Hv [k ->]. unfold fold16. rewrite (proj2 (Z.eqb_neq _ _)) by lia. replace (v + 65535 * k - 1) with (v - 1 + k * 65535) by lia. rewrite Z.mod_add, Z.mod_small by lia. lia.
Qed.

Lemma fold16_spec s : 0 <= s -> 0 <= fold16 s <= 65535 /\ (fold16 s = 0 <-> s = 0) /\ exists k, s = fold16 s + 65535 * k.
Proof.
  intros Hs. unfold fold16. destruct (Z.eqb_spec s 0) as [-> | Hn]; [split; [lia |]; split; [done |]; by exists 0 |]. pose proof (Z.mod_pos_bound (s - 1) 65535 ltac:(lia)).
  split; [lia |]. split; [lia |]. exists ((s - 1) / 65535). pose proof (Z.div_mod (s - 1) 65535 ltac:(lia)). lia.
Qed.

(** Folding the carries of a sum of 32 bits in and complementing it. *)
Lemma fold_carries s : 0 <= s < 2 ^ 32 ->
  let t := Z.shiftr s 16 + Z.land s 65535 in u16 (Z.lnot (t + Z.shiftr t 16)) = 65535 - fold16 s.
Proof.
  intros Hs. cbn zeta. change 65535 with (Z.ones 16) at 1. change (Z.land s 65535) with (Z.land s (Z.ones 16)). rewrite !Z.shiftr_div_pow2, Z.land_ones by lia. change (2 ^ 16) with 65536. set (h := s / 65536). set (l := s mod 65536).
  assert (s = 65536 * h + l /\ 0 <= l < 65536) as [Es Hl] by (split; [apply Z.div_mod; lia | apply Z.mod_pos_bound; lia]). assert (0 <= h <= 65535) as Hh by lia. clearbody h l. unfold wrap, Z.lnot. change (2 ^ 16) with 65536.
  destruct (Z.ltb_spec (h + l) 65536) as [Ht | Ht].
  - rewrite (Z.div_small (h + l)), Z.add_0_r by lia. assert (fold16 s = h + l) as ->.
    { destruct (Z.eqb_spec (h + l) 0) as [E | E]; [rewrite E; assert (s = 0) as -> by lia; done |]. apply fold16_unique; [lia | lia |]. exists h. lia. }
    symmetry. apply (Z.mod_unique_pos _ _ (-1)); lia.
  - assert ((h + l) / 65536 = 1) as -> by (symmetry; apply (Z.div_unique_pos _ _ _ (h + l - 65536)); lia). rewrite (fold16_unique s (h + l - 65535)); [| lia | lia | exists (h + 1); lia].
    symmetry. apply (Z.mod_unique_pos _ _ (-2)); lia.
Qed.

Lemma add_words_ok le l : forall n q s, length l = (2 * n)%nat -> add_words le n (l ++ q) s = Ok (q, s + wsum le l).
Proof.
  induction l as [| a | a b r IH] using pairs_ind; intros n q s Hn; cbn in Hn.
  - assert (n = 0)%nat as -> by lia. cbn. by rewrite Z.add_0_r.
  - lia.
  - destruct n as [|n]; [lia |]. cbn [add_words app wsum]. rewrite IH by lia. f_equal. f_equal. lia.
Qed.

Lemma in_cksum_run le l : bytes_ok l -> Z.of_nat (length l) < 2 ^ 16 -> in_cksum le l (Z.of_nat (length l)) = Ok (65535 - fold16 (wsum le l)).
Proof.
  intros Hb Hl. pose proof (wsum_bound le l Hb) as (Hw & _). unfold in_cksum.
  assert (exists l1 l2, l = l1 ++ l2 /\ length l1 = (2 * Z.to_nat (Z.of_nat (length l) / 2))%nat /\ (length l2 <= 1)%nat) as (l1 & l2 & -> & L1 & L2).
  { pose proof (Z.div_mod (Z.of_nat (length l)) 2 ltac:(lia)). pose proof (Z.mod_pos_bound (Z.of_nat (length l)) 2 ltac:(lia)). set (n := Z.of_nat (length l) / 2) in *.
    exists (take (2 * Z.to_nat n) l), (drop (2 * Z.to_nat n) l). rewrite take_drop, length_take, length_drop. split; [done |]. lia. }
  rewrite add_words_ok by done. cbn [mbind res_bind]. rewrite Z.add_0_l. assert (Nat.Even (length l1)) as Ev by (eexists; exact L1).
  set (n := Z.of_nat (length (l1 ++ l2))) in *. rewrite wsum_app in Hw |- * by done.
  assert ((if (0 <=? n) && Z.odd n then b ← get_byte l2 0; Ok (wsum le l1 + native le b 0) else Ok (wsum le l1)) = Ok (wsum le l1 + wsum le l2)) as ->.
  { rewrite (proj2 (Z.leb_le _ _)) by lia. cbn [andb]. assert (Z.odd (Z.of_nat (length l1)) = false) as Ho by (rewrite <- Z.negb_even, L1, Nat2Z.inj_mul, Z.even_mul; done).
    unfold n. rewrite length_app, Nat2Z.inj_add, Z.odd_add, Ho. destruct l2 as [|b [|c l2]]; cbn [length] in L2; [cbn; by rewrite Z.add_0_r | done | lia]. }
  cbn [mbind res_bind]. cbn zeta. f_equal. apply fold_carries. lia.
Qed.

(** Swapping the bytes of the residue. *)
Lemma fold16_swap l : bytes_ok l -> let f := fold16 (wsum false l) in fold16 (wsum true l) = (f mod 256) * 256 + f / 256.
Proof.
  intros Hb. cbn zeta. destruct (wsum_bound false l Hb) as (Hw & He & He0). destruct (wsum_bound true l Hb) as (Hw' & He' & _). pose proof (wsum_swap l) as Sw.
  destruct (fold16_spec (wsum false l) ltac:(lia)) as (Hf & Hz & k & Hk). set (f := fold16 (wsum false l)) in *.
  pose proof (Z.div_mod f 256 ltac:(lia)) as Df. pose proof (Z.mod_pos_bound f 256 ltac:(lia)) as Bf. set (f1 := f mod 256) in *. set (f0 := f / 256) in *. clearbody f f0 f1.
  destruct (Z.eqb_spec (wsum false l) 0) as [E | E].
  - assert (f = 0) by tauto. assert (wsum true l = 0) as -> by lia. change (fold16 0) with 0. lia.
  - apply fold16_unique; [lia | lia |]. exists (256 * k + f0 - evens l). lia.
Qed.

(** The Internet checksum: for a message of fewer than 65536 bytes with a 16-bit field at an even place that is zero,
    [in_cksum] gives a value whose two bytes in memory do not depend on the byte order of the machine, and with these bytes in the field the
    checksum of the message is 0. *)
Theorem in_cksum_self_check pre post : bytes_ok (pre ++ post) -> Nat.Even (length pre) -> Z.of_nat (length pre + 2 + length post) < 2 ^ 16 ->
  let n := Z.of_nat (length pre + 2 + length post) in
  exists c0 c1, byte_ok c0 /\ byte_ok c1 /\ forall le, in_cksum le (pre ++ 0 :: 0 :: post) n = Ok (native le c0 c1) /\ in_cksum le (pre ++ c0 :: c1 :: post) n = Ok 0.
Proof.
  intros [Hp Hq]%bytes_ok_app Ev Hn n. assert (forall c0 c1, byte_ok c0 -> byte_ok c1 -> bytes_ok (pre ++ c0 :: c1 :: post)) as Hb by (intros; rewrite bytes_ok_app, !bytes_ok_cons; done).
  assert (forall le c0 c1, byte_ok c0 -> byte_ok c1 -> in_cksum le (pre ++ c0 :: c1 :: post) n = Ok (65535 - fold16 (wsum le (pre ++ c0 :: c1 :: post)))) as Run.
  { intros le c0 c1 H0 H1. assert (n = Z.of_nat (length (pre ++ c0 :: c1 :: post))) as -> by (unfold n; rewrite length_app; cbn; lia). apply in_cksum_run; [by apply Hb |]. rewrite length_app. cbn. lia. }
  assert (byte_ok 0) as B0 by (unfold byte_ok; lia). set (z := pre ++ 0 :: 0 :: post). destruct (wsum_bound false z (Hb 0 0 B0 B0)) as (Hw & _).
  destruct (fold16_spec (wsum false z) ltac:(lia)) as (Hf & _). pose proof (fold16_swap z (Hb 0 0 B0 B0)) as Sw. cbn zeta in Sw. set (f := fold16 (wsum false z)) in *.
  pose proof (Z.div_mod f 256 ltac:(lia)) as Df. pose proof (Z.mod_pos_bound f 256 ltac:(lia)) as Bf. assert (0 <= f / 256 <= 255) as Bq by (split; [apply Z.div_pos; lia | lia]).
  exists (255 - f / 256), (255 - f mod 256). split; [unfold byte_ok; lia |]. split; [unfold byte_ok; lia |]. intros le.
  assert (65535 - fold16 (wsum le z) = native le (255 - f / 256) (255 - f mod 256)) as Hc by (unfold native; destruct le; [rewrite Sw | fold f]; lia).
  split; [unfold z in *; rewrite Run by done; by rewrite Hc |]. rewrite Run by (unfold byte_ok; lia). f_equal.
  assert (wsum le (pre ++ (255 - f / 256) :: (255 - f mod 256) :: post) = wsum le z + (65535 - fold16 (wsum le z))) as ->.
  { rewrite Hc. unfold z. rewrite !wsum_app by done. cbn [wsum]. assert (native le 0 0 = 0) as -> by (by destruct le). lia. }
  destruct (wsum_bound le z (Hb 0 0 B0 B0)) as (Hw' & _). destruct (fold16_spec (wsum le z) ltac:(lia)) as (Hf' & Hz' & k & Hk). set (f' := fold16 (wsum le z)) in *.
  rewrite (fold16_unique _ 65535); [lia | | lia | exists k; lia]. destruct (Z.eqb_spec (wsum le z) 0) as [E | E]; [assert (f' = 0) by tauto; lia |].
  assert (0 <= k) by (assert (f' <> 0) by tauto; nia). lia.
Qed.

Lemma in_cksum_self_check_witness : exists c0 c1, forall le, in_cksum le [69; 0; c0; c1; 7] 5 = Ok 0.
Proof.
  destruct (in_cksum_self_check [69; 0] [7]) as (c0 & c1 & _ & _ & H); [repeat constructor; unfold byte_ok; lia | exists 1%nat; reflexivity | cbn; lia |].
  exists c0, c1. intros le. exact (proj2 (H le)).
Defined.
