(* ===== verification/OspfNeighbor.v ===== *)
(** * ospfd/ospf_neighbor.c, ospfd/ospf_interface.c: one OSPF interface and its neighbours

    The state of one [struct ospf_interface] with the parts of [struct ospf] and [struct ospf_area] that its two
    state machines read and write.  Neighbours live in a heap; a pointer to a freed neighbour is [Oob] when it is
    followed.  The table [nbrs] (lib/table.c, file Table) is the association list of its entries in the order
    [route_next] visits them, by address.  IPv4 addresses are the numbers of their four bytes in network order.
    Threads are flags that say whether a timer runs, and two queues of events: [event_q] is the scheduler's
    event list and [ready_q] the events it has already moved to its ready list (file Thread).  Packets sent and
    LSAs originated are logged in [calls].  LSAs are values with a name that stands for their address; the
    three lists of a neighbour are in the order of the database, and their reference counts are the subject of
    the file OspfLsdb.  The build has opaque LSAs and no SNMP; interfaces of type NBMA (and so configured
    neighbours, [nbr_nbma]) and the statistics are left out. *)

From S2P Require Import Prelude OspfLsdb.
Local Open Scope Z_scope.

(** ** Constants *)

Definition NSM_DependUpon : Z := 0.
Definition NSM_Deleted : Z := 1.
Definition NSM_Down : Z := 2.
Definition NSM_Attempt : Z := 3.
Definition NSM_Init : Z := 4.
Definition NSM_TwoWay : Z := 5.
Definition NSM_ExStart : Z := 6.
Definition NSM_Exchange : Z := 7.
Definition NSM_Loading : Z := 8.
Definition NSM_Full : Z := 9.

Definition NSM_NoEvent : Z := 0.
Definition NSM_PacketReceived : Z := 1.
Definition NSM_Start : Z := 2.
Definition NSM_TwoWayReceived : Z := 3.
Definition NSM_NegotiationDone : Z := 4.
Definition NSM_ExchangeDone : Z := 5.
Definition NSM_BadLSReq : Z := 6.
Definition NSM_LoadingDone : Z := 7.
Definition NSM_AdjOK : Z := 8.
Definition NSM_SeqNumberMismatch : Z := 9.
Definition NSM_OneWayReceived : Z := 10.
Definition NSM_KillNbr : Z := 11.
Definition NSM_InactivityTimer : Z := 12.
Definition NSM_LLDown : Z := 13.

Definition ISM_DependUpon : Z := 0.
Definition ISM_Down : Z := 1.
Definition ISM_Loopback : Z := 2.
Definition ISM_Waiting : Z := 3.
Definition ISM_PointToPoint : Z := 4.
Definition ISM_DROther : Z := 5.
Definition ISM_Backup : Z := 6.
Definition ISM_DR : Z := 7.

Definition ISM_NoEvent : Z := 0.
Definition ISM_InterfaceUp : Z := 1.
Definition ISM_WaitTimer : Z := 2.
Definition ISM_BackupSeen : Z := 3.
Definition ISM_NeighborChange : Z := 4.
Definition ISM_LoopInd : Z := 5.
Definition ISM_UnloopInd : Z := 6.
Definition ISM_InterfaceDown : Z := 7.

Definition OSPF_IFTYPE_POINTOPOINT : Z := 1.
Definition OSPF_IFTYPE_BROADCAST : Z := 2.
Definition OSPF_IFTYPE_POINTOMULTIPOINT : Z := 4.
Definition OSPF_IFTYPE_VIRTUALLINK : Z := 5.
Definition OSPF_IFTYPE_LOOPBACK : Z := 6.

Definition OSPF_AREA_DEFAULT : Z := 0.
Definition OSPF_AREA_STUB : Z := 1.
Definition OSPF_AREA_NSSA : Z := 2.

Definition OSPF_OPTION_T : Z := 1.
Definition OSPF_OPTION_E : Z := 2.
Definition OSPF_OPTION_NP : Z := 8.
Definition OSPF_OPTION_O : Z := 64.

Definition OSPF_DD_FLAG_MS : Z := 1.
Definition OSPF_DD_FLAG_M : Z := 2.
Definition OSPF_DD_FLAG_I : Z := 4.
Definition OSPF_DD_FLAG_ALL : Z := 7.

Definition OSPF_ROUTER_LSA : Z := 1.
Definition OSPF_NETWORK_LSA : Z := 2.
Definition OSPF_SUMMARY_LSA : Z := 3.
Definition OSPF_ASBR_SUMMARY_LSA : Z := 4.
Definition OSPF_AS_EXTERNAL_LSA : Z := 5.
Definition OSPF_AS_NSSA_LSA : Z := 7.
Definition OSPF_OPAQUE_LINK_LSA : Z := 9.
Definition OSPF_OPAQUE_AREA_LSA : Z := 10.
Definition OSPF_OPAQUE_AS_LSA : Z := 11.
Definition IS_OPAQUE_LSA (type : Z) : bool :=
  (type =? OSPF_OPAQUE_LINK_LSA) || (type =? OSPF_OPAQUE_AREA_LSA) || (type =? OSPF_OPAQUE_AS_LSA).

(** ** Data *)

(** An LSA with its name; [o_here] tells that its [oi] is this interface (type-9 LSAs). *)
Record lsa_obj := mk_obj { o_name : positive; o_lsa : ospf_lsa; o_here : bool }.

Notation nref := positive (only parsing).

(** [struct ospf_neighbor] *)
Record ospf_neighbor := mk_nbr {
  n_state : Z; dd_flags : Z; dd_seqnum : Z;
  address : Z; src : Z; router_id : Z; n_options : Z; n_priority : Z; d_router : Z; bd_router : Z;
  last_send : bool; last_send_ts : Z;
  recv_options : Z; recv_flags : Z; recv_seqnum : Z;
  ls_rxmt : list lsa_obj; db_sum : list lsa_obj; ls_req : list lsa_obj; ls_req_last : option positive;
  crypt_seqnum : Z;
  t_inactivity : bool; t_db_desc : bool; t_ls_req : bool; t_ls_upd : bool; t_hello_reply : bool }.

(** The configuration of the interface and its area.  [c_vl_area]: the transit area of a virtual link exists. *)
Record if_conf := mk_conf {
  c_type : Z; c_address : Z; c_prefixlen : Z; c_priority : Z; c_v_wait : Z; c_v_hello : Z; c_fast_hello : Z; c_retransmit : Z;
  c_mtu_ignore : bool; c_mtu : Z; c_packet_max : Z; c_external_routing : Z; c_opaque : bool; c_passive : bool; c_vl_area : bool }.

(** An event for the interface or for a neighbour. *)
Inductive task := Ism (ev : Z) | Nsm (n : nref) (ev : Z).

(** Calls into other parts of ospfd.  [LsAckSend]: the acknowledgements that are due, if there are any, are sent. *)
Inductive call :=
| CheckAbrStatus | ScheduleAbrTask | SetMulticast | RefreshExternal
| RouterLsaUpdate | RouterLsaUpdateVl | NetworkLsaOriginate | NetworkLsaRefresh | NetworkLsaFlush
| OpaqueIsmChange (old : Z) | OpaqueNsmChange (n : nref) (old : Z)
| HelloSend | HelloReply (n : nref) | LsAckSend
| DbDescSend (n : nref) (flags seqnum : Z) (lsas : list lsa_obj) | DbDescResend (n : nref) | LsReqSend (n : nref) (lsas : list lsa_obj) | LsUpdSend (n : nref) (lsas : list lsa_obj).

Record ospf_interface := mk_oi {
  conf : if_conf; ospf_router_id : Z; clock : Z; oi_state : Z;
  nbrs : list (Z * nref); heap : gmap positive ospf_neighbor; nbr_self : nref;
  full_nbrs : Z; act_ints : Z; area_full_nbrs : Z; full_vls : Z;
  network_lsa_self : bool; t_hello : bool; t_wait : bool; t_ls_ack : bool;
  area_db : list lsa_obj; next_lsa : positive;
  event_q : list task; ready_q : list task; calls : list call }.

(** ** Field updates *)

Definition set_n_state (v : Z) (n : ospf_neighbor) : ospf_neighbor :=
  mk_nbr v (dd_flags n) (dd_seqnum n) (address n) (src n) (router_id n) (n_options n) (n_priority n) (d_router n) (bd_router n) (last_send n) (last_send_ts n) (recv_options n) (recv_flags n) (recv_seqnum n) (ls_rxmt n) (db_sum n) (ls_req n) (ls_req_last n) (crypt_seqnum n) (t_inactivity n) (t_db_desc n) (t_ls_req n) (t_ls_upd n) (t_hello_reply n).
Definition set_dd_flags (v : Z) (n : ospf_neighbor) : ospf_neighbor :=
  mk_nbr (n_state n) v (dd_seqnum n) (address n) (src n) (router_id n) (n_options n) (n_priority n) (d_router n) (bd_router n) (last_send n) (last_send_ts n) (recv_options n) (recv_flags n) (recv_seqnum n) (ls_rxmt n) (db_sum n) (ls_req n) (ls_req_last n) (crypt_seqnum n) (t_inactivity n) (t_db_desc n) (t_ls_req n) (t_ls_upd n) (t_hello_reply n).
Definition set_dd_seqnum (v : Z) (n : ospf_neighbor) : ospf_neighbor :=
  mk_nbr (n_state n) (dd_flags n) v (address n) (src n) (router_id n) (n_options n) (n_priority n) (d_router n) (bd_router n) (last_send n) (last_send_ts n) (recv_options n) (recv_flags n) (recv_seqnum n) (ls_rxmt n) (db_sum n) (ls_req n) (ls_req_last n) (crypt_seqnum n) (t_inactivity n) (t_db_desc n) (t_ls_req n) (t_ls_upd n) (t_hello_reply n).
Definition set_address (v : Z) (n : ospf_neighbor) : ospf_neighbor :=
  mk_nbr (n_state n) (dd_flags n) (dd_seqnum n) v (src n) (router_id n) (n_options n) (n_priority n) (d_router n) (bd_router n) (last_send n) (last_send_ts n) (recv_options n) (recv_flags n) (recv_seqnum n) (ls_rxmt n) (db_sum n) (ls_req n) (ls_req_last n) (crypt_seqnum n) (t_inactivity n) (t_db_desc n) (t_ls_req n) (t_ls_upd n) (t_hello_reply n).
Definition set_src (v : Z) (n : ospf_neighbor) : ospf_neighbor :=
  mk_nbr (n_state n) (dd_flags n) (dd_seqnum n) (address n) v (router_id n) (n_options n) (n_priority n) (d_router n) (bd_router n) (last_send n) (last_send_ts n) (recv_options n) (recv_flags n) (recv_seqnum n) (ls_rxmt n) (db_sum n) (ls_req n) (ls_req_last n) (crypt_seqnum n) (t_inactivity n) (t_db_desc n) (t_ls_req n) (t_ls_upd n) (t_hello_reply n).
Definition set_router_id (v : Z) (n : ospf_neighbor) : ospf_neighbor :=
  mk_nbr (n_state n) (dd_flags n) (dd_seqnum n) (address n) (src n) v (n_options n) (n_priority n) (d_router n) (bd_router n) (last_send n) (last_send_ts n) (recv_options n) (recv_flags n) (recv_seqnum n) (ls_rxmt n) (db_sum n) (ls_req n) (ls_req_last n) (crypt_seqnum n) (t_inactivity n) (t_db_desc n) (t_ls_req n) (t_ls_upd n) (t_hello_reply n).
Definition set_n_options (v : Z) (n : ospf_neighbor) : ospf_neighbor :=
  mk_nbr (n_state n) (dd_flags n) (dd_seqnum n) (address n) (src n) (router_id n) v (n_priority n) (d_router n) (bd_router n) (last_send n) (last_send_ts n) (recv_options n) (recv_flags n) (recv_seqnum n) (ls_rxmt n) (db_sum n) (ls_req n) (ls_req_last n) (crypt_seqnum n) (t_inactivity n) (t_db_desc n) (t_ls_req n) (t_ls_upd n) (t_hello_reply n).
Definition set_n_priority (v : Z) (n : ospf_neighbor) : ospf_neighbor :=
  mk_nbr (n_state n) (dd_flags n) (dd_seqnum n) (address n) (src n) (router_id n) (n_options n) v (d_router n) (bd_router n) (last_send n) (last_send_ts n) (recv_options n) (recv_flags n) (recv_seqnum n) (ls_rxmt n) (db_sum n) (ls_req n) (ls_req_last n) (crypt_seqnum n) (t_inactivity n) (t_db_desc n) (t_ls_req n) (t_ls_upd n) (t_hello_reply n).
Definition set_d_router (v : Z) (n : ospf_neighbor) : ospf_neighbor :=
  mk_nbr (n_state n) (dd_flags n) (dd_seqnum n) (address n) (src n) (router_id n) (n_options n) (n_priority n) v (bd_router n) (last_send n) (last_send_ts n) (recv_options n) (recv_flags n) (recv_seqnum n) (ls_rxmt n) (db_sum n) (ls_req n) (ls_req_last n) (crypt_seqnum n) (t_inactivity n) (t_db_desc n) (t_ls_req n) (t_ls_upd n) (t_hello_reply n).
Definition set_bd_router (v : Z) (n : ospf_neighbor) : ospf_neighbor :=
  mk_nbr (n_state n) (dd_flags n) (dd_seqnum n) (address n) (src n) (router_id n) (n_options n) (n_priority n) (d_router n) v (last_send n) (last_send_ts n) (recv_options n) (recv_flags n) (recv_seqnum n) (ls_rxmt n) (db_sum n) (ls_req n) (ls_req_last n) (crypt_seqnum n) (t_inactivity n) (t_db_desc n) (t_ls_req n) (t_ls_upd n) (t_hello_reply n).
Definition set_last_send (v : bool) (n : ospf_neighbor) : ospf_neighbor :=
  mk_nbr (n_state n) (dd_flags n) (dd_seqnum n) (address n) (src n) (router_id n) (n_options n) (n_priority n) (d_router n) (bd_router n) v (last_send_ts n) (recv_options n) (recv_flags n) (recv_seqnum n) (ls_rxmt n) (db_sum n) (ls_req n) (ls_req_last n) (crypt_seqnum n) (t_inactivity n) (t_db_desc n) (t_ls_req n) (t_ls_upd n) (t_hello_reply n).
Definition set_last_send_ts (v : Z) (n : ospf_neighbor) : ospf_neighbor :=
  mk_nbr (n_state n) (dd_flags n) (dd_seqnum n) (address n) (src n) (router_id n) (n_options n) (n_priority n) (d_router n) (bd_router n) (last_send n) v (recv_options n) (recv_flags n) (recv_seqnum n) (ls_rxmt n) (db_sum n) (ls_req n) (ls_req_last n) (crypt_seqnum n) (t_inactivity n) (t_db_desc n) (t_ls_req n) (t_ls_upd n) (t_hello_reply n).
Definition set_recv_options (v : Z) (n : ospf_neighbor) : ospf_neighbor :=
  mk_nbr (n_state n) (dd_flags n) (dd_seqnum n) (address n) (src n) (router_id n) (n_options n) (n_priority n) (d_router n) (bd_router n) (last_send n) (last_send_ts n) v (recv_flags n) (recv_seqnum n) (ls_rxmt n) (db_sum n) (ls_req n) (ls_req_last n) (crypt_seqnum n) (t_inactivity n) (t_db_desc n) (t_ls_req n) (t_ls_upd n) (t_hello_reply n).
Definition set_recv_flags (v : Z) (n : ospf_neighbor) : ospf_neighbor :=
  mk_nbr (n_state n) (dd_flags n) (dd_seqnum n) (address n) (src n) (router_id n) (n_options n) (n_priority n) (d_router n) (bd_router n) (last_send n) (last_send_ts n) (recv_options n) v (recv_seqnum n) (ls_rxmt n) (db_sum n) (ls_req n) (ls_req_last n) (crypt_seqnum n) (t_inactivity n) (t_db_desc n) (t_ls_req n) (t_ls_upd n) (t_hello_reply n).
Definition set_recv_seqnum (v : Z) (n : ospf_neighbor) : ospf_neighbor :=
  mk_nbr (n_state n) (dd_flags n) (dd_seqnum n) (address n) (src n) (router_id n) (n_options n) (n_priority n) (d_router n) (bd_router n) (last_send n) (last_send_ts n) (recv_options n) (recv_flags n) v (ls_rxmt n) (db_sum n) (ls_req n) (ls_req_last n) (crypt_seqnum n) (t_inactivity n) (t_db_desc n) (t_ls_req n) (t_ls_upd n) (t_hello_reply n).
Definition set_ls_rxmt (v : list lsa_obj) (n : ospf_neighbor) : ospf_neighbor :=
  mk_nbr (n_state n) (dd_flags n) (dd_seqnum n) (address n) (src n) (router_id n) (n_options n) (n_priority n) (d_router n) (bd_router n) (last_send n) (last_send_ts n) (recv_options n) (recv_flags n) (recv_seqnum n) v (db_sum n) (ls_req n) (ls_req_last n) (crypt_seqnum n) (t_inactivity n) (t_db_desc n) (t_ls_req n) (t_ls_upd n) (t_hello_reply n).
Definition set_db_sum (v : list lsa_obj) (n : ospf_neighbor) : ospf_neighbor :=
  mk_nbr (n_state n) (dd_flags n) (dd_seqnum n) (address n) (src n) (router_id n) (n_options n) (n_priority n) (d_router n) (bd_router n) (last_send n) (last_send_ts n) (recv_options n) (recv_flags n) (recv_seqnum n) (ls_rxmt n) v (ls_req n) (ls_req_last n) (crypt_seqnum n) (t_inactivity n) (t_db_desc n) (t_ls_req n) (t_ls_upd n) (t_hello_reply n).
Definition set_ls_req (v : list lsa_obj) (n : ospf_neighbor) : ospf_neighbor :=
  mk_nbr (n_state n) (dd_flags n) (dd_seqnum n) (address n) (src n) (router_id n) (n_options n) (n_priority n) (d_router n) (bd_router n) (last_send n) (last_send_ts n) (recv_options n) (recv_flags n) (recv_seqnum n) (ls_rxmt n) (db_sum n) v (ls_req_last n) (crypt_seqnum n) (t_inactivity n) (t_db_desc n) (t_ls_req n) (t_ls_upd n) (t_hello_reply n).
Definition set_ls_req_last (v : option positive) (n : ospf_neighbor) : ospf_neighbor :=
  mk_nbr (n_state n) (dd_flags n) (dd_seqnum n) (address n) (src n) (router_id n) (n_options n) (n_priority n) (d_router n) (bd_router n) (last_send n) (last_send_ts n) (recv_options n) (recv_flags n) (recv_seqnum n) (ls_rxmt n) (db_sum n) (ls_req n) v (crypt_seqnum n) (t_inactivity n) (t_db_desc n) (t_ls_req n) (t_ls_upd n) (t_hello_reply n).
Definition set_crypt_seqnum (v : Z) (n : ospf_neighbor) : ospf_neighbor :=
  mk_nbr (n_state n) (dd_flags n) (dd_seqnum n) (address n) (src n) (router_id n) (n_options n) (n_priority n) (d_router n) (bd_router n) (last_send n) (last_send_ts n) (recv_options n) (recv_flags n) (recv_seqnum n) (ls_rxmt n) (db_sum n) (ls_req n) (ls_req_last n) v (t_inactivity n) (t_db_desc n) (t_ls_req n) (t_ls_upd n) (t_hello_reply n).
Definition set_t_inactivity (v : bool) (n : ospf_neighbor) : ospf_neighbor :=
  mk_nbr (n_state n) (dd_flags n) (dd_seqnum n) (address n) (src n) (router_id n) (n_options n) (n_priority n) (d_router n) (bd_router n) (last_send n) (last_send_ts n) (recv_options n) (recv_flags n) (recv_seqnum n) (ls_rxmt n) (db_sum n) (ls_req n) (ls_req_last n) (crypt_seqnum n) v (t_db_desc n) (t_ls_req n) (t_ls_upd n) (t_hello_reply n).
Definition set_t_db_desc (v : bool) (n : ospf_neighbor) : ospf_neighbor :=
  mk_nbr (n_state n) (dd_flags n) (dd_seqnum n) (address n) (src n) (router_id n) (n_options n) (n_priority n) (d_router n) (bd_router n) (last_send n) (last_send_ts n) (recv_options n) (recv_flags n) (recv_seqnum n) (ls_rxmt n) (db_sum n) (ls_req n) (ls_req_last n) (crypt_seqnum n) (t_inactivity n) v (t_ls_req n) (t_ls_upd n) (t_hello_reply n).
Definition set_t_ls_req (v : bool) (n : ospf_neighbor) : ospf_neighbor :=
  mk_nbr (n_state n) (dd_flags n) (dd_seqnum n) (address n) (src n) (router_id n) (n_options n) (n_priority n) (d_router n) (bd_router n) (last_send n) (last_send_ts n) (recv_options n) (recv_flags n) (recv_seqnum n) (ls_rxmt n) (db_sum n) (ls_req n) (ls_req_last n) (crypt_seqnum n) (t_inactivity n) (t_db_desc n) v (t_ls_upd n) (t_hello_reply n).
Definition set_t_ls_upd (v : bool) (n : ospf_neighbor) : ospf_neighbor :=
  mk_nbr (n_state n) (dd_flags n) (dd_seqnum n) (address n) (src n) (router_id n) (n_options n) (n_priority n) (d_router n) (bd_router n) (last_send n) (last_send_ts n) (recv_options n) (recv_flags n) (recv_seqnum n) (ls_rxmt n) (db_sum n) (ls_req n) (ls_req_last n) (crypt_seqnum n) (t_inactivity n) (t_db_desc n) (t_ls_req n) v (t_hello_reply n).
Definition set_t_hello_reply (v : bool) (n : ospf_neighbor) : ospf_neighbor :=
  mk_nbr (n_state n) (dd_flags n) (dd_seqnum n) (address n) (src n) (router_id n) (n_options n) (n_priority n) (d_router n) (bd_router n) (last_send n) (last_send_ts n) (recv_options n) (recv_flags n) (recv_seqnum n) (ls_rxmt n) (db_sum n) (ls_req n) (ls_req_last n) (crypt_seqnum n) (t_inactivity n) (t_db_desc n) (t_ls_req n) (t_ls_upd n) v.

Definition set_conf (v : if_conf) (s : ospf_interface) : ospf_interface :=
  mk_oi v (ospf_router_id s) (clock s) (oi_state s) (nbrs s) (heap s) (nbr_self s) (full_nbrs s) (act_ints s) (area_full_nbrs s) (full_vls s) (network_lsa_self s) (t_hello s) (t_wait s) (t_ls_ack s) (area_db s) (next_lsa s) (event_q s) (ready_q s) (calls s).
Definition set_ospf_router_id (v : Z) (s : ospf_interface) : ospf_interface :=
  mk_oi (conf s) v (clock s) (oi_state s) (nbrs s) (heap s) (nbr_self s) (full_nbrs s) (act_ints s) (area_full_nbrs s) (full_vls s) (network_lsa_self s) (t_hello s) (t_wait s) (t_ls_ack s) (area_db s) (next_lsa s) (event_q s) (ready_q s) (calls s).
Definition set_clock (v : Z) (s : ospf_interface) : ospf_interface :=
  mk_oi (conf s) (ospf_router_id s) v (oi_state s) (nbrs s) (heap s) (nbr_self s) (full_nbrs s) (act_ints s) (area_full_nbrs s) (full_vls s) (network_lsa_self s) (t_hello s) (t_wait s) (t_ls_ack s) (area_db s) (next_lsa s) (event_q s) (ready_q s) (calls s).
Definition set_oi_state (v : Z) (s : ospf_interface) : ospf_interface :=
  mk_oi (conf s) (ospf_router_id s) (clock s) v (nbrs s) (heap s) (nbr_self s) (full_nbrs s) (act_ints s) (area_full_nbrs s) (full_vls s) (network_lsa_self s) (t_hello s) (t_wait s) (t_ls_ack s) (area_db s) (next_lsa s) (event_q s) (ready_q s) (calls s).
Definition set_nbrs (v : list (Z * nref)) (s : ospf_interface) : ospf_interface :=
  mk_oi (conf s) (ospf_router_id s) (clock s) (oi_state s) v (heap s) (nbr_self s) (full_nbrs s) (act_ints s) (area_full_nbrs s) (full_vls s) (network_lsa_self s) (t_hello s) (t_wait s) (t_ls_ack s) (area_db s) (next_lsa s) (event_q s) (ready_q s) (calls s).
Definition set_heap (v : gmap positive ospf_neighbor) (s : ospf_interface) : ospf_interface :=
  mk_oi (conf s) (ospf_router_id s) (clock s) (oi_state s) (nbrs s) v (nbr_self s) (full_nbrs s) (act_ints s) (area_full_nbrs s) (full_vls s) (network_lsa_self s) (t_hello s) (t_wait s) (t_ls_ack s) (area_db s) (next_lsa s) (event_q s) (ready_q s) (calls s).
Definition set_nbr_self (v : nref) (s : ospf_interface) : ospf_interface :=
  mk_oi (conf s) (ospf_router_id s) (clock s) (oi_state s) (nbrs s) (heap s) v (full_nbrs s) (act_ints s) (area_full_nbrs s) (full_vls s) (network_lsa_self s) (t_hello s) (t_wait s) (t_ls_ack s) (area_db s) (next_lsa s) (event_q s) (ready_q s) (calls s).
Definition set_full_nbrs (v : Z) (s : ospf_interface) : ospf_interface :=
  mk_oi (conf s) (ospf_router_id s) (clock s) (oi_state s) (nbrs s) (heap s) (nbr_self s) v (act_ints s) (area_full_nbrs s) (full_vls s) (network_lsa_self s) (t_hello s) (t_wait s) (t_ls_ack s) (area_db s) (next_lsa s) (event_q s) (ready_q s) (calls s).
Definition set_act_ints (v : Z) (s : ospf_interface) : ospf_interface :=
  mk_oi (conf s) (ospf_router_id s) (clock s) (oi_state s) (nbrs s) (heap s) (nbr_self s) (full_nbrs s) v (area_full_nbrs s) (full_vls s) (network_lsa_self s) (t_hello s) (t_wait s) (t_ls_ack s) (area_db s) (next_lsa s) (event_q s) (ready_q s) (calls s).
Definition set_area_full_nbrs (v : Z) (s : ospf_interface) : ospf_interface :=
  mk_oi (conf s) (ospf_router_id s) (clock s) (oi_state s) (nbrs s) (heap s) (nbr_self s) (full_nbrs s) (act_ints s) v (full_vls s) (network_lsa_self s) (t_hello s) (t_wait s) (t_ls_ack s) (area_db s) (next_lsa s) (event_q s) (ready_q s) (calls s).
Definition set_full_vls (v : Z) (s : ospf_interface) : ospf_interface :=
  mk_oi (conf s) (ospf_router_id s) (clock s) (oi_state s) (nbrs s) (heap s) (nbr_self s) (full_nbrs s) (act_ints s) (area_full_nbrs s) v (network_lsa_self s) (t_hello s) (t_wait s) (t_ls_ack s) (area_db s) (next_lsa s) (event_q s) (ready_q s) (calls s).
Definition set_network_lsa_self (v : bool) (s : ospf_interface) : ospf_interface :=
  mk_oi (conf s) (ospf_router_id s) (clock s) (oi_state s) (nbrs s) (heap s) (nbr_self s) (full_nbrs s) (act_ints s) (area_full_nbrs s) (full_vls s) v (t_hello s) (t_wait s) (t_ls_ack s) (area_db s) (next_lsa s) (event_q s) (ready_q s) (calls s).
Definition set_t_hello (v : bool) (s : ospf_interface) : ospf_interface :=
  mk_oi (conf s) (ospf_router_id s) (clock s) (oi_state s) (nbrs s) (heap s) (nbr_self s) (full_nbrs s) (act_ints s) (area_full_nbrs s) (full_vls s) (network_lsa_self s) v (t_wait s) (t_ls_ack s) (area_db s) (next_lsa s) (event_q s) (ready_q s) (calls s).
Definition set_t_wait (v : bool) (s : ospf_interface) : ospf_interface :=
  mk_oi (conf s) (ospf_router_id s) (clock s) (oi_state s) (nbrs s) (heap s) (nbr_self s) (full_nbrs s) (act_ints s) (area_full_nbrs s) (full_vls s) (network_lsa_self s) (t_hello s) v (t_ls_ack s) (area_db s) (next_lsa s) (event_q s) (ready_q s) (calls s).
Definition set_t_ls_ack (v : bool) (s : ospf_interface) : ospf_interface :=
  mk_oi (conf s) (ospf_router_id s) (clock s) (oi_state s) (nbrs s) (heap s) (nbr_self s) (full_nbrs s) (act_ints s) (area_full_nbrs s) (full_vls s) (network_lsa_self s) (t_hello s) (t_wait s) v (area_db s) (next_lsa s) (event_q s) (ready_q s) (calls s).
Definition set_area_db (v : list lsa_obj) (s : ospf_interface) : ospf_interface :=
  mk_oi (conf s) (ospf_router_id s) (clock s) (oi_state s) (nbrs s) (heap s) (nbr_self s) (full_nbrs s) (act_ints s) (area_full_nbrs s) (full_vls s) (network_lsa_self s) (t_hello s) (t_wait s) (t_ls_ack s) v (next_lsa s) (event_q s) (ready_q s) (calls s).
Definition set_next_lsa (v : positive) (s : ospf_interface) : ospf_interface :=
  mk_oi (conf s) (ospf_router_id s) (clock s) (oi_state s) (nbrs s) (heap s) (nbr_self s) (full_nbrs s) (act_ints s) (area_full_nbrs s) (full_vls s) (network_lsa_self s) (t_hello s) (t_wait s) (t_ls_ack s) (area_db s) v (event_q s) (ready_q s) (calls s).
Definition set_event_q (v : list task) (s : ospf_interface) : ospf_interface :=
  mk_oi (conf s) (ospf_router_id s) (clock s) (oi_state s) (nbrs s) (heap s) (nbr_self s) (full_nbrs s) (act_ints s) (area_full_nbrs s) (full_vls s) (network_lsa_self s) (t_hello s) (t_wait s) (t_ls_ack s) (area_db s) (next_lsa s) v (ready_q s) (calls s).
Definition set_ready_q (v : list task) (s : ospf_interface) : ospf_interface :=
  mk_oi (conf s) (ospf_router_id s) (clock s) (oi_state s) (nbrs s) (heap s) (nbr_self s) (full_nbrs s) (act_ints s) (area_full_nbrs s) (full_vls s) (network_lsa_self s) (t_hello s) (t_wait s) (t_ls_ack s) (area_db s) (next_lsa s) (event_q s) v (calls s).
Definition set_calls (v : list call) (s : ospf_interface) : ospf_interface :=
  mk_oi (conf s) (ospf_router_id s) (clock s) (oi_state s) (nbrs s) (heap s) (nbr_self s) (full_nbrs s) (act_ints s) (area_full_nbrs s) (full_vls s) (network_lsa_self s) (t_hello s) (t_wait s) (t_ls_ack s) (area_db s) (next_lsa s) (event_q s) (ready_q s) v.

Definition log (c : call) (s : ospf_interface) : ospf_interface := set_calls (calls s ++ [c]) s.

(** ** Pointers *)

Definition get_nbr (s : ospf_interface) (n : nref) : res ospf_neighbor := match heap s !! n with Some x => Ok x | None => Oob end.
Definition upd_nbr (s : ospf_interface) (n : nref) (f : ospf_neighbor -> ospf_neighbor) : res ospf_interface :=
  x ← get_nbr s n; Ok (set_heap (<[n := f x]> (heap s)) s).

(** [DR (oi)], [BDR (oi)], [PRIORITY (oi)] and [OPTIONS (oi)] are fields of the pseudo neighbour. *)
Definition DR (s : ospf_interface) : res Z := d_router <$> get_nbr s (nbr_self s).
Definition BDR (s : ospf_interface) : res Z := bd_router <$> get_nbr s (nbr_self s).
Definition PRIORITY (s : ospf_interface) : res Z := n_priority <$> get_nbr s (nbr_self s).
Definition OPTIONS (s : ospf_interface) : res Z := n_options <$> get_nbr s (nbr_self s).

Definition NBR_IS_DR (n : ospf_neighbor) : bool := address n =? d_router n.
Definition NBR_IS_BDR (n : ospf_neighbor) : bool := address n =? bd_router n.

Definition is_vlink (s : ospf_interface) : bool := c_type (conf s) =? OSPF_IFTYPE_VIRTUALLINK.

(** ** The table of neighbours *)

Fixpoint tab_lookup (k : Z) (l : list (Z * nref)) : option nref :=
  match l with [] => None | (j, n) :: r => if j =? k then Some n else tab_lookup k r end.
Fixpoint tab_insert (k : Z) (n : nref) (l : list (Z * nref)) : list (Z * nref) :=
  match l with
  | [] => [(k, n)]
  | (j, m) :: r => if k <? j then (k, n) :: l else if j =? k then (k, n) :: r else (j, m) :: tab_insert k n r
  end.
Definition tab_delete (k : Z) (l : list (Z * nref)) : list (Z * nref) := filter (fun e => e.1 <> k) l.

(** ** LSA lists *)

Definition lsa_key (o : lsa_obj) : Z * Z * Z := let d := data (o_lsa o) in (ls_type d, ls_id d, ls_adv_router d).
Definition key_ltb (a b : Z * Z * Z) : bool :=
  let '(t1, i1, r1) := a in let '(t2, i2, r2) := b in
  (t1 <? t2) || ((t1 =? t2) && ((i1 <? i2) || ((i1 =? i2) && (r1 <? r2)))).

Definition db_lookup (k : Z * Z * Z) (l : list lsa_obj) : option lsa_obj := List.find (fun o => bool_decide (lsa_key o = k)) l.
(** [ospf_lsdb_add]: an LSA with the key of another replaces it. *)
Fixpoint db_add (x : lsa_obj) (l : list lsa_obj) : list lsa_obj :=
  match l with
  | [] => [x]
  | y :: r => if bool_decide (lsa_key x = lsa_key y) then x :: r
              else if key_ltb (lsa_key x) (lsa_key y) then x :: l else y :: db_add x r
  end.
(** [ospf_lsdb_delete]: the entry goes only if it is this LSA. *)
Definition db_delete (x : lsa_obj) (l : list lsa_obj) : list lsa_obj := filter (fun y => ~ (lsa_key y = lsa_key x /\ o_name y = o_name x)) l.

Definition is_nil {A} (l : list A) : bool := match l with [] => true | _ => false end.

(** ** Timers and events *)

(** [OSPF_NSM_EVENT_SCHEDULE], [OSPF_ISM_EVENT_SCHEDULE] *)
Definition schedule (t : task) (s : ospf_interface) : ospf_interface := set_event_q (event_q s ++ [t]) s.

Definition task_of (n : nref) (t : task) : Prop := match t with Nsm m _ => m = n | Ism _ => False end.
Global Instance task_of_dec n t : Decision (task_of n t).
Proof. destruct t; cbn; apply _. Defined.

(** [thread_cancel_event (master, nbr)]: the ready list is not searched. *)
Definition cancel_events (n : nref) (s : ospf_interface) : ospf_interface :=
  set_event_q (filter (fun t => ~ task_of n t) (event_q s)) s.

(** ** Neighbours *)

Definition ospf_nbr_key (s : ospf_interface) (n : ospf_neighbor) : Z := if is_vlink s then router_id n else src n.

Definition ospf_nbr_new (s : ospf_interface) : ospf_interface * nref :=
  let n := fresh (dom (heap s)) in
  (set_heap (<[n := mk_nbr NSM_Down OSPF_DD_FLAG_ALL 0 0 0 0 0 (-1) 0 0 false 0 0 0 0 [] [] [] None 0 false false false false false]> (heap s)) s, n).

(** [ospf_nbr_free]: its lists, packet and timers go, its queued events are cancelled. *)
Definition ospf_nbr_free (s : ospf_interface) (n : nref) : res ospf_interface :=
  _ ← get_nbr s n;
  let s := cancel_events n s in
  Ok (set_heap (delete n (heap s)) s).

Definition ospf_nbr_delete (s : ospf_interface) (n : nref) : res ospf_interface :=
  x ← get_nbr s n;
  let k := ospf_nbr_key s x in
  let s := match tab_lookup k (nbrs s) with Some _ => set_nbrs (tab_delete k (nbrs s)) s | None => s end in
  ospf_nbr_free s n.

Definition ospf_nbr_bidirectional (id : Z) (neighbors : list Z) : bool := existsb (fun x => id =? x) neighbors.

(** The options of the pseudo neighbour, by the type of the area. *)
Definition self_options (routing o : Z) : Z :=
  if routing =? OSPF_AREA_DEFAULT then SET_FLAG o OSPF_OPTION_E
  else if routing =? OSPF_AREA_STUB then UNSET_FLAG o OSPF_OPTION_E
  else if routing =? OSPF_AREA_NSSA then SET_FLAG (UNSET_FLAG o OSPF_OPTION_E) OSPF_OPTION_NP
  else o.

Definition ospf_nbr_add_self (s : ospf_interface) : res ospf_interface :=
  let c := conf s in
  s ← upd_nbr s (nbr_self s) (fun n =>
    set_n_options (self_options (c_external_routing c) (n_options n))
    (set_n_state NSM_TwoWay (set_src (c_address c) (set_router_id (ospf_router_id s)
    (set_n_priority (c_priority c) (set_address (c_address c) n))))));
  x ← get_nbr s (nbr_self s);
  let k := ospf_nbr_key s x in
  match tab_lookup k (nbrs s) with
  | Some m => _ ← c_assert (bool_decide (m = nbr_self s)); Ok s
  | None => Ok (set_nbrs (tab_insert k (nbr_self s) (nbrs s)) s)
  end.

(** The neighbours of a list of table entries. *)
Fixpoint get_all (s : ospf_interface) (l : list nref) : res (list ospf_neighbor) :=
  match l with [] => Ok [] | n :: r => x ← get_nbr s n; xs ← get_all s r; Ok (x :: xs) end.

Definition ospf_nbr_count (s : ospf_interface) (state : Z) : res Z :=
  xs ← get_all s (nbrs s).*2;
  Ok (Z.of_nat (length (filter (fun n => router_id n <> ospf_router_id s /\ (state = 0 \/ n_state n = state)) xs))).

Definition ospf_nbr_lookup_by_addr (s : ospf_interface) (addr : Z) : option nref := tab_lookup addr (nbrs s).

Fixpoint lookup_routerid (s : ospf_interface) (id : Z) (l : list nref) : res (option nref) :=
  match l with
  | [] => Ok None
  | n :: r => x ← get_nbr s n; if router_id x =? id then Ok (Some n) else lookup_routerid s id r
  end.
Definition ospf_nbr_lookup_by_routerid (s : ospf_interface) (id : Z) : res (option nref) := lookup_routerid s id (nbrs s).*2.

Definition ospf_nbr_lookup (s : ospf_interface) (ip_src id : Z) : res (option nref) :=
  if is_vlink s then ospf_nbr_lookup_by_routerid s id else Ok (ospf_nbr_lookup_by_addr s ip_src).

(** [ospf_nbr_add]; [crypt] is the sequence number of a packet with cryptographic authentication. *)
Definition ospf_nbr_add (s : ospf_interface) (addr : Z) (crypt : option Z) : res (ospf_interface * nref) :=
  let '(s, n) := ospf_nbr_new s in
  s ← upd_nbr s n (fun x => set_address addr (set_src addr (set_n_state NSM_Down x)));
  s ← match crypt with Some q => upd_nbr s n (set_crypt_seqnum q) | None => Ok s end;
  Ok (s, n).

Definition ospf_nbr_get (s : ospf_interface) (ip_src id : Z) (crypt : option Z) : res (ospf_interface * nref) :=
  let k := if is_vlink s then id else ip_src in
  '(s, n) ← match tab_lookup k (nbrs s) with
            | Some n => Ok (s, n)
            | None => '(s, n) ← ospf_nbr_add s ip_src crypt; Ok (set_nbrs (tab_insert k n (nbrs s)) s, n)
            end;
  s ← upd_nbr s n (set_router_id id);
  Ok (s, n).
