(* ===== verification/OspfFsm.v ===== *)
(** * ospfd/ospf_ism.c, ospfd/ospf_nsm.c: the interface and neighbour state machines

    [thread_execute] runs an event at once: an interface that goes down kills its neighbours, a neighbour that
    comes or goes makes the interface elect again.  The handlers take it as the argument [execute], and [exec]
    ties the knot with fuel; the nesting is at most three deep. *)

From S2P Require Import Prelude OspfLsdb OspfNeighbor.
Local Open Scope Z_scope.

(** ** The election of DR and BDR (ospf_ism.c) *)

(** The turn of the loop: [max] against the next router. *)
Definition prefer (max nbr : ospf_neighbor) : ospf_neighbor :=
  if n_priority max <? n_priority nbr then nbr
  else if n_priority max =? n_priority nbr then (if router_id max <? router_id nbr then nbr else max)
  else max.
Definition ospf_dr_election_sub (routers : list ospf_neighbor) : option ospf_neighbor :=
  fold_left (fun max nbr => match max with None => Some nbr | Some m => Some (prefer m nbr) end) routers None.

(** The neighbour the loop of [ospf_elect_dr] keeps as BDR: the last with that address. *)
Definition declared_bdr (bdr : Z) (el : list ospf_neighbor) : option ospf_neighbor :=
  fold_left (fun acc nbr => if bdr =? address nbr then Some nbr else acc) el None.

Definition ospf_elect_dr (s : ospf_interface) (el_list : list nref) : res ospf_interface :=
  el ← get_all s el_list;
  bdr ← BDR s;
  let dr_list := filter (fun n => NBR_IS_DR n = true) el in
  let dr := match dr_list with [] => declared_bdr bdr el | _ => ospf_dr_election_sub dr_list end in
  upd_nbr s (nbr_self s) (set_d_router (match dr with Some d => address d | None => 0 end)).

Definition ospf_elect_bdr (s : ospf_interface) (el_list : list nref) : res ospf_interface :=
  el ← get_all s el_list;
  let no_dr_list := filter (fun n => NBR_IS_DR n = false) el in
  let bdr_list := filter (fun n => NBR_IS_BDR n = true) no_dr_list in
  let bdr := match bdr_list with [] => ospf_dr_election_sub no_dr_list | _ => ospf_dr_election_sub bdr_list end in
  upd_nbr s (nbr_self s) (set_bd_router (match bdr with Some d => address d | None => 0 end)).

Definition ospf_ism_state (s : ospf_interface) : res Z :=
  dr ← DR s;
  bdr ← BDR s;
  Ok (if dr =? c_address (conf s) then ISM_DR
      else if bdr =? c_address (conf s) then ISM_Backup
      else ISM_DROther).

Definition eligible (n : ospf_neighbor) : bool :=
  negb (router_id n =? 0) && (n_priority n >? 0) && (n_state n >=? NSM_TwoWay).

(** The entries of the table whose neighbour satisfies a test. *)
Fixpoint select_nbrs (s : ospf_interface) (f : ospf_neighbor -> bool) (l : list nref) : res (list nref) :=
  match l with
  | [] => Ok []
  | n :: r => x ← get_nbr s n; xs ← select_nbrs s f r; Ok (if f x then n :: xs else xs)
  end.
Definition ospf_dr_eligible_routers (s : ospf_interface) : res (list nref) := select_nbrs s eligible (nbrs s).*2.

Definition adj_ok_wanted (self_id : Z) (n : ospf_neighbor) : bool :=
  negb (router_id n =? 0) && (n_state n >=? NSM_TwoWay) && negb (router_id n =? self_id).
Definition ospf_dr_change (s : ospf_interface) : res ospf_interface :=
  l ← select_nbrs s (adj_ok_wanted (ospf_router_id s)) (nbrs s).*2;
  Ok (fold_left (fun s n => schedule (Nsm n NSM_AdjOK) s) l s).

Definition ospf_dr_election (s : ospf_interface) : res (ospf_interface * Z) :=
  old_dr ← DR s;
  old_bdr ← BDR s;
  let old_state := oi_state s in
  el_list ← ospf_dr_eligible_routers s;
  s ← ospf_elect_bdr s el_list;
  s ← ospf_elect_dr s el_list;
  new_state ← ospf_ism_state s;
  '(s, new_state) ←
    (if negb (new_state =? old_state) && negb ((new_state =? ISM_DROther) && (old_state <? ISM_DROther)) then
       s ← ospf_elect_bdr s el_list;
       s ← ospf_elect_dr s el_list;
       new_state ← ospf_ism_state s;
       Ok (s, new_state)
     else Ok (s, new_state));
  dr ← DR s;
  bdr ← BDR s;
  s ← (if negb (old_dr =? dr) || negb (old_bdr =? bdr) then ospf_dr_change s else Ok s);
  Ok (s, new_state).

(** ** Sending (ospf_packet.c) *)

(** The loop of [ospf_make_db_desc] over the summary list: the LSAs put into the packet and those
    that stay.  A packet that is full ends the loop over one type only. *)
Fixpoint describe (max : Z) (opaque : bool) (length : Z) (stopped : option Z) (l : list lsa_obj) : list lsa_obj * list lsa_obj :=
  match l with
  | [] => ([], [])
  | x :: r =>
      let ty := ls_type (data (o_lsa x)) in
      if bool_decide (stopped = Some ty) then let '(out, rest) := describe max opaque length stopped r in (out, x :: rest)
      else if IS_OPAQUE_LSA ty && negb opaque then describe max opaque length stopped r
      else if CHECK_FLAG (flags (o_lsa x)) OSPF_LSA_DISCARD then describe max opaque length stopped r
      else if length + 20 >? max then let '(out, rest) := describe max opaque length (Some ty) r in (out, x :: rest)
      else let '(out, rest) := describe max opaque (length + 20) stopped r in (x :: out, rest)
  end.

(** [ospf_make_db_desc]: the neighbour after it and the LSAs in the packet. *)
Definition ospf_make_db_desc (s : ospf_interface) (n : ospf_neighbor) : res (ospf_neighbor * list lsa_obj) :=
  options ← OPTIONS s;
  let opaque := CHECK_FLAG options OSPF_OPTION_O ||
    (c_opaque (conf s) && (CHECK_FLAG (dd_flags n) OSPF_DD_FLAG_I || CHECK_FLAG (n_options n) OSPF_OPTION_O)) in
  let '(out, rest) := describe (c_packet_max (conf s)) opaque 8 None (db_sum n) in
  let n := set_db_sum rest n in
  if is_nil rest then
    if n_state n >=? NSM_Exchange then Ok (set_dd_flags (UNSET_FLAG (dd_flags n) OSPF_DD_FLAG_M) n, out)
    else _ ← c_assert (CHECK_FLAG (dd_flags n) OSPF_DD_FLAG_M); Ok (n, out)
  else Ok (n, out).

Definition ospf_db_desc_send (s : ospf_interface) (n : nref) : res ospf_interface :=
  x ← get_nbr s n;
  '(x, out) ← ospf_make_db_desc s x;
  s ← upd_nbr s n (fun _ => set_last_send_ts (clock s) (set_last_send true x));
  Ok (log (DbDescSend n (dd_flags x) (dd_seqnum x) out) s).

(** [ospf_db_desc_resend] copies the packet sent last. *)
Definition ospf_db_desc_resend (s : ospf_interface) (n : nref) : res ospf_interface :=
  x ← get_nbr s n;
  if last_send x then Ok (log (DbDescResend n) s) else Oob.

(** [ospf_make_ls_req]: the requests that fit behind the header of 24 bytes, 12 bytes each. *)
Fixpoint ospf_make_ls_req (max length : Z) (l : list lsa_obj) : list lsa_obj :=
  match l with
  | [] => []
  | x :: r => if length + 36 >? max then [] else x :: ospf_make_ls_req max (length + 12) r
  end.

Definition ospf_ls_req_send (s : ospf_interface) (n : nref) : res ospf_interface :=
  x ← get_nbr s n;
  let out := ospf_make_ls_req (c_packet_max (conf s)) 0 (ls_req x) in
  match list.last out with
  | None => Ok s
  | Some o => s ← upd_nbr s n (fun x => set_t_ls_req true (set_ls_req_last (Some (o_name o)) x)); Ok (log (LsReqSend n out) s)
  end.

(** ** The neighbour state machine (ospf_nsm.c) *)

(** The timers of a neighbour by its state; [nsm_timer_set] sets them. *)
Definition timers_of (x : ospf_neighbor) : ospf_neighbor :=
  let st := n_state x in
  if (st =? NSM_Deleted) || (st =? NSM_Down) then
    set_t_ls_req false (set_t_ls_upd false (set_t_db_desc false (set_t_hello_reply false (set_t_inactivity false x))))
  else if (st =? NSM_Attempt) || (st =? NSM_Init) || (st =? NSM_TwoWay) then
    set_t_ls_req false (set_t_ls_upd false (set_t_db_desc false x))
  else if st =? NSM_ExStart then set_t_ls_req false (set_t_ls_upd false (set_t_db_desc true x))
  else if st =? NSM_Exchange then
    let x := set_t_ls_upd true x in
    if CHECK_FLAG (dd_flags x) OSPF_DD_FLAG_MS then x else set_t_db_desc false x
  else set_t_db_desc false x.
Definition nsm_timer_set (s : ospf_interface) (n : nref) : res ospf_interface := upd_nbr s n timers_of.

Definition is_p2p (s : ospf_interface) : bool :=
  let t := c_type (conf s) in
  (t =? OSPF_IFTYPE_POINTOPOINT) || (t =? OSPF_IFTYPE_POINTOMULTIPOINT) || (t =? OSPF_IFTYPE_VIRTUALLINK).

Definition nsm_should_adj (s : ospf_interface) (x : ospf_neighbor) : res bool :=
  dr ← DR s;
  bdr ← BDR s;
  Ok (is_p2p s || (c_address (conf s) =? dr) || (c_address (conf s) =? bdr) || (address x =? dr) || (address x =? bdr)).

(** [nsm_packet_received] and [nsm_start] (re)start the inactivity timer. *)
Definition nsm_packet_received (s : ospf_interface) (n : nref) : res (ospf_interface * Z) :=
  s ← upd_nbr s n (set_t_inactivity true); Ok (s, 0).
Definition nsm_start (s : ospf_interface) (n : nref) : res (ospf_interface * Z) :=
  s ← upd_nbr s n (set_t_inactivity true); Ok (s, 0).

Definition nsm_twoway_received (s : ospf_interface) (n : nref) : res (ospf_interface * Z) :=
  x ← get_nbr s n;
  adj ← nsm_should_adj s x;
  Ok (s, if adj : bool then NSM_ExStart else NSM_TwoWay).

(** [ospf_ls_retransmit_add] *)
Definition ospf_ls_retransmit_add (now : Z) (o : lsa_obj) (n : ospf_neighbor) : ospf_neighbor :=
  let old := db_lookup (lsa_key o) (ls_rxmt n) in
  if ospf_lsa_more_recent now (o_lsa <$> old) (Some (o_lsa o)) <? 0 then set_ls_rxmt (db_add o (ls_rxmt n)) n else n.

Definition ospf_db_summary_add (now : Z) (n : ospf_neighbor) (o : lsa_obj) : ospf_neighbor :=
  if (ls_type (data (o_lsa o)) =? OSPF_OPAQUE_LINK_LSA) && negb (o_here o) then n
  else if CHECK_FLAG (flags (o_lsa o)) OSPF_LSA_LOCAL_XLT then n
  else if IS_LSA_MAXAGE now (o_lsa o) then ospf_ls_retransmit_add now o n
  else set_db_sum (db_add o (db_sum n)) n.

(** [LSDB_LOOP] over the LSAs of one type. *)
Definition of_type (ty : Z) (l : list lsa_obj) : list lsa_obj := filter (fun o => ls_type (data (o_lsa o)) = ty) l.
Definition summary_add_type (s : ospf_interface) (ty : Z) (n : ospf_neighbor) : ospf_neighbor :=
  fold_left (ospf_db_summary_add (clock s)) (of_type ty (area_db s)) n.

Definition nsm_negotiation_done (s : ospf_interface) (n : nref) : res (ospf_interface * Z) :=
  let ext := negb (is_vlink s) && (c_external_routing (conf s) =? OSPF_AREA_DEFAULT) in
  s ← upd_nbr s n (fun x =>
    let x := summary_add_type s OSPF_ROUTER_LSA x in
    let x := summary_add_type s OSPF_NETWORK_LSA x in
    let x := summary_add_type s OSPF_SUMMARY_LSA x in
    let x := summary_add_type s OSPF_ASBR_SUMMARY_LSA x in
    let x := if CHECK_FLAG (n_options x) OSPF_OPTION_O
             then summary_add_type s OSPF_OPAQUE_AREA_LSA (summary_add_type s OSPF_OPAQUE_LINK_LSA x) else x in
    let x := if CHECK_FLAG (n_options x) OSPF_OPTION_NP then summary_add_type s OSPF_AS_NSSA_LSA x else x in
    let x := if ext then summary_add_type s OSPF_AS_EXTERNAL_LSA x else x in
    if CHECK_FLAG (n_options x) OSPF_OPTION_O && ext then summary_add_type s OSPF_OPAQUE_AS_LSA x else x);
  Ok (s, 0).

Definition nsm_exchange_done (s : ospf_interface) (n : nref) : res (ospf_interface * Z) :=
  x ← get_nbr s n;
  if is_nil (ls_req x) then Ok (s, NSM_Full)
  else s ← ospf_ls_req_send s n; Ok (s, NSM_Loading).

Definition nsm_adj_ok (s : ospf_interface) (n : nref) : res (ospf_interface * Z) :=
  x ← get_nbr s n;
  adj ← nsm_should_adj s x;
  Ok (s, if (n_state x =? NSM_TwoWay) && adj then NSM_ExStart
         else if (n_state x >=? NSM_ExStart) && negb adj then NSM_TwoWay
         else n_state x).

(** [nsm_clear_adj] *)
Definition clear_adj (x : ospf_neighbor) : ospf_neighbor :=
  let x := set_db_sum [] x in
  let x := if is_nil (ls_req x) then x else set_ls_req [] (set_ls_req_last None x) in
  let x := if is_nil (ls_rxmt x) then x else set_ls_req_last None (set_ls_rxmt [] x) in
  set_n_options (UNSET_FLAG (n_options x) OSPF_OPTION_O) x.
Definition nsm_clear_adj (s : ospf_interface) (n : nref) : res ospf_interface := upd_nbr s n clear_adj.

Definition nsm_kill_nbr (s : ospf_interface) (n : nref) : res (ospf_interface * Z) :=
  _ ← c_assert (negb (bool_decide (n = nbr_self s)));
  _ ← get_nbr s n;
  Ok (s, 0).

Inductive nsm_func := F_packet_received | F_start | F_twoway | F_negotiation | F_exchange | F_adj_ok | F_kill.
Global Instance nsm_func_eq_dec : EqDecision nsm_func.
Proof. solve_decision. Defined.
Definition run_nsm_func (f : nsm_func) : ospf_interface -> nref -> res (ospf_interface * Z) :=
  match f with
  | F_packet_received => nsm_packet_received
  | F_start => nsm_start
  | F_twoway => nsm_twoway_received
  | F_negotiation => nsm_negotiation_done
  | F_exchange => nsm_exchange_done
  | F_adj_ok => nsm_adj_ok
  | F_kill => nsm_kill_nbr
  end.

(** The table [NSM]. *)
Definition NSM : list (list (option nsm_func * Z)) :=
  let no z := (None, z) in
  let kill := [(Some F_kill, NSM_Deleted); (Some F_kill, NSM_Deleted); (Some F_kill, NSM_Deleted)] in
  [ (* DependUpon *) replicate 14 (no NSM_DependUpon);
    (* Deleted *) replicate 14 (no NSM_Deleted);
    (* Down *)
    [no NSM_DependUpon; (Some F_packet_received, NSM_Init); (Some F_start, NSM_Attempt); no NSM_Down; no NSM_Down; no NSM_Down;
     no NSM_Down; no NSM_Down; no NSM_Down; no NSM_Down; no NSM_Down] ++ kill;
    (* Attempt *)
    [no NSM_DependUpon; (Some F_packet_received, NSM_Init); no NSM_Attempt; no NSM_Attempt; no NSM_Attempt; no NSM_Attempt;
     no NSM_Attempt; no NSM_Attempt; no NSM_Attempt; no NSM_Attempt; no NSM_Attempt] ++ kill;
    (* Init *)
    [no NSM_DependUpon; (Some F_packet_received, NSM_Init); no NSM_Init; (Some F_twoway, NSM_DependUpon); no NSM_Init; no NSM_Init;
     no NSM_Init; no NSM_Init; no NSM_Init; no NSM_Init; no NSM_Init] ++ kill;
    (* 2-Way *)
    [no NSM_DependUpon; (Some F_packet_received, NSM_TwoWay); no NSM_TwoWay; no NSM_TwoWay; no NSM_TwoWay; no NSM_TwoWay;
     no NSM_TwoWay; no NSM_TwoWay; (Some F_adj_ok, NSM_DependUpon); no NSM_TwoWay; no NSM_Init] ++ kill;
    (* ExStart *)
    [no NSM_DependUpon; (Some F_packet_received, NSM_ExStart); no NSM_ExStart; no NSM_ExStart; (Some F_negotiation, NSM_Exchange); no NSM_ExStart;
     no NSM_ExStart; no NSM_ExStart; (Some F_adj_ok, NSM_DependUpon); no NSM_ExStart; no NSM_Init] ++ kill;
    (* Exchange *)
    [no NSM_DependUpon; (Some F_packet_received, NSM_Exchange); no NSM_Exchange; no NSM_Exchange; no NSM_Exchange; (Some F_exchange, NSM_DependUpon);
     no NSM_ExStart; no NSM_Exchange; (Some F_adj_ok, NSM_DependUpon); no NSM_ExStart; no NSM_Init] ++ kill;
    (* Loading *)
    [no NSM_DependUpon; (Some F_packet_received, NSM_Loading); no NSM_Loading; no NSM_Loading; no NSM_Loading; no NSM_Loading;
     no NSM_ExStart; no NSM_Full; (Some F_adj_ok, NSM_DependUpon); no NSM_ExStart; no NSM_Init] ++ kill;
    (* Full *)
    [no NSM_DependUpon; (Some F_packet_received, NSM_Full); no NSM_Full; no NSM_Full; no NSM_Full; no NSM_Full;
     no NSM_ExStart; no NSM_Full; (Some F_adj_ok, NSM_DependUpon); no NSM_ExStart; no NSM_Init] ++ kill ].

(** [table[i][j]] *)
Definition entry {A} (t : list (list A)) (i j : Z) : res A :=
  match t !! Z.to_nat i with
  | Some row => if (i <? 0) || (j <? 0) then Oob else match row !! Z.to_nat j with Some e => Ok e | None => Oob end
  | None => Oob
  end.

(** [ospf_network_lsa_update] (ospf_lsa.c): an LSA that is there is refreshed; a new one is installed and flooded
    unless the network has no full neighbour ([ospf_network_lsa_new]). *)
Definition ospf_network_lsa_update (s : ospf_interface) : ospf_interface :=
  if network_lsa_self s then log NetworkLsaRefresh s
  else if full_nbrs s =? 0 then s
  else log NetworkLsaOriginate (set_network_lsa_self true s).

Definition flush_network_lsa (s : ospf_interface) : ospf_interface := set_network_lsa_self false (log NetworkLsaFlush s).

(** The block of [nsm_change_state] for a neighbour that becomes full or stops being it: the counters and the
    router-LSAs, then the network-LSA. *)
Definition count_full (s : ospf_interface) (full : bool) : ospf_interface :=
  let vl := is_vlink s && c_vl_area (conf s) in
  let s :=
    if full then
      let s := log CheckAbrStatus (set_area_full_nbrs (area_full_nbrs s + 1) (set_full_nbrs (full_nbrs s + 1) s)) in
      let s := if vl then let s := set_full_vls (full_vls s + 1) s in if full_vls s =? 1 then log ScheduleAbrTask s else s else s in
      log RefreshExternal s
    else
      let s := log CheckAbrStatus (set_area_full_nbrs (area_full_nbrs s - 1) (set_full_nbrs (full_nbrs s - 1) s)) in
      if vl && (full_vls s >? 0)
      then let s := set_full_vls (full_vls s - 1) s in if full_vls s =? 0 then log ScheduleAbrTask s else s else s in
  let s := log RouterLsaUpdate s in
  if vl then log RouterLsaUpdateVl s else s.

Definition full_changed (s : ospf_interface) (full : bool) : ospf_interface :=
  let s := count_full s full in
  if oi_state s =? ISM_DR then
    if network_lsa_self s && (full_nbrs s =? 0) then flush_network_lsa s else ospf_network_lsa_update s
  else s.

(** The start of the exchange of database descriptions. *)
Definition start_exchange (s : ospf_interface) (n : nref) : res ospf_interface :=
  s ← upd_nbr s n (fun x => set_dd_flags OSPF_DD_FLAG_ALL
        (set_dd_seqnum (if dd_seqnum x =? 0 then u32 (clock s / 1000000) else u32 (dd_seqnum x + 1)) x));
  ospf_db_desc_send s n.

Section Handlers.
Context (execute : task -> ospf_interface -> res ospf_interface).

Definition nsm_change_state (s : ospf_interface) (n : nref) (state : Z) : res ospf_interface :=
  x ← get_nbr s n;
  let old_state := n_state x in
  s ← upd_nbr s n (set_n_state state);
  let s := if (negb (old_state =? NSM_Full) && (state =? NSM_Full)) || ((old_state =? NSM_Full) && negb (state =? NSM_Full))
           then full_changed s (state =? NSM_Full) else s in
  let s := log (OpaqueNsmChange n old_state) s in
  s ← (if (old_state >? NSM_ExStart) && (state <=? NSM_ExStart) then nsm_clear_adj s n else Ok s);
  s ← (if state =? NSM_ExStart then start_exchange s n else Ok s);
  s ← (if state =? NSM_Down then upd_nbr s n (set_crypt_seqnum 0) else Ok s);
  if (oi_state s =? ISM_DROther) || (oi_state s =? ISM_Backup) || (oi_state s =? ISM_DR) then
    if ((old_state <? NSM_TwoWay) && (state >=? NSM_TwoWay)) || ((old_state >=? NSM_TwoWay) && (state <? NSM_TwoWay))
    then execute (Ism ISM_NeighborChange) s else Ok s
  else Ok s.

Definition ospf_nsm_event (s : ospf_interface) (n : nref) (event : Z) : res ospf_interface :=
  x ← get_nbr s n;
  '(func, next) ← entry NSM (n_state x) event;
  '(s, next_state) ← match func with
      | None => Ok (s, next)
      | Some f =>
          '(s, func_state) ← run_nsm_func f s n;
          Ok (s, if next =? NSM_DependUpon then func_state else next)
      end;
  _ ← c_assert (negb (next_state =? NSM_DependUpon));
  x ← get_nbr s n;
  s ← (if negb (next_state =? n_state x) then nsm_change_state s n next_state else Ok s);
  s ← nsm_timer_set s n;
  x ← get_nbr s n;
  if n_state x =? NSM_Deleted then ospf_nbr_delete s n else Ok s.

(** ** The interface state machine (ospf_ism.c) *)

Definition ism_timer_set (s : ospf_interface) : ospf_interface :=
  let st := oi_state s in
  if (st =? ISM_Down) || (st =? ISM_Loopback) then set_t_ls_ack false (set_t_wait false (set_t_hello false s))
  else if st =? ISM_Waiting then set_t_ls_ack false (set_t_wait true (set_t_hello true s))
  else if (st =? ISM_PointToPoint) || (st =? ISM_DROther) || (st =? ISM_Backup) || (st =? ISM_DR)
  then set_t_ls_ack true (set_t_wait false (set_t_hello true s))
  else s.

(** [KillNbr] for the entries of the table, the pseudo neighbour excepted. *)
Fixpoint kill_all (l : list Z) (s : ospf_interface) : res ospf_interface :=
  match l with
  | [] => Ok s
  | k :: r =>
      s ← match tab_lookup k (nbrs s) with
          | Some n => if bool_decide (n = nbr_self s) then Ok s else execute (Nsm n NSM_KillNbr) s
          | None => Ok s
          end;
      kill_all r s
  end.

Definition ospf_if_cleanup (s : ospf_interface) : res ospf_interface :=
  s ← kill_all (nbrs s).*1 s;
  s ← ospf_nbr_delete s (nbr_self s);
  let '(s, n) := ospf_nbr_new s in
  ospf_nbr_add_self (set_nbr_self n s).

Definition ism_interface_up (s : ospf_interface) : res (ospf_interface * Z) :=
  prio ← PRIORITY s;
  Ok (s, if is_p2p s then ISM_PointToPoint else if prio =? 0 then ISM_DROther else ISM_Waiting).

Definition ism_interface_down (s : ospf_interface) : res (ospf_interface * Z) :=
  s ← ospf_if_cleanup s; Ok (s, 0).

Inductive ism_func := G_ignore | G_interface_up | G_interface_down | G_loop_ind | G_wait_timer | G_backup_seen | G_neighbor_change.
Definition run_ism_func (f : ism_func) (s : ospf_interface) : res (ospf_interface * Z) :=
  match f with
  | G_ignore | G_loop_ind => Ok (s, 0)
  | G_interface_up => ism_interface_up s
  | G_interface_down => ism_interface_down s
  | G_wait_timer | G_backup_seen | G_neighbor_change => ospf_dr_election s
  end.

(** The table [ISM]. *)
Definition ISM : list (list (ism_func * Z)) :=
  let ig z := (G_ignore, z) in
  [ (* DependUpon *) replicate 8 (ig ISM_DependUpon);
    (* Down *)
    [ig ISM_DependUpon; (G_interface_up, ISM_DependUpon); ig ISM_Down; ig ISM_Down; ig ISM_Down; (G_loop_ind, ISM_Loopback); ig ISM_Down;
     (G_interface_down, ISM_Down)];
    (* Loopback *)
    [ig ISM_DependUpon; ig ISM_Loopback; ig ISM_Loopback; ig ISM_Loopback; ig ISM_Loopback; ig ISM_Loopback; ig ISM_Down;
     (G_interface_down, ISM_Down)];
    (* Waiting *)
    [ig ISM_DependUpon; ig ISM_Waiting; (G_wait_timer, ISM_DependUpon); (G_backup_seen, ISM_DependUpon); ig ISM_Waiting;
     (G_loop_ind, ISM_Loopback); ig ISM_Waiting; (G_interface_down, ISM_Down)];
    (* Point-to-Point *)
    [ig ISM_DependUpon; ig ISM_PointToPoint; ig ISM_PointToPoint; ig ISM_PointToPoint; ig ISM_PointToPoint;
     (G_loop_ind, ISM_Loopback); ig ISM_PointToPoint; (G_interface_down, ISM_Down)];
    (* DROther *)
    [ig ISM_DependUpon; ig ISM_DROther; ig ISM_DROther; ig ISM_DROther; (G_neighbor_change, ISM_DependUpon);
     (G_loop_ind, ISM_Loopback); ig ISM_DROther; (G_interface_down, ISM_Down)];
    (* Backup *)
    [ig ISM_DependUpon; ig ISM_Backup; ig ISM_Backup; ig ISM_Backup; (G_neighbor_change, ISM_DependUpon);
     (G_loop_ind, ISM_Loopback); ig ISM_Backup; (G_interface_down, ISM_Down)];
    (* DR *)
    [ig ISM_DependUpon; ig ISM_DR; ig ISM_DR; ig ISM_DR; (G_neighbor_change, ISM_DependUpon);
     (G_loop_ind, ISM_Loopback); ig ISM_DR; (G_interface_down, ISM_Down)] ].

Definition ism_change_state (s : ospf_interface) (state : Z) : ospf_interface :=
  let old_state := oi_state s in
  let s := log SetMulticast (set_oi_state state s) in
  let s := if (old_state =? ISM_Down) || (state =? ISM_Down) then log CheckAbrStatus s else s in
  let s := if state =? ISM_Down then (if act_ints s >? 0 then set_act_ints (act_ints s - 1) s else s)
           else if old_state =? ISM_Down then set_act_ints (act_ints s + 1) s else s in
  let s := log RouterLsaUpdate s in
  let s := if negb (old_state =? ISM_DR) && (state =? ISM_DR) then ospf_network_lsa_update s
           else if (old_state =? ISM_DR) && negb (state =? ISM_DR)
           then set_network_lsa_self false (if network_lsa_self s then log NetworkLsaFlush s else s)
           else s in
  log CheckAbrStatus (log (OpaqueIsmChange old_state) s).

Definition ospf_ism_event (s : ospf_interface) (event : Z) : res ospf_interface :=
  '(func, _) ← entry ISM (oi_state s) event;
  '(s, next_state) ← run_ism_func func s;
  next_state ← (if next_state =? 0 then '(_, nx) ← entry ISM (oi_state s) event; Ok nx else Ok next_state);
  let s := if negb (next_state =? oi_state s) then ism_change_state s next_state else s in
  Ok (ism_timer_set s).

End Handlers.

(** [thread_execute] *)
Fixpoint exec (fuel : nat) (t : task) (s : ospf_interface) : res ospf_interface :=
  match fuel with
  | O => Oob
  | S f =>
      match t with
      | Ism ev => ospf_ism_event (exec f) s ev
      | Nsm n ev => ospf_nsm_event (exec f) s n ev
      end
  end.

(** Enough for an interface event that kills neighbours that make it elect. *)
Definition exec_fuel : nat := 3.
