(* ===== verification/OspfPacket.v ===== *)
(** * ospfd/ospf_packet.c: Hello and Database Description packets, timers, and the steps of an interface

    The packets arrive as records of their fields (the header checks of [ospf_read_process] are in [accepts]).
    [step] is one thing that happens to the interface: a packet, a timer, an event, or a call from other parts of
    ospfd. *)

From S2P Require Import Prelude OspfLsdb OspfNeighbor OspfFsm.
Local Open Scope Z_scope.

(** [ospf_read_process]: packets of this router, on a passive interface or on one that is down are dropped; a packet for a
    virtual link comes from its peer ([ospf_associate_packet_vl]), which is another router. *)
Definition accepts (s : ospf_interface) (ip_src id : Z) : bool :=
  negb (ip_src =? c_address (conf s)) &&
  (if is_vlink s then negb (id =? ospf_router_id s) else negb (c_passive (conf s)) && negb (oi_state s =? ISM_Down)).

(** ** Hello *)

(** [h_masklen] is [ip_masklen (hello->network_mask)]; [h_crypt] the sequence number of a packet with cryptographic
    authentication. *)
Record hello_packet := mk_hello {
  h_src : Z; h_router_id : Z; h_crypt : option Z; h_masklen : Z; h_dead_interval : Z; h_hello_interval : Z;
  h_options : Z; h_priority : Z; h_d_router : Z; h_bd_router : Z; h_neighbors : list Z }.

(** The parameters of a Hello that must match the interface. *)
Definition hello_mismatch (s : ospf_interface) (h : hello_packet) : bool :=
  let c := conf s in
  (negb (c_type c =? OSPF_IFTYPE_POINTOPOINT) && negb (is_vlink s) && negb (c_prefixlen c =? h_masklen h))
  || negb (c_v_wait c =? h_dead_interval h)
  || ((c_fast_hello c =? 0) && negb (c_v_hello c =? h_hello_interval h))
  || CHECK_FLAG (h_options h) OSPF_OPTION_T.

(** The options of a Hello against those of the area. *)
Definition options_mismatch (s : ospf_interface) (mine his : Z) : bool :=
  if c_external_routing (conf s) =? OSPF_AREA_NSSA then
    negb (CHECK_FLAG mine OSPF_OPTION_NP && CHECK_FLAG his OSPF_OPTION_NP
          && negb (CHECK_FLAG mine OSPF_OPTION_E) && negb (CHECK_FLAG his OSPF_OPTION_E))
  else negb (Bool.eqb (CHECK_FLAG mine OSPF_OPTION_E) (CHECK_FLAG his OSPF_OPTION_E)).

Definition set_hello_info (h : hello_packet) (x : ospf_neighbor) : ospf_neighbor :=
  set_bd_router (h_bd_router h) (set_d_router (h_d_router h) (set_n_priority (h_priority h) x)).

Definition schedule_if (b : bool) (t : task) (s : ospf_interface) : ospf_interface := if b then schedule t s else s.

(** The interface events of a Hello that lists this router; [x] still has the values of the last one. *)
Definition hello_events (h : hello_packet) (x : ospf_neighbor) (s : ospf_interface) : ospf_interface :=
  let a := address x in
  let s := schedule_if ((a =? h_d_router h) && (h_bd_router h =? 0) && (oi_state s =? ISM_Waiting)) (Ism ISM_BackupSeen) s in
  let s := schedule_if ((oi_state s =? ISM_Waiting) && (a =? h_bd_router h)) (Ism ISM_BackupSeen) s in
  let s := schedule_if (((a =? h_d_router h) && negb (a =? d_router x)) || (negb (a =? h_d_router h) && (a =? d_router x)))
             (Ism ISM_NeighborChange) s in
  let s := schedule_if (((a =? h_bd_router h) && negb (a =? bd_router x)) || (negb (a =? h_bd_router h) && (a =? bd_router x)))
             (Ism ISM_NeighborChange) s in
  schedule_if ((n_priority x >=? 0) && negb (n_priority x =? h_priority h)) (Ism ISM_NeighborChange) s.

Definition ospf_hello (s : ospf_interface) (h : hello_packet) : res ospf_interface :=
  if h_router_id h =? ospf_router_id s then Ok s
  else if hello_mismatch s h then Ok s
  else
    let opts := if c_opaque (conf s) then UNSET_FLAG (h_options h) OSPF_OPTION_O else h_options h in
    mine ← OPTIONS s;
    if options_mismatch s mine opts then Ok s
    else
      '(s, n) ← ospf_nbr_get s (h_src h) (h_router_id h) (h_crypt h);
      let s := schedule (Nsm n NSM_PacketReceived) s in
      if ospf_nbr_bidirectional (ospf_router_id s) (h_neighbors h) then
        let s := schedule (Nsm n NSM_TwoWayReceived) s in
        s ← upd_nbr s n (fun x => set_n_options (Z.lor (n_options x) opts) x);
        x ← get_nbr s n;
        upd_nbr (hello_events h x s) n (set_hello_info h)
      else upd_nbr (schedule (Nsm n NSM_OneWayReceived) s) n (set_hello_info h).

(** ** Database Description *)

(** [dd_extra] bytes follow the last whole LSA header. *)
Record dd_packet := mk_dd {
  dd_src : Z; dd_router_id : Z; dd_mtu : Z; dd_options : Z; dd_pflags : Z; dd_seq : Z; dd_headers : list lsa_header; dd_extra : Z }.

(** [ospf_lsa_lookup_by_header]; [ospf_lsa_lookup] knows no other types. *)
Definition ospf_lsa_lookup_by_header (s : ospf_interface) (h : lsa_header) : option lsa_obj :=
  let t := ls_type h in
  if (t =? OSPF_ROUTER_LSA) || (t =? OSPF_NETWORK_LSA) || (t =? OSPF_SUMMARY_LSA) || (t =? OSPF_ASBR_SUMMARY_LSA)
     || (t =? OSPF_AS_NSSA_LSA) || (t =? OSPF_AS_EXTERNAL_LSA) || IS_OPAQUE_LSA t
  then db_lookup (t, ls_id h, ls_adv_router h) (area_db s) else None.

(** [ospf_ls_request_new] *)
Definition ospf_ls_request_new (s : ospf_interface) (h : lsa_header) : lsa_obj := mk_obj (next_lsa s) (ospf_lsa_new h (clock s)) false.

(** A header the neighbour may not describe. *)
Definition bad_header (s : ospf_interface) (x : ospf_neighbor) (h : lsa_header) : bool :=
  let t := ls_type h in
  (t <? OSPF_MIN_LSA) || (t >=? OSPF_MAX_LSA)
  || (IS_OPAQUE_LSA t && negb (CHECK_FLAG (n_options x) OSPF_OPTION_O))
  || (((t =? OSPF_AS_EXTERNAL_LSA) || (t =? OSPF_OPAQUE_AS_LSA)) && (c_external_routing (conf s) =? OSPF_AREA_STUB)).

(** One LSA header of the packet. *)
Definition dd_header (s : ospf_interface) (n : nref) (h : lsa_header) : res ospf_interface :=
  let new := ospf_ls_request_new s h in
  let s := set_next_lsa (Pos.succ (next_lsa s)) s in
  let find := ospf_lsa_lookup_by_header s h in
  let r := ospf_lsa_more_recent (clock s) (o_lsa <$> find) (Some (o_lsa new)) in
  upd_nbr s n (fun x =>
    let x := if r =? -1 then set_ls_req (db_add new (ls_req x)) x else x in
    if (r =? -1) || (r =? 0) then match find with Some f => set_db_sum (db_delete f (db_sum x)) x | None => x end else x).

(** The loop over the headers: [false] when a bad one ended it. *)
Fixpoint dd_loop (s : ospf_interface) (n : nref) (hs : list lsa_header) : res (ospf_interface * bool) :=
  match hs with
  | [] => Ok (s, true)
  | h :: r =>
      x ← get_nbr s n;
      if bad_header s x h then Ok (schedule (Nsm n NSM_SeqNumberMismatch) s, false)
      else s ← dd_header s n h; dd_loop s n r
  end.

Definition IS_SET_DD_MS (f : Z) : bool := CHECK_FLAG f OSPF_DD_FLAG_MS.
Definition IS_SET_DD_M (f : Z) : bool := CHECK_FLAG f OSPF_DD_FLAG_M.
Definition IS_SET_DD_I (f : Z) : bool := CHECK_FLAG f OSPF_DD_FLAG_I.

Definition ospf_db_desc_save_current (dd : dd_packet) (x : ospf_neighbor) : ospf_neighbor :=
  set_recv_seqnum (dd_seq dd) (set_recv_options (dd_options dd) (set_recv_flags (dd_pflags dd) x)).

Definition ospf_db_desc_proc (s : ospf_interface) (n : nref) (dd : dd_packet) : res ospf_interface :=
  '(s, good) ← dd_loop s n (dd_headers dd);
  if negb good then Ok s
  else
    x ← get_nbr s n;
    s ← (if IS_SET_DD_MS (dd_flags x) then
           s ← upd_nbr s n (fun x => set_dd_seqnum (u32 (dd_seqnum x + 1)) x);
           if negb (IS_SET_DD_M (dd_pflags dd)) && negb (IS_SET_DD_M (dd_flags x))
           then Ok (schedule (Nsm n NSM_ExchangeDone) s)
           else ospf_db_desc_send s n
         else
           s ← upd_nbr s n (set_dd_seqnum (dd_seq dd));
           s ← ospf_db_desc_send s n;
           x ← get_nbr s n;
           Ok (schedule_if (negb (IS_SET_DD_M (dd_pflags dd)) && negb (IS_SET_DD_M (dd_flags x))) (Nsm n NSM_ExchangeDone) s));
    upd_nbr s n (ospf_db_desc_save_current dd).

Definition ospf_db_desc_is_dup (dd : dd_packet) (x : ospf_neighbor) : bool :=
  (dd_options dd =? recv_options x) && (dd_pflags dd =? recv_flags x) && (dd_seq dd =? recv_seqnum x).

Definition set_dd_options (v : Z) (d : dd_packet) : dd_packet :=
  mk_dd (dd_src d) (dd_router_id d) (dd_mtu d) v (dd_pflags d) (dd_seq d) (dd_headers d) (dd_extra d).

(** [case NSM_ExStart] *)
Definition dd_exstart (s : ospf_interface) (n : nref) (dd : dd_packet) : res ospf_interface :=
  x ← get_nbr s n;
  let initial := (Z.land (dd_pflags dd) OSPF_DD_FLAG_ALL =? OSPF_DD_FLAG_ALL) && is_nil (dd_headers dd) && (dd_extra dd =? 0) in
  let ack := negb (IS_SET_DD_MS (dd_pflags dd)) && negb (IS_SET_DD_I (dd_pflags dd)) && (dd_seq dd =? dd_seqnum x)
             && (router_id x <? ospf_router_id s) in
  let proceed (f : ospf_neighbor -> ospf_neighbor) :=
    s ← upd_nbr s n (fun x => set_n_options (dd_options dd) (f x));
    s ← exec exec_fuel (Nsm n NSM_NegotiationDone) s;
    ospf_db_desc_proc s n dd in
  if initial then
    if router_id x >? ospf_router_id s
    then proceed (fun x => set_dd_flags (UNSET_FLAG (dd_flags x) (Z.lor OSPF_DD_FLAG_MS OSPF_DD_FLAG_I)) (set_dd_seqnum (dd_seq dd) x))
    else Ok s
  else if ack then proceed (fun x => set_dd_flags (UNSET_FLAG (dd_flags x) OSPF_DD_FLAG_I) x)
  else Ok s.

(** [case NSM_Exchange] *)
Definition dd_exchange (s : ospf_interface) (n : nref) (dd : dd_packet) : res ospf_interface :=
  x ← get_nbr s n;
  let master := IS_SET_DD_MS (dd_flags x) in
  if ospf_db_desc_is_dup dd x then (if master then Ok s else ospf_db_desc_resend s n)
  else if negb (Bool.eqb (IS_SET_DD_MS (dd_pflags dd)) (IS_SET_DD_MS (recv_flags x)))
          || IS_SET_DD_I (dd_pflags dd)
          || negb (dd_options dd =? n_options x)
          || (master && negb (dd_seq dd =? dd_seqnum x))
          || (negb master && negb (dd_seq dd =? u32 (dd_seqnum x + 1)))
  then Ok (schedule (Nsm n NSM_SeqNumberMismatch) s)
  else ospf_db_desc_proc s n dd.

(** [case NSM_Loading], [case NSM_Full] *)
Definition dd_full (s : ospf_interface) (n : nref) (dd : dd_packet) : res ospf_interface :=
  x ← get_nbr s n;
  if ospf_db_desc_is_dup dd x && IS_SET_DD_MS (dd_flags x) then Ok s
  else if ospf_db_desc_is_dup dd x && (clock s - last_send_ts x <? c_v_wait (conf s) * 1000000) then ospf_db_desc_resend s n
  else Ok (schedule (Nsm n NSM_SeqNumberMismatch) s).

Definition ospf_db_desc (s : ospf_interface) (dd : dd_packet) : res ospf_interface :=
  o ← ospf_nbr_lookup s (dd_src dd) (dd_router_id dd);
  match o with
  | None => Ok s
  | Some n =>
      x ← get_nbr s n;
      if negb (c_mtu_ignore (conf s)) && (dd_mtu dd >? c_mtu (conf s)) then Ok s
      else
        let dd := if (c_external_routing (conf s) =? OSPF_AREA_NSSA) && CHECK_FLAG (n_options x) OSPF_OPTION_NP
                     && negb (CHECK_FLAG (dd_options dd) OSPF_OPTION_NP)
                  then set_dd_options (SET_FLAG (dd_options dd) OSPF_OPTION_NP) dd else dd in
        if CHECK_FLAG (dd_options dd) OSPF_OPTION_T then Ok s
        else
          let dd := if CHECK_FLAG (dd_options dd) OSPF_OPTION_O && negb (c_opaque (conf s))
                    then set_dd_options (UNSET_FLAG (dd_options dd) OSPF_OPTION_O) dd else dd in
          let s := schedule (Nsm n NSM_PacketReceived) s in
          let st := n_state x in
          if st =? NSM_Init then
            s ← exec exec_fuel (Nsm n NSM_TwoWayReceived) s;
            x ← get_nbr s n;
            if n_state x =? NSM_ExStart then dd_exstart s n dd else Ok s
          else if st =? NSM_ExStart then dd_exstart s n dd
          else if st =? NSM_Exchange then dd_exchange s n dd
          else if (st =? NSM_Loading) || (st =? NSM_Full) then dd_full s n dd
          else Ok s
  end.

(** [ospf_check_nbr_loading] (ospf_nsm.c); [ospf_ls_req_event] leaves the request timer pending. *)
Definition ospf_check_nbr_loading (s : ospf_interface) (n : nref) : res ospf_interface :=
  x ← get_nbr s n;
  if n_state x =? NSM_Loading then
    if is_nil (ls_req x) then Ok (schedule (Nsm n NSM_LoadingDone) s)
    else match ls_req_last x with None => upd_nbr s n (set_t_ls_req true) | Some _ => Ok s end
  else Ok s.

(** ** Timers *)

Inductive timer := T_hello | T_wait | T_ls_ack | T_inactivity (n : nref) | T_db_desc (n : nref) | T_ls_req (n : nref) | T_ls_upd (n : nref) | T_hello_reply (n : nref).

Definition timer_on (s : ospf_interface) (t : timer) : res bool :=
  match t with
  | T_hello => Ok (t_hello s)
  | T_wait => Ok (t_wait s)
  | T_ls_ack => Ok (t_ls_ack s)
  | T_inactivity n => t_inactivity <$> get_nbr s n
  | T_db_desc n => t_db_desc <$> get_nbr s n
  | T_ls_req n => t_ls_req <$> get_nbr s n
  | T_ls_upd n => t_ls_upd <$> get_nbr s n
  | T_hello_reply n => t_hello_reply <$> get_nbr s n
  end.

(** The handlers clear the flag, and most set the timer again. *)
Definition ospf_hello_timer (s : ospf_interface) : ospf_interface :=
  set_t_hello true (if c_passive (conf s) then s else log HelloSend s).
Definition ospf_wait_timer (s : ospf_interface) : ospf_interface := schedule (Ism ISM_WaitTimer) (set_t_wait false s).
Definition ospf_ls_ack_timer (s : ospf_interface) : ospf_interface := set_t_ls_ack true (log LsAckSend s).
Definition ospf_inactivity_timer (s : ospf_interface) (n : nref) : res ospf_interface :=
  s ← upd_nbr s n (set_t_inactivity false); Ok (schedule (Nsm n NSM_InactivityTimer) s).
Definition ospf_db_desc_timer (s : ospf_interface) (n : nref) : res ospf_interface :=
  s ← upd_nbr s n (set_t_db_desc false);
  x ← get_nbr s n;
  _ ← c_assert (last_send x);
  s ← ospf_db_desc_resend s n;
  upd_nbr s n (set_t_db_desc true).
Definition ospf_ls_req_timer (s : ospf_interface) (n : nref) : res ospf_interface :=
  s ← upd_nbr s n (set_t_ls_req false);
  s ← ospf_ls_req_send s n;
  upd_nbr s n (set_t_ls_req true).
Definition ospf_ls_upd_timer (s : ospf_interface) (n : nref) : res ospf_interface :=
  x ← get_nbr s n;
  let update := filter (fun o => c_retransmit (conf s) * 1000000 <= clock s - tv_recv (o_lsa o)) (ls_rxmt x) in
  upd_nbr (if is_nil update then s else log (LsUpdSend n update) s) n (set_t_ls_upd true).
Definition ospf_hello_reply_timer (s : ospf_interface) (n : nref) : res ospf_interface :=
  s ← upd_nbr s n (set_t_hello_reply false); Ok (log (HelloReply n) s).

Definition run_timer (s : ospf_interface) (t : timer) : res ospf_interface :=
  match t with
  | T_hello => Ok (ospf_hello_timer s)
  | T_wait => Ok (ospf_wait_timer s)
  | T_ls_ack => Ok (ospf_ls_ack_timer s)
  | T_inactivity n => ospf_inactivity_timer s n
  | T_db_desc n => ospf_db_desc_timer s n
  | T_ls_req n => ospf_ls_req_timer s n
  | T_ls_upd n => ospf_ls_upd_timer s n
  | T_hello_reply n => ospf_hello_reply_timer s n
  end.

(** ** Steps *)

(** The scheduler runs the next event: the ready ones first, then all queued ones become ready. *)
Definition run_event (s : ospf_interface) : res ospf_interface :=
  match ready_q s with
  | t :: r => exec exec_fuel t (set_ready_q r s)
  | [] =>
      match event_q s with
      | t :: r => exec exec_fuel t (set_ready_q r (set_event_q [] s))
      | [] => Ok s
      end
  end.

(** [ospf_if_up], [ospf_if_down] (ospf_interface.c) *)
Definition ospf_if_up (s : ospf_interface) : ospf_interface :=
  schedule (Ism (if c_type (conf s) =? OSPF_IFTYPE_LOOPBACK then ISM_LoopInd else ISM_InterfaceUp)) s.
Definition ospf_if_down (s : ospf_interface) : res ospf_interface := exec exec_fuel (Ism ISM_InterfaceDown) s.

(** The loop of [ospf_router_id_update] (ospfd.c) for this interface. *)
Definition ospf_router_id_update (s : ospf_interface) (id : Z) : res ospf_interface :=
  if ospf_router_id s =? id then Ok s else upd_nbr (set_ospf_router_id id s) (nbr_self s) (set_router_id id).

(** A new interface with its pseudo neighbour in the table ([ospf_if_new], [ospf_nbr_add_self]). *)
Definition ospf_if_new (c : if_conf) (id now : Z) : res ospf_interface :=
  let s := mk_oi c id now ISM_Down [] ∅ 1 0 0 0 0 false false false false [] 1 [] [] [] in
  let '(s, n) := ospf_nbr_new s in
  ospf_nbr_add_self (set_nbr_self n s).

(** What other parts of ospfd do to the LSA lists of a neighbour (requests answered, LSAs flooded and acknowledged). *)
Definition set_lists (req rxmt db : list lsa_obj) (x : ospf_neighbor) : ospf_neighbor := set_db_sum db (set_ls_rxmt rxmt (set_ls_req req x)).

Inductive op :=
| Hello (h : hello_packet) | DbDesc (dd : dd_packet) | Timer (t : timer) | RunEvent
| IfUp | IfDown | RouterId (id : Z) | Clock (now : Z) | AreaDb (db : list lsa_obj)
| Traffic (n : nref) (req rxmt db : list lsa_obj) | CheckLoading (n : nref) | Packet (n : nref) (ev : Z).

Definition step (s : ospf_interface) (o : op) : res ospf_interface :=
  match o with
  | Hello h => ospf_hello s h
  | DbDesc dd => ospf_db_desc s dd
  | Timer t => run_timer s t
  | RunEvent => run_event s
  | IfUp => Ok (ospf_if_up s)
  | IfDown => ospf_if_down s
  | RouterId id => ospf_router_id_update s id
  | Clock now => Ok (set_clock now s)
  | AreaDb db => Ok (set_area_db db s)
  | Traffic n req rxmt db => upd_nbr s n (set_lists req rxmt db)
  | CheckLoading n => ospf_check_nbr_loading s n
  | Packet n ev => _ ← get_nbr s n; Ok (schedule (Nsm n ev) s)
  end.
