(* ===== verification/OspfElection.v ===== *)
(** * ospfd: the structure of an interface and its neighbours

    [base_ok]: the table of neighbours is sorted and leads to live neighbours under their keys, every neighbour is
    in the table, the pseudo neighbour is set up, and the queued events are for live neighbours.  [frame n s s']: what a
    handler for neighbour [n] may change.

    ospfd/ospf_ism.c: the election of the designated router.  The election works on pointers: the pseudo neighbour is one of the candidates, and its declared DR and BDR are
    the variables the election assigns.  [nb s n] is the neighbour a pointer leads to, [pick] the pointer
    [ospf_dr_election_sub] chooses. *)

From stdpp Require Import sorting.
From S2P Require Import Prelude OspfLsdb OspfNeighbor OspfFsm OspfPacket.
Local Open Scope Z_scope.

Notation nref := positive (only parsing).

(** ** The table *)

Notation tab_lt := (fun a b : Z * nref => a.1 < b.1).
Notation sorted := (StronglySorted tab_lt).

Lemma tab_lookup_elem k n l : sorted l -> tab_lookup k l = Some n <-> (k, n) ∈ l.
Proof.
  induction l as [|[j m] l IH]; intros S; cbn; [split; [done | by intros ?%not_elem_of_nil] |].
  apply StronglySorted_inv in S as [S F]. rewrite elem_of_cons. destruct (Z.eqb_spec j k) as [-> | Hne].
  - split; [intros [= ->]; by left |]. intros [[= ->] | H]; [done |]. rewrite list.Forall_forall in F. specialize (F _ H). cbn in F. lia.
  - rewrite IH by done. split; [by right |]. intros [[= -> ->] | H]; done.
Qed.

Lemma tab_lookup_None k l : tab_lookup k l = None -> forall n, (k, n) ∉ l.
Proof.
  induction l as [|[j m] l IH]; cbn; intros H n; [apply not_elem_of_nil |]. destruct (Z.eqb_spec j k) as [-> | Hne]; [done |].
  rewrite elem_of_cons. intros [[= -> ->] | Hn]; [done | by apply (IH H n)].
Qed.

Lemma tab_insert_elem k n l e : tab_lookup k l = None -> e ∈ tab_insert k n l <-> e = (k, n) \/ e ∈ l.
Proof.
  induction l as [|[j m] l IH]; cbn; intros H; [set_solver |]. destruct (Z.eqb_spec j k) as [-> | Hne]; [done |].
  destruct (Z.ltb_spec k j); [set_solver |]. rewrite elem_of_cons, IH, elem_of_cons by done. naive_solver.
Qed.

Lemma tab_insert_sorted k n l : tab_lookup k l = None -> sorted l -> sorted (tab_insert k n l).
Proof.
  induction l as [|[j m] l IH]; intros H S; [by repeat constructor |]. cbn in H |- *. destruct (Z.eqb_spec j k) as [-> | Hne]; [done |].
  pose proof S as [S' F]%StronglySorted_inv. destruct (Z.ltb_spec k j) as [Hlt | Hge].
  - constructor; [done |]. constructor; [done |]. eapply Forall_impl; [| exact F]. cbn. intros [i p]; cbn; lia.
  - constructor; [by apply IH |]. apply list.Forall_forall. intros e. rewrite tab_insert_elem by done. cbn. intros [-> | He]; [cbn; lia |].
    rewrite list.Forall_forall in F. by apply F.
Qed.

Lemma tab_delete_elem k l e : e ∈ tab_delete k l <-> e.1 <> k /\ e ∈ l.
Proof. unfold tab_delete. apply (list_elem_of_filter (fun e : Z * nref => e.1 <> k)). Qed.

Lemma tab_delete_sorted k l : sorted l -> sorted (tab_delete k l).
Proof.
  unfold tab_delete. induction 1 as [|e l S IH F]; [constructor |]. rewrite filter_cons. destruct (decide _); [| done].
  constructor; [done |]. apply list.Forall_forall. intros e' [_ He]%list_elem_of_filter. rewrite list.Forall_forall in F. by apply F.
Qed.

(** ** Reading and writing neighbours *)

Lemma get_nbr_Ok s n x : heap s !! n = Some x -> get_nbr s n = Ok x.
Proof. intros H. unfold get_nbr. by rewrite H. Qed.

Lemma upd_nbr_Ok s n x f : heap s !! n = Some x -> upd_nbr s n f = Ok (set_heap (<[n := f x]> (heap s)) s).
Proof. intros H. unfold upd_nbr. by rewrite (get_nbr_Ok s n x H). Qed.

Lemma get_all_Ok s (l : list nref) : (forall n, n ∈ l -> is_Some (heap s !! n)) ->
  exists xs, get_all s l = Ok xs /\ (fun n => heap s !! n) <$> l = Some <$> xs.
Proof.
  induction l as [|n l IH]; intros H; [by exists [] |]. destruct (H n ltac:(by left)) as [x Hx].
  destruct IH as (xs & E & M); [intros m Hm; apply H; by right |]. exists (x :: xs). cbn. rewrite (get_nbr_Ok s n x Hx). cbn. rewrite E, Hx. cbn.
  split; [done |]. by f_equal.
Qed.

Definition alive (s : ospf_interface) (f : ospf_neighbor -> bool) (n : nref) : Prop := exists x, heap s !! n = Some x /\ f x = true.
Global Instance alive_dec s f n : Decision (alive s f n).
Proof.
  unfold alive. destruct (heap s !! n) as [x |]; [| right; by intros (? & ? & _)].
  destruct (f x) eqn:E; [left; eauto | right; intros (? & [= <-] & H); congruence].
Defined.

Lemma select_nbrs_Ok s f (l : list nref) : (forall n, n ∈ l -> is_Some (heap s !! n)) ->
  select_nbrs s f l = Ok (filter (alive s f) l).
Proof.
  induction l as [|n l IH]; intros H; [done |]. destruct (H n ltac:(by left)) as [x Hx]. cbn [select_nbrs]. rewrite (get_nbr_Ok s n x Hx). cbn [mbind res_bind].
  rewrite IH by (intros m Hm; apply H; by right). cbn [mbind res_bind]. rewrite filter_cons. destruct (f x) eqn:E.
  - rewrite decide_True by (by exists x). done.
  - rewrite decide_False; [done |]. intros (? & Hx' & ?). rewrite Hx in Hx'. injection Hx' as <-. congruence.
Qed.

(** ** The structure *)

Definition timers (x : ospf_neighbor) : list bool := [t_inactivity x; t_db_desc x; t_ls_req x; t_ls_upd x; t_hello_reply x].

(** The pseudo neighbour. *)
Record self_ok (id own : Z) (x : ospf_neighbor) : Prop := {
  sf_state : n_state x = NSM_TwoWay;
  sf_id : router_id x = id;
  sf_address : address x = own;
  sf_src : src x = own;
  sf_timers : timers x = [false; false; false; false; false] }.

Definition task_live (s : ospf_interface) (t : task) : Prop :=
  match t with
  | Nsm n ev => is_Some (heap s !! n) /\ n <> nbr_self s /\ 1 <= ev <= 13
  | Ism ev => 1 <= ev <= 7
  end.

Record base_ok (s : ospf_interface) : Prop := {
  bo_sorted : sorted (nbrs s);
  bo_tab k n : (k, n) ∈ nbrs s -> exists x, heap s !! n = Some x /\ ospf_nbr_key s x = k;
  bo_heap n : is_Some (heap s !! n) -> exists k, (k, n) ∈ nbrs s;
  bo_address n x : heap s !! n = Some x -> address x = src x;
  bo_self : exists x, heap s !! nbr_self s = Some x /\ self_ok (ospf_router_id s) (c_address (conf s)) x;
  bo_events t : t ∈ event_q s -> task_live s t }.

Lemma bo_nbrs s n : base_ok s -> n ∈ (nbrs s).*2 -> is_Some (heap s !! n).
Proof. intros B (e & -> & He)%list_elem_of_fmap. destruct e as [k n]. destruct (bo_tab s B k n He) as (x & Hx & _). eauto. Qed.

Lemma bo_lookup s n x : base_ok s -> heap s !! n = Some x -> tab_lookup (ospf_nbr_key s x) (nbrs s) = Some n.
Proof.
  intros B Hx. apply tab_lookup_elem; [apply B |]. destruct (bo_heap s B n) as [k Hk]; [eauto |].
  destruct (bo_tab s B k n Hk) as (y & Hy & <-). rewrite Hx in Hy. by injection Hy as <-.
Qed.

Lemma bo_key_inj s n m x y : base_ok s -> heap s !! n = Some x -> heap s !! m = Some y -> ospf_nbr_key s x = ospf_nbr_key s y -> n = m.
Proof. intros B Hx Hy E. pose proof (bo_lookup s n x B Hx) as L. rewrite E, (bo_lookup s m y B Hy) in L. by injection L. Qed.

(** ** ospfd/ospf_ism.c: the election of the designated router *)

Definition nbr0 : ospf_neighbor := mk_nbr NSM_Down 0 0 0 0 0 0 0 0 0 false 0 0 0 0 [] [] [] None 0 false false false false false.
Definition nb (s : ospf_interface) (n : nref) : ospf_neighbor := default nbr0 (heap s !! n).

Lemma nb_Some s n x : heap s !! n = Some x -> nb s n = x.
Proof. intros H. unfold nb. by rewrite H. Qed.

Lemma get_all_nb s (l : list nref) : (forall n, n ∈ l -> is_Some (heap s !! n)) -> get_all s l = Ok (nb s <$> l).
Proof.
  induction l as [|n l IH]; intros H; [done |]. destruct (H n ltac:(by left)) as [x Hx]. cbn. rewrite (get_nbr_Ok s n x Hx). cbn.
  rewrite IH by (intros m Hm; apply H; by right). cbn. by rewrite (nb_Some s n x Hx).
Qed.

(** ** The best of a list *)

Definition better (m x : ospf_neighbor) : Prop := n_priority x < n_priority m \/ (n_priority x = n_priority m /\ router_id x <= router_id m).

Definition pick_step (s : ospf_interface) (acc : option nref) (n : nref) : option nref :=
  match acc with
  | None => Some n
  | Some m => Some (if (n_priority (nb s m) <? n_priority (nb s n)) || ((n_priority (nb s m) =? n_priority (nb s n)) && (router_id (nb s m) <? router_id (nb s n)))
                    then n else m)
  end.
Definition pick (s : ospf_interface) (l : list nref) : option nref := fold_left (pick_step s) l None.

Lemma sub_pick s l : ospf_dr_election_sub (nb s <$> l) = nb s <$> pick s l.
Proof.
  unfold ospf_dr_election_sub, pick.
  assert (forall acc, fold_left (fun max nbr => match max with None => Some nbr | Some m => Some (prefer m nbr) end) (nb s <$> l) (nb s <$> acc) =
    nb s <$> fold_left (pick_step s) l acc) as H; [| by apply (H None)].
  induction l as [|n l IH]; intros acc; [done |]. cbn. rewrite <- IH. f_equal. destruct acc as [m |]; [| done]. cbn. f_equal. unfold prefer.
  destruct (n_priority (nb s m) <? n_priority (nb s n)); [done |]. cbn. destruct (n_priority (nb s m) =? n_priority (nb s n)); [| done].
  by destruct (router_id (nb s m) <? router_id (nb s n)).
Qed.

Lemma pick_from s l : forall acc, acc <> None \/ l <> [] -> exists m, fold_left (pick_step s) l acc = Some m /\ (acc = Some m \/ m ∈ l) /\
  (forall n, acc = Some n \/ n ∈ l -> better (nb s m) (nb s n)).
Proof.
  induction l as [|n l IH]; intros acc Hn; cbn.
  - destruct acc as [m |]; [| naive_solver]. exists m. split; [done |]. split; [by left |]. intros k [[= <-] | ?%not_elem_of_nil]; [| done]. right. lia.
  - destruct (IH (pick_step s acc n)) as (m & E & Hm & Hb); [left; by destruct acc |]. exists m. split; [done |]. split.
    + destruct Hm as [Hm | Hm]; [| right; by right]. destruct acc as [k |]; cbn in Hm; [| injection Hm as <-; right; by left].
      injection Hm as Hm. destruct (_ || _); subst m; [right; by left | by left].
    + assert (forall k, acc = Some k \/ k = n -> better (nb s m) (nb s k)) as Hk.
      { intros k Hk. destruct acc as [a |].
        - cbn in Hb, Hm. destruct (_ || _) eqn:C; [pose proof (Hb n ltac:(by left)) as B | pose proof (Hb a ltac:(by left)) as B];
            (destruct Hk as [[= ->] | ->]; unfold better in *; lia).
        - destruct Hk as [? | ->]; [done |]. apply Hb. by left. }
      intros k [Hk' | Hk']; [apply Hk; by left |]. apply elem_of_cons in Hk' as [-> | Hk']; [apply Hk; by right | apply Hb; by right].
Qed.

Lemma pick_Some s l : l <> [] -> exists m, pick s l = Some m /\ m ∈ l /\ forall n, n ∈ l -> better (nb s m) (nb s n).
Proof.
  intros Hl. destruct (pick_from s l None) as (m & E & [? | Hm] & Hb); [by right | done |]. exists m. split; [done |]. split; [done |].
  intros n Hn. apply Hb. by right.
Qed.

Lemma pick_ext s s' l :
  (forall n, n ∈ l -> n_priority (nb s' n) = n_priority (nb s n) /\ router_id (nb s' n) = router_id (nb s n)) -> pick s' l = pick s l.
Proof.
  intros H. unfold pick. assert (forall acc, (forall m, acc = Some m -> n_priority (nb s' m) = n_priority (nb s m) /\ router_id (nb s' m) = router_id (nb s m)) ->
    fold_left (pick_step s') l acc = fold_left (pick_step s) l acc) as G; [| by apply G].
  induction l as [|n l IH]; intros acc Ha; [done |]. cbn. destruct (H n ltac:(by left)) as [Hp Hr].
  assert (pick_step s' acc n = pick_step s acc n) as ->.
  { destruct acc as [m |]; [| done]. cbn. destruct (Ha m eq_refl) as [-> ->]. by rewrite Hp, Hr. }
  apply IH; [intros k Hk; apply H; by right |]. intros m Hm. destruct acc as [a |]; cbn in Hm; injection Hm as <-; [| done].
  destruct (_ || _); [done | by apply Ha].
Qed.

(** ** One round *)

Definition addr_of (s : ospf_interface) (o : option nref) : Z := match o with Some n => address (nb s n) | None => 0 end.

Definition no_dr (s : ospf_interface) (el : list nref) : list nref := filter (fun n => NBR_IS_DR (nb s n) = false) el.
Definition says_dr (s : ospf_interface) (el : list nref) : list nref := filter (fun n => NBR_IS_DR (nb s n) = true) el.
Definition says_bdr (s : ospf_interface) (el : list nref) : list nref := filter (fun n => NBR_IS_BDR (nb s n) = true) (no_dr s el).

Definition bdr_round (s : ospf_interface) (el : list nref) : Z :=
  addr_of s (pick s (match says_bdr s el with [] => no_dr s el | l => l end)).
Definition dr_round (s : ospf_interface) (el : list nref) (bdr : Z) : Z :=
  match says_dr s el with
  | [] => match List.find (fun n => bdr =? address (nb s n)) (reverse el) with Some n => address (nb s n) | None => 0 end
  | l => addr_of s (pick s l)
  end.

Definition set_self (f : ospf_neighbor -> ospf_neighbor) (s : ospf_interface) : ospf_interface :=
  set_heap (<[nbr_self s := f (nb s (nbr_self s))]> (heap s)) s.

Lemma filter_fmap_nb s (P : ospf_neighbor -> Prop) `{HP : !forall x, Decision (P x)} (l : list nref) :
  filter P (nb s <$> l) = nb s <$> filter (fun n => P (nb s n)) l.
Proof.
  induction l as [|n l IH]; [done |]. cbn [fmap list_fmap]. rewrite !filter_cons. destruct (decide (P (nb s n))); [cbn; by f_equal | done].
Qed.

Lemma elect_bdr_run s el :
  (forall n, n ∈ el -> is_Some (heap s !! n)) -> is_Some (heap s !! nbr_self s) ->
  ospf_elect_bdr s el = Ok (set_self (set_bd_router (bdr_round s el)) s).
Proof.
  intros H [x Hx]. unfold ospf_elect_bdr. rewrite get_all_nb by done. cbn [mbind res_bind]. rewrite (upd_nbr_Ok _ _ _ _ Hx). unfold set_self. rewrite (nb_Some _ _ _ Hx).
  do 4 f_equal. unfold bdr_round, says_bdr, no_dr. rewrite !filter_fmap_nb.
  destruct (filter (fun n => NBR_IS_BDR (nb s n) = true) _) as [|k l] eqn:E; cbn [fmap list_fmap]; [| change (nb s k :: (nb s <$> l)) with (nb s <$> (k :: l))];
    rewrite sub_pick; by destruct (pick s _).
Qed.

Lemma declared_find s el b :
  declared_bdr b (nb s <$> el) = nb s <$> List.find (fun n => b =? address (nb s n)) (reverse el).
Proof.
  unfold declared_bdr. induction el as [|n el IH] using rev_ind; [done |]. rewrite fmap_app, fold_left_app, IH, reverse_snoc. cbn.
  by destruct (b =? address (nb s n)).
Qed.

Lemma elect_dr_run s el x :
  (forall n, n ∈ el -> is_Some (heap s !! n)) -> heap s !! nbr_self s = Some x ->
  ospf_elect_dr s el = Ok (set_self (set_d_router (dr_round s el (bd_router x))) s).
Proof.
  intros H Hx. unfold ospf_elect_dr, BDR. rewrite get_all_nb, (get_nbr_Ok _ _ _ Hx) by done. cbn [mbind res_bind fmap res_fmap]. rewrite (upd_nbr_Ok _ _ _ _ Hx).
  unfold set_self. rewrite (nb_Some _ _ _ Hx). do 4 f_equal. unfold dr_round, says_dr. rewrite filter_fmap_nb.
  destruct (filter _ el) as [|k l] eqn:E; cbn [fmap list_fmap].
  - rewrite declared_find. by destruct (List.find _ _).
  - change (nb s k :: (nb s <$> l)) with (nb s <$> (k :: l)). rewrite sub_pick. by destruct (pick s _).
Qed.

(** ** The election *)

Lemma heap_set_self f s : heap (set_self f s) = <[nbr_self s := f (nb s (nbr_self s))]> (heap s).
Proof. done. Qed.

Lemma nb_set_self f s n : nb (set_self f s) n = if decide (n = nbr_self s) then f (nb s (nbr_self s)) else nb s n.
Proof.
  unfold nb at 1. rewrite heap_set_self. destruct (decide (n = nbr_self s)) as [-> | Hne]; [by rewrite lookup_insert_eq |].
  by rewrite lookup_insert_ne by done.
Qed.

Lemma self_lookup f s : heap (set_self f s) !! nbr_self (set_self f s) = Some (nb (set_self f s) (nbr_self (set_self f s))).
Proof.
  change (nbr_self (set_self f s)) with (nbr_self s). rewrite heap_set_self, lookup_insert_eq, nb_set_self. f_equal. by destruct (decide _).
Qed.

Lemma live_set_self f s n : is_Some (heap s !! n) -> is_Some (heap (set_self f s) !! n).
Proof. intros H. rewrite heap_set_self, lookup_insert_is_Some'. by right. Qed.

Definition round (s : ospf_interface) (el : list nref) : ospf_interface :=
  let s1 := set_self (set_bd_router (bdr_round s el)) s in
  set_self (set_d_router (dr_round s1 el (bdr_round s el))) s1.

Definition role (s : ospf_interface) : Z :=
  let x := nb s (nbr_self s) in
  if d_router x =? c_address (conf s) then ISM_DR
  else if bd_router x =? c_address (conf s) then ISM_Backup else ISM_DROther.

Definition candidates (s : ospf_interface) : list nref := filter (alive s eligible) (nbrs s).*2.

(** The rule of RFC 2328, 9.4 (4): a router whose own role changed elects again. *)
Definition elected (s : ospf_interface) : ospf_interface :=
  let s1 := round s (candidates s) in
  if negb (role s1 =? oi_state s) && negb ((role s1 =? ISM_DROther) && (oi_state s <? ISM_DROther)) then round s1 (candidates s) else s1.

Definition adj_tasks (s : ospf_interface) : list task := (fun n => Nsm n NSM_AdjOK) <$> filter (alive s (adj_ok_wanted (ospf_router_id s))) (nbrs s).*2.

Lemma schedule_all (l : list nref) : forall s,
  fold_left (fun s n => schedule (Nsm n NSM_AdjOK) s) l s = set_event_q (event_q s ++ ((fun n => Nsm n NSM_AdjOK) <$> l)) s.
Proof.
  induction l as [|n l IH]; intros s; cbn [fold_left fmap list_fmap]; [rewrite app_nil_r; by destruct s |]. rewrite IH. unfold schedule. cbn.
  by rewrite <- app_assoc.
Qed.

Lemma round_run s el :
  (forall n, n ∈ el -> is_Some (heap s !! n)) -> is_Some (heap s !! nbr_self s) ->
  (s ← ospf_elect_bdr s el; ospf_elect_dr s el) = Ok (round s el) /\ ospf_ism_state (round s el) = Ok (role (round s el)) /\
  (forall n, is_Some (heap s !! n) -> is_Some (heap (round s el) !! n)) /\ nbr_self (round s el) = nbr_self s.
Proof.
  intros H Hs. rewrite elect_bdr_run by done. cbn [mbind res_bind]. set (s1 := set_self _ s).
  assert (heap s1 !! nbr_self s1 = Some (set_bd_router (bdr_round s el) (nb s (nbr_self s)))) as Hx by apply lookup_insert_eq.
  rewrite (elect_dr_run s1 el _ (fun n Hn => live_set_self _ s n (H n Hn)) Hx). cbn [bd_router set_bd_router].
  assert (heap (round s el) !! nbr_self (round s el) = Some (nb (round s el) (nbr_self (round s el)))) as Hr.
  { apply self_lookup. }
  split; [done |]. split.
  - unfold ospf_ism_state, DR, BDR. rewrite !(get_nbr_Ok _ _ _ Hr). done.
  - split; [| done]. intros n Hn. by apply live_set_self, live_set_self.
Qed.

Lemma candidates_live s n : base_ok s -> n ∈ candidates s -> is_Some (heap s !! n).
Proof. intros B [_ Hn]%list_elem_of_filter. by apply bo_nbrs. Qed.

Lemma DR_nb s x : heap s !! nbr_self s = Some x -> DR s = Ok (d_router x) /\ BDR s = Ok (bd_router x).
Proof. intros H. unfold DR, BDR. by rewrite (get_nbr_Ok _ _ _ H). Qed.

(** The election returns, with the interface [elected] and the role it has there; neighbours above Init are
    asked to reconsider their adjacency when DR or BDR changed. *)
Lemma dr_election_run s :
  base_ok s ->
  exists ts, ospf_dr_election s = Ok (set_event_q (event_q s ++ ts) (elected s), role (elected s)) /\ (ts = [] \/ ts = adj_tasks (elected s)).
Proof.
  intros B. destruct (bo_self s B) as (x & Hx & _). unfold ospf_dr_election. destruct (DR_nb s x Hx) as [-> ->]. cbn [mbind res_bind].
  unfold ospf_dr_eligible_routers. rewrite select_nbrs_Ok by (intros n; by apply bo_nbrs). cbn [mbind res_bind]. fold (candidates s).
  assert (is_Some (heap s !! nbr_self s)) as Hs by eauto.
  destruct (round_run s (candidates s) (fun n => candidates_live s n B) Hs) as (E1 & R1 & L1 & S1).
  rewrite elect_bdr_run in E1 |- * by (done || intros; by apply candidates_live). cbn [mbind res_bind] in E1 |- *. rewrite E1. cbn [mbind res_bind]. rewrite R1. cbn [mbind res_bind].
  assert (exists s2, elected s = s2 /\ is_Some (heap s2 !! nbr_self s2) /\ nbrs s2 = nbrs s /\ event_q s2 = event_q s /\ (forall n, is_Some (heap s !! n) -> is_Some (heap s2 !! n)) /\
    (if negb (role (round s (candidates s)) =? oi_state s) && negb ((role (round s (candidates s)) =? ISM_DROther) && (oi_state s <? ISM_DROther)) then
       t ← ospf_elect_bdr (round s (candidates s)) (candidates s); t ← ospf_elect_dr t (candidates s); new_state ← ospf_ism_state t; Ok (t, new_state)
     else Ok (round s (candidates s), role (round s (candidates s)))) = Ok (s2, role s2)) as (s2 & <- & H2 & N2 & Q2 & L2 & ->).
  { unfold elected. destruct (_ && _).
    - assert (forall n, n ∈ candidates s -> is_Some (heap (round s (candidates s)) !! n)) as C1 by (intros n Hn; by apply L1, candidates_live).
      assert (is_Some (heap (round s (candidates s)) !! nbr_self (round s (candidates s)))) as C2 by (rewrite S1; by apply L1).
      destruct (round_run (round s (candidates s)) (candidates s) C1 C2) as (E2 & R2 & L2 & S2).
      rewrite elect_bdr_run in E2 |- * by done. cbn [mbind res_bind] in E2 |- *. rewrite E2. cbn [mbind res_bind]. rewrite R2.
      eexists. split; [done |]. split; [rewrite S2, S1; by apply L2, L1 |]. split; [done |]. split; [done |]. split; [auto | done].
    - eexists. split; [done |]. split; [rewrite S1; by apply L1 |]. split; [done |]. split; [done |]. split; [auto | done]. }
  cbn [mbind res_bind]. destruct H2 as [x2 Hx2]. destruct (DR_nb _ x2 Hx2) as [-> ->]. cbn [mbind res_bind].
  destruct (_ || _).
  - unfold ospf_dr_change. rewrite select_nbrs_Ok by (intros n Hn; apply L2; rewrite N2 in Hn; by apply bo_nbrs). cbn [mbind res_bind]. rewrite schedule_all, Q2.
    eexists. split; [done | by right].
  - eexists []. rewrite app_nil_r. split; [| by left]. cbn. rewrite <- Q2. by destruct (elected s).
Qed.

(** ** Roles *)

Section Roles.
Context (own : Z) (self : nref) (el : list nref).

(** A state of the election: only the pseudo neighbour has the interface's address. *)
Record poll (s : ospf_interface) : Prop := {
  po_self : nbr_self s = self;
  po_own : address (nb s self) = own;
  po_other n : n ∈ el -> address (nb s n) = own -> n = self }.

Definition dr_of (s : ospf_interface) : Z := d_router (nb s self).
Definition bdr_of (s : ospf_interface) : Z := bd_router (nb s self).

Lemma round_nb s n : nbr_self s = self -> n <> self -> nb (round s el) n = nb s n.
Proof. intros <- Hn. unfold round. rewrite !nb_set_self. change (nbr_self (set_self _ s)) with (nbr_self s). by rewrite !decide_False. Qed.

Lemma round_self s : nbr_self s = self ->
  nb (round s el) self = set_d_router (dr_round (set_self (set_bd_router (bdr_round s el)) s) el (bdr_round s el)) (set_bd_router (bdr_round s el) (nb s self)).
Proof.
  intros <-. unfold round. rewrite nb_set_self. change (nbr_self (set_self _ s)) with (nbr_self s). rewrite decide_True by done.
  rewrite nb_set_self. by rewrite decide_True.
Qed.

Lemma poll_round s : poll s -> poll (round s el).
Proof.
  intros [S O N]. split; [done | by rewrite round_self |]. intros n Hn Ha. destruct (decide (n = self)) as [-> | Hne]; [done |].
  rewrite round_nb in Ha by done. by apply N.
Qed.

(** Whether a candidate declares itself DR does not depend on the BDR. *)
Lemma says_dr_bd s b : says_dr (set_self (set_bd_router b) s) el = says_dr s el.
Proof. unfold says_dr. apply list_filter_iff. intros n. rewrite nb_set_self. unfold NBR_IS_DR. by destruct (decide (n = nbr_self s)) as [-> |]. Qed.

Lemma bdr_round_own s :
  poll s -> own <> 0 -> bdr_round s el = own ->
  self ∈ el /\ dr_of s <> own /\ (bdr_of s = own \/ says_bdr s el = []).
Proof.
  intros [S O N] H0 Hb. unfold bdr_round in Hb.
  assert (forall l, (forall n, n ∈ l -> n ∈ no_dr s el) -> addr_of s (pick s l) = own -> self ∈ l) as P.
  { intros l Hl Ha. destruct l as [|k l]; [done |]. destruct (pick_Some s (k :: l)) as (m & E & Hm & _); [done |]. rewrite E in Ha. cbn in Ha.
    assert (m = self) as <-; [| done]. apply N; [| done]. apply Hl in Hm. by apply list_elem_of_filter in Hm as [_ ?]. }
  assert (self ∈ no_dr s el -> self ∈ el /\ dr_of s <> own) as Q.
  { intros [H1 H2]%list_elem_of_filter. split; [done |]. unfold NBR_IS_DR in H1. rewrite O in H1. unfold dr_of. lia. }
  destruct (says_bdr s el) as [|k l] eqn:E.
  - destruct Q as [Q1 Q2]; [by apply P in Hb |]. split; [done |]. split; [done | by right].
  - assert (self ∈ k :: l) as Hs by (apply P; [intros n Hn; rewrite <- E in Hn; by apply list_elem_of_filter in Hn as [_ ?] | done]).
    rewrite <- E in Hs. apply list_elem_of_filter in Hs as [H1 H2]. destruct (Q H2) as [Q1 Q2]. split; [done |]. split; [done |]. left.
    unfold NBR_IS_BDR in H1. rewrite O in H1. unfold bdr_of. lia.
Qed.

Lemma dr_round_own s b :
  poll s -> own <> 0 -> dr_round s el b = own -> self ∈ says_dr s el \/ (says_dr s el = [] /\ b = own /\ self ∈ el).
Proof.
  intros [S O N] H0 Hd. unfold dr_round in Hd. destruct (says_dr s el) as [|k l] eqn:E.
  - right. split; [done |]. destruct (List.find _ _) as [m |] eqn:F; [| done]. apply find_some in F as [F1 F2].
    assert (m ∈ el) as Hm by (apply list_elem_of_In in F1; by rewrite elem_of_reverse in F1).
    assert (m = self) as -> by by apply N. split; [lia | done].
  - left. destruct (pick_Some s (k :: l)) as (m & Em & Hm & _); [done |]. rewrite Em in Hd. cbn in Hd.
    assert (m = self) as <-; [| done]. apply N; [| done]. rewrite <- E in Hm. by apply list_elem_of_filter in Hm as [_ ?].
Qed.

Lemma self_says_dr s : poll s -> self ∈ says_dr s el <-> self ∈ el /\ dr_of s = own.
Proof.
  intros [S O N]. unfold says_dr. rewrite list_elem_of_filter. unfold NBR_IS_DR, dr_of. rewrite O. split; intros [? ?]; (split; [| done || lia]); lia || done.
Qed.

(** A round in which nobody declares itself DR and the BDR found is not this router does not make it DR. *)
Lemma round_dr_of s : poll s -> dr_of (round s el) = dr_round (set_self (set_bd_router (bdr_round s el)) s) el (bdr_round s el).
Proof. intros P. unfold dr_of. by rewrite round_self by apply P. Qed.
Lemma round_bdr_of s : poll s -> bdr_of (round s el) = bdr_round s el.
Proof. intros P. unfold bdr_of. by rewrite round_self by apply P. Qed.

Lemma poll_bd s b : poll s -> poll (set_self (set_bd_router b) s).
Proof.
  intros [S O N]. split; [done | |]; rewrite ?nb_set_self, ?S; [by rewrite decide_True |]. intros n Hn. rewrite nb_set_self, S.
  destruct (decide (n = self)) as [-> |]; [done |]. by apply N.
Qed.

Lemma round_dr_own s : poll s -> own <> 0 -> dr_of (round s el) = own ->
  (self ∈ el /\ dr_of s = own) \/ (says_dr s el = [] /\ bdr_of (round s el) = own /\ self ∈ el).
Proof.
  intros P H0. rewrite round_dr_of, round_bdr_of by done. intros Hd. apply dr_round_own in Hd; [| by apply poll_bd | done].
  rewrite says_dr_bd in Hd. destruct Hd as [Hd | Hd]; [left; by apply self_says_dr | by right].
Qed.

Lemma only_self s l : poll s -> l <> [] -> (forall n, n ∈ l -> n = self) -> addr_of s (pick s l) = own.
Proof. intros P Hl Hs. destruct (pick_Some s l Hl) as (m & -> & Hm & _). cbn. rewrite (Hs m Hm). apply P. Qed.

Lemma round_keeps_dr s : poll s -> self ∈ el -> dr_of s = own -> (forall n, n ∈ says_dr s el -> n = self) -> dr_of (round s el) = own.
Proof.
  intros P Hs Hd Ho. rewrite round_dr_of by done. unfold dr_round. rewrite says_dr_bd.
  assert (self ∈ says_dr s el) as Hin by by apply self_says_dr. destruct (says_dr s el) as [|k l] eqn:E; [by apply not_elem_of_nil in Hin |].
  apply only_self; [by apply poll_bd | done | done].
Qed.

Lemma round_promotes s : poll s -> self ∈ el -> says_dr s el = [] -> bdr_round s el = own -> dr_of (round s el) = own.
Proof.
  intros P Hs Hn Hb. rewrite round_dr_of by done. unfold dr_round. rewrite says_dr_bd, Hn.
  destruct (List.find _ _) as [m |] eqn:F; [apply find_some in F as [_ F]; lia |]. exfalso.
  assert (In self (reverse el)) as Hr by (apply list_elem_of_In; by rewrite elem_of_reverse).
  pose proof (find_none _ _ F self Hr) as Hf. cbn in Hf. rewrite Hb, (po_own _ (poll_bd s own P)) in Hf. lia.
Qed.

(** Candidates other than this router declare the same before and after a round. *)
Lemma says_other s n : poll s -> n <> self -> n ∈ says_dr (round s el) el <-> n ∈ says_dr s el.
Proof. intros P Hn. unfold says_dr. rewrite !list_elem_of_filter, round_nb; [done | apply P | done]. Qed.

Lemma filter_nil_iff (Q : nref -> Prop) `{HQ : !forall x, Decision (Q x)} (l : list nref) : filter Q l = [] <-> forall n, n ∈ l -> ~ Q n.
Proof.
  induction l as [|x l IH]; [set_solver |]. rewrite filter_cons. destruct (decide (Q x)) as [H | H].
  - split; [done |]. intros G. by destruct (G x ltac:(by left)).
  - rewrite IH. set_solver.
Qed.

Lemma no_dr_all s : says_dr s el = [] -> no_dr s el = el.
Proof.
  unfold says_dr, no_dr. rewrite filter_nil_iff. intros H. clear -H. induction el as [|n l IH]; [done |]. rewrite filter_cons.
  pose proof (H n ltac:(by left)) as Hn. destruct (NBR_IS_DR (nb s n)) eqn:E; [done |]. rewrite decide_True by done. f_equal. apply IH. set_solver.
Qed.

(** Two rounds from a state in which the first did not make this router DR: it does not become both. *)
Lemma second_round s : poll s -> own <> 0 ->
  ~ (dr_of (round (round s el) el) = own /\ bdr_of (round (round s el) el) = own).
Proof.
  intros P H0 [Hd2 Hb2]. set (s1 := round s el) in *. assert (poll s1) as P1 by by apply poll_round.
  assert (bdr_round s1 el = own) as Hb2' by (by rewrite round_bdr_of in Hb2).
  destruct (bdr_round_own s1 P1 H0 Hb2') as (Hin & Hd1 & Hb1).
  destruct (round_dr_own s1 P1 H0 Hd2) as [[_ ?] | (Hn1 & _)]; [done |].
  assert (forall n, n ∈ says_dr s el -> n = self) as Ho.
  { intros n Hn. destruct (decide (n = self)) as [| Hne]; [done |]. apply (says_other s n P Hne) in Hn. fold s1 in Hn. rewrite Hn1 in Hn. by apply not_elem_of_nil in Hn. }
  assert (dr_of s <> own) as Hd0 by (intros Hd0; by apply Hd1, round_keeps_dr).
  assert (says_dr s el = []) as Hn0.
  { destruct (says_dr s el) as [|k l] eqn:E; [done |]. assert (k = self) as -> by (apply Ho; by left).
    exfalso. apply Hd0. apply (proj1 (self_says_dr s P)). rewrite E. by left. }
  assert (bdr_round s el <> own) as Hb0 by (intros Hb0; by apply Hd1, round_promotes).
  destruct Hb1 as [Hb1 | Hb1]; [unfold s1 in Hb1; by rewrite round_bdr_of in Hb1 |].
  assert (says_bdr s el = []) as Hsb.
  { destruct (says_bdr s el) as [|k l] eqn:E; [done |]. exfalso. apply Hb0. unfold bdr_round. rewrite E. apply only_self; [done | done |].
    intros n Hn. destruct (decide (n = self)) as [| Hne]; [done |]. exfalso. rewrite <- E in Hn. unfold says_bdr in Hn, Hb1.
    rewrite no_dr_all in Hn, Hb1 by done. apply list_elem_of_filter in Hn as [Hn1' Hn2]. rewrite filter_nil_iff in Hb1. apply (Hb1 n Hn2).
    unfold s1. by rewrite round_nb by (done || apply P). }
  apply Hb0. rewrite <- Hb2'. unfold bdr_round. rewrite Hsb, Hb1, !no_dr_all by done.
  rewrite (pick_ext s s1 el).
  - unfold addr_of. destruct (pick s el) as [m |]; [| done]. destruct (decide (m = self)) as [-> | Hne]; [by rewrite (po_own s P), (po_own s1 P1) |].
    unfold s1. by rewrite round_nb by (done || apply P).
  - intros n Hn. destruct (decide (n = self)) as [-> | Hne]; [unfold s1; by rewrite round_self by apply P |].
    unfold s1. by rewrite round_nb by (done || apply P).
Qed.

End Roles.

Lemma key_address s n x : base_ok s -> is_vlink s = false -> heap s !! n = Some x -> ospf_nbr_key s x = address x.
Proof. intros B V Hx. unfold ospf_nbr_key. rewrite V. symmetry. by apply (bo_address s B n). Qed.

Lemma address_inj s n m : base_ok s -> is_vlink s = false -> is_Some (heap s !! n) -> is_Some (heap s !! m) -> address (nb s n) = address (nb s m) -> n = m.
Proof.
  intros B V [x Hx] [y Hy]. rewrite (nb_Some _ _ _ Hx), (nb_Some _ _ _ Hy). intros E. eapply bo_key_inj; [done | exact Hx | exact Hy |].
  by rewrite (key_address s n x), (key_address s m y).
Qed.

Lemma base_poll s : base_ok s -> is_vlink s = false -> poll (c_address (conf s)) (nbr_self s) (candidates s) s.
Proof.
  intros B V. destruct (bo_self s B) as (x & Hx & SF). split; [done | by rewrite (nb_Some _ _ _ Hx); apply SF |].
  intros n Hn Ha. apply (address_inj s); [done | done | by apply candidates_live | by exists x |]. rewrite Ha, (nb_Some _ _ _ Hx). symmetry. apply SF.
Qed.

Lemma elected_self s : nbr_self (elected s) = nbr_self s /\ conf (elected s) = conf s.
Proof. unfold elected. by destruct (_ && _). Qed.

Lemma elected_lookup s : heap (elected s) !! nbr_self (elected s) = Some (nb (elected s) (nbr_self (elected s))).
Proof. unfold elected. destruct (_ && _); unfold round; apply self_lookup. Qed.

Lemma elected_roles s :
  base_ok s -> is_vlink s = false -> c_address (conf s) <> 0 -> (oi_state s = ISM_DR -> role s = ISM_DR) ->
  ~ (dr_of (nbr_self s) (elected s) = c_address (conf s) /\ bdr_of (nbr_self s) (elected s) = c_address (conf s)).
Proof.
  intros B V H0 Hr. pose proof (base_poll s B V) as P. unfold elected. destruct (_ && _) eqn:C; [by apply second_round |]. intros [Hd Hb].
  assert (role (round s (candidates s)) = ISM_DR) as R1.
  { unfold role. change (nbr_self (round _ _)) with (nbr_self s). change (conf (round _ _)) with (conf s). unfold dr_of in Hd. by rewrite Hd, Z.eqb_refl. }
  rewrite R1 in C. assert (oi_state s = ISM_DR) as Hs by (destruct (Z.eqb_spec ISM_DR (oi_state s)); [done | by cbn in C]).
  rewrite (round_bdr_of _ _ _ s P) in Hb. destruct (bdr_round_own _ _ _ s P H0 Hb) as (_ & Hd0 & _). apply Hd0. specialize (Hr Hs). unfold role in Hr. unfold dr_of.
  destruct (Z.eqb_spec (d_router (nb s (nbr_self s))) (c_address (conf s))); [done |]. by destruct (_ =? _).
Qed.

(** ** No preemption *)

Section Settled.
Context (el : list nref) (a b : nref).

(** The candidates agree: [a] alone declares itself DR, [b] alone BDR. *)
Record settled (s : ospf_interface) : Prop := {
  se_a : a ∈ el;
  se_b : b ∈ el;
  se_ab : a <> b;
  se_dr n : n ∈ el -> NBR_IS_DR (nb s n) = true <-> n = a;
  se_bdr n : n ∈ el -> NBR_IS_BDR (nb s n) = true <-> n = b;
  se_inj n m : n ∈ nbr_self s :: el -> m ∈ nbr_self s :: el -> address (nb s n) = address (nb s m) -> n = m }.

Lemma filter_single (Q : nref -> Prop) `{HQ : !forall x, Decision (Q x)} (l : list nref) c s :
  c ∈ l -> (forall n, n ∈ l -> Q n <-> n = c) -> addr_of s (pick s (filter Q l)) = address (nb s c) /\ filter Q l <> [].
Proof.
  intros Hc H. assert (c ∈ filter Q l) as Hin by (apply list_elem_of_filter; split; [by apply H | done]).
  assert (filter Q l <> []) as Hn by (intros E; rewrite E in Hin; by apply not_elem_of_nil in Hin). split; [| done].
  destruct (pick_Some s _ Hn) as (m & -> & Hm & _). apply list_elem_of_filter in Hm as [H1 H2]. cbn. by rewrite (proj1 (H m H2) H1).
Qed.

Lemma settled_bdr s : settled s -> bdr_round s el = address (nb s b).
Proof.
  intros [A B AB D E I]. unfold bdr_round, says_bdr. assert (b ∈ no_dr s el) as Hb.
  { apply list_elem_of_filter. split; [| done]. destruct (NBR_IS_DR (nb s b)) eqn:C; [| done]. by apply D in C. }
  destruct (filter_single (fun n => NBR_IS_BDR (nb s n) = true) (no_dr s el) b s Hb) as [F1 F2].
  - intros n [_ Hn]%list_elem_of_filter. by apply E.
  - by destruct (filter _ (no_dr s el)) as [|k l].
Qed.

Lemma settled_dr s c : settled s -> dr_round s el c = address (nb s a).
Proof.
  intros [A B AB D E I]. unfold dr_round, says_dr. destruct (filter_single (fun n => NBR_IS_DR (nb s n) = true) el a s A D) as [F1 F2].
  by destruct (filter _ el) as [|k l].
Qed.

Lemma settled_set s f :
  settled s -> (forall x, address (f x) = address x) ->
  (nbr_self s ∈ el -> NBR_IS_DR (f (nb s (nbr_self s))) = NBR_IS_DR (nb s (nbr_self s)) /\ NBR_IS_BDR (f (nb s (nbr_self s))) = NBR_IS_BDR (nb s (nbr_self s))) ->
  settled (set_self f s).
Proof.
  intros [A B AB D E I] Ha Hs. split; try done.
  - intros n Hn. rewrite nb_set_self. destruct (decide (n = nbr_self s)) as [-> |]; [rewrite (proj1 (Hs Hn)) |]; by apply D.
  - intros n Hn. rewrite nb_set_self. destruct (decide (n = nbr_self s)) as [-> |]; [rewrite (proj2 (Hs Hn)) |]; by apply E.
  - intros n m Hn Hm. rewrite !nb_set_self. destruct (decide (n = nbr_self s)) as [-> |], (decide (m = nbr_self s)) as [-> |]; rewrite ?Ha; by apply I.
Qed.

Lemma settled_round s : settled s -> settled (round s el) /\ nb (round s el) (nbr_self s) = set_d_router (address (nb s a)) (set_bd_router (address (nb s b)) (nb s (nbr_self s))).
Proof.
  intros S. unfold round. rewrite settled_bdr by done. set (s1 := set_self _ s).
  assert (forall c d, c ∈ el -> (nbr_self s ∈ el -> NBR_IS_DR (nb s (nbr_self s)) = true <-> nbr_self s = c) -> d = address (nb s c) ->
    nbr_self s ∈ el -> (address (nb s (nbr_self s)) =? d) = NBR_IS_DR (nb s (nbr_self s))) as Q1.
  { intros c d Hc Hq -> Hin. destruct (NBR_IS_DR (nb s (nbr_self s))) eqn:Ex; [apply Z.eqb_eq; by rewrite (proj1 (Hq Hin) eq_refl) at 1 |].
    apply Z.eqb_neq. intros G. apply (se_inj s S) in G; [| by left | by right]. by apply (Hq Hin) in G. }
  assert (forall d, d = address (nb s b) -> nbr_self s ∈ el -> (address (nb s (nbr_self s)) =? d) = NBR_IS_BDR (nb s (nbr_self s))) as Q2.
  { intros d -> Hin. destruct (NBR_IS_BDR (nb s (nbr_self s))) eqn:Ex; [apply Z.eqb_eq; by rewrite (proj1 (se_bdr s S _ Hin) Ex) at 1 |].
    apply Z.eqb_neq. intros G. apply (se_inj s S) in G; [| by left | right; apply S]. apply (se_bdr s S _ Hin) in G. congruence. }
  assert (settled s1) as S1.
  { apply settled_set; [done | done |]. intros Hin. split; [done |]. unfold NBR_IS_BDR at 1. cbn. by apply Q2. }
  assert (address (nb s1 a) = address (nb s a)) as Ea by (unfold s1; rewrite nb_set_self; by destruct (decide (a = nbr_self s)) as [-> |]).
  rewrite settled_dr, Ea by done. split.
  - apply settled_set; [done | done |]. intros Hin. unfold s1. rewrite nb_set_self. cbn [nbr_self set_self set_heap]. rewrite decide_True by done. split; [| done].
    unfold NBR_IS_DR at 1. cbn. rewrite (Q1 a); [done | apply S | intros H; by apply S | done | done].
  - rewrite nb_set_self. change (nbr_self s1) with (nbr_self s). rewrite decide_True by done. f_equal. unfold s1. rewrite nb_set_self. by rewrite decide_True.
Qed.

End Settled.
