(* ===== verification/OspfInv.v ===== *)
(** * ospfd: the invariant of the two state machines

    [inv False None s] holds between events.  [inv w (Some n) s] leaves out what it says of neighbour [n], which a handler
    is changing. *)

From stdpp Require Import sorting.
From S2P Require Import Prelude OspfLsdb OspfNeighbor OspfFsm OspfPacket OspfElection.
Local Open Scope Z_scope.

Notation nref := positive (only parsing).

(** ** The invariant *)

Definition is_full (p : nref * ospf_neighbor) : Prop := n_state p.2 = NSM_Full.
Global Instance is_full_dec p : Decision (is_full p) := decide (n_state p.2 = NSM_Full).
Definition full_count (h : gmap positive ospf_neighbor) : Z := Z.of_nat (size (filter is_full h)).

(** The end of the neighbour is on its way. *)
Definition pending (s : ospf_interface) (n : nref) : Prop := Nsm n NSM_InactivityTimer ∈ event_q s ++ ready_q s.

(** [p]: the neighbour is about to be removed. *)
Record nbr_wf (p : Prop) (x : ospf_neighbor) : Prop := {
  nw_state : NSM_Down <= n_state x <= NSM_Full;
  nw_lists : n_state x <= NSM_ExStart -> db_sum x = [] /\ ls_req x = [] /\ ls_rxmt x = [];
  nw_low : n_state x <= NSM_TwoWay -> t_db_desc x = false /\ t_ls_upd x = false /\ t_ls_req x = false;
  nw_last : NSM_ExStart <= n_state x -> last_send x = true;
  nw_exstart : n_state x = NSM_ExStart -> t_db_desc x = true;
  nw_master : n_state x = NSM_Exchange -> CHECK_FLAG (dd_flags x) OSPF_DD_FLAG_MS = true -> t_db_desc x = true;
  nw_inactivity : NSM_Init <= n_state x -> t_inactivity x = true \/ p }.

Definition dr_state (z : Z) : bool := (z =? ISM_DROther) || (z =? ISM_Backup) || (z =? ISM_DR).

(** [w]: the wait timer's event is about to run. *)
Record iface_ok (w : Prop) (s : ospf_interface) : Prop := {
  io_state : ISM_Down <= oi_state s <= ISM_DR;
  io_role : oi_state s = ISM_Backup \/ oi_state s = ISM_DR -> role s = oi_state s;
  io_act : act_ints s = if oi_state s =? ISM_Down then 0 else 1;
  io_type : oi_state s = ISM_Waiting \/ dr_state (oi_state s) = true -> is_p2p s = false;
  io_hello : t_hello s = (oi_state s >=? ISM_Waiting);
  io_ack : t_ls_ack s = (oi_state s >=? ISM_PointToPoint);
  io_wait : if oi_state s =? ISM_Waiting then t_wait s = true \/ Ism ISM_WaitTimer ∈ event_q s ++ ready_q s \/ w else t_wait s = false }.

(** The counters and the network-LSA, which follow the number of full neighbours. *)
Record full_ok (s : ospf_interface) : Prop := {
  fo_full : full_nbrs s = full_count (heap s);
  fo_area : area_full_nbrs s = full_nbrs s;
  fo_vls : is_vlink s && c_vl_area (conf s) = true -> full_vls s = full_nbrs s;
  fo_net : network_lsa_self s = (oi_state s =? ISM_DR) && (full_nbrs s >? 0) }.

Record inv (w : Prop) (o : option nref) (s : ospf_interface) : Prop := {
  iv_base : base_ok s;
  iv_nbr n x : heap s !! n = Some x -> n <> nbr_self s -> o <> Some n -> nbr_wf (pending s n) x;
  iv_iface : iface_ok w s;
  iv_full : full_ok s }.

(** ** Counting *)

Lemma full_count_insert h n x y : h !! n = Some x ->
  full_count (<[n := y]> h) = full_count h - (if n_state x =? NSM_Full then 1 else 0) + (if n_state y =? NSM_Full then 1 else 0).
Proof.
  intros Hx. unfold full_count. rewrite <- (insert_delete_eq h n y). rewrite <- (insert_delete_id h n x Hx) at 2.
  set (h0 := delete n h). assert (h0 !! n = None) as Hn by apply lookup_delete_eq.
  assert (forall z, Z.of_nat (size (filter is_full (<[n := z]> h0))) = Z.of_nat (size (filter is_full h0)) + (if n_state z =? NSM_Full then 1 else 0)) as H.
  { intros z. destruct (Z.eqb_spec (n_state z) NSM_Full) as [E | E].
    - rewrite map_filter_insert_True by done. rewrite map_size_insert_None by (apply map_lookup_filter_None; by left). lia.
    - rewrite map_filter_insert_False by done. rewrite delete_id by done. lia. }
  rewrite !H. lia.
Qed.

Lemma full_count_same h n x y : h !! n = Some x -> n_state y = n_state x -> full_count (<[n := y]> h) = full_count h.
Proof. intros Hx E. rewrite (full_count_insert h n x y Hx), E. destruct (_ =? _); lia. Qed.

Lemma full_count_delete h n x : h !! n = Some x -> n_state x <> NSM_Full -> full_count (delete n h) = full_count h.
Proof.
  intros Hx Hf. unfold full_count. rewrite map_filter_delete. rewrite delete_id; [done |]. apply map_lookup_filter_None. right. intros y Hy.
  rewrite Hx in Hy. by injection Hy as <-.
Qed.

Lemma full_count_nonneg h : 0 <= full_count h.
Proof. unfold full_count. lia. Qed.

Lemma full_count_new h n x : h !! n = None -> n_state x <> NSM_Full -> full_count (<[n := x]> h) = full_count h.
Proof.
  intros Hn Hf. unfold full_count. rewrite map_filter_insert_False by done. by rewrite delete_id.
Qed.

(** ** Opening and closing *)

Lemma inv_open w s n : inv w None s -> inv w (Some n) s.
Proof. intros [B N I F]. split; try done. intros m x Hx Hm _. by apply N. Qed.

Lemma inv_close w s n x : inv w (Some n) s -> heap s !! n = Some x -> nbr_wf (pending s n) x -> inv w None s.
Proof.
  intros [B N I F] Hx W. split; try done. intros m y Hy Hm _. destruct (decide (m = n)) as [-> | Hne]; [| apply N; [done | done | congruence]].
  rewrite Hx in Hy. by injection Hy as <-.
Qed.

Lemma inv_log w o c s : inv w o s -> inv w o (log c s).
Proof. intros [[] N [] []]. split; [by split | exact N | by split | by split]. Qed.

(** ** Changing a neighbour *)

(** What identifies a neighbour in the table. *)
Definition same_id (x y : ospf_neighbor) : Prop := address y = address x /\ src y = src x /\ router_id y = router_id x.

Lemma base_upd s n x y :
  base_ok s -> heap s !! n = Some x -> same_id x y -> (n = nbr_self s -> n_state y = n_state x /\ timers y = timers x) -> base_ok (set_heap (<[n := y]> (heap s)) s).
Proof.
  intros [A B C D E F] Hx (I1 & I2 & I3) Hs. split; cbn; try done.
  - intros k m Hm. destruct (B k m Hm) as (z & Hz & <-). destruct (decide (m = n)) as [-> | Hne].
    + rewrite Hx in Hz. injection Hz as <-. exists y. rewrite lookup_insert_eq. split; [done |]. unfold ospf_nbr_key. cbn. unfold is_vlink. cbn. by rewrite I2, I3.
    + exists z. by rewrite lookup_insert_ne.
  - intros m Hm. apply C. destruct (decide (m = n)) as [-> | Hne]; [by exists x |]. by rewrite lookup_insert_ne in Hm.
  - intros m z Hz. destruct (decide (m = n)) as [-> | Hne]; [rewrite lookup_insert_eq in Hz; injection Hz as <-; rewrite I1, I2; by apply (D n) |].
    rewrite lookup_insert_ne in Hz by done. by apply (D m).
  - destruct E as (z & Hz & [S1 S2 S3 S4 S5]). destruct (decide (nbr_self s = n)) as [<- | Hne].
    + exists y. rewrite lookup_insert_eq. split; [done |]. rewrite Hx in Hz. injection Hz as <-. destruct Hs as [Hs1 Hs2]; [done |]. split; congruence.
    + exists z. rewrite lookup_insert_ne by done. by split.
  - intros t Ht. specialize (F t Ht). destruct t as [ev | m ev]; [done |]. cbn in *. destruct F as (F1 & F2). split; [| done].
    rewrite lookup_insert_is_Some'. by right.
Qed.

Lemma inv_upd w s n x f :
  inv w (Some n) s -> heap s !! n = Some x -> n <> nbr_self s -> same_id x (f x) -> n_state (f x) = n_state x ->
  exists s', upd_nbr s n f = Ok s' /\ s' = set_heap (<[n := f x]> (heap s)) s /\ inv w (Some n) s' /\ heap s' !! n = Some (f x).
Proof.
  intros [B N I F] Hx Hn Hi Hs. exists (set_heap (<[n := f x]> (heap s)) s). split; [by apply upd_nbr_Ok |]. split; [done |]. split; [| apply lookup_insert_eq]. split.
  - by apply (base_upd s n x).
  - intros m y Hy Hm Ho. cbn in Hy. rewrite lookup_insert_ne in Hy by congruence. exact (N m y Hy Hm Ho).
  - destruct I as [I1 I2 I3 I4 I5 I6 I7]. split; try done. intros H. specialize (I2 H). unfold role, nb in *. cbn. by rewrite lookup_insert_ne.
  - destruct F as [F1 F2 F3 F4]. split; try done. cbn. by rewrite (full_count_same _ _ x).
Qed.

Lemma task_live_queue s q t : task_live (set_event_q q s) t <-> task_live s t.
Proof. by destruct t. Qed.

Lemma pending_mono s t n : pending s n -> pending (schedule t s) n.
Proof. unfold pending. cbn. set_solver. Qed.

Lemma nbr_wf_weaken (p q : Prop) x : (p -> q) -> nbr_wf p x -> nbr_wf q x.
Proof. intros H []. split; try done. tauto. Qed.

Lemma inv_events w o s ts : inv w o s -> (forall t, t ∈ ts -> task_live s t) -> inv w o (set_event_q (event_q s ++ ts) s).
Proof.
  intros [B N I F] H. split.
  - destruct B as [A B C D E G]. split; try done. cbn. intros t [Ht | Ht]%elem_of_app; [by apply G | by apply H].
  - intros n x Hx Hn Ho. eapply nbr_wf_weaken; [| by apply N]. unfold pending. cbn. set_solver.
  - destruct I as [I1 I2 I3 I4 I5 I6 I7]. split; try done. revert I7. cbn. destruct (oi_state s =? ISM_Waiting); [| done]. intros [? | [I7 | I7]]; [by left | right; left; set_solver | by right; right].
  - destruct F as [F1 F2 F3 F4]. by split.
Qed.

Lemma inv_schedule w o s t : inv w o s -> task_live s t -> inv w o (schedule t s).
Proof. intros I H. apply inv_events; [done |]. by intros ? ->%list_elem_of_singleton. Qed.

(** ** The interface state machine: elections *)

(** Nothing but the declared DR and BDR of the pseudo neighbour, the role and the queue changes. *)
Record steady (s s' : ospf_interface) : Prop := {
  st_conf : conf s' = conf s;
  st_id : ospf_router_id s' = ospf_router_id s;
  st_clock : clock s' = clock s;
  st_self : nbr_self s' = nbr_self s;
  st_nbrs : nbrs s' = nbrs s;
  st_heap n : n <> nbr_self s -> heap s' !! n = heap s !! n;
  st_ready : ready_q s' = ready_q s;
  st_event t : t ∈ event_q s -> t ∈ event_q s' }.

Lemma steady_refl s : steady s s.
Proof. by split. Qed.
Lemma steady_trans s1 s2 s3 : steady s1 s2 -> steady s2 s3 -> steady s1 s3.
Proof. intros [] []. split; try congruence; [intros n Hn; rewrite <- st_heap0 by done; apply st_heap1; congruence | auto]. Qed.

(** The parts of the interface a change of its state leaves alone. *)
Definition rest (s : ospf_interface) :=
  (conf s, ospf_router_id s, clock s, nbrs s, heap s, nbr_self s, (full_nbrs s, area_full_nbrs s, full_vls s), (area_db s, next_lsa s), (event_q s, ready_q s)).

Ltac split_ifs := repeat match goal with |- context [if ?b then _ else _] => destruct b eqn:? end.

Lemma change_state_rest s ns : rest (ism_change_state s ns) = rest s /\ oi_state (ism_change_state s ns) = ns.
Proof. unfold ism_change_state, ospf_network_lsa_update. cbn zeta. split_ifs; done. Qed.

Lemma change_state_act s ns : act_ints (ism_change_state s ns) =
  if ns =? ISM_Down then (if act_ints s >? 0 then act_ints s - 1 else act_ints s) else if oi_state s =? ISM_Down then act_ints s + 1 else act_ints s.
Proof. unfold ism_change_state, ospf_network_lsa_update. cbn zeta. split_ifs; cbn in *; congruence. Qed.

Lemma change_state_net s ns : ns <> oi_state s -> network_lsa_self s = (oi_state s =? ISM_DR) && (full_nbrs s >? 0) -> 0 <= full_nbrs s ->
  network_lsa_self (ism_change_state s ns) = (ns =? ISM_DR) && (full_nbrs s >? 0).
Proof.
  intros Hne Hn Hf. unfold ism_change_state, ospf_network_lsa_update. cbn zeta. set (s2 := log RouterLsaUpdate _).
  assert (network_lsa_self s2 = network_lsa_self s /\ full_nbrs s2 = full_nbrs s) as [N2 F2] by (unfold s2; by split_ifs). clearbody s2.
  rewrite N2, F2, Hn. destruct (Z.eqb_spec (oi_state s) ISM_DR) as [Eo | Eo], (Z.eqb_spec ns ISM_DR) as [En | En]; try congruence; cbn [negb andb].
  - by destruct (full_nbrs s >? 0).
  - destruct (Z.eqb_spec (full_nbrs s) 0) as [E | E]; cbn; [rewrite N2, Hn, E; by destruct (oi_state s =? ISM_DR) |]. symmetry. apply Z.gtb_lt. lia.
  - cbn. rewrite N2, Hn. by destruct (Z.eqb_spec (oi_state s) ISM_DR).
Qed.

Lemma timer_set_rest s : rest (ism_timer_set s) = rest s /\ oi_state (ism_timer_set s) = oi_state s /\ act_ints (ism_timer_set s) = act_ints s /\
  network_lsa_self (ism_timer_set s) = network_lsa_self s.
Proof. unfold ism_timer_set. cbn zeta. by split_ifs. Qed.

Lemma timer_set_timers s : ISM_Down <= oi_state s <= ISM_DR ->
  t_hello (ism_timer_set s) = (oi_state s >=? ISM_Waiting) /\ t_ls_ack (ism_timer_set s) = (oi_state s >=? ISM_PointToPoint) /\
  t_wait (ism_timer_set s) = (oi_state s =? ISM_Waiting).
Proof.
  unfold ism_timer_set, ISM_Down, ISM_DR, ISM_Loopback, ISM_Waiting, ISM_PointToPoint, ISM_DROther, ISM_Backup. cbn zeta. intros H.
  assert (oi_state s = 1 \/ oi_state s = 2 \/ oi_state s = 3 \/ oi_state s = 4 \/ oi_state s = 5 \/ oi_state s = 6 \/ oi_state s = 7) as C by lia.
  by destruct C as [-> | [-> | [-> | [-> | [-> | [-> | ->]]]]]].
Qed.

(** A change of the state of the interface, timers included. *)
Lemma change_ok w o s ns :
  base_ok s -> (forall n x, heap s !! n = Some x -> n <> nbr_self s -> o <> Some n -> nbr_wf (pending s n) x) -> full_ok s ->
  act_ints s = (if oi_state s =? ISM_Down then 0 else 1) ->
  ISM_Down <= oi_state s <= ISM_DR -> ISM_Down <= ns <= ISM_DR -> (ns = ISM_Backup \/ ns = ISM_DR -> role s = ns) ->
  (ns = ISM_Waiting \/ dr_state ns = true -> is_p2p s = false) ->
  let s' := ism_timer_set (if negb (ns =? oi_state s) then ism_change_state s ns else s) in
  inv w o s' /\ steady s s' /\ oi_state s' = ns.
Proof.
  intros B N F A S0 S1 R P. cbn zeta. set (s1 := if negb (ns =? oi_state s) then _ else s).
  assert (rest s1 = rest s /\ oi_state s1 = ns /\ act_ints s1 = (if ns =? ISM_Down then 0 else 1) /\
    network_lsa_self s1 = (ns =? ISM_DR) && (full_nbrs s >? 0)) as (E1 & E2 & E3 & E4).
  { unfold s1. destruct (Z.eqb_spec ns (oi_state s)) as [-> | Hne]; cbn [negb]; [split; [done |]; split; [done |]; split; [done | apply F] |].
    destruct (change_state_rest s ns) as [H1 H2]. split; [done |]. split; [done |]. rewrite change_state_act, A. split.
    - destruct (Z.eqb_spec ns ISM_Down), (Z.eqb_spec (oi_state s) ISM_Down); try congruence; cbn; done.
    - apply change_state_net; [done | apply F |]. rewrite (fo_full s F). apply full_count_nonneg. }
  destruct (timer_set_rest s1) as (T1 & T2 & T3 & T4). destruct (timer_set_timers s1) as (H1 & H2 & H3); [by rewrite E2 |].
  set (s2 := ism_timer_set s1) in *. rewrite E1 in T1. rewrite E2 in T2, H1, H2, H3. rewrite E3 in T3. rewrite E4 in T4. clearbody s2. clear E1 E2 E3 E4 s1.
  unfold rest in T1. injection T1 as Q1 Q2 Q3 Q4 Q5 Q6 Q7 Q8 Q9 Q10 Q11 Q12 Q13.
  split; [| split; [split; try congruence; intros; congruence | done]]. split.
  - destruct B as [B1 B2 B3 B4 B5 B6]. split; unfold ospf_nbr_key, is_vlink, task_live in *; rewrite ?Q1, ?Q2, ?Q4, ?Q5, ?Q6, ?Q12; try done.
  - intros n x. rewrite Q5, Q6. unfold pending. rewrite Q12, Q13. apply N.
  - split; rewrite ?T2, ?T3, ?H1, ?H2; try done.
    + intros H. specialize (R H). revert R. unfold role, nb. by rewrite Q5, Q6, Q1.
    + intros H. unfold is_p2p. rewrite Q1. by apply P.
    + rewrite H3. destruct (ns =? ISM_Waiting); [by left | done].
  - destruct F as [F1 F2 F3 F4]. split; unfold is_vlink in *; rewrite ?Q5, ?Q7, ?Q8, ?Q9, ?Q1, ?T2, ?T4; done.
Qed.

Lemma round_set s el : exists d b, round s el = set_self (fun x => set_d_router d (set_bd_router b x)) s.
Proof.
  do 2 eexists. unfold round. set (b := bdr_round s el). unfold set_self at 1. rewrite heap_set_self. change (nbr_self (set_self (set_bd_router b) s)) with (nbr_self s).
  rewrite insert_insert_eq, nb_set_self, decide_True by done. unfold set_self. reflexivity.
Qed.

Lemma set_self_twice f g s : set_self g (set_self f s) = set_self (fun x => g (f x)) s.
Proof.
  unfold set_self at 1. rewrite heap_set_self. change (nbr_self (set_self f s)) with (nbr_self s). rewrite insert_insert_eq, nb_set_self, decide_True by done. done.
Qed.

Lemma elected_set s : exists d b, elected s = set_self (fun x => set_d_router d (set_bd_router b x)) s.
Proof.
  unfold elected. destruct (_ && _); [| apply round_set]. destruct (round_set s (candidates s)) as (d & b & ->).
  destruct (round_set (set_self (fun x => set_d_router d (set_bd_router b x)) s) (candidates s)) as (d' & b' & ->). exists d', b'. rewrite set_self_twice. done.
Qed.

(** What the election leaves: everything but the role. *)
Lemma elected_ok w o s :
  inv w o s -> let s' := elected s in
  base_ok s' /\ (forall n x, heap s' !! n = Some x -> n <> nbr_self s' -> o <> Some n -> nbr_wf (pending s' n) x) /\ full_ok s' /\ steady s s'.
Proof.
  intros [B N I F]. cbn zeta. destruct (elected_set s) as (d & b & ->). destruct (bo_self s B) as (x & Hx & _). unfold set_self. rewrite (nb_Some _ _ _ Hx).
  split; [by apply (base_upd s (nbr_self s) x) |]. split; [| split].
  - intros n y Hy Hn Ho. cbn in Hy, Hn. rewrite lookup_insert_ne in Hy by congruence. exact (N n y Hy Hn Ho).
  - destruct F as [F1 F2 F3 F4]. split; try done. cbn. by rewrite (full_count_same _ _ x).
  - split; try done. intros n Hn. cbn. by rewrite lookup_insert_ne.
Qed.

Lemma role_range s : role s = ISM_DROther \/ role s = ISM_Backup \/ role s = ISM_DR.
Proof. unfold role. destruct (_ =? _); [tauto |]. destruct (_ =? _); tauto. Qed.

Lemma adj_tasks_live s t : base_ok s -> t ∈ adj_tasks s -> task_live s t.
Proof.
  intros B (n & -> & [(x & Hx & Hw) Hn]%list_elem_of_filter)%list_elem_of_fmap. cbn. split; [by exists x |]. split; [| unfold NSM_AdjOK; lia].
  intros ->. destruct (bo_self s B) as (y & Hy & SF). rewrite Hx in Hy. injection Hy as <-. unfold adj_ok_wanted in Hw. rewrite (sf_id _ _ _ SF), Z.eqb_refl in Hw.
  by rewrite andb_false_r in Hw.
Qed.

(** An event that makes the interface elect. *)
Lemma elect_event_ok w w' o s f ev execute :
  inv w o s -> is_p2p s = false -> entry ISM (oi_state s) ev = Ok (f, 0) -> f = G_wait_timer \/ f = G_backup_seen \/ f = G_neighbor_change ->
  exists s', ospf_ism_event execute s ev = Ok s' /\ inv w' o s' /\ steady s s' /\ dr_state (oi_state s') = true.
Proof.
  intros V P E Hf. unfold ospf_ism_event. rewrite E. cbn [mbind res_bind].
  destruct (dr_election_run s (iv_base _ _ _ V)) as (ts & Er & Hts).
  assert (run_ism_func execute f s = Ok (set_event_q (event_q s ++ ts) (elected s), role (elected s))) as -> by (destruct Hf as [-> | [-> | ->]]; exact Er).
  cbn [mbind res_bind]. set (ns := role (elected s)). pose proof (role_range (elected s)) as Rg. fold ns in Rg.
  assert (dr_state ns = true) as Dn by (by destruct Rg as [-> | [-> | ->]]).
  assert (ns =? 0 = false) as -> by (by destruct Rg as [-> | [-> | ->]]). cbn [mbind res_bind].
  destruct (elected_ok w o s V) as (B & N & F & St). destruct (elected_set s) as (d & b & Ee).
  assert (event_q (elected s) = event_q s /\ oi_state (elected s) = oi_state s /\ act_ints (elected s) = act_ints s /\ ready_q (elected s) = ready_q s) as (Q1 & Q2 & Q3 & Q4) by by rewrite Ee.
  set (s1 := set_event_q _ (elected s)). assert (forall t, t ∈ ts -> task_live (elected s) t) as Ht.
  { intros t Ht. destruct Hts as [-> | ->]; [by apply not_elem_of_nil in Ht | by apply adj_tasks_live]. }
  destruct (change_ok w' o s1 ns) as (C1 & C2 & C3).
  - destruct B as [B1 B2 B3 B4 B5 B6]. split; try done. intros t. cbn. rewrite <- Q1. intros [H | H]%elem_of_app; [by apply B6 | by apply Ht].
  - intros n x Hx Hn Ho. eapply nbr_wf_weaken; [| apply (N n x Hx Hn Ho)]. unfold pending. cbn. rewrite Q1, !elem_of_app. tauto.
  - destruct F as [F1 F2 F3 F4]. by split.
  - cbn. rewrite Q2, Q3. apply V.
  - cbn. rewrite Q2. apply V.
  - destruct Rg as [-> | [-> | ->]]; done.
  - intros _. done.
  - intros _. unfold s1, is_p2p. cbn. rewrite (st_conf _ _ St). exact P.
  - eexists. split; [done |]. split; [exact C1 |]. split.
    + eapply steady_trans; [exact St |]. eapply steady_trans; [| exact C2]. split; try done. intros t H. rewrite Q1 in H. cbn. rewrite elem_of_app. by left.
    + by rewrite C3.
Qed.

(** ** Neighbours that become full or stop being it *)

(** The parts [full_changed] leaves alone. *)
Definition rest2 (s : ospf_interface) :=
  (conf s, ospf_router_id s, clock s, (nbrs s, heap s, nbr_self s), (oi_state s, act_ints s, t_hello s, t_wait s, t_ls_ack s), (area_db s, next_lsa s), (event_q s, ready_q s)).

Lemma network_update_rest2 s : rest2 (ospf_network_lsa_update s) = rest2 s /\ full_nbrs (ospf_network_lsa_update s) = full_nbrs s /\
  area_full_nbrs (ospf_network_lsa_update s) = area_full_nbrs s /\ full_vls (ospf_network_lsa_update s) = full_vls s.
Proof. unfold ospf_network_lsa_update. by split_ifs. Qed.

Lemma count_full_ok s b :
  let s' := count_full s b in let d := if b then 1 else -1 in
  rest2 s' = rest2 s /\ network_lsa_self s' = network_lsa_self s /\ full_nbrs s' = full_nbrs s + d /\ area_full_nbrs s' = area_full_nbrs s + d /\
  (is_vlink s && c_vl_area (conf s) = true -> 0 < full_vls s \/ b = true -> full_vls s' = full_vls s + d).
Proof.
  cbn zeta. unfold count_full. cbn zeta. destruct (is_vlink s && c_vl_area (conf s)) eqn:V; destruct b; cbn [andb]; try by split_ifs.
  cbn. destruct (Z.gtb_spec (full_vls s) 0) as [Hf | Hf]; [by split_ifs |]. do 4 (split; [done |]). intros _ [H | H]; [lia | done].
Qed.

Lemma full_changed_ok s b :
  let s' := full_changed s b in let d := if b then 1 else -1 in
  (network_lsa_self s = true -> oi_state s = ISM_DR) -> 0 <= full_nbrs s + d ->
  rest2 s' = rest2 s /\ full_nbrs s' = full_nbrs s + d /\ area_full_nbrs s' = area_full_nbrs s + d /\
  (is_vlink s && c_vl_area (conf s) = true -> 0 < full_vls s \/ b = true -> full_vls s' = full_vls s + d) /\
  network_lsa_self s' = (oi_state s =? ISM_DR) && (full_nbrs s + d >? 0).
Proof.
  cbn zeta. intros Hn Hp. unfold full_changed. cbn zeta. destruct (count_full_ok s b) as (R & N & F & A & V). set (d := if b then 1 else -1) in *. clearbody d.
  set (s2 := count_full s b) in *. clearbody s2. assert (oi_state s2 = oi_state s) as O by (unfold rest2 in R; by injection R). rewrite O.
  destruct (Z.eqb_spec (oi_state s) ISM_DR) as [E | E].
  - destruct (network_lsa_self s2 && (full_nbrs s2 =? 0)) eqn:Ec.
    + do 4 (split; [done |]). cbn. symmetry. rewrite Z.gtb_ltb. apply Z.ltb_ge. lia.
    + destruct (network_update_rest2 s2) as (K1 & K2 & K3 & K4). rewrite K1, K2, K3, K4. do 4 (split; [done |]). rewrite <- F. unfold ospf_network_lsa_update.
      destruct (network_lsa_self s2) eqn:Es; cbn [andb] in Ec |- *.
      * cbn. rewrite Es. symmetry. apply Z.gtb_lt. lia.
      * destruct (Z.eqb_spec (full_nbrs s2) 0) as [Ez | Ez]; [by rewrite Es, Ez |]. cbn. symmetry. apply Z.gtb_lt. lia.
  - do 4 (split; [done |]). rewrite N. cbn. destruct (network_lsa_self s); [by destruct E; apply Hn | done].
Qed.
