(* ===== verification/OspfNsm.v ===== *)
(** * ospfd/ospf_nsm.c: the neighbour state machine keeps the invariant *)

From stdpp Require Import sorting.
From S2P Require Import Prelude OspfLsdb OspfNeighbor OspfFsm OspfPacket OspfElection OspfInv.
Local Open Scope Z_scope.

Notation nref := positive (only parsing).

(** ** What a handler for neighbour [n] changes *)

Record frame (n : nref) (s s' : ospf_interface) : Prop := {
  fr_conf : conf s' = conf s;
  fr_id : ospf_router_id s' = ospf_router_id s;
  fr_clock : clock s' = clock s;
  fr_self : nbr_self s' = nbr_self s;
  fr_nbrs : nbrs s' = nbrs s;
  fr_heap m : m <> nbr_self s -> m <> n -> heap s' !! m = heap s !! m;
  fr_ready : ready_q s' = ready_q s;
  fr_event t : t ∈ event_q s -> t ∈ event_q s' }.

Lemma frame_refl n s : frame n s s.
Proof. by split. Qed.
Lemma frame_trans n s1 s2 s3 : frame n s1 s2 -> frame n s2 s3 -> frame n s1 s3.
Proof. intros [] []. split; try congruence; [intros m Hm Hn; rewrite <- fr_heap0 by done; apply fr_heap1; congruence | auto]. Qed.
Lemma frame_steady n s s' : steady s s' -> frame n s s'.
Proof. intros []. split; try done. intros m Hm _. by apply st_heap. Qed.
Lemma frame_upd n s x : frame n s (set_heap (<[n := x]> (heap s)) s).
Proof. split; try done. intros m _ Hn. cbn. by rewrite lookup_insert_ne. Qed.
Lemma frame_log n s c : frame n s (log c s).
Proof. by split. Qed.

Section Keep.
(** As in [inv]. *)
Context (w : Prop).

(** ** The change of state *)

(** The first block of [nsm_change_state]: the state, the counters, the network-LSA. *)
Lemma set_state_ok s n x st :
  inv w (Some n) s -> heap s !! n = Some x -> n <> nbr_self s ->
  let s1 := set_heap (<[n := set_n_state st x]> (heap s)) s in
  let s2 := if (negb (n_state x =? NSM_Full) && (st =? NSM_Full)) || ((n_state x =? NSM_Full) && negb (st =? NSM_Full)) then full_changed s1 (st =? NSM_Full) else s1 in
  inv w (Some n) s2 /\ frame n s s2 /\ heap s2 !! n = Some (set_n_state st x) /\ oi_state s2 = oi_state s.
Proof.
  intros [B N I F] Hx Hn. cbn zeta. set (s1 := set_heap _ s).
  assert (base_ok s1) as B1 by (by apply (base_upd s n x)).
  assert (forall m y, heap s1 !! m = Some y -> m <> nbr_self s1 -> Some n <> Some m -> nbr_wf (pending s1 m) y) as N1.
  { intros m y Hy Hm Ho. cbn in Hy, Hm. rewrite lookup_insert_ne in Hy by congruence. exact (N m y Hy Hm Ho). }
  assert (role s1 = role s) as R1 by (unfold role, nb; cbn; by rewrite lookup_insert_ne).
  pose proof (full_count_insert (heap s) n x (set_n_state st x) Hx) as Fc. cbn [n_state set_n_state] in Fc. change (<[n := _]> (heap s)) with (heap s1) in Fc.
  pose proof (full_count_nonneg (heap s1)) as Fp. destruct F as [F1 F2 F3 F4].
  assert (heap s1 !! n = Some (set_n_state st x)) as Hx1 by apply lookup_insert_eq.
  destruct (_ || _) eqn:C.
  - assert (full_nbrs s1 + (if st =? NSM_Full then 1 else -1) = full_count (heap s1)) as Fe.
    { rewrite Fc. cbn. rewrite F1. destruct (Z.eqb_spec (n_state x) NSM_Full), (Z.eqb_spec st NSM_Full); cbn in C; try done; lia. }
    destruct (full_changed_ok s1 (st =? NSM_Full)) as (E1 & E2 & E3 & E4 & E5).
    { cbn. rewrite F4. destruct (Z.eqb_spec (oi_state s) ISM_DR); done. } { lia. }
    set (s2 := full_changed s1 _) in *. clearbody s2. unfold rest2 in E1. injection E1 as Q1 Q2 Q3 Q4 Q5 Q6 Q7 Q8 Q9 Q10 Q11 Q12 Q13 Q14 Q15. rewrite Fe in E2, E5.
    split; [| split; [| split; [by rewrite Q5 | done]]].
    + split.
      * destruct B1 as [B1 B2 B3 B4 B5 B6]. split; unfold ospf_nbr_key, is_vlink, task_live in *; rewrite ?Q1, ?Q2, ?Q4, ?Q5, ?Q6, ?Q14; try done.
      * intros m y. rewrite Q5, Q6. unfold pending. rewrite Q14, Q15. apply N1.
      * destruct I as [I1 I2 I3 I4 I5 I6 I7]. split; rewrite ?Q7, ?Q8, ?Q9, ?Q10, ?Q11, ?Q14, ?Q15; try done.
        -- intros H. specialize (I2 H). cbn. rewrite <- I2, <- R1. unfold role, nb. by rewrite Q5, Q6, Q1.
        -- intros H. specialize (I4 H). unfold is_p2p. by rewrite Q1.
      * split; rewrite ?Q5, ?E2, ?E3, ?E5, ?Q7; try done.
        -- cbn. rewrite F2. cbn in Fe. done.
        -- intros H. unfold is_vlink in *. rewrite Q1 in H. specialize (F3 H). rewrite E4; [cbn; rewrite F3; cbn in Fe; done | done |].
           cbn. rewrite F3, F1. destruct (Z.eqb_spec st NSM_Full) as [| Hst]; [by right | left].
           assert (n_state x = NSM_Full) as Hfx by (destruct (Z.eqb_spec (n_state x) NSM_Full); [done | by cbn in C]).
           rewrite Hfx, Z.eqb_refl in Fc. lia.
    + eapply frame_trans; [apply frame_upd |]. split; try done; [intros; by rewrite Q5 | intros t; by rewrite Q14].
  - assert (full_count (heap s1) = full_count (heap s)) as Fe.
    { rewrite Fc. destruct (n_state x =? NSM_Full), (st =? NSM_Full); cbn in C; try done; lia. }
    split; [| split; [apply frame_upd | done]]. split; [done | done | | split; try done; by rewrite Fe].
    destruct I as [I1 I2 I3 I4 I5 I6 I7]. split; try done. intros H. rewrite R1. by apply I2.
Qed.

(** ** Updates of the neighbour in hand *)

(** A handler that returned: neighbour [n] is [x] now. *)
Record at_nbr (n : nref) (s s' : ospf_interface) (x : ospf_neighbor) : Prop := {
  an_inv : inv w (Some n) s';
  an_frame : frame n s s';
  an_nbr : heap s' !! n = Some x }.

Lemma at_trans n s1 s2 s3 x y : at_nbr n s1 s2 x -> at_nbr n s2 s3 y -> at_nbr n s1 s3 y.
Proof. intros [] []. split; try done. by eapply frame_trans. Qed.

Lemma at_log n s s' x c : at_nbr n s s' x -> at_nbr n s (log c s') x.
Proof. intros [I F H]. split; [by apply inv_log | eapply frame_trans; [exact F | apply frame_log] | done]. Qed.

Lemma at_self n s s' x : at_nbr n s s' x -> n <> nbr_self s -> n <> nbr_self s'.
Proof. intros A Hn. by rewrite (fr_self _ _ _ (an_frame _ _ _ _ A)). Qed.

Lemma at_upd n s s' x f :
  at_nbr n s s' x -> n <> nbr_self s -> same_id x (f x) -> n_state (f x) = n_state x ->
  exists s2, upd_nbr s' n f = Ok s2 /\ at_nbr n s s2 (f x) /\ oi_state s2 = oi_state s' /\ event_q s2 = event_q s'.
Proof.
  intros A Hn Hi Hs. destruct (inv_upd w s' n x f (an_inv _ _ _ _ A) (an_nbr _ _ _ _ A) (at_self _ _ _ _ A Hn) Hi Hs) as (s2 & E & -> & I & H).
  eexists. split; [exact E |]. split; [| done]. split; [done | | done]. eapply frame_trans; [apply A | apply frame_upd].
Qed.

Lemma same_id_refl x : same_id x x.
Proof. done. Qed.

(** ** Sending database descriptions *)

(** What sending a database description does to the neighbour. *)
Record sent (x y : ospf_neighbor) : Prop := {
  se_id : same_id x y;
  se_state : n_state y = n_state x;
  se_last : last_send y = true;
  se_sum : db_sum x = [] -> db_sum y = [];
  se_lists : ls_req y = ls_req x /\ ls_rxmt y = ls_rxmt x;
  se_ms : CHECK_FLAG (dd_flags y) OSPF_DD_FLAG_MS = CHECK_FLAG (dd_flags x) OSPF_DD_FLAG_MS;
  se_timers : t_inactivity y = t_inactivity x /\ t_db_desc y = t_db_desc x /\ t_ls_req y = t_ls_req x /\ t_ls_upd y = t_ls_upd x }.

Lemma make_db_desc_ok s x :
  base_ok s -> NSM_Exchange <= n_state x \/ CHECK_FLAG (dd_flags x) OSPF_DD_FLAG_M = true ->
  exists y out, ospf_make_db_desc s x = Ok (y, out) /\ forall z, sent x (set_last_send_ts z (set_last_send true y)).
Proof.
  intros B H. destruct (bo_self s B) as (p & Hp & _). unfold ospf_make_db_desc, OPTIONS. rewrite (get_nbr_Ok _ _ _ Hp). cbn [mbind res_bind fmap res_fmap].
  destruct (describe _ _ _ _ (db_sum x)) as [out rest] eqn:Ed.
  assert (db_sum x = [] -> rest = []) as Hr by (intros E; rewrite E in Ed; cbn in Ed; by injection Ed as <- <-).
  destruct (is_nil rest) eqn:En.
  - cbn. destruct (Z.geb_spec (n_state x) NSM_Exchange) as [Hs | Hs].
    + do 2 eexists. split; [done |]. intros z. split; try done. cbn. change OSPF_DD_FLAG_MS with (2 ^ 0). rewrite check_unset by done. cbn. by rewrite andb_true_r.
    + destruct H as [H | ->]; [lia |]. cbn. do 2 eexists. split; [done |]. intros z. by split.
  - do 2 eexists. split; [done |]. intros z. by split.
Qed.

Lemma db_desc_send_ok n s s' x :
  at_nbr n s s' x -> n <> nbr_self s -> NSM_Exchange <= n_state x \/ CHECK_FLAG (dd_flags x) OSPF_DD_FLAG_M = true ->
  exists s2 y, ospf_db_desc_send s' n = Ok s2 /\ at_nbr n s s2 y /\ sent x y /\ oi_state s2 = oi_state s' /\ event_q s2 = event_q s'.
Proof.
  intros A Hn H. unfold ospf_db_desc_send. rewrite (get_nbr_Ok _ _ _ (an_nbr _ _ _ _ A)). cbn [mbind res_bind].
  destruct (make_db_desc_ok s' x (iv_base _ _ _ (an_inv _ _ _ _ A)) H) as (y & out & -> & Sy). cbn [mbind res_bind].
  destruct (at_upd n s s' x (fun _ => set_last_send_ts (clock s') (set_last_send true y)) A Hn) as (s2 & -> & A2 & O2 & E2); [apply Sy | apply Sy |].
  cbn [mbind res_bind]. do 2 eexists. split; [done |]. split; [by apply at_log |]. split; [apply Sy | done].
Qed.

(** ** [nsm_change_state] *)

Definition no_lists (x : ospf_neighbor) : Prop := db_sum x = [] /\ ls_req x = [] /\ ls_rxmt x = [].

(** [started]: the exchange has been started when the new state asks for it. *)
Record changed (started : bool) (st : Z) (x y : ospf_neighbor) : Prop := {
  cg_id : same_id x y;
  cg_state : n_state y = st;
  cg_lists : st <= NSM_ExStart -> (n_state x <= NSM_ExStart -> no_lists x) -> no_lists y;
  cg_last : (st = NSM_ExStart /\ started = true) \/ last_send x = true -> last_send y = true;
  cg_ms : st <> NSM_ExStart -> CHECK_FLAG (dd_flags y) OSPF_DD_FLAG_MS = CHECK_FLAG (dd_flags x) OSPF_DD_FLAG_MS;
  cg_timers : t_inactivity y = t_inactivity x /\ t_db_desc y = t_db_desc x /\ t_ls_req y = t_ls_req x /\ t_ls_upd y = t_ls_upd x }.

Lemma clear_adj_fields x : let y := clear_adj x in
  same_id x y /\ n_state y = n_state x /\ no_lists y /\ last_send y = last_send x /\ dd_flags y = dd_flags x /\
  (t_inactivity y = t_inactivity x /\ t_db_desc y = t_db_desc x /\ t_ls_req y = t_ls_req x /\ t_ls_upd y = t_ls_upd x).
Proof. unfold clear_adj, no_lists. cbn. by destruct (ls_req x) eqn:E1, (ls_rxmt x) eqn:E2; cbn; rewrite ?E1, ?E2. Qed.

Lemma start_exchange_ok n s s' x :
  at_nbr n s s' x -> n <> nbr_self s ->
  exists s2 y, start_exchange s' n = Ok s2 /\ at_nbr n s s2 y /\ oi_state s2 = oi_state s' /\ same_id x y /\ n_state y = n_state x /\ last_send y = true /\
    (no_lists x -> no_lists y) /\ t_inactivity y = t_inactivity x /\ t_db_desc y = t_db_desc x /\ t_ls_req y = t_ls_req x /\ t_ls_upd y = t_ls_upd x.
Proof.
  intros A Hn. unfold start_exchange. edestruct (at_upd n s s' x) as (s2 & -> & A2 & O2 & _); [exact A | exact Hn | | |]; [by split | done |]. cbn [mbind res_bind].
  edestruct (db_desc_send_ok n s s2) as (s3 & y & E3 & A3 & [S1 S2 S3 S4 [S5 S6] S7 S8] & O3 & _); [exact A2 | exact Hn | by right |].
  exists s3, y. split; [exact E3 |]. split; [exact A3 |]. split; [congruence |]. split; [exact S1 |]. split; [exact S2 |]. split; [exact S3 |]. split; [| exact S8].
  intros (L1 & L2 & L3). split; [by apply S4 |]. cbn in S5, S6. by rewrite S5, S6.
Qed.

(** ** Timers *)

Lemma timers_of_fields x : let y := timers_of x in
  same_id x y /\ n_state y = n_state x /\ (no_lists x -> no_lists y) /\ last_send y = last_send x /\ dd_flags y = dd_flags x.
Proof. unfold timers_of. cbn zeta. split_ifs; done. Qed.

(** The timers of a neighbour that came to its state by a legal move. *)
Lemma timers_of_wf (p : Prop) x :
  NSM_Down <= n_state x <= NSM_Full -> (n_state x <= NSM_ExStart -> no_lists x) -> (NSM_ExStart <= n_state x -> last_send x = true) ->
  (n_state x = NSM_Exchange -> CHECK_FLAG (dd_flags x) OSPF_DD_FLAG_MS = true -> t_db_desc x = true) ->
  (NSM_Init <= n_state x -> t_inactivity x = true \/ p) -> nbr_wf p (timers_of x).
Proof.
  intros R L S M I. destruct (timers_of_fields x) as (_ & E & F1 & F2 & F3). unfold NSM_Down, NSM_Full, NSM_ExStart, NSM_Exchange, NSM_Init in *.
  assert (n_state x = 2 \/ n_state x = 3 \/ n_state x = 4 \/ n_state x = 5 \/ n_state x = 6 \/ n_state x = 7 \/ n_state x = 8 \/ n_state x = 9) as C by lia.
  split; unfold NSM_Down, NSM_Full, NSM_ExStart, NSM_Exchange, NSM_Init, NSM_TwoWay in *; rewrite ?E, ?F2, ?F3; try done.
  - intros H. by apply F1, L.
  - intros H. unfold timers_of. destruct C as [C | [C | [C | [C | C]]]]; [by rewrite C .. | lia].
  - intros H. unfold timers_of. by rewrite H.
  - intros H1 H2. unfold timers_of. rewrite H1. cbn. rewrite H2. cbn. by apply M.
  - intros H. specialize (I H). unfold timers_of. destruct C as [C | [C | C]]; [lia | lia |].
    destruct C as [C | [C | [C | [C | [C | C]]]]]; rewrite C; cbn; try done. by split_ifs.
Qed.

(** ** The table *)

(** What a transition from [st] by function [f] with the entry [nx] may be: to Deleted; or a state of the table that keeps the
    invariant; or one the function decides. *)
Definition entry_ok (st : Z) (f : option nsm_func) (nx : Z) : bool :=
  match f with
  | Some F_twoway => (nx =? 0) && (st =? NSM_Init)
  | Some F_exchange => (nx =? 0) && (st =? NSM_Exchange)
  | Some F_adj_ok => (nx =? 0) && (NSM_TwoWay <=? st)
  | Some F_kill => nx =? NSM_Deleted
  | Some F_negotiation => (nx =? NSM_Exchange) && (st =? NSM_ExStart)
  | Some F_start => (nx =? NSM_Attempt) && (st =? NSM_Down)
  | Some F_packet_received => (nx =? (if st <? NSM_Init then NSM_Init else st))
  | None => (nx =? st) || ((NSM_TwoWay <=? st) && (nx =? NSM_Init)) || ((NSM_Exchange <=? st) && (nx =? NSM_ExStart)) || ((st =? NSM_Loading) && (nx =? NSM_Full))
  end.

Lemma nsm_entry st ev : NSM_Down <= st <= NSM_Full -> 1 <= ev <= 13 ->
  exists f nx, entry NSM st ev = Ok (f, nx) /\ entry_ok st f nx = true /\ (f = Some F_kill <-> 11 <= ev).
Proof.
  intros Hs He. unfold NSM_Down, NSM_Full in Hs.
  assert (forallb (fun st => forallb (fun ev => match entry NSM st ev with
    | Ok (f, nx) => entry_ok st f nx && Bool.eqb (match f with Some F_kill => true | _ => false end) (11 <=? ev) | _ => false end)
    (seqZ 1 13)) (seqZ 2 8) = true) as C by (vm_compute; reflexivity).
  rewrite forallb_forall in C. specialize (C st). rewrite <- list_elem_of_In, elem_of_seqZ in C. specialize (C ltac:(lia)).
  rewrite forallb_forall in C. specialize (C ev). rewrite <- list_elem_of_In, elem_of_seqZ in C. specialize (C ltac:(lia)).
  destruct (entry NSM st ev) as [[f nx] | |]; [| done | done]. exists f, nx. apply andb_prop in C as [C1 C2]. split; [done |]. split; [done |].
  destruct f as [[] |]; cbn in C2; destruct (Z.leb_spec 11 ev); try done; split; intros; done || lia.
Qed.

Section Nsm.
Context (execute : task -> ospf_interface -> res ospf_interface).
(** [execute] runs elections. *)
Context (execute_ok : forall o s, inv w o s -> dr_state (oi_state s) = true ->
  exists s', execute (Ism ISM_NeighborChange) s = Ok s' /\ inv w o s' /\ steady s s').

Lemma change_state_ok s n x st :
  inv w (Some n) s -> heap s !! n = Some x -> n <> nbr_self s ->
  exists s' y, nsm_change_state execute s n st = Ok s' /\ at_nbr n s s' y /\ changed true st x y.
Proof.
  intros I Hx Hn. unfold nsm_change_state. rewrite (get_nbr_Ok _ _ _ Hx). cbn [mbind res_bind]. rewrite (upd_nbr_Ok _ _ _ _ Hx). cbn [mbind res_bind].
  destruct (set_state_ok s n x st I Hx Hn) as (I1 & F1 & H1 & O1). set (s1 := if (_ : bool) then full_changed _ _ else _) in *. clearbody s1.
  assert (at_nbr n s (log (OpaqueNsmChange n (n_state x)) s1) (set_n_state st x)) as A1 by (apply at_log; by split).
  set (s2 := log _ s1) in *. clearbody s2. clear I1 F1 H1 O1 s1.
  (* the lists *)
  assert (exists s3 y, (if (n_state x >? NSM_ExStart) && (st <=? NSM_ExStart) then nsm_clear_adj s2 n else Ok s2) = Ok s3 /\ at_nbr n s s3 y /\ changed false st x y)
    as (s3 & y3 & -> & A3 & C3).
  { destruct (_ && _) eqn:C.
    - destruct (clear_adj_fields (set_n_state st x)) as (P1 & P2 & P3 & P4 & P5 & P6).
      destruct (at_upd n s s2 (set_n_state st x) clear_adj A1 Hn P1 P2) as (s3 & E3 & A3 & _). eexists s3, _. split; [exact E3 |]. split; [exact A3 |].
      split; [done | done | done | rewrite P4; cbn; naive_solver | by rewrite P5 | exact P6].
    - exists s2. eexists. split; [done |]. split; [exact A1 |]. split; try done; cbn; [| naive_solver]. intros Hst Hl. apply Hl. lia. }
  cbn [mbind res_bind].
  (* the exchange *)
  assert (exists s4 y, (if st =? NSM_ExStart then start_exchange s3 n else Ok s3) = Ok s4 /\ at_nbr n s s4 y /\ changed true st x y) as (s4 & y4 & -> & A4 & C4).
  { destruct (Z.eqb_spec st NSM_ExStart) as [-> | Hst]; [| exists s3, y3; split; [done |]; split; [done |]; destruct C3; split; naive_solver].
    destruct (start_exchange_ok n s s3 y3 A3 Hn) as (s4 & y & E4 & A4 & _ & [P1 [P2 P3]] & P4 & P5 & P6 & P7 & P8 & P9 & P10). exists s4, y. split; [exact E4 |]. split; [exact A4 |].
    destruct C3 as [(D1 & D2 & D3) D4 D5 D6 D7 (D8 & D9 & D10 & D11)]. split; [by split; [congruence |]; split; congruence | congruence | auto | done | done |].
    split; [congruence |]. split; [congruence |]. split; congruence. }
  cbn [mbind res_bind].
  assert (exists s5 y, (if st =? NSM_Down then upd_nbr s4 n (set_crypt_seqnum 0) else Ok s4) = Ok s5 /\ at_nbr n s s5 y /\ changed true st x y) as (s5 & y5 & -> & A5 & C5).
  { destruct (st =? NSM_Down); [| by exists s4, y4]. destruct (at_upd n s s4 y4 (set_crypt_seqnum 0) A4 Hn) as (s5 & E5 & A5 & _); [done | done |].
    eexists s5, _. split; [exact E5 |]. split; [exact A5 |]. by destruct C4. }
  cbn [mbind res_bind]. fold (dr_state (oi_state s5)). destruct (dr_state (oi_state s5)) eqn:D; [| by exists s5, y5].
  destruct (_ || _); [| by exists s5, y5]. destruct (execute_ok (Some n) s5 (an_inv _ _ _ _ A5) D) as (s6 & E6 & I6 & S6).
  exists s6, y5. split; [exact E6 |]. split; [| done]. split; [done | | by rewrite (st_heap _ _ S6) by (by eapply at_self); apply A5].
  eapply frame_trans; [apply A5 | by apply frame_steady].
Qed.

(** A move of the state machine; [pr] when the inactivity timer was started. *)
Record legal (st : Z) (pr : Prop) (ns : Z) : Prop := {
  lg_range : NSM_Down <= ns <= NSM_Full;
  lg_last : NSM_ExStart < ns -> NSM_ExStart <= st;
  lg_exchange : ns = NSM_Exchange -> st = NSM_ExStart \/ st = NSM_Exchange;
  lg_init : NSM_Init <= ns -> NSM_Init <= st \/ pr }.

(** What a function of the table does to the neighbour. *)
Record acted (f : option nsm_func) (x y : ospf_neighbor) : Prop := {
  ac_id : same_id x y;
  ac_state : n_state y = n_state x;
  ac_last : last_send y = last_send x;
  ac_flags : dd_flags y = dd_flags x;
  ac_inactivity : t_inactivity x = true \/ f = Some F_packet_received -> t_inactivity y = true;
  ac_db_desc : t_db_desc y = t_db_desc x;
  ac_lists : f <> Some F_negotiation -> no_lists x -> no_lists y }.

Lemma at_refl n s x : inv w (Some n) s -> heap s !! n = Some x -> at_nbr n s s x.
Proof. intros I H. split; [done | apply frame_refl | done]. Qed.

Lemma summary_add_same now y o : let z := ospf_db_summary_add now y o in
  same_id y z /\ n_state z = n_state y /\ last_send z = last_send y /\ dd_flags z = dd_flags y /\ t_inactivity z = t_inactivity y /\ t_db_desc z = t_db_desc y /\ n_options z = n_options y.
Proof. unfold ospf_db_summary_add, ospf_ls_retransmit_add. cbn zeta. split_ifs; done. Qed.

Lemma summary_type_same s ty y : let z := summary_add_type s ty y in
  same_id y z /\ n_state z = n_state y /\ last_send z = last_send y /\ dd_flags z = dd_flags y /\ t_inactivity z = t_inactivity y /\ t_db_desc z = t_db_desc y /\ n_options z = n_options y.
Proof.
  cbn zeta. unfold summary_add_type. generalize (of_type ty (area_db s)). intros l. revert y. induction l as [|o l IH]; intros y; [done |]. cbn [fold_left].
  destruct (summary_add_same (clock s) y o) as ((A1 & A2 & A3) & A4 & A5 & A6 & A7 & A8 & A9).
  destruct (IH (ospf_db_summary_add (clock s) y o)) as ((B1 & B2 & B3) & B4 & B5 & B6 & B7 & B8 & B9). unfold same_id. repeat split; congruence.
Qed.

Lemma acted_trans f x y z : acted f x y -> acted (Some F_negotiation) y z -> acted (Some F_negotiation) x z.
Proof.
  intros [(A1 & A2 & A3) A4 A5 A6 A7 A8 A9] [(B1 & B2 & B3) B4 B5 B6 B7 B8 B9]. split; try congruence; [by split; [| split]; congruence |].
  intros [H | ?]; [| done]. auto.
Qed.

Lemma acted_type s ty x : acted (Some F_negotiation) x (summary_add_type s ty x).
Proof. destruct (summary_type_same s ty x) as (A1 & A2 & A3 & A4 & A5 & A6 & _). split; try done. rewrite A5. by intros [? | ?]. Qed.

Lemma acted_refl f x : f <> Some F_packet_received -> acted f x x.
Proof. intros H. split; try done. by intros [? | ?]. Qed.

(** The result of a function where the table leaves the next state to it. *)
Lemma func_ok n s x f nx :
  inv w (Some n) s -> heap s !! n = Some x -> n <> nbr_self s -> entry_ok (n_state x) (Some f) nx = true -> NSM_Down <= n_state x <= NSM_Full ->
  exists s' y r, run_nsm_func f s n = Ok (s', r) /\ at_nbr n s s' y /\ acted (Some f) x y /\
    (nx = NSM_Deleted \/ legal (n_state x) (f = F_packet_received) (if nx =? NSM_DependUpon then r else nx)).
Proof.
  intros I Hx Hn He Hr. pose proof (at_refl n s x I Hx) as A. destruct (bo_self s (iv_base _ _ _ I)) as (p & Hp & _). destruct (DR_nb s p Hp) as [HD HB].
  assert (nsm_should_adj s x = Ok (is_p2p s || (c_address (conf s) =? d_router p) || (c_address (conf s) =? bd_router p) || (address x =? d_router p) || (address x =? bd_router p))) as Ha
    by (unfold nsm_should_adj; by rewrite HD, HB).
  unfold NSM_Down, NSM_Full, NSM_DependUpon in *.
  assert (forall (ns : Z), 2 <= ns <= 9 -> (6 < ns -> 6 <= n_state x) -> (ns = 7 -> n_state x = 6 \/ n_state x = 7) -> (4 <= ns -> 4 <= n_state x \/ f = F_packet_received) ->
    legal (n_state x) (f = F_packet_received) ns) as Lg by (intros; by split).
  destruct f; cbn [run_nsm_func entry_ok] in *.
  - destruct (at_upd n s s x (set_t_inactivity true) A Hn) as (s' & E & A' & _); [done | done |]. unfold nsm_packet_received. rewrite E. do 3 eexists.
    split; [done |]. split; [exact A' |]. split; [by split |]. right. unfold NSM_Init in *. apply Lg; destruct (n_state x <? 4) eqn:?; destruct (nx =? 0) eqn:?; try lia; by right.
  - destruct (at_upd n s s x (set_t_inactivity true) A Hn) as (s' & E & A' & _); [done | done |]. unfold nsm_start. rewrite E. do 3 eexists.
    split; [done |]. split; [exact A' |]. split; [by split |]. right. unfold NSM_Attempt, NSM_Down in *. apply Lg; destruct (nx =? 0) eqn:?; lia.
  - unfold nsm_twoway_received. rewrite (get_nbr_Ok _ _ _ Hx). cbn [mbind res_bind]. rewrite Ha. cbn [mbind res_bind]. do 3 eexists. split; [done |]. split; [exact A |].
    split; [by apply acted_refl |]. right. unfold NSM_Init, NSM_ExStart, NSM_TwoWay in *. apply Lg; destruct (nx =? 0) eqn:?; destruct (_ || _); lia.
  - unfold nsm_negotiation_done. cbn zeta. set (g := fun x : ospf_neighbor => _).
    assert (acted (Some F_negotiation) x (g x)) as Ac.
    { unfold g. cbn beta zeta. repeat (match goal with |- acted _ _ (if ?b then _ else _) => destruct b | |- acted _ _ (summary_add_type _ _ _) => eapply (acted_trans (Some F_negotiation)); [| apply acted_type] end); by apply acted_refl. }
    destruct (at_upd n s s x g A Hn) as (s' & E & A' & _); [apply Ac | apply Ac |]. rewrite E. cbn. do 3 eexists. split; [done |]. split; [exact A' |]. split; [exact Ac |].
    right. unfold NSM_Exchange, NSM_ExStart in *. apply Lg; destruct (nx =? 0) eqn:?; lia.
  - unfold nsm_exchange_done. rewrite (get_nbr_Ok _ _ _ Hx). cbn [mbind res_bind]. unfold NSM_Exchange in *. destruct (is_nil (ls_req x)) eqn:En.
    + do 3 eexists. split; [done |]. split; [exact A |]. split; [by apply acted_refl |]. right. unfold NSM_Full. apply Lg; destruct (nx =? 0) eqn:?; lia.
    + unfold ospf_ls_req_send. rewrite (get_nbr_Ok _ _ _ Hx). cbn [mbind res_bind]. destruct (list.last _) as [o |].
      * edestruct (at_upd n s s x) as (s' & E & A' & _); [exact A | exact Hn | | | rewrite E]; [done | done |]. cbn. do 3 eexists. split; [done |]. split; [by apply at_log |].
        split; [| right; unfold NSM_Loading; apply Lg; destruct (nx =? 0) eqn:?; lia]. split; try done; cbn. by intros [? | ?].
      * do 3 eexists. split; [done |]. split; [exact A |]. split; [by apply acted_refl |]. right. unfold NSM_Loading. apply Lg; destruct (nx =? 0) eqn:?; lia.
  - unfold nsm_adj_ok. rewrite (get_nbr_Ok _ _ _ Hx). cbn [mbind res_bind]. rewrite Ha. cbn [mbind res_bind]. do 3 eexists. split; [done |]. split; [exact A |].
    split; [by apply acted_refl |]. right. unfold NSM_TwoWay, NSM_ExStart in *. set (adj := _ || _). apply Lg; destruct (nx =? 0) eqn:?; destruct adj;
      destruct (Z.eqb_spec (n_state x) 5); destruct (Z.geb_spec (n_state x) 6); cbn [andb negb]; lia.
  - unfold nsm_kill_nbr. rewrite bool_decide_false by done. cbn [mbind res_bind c_assert negb]. rewrite (get_nbr_Ok _ _ _ Hx). cbn. do 3 eexists.
    split; [done |]. split; [exact A |]. split; [by apply acted_refl |]. left. unfold NSM_Deleted in *. lia.
Qed.

(** ** Deleting a neighbour *)

Lemma nbr_delete_base s n x :
  base_ok s -> heap s !! n = Some x ->
  let s' := set_heap (delete n (heap s)) (cancel_events n (set_nbrs (tab_delete (ospf_nbr_key s x) (nbrs s)) s)) in
  ospf_nbr_delete s n = Ok s' /\ (n <> nbr_self s -> base_ok s').
Proof.
  intros B Hx. cbn zeta. split.
  - unfold ospf_nbr_delete. rewrite (get_nbr_Ok _ _ _ Hx). cbn [mbind res_bind]. rewrite (bo_lookup s n x B Hx). unfold ospf_nbr_free, get_nbr. cbn. by rewrite Hx.
  - intros Hn. pose proof (bo_lookup s n x B Hx) as HL. apply tab_lookup_elem in HL; [| apply B]. destruct B as [B1 B2 B3 B4 B5 B6]. split; cbn.
    + by apply tab_delete_sorted.
    + intros k m [Hk Hm]%tab_delete_elem. cbn in Hk. destruct (B2 k m Hm) as (y & Hy & <-). exists y. split; [| done].
      rewrite lookup_delete_ne; [done |]. intros <-. rewrite Hx in Hy. by injection Hy as <-.
    + intros m Hm. assert (m <> n) as Hne by (intros ->; rewrite lookup_delete_eq in Hm; by destruct Hm). rewrite lookup_delete_ne in Hm by done.
      destruct (B3 m Hm) as [k Hk]. exists k. apply tab_delete_elem. split; [| done]. cbn. intros ->.
      apply Hne. apply (tab_lookup_elem _ _ _ B1) in HL, Hk. congruence.
    + intros m y Hy. apply lookup_delete_Some in Hy as [_ Hy]. by apply (B4 m).
    + destruct B5 as (y & Hy & S). exists y. by rewrite lookup_delete_ne.
    + intros t [Ht Hq]%list_elem_of_filter. specialize (B6 t Hq). destruct t as [ev | m ev]; [done |]. cbn in *. by rewrite lookup_delete_ne by congruence.
Qed.

Lemma nbr_delete_ok s n x :
  inv w (Some n) s -> heap s !! n = Some x -> n <> nbr_self s -> n_state x <> NSM_Full ->
  exists s', ospf_nbr_delete s n = Ok s' /\ inv w None s' /\ conf s' = conf s /\ nbr_self s' = nbr_self s /\ ospf_router_id s' = ospf_router_id s /\ ready_q s' = ready_q s /\ heap s' = delete n (heap s).
Proof.
  intros [B N I F] Hx Hn Hf. destruct (nbr_delete_base s n x B Hx) as [E B']. specialize (B' Hn). eexists. split; [exact E |]. split; [| done].
  assert (forall t, t ∈ event_q s ++ ready_q s -> ~ task_of n t -> t ∈ filter (fun t => ~ task_of n t) (event_q s) ++ ready_q s) as Q.
  { intros t Ht Hm. rewrite elem_of_app in Ht |- *. destruct Ht as [Ht | Ht]; [left; by apply list_elem_of_filter | by right]. }
  split; [done | | |].
  - intros m y Hy Hm _. cbn in Hy, Hm. apply lookup_delete_Some in Hy as [Hne Hy]. eapply nbr_wf_weaken; [| apply (N m y Hy Hm); congruence].
    unfold pending. cbn. intros H. apply Q; [done | cbn; congruence].
  - destruct I as [I1 I2 I3 I4 I5 I6 I7]. split; try done.
    + intros H. specialize (I2 H). unfold role, nb in *. cbn. by rewrite lookup_delete_ne.
    + revert I7. cbn. destruct (oi_state s =? ISM_Waiting); [| done]. intros [? | [H | ?]]; [by left | right; left; apply Q; [done | cbn; tauto] | by right; right].
  - destruct F as [F1 F2 F3 F4]. split; try done. cbn. by rewrite (full_count_delete _ _ x).
Qed.

(** ** [ospf_nsm_event] *)

Lemma nsm_event_ok s n x ev :
  inv w (Some n) s -> heap s !! n = Some x -> n <> nbr_self s -> nbr_wf (pending s n \/ ev = NSM_InactivityTimer) x -> 1 <= ev <= 13 ->
  exists s', ospf_nsm_event execute s n ev = Ok s' /\ inv w None s' /\ conf s' = conf s /\ nbr_self s' = nbr_self s /\ ospf_router_id s' = ospf_router_id s /\ ready_q s' = ready_q s /\
    (NSM_KillNbr <= ev -> heap s' !! n = None) /\
    (ev < NSM_KillNbr -> exists y, heap s' !! n = Some y /\ forall f nx, entry NSM (n_state x) ev = Ok (f, nx) -> nx <> NSM_DependUpon -> n_state y = nx) /\
    (forall m, m <> n -> m <> nbr_self s -> heap s' !! m = heap s !! m).
Proof.
  intros I Hx Hn W He. unfold ospf_nsm_event. rewrite (get_nbr_Ok _ _ _ Hx). cbn [mbind res_bind]. destruct (nsm_entry (n_state x) ev (nw_state _ _ W) He) as (f & nx & E & Eo & Ek).
  rewrite E. cbn [mbind res_bind].
  (* the function *)
  assert (exists s1 y ns, (match f with None => Ok (s, nx) | Some f => '(s, func_state) ← run_nsm_func f s n; Ok (s, if nx =? NSM_DependUpon then func_state else nx) end) = Ok (s1, ns) /\
    at_nbr n s s1 y /\ acted f x y /\ (f = Some F_negotiation -> ns = NSM_Exchange) /\ (nx <> NSM_DependUpon -> ns = nx) /\ ((ns = NSM_Deleted /\ NSM_KillNbr <= ev) \/ (legal (n_state x) (f = Some F_packet_received) ns /\ ev < NSM_KillNbr)))
    as (s1 & y & ns & -> & A & Ac & Ng & Nx & Lg).
  { unfold NSM_KillNbr. destruct f as [f |].
    - destruct (func_ok n s x f nx I Hx Hn Eo (nw_state _ _ W)) as (s1 & y & r & -> & A & Ac & L). cbn. exists s1, y. eexists. split; [done |]. split; [done |]. split; [done |].
      split; [intros [= ->]; cbn in Eo; apply andb_prop in Eo as [Eo%Z.eqb_eq _]; by rewrite Eo |].
      split; [intros Hnx; by rewrite (proj2 (Z.eqb_neq _ _) Hnx) |].
      destruct (decide (f = F_kill)) as [-> | Hf].
      + left. cbn in Eo. assert (nx = NSM_Deleted) as -> by (apply Z.eqb_eq in Eo; done). split; [done | by apply Ek].
      + right. assert (ev < 11) by (destruct (decide (11 <= ev)) as [H | H]; [| lia]; apply Ek in H; congruence). split; [| done].
        destruct L as [-> | [L1 L2 L3 L4]]; [exfalso; clear -Eo W Hf |].
        { pose proof (nw_state _ _ W) as Wr. unfold NSM_Down in Wr. unfold entry_ok, NSM_Deleted, NSM_Init, NSM_Attempt, NSM_Exchange, NSM_Down in Eo. destruct f; try done; destruct (Z.ltb_spec (n_state x) 4); lia. }
        split; try done. intros H4. destruct (L4 H4) as [? | ->]; tauto.
    - exists s, x, nx. split; [done |]. split; [by apply at_refl |]. split; [by apply acted_refl |]. split; [done |]. split; [done |]. right.
      assert (ev < 11) by (destruct (decide (11 <= ev)) as [H | H]; [| lia]; by apply Ek in H). split; [| done]. pose proof (nw_state _ _ W).
      cbn in Eo. unfold NSM_TwoWay, NSM_Init, NSM_Exchange, NSM_ExStart, NSM_Loading, NSM_Full, NSM_Down in *. split; unfold NSM_Down, NSM_Full, NSM_ExStart, NSM_Exchange, NSM_Init; lia. }
  cbn [mbind res_bind]. assert (ns <> NSM_DependUpon) as H0.
  { destruct Lg as [[-> _] | [[L _ _ _] _]]; [done |]. unfold NSM_Down, NSM_DependUpon in *. lia. }
  rewrite (proj2 (Z.eqb_neq _ _) H0). cbn [c_assert negb mbind res_bind]. rewrite (get_nbr_Ok _ _ _ (an_nbr _ _ _ _ A)). cbn [mbind res_bind].
  (* the change of state *)
  assert (exists s2 z, (if negb (ns =? n_state y) then nsm_change_state execute s1 n ns else Ok s1) = Ok s2 /\ at_nbr n s s2 z /\ (changed true ns y z \/ (z = y /\ ns = n_state y)))
    as (s2 & z & -> & A2 & Cz).
  { destruct (Z.eqb_spec ns (n_state y)) as [-> | Hne]; cbn [negb]; [exists s1, y; split; [done |]; split; [done | by right] |].
    destruct (change_state_ok s1 n y ns (an_inv _ _ _ _ A) (an_nbr _ _ _ _ A) (at_self _ _ _ _ A Hn)) as (s2 & z & E2 & A2 & C2). exists s2, z. split; [done |].
    split; [by eapply at_trans | by left]. }
  cbn [mbind res_bind]. unfold nsm_timer_set. destruct (timers_of_fields z) as (T1 & T2 & _). destruct (at_upd n s s2 z timers_of A2 Hn T1 T2) as (s3 & -> & A3 & _).
  cbn [mbind res_bind]. rewrite (get_nbr_Ok _ _ _ (an_nbr _ _ _ _ A3)). cbn [mbind res_bind].
  assert (n_state z = ns) as Hz by (destruct Cz as [[] | [-> ?]]; congruence). rewrite T2, Hz. pose proof (an_frame _ _ _ _ A3) as Fr.
  destruct Lg as [[-> Hk] | [Lg Hk]].
  - rewrite Z.eqb_refl. destruct (nbr_delete_ok s3 n (timers_of z) (an_inv _ _ _ _ A3) (an_nbr _ _ _ _ A3) (at_self _ _ _ _ A3 Hn)) as (s4 & E4 & I4 & F4); [by rewrite T2, Hz |].
    exists s4. split; [exact E4 |]. split; [done |]. destruct F4 as (F1 & F2 & F3 & F4 & F5). destruct Fr. split; [congruence |]. split; [congruence |]. split; [congruence |].
    split; [congruence |]. rewrite F5. split; [intros _; apply lookup_delete_eq |]. split; [lia |]. intros m H1 H2. rewrite lookup_delete_ne by congruence. by apply fr_heap0.
  - assert (ns =? NSM_Deleted = false) as -> by (apply Z.eqb_neq; pose proof (lg_range _ _ _ Lg); unfold NSM_Down, NSM_Deleted in *; lia).
    exists s3. split; [done |]. split; [| destruct Fr; split; [done |]; split; [done |]; split; [done |]; split; [done |]; split; [lia |]; split; [| auto]].
    2: { intros _. exists (timers_of z). split; [apply A3 |]. intros f' nx' E' Hnx. injection E' as <- <-. by rewrite T2, Hz, Nx. }
    eapply inv_close; [apply A3 | apply A3 |]. destruct W as [W1 W2 W3 W4 W5 W6 W7], Ac as [Ac1 Ac2 Ac3 Ac4 Ac5 Ac6 Ac7], Lg as [L1 L2 L3 L4].
    assert (pending s n -> pending s3 n) as Hp by (unfold pending; destruct Fr; rewrite !elem_of_app, fr_ready0; intros [?%fr_event0 | ?]; tauto).
    assert (NSM_Init <= ns -> t_inactivity y = true \/ pending s3 n) as Hi.
    { intros H4. destruct (L4 H4) as [H | ->]; [| left; apply Ac5; by right]. destruct (W7 H) as [? | [? | ->]]; [left; apply Ac5; by left | right; auto |].
      exfalso. unfold NSM_InactivityTimer, NSM_KillNbr in *. lia. }
    assert (n_state x <= NSM_ExStart -> ns <= NSM_ExStart -> no_lists y) as Hl.
    { intros H1 H2. apply Ac7; [| by apply W2]. intros Hf. rewrite (Ng Hf) in H2. unfold NSM_Exchange, NSM_ExStart in H2. lia. }
    apply timers_of_wf; rewrite ?Hz; try done.
    + intros H. destruct Cz as [[] | [-> ?]]; [apply cg_lists0; [done |]; intros H'; apply Hl; [congruence | done] |]. apply Hl; [congruence | done].
    + intros H. destruct Cz as [[] | [-> Hs]].
      * apply cg_last0. destruct (decide (ns = NSM_ExStart)) as [-> | Hne]; [by left | right]. rewrite Ac3. apply W4, L2. lia.
      * rewrite Ac3. apply W4. congruence.
    + intros H1 H2. destruct Cz as [Cz | [-> Hs]].
      * destruct Cz as [_ _ _ _ C1 (_ & C2 & _)]. rewrite C2, Ac6. rewrite C1, Ac4 in H2 by (rewrite H1; done). destruct (L3 H1) as [? | ?]; auto.
      * rewrite Ac6. rewrite Ac4 in H2. apply W6; [congruence | done].
    + intros H. destruct (Hi H) as [? | ?]; [left | by right]. destruct Cz as [[] | [-> ?]]; [| done]. destruct cg_timers0 as (-> & _). done.
Qed.

End Nsm.
End Keep.
