(* ===== verification/OspfSteps.v ===== *)
(** * ospfd/ospf_ism.c: the interface state machine keeps the invariant, and [thread_execute] returns

    ospfd: every step of an interface keeps the invariant.  [allowed]: the steps from which the invariant is proved.  Packets pass the checks of [ospf_read_process], timers that
    fire are running, other parts of ospfd name neighbours that are in the table, and the router id of an interface that is
    a virtual link stays.  An event the scheduler has made ready is run only while its neighbour is there.  The program does not keep the last two: OspfClaims shows what happens then. *)

From stdpp Require Import sorting.
From S2P Require Import Prelude OspfLsdb OspfNeighbor OspfFsm OspfPacket OspfElection OspfInv OspfNsm.
Local Open Scope Z_scope.

Notation nref := positive (only parsing).

(** ** The table *)

Definition ism_entry_ok (st ev : Z) (f : ism_func) (nx : Z) : bool :=
  match f with
  | G_ignore | G_loop_ind => (nx =? st) || (nx =? ISM_Down) || (nx =? ISM_Loopback)
  | G_interface_up => (nx =? 0) && (st =? ISM_Down)
  | G_interface_down => (nx =? ISM_Down) && (ev =? ISM_InterfaceDown)
  | _ => (nx =? 0) && ((st =? ISM_Waiting) || dr_state st)
  end.

Lemma ism_entry st ev : ISM_Down <= st <= ISM_DR -> 1 <= ev <= 7 ->
  exists f nx, entry ISM st ev = Ok (f, nx) /\ ism_entry_ok st ev f nx = true /\ (f = G_interface_down <-> ev = ISM_InterfaceDown).
Proof.
  intros Hs He. unfold ISM_Down, ISM_DR in Hs.
  assert (forallb (fun st => forallb (fun ev => match entry ISM st ev with
    | Ok (f, nx) => ism_entry_ok st ev f nx && Bool.eqb (match f with G_interface_down => true | _ => false end) (ev =? ISM_InterfaceDown) | _ => false end)
    (seqZ 1 7)) (seqZ 1 7) = true) as C by (vm_compute; reflexivity).
  rewrite forallb_forall in C. specialize (C st). rewrite <- list_elem_of_In, elem_of_seqZ in C. specialize (C ltac:(lia)).
  rewrite forallb_forall in C. specialize (C ev). rewrite <- list_elem_of_In, elem_of_seqZ in C. specialize (C ltac:(lia)).
  destruct (entry ISM st ev) as [[f nx] | |]; [| done | done]. exists f, nx. apply andb_prop in C as [C1 C2]. split; [done |]. split; [done |].
  destruct (Z.eqb_spec ev ISM_InterfaceDown), f; cbn in C2; try done.
Qed.

(** ** Elections *)

Lemma neighbor_change_ok w w' o s execute :
  inv w o s -> dr_state (oi_state s) = true ->
  exists s', ospf_ism_event execute s ISM_NeighborChange = Ok s' /\ inv w' o s' /\ steady s s'.
Proof.
  intros I D. destruct (elect_event_ok w w' o s G_neighbor_change ISM_NeighborChange execute I) as (s' & E & I' & S & _).
  - apply (io_type _ _ (iv_iface _ _ _ I)). by right.
  - unfold dr_state in D. destruct (Z.eqb_spec (oi_state s) ISM_DROther) as [-> | _]; [done |]. destruct (Z.eqb_spec (oi_state s) ISM_Backup) as [-> | _]; [done |].
    destruct (Z.eqb_spec (oi_state s) ISM_DR) as [-> | _]; [done | done].
  - tauto.
  - eauto.
Qed.

Lemma exec_elects fuel w o s : inv w o s -> dr_state (oi_state s) = true -> exists s', exec (S fuel) (Ism ISM_NeighborChange) s = Ok s' /\ inv w o s' /\ steady s s'.
Proof. intros I D. exact (neighbor_change_ok w w o s (exec fuel) I D). Qed.

Lemma exec_nsm_ok fuel w s n x ev :
  inv w (Some n) s -> heap s !! n = Some x -> n <> nbr_self s -> nbr_wf (pending s n \/ ev = NSM_InactivityTimer) x -> 1 <= ev <= 13 ->
  exists s', exec (S (S fuel)) (Nsm n ev) s = Ok s' /\ inv w None s' /\ conf s' = conf s /\ nbr_self s' = nbr_self s /\ ospf_router_id s' = ospf_router_id s /\ ready_q s' = ready_q s /\
    (NSM_KillNbr <= ev -> heap s' !! n = None) /\
    (ev < NSM_KillNbr -> exists y, heap s' !! n = Some y /\ forall f nx, entry NSM (n_state x) ev = Ok (f, nx) -> nx <> NSM_DependUpon -> n_state y = nx) /\
    (forall m, m <> n -> m <> nbr_self s -> heap s' !! m = heap s !! m).
Proof. intros. by apply (nsm_event_ok w (exec (S fuel)) (exec_elects fuel w) s n x ev). Qed.

(** ** [ospf_if_cleanup] *)

(** Killing the neighbours of the keys [l]: none of them is left. *)
Lemma kill_all_ok fuel w l : forall s, inv w None s ->
  exists s', kill_all (exec (S (S fuel))) l s = Ok s' /\ inv w None s' /\ conf s' = conf s /\ nbr_self s' = nbr_self s /\ ospf_router_id s' = ospf_router_id s /\ ready_q s' = ready_q s /\
    (forall m y, heap s' !! m = Some y -> m <> nbr_self s -> heap s !! m = Some y /\ ospf_nbr_key s y ∉ l).
Proof.
  induction l as [|k l IH]; intros s I; cbn [kill_all].
  - exists s. split; [done |]. split; [done |]. do 4 (split; [done |]). intros m y Hy Hm. split; [done | apply not_elem_of_nil].
  - assert (exists s1, match tab_lookup k (nbrs s) with Some n => if bool_decide (n = nbr_self s) then Ok s else exec (S (S fuel)) (Nsm n NSM_KillNbr) s | None => Ok s end = Ok s1 /\
      inv w None s1 /\ conf s1 = conf s /\ nbr_self s1 = nbr_self s /\ ospf_router_id s1 = ospf_router_id s /\ ready_q s1 = ready_q s /\
      (forall m y, heap s1 !! m = Some y -> m <> nbr_self s -> heap s !! m = Some y /\ ospf_nbr_key s y <> k)) as (s1 & -> & I1 & C1 & S1 & R1 & Q1 & H1).
    { pose proof (iv_base _ _ _ I) as B. destruct (tab_lookup k (nbrs s)) as [n |] eqn:E.
      - assert (E' := E). apply tab_lookup_elem in E'; [| apply B]. destruct (bo_tab s B k n E') as (x & Hx & Hk). destruct (bool_decide_reflect (n = nbr_self s)) as [Hs | Hs].
        + exists s. split; [done |]. split; [done |]. do 4 (split; [done |]). intros m y Hy Hm. split; [done |]. intros Ek. apply Hm. rewrite <- Hs.
          apply (bo_key_inj s m n y x B Hy Hx). by rewrite Hk.
        + destruct (exec_nsm_ok fuel w s n x NSM_KillNbr (inv_open w s n I) Hx Hs) as (s1 & E1 & I1 & C1 & S1 & R1 & Q1 & K1 & _ & H1); [| unfold NSM_KillNbr; lia |].
          * eapply nbr_wf_weaken; [| by apply (iv_nbr _ _ _ I)]. tauto.
          * exists s1. split; [done |]. split; [done |]. do 4 (split; [done |]). intros m y Hy Hm.
            assert (m <> n) as Hne by (intros ->; rewrite K1 in Hy; [done | unfold NSM_KillNbr; lia]). rewrite H1 in Hy by done. split; [done |].
            intros Ek. apply Hne. apply (bo_key_inj s m n y x B Hy Hx). by rewrite Hk.
      - exists s. split; [done |]. split; [done |]. do 4 (split; [done |]). intros m y Hy Hm. split; [done |]. intros Ek. pose proof (bo_lookup s m y B Hy) as Hl. congruence. }
    cbn [mbind res_bind]. destruct (IH s1 I1) as (s2 & E2 & I2 & C2 & S2 & R2 & Q2 & H2). exists s2. split; [exact E2 |]. split; [done |].
    split; [congruence |]. split; [congruence |]. split; [congruence |]. split; [congruence |]. intros m y Hy Hm. destruct (H2 m y Hy) as [G1 G2]; [congruence |].
    destruct (H1 m y G1 Hm) as [G3 G4]. split; [done |]. unfold ospf_nbr_key, is_vlink in *. rewrite C1 in G2. by apply not_elem_of_cons.
Qed.

(** An interface without neighbours: what [ospf_if_cleanup] leaves. *)
Record alone (s : ospf_interface) : Prop := {
  al_base : base_ok s;
  al_heap n : is_Some (heap s !! n) -> n = nbr_self s;
  al_full : full_ok s;
  al_act : act_ints s = (if oi_state s =? ISM_Down then 0 else 1);
  al_state : ISM_Down <= oi_state s <= ISM_DR;
  al_events t : t ∈ event_q s -> exists ev, t = Ism ev }.

Lemma full_count_alone (h : gmap positive ospf_neighbor) : (forall n x, h !! n = Some x -> n_state x <> NSM_Full) -> full_count h = 0.
Proof.
  intros H. unfold full_count. rewrite (map_empty_filter_2 is_full h); [done |]. intros n x Hx. exact (H n x Hx).
Qed.

(** The pseudo neighbour of an empty table is replaced by a new one. *)
Lemma renew_self s :
  alone s -> exists s', (s ← ospf_nbr_delete s (nbr_self s); let '(s, n) := ospf_nbr_new s in ospf_nbr_add_self (set_nbr_self n s)) = Ok s' /\ alone s' /\ conf s' = conf s /\ ospf_router_id s' = ospf_router_id s /\ ready_q s' = ready_q s.
Proof.
  intros [B H F A S E]. destruct (bo_self s B) as (x & Hx & SF). destruct (nbr_delete_base s (nbr_self s) x B Hx) as [-> _]. cbn [mbind res_bind].
  set (s1 := set_heap _ _). assert (heap s1 = ∅) as H1.
  { apply map_eq. intros n. rewrite lookup_empty. apply eq_None_not_Some. intros [y Hy]. cbn in Hy. apply lookup_delete_Some in Hy as [Hne Hy]. apply Hne. symmetry. apply H. eauto. }
  assert (nbrs s1 = []) as N1.
  { apply elem_of_nil_inv. intros [k n] [Hk Hn]%tab_delete_elem. cbn in Hk. destruct (bo_tab s B k n Hn) as (y & Hy & <-).
    assert (n = nbr_self s) as -> by (apply H; eauto). rewrite Hx in Hy. injection Hy as <-. done. }
  assert (forall t, t ∈ event_q s1 -> exists ev, t = Ism ev /\ 1 <= ev <= 7) as E1.
  { cbn. intros t [_ Ht]%list_elem_of_filter. destruct (E t Ht) as [ev ->]. exists ev. split; [done |]. apply (bo_events s B _ Ht). }
  assert (full_ok s1) as F1.
  { destruct F as [F1 F2 F3 F4]. split; try done. rewrite H1. cbn. rewrite F1. rewrite !full_count_alone; [done | by intros ? ? ?%lookup_empty_Some |].
    intros n y Hy. assert (n = nbr_self s) as -> by (apply H; eauto). rewrite Hx in Hy. injection Hy as <-. by rewrite (sf_state _ _ _ SF). }
  assert (conf s1 = conf s /\ ospf_router_id s1 = ospf_router_id s /\ act_ints s1 = act_ints s /\ oi_state s1 = oi_state s /\ ready_q s1 = ready_q s) as (C1 & R1 & A1 & S1 & Q1) by done.
  clearbody s1. unfold ospf_nbr_new. cbn zeta beta iota. rewrite H1. set (n := fresh _). set (x0 := mk_nbr _ _ _ _ _ _ _ _ _ _ _ _ _ _ _ _ _ _ _ _ _ _ _ _ _).
  unfold ospf_nbr_add_self. erewrite upd_nbr_Ok; [| cbn; apply lookup_insert_eq]. cbn [mbind res_bind]. erewrite get_nbr_Ok; [| cbn; apply lookup_insert_eq]. cbn [mbind res_bind].
  cbn [nbrs set_heap set_nbr_self]. rewrite N1. cbn [tab_lookup tab_insert]. eexists. split; [done |]. cbn [conf set_nbrs set_heap set_nbr_self ospf_router_id ready_q]. split; [| done].
  cbn. rewrite insert_insert_eq, insert_empty. split; cbn; rewrite ?A1, ?S1; try done.
  - split; cbn; try done.
    + by repeat constructor.
    + intros k m [= -> ->]%list_elem_of_singleton. eexists. rewrite lookup_singleton_eq. split; [done |]. done.
    + intros m [y Hy]. apply lookup_singleton_Some in Hy as [<- _]. eexists. by apply list_elem_of_singleton.
    + intros m y Hy. by apply lookup_singleton_Some in Hy as [_ <-].
    + eexists. rewrite lookup_singleton_eq. split; [done |]. by split.
    + intros t Ht. by destruct (E1 t Ht) as (ev & -> & He).
  - intros m [y Hy]. by apply lookup_singleton_Some in Hy as [<- _].
  - destruct F1 as [F1 F2 F3 F4]. split; try done. cbn. rewrite F1, H1. rewrite !full_count_alone; [done | | by intros ? ? ?%lookup_empty_Some].
    intros m y Hy. by apply lookup_singleton_Some in Hy as [_ <-].
  - intros t Ht. destruct (E1 t Ht) as (ev & -> & _). eauto.
Qed.

Lemma cleanup_ok fuel w s :
  inv w None s -> exists s', ospf_if_cleanup (exec (S (S fuel))) s = Ok s' /\ alone s' /\ conf s' = conf s /\ ospf_router_id s' = ospf_router_id s /\ ready_q s' = ready_q s.
Proof.
  intros I. unfold ospf_if_cleanup. destruct (kill_all_ok fuel w (nbrs s).*1 s I) as (s1 & -> & I1 & C1 & S1 & R1 & Q1 & H1). cbn [mbind res_bind].
  destruct (renew_self s1) as (s2 & E2 & A2 & C2 & R2 & Q2).
  - pose proof (iv_base _ _ _ I1) as B1. assert (forall n, is_Some (heap s1 !! n) -> n = nbr_self s1) as Ho.
    { intros n [x Hx]. destruct (decide (n = nbr_self s)) as [-> | Hn]; [done |]. destruct (H1 n x Hx Hn) as [Hx0 []]. apply list_elem_of_fmap.
      destruct (bo_heap s (iv_base _ _ _ I) n) as [k Hk]; [eauto |]. exists (k, n). split; [| done]. destruct (bo_tab s (iv_base _ _ _ I) k n Hk) as (y & Hy & <-).
      rewrite Hx0 in Hy. by injection Hy as <-. }
    split; try done; [apply I1 | apply (io_act _ _ (iv_iface _ _ _ I1)) | apply (io_state _ _ (iv_iface _ _ _ I1)) |]. intros [ev | n ev] Ht; [eauto |].
    destruct (bo_events s1 B1 _ Ht) as (Hl & Hn & _). by apply Ho in Hl.
  - exists s2. split; [done |]. split; [done |]. split; [congruence |]. split; congruence.
Qed.

(** ** [ospf_ism_event] *)

(** A move that leaves the neighbours alone. *)
Lemma move_ok w w' s ns :
  inv w None s -> ISM_Down <= ns <= ISM_DR -> (ns = ISM_Backup \/ ns = ISM_DR -> role s = ns) -> (ns = ISM_Waiting \/ dr_state ns = true -> is_p2p s = false) ->
  exists s', Ok (ism_timer_set (if negb (ns =? oi_state s) then ism_change_state s ns else s)) = Ok s' /\ inv w' None s' /\ steady s s' /\ oi_state s' = ns.
Proof. intros [B N I F] R1 R2 R3. eexists. split; [done |]. apply change_ok; try done; apply I. Qed.

Lemma same_move w s : inv w None s -> (oi_state s = ISM_Backup \/ oi_state s = ISM_DR -> role s = oi_state s) /\ (oi_state s = ISM_Waiting \/ dr_state (oi_state s) = true -> is_p2p s = false).
Proof. intros [_ _ I _]. split; apply I. Qed.

Lemma alone_down w s : alone s ->
  exists s', Ok (ism_timer_set (if negb (ISM_Down =? oi_state s) then ism_change_state s ISM_Down else s)) = Ok s' /\ inv w None s' /\ steady s s' /\ oi_state s' = ISM_Down.
Proof.
  intros [B H F A S E]. eexists. split; [done |]. apply change_ok; try done.
  - intros n x Hx Hn. destruct Hn. apply H. eauto.
  - by intros [? | ?].
  - intros [? | ?]; done.
Qed.

Lemma interface_up_state s x : heap s !! nbr_self s = Some x ->
  exists ns, ism_interface_up s = Ok (s, ns) /\ ISM_Waiting <= ns <= ISM_DROther /\ (ns = ISM_Waiting \/ dr_state ns = true -> is_p2p s = false).
Proof.
  intros Hx. unfold ism_interface_up, PRIORITY. rewrite (get_nbr_Ok _ _ _ Hx). cbn [fmap res_fmap mbind res_bind]. eexists. split; [done |].
  unfold ISM_PointToPoint, ISM_DROther, ISM_Waiting. destruct (is_p2p s); [split; [lia |]; by intros [? | ?] |]. destruct (_ =? 0); split; (lia || done).
Qed.

Lemma ism_event_ok fuel w w' s ev :
  inv w None s -> 1 <= ev <= 7 ->
  exists s', exec (S (S (S fuel))) (Ism ev) s = Ok s' /\ inv w' None s' /\ conf s' = conf s /\ ospf_router_id s' = ospf_router_id s /\ ready_q s' = ready_q s /\
    (ev <> ISM_InterfaceDown -> steady s s') /\ (ev = ISM_InterfaceDown -> oi_state s' = ISM_Down /\ forall n, is_Some (heap s' !! n) -> n = nbr_self s').
Proof.
  intros I He. pose proof (io_state _ _ (iv_iface _ _ _ I)) as Rs. destruct (ism_entry (oi_state s) ev Rs He) as (f & nx & E & Ok1 & Fd).
  change (exec (S (S (S fuel))) (Ism ev) s) with (ospf_ism_event (exec (S (S fuel))) s ev).
  assert (forall s', f <> G_interface_down -> inv w' None s' /\ steady s s' -> inv w' None s' /\ conf s' = conf s /\ ospf_router_id s' = ospf_router_id s /\ ready_q s' = ready_q s /\
    (ev <> ISM_InterfaceDown -> steady s s') /\ (ev = ISM_InterfaceDown -> oi_state s' = ISM_Down /\ forall n, is_Some (heap s' !! n) -> n = nbr_self s')) as Q.
  { intros s' Hf [I' S']. split; [done |]. split; [apply S' |]. split; [apply S' |]. split; [apply S' |]. split; [done |]. intros Hd. by apply Fd in Hd. }
  assert (f = G_wait_timer \/ f = G_backup_seen \/ f = G_neighbor_change \/ ((f = G_ignore \/ f = G_loop_ind) \/ f = G_interface_up \/ f = G_interface_down)) as C by (destruct f; tauto).
  assert (f = G_wait_timer \/ f = G_backup_seen \/ f = G_neighbor_change -> exists s', ospf_ism_event (exec (S (S fuel))) s ev = Ok s' /\ inv w' None s' /\ steady s s') as Hel.
  { intros Hf. assert (nx = 0 /\ (oi_state s = ISM_Waiting \/ dr_state (oi_state s) = true)) as [-> Hs].
    { destruct Hf as [-> | [-> | ->]]; cbn in Ok1; apply andb_prop in Ok1 as [?%Z.eqb_eq [?%Z.eqb_eq | ?]%orb_prop]; tauto. }
    destruct (elect_event_ok w w' None s f ev (exec (S (S fuel))) I) as (s' & E' & I' & S' & _); [by apply (io_type _ _ (iv_iface _ _ _ I)) | done | done |]. eauto. }
  destruct C as [C | [C | [C | C]]]; [destruct Hel as (s' & E' & I' & S'); [tauto |]; exists s'; split; [done |]; apply Q; [by rewrite C | done] .. |]. clear Hel.
  unfold ospf_ism_event. rewrite E. cbn [mbind res_bind]. destruct C as [C | [-> | ->]].
  - assert (run_ism_func (exec (S (S fuel))) f s = Ok (s, 0)) as -> by (by destruct C as [-> | ->]). cbn [mbind res_bind]. rewrite E. cbn.
    assert (nx = oi_state s \/ nx = ISM_Down \/ nx = ISM_Loopback) as Hnx.
    { destruct C as [-> | ->]; cbn in Ok1; apply orb_prop in Ok1 as [[?%Z.eqb_eq | ?%Z.eqb_eq]%orb_prop | ?%Z.eqb_eq]; tauto. }
    destruct (same_move w s I) as [M1 M2]. destruct (move_ok w w' s nx I) as (s' & E' & I' & S' & _).
    { destruct Hnx as [-> | [-> | ->]]; done. } { destruct Hnx as [-> | [-> | ->]]; [done | by intros [? | ?] ..]. } { destruct Hnx as [-> | [-> | ->]]; [done | by intros [? | ?] ..]. }
    exists s'. split; [exact E' |]. apply Q; [by destruct C as [-> | ->] | done].
  - cbn [run_ism_func]. destruct (bo_self s (iv_base _ _ _ I)) as (x & Hx & _). destruct (interface_up_state s x Hx) as (ns & -> & Hns & Hp). cbn [mbind res_bind].
    assert (ns =? 0 = false) as -> by (unfold ISM_Waiting in Hns; lia). cbn [mbind res_bind]. unfold ISM_Waiting, ISM_DROther, ISM_Down, ISM_DR in *.
    destruct (move_ok w w' s ns I) as (s' & E' & I' & S' & _); [unfold ISM_Down, ISM_DR; lia | unfold ISM_Backup, ISM_DR; lia | exact Hp |].
    exists s'. split; [exact E' |]. apply Q; done.
  - cbn [run_ism_func]. unfold ism_interface_down. destruct (cleanup_ok fuel w s I) as (s1 & -> & A1 & C1 & R1 & Q1). cbn [mbind res_bind]. cbn.
    destruct (ism_entry (oi_state s1) ev (al_state _ A1) He) as (f1 & nx1 & E1 & Ok2 & Fd1). rewrite E1. cbn. assert (ev = ISM_InterfaceDown) as Hev by by apply Fd.
    assert (f1 = G_interface_down) as -> by by apply Fd1. cbn in Ok2. apply andb_prop in Ok2 as [->%Z.eqb_eq _].
    destruct (alone_down w' s1 A1) as (s' & E' & I' & S' & D'). exists s'. split; [exact E' |]. split; [done |]. destruct S'. split; [congruence |]. split; [congruence |]. split; [congruence |].
    split; [done |]. intros _. split; [done |]. intros n [y Hy]. rewrite st_self. apply (al_heap _ A1). destruct (decide (n = nbr_self s1)) as [-> | Hn].
    + destruct (bo_self s1 (al_base _ A1)) as (z & Hz & _). eauto.
    + rewrite st_heap in Hy by done. eauto.
Qed.

(** ** ospfd: every step of an interface keeps the invariant *)

(** ** Steps *)

Definition is_nbr (s : ospf_interface) (n : nref) : bool := bool_decide (is_Some (heap s !! n)) && negb (bool_decide (n = nbr_self s)).

Definition next_task (s : ospf_interface) : option task := match ready_q s with t :: _ => Some t | [] => head (event_q s) end.

Definition allowed (s : ospf_interface) (o : op) : bool :=
  match o with
  | Hello h => accepts s (h_src h) (h_router_id h)
  | DbDesc dd => accepts s (dd_src dd) (dd_router_id dd)
  | Timer t => match timer_on s t with Ok b => b | _ => false end
  | RunEvent => match next_task s with Some (Nsm n _) => is_nbr s n | _ => true end
  | IfUp | IfDown | Clock _ | AreaDb _ => true
  | RouterId _ => negb (is_vlink s)
  | Traffic n _ _ _ => is_nbr s n && match heap s !! n with Some x => NSM_Exchange <=? n_state x | None => false end
  | CheckLoading n => is_nbr s n
  | Packet n ev => is_nbr s n && (1 <=? ev) && (ev <=? 13)
  end.

Inductive reachable : ospf_interface -> Prop :=
| R_new c id now s : ospf_if_new c id now = Ok s -> reachable s
| R_step s o s' : reachable s -> allowed s o = true -> step s o = Ok s' -> reachable s'.

Lemma is_nbr_spec s n : is_nbr s n = true -> exists x, heap s !! n = Some x /\ n <> nbr_self s.
Proof. unfold is_nbr. rewrite andb_true_iff, negb_true_iff, bool_decide_eq_true, bool_decide_eq_false. intros [[x Hx] Hn]. eauto. Qed.

(** The number of an event, also of one that is ready and whose neighbour may be gone. *)
Definition task_num (t : task) : Prop := match t with Nsm _ ev => 1 <= ev <= 13 | Ism ev => 1 <= ev <= 7 end.

Record fsm_ok (s : ospf_interface) : Prop := {
  fk_inv : inv False None s;
  fk_ready t : t ∈ ready_q s -> task_num t }.

Lemma task_live_num s t : task_live s t -> task_num t.
Proof. destruct t; cbn; [done | by intros (_ & _ & ?)]. Qed.

(** ** One neighbour changes *)

(** What keeps a neighbour in the middle of the exchange well-formed. *)
Record kept (x y : ospf_neighbor) : Prop := {
  kp_id : same_id x y;
  kp_state : n_state y = n_state x;
  kp_last : last_send x = true -> last_send y = true;
  kp_ms : CHECK_FLAG (dd_flags y) OSPF_DD_FLAG_MS = CHECK_FLAG (dd_flags x) OSPF_DD_FLAG_MS;
  kp_timers : t_inactivity y = t_inactivity x /\ t_db_desc y = t_db_desc x /\ t_ls_req y = t_ls_req x /\ t_ls_upd y = t_ls_upd x }.

Lemma kept_refl x : kept x x.
Proof. by split. Qed.
Lemma kept_trans x y z : kept x y -> kept y z -> kept x z.
Proof.
  intros [(A1 & A2 & A3) A4 A5 A6 (A7 & A8 & A9 & A10)] [(B1 & B2 & B3) B4 B5 B6 (B7 & B8 & B9 & B10)].
  split; [split; [congruence |]; split; congruence | congruence | auto | congruence |]. split; [congruence |]. split; [congruence |]. split; congruence.
Qed.

Lemma sent_kept x y : sent x y -> kept x y.
Proof. intros []. by split. Qed.

Lemma kept_wf p x y : nbr_wf p x -> NSM_Exchange <= n_state x -> kept x y -> nbr_wf p y.
Proof.
  intros [W1 W2 W3 W4 W5 W6 W7] Hs [K1 K2 K3 K4 (K5 & K6 & K7 & K8)]. unfold NSM_Exchange in Hs. split; rewrite ?K2, ?K4, ?K5, ?K6; try done.
  - unfold NSM_ExStart. lia.
  - unfold NSM_TwoWay. lia.
  - auto.
Qed.

Lemma pending_frame n s s' : frame n s s' -> pending s n -> pending s' n.
Proof. intros []. unfold pending. rewrite !elem_of_app, fr_ready. intros [?%fr_event | ?]; tauto. Qed.

(** Back from a handler of neighbour [n]. *)
Lemma at_close w n s s' x y :
  inv w None s -> heap s !! n = Some x -> n <> nbr_self s -> at_nbr w n s s' y -> (nbr_wf (pending s n) x -> nbr_wf (pending s n) y) -> inv w None s' /\ ready_q s' = ready_q s.
Proof.
  intros I Hx Hn [A F H] W. split; [| apply F]. eapply inv_close; [exact A | exact H |]. eapply nbr_wf_weaken; [by apply (pending_frame n s s') |].
  apply W. by apply (iv_nbr _ _ _ I n x).
Qed.

Lemma at_schedule w n s s' x t : at_nbr w n s s' x -> task_live s' t -> at_nbr w n s (schedule t s') x.
Proof.
  intros [A F H] Ht. split; [by apply inv_schedule | | done]. eapply frame_trans; [exact F |]. split; try done. intros u Hu. cbn. rewrite elem_of_app. by left.
Qed.

Lemma at_live w n s s' x ev : at_nbr w n s s' x -> n <> nbr_self s -> 1 <= ev <= 13 -> task_live s' (Nsm n ev).
Proof. intros A Hn He. split; [eexists; apply A |]. split; [by eapply at_self | done]. Qed.

(** A simple update of a neighbour. *)
Lemma upd_step s n x f :
  fsm_ok s -> heap s !! n = Some x -> n <> nbr_self s -> same_id x (f x) -> n_state (f x) = n_state x -> (forall p, nbr_wf p x -> nbr_wf p (f x)) ->
  exists s', upd_nbr s n f = Ok s' /\ fsm_ok s' /\ heap s' !! n = Some (f x) /\ nbr_self s' = nbr_self s.
Proof.
  intros [I R] Hx Hn Hi Hs Hw. destruct (at_upd False n s s x f (at_refl False n s x (inv_open _ _ n I) Hx) Hn Hi Hs) as (s' & E & A & _).
  destruct (at_close False n s s' x (f x) I Hx Hn A) as [I' Q]; [apply Hw |]. exists s'. split; [done |]. split; [split; [done | by rewrite Q] |]. split; [apply A |].
  apply (fr_self _ _ _ (an_frame _ _ _ _ _ A)).
Qed.

Lemma fsm_schedule s t : fsm_ok s -> task_live s t -> fsm_ok (schedule t s).
Proof. intros [I R] Ht. split; [by apply inv_schedule | exact R]. Qed.

Lemma fsm_log s c : fsm_ok s -> fsm_ok (log c s).
Proof. intros [I R]. split; [by apply inv_log | exact R]. Qed.

(** ** Timers *)

(** A timer of a neighbour that runs is not one of the pseudo neighbour's. *)
Lemma self_timers_off s x : base_ok s -> heap s !! nbr_self s = Some x -> timers x = [false; false; false; false; false].
Proof. intros B Hx. destruct (bo_self s B) as (y & Hy & SF). rewrite Hx in Hy. injection Hy as <-. apply SF. Qed.

Lemma timer_nbr s n (f : ospf_neighbor -> bool) :
  base_ok s -> (forall x, timers x = [false; false; false; false; false] -> f x = false) -> (match f <$> get_nbr s n with Ok b => b | _ => false end) = true ->
  exists x, heap s !! n = Some x /\ n <> nbr_self s /\ f x = true.
Proof.
  intros B Hf. unfold get_nbr. destruct (heap s !! n) as [x |] eqn:Hx; [| done]. cbn. intros Ht. exists x. split; [done |]. split; [| done]. intros ->.
  rewrite (Hf x) in Ht; [done |]. by apply (self_timers_off s).
Qed.

Lemma inactivity_step s n x : fsm_ok s -> heap s !! n = Some x -> n <> nbr_self s -> exists s', ospf_inactivity_timer s n = Ok s' /\ fsm_ok s'.
Proof.
  intros [I R] Hx Hn. unfold ospf_inactivity_timer. destruct (at_upd False n s s x (set_t_inactivity false) (at_refl False n s x (inv_open _ _ n I) Hx) Hn) as (s1 & -> & A & _); [done | done |].
  cbn [mbind res_bind]. eexists. split; [done |]. assert (at_nbr False n s (schedule (Nsm n NSM_InactivityTimer) s1) (set_t_inactivity false x)) as A2.
  { apply at_schedule; [done |]. by eapply at_live. }
  split; [| rewrite (fr_ready _ _ _ (an_frame _ _ _ _ _ A2)); exact R]. eapply inv_close; [apply A2 | apply A2 |].
  destruct (iv_nbr _ _ _ I n x Hx Hn ltac:(done)) as [W1 W2 W3 W4 W5 W6 W7]. split; try done. intros _. right. unfold pending. cbn. rewrite !elem_of_app, list_elem_of_singleton. tauto.
Qed.

Lemma wf_high p x : nbr_wf p x -> t_db_desc x = true \/ t_ls_req x = true \/ t_ls_upd x = true -> NSM_TwoWay < n_state x.
Proof. intros W H. destruct (Z.lt_ge_cases NSM_TwoWay (n_state x)) as [| Hs]; [done |]. destruct (nw_low _ _ W Hs) as (? & ? & ?). naive_solver congruence. Qed.

Lemma wf_timer_again p x y : nbr_wf p x -> NSM_TwoWay < n_state x -> n_state y = n_state x -> ls_req y = ls_req x /\ ls_rxmt y = ls_rxmt x /\ db_sum y = db_sum x ->
  last_send y = last_send x -> (t_db_desc x = true -> t_db_desc y = true) -> dd_flags y = dd_flags x -> t_inactivity y = t_inactivity x -> nbr_wf p y.
Proof.
  intros [W1 W2 W3 W4 W5 W6 W7] Hs E (L1 & L2 & L3) S D F T. split; rewrite ?E, ?L1, ?L2, ?L3, ?S, ?F, ?T; try done; [lia | auto | auto].
Qed.

Lemma resend_ok s n x : heap s !! n = Some x -> last_send x = true -> ospf_db_desc_resend s n = Ok (log (DbDescResend n) s).
Proof. intros Hx Hl. unfold ospf_db_desc_resend. rewrite (get_nbr_Ok _ _ _ Hx). cbn. by rewrite Hl. Qed.

Lemma db_desc_timer_step s n x : fsm_ok s -> heap s !! n = Some x -> n <> nbr_self s -> t_db_desc x = true -> exists s', ospf_db_desc_timer s n = Ok s' /\ fsm_ok s'.
Proof.
  intros [I R] Hx Hn Ht. unfold ospf_db_desc_timer. pose proof (iv_nbr _ _ _ I n x Hx Hn ltac:(done)) as W.
  assert (NSM_TwoWay < n_state x) as Hs by (apply (wf_high _ _ W); by left).
  assert (last_send x = true) as Hl by (apply (nw_last _ _ W); unfold NSM_TwoWay, NSM_ExStart in *; lia).
  destruct (at_upd False n s s x (set_t_db_desc false) (at_refl False n s x (inv_open _ _ n I) Hx) Hn) as (s1 & -> & A & _); [done | done |]. cbn [mbind res_bind].
  rewrite (get_nbr_Ok _ _ _ (an_nbr _ _ _ _ _ A)). cbn [mbind res_bind last_send set_t_db_desc]. rewrite Hl. cbn [c_assert mbind res_bind].
  rewrite (resend_ok s1 n _ (an_nbr _ _ _ _ _ A)) by done. cbn [mbind res_bind].
  destruct (at_upd False n s _ _ (set_t_db_desc true) (at_log _ _ _ _ _ (DbDescResend n) A) Hn) as (s2 & -> & A2 & _); [done | done |].
  eexists. split; [done |]. destruct (at_close False n s s2 x _ I Hx Hn A2) as [I2 Q2]; [intros _ |].
  - by apply (wf_timer_again _ x).
  - split; [done | by rewrite Q2].
Qed.

Lemma ls_req_send_at w n s s' x : at_nbr w n s s' x -> n <> nbr_self s ->
  exists s2 y, ospf_ls_req_send s' n = Ok s2 /\ at_nbr w n s s2 y /\ exists b o, y = set_t_ls_req b (set_ls_req_last o x).
Proof.
  intros A Hn. unfold ospf_ls_req_send. rewrite (get_nbr_Ok _ _ _ (an_nbr _ _ _ _ _ A)). cbn [mbind res_bind]. destruct (list.last _) as [o |].
  - edestruct (at_upd w n s s' x) as (s2 & -> & A2 & _); [exact A | exact Hn | | |]; [done | done |]. cbn. do 2 eexists. split; [done |]. split; [by apply at_log |]. eauto.
  - exists s', x. split; [done |]. split; [done |]. exists (t_ls_req x), (ls_req_last x). by destruct x.
Qed.

Lemma ls_req_timer_step s n x : fsm_ok s -> heap s !! n = Some x -> n <> nbr_self s -> t_ls_req x = true -> exists s', ospf_ls_req_timer s n = Ok s' /\ fsm_ok s'.
Proof.
  intros [I R] Hx Hn Ht. unfold ospf_ls_req_timer. pose proof (iv_nbr _ _ _ I n x Hx Hn ltac:(done)) as W.
  assert (NSM_TwoWay < n_state x) as Hs by (apply (wf_high _ _ W); tauto).
  destruct (at_upd False n s s x (set_t_ls_req false) (at_refl False n s x (inv_open _ _ n I) Hx) Hn) as (s1 & -> & A & _); [done | done |]. cbn [mbind res_bind].
  destruct (ls_req_send_at False n s s1 _ A Hn) as (s2 & y & -> & A2 & b & o & ->). cbn [mbind res_bind].
  destruct (at_upd False n s s2 _ (set_t_ls_req true) A2 Hn) as (s3 & -> & A3 & _); [done | done |]. eexists. split; [done |].
  destruct (at_close False n s s3 x _ I Hx Hn A3) as [I3 Q3]; [intros _; by apply (wf_timer_again _ x) |]. split; [done | by rewrite Q3].
Qed.

Lemma ls_upd_timer_step s n x : fsm_ok s -> heap s !! n = Some x -> n <> nbr_self s -> t_ls_upd x = true -> exists s', ospf_ls_upd_timer s n = Ok s' /\ fsm_ok s'.
Proof.
  intros [I R] Hx Hn Ht. unfold ospf_ls_upd_timer. rewrite (get_nbr_Ok _ _ _ Hx). cbn [mbind res_bind].
  pose proof (iv_nbr _ _ _ I n x Hx Hn ltac:(done)) as W. assert (NSM_TwoWay < n_state x) as Hs by (apply (wf_high _ _ W); tauto).
  set (s1 := if is_nil _ then s else _). assert (fsm_ok s1 /\ heap s1 = heap s /\ nbr_self s1 = nbr_self s) as (K1 & H1 & S1) by (unfold s1; destruct (is_nil _); [done | by split; [apply fsm_log |]]).
  destruct (upd_step s1 n x (set_t_ls_upd true) K1) as (s2 & -> & K2 & _); rewrite ?H1, ?S1; try done; [| eauto]. intros p Hp. by apply (wf_timer_again _ x).
Qed.

Lemma hello_reply_step s n x : fsm_ok s -> heap s !! n = Some x -> n <> nbr_self s -> exists s', ospf_hello_reply_timer s n = Ok s' /\ fsm_ok s'.
Proof.
  intros K Hx Hn. unfold ospf_hello_reply_timer. destruct (upd_step s n x (set_t_hello_reply false) K Hx Hn) as (s2 & -> & K2 & _); [done | done | by intros p [] |].
  cbn. eexists. split; [done |]. by apply fsm_log.
Qed.

(** A change of the interface's own timers. *)
Lemma iface_step s s' :
  fsm_ok s -> rest s' = rest s -> oi_state s' = oi_state s /\ act_ints s' = act_ints s /\ network_lsa_self s' = network_lsa_self s -> t_hello s' = t_hello s -> t_ls_ack s' = t_ls_ack s -> t_wait s' = t_wait s -> fsm_ok s'.
Proof.
  intros [[B N I F] R] E (O & A & L) T1 T2 T3. unfold rest in E. injection E as Q1 Q2 Q3 Q4 Q5 Q6 Q7 Q8 Q9 Q10 Q11 Q12 Q13. split; [| by rewrite Q13]. split.
  - destruct B as [B1 B2 B3 B4 B5 B6]. split; unfold ospf_nbr_key, is_vlink, task_live in *; rewrite ?Q1, ?Q2, ?Q4, ?Q5, ?Q6, ?Q12; try done.
  - intros n x. rewrite Q5, Q6. unfold pending. rewrite Q12, Q13. apply N.
  - destruct I as [I1 I2 I3 I4 I5 I6 I7]. split; unfold role, nb, is_p2p in *; rewrite ?Q1, ?Q5, ?Q6, ?Q12, ?Q13, ?O, ?A, ?T1, ?T2, ?T3; done.
  - destruct F as [F1 F2 F3 F4]. split; unfold is_vlink in *; rewrite ?Q5, ?Q7, ?Q8, ?Q9, ?Q1, ?O, ?L; done.
Qed.

Lemma wait_timer_step s : fsm_ok s -> t_wait s = true -> fsm_ok (ospf_wait_timer s).
Proof.
  intros [[B N I F] R] Ht. split; [| exact R]. split.
  - destruct B as [B1 B2 B3 B4 B5 B6]. split; try done. cbn. intros t. rewrite elem_of_app, list_elem_of_singleton. intros [H | ->]; [by apply B6 |]. done.
  - intros n x Hx Hn Ho. eapply nbr_wf_weaken; [| by apply N]. unfold pending. cbn. rewrite !elem_of_app. tauto.
  - destruct I as [I1 I2 I3 I4 I5 I6 I7]. split; try done. revert I7. cbn. destruct (oi_state s =? ISM_Waiting); [| congruence]. intros _. right. left. rewrite !elem_of_app, list_elem_of_singleton. tauto.
  - by destruct F.
Qed.

Lemma timer_step s t : fsm_ok s -> allowed s (Timer t) = true -> exists s', run_timer s t = Ok s' /\ fsm_ok s'.
Proof.
  intros K. pose proof (iv_base _ _ _ (fk_inv s K)) as B. cbn. destruct t as [| | | n | n | n | n | n]; cbn [timer_on run_timer]; intros Ht.
  - eexists. split; [done |]. apply (iface_step s); try done; unfold ospf_hello_timer; by destruct (c_passive _).
  - eexists. split; [done |]. by apply wait_timer_step.
  - eexists. split; [done |]. by apply (iface_step s).
  - apply timer_nbr in Ht as (x & Hx & Hn & Ht); [| done | by intros x [= ? ? ? ? ?]]. by apply (inactivity_step s n x).
  - apply timer_nbr in Ht as (x & Hx & Hn & Ht); [| done | by intros x [= ? ? ? ? ?]]. by apply (db_desc_timer_step s n x).
  - apply timer_nbr in Ht as (x & Hx & Hn & Ht); [| done | by intros x [= ? ? ? ? ?]]. by apply (ls_req_timer_step s n x).
  - apply timer_nbr in Ht as (x & Hx & Hn & Ht); [| done | by intros x [= ? ? ? ? ?]]. by apply (ls_upd_timer_step s n x).
  - apply timer_nbr in Ht as (x & Hx & Hn & Ht); [| done | by intros x [= ? ? ? ? ?]]. by apply (hello_reply_step s n x).
Qed.

(** ** Events *)

Definition queues (q r : list task) (s : ospf_interface) : ospf_interface := set_ready_q r (set_event_q q s).

(** An event leaves the queues. *)
Lemma pop_ok s q r t :
  inv False None s -> (forall u, u ∈ event_q s ++ ready_q s -> u = t \/ u ∈ q ++ r) -> (forall u, u ∈ q -> u ∈ event_q s) ->
  match t with
  | Ism _ => inv True None (queues q r s)
  | Nsm n ev => forall x, heap s !! n = Some x -> n <> nbr_self s -> inv False (Some n) (queues q r s) /\ nbr_wf (pending (queues q r s) n \/ ev = NSM_InactivityTimer) x
  end.
Proof.
  intros [B N I F] H Hq.
  assert (base_ok (queues q r s)) as B' by (destruct B as [B1 B2 B3 B4 B5 B6]; split; try done; intros u Hu; by apply B6, Hq).
  assert (full_ok (queues q r s)) as F' by by destruct F.
  assert (forall w : Prop, ((t = Ism ISM_WaitTimer) -> w) -> iface_ok w (queues q r s)) as I'.
  { intros w Hw. destruct I as [I1 I2 I3 I4 I5 I6 I7]. split; try done. revert I7. cbn. destruct (oi_state s =? ISM_Waiting); [| done].
    intros [? | [Hu | []]]; [by left |]. destruct (H _ Hu) as [<- | ?]; [right; right; by apply Hw | tauto]. }
  assert (forall m x, heap s !! m = Some x -> m <> nbr_self s -> nbr_wf (pending (queues q r s) m \/ t = Nsm m NSM_InactivityTimer) x) as N'.
  { intros m x Hx Hm. eapply nbr_wf_weaken; [| apply (N m x Hx Hm); done]. unfold pending. intros Hu. destruct (H _ Hu) as [<- | ?]; [by right | by left]. }
  destruct t as [ev | n ev].
  - split; [done | | by apply I' | done]. intros m x Hx Hm _. eapply nbr_wf_weaken; [| by apply N']. by intros [? | ?].
  - intros x Hx Hn. split; [split; [done | | by apply I' | done] |].
    + intros m y Hy Hm Ho. eapply nbr_wf_weaken; [| by apply N']. intros [? | ?]; [done | congruence].
    + eapply nbr_wf_weaken; [| by apply N']. intros [? | [= ->]]; tauto.
Qed.

Lemma run_task_step s q r t :
  fsm_ok s -> (forall u, u ∈ event_q s ++ ready_q s -> u = t \/ u ∈ q ++ r) -> (forall u, u ∈ q -> u ∈ event_q s) -> (forall u, u ∈ r -> task_num u) -> task_num t ->
  match t with Nsm n _ => is_nbr s n | _ => true end = true -> exists s', exec exec_fuel t (queues q r s) = Ok s' /\ fsm_ok s'.
Proof.
  intros [I R] H Hq Hr Ht Ha. pose proof (pop_ok s q r t I H Hq) as P. destruct t as [ev | n ev].
  - destruct (ism_event_ok 0 True False (queues q r s) ev P Ht) as (s' & E & I' & _ & _ & Q & _). exists s'. split; [exact E |]. split; [done | by rewrite Q].
  - destruct (is_nbr_spec s n Ha) as (x & Hx & Hn). destruct (P x Hx Hn) as [P1 P2].
    destruct (exec_nsm_ok 1 False (queues q r s) n x ev P1 Hx Hn P2 Ht) as (s' & E & I' & _ & _ & _ & Q & _). exists s'. split; [exact E |]. split; [done | by rewrite Q].
Qed.

Lemma set_event_same s : set_event_q (event_q s) s = s.
Proof. by destruct s. Qed.

Lemma run_event_step s : fsm_ok s -> allowed s RunEvent = true -> exists s', run_event s = Ok s' /\ fsm_ok s'.
Proof.
  intros K. cbn. unfold next_task, run_event. destruct (ready_q s) as [|t r] eqn:Er.
  - destruct (event_q s) as [|t q] eqn:Eq; [intros _; by exists s |]. cbn [head]. intros Ha.
    assert (forall u, u ∈ event_q s -> task_num u) as Hn by (intros u Hu; eapply task_live_num, (bo_events s (iv_base _ _ _ (fk_inv s K)) _ Hu)). rewrite Eq in Hn.
    apply (run_task_step s [] q t); try done; [| by intros u ?%not_elem_of_nil | intros u Hu; apply Hn; by right | apply Hn; by left].
    intros u. rewrite Eq, Er, app_nil_r, elem_of_cons. tauto.
  - intros Ha. rewrite <- (set_event_same s). apply (run_task_step s (event_q s) r t); try done.
    + intros u. rewrite Er, !elem_of_app, elem_of_cons. tauto.
    + intros u Hu. apply (fk_ready s K). rewrite Er. by right.
    + apply (fk_ready s K). rewrite Er. by left.
Qed.

(** Outside the ready list no event is for a neighbour that is gone. *)
Lemma queued_allowed s : fsm_ok s -> ready_q s = [] -> allowed s RunEvent = true.
Proof.
  intros K Er. cbn. unfold next_task. rewrite Er. destruct (event_q s) as [|t q] eqn:Eq; [done |]. cbn.
  pose proof (bo_events s (iv_base _ _ _ (fk_inv s K)) t) as Hl. rewrite Eq in Hl. specialize (Hl ltac:(by left)). destruct t as [ev | n ev]; [done |].
  destruct Hl as (Hl & Hn & _). unfold is_nbr. by rewrite bool_decide_true, bool_decide_false.
Qed.

(** ** Hello *)

(** The router id of a neighbour whose key does not depend on it, or is it already. *)
Lemma set_id_step s n x id :
  fsm_ok s -> heap s !! n = Some x -> n <> nbr_self s -> (is_vlink s = true -> router_id x = id) ->
  exists s', upd_nbr s n (set_router_id id) = Ok s' /\ fsm_ok s' /\ heap s' !! n = Some (set_router_id id x) /\ nbr_self s' = nbr_self s /\ conf s' = conf s /\ ospf_router_id s' = ospf_router_id s.
Proof.
  intros [[B N I F] R] Hx Hn Hv. eexists. split; [by apply upd_nbr_Ok |]. split; [| split; [apply lookup_insert_eq | done]]. split; [| exact R].
  assert (forall m, m <> n -> heap (set_heap (<[n := set_router_id id x]> (heap s)) s) !! m = heap s !! m) as Hm by (intros m Hm; by apply lookup_insert_ne). split.
  - destruct B as [B1 B2 B3 B4 B5 B6]. split; try done.
    + intros k m Hk. destruct (B2 k m Hk) as (y & Hy & <-). destruct (decide (m = n)) as [-> | Hne]; [| exists y; by rewrite Hm].
      rewrite Hx in Hy. injection Hy as <-. eexists. cbn. rewrite lookup_insert_eq. split; [done |]. unfold ospf_nbr_key. change (is_vlink (set_heap _ s)) with (is_vlink s).
      destruct (is_vlink s); [cbn; symmetry; by apply Hv | done].
    + intros m Hs. apply B3. destruct (decide (m = n)) as [-> |]; [by exists x | by rewrite Hm in Hs].
    + intros m y Hy. destruct (decide (m = n)) as [-> |]; [| rewrite Hm in Hy by done; by apply (B4 m)]. cbn in Hy. rewrite lookup_insert_eq in Hy. injection Hy as <-. exact (B4 n x Hx).
    + destruct B5 as (y & Hy & SF). exists y. cbn [nbr_self set_heap]. by rewrite Hm.
    + intros t Ht. specialize (B6 t Ht). destruct t as [|m ev]; [done |]. cbn in B6 |- *. rewrite lookup_insert_is_Some'. tauto.
  - intros m y Hy Hs _. destruct (decide (m = n)) as [-> |]; [| rewrite Hm in Hy by done; by apply (N m y)]. cbn in Hy. rewrite lookup_insert_eq in Hy. injection Hy as <-.
    by destruct (N n x Hx Hn ltac:(done)).
  - destruct I as [I1 I2 I3 I4 I5 I6 I7]. split; try done. intros H. specialize (I2 H). unfold role, nb in *. cbn [nbr_self set_heap conf]. by rewrite Hm.
  - destruct F as [F1 F2 F3 F4]. split; try done. cbn. by rewrite (full_count_same _ _ x).
Qed.

(** A new neighbour. *)
Lemma add_nbr_step s k x :
  fsm_ok s -> tab_lookup k (nbrs s) = None -> ospf_nbr_key s x = k -> address x = src x -> n_state x = NSM_Down -> no_lists x -> timers x = [false; false; false; false; false] ->
  let n := fresh (dom (heap s)) in let s' := set_nbrs (tab_insert k n (nbrs s)) (set_heap (<[n := x]> (heap s)) s) in
  n <> nbr_self s /\ fsm_ok s'.
Proof.
  intros [[B N I F] R] Hk Hx Ha Hs Hl Ht n s'. destruct (bo_self s B) as (p & Hp & SF).
  assert (heap s !! n = None) as Hn by (apply not_elem_of_dom, is_fresh). assert (n <> nbr_self s) as Hne by congruence. split; [done |].
  assert (forall m, m <> n -> heap s' !! m = heap s !! m) as Hm by (intros m Hm; by apply lookup_insert_ne).
  assert (heap s' !! n = Some x) as Hx' by apply lookup_insert_eq. split; [| exact R]. split.
  - destruct B as [B1 B2 B3 B4 B5 B6]. split.
    + by apply tab_insert_sorted.
    + intros j m Hj. apply tab_insert_elem in Hj as [[= -> ->] | Hj]; [by exists x | | done]. destruct (B2 j m Hj) as (y & Hy & <-). exists y. rewrite Hm by congruence. done.
    + intros m Hsm. cbn [nbrs s' set_nbrs]. destruct (decide (m = n)) as [-> |]; [exists k; apply tab_insert_elem; [done | by left] |]. rewrite Hm in Hsm by done.
      destruct (B3 m Hsm) as [j Hj]. exists j. apply tab_insert_elem; [done | by right].
    + intros m y Hy. destruct (decide (m = n)) as [-> |]; [rewrite Hx' in Hy; by injection Hy as <- | rewrite Hm in Hy by done; by apply (B4 m)].
    + exists p. cbn [nbr_self s' set_nbrs set_heap]. by rewrite Hm.
    + intros t Ht'. specialize (B6 t Ht'). destruct t as [|m ev]; [done |]. cbn in B6 |- *. rewrite lookup_insert_is_Some'. tauto.
  - intros m y Hy Hsm _. destruct (decide (m = n)) as [-> |]; [| rewrite Hm in Hy by done; by apply (N m y)]. rewrite Hx' in Hy. injection Hy as <-.
    destruct Hl as (L1 & L2 & L3). injection Ht as T1 T2 T3 T4 T5. split; rewrite ?Hs; try done.
  - destruct I as [I1 I2 I3 I4 I5 I6 I7]. split; try done. intros H. specialize (I2 H). unfold role, nb in *. cbn [nbr_self s' set_nbrs set_heap conf]. fold s'. by rewrite Hm.
  - destruct F as [F1 F2 F3 F4]. split; try done. cbn. by rewrite full_count_new by (done || by rewrite Hs).
Qed.

Lemma key_not_self s n x k : base_ok s -> heap s !! n = Some x -> ospf_nbr_key s x = k -> k <> (if is_vlink s then ospf_router_id s else c_address (conf s)) -> n <> nbr_self s.
Proof.
  intros B Hx <- Hk ->. destruct (bo_self s B) as (y & Hy & SF). rewrite Hx in Hy. injection Hy as <-. apply Hk. unfold ospf_nbr_key. destruct (is_vlink s); apply SF.
Qed.

Lemma accepts_key s ip_src id : accepts s ip_src id = true -> (if is_vlink s then id else ip_src) <> (if is_vlink s then ospf_router_id s else c_address (conf s)).
Proof. unfold accepts. rewrite andb_true_iff, negb_true_iff, Z.eqb_neq. intros [H1 H2]. destruct (is_vlink s); [rewrite negb_true_iff, Z.eqb_neq in H2 |]; done. Qed.

Lemma nbr_get_step s ip_src id crypt :
  fsm_ok s -> accepts s ip_src id = true ->
  exists s' n x, ospf_nbr_get s ip_src id crypt = Ok (s', n) /\ fsm_ok s' /\ heap s' !! n = Some x /\ n <> nbr_self s' /\ conf s' = conf s /\ ospf_router_id s' = ospf_router_id s.
Proof.
  intros K Ha. pose proof (accepts_key _ _ _ Ha) as Hk. unfold ospf_nbr_get. pose proof (iv_base _ _ _ (fk_inv s K)) as B. set (k := if is_vlink s then id else ip_src) in *.
  destruct (tab_lookup k (nbrs s)) as [n |] eqn:E; cbn [mbind res_bind].
  - apply tab_lookup_elem in E; [| apply B]. destruct (bo_tab s B k n E) as (x & Hx & Kx). assert (n <> nbr_self s) as Hn by by apply (key_not_self s n x k).
    destruct (set_id_step s n x id K Hx Hn) as (s' & -> & K' & Hx' & S' & C' & R'); [intros V; unfold ospf_nbr_key, k in Kx; by rewrite V in Kx |].
    exists s', n. eexists. cbn. split; [done |]. split; [done |]. split; [exact Hx' |]. split; [congruence |]. done.
  - unfold ospf_nbr_add, ospf_nbr_new. cbn zeta beta iota. set (n := fresh (dom (heap s))). set (x0 := mk_nbr _ _ _ _ _ _ _ _ _ _ _ _ _ _ _ _ _ _ _ _ _ _ _ _ _).
    erewrite upd_nbr_Ok; [| cbn; apply lookup_insert_eq]. cbn [mbind res_bind heap set_heap]. rewrite insert_insert_eq. set (x1 := set_address _ _).
    assert (exists x2, match crypt with Some q => upd_nbr (set_heap (<[n := x1]> (heap s)) (set_heap (<[n := x0]> (heap s)) s)) n (set_crypt_seqnum q) | None => Ok (set_heap (<[n := x1]> (heap s)) (set_heap (<[n := x0]> (heap s)) s)) end =
      Ok (set_heap (<[n := x2]> (heap s)) s) /\ (x2 = x1 \/ exists q, x2 = set_crypt_seqnum q x1)) as (x2 & -> & H2).
    { destruct crypt as [q |]; [| exists x1; by split; [| left]]. erewrite upd_nbr_Ok; [| cbn; apply lookup_insert_eq]. cbn [heap set_heap]. rewrite insert_insert_eq. eexists. split; [done | right; by exists q]. }
    cbn [mbind res_bind]. erewrite upd_nbr_Ok; [| cbn; apply lookup_insert_eq]. cbn [mbind res_bind heap set_heap set_nbrs]. rewrite insert_insert_eq.
    destruct (add_nbr_step s k (set_router_id id x2) K E) as [Hn K'].
    + unfold ospf_nbr_key, k. destruct (is_vlink s); [done |]. by destruct H2 as [-> | [q ->]].
    + by destruct H2 as [-> | [q ->]].
    + by destruct H2 as [-> | [q ->]].
    + by destruct H2 as [-> | [q ->]].
    + by destruct H2 as [-> | [q ->]].
    + eexists _, n, (set_router_id id x2). split; [done |]. split; [exact K' |]. split; [apply lookup_insert_eq |]. split; [exact Hn | done].
Qed.

Lemma schedule_if_ok b ev s : fsm_ok s -> 1 <= ev <= 7 -> let s' := schedule_if b (Ism ev) s in fsm_ok s' /\ heap s' = heap s /\ nbr_self s' = nbr_self s.
Proof. intros K He. destruct b; cbn; [| done]. split; [by apply fsm_schedule | done]. Qed.

Lemma hello_events_ok h x s : fsm_ok s -> fsm_ok (hello_events h x s) /\ heap (hello_events h x s) = heap s /\ nbr_self (hello_events h x s) = nbr_self s.
Proof.
  intros K. unfold hello_events. cbn zeta.
  repeat match goal with |- context [schedule_if ?b (Ism ?ev) s] => destruct (schedule_if_ok b ev s K ltac:(done)) as (K' & <- & <-); set (s' := schedule_if b (Ism ev) s) in *; clearbody s'; clear K; rename K' into K; clear s; rename s' into s end.
  done.
Qed.

Lemma hello_step s h : fsm_ok s -> accepts s (h_src h) (h_router_id h) = true -> exists s', ospf_hello s h = Ok s' /\ fsm_ok s'.
Proof.
  intros K Ha. unfold ospf_hello. destruct (_ =? _); [eauto |]. destruct (hello_mismatch s h); [eauto |]. cbn zeta.
  destruct (bo_self s (iv_base _ _ _ (fk_inv s K))) as (p & Hp & _). unfold OPTIONS. rewrite (get_nbr_Ok _ _ _ Hp). cbn [fmap res_fmap mbind res_bind].
  destruct (options_mismatch _ _ _); [eauto |]. destruct (nbr_get_step s (h_src h) (h_router_id h) (h_crypt h) K Ha) as (s1 & n & x & -> & K1 & Hx & Hn & C1 & R1). cbn [mbind res_bind].
  assert (forall s ev, fsm_ok s -> heap s !! n = Some x -> n <> nbr_self s -> 1 <= ev <= 13 -> fsm_ok (schedule (Nsm n ev) s)) as Sch.
  { intros s2 ev K2 H2 N2 He. apply fsm_schedule; [done |]. split; [eauto | done]. }
  destruct (ospf_nbr_bidirectional _ _).
  - set (s2 := schedule _ (schedule _ s1)). assert (fsm_ok s2) as K2 by (by repeat apply Sch).
    edestruct (upd_step s2 n x) as (s3 & -> & K3 & H3 & S3); [exact K2 | exact Hx | exact Hn | | | |]; [done | done | by intros q [] |]. cbn [mbind res_bind].
    rewrite (get_nbr_Ok _ _ _ H3). cbn [mbind res_bind]. set (x3 := set_n_options _ x) in *. destruct (hello_events_ok h x3 s3 K3) as (K4 & H4 & S4).
    destruct (upd_step (hello_events h x3 s3) n x3 (set_hello_info h) K4) as (s5 & -> & K5 & _); rewrite ?H4, ?S4; try done; [rewrite S3; exact Hn | by intros q [] | eauto].
  - set (s2 := schedule _ (schedule _ s1)). assert (fsm_ok s2) as K2 by (by repeat apply Sch).
    edestruct (upd_step s2 n x) as (s3 & -> & K3 & _); [exact K2 | exact Hx | exact Hn | | | |]; [done | done | by intros q [] | eauto].
Qed.
