(* ===== verification/OspfSafety.v ===== *)
(** * ospfd: the exchange of database descriptions keeps the invariant, and so does every step *)

From stdpp Require Import sorting.
From S2P Require Import Prelude OspfLsdb OspfNeighbor OspfFsm OspfPacket OspfElection OspfInv OspfNsm OspfSteps.
Local Open Scope Z_scope.

Notation nref := positive (only parsing).

(** ** [ospf_db_desc_proc] *)

Lemma set_next_lsa_ok w o s p : inv w o s -> inv w o (set_next_lsa p s).
Proof. intros [[] N [] []]. split; [by split | exact N | by split | by split]. Qed.

Lemma dd_header_ok w n s s' x h :
  at_nbr w n s s' x -> n <> nbr_self s -> exists s2 y, dd_header s' n h = Ok s2 /\ at_nbr w n s s2 y /\ kept x y.
Proof.
  intros A Hn. unfold dd_header. cbn zeta. set (s1 := set_next_lsa _ s').
  assert (at_nbr w n s s1 x) as A1.
  { split; [by apply set_next_lsa_ok, A | | apply A]. eapply frame_trans; [apply A | by split]. }
  set (g := fun y : ospf_neighbor => _). assert (kept x (g x)) as Kp.
  { unfold g. cbn beta zeta. destruct (_ =? -1); cbn [orb]; [by destruct (ospf_lsa_lookup_by_header _ _) |]. destruct (_ =? 0); [| done]. by destruct (ospf_lsa_lookup_by_header _ _). }
  destruct (at_upd w n s s1 x g A1 Hn) as (s2 & -> & A2 & _); [apply Kp | apply Kp |]. eauto.
Qed.

Lemma dd_loop_ok w n s hs : n <> nbr_self s -> forall s' x, at_nbr w n s s' x -> exists s2 y b, dd_loop s' n hs = Ok (s2, b) /\ at_nbr w n s s2 y /\ kept x y.
Proof.
  intros Hn. induction hs as [|h hs IH]; intros s' x A; cbn [dd_loop]; [do 3 eexists; split; [done |]; split; [exact A | apply kept_refl] |].
  rewrite (get_nbr_Ok _ _ _ (an_nbr _ _ _ _ _ A)). cbn [mbind res_bind]. destruct (bad_header s' x h).
  - do 3 eexists. split; [done |]. split; [| apply kept_refl]. apply at_schedule; [exact A |]. by eapply at_live.
  - destruct (dd_header_ok w n s s' x h A Hn) as (s2 & y & -> & A2 & K2). cbn [mbind res_bind]. destruct (IH s2 y A2) as (s3 & z & b & E & A3 & K3). exists s3, z, b.
    split; [done |]. split; [done | by eapply kept_trans].
Qed.

Lemma dd_proc_ok w n s s' x dd :
  at_nbr w n s s' x -> n <> nbr_self s -> NSM_Exchange <= n_state x -> exists s2 y, ospf_db_desc_proc s' n dd = Ok s2 /\ at_nbr w n s s2 y /\ kept x y.
Proof.
  intros A Hn Hs. unfold ospf_db_desc_proc. destruct (dd_loop_ok w n s (dd_headers dd) Hn s' x A) as (s1 & y & b & -> & A1 & K1). cbn [mbind res_bind].
  destruct b; cbn [negb]; [| eauto]. rewrite (get_nbr_Ok _ _ _ (an_nbr _ _ _ _ _ A1)). cbn [mbind res_bind].
  assert (exists s2 z, (if IS_SET_DD_MS (dd_flags y) then
      s ← upd_nbr s1 n (fun x => set_dd_seqnum (u32 (dd_seqnum x + 1)) x);
      if negb (IS_SET_DD_M (dd_pflags dd)) && negb (IS_SET_DD_M (dd_flags y)) then Ok (schedule (Nsm n NSM_ExchangeDone) s) else ospf_db_desc_send s n
    else s ← upd_nbr s1 n (set_dd_seqnum (dd_seq dd)); s ← ospf_db_desc_send s n; x ← get_nbr s n;
      Ok (schedule_if (negb (IS_SET_DD_M (dd_pflags dd)) && negb (IS_SET_DD_M (dd_flags x))) (Nsm n NSM_ExchangeDone) s)) = Ok s2 /\ at_nbr w n s s2 z /\ kept x z) as (s2 & z & -> & A2 & K2).
  { assert (forall q, kept x (set_dd_seqnum q y)) as Kq by (intros q; eapply kept_trans; [exact K1 | by split]).
    assert (forall q, NSM_Exchange <= n_state (set_dd_seqnum q y)) as Hq by (intros q; cbn; by rewrite (kp_state _ _ K1)).
    destruct (IS_SET_DD_MS _).
    - edestruct (at_upd w n s s1 y) as (s2 & -> & A2 & _); [exact A1 | exact Hn | | |]; [done | done |]. cbn [mbind res_bind]. destruct (_ && _).
      + do 2 eexists. split; [done |]. split; [apply at_schedule; [exact A2 | by eapply at_live] | apply Kq].
      + destruct (db_desc_send_ok w n s s2 _ A2 Hn) as (s3 & z & -> & A3 & S3 & _); [left; apply Hq |]. exists s3, z. split; [done |]. split; [done |].
        eapply kept_trans; [apply Kq | by apply sent_kept].
    - edestruct (at_upd w n s s1 y) as (s2 & -> & A2 & _); [exact A1 | exact Hn | | |]; [done | done |]. cbn [mbind res_bind].
      destruct (db_desc_send_ok w n s s2 _ A2 Hn) as (s3 & z & -> & A3 & S3 & _); [left; apply Hq |]. cbn [mbind res_bind]. rewrite (get_nbr_Ok _ _ _ (an_nbr _ _ _ _ _ A3)). cbn [mbind res_bind].
      eexists _, z. split; [done |]. split; [| eapply kept_trans; [apply Kq | by apply sent_kept]]. destruct (_ && _); [| done]. apply at_schedule; [done | by eapply at_live]. }
  cbn [mbind res_bind]. edestruct (at_upd w n s s2 z (ospf_db_desc_save_current dd)) as (s3 & -> & A3 & _); [exact A2 | exact Hn | | |]; [done | done |].
  do 2 eexists. split; [done |]. split; [exact A3 |]. eapply kept_trans; [exact K2 | by split].
Qed.

(** The packet of a neighbour in the exchange, and back. *)
Lemma dd_proc_step s n x dd : fsm_ok s -> heap s !! n = Some x -> n <> nbr_self s -> NSM_Exchange <= n_state x -> exists s', ospf_db_desc_proc s n dd = Ok s' /\ fsm_ok s'.
Proof.
  intros [I R] Hx Hn Hs. destruct (dd_proc_ok False n s s x dd (at_refl False n s x (inv_open _ _ n I) Hx) Hn Hs) as (s' & y & E & A & K).
  destruct (at_close False n s s' x y I Hx Hn A) as [I' Q]; [intros W; by apply (kept_wf _ x) |]. exists s'. split; [done |]. split; [done | by rewrite Q].
Qed.

(** ** [ospf_db_desc] *)

(** An event of a neighbour that is run at once. *)
Lemma exec_step s n x ev : fsm_ok s -> heap s !! n = Some x -> n <> nbr_self s -> 1 <= ev < NSM_KillNbr ->
  exists s' y, exec exec_fuel (Nsm n ev) s = Ok s' /\ fsm_ok s' /\ heap s' !! n = Some y /\ nbr_self s' = nbr_self s /\
    forall f nx, entry NSM (n_state x) ev = Ok (f, nx) -> nx <> NSM_DependUpon -> n_state y = nx.
Proof.
  intros [I R] Hx Hn He. unfold NSM_KillNbr in He. destruct (exec_nsm_ok 1 False s n x ev (inv_open _ _ n I) Hx Hn) as (s' & E & I' & C & S & _ & Q & _ & Y & _); [| lia |].
  - eapply nbr_wf_weaken; [| by apply (iv_nbr _ _ _ I n x)]. tauto.
  - destruct Y as (y & Hy & Hf); [unfold NSM_KillNbr; lia |]. exists s', y. split; [done |]. split; [split; [done | by rewrite Q] |]. split; [done |]. split; [done |]. exact Hf.
Qed.

Lemma exstart_wf p x y : nbr_wf p x -> n_state x = NSM_ExStart -> n_state y = n_state x -> ls_req y = ls_req x /\ ls_rxmt y = ls_rxmt x /\ db_sum y = db_sum x ->
  last_send y = last_send x -> timers y = timers x -> nbr_wf p y.
Proof.
  intros [W1 W2 W3 W4 W5 W6 W7] Hs E (L1 & L2 & L3) S T. injection T as T1 T2 T3 T4 T5. split; rewrite ?E, ?L1, ?L2, ?L3, ?S, ?T1, ?T2, ?T3, ?T4; try done. by rewrite Hs.
Qed.

Lemma dd_exstart_step s n x dd : fsm_ok s -> heap s !! n = Some x -> n <> nbr_self s -> n_state x = NSM_ExStart -> exists s', dd_exstart s n dd = Ok s' /\ fsm_ok s'.
Proof.
  intros K Hx Hn Hs. unfold dd_exstart. rewrite (get_nbr_Ok _ _ _ Hx). cbn [mbind res_bind]. cbn zeta.
  assert (forall f : ospf_neighbor -> ospf_neighbor, same_id x (f x) -> n_state (f x) = n_state x -> ls_req (f x) = ls_req x /\ ls_rxmt (f x) = ls_rxmt x /\ db_sum (f x) = db_sum x ->
    last_send (f x) = last_send x -> timers (f x) = timers x ->
    exists s', (s ← upd_nbr s n (fun x => set_n_options (dd_options dd) (f x)); s ← exec exec_fuel (Nsm n NSM_NegotiationDone) s; ospf_db_desc_proc s n dd) = Ok s' /\ fsm_ok s') as P.
  { intros f F1 F2 F3 F4 F5. destruct (upd_step s n x (fun x => set_n_options (dd_options dd) (f x)) K Hx Hn) as (s1 & -> & K1 & H1 & S1); [done | done | intros p W; by apply (exstart_wf p x) |].
    cbn [mbind res_bind]. destruct (exec_step s1 n _ NSM_NegotiationDone K1 H1) as (s2 & y & -> & K2 & H2 & S2 & Hf); [by rewrite S1 | done |]. cbn [mbind res_bind].
    apply (dd_proc_step s2 n y); [done | done | congruence |]. rewrite (Hf (Some F_negotiation) NSM_Exchange); [done | | done]. cbn [n_state set_n_options]. by rewrite F2, Hs. }
  destruct (_ && is_nil _ && _); [destruct (_ >? _); [by apply P | eauto] |]. destruct (_ && _); [by apply P | eauto].
Qed.

Lemma resend_step s n x : fsm_ok s -> heap s !! n = Some x -> n <> nbr_self s -> NSM_ExStart <= n_state x -> exists s', ospf_db_desc_resend s n = Ok s' /\ fsm_ok s'.
Proof.
  intros K Hx Hn Hs. rewrite (resend_ok s n x Hx); [eexists; split; [done | by apply fsm_log] |]. eapply nw_last; [| exact Hs]. by apply (iv_nbr _ _ _ (fk_inv s K) n x).
Qed.

Lemma nbr_lookup_ok s ip_src id : base_ok s -> accepts s ip_src id = true ->
  exists o, ospf_nbr_lookup s ip_src id = Ok o /\ match o with Some n => exists x, heap s !! n = Some x /\ n <> nbr_self s | None => True end.
Proof.
  intros B Ha. pose proof (accepts_key _ _ _ Ha) as Hk. unfold ospf_nbr_lookup. destruct (is_vlink s) eqn:V.
  - unfold ospf_nbr_lookup_by_routerid. assert (forall l : list nref, (forall n, n ∈ l -> is_Some (heap s !! n)) ->
      exists o, lookup_routerid s id l = Ok o /\ match o with Some n => exists x, heap s !! n = Some x /\ n <> nbr_self s | None => True end) as P.
    { induction l as [|n l IH]; intros Hl; [by exists None |]. destruct (Hl n ltac:(by left)) as [x Hx]. cbn. rewrite (get_nbr_Ok _ _ _ Hx). cbn.
      destruct (Z.eqb_spec (router_id x) id) as [E | E]; [| apply IH; intros m Hm; apply Hl; by right]. exists (Some n). split; [done |]. exists x. split; [done |].
      apply (key_not_self s n x id); [done | done | unfold ospf_nbr_key; by rewrite V | by rewrite V]. }
    apply P. intros n Hn. by apply bo_nbrs.
  - eexists. split; [done |]. unfold ospf_nbr_lookup_by_addr. destruct (tab_lookup ip_src (nbrs s)) as [n |] eqn:E; [| done]. apply tab_lookup_elem in E; [| apply B].
    destruct (bo_tab s B ip_src n E) as (x & Hx & Kx). exists x. split; [done |]. apply (key_not_self s n x ip_src); [done | done | done | by rewrite V].
Qed.

Lemma mismatch_step s n x : fsm_ok s -> heap s !! n = Some x -> n <> nbr_self s -> exists s', Ok (schedule (Nsm n NSM_SeqNumberMismatch) s) = Ok s' /\ fsm_ok s'.
Proof. intros K Hx Hn. eexists. split; [done |]. apply fsm_schedule; [done |]. split; [eauto | done]. Qed.

Lemma db_desc_step s dd : fsm_ok s -> accepts s (dd_src dd) (dd_router_id dd) = true -> exists s', ospf_db_desc s dd = Ok s' /\ fsm_ok s'.
Proof.
  intros K Ha. unfold ospf_db_desc. destruct (nbr_lookup_ok s _ _ (iv_base _ _ _ (fk_inv s K)) Ha) as (o & -> & Ho). cbn [mbind res_bind]. destruct o as [n |]; [| eauto].
  destruct Ho as (x & Hx & Hn). rewrite (get_nbr_Ok _ _ _ Hx). cbn [mbind res_bind]. destruct (_ && _); [eauto |]. cbn zeta. set (dd1 := if _ && _ && _ then _ else dd).
  destruct (CHECK_FLAG (dd_options dd1) OSPF_OPTION_T); [eauto |]. set (dd2 := if _ && _ then _ else dd1). clearbody dd1 dd2. clear Ha dd dd1. set (s1 := schedule _ s).
  assert (fsm_ok s1 /\ heap s1 !! n = Some x /\ n <> nbr_self s1) as (K1 & H1 & N1) by (split; [apply fsm_schedule; [done | by split; [eauto |]] | done]). clearbody s1.
  destruct (Z.eqb_spec (n_state x) NSM_Init) as [S | _]; [| destruct (Z.eqb_spec (n_state x) NSM_ExStart) as [S | _]; [| destruct (Z.eqb_spec (n_state x) NSM_Exchange) as [S | _];
    [| destruct ((n_state x =? NSM_Loading) || (n_state x =? NSM_Full)) eqn:S; [| eauto]]]].
  - destruct (exec_step s1 n x NSM_TwoWayReceived K1 H1 N1) as (s2 & y & -> & K2 & H2 & S2 & _); [done |]. cbn [mbind res_bind]. rewrite (get_nbr_Ok _ _ _ H2). cbn [mbind res_bind].
    destruct (Z.eqb_spec (n_state y) NSM_ExStart); [| eauto]. apply (dd_exstart_step s2 n y); [done | done | congruence | done].
  - by apply (dd_exstart_step s1 n x).
  - unfold dd_exchange. rewrite (get_nbr_Ok _ _ _ H1). cbn [mbind res_bind]. cbn zeta. destruct (ospf_db_desc_is_dup dd2 x).
    + destruct (IS_SET_DD_MS _); [eauto |]. apply (resend_step s1 n x); [done | done | done | rewrite S; done].
    + destruct (_ || _); [by apply (mismatch_step s1 n x) |]. apply (dd_proc_step s1 n x); [done | done | done | by rewrite S].
  - unfold dd_full. rewrite (get_nbr_Ok _ _ _ H1). cbn [mbind res_bind]. destruct (_ && IS_SET_DD_MS _); [eauto |]. destruct (_ && (_ <? _)); [| by apply (mismatch_step s1 n x)].
    apply (resend_step s1 n x); [done | done | done |]. unfold NSM_ExStart, NSM_Loading, NSM_Full in *. lia.
Qed.

(** ** The other steps *)

Lemma router_id_step s id : fsm_ok s -> is_vlink s = false -> exists s', ospf_router_id_update s id = Ok s' /\ fsm_ok s'.
Proof.
  intros K V. unfold ospf_router_id_update. destruct (_ =? _); [eauto |]. destruct K as [[B N I F] R]. destruct (bo_self s B) as (x & Hx & SF).
  rewrite (upd_nbr_Ok _ _ x) by done. eexists. split; [done |]. split; [| exact R]. cbn [nbr_self heap set_ospf_router_id]. set (y := set_router_id id x).
  assert (forall m, m <> nbr_self s -> <[nbr_self s := y]> (heap s) !! m = heap s !! m) as Hm by (intros m Hm; by rewrite lookup_insert_ne). split.
  - destruct B as [B1 B2 B3 B4 B5 B6]. split; try done; cbn.
    + intros k m Hk. destruct (B2 k m Hk) as (z & Hz & <-). unfold ospf_nbr_key. change (is_vlink (set_heap _ _)) with (is_vlink s). rewrite V.
      destruct (decide (m = nbr_self s)) as [-> | Hne]; [| exists z; by rewrite Hm]. rewrite Hx in Hz. injection Hz as <-. exists y. by rewrite lookup_insert_eq.
    + intros m Hs. apply B3. destruct (decide (m = nbr_self s)) as [-> |]; [by exists x | by rewrite Hm in Hs].
    + intros m z Hz. destruct (decide (m = nbr_self s)) as [-> |]; [| rewrite Hm in Hz by done; by apply (B4 m)]. rewrite lookup_insert_eq in Hz. injection Hz as <-. exact (B4 _ x Hx).
    + exists y. rewrite lookup_insert_eq. split; [done |]. destruct SF. by split.
    + intros t Ht. specialize (B6 t Ht). destruct t as [|m ev]; [done |]. cbn in B6 |- *. rewrite lookup_insert_is_Some'. tauto.
  - intros m z Hz Hs Ho. cbn in Hz, Hs. rewrite Hm in Hz by done. exact (N m z Hz Hs Ho).
  - destruct I as [I1 I2 I3 I4 I5 I6 I7]. split; try done. intros H. specialize (I2 H). revert I2. unfold role, nb. cbn. by rewrite lookup_insert_eq, Hx.
  - destruct F as [F1 F2 F3 F4]. split; try done. cbn. by rewrite (full_count_same _ _ x).
Qed.

Lemma check_loading_step s n x : fsm_ok s -> heap s !! n = Some x -> n <> nbr_self s -> exists s', ospf_check_nbr_loading s n = Ok s' /\ fsm_ok s'.
Proof.
  intros K Hx Hn. unfold ospf_check_nbr_loading. rewrite (get_nbr_Ok _ _ _ Hx). cbn [mbind res_bind]. destruct (Z.eqb_spec (n_state x) NSM_Loading) as [S | _]; [| eauto].
  destruct (is_nil _); [eexists; split; [done |]; apply fsm_schedule; [done |]; split; [eauto | done] |]. destruct (ls_req_last x); [eauto |].
  destruct (upd_step s n x (set_t_ls_req true) K Hx Hn) as (s' & -> & K' & _); [done | done | | eauto]. intros p W. apply (wf_timer_again p x); try done. by rewrite S.
Qed.

Lemma traffic_step s n x req rxmt db : fsm_ok s -> heap s !! n = Some x -> n <> nbr_self s -> NSM_Exchange <= n_state x -> exists s', upd_nbr s n (set_lists req rxmt db) = Ok s' /\ fsm_ok s'.
Proof.
  intros K Hx Hn Hs. destruct (upd_step s n x (set_lists req rxmt db) K Hx Hn) as (s' & -> & K' & _); [done | done | | eauto]. intros p W. apply (kept_wf p x); [done | done | by split].
Qed.

Lemma step_ok s o : fsm_ok s -> allowed s o = true -> exists s', step s o = Ok s' /\ fsm_ok s'.
Proof.
  intros K Ha. destruct o as [h | dd | t | | | | id | now | db | n req rxmt db | n | n ev]; cbn [step].
  - by apply hello_step.
  - by apply db_desc_step.
  - by apply timer_step.
  - by apply run_event_step.
  - eexists. split; [done |]. apply fsm_schedule; [done |]. cbn. by destruct (_ =? _).
  - destruct (ism_event_ok 0 False False s ISM_InterfaceDown (fk_inv s K)) as (s' & E & I & _ & _ & Q & _); [done |]. exists s'. split; [exact E |]. split; [done |]. rewrite Q. apply K.
  - apply router_id_step; [done | by apply negb_true_iff].
  - eexists. split; [done |]. destruct K as [[[] N [] []] R]. split; [| exact R]. split; [by split | exact N | by split | by split].
  - eexists. split; [done |]. destruct K as [[[] N [] []] R]. split; [| exact R]. split; [by split | exact N | by split | by split].
  - cbn in Ha. apply andb_prop in Ha as [(x & Hx & Hn)%is_nbr_spec Hs]. rewrite Hx in Hs. apply (traffic_step s n x); [done | done | done | lia].
  - apply is_nbr_spec in Ha as (x & Hx & Hn). by apply (check_loading_step s n x).
  - cbn in Ha. apply andb_prop in Ha as [[(x & Hx & Hn)%is_nbr_spec H1]%andb_prop H2]. rewrite (get_nbr_Ok _ _ _ Hx). cbn. eexists. split; [done |].
    apply fsm_schedule; [done |]. split; [eauto |]. split; [done | lia].
Qed.

(** ** A new interface *)

Lemma if_new_ok c id now : exists s, ospf_if_new c id now = Ok s /\ fsm_ok s /\ conf s = c.
Proof.
  unfold ospf_if_new, ospf_nbr_new. cbn zeta beta iota. set (x0 := mk_nbr _ _ _ _ _ _ _ _ _ _ _ _ _ _ _ _ _ _ _ _ _ _ _ _ _). set (n := fresh _). unfold ospf_nbr_add_self.
  erewrite upd_nbr_Ok; [| cbn; apply lookup_insert_eq]. cbn [mbind res_bind]. erewrite get_nbr_Ok; [| cbn; apply lookup_insert_eq]. cbn [mbind res_bind].
  cbn [nbrs set_heap set_nbr_self tab_lookup tab_insert heap]. eexists. split; [done |]. split; [| done]. split; [| by intros t ?%not_elem_of_nil].
  cbn. rewrite insert_insert_eq, insert_empty. split; cbn.
  - split; cbn; try done.
    + by repeat constructor.
    + intros k m [= -> ->]%list_elem_of_singleton. eexists. rewrite lookup_singleton_eq. by split.
    + intros m [y Hy]. apply lookup_singleton_Some in Hy as [<- _]. eexists. by apply list_elem_of_singleton.
    + intros m y Hy. by apply lookup_singleton_Some in Hy as [_ <-].
    + eexists. rewrite lookup_singleton_eq. split; [done |]. by split.
    + by intros t ?%not_elem_of_nil.
  - intros m y [<- _]%lookup_singleton_Some. done.
  - split; try done; cbn; by intros [? | ?].
  - by split.
Qed.

Lemma fsm_reachable_ok s : reachable s -> fsm_ok s.
Proof.
  induction 1 as [c id now s E | s o s' H IH Ha E].
  - destruct (if_new_ok c id now) as (s' & E' & K & _). rewrite E in E'. by injection E' as <-.
  - destruct (step_ok s o IH Ha) as (s2 & E2 & K2). rewrite E in E2. by injection E2 as <-.
Qed.
