(* ===== verification/OspfClaims.v ===== *)
(** * ospfd: what the two state machines guarantee

    [reachable]: the states of an interface after any sequence of packets, timers, events and calls (file OspfSteps).
    The last part has the behaviours the program does not mean to have. *)

From stdpp Require Import sorting.
From S2P Require Import Prelude OspfLsdb OspfNeighbor OspfFsm OspfPacket OspfElection OspfInv OspfNsm OspfSteps OspfSafety.
Local Open Scope Z_scope.

Notation nref := positive (only parsing).

(** ** Traces *)

(** The steps of a list, as long as they are allowed. *)
Fixpoint trace (s : ospf_interface) (l : list op) : option ospf_interface :=
  match l with
  | [] => Some s
  | o :: r => if allowed s o then match step s o with Ok s' => trace s' r | _ => None end else None
  end.

Lemma trace_reachable l : forall s s', reachable s -> trace s l = Some s' -> reachable s'.
Proof.
  induction l as [|o l IH]; intros s s' R; cbn; [by intros [= <-] |]. destruct (allowed s o) eqn:A; [| done]. destruct (step s o) as [s1 | |] eqn:E; [| done | done].
  apply IH. by eapply R_step.
Qed.

(** A broadcast interface, address 100/24, of router 10, and its neighbour: router 20 at address 200. *)
Definition lan : if_conf := mk_conf OSPF_IFTYPE_BROADCAST 100 24 1 40 10 0 5 false 1500 1480 OSPF_AREA_DEFAULT true false false.
Definition lan0 : ospf_interface := match ospf_if_new lan 10 5000000 with Ok s => s | _ => mk_oi lan 0 0 0 [] ∅ 1 0 0 0 0 false false false false [] 1 [] [] [] end.
Definition hello_of (seen : list Z) (d bd : Z) : op := Hello (mk_hello 200 20 None 24 40 10 2 1 d bd seen).
Definition dd_of (flags seq : Z) : op := DbDesc (mk_dd 200 20 1500 2 flags seq [] 0).

(** The interface comes up, the neighbour is seen, the wait timer fires, the databases are exchanged. *)
Definition to_full : list op :=
  [IfUp; RunEvent; hello_of [] 0 0; RunEvent; RunEvent; hello_of [10] 0 0; RunEvent; RunEvent; Timer T_wait; RunEvent; RunEvent;
   dd_of 7 77; hello_of [10] 200 100; RunEvent; RunEvent; RunEvent; RunEvent; dd_of 1 78; RunEvent; RunEvent; RunEvent].
Definition lan_full : ospf_interface := match trace lan0 to_full with Some s => s | None => lan0 end.

Lemma lan_full_trace : trace lan0 to_full = Some lan_full.
Proof. vm_compute. reflexivity. Qed.

Lemma lan0_new : ospf_if_new lan 10 5000000 = Ok lan0.
Proof. vm_compute. reflexivity. Qed.

Lemma lan_full_reachable : reachable lan_full.
Proof. eapply trace_reachable; [| exact lan_full_trace]. eapply R_new. exact lan0_new. Qed.

Example lan_full_state : oi_state lan_full = ISM_Backup /\ full_nbrs lan_full = 1 /\ n_state <$> (heap lan_full !! 2%positive) = Some NSM_Full.
Proof. vm_compute. done. Qed.

(** ** Safety and the invariant *)

(** What the rest of the program may ask for: the steps that are allowed, and the two that [allowed] leaves out, an event of a neighbour that is
    gone and a new router id on a virtual link. *)
Definition offered (s : ospf_interface) (o : op) : bool := match o with RunEvent | RouterId _ => true | _ => allowed s o end.
Definition stale_event (s : ospf_interface) (o : op) : bool :=
  match o with RunEvent => match next_task s with Some (Nsm n _) => negb (is_nbr s n) | _ => false end | _ => false end.
Definition renames_vlink (s : ospf_interface) (o : op) : bool := match o with RouterId _ => is_vlink s | _ => false end.

Lemma allowed_split s o : offered s o = true -> stale_event s o = false -> renames_vlink s o = false -> allowed s o = true.
Proof.
  destruct o; cbn; try done; [| by intros _ _ ->]. intros _ H _. destruct (next_task s) as [[] |]; try done. by apply negb_false_iff in H.
Qed.

Lemma router_id_returns s id : base_ok s -> exists s', ospf_router_id_update s id = Ok s'.
Proof.
  intros B. destruct (bo_self s B) as (x & Hx & _). unfold ospf_router_id_update. destruct (_ =? _); [eauto |].
  eexists. by apply (upd_nbr_Ok (set_ospf_router_id id s) (nbr_self s) x).
Qed.

Lemma freed_event_faults s n ev : next_task s = Some (Nsm n ev) -> heap s !! n = None -> step s RunEvent = Oob.
Proof.
  intros Ht Hn. assert (forall t, heap t !! n = None -> exec exec_fuel (Nsm n ev) t = Oob) as He.
  { intros t Hh. unfold exec_fuel. cbn [exec]. unfold ospf_nsm_event, get_nbr. by rewrite Hh. }
  cbn [step]. unfold run_event. unfold next_task in Ht. destruct (ready_q s) as [|t r]; [destruct (event_q s) as [|t r]; [done |] |]; injection Ht as ->; by apply He.
Qed.

(** C5: whatever happens to an OSPF interface (Hello and Database Description packets that pass the checks of ospf_read, running timers, queued events, interface up and
    down, a new router id, traffic of the other packet types), the handlers return: they follow no pointer to a freed neighbour, index the
    two transition tables inside their bounds, fail no assertion and nest at most three [thread_execute]s; with one exception, an event that the scheduler had made ready before
    its neighbour was freed, which faults ([ospf_stale_event_fault] shows that it happens).  The interface got into its state by such steps, without an
    exception and without a new router id on a virtual link, after which the table of neighbours is not well formed any more ([ospf_vlink_router_id_dangles]). *)
Theorem ospf_fsm_safe s o : reachable s -> offered s o = true ->
  (stale_event s o = false -> exists s', step s o = Ok s' /\ (renames_vlink s o = false -> reachable s')) /\
  (forall n ev, o = RunEvent -> next_task s = Some (Nsm n ev) -> heap s !! n = None -> step s o = Oob).
Proof.
  intros R A. split; [| intros n ev ->; apply freed_event_faults]. intros St. destruct (renames_vlink s o) eqn:V.
  - destruct o; try done. destruct (router_id_returns s id (iv_base _ _ _ (fk_inv s (fsm_reachable_ok s R)))) as [s' E]. by exists s'.
  - pose proof (allowed_split s o A St V) as Al. destruct (step_ok s o (fsm_reachable_ok s R) Al) as (s' & E & _). exists s'. split; [done |]. intros _. by eapply R_step.
Qed.

Lemma ospf_fsm_safe_witness : exists s', step lan_full IfDown = Ok s' /\ reachable s'.
Proof. destruct (ospf_fsm_safe lan_full IfDown lan_full_reachable eq_refl) as [H _]. destruct (H eq_refl) as (s' & E & R). exists s'. split; [exact E | exact (R eq_refl)]. Defined.

(** C6: in every reachable state the counter of full neighbours is their number (and the area's counter agrees), this router has a
    network-LSA exactly when it is DR with a full neighbour, a state of DR or Backup is the declared one, a neighbour that was heard of has
    its inactivity timer running or its end queued, one that is not yet exchanging has empty lists, one in ExStart (and a master in
    Exchange) retransmits its description, and a waiting interface has its wait timer running or its event queued. *)
Theorem ospf_fsm_invariant s : reachable s -> inv False None s.
Proof. intros R. apply (fsm_reachable_ok s R). Qed.

Lemma ospf_fsm_invariant_witness : inv False None lan_full.
Proof. apply (ospf_fsm_invariant lan_full). exact lan_full_reachable. Defined.

(** The table of an interface without neighbours. *)
Lemma alone_nbrs s x : base_ok s -> heap s !! nbr_self s = Some x -> (forall n, is_Some (heap s !! n) -> n = nbr_self s) -> nbrs s = [(ospf_nbr_key s x, nbr_self s)].
Proof.
  intros B Hx H. assert (forall e, e ∈ nbrs s <-> e = (ospf_nbr_key s x, nbr_self s)) as He.
  { intros [k n]. split.
    - intros Hk. destruct (bo_tab s B k n Hk) as (y & Hy & <-). assert (n = nbr_self s) as -> by (apply H; eauto). rewrite Hx in Hy. by injection Hy as <-.
    - intros [= -> ->]. apply tab_lookup_elem; [apply B | by apply bo_lookup]. }
  pose proof (bo_sorted s B) as S. destruct (nbrs s) as [|e [|e' l]].
  - specialize (He (ospf_nbr_key s x, nbr_self s)). apply proj2 in He. specialize (He eq_refl). by apply not_elem_of_nil in He.
  - by rewrite (proj1 (He e)) by (by left).
  - apply StronglySorted_inv in S as [_ S]. apply Forall_inv in S. rewrite (proj1 (He e)), (proj1 (He e')) in S by (by left || by (right; left)). cbn in S. lia.
Qed.

(** An interface that goes down, from whatever state, ends in Down with the pseudo neighbour as its only neighbour, no
    timer, no full neighbour, no network-LSA and no queued event for a neighbour. *)
Theorem ospf_if_down_clears s : reachable s ->
  exists s', step s IfDown = Ok s' /\ oi_state s' = ISM_Down /\ (forall n, is_Some (heap s' !! n) <-> n = nbr_self s') /\ (nbrs s').*2 = [nbr_self s'] /\
    full_nbrs s' = 0 /\ area_full_nbrs s' = 0 /\ network_lsa_self s' = false /\ t_hello s' = false /\ t_wait s' = false /\ t_ls_ack s' = false /\
    (forall n ev, Nsm n ev ∉ event_q s').
Proof.
  intros R. destruct (ism_event_ok 0 False False s ISM_InterfaceDown (fk_inv s (fsm_reachable_ok s R))) as (s' & E & I & _ & _ & _ & _ & D); [done |].
  destruct D as [D H]; [done |]. exists s'. split; [exact E |]. split; [done |]. destruct I as [B N I F]. destruct (bo_self s' B) as (x & Hx & SF).
  split; [intros n; split; [apply H | intros ->; eauto] |].
  assert (full_nbrs s' = 0) as Hf.
  { rewrite (fo_full s' F). apply full_count_alone. intros n y Hy. assert (n = nbr_self s') as -> by (apply H; eauto). rewrite Hx in Hy. injection Hy as <-. by rewrite (sf_state _ _ _ SF). }
  split; [| split; [done |]; split; [by rewrite (fo_area s' F) |]; split; [by rewrite (fo_net s' F), D |]; split; [by rewrite (io_hello _ _ I), D |];
    split; [pose proof (io_wait _ _ I) as W; by rewrite D in W |]; split; [by rewrite (io_ack _ _ I), D |]].
  - by rewrite (alone_nbrs s' x B Hx H).
  - intros n ev Hq. destruct (bo_events s' B _ Hq) as (Hl & Hn & _). by apply Hn, H.
Qed.

Lemma ospf_if_down_clears_witness : exists s', step lan_full IfDown = Ok s' /\ oi_state s' = ISM_Down.
Proof. destruct (ospf_if_down_clears lan_full) as (s' & E & D & _); [exact lan_full_reachable |]. exists s'. split; [exact E | exact D]. Defined.

(** ** The election *)

Lemma pick_addr s (l el : list nref) : (forall n, n ∈ l -> n ∈ el) -> addr_of s (pick s l) = 0 \/ exists n, n ∈ el /\ addr_of s (pick s l) = address (nb s n).
Proof.
  intros H. destruct l as [|k l]; [by left |]. destruct (pick_Some s (k :: l)) as (m & -> & Hm & _); [done |]. right. exists m. split; [by apply H | done].
Qed.

Lemma bdr_round_addr s el : bdr_round s el = 0 \/ exists n, n ∈ el /\ bdr_round s el = address (nb s n).
Proof.
  unfold bdr_round. apply pick_addr. intros n. assert (n ∈ no_dr s el -> n ∈ el) as H by by intros [_ ?]%list_elem_of_filter.
  destruct (says_bdr s el) as [|k l] eqn:E; [done |]. rewrite <- E. by intros [_ ?%H]%list_elem_of_filter.
Qed.

Lemma dr_round_addr s el b : dr_round s el b = 0 \/ exists n, n ∈ el /\ dr_round s el b = address (nb s n).
Proof.
  unfold dr_round. destruct (says_dr s el) as [|k l] eqn:E.
  - destruct (List.find _ _) as [m |] eqn:F; [| by left]. right. exists m. split; [| done]. apply find_some in F as [F _]. apply list_elem_of_In in F. by rewrite elem_of_reverse in F.
  - apply pick_addr. intros n. rewrite <- E. by intros [_ ?]%list_elem_of_filter.
Qed.

Lemma set_self_addr f s n : (forall x, address (f x) = address x) -> address (nb (set_self f s) n) = address (nb s n).
Proof. intros H. rewrite nb_set_self. destruct (decide _) as [-> |]; [apply H | done]. Qed.

(** The addresses a round elects are 0 or of candidates. *)
Lemma round_addr s el : let s' := round s el in let x := nb s' (nbr_self s') in
  (d_router x = 0 \/ exists n, n ∈ el /\ d_router x = address (nb s' n)) /\ (bd_router x = 0 \/ exists n, n ∈ el /\ bd_router x = address (nb s' n)).
Proof.
  cbn zeta. assert (forall n, address (nb (round s el) n) = address (nb s n)) as Ha by (intros n; unfold round; by rewrite !set_self_addr).
  change (nbr_self (round s el)) with (nbr_self s). rewrite (round_self (nbr_self s) el) by done. cbn [d_router bd_router set_d_router set_bd_router]. split.
  - set (s1 := set_self _ s). destruct (dr_round_addr s1 el (bdr_round s el)) as [H | (n & Hn & H)]; [by left |]. right. exists n. split; [done |]. rewrite Ha, H. unfold s1. by rewrite set_self_addr.
  - destruct (bdr_round_addr s el) as [H | (n & Hn & H)]; [by left |]. right. exists n. by rewrite Ha.
Qed.

Lemma elected_addr s : let s' := elected s in let x := nb s' (nbr_self s') in
  (d_router x = 0 \/ exists n, n ∈ candidates s /\ d_router x = address (nb s' n)) /\ (bd_router x = 0 \/ exists n, n ∈ candidates s /\ bd_router x = address (nb s' n)).
Proof. cbn zeta. unfold elected. destruct (_ && _); apply round_addr. Qed.

Lemma elected_eligible s n : base_ok s -> n ∈ candidates s -> exists y, heap (elected s) !! n = Some y /\ eligible y = true /\ nb (elected s) n = y.
Proof.
  intros B [(y & Hy & He) _]%list_elem_of_filter. destruct (elected_set s) as (d & b & ->). unfold set_self. destruct (decide (n = nbr_self s)) as [-> | Hne].
  - eexists. unfold nb at 2. cbn [heap set_heap]. rewrite lookup_insert_eq. split; [done |]. split; [| done]. rewrite (nb_Some _ _ _ Hy). exact He.
  - exists y. unfold nb at 2. cbn [heap set_heap]. rewrite lookup_insert_ne, Hy by done. done.
Qed.

(** An address that is 0 or an eligible neighbour's (or this router's). *)
Definition elects (s : ospf_interface) (a : Z) : Prop := a = 0 \/ exists n y, heap s !! n = Some y /\ eligible y = true /\ address y = a.

(** C30: the election always returns; the state it gives is the role of this router in the DR and BDR it declares (which it
    never both is), and these are 0 or the address of a router that may be elected (known, with a priority above 0, heard both ways). *)
Theorem ospf_dr_election_roles s : reachable s -> is_vlink s = false -> c_address (conf s) <> 0 ->
  exists s' st x, ospf_dr_election s = Ok (s', st) /\ heap s' !! nbr_self s' = Some x /\
    (st = ISM_DR <-> d_router x = c_address (conf s)) /\ (st = ISM_Backup <-> bd_router x = c_address (conf s)) /\
    (st = ISM_DROther <-> d_router x <> c_address (conf s) /\ bd_router x <> c_address (conf s)) /\
    elects s' (d_router x) /\ elects s' (bd_router x).
Proof.
  intros R V H0. pose proof (fk_inv s (fsm_reachable_ok s R)) as I. pose proof (iv_base _ _ _ I) as B. destruct (dr_election_run s B) as (ts & E & _).
  exists (set_event_q (event_q s ++ ts) (elected s)), (role (elected s)), (nb (elected s) (nbr_self (elected s))). split; [exact E |]. split; [apply elected_lookup |].
  destruct (elected_self s) as [Es Ec]. assert (oi_state s = ISM_DR -> role s = ISM_DR) as Hr.
  { intros Hs. rewrite <- Hs. apply (io_role _ _ (iv_iface _ _ _ I)). by right. }
  pose proof (elected_roles s B V H0 Hr) as Nb. unfold dr_of, bdr_of in Nb. rewrite <- Es in Nb. unfold role. rewrite Ec.
  split; [| split; [| split]].
  - destruct (Z.eqb_spec (d_router (nb (elected s) (nbr_self (elected s)))) (c_address (conf s))); [done |]. destruct (_ =? _); split; intros; done.
  - destruct (Z.eqb_spec (d_router (nb (elected s) (nbr_self (elected s)))) (c_address (conf s))); [split; [done | tauto] |].
    destruct (Z.eqb_spec (bd_router (nb (elected s) (nbr_self (elected s)))) (c_address (conf s))); done.
  - destruct (Z.eqb_spec (d_router (nb (elected s) (nbr_self (elected s)))) (c_address (conf s))); [split; [done | tauto] |].
    destruct (Z.eqb_spec (bd_router (nb (elected s) (nbr_self (elected s)))) (c_address (conf s))); [split; [done | tauto] | done].
  - destruct (elected_addr s) as [HD HB]. split; [destruct HD as [-> | (n & Hn & ->)] | destruct HB as [-> | (n & Hn & ->)]]; try (by left); right;
      destruct (elected_eligible s n B Hn) as (y & Hy & He & <-); eauto.
Qed.

Lemma ospf_dr_election_roles_witness : exists s' st, ospf_dr_election lan_full = Ok (s', st).
Proof. destruct (ospf_dr_election_roles lan_full) as (s' & st & _ & E & _); [exact lan_full_reachable | vm_compute; reflexivity | vm_compute; discriminate |]. exists s', st. exact E. Defined.

(** No preemption (RFC 2328, 9.4): as long as the eligible routers agree, one of them alone declaring itself DR and
    another BDR, elections keep them, whatever the priorities of the routers that have joined. *)
Theorem ospf_dr_election_stable s a b : reachable s -> is_vlink s = false -> a <> b -> a ∈ candidates s -> b ∈ candidates s ->
  (forall n, n ∈ candidates s -> NBR_IS_DR (nb s n) = true <-> n = a) -> (forall n, n ∈ candidates s -> NBR_IS_BDR (nb s n) = true <-> n = b) ->
  exists s' st x, ospf_dr_election s = Ok (s', st) /\ heap s' !! nbr_self s' = Some x /\ d_router x = address (nb s a) /\ bd_router x = address (nb s b).
Proof.
  intros R V Hab Ha Hb HD HB. pose proof (iv_base _ _ _ (fk_inv s (fsm_reachable_ok s R))) as B. destruct (dr_election_run s B) as (ts & E & _).
  eexists _, _, (nb (elected s) (nbr_self (elected s))). split; [exact E |]. split; [apply elected_lookup |].
  assert (settled (candidates s) a b s) as S.
  { assert (forall n, n ∈ nbr_self s :: candidates s -> is_Some (heap s !! n)) as L.
    { intros n [-> | Hn]%elem_of_cons; [| by apply candidates_live]. destruct (bo_self s B) as (x & Hx & _). eauto. }
    split; try done. intros n m Hn Hm. apply (address_inj s); auto. }
  destruct (settled_round _ a b s S) as [S1 E1]. unfold elected. destruct (_ && _).
  - destruct (settled_round _ a b _ S1) as [_ E2]. change (nbr_self (round (round s (candidates s)) (candidates s))) with (nbr_self (round s (candidates s))). rewrite E2.
    cbn. unfold round. by rewrite !set_self_addr.
  - change (nbr_self (round s (candidates s))) with (nbr_self s). by rewrite E1.
Qed.

Lemma lan_full_settled : candidates lan_full = [1%positive; 2%positive] /\ (forall n, n ∈ candidates lan_full -> NBR_IS_DR (nb lan_full n) = true <-> n = 2%positive) /\
  (forall n, n ∈ candidates lan_full -> NBR_IS_BDR (nb lan_full n) = true <-> n = 1%positive).
Proof.
  assert (candidates lan_full = [1%positive; 2%positive]) as E by (vm_compute; reflexivity). split; [exact E |]. rewrite E. clear E.
  split; intros n [-> | [-> | ?%not_elem_of_nil]%elem_of_cons]%elem_of_cons; vm_compute; split; intros; (done || congruence).
Qed.

Lemma ospf_dr_election_stable_witness : exists s' st x, ospf_dr_election lan_full = Ok (s', st) /\ heap s' !! nbr_self s' = Some x /\ d_router x = 200 /\ bd_router x = 100.
Proof.
  destruct lan_full_settled as (E & HD & HB).
  destruct (ospf_dr_election_stable lan_full 2 1) as (s' & st & x & E1 & E2 & E3 & E4); [exact lan_full_reachable | vm_compute; reflexivity | discriminate | rewrite E; right; left | rewrite E; left | exact HD | exact HB |].
  exists s', st, x. split; [exact E1 |]. split; [exact E2 |]. split; [rewrite E3; vm_compute; reflexivity | rewrite E4; vm_compute; reflexivity].
Defined.

(** ** What goes wrong *)

(** The inactivity timer of a full neighbour fires just before its next Hello arrives; the scheduler makes both events ready. *)
Definition stale_ops : list op := [Timer (T_inactivity 2); hello_of [10] 200 100; RunEvent].
Definition lan_stale : ospf_interface := match trace lan_full stale_ops with Some s => s | None => lan0 end.

Lemma lan_stale_trace : trace lan_full stale_ops = Some lan_stale.
Proof. vm_compute. reflexivity. Qed.

(** C40: the exception [allowed] makes is real: [ospf_nbr_free] cancels the queued events of a neighbour but not those the
    scheduler has made ready, so that when a Hello arrives together with the expiry of the neighbour's inactivity timer the next event runs on
    the freed neighbour. *)
Theorem ospf_stale_event_fault : exists s n ev, reachable s /\ next_task s = Some (Nsm n ev) /\ heap s !! n = None /\ step s RunEvent = Oob.
Proof.
  exists lan_stale, 2%positive, NSM_PacketReceived. split; [eapply trace_reachable; [exact lan_full_reachable | exact lan_stale_trace] |].
  split; [vm_compute; reflexivity |]. split; vm_compute; reflexivity.
Qed.

(** A Database Description that describes a newer instance of an LSA, one with the sequence number of ours and a checksum
    that is larger by more than 1, does not put it on the request list: [ospf_lsa_more_recent] says it is newer by returning the difference of
    the checksums, and [ospf_db_desc_proc] looks for exactly -1. *)
Theorem ospf_dd_newer_not_requested s n x h cur :
  heap s !! n = Some x -> ospf_lsa_lookup_by_header s h = Some cur -> ls_seqnum (data (o_lsa cur)) = ls_seqnum h -> ls_checksum (data (o_lsa cur)) < ls_checksum h - 1 ->
  ospf_lsa_more_recent (clock s) (Some (o_lsa cur)) (Some (o_lsa (ospf_ls_request_new s h))) < 0 /\
  exists s', dd_header s n h = Ok s' /\ heap s' !! n = Some x.
Proof.
  intros Hx Hl Hq Hc. set (new := ospf_ls_request_new s h).
  assert (ospf_lsa_more_recent (clock s) (Some (o_lsa cur)) (Some (o_lsa new)) = ls_checksum (data (o_lsa cur)) - ls_checksum h) as Hr.
  { unfold ospf_lsa_more_recent. cbn zeta. change (data (o_lsa new)) with h. rewrite Hq, Z.gtb_ltb, Z.ltb_irrefl. destruct (Z.eqb_spec (ls_checksum (data (o_lsa cur)) - ls_checksum h) 0); [lia | done]. }
  split; [lia |]. unfold dd_header. cbn zeta. fold new. change (ospf_lsa_lookup_by_header (set_next_lsa _ s) h) with (ospf_lsa_lookup_by_header s h). rewrite Hl.
  change (clock (set_next_lsa _ s)) with (clock s). cbn [fmap option_fmap option_map]. rewrite Hr. eexists. rewrite (upd_nbr_Ok _ _ x) by done. split; [done |]. cbn.
  rewrite lookup_insert_eq. destruct (Z.eqb_spec (ls_checksum (data (o_lsa cur)) - ls_checksum h) (-1)); [lia |].
  destruct (Z.eqb_spec (ls_checksum (data (o_lsa cur)) - ls_checksum h) 0); [lia | done].
Qed.

Lemma ospf_dd_newer_not_requested_witness :
  let h sum := mk_header 1 2 OSPF_ROUTER_LSA 30 30 2147483649 sum in let s := set_area_db [mk_obj 1 (ospf_lsa_new (h 7) 5000000) false] lan_full in
  exists s', dd_header s 2 (h 9) = Ok s' /\ heap s' !! 2%positive = heap lan_full !! 2%positive.
Proof.
  cbn zeta. destruct (heap lan_full !! 2%positive) as [x |] eqn:Hx; [| exfalso; revert Hx; vm_compute; discriminate].
  assert (forall s db, heap (set_area_db db s) = heap s) as Ha by done.
  destruct (ospf_dd_newer_not_requested (set_area_db [mk_obj 1 (ospf_lsa_new (mk_header 1 2 OSPF_ROUTER_LSA 30 30 2147483649 7) 5000000) false] lan_full) 2 x (mk_header 1 2 OSPF_ROUTER_LSA 30 30 2147483649 9) (mk_obj 1 (ospf_lsa_new (mk_header 1 2 OSPF_ROUTER_LSA 30 30 2147483649 7) 5000000) false))
    as (_ & s' & E & H); [rewrite Ha; exact Hx | vm_compute; reflexivity | reflexivity | reflexivity |]. exists s'. split; [exact E | exact H].
Defined.

(** [ospf_if_cleanup] on a virtual link whose pseudo neighbour is in the table under another id. *)
Lemma cleanup_misses execute s x old :
  is_vlink s = true -> heap s !! nbr_self s = Some x -> router_id x = ospf_router_id s -> nbrs s = [(old, nbr_self s)] -> old <> ospf_router_id s ->
  exists s', ospf_if_cleanup execute s = Ok s' /\ nbrs s' = tab_insert (ospf_router_id s) (nbr_self s') [(old, nbr_self s)] /\ oi_state s' = oi_state s.
Proof.
  intros V Hx Hr Hn Ho. unfold ospf_if_cleanup. rewrite Hn. cbn. rewrite Hn. cbn. rewrite Z.eqb_refl, bool_decide_true by done. cbn.
  unfold ospf_nbr_delete. rewrite (get_nbr_Ok _ _ _ Hx). cbn [mbind res_bind]. unfold ospf_nbr_key. rewrite V, Hr, Hn. cbn [tab_lookup]. rewrite (proj2 (Z.eqb_neq _ _) Ho).
  unfold ospf_nbr_free. rewrite (get_nbr_Ok _ _ _ Hx). cbn [mbind res_bind]. unfold ospf_nbr_new. cbn zeta beta iota. set (s1 := set_nbr_self _ _).
  assert (exists y, heap s1 !! nbr_self s1 = Some y) as [y Hy] by (eexists; apply lookup_insert_eq).
  assert (is_vlink s1 = true /\ nbrs s1 = nbrs s /\ oi_state s1 = oi_state s /\ ospf_router_id s1 = ospf_router_id s) as (V1 & N1 & O1 & R1) by done. clearbody s1.
  unfold ospf_nbr_add_self. rewrite (upd_nbr_Ok _ _ _ _ Hy). cbn [mbind res_bind]. erewrite get_nbr_Ok; [| apply lookup_insert_eq]. cbn [mbind res_bind].
  unfold ospf_nbr_key. change (is_vlink (set_heap _ s1)) with (is_vlink s1). rewrite V1. cbn [router_id set_n_options set_n_state set_src set_router_id nbrs set_heap]. rewrite N1, R1, Hn.
  cbn [tab_lookup]. rewrite (proj2 (Z.eqb_neq _ _) Ho). eexists. split; [done |]. split; [cbn [nbrs set_nbrs set_heap nbr_self]; rewrite ?N1, ?Hn; cbn [tab_insert]; rewrite (proj2 (Z.eqb_neq _ _) Ho); reflexivity | exact O1].
Qed.

Lemma tab_insert_two k n j m : j <> k -> tab_lookup j (tab_insert k n [(j, m)]) = Some m /\ tab_lookup k (tab_insert k n [(j, m)]) = Some n.
Proof.
  intros H. cbn. rewrite (proj2 (Z.eqb_neq _ _) H). destruct (Z.ltb_spec k j); cbn; rewrite ?Z.eqb_refl, ?(proj2 (Z.eqb_neq _ _) H); [| done].
  rewrite (proj2 (Z.eqb_neq _ _)) by congruence. done.
Qed.

(** When the router id changes, the pseudo neighbour of a virtual link keeps its place in the table, which is under the old
    id; the link going down then does not find the entry of the neighbour it frees, and the table keeps a pointer to the freed pseudo
    neighbour beside the entry of the new one. *)
Theorem ospf_vlink_router_id_dangles s id : reachable s -> is_vlink s = true -> (forall n, is_Some (heap s !! n) -> n = nbr_self s) -> id <> ospf_router_id s ->
  exists s1 s2, step s (RouterId id) = Ok s1 /\ step s1 IfDown = Ok s2 /\
    tab_lookup (ospf_router_id s) (nbrs s2) = Some (nbr_self s) /\ tab_lookup id (nbrs s2) = Some (nbr_self s2).
Proof.
  intros R V H Hne. pose proof (fk_inv s (fsm_reachable_ok s R)) as I. pose proof (iv_base _ _ _ I) as B. destruct (bo_self s B) as (x & Hx & SF).
  pose proof (alone_nbrs s x B Hx H) as Hn. unfold ospf_nbr_key in Hn. rewrite V, (sf_id _ _ _ SF) in Hn. cbn [step]. unfold ospf_router_id_update, ospf_if_down.
  rewrite (proj2 (Z.eqb_neq _ _)) by congruence. rewrite (upd_nbr_Ok _ _ x) by done. eexists. set (s1 := set_heap _ _).
  destruct (cleanup_misses (exec 2) s1 (set_router_id id x) (ospf_router_id s) V ltac:(apply lookup_insert_eq) eq_refl Hn) as (s2 & E2 & N2 & O2); [done |].
  change (nbr_self s1) with (nbr_self s) in N2. change (ospf_router_id s1) with id in N2. change (oi_state s1) with (oi_state s) in O2.
  assert (exists nx, exec exec_fuel (Ism ISM_InterfaceDown) s1 = Ok (ism_timer_set (if negb (nx =? oi_state s2) then ism_change_state s2 nx else s2))) as [nx ->].
  { pose proof (io_state _ _ (iv_iface _ _ _ I)) as Rs. destruct (ism_entry (oi_state s) ISM_InterfaceDown Rs) as (f & nx & E & _ & Fd); [done |]. exists nx.
    change (exec exec_fuel (Ism ISM_InterfaceDown) s1) with (ospf_ism_event (exec 2) s1 ISM_InterfaceDown). unfold ospf_ism_event. change (oi_state s1) with (oi_state s). rewrite E.
    cbn [mbind res_bind]. rewrite (proj2 Fd eq_refl). cbn [run_ism_func]. unfold ism_interface_down. rewrite E2. cbn [mbind res_bind]. rewrite Z.eqb_refl, O2, E. done. }
  eexists. split; [done |]. split; [done |]. set (s3 := ism_timer_set _). assert (nbrs s3 = nbrs s2 /\ nbr_self s3 = nbr_self s2) as [-> ->].
  { unfold s3. set (s4 := if _ : bool then _ else s2). destruct (timer_set_rest s4) as (T & _). unfold rest in T. injection T as _ _ _ -> _ -> _ _ _ _ _ _ _.
    unfold s4. destruct (negb _); [| done]. destruct (change_state_rest s2 nx) as (T & _). unfold rest in T. by injection T. }
  rewrite N2. apply tab_insert_two. congruence.
Qed.

Definition vlink : if_conf := mk_conf OSPF_IFTYPE_VIRTUALLINK 100 32 1 40 10 0 5 false 1500 1480 OSPF_AREA_DEFAULT true false true.
Definition vlink0 : ospf_interface := match ospf_if_new vlink 10 5000000 with Ok s => s | _ => lan0 end.

Lemma ospf_vlink_router_id_dangles_witness : exists s1 s2, step vlink0 (RouterId 11) = Ok s1 /\ step s1 IfDown = Ok s2 /\ tab_lookup 10 (nbrs s2) = Some (nbr_self vlink0).
Proof.
  destruct (ospf_vlink_router_id_dangles vlink0 11) as (s1 & s2 & E1 & E2 & E3 & _).
  - apply (R_new vlink 10 5000000). vm_compute. reflexivity.
  - vm_compute. reflexivity.
  - intros n [x Hx]. revert Hx. assert (exists y, heap vlink0 = {[nbr_self vlink0 := y]}) as [y ->] by (eexists; vm_compute; reflexivity). by intros [<- _]%lookup_singleton_Some.
  - vm_compute. discriminate.
  - exists s1, s2. split; [exact E1 |]. split; [exact E2 | exact E3].
Defined.
