(* ===== verification/OspfLsaWire.v ===== *)
(** * Link state advertisements as bytes (ospfd/ospf_lsa.h, ospf_packet.c, ospf_spf.c)

    The examination of received OSPF packets ([ospf_packet_examin] and what it calls in
    ospfd/ospf_packet.c), and the functions of ospfd/ospf_spf.c that walk the links of a router-LSA.
    A packet is a list of bytes, an LSA its header (file OspfLsdb), its [length] field and the
    bytes after the header; a read outside the bytes is [Oob].  A link descriptor is read as a whole
    (12 bytes).  Debug output is left out. *)

From S2P Require Import Prelude OspfLsdb OspfNeighbor.
Local Open Scope Z_scope.

(** ** Reads *)

(** The [n]-byte integer at offset [o], in network byte order. *)
Definition getn (n : nat) (b : list Z) (o : Z) : res Z :=
  if (0 <=? o) && (o + Z.of_nat n <=? Z.of_nat (length b))
  then Ok (be_val (take n (drop (Z.to_nat o) b))) else Oob.

(** ** Examination of received packets (ospfd/ospf_packet.c) *)

Definition MSG_OK : Z := 0.
Definition MSG_NG : Z := 1.
Definition OSPF_VERSION : Z := 2.
Definition OSPF_HEADER_SIZE : Z := 24.
Definition OSPF_LSA_HEADER_SIZE : Z := 20.
Definition OSPF_LSA_KEY_SIZE : Z := 12.
Definition OSPF_AUTH_CRYPTOGRAPHIC : Z := 2.
Definition OSPF_AUTH_MD5_SIZE : Z := 16.
Definition OSPF_MSG_HELLO : Z := 1.
Definition OSPF_MSG_DB_DESC : Z := 2.
Definition OSPF_MSG_LS_REQ : Z := 3.
Definition OSPF_MSG_LS_UPD : Z := 4.
Definition OSPF_MSG_LS_ACK : Z := 5.
Definition OSPF_HELLO_MIN_SIZE : Z := 20.
Definition OSPF_DB_DESC_MIN_SIZE : Z := 8.
Definition OSPF_LS_REQ_MIN_SIZE : Z := 0.
Definition OSPF_LS_UPD_MIN_SIZE : Z := 4.
Definition OSPF_LS_ACK_MIN_SIZE : Z := 0.
Definition OSPF_ROUTER_LSA_MIN_SIZE : Z := 4.
Definition OSPF_AS_EXTERNAL_LSA_MIN_SIZE : Z := 16.
Definition OSPF_ROUTER_LSA_LINK_SIZE : Z := 12.
Definition OSPF_ROUTER_LSA_TOS_SIZE : Z := 4.

Definition ospf_packet_minlen : list Z := [0; 20; 8; 0; 4; 0].
Definition ospf_lsa_minlen : list Z := [0; 4; 8; 8; 8; 16; 0; 16; 0; 0; 0; 0].

(** The loop of [ospf_router_lsa_links_examin] at offset [link]; [tos_count] is the tenth byte of a link.
    Every turn takes at least 12 of the [linkbytes]. *)
Fixpoint links_examin_loop (fuel : nat) (b : list Z) (link linkbytes counted_links num_links : Z) : res Z :=
  match fuel with
  | O => Oob
  | S fuel =>
      if linkbytes =? 0 then Ok (if negb (counted_links =? num_links) then MSG_NG else MSG_OK)
      else
        tos_count ← getn 1 b (link + 9);
        let thislinklen := OSPF_ROUTER_LSA_LINK_SIZE + 4 * tos_count in
        if thislinklen >? linkbytes then Ok MSG_NG
        else links_examin_loop fuel b (link + thislinklen) (linkbytes - thislinklen) (counted_links + 1) num_links
  end.

Definition ospf_router_lsa_links_examin (b : list Z) (link linkbytes num_links : Z) : res Z :=
  links_examin_loop (S (Z.to_nat linkbytes)) b link linkbytes 0 num_links.

(** [ospf_lsa_examin] for the LSA at offset [lsah] of the buffer [b]. *)
Definition ospf_lsa_examin (b : list Z) (lsah lsalen : Z) (headeronly : bool) : res Z :=
  ty ← getn 1 b (lsah + 3);
  let minlen := byte_at ospf_lsa_minlen ty in
  if (ty <? OSPF_MAX_LSA) && negb (minlen =? 0) && (lsalen <? OSPF_LSA_HEADER_SIZE + minlen) then Ok MSG_NG
  else if ty =? OSPF_ROUTER_LSA then
    if headeronly then Ok (if u32 (lsalen - OSPF_LSA_HEADER_SIZE - OSPF_ROUTER_LSA_MIN_SIZE) mod 4 =? 0 then MSG_OK else MSG_NG)
    else
      links ← getn 2 b (lsah + 22);
      ospf_router_lsa_links_examin b (lsah + 24) (u16 (lsalen - OSPF_LSA_HEADER_SIZE - 4)) links
  else if (ty =? OSPF_AS_EXTERNAL_LSA) || (ty =? OSPF_AS_NSSA_LSA) then
    Ok (if u32 (lsalen - OSPF_LSA_HEADER_SIZE - OSPF_AS_EXTERNAL_LSA_MIN_SIZE) mod 12 =? 0 then MSG_OK else MSG_NG)
  else if (ty =? OSPF_NETWORK_LSA) || (ty =? OSPF_SUMMARY_LSA) || (ty =? OSPF_ASBR_SUMMARY_LSA)
       || (ty =? OSPF_OPAQUE_LINK_LSA) || (ty =? OSPF_OPAQUE_AREA_LSA) || (ty =? OSPF_OPAQUE_AS_LSA) then
    Ok (if lsalen mod 4 =? 0 then MSG_OK else MSG_NG)
  else Ok MSG_NG.

(** The loop of [ospf_lsaseq_examin]; every turn takes at least 20 bytes. *)
Fixpoint lsaseq_examin_loop (fuel : nat) (b : list Z) (lsah length_ : Z) (headeronly : bool)
    (declared_num_lsas counted_lsas : Z) : res Z :=
  match fuel with
  | O => Oob
  | S fuel =>
      if length_ =? 0 then
        Ok (if negb (declared_num_lsas =? 0) && negb (counted_lsas =? declared_num_lsas) then MSG_NG else MSG_OK)
      else if length_ <? OSPF_LSA_HEADER_SIZE then Ok MSG_NG
      else
        lsalen ← getn 2 b (lsah + 18);
        if lsalen <? OSPF_LSA_HEADER_SIZE then Ok MSG_NG
        else if headeronly then
          ret ← ospf_lsa_examin b lsah lsalen true;
          if negb (ret =? MSG_OK) then Ok MSG_NG
          else lsaseq_examin_loop fuel b (lsah + OSPF_LSA_HEADER_SIZE) (length_ - OSPF_LSA_HEADER_SIZE) headeronly
                 declared_num_lsas (u32 (counted_lsas + 1))
        else if lsalen >? length_ then Ok MSG_NG
        else
          ret ← ospf_lsa_examin b lsah lsalen false;
          if negb (ret =? MSG_OK) then Ok MSG_NG
          else lsaseq_examin_loop fuel b (lsah + lsalen) (length_ - lsalen) headeronly
                 declared_num_lsas (u32 (counted_lsas + 1))
  end.

Definition ospf_lsaseq_examin (b : list Z) (lsah length_ : Z) (headeronly : bool) (declared_num_lsas : Z) : res Z :=
  lsaseq_examin_loop (S (Z.to_nat length_)) b lsah length_ headeronly declared_num_lsas 0.

(** [ospf_packet_examin] for the packet at the start of [b], [bytesonwire] bytes of which were received. *)
Definition ospf_packet_examin (b : list Z) (bytesonwire : Z) : res Z :=
  if bytesonwire <? OSPF_HEADER_SIZE then Ok MSG_NG
  else
    version ← getn 1 b 0;
    if negb (version =? OSPF_VERSION) then Ok MSG_NG
    else
      bytesdeclared ← getn 2 b 2;
      auth_type ← getn 2 b 14;
      auth_data_len ← getn 1 b 19;
      if (auth_type =? OSPF_AUTH_CRYPTOGRAPHIC) && negb (auth_data_len =? OSPF_AUTH_MD5_SIZE) then Ok MSG_NG
      else
        let bytesauth := if auth_type =? OSPF_AUTH_CRYPTOGRAPHIC then OSPF_AUTH_MD5_SIZE else 0 in
        if bytesdeclared + bytesauth >? bytesonwire then Ok MSG_NG
        else
          ty ← getn 1 b 1;
          if (OSPF_MSG_HELLO <=? ty) && (ty <=? OSPF_MSG_LS_ACK)
             && (bytesdeclared <? OSPF_HEADER_SIZE + byte_at ospf_packet_minlen ty) then Ok MSG_NG
          else if ty =? OSPF_MSG_HELLO then
            Ok (if u32 (bytesdeclared - OSPF_HEADER_SIZE - OSPF_HELLO_MIN_SIZE) mod 4 =? 0 then MSG_OK else MSG_NG)
          else if ty =? OSPF_MSG_DB_DESC then
            ospf_lsaseq_examin b (OSPF_HEADER_SIZE + OSPF_DB_DESC_MIN_SIZE)
              (u32 (bytesdeclared - OSPF_HEADER_SIZE - OSPF_DB_DESC_MIN_SIZE)) true 0
          else if ty =? OSPF_MSG_LS_REQ then
            Ok (if u32 (bytesdeclared - OSPF_HEADER_SIZE - OSPF_LS_REQ_MIN_SIZE) mod OSPF_LSA_KEY_SIZE =? 0 then MSG_OK else MSG_NG)
          else if ty =? OSPF_MSG_LS_UPD then
            num_lsas ← getn 4 b OSPF_HEADER_SIZE;
            ospf_lsaseq_examin b (OSPF_HEADER_SIZE + OSPF_LS_UPD_MIN_SIZE)
              (u32 (bytesdeclared - OSPF_HEADER_SIZE - OSPF_LS_UPD_MIN_SIZE)) false num_lsas
          else if ty =? OSPF_MSG_LS_ACK then
            ospf_lsaseq_examin b (OSPF_HEADER_SIZE + OSPF_LS_ACK_MIN_SIZE)
              (u32 (bytesdeclared - OSPF_HEADER_SIZE - OSPF_LS_ACK_MIN_SIZE)) true 0
          else Ok MSG_NG.

(** ** LSAs in memory *)

(** An LSA: its [struct ospf_lsa] with the header, the [length] field of the header in host byte order, and the
    bytes that follow the header. *)
Record lsa_object := mk_lsa_object { lo_lsa : ospf_lsa; lo_length : Z; lo_body : list Z }.

Definition lo_type (o : lsa_object) : Z := ls_type (data (lo_lsa o)).
Definition lo_id (o : lsa_object) : Z := ls_id (data (lo_lsa o)).

(** The [n]-byte integer at offset [off] of the LSA, the header included. *)
Definition lget (n : nat) (o : lsa_object) (off : Z) : res Z := getn n (lo_body o) (off - OSPF_LSA_HEADER_SIZE).

Definition LSA_LINK_TYPE_POINTOPOINT : Z := 1.
Definition LSA_LINK_TYPE_TRANSIT : Z := 2.
Definition LSA_LINK_TYPE_STUB : Z := 3.
Definition LSA_LINK_TYPE_VIRTUALLINK : Z := 4.

(** [struct router_lsa_link *]: its offset in the LSA and the fields found there. *)
Record router_lsa_link := mk_link {
  l_pos : Z; link_id : Z; link_data : Z; l_type : Z; tos_count : Z; metric : Z }.

Definition rd_link (o : lsa_object) (p : Z) : res router_lsa_link :=
  id ← lget 4 o p;
  dt ← lget 4 o (p + 4);
  ty ← lget 1 o (p + 8);
  tos ← lget 1 o (p + 9);
  m ← lget 2 o (p + 10);
  Ok (mk_link p id dt ty tos m).

(** [p += OSPF_ROUTER_LSA_LINK_SIZE + l->m[0].tos_count * OSPF_ROUTER_LSA_TOS_SIZE] *)
Definition link_end (l : router_lsa_link) : Z :=
  l_pos l + (OSPF_ROUTER_LSA_LINK_SIZE + tos_count l * OSPF_ROUTER_LSA_TOS_SIZE).

Definition links_start : Z := OSPF_LSA_HEADER_SIZE + 4.

(** A bound on the turns of every loop over an LSA: each turn reads bytes further on. *)
Definition lsa_fuel (o : lsa_object) : nat := S (length (lo_body o)).

(** ** [ospf_lsa_has_link] *)

Fixpoint has_link_network_loop (fuel : nat) (w : lsa_object) (vid length_ i : Z) : res Z :=
  match fuel with
  | O => Oob
  | S fuel =>
      if i <? length_ then
        r ← lget 4 w (OSPF_LSA_HEADER_SIZE + 4 + 4 * i);
        if r =? vid then Ok i else has_link_network_loop fuel w vid length_ (i + 1)
      else Ok (-1)
  end.

(** [rl->link[i]]: descriptors of 12 bytes each, whatever their [tos] says. *)
Fixpoint has_link_router_loop (fuel : nat) (w : lsa_object) (vtype vid links length_ i : Z) : res Z :=
  match fuel with
  | O => Oob
  | S fuel =>
      if (i <? links) && (36 <=? length_) then
        l ← rd_link w (links_start + 12 * i);
        if ((l_type l =? LSA_LINK_TYPE_POINTOPOINT) || (l_type l =? LSA_LINK_TYPE_VIRTUALLINK))
           && ((vtype =? OSPF_ROUTER_LSA) && (link_id l =? vid)) then Ok i
        else if (l_type l =? LSA_LINK_TYPE_TRANSIT) && ((vtype =? OSPF_NETWORK_LSA) && (link_id l =? vid)) then Ok i
        else has_link_router_loop fuel w vtype vid links (u32 (length_ - 12)) (i + 1)
      else Ok (-1)
  end.

(** The index of the link back to [v] in [w], or -1. *)
Definition ospf_lsa_has_link (w v : lsa_object) : res Z :=
  if lo_type w =? OSPF_NETWORK_LSA then
    if lo_type v =? OSPF_NETWORK_LSA then Ok (-1)
    else has_link_network_loop (lsa_fuel w) w (lo_id v) (u32 (lo_length w - OSPF_LSA_HEADER_SIZE - 4) / 4) 0
  else if lo_type w =? OSPF_ROUTER_LSA then
    links ← lget 2 w 22;
    has_link_router_loop (lsa_fuel w) w (lo_type v) (lo_id v) links (lo_length w) 0
  else Ok (-1).

(** ** [ospf_get_next_link] *)

Fixpoint get_next_link_loop (fuel : nat) (v : lsa_object) (lsa_type wid p lim : Z) : res (option router_lsa_link) :=
  match fuel with
  | O => Oob
  | S fuel =>
      if p <? lim then
        l ← rd_link v p;
        if negb (l_type l =? lsa_type) then get_next_link_loop fuel v lsa_type wid (link_end l) lim
        else if link_id l =? wid then Ok (Some l)
        else get_next_link_loop fuel v lsa_type wid (link_end l) lim
      else Ok None
  end.

(** The next link after [prev_link] from the vertex of LSA [v] to the vertex of type [wtype] and ID [wid]. *)
Definition ospf_get_next_link (v : lsa_object) (wtype wid : Z) (prev_link : option router_lsa_link) : res (option router_lsa_link) :=
  let lsa_type := if wtype =? OSPF_ROUTER_LSA then LSA_LINK_TYPE_POINTOPOINT else LSA_LINK_TYPE_TRANSIT in
  let p := match prev_link with None => links_start | Some l => link_end l end in
  get_next_link_loop (lsa_fuel v) v lsa_type wid p (lo_length v).
