(* ===== verification/OspfSpfTypes.v ===== *)
(** * Shortest path first: data (ospfd/ospf_spf.h, ospf_route.h, ospf_interface.h)

    The vertices of the shortest path tree live in a heap, because parents, children, the candidate queue
    and the area point to them; pointer 1 is NULL.  Next hop objects are never written after their creation:
    they are carried by value with an identity, and [live_nexthops] is the set of those not freed.
    [lsa->stat], the only field of an LSA that the calculation writes, is a map from LSAs.  What the
    calculation reads and does not change (LSAs, database, interfaces, area) is in [area_env].
    Routes are the entries of the tables [new_table] and [new_rtrs]; lib/table.c is modelled in the
    file Table, and here a table is the finite map it implements. *)

From S2P Require Import Prelude Prefix OspfLsdb OspfNeighbor OspfLsaWire.
Local Open Scope Z_scope.

(** ** Interfaces *)

(** The part of [struct ospf_interface] that the calculation reads; [if_connected] is
    [CONNECTED_PREFIX(oi->connected)] and [if_ifindex] is [oi->ifp->ifindex]. *)
Record spf_if := mk_if { if_id : positive; if_type : Z; if_address : prefix; if_connected : prefix; if_ifindex : Z }.

(** [struct in_addr] and [struct prefix_ipv4] from a 32-bit address in host byte order. *)
Definition ipv4_prefix (a len : Z) : prefix := mk_prefix AF_INET len (be_bytes 4 a ++ replicate 12 0).
(** [u.prefix4] in host byte order. *)
Definition prefix4_val (p : prefix) : Z := be_val (prefix4 p).

(** ** Virtual links: [struct ospf_vl_data] with the fields of its interface [vl_oi] that change *)
Record vl_data := mk_vl {
  vl_peer : Z; vl_area_id : Z; vl_flags : Z;
  vl_nexthop_oi : option spf_if; vl_nexthop_router : Z; peer_addr : Z;
  vl_state : Z; vl_output_cost : Z; vl_address : prefix }.

Definition OSPF_VL_FLAG_APPROVED : Z := 1.

(** ** Vertices *)

Definition OSPF_VERTEX_ROUTER : Z := 1.
Definition OSPF_VERTEX_NETWORK : Z := 2.
Definition OSPF_VERTEX_PROCESSED : Z := 1.

Definition LSA_SPF_NOT_EXPLORED : Z := -1.
Definition LSA_SPF_IN_SPFTREE : Z := -2.

Notation vertex_ptr := positive (only parsing).
Definition NULL : vertex_ptr := 1%positive.

Record vertex_nexthop := mk_nexthop { nh_id : positive; nh_oi : option spf_if; nh_router : Z }.
Record vertex_parent := mk_vp { nexthop : vertex_nexthop; parent : vertex_ptr; backlink : Z }.

(** [v_lsa] stands for both [lsa] and [stat], which point to the same LSA. *)
Record vertex := mk_vertex {
  v_flags : Z; v_type : Z; v_id : Z; v_lsa : lsa_ptr; distance : Z;
  parents : list vertex_parent; children : list vertex_ptr }.

(** ** Routes *)

Definition OSPF_DESTINATION_ROUTER : Z := 1.
Definition OSPF_DESTINATION_NETWORK : Z := 2.
Definition OSPF_PATH_INTRA_AREA : Z := 1.
Definition ROUTER_LSA_BORDER : Z := 1.
Definition ROUTER_LSA_EXTERNAL : Z := 2.
Definition ROUTER_LSA_VIRTUAL : Z := 4.
Definition ROUTER_LSA_SHORTCUT : Z := 32.

Record ospf_path := mk_path { p_nexthop : Z; p_adv_router : Z; p_ifindex : Z }.
(** [struct ospf_route] without its times; [u] is [u.std], and [r_origin] the LSA whose header it points to. *)
Record ospf_route := mk_route {
  r_type : Z; r_id : Z; r_path_type : Z; r_paths : list ospf_path; r_cost : Z;
  r_origin : lsa_ptr; r_area_id : Z; r_external_routing : Z; r_options : Z; r_flags : Z }.

Global Instance ospf_path_eq_dec : EqDecision ospf_path.
Proof. solve_decision. Defined.

(** ** What the calculation reads *)

Record area_env := mk_env {
  lsas_of : gmap positive lsa_object; lsdb_of : ospf_lsdb; now : Z; router_lsa_self : option lsa_ptr;
  area_id : Z; external_routing : Z; is_backbone : bool; has_backbone : bool; oiflist : list spf_if }.

(** Calls into other parts of ospfd: the interface event of a virtual link, and [ospf_router_lsa_update_area]
    for the backbone. *)
Inductive spf_call := Vl_interface_up (peer : Z) | Backbone_router_lsa_update.

(** ** What the calculation changes *)

Record spf := mk_spf {
  stat : gmap positive Z; vertices : gmap positive vertex; vertex_list : list vertex_ptr; next_vertex : positive;
  live_nexthops : gset positive; next_nexthop : positive; root : vertex_ptr;
  transit : bool; shortcut_capability : Z; abr_count : Z; asbr_count : Z; spf_calculation : Z;
  new_table : gmap (Z * Z) ospf_route; new_rtrs : gmap Z (list ospf_route);
  vlinks : list vl_data; spf_log : list spf_call }.

Definition get_obj (e : area_env) (p : lsa_ptr) : res lsa_object :=
  match lsas_of e !! p with Some o => Ok o | None => Oob end.
Definition get_stat (s : spf) (p : lsa_ptr) : res Z := match stat s !! p with Some z => Ok z | None => Oob end.
Definition get_vertex (s : spf) (x : vertex_ptr) : res vertex :=
  match vertices s !! x with Some v => Ok v | None => Oob end.

Definition set_stats (m : gmap positive Z) (s : spf) : spf :=
  mk_spf m (vertices s) (vertex_list s) (next_vertex s) (live_nexthops s) (next_nexthop s) (root s) (transit s)
    (shortcut_capability s) (abr_count s) (asbr_count s) (spf_calculation s) (new_table s) (new_rtrs s) (vlinks s) (spf_log s).
Definition set_stat (p : lsa_ptr) (z : Z) (s : spf) : spf := set_stats (<[p := z]> (stat s)) s.
Definition set_vertices (m : gmap positive vertex) (s : spf) : spf :=
  mk_spf (stat s) m (vertex_list s) (next_vertex s) (live_nexthops s) (next_nexthop s) (root s) (transit s)
    (shortcut_capability s) (abr_count s) (asbr_count s) (spf_calculation s) (new_table s) (new_rtrs s) (vlinks s) (spf_log s).
Definition set_vertex (x : vertex_ptr) (v : vertex) (s : spf) : spf := set_vertices (<[x := v]> (vertices s)) s.
Definition set_vertex_list (l : list vertex_ptr) (s : spf) : spf :=
  mk_spf (stat s) (vertices s) l (next_vertex s) (live_nexthops s) (next_nexthop s) (root s) (transit s)
    (shortcut_capability s) (abr_count s) (asbr_count s) (spf_calculation s) (new_table s) (new_rtrs s) (vlinks s) (spf_log s).
Definition set_next_vertex (n : positive) (s : spf) : spf :=
  mk_spf (stat s) (vertices s) (vertex_list s) n (live_nexthops s) (next_nexthop s) (root s) (transit s)
    (shortcut_capability s) (abr_count s) (asbr_count s) (spf_calculation s) (new_table s) (new_rtrs s) (vlinks s) (spf_log s).
Definition set_nexthops (live : gset positive) (n : positive) (s : spf) : spf :=
  mk_spf (stat s) (vertices s) (vertex_list s) (next_vertex s) live n (root s) (transit s)
    (shortcut_capability s) (abr_count s) (asbr_count s) (spf_calculation s) (new_table s) (new_rtrs s) (vlinks s) (spf_log s).
Definition set_root (x : vertex_ptr) (s : spf) : spf :=
  mk_spf (stat s) (vertices s) (vertex_list s) (next_vertex s) (live_nexthops s) (next_nexthop s) x (transit s)
    (shortcut_capability s) (abr_count s) (asbr_count s) (spf_calculation s) (new_table s) (new_rtrs s) (vlinks s) (spf_log s).
Definition set_transit (b : bool) (s : spf) : spf :=
  mk_spf (stat s) (vertices s) (vertex_list s) (next_vertex s) (live_nexthops s) (next_nexthop s) (root s) b
    (shortcut_capability s) (abr_count s) (asbr_count s) (spf_calculation s) (new_table s) (new_rtrs s) (vlinks s) (spf_log s).
Definition set_shortcut (z : Z) (s : spf) : spf :=
  mk_spf (stat s) (vertices s) (vertex_list s) (next_vertex s) (live_nexthops s) (next_nexthop s) (root s) (transit s)
    z (abr_count s) (asbr_count s) (spf_calculation s) (new_table s) (new_rtrs s) (vlinks s) (spf_log s).
Definition set_counts (abr asbr : Z) (s : spf) : spf :=
  mk_spf (stat s) (vertices s) (vertex_list s) (next_vertex s) (live_nexthops s) (next_nexthop s) (root s) (transit s)
    (shortcut_capability s) abr asbr (spf_calculation s) (new_table s) (new_rtrs s) (vlinks s) (spf_log s).
Definition set_calculation (n : Z) (s : spf) : spf :=
  mk_spf (stat s) (vertices s) (vertex_list s) (next_vertex s) (live_nexthops s) (next_nexthop s) (root s) (transit s)
    (shortcut_capability s) (abr_count s) (asbr_count s) n (new_table s) (new_rtrs s) (vlinks s) (spf_log s).
Definition set_table (m : gmap (Z * Z) ospf_route) (s : spf) : spf :=
  mk_spf (stat s) (vertices s) (vertex_list s) (next_vertex s) (live_nexthops s) (next_nexthop s) (root s) (transit s)
    (shortcut_capability s) (abr_count s) (asbr_count s) (spf_calculation s) m (new_rtrs s) (vlinks s) (spf_log s).
Definition set_rtrs (m : gmap Z (list ospf_route)) (s : spf) : spf :=
  mk_spf (stat s) (vertices s) (vertex_list s) (next_vertex s) (live_nexthops s) (next_nexthop s) (root s) (transit s)
    (shortcut_capability s) (abr_count s) (asbr_count s) (spf_calculation s) (new_table s) m (vlinks s) (spf_log s).
Definition set_vlinks (l : list vl_data) (log : list spf_call) (s : spf) : spf :=
  mk_spf (stat s) (vertices s) (vertex_list s) (next_vertex s) (live_nexthops s) (next_nexthop s) (root s) (transit s)
    (shortcut_capability s) (abr_count s) (asbr_count s) (spf_calculation s) (new_table s) (new_rtrs s) l log.

Definition set_distance (d : Z) (v : vertex) : vertex :=
  mk_vertex (v_flags v) (v_type v) (v_id v) (v_lsa v) d (parents v) (children v).
Definition set_parents (l : list vertex_parent) (v : vertex) : vertex :=
  mk_vertex (v_flags v) (v_type v) (v_id v) (v_lsa v) (distance v) l (children v).
Definition set_children (l : list vertex_ptr) (v : vertex) : vertex :=
  mk_vertex (v_flags v) (v_type v) (v_id v) (v_lsa v) (distance v) (parents v) l.
Definition set_v_flags (f : Z) (v : vertex) : vertex :=
  mk_vertex f (v_type v) (v_id v) (v_lsa v) (distance v) (parents v) (children v).

(** The LSA of a vertex. *)
Definition vertex_obj (e : area_env) (v : vertex) : res lsa_object := get_obj e (v_lsa v).

(** ** Interface and virtual link lookups (ospfd/ospf_interface.c) *)

Fixpoint ospf_if_is_configured (l : list spf_if) (address : Z) : option spf_if :=
  match l with
  | [] => None
  | oi :: r =>
      if negb (if_type oi =? OSPF_IFTYPE_VIRTUALLINK) then
        if if_type oi =? OSPF_IFTYPE_POINTOPOINT then
          if prefix_match (if_connected oi) (ipv4_prefix address IPV4_MAX_PREFIXLEN) then Some oi
          else ospf_if_is_configured r address
        else if address =? prefix4_val (if_address oi) then Some oi
        else ospf_if_is_configured r address
      else ospf_if_is_configured r address
  end.

(** [ospf_if_lookup_by_local_addr (ospf, NULL, address)] *)
Fixpoint ospf_if_lookup_by_local_addr (l : list spf_if) (address : Z) : option spf_if :=
  match l with
  | [] => None
  | oi :: r =>
      if negb (if_type oi =? OSPF_IFTYPE_VIRTUALLINK) && (address =? prefix4_val (if_address oi)) then Some oi
      else ospf_if_lookup_by_local_addr r address
  end.

Fixpoint ospf_if_lookup_by_prefix (l : list spf_if) (p : prefix) : res (option spf_if) :=
  match l with
  | [] => Ok None
  | oi :: r =>
      if negb (if_type oi =? OSPF_IFTYPE_VIRTUALLINK) then
        ptmp ← prefix_copy (mk_prefix 0 0 (replicate 16 0)) (if_connected oi);
        ptmp ← apply_mask ptmp;
        if prefix_same ptmp p then Ok (Some oi) else ospf_if_lookup_by_prefix r p
      else ospf_if_lookup_by_prefix r p
  end.

(** [ospf_vl_lookup (ospf, area, vl_peer)], [area] being NULL in the calculation. *)
Fixpoint ospf_vl_lookup (l : list vl_data) (area : option Z) (peer : Z) : option vl_data :=
  match l with
  | [] => None
  | vl :: r =>
      if match area with Some a => negb (vl_area_id vl =? a) | None => false end then ospf_vl_lookup r area peer
      else if vl_peer vl =? peer then Some vl
      else ospf_vl_lookup r area peer
  end.
