(* ===== verification/OspfRoute.v ===== *)
(** * Intra-area routes (ospfd/ospf_route.c) and virtual links found up (ospfd/ospf_interface.c)

    What the shortest path calculation does with a vertex that joins the tree: the routes to routers, transit
    networks and stub networks, and the virtual links whose end point it is.  A route table entry is
    keyed by its prefix: address (masked) and length. *)

From S2P Require Import Prelude Prefix OspfLsdb OspfNeighbor OspfLsaWire OspfSpfTypes.
Local Open Scope Z_scope.

(** ** Paths *)

Fixpoint ospf_path_exist (plist : list ospf_path) (nexthop : Z) (oi : spf_if) : bool :=
  match plist with
  | [] => false
  | path :: r =>
      if (p_nexthop path =? nexthop) && (p_ifindex path =? if_ifindex oi) then true
      else ospf_path_exist r nexthop oi
  end.

(** [ospf_route_copy_nexthops_from_vertex]: the paths of the route after the parents [ps] of the vertex. *)
Fixpoint copy_nexthops_from (paths : list ospf_path) (ps : list vertex_parent) : list ospf_path :=
  match ps with
  | [] => paths
  | vp :: r =>
      match nh_oi (nexthop vp) with
      | None => copy_nexthops_from paths r
      | Some oi =>
          if negb (ospf_path_exist paths (nh_router (nexthop vp)) oi)
          then copy_nexthops_from (paths ++ [mk_path (nh_router (nexthop vp)) 0 (if_ifindex oi)]) r
          else copy_nexthops_from paths r
      end
  end.

Definition ospf_route_copy_nexthops_from_vertex (to : ospf_route) (v : vertex) : ospf_route :=
  mk_route (r_type to) (r_id to) (r_path_type to) (copy_nexthops_from (r_paths to) (parents v)) (r_cost to)
    (r_origin to) (r_area_id to) (r_external_routing to) (r_options to) (r_flags to).

Definition set_paths (l : list ospf_path) (r : ospf_route) : ospf_route :=
  mk_route (r_type r) (r_id r) (r_path_type r) l (r_cost r) (r_origin r) (r_area_id r) (r_external_routing r) (r_options r) (r_flags r).
Definition set_cost (c : Z) (r : ospf_route) : ospf_route :=
  mk_route (r_type r) (r_id r) (r_path_type r) (r_paths r) c (r_origin r) (r_area_id r) (r_external_routing r) (r_options r) (r_flags r).
Definition set_origin (p : lsa_ptr) (r : ospf_route) : ospf_route :=
  mk_route (r_type r) (r_id r) (r_path_type r) (r_paths r) (r_cost r) p (r_area_id r) (r_external_routing r) (r_options r) (r_flags r).

(** [ospf_route_new] is zeroed memory with an empty list of paths. *)
Definition ospf_route_new (ty id cost : Z) (origin : lsa_ptr) (area ext options flags : Z) : ospf_route :=
  mk_route ty id OSPF_PATH_INTRA_AREA [] cost origin area ext options flags.

(** [p.prefix = addr; p.prefixlen = ip_masklen (mask); apply_mask_ipv4 (&p)], as the key of a table. *)
Definition masked_prefix (addr mask : Z) : res prefix :=
  apply_mask_ipv4 (ipv4_prefix addr (ip_masklen (be_bytes 4 mask))).
Definition table_key (p : prefix) : Z * Z := (prefix4_val p, prefixlen p).

(** ** Virtual links *)

(** The fallback of [ospf_vl_set_params]: the last link of one of the three types gives the peer's address. *)
Fixpoint any_link_loop (fuel : nat) (o : lsa_object) (links i : Z) (peer : Z) (changed : bool) : res (Z * bool) :=
  match fuel with
  | O => Oob
  | S fuel =>
      if i <? links then
        l ← rd_link o (links_start + 12 * i);
        if (l_type l =? LSA_LINK_TYPE_VIRTUALLINK) || (l_type l =? LSA_LINK_TYPE_TRANSIT) || (l_type l =? LSA_LINK_TYPE_POINTOPOINT)
        then any_link_loop fuel o links (i + 1) (link_data l) (changed || negb (peer =? link_data l))
        else any_link_loop fuel o links (i + 1) peer changed
      else Ok (peer, changed)
  end.

Definition ospf_vl_set_params (o : lsa_object) (vl : vl_data) (v : vertex) : res (vl_data * bool) :=
  let changed := negb (vl_output_cost vl =? distance v) in
  '(vl, changed, vp) ←
    match parents v with
    | [] => Ok (mk_vl (vl_peer vl) (vl_area_id vl) (vl_flags vl) (vl_nexthop_oi vl) (vl_nexthop_router vl) (peer_addr vl)
                  (vl_state vl) (distance v) (vl_address vl), changed, None)
    | vp :: _ =>
        match nh_oi (nexthop vp) with
        | None => Oob
        | Some oi =>
            let changed := changed || negb (prefix4_val (vl_address vl) =? prefix4_val (if_address oi)) in
            let address := mk_prefix (family (vl_address vl)) (prefixlen (if_address oi))
                             (prefix4 (if_address oi) ++ drop 4 (u (vl_address vl))) in
            Ok (mk_vl (vl_peer vl) (vl_area_id vl) (vl_flags vl) (Some oi) (nh_router (nexthop vp)) (peer_addr vl)
                  (vl_state vl) (distance v) address, changed, Some vp)
        end
    end;
  '(peer, changed) ←
    match vp with
    | Some vp =>
        if 0 <=? backlink vp then
          l ← rd_link o (links_start + 12 * backlink vp);
          Ok (link_data l, changed || negb (peer_addr vl =? link_data l))
        else links ← lget 2 o 22; any_link_loop (lsa_fuel o) o links 0 (peer_addr vl) changed
    | None => links ← lget 2 o 22; any_link_loop (lsa_fuel o) o links 0 (peer_addr vl) changed
    end;
  Ok (mk_vl (vl_peer vl) (vl_area_id vl) (vl_flags vl) (vl_nexthop_oi vl) (vl_nexthop_router vl) peer
        (vl_state vl) (vl_output_cost vl) (vl_address vl), changed).

(** [ospf_vl_up_check (area, rid, v)] over the list of virtual links: the links and the calls that are made.
    [ISM_InterfaceUp] brings the interface of a virtual link to PointToPoint (file OspfSteps). *)
Fixpoint ospf_vl_up_check (e : area_env) (o : lsa_object) (rid : Z) (v : vertex) (l : list vl_data) (log : list spf_call)
  : res (list vl_data * list spf_call) :=
  match l with
  | [] => Ok ([], log)
  | vl :: r =>
      '(vl, log) ←
        (if (vl_peer vl =? rid) && (vl_area_id vl =? area_id e) then
           let down := vl_state vl =? ISM_Down in
           let log := if down then log ++ [Vl_interface_up (vl_peer vl)] else log in
           let vl := mk_vl (vl_peer vl) (vl_area_id vl) (SET_FLAG (vl_flags vl) OSPF_VL_FLAG_APPROVED) (vl_nexthop_oi vl)
                       (vl_nexthop_router vl) (peer_addr vl) (if down then ISM_PointToPoint else vl_state vl)
                       (vl_output_cost vl) (vl_address vl) in
           '(vl, changed) ← ospf_vl_set_params o vl v;
           Ok (vl, if changed && has_backbone e then log ++ [Backbone_router_lsa_update] else log)
         else Ok (vl, log));
      '(r, log) ← ospf_vl_up_check e o rid v r log;
      Ok (vl :: r, log)
  end.

(** ** RFC 2328 16.1 (4) *)

Definition ospf_intra_add_router (e : area_env) (v : vertex) (s : spf) : res spf :=
  o ← vertex_obj e v;
  s ← (if negb (is_backbone e) then
         '(l, log) ← ospf_vl_up_check e o (lo_id o) v (vlinks s) (spf_log s);
         Ok (set_vlinks l log s)
       else Ok s);
  fl ← lget 1 o 20;
  let s := if negb (CHECK_FLAG fl ROUTER_LSA_SHORTCUT) then set_shortcut 0 s else s in
  if negb (CHECK_FLAG fl ROUTER_LSA_BORDER) && negb (CHECK_FLAG fl ROUTER_LSA_EXTERNAL) then Ok s
  else
    let abr := if CHECK_FLAG fl ROUTER_LSA_BORDER then abr_count s + 1 else abr_count s in
    let asbr := if CHECK_FLAG fl ROUTER_LSA_EXTERNAL then asbr_count s + 1 else asbr_count s in
    let s := set_counts abr asbr s in
    let or := ospf_route_new OSPF_DESTINATION_ROUTER (v_id v) (distance v) (v_lsa v) (area_id e) (external_routing e)
                (ls_options (data (lo_lsa o))) fl in
    let or := ospf_route_copy_nexthops_from_vertex or v in
    Ok (set_rtrs (<[v_id v := default [] (new_rtrs s !! v_id v) ++ [or]]> (new_rtrs s)) s).

Definition ospf_intra_add_transit (e : area_env) (v : vertex) (s : spf) : res spf :=
  o ← vertex_obj e v;
  mask ← lget 4 o 20;
  p ← masked_prefix (v_id v) mask;
  keep ← match new_table s !! table_key p with
         | Some cur => co ← get_obj e (r_origin cur); Ok ((distance v >? r_cost cur) || (lo_id co >? lo_id o))
         | None => Ok false
         end;
  if keep : bool then Ok s
  else
    let or := ospf_route_new OSPF_DESTINATION_NETWORK (v_id v) (distance v) (v_lsa v) (area_id e) (external_routing e) 0 0 in
    Ok (set_table (<[table_key p := ospf_route_copy_nexthops_from_vertex or v]> (new_table s)) s).

(** RFC 2328 16.1, second stage.  [is_root]: [v == area->spf]. *)
Definition ospf_intra_add_stub (e : area_env) (l : router_lsa_link) (v : vertex) (is_root parent_is_root : bool) (s : spf) : res spf :=
  o ← vertex_obj e v;
  p ← masked_prefix (link_id l) (link_data l);
  let cost := u32 (distance v + metric l) in
  if parent_is_root && (link_data l =? 0xffffffff) && bool_decide (is_Some (ospf_if_lookup_by_local_addr (oiflist e) (link_id l))) then Ok s
  else
    match new_table s !! table_key p with
    | Some cur =>
        if cost >? r_cost cur then Ok s
        else if cost =? r_cost cur then
          let cur := ospf_route_copy_nexthops_from_vertex cur v in
          co ← get_obj e (r_origin cur);
          let cur := if lo_id co <? lo_id o then set_origin (v_lsa v) cur else cur in
          Ok (set_table (<[table_key p := cur]> (new_table s)) s)
        else
          let cur := ospf_route_copy_nexthops_from_vertex (set_paths [] (set_cost cost cur)) v in
          Ok (set_table (<[table_key p := set_origin (v_lsa v) cur]> (new_table s)) s)
    | None =>
        let or := ospf_route_new OSPF_DESTINATION_NETWORK (v_id v) cost (v_lsa v) (area_id e) (external_routing e) 0 0 in
        or ← (if negb is_root then Ok (ospf_route_copy_nexthops_from_vertex or v)
              else
                oi ← ospf_if_lookup_by_prefix (oiflist e) p;
                Ok (match oi with Some oi => set_paths [mk_path 0 0 (if_ifindex oi)] or | None => or end));
        Ok (set_table (<[table_key p := or]> (new_table s)) s)
    end.
