(* ===== verification/OspfSpf.v ===== *)
(** * Shortest path first (ospfd/ospf_spf.c)

    The calculation of the shortest path tree of an area (RFC 2328 16.1) over the link state database:
    the candidates are kept in a priority queue (file Pqueue) whose elements are the vertices, compared by
    their current distance, and whose [update] callback records the position of a vertex in [lsa->stat].
    [unsigned int] distances wrap at 32 bits.  [cmp] and [update_stat] cannot fail in the model of the queue:
    on a pointer that is not a vertex, [cmp] answers as it does for NULL and [update_stat] does nothing; the
    proofs show that only live vertices are compared and updated.  Debug output is left out. *)

From stdpp Require Import sorting.
From S2P Require Import Prelude Prefix OspfLsdb OspfNeighbor OspfLsaWire OspfSpfTypes OspfRoute Pqueue.
Local Open Scope Z_scope.

(** ** The candidate queue *)

Definition cmp (vs : gmap positive vertex) (node1 node2 : vertex_ptr) : Z :=
  match vs !! node1, vs !! node2 with
  | Some v1, Some v2 =>
      if (u32 (distance v1 - distance v2) =? 0) && negb (v_type v1 =? v_type v2) then
        if v_type v1 =? OSPF_VERTEX_NETWORK then -1
        else if v_type v1 =? OSPF_VERTEX_ROUTER then 1
        else 0
      else signed 32 (distance v1 - distance v2)
  | _, _ => 0
  end.

Definition update_stat : option (vertex_ptr -> Z -> spf -> spf) :=
  Some (fun node position s =>
    match vertices s !! node with Some v => set_stat (v_lsa v) position s | None => s end).

Notation pqueue := (@Pqueue.pqueue vertex_ptr) (only parsing).

(** ** Vertices *)

Definition vertex_nexthop_new (oi : option spf_if) (router : Z) (s : spf) : vertex_nexthop * spf :=
  (mk_nexthop (next_nexthop s) oi router,
   set_nexthops ({[next_nexthop s]} ∪ live_nexthops s) (Pos.succ (next_nexthop s)) s).

Definition vertex_nexthop_free (nh : vertex_nexthop) (s : spf) : res spf :=
  if decide (nh_id nh ∈ live_nexthops s) then Ok (set_nexthops (live_nexthops s ∖ {[nh_id nh]}) (next_nexthop s) s)
  else Oob.

Definition ospf_vertex_new (e : area_env) (lsa : lsa_ptr) (s : spf) : res (vertex_ptr * spf) :=
  o ← get_obj e lsa;
  let new := next_vertex s in
  let s := set_vertex new (mk_vertex 0 (lo_type o) (lo_id o) lsa 0 [] []) s in
  Ok (new, set_vertex_list (vertex_list s ++ [new]) (set_next_vertex (Pos.succ new) s)).

(** The loop of [ospf_vertex_add_parent] over the parents [ps] of [x]. *)
Fixpoint vertex_add_parents (x : vertex_ptr) (ps : list vertex_parent) (s : spf) : res spf :=
  match ps with
  | [] => Ok s
  | vp :: r =>
      pv ← get_vertex s (parent vp);
      let s := if bool_decide (x ∈ children pv) then s
               else set_vertex (parent vp) (set_children (children pv ++ [x]) pv) s in
      vertex_add_parents x r s
  end.
Definition ospf_vertex_add_parent (x : vertex_ptr) (s : spf) : res spf :=
  v ← get_vertex s x; vertex_add_parents x (parents v) s.

Definition ospf_spf_init (e : area_env) (self : lsa_ptr) (s : spf) : res spf :=
  '(v, s) ← ospf_vertex_new e self s;
  Ok (set_counts 0 0 (set_root v s)).

(** [ospf_spf_flush_parents] deletes the parents; the next hops they hold are not freed. *)
Definition ospf_spf_flush_parents (w : vertex) : vertex := set_parents [] w.

Definition ospf_spf_add_parent (e : area_env) (xv xw : vertex_ptr) (newhop : vertex_nexthop) (dist : Z) (s : spf) : res spf :=
  v ← get_vertex s xv;
  w ← get_vertex s xw;
  _ ← c_assert (negb (dist =? 0));
  w ← (if negb (distance w =? 0) then _ ← c_assert (dist <=? distance w); Ok w else Ok (set_distance dist w));
  let w := if dist <? distance w then set_distance dist (ospf_spf_flush_parents w) else w in
  ow ← vertex_obj e w;
  ov ← vertex_obj e v;
  bl ← ospf_lsa_has_link ow ov;
  Ok (set_vertex xw (set_parents (parents w ++ [mk_vp newhop xv bl]) w) s).

(** ** RFC 2328 16.1.1: next hops *)

(** [while ((l2 = ospf_get_next_link (w, v, l2)))] for a point-to-multipoint interface [oi]. *)
Fixpoint ptmp_link_loop (fuel : nat) (ow : lsa_object) (v : vertex) (oi : spf_if) (l2 : option router_lsa_link)
  : res (option router_lsa_link) :=
  match fuel with
  | O => Oob
  | S fuel =>
      l2 ← ospf_get_next_link ow (v_type v) (v_id v) l2;
      match l2 with
      | None => Ok None
      | Some l => if prefix_cmp (ipv4_prefix (link_data l) (prefixlen (if_address oi))) (if_address oi) =? 0 then Ok (Some l)
                  else ptmp_link_loop fuel ow v oi (Some l)
      end
  end.

(** The same loop for a regular point-to-point link [l]: the link back and the interface it gives. *)
Fixpoint ptp_link_loop (fuel : nat) (oifs : list spf_if) (ow : lsa_object) (v : vertex) (l : router_lsa_link) (l2 : option router_lsa_link)
  : res (option (spf_if * router_lsa_link)) :=
  match fuel with
  | O => Oob
  | S fuel =>
      l2 ← ospf_get_next_link ow (v_type v) (v_id v) l2;
      match l2 with
      | None => Ok None
      | Some k =>
          match ospf_if_is_configured oifs (link_data k) with
          | None => ptp_link_loop fuel oifs ow v l (Some k)
          | Some oi => if negb (prefix4_val (if_address oi) =? link_data l) then ptp_link_loop fuel oifs ow v l (Some k)
                       else Ok (Some (oi, k))
          end
      end
  end.

(** The next hop to [w] over the link [l] of the root, whose vertex is [v]: interface and router. *)
Definition root_nexthop (e : area_env) (vls : list vl_data) (v w : vertex) (l : option router_lsa_link) : res (option (option spf_if * Z)) :=
  if v_type w =? OSPF_VERTEX_ROUTER then
    match l with
    | None => Abort
    | Some l =>
        if l_type l =? LSA_LINK_TYPE_POINTOPOINT then
          ow ← vertex_obj e w;
          r ← match ospf_if_is_configured (oiflist e) (link_data l) with
              | Some oi =>
                  if if_type oi =? OSPF_IFTYPE_POINTOMULTIPOINT then
                    l2 ← ptmp_link_loop (lsa_fuel ow) ow v oi None; Ok (option_map (fun k => (oi, k)) l2)
                  else ptp_link_loop (lsa_fuel ow) (oiflist e) ow v l None
              | None => ptp_link_loop (lsa_fuel ow) (oiflist e) ow v l None
              end;
          Ok (option_map (fun '(oi, k) => (Some oi, link_data k)) r)
        else if l_type l =? LSA_LINK_TYPE_VIRTUALLINK then
          match ospf_vl_lookup vls None (link_id l) with
          | Some vl => if CHECK_FLAG (vl_flags vl) OSPF_VL_FLAG_APPROVED then Ok (Some (vl_nexthop_oi vl, vl_nexthop_router vl)) else Ok None
          | None => Ok None
          end
        else Ok None
    end
  else
    _ ← c_assert (v_type w =? OSPF_VERTEX_NETWORK);
    match l with
    | None => Oob
    | Some l =>
        match ospf_if_is_configured (oiflist e) (link_data l) with
        | Some oi => Ok (Some (Some oi, 0))
        | None => Ok None
        end
    end.

(** [while ((l = ospf_get_next_link (w, v, l)))]: a next hop for every link of [w] back to the network [v], through [oi]. *)
Fixpoint network_links_loop (fuel : nat) (e : area_env) (xv xw : vertex_ptr) (v : vertex) (ow : lsa_object) (oi : option spf_if)
    (l : option router_lsa_link) (dist : Z) (added : bool) (s : spf) : res (bool * spf) :=
  match fuel with
  | O => Oob
  | S fuel =>
      l ← ospf_get_next_link ow (v_type v) (v_id v) l;
      match l with
      | None => Ok (added, s)
      | Some k =>
          let '(nh, s) := vertex_nexthop_new oi (link_data k) s in
          s ← ospf_spf_add_parent e xv xw nh dist s;
          network_links_loop fuel e xv xw v ow oi (Some k) dist true s
      end
  end.

(** The loop over the parents [ps] of the network [v]; [l] is NULL before and after every round. *)
Fixpoint network_parents_loop (e : area_env) (xv xw : vertex_ptr) (v : vertex) (ps : list vertex_parent) (l : option router_lsa_link)
    (dist : Z) (added : bool) (s : spf) : res (bool * spf) :=
  match ps with
  | [] => Ok (added, s)
  | vp :: r =>
      if decide (parent vp = root s) then
        w ← get_vertex s xw;
        _ ← c_assert (v_type w =? OSPF_VERTEX_ROUTER);
        ow ← vertex_obj e w;
        '(added, s) ← network_links_loop (lsa_fuel ow) e xv xw v ow (nh_oi (nexthop vp)) l dist added s;
        network_parents_loop e xv xw v r None dist added s
      else network_parents_loop e xv xw v r l dist added s
  end.

(** [ospf_spf_add_parent (v, w, vp->nexthop, distance)] for every parent of [v]. *)
Fixpoint inherit_parents_loop (e : area_env) (xv xw : vertex_ptr) (ps : list vertex_parent) (dist : Z) (added : bool) (s : spf)
  : res (bool * spf) :=
  match ps with
  | [] => Ok (added, s)
  | vp :: r =>
      s ← ospf_spf_add_parent e xv xw (nexthop vp) dist s;
      inherit_parents_loop e xv xw r dist true s
  end.

Definition ospf_nexthop_calculation (e : area_env) (xv xw : vertex_ptr) (l : option router_lsa_link) (dist : Z) (s : spf)
  : res (bool * spf) :=
  v ← get_vertex s xv;
  w ← get_vertex s xw;
  if decide (xv = root s) then
    r ← root_nexthop e (vlinks s) v w l;
    match r with
    | Some (oi, router) =>
        let '(nh, s) := vertex_nexthop_new oi router s in
        s ← ospf_spf_add_parent e xv xw nh dist s;
        Ok (true, s)
    | None => Ok (false, s)
    end
  else
    '(added, s) ← (if v_type v =? OSPF_VERTEX_NETWORK then network_parents_loop e xv xw v (parents v) l dist false s
                   else Ok (false, s));
    if added : bool then Ok (true, s)
    else inherit_parents_loop e xv xw (parents v) dist false s.

(** ** RFC 2328 16.1 (2): the links of a vertex *)

(** The order in which [route_next] walks a table of the database. *)
Definition key_le (a b : (Z * Z) * lsa_ptr) : Prop := a.1.1 < b.1.1 \/ a.1.1 = b.1.1 /\ a.1.2 <= b.1.2.
Global Instance key_le_dec a b : Decision (key_le a b).
Proof. unfold key_le. apply _. Defined.

Fixpoint find_id (e : area_env) (l : list ((Z * Z) * lsa_ptr)) (id : Z) : res (option lsa_ptr) :=
  match l with
  | [] => Ok None
  | (_, p) :: r => o ← get_obj e p; if lo_id o =? id then Ok (Some p) else find_id e r id
  end.

(** [ospf_lsa_lookup_by_id] for router-LSAs and network-LSAs. *)
Definition ospf_lsa_lookup_by_id (e : area_env) (ty id : Z) : res (option lsa_ptr) :=
  if ty =? OSPF_ROUTER_LSA then ospf_lsdb_lookup_by_id (lsdb_of e) ty id id
  else if ty =? OSPF_NETWORK_LSA then
    m ← get_table (lsdb_of e) OSPF_NETWORK_LSA;
    find_id e (merge_sort key_le (map_to_list m)) id
  else Ok None.

Definition OSPF_OUTPUT_COST_INFINITE : Z := 65535.

(** [ntohs], on a little-endian host. *)
Definition swap16 (x : Z) : Z := Z.lor (Z.shiftl (Z.land x 255) 8) (Z.shiftr x 8).

(** The LSA that the link [l] of a router vertex leads to, if the link is to be followed.  The metric is compared with
    the infinite cost as it is in memory. *)
Definition link_lsa (e : area_env) (is_root : bool) (l : router_lsa_link) : res (option lsa_ptr) :=
  if l_type l =? LSA_LINK_TYPE_STUB then Ok None
  else if negb is_root && (OSPF_OUTPUT_COST_INFINITE <=? swap16 (metric l)) then Ok None
  else if (l_type l =? LSA_LINK_TYPE_POINTOPOINT) || (l_type l =? LSA_LINK_TYPE_VIRTUALLINK) then
    ospf_lsdb_lookup_by_id (lsdb_of e) OSPF_ROUTER_LSA (link_id l) (link_id l)
  else if l_type l =? LSA_LINK_TYPE_TRANSIT then ospf_lsa_lookup_by_id e OSPF_NETWORK_LSA (link_id l)
  else Ok None.

(** (b cont.): the LSA found is not at MaxAge and has a link back. *)
Definition usable_lsa (e : area_env) (ov : lsa_object) (w_lsa : lsa_ptr) : res bool :=
  o ← get_obj e w_lsa;
  if IS_LSA_MAXAGE (now e) (lo_lsa o) then Ok false
  else b ← ospf_lsa_has_link o ov; Ok (0 <=? b).

(** (c), (d): the vertex of [w_lsa] is at distance [dist] through [xv]. *)
Definition spf_relax (e : area_env) (xv : vertex_ptr) (l : option router_lsa_link) (w_lsa : lsa_ptr) (dist : Z) (candidate : pqueue) (s : spf)
  : res (pqueue * spf) :=
  st ← get_stat s w_lsa;
  if st =? LSA_SPF_NOT_EXPLORED then
    '(w, s) ← ospf_vertex_new e w_lsa s;
    '(added, s) ← ospf_nexthop_calculation e xv w l dist s;
    if added : bool then pqueue_enqueue NULL (cmp (vertices s)) update_stat w candidate s else Ok (candidate, s)
  else if 0 <=? st then
    xw ← Pqueue.rd (array candidate) (Z.to_nat st);
    w ← get_vertex s xw;
    if distance w <? dist then Ok (candidate, s)
    else if distance w =? dist then
      '(_, s) ← ospf_nexthop_calculation e xv xw l dist s; Ok (candidate, s)
    else
      '(added, s) ← ospf_nexthop_calculation e xv xw l dist s;
      if added : bool then
        st ← get_stat s w_lsa;
        if st <? 0 then Oob else trickle_up (cmp (vertices s)) update_stat (Z.to_nat st) candidate s
      else Ok (candidate, s)
  else Ok (candidate, s).

(** One link of [v]: the LSA it leads to and the cost, or [None]. *)
Definition spf_examine (e : area_env) (xv : vertex_ptr) (v : vertex) (ov : lsa_object) (l : option router_lsa_link) (w_lsa : option lsa_ptr)
    (candidate : pqueue) (s : spf) : res (pqueue * spf) :=
  match w_lsa with
  | None => Ok (candidate, s)
  | Some w_lsa =>
      ok ← usable_lsa e ov w_lsa;
      if negb ok then Ok (candidate, s)
      else
        st ← get_stat s w_lsa;
        if st =? LSA_SPF_IN_SPFTREE then Ok (candidate, s)
        else
          let dist := match l with Some l => u32 (distance v + metric l) | None => distance v end in
          spf_relax e xv l w_lsa dist candidate s
  end.

Fixpoint spf_next_router_loop (fuel : nat) (e : area_env) (xv : vertex_ptr) (v : vertex) (ov : lsa_object) (p : Z) (candidate : pqueue) (s : spf)
  : res (pqueue * spf) :=
  match fuel with
  | O => Oob
  | S fuel =>
      if p <? lo_length ov then
        l ← rd_link ov p;
        w_lsa ← link_lsa e (bool_decide (xv = root s)) l;
        '(candidate, s) ← spf_examine e xv v ov (Some l) w_lsa candidate s;
        spf_next_router_loop fuel e xv v ov (link_end l) candidate s
      else Ok (candidate, s)
  end.

Fixpoint spf_next_network_loop (fuel : nat) (e : area_env) (xv : vertex_ptr) (v : vertex) (ov : lsa_object) (p : Z) (candidate : pqueue) (s : spf)
  : res (pqueue * spf) :=
  match fuel with
  | O => Oob
  | S fuel =>
      if p <? lo_length ov then
        r ← lget 4 ov p;
        w_lsa ← ospf_lsa_lookup_by_id e OSPF_ROUTER_LSA r;
        '(candidate, s) ← spf_examine e xv v ov None w_lsa candidate s;
        spf_next_network_loop fuel e xv v ov (p + 4) candidate s
      else Ok (candidate, s)
  end.

Definition ospf_spf_next (e : area_env) (xv : vertex_ptr) (candidate : pqueue) (s : spf) : res (pqueue * spf) :=
  v ← get_vertex s xv;
  ov ← vertex_obj e v;
  s ← (if v_type v =? OSPF_VERTEX_ROUTER then
         fl ← lget 1 ov 20;
         Ok (if CHECK_FLAG fl ROUTER_LSA_VIRTUAL then set_transit true s else s)
       else Ok s);
  if lo_type ov =? OSPF_ROUTER_LSA then spf_next_router_loop (lsa_fuel ov) e xv v ov links_start candidate s
  else spf_next_network_loop (lsa_fuel ov) e xv v ov links_start candidate s.

(** ** The calculation *)

Definition clean_table (m : gmap (Z * Z) lsa_ptr) (st : gmap positive Z) : gmap positive Z :=
  map_fold (fun _ p st => <[p := LSA_SPF_NOT_EXPLORED]> st) st m.

(** The loop of [ospf_lsdb_clean_stat] over the types. *)
Fixpoint clean_types (d : ospf_lsdb) (is_ : list Z) (st : gmap positive Z) : res (gmap positive Z) :=
  match is_ with
  | [] => Ok st
  | i :: r => m ← get_table d i; clean_types d r (clean_table m st)
  end.
Definition ospf_lsdb_clean_stat (d : ospf_lsdb) (st : gmap positive Z) : res (gmap positive Z) := clean_types d lsa_types st.

(** The loop of [ospf_spf_calculate]: [v] has joined the tree.  Every turn adds one LSA to the tree. *)
Fixpoint spf_loop (fuel : nat) (e : area_env) (xv : vertex_ptr) (candidate : pqueue) (s : spf) : res spf :=
  match fuel with
  | O => Oob
  | S fuel =>
      '(candidate, s) ← ospf_spf_next e xv candidate s;
      if Nat.eqb (Pqueue.size candidate) 0 then Ok s
      else
        '(x, candidate, s) ← pqueue_dequeue (cmp (vertices s)) update_stat candidate s;
        v ← get_vertex s x;
        let s := set_stat (v_lsa v) LSA_SPF_IN_SPFTREE s in
        s ← ospf_vertex_add_parent x s;
        v ← get_vertex s x;
        s ← (if v_type v =? OSPF_VERTEX_ROUTER then ospf_intra_add_router e v s else ospf_intra_add_transit e v s);
        spf_loop fuel e x candidate s
  end.

(** The root is on the tree. *)
Definition spf_start (e : area_env) (self : lsa_ptr) (s : spf) : res spf :=
  st ← ospf_lsdb_clean_stat (lsdb_of e) (stat s);
  s ← ospf_spf_init e self (set_stats st s);
  v ← get_vertex s (root s);
  let s := set_stat (v_lsa v) LSA_SPF_IN_SPFTREE s in
  Ok (set_shortcut 1 (set_transit false s)).

(** First stage: the tree, with the routes to its routers and transit networks. *)
Definition spf_tree (e : area_env) (self : lsa_ptr) (s : spf) : res spf :=
  s ← spf_start e self s;
  spf_loop (S (base.size (lsas_of e))) e (root s) (pqueue_create NULL) s.

(** ** Second stage: stub networks *)

Fixpoint stub_links_loop (fuel : nat) (e : area_env) (is_root : bool) (v : vertex) (ov : lsa_object) (p : Z) (parent_is_root : bool) (s : spf)
  : res spf :=
  match fuel with
  | O => Oob
  | S fuel =>
      if p <? lo_length ov then
        l ← rd_link ov p;
        s ← (if l_type l =? LSA_LINK_TYPE_STUB then ospf_intra_add_stub e l v is_root parent_is_root s else Ok s);
        stub_links_loop fuel e is_root v ov (link_end l) parent_is_root s
      else Ok s
  end.

(** The loop over the children of [x], a vertex of type [vt]; [rec] is the recursive call. *)
Fixpoint stub_children_loop (rec : vertex_ptr -> bool -> spf -> res spf) (x : vertex_ptr) (vt : Z) (cs : list vertex_ptr) (parent_is_root : bool) (s : spf)
  : res spf :=
  match cs with
  | [] => Ok s
  | c :: r =>
      cv ← get_vertex s c;
      if CHECK_FLAG (v_flags cv) OSPF_VERTEX_PROCESSED then stub_children_loop rec x vt r parent_is_root s
      else
        let parent_is_root := if bool_decide (root s = x) then true
                              else if vt =? OSPF_VERTEX_ROUTER then false else parent_is_root in
        s ← rec c parent_is_root s;
        cv ← get_vertex s c;
        stub_children_loop rec x vt r parent_is_root (set_vertex c (set_v_flags (SET_FLAG (v_flags cv) OSPF_VERTEX_PROCESSED) cv) s)
  end.

(** [fuel] bounds the depth of the tree. *)
Fixpoint ospf_spf_process_stubs (fuel : nat) (e : area_env) (x : vertex_ptr) (parent_is_root : bool) (s : spf) : res spf :=
  match fuel with
  | O => Oob
  | S fuel =>
      v ← get_vertex s x;
      s ← (if v_type v =? OSPF_VERTEX_ROUTER then
             ov ← vertex_obj e v;
             stub_links_loop (lsa_fuel ov) e (bool_decide (x = root s)) v ov links_start parent_is_root s
           else Ok s);
      stub_children_loop (ospf_spf_process_stubs fuel e) x (v_type v) (children v) parent_is_root s
  end.

(** ** Cleanup *)

(** The parents [ps] of a child of [x] that point back to [x]. *)
Fixpoint free_parents (x : vertex_ptr) (ps : list vertex_parent) (s : spf) : res spf :=
  match ps with
  | [] => Ok s
  | vp :: r => s ← (if decide (parent vp = x) then vertex_nexthop_free (nexthop vp) s else Ok s); free_parents x r s
  end.

(** The loop over the children of [x]; [rec] is the recursive call. *)
Fixpoint canonical_children_loop (rec : vertex_ptr -> spf -> res spf) (x : vertex_ptr) (cs : list vertex_ptr) (s : spf) : res spf :=
  match cs with
  | [] => Ok s
  | c :: r =>
      cv ← get_vertex s c;
      s ← (if v_type cv =? OSPF_VERTEX_NETWORK then rec c s else Ok s);
      s ← free_parents x (parents cv) s;
      canonical_children_loop rec x r s
  end.

(** [fuel] bounds the depth of the recursion through network vertices. *)
Fixpoint ospf_canonical_nexthops_free (fuel : nat) (x : vertex_ptr) (s : spf) : res spf :=
  match fuel with
  | O => Oob
  | S fuel => v ← get_vertex s x; canonical_children_loop (ospf_canonical_nexthops_free fuel) x (children v) s
  end.

(** [list_delete_all_node (&vertex_list)] frees every vertex. *)
Definition free_vertices (s : spf) : spf :=
  set_vertex_list [] (set_vertices (foldr delete (vertices s) (vertex_list s)) s).

Definition ospf_spf_calculate (e : area_env) (s : spf) : res spf :=
  match router_lsa_self e with
  | None => Ok s
  | Some self =>
      s ← spf_tree e self s;
      s ← ospf_spf_process_stubs (S (base.size (lsas_of e))) e (root s) false s;
      s ← ospf_canonical_nexthops_free (S (base.size (lsas_of e))) (root s) s;
      let s := free_vertices s in
      Ok (set_calculation (spf_calculation s + 1) s)
  end.
