(* ===== verification/PqueueSim.v ===== *)
(** * Priority queues: replacing the comparison and the client's state

    A queue whose comparison is a total preorder only on the elements it holds (machine-width keys, keys that
    are read through pointers) behaves as one whose comparison has the same signs there: every operation gives
    the same queue, and related states of the client stay related. *)

From S2P Require Import Prelude Pqueue PqueueProofs.
Local Open Scope nat_scope.

Section sim.
Context {A St1 St2 : Type} (null : A) (cmp1 cmp2 : A -> A -> Z)
  (update1 : option (A -> Z -> St1 -> St1)) (update2 : option (A -> Z -> St2 -> St2))
  (P : A -> Prop) (R : St1 -> St2 -> Prop).
Context (NEG : forall a b, P a -> P b -> (cmp1 a b <? 0)%Z = (cmp2 a b <? 0)%Z).
Context (POS : forall a b, P a -> P b -> (cmp1 a b >? 0)%Z = (cmp2 a b >? 0)%Z).
Context (UPD : forall a i s1 s2, P a -> R s1 s2 -> R (notify update1 a i s1) (notify update2 a i s2)).

(** The first [n] elements are in [P]. *)
Definition all_below (a : list A) (n : nat) : Prop := forall j x, j < n -> a !! j = Some x -> P x.

Lemma all_below_insert a n i x : all_below a n -> P x -> all_below (<[i := x]> a) n.
Proof.
  intros H Hx j y Hj E. destruct (decide (j = i)) as [-> |].
  - destruct (decide (i < length a)); [| rewrite list_insert_ge in E by lia; by eapply H].
    rewrite list_lookup_insert_eq in E by done. by injection E as <-.
  - rewrite list_lookup_insert_ne in E by done. by eapply H.
Qed.

Lemma all_below_elems q : all_below (array q) (size q) <-> Forall P (elems q).
Proof.
  unfold all_below, elems. rewrite Forall_lookup. split.
  - intros H j x E. apply lookup_take_Some in E as [E Hj]. by eapply H.
  - intros H j x Hj E. apply (H j). by rewrite lookup_take_lt.
Qed.

Lemma rd_Ok (a : list A) i x : Pqueue.rd a i = Ok x <-> a !! i = Some x.
Proof. unfold Pqueue.rd. destruct (a !! i); naive_solver. Qed.

Lemma wr_Ok (a a' : list A) i x : wr a i x = Ok a' -> a' = <[i := x]> a.
Proof. unfold wr. destruct (_ <? _); naive_solver. Qed.

Lemma trickle_up_loop_sim n fuel : forall i tmp a s1 s2 a' s2',
  i < n -> all_below a n -> P tmp -> R s1 s2 ->
  trickle_up_loop cmp2 update2 fuel i tmp a s2 = Ok (a', s2') ->
  exists s1', trickle_up_loop cmp1 update1 fuel i tmp a s1 = Ok (a', s1') /\ R s1' s2'.
Proof.
  induction fuel as [| fuel IH]; intros i tmp a s1 s2 a' s2' Hi Ha Hp Hr E; [done |].
  cbn [trickle_up_loop] in E |- *. destruct (0 <? i) eqn:Hpos.
  - apply Nat.ltb_lt in Hpos. apply bind_Ok in E as (up & Eu & E). rewrite Eu. cbn [mbind res_bind].
    apply rd_Ok in Eu. pose proof (parent_lt i Hpos). assert (P up) as Hup by (eapply Ha; [| done]; lia).
    rewrite NEG by done. destruct (_ <? 0)%Z.
    + apply bind_Ok in E as (a1 & Ew & E). rewrite Ew. cbn [mbind res_bind]. apply wr_Ok in Ew as ->.
      eapply IH; [| | done | | exact E]; [lia | by apply all_below_insert | by apply UPD].
    + apply bind_Ok in E as (a1 & Ew & E). rewrite Ew. cbn [mbind res_bind]. injection E as <- <-.
      eexists. split; [done | by apply UPD].
  - apply bind_Ok in E as (a1 & Ew & E). rewrite Ew. cbn [mbind res_bind]. injection E as <- <-.
    eexists. split; [done | by apply UPD].
Qed.

Lemma trickle_up_sim i q s1 s2 q' s2' :
  i < size q -> all_below (array q) (size q) -> R s1 s2 ->
  trickle_up cmp2 update2 i q s2 = Ok (q', s2') ->
  exists s1', trickle_up cmp1 update1 i q s1 = Ok (q', s1') /\ R s1' s2'.
Proof.
  intros Hi Ha Hr E. unfold trickle_up in *. apply bind_Ok in E as (tmp & Et & E). rewrite Et. cbn [mbind res_bind].
  apply bind_Ok in E as ([a2 s2a] & El & E). injection E as <- <-. apply rd_Ok in Et.
  destruct (trickle_up_loop_sim (size q) (S i) i tmp (array q) s1 s2 a2 s2a) as (s1' & E1 & Hr'); try done.
  { by eapply Ha. }
  rewrite E1. cbn [mbind res_bind]. eauto.
Qed.

Lemma child_below i n : HAVE_CHILD i n = true -> LEFT_OF i < n.
Proof.
  unfold HAVE_CHILD, LEFT_OF. intros H. apply Nat.ltb_lt in H. pose proof (Nat.div_mod_eq n 2). lia.
Qed.

Lemma trickle_down_loop_sim n fuel : forall i tmp a s1 s2 a' s2',
  all_below a n -> P tmp -> R s1 s2 ->
  trickle_down_loop cmp2 update2 fuel n i tmp a s2 = Ok (a', s2') ->
  exists s1', trickle_down_loop cmp1 update1 fuel n i tmp a s1 = Ok (a', s1') /\ R s1' s2'.
Proof.
  induction fuel as [| fuel IH]; intros i tmp a s1 s2 a' s2' Ha Hp Hr E; [done |].
  cbn [trickle_down_loop] in E |- *. destruct (HAVE_CHILD i n) eqn:Hc.
  2:{ apply bind_Ok in E as (a1 & Ew & E). rewrite Ew. cbn [mbind res_bind]. injection E as <- <-.
      eexists. split; [done | by apply UPD]. }
  pose proof (child_below i n Hc) as Hl. apply bind_Ok in E as (which & Ewh & E).
  assert (which < n /\ (if RIGHT_OF i <? n
            then l ← Pqueue.rd a (LEFT_OF i); r ← Pqueue.rd a (RIGHT_OF i); Ok (if (cmp1 l r >? 0)%Z then RIGHT_OF i else LEFT_OF i)
            else Ok (LEFT_OF i)) = Ok which) as [Hw ->].
  { destruct (RIGHT_OF i <? n) eqn:Hr1; [| by injection Ewh as <-]. apply Nat.ltb_lt in Hr1.
    apply bind_Ok in Ewh as (l & El & Ewh). apply bind_Ok in Ewh as (r & Er & Ewh). rewrite El, Er. cbn [mbind res_bind].
    apply rd_Ok in El, Er. rewrite POS by (eapply Ha; [| done]; lia). injection Ewh as <-. split; [| done]. by destruct (_ >? 0)%Z. }
  clear Ewh. cbn [mbind res_bind]. apply bind_Ok in E as (x & Ex & E). rewrite Ex. cbn [mbind res_bind]. apply rd_Ok in Ex.
  assert (P x) as Hx by by eapply Ha. rewrite POS by done. destruct (_ >? 0)%Z.
  - apply bind_Ok in E as (a1 & Ew & E). rewrite Ew. cbn [mbind res_bind]. injection E as <- <-.
    eexists. split; [done | by apply UPD].
  - apply bind_Ok in E as (a1 & Ew & E). rewrite Ew. cbn [mbind res_bind]. apply wr_Ok in Ew as ->.
    eapply IH; [| done | | exact E]; [by apply all_below_insert | by apply UPD].
Qed.

Lemma enqueue_sim x q s1 s2 q' s2' :
  P x -> all_below (array q) (size q) -> R s1 s2 -> size q <= array_size q ->
  pqueue_enqueue null cmp2 update2 x q s2 = Ok (q', s2') ->
  exists s1', pqueue_enqueue null cmp1 update1 x q s1 = Ok (q', s1') /\ R s1' s2'.
Proof.
  intros Hx Ha Hr Hs E. unfold pqueue_enqueue in *. set (q1 := if _ <=? _ then _ else _) in *.
  assert (size q1 = size q /\ all_below (array q1) (size q)) as [Hs1 Ha1].
  { unfold q1. destruct (_ <=? _); [| done]. split; [done |]. intros j y Hj Ey. cbn in Ey.
    rewrite lookup_app_l in Ey by (unfold array_size in Hs; lia). by eapply Ha. }
  clearbody q1. rewrite Hs1 in *. apply bind_Ok in E as (a & Ew & E). rewrite Ew. cbn [mbind res_bind].
  apply wr_Ok in Ew as ->. apply bind_Ok in E as ([q2 s2a] & Et & E). injection E as <- <-.
  set (mkq := mk_pqueue (<[size q := x]> (array q1)) (size q)) in *. unfold trickle_up in Et |- *.
  apply bind_Ok in Et as (tmp & Er & Et). change (array mkq) with (<[size q := x]> (array q1)) in *. rewrite Er. cbn [mbind res_bind].
  apply bind_Ok in Et as ([a2 s2b] & El & Et). injection Et as <- <-.
  assert (all_below (<[size q := x]> (array q1)) (size q + 1)) as Ha2.
  { intros j y Hj Ey. destruct (decide (j = size q)) as [-> | Hne].
    - destruct (decide (size q < length (array q1))).
      + rewrite list_lookup_insert_eq in Ey by done. by injection Ey as <-.
      + rewrite list_insert_ge in Ey by lia. apply lookup_lt_Some in Ey. lia.
    - rewrite list_lookup_insert_ne in Ey by done. eapply Ha1; [| done]. lia. }
  apply rd_Ok in Er.
  destruct (trickle_up_loop_sim (size q + 1) (S (size q)) (size q) tmp (<[size q := x]> (array q1))
    (notify update1 x (size q) s1) (notify update2 x (size q) s2) a2 s2b) as (s1' & E1 & Hr'); try done; [lia | eapply Ha2; [| done]; lia | by apply UPD |].
  rewrite E1. cbn [mbind res_bind array]. eauto.
Qed.

Lemma dequeue_sim q s1 s2 x q' s2' :
  all_below (array q) (size q) -> R s1 s2 ->
  pqueue_dequeue cmp2 update2 q s2 = Ok (x, q', s2') ->
  exists s1', pqueue_dequeue cmp1 update1 q s1 = Ok (x, q', s1') /\ R s1' s2'.
Proof.
  intros Ha Hr E. unfold pqueue_dequeue in *. apply bind_Ok in E as (d & Ed & E). rewrite Ed. cbn [mbind res_bind].
  destruct (Nat.eqb_spec (size q) 0) as [| Hn]; [done |].
  apply bind_Ok in E as (l & El & E). rewrite El. cbn [mbind res_bind]. apply bind_Ok in E as (a & Ew & E). rewrite Ew.
  cbn [mbind res_bind]. apply wr_Ok in Ew as ->. apply rd_Ok in El.
  assert (P l) as Hl by (eapply Ha; [| done]; lia).
  apply bind_Ok in E as ([q2 s2a] & Et & E). injection E as <- <- <-. unfold trickle_down in *.
  apply bind_Ok in Et as (tmp & Er & Et). cbn [array size] in *. rewrite Er. cbn [mbind res_bind].
  apply bind_Ok in Et as ([a2 s2b] & Eo & Et). injection Et as <- <-. apply rd_Ok in Er.
  assert (all_below (<[0 := l]> (array q)) (size q)) as Ha2 by by apply all_below_insert.
  destruct (trickle_down_loop_sim (size q - 1) (S (size q - 1)) 0 tmp (<[0 := l]> (array q)) s1 s2 a2 s2b) as (s1' & E1 & Hr'); try done.
  - intros j y Hj. apply Ha2. lia.
  - eapply Ha2; [| done]. lia.
  - rewrite E1. cbn [mbind res_bind]. eauto.
Qed.
End sim.
