(* ===== verification/OspfSpfQueue.v ===== *)
(** * The candidate queue of the shortest path calculation

    The queue of ospfd/ospf_spf.c compares vertices through pointers and at machine width, and records
    positions in the LSAs.  As long as distances stay below [2^31] it is a heap for the key (distance,
    networks first), and the recorded positions are right: the facts the calculation relies on. *)

From S2P Require Import Prelude Pqueue PqueueProofs PqueueSim OspfLsaWire OspfSpfTypes OspfSpf.
Local Open Scope Z_scope.

(** The order of the candidates: by distance, networks before routers. *)
Definition key (v : vertex) : Z := 2 * distance v + (if v_type v =? OSPF_VERTEX_NETWORK then 0 else 1).
Definition keyof (vs : gmap positive vertex) (x : vertex_ptr) : Z := match vs !! x with Some v => key v | None => 0 end.
Definition kcmp (vs : gmap positive vertex) (a b : vertex_ptr) : Z := keyof vs a - keyof vs b.

Global Instance kcmp_order vs : CmpOrder (kcmp vs).
Proof. split; unfold kcmp; lia. Qed.

(** Vertices as the calculation makes them. *)
Definition vertex_ok (v : vertex) : Prop :=
  (v_type v = OSPF_VERTEX_ROUTER \/ v_type v = OSPF_VERTEX_NETWORK) /\ 0 <= distance v < 2 ^ 31.

Lemma signed32_small z : - 2 ^ 31 < z < 2 ^ 31 -> signed 32 z = z.
Proof.
  intros H. unfold signed, wrap. change (32 - 1) with 31. destruct (Z.ltb_spec z 0).
  - assert (z mod 2 ^ 32 = z + 2 ^ 32) as ->.
    { symmetry. apply (Z.mod_unique_pos _ _ (-1)); lia. }
    destruct (Z.ltb_spec (z + 2 ^ 32) (2 ^ 31)); lia.
  - rewrite Z.mod_small by lia. destruct (Z.ltb_spec z (2 ^ 31)); lia.
Qed.

Lemma u32_zero z : - 2 ^ 31 < z < 2 ^ 31 -> (u32 z =? 0) = (z =? 0).
Proof.
  intros H. unfold wrap. destruct (Z.eqb_spec z 0) as [-> |]; [done |]. apply Z.eqb_neq. intros E.
  apply Z.mod_divide in E as [k E]; [| lia]. assert (k = 0) by lia. subst. lia.
Qed.

(** On such vertices [cmp] has the sign of the difference of the keys. *)
Lemma cmp_key vs a b v w :
  vs !! a = Some v -> vs !! b = Some w -> vertex_ok v -> vertex_ok w ->
  (cmp vs a b < 0 <-> kcmp vs a b < 0) /\ (0 < cmp vs a b <-> 0 < kcmp vs a b).
Proof.
  intros Ea Eb [Tv Hv] [Tw Hw]. unfold cmp, kcmp, keyof. rewrite Ea, Eb. unfold key.
  rewrite u32_zero, signed32_small by lia. unfold OSPF_VERTEX_ROUTER, OSPF_VERTEX_NETWORK in *.
  destruct Tv as [-> | ->], Tw as [-> | ->]; cbn [negb Z.eqb Pos.eqb]; rewrite ?andb_false_r, ?andb_true_r; try lia;
    destruct (Z.eqb_spec (distance v - distance w) 0); lia.
Qed.

Record queue_ok (s : spf) (q : pqueue) : Prop := {
  qo_wf : pq_wf NULL (kcmp (vertices s)) q;
  qo_pos : forall i x, elems q !! i = Some x ->
    exists v, vertices s !! x = Some v /\ vertex_ok v /\ stat s !! v_lsa v = Some (Z.of_nat i) }.

Lemma queue_ok_inj s q x y v w :
  queue_ok s q -> x ∈ elems q -> y ∈ elems q -> vertices s !! x = Some v -> vertices s !! y = Some w ->
  v_lsa v = v_lsa w -> x = y.
Proof.
  intros Q [i Hi]%list_elem_of_lookup [j Hj]%list_elem_of_lookup Ev Ew El.
  destruct (qo_pos _ _ Q i x Hi) as (v' & Ev' & _ & Si). destruct (qo_pos _ _ Q j y Hj) as (w' & Ew' & _ & Sj).
  rewrite Ev in Ev'. rewrite Ew in Ew'. injection Ev' as <-. injection Ew' as <-. rewrite El, Sj in Si.
  injection Si as Eij. assert (j = i) by lia. subst. rewrite Hi in Hj. by injection Hj as <-.
Qed.

Lemma queue_ok_elem s q x : queue_ok s q -> x ∈ elems q ->
  exists v i, vertices s !! x = Some v /\ vertex_ok v /\ elems q !! i = Some x /\ stat s !! v_lsa v = Some (Z.of_nat i).
Proof. intros Q [i Hi]%list_elem_of_lookup. destruct (qo_pos _ _ Q i x Hi) as (v & ? & ? & ?). eauto 10. Qed.

(** ** Heaps under a change of the keys *)

Lemma heap_ext vs vs' (a : list positive) n :
  (forall j, (j < n)%nat -> keyof vs' (at_ NULL a j) = keyof vs (at_ NULL a j)) ->
  heap NULL (kcmp vs) a n -> heap NULL (kcmp vs') a n.
Proof.
  intros He H j Hj. pose proof (parent_lt j ltac:(lia)). unfold le, kcmp. rewrite !He by lia. by apply H.
Qed.

Lemma elems_at_lookup (q : pqueue) j :
  (size q <= array_size q)%nat -> (j < size q)%nat -> elems q !! j = Some (at_ NULL (array q) j).
Proof.
  intros Hs Hj. unfold elems. rewrite lookup_take_lt by done. apply lookup_at. unfold array_size in Hs. lia.
Qed.

Lemma elems_lt (q : pqueue) i x : elems q !! i = Some x -> (i < size q)%nat.
Proof. unfold elems. intros H. by apply lookup_take_Some in H as [_ H]. Qed.

(** Vertices that are not candidates do not matter, nor do fields other than the key and the LSA. *)
Lemma queue_ok_ext s s' q :
  queue_ok s q ->
  (forall x v, x ∈ elems q -> vertices s !! x = Some v ->
     exists v', vertices s' !! x = Some v' /\ v_type v' = v_type v /\ distance v' = distance v /\ v_lsa v' = v_lsa v /\
       stat s' !! v_lsa v = stat s !! v_lsa v) ->
  queue_ok s' q.
Proof.
  intros [[H3 Hf Hh] Hp] H. split.
  - constructor; try done. eapply heap_ext; [| done]. intros j Hj.
    pose proof (elems_at_lookup q j Hf Hj) as E. destruct (Hp j _ E) as (v & Ev & _ & _).
    apply list_elem_of_lookup_2 in E. destruct (H _ v E Ev) as (v' & Ev' & Et & Ed & _). unfold keyof. rewrite Ev, Ev'.
    unfold key. by rewrite Et, Ed.
  - intros i x E. destruct (Hp i x E) as (v & Ev & [Tv Dv] & Es). apply list_elem_of_lookup_2 in E.
    destruct (H x v E Ev) as (v' & Ev' & Et & Ed & El & Est). exists v'. unfold vertex_ok. rewrite Et, Ed, El, Est. done.
Qed.

(** ** The ghost queue: keys as a total preorder, positions as a function *)

Definition ghost_update : option (positive -> Z -> (positive -> Z) -> positive -> Z) :=
  Some (fun x i pos y => if decide (y = x) then i else pos y).

Lemma ghost_upd x (i : nat) (s : positive -> Z) y :
  notify ghost_update x i s y = if decide (y = x) then Z.of_nat i else s y.
Proof. done. Qed.

(** The state of the calculation [s'] differs from [s] in the recorded positions of the vertices [X] only, and these
    are the ghost positions. *)
Definition ghost_rel (s : spf) (X : list positive) (s' : spf) (pos : positive -> Z) : Prop :=
  exists st', s' = set_stats st' s /\
    (forall x v, x ∈ X -> vertices s !! x = Some v -> st' !! v_lsa v = Some (pos x)) /\
    (forall p, (forall x v, x ∈ X -> vertices s !! x = Some v -> v_lsa v <> p) -> st' !! p = stat s !! p).

Lemma ghost_rel_notify s X a (i : nat) s' pos :
  (forall x, x ∈ X -> is_Some (vertices s !! x)) ->
  (forall x y v w, x ∈ X -> y ∈ X -> vertices s !! x = Some v -> vertices s !! y = Some w -> v_lsa v = v_lsa w -> x = y) ->
  a ∈ X -> ghost_rel s X s' pos -> ghost_rel s X (notify update_stat a i s') (notify ghost_update a i pos).
Proof.
  intros Hv Hinj Ha (st' & -> & Hin & Hout). destruct (Hv a Ha) as [v Ev]. unfold notify, update_stat. cbn.
  change (vertices (set_stats st' s)) with (vertices s). rewrite Ev. exists (<[v_lsa v := Z.of_nat i]> st').
  split; [done |]. split.
  - intros x w Hx Ew. destruct (decide (x = a)) as [-> | Hne].
    + rewrite Ev in Ew. injection Ew as <-. by rewrite lookup_insert_eq.
    + rewrite lookup_insert_ne; [by apply Hin |]. intros El. apply Hne. symmetry. by eapply Hinj.
  - intros p Hp. rewrite lookup_insert_ne; [by apply Hout | by eapply Hp].
Qed.

(** Signs agree on live vertices. *)
Definition live_ok (vs : gmap positive vertex) (x : positive) : Prop := exists v, vs !! x = Some v /\ vertex_ok v.

Lemma cmp_neg vs a b : live_ok vs a -> live_ok vs b -> (cmp vs a b <? 0) = (kcmp vs a b <? 0).
Proof. intros (v & Ev & Ov) (w & Ew & Ow). destruct (cmp_key vs a b v w Ev Ew Ov Ow). apply eq_true_iff_eq. rewrite !Z.ltb_lt. done. Qed.
Lemma cmp_pos vs a b : live_ok vs a -> live_ok vs b -> (cmp vs a b >? 0) = (kcmp vs a b >? 0).
Proof. intros (v & Ev & Ov) (w & Ew & Ow). destruct (cmp_key vs a b v w Ev Ew Ov Ow). apply eq_true_iff_eq. rewrite !Z.gtb_lt. done. Qed.

(** A recorded position for every vertex of [X], as a function. *)
Definition pos_fun (s : spf) (x : positive) : Z :=
  match vertices s !! x with Some v => default 0 (stat s !! v_lsa v) | None => 0 end.

Lemma ghost_rel_start s X :
  (forall x, x ∈ X -> exists v z, vertices s !! x = Some v /\ stat s !! v_lsa v = Some z) -> ghost_rel s X s (pos_fun s).
Proof.
  intros H. exists (stat s). split; [by destruct s |]. split; [| done]. intros x v Hx Ev.
  destruct (H x Hx) as (v' & z & Ev' & Ez). rewrite Ev in Ev'. injection Ev' as <-. unfold pos_fun. by rewrite Ev, Ez.
Qed.

Lemma queue_tracks s q : queue_ok s q -> pos_inv NULL (fun (pos : positive -> Z) x => pos x) q (pos_fun s).
Proof.
  intros [[H3 Hf Hh] Hp].
  assert (tracks NULL (fun (pos : positive -> Z) x => pos x) (array q) (size q) (pos_fun s)) as Ht.
  { intros j Hj. destruct (Hp j _ (elems_at_lookup q j Hf Hj)) as (v & Ev & _ & Es). unfold pos_fun. by rewrite Ev, Es. }
  split; [by eapply tracks_distinct | done].
Qed.

(** Back from the ghost queue to the calculation. *)
Lemma ghost_queue_ok s X s' q pos :
  ghost_rel s X s' pos -> pq_wf NULL (kcmp (vertices s)) q -> pos_inv NULL (fun (pos : positive -> Z) x => pos x) q pos ->
  (forall x, x ∈ elems q -> x ∈ X /\ live_ok (vertices s) x) -> queue_ok s' q.
Proof.
  intros (st' & -> & Hin & _) WF [_ Ht] HX. split; [done |]. intros i x E.
  pose proof (list_elem_of_lookup_2 _ _ _ E) as Hx. destruct (HX x Hx) as [Hx' (v & Ev & Ov)]. exists v. split_and!; [done | done |].
  cbn. rewrite (Hin x v Hx' Ev). f_equal. pose proof (elems_lt _ _ _ E) as Hi. pose proof WF as [_ Hf _].
  rewrite (elems_at_lookup q i Hf Hi) in E. injection E as <-. by apply Ht.
Qed.

Section operations.
Context (s : spf) (q : pqueue) (Q : queue_ok s q).

Lemma queue_live : all_below (live_ok (vertices s)) (array q) (size q).
Proof.
  apply all_below_elems, list.Forall_forall. intros x Hx. destruct (queue_ok_elem s q x Q Hx) as (v & i & ? & ? & _). by exists v.
Qed.

Lemma queue_all (X : list positive) : (forall x, x ∈ elems q -> x ∈ X) -> all_below (fun x => x ∈ X /\ live_ok (vertices s) x) (array q) (size q).
Proof.
  intros H. apply all_below_elems, list.Forall_forall. intros x Hx. split; [by apply H |].
  pose proof (proj1 (all_below_elems _ _) queue_live) as HF. rewrite list.Forall_forall in HF. by apply HF.
Qed.

(** The states of a queue operation on the vertices [X]: only [stat] changes, and only for their LSAs. *)
Definition stat_step (X : list positive) (st' : gmap positive Z) : Prop :=
  forall p, (forall x v, x ∈ X -> vertices s !! x = Some v -> v_lsa v <> p) -> st' !! p = stat s !! p.

Lemma spf_enqueue_ok x v :
  vertices s !! x = Some v -> vertex_ok v -> is_Some (stat s !! v_lsa v) ->
  (forall y w, y ∈ elems q -> vertices s !! y = Some w -> v_lsa w <> v_lsa v) ->
  exists q' st', pqueue_enqueue NULL (cmp (vertices s)) update_stat x q s = Ok (q', set_stats st' s) /\
    queue_ok (set_stats st' s) q' /\ elems q' ≡ₚ x :: elems q /\ stat_step (x :: elems q) st'.
Proof.
  intros Ev Ov [z Ez] Hnew. pose proof (qo_wf _ _ Q) as WF. set (X := x :: elems q).
  assert (x ∉ elems q) as Hx by (intros H; by apply (Hnew x v H)).
  destruct (enqueue_spec NULL (kcmp (vertices s)) ghost_update x q (pos_fun s) WF) as (q' & pos' & E & WF' & Hp).
  pose proof (enqueue_pos NULL (kcmp (vertices s)) ghost_update (fun pos y => pos y) ghost_upd x q (pos_fun s) q' pos'
    WF (queue_tracks s q Q) Hx E) as Hpos.
  assert (forall y, y ∈ X -> exists v z, vertices s !! y = Some v /\ vertex_ok v /\ stat s !! v_lsa v = Some z) as HX.
  { intros y [-> | Hy]%elem_of_cons; [eauto 10 |]. destruct (queue_ok_elem s q y Q Hy) as (w & i & ? & ? & _ & ?). eauto 10. }
  destruct (enqueue_sim NULL (cmp (vertices s)) (kcmp (vertices s)) update_stat ghost_update
    (fun y => y ∈ X /\ live_ok (vertices s) y) (ghost_rel s X)) with (x := x) (q := q) (s1 := s) (s2 := pos_fun s) (q' := q') (s2' := pos')
    as (s' & E1 & Hr); try done.
  - intros a b [_ Ha] [_ Hb]. by apply cmp_neg.
  - intros a i s1 s2 [Ha _] Hr. apply ghost_rel_notify; try done.
    + intros y Hy. destruct (HX y Hy) as (w & _ & ? & _). by exists w.
    + intros a' b' w1 w2 Ha' Hb' E1 E2 El. apply elem_of_cons in Ha', Hb'. destruct Ha' as [-> | Ha'], Hb' as [-> | Hb']; [done | | |].
      * rewrite Ev in E1. injection E1 as <-. by destruct (Hnew b' w2 Hb' E2).
      * rewrite Ev in E2. injection E2 as <-. by destruct (Hnew a' w1 Ha' E1).
      * by eapply queue_ok_inj.
  - split; [by left | by exists v].
  - apply queue_all. intros y Hy. by right.
  - apply ghost_rel_start. intros y Hy. destruct (HX y Hy) as (w & z' & ? & _ & ?). eauto.
  - apply WF.
  - pose proof Hr as (st' & -> & _ & Hout). exists q', st'. split_and!; [done | | done | done].
    eapply ghost_queue_ok; [done | done | done |]. intros y Hy. rewrite Hp in Hy. split; [done |].
    destruct (HX y Hy) as (w & _ & ? & ? & _). by exists w.
Qed.

Lemma spf_dequeue_ok :
  (0 < size q)%nat ->
  exists x q' st', pqueue_dequeue (cmp (vertices s)) update_stat q s = Ok (x, q', set_stats st' s) /\
    queue_ok (set_stats st' s) q' /\ elems q ≡ₚ x :: elems q' /\ stat_step (elems q) st' /\
    (forall y, y ∈ elems q -> keyof (vertices s) x <= keyof (vertices s) y).
Proof.
  intros Hn. pose proof (qo_wf _ _ Q) as WF.
  destruct (dequeue_spec NULL (kcmp (vertices s)) ghost_update q (pos_fun s) WF Hn) as (x & q' & pos' & E & WF' & Hp & Hmin).
  pose proof (dequeue_pos NULL (kcmp (vertices s)) ghost_update (fun pos y => pos y) ghost_upd q (pos_fun s) x q' pos'
    WF (queue_tracks s q Q) E) as Hpos.
  destruct (dequeue_sim (cmp (vertices s)) (kcmp (vertices s)) update_stat ghost_update
    (fun y => y ∈ elems q /\ live_ok (vertices s) y) (ghost_rel s (elems q))) with (q := q) (s1 := s) (s2 := pos_fun s) (x := x) (q' := q') (s2' := pos')
    as (s' & E1 & Hr); try done.
  - intros a b [_ Ha] [_ Hb]. by apply cmp_pos.
  - intros a i s1 s2 [Ha _] Hr. apply ghost_rel_notify; try done.
    + intros y Hy. destruct (queue_ok_elem s q y Q Hy) as (w & _ & ? & _). by exists w.
    + intros. by eapply queue_ok_inj.
  - by apply queue_all.
  - apply ghost_rel_start. intros y Hy. destruct (queue_ok_elem s q y Q Hy) as (w & i & ? & _ & _ & ?). eauto.
  - pose proof Hr as (st' & -> & _ & Hout). exists x, q', st'. split_and!; [done | | done | done |].
    + eapply ghost_queue_ok; [done | done | done |]. intros y Hy. assert (y ∈ elems q) as Hy' by (rewrite Hp; by right).
      split; [done |]. destruct (queue_ok_elem s q y Q Hy') as (w & _ & ? & ? & _). by exists w.
    + intros y Hy. specialize (Hmin y Hy). unfold le, kcmp in Hmin. lia.
Qed.

(** The vertex at position [i] has come nearer, in place: [trickle_up] restores the queue. *)
Lemma spf_decrease_ok (s' : spf) i x v v' :
  elems q !! i = Some x -> vertices s !! x = Some v -> vertices s' !! x = Some v' -> vertex_ok v' ->
  v_type v' = v_type v -> v_lsa v' = v_lsa v -> distance v' <= distance v ->
  stat s' = stat s -> (forall y, y <> x -> y ∈ elems q -> vertices s' !! y = vertices s !! y) ->
  exists q' st', trickle_up (cmp (vertices s')) update_stat i q s' = Ok (q', set_stats st' s') /\
    queue_ok (set_stats st' s') q' /\ elems q' ≡ₚ elems q /\
    (forall p, (forall x v, x ∈ elems q -> vertices s !! x = Some v -> v_lsa v <> p) -> st' !! p = stat s !! p).
Proof.
  intros Ei Ev Ev' Ov' Et El Ed Es Hsame. pose proof (qo_wf _ _ Q) as WF. pose proof WF as [H3 Hf Hh].
  pose proof (elems_lt _ _ _ Ei) as Hi. pose proof (list_elem_of_lookup_2 _ _ _ Ei) as Hx.
  assert (at_ NULL (array q) i = x) as Ax by (rewrite (elems_at_lookup q i Hf Hi) in Ei; by injection Ei).
  assert (forall y w', y ∈ elems q -> vertices s' !! y = Some w' -> exists w j, vertices s !! y = Some w /\ vertex_ok w' /\
     v_lsa w' = v_lsa w /\ stat s !! v_lsa w = Some (Z.of_nat j) /\ elems q !! j = Some y) as HX.
  { intros y w' Hy Ew'. destruct (queue_ok_elem s q y Q Hy) as (w & j & Ew & Ow & Ej & Sj). exists w, j.
    destruct (decide (y = x)) as [-> | Hne].
    - rewrite Ev' in Ew'. injection Ew' as <-. rewrite Ev in Ew. injection Ew as <-. done.
    - rewrite Hsame, Ew in Ew' by done. injection Ew' as <-. done. }
  assert (forall y, y ∈ elems q -> live_ok (vertices s') y) as Hlive.
  { intros y Hy. destruct (decide (y = x)) as [-> | Hne]; [by exists v' |].
    destruct (queue_ok_elem s q y Q Hy) as (w & _ & Ew & Ow & _). exists w. by rewrite Hsame. }
  assert (pos_fun s' x = pos_fun s x /\ forall y, y ∈ elems q -> pos_fun s' y = pos_fun s y) as [_ Hpf].
  { assert (forall y, y ∈ elems q -> pos_fun s' y = pos_fun s y) as H; [| by split; [apply H |]].
    intros y Hy. unfold pos_fun. destruct (decide (y = x)) as [-> | Hne]; [by rewrite Ev', Ev, El, Es |]. rewrite Hsame by done. by rewrite Es. }
  assert (pos_inv NULL (fun (pos : positive -> Z) x => pos x) q (pos_fun s')) as HP.
  { destruct (queue_tracks s q Q) as [Hd Ht]. split; [done |]. intros j Hj. rewrite Hpf; [by apply Ht |].
    apply (list_elem_of_lookup_2 _ j). by apply elems_at_lookup. }
  assert (heap_up NULL (kcmp (vertices s')) (array q) (size q) i) as Hup.
  { assert (forall y, y ∈ elems q -> keyof (vertices s') y <= keyof (vertices s) y /\ (y <> x -> keyof (vertices s') y = keyof (vertices s) y)) as Hk.
    { intros y Hy. unfold keyof. destruct (decide (y = x)) as [-> | Hne].
      - rewrite Ev', Ev. unfold key. rewrite Et. split; [lia | done].
      - rewrite Hsame by done. done. }
    assert (forall j, (j < size q)%nat -> j <> i -> at_ NULL (array q) j <> x) as Hne.
    { intros j Hj Hji E. apply Hji. destruct HP as [Hd _]. apply Hd; [done | done |]. by rewrite E, Ax. }
    assert (forall j, (j < size q)%nat -> at_ NULL (array q) j ∈ elems q) as Hin.
    { intros j Hj. apply (list_elem_of_lookup_2 _ j). by apply elems_at_lookup. }
    split.
    - intros j Hj Hji. pose proof (parent_lt j ltac:(lia)). specialize (Hh j Hj). unfold le, kcmp in *.
      destruct (Hk _ (Hin j ltac:(lia))) as [_ ->]; [| apply Hne; lia].
      destruct (Hk _ (Hin (PARENT_OF j) ltac:(lia))) as [Hk1 _]. lia.
    - intros j Hj Hpj H0. pose proof (parent_lt j ltac:(lia)). pose proof (parent_lt i H0).
      assert (j <> i) as Hji by lia. pose proof (Hh j Hj) as Hj1. pose proof (Hh i ltac:(lia)) as Hi1. unfold le, kcmp in *.
      rewrite Hpj in Hj1. destruct (Hk _ (Hin j ltac:(lia))) as [_ ->]; [| apply Hne; lia].
      destruct (Hk _ (Hin (PARENT_OF i) ltac:(lia))) as [Hk1 _]. lia. }
  destruct (trickle_up_pos NULL (kcmp (vertices s')) ghost_update (fun pos y => pos y) ghost_upd q (pos_fun s') i H3 Hf Hi Hup HP)
    as (q' & pos' & E & WF' & Hp & Hpos).
  destruct (trickle_up_sim (cmp (vertices s')) (kcmp (vertices s')) update_stat ghost_update
    (fun y => y ∈ elems q /\ live_ok (vertices s') y) (ghost_rel s' (elems q))) with (i := i) (q := q) (s1 := s') (s2 := pos_fun s') (q' := q') (s2' := pos')
    as (s1' & E1 & Hr); try done.
  - intros a b [_ Ha] [_ Hb]. by apply cmp_neg.
  - intros a k s1 s2 [Ha _] Hr. apply ghost_rel_notify; try done.
    + intros y Hy. destruct (Hlive y Hy) as (w & ? & _). by exists w.
    + intros y z w1 w2 Hy Hz E1 E2 Ell. destruct (HX y w1 Hy E1) as (u1 & _ & F1 & _ & G1 & _). destruct (HX z w2 Hz E2) as (u2 & _ & F2 & _ & G2 & _).
      eapply queue_ok_inj; [exact Q | done | done | exact F1 | exact F2 | congruence].
  - apply all_below_elems, list.Forall_forall. intros y Hy. split; [done | by apply Hlive].
  - apply ghost_rel_start. intros y Hy. destruct (Hlive y Hy) as (w' & Ew' & _). destruct (HX y w' Hy Ew') as (w & j & _ & _ & Ell & Sj & _).
    exists w', (Z.of_nat j). split; [done |]. by rewrite Ell, Es.
  - pose proof Hr as (st' & -> & _ & Hout). exists q', st'. split_and!; [done | | done |].
    + eapply ghost_queue_ok; [done | done | done |]. intros y Hy. rewrite Hp in Hy. split; [done | by apply Hlive].
    + intros p H. rewrite Hout, Es; [done |]. intros y w' Hy Ew'. destruct (HX y w' Hy Ew') as (w & j & Ew & _ & -> & _). by eapply H.
Qed.
End operations.
