(* ===== verification/OspfLsaProofs.v ===== *)
(** * Link state advertisements: walking the bytes

    An LSA that [ospf_lsa_examin] accepts can be walked: the links of a router-LSA are a chain that ends at the end of the
    LSA, and every function of ospfd/ospf_spf.c that reads LSAs stays inside.  Examination itself reads at most
    nine bytes more than it was told were received. *)

From S2P Require Import Prelude OspfLsdb OspfNeighbor OspfLsaWire.
Local Open Scope Z_scope.

(** ** Reads *)

Lemma getn_Ok n b o : 0 <= o -> o + Z.of_nat n <= Z.of_nat (length b) -> getn n b o = Ok (be_val (take n (drop (Z.to_nat o) b))).
Proof. intros H1 H2. unfold getn. by rewrite (proj2 (Z.leb_le 0 o)), (proj2 (Z.leb_le _ _)) by done. Qed.

Lemma getn_exists n b o : 0 <= o -> o + Z.of_nat n <= Z.of_nat (length b) -> exists v, getn n b o = Ok v.
Proof. intros H1 H2. rewrite getn_Ok by done. eauto. Qed.

Lemma getn_in n b o v : getn n b o = Ok v -> 0 <= o /\ o + Z.of_nat n <= Z.of_nat (length b).
Proof.
  unfold getn. destruct (Z.leb_spec 0 o), (Z.leb_spec (o + Z.of_nat n) (Z.of_nat (length b))); cbn; intros; try done; lia.
Qed.

Lemma getn_range n b o v : bytes_ok b -> getn n b o = Ok v -> 0 <= v < 2 ^ (8 * Z.of_nat n).
Proof.
  intros Hb E. pose proof (getn_in _ _ _ _ E) as [H1 H2]. rewrite getn_Ok in E by done. injection E as <-.
  pose proof (be_val_bound (take n (drop (Z.to_nat o) b))) as H. unfold in_u in H.
  rewrite length_take, length_drop, Nat.min_l in H by lia. apply H. auto with bytes.
Qed.

Lemma getn_app n h b o :
  Z.of_nat (length h) <= o -> getn n (h ++ b) o = getn n b (o - Z.of_nat (length h)).
Proof.
  intros H. unfold getn. rewrite length_app.
  rewrite drop_app_ge by lia. replace (Z.to_nat o - length h)%nat with (Z.to_nat (o - Z.of_nat (length h))) by lia.
  replace (0 <=? o) with (0 <=? o - Z.of_nat (length h)) by (apply eq_true_iff_eq; rewrite !Z.leb_le; lia).
  replace (o + Z.of_nat n <=? Z.of_nat (length h + length b)) with (o - Z.of_nat (length h) + Z.of_nat n <=? Z.of_nat (length b))
    by (apply eq_true_iff_eq; rewrite !Z.leb_le; lia). done.
Qed.

(** ** Examination stays near the bytes received *)

(** The buffer holds [n] bytes, and nine more may be read. *)
Definition slack : Z := 9.

Lemma links_examin_safe fuel : forall b link linkbytes cnt num,
  bytes_ok b -> 0 <= link -> 0 <= linkbytes -> link + linkbytes + slack <= Z.of_nat (length b) -> linkbytes < Z.of_nat fuel ->
  exists r, links_examin_loop fuel b link linkbytes cnt num = Ok r.
Proof.
  unfold slack. induction fuel as [| fuel IH]; intros b link linkbytes cnt num Hb Hl Hlb Hlen Hf; [lia |].
  cbn [links_examin_loop]. destruct (Z.eqb_spec linkbytes 0) as [| Hne]; [eauto |].
  destruct (getn_exists 1 b (link + 9)) as [t Et]; [lia | lia |]. rewrite Et. cbn [mbind res_bind].
  pose proof (getn_range _ _ _ _ Hb Et). destruct (Z.gtb_spec (OSPF_ROUTER_LSA_LINK_SIZE + 4 * t) linkbytes); [eauto |].
  unfold OSPF_ROUTER_LSA_LINK_SIZE in *. apply IH; (done || lia).
Qed.

Lemma u16_sub (a c : Z) : 0 <= a - c -> 0 <= c -> a < 2 ^ 16 -> u16 (a - c) = a - c.
Proof. intros. apply (wrap_small 16). unfold in_u. lia. Qed.
Lemma u32_sub (a c : Z) : 0 <= a - c -> 0 <= c -> a < 2 ^ 32 -> u32 (a - c) = a - c.
Proof. intros. apply (wrap_small 32). unfold in_u. lia. Qed.

Lemma lsa_examin_safe b lsah lsalen (ho : bool) :
  bytes_ok b -> 0 <= lsah -> OSPF_LSA_HEADER_SIZE <= lsalen < 2 ^ 16 ->
  lsah + (if ho then OSPF_LSA_HEADER_SIZE else lsalen) + slack <= Z.of_nat (length b) ->
  exists r, ospf_lsa_examin b lsah lsalen ho = Ok r.
Proof.
  intros Hb Hl Hn Hlen. unfold ospf_lsa_examin, slack, OSPF_LSA_HEADER_SIZE in *.
  destruct (getn_exists 1 b (lsah + 3)) as [ty Et]; [lia | by destruct ho; lia |]. rewrite Et. cbn [mbind res_bind].
  destruct (Z.eqb_spec ty OSPF_ROUTER_LSA) as [-> | Hty].
  - change (byte_at ospf_lsa_minlen OSPF_ROUTER_LSA) with 4. change (OSPF_ROUTER_LSA <? OSPF_MAX_LSA) with true. cbn [andb negb Z.eqb].
    destruct (Z.ltb_spec lsalen (20 + 4)); [eauto |]. destruct ho; [eauto |].
    destruct (getn_exists 2 b (lsah + 22)) as [n En]; [lia | lia |]. rewrite En. cbn [mbind res_bind].
    replace (lsalen - 20 - 4) with (lsalen - 24) by lia. rewrite u16_sub by lia.
    apply links_examin_safe; try done; unfold slack; lia.
  - destruct (_ && _); [eauto |]. destruct (_ || _); [eauto |]. repeat destruct (_ || _); eauto.
Qed.

Lemma lsaseq_examin_safe fuel : forall b lsah len ho decl cnt,
  bytes_ok b -> 0 <= lsah -> 0 <= len -> lsah + len + slack <= Z.of_nat (length b) -> len < Z.of_nat fuel ->
  exists r, lsaseq_examin_loop fuel b lsah len ho decl cnt = Ok r.
Proof.
  induction fuel as [| fuel IH]; intros b lsah len ho decl cnt Hb Hl Hlen Hsz Hf; [lia |].
  cbn [lsaseq_examin_loop]. unfold OSPF_LSA_HEADER_SIZE. destruct (Z.eqb_spec len 0) as [| Hne]; [eauto |].
  destruct (Z.ltb_spec len 20); [eauto |]. unfold slack in *.
  destruct (getn_exists 2 b (lsah + 18)) as [n En]; [lia | lia |]. rewrite En. cbn [mbind res_bind].
  pose proof (getn_range _ _ _ _ Hb En) as Hn. destruct (Z.ltb_spec n 20); [eauto |]. destruct ho.
  - destruct (lsa_examin_safe b lsah n true) as [r ->]; unfold slack, OSPF_LSA_HEADER_SIZE; try done; try lia. cbn [mbind res_bind].
    destruct (negb _); [eauto |]. apply IH; (done || lia).
  - destruct (Z.gtb_spec n len); [eauto |].
    destruct (lsa_examin_safe b lsah n false) as [r ->]; unfold slack, OSPF_LSA_HEADER_SIZE; try done; try lia. cbn [mbind res_bind].
    destruct (negb _); [eauto |]. apply IH; (done || lia).
Qed.

(** ** Links *)

(** The links of the router-LSA [o] from offset [p] to its end. *)
Inductive links_at (o : lsa_object) : Z -> list router_lsa_link -> Prop :=
| links_end : links_at o (lo_length o) []
| links_cons p l ls : p < lo_length o -> rd_link o p = Ok l -> links_at o (link_end l) ls -> links_at o p (l :: ls).

Definition lsa_links (o : lsa_object) (ls : list router_lsa_link) : Prop := links_at o links_start ls.

Lemma links_at_fun o p ls : links_at o p ls -> forall ls', links_at o p ls' -> ls = ls'.
Proof.
  induction 1 as [| p l ls Hp El H IH]; intros ls' H'; inversion H' as [| ? l' ls2 ? El' H2]; subst; try lia; [done |].
  rewrite El in El'. injection El' as <-. f_equal. by apply IH.
Qed.

Definition body_ok (o : lsa_object) : Prop :=
  bytes_ok (lo_body o) /\ lo_length o = OSPF_LSA_HEADER_SIZE + Z.of_nat (length (lo_body o)) /\ lo_length o < 2 ^ 16.

Lemma lget_exists n o off :
  body_ok o -> OSPF_LSA_HEADER_SIZE <= off -> off + Z.of_nat n <= lo_length o -> exists v, lget n o off = Ok v /\ 0 <= v < 2 ^ (8 * Z.of_nat n).
Proof.
  intros (Hb & Hl & _) H1 H2. unfold lget. destruct (getn_exists n (lo_body o) (off - OSPF_LSA_HEADER_SIZE)) as [v E]; [lia | lia |].
  exists v. split; [done | by eapply getn_range].
Qed.

Lemma rd_link_exists o p :
  body_ok o -> OSPF_LSA_HEADER_SIZE <= p -> p + 12 <= lo_length o -> exists l, rd_link o p = Ok l.
Proof.
  intros Ho H1 H2. unfold rd_link.
  destruct (lget_exists 4 o p Ho) as (v1 & -> & _); [lia | lia |].
  destruct (lget_exists 4 o (p + 4) Ho) as (v2 & -> & _); [lia | lia |].
  destruct (lget_exists 1 o (p + 8) Ho) as (v3 & -> & _); [lia | lia |].
  destruct (lget_exists 1 o (p + 9) Ho) as (v4 & -> & _); [lia | lia |].
  destruct (lget_exists 2 o (p + 10) Ho) as (v5 & -> & _); [lia | lia |]. cbn [mbind res_bind]. eauto.
Qed.

Lemma rd_link_fields o p l :
  body_ok o -> rd_link o p = Ok l -> l_pos l = p /\ 0 <= tos_count l < 2 ^ 8 /\ 0 <= metric l < 2 ^ 16 /\ p + 12 <= lo_length o /\
    lget 1 o (p + 9) = Ok (tos_count l).
Proof.
  intros (Hb & Hl & _) E. unfold rd_link in E.
  apply bind_Ok in E as (v1 & E1 & E). apply bind_Ok in E as (v2 & E2 & E). apply bind_Ok in E as (v3 & E3 & E).
  apply bind_Ok in E as (v4 & E4 & E). apply bind_Ok in E as (v5 & E5 & E). injection E as <-. cbn.
  pose proof (getn_range _ _ _ _ Hb E4). pose proof (getn_range _ _ _ _ Hb E5). pose proof (getn_in _ _ _ _ E5).
  split_and!; try done; lia.
Qed.

Lemma rd_link_id o p l : body_ok o -> rd_link o p = Ok l -> 0 <= link_id l < 2 ^ 32.
Proof.
  intros (Hb & _) E. unfold rd_link in E.
  apply bind_Ok in E as (v1 & E1 & E). apply bind_Ok in E as (v2 & _ & E). apply bind_Ok in E as (v3 & _ & E).
  apply bind_Ok in E as (v4 & _ & E). apply bind_Ok in E as (v5 & _ & E). injection E as <-. by eapply (getn_range 4).
Qed.

Lemma links_at_metric o p ls l : body_ok o -> links_at o p ls -> l ∈ ls -> 0 <= metric l < 2 ^ 16.
Proof.
  intros Ho. induction 1 as [| p k ls Hp Ek H IH]; intros Hl; [by apply not_elem_of_nil in Hl |].
  apply elem_of_cons in Hl as [-> | Hl]; [| by apply IH]. by apply (rd_link_fields o p).
Qed.

Lemma links_at_bound o p ls :
  body_ok o -> links_at o p ls -> OSPF_LSA_HEADER_SIZE <= p -> 12 * Z.of_nat (length ls) + p <= lo_length o.
Proof.
  intros Ho. induction 1 as [| p l ls Hp El H IH]; intros H20; cbn [length]; [lia |].
  destruct (rd_link_fields _ _ _ Ho El) as (E & Ht & _). unfold link_end, OSPF_ROUTER_LSA_LINK_SIZE, OSPF_ROUTER_LSA_TOS_SIZE in IH.
  rewrite E in IH. lia.
Qed.

Lemma links_fuel o p ls : body_ok o -> links_at o p ls -> OSPF_LSA_HEADER_SIZE <= p -> (length ls < lsa_fuel o)%nat.
Proof.
  intros Ho H Hp. pose proof (links_at_bound _ _ _ Ho H Hp). destruct Ho as (_ & Hl & _). unfold lsa_fuel, OSPF_LSA_HEADER_SIZE in *. lia.
Qed.

(** ** What examination guarantees *)

(** The LSA as bytes; of the header, the examination looks at the type only. *)
Definition lsa_bytes (o : lsa_object) : list Z := (replicate 3 0 ++ [lo_type o] ++ replicate 16 0) ++ lo_body o.
Definition lsa_examined (o : lsa_object) : Prop :=
  body_ok o /\ 0 <= lo_type o < 256 /\ ospf_lsa_examin (lsa_bytes o) 0 (lo_length o) false = Ok MSG_OK.

Lemma lsa_bytes_getn n o off : OSPF_LSA_HEADER_SIZE <= off -> getn n (lsa_bytes o) off = lget n o off.
Proof. intros H. unfold lsa_bytes, lget, OSPF_LSA_HEADER_SIZE in *. by rewrite getn_app. Qed.

Lemma links_examin_chain o fuel : forall p bytes cnt num,
  body_ok o -> OSPF_LSA_HEADER_SIZE <= p -> p + bytes = lo_length o -> 0 <= bytes ->
  links_examin_loop fuel (lsa_bytes o) p bytes cnt num = Ok MSG_OK ->
  exists ls, links_at o p ls /\ Z.of_nat (length ls) = num - cnt.
Proof.
  induction fuel as [| fuel IH]; intros p bytes cnt num Ho Hp Hb Hb0 E; [done |]. cbn [links_examin_loop] in E.
  destruct (Z.eqb_spec bytes 0) as [-> | Hne].
  { exists []. rewrite <- Hb, Z.add_0_r in *. replace p with (lo_length o) by lia.
    split; [constructor |]. destruct (Z.eqb_spec cnt num); [cbn; lia | by injection E]. }
  apply bind_Ok in E as (t & Et & E). rewrite lsa_bytes_getn in Et by lia.
  destruct (Z.gtb_spec (OSPF_ROUTER_LSA_LINK_SIZE + 4 * t) bytes) as [| Ht]; [by injection E |].
  assert (0 <= t < 2 ^ 8) as Htr.
  { destruct Ho as (Hby & _). exact (getn_range 1 _ _ _ Hby Et). }
  unfold OSPF_ROUTER_LSA_LINK_SIZE in *.
  destruct (rd_link_exists o p Ho Hp) as [l El]; [lia |].
  destruct (rd_link_fields _ _ _ Ho El) as (Epos & _ & _ & _ & Et'). rewrite Et in Et'. injection Et' as Et'.
  assert (link_end l = p + (12 + 4 * t)) as Eend by (unfold link_end, OSPF_ROUTER_LSA_LINK_SIZE, OSPF_ROUTER_LSA_TOS_SIZE; rewrite Epos; lia).
  destruct (IH (p + (12 + 4 * t)) (bytes - (12 + 4 * t)) (cnt + 1) num Ho) as (ls & Hls & Hn); [lia | lia | lia | exact E |].
  exists (l :: ls). split; [| cbn [length]; lia]. constructor; [lia | done | by rewrite Eend].
Qed.

Lemma examined_type o : lsa_examined o -> getn 1 (lsa_bytes o) 3 = Ok (lo_type o).
Proof. intros _. rewrite getn_Ok; [done | lia |]. unfold lsa_bytes. rewrite length_app. cbn. lia. Qed.

(** The links of an examined router-LSA. *)
Lemma examined_links o :
  lsa_examined o -> lo_type o = OSPF_ROUTER_LSA -> exists ls, lsa_links o ls /\ 24 <= lo_length o /\ lget 2 o 22 = Ok (Z.of_nat (length ls)).
Proof.
  intros H Ht. pose proof (examined_type o H) as E3. destruct H as (Ho & _ & E). unfold ospf_lsa_examin in E.
  change (0 + 3) with 3 in E. rewrite E3, Ht in E. cbn [mbind res_bind] in E.
  change (byte_at ospf_lsa_minlen OSPF_ROUTER_LSA) with 4 in E. change (OSPF_ROUTER_LSA <? OSPF_MAX_LSA) with true in E.
  cbn [andb negb Z.eqb] in E. destruct (Z.ltb_spec (lo_length o) (OSPF_LSA_HEADER_SIZE + 4)) as [| Hl]; [by injection E |].
  change (OSPF_ROUTER_LSA =? OSPF_ROUTER_LSA) with true in E. cbn iota in E.
  apply bind_Ok in E as (num & En & E). change (0 + 22) with 22 in *. change (0 + 24) with links_start in E.
  unfold OSPF_LSA_HEADER_SIZE in *. rewrite lsa_bytes_getn in En by (unfold OSPF_LSA_HEADER_SIZE; lia).
  pose proof Ho as (_ & _ & Hlt). replace (lo_length o - 20 - 4) with (lo_length o - 24) in E by lia.
  rewrite u16_sub in E by lia.
  eapply links_examin_chain in E as (ls & Hls & Hn); [| done | change links_start with 24; unfold OSPF_LSA_HEADER_SIZE; lia ..].
  exists ls. split_and!; [done | lia |]. rewrite En. f_equal. lia.
Qed.

Lemma examined_network o : lsa_examined o -> lo_type o = OSPF_NETWORK_LSA -> 28 <= lo_length o /\ lo_length o mod 4 = 0.
Proof.
  intros H Ht. pose proof (examined_type o H) as E3. destruct H as (Ho & _ & E). unfold ospf_lsa_examin in E.
  change (0 + 3) with 3 in E. rewrite E3, Ht in E. cbn [mbind res_bind] in E.
  change (byte_at ospf_lsa_minlen OSPF_NETWORK_LSA) with 8 in E. change (OSPF_NETWORK_LSA <? OSPF_MAX_LSA) with true in E.
  cbn [andb negb Z.eqb] in E. destruct (Z.ltb_spec (lo_length o) (OSPF_LSA_HEADER_SIZE + 8)) as [| Hl]; [by injection E |].
  change (OSPF_NETWORK_LSA =? OSPF_ROUTER_LSA) with false in E. cbn iota in E.
  change (_ || _) with false in E at 1. cbn iota in E. change (_ || _) with true in E at 1. cbn iota in E.
  unfold OSPF_LSA_HEADER_SIZE in Hl. split; [lia |]. destruct (Z.eqb_spec (lo_length o mod 4) 0); [done | by injection E].
Qed.

(** ** Loops over LSAs stay inside *)

Lemma has_link_network_Ok w vid n fuel : forall i,
  body_ok w -> 0 <= i -> 24 + 4 * n <= lo_length w -> (0 < fuel)%nat -> n - i < Z.of_nat fuel ->
  exists z, has_link_network_loop fuel w vid n i = Ok z.
Proof.
  induction fuel as [| fuel IH]; intros i Hw Hi Hn H0 Hf; cbn [has_link_network_loop]; [lia |].
    destruct (Z.ltb_spec i n); [| eauto]. unfold OSPF_LSA_HEADER_SIZE.
    destruct (lget_exists 4 w (20 + 4 + 4 * i) Hw) as (r & -> & _); [unfold OSPF_LSA_HEADER_SIZE; lia | lia |]. cbn [mbind res_bind].
    destruct (r =? vid); [eauto |]. apply IH; (done || lia).
Qed.

Lemma has_link_router_Ok w vt vid links fuel : forall len i,
  body_ok w -> 0 <= i -> len = lo_length w - 12 * i -> (0 < fuel)%nat -> len < 12 * Z.of_nat fuel + 12 ->
  exists z, has_link_router_loop fuel w vt vid links len i = Ok z.
Proof.
  induction fuel as [| fuel IH]; intros len i Hw Hi Hlen Hf Hb; [lia |]. cbn [has_link_router_loop].
  destruct (Z.ltb_spec i links), (Z.leb_spec 36 len); cbn [andb]; eauto.
  destruct (rd_link_exists w (links_start + 12 * i) Hw) as [l ->]; [change links_start with 24; unfold OSPF_LSA_HEADER_SIZE; lia | change links_start with 24; lia |].
  cbn [mbind res_bind]. destruct (_ && _); [eauto |]. destruct (_ && _); [eauto |].
  destruct Hw as (? & ? & ?). rewrite u32_sub by lia. apply IH; [split_and!; done | lia | lia | lia | lia].
Qed.

Lemma has_link_Ok w v : lsa_examined w -> exists z, ospf_lsa_has_link w v = Ok z.
Proof.
  intros Hw. pose proof Hw as (Ho & _). pose proof Ho as (_ & Hl & Hlt). unfold ospf_lsa_has_link.
  destruct (Z.eqb_spec (lo_type w) OSPF_NETWORK_LSA) as [Ht | _].
  - destruct (_ =? _); [eauto |]. destruct (examined_network w Hw Ht) as [H28 Hm].
    unfold lsa_fuel, OSPF_LSA_HEADER_SIZE in *. replace (lo_length w - 20 - 4) with (lo_length w - 24) by lia. rewrite u32_sub by lia.
    pose proof (Z.div_mod (lo_length w - 24) 4). pose proof (Z.mod_pos_bound (lo_length w - 24) 4).
    apply has_link_network_Ok; (done || lia).
  - destruct (Z.eqb_spec (lo_type w) OSPF_ROUTER_LSA) as [Ht | _]; [| eauto].
    destruct (examined_links w Hw Ht) as (ls & _ & H24 & ->). cbn [mbind res_bind].
    unfold lsa_fuel, OSPF_LSA_HEADER_SIZE in *. apply has_link_router_Ok; (done || lia).
Qed.

(** The links to look for: point-to-point for a router, transit for a network. *)
Definition back_type (vtype : Z) : Z := if vtype =? OSPF_ROUTER_LSA then LSA_LINK_TYPE_POINTOPOINT else LSA_LINK_TYPE_TRANSIT.
Definition is_back (vtype vid : Z) (l : router_lsa_link) : bool := (l_type l =? back_type vtype) && (link_id l =? vid).

(** What [ospf_get_next_link] finds, and where the rest of the links begins. *)
Inductive next_found (o : lsa_object) (vtype vid : Z) : list router_lsa_link -> option router_lsa_link -> Prop :=
| found_none ls : Forall (fun l => is_back vtype vid l = false) ls -> next_found o vtype vid ls None
| found_some ls1 l ls2 : Forall (fun l => is_back vtype vid l = false) ls1 -> is_back vtype vid l = true ->
    links_at o (link_end l) ls2 -> next_found o vtype vid (ls1 ++ l :: ls2) (Some l).

Lemma get_next_link_found o vtype vid p ls :
  body_ok o -> links_at o p ls -> forall fuel, (length ls < fuel)%nat ->
  exists r, get_next_link_loop fuel o (back_type vtype) vid p (lo_length o) = Ok r /\ next_found o vtype vid ls r.
Proof.
  intros Ho. induction 1 as [| p l ls Hp El H IH]; intros fuel Hf; (destruct fuel as [| fuel]; [cbn in Hf; lia |]); cbn [get_next_link_loop].
  - rewrite Z.ltb_irrefl. exists None. split; [done | by constructor].
  - rewrite (proj2 (Z.ltb_lt _ _) Hp), El. cbn [mbind res_bind length] in *.
    destruct (IH fuel ltac:(lia)) as (r & Er & Hr).
    assert (is_back vtype vid l = false -> next_found o vtype vid (l :: ls) r) as Hskip.
    { intros Hb. inversion Hr as [? HF | ls1 k ls2 HF Hk Hls]; subst; [constructor; by constructor |].
      apply (found_some _ _ _ (l :: ls1)); [by constructor | done | done]. }
    unfold is_back in Hskip. destruct (Z.eqb_spec (l_type l) (back_type vtype)) as [Et | Et]; cbn [negb andb] in *.
    + destruct (Z.eqb_spec (link_id l) vid) as [Ei | Ei]; [| eauto].
      exists (Some l). split; [done |]. apply (found_some _ _ _ []); [constructor | unfold is_back; by rewrite Et, Ei, !Z.eqb_refl | done].
    + eauto.
Qed.

(** The position after the previous link, with the links that remain. *)
Definition after (o : lsa_object) (prev : option router_lsa_link) (ls : list router_lsa_link) : Prop :=
  match prev with None => lsa_links o ls | Some l => links_at o (link_end l) ls /\ OSPF_LSA_HEADER_SIZE <= link_end l end.

Lemma get_next_link_after o vtype vid prev ls :
  body_ok o -> after o prev ls ->
  exists r, ospf_get_next_link o vtype vid prev = Ok r /\ next_found o vtype vid ls r.
Proof.
  intros Ho Ha. unfold ospf_get_next_link. fold (back_type vtype).
  destruct prev as [l |]; cbn in Ha.
  - destruct Ha as [Ha Hp]. by apply get_next_link_found; [| | eapply links_fuel].
  - apply get_next_link_found; [done | done |]. eapply links_fuel; [done | done |]. change links_start with 24. unfold OSPF_LSA_HEADER_SIZE. lia.
Qed.

Lemma links_at_end_pos o p ls l : body_ok o -> links_at o p ls -> OSPF_LSA_HEADER_SIZE <= p -> l ∈ ls -> OSPF_LSA_HEADER_SIZE <= link_end l.
Proof.
  intros Ho. induction 1 as [| p k ls Hp Ek H IH]; intros H20 Hl; [by apply not_elem_of_nil in Hl |].
  destruct (rd_link_fields _ _ _ Ho Ek) as (Epos & Ht & _).
  assert (OSPF_LSA_HEADER_SIZE <= link_end k) as Hk by (unfold link_end, OSPF_ROUTER_LSA_LINK_SIZE, OSPF_ROUTER_LSA_TOS_SIZE; rewrite Epos; lia).
  apply elem_of_cons in Hl as [-> | Hl]; [done | by apply IH].
Qed.

(** After finding [k], the search goes on after [k]. *)
Lemma after_found o prev ls1 k ls2 :
  body_ok o -> after o prev (ls1 ++ k :: ls2) -> links_at o (link_end k) ls2 -> after o (Some k) ls2.
Proof.
  intros Ho Ha Hls. split; [done |]. assert (k ∈ ls1 ++ k :: ls2) as Hk by (apply elem_of_app; right; by left).
  destruct prev as [l |]; cbn in Ha.
  - destruct Ha as [Ha Hp]. exact (links_at_end_pos _ _ _ _ Ho Ha Hp Hk).
  - eapply (links_at_end_pos o links_start); [done | exact Ha | done | done].
Qed.

(** ** LSAs without TOS metrics: the two ways of walking the links agree *)

Definition no_tos (o : lsa_object) : Prop := forall ls, lsa_links o ls -> Forall (fun l => tos_count l = 0) ls.

Lemma no_tos_nth o p ls : body_ok o -> links_at o p ls -> Forall (fun l => tos_count l = 0) ls ->
  forall i l, 0 <= i -> rd_link o (p + 12 * i) = Ok l -> p + 12 * i < lo_length o -> l ∈ ls.
Proof.
  intros Ho. induction 1 as [| p k ls Hp Ek H IH]; intros HF i l Hi El Hlt; [lia |].
  inversion HF as [| ?? Hk HF']; subst. destruct (decide (i = 0)) as [-> | Hne].
  - rewrite Z.mul_0_r, Z.add_0_r, Ek in El. injection El as <-. by left.
  - right. destruct (rd_link_fields _ _ _ Ho Ek) as (Epos & _).
    assert (link_end k = p + 12) as Ee by (unfold link_end, OSPF_ROUTER_LSA_LINK_SIZE, OSPF_ROUTER_LSA_TOS_SIZE; rewrite Epos, Hk; lia).
    apply (IH HF' (i - 1)); [lia | |]; rewrite Ee; [by replace (p + 12 + 12 * (i - 1)) with (p + 12 * i) by lia | lia].
Qed.

(** The index that is returned is that of a link. *)
Lemma has_link_router_index w vt vid links fuel : forall len i z,
  has_link_router_loop fuel w vt vid links len i = Ok z -> 0 <= z -> exists l, rd_link w (links_start + 12 * z) = Ok l.
Proof.
  induction fuel as [| fuel IH]; intros len i z E Hz; [done |]. cbn [has_link_router_loop] in E.
  destruct (_ && _); [| injection E as <-; lia]. apply bind_Ok in E as (l & El & E).
  destruct (_ && _); [injection E as <-; eauto |]. destruct (_ && _); [injection E as <-; eauto |]. eauto.
Qed.

Lemma has_link_index w v z :
  ospf_lsa_has_link w v = Ok z -> 0 <= z -> lo_type w = OSPF_ROUTER_LSA -> exists l, rd_link w (links_start + 12 * z) = Ok l.
Proof.
  intros E Hz Ht. unfold ospf_lsa_has_link in E. rewrite Ht in E.
  change (OSPF_ROUTER_LSA =? OSPF_NETWORK_LSA) with false in E. change (OSPF_ROUTER_LSA =? OSPF_ROUTER_LSA) with true in E. cbn iota in E.
  apply bind_Ok in E as (links & _ & E). by eapply has_link_router_index.
Qed.

Lemma has_link_router_found w vid links fuel : forall len i z,
  has_link_router_loop fuel w OSPF_NETWORK_LSA vid links len i = Ok z -> 0 <= i -> 0 <= z ->
  exists j l, 0 <= j /\ rd_link w (links_start + 12 * j) = Ok l /\ is_back OSPF_NETWORK_LSA vid l = true.
Proof.
  induction fuel as [| fuel IH]; intros len i z E Hi Hz; [done |]. cbn [has_link_router_loop] in E.
  destruct (_ && _) eqn:Hc; [| injection E as <-; lia]. apply bind_Ok in E as (l & El & E).
  change (OSPF_NETWORK_LSA =? OSPF_ROUTER_LSA) with false in E. rewrite andb_false_l, andb_false_r in E.
  change (OSPF_NETWORK_LSA =? OSPF_NETWORK_LSA) with true in E. rewrite andb_true_l in E.
  destruct ((l_type l =? LSA_LINK_TYPE_TRANSIT) && (link_id l =? vid)) eqn:Hb; [eauto 10 |].
  eapply IH; [exact E | lia | done].
Qed.

(** A router-LSA without TOS metrics that links back to a network has a link that [ospf_get_next_link] finds. *)
Lemma no_tos_back w v ls z :
  lsa_examined w -> lo_type w = OSPF_ROUTER_LSA -> lo_type v = OSPF_NETWORK_LSA -> no_tos w -> lsa_links w ls ->
  ospf_lsa_has_link w v = Ok z -> 0 <= z -> exists l, l ∈ ls /\ is_back (lo_type v) (lo_id v) l = true.
Proof.
  intros Hw Ht Hv Hn Hls E Hz. pose proof Hw as (Ho & _). unfold ospf_lsa_has_link in E. rewrite Ht, Hv in E.
  change (OSPF_ROUTER_LSA =? OSPF_NETWORK_LSA) with false in E. change (OSPF_ROUTER_LSA =? OSPF_ROUTER_LSA) with true in E. cbn iota in E.
  apply bind_Ok in E as (links & _ & E). destruct (has_link_router_found _ _ _ _ _ _ _ E) as (j & l & Hj & El & Hb); [lia | done |].
  exists l. rewrite Hv. split; [| done].
  destruct (rd_link_fields _ _ _ Ho El) as (_ & _ & _ & Hp & _). eapply (no_tos_nth w links_start); [done | done | by apply Hn | done | done | lia].
Qed.
