(* ===== verification/OspfSpfNexthop.v ===== *)
(** * Next hops: what [ospf_nexthop_calculation] adds to a vertex

    On examined LSAs the next hop calculation of ospfd/ospf_spf.c always returns; its effect is to give the
    destination vertex the new distance and a list of new parents, whose next hops are either fresh objects (the
    parent is the root, or a network attached to it) or those of the parent. *)

From S2P Require Import Prelude Prefix OspfLsdb OspfNeighbor OspfLsaWire OspfLsaProofs OspfSpfTypes OspfSpf.
Local Open Scope Z_scope.

Notation hop := (option spf_if * Z)%type (only parsing).
Definition hop_of (vp : vertex_parent) : hop := (nh_oi (nexthop vp), nh_router (nexthop vp)).

(** ** Parents added together *)

Definition add_vps (dist : Z) (vps : list vertex_parent) (w : vertex) : vertex :=
  match vps with
  | [] => w
  | _ =>
      let w := if distance w =? 0 then set_distance dist w
               else if dist <? distance w then set_distance dist (set_parents [] w) else w in
      set_parents (parents w ++ vps) w
  end.

(** The distance [dist] may be recorded in [w]. *)
Definition admits (dist : Z) (w : vertex) : Prop := dist <> 0 /\ (distance w = 0 \/ dist <= distance w).

Lemma add_vps_fields dist vps w :
  v_type (add_vps dist vps w) = v_type w /\ v_id (add_vps dist vps w) = v_id w /\ v_lsa (add_vps dist vps w) = v_lsa w /\
  children (add_vps dist vps w) = children w /\ v_flags (add_vps dist vps w) = v_flags w.
Proof. destruct vps; [done |]. unfold add_vps. destruct (_ =? _); [done |]. by destruct (_ <? _). Qed.

Lemma add_vps_distance dist vps w : admits dist w -> vps <> [] -> distance (add_vps dist vps w) = dist.
Proof.
  intros [Hd Hw] Hv. destruct vps; [done |]. unfold add_vps. destruct (Z.eqb_spec (distance w) 0); [done |].
  destruct (Z.ltb_spec dist (distance w)); cbn; [done | lia].
Qed.

Lemma add_vps_parents dist vps w :
  admits dist w -> vps <> [] ->
  parents (add_vps dist vps w) = (if (dist <? distance w) && negb (distance w =? 0) then [] else parents w) ++ vps.
Proof.
  intros [Hd Hw] Hv. destruct vps; [done |]. unfold add_vps. destruct (Z.eqb_spec (distance w) 0).
  - by rewrite andb_false_r.
  - rewrite andb_true_r. by destruct (_ <? _).
Qed.

Lemma add_vps_admits dist vps w : admits dist w -> admits dist (add_vps dist vps w).
Proof.
  intros H. destruct (decide (vps = [])) as [-> | Hne]; [done |]. split; [by apply H |]. right. rewrite add_vps_distance by done. lia.
Qed.

Lemma add_vps_app dist vps1 vps2 w : admits dist w -> add_vps dist vps2 (add_vps dist vps1 w) = add_vps dist (vps1 ++ vps2) w.
Proof.
  intros H. destruct vps2 as [| vp2 r2]; [by rewrite app_nil_r |]. destruct vps1 as [| vp1 r1]; [done |].
  pose proof (add_vps_distance dist (vp1 :: r1) w H ltac:(done)) as Hd.
  unfold add_vps at 1. rewrite Hd, Z.ltb_irrefl, (proj2 (Z.eqb_neq _ _)) by apply H.
  unfold add_vps. cbn [app]. destruct (distance w =? 0); [| destruct (_ <? _)]; unfold set_parents; cbn; by rewrite <- ?app_assoc.
Qed.

(** ** Fresh next hops *)

Definition alloc (hops : list hop) (s : spf) : spf := fold_left (fun s h => (vertex_nexthop_new h.1 h.2 s).2) hops s.

Fixpoint fresh_vps (xv : vertex_ptr) (bl : Z) (n : positive) (hops : list hop) : list vertex_parent :=
  match hops with
  | [] => []
  | h :: r => mk_vp (mk_nexthop n h.1 h.2) xv bl :: fresh_vps xv bl (Pos.succ n) r
  end.

Definition inherit_vps (xv : vertex_ptr) (bl : Z) (ps : list vertex_parent) : list vertex_parent :=
  (fun vp => mk_vp (nexthop vp) xv bl) <$> ps.

Lemma alloc_set_vertex hops x v s : alloc hops (set_vertex x v s) = set_vertex x v (alloc hops s).
Proof. revert s. induction hops as [| h r IH]; intros s; [done |]. cbn. rewrite <- IH. done. Qed.

Lemma alloc_frame hops s : exists live n, alloc hops s = set_nexthops live n s /\
  (forall i, i ∈ live <-> i ∈ live_nexthops s \/ (next_nexthop s <= i < n)%positive) /\ (next_nexthop s <= n)%positive.
Proof.
  revert s. induction hops as [| h r IH]; intros s; cbn.
  - exists (live_nexthops s), (next_nexthop s). split; [by destruct s |]. split; [| lia]. intros i. split; [by left |]. intros [? | ?]; [done | lia].
  - destruct (IH (vertex_nexthop_new h.1 h.2 s).2) as (live & n & E & Hl & Hn). cbn in *. exists live, n. split; [| split; [| lia]].
    + etrans; [exact E | done].
    + intros i. rewrite Hl, elem_of_union, elem_of_singleton. split; [intros [[-> | ?] | ?]; [right | by left | right]; lia |].
      intros [? | ?]; [by left; right |]. destruct (decide (i = next_nexthop s)); [by left; left | right; lia].
Qed.

Lemma alloc_ext hops : forall s s', next_nexthop s = next_nexthop s' -> live_nexthops s = live_nexthops s' ->
  next_nexthop (alloc hops s) = next_nexthop (alloc hops s') /\ live_nexthops (alloc hops s) = live_nexthops (alloc hops s').
Proof. induction hops as [| h r IH]; intros s s' En El; [done |]. cbn. apply IH; cbn; congruence. Qed.

Lemma alloc_next hops : forall s, Pos.to_nat (next_nexthop (alloc hops s)) = (Pos.to_nat (next_nexthop s) + length hops)%nat.
Proof. induction hops as [| h r IH]; intros s; cbn; [lia |]. rewrite IH. cbn. lia. Qed.

Lemma fresh_vps_id xv bl hops : forall n k vp, fresh_vps xv bl n hops !! k = Some vp ->
  Pos.to_nat (nh_id (nexthop vp)) = (Pos.to_nat n + k)%nat /\ (k < length hops)%nat.
Proof.
  induction hops as [| h r IH]; intros n k vp E; [done |]. destruct k as [| k]; cbn in E.
  - injection E as <-. cbn. lia.
  - destruct (IH _ _ _ E) as [-> ?]. cbn. lia.
Qed.

Lemma fresh_vps_backlink xv bl hops : forall n vp, vp ∈ fresh_vps xv bl n hops -> backlink vp = bl.
Proof.
  induction hops as [| h r IH]; intros n vp H; cbn in H; [by apply not_elem_of_nil in H |].
  apply elem_of_cons in H as [-> | H]; [done | by eapply IH].
Qed.

Lemma fresh_vps_hops xv bl n hops : hop_of <$> fresh_vps xv bl n hops = hops.
Proof. revert n. induction hops as [| [oi r] t IH]; intros n; [done |]. cbn. by rewrite IH. Qed.

Lemma inherit_vps_hops xv bl ps : hop_of <$> inherit_vps xv bl ps = hop_of <$> ps.
Proof. unfold inherit_vps. rewrite <- list_fmap_compose. done. Qed.

Lemma fresh_vps_nil xv bl n hops : fresh_vps xv bl n hops = [] <-> hops = [].
Proof. by destruct hops. Qed.

(** ** One parent *)

Section calc.
Context (e : area_env).
Context (ENV : forall p o, lsas_of e !! p = Some o -> lsa_examined o).

Lemma add_parent_Ok xv xw v w ov ow nh dist bl s :
  vertices s !! xv = Some v -> vertices s !! xw = Some w -> lsas_of e !! v_lsa v = Some ov -> lsas_of e !! v_lsa w = Some ow ->
  ospf_lsa_has_link ow ov = Ok bl -> admits dist w ->
  ospf_spf_add_parent e xv xw nh dist s = Ok (set_vertex xw (add_vps dist [mk_vp nh xv bl] w) s).
Proof.
  intros Ev Ew Eov Eow Ebl [Hd Hw]. unfold ospf_spf_add_parent, get_vertex. rewrite Ev, Ew. cbn [mbind res_bind].
  rewrite (proj2 (Z.eqb_neq dist 0) Hd). cbn [negb c_assert mbind res_bind]. unfold add_vps.
  destruct (Z.eqb_spec (distance w) 0) as [H0 | H0]; cbn [negb].
  - cbn [mbind res_bind distance set_distance]. rewrite Z.ltb_irrefl. unfold vertex_obj, get_obj. cbn [v_lsa set_distance]. rewrite Eow, Eov.
    cbn [mbind res_bind]. by rewrite Ebl.
  - rewrite (proj2 (Z.leb_le _ _)) by lia. cbn [c_assert mbind res_bind].
    destruct (dist <? distance w); unfold vertex_obj, get_obj; cbn [v_lsa set_distance ospf_spf_flush_parents set_parents]; rewrite Eow, Eov; cbn [mbind res_bind]; by rewrite Ebl.
Qed.

(** ** The loops *)

(** The links of [ow] back to the vertex [v]. *)
Definition backs (v : vertex) (ls : list router_lsa_link) : list router_lsa_link := filter (fun l => is_back (v_type v) (v_id v) l = true) ls.

Lemma backs_none v ls1 ls2 : Forall (fun l => is_back (v_type v) (v_id v) l = false) ls1 -> backs v (ls1 ++ ls2) = backs v ls2.
Proof.
  intros H. unfold backs. rewrite list.filter_app. assert (filter (fun l => is_back (v_type v) (v_id v) l = true) ls1 = []) as ->; [| done].
  induction H as [| l r Hl H IH]; [done |]. rewrite filter_cons_False by congruence. done.
Qed.

(** The state in the midst of a next hop calculation for [xw] from [xv], whose vertices are [w] and [v]. *)
Record calc_pre (xv xw : vertex_ptr) (v w : vertex) (ov ow : lsa_object) (lsw : list router_lsa_link) (bl dist : Z) (s : spf) : Prop := {
  cp_v : vertices s !! xv = Some v; cp_w : vertices s !! xw = Some w; cp_ne : xv <> xw;
  cp_ov : lsas_of e !! v_lsa v = Some ov; cp_ow : lsas_of e !! v_lsa w = Some ow;
  cp_bl : ospf_lsa_has_link ow ov = Ok bl; cp_admits : admits dist w }.

Lemma calc_pre_step xv xw v w ov ow lsw bl dist s vps s' :
  calc_pre xv xw v w ov ow lsw bl dist s -> vertices s' = vertices s ->
  calc_pre xv xw v (add_vps dist vps w) ov ow lsw bl dist (set_vertex xw (add_vps dist vps w) s').
Proof.
  intros [Ev Ew Hne Eov Eow Ebl Ha] Es. pose proof (add_vps_fields dist vps w) as (Et & Ei & El & _).
  split; cbn; rewrite ?Es; try done.
  - by rewrite lookup_insert_ne.
  - by rewrite lookup_insert_eq.
  - by rewrite El.
  - by apply add_vps_admits.
Qed.

Lemma set_vertex_twice x v v' s : set_vertex x v' (set_vertex x v s) = set_vertex x v' s.
Proof. unfold set_vertex, set_vertices. cbn. by rewrite insert_insert_eq. Qed.

Lemma set_vertex_same x v s : vertices s !! x = Some v -> set_vertex x v s = s.
Proof. intros E. unfold set_vertex, set_vertices. rewrite insert_id by done. by destruct s. Qed.

Lemma calc_add xv xw v w ov ow lsw bl dist s nh :
  calc_pre xv xw v w ov ow lsw bl dist s ->
  ospf_spf_add_parent e xv xw nh dist s = Ok (set_vertex xw (add_vps dist [mk_vp nh xv bl] w) s).
Proof. intros []. by eapply add_parent_Ok. Qed.

Lemma inherit_loop_Ok xv xw v ov ow lsw bl dist ps : forall w s added,
  calc_pre xv xw v w ov ow lsw bl dist s ->
  inherit_parents_loop e xv xw ps dist added s =
    Ok (added || negb (bool_decide (ps = [])), set_vertex xw (add_vps dist (inherit_vps xv bl ps) w) s).
Proof.
  induction ps as [| vp r IH]; intros w s added H; cbn [inherit_parents_loop].
  - cbn. rewrite orb_false_r, set_vertex_same by apply H. done.
  - rewrite (calc_add _ _ _ _ _ _ _ _ _ _ _ H). cbn [mbind res_bind].
    rewrite (IH (add_vps dist [mk_vp (nexthop vp) xv bl] w) _ true) by by eapply calc_pre_step.
    rewrite set_vertex_twice, add_vps_app by apply H. cbn. by rewrite orb_true_r.
Qed.

Lemma new_calc_pre xv xw v w ov ow lsw bl dist s oi r :
  calc_pre xv xw v w ov ow lsw bl dist s -> calc_pre xv xw v w ov ow lsw bl dist (vertex_nexthop_new oi r s).2.
Proof. intros []. by split. Qed.

Lemma network_links_loop_Ok xv xw v ov ow lsw bl dist oi fuel : forall l ls w s added,
  body_ok ow -> calc_pre xv xw v w ov ow lsw bl dist s -> after ow l ls -> (length ls < fuel)%nat ->
  let hops := (fun k => (oi, link_data k)) <$> backs v ls in
  network_links_loop fuel e xv xw v ow oi l dist added s =
    Ok (added || negb (bool_decide (hops = [])), set_vertex xw (add_vps dist (fresh_vps xv bl (next_nexthop s) hops) w) (alloc hops s)).
Proof.
  induction fuel as [| fuel IH]; intros l ls w s added Ho H Ha Hf hops; [lia |]. cbn [network_links_loop].
  destruct (get_next_link_after ow (v_type v) (v_id v) l ls Ho Ha) as (r & -> & Hr). cbn [mbind res_bind].
  inversion Hr as [ls0 HF | ls1 k ls2 HF Hk Hls]; subst.
  - assert (hops = []) as ->.
    { unfold hops. pose proof (backs_none v ls [] HF) as Hb. rewrite app_nil_r in Hb. by rewrite Hb. }
    cbn. rewrite orb_false_r, set_vertex_same by apply H. done.
  - assert (hops = (oi, link_data k) :: ((fun k => (oi, link_data k)) <$> backs v ls2)) as Eh.
    { unfold hops. rewrite backs_none by done. unfold backs. rewrite filter_cons_True by done. done. }
    cbn [vertex_nexthop_new]. fold (vertex_nexthop_new oi (link_data k) s).2.
    pose proof (new_calc_pre _ _ _ _ _ _ _ _ _ _ oi (link_data k) H) as H1.
    set (s1 := (vertex_nexthop_new oi (link_data k) s).2) in *. rewrite (calc_add _ _ _ _ _ _ _ _ _ _ _ H1). cbn [mbind res_bind].
    pose proof (after_found _ _ _ _ _ Ho Ha Hls) as Hp.
    rewrite length_app in Hf. cbn [length] in Hf.
    rewrite (IH (Some k) ls2 (add_vps dist [mk_vp (mk_nexthop (next_nexthop s) oi (link_data k)) xv bl] w) _ true Ho);
      [| by eapply calc_pre_step | done | lia].
    rewrite Eh. cbn [fresh_vps alloc fold_left fst snd]. rewrite alloc_set_vertex, set_vertex_twice, add_vps_app by apply H.
    cbn [app bool_decide]. by rewrite orb_true_r.
Qed.

(** The hops that a network attached to the root gives: one for each interface of the root on it and each link back. *)
Definition net_hops (rt : vertex_ptr) (v : vertex) (lsw : list router_lsa_link) (ps : list vertex_parent) : list hop :=
  ps ≫= fun vp => if decide (parent vp = rt) then (fun k => (nh_oi (nexthop vp), link_data k)) <$> backs v lsw else [].

Lemma net_hops_cons rt v lsw vp r : net_hops rt v lsw (vp :: r) =
  (if decide (parent vp = rt) then (fun k => (nh_oi (nexthop vp), link_data k)) <$> backs v lsw else []) ++ net_hops rt v lsw r.
Proof. done. Qed.

Lemma alloc_app h1 h2 s : alloc (h1 ++ h2) s = alloc h2 (alloc h1 s).
Proof. apply fold_left_app. Qed.

Lemma fresh_vps_app xv bl h1 h2 s : fresh_vps xv bl (next_nexthop s) (h1 ++ h2) =
  fresh_vps xv bl (next_nexthop s) h1 ++ fresh_vps xv bl (next_nexthop (alloc h1 s)) h2.
Proof. revert s. induction h1 as [| h r IH]; intros s; [done |]. cbn. f_equal. exact (IH (vertex_nexthop_new h.1 h.2 s).2). Qed.

Lemma alloc_root hops s : root (alloc hops s) = root s /\ vertices (alloc hops s) = vertices s.
Proof. destruct (alloc_frame hops s) as (live & n & -> & _). done. Qed.

Lemma orb_nil {A} (b : bool) (l1 l2 : list A) :
  b || negb (bool_decide (l1 = [])) || negb (bool_decide (l2 = [])) = b || negb (bool_decide (l1 ++ l2 = [])).
Proof. destruct l1, l2; cbn; by rewrite ?orb_true_r, ?orb_false_r. Qed.

Lemma network_parents_loop_Ok xv xw v ov ow lsw bl dist ps : forall w s added,
  body_ok ow -> calc_pre xv xw v w ov ow lsw bl dist s -> lsa_links ow lsw -> v_type w = OSPF_VERTEX_ROUTER ->
  let hops := net_hops (root s) v lsw ps in
  network_parents_loop e xv xw v ps None dist added s =
    Ok (added || negb (bool_decide (hops = [])), set_vertex xw (add_vps dist (fresh_vps xv bl (next_nexthop s) hops) w) (alloc hops s)).
Proof.
  induction ps as [| vp r IH]; intros w s added Ho H Hls Ht hops; cbn [network_parents_loop].
  - cbn. rewrite orb_false_r, set_vertex_same by apply H. done.
  - unfold hops. rewrite net_hops_cons. destruct (decide (parent vp = root s)) as [Hr | Hr].
    + unfold get_vertex. rewrite (cp_w _ _ _ _ _ _ _ _ _ _ H). cbn [mbind res_bind]. rewrite Ht. cbn [c_assert Z.eqb Pos.eqb mbind res_bind].
      unfold vertex_obj, get_obj. rewrite (cp_ow _ _ _ _ _ _ _ _ _ _ H). cbn [mbind res_bind].
      set (h1 := (fun k => (nh_oi (nexthop vp), link_data k)) <$> backs v lsw).
      rewrite (network_links_loop_Ok xv xw v ov ow lsw bl dist (nh_oi (nexthop vp)) (lsa_fuel ow) None lsw w s added Ho H Hls);
        [| eapply links_fuel; [done | exact Hls | change links_start with 24; unfold OSPF_LSA_HEADER_SIZE; lia]].
      fold h1. cbn [mbind res_bind].
      set (w1 := add_vps dist (fresh_vps xv bl (next_nexthop s) h1) w). destruct (alloc_root h1 s) as [Er Evs].
      rewrite (IH w1 _ (added || negb (bool_decide (h1 = []))) Ho); [| by eapply calc_pre_step | done | unfold w1; by destruct (add_vps_fields dist (fresh_vps xv bl (next_nexthop s) h1) w) as (-> & _)].
      cbn [root set_vertex set_vertices]. rewrite Er. set (h2 := net_hops (root s) v lsw r).
      rewrite alloc_set_vertex, set_vertex_twice, alloc_app, fresh_vps_app. unfold w1. rewrite add_vps_app by apply H.
      rewrite <- orb_nil. done.
    + apply IH; done.
Qed.

(** ** The whole calculation *)

(** The hops to [w] through [v] over the link [l], and whether they are fresh objects. *)
Definition calc_hops (vls : list vl_data) (rt xv : vertex_ptr) (v w : vertex) (l : option router_lsa_link) (lsw : list router_lsa_link)
  : list hop * bool :=
  if decide (xv = rt) then (match root_nexthop e vls v w l with Ok (Some h) => [h] | _ => [] end, true)
  else
    let nh := if v_type v =? OSPF_VERTEX_NETWORK then net_hops rt v lsw (parents v) else [] in
    if bool_decide (nh = []) then (hop_of <$> parents v, false) else (nh, true).

Definition calc_vps (vls : list vl_data) (n : positive) (rt xv : vertex_ptr) (v w : vertex) (l : option router_lsa_link) (lsw : list router_lsa_link) (bl : Z)
  : list vertex_parent :=
  let '(hops, fresh) := calc_hops vls rt xv v w l lsw in
  if fresh then fresh_vps xv bl n hops else inherit_vps xv bl (parents v).

Definition calc_alloc (r : list hop * bool) (s : spf) : spf := if r.2 then alloc r.1 s else s.

Lemma nexthop_calculation_Ok xv xw v w ov ow lsw bl dist l s :
  body_ok ow -> calc_pre xv xw v w ov ow lsw bl dist s ->
  (xv = root s -> exists r, root_nexthop e (vlinks s) v w l = Ok r) ->
  (v_type v = OSPF_VERTEX_NETWORK -> l = None /\ v_type w = OSPF_VERTEX_ROUTER /\ lsa_links ow lsw) ->
  let vps := calc_vps (vlinks s) (next_nexthop s) (root s) xv v w l lsw bl in
  ospf_nexthop_calculation e xv xw l dist s =
    Ok (negb (bool_decide (vps = [])), set_vertex xw (add_vps dist vps w) (calc_alloc (calc_hops (vlinks s) (root s) xv v w l lsw) s)).
Proof.
  intros Ho H Hroot Hnet vps. unfold ospf_nexthop_calculation, get_vertex. rewrite (cp_v _ _ _ _ _ _ _ _ _ _ H), (cp_w _ _ _ _ _ _ _ _ _ _ H).
  cbn [mbind res_bind]. unfold vps, calc_vps, calc_hops. destruct (decide (xv = root s)) as [Hr | Hr].
  - destruct (Hroot Hr) as [r ->]. cbn [mbind res_bind]. destruct r as [[oi rt] |].
    + cbn [vertex_nexthop_new]. fold (vertex_nexthop_new oi rt s).2.
      rewrite (calc_add _ _ _ _ _ _ _ _ _ _ _ (new_calc_pre _ _ _ _ _ _ _ _ _ _ oi rt H)). cbn [mbind res_bind]. done.
    + cbn. rewrite set_vertex_same by apply H. done.
  - cbn zeta. destruct (Z.eqb_spec (v_type v) OSPF_VERTEX_NETWORK) as [Ht | Ht].
    + destruct (Hnet Ht) as (-> & Hw & Hls).
      rewrite (network_parents_loop_Ok xv xw v ov ow lsw bl dist (parents v) w s false Ho H Hls Hw). cbn [mbind res_bind orb].
      set (nh := net_hops (root s) v lsw (parents v)). destruct (bool_decide (nh = [])) eqn:Hnil; cbn [negb].
      * apply bool_decide_eq_true in Hnil. rewrite Hnil. cbn [fresh_vps add_vps alloc fold_left]. rewrite set_vertex_same by apply H.
        rewrite (inherit_loop_Ok xv xw v ov ow lsw bl dist (parents v) w s false H). cbn. unfold inherit_vps.
        by destruct (parents v).
      * cbn. apply bool_decide_eq_false in Hnil. by rewrite (bool_decide_eq_false_2 _ (fun E => Hnil (proj1 (fresh_vps_nil _ _ _ _) E))).
    + cbn [mbind res_bind]. rewrite (inherit_loop_Ok xv xw v ov ow lsw bl dist (parents v) w s false H). cbn. unfold inherit_vps. by destruct (parents v).
Qed.

(** ** The next hop over a link of the root *)

(** The loops find the first link back with the address that is looked for. *)
Definition on_network (oi : spf_if) (k : router_lsa_link) : bool := prefix_cmp (ipv4_prefix (link_data k) (prefixlen (if_address oi))) (if_address oi) =? 0.
Definition names_link (oifs : list spf_if) (l k : router_lsa_link) : bool :=
  match ospf_if_is_configured oifs (link_data k) with Some oi => prefix4_val (if_address oi) =? link_data l | None => false end.

Lemma find_app_none {A} (P : A -> bool) l1 l2 : Forall (fun x => P x = false) l1 -> List.find P (l1 ++ l2) = List.find P l2.
Proof. induction 1 as [| x r Hx H IH]; cbn; [done |]. by rewrite Hx. Qed.

Lemma back_none v (P : router_lsa_link -> bool) ls : Forall (fun l => is_back (v_type v) (v_id v) l = false) ls ->
  Forall (fun l => is_back (v_type v) (v_id v) l && P l = false) ls.
Proof. intros H. eapply list.Forall_impl; [exact H |]. by intros l ->. Qed.

Lemma find_none {A} (P : A -> bool) l : Forall (fun x => P x = false) l -> List.find P l = None.
Proof. intros H. rewrite <- (app_nil_r l), find_app_none by done. done. Qed.

Lemma ptmp_loop_find ow v oi fuel : forall l ls, body_ok ow -> after ow l ls -> (length ls < fuel)%nat ->
  ptmp_link_loop fuel ow v oi l = Ok (List.find (fun k => is_back (v_type v) (v_id v) k && on_network oi k) ls).
Proof.
  induction fuel as [| fuel IH]; intros l ls Ho Ha Hf; [lia |]. cbn [ptmp_link_loop].
  destruct (get_next_link_after ow (v_type v) (v_id v) l ls Ho Ha) as (r & -> & Hr). cbn [mbind res_bind].
  inversion Hr as [ls0 HF | ls1 k ls2 HF Hk Hls]; subst; [by rewrite find_none by by apply back_none |]. rewrite length_app in Hf. cbn in Hf.
  rewrite find_app_none by by apply back_none. cbn [List.find]. rewrite Hk. cbn [andb]. unfold on_network at 1. destruct (_ =? 0); [done |].
  apply (IH (Some k) ls2); [done | by eapply after_found | lia].
Qed.

Lemma ptp_loop_find oifs ow v l0 fuel : forall l ls, body_ok ow -> after ow l ls -> (length ls < fuel)%nat ->
  ptp_link_loop fuel oifs ow v l0 l =
    Ok (k ← List.find (fun k => is_back (v_type v) (v_id v) k && names_link oifs l0 k) ls; option_map (fun oi => (oi, k)) (ospf_if_is_configured oifs (link_data k))).
Proof.
  induction fuel as [| fuel IH]; intros l ls Ho Ha Hf; [lia |]. cbn [ptp_link_loop].
  destruct (get_next_link_after ow (v_type v) (v_id v) l ls Ho Ha) as (r & -> & Hr). cbn [mbind res_bind].
  inversion Hr as [ls0 HF | ls1 k ls2 HF Hk Hls]; subst; [by rewrite find_none by by apply back_none |]. rewrite length_app in Hf. cbn in Hf.
  assert (ptp_link_loop fuel oifs ow v l0 (Some k) = _) as Hnext by (apply (IH (Some k) ls2); [done | by eapply after_found | lia]).
  rewrite find_app_none by by apply back_none. cbn [List.find]. rewrite Hk. cbn [andb]. unfold names_link at 1.
  destruct (ospf_if_is_configured oifs (link_data k)) as [oi |] eqn:Ei; [| done]. destruct (_ =? _); cbn [negb]; [| done]. cbn. by rewrite Ei.
Qed.

Lemma root_nexthop_Ok vls v w ow l :
  lsas_of e !! v_lsa w = Some ow -> (v_type w = OSPF_VERTEX_ROUTER -> exists ls, lsa_links ow ls) ->
  (v_type w = OSPF_VERTEX_ROUTER \/ v_type w = OSPF_VERTEX_NETWORK) -> exists r, root_nexthop e vls v w (Some l) = Ok r.
Proof.
  intros Ew Hls Ht. pose proof (ENV _ _ Ew) as (Ho & _). unfold root_nexthop.
  destruct (Z.eqb_spec (v_type w) OSPF_VERTEX_ROUTER) as [Hr | Hr].
  - destruct (Hls Hr) as [ls Hl]. assert (length ls < lsa_fuel ow)%nat as Hf by (eapply links_fuel; [done | exact Hl | done]).
    destruct (l_type l =? LSA_LINK_TYPE_POINTOPOINT).
    + unfold vertex_obj, get_obj. rewrite Ew. cbn [mbind res_bind].
      rewrite (ptp_loop_find (oiflist e) ow v l (lsa_fuel ow) None ls Ho Hl Hf). destruct (ospf_if_is_configured _ _) as [oi |]; [| cbn; eauto].
      destruct (if_type oi =? _); [| cbn; eauto]. rewrite (ptmp_loop_find ow v oi (lsa_fuel ow) None ls Ho Hl Hf). cbn. eauto.
    + destruct (_ =? _); [| eauto]. destruct (ospf_vl_lookup _ _ _); [| eauto]. destruct (CHECK_FLAG _ _); eauto.
  - destruct Ht as [Ht | Ht]; [done |]. rewrite Ht. cbn. destruct (ospf_if_is_configured _ _); eauto.
Qed.
End calc.

(** ** The next hops of the root, as a specification *)

(** [x] is the first element of [l] with the property [P]. *)
Definition first_of {A} (P : A -> Prop) (l : list A) (x : A) : Prop := exists l1 l2, l = l1 ++ x :: l2 /\ P x /\ Forall (fun y => ~ P y) l1.

Lemma find_first_of {A} (f : A -> bool) (P : A -> Prop) l x : (forall y, f y = true <-> P y) -> List.find f l = Some x <-> first_of P l x.
Proof.
  intros Hf. split.
  - induction l as [| y l IH]; cbn; [done |]. destruct (f y) eqn:Hy.
    + intros [= <-]. exists [], l. split_and!; [done | by apply Hf | constructor].
    + intros H. destruct (IH H) as (l1 & l2 & -> & Hx & F). exists (y :: l1), l2. split_and!; [done | done |]. constructor; [| done]. rewrite <- Hf. congruence.
  - intros (l1 & l2 & -> & Hx & F). rewrite find_app_none; [cbn; by rewrite (proj2 (Hf x) Hx) |].
    eapply list.Forall_impl; [exact F |]. cbn. intros y Hy. rewrite <- Hf in Hy. by apply not_true_is_false.
Qed.

(** The interface [oi] answers for the address [a]: it is not a virtual link, and [a] is its own address, or on its network if it is point-to-point. *)
Definition has_address (a : Z) (oi : spf_if) : Prop :=
  if_type oi <> OSPF_IFTYPE_VIRTUALLINK /\
  (if_type oi = OSPF_IFTYPE_POINTOPOINT -> prefix_match (if_connected oi) (ipv4_prefix a IPV4_MAX_PREFIXLEN) = true) /\
  (if_type oi <> OSPF_IFTYPE_POINTOPOINT -> prefix4_val (if_address oi) = a).

Lemma configured_first l a oi : ospf_if_is_configured l a = Some oi <-> first_of (has_address a) l oi.
Proof.
  rewrite <- (find_first_of (fun oi => negb (if_type oi =? OSPF_IFTYPE_VIRTUALLINK) &&
    (if if_type oi =? OSPF_IFTYPE_POINTOPOINT then prefix_match (if_connected oi) (ipv4_prefix a IPV4_MAX_PREFIXLEN) else a =? prefix4_val (if_address oi)))).
  - induction l as [| x l IH]; cbn; [done |]. destruct (negb _); [| done]. cbn [andb]. destruct (if_type x =? _).
    + by destruct (prefix_match _ _).
    + by destruct (_ =? _).
  - intros y. unfold has_address. destruct (Z.eqb_spec (if_type y) OSPF_IFTYPE_VIRTUALLINK); cbn [negb andb]; [naive_solver |].
    destruct (Z.eqb_spec (if_type y) OSPF_IFTYPE_POINTOPOINT); [naive_solver |]. rewrite Z.eqb_eq. naive_solver.
Qed.

Lemma vl_lookup_first l peer vl : ospf_vl_lookup l None peer = Some vl <-> first_of (fun vl => vl_peer vl = peer) l vl.
Proof. rewrite <- (find_first_of (fun vl => vl_peer vl =? peer)) by (intros y; apply Z.eqb_eq). induction l as [| x l IH]; cbn; [done |]. by destruct (_ =? _). Qed.

(** The link [k] of another router is a point-to-point link to the router of the LSA [o]. *)
Definition links_back (o : lsa_object) (k : router_lsa_link) : Prop := l_type k = LSA_LINK_TYPE_POINTOPOINT /\ link_id k = lo_id o.

(** The next hop over the link [l] of the root, whose router-LSA is [o], to the LSA [ow] of its other end, with the interfaces [oifs] and the virtual links [vls]. *)
Inductive first_hop (oifs : list spf_if) (vls : list vl_data) (o ow : lsa_object) (l : router_lsa_link) : hop -> Prop :=
| first_network oi :
    lo_type ow = OSPF_NETWORK_LSA -> first_of (has_address (link_data l)) oifs oi -> first_hop oifs vls o ow l (Some oi, 0)
| first_multipoint oi ls k :
    lo_type ow = OSPF_ROUTER_LSA -> l_type l = LSA_LINK_TYPE_POINTOPOINT ->
    first_of (has_address (link_data l)) oifs oi -> if_type oi = OSPF_IFTYPE_POINTOMULTIPOINT -> lsa_links ow ls ->
    first_of (fun k => links_back o k /\ prefix_cmp (ipv4_prefix (link_data k) (prefixlen (if_address oi))) (if_address oi) = 0) ls k ->
    first_hop oifs vls o ow l (Some oi, link_data k)
| first_point oi ls k :
    lo_type ow = OSPF_ROUTER_LSA -> l_type l = LSA_LINK_TYPE_POINTOPOINT ->
    (forall oi', first_of (has_address (link_data l)) oifs oi' -> if_type oi' <> OSPF_IFTYPE_POINTOMULTIPOINT) -> lsa_links ow ls ->
    first_of (fun k => links_back o k /\ exists oi, first_of (has_address (link_data k)) oifs oi /\ prefix4_val (if_address oi) = link_data l) ls k ->
    first_of (has_address (link_data k)) oifs oi -> first_hop oifs vls o ow l (Some oi, link_data k)
| first_virtual vl :
    lo_type ow = OSPF_ROUTER_LSA -> l_type l = LSA_LINK_TYPE_VIRTUALLINK -> first_of (fun vl => vl_peer vl = link_id l) vls vl ->
    CHECK_FLAG (vl_flags vl) OSPF_VL_FLAG_APPROVED = true -> first_hop oifs vls o ow l (vl_nexthop_oi vl, vl_nexthop_router vl).

Lemma back_links_back o k : lo_type o = OSPF_ROUTER_LSA -> is_back (lo_type o) (lo_id o) k = true <-> links_back o k.
Proof. intros ->. unfold is_back, back_type, links_back. rewrite Z.eqb_refl, andb_true_iff, !Z.eqb_eq. done. Qed.

Section first.
Context (e : area_env) (vls : list vl_data) (v w : vertex) (o ow : lsa_object) (l : router_lsa_link).
Context (TV : v_type v = lo_type o) (IV : v_id v = lo_id o) (TW : v_type w = lo_type ow) (LW : lsas_of e !! v_lsa w = Some ow).
Context (RO : lo_type o = OSPF_ROUTER_LSA) (OK : lsa_examined ow).
Notation first_if a oi := (first_of (has_address a) (oiflist e) oi).

Lemma on_network_first oi ls k : List.find (fun k => is_back (v_type v) (v_id v) k && on_network oi k) ls = Some k <->
  first_of (fun k => links_back o k /\ prefix_cmp (ipv4_prefix (link_data k) (prefixlen (if_address oi))) (if_address oi) = 0) ls k.
Proof. apply find_first_of. intros y. unfold on_network. by rewrite TV, IV, andb_true_iff, back_links_back, Z.eqb_eq. Qed.

Lemma names_link_first ls k : List.find (fun k => is_back (v_type v) (v_id v) k && names_link (oiflist e) l k) ls = Some k <->
  first_of (fun k => links_back o k /\ exists oi, first_if (link_data k) oi /\ prefix4_val (if_address oi) = link_data l) ls k.
Proof.
  apply find_first_of. intros y. unfold names_link. rewrite TV, IV, andb_true_iff, back_links_back by done. setoid_rewrite <- configured_first.
  destruct (ospf_if_is_configured (oiflist e) (link_data y)); [| naive_solver]. rewrite Z.eqb_eq. naive_solver.
Qed.

Lemma root_nexthop_router h : lo_type ow = OSPF_ROUTER_LSA -> l_type l = LSA_LINK_TYPE_POINTOPOINT ->
  root_nexthop e vls v w (Some l) = Ok (Some h) <-> first_hop (oiflist e) vls o ow l h.
Proof.
  intros Ht Hl. destruct (examined_links ow OK Ht) as (ls & Hls & _). pose proof OK as (Ho & _).
  assert (length ls < lsa_fuel ow)%nat as Hf by (eapply links_fuel; [done | exact Hls | done]).
  unfold root_nexthop. rewrite TW, Ht, Hl. change (OSPF_ROUTER_LSA =? OSPF_VERTEX_ROUTER) with true. rewrite Z.eqb_refl. unfold vertex_obj, get_obj. rewrite LW. cbn [mbind res_bind].
  rewrite (ptp_loop_find (oiflist e) ow v l (lsa_fuel ow) None ls Ho Hls Hf).
  assert ((exists oi, ospf_if_is_configured (oiflist e) (link_data l) = Some oi /\ if_type oi = OSPF_IFTYPE_POINTOMULTIPOINT) \/
    forall oi, ospf_if_is_configured (oiflist e) (link_data l) = Some oi -> if_type oi <> OSPF_IFTYPE_POINTOMULTIPOINT) as [(oi & Eo & Em) | Hn].
  { destruct (ospf_if_is_configured _ _) as [oi |]; [| by right]. destruct (decide (if_type oi = OSPF_IFTYPE_POINTOMULTIPOINT)); [left; eauto | right; naive_solver]. }
  - rewrite Eo, Em, Z.eqb_refl, (ptmp_loop_find ow v oi (lsa_fuel ow) None ls Ho Hls Hf). cbn [mbind res_bind]. apply configured_first in Eo as Eo'. split.
    + destruct (List.find _ ls) as [k |] eqn:Ek; [| done]. intros [= <-]. apply on_network_first in Ek. by eapply first_multipoint.
    + intros H. inversion H as [oi' Ht' | oi' ls' k _ _ Eo2 _ Hls' Hk | oi' ls' k _ _ Hno | vl _ Hv]; subst; [by rewrite Ht in Ht' | | by destruct (Hno oi Eo') | by rewrite Hl in Hv].
      apply configured_first in Eo2. rewrite Eo in Eo2. injection Eo2 as <-. rewrite (links_at_fun _ _ _ Hls' _ Hls) in Hk. apply on_network_first in Hk. by rewrite Hk.
  - set (r := match ospf_if_is_configured (oiflist e) (link_data l) with Some oi => _ | None => _ end).
    assert (r = Ok (k ← List.find (fun k => is_back (v_type v) (v_id v) k && names_link (oiflist e) l k) ls; option_map (fun oi => (oi, k)) (ospf_if_is_configured (oiflist e) (link_data k)))) as ->.
    { unfold r. destruct (ospf_if_is_configured _ _) as [oi |] eqn:Eo; [| done]. by rewrite (proj2 (Z.eqb_neq _ _) (Hn oi eq_refl)). }
    cbn [mbind res_bind]. split.
    + destruct (List.find _ ls) as [k |] eqn:Ek; [| done]. cbn. destruct (ospf_if_is_configured (oiflist e) (link_data k)) as [oi |] eqn:Eo; [| done]. intros [= <-].
      eapply first_point; [done | done | | exact Hls | by apply names_link_first | by apply configured_first]. intros oi' Ho'. apply Hn. by apply configured_first.
    + intros H. inversion H as [oi' Ht' | oi' ls' k _ _ Eo2 Em | oi' ls' k _ _ _ Hls' Hk Eo2 | vl _ Hv]; subst; [by rewrite Ht in Ht' | | | by rewrite Hl in Hv].
      * apply configured_first in Eo2. by destruct (Hn _ Eo2).
      * rewrite (links_at_fun _ _ _ Hls' _ Hls) in Hk. apply names_link_first in Hk. apply configured_first in Eo2. rewrite Hk. cbn. by rewrite Eo2.
Qed.

(** The code finds the next hop of the specification. *)
Lemma root_nexthop_first h : root_nexthop e vls v w (Some l) = Ok (Some h) <-> first_hop (oiflist e) vls o ow l h.
Proof.
  destruct (decide (lo_type ow = OSPF_NETWORK_LSA)) as [Ht | Ht].
  - unfold root_nexthop. rewrite TW, Ht. cbn. split.
    + destruct (ospf_if_is_configured _ _) as [oi |] eqn:Eo; [| done]. intros [= <-]. apply first_network; [done |]. by apply configured_first.
    + intros H. inversion H as [oi Ht' Eo | ? ? ? Ht' | ? ? ? Ht' | ? Ht']; subst; [| by rewrite Ht in Ht' ..]. apply configured_first in Eo. by rewrite Eo.
  - destruct (decide (lo_type ow = OSPF_ROUTER_LSA)) as [Hr | Hr].
    2: { unfold root_nexthop. rewrite TW, (proj2 (Z.eqb_neq _ OSPF_VERTEX_ROUTER) Hr), (proj2 (Z.eqb_neq _ OSPF_VERTEX_NETWORK) Ht). split; [done |]. intros H. by inversion H. }
    destruct (decide (l_type l = LSA_LINK_TYPE_POINTOPOINT)) as [Hp | Hp]; [by apply root_nexthop_router |].
    unfold root_nexthop. rewrite TW, Hr. change (OSPF_ROUTER_LSA =? OSPF_VERTEX_ROUTER) with true. rewrite (proj2 (Z.eqb_neq _ _) Hp).
    destruct (Z.eqb_spec (l_type l) LSA_LINK_TYPE_VIRTUALLINK) as [Hv | Hv].
    + split.
      * destruct (ospf_vl_lookup _ _ _) as [vl |] eqn:Ev; [| done]. destruct (CHECK_FLAG _ _) eqn:Ha; [| done]. intros [= <-]. apply first_virtual; try done. by apply vl_lookup_first.
      * intros H. inversion H as [? Ht' | ? ? ? _ ? | ? ? ? _ ? | vl _ _ Ev Ha]; subst; [done | done | done |]. apply vl_lookup_first in Ev. by rewrite Ev, Ha.
    + split; [done |]. intros H. inversion H; done.
Qed.
End first.
