(* ===== verification/OspfSpfInv.v ===== *)
(** * The graph of an area and its shortest paths

    The link state database of an area as a graph: vertices are router-LSAs and network-LSAs, and there is an
    edge where [ospf_spf_next] may follow a link: the LSA it names exists, is not at MaxAge and links back, the cost is
    not infinite (unless the link is the calculating router's own), and, for a link of the calculating router, a next hop
    can be determined.  [env_ok] is the condition on the database: what examination and
    [ospf_lsdb_add] guarantee, and two things they do not, metrics of the own links other than 0 and a bound on the number of LSAs.

    The invariant of the shortest path calculation.  [T] is the set of LSAs on the tree, [vx] maps every LSA that is on the tree or in the candidate queue to its vertex,
    and [D] is the set of edges examined so far.  Distances are costs of paths, examined edges are relaxed, the tree is
    nearer than the candidates, and the parents of a vertex are the examined edges that are tight, with the hops they give. *)

From stdpp Require Import sorting.
From S2P Require Import Prelude Prefix Pqueue PqueueProofs OspfLsdb OspfNeighbor OspfLsaWire OspfSpfTypes OspfSpf OspfSpfQueue OspfLsaProofs OspfSpfNexthop.
Local Open Scope Z_scope.

Section graph.
Context (e : area_env) (vls : list vl_data) (self : lsa_ptr).

(** The LSA [p] is in a table of the database. *)
Definition known (p : lsa_ptr) : Prop := exists i m k, i ∈ lsa_types /\ get_table (lsdb_of e) i = Ok m /\ m !! k = Some p.

(** A vertex for the LSA [p], as [ospf_vertex_new] makes it. *)
Definition bare (p : lsa_ptr) (o : lsa_object) : vertex := mk_vertex 0 (lo_type o) (lo_id o) p 0 [] [].

(** The next hop for the link [l] of the root to the LSA [w]. *)
Definition root_hop (l : router_lsa_link) (w : lsa_ptr) (h : hop) : Prop :=
  exists o ow, lsas_of e !! self = Some o /\ lsas_of e !! w = Some ow /\ first_hop (oiflist e) vls o ow l h.

(** The router [r] is listed in the network-LSA [o]. *)
Definition attached (o : lsa_object) (r : Z) : Prop :=
  exists i, 0 <= i /\ links_start + 4 * i < lo_length o /\ lget 4 o (links_start + 4 * i) = Ok r.

(** [link_to u l w c]: the link [l] of [u] leads to [w] at cost [c]. *)
Inductive link_to : lsa_ptr -> option router_lsa_link -> lsa_ptr -> Z -> Prop :=
| router_link u o ls l w :
    lsas_of e !! u = Some o -> lo_type o = OSPF_ROUTER_LSA -> lsa_links o ls -> l ∈ ls ->
    link_lsa e (bool_decide (u = self)) l = Ok (Some w) -> usable_lsa e o w = Ok true ->
    link_to u (Some l) w (metric l)
| network_link u o r w :
    lsas_of e !! u = Some o -> lo_type o = OSPF_NETWORK_LSA -> attached o r ->
    ospf_lsa_lookup_by_id e OSPF_ROUTER_LSA r = Ok (Some w) -> usable_lsa e o w = Ok true ->
    link_to u None w 0.

(** The links that can be used: those of the root must have a next hop. *)
Definition edge (u : lsa_ptr) (l : option router_lsa_link) (w : lsa_ptr) (c : Z) : Prop :=
  link_to u l w c /\ (u = self -> exists k h, l = Some k /\ root_hop k w h).

(** [path p d]: the LSA [p] can be reached from the root at cost [d]. *)
Inductive path : lsa_ptr -> Z -> Prop :=
| path_root : path self 0
| path_step u d l w c : path u d -> edge u l w c -> path w (d + c).

Record env_ok : Prop := {
  eo_examined : forall p o, lsas_of e !! p = Some o -> lsa_examined o;
  eo_tables : forall i, i ∈ lsa_types -> exists m, get_table (lsdb_of e) i = Ok m;
  eo_objects : forall i m k p, i ∈ lsa_types -> get_table (lsdb_of e) i = Ok m -> m !! k = Some p ->
    exists o, lsas_of e !! p = Some o /\ lo_type o = i /\ lsdb_prefix_set (lo_lsa o) = k;
  eo_self : exists o m, lsas_of e !! self = Some o /\ get_table (lsdb_of e) OSPF_ROUTER_LSA = Ok m /\
    m !! (lo_id o, lo_id o) = Some self;
  eo_size : Z.of_nat (base.size (lsas_of e)) * 65535 < 2 ^ 31;
  eo_self_metric : forall o ls l, lsas_of e !! self = Some o -> lsa_links o ls -> l ∈ ls ->
    l_type l <> LSA_LINK_TYPE_STUB -> metric l <> 0 }.

Section facts.
Context (ENV : env_ok).

Lemma router_type : OSPF_ROUTER_LSA ∈ lsa_types.
Proof. vm_compute. by left. Qed.
Lemma network_type : OSPF_NETWORK_LSA ∈ lsa_types.
Proof. vm_compute. right. by left. Qed.

Lemma known_object p : known p -> exists o, lsas_of e !! p = Some o.
Proof. intros (i & m & k & Hi & Hm & Hk). destruct (eo_objects ENV i m k p Hi Hm Hk) as (o & ? & _). eauto. Qed.

Lemma self_object : exists o, lsas_of e !! self = Some o /\ lo_type o = OSPF_ROUTER_LSA /\ known self.
Proof.
  destruct (eo_self ENV) as (o & m & Eo & Hm & Hk). exists o.
  destruct (eo_objects ENV _ m _ _ router_type Hm Hk) as (o' & Eo' & Ht & _). rewrite Eo in Eo'. injection Eo' as <-.
  split_and!; [done | done |]. exists OSPF_ROUTER_LSA, m, (lo_id o, lo_id o). split_and!; [apply router_type | done | done].
Qed.

(** Lookups return LSAs of the database of the right type. *)
Definition finds (ty : Z) (r : option lsa_ptr) : Prop :=
  match r with None => True | Some w => known w /\ exists o, lsas_of e !! w = Some o /\ lo_type o = ty end.

Lemma lookup_router id adv : exists r, ospf_lsdb_lookup_by_id (lsdb_of e) OSPF_ROUTER_LSA id adv = Ok r /\ finds OSPF_ROUTER_LSA r.
Proof.
  unfold ospf_lsdb_lookup_by_id. destruct (eo_tables ENV _ router_type) as [m Hm]. rewrite Hm. cbn [mbind res_bind].
  eexists. split; [done |]. destruct (m !! (id, adv)) as [w |] eqn:E; [| done]. cbn.
  split; [exists OSPF_ROUTER_LSA, m, (id, adv); split_and!; [apply router_type | done | done] |].
  destruct (eo_objects ENV _ m _ _ router_type Hm E) as (o & ? & ? & _). eauto.
Qed.

Lemma find_id_Ok ty l id :
  (forall k w, (k, w) ∈ l -> finds ty (Some w)) -> exists r, find_id e l id = Ok r /\ finds ty r.
Proof.
  induction l as [| [k w] l IH]; intros H; cbn [find_id]; [by exists None |].
  destruct (H k w) as (Hk & o & Eo & Ht); [by left |]. unfold get_obj. rewrite Eo. cbn [mbind res_bind].
  destruct (_ =? _); [exists (Some w); split; [done |]; split; [done | eauto] |].
  apply IH. intros k' w' Hin. apply (H k'). by right.
Qed.

Lemma lookup_network id : exists r, ospf_lsa_lookup_by_id e OSPF_NETWORK_LSA id = Ok r /\ finds OSPF_NETWORK_LSA r.
Proof.
  unfold ospf_lsa_lookup_by_id. change (OSPF_NETWORK_LSA =? OSPF_ROUTER_LSA) with false. change (OSPF_NETWORK_LSA =? OSPF_NETWORK_LSA) with true.
  cbn iota. destruct (eo_tables ENV _ network_type) as [m Hm]. rewrite Hm. cbn [mbind res_bind]. apply find_id_Ok.
  intros k w Hin. rewrite merge_sort_Permutation in Hin. apply elem_of_map_to_list in Hin.
  split; [exists OSPF_NETWORK_LSA, m, k; split_and!; [apply network_type | done | done] |].
  destruct (eo_objects ENV _ m _ _ network_type Hm Hin) as (o & ? & ? & _). eauto.
Qed.

Definition finds_any (r : option lsa_ptr) : Prop := finds OSPF_ROUTER_LSA r \/ finds OSPF_NETWORK_LSA r.

Lemma link_lsa_Ok b l : exists r, link_lsa e b l = Ok r /\ finds_any r.
Proof.
  unfold link_lsa. destruct (_ =? _); [exists None; by split; [| left] |]. destruct (_ && _); [exists None; by split; [| left] |].
  destruct (_ || _).
  - destruct (lookup_router (link_id l) (link_id l)) as (r & E & H). exists r. by split; [| left].
  - destruct (_ =? _); [| exists None; by split; [| left]]. destruct (lookup_network (link_id l)) as (r & E & H). exists r. by split; [| right].
Qed.

Lemma usable_Ok o w : known w -> exists b, usable_lsa e o w = Ok b.
Proof.
  intros H. destruct (known_object w H) as [ow Eo]. unfold usable_lsa, get_obj. rewrite Eo. cbn [mbind res_bind].
  destruct (IS_LSA_MAXAGE _ _); [eauto |]. destruct (has_link_Ok ow o) as [z ->]; [by eapply (eo_examined ENV) |]. cbn. eauto.
Qed.

Lemma finds_known r w : finds_any r -> r = Some w -> known w /\ exists o, lsas_of e !! w = Some o /\ (lo_type o = OSPF_ROUTER_LSA \/ lo_type o = OSPF_NETWORK_LSA).
Proof. intros [H | H] ->; cbn in H; destruct H as (? & o & ? & ?); eauto 10. Qed.

Lemma link_facts u l w c : link_to u l w c ->
  known w /\ 0 <= c < 2 ^ 16 /\
  (exists o, lsas_of e !! w = Some o /\ (lo_type o = OSPF_ROUTER_LSA \/ lo_type o = OSPF_NETWORK_LSA)) /\
  (forall o, lsas_of e !! u = Some o -> lo_type o = OSPF_NETWORK_LSA ->
     l = None /\ forall ow, lsas_of e !! w = Some ow -> lo_type ow = OSPF_ROUTER_LSA) /\
  (l = None -> forall o, lsas_of e !! u = Some o -> lo_type o = OSPF_NETWORK_LSA).
Proof.
  intros H. destruct H as [u o ls l w Eo Ht Hls Hl El Hu | u o r w Eo Ht Ha El Hu].
  - destruct (link_lsa_Ok (bool_decide (u = self)) l) as (r & E & Hf). rewrite El in E. injection E as <-.
    destruct (finds_known _ w Hf eq_refl) as (Hk & ow & Eow & Htw). split_and!; [done | | | eauto | | done].
    + eapply links_at_metric; [by apply (eo_examined ENV u) | exact Hls | done].
    + eapply links_at_metric; [by apply (eo_examined ENV u) | exact Hls | done].
    + intros o' Eo' Ht'. rewrite Eo in Eo'. injection Eo' as <-. rewrite Ht in Ht'. done.
  - unfold ospf_lsa_lookup_by_id in El. change (OSPF_ROUTER_LSA =? OSPF_ROUTER_LSA) with true in El. cbn iota in El.
    destruct (lookup_router r r) as (r' & E & Hf). rewrite El in E. injection E as <-. destruct Hf as (Hk & ow & Eow & Htw).
    split_and!; [done | lia | lia | eauto | |].
    + intros _ _ _. split; [done |]. intros ow' Eow'. rewrite Eow in Eow'. by injection Eow' as <-.
    + intros _ o' Eo'. rewrite Eo in Eo'. by injection Eo' as <-.
Qed.

Lemma self_link_metric l w c : link_to self l w c -> c <> 0.
Proof.
  intros H. inversion H as [? o ls k w' Eo Ht Hls Hk El Hus | ? o r w' Eo Ht Ha El Hus]; subst.
  - eapply (eo_self_metric ENV); [done | done | done |]. intros E. unfold link_lsa in El. by rewrite E in El.
  - destruct self_object as (o' & Eo' & Ht' & _). rewrite Eo in Eo'. injection Eo' as <-. by rewrite Ht in Ht'.
Qed.

Lemma path_nonneg p d : path p d -> 0 <= d.
Proof. induction 1 as [| u d l w c H IH He]; [lia |]. destruct He as [He _]. apply link_facts in He as (_ & ? & _). lia. Qed.
End facts.

(** The code computes the next hops of the specification. *)
Lemma root_hop_code (ENV : env_ok) l w h o ow v vw : lsas_of e !! self = Some o -> lsas_of e !! w = Some ow ->
  v_type v = lo_type o -> v_id v = lo_id o -> v_type vw = lo_type ow -> v_lsa vw = w ->
  root_hop l w h <-> root_nexthop e vls v vw (Some l) = Ok (Some h).
Proof.
  intros Eo Eow E1 E2 E3 E4. destruct (self_object ENV) as (o' & Eo' & Hr & _). rewrite Eo in Eo'. injection Eo' as <-. subst w.
  rewrite (root_nexthop_first e vls v vw o ow l E1 E2 E3 Eow Hr (eo_examined ENV _ _ Eow) h). unfold root_hop. split; [| by exists o, ow].
  intros (o' & ow' & Eo' & Eow' & H). rewrite Eo in Eo'. injection Eo' as <-. rewrite Eow in Eow'. by injection Eow' as <-.
Qed.

(** [root_nexthop] looks at the type and ID of the root, and at the type and LSA of the destination. *)
Lemma ptp_loop_ext fuel oifs ow v v' l : forall l2, v_type v = v_type v' -> v_id v = v_id v' ->
  ptp_link_loop fuel oifs ow v l l2 = ptp_link_loop fuel oifs ow v' l l2.
Proof.
  induction fuel as [| fuel IH]; intros l2 Et Ei; [done |]. cbn [ptp_link_loop]. rewrite Et, Ei.
  destruct (ospf_get_next_link _ _ _ _) as [[k |] | |]; try done. cbn [mbind res_bind]. destruct (ospf_if_is_configured _ _); [| by apply IH].
  destruct (negb _); [by apply IH | done].
Qed.

Lemma ptmp_loop_ext fuel ow v v' oi : forall l2, v_type v = v_type v' -> v_id v = v_id v' ->
  ptmp_link_loop fuel ow v oi l2 = ptmp_link_loop fuel ow v' oi l2.
Proof.
  induction fuel as [| fuel IH]; intros l2 Et Ei; [done |]. cbn [ptmp_link_loop]. rewrite Et, Ei.
  destruct (ospf_get_next_link _ _ _ _) as [[k |] | |]; try done. cbn [mbind res_bind]. destruct (_ =? 0); [done | by apply IH].
Qed.

Lemma root_nexthop_ext vls' v v' w w' l :
  v_type v = v_type v' -> v_id v = v_id v' -> v_type w = v_type w' -> v_lsa w = v_lsa w' ->
  root_nexthop e vls' v w l = root_nexthop e vls' v' w' l.
Proof.
  intros E1 E2 E3 E4. unfold root_nexthop, vertex_obj. rewrite E3, E4. destruct (_ =? _); [| done]. destruct l as [l |]; [| done].
  destruct (_ =? _); [| done]. destruct (get_obj e (v_lsa w')); [| done | done]. cbn [mbind res_bind].
  rewrite (ptp_loop_ext _ _ _ v v') by done. destruct (ospf_if_is_configured _ _); [| done]. destruct (_ =? _); [| done].
  by rewrite (ptmp_loop_ext _ _ v v').
Qed.
End graph.

(** ** The invariant of the shortest path calculation *)

Section inv.
Context (e : area_env) (vls : list vl_data) (self : lsa_ptr).
Notation edge := (edge e vls self).
Notation path := (path e vls self).
Notation edges := (lsa_ptr -> option router_lsa_link -> lsa_ptr -> Z -> Prop) (only parsing).

(** The vertex of the LSA [p]. *)
Definition vtx (s : spf) (vx : gmap positive positive) (p : lsa_ptr) : option vertex := vx !! p ≫= fun x => vertices s !! x.

(** Links between routers and networks cost something: then all shortest paths are found. *)
Definition positive_metrics : Prop := forall u l w c, edge u (Some l) w c -> 0 < c.

(** The links of the LSA [w], if it is a router-LSA. *)
Definition links_of (w : lsa_ptr) (ls : list router_lsa_link) : Prop :=
  exists o, lsas_of e !! w = Some o /\ (lo_type o = OSPF_ROUTER_LSA -> lsa_links o ls).

(** The hops that the vertex [vu] at [xu] gives to [w] over the link [l]. *)
Definition hops_via (rt xu : vertex_ptr) (vu vw : vertex) (l : option router_lsa_link) (w : lsa_ptr) (h : hop) : Prop :=
  exists ls, links_of w ls /\ h ∈ (calc_hops e vls rt xu vu vw l ls).1.

(** A tight examined edge from [u], at [xu], gives [w] the hop [h]. *)
Definition tight_hop (D : edges) (s : spf) (vx : gmap positive positive) (w : lsa_ptr) (vw : vertex) (xu : vertex_ptr) (h : hop) : Prop :=
  exists u l c vu, D u l w c /\ vx !! u = Some xu /\ vertices s !! xu = Some vu /\ distance vu + c = distance vw /\
    hops_via (root s) xu vu vw l w h.

Definition in_parents (vw : vertex) (xu : vertex_ptr) (h : hop) : Prop := exists vp, vp ∈ parents vw /\ parent vp = xu /\ hop_of vp = h.

Record inv (T : gset positive) (vx : gmap positive positive) (D : edges) (s : spf) (q : pqueue) : Prop := {
  iv_root : vx !! self = Some (root s);
  iv_self : self ∈ T;
  iv_tree : forall p, p ∈ T -> is_Some (vx !! p) /\ stat s !! p = Some LSA_SPF_IN_SPFTREE;
  iv_vtx : forall p x, vx !! p = Some x -> exists v o, vertices s !! x = Some v /\ lsas_of e !! p = Some o /\
    v_lsa v = p /\ v_type v = lo_type o /\ v_id v = lo_id o /\ vertex_ok v;
  iv_fresh : forall x v, vertices s !! x = Some v -> (x < next_vertex s)%positive;
  iv_queue : queue_ok s q;
  iv_elems : forall x, x ∈ elems q <-> exists p, vx !! p = Some x /\ p ∉ T;
  iv_unexplored : forall p, known e p -> vx !! p = None -> stat s !! p = Some LSA_SPF_NOT_EXPLORED;
  iv_known : forall p, is_Some (vx !! p) -> known e p;
  iv_path : forall p v, vtx s vx p = Some v -> path p (distance v);
  iv_zero : forall p v, vtx s vx p = Some v -> distance v = 0 <-> p = self;
  iv_D : forall u l w c, D u l w c -> edge u l w c /\ u ∈ T;
  iv_relaxed : forall u l w c vu, D u l w c -> vtx s vx u = Some vu ->
    exists vw, vtx s vx w = Some vw /\ distance vw <= distance vu + c;
  iv_mono : forall p p' v v', p ∈ T -> p' ∉ T -> vtx s vx p = Some v -> vtx s vx p' = Some v' ->
    distance v <= distance v' /\ (positive_metrics -> key v <= key v');
  iv_bound : forall p v, vtx s vx p = Some v ->
    distance v <= 65535 * (Z.of_nat (base.size T) - (if decide (p ∈ T) then 1 else 0));
  iv_sound : forall w vw xu h, vtx s vx w = Some vw -> in_parents vw xu h -> tight_hop D s vx w vw xu h;
  iv_complete : positive_metrics -> forall w vw xu h, w <> self -> vtx s vx w = Some vw ->
    tight_hop D s vx w vw xu h -> in_parents vw xu h;
  iv_nonempty : forall w vw, w <> self -> vtx s vx w = Some vw -> parents vw <> [];
  iv_vls : (forall p, p ∈ T -> p = self) -> vlinks s = vls }.

Lemma vtx_Some s vx p v : vtx s vx p = Some v <-> exists x, vx !! p = Some x /\ vertices s !! x = Some v.
Proof. unfold vtx. rewrite bind_Some. done. Qed.

Lemma inv_vtx T vx D s q p x : inv T vx D s q -> vx !! p = Some x -> exists v, vertices s !! x = Some v /\ vtx s vx p = Some v /\ v_lsa v = p.
Proof.
  intros I E. destruct (iv_vtx _ _ _ _ _ I p x E) as (v & o & Ev & _ & El & _). exists v. split_and!; [done | | done].
  apply vtx_Some. eauto.
Qed.

(** Different LSAs have different vertices. *)
Lemma inv_inj T vx D s q p p' x : inv T vx D s q -> vx !! p = Some x -> vx !! p' = Some x -> p = p'.
Proof.
  intros I E E'. destruct (inv_vtx _ _ _ _ _ _ _ I E) as (v & Ev & _ & <-). destruct (inv_vtx _ _ _ _ _ _ _ I E') as (v' & Ev' & _ & <-).
  rewrite Ev in Ev'. by injection Ev' as <-.
Qed.

(** ** Recording more examined edges *)

Lemma tight_hop_mono (D D' : edges) s vx w vw xu h :
  (forall u l c, D u l w c -> D' u l w c) -> tight_hop D s vx w vw xu h -> tight_hop D' s vx w vw xu h.
Proof. intros H (u & l & c & vu & HD & ?). exists u, l, c, vu. split; [by apply H | done]. Qed.

(** The edge from [u] to [w] is examined when [w] is on the tree already, or is not shorter. *)
Definition examined_edge (T : gset positive) (vx : gmap positive positive) (s : spf) u l w c : Prop :=
  edge u l w c /\ u ∈ T /\ forall vu, vtx s vx u = Some vu ->
    exists vw, vtx s vx w = Some vw /\ distance vw <= distance vu + c /\
      (positive_metrics -> w <> self -> distance vw = distance vu + c -> False).

Lemma inv_add_edges T vx (D D' : edges) s q :
  inv T vx D s q -> (forall u l w c, D u l w c -> D' u l w c) ->
  (forall u l w c, D' u l w c -> D u l w c \/ examined_edge T vx s u l w c) -> inv T vx D' s q.
Proof.
  intros I Hsub Hnew. destruct I. constructor; try done.
  - intros u l w c [Hd | (? & ? & _)]%Hnew; [by apply iv_D0 | done].
  - intros u l w c vu [Hd | (_ & _ & Hn)]%Hnew Eu; [by eapply iv_relaxed0 |]. destruct (Hn vu Eu) as (vw & ? & ? & _). eauto.
  - intros w vw xu h Ew H. eapply tight_hop_mono; [| by eapply iv_sound0]. intros. by apply Hsub.
  - intros POS w vw xu h Hw Ew (u & l & c & vu & [Hd | (_ & _ & Hn)]%Hnew & Eu & Evu & Et & Hh); (eapply iv_complete0; [done | done | done |]).
    + by exists u, l, c, vu.
    + destruct (Hn vu) as (vw' & Ew' & _ & Hx); [apply vtx_Some; eauto |].
      rewrite Ew in Ew'. injection Ew' as <-. by destruct (Hx POS Hw).
Qed.

(** ** Frames: what does not matter to the invariant *)

(** The same vertex but for its children and flags. *)
Definition vsame (v v' : vertex) : Prop :=
  v_type v' = v_type v /\ v_id v' = v_id v /\ v_lsa v' = v_lsa v /\ distance v' = distance v /\ parents v' = parents v.

(** The explored vertices are the same. *)
Definition same_vertices (vx : gmap positive positive) (s s' : spf) : Prop := forall p x, vx !! p = Some x ->
  match vertices s !! x, vertices s' !! x with Some v, Some v' => vsame v v' | None, None => True | _, _ => False end.

Lemma same_fwd vx s s' p x v : same_vertices vx s s' -> vx !! p = Some x -> vertices s !! x = Some v ->
  exists v', vertices s' !! x = Some v' /\ vsame v v'.
Proof. intros H Ex E. specialize (H p x Ex). rewrite E in H. destruct (vertices s' !! x); [eauto | done]. Qed.
Lemma same_bwd vx s s' p x v' : same_vertices vx s s' -> vx !! p = Some x -> vertices s' !! x = Some v' ->
  exists v, vertices s !! x = Some v /\ vsame v v'.
Proof. intros H Ex E. specialize (H p x Ex). rewrite E in H. destruct (vertices s !! x); [eauto | done]. Qed.

Lemma net_hops_ext rt v v' ls ps : v_type v = v_type v' -> v_id v = v_id v' -> net_hops rt v ls ps = net_hops rt v' ls ps.
Proof. intros Et Ei. unfold net_hops, backs. by rewrite Et, Ei. Qed.

Lemma calc_hops_ext rt xu vu vu' vw vw' l ls :
  v_type vu = v_type vu' -> v_id vu = v_id vu' -> parents vu = parents vu' -> v_type vw = v_type vw' -> v_lsa vw = v_lsa vw' ->
  calc_hops e vls rt xu vu vw l ls = calc_hops e vls rt xu vu' vw' l ls.
Proof.
  intros E1 E2 E3 E4 E5. unfold calc_hops. rewrite (root_nexthop_ext e vls vu vu' vw vw') by done.
  rewrite E1, E3, (net_hops_ext rt vu vu') by done. done.
Qed.

Lemma tight_hop_same D s s' vx w vw vw' xu h :
  same_vertices vx s s' -> root s' = root s -> vsame vw vw' -> tight_hop D s vx w vw xu h -> tight_hop D s' vx w vw' xu h.
Proof.
  intros Hs Hr (Et & Ei & El & Ed & Ep) (u & l & c & vu & HD & Eu & Evu & Ht & ls & Hls & Hh).
  destruct (same_fwd _ _ _ _ _ _ Hs Eu Evu) as (vu' & Evu' & Et' & Ei' & El' & Ed' & Ep').
  exists u, l, c, vu'. split_and!; [done | done | done | by rewrite Ed, Ed' |]. exists ls. split; [done |].
  rewrite Hr, (calc_hops_ext _ _ vu' vu vw' vw) by done. done.
Qed.

Lemma same_sym vx s s' : same_vertices vx s s' -> same_vertices vx s' s.
Proof.
  intros H p x E. specialize (H p x E). destruct (vertices s !! x), (vertices s' !! x); try done. destruct H as (?&?&?&?&?). by split_and!.
Qed.

Lemma vsame_sym v v' : vsame v v' -> vsame v' v.
Proof. intros (?&?&?&?&?). by split_and!. Qed.

Lemma vtx_same s s' vx p v' : same_vertices vx s s' -> vtx s' vx p = Some v' -> exists v, vtx s vx p = Some v /\ vsame v v'.
Proof.
  intros H (x & Ex & Ev)%vtx_Some. destruct (same_bwd _ _ _ _ _ _ H Ex Ev) as (v & Ev0 & Hv). exists v. split; [apply vtx_Some; eauto | done].
Qed.

Lemma inv_frame T vx D s s' q :
  inv T vx D s q -> same_vertices vx s s' -> stat s' = stat s -> root s' = root s ->
  (forall x v, vertices s' !! x = Some v -> (x < next_vertex s')%positive) ->
  ((forall p, p ∈ T -> p = self) -> vlinks s' = vlinks s) -> inv T vx D s' q.
Proof.
  intros I Hs Est Hr Hn Hvl. pose proof I as I'. destruct I. constructor; rewrite ?Hr, ?Est; try done.
  - intros p x E. destruct (iv_vtx0 p x E) as (v & o & Ev & Eo & El & Et & Ei & [Ot Od]).
    destruct (same_fwd _ _ _ _ _ _ Hs E Ev) as (v' & Ev' & Et' & Ei' & El' & Ed' & _). exists v', o.
    unfold vertex_ok. rewrite Et', Ei', El', Ed'. done.
  - eapply queue_ok_ext; [done |]. intros x v Hx Ev. apply iv_elems0 in Hx as (p & Ep & _).
    destruct (same_fwd _ _ _ _ _ _ Hs Ep Ev) as (v' & Ev' & ?&?&?&?&?). exists v'. by rewrite Est.
  - intros p v' Ev'. destruct (vtx_same _ _ _ _ _ Hs Ev') as (v & Ev & _ & _ & _ & Ed & _). rewrite Ed. by apply iv_path0.
  - intros p v' Ev'. destruct (vtx_same _ _ _ _ _ Hs Ev') as (v & Ev & _ & _ & _ & Ed & _). rewrite Ed. by apply iv_zero0.
  - intros u l w c vu' HD Eu'. destruct (vtx_same _ _ _ _ _ Hs Eu') as (vu & Eu & _ & _ & _ & Ed & _).
    destruct (iv_relaxed0 u l w c vu HD Eu) as (vw & Ew & Hle). apply vtx_Some in Ew as (x & Ex & Ew).
    destruct (same_fwd _ _ _ _ _ _ Hs Ex Ew) as (vw' & Ew' & _ & _ & _ & Ed' & _). exists vw'. rewrite Ed, Ed'. split; [apply vtx_Some; eauto | done].
  - intros p p' v v' Hp Hp' Ev Ev'. destruct (vtx_same _ _ _ _ _ Hs Ev) as (v0 & Ev0 & Et & _ & _ & Ed & _).
    destruct (vtx_same _ _ _ _ _ Hs Ev') as (v1 & Ev1 & Et1 & _ & _ & Ed1 & _). unfold key. rewrite Et, Ed, Et1, Ed1. by eapply iv_mono0.
  - intros p v' Ev'. destruct (vtx_same _ _ _ _ _ Hs Ev') as (v & Ev & _ & _ & _ & Ed & _). rewrite Ed. by apply iv_bound0.
  - intros w vw' xu h Ew' (vp & Hvp & Hx & Hh). destruct (vtx_same _ _ _ _ _ Hs Ew') as (vw & Ew & Hv).
    pose proof Hv as (_ & _ & _ & _ & Ep). eapply tight_hop_same; [done | done | done |]. eapply iv_sound0; [done |]. exists vp. rewrite <- Ep. done.
  - intros POS w vw' xu h Hw Ew' Ht. destruct (vtx_same _ _ _ _ _ Hs Ew') as (vw & Ew & Hv). pose proof Hv as (_ & _ & _ & _ & Ep).
    destruct (iv_complete0 POS w vw xu h Hw Ew) as (vp & Hvp & ?).
    + eapply (tight_hop_same _ s' s); [by apply same_sym | done | by apply vsame_sym | done].
    + exists vp. by rewrite Ep.
  - intros w vw' Hw Ew'. destruct (vtx_same _ _ _ _ _ Hs Ew') as (vw & Ew & _ & _ & _ & _ & ->). by eapply iv_nonempty0.
  - intros HT. rewrite Hvl by done. by apply iv_vls0.
Qed.
End inv.

Arguments iv_root {e vls self T vx D s q} _.
Arguments iv_self {e vls self T vx D s q} _.
Arguments iv_tree {e vls self T vx D s q} _.
Arguments iv_vtx {e vls self T vx D s q} _.
Arguments iv_fresh {e vls self T vx D s q} _.
Arguments iv_queue {e vls self T vx D s q} _.
Arguments iv_elems {e vls self T vx D s q} _.
Arguments iv_unexplored {e vls self T vx D s q} _.
Arguments iv_known {e vls self T vx D s q} _.
Arguments iv_path {e vls self T vx D s q} _.
Arguments iv_zero {e vls self T vx D s q} _.
Arguments iv_D {e vls self T vx D s q} _.
Arguments iv_relaxed {e vls self T vx D s q} _.
Arguments iv_mono {e vls self T vx D s q} _.
Arguments iv_bound {e vls self T vx D s q} _.
Arguments iv_sound {e vls self T vx D s q} _.
Arguments iv_complete {e vls self T vx D s q} _.
Arguments iv_nonempty {e vls self T vx D s q} _.
Arguments iv_vls {e vls self T vx D s q} _.
