(* ===== verification/OspfSpfRelax.v ===== *)
(** * Examining one link: the invariant is kept

    [spf_relax] and [spf_examine] of the shortest path calculation: a new or nearer vertex joins the candidates with the
    parents that the link gives, an equally near one gets more parents, and nothing else changes. *)

From S2P Require Import Prelude Pqueue PqueueProofs OspfLsdb OspfNeighbor OspfLsaWire OspfLsaProofs OspfSpfTypes OspfSpf OspfSpfQueue.
From S2P Require Import OspfSpfNexthop OspfSpfInv.
Local Open Scope Z_scope.

Section relax.
Context (e : area_env) (vls : list vl_data) (self : lsa_ptr) (ENV : env_ok e self).
Notation edge := (edge e vls self).
Notation path := (path e vls self).
Notation inv := (inv e vls self).
Notation edges := (lsa_ptr -> option router_lsa_link -> lsa_ptr -> Z -> Prop) (only parsing).
Notation positive_metrics := (positive_metrics e vls self).

(** [u] was the last to join the tree. *)
Definition last_joined (T : gset positive) (vx : gmap positive positive) (s : spf) (u : lsa_ptr) : Prop :=
  u ∈ T /\ forall p v vu, p ∈ T -> vtx s vx p = Some v -> vtx s vx u = Some vu ->
    distance v <= distance vu /\ (positive_metrics -> key v <= key vu).

(** The vertex [xw] of [w] takes the parents [vps] at distance [dist]. *)
Record updated (T : gset positive) (xu : vertex_ptr) (vu : vertex) (l : option router_lsa_link) (w : lsa_ptr) (xw : vertex_ptr) (w0 : vertex) (vps : list vertex_parent) (dist : Z)
    (vx : gmap positive positive) (s : spf) (q : pqueue) (vx' : gmap positive positive) (s' : spf) (q' : pqueue) : Prop := {
  up_vx : vx' = <[w := xw]> vx;
  up_vs : vertices s' = <[xw := add_vps dist vps w0]> (vertices s);
  up_w0 : (vx !! w = Some xw /\ vertices s !! xw = Some w0 /\ distance w0 <> 0) \/
          (vx !! w = None /\ vertices s !! xw = None /\ exists o, lsas_of e !! w = Some o /\ w0 = bare w o);
  up_w : w ∉ T;
  up_known : known e w;
  up_admits : admits dist w0;
  up_vps : vps <> [];
  up_root : root s' = root s;
  up_vlinks : vlinks s' = vlinks s;
  up_table : new_table s' = new_table s;
  up_next : (next_vertex s <= next_vertex s')%positive /\ (xw < next_vertex s')%positive;
  up_stat : forall p, p <> w -> (forall x v, x ∈ elems q -> vertices s !! x = Some v -> v_lsa v <> p) -> stat s' !! p = stat s !! p;
  up_queue : queue_ok s' q';
  up_elems : forall x, x ∈ elems q' <-> x = xw \/ x ∈ elems q;
  up_calc : exists lsw bl, links_of e w lsw /\
    (forall ow ou, lsas_of e !! w = Some ow -> lsas_of e !! v_lsa vu = Some ou -> ospf_lsa_has_link ow ou = Ok bl) /\
    let hops := calc_hops e vls (root s) xu vu w0 l lsw in
    vps = calc_vps e vls (next_nexthop s) (root s) xu vu w0 l lsw bl /\
    next_nexthop s' = next_nexthop (calc_alloc hops s) /\ live_nexthops s' = live_nexthops (calc_alloc hops s) }.

Arguments up_vx {T xu vu l w xw w0 vps dist vx s q vx' s' q'} _.
Arguments up_vs {T xu vu l w xw w0 vps dist vx s q vx' s' q'} _.
Arguments up_w0 {T xu vu l w xw w0 vps dist vx s q vx' s' q'} _.
Arguments up_w {T xu vu l w xw w0 vps dist vx s q vx' s' q'} _.
Arguments up_known {T xu vu l w xw w0 vps dist vx s q vx' s' q'} _.
Arguments up_admits {T xu vu l w xw w0 vps dist vx s q vx' s' q'} _.
Arguments up_vps {T xu vu l w xw w0 vps dist vx s q vx' s' q'} _.
Arguments up_root {T xu vu l w xw w0 vps dist vx s q vx' s' q'} _.
Arguments up_vlinks {T xu vu l w xw w0 vps dist vx s q vx' s' q'} _.
Arguments up_table {T xu vu l w xw w0 vps dist vx s q vx' s' q'} _.
Arguments up_next {T xu vu l w xw w0 vps dist vx s q vx' s' q'} _.
Arguments up_stat {T xu vu l w xw w0 vps dist vx s q vx' s' q'} _.
Arguments up_queue {T xu vu l w xw w0 vps dist vx s q vx' s' q'} _.
Arguments up_elems {T xu vu l w xw w0 vps dist vx s q vx' s' q'} _.
Arguments up_calc {T xu vu l w xw w0 vps dist vx s q vx' s' q'} _.

Section update.
Context (T : gset positive) (w : lsa_ptr) (xw : vertex_ptr) (w0 : vertex) (vps : list vertex_parent) (dist : Z).
Context (vx : gmap positive positive) (D : edges) (s : spf) (q : pqueue) (vx' : gmap positive positive) (s' : spf) (q' : pqueue).
Context (xu : vertex_ptr) (vu : vertex) (l : option router_lsa_link).
Context (I : inv T vx D s q) (UP : updated T xu vu l w xw w0 vps dist vx s q vx' s' q').
Notation w1 := (add_vps dist vps w0).

Lemma up_other p x : vx !! p = Some x -> p <> w -> x <> xw.
Proof.
  intros E Hne ->. destruct (up_w0 UP) as [(Ew & _) | (_ & Ew & _)].
  - apply Hne. exact (inv_inj _ _ _ _ _ _ _ _ _ _ _ I E Ew).
  - destruct (inv_vtx _ _ _ _ _ _ _ _ _ _ I E) as (v & Ev & _). congruence.
Qed.

Lemma up_lookup_ne p : p <> w -> vx' !! p = vx !! p.
Proof. intros H. rewrite (up_vx UP). by rewrite lookup_insert_ne. Qed.
Lemma up_lookup_eq : vx' !! w = Some xw.
Proof. rewrite (up_vx UP). by rewrite lookup_insert_eq. Qed.

Lemma up_vertex p x : vx !! p = Some x -> p <> w -> vertices s' !! x = vertices s !! x.
Proof. intros E H. rewrite (up_vs UP), lookup_insert_ne; [done |]. symmetry. by eapply up_other. Qed.

Lemma vtx_other p : p <> w -> vtx s' vx' p = vtx s vx p.
Proof.
  intros H. unfold vtx. rewrite up_lookup_ne by done. destruct (vx !! p) as [x |] eqn:E; [| done]. cbn. by eapply up_vertex.
Qed.

Lemma vtx_w : vtx s' vx' w = Some w1.
Proof. apply vtx_Some. exists xw. split; [apply up_lookup_eq |]. rewrite (up_vs UP). by rewrite lookup_insert_eq. Qed.

Lemma vtx_cases p v : vtx s' vx' p = Some v -> (p = w /\ v = w1) \/ (p <> w /\ vtx s vx p = Some v).
Proof.
  intros E. destruct (decide (p = w)) as [-> | Hne]; [left | right].
  - rewrite vtx_w in E. by injection E.
  - by rewrite vtx_other in E.
Qed.

Lemma up_dist : distance w1 = dist.
Proof. apply add_vps_distance; apply UP. Qed.

Lemma w_object : exists o, lsas_of e !! w = Some o /\ v_lsa w1 = w /\ v_type w1 = lo_type o /\ v_id w1 = lo_id o.
Proof.
  pose proof (add_vps_fields dist vps w0) as (Et & Ei & El & _). rewrite Et, Ei, El.
  destruct (up_w0 UP) as [(Ew & Ev & _) | (_ & _ & o & Eo & ->)]; [| by exists o].
  destruct (iv_vtx I w xw Ew) as (v & o & Ev' & Eo & ? & ? & ? & _). rewrite Ev in Ev'. injection Ev' as <-. eauto 10.
Qed.

(** The LSAs of the candidates are not on the tree, and are explored. *)
Lemma elem_lsa x v : x ∈ elems q -> vertices s !! x = Some v -> v_lsa v ∉ T /\ is_Some (vx !! v_lsa v).
Proof.
  intros Hx Ev. apply (iv_elems I) in Hx as (p & Ep & Hp).
  destruct (inv_vtx _ _ _ _ _ _ _ _ _ _ I Ep) as (v' & Ev' & _ & El). rewrite Ev in Ev'. injection Ev' as <-. rewrite El. eauto.
Qed.

Lemma up_stat_tree p : p ∈ T -> stat s' !! p = stat s !! p.
Proof.
  intros Hp. apply (up_stat UP).
  - intros ->. by apply (up_w UP).
  - intros x v Hx Ev E. destruct (elem_lsa x v Hx Ev) as [Hn _]. by rewrite E in Hn.
Qed.

Lemma up_stat_none p : vx' !! p = None -> stat s' !! p = stat s !! p.
Proof.
  intros Hp. assert (p <> w) as Hne by (intros ->; by rewrite up_lookup_eq in Hp). rewrite up_lookup_ne in Hp by done.
  apply (up_stat UP); [done |]. intros x v Hx Ev E. destruct (elem_lsa x v Hx Ev) as [_ [y Hy]]. rewrite E in Hy. congruence.
Qed.

(** ** The edge that gave the new distance *)

Context (u : lsa_ptr) (c : Z).
Context (LAST : last_joined T vx s u) (XU : vx !! u = Some xu) (VU : vertices s !! xu = Some vu).
Context (EDGE : edge u l w c) (DIST : dist = distance vu + c).
Context (HOPS : forall h, (exists vp, vp ∈ vps /\ hop_of vp = h) <-> hops_via e vls (root s) xu vu w1 l w h).
Context (PAR : forall vp, vp ∈ vps -> parent vp = xu).

Definition D' : edges := fun a k b d => D a k b d \/ (a = u /\ k = l /\ b = w /\ d = c).

Lemma u_ne_w : u <> w.
Proof. intros ->. destruct LAST as [H _]. by apply (up_w UP). Qed.

Lemma u_vtx : vtx s vx u = Some vu.
Proof. apply vtx_Some. eauto. Qed.

(** Hops do not depend on what changed. *)
Lemma tight_hop_other p v xa h : p <> w -> tight_hop e vls D s vx p v xa h <-> tight_hop e vls D' s' vx' p v xa h.
Proof.
  intros Hp. unfold tight_hop. rewrite (up_root UP). split.
  - intros (a & k & d & va & HD & Ea & Eva & ?). assert (a <> w) as Ha.
    { intros ->. destruct (iv_D I _ _ _ _ HD) as [_ HT]. by apply (up_w UP). }
    exists a, k, d, va. rewrite up_lookup_ne, (up_vertex a) by done. split; [by left | done].
  - intros (a & k & d & va & [HD | (-> & -> & -> & ->)] & Ea & Eva & ?); [| done]. assert (a <> w) as Ha.
    { intros ->. destruct (iv_D I _ _ _ _ HD) as [_ HT]. by apply (up_w UP). }
    rewrite up_lookup_ne in Ea by done. rewrite (up_vertex a) in Eva by done. exists a, k, d, va. done.
Qed.

Lemma w1_same_hops rt xa va k h : hops_via e vls rt xa va w0 k w h <-> hops_via e vls rt xa va w1 k w h.
Proof.
  pose proof (add_vps_fields dist vps w0) as (Et & _ & El & _). unfold hops_via.
  split; intros (ls & Hls & Hh); exists ls; (split; [done |]).
  - by rewrite <- (calc_hops_ext e vls rt xa va va w0 w1).
  - by rewrite (calc_hops_ext e vls rt xa va va w0 w1).
Qed.

Lemma sound_w xa h : in_parents w1 xa h -> tight_hop e vls D' s' vx' w w1 xa h.
Proof.
  intros (vp & Hvp & Hx & Hh). rewrite add_vps_parents in Hvp by apply UP. apply elem_of_app in Hvp as [Hvp | Hvp].
  - destruct (_ && _) eqn:Hf; [by apply not_elem_of_nil in Hvp |].
    destruct (up_w0 UP) as [(Ew & Ev & H0) | (_ & _ & o & Eo & ->)]; [| by apply not_elem_of_nil in Hvp].
    assert (distance w0 = dist) as Ed.
    { destruct (up_admits UP) as [_ [? | ?]]; [done |]. apply andb_false_iff in Hf as [Hf | Hf].
      - apply Z.ltb_ge in Hf. lia.
      - apply negb_false_iff, Z.eqb_eq in Hf. done. }
    destruct (iv_sound I w w0 xa h) as (a & k & d & va & HD & Ea & Eva & Et & Hv); [apply vtx_Some; eauto | by exists vp |].
    assert (a <> w) as Ha.
    { intros ->. destruct (iv_D I _ _ _ _ HD) as [_ HT]. by apply (up_w UP). }
    exists a, k, d, va. rewrite up_lookup_ne, (up_vertex a), (up_root UP), up_dist by done.
    split_and!; [by left | done | done | lia | by apply w1_same_hops].
  - exists u, l, c, vu. pose proof u_ne_w. rewrite up_lookup_ne, (PAR vp) in * by done. subst xa.
    rewrite (up_vertex u), (up_root UP), up_dist by done. split_and!; [by right | done | done | lia |].
    apply HOPS. eauto.
Qed.

Lemma complete_w : positive_metrics -> forall xa h, tight_hop e vls D' s' vx' w w1 xa h -> in_parents w1 xa h.
Proof.
  intros POS xa h (a & k & d & va & HD & Ea & Eva & Et & Hv). unfold in_parents. rewrite add_vps_parents by apply UP. rewrite up_dist in Et.
  rewrite (up_root UP) in Hv.
  destruct HD as [HD | (-> & -> & _ & ->)].
  - assert (a <> w) as Ha.
    { intros ->. destruct (iv_D I _ _ _ _ HD) as [_ HT]. by apply (up_w UP). }
    rewrite up_lookup_ne in Ea by done. rewrite (up_vertex a) in Eva by done.
    destruct (iv_relaxed I a k w d va HD) as (vw & Ew & Hle); [apply vtx_Some; eauto |].
    destruct (up_w0 UP) as [(Ew' & Ev & H0) | (Hn & _)].
    2:{ apply vtx_Some in Ew as (x & Ex & _). congruence. }
    assert (vw = w0) as -> by (apply vtx_Some in Ew as (x & Ex & Ew); congruence).
    destruct (up_admits UP) as [_ [? | Hle2]]; [done |].
    destruct (iv_complete I POS w w0 xa h) as (vp & Hvp & ? & ?).
    + intros ->. by apply (up_w UP), I.
    + done.
    + exists a, k, d, va. split_and!; [done | done | done | lia | by apply w1_same_hops].
    + exists vp. split; [| done]. apply elem_of_app. left. rewrite (proj2 (Z.ltb_ge _ _)) by lia. done.
  - pose proof u_ne_w. rewrite up_lookup_ne, XU in Ea by done. injection Ea as <-. rewrite (up_vertex u), VU in Eva by done. injection Eva as <-.
    apply HOPS in Hv as (vp & Hvp & Hh). exists vp. split; [apply elem_of_app; by right |]. split; [by apply PAR | done].
Qed.

Lemma T_size : Z.of_nat (base.size T) * 65535 < 2 ^ 31.
Proof.
  pose proof (eo_size _ _ ENV). assert (base.size T <= base.size (lsas_of e))%nat; [| lia].
  rewrite <- size_dom. apply subseteq_size. intros p Hp. apply elem_of_dom.
  destruct (iv_tree I p Hp) as [Hx _]. destruct (known_object _ _ ENV p) as [o ->]; [| done]. by apply (iv_known I).
Qed.

Lemma dist_bound : 0 <= dist <= 65535 * Z.of_nat (base.size T).
Proof.
  destruct (link_facts _ _ ENV _ _ _ _ (proj1 EDGE)) as (_ & Hc & _). pose proof (iv_bound I u vu u_vtx) as Hb.
  destruct LAST as [Hu _]. rewrite decide_True in Hb by done.
  pose proof (path_nonneg _ _ _ ENV _ _ (iv_path I u vu u_vtx)). lia.
Qed.

Lemma w1_ok : vertex_ok w1.
Proof.
  destruct w_object as (o & Eo & _ & Et & _). destruct (link_facts _ _ ENV _ _ _ _ (proj1 EDGE)) as (_ & _ & (o' & Eo' & Ho) & _).
  rewrite Eo in Eo'. injection Eo' as <-. split; [by rewrite Et |]. rewrite up_dist. pose proof dist_bound. pose proof T_size. lia.
Qed.

(** The key of a vertex is below that of the vertices its edges lead to. *)
Lemma key_up : positive_metrics -> key vu <= key w1.
Proof.
  intros POS. destruct (link_facts _ _ ENV _ _ _ _ (proj1 EDGE)) as (_ & Hc & _ & Hnet & Hnone). unfold key. rewrite up_dist.
  destruct w_object as (o & Eo & _ & Et & _). destruct (iv_vtx I u xu XU) as (v & ou & Ev & Eou & _ & Etu & _).
  rewrite VU in Ev. injection Ev as <-. destruct l as [k |].
  - specialize (POS _ _ _ _ EDGE). destruct (_ =? _), (_ =? _); lia.
  - pose proof (Hnone eq_refl ou Eou) as Hn. destruct (Hnet ou Eou Hn) as [_ Hw]. rewrite Et, (Hw o Eo), Etu, Hn. cbn. lia.
Qed.

Lemma inv_updated : inv T vx' D' s' q'.
Proof.
  pose proof u_ne_w as Huw. pose proof I as I0. destruct I0. assert (self <> w) as Hsw by (intros E; apply (up_w UP); by rewrite <- E).
  assert (forall p, p ∈ T -> p <> w) as HTw by (intros p Hp ->; by apply (up_w UP)).
  constructor.
  - rewrite up_lookup_ne, (up_root UP) by done. done.
  - done.
  - intros p Hp. rewrite up_lookup_ne, up_stat_tree by eauto. by apply iv_tree.
  - intros p x E. destruct (decide (p = w)) as [-> | Hp].
    + rewrite up_lookup_eq in E. injection E as <-. destruct w_object as (o & ? & ? & ? & ?). exists w1, o.
      rewrite (up_vs UP), lookup_insert_eq. pose proof w1_ok. done.
    + rewrite up_lookup_ne in E by done. destruct (iv_vtx p x E) as (v & o & ?). exists v, o. by rewrite (up_vertex p).
  - intros x v E. destruct (up_next UP) as [H1 H2]. rewrite (up_vs UP) in E.
    destruct (decide (x = xw)) as [-> | Hx]; [done |]. rewrite lookup_insert_ne in E by done. specialize (iv_fresh _ _ E). lia.
  - apply UP.
  - intros x. rewrite (up_elems UP), iv_elems. split.
    + intros [-> | (p & Ep & Hp)]; [exists w; split; [apply up_lookup_eq | apply UP] |].
      destruct (decide (p = w)) as [-> | Hne]; [| exists p; by rewrite up_lookup_ne].
      exists w. split; [| done]. destruct (up_w0 UP) as [(Ew & _) | (Ew & _)]; [| congruence].
      rewrite up_lookup_eq. congruence.
    + intros (p & Ep & Hp). destruct (decide (p = w)) as [-> | Hne].
      * rewrite up_lookup_eq in Ep. injection Ep as <-. by left.
      * rewrite up_lookup_ne in Ep by done. right. eauto.
  - intros p Hk Hp. rewrite up_stat_none by done. apply iv_unexplored; [done |].
    assert (p <> w) by (intros ->; by rewrite up_lookup_eq in Hp). by rewrite up_lookup_ne in Hp.
  - intros p [x Hx]. destruct (decide (p = w)) as [-> | Hne]; [apply UP |]. rewrite up_lookup_ne in Hx by done. apply iv_known. eauto.
  - intros p v [[-> ->] | [_ E]]%vtx_cases; [| by apply iv_path]. rewrite up_dist, DIST. eapply path_step; [| exact EDGE]. apply iv_path, u_vtx.
  - intros p v [[-> ->] | [_ E]]%vtx_cases; [| by apply iv_zero]. rewrite up_dist.
    destruct (up_admits UP) as [Hd _]. split; [done | congruence].
  - intros a k b d [HD | (-> & -> & -> & ->)]; [by apply iv_D |]. split; [done | apply LAST].
  - intros a k b d va HD Ea. assert (a <> w) as Ha.
    { destruct HD as [HD | (-> & _)]; [| done]. apply HTw. by eapply iv_D. }
    rewrite vtx_other in Ea by done. destruct HD as [HD | (-> & _ & -> & ->)].
    + destruct (iv_relaxed a k b d va HD Ea) as (vb & Eb & Hle). destruct (decide (b = w)) as [-> | Hb]; [| exists vb; by rewrite vtx_other].
      exists w1. split; [apply vtx_w |]. rewrite up_dist. destruct (up_w0 UP) as [(Ew & Ev & H0) | (Ew & _)].
      * apply vtx_Some in Eb as (x & Ex & Eb). assert (vb = w0) as -> by congruence. destruct (up_admits UP) as [_ [? | ?]]; [done | lia].
      * apply vtx_Some in Eb as (x & Ex & _). congruence.
    + exists w1. split; [apply vtx_w |]. rewrite u_vtx in Ea. injection Ea as <-. rewrite up_dist. lia.
  - intros p p' v v' Hp Hp' Ev Ev'. rewrite vtx_other in Ev by eauto. apply vtx_cases in Ev' as [[-> ->] | [_ Ev']]; [| by eapply iv_mono].
    destruct LAST as [_ Hl]. destruct (Hl p v vu Hp Ev u_vtx) as [Hd Hk]. rewrite up_dist.
    destruct (link_facts _ _ ENV _ _ _ _ (proj1 EDGE)) as (_ & Hc & _). split; [lia |]. intros POS. etrans; [by apply Hk | by apply key_up].
  - intros p v [[-> ->] | [_ E]]%vtx_cases; [| by apply iv_bound]. rewrite up_dist. pose proof dist_bound.
    rewrite decide_False by apply UP. lia.
  - intros p v xa h [[-> ->] | [Hp E]]%vtx_cases H; [by apply sound_w |]. apply (tight_hop_other p) ; [done |]. by eapply iv_sound.
  - intros POS p v xa h Hp [[-> ->] | [Hpw E]]%vtx_cases H; [by apply complete_w |]. apply (iv_complete POS p v xa h Hp E). by apply (tight_hop_other p v).
  - intros p v Hp [[-> ->] | [Hpw E]]%vtx_cases; [| by eapply iv_nonempty]. rewrite add_vps_parents by apply UP. intros H.
    apply app_eq_nil in H as [_ H]. by apply (up_vps UP).
  - intros HT. rewrite (up_vlinks UP). by apply iv_vls.
Qed.
End update.
End relax.

Arguments up_vx {e vls T xu vu l w xw w0 vps dist vx s q vx' s' q'} _.
Arguments up_vs {e vls T xu vu l w xw w0 vps dist vx s q vx' s' q'} _.
Arguments up_w0 {e vls T xu vu l w xw w0 vps dist vx s q vx' s' q'} _.
Arguments up_w {e vls T xu vu l w xw w0 vps dist vx s q vx' s' q'} _.
Arguments up_known {e vls T xu vu l w xw w0 vps dist vx s q vx' s' q'} _.
Arguments up_admits {e vls T xu vu l w xw w0 vps dist vx s q vx' s' q'} _.
Arguments up_vps {e vls T xu vu l w xw w0 vps dist vx s q vx' s' q'} _.
Arguments up_root {e vls T xu vu l w xw w0 vps dist vx s q vx' s' q'} _.
Arguments up_vlinks {e vls T xu vu l w xw w0 vps dist vx s q vx' s' q'} _.
Arguments up_next {e vls T xu vu l w xw w0 vps dist vx s q vx' s' q'} _.
Arguments up_stat {e vls T xu vu l w xw w0 vps dist vx s q vx' s' q'} _.
Arguments up_queue {e vls T xu vu l w xw w0 vps dist vx s q vx' s' q'} _.
Arguments up_elems {e vls T xu vu l w xw w0 vps dist vx s q vx' s' q'} _.
Arguments up_calc {e vls T xu vu l w xw w0 vps dist vx s q vx' s' q'} _.
