(* ===== verification/OspfSpfNext.v ===== *)
(** * Examining the links of a vertex

    The code of [ospf_spf_next]: on a database that [env_ok] describes, every access is inside its object, no assertion
    fails, and when all links of the last vertex of the tree have been examined, all its edges have been. *)

From S2P Require Import Prelude Pqueue PqueueProofs OspfLsdb OspfNeighbor OspfLsaWire OspfLsaProofs OspfSpfTypes OspfSpf OspfSpfQueue.
From S2P Require Import OspfSpfNexthop OspfSpfInv OspfSpfRelax.
Local Open Scope Z_scope.

Section next.
Context (e : area_env) (vls : list vl_data) (self : lsa_ptr) (ENV : env_ok e self).
Notation edge := (edge e vls self).
Notation link_to := (link_to e self).
Notation inv := (inv e vls self).
Notation edges := (lsa_ptr -> option router_lsa_link -> lsa_ptr -> Z -> Prop) (only parsing).
Notation positive_metrics := (positive_metrics e vls self).
Notation last_joined := (last_joined e vls self).
Notation updated := (updated e vls).

(** ** Hops *)

Lemma calc_vps_hops vls' n rt xv v w l lsw bl : hop_of <$> calc_vps e vls' n rt xv v w l lsw bl = (calc_hops e vls' rt xv v w l lsw).1.
Proof.
  unfold calc_vps. pose proof (eq_refl (calc_hops e vls' rt xv v w l lsw)) as E. unfold calc_hops at 2 in E.
  destruct (calc_hops e vls' rt xv v w l lsw) as [hops [|]]; cbn; [apply fresh_vps_hops |]. rewrite inherit_vps_hops.
  destruct (decide _); [done |]. destruct (bool_decide _) in E; [| done]. by injection E as <-.
Qed.

Lemma calc_vps_nil vls' n rt xv v w l lsw bl : calc_vps e vls' n rt xv v w l lsw bl = [] <-> (calc_hops e vls' rt xv v w l lsw).1 = [].
Proof. rewrite <- (calc_vps_hops vls' n rt xv v w l lsw bl). split; [by intros -> | apply fmap_nil_inv]. Qed.

Lemma fresh_vps_parent xv bl hops : forall n vp, vp ∈ fresh_vps xv bl n hops -> parent vp = xv.
Proof.
  induction hops as [| h r IH]; intros n vp H; cbn in H; [by apply not_elem_of_nil in H |].
  apply elem_of_cons in H as [-> | H]; [done | by eapply IH].
Qed.

Lemma calc_vps_parent vls' n rt xv v w l lsw bl vp : vp ∈ calc_vps e vls' n rt xv v w l lsw bl -> parent vp = xv.
Proof.
  unfold calc_vps. destruct (calc_hops e vls' rt xv v w l lsw) as [hops [|]]; [apply fresh_vps_parent |].
  unfold inherit_vps. intros (vp' & -> & _)%list_elem_of_fmap. done.
Qed.

(** ** One link *)

Section link.
Context (T : gset positive) (vx : gmap positive positive) (D : edges) (s : spf) (q : pqueue) (I : inv T vx D s q).
Context (u : lsa_ptr) (xu : vertex_ptr) (vu : vertex) (LAST : last_joined T vx s u).
Context (XU : vx !! u = Some xu) (VU : vertices s !! xu = Some vu).

Lemma u_object : exists ou, lsas_of e !! u = Some ou /\ v_lsa vu = u /\ v_type vu = lo_type ou /\ v_id vu = lo_id ou.
Proof. destruct (iv_vtx I u xu XU) as (v & o & Ev & ? & ? & ? & ? & _). rewrite VU in Ev. injection Ev as <-. eauto 10. Qed.

Lemma u_is_root : xu = root s <-> u = self.
Proof.
  split.
  - intros ->. exact (inv_inj _ _ _ _ _ _ _ _ _ _ _ I XU (iv_root I)).
  - intros ->. pose proof (iv_root I). congruence.
Qed.

Lemma vu_vtx : vtx s vx u = Some vu.
Proof. apply vtx_Some. eauto. Qed.

Lemma self_not_network o : u = self -> lsas_of e !! u = Some o -> lo_type o = OSPF_NETWORK_LSA -> False.
Proof.
  intros Hu Eo Ht. destruct (self_object _ _ ENV) as (o' & Eo' & Ht' & _). rewrite <- Hu, Eo in Eo'. injection Eo' as <-. by rewrite Ht in Ht'.
Qed.

(** While the links of the root are examined, the virtual links are as they were. *)
Lemma root_vls : u = self -> vlinks s = vls.
Proof.
  intros Hu. apply (iv_vls I). intros p Hp. destruct (iv_tree I p Hp) as [[x Ex] _].
  destruct (inv_vtx _ _ _ _ _ _ _ _ _ _ I Ex) as (v & _ & Ev & _). destruct LAST as [_ Hl].
  destruct (Hl p v vu Hp Ev vu_vtx) as [Hd _]. rewrite (proj2 (iv_zero I u vu vu_vtx) Hu) in Hd.
  apply (iv_zero I p v Ev). pose proof (path_nonneg _ _ _ ENV _ _ (iv_path I p v Ev)). lia.
Qed.

Context (l : option router_lsa_link) (w : lsa_ptr) (c : Z) (LINK : link_to u l w c) (NEW : w ∉ T).
Notation dist := (distance vu + c).

Lemma w_link : known e w /\ 0 <= c < 2 ^ 16 /\ exists ow lsw, lsas_of e !! w = Some ow /\
  (lo_type ow = OSPF_ROUTER_LSA \/ lo_type ow = OSPF_NETWORK_LSA) /\ (lo_type ow = OSPF_ROUTER_LSA -> lsa_links ow lsw) /\ lsa_examined ow.
Proof.
  destruct (link_facts _ _ ENV _ _ _ _ LINK) as (Hk & Hc & (ow & Eow & Ht) & _). split_and!; [done | lia | lia |].
  pose proof (eo_examined _ _ ENV w ow Eow) as Hx. destruct Ht as [Ht | Ht].
  - destruct (examined_links ow Hx Ht) as (ls & Hls & _). exists ow, ls. split_and!; [done | by left | done | done].
  - exists ow, []. split_and!; [done | by right | by rewrite Ht | done].
Qed.

Lemma dist_nonzero : dist <> 0.
Proof.
  destruct (link_facts _ _ ENV _ _ _ _ LINK) as (_ & Hc & _). pose proof (path_nonneg _ _ _ ENV _ _ (iv_path I u vu vu_vtx)) as Hp.
  destruct (decide (u = self)) as [Hu | Hne].
  - rewrite Hu in LINK. pose proof (self_link_metric _ _ ENV _ _ _ LINK). lia.
  - intros E. apply Hne. apply (iv_zero I u vu vu_vtx). lia.
Qed.

(** ** The next hop calculation for [xw], whose vertex is [w0] *)

Section calc.
Context (s1 : spf) (xw : vertex_ptr) (w0 : vertex) (ow : lsa_object) (lsw : list router_lsa_link).
Context (OW : lsas_of e !! w = Some ow) (LSW : lo_type ow = OSPF_ROUTER_LSA -> lsa_links ow lsw).
Context (TOW : lo_type ow = OSPF_ROUTER_LSA \/ lo_type ow = OSPF_NETWORK_LSA).
Context (W0 : vertices s1 !! xw = Some w0) (LW : v_lsa w0 = w) (TW : v_type w0 = lo_type ow) (VU1 : vertices s1 !! xu = Some vu) (NE : xu <> xw).
Context (R1 : root s1 = root s) (V1 : vlinks s1 = vlinks s) (AD : admits dist w0).
Notation hops := (calc_hops e vls (root s) xu vu w0 l lsw).
Notation vps bl := (calc_vps e vls (next_nexthop s1) (root s) xu vu w0 l lsw bl).

Lemma vls_irrelevant : calc_hops e (vlinks s) (root s) xu vu w0 l lsw = hops.
Proof. unfold calc_hops. destruct (decide _) as [Hr | Hr]; [| done]. by rewrite root_vls by by apply u_is_root. Qed.

Lemma calc_run : exists bl,
  (forall ow' ou', lsas_of e !! w = Some ow' -> lsas_of e !! v_lsa vu = Some ou' -> ospf_lsa_has_link ow' ou' = Ok bl) /\ ospf_nexthop_calculation e xu xw l dist s1 =
  Ok (negb (bool_decide (vps bl = [])), set_vertex xw (add_vps dist (vps bl) w0) (calc_alloc hops s1)).
Proof.
  destruct u_object as (ou & Eou & Lu & Tu & Iu). pose proof (eo_examined _ _ ENV w ow OW) as Hx.
  destruct (has_link_Ok ow ou Hx) as [bl Hbl]. exists bl. split; [intros ow' ou' E1 E2; rewrite Lu in E2; congruence |].
  pose proof (link_facts _ _ ENV _ _ _ _ LINK) as (_ & _ & _ & Hnet & _).
  rewrite (nexthop_calculation_Ok e xu xw vu w0 ou ow lsw bl dist l s1).
  - unfold calc_vps. rewrite R1, V1, vls_irrelevant. done.
  - apply Hx.
  - constructor; try done; [by rewrite Lu | by rewrite LW].
  - intros Hr. rewrite R1 in Hr. apply u_is_root in Hr. rewrite V1. destruct l as [k |] eqn:El.
    + eapply root_nexthop_Ok; [apply (eo_examined _ _ ENV) | by rewrite LW | | by rewrite TW]. rewrite TW. eauto.
    + destruct (self_not_network ou Hr Eou). destruct (link_facts _ _ ENV _ _ _ _ LINK) as (_ & _ & _ & _ & Hn). eauto.
  - intros Hn. rewrite Tu in Hn. destruct (Hnet ou Eou Hn) as [-> Hw]. specialize (Hw ow OW). rewrite TW. auto.
Qed.

Lemma hops_edge : hops.1 <> [] -> edge u l w c.
Proof.
  intros H. split; [done |]. intros Hu. unfold calc_hops in H. rewrite decide_True in H by by apply u_is_root.
  destruct l as [k |] eqn:El.
  - destruct (root_nexthop e vls vu w0 (Some k)) as [[h |] | |] eqn:Er; try done. exists k, h. split; [done |].
    destruct u_object as (ou & Eou & _ & Tu & Iu). rewrite Hu in Eou. by apply (root_hop_code e vls self ENV k w h ou ow vu w0).
  - destruct u_object as (ou & Eou & _). destruct (self_not_network ou Hu Eou).
    destruct (link_facts _ _ ENV _ _ _ _ LINK) as (_ & _ & _ & _ & Hn). eauto.
Qed.

Lemma no_hops_no_edge : hops.1 = [] -> ~ edge u l w c.
Proof.
  intros H [_ Hr]. unfold calc_hops in H. destruct (decide (xu = root s)) as [Hx | Hx].
  - apply u_is_root in Hx. destruct (Hr Hx) as (k & h & El & Er).
    destruct u_object as (ou & Eou & _ & Tu & Iu). rewrite Hx in Eou.
    apply (root_hop_code e vls self ENV k w h ou ow vu w0) in Er; try done. by rewrite El, Er in H.
  - assert (u <> self) as Hu by (intros E; by apply Hx, u_is_root). pose proof (iv_nonempty I u vu Hu vu_vtx).
    destruct (bool_decide _) eqn:Hb; cbn in H; [by apply fmap_nil_inv in H |]. apply bool_decide_eq_false in Hb. done.
Qed.

(** The hops given are those of the specification. *)
Lemma vps_hops w1 bl h : v_type w1 = v_type w0 -> v_lsa w1 = v_lsa w0 ->
  (exists vp, vp ∈ vps bl /\ hop_of vp = h) <-> hops_via e vls (root s) xu vu w1 l w h.
Proof.
  intros Et El. transitivity (h ∈ hops.1).
  { rewrite <- (calc_vps_hops vls (next_nexthop s1) (root s) xu vu w0 l lsw bl), list_elem_of_fmap. naive_solver. }
  unfold hops_via. split.
  - intros Hh. exists lsw. split; [by exists ow |]. by rewrite (calc_hops_ext e vls (root s) xu vu vu w1 w0).
  - intros (ls & (o & Eo & Hls) & Hh). rewrite OW in Eo. injection Eo as <-.
    rewrite (calc_hops_ext e vls (root s) xu vu vu w1 w0) in Hh by done. unfold calc_hops in *. destruct (decide _); [done |].
    destruct (Z.eqb_spec (v_type vu) OSPF_VERTEX_NETWORK) as [Hn | Hn]; [| done].
    destruct u_object as (ou & Eou & _ & Tu & _). rewrite Tu in Hn.
    destruct (link_facts _ _ ENV _ _ _ _ LINK) as (_ & _ & _ & Hnet & _). destruct (Hnet ou Eou Hn) as [_ Hw].
    by rewrite (links_at_fun _ _ _ (LSW (Hw ow OW)) ls (Hls (Hw ow OW))).
Qed.
End calc.

(** What examining the link does. *)
Definition hops_given (vps : list vertex_parent) (w1 : vertex) : Prop :=
  (forall h, (exists vp, vp ∈ vps /\ hop_of vp = h) <-> hops_via e vls (root s) xu vu w1 l w h) /\ (forall vp, vp ∈ vps -> parent vp = xu).

(** A vertex that could not be reached over a link of the root was allocated and is not used. *)
Definition discarded (s' : spf) : Prop :=
  s' = s \/ exists o, lsas_of e !! w = Some o /\
    s' = set_vertex_list (vertex_list s ++ [next_vertex s]) (set_next_vertex (Pos.succ (next_vertex s)) (set_vertex (next_vertex s) (bare w o) s)).

Definition relaxed (vx' : gmap positive positive) (s' : spf) (q' : pqueue) : Prop :=
  (edge u l w c /\ exists xw w0 vps, updated T xu vu l w xw w0 vps dist vx s q vx' s' q' /\ hops_given vps (add_vps dist vps w0)) \/
  (vx' = vx /\ q' = q /\ s' = s /\ exists vw, vtx s vx w = Some vw /\ distance vw < dist) \/
  (vx' = vx /\ q' = q /\ ~ edge u l w c /\ discarded s').

Lemma xu_fresh : (xu < next_vertex s)%positive.
Proof. by eapply (iv_fresh I). Qed.

Lemma dist_small : edge u l w c -> 0 <= dist < 2 ^ 31.
Proof.
  intros He. pose proof (dist_bound e vls self ENV T w dist vx D s q xu vu l I u c LAST XU VU He eq_refl).
  pose proof (T_size e vls self ENV T vx D s q I). lia.
Qed.

Lemma bare_admits o : admits dist (bare w o).
Proof. split; [apply dist_nonzero | by left]. Qed.

Lemma add_vps_ok w0 vps o :
  edge u l w c -> admits dist w0 -> vps <> [] -> v_type w0 = lo_type o -> (lo_type o = OSPF_ROUTER_LSA \/ lo_type o = OSPF_NETWORK_LSA) ->
  vertex_ok (add_vps dist vps w0).
Proof.
  intros He Ha Hn Et Ho. destruct (add_vps_fields dist vps w0) as (Et' & _). split; [rewrite Et', Et; done |].
  rewrite add_vps_distance by done. by apply dist_small.
Qed.

Lemma calc_alloc_frame r (s0 : spf) : exists live n, calc_alloc r s0 = set_nexthops live n s0.
Proof.
  unfold calc_alloc. destruct r.2.
  - destruct (alloc_frame r.1 s0) as (live & n & E & _). eauto.
  - exists (live_nexthops s0), (next_nexthop s0). by destruct s0.
Qed.

Lemma calc_alloc_nil (r : list (option spf_if * Z) * bool) (s0 : spf) : r.1 = [] -> calc_alloc r s0 = s0.
Proof. unfold calc_alloc. intros ->. by destruct r.2. Qed.

Lemma candidate_lt x : x ∈ elems q -> (x < next_vertex s)%positive.
Proof. intros Hx. destruct (queue_ok_elem s q x (iv_queue I) Hx) as (v & _ & Ev & _). by eapply (iv_fresh I). Qed.

Lemma relax_new : vx !! w = None -> exists vx' q' s', spf_relax e xu l w dist q s = Ok (q', s') /\ relaxed vx' s' q'.
Proof.
  intros Hw. destruct w_link as (Hk & Hc & ow & lsw & Eow & Tow & Hls & Hex). unfold spf_relax, get_stat.
  rewrite (iv_unexplored I w Hk Hw). cbn [mbind res_bind]. change (LSA_SPF_NOT_EXPLORED =? LSA_SPF_NOT_EXPLORED) with true. cbn iota.
  unfold ospf_vertex_new, get_obj. rewrite Eow. cbn [mbind res_bind]. fold (bare w ow).
  set (xw := next_vertex s). set (w0 := bare w ow).
  set (s1 := set_vertex_list _ _). pose proof xu_fresh as Hxu. fold xw in Hxu.
  destruct (calc_run s1 xw w0 ow lsw) as (bl & Hbl & E); try done.
  { cbn. by rewrite lookup_insert_eq. }
  { cbn. rewrite lookup_insert_ne; [done | lia]. }
  { lia. }
  { apply bare_admits. }
  rewrite E. cbn [mbind res_bind]. set (hops := calc_hops e vls (root s) xu vu w0 l lsw) in *.
  set (vps := calc_vps e vls (next_nexthop s1) (root s) xu vu w0 l lsw bl) in *. clear E.
  assert (vertices s !! xw = None) as Hfresh.
  { destruct (vertices s !! xw) eqn:Ex; [| done]. apply (iv_fresh I) in Ex. lia. }
  destruct (bool_decide (vps = [])) eqn:Hv; cbn [negb].
  - apply bool_decide_eq_true in Hv. rewrite Hv. pose proof (proj1 (calc_vps_nil _ _ _ _ _ _ _ _ _) Hv) as Hnil. fold hops in Hnil.
    rewrite calc_alloc_nil by done. cbn [add_vps]. rewrite set_vertex_same by (cbn; by rewrite lookup_insert_eq).
    exists vx, q, s1. split; [done |]. right. right. split_and!; [done | done | | right; by exists ow].
    by apply (no_hops_no_edge w0 ow lsw).
  - apply bool_decide_eq_false in Hv. assert (hops.1 <> []) as Hh by (intros H; by apply Hv, calc_vps_nil).
    assert (edge u l w c) as He by by apply (hops_edge w0 ow lsw).
    destruct (calc_alloc_frame hops s1) as (live & n & Ea). rewrite Ea. set (w1 := add_vps dist vps w0).
    set (s2 := set_vertex xw w1 _). assert (vertices s2 = <[xw := w1]> (vertices s)) as Evs by (unfold s2; cbn; by rewrite insert_insert_eq).
    destruct (add_vps_fields dist vps w0) as (Et & Ei & El & _).
    assert (queue_ok s2 q) as Q2.
    { eapply queue_ok_ext; [exact (iv_queue I) |]. intros x v Hx Ev. exists v. rewrite Evs, lookup_insert_ne; [done |].
      pose proof (candidate_lt x Hx). unfold xw. lia. }
    destruct (spf_enqueue_ok s2 q Q2 xw w1) as (q' & st' & Eq & Qq & Hel & Hst).
    + rewrite Evs. apply lookup_insert_eq.
    + eapply add_vps_ok; [done | apply bare_admits | done | done | done].
    + unfold w1. rewrite El. exists LSA_SPF_NOT_EXPLORED. exact (iv_unexplored I w Hk Hw).
    + intros y vy Hy Ey Ely. rewrite Evs, lookup_insert_ne in Ey by (pose proof (candidate_lt y Hy); unfold xw; lia).
      unfold w1 in Ely. rewrite El in Ely. cbn in Ely. apply (iv_elems I) in Hy as (p & Ep & _).
      destruct (inv_vtx _ _ _ _ _ _ _ _ _ _ I Ep) as (vy' & Ey' & _ & Elp). rewrite Ey in Ey'. injection Ey' as <-. congruence.
    + rewrite Eq. exists (<[w := xw]> vx), q', (set_stats st' s2). split; [done |]. left. split; [done |]. exists xw, w0, vps. split.
      2:{ split; [| intros vp; apply calc_vps_parent]. intros h. by eapply vps_hops. }
      constructor; try done.
      * right. split_and!; [done | done | by exists ow].
      * apply bare_admits.
      * split; [cbn; lia | cbn; unfold xw; lia].
      * intros p Hp Hn. cbn. rewrite Hst; [done |]. intros x v [-> | Hx]%elem_of_cons Ev.
        -- rewrite Evs, lookup_insert_eq in Ev. injection Ev as <-. unfold w1. rewrite El. done.
        -- rewrite Evs, lookup_insert_ne in Ev by (pose proof (candidate_lt x Hx); unfold xw; lia). by eapply Hn.
      * intros x. rewrite Hel. apply elem_of_cons.
      * exists lsw, bl. split; [by exists ow |]. split; [exact Hbl |]. split; [done |]. fold hops. unfold s2. rewrite <- Ea. unfold calc_alloc.
        destruct hops as [hs [|]]; cbn; [| done]. by apply alloc_ext.
Qed.

Lemma relax_old xw : vx !! w = Some xw -> exists vx' q' s', spf_relax e xu l w dist q s = Ok (q', s') /\ relaxed vx' s' q'.
Proof.
  intros Hw. destruct w_link as (Hk & Hc & ow & lsw & Eow & Tow & Hls & Hex). unfold spf_relax, get_stat.
  assert (xw ∈ elems q) as Hxw by (apply (iv_elems I); eauto).
  destruct (queue_ok_elem s q xw (iv_queue I) Hxw) as (w0 & i & Ew0 & Ow0 & Ei & Si).
  destruct (iv_vtx I w xw Hw) as (v & o & Ev & Eo & Lw & Tw & Iw & _). rewrite Ew0 in Ev. injection Ev as <-. rewrite Eow in Eo. injection Eo as <-.
  rewrite Lw in Si. rewrite Si. cbn [mbind res_bind]. rewrite (proj2 (Z.eqb_neq _ _)) by (unfold LSA_SPF_NOT_EXPLORED; lia).
  rewrite (proj2 (Z.leb_le 0 _)) by lia. rewrite Nat2Z.id.
  assert (Pqueue.rd (array q) i = Ok xw) as ->.
  { unfold Pqueue.rd. unfold elems in Ei. apply lookup_take_Some in Ei as [-> _]. done. }
  cbn [mbind res_bind]. unfold get_vertex. rewrite Ew0. cbn [mbind res_bind].
  assert (vtx s vx w = Some w0) as Vw by (apply vtx_Some; eauto).
  assert (distance w0 <> 0) as Hw0.
  { intros H. apply (iv_zero I w w0 Vw) in H. apply NEW. rewrite H. apply (iv_self I). }
  destruct (Z.ltb_spec (distance w0) dist) as [Hlt | Hge].
  { exists vx, q, s. split; [done |]. right. left. split_and!; [done | done | done | by exists w0]. }
  assert (admits dist w0) as Ha by (split; [apply dist_nonzero | by right]).
  assert (xu <> xw) as Hne.
  { intros E. apply NEW. rewrite E in XU. rewrite (inv_inj _ _ _ _ _ _ _ _ _ _ _ I Hw XU). apply LAST. }
  destruct (calc_run s xw w0 ow lsw) as (bl & Hbl & E); try done. rewrite E. clear E.
  set (hops := calc_hops e vls (root s) xu vu w0 l lsw) in *.
  set (vps := calc_vps e vls (next_nexthop s) (root s) xu vu w0 l lsw bl) in *.
  destruct (decide (vps = [])) as [Hv | Hv].
  { rewrite Hv. cbn [add_vps]. pose proof (proj1 (calc_vps_nil _ _ _ _ _ _ _ _ _) Hv) as Hnil. fold hops in Hnil.
    rewrite calc_alloc_nil, set_vertex_same by done. cbn [mbind res_bind bool_decide negb]. exists vx, q, s.
    split; [by destruct (_ =? _) |]. right. right. split_and!; [done | done | by apply (no_hops_no_edge w0 ow lsw) | by left]. }
  assert (hops.1 <> []) as Hh by (intros H; by apply Hv, calc_vps_nil).
  assert (edge u l w c) as He by by apply (hops_edge w0 ow lsw).
  rewrite (bool_decide_eq_false_2 _ Hv). cbn [mbind res_bind negb].
  destruct (calc_alloc_frame hops s) as (live & n & Ea). rewrite Ea. set (w1 := add_vps dist vps w0).
  set (s2 := set_vertex xw w1 _). assert (vertices s2 = <[xw := w1]> (vertices s)) as Evs by done.
  destruct (add_vps_fields dist vps w0) as (Et & Eid & El & _).
  assert (distance w1 = dist) as Ed by by apply add_vps_distance.
  assert (vertex_ok w1) as Ok1 by by eapply add_vps_ok.
  assert (exists q' st', (if distance w0 =? dist then Ok (q, s2)
     else st ← match stat s2 !! w with Some z => Ok z | None => Oob end;
          if st <? 0 then Oob else trickle_up (cmp (vertices s2)) update_stat (Z.to_nat st) q s2) = Ok (q', set_stats st' s2) /\
     queue_ok (set_stats st' s2) q' /\ elems q' ≡ₚ elems q /\
     (forall p, (forall x v, x ∈ elems q -> vertices s !! x = Some v -> v_lsa v <> p) -> st' !! p = stat s !! p))
    as (q' & st' & Eq & Qq & Hel & Hst).
  { destruct (Z.eqb_spec (distance w0) dist) as [Heq | Hneq].
    - exists q, (stat s2). split; [by destruct s2 |]. split; [| done]. replace (set_stats (stat s2) s2) with s2 by by destruct s2.
      eapply queue_ok_ext; [exact (iv_queue I) |]. intros x v Hx Ex. destruct (decide (x = xw)) as [-> | Hx'].
      + exists w1. rewrite Evs, lookup_insert_eq. rewrite Ew0 in Ex. injection Ex as <-. split_and!; [done | done | lia | done | done].
      + exists v. rewrite Evs, lookup_insert_ne by done. done.
    - assert (stat s2 !! w = Some (Z.of_nat i)) as -> by done. cbn [mbind res_bind]. rewrite (proj2 (Z.ltb_ge _ _)), Nat2Z.id by lia.
      destruct (spf_decrease_ok s q (iv_queue I) s2 i xw w0 w1) as (q' & st' & ? & ? & ? & ?); try done.
      + rewrite Evs. apply lookup_insert_eq.
      + rewrite Ed. lia.
      + intros y Hy _. rewrite Evs. by rewrite lookup_insert_ne.
      + exists q', st'. done. }
  exists (<[w := xw]> vx), q', (set_stats st' s2). split.
  { destruct (distance w0 =? dist); [exact Eq | exact Eq]. }
  left. split; [done |]. exists xw, w0, vps. split.
  2:{ split; [| intros vp; apply calc_vps_parent]. intros h. by eapply vps_hops. }
  constructor; try done.
  - left. done.
  - split; [cbn; lia |]. cbn. by apply candidate_lt.
  - intros p Hp Hn. cbn. by apply Hst.
  - intros x. rewrite Hel. split; [by right | intros [-> | ?]; done].
  - exists lsw, bl. split; [by exists ow |]. split; [exact Hbl |]. split; [done |]. fold hops. unfold s2. rewrite <- Ea. done.
Qed.

Lemma relax_Ok : exists vx' q' s', spf_relax e xu l w dist q s = Ok (q', s') /\ relaxed vx' s' q'.
Proof. destruct (vx !! w) as [xw |] eqn:E; [by eapply relax_old | by apply relax_new]. Qed.

(** ** The invariant after the link *)

(** The edges examined, with that of the link if it is one. *)
Definition with_edge : edges := fun a k b d => D a k b d \/ (a = u /\ k = l /\ b = w /\ d = c /\ edge u l w c).

Definition here (vx' : gmap positive positive) (s' : spf) : Prop :=
  last_joined T vx' s' u /\ vx' !! u = Some xu /\ vertices s' !! xu = Some vu.

Lemma inv_more (D2 : edges) vx' s' q' : (forall a k b d, D2 a k b d <-> with_edge a k b d) -> inv T vx' with_edge s' q' -> inv T vx' D2 s' q'.
Proof. intros H I'. eapply inv_add_edges; [exact I' | intros; by apply H | intros a k b d H2; left; by apply H]. Qed.

Lemma discarded_vertex s' x v : discarded s' -> vertices s !! x = Some v -> vertices s' !! x = Some v.
Proof.
  intros [-> | (o & _ & ->)] E; [done |]. cbn. rewrite lookup_insert_ne; [done |]. apply (iv_fresh I) in E. lia.
Qed.

Lemma discarded_inv s' : discarded s' -> inv T vx D s' q.
Proof.
  intros H. eapply inv_frame; [exact I | | | | |]; try by destruct H as [-> | (o & _ & ->)].
  - intros p x Ex. destruct (inv_vtx _ _ _ _ _ _ _ _ _ _ I Ex) as (v & Ev & _). rewrite Ev, (discarded_vertex s' x v H Ev). done.
  - destruct H as [-> | (o & _ & ->)]; [apply (iv_fresh I) |]. cbn. intros x v E. destruct (decide (x = next_vertex s)) as [-> | Hne]; [lia |].
    rewrite lookup_insert_ne in E by done. apply (iv_fresh I) in E. lia.
Qed.

Lemma relaxed_here vx' s' q' : relaxed vx' s' q' -> here vx' s'.
Proof.
  intros [(He & xw & w0 & vps & UP & _) | [(-> & -> & -> & _) | (-> & -> & _ & Hd)]].
  - assert (forall p, p ∈ T -> p <> w) as Hp by (intros p Hp ->; by apply NEW). assert (u <> w) as Hu by (apply Hp, LAST). split_and!.
    + destruct LAST as [Hu1 Hl]. split; [done |]. intros p v v' HpT. rewrite !(vtx_other _ _ _ _ _ _ _ _ _ _ _ _ _ _ _ _ _ _ _ I UP) by auto. by apply Hl.
    + by rewrite (up_lookup_ne _ _ _ _ _ _ _ _ _ _ _ _ _ _ _ _ _ UP).
    + by rewrite (up_vertex _ _ _ _ _ _ _ _ _ _ _ _ _ _ _ _ _ _ _ I UP u).
  - done.
  - pose proof (discarded_inv s' Hd) as I'. split_and!; [| done | by eapply discarded_vertex].
    destruct LAST as [Hu1 Hl]. split; [done |]. intros p v v' HpT (x & Ex & Ev)%vtx_Some (x' & Ex' & Ev')%vtx_Some.
    destruct (inv_vtx _ _ _ _ _ _ _ _ _ _ I Ex) as (v1 & Ev1 & ? & _). destruct (inv_vtx _ _ _ _ _ _ _ _ _ _ I Ex') as (v2 & Ev2 & ? & _).
    rewrite (discarded_vertex s' x v1 Hd Ev1) in Ev. injection Ev as <-. rewrite (discarded_vertex s' x' v2 Hd Ev2) in Ev'. injection Ev' as <-.
    by eapply Hl.
Qed.

Lemma relaxed_inv vx' s' q' : relaxed vx' s' q' -> inv T vx' with_edge s' q'.
Proof.
  intros [(He & xw & w0 & vps & UP & Hops & Hpar) | [(-> & -> & -> & vw & Ew & Hlt) | (-> & -> & Hn & Hd)]].
  - pose proof (inv_updated e vls self ENV T w xw w0 vps dist vx D s q vx' s' q' xu vu l I UP u c LAST XU VU He eq_refl Hops Hpar) as I'.
    eapply inv_add_edges; [exact I' | |]; unfold with_edge, D'; naive_solver.
  - eapply inv_add_edges; [exact I | by left |]. intros a k b d [H | (-> & -> & -> & -> & He)]; [by left | right].
    split; [done |]. split; [apply LAST |]. intros vu' Eu. rewrite vu_vtx in Eu. injection Eu as <-. exists vw. split_and!; [done | lia | lia].
  - eapply inv_add_edges; [by apply discarded_inv | by left |]. intros a k b d [H | (_ & _ & _ & _ & He)]; [by left | done].
Qed.
End link.

(** An edge to a vertex of the tree: it was nearer. *)
Lemma tree_edge T vx D s q u xu vu l w c :
  inv T vx D s q -> here T u xu vu vx s -> link_to u l w c -> w ∈ T -> inv T vx (with_edge D u l w c) s q.
Proof.
  intros I (LAST & XU & VU) LINK Hw. pose proof (vu_vtx vx s u xu vu XU VU) as Vu.
  eapply inv_add_edges; [exact I | by left |]. intros a k b d [H | (-> & -> & -> & -> & He)]; [by left | right].
  split; [done |]. split; [apply LAST |]. intros vu' Eu. rewrite Vu in Eu. injection Eu as <-.
  destruct (iv_tree I w Hw) as [[xw Ew] _]. destruct (inv_vtx _ _ _ _ _ _ _ _ _ _ I Ew) as (vw & Evw & Vw & Lw).
  destruct (proj2 LAST w vw vu Hw Vw Vu) as [Hd Hk]. destruct (link_facts _ _ ENV _ _ _ _ LINK) as (_ & Hc & _ & Hnet & Hnone).
  exists vw. split_and!; [done | lia |]. intros POS _ Heq. specialize (Hk POS). assert (c = 0) as -> by lia.
  destruct l as [k |]; [specialize (POS _ _ _ _ He); lia |].
  destruct (iv_vtx I u xu XU) as (v & ou & Ev & Eou & _ & Tu & _). rewrite VU in Ev. injection Ev as <-.
  destruct (iv_vtx I w xw Ew) as (v & ow & Ev & Eow & _ & Tw & _). rewrite Evw in Ev. injection Ev as <-.
  pose proof (Hnone eq_refl ou Eou) as Hn. destruct (Hnet ou Eou Hn) as [_ Hr]. unfold key in Hk. rewrite Tu, Tw, Hn, (Hr ow Eow) in Hk. cbn in Hk. lia.
Qed.
End next.
