(* ===== verification/OspfSpfLoop.v ===== *)
(** * The loops over the links of a vertex

    [ospf_spf_next] examines every link of the last vertex of the tree.  The lemmas carry a further invariant [K] of the
    vertices, which has to be kept by the examination of one link.

    The loop of the shortest path calculation.  A candidate of least key joins the tree, and its links are examined, until there are no candidates; every turn adds an
    LSA to the tree, so that as many turns as there are LSAs are enough. *)

From S2P Require Import Prelude Pqueue PqueueProofs OspfLsdb OspfNeighbor OspfLsaWire OspfSpfTypes OspfRoute OspfSpf OspfSpfQueue OspfLsaProofs OspfSpfNexthop OspfSpfInv OspfSpfRelax OspfSpfNext.
Local Open Scope Z_scope.

Section loops.
Context (e : area_env) (vls : list vl_data) (self : lsa_ptr) (ENV : env_ok e self).
Notation edge := (edge e vls self).
Notation link_to := (link_to e self).
Notation inv := (inv e vls self).
Notation edges := (lsa_ptr -> option router_lsa_link -> lsa_ptr -> Z -> Prop) (only parsing).
Notation here := (here e vls self).
Notation relaxed := (relaxed e vls self).

Context (K : gset positive -> gmap positive positive -> spf -> Prop).
Context (KSTEP : forall T vx D s q u xu vu l w c vx' s' q',
  inv T vx D s q -> here T u xu vu vx s -> link_to u l w c -> w ∉ T -> relaxed T vx s q u xu vu l w c vx' s' q' -> K T vx s -> K T vx' s').
Context (KTRANS : forall T vx s b, K T vx s -> K T vx (set_transit b s)).

Section vertex.
Context (T : gset positive) (u : lsa_ptr) (xu : vertex_ptr) (vu : vertex) (ou : lsa_object).
Context (OU : lsas_of e !! u = Some ou).

(** The edges [N] of [u] have been examined too. *)
Definition plus (D : edges) (N : option router_lsa_link -> lsa_ptr -> Prop) : edges :=
  fun a k b d => D a k b d \/ (a = u /\ N k b /\ edge u k b d).

Definition ready (vx : gmap positive positive) (s : spf) : Prop := here T u xu vu vx s /\ K T vx s.

Lemma inv_iff vx D D2 s q : inv T vx D s q -> (forall a k b d, D2 a k b d <-> D a k b d) -> inv T vx D2 s q.
Proof. intros I H. eapply inv_add_edges; [exact I | intros; by apply H | intros a k b d H2; left; by apply H]. Qed.

Lemma dist_fits vx D s q (k : router_lsa_link) : inv T vx D s q -> here T u xu vu vx s -> 0 <= metric k < 2 ^ 16 ->
  u32 (distance vu + metric k) = distance vu + metric k.
Proof.
  intros I (LAST & XU & VU) Hm. pose proof (vu_vtx vx s u xu vu XU VU) as Vu. pose proof (iv_bound I u vu Vu) as Hb.
  rewrite decide_True in Hb by apply LAST. pose proof (T_size e vls self ENV T vx D s q I).
  pose proof (path_nonneg _ _ _ ENV _ _ (iv_path I u vu Vu)). apply (wrap_small 32). unfold in_u. lia.
Qed.

(** One link: [r] is the LSA it names. *)
Lemma examine_Ok vx D s q l r c :
  inv T vx D s q -> ready vx s -> (forall w, r = Some w -> known e w) ->
  (forall w, r = Some w -> usable_lsa e ou w = Ok true -> link_to u l w c) ->
  match l with Some k => c = metric k /\ 0 <= metric k < 2 ^ 16 | None => c = 0 end ->
  exists vx' q' s', spf_examine e xu vu ou l r q s = Ok (q', s') /\
    inv T vx' (plus D (fun k b => k = l /\ r = Some b /\ usable_lsa e ou b = Ok true)) s' q' /\ ready vx' s'.
Proof.
  intros I [Hh Hk] Hknown Hlink Hc.
  assert ((forall a k b d, ~ (a = u /\ (k = l /\ r = Some b /\ usable_lsa e ou b = Ok true) /\ edge u k b d)) ->
    exists vx' q' s', @Ok (Pqueue.pqueue * spf) (q, s) = Ok (q', s') /\ inv T vx' (plus D (fun k b => k = l /\ r = Some b /\ usable_lsa e ou b = Ok true)) s' q' /\ ready vx' s') as Hskip.
  { intros Hno. exists vx, q, s. split_and!; [done | | by split]. eapply inv_iff; [exact I |]. unfold plus. intros a k b d.
    specialize (Hno a k b d). tauto. }
  destruct r as [w |]; cbn [spf_examine]; [| apply Hskip; naive_solver].
  destruct (usable_Ok e self ENV ou w (Hknown w eq_refl)) as [b Hb]. rewrite Hb. cbn [mbind res_bind].
  destruct b; cbn [negb]; [| apply Hskip; intros a k b d (_ & (_ & [= <-] & Hu) & _); congruence].
  specialize (Hlink w eq_refl Hb). clear Hskip.
  assert (exists st, get_stat s w = Ok st /\ (st = LSA_SPF_IN_SPFTREE <-> w ∈ T)) as (st & Est & Hst).
  { unfold get_stat. destruct (decide (w ∈ T)) as [HT | HT].
    - exists LSA_SPF_IN_SPFTREE. by rewrite (proj2 (iv_tree I w HT)).
    - destruct (vx !! w) as [xw |] eqn:Ew.
      + destruct (queue_ok_elem s q xw (iv_queue I)) as (v & i & Ev & _ & _ & Si); [apply (iv_elems I); eauto |].
        destruct (inv_vtx _ _ _ _ _ _ _ _ _ _ I Ew) as (v' & Ev' & _ & Lw). rewrite Ev in Ev'. injection Ev' as <-. rewrite Lw in Si. rewrite Si.
        exists (Z.of_nat i). split; [done |]. unfold LSA_SPF_IN_SPFTREE. split; [lia | done].
      + exists LSA_SPF_NOT_EXPLORED. rewrite (iv_unexplored I w (Hknown w eq_refl) Ew). done. }
  rewrite Est. cbn [mbind res_bind].
  assert (forall vx' s' q', inv T vx' (with_edge e vls self D u l w c) s' q' ->
    inv T vx' (plus D (fun k b => k = l /\ Some w = Some b /\ usable_lsa e ou b = Ok true)) s' q') as Hwe.
  { intros vx' s' q' I'. eapply inv_iff; [exact I' |]. unfold plus, with_edge. intros a k b d. split.
    - intros [H | (-> & (-> & [= <-] & _) & He)]; [by left | right].
      assert (d = c) as -> by (destruct l as [k |]; destruct He as [Hl _]; inversion Hl; subst; [by destruct Hc as [-> _] | done]). done.
    - intros [H | (-> & -> & -> & -> & He)]; [by left | right; done]. }
  destruct (Z.eqb_spec st LSA_SPF_IN_SPFTREE) as [Hin | Hin].
  - exists vx, q, s. split_and!; [done | | by split]. apply Hwe. eapply tree_edge; [done | done | done | done | by apply Hst].
  - assert (w ∉ T) as HwT by (intros H; by apply Hin, Hst). pose proof Hh as (LAST & XU & VU).
    assert (match l with Some k => u32 (distance vu + metric k) | None => distance vu end = distance vu + c) as ->.
    { destruct l as [k |]; [destruct Hc as [-> Hm]; by eapply dist_fits | subst; lia]. }
    destruct (relax_Ok e vls self ENV T vx D s q I u xu vu LAST XU VU l w c Hlink HwT) as (vx' & q' & s' & E & Hr). rewrite E.
    exists vx', q', s'. split_and!; [done | apply Hwe; by eapply relaxed_inv | split; [by eapply relaxed_here |]].
    eapply KSTEP; [exact I | exact Hh | exact Hlink | done | exact Hr | done].
Qed.

Lemma router_loop_Ok full p ls : lo_type ou = OSPF_ROUTER_LSA -> lsa_links ou full -> links_at ou p ls -> (forall k, k ∈ ls -> k ∈ full) ->
  forall fuel vx D s q, (length ls < fuel)%nat -> inv T vx D s q -> ready vx s ->
  exists vx' q' s', spf_next_router_loop fuel e xu vu ou p q s = Ok (q', s') /\
    inv T vx' (plus D (fun k _ => exists l, k = Some l /\ l ∈ ls)) s' q' /\ ready vx' s'.
Proof.
  intros Ht Hfull. induction 1 as [| p l ls Hp El Hls IH]; intros Hin fuel vx D s q Hf I Hr; (destruct fuel as [| fuel]; [cbn in Hf; lia |]); cbn [spf_next_router_loop].
  - rewrite Z.ltb_irrefl. exists vx, q, s. split_and!; [done | | exact Hr]. eapply inv_iff; [exact I |]. unfold plus. intros a k b d.
    split; [| by left]. intros [H | (_ & (l & _ & Hl) & _)]; [done | by apply not_elem_of_nil in Hl].
  - rewrite (proj2 (Z.ltb_lt _ _) Hp), El. cbn [mbind res_bind].
    assert (bool_decide (xu = root s) = bool_decide (u = self)) as ->.
    { apply bool_decide_ext. destruct Hr as [(LA & XU & VU) _]. exact (u_is_root e vls self T vx D s q I u xu vu LA XU VU). }
    destruct (link_lsa_Ok e self ENV (bool_decide (u = self)) l) as (r & Er & Hfd). rewrite Er. cbn [mbind res_bind].
    destruct (examine_Ok vx D s q (Some l) r (metric l) I Hr) as (vx1 & q1 & s1 & E1 & I1 & Hr1).
    + intros w Hw. by destruct (finds_known e r w Hfd Hw).
    + intros w -> Hu. eapply router_link; [done | done | exact Hfull | apply Hin; by left | done | done].
    + split; [done |]. eapply links_at_metric; [by apply (eo_examined _ _ ENV u) | exact Hfull | apply Hin; by left].
    + rewrite E1. cbn [mbind res_bind]. cbn [length] in Hf.
      destruct (IH (fun k Hk => Hin k (list_elem_of_further _ _ _ Hk)) fuel vx1 _ s1 q1 ltac:(lia) I1 Hr1) as (vx2 & q2 & s2 & E2 & I2 & Hr2).
      exists vx2, q2, s2. split_and!; [done | | exact Hr2]. eapply inv_iff; [exact I2 |]. unfold plus. intros a k b d. split.
      * intros [H | (-> & (l' & -> & Hl') & He)]; [by left; left |]. apply elem_of_cons in Hl' as [-> | Hl']; [| right; eauto 10].
        left. right. split; [done |]. split; [| done]. split; [done |]. destruct He as [Hl _]. inversion Hl; subst. assert (o = ou) as -> by congruence. split; congruence.
      * intros [[H | (-> & (-> & _) & He)] | (-> & (l' & -> & Hl') & He)]; [by left | right | right]; (split; [done |]; split; [| done]).
        -- exists l. split; [done | by left].
        -- exists l'. split; [done | by right].
Qed.

(** The routers of a network-LSA from position [i] on. *)
Lemma network_loop_Ok n : lo_type ou = OSPF_NETWORK_LSA -> lo_length ou = links_start + 4 * n ->
  forall fuel i vx D s q, 0 <= i -> n - i < Z.of_nat fuel -> i <= n -> inv T vx D s q -> ready vx s ->
  exists vx' q' s', spf_next_network_loop fuel e xu vu ou (links_start + 4 * i) q s = Ok (q', s') /\
    inv T vx' (plus D (fun k w => k = None /\ exists j r, i <= j < n /\ lget 4 ou (links_start + 4 * j) = Ok r /\
      ospf_lsa_lookup_by_id e OSPF_ROUTER_LSA r = Ok (Some w))) s' q' /\ ready vx' s'.
Proof.
  intros Ht Hn. induction fuel as [| fuel IH]; intros i vx D s q Hi Hf Hle I Hr; [lia |]. cbn [spf_next_network_loop].
  destruct (Z.ltb_spec (links_start + 4 * i) (lo_length ou)) as [Hlt | Hge].
  2:{ exists vx, q, s. split_and!; [done | | exact Hr]. eapply inv_iff; [exact I |]. unfold plus. intros a k b d.
      split; [| by left]. intros [H | (_ & (_ & j & r & Hj & _) & _)]; [done | lia]. }
  destruct (eo_examined _ _ ENV u ou OU) as (Ho & _).
  destruct (lget_exists 4 ou (links_start + 4 * i) Ho) as (r & Er & _); [change links_start with 24; unfold OSPF_LSA_HEADER_SIZE; lia | lia |].
  rewrite Er. cbn [mbind res_bind].
  assert (exists w, ospf_lsa_lookup_by_id e OSPF_ROUTER_LSA r = Ok w /\ finds e OSPF_ROUTER_LSA w) as (w & Ew & Hfd).
  { unfold ospf_lsa_lookup_by_id. change (OSPF_ROUTER_LSA =? OSPF_ROUTER_LSA) with true. cbn iota. apply (lookup_router e self ENV). }
  rewrite Ew. cbn [mbind res_bind].
  assert (attached ou r) as Hatt by (exists i; split_and!; done).
  destruct (examine_Ok vx D s q None w 0 I Hr) as (vx1 & q1 & s1 & E1 & I1 & Hr1); [| | done |].
  + intros w' ->. by destruct Hfd.
  + intros w' -> Hu. by eapply network_link.
  + rewrite E1. cbn [mbind res_bind]. replace (links_start + 4 * i + 4) with (links_start + 4 * (i + 1)) by lia.
    destruct (IH (i + 1) vx1 _ s1 q1 ltac:(lia) ltac:(lia) ltac:(lia) I1 Hr1) as (vx2 & q2 & s2 & E2 & I2 & Hr2).
    exists vx2, q2, s2. split_and!; [done | | exact Hr2]. eapply inv_iff; [exact I2 |]. unfold plus. intros a k b d. split.
    * intros [H | (-> & (-> & j & r' & Hj & Er' & El') & He)]; [by left; left |]. destruct (decide (j = i)) as [-> | Hne].
      -- left. right. split; [done |]. split; [| done]. split; [done |]. destruct He as [Hl _]. inversion Hl; subst. assert (o = ou) as -> by congruence. split; [congruence | done].
      -- right. split; [done |]. split; [| done]. split; [done |]. exists j, r'. split_and!; [lia | lia | done | done].
    * intros [[H | (-> & (-> & -> & _) & He)] | (-> & (-> & j & r' & Hj & Er' & El') & He)]; [by left | right | right]; (split; [done |]; split; [split; [done |] | done]).
      -- exists i, r. split_and!; [lia | lia | done | done].
      -- exists j, r'. split_and!; [lia | lia | done | done].
Qed.

(** All links of the vertex. *)
Lemma spf_next_Ok vx D s q :
  inv T vx D s q -> ready vx s ->
  exists vx' q' s', ospf_spf_next e xu q s = Ok (q', s') /\ inv T vx' (fun a k b d => D a k b d \/ (a = u /\ edge u k b d)) s' q' /\ ready vx' s'.
Proof.
  intros I Hr. pose proof Hr as [(LAST & XU & VU) HK]. destruct (u_object e vls self T vx D s q I u xu vu XU VU) as (ou' & Eou & Lu & Tu & _).
  rewrite OU in Eou. injection Eou as <-. unfold ospf_spf_next, get_vertex, vertex_obj, get_obj. rewrite VU. cbn [mbind res_bind].
  rewrite Lu, OU. cbn [mbind res_bind]. pose proof (eo_examined _ _ ENV u ou OU) as Hx. pose proof Hx as (Ho & _).
  assert (exists s0, (if v_type vu =? OSPF_VERTEX_ROUTER then fl ← lget 1 ou 20; Ok (if CHECK_FLAG fl ROUTER_LSA_VIRTUAL then set_transit true s else s)
     else Ok s) = Ok s0 /\ inv T vx D s0 q /\ ready vx s0) as (s0 & -> & I0 & Hr0).
  { assert (inv T vx D (set_transit true s) q /\ ready vx (set_transit true s)) as [I1 R1].
    { split; [| split; [done | by apply KTRANS]]. eapply inv_frame; [exact I | | done | done | apply (iv_fresh I) | done].
      intros p x Ex. destruct (inv_vtx _ _ _ _ _ _ _ _ _ _ I Ex) as (v & Ev & _). cbn. rewrite Ev. done. }
    destruct (Z.eqb_spec (v_type vu) OSPF_VERTEX_ROUTER) as [Hrt | _]; [| by exists s]. rewrite Tu in Hrt.
    destruct (examined_links ou Hx Hrt) as (ls & _ & H24 & _).
    destruct (lget_exists 1 ou 20 Ho) as (fl & -> & _); [done | lia |]. cbn [mbind res_bind]. destruct (CHECK_FLAG _ _); eauto. }
  cbn [mbind res_bind]. clear s I Hr LAST XU VU HK. pose proof Hr0 as [(LAST & XU & VU) HK].
  assert (lo_type ou = OSPF_ROUTER_LSA \/ lo_type ou = OSPF_NETWORK_LSA) as [Ht | Ht].
  { destruct (iv_vtx I0 u xu XU) as (v & o & Ev & Eo & _ & Tv & _ & [Hok _]). rewrite OU in Eo. injection Eo as <-. rewrite <- Tv. done. }
  - rewrite Ht. change (OSPF_ROUTER_LSA =? OSPF_ROUTER_LSA) with true. cbn iota. destruct (examined_links ou Hx Ht) as (ls & Hls & _).
    destruct (router_loop_Ok ls links_start ls Ht Hls Hls (fun k H => H) (lsa_fuel ou) vx D s0 q) as (vx' & q' & s' & E & I' & R').
    + eapply links_fuel; [done | exact Hls | done].
    + done.
    + done.
    + exists vx', q', s'. split_and!; [done | | exact R']. eapply inv_iff; [exact I' |]. unfold plus. intros a k b d. split.
      * intros [H | [-> He]]; [by left | right]. split; [done |]. split; [| done]. destruct He as [Hl _].
        inversion Hl as [? o ls' l w' Eo Ht' Hls' Hk | ? o r w' Eo Ht']; subst; (assert (o = ou) as -> by congruence); [| by rewrite Ht in Ht'].
        exists l. split; [done |]. by rewrite (links_at_fun _ _ _ Hls ls' Hls').
      * intros [H | (-> & _ & He)]; [by left | by right].
  - rewrite Ht. change (OSPF_NETWORK_LSA =? OSPF_ROUTER_LSA) with false. cbn iota. destruct (examined_network ou Hx Ht) as [H28 Hmod].
    pose proof (Z.div_mod (lo_length ou) 4 ltac:(lia)) as Hdm. set (n := lo_length ou / 4 - 6).
    assert (lo_length ou = links_start + 4 * n) as Hn by (change links_start with 24; unfold n; lia).
    destruct (network_loop_Ok n Ht Hn (lsa_fuel ou) 0 vx D s0 q) as (vx' & q' & s' & E & I' & R'); [lia | | lia | done | done |].
    { pose proof Ho as (_ & Hl & _). unfold lsa_fuel, OSPF_LSA_HEADER_SIZE in *. change links_start with 24 in Hn. lia. }
    rewrite Z.mul_0_r, Z.add_0_r in E. exists vx', q', s'. split_and!; [done | | exact R']. eapply inv_iff; [exact I' |]. unfold plus. intros a k b d. split.
    + intros [H | [-> He]]; [by left | right]. split; [done |]. split; [| done]. destruct He as [Hl _].
      inversion Hl as [? o ls' l w' Eo Ht' | ? o r w' Eo Ht' (j & Hj & Hjl & Ej) El]; subst; (assert (o = ou) as -> by congruence); [by rewrite Ht in Ht' |].
      split; [done |]. exists j, r. split_and!; [done | lia | done | done].
    + intros [H | (-> & _ & He)]; [by left | by right].
Qed.
End vertex.
End loops.

(** ** The loop of the shortest path calculation *)

Lemma queue_ok_nodup s q : queue_ok s q -> NoDup (elems q).
Proof.
  intros Q. apply NoDup_alt. intros i j x Ei Ej. destruct (qo_pos _ _ Q i x Ei) as (v & Ev & _ & Si).
  destruct (qo_pos _ _ Q j x Ej) as (v' & Ev' & _ & Sj). rewrite Ev in Ev'. injection Ev' as <-. rewrite Si in Sj. injection Sj as Sj. lia.
Qed.

Lemma key_distance v v' : key v <= key v' -> distance v <= distance v'.
Proof. unfold key. destruct (_ =? _), (_ =? _); lia. Qed.

Lemma size_add (T : gset positive) p : p ∉ T -> base.size ({[p]} ∪ T) = S (base.size T).
Proof. intros H. rewrite size_union, size_singleton; [done |]. set_solver. Qed.

Section tree.
Context (e : area_env) (vls : list vl_data) (self : lsa_ptr) (ENV : env_ok e self).
Notation edge := (edge e vls self).
Notation link_to := (link_to e self).
Notation inv := (inv e vls self).
Notation edges := (lsa_ptr -> option router_lsa_link -> lsa_ptr -> Z -> Prop) (only parsing).
Notation here := (here e vls self).
Notation relaxed := (relaxed e vls self).

(** All edges that leave the tree. *)
Definition full (T : gset positive) : edges := fun a k b d => a ∈ T /\ edge a k b d.

(** ** A candidate joins the tree *)

Section join.
Context (T : gset positive) (vx : gmap positive positive) (s : spf) (q : pqueue) (I : inv T vx (full T) s q).
Context (x : vertex_ptr) (q' : pqueue) (st' : gmap positive Z).
Context (Q' : queue_ok (set_stats st' s) q') (PERM : elems q ≡ₚ x :: elems q') (STAT : stat_step s (elems q) st').
Context (MIN : forall y, y ∈ elems q -> keyof (vertices s) x <= keyof (vertices s) y).
Context (p : lsa_ptr) (v : vertex) (XP : vx !! p = Some x) (NT : p ∉ T) (VX : vertices s !! x = Some v) (LV : v_lsa v = p).
Notation T' := ({[p]} ∪ T).
Notation s' := (set_stat p LSA_SPF_IN_SPFTREE (set_stats st' s)).

Lemma join_elem_lsa y vy : y ∈ elems q -> vertices s !! y = Some vy -> v_lsa vy ∉ T /\ vx !! v_lsa vy = Some y.
Proof.
  intros Hy Ev. apply (iv_elems I) in Hy as (p' & Ep & Hp).
  destruct (inv_vtx _ _ _ _ _ _ _ _ _ _ I Ep) as (v' & Ev' & _ & El). rewrite Ev in Ev'. injection Ev' as <-. by rewrite El.
Qed.

Lemma join_stat p' : p' ∈ T \/ vx !! p' = None -> stat s' !! p' = stat s !! p'.
Proof.
  intros H. assert (p' <> p) as Hne by (intros ->; destruct H as [H | H]; [done | congruence]). cbn. rewrite lookup_insert_ne by done.
  apply STAT. intros y vy Hy Ev El. destruct (join_elem_lsa y vy Hy Ev) as [H1 H2]. rewrite El in H1, H2. destruct H as [H | H]; [done | congruence].
Qed.

Lemma join_queue : queue_ok s' q'.
Proof.
  eapply queue_ok_ext; [exact Q' |]. intros y vy Hy Ev. exists vy. cbn in *. split_and!; [done | done | done | done |].
  rewrite lookup_insert_ne; [done |]. intros El. assert (y ∈ elems q) as Hyq by (rewrite PERM; by right).
  destruct (join_elem_lsa y vy Hyq Ev) as [_ H]. rewrite <- El, XP in H. injection H as ->.
  pose proof (queue_ok_nodup s q (iv_queue I)) as Hnd. rewrite PERM in Hnd. by inversion Hnd.
Qed.

Lemma join_key y vy : y ∈ elems q -> vertices s !! y = Some vy -> key v <= key vy.
Proof. intros Hy Ev. specialize (MIN y Hy). unfold keyof in MIN. by rewrite VX, Ev in MIN. Qed.

Lemma join_vtx : vtx s vx p = Some v.
Proof. apply vtx_Some. eauto. Qed.

Lemma other_elem p' v' : p' ∉ T -> vtx s vx p' = Some v' -> exists y, y ∈ elems q /\ vertices s !! y = Some v'.
Proof. intros Hp (y & Ey & Ev)%vtx_Some. exists y. split; [apply (iv_elems I); eauto | done]. Qed.

Lemma inv_join : inv T' vx (full T) s' q'.
Proof.
  pose proof I as I0. destruct I0. constructor; cbn [root set_stat set_stats vertices next_vertex vlinks]; try done.
  - set_solver.
  - intros p' [->%elem_of_singleton | Hp]%elem_of_union.
    + split; [by eexists |]. cbn. apply lookup_insert_eq.
    + rewrite join_stat by by left. by apply iv_tree.
  - apply join_queue.
  - intros y. transitivity (y ∈ elems q /\ y <> x).
    + rewrite PERM, elem_of_cons. pose proof (queue_ok_nodup s q iv_queue) as Hnd. rewrite PERM in Hnd. inversion Hnd; subst. naive_solver.
    + rewrite iv_elems. split.
      * intros [(p' & Ep & Hp) Hne]. exists p'. split; [done |]. intros [->%elem_of_singleton | ?]%elem_of_union; [congruence | done].
      * intros (p' & Ep & Hp). split; [exists p'; set_solver |]. intros ->. apply Hp. rewrite (inv_inj _ _ _ _ _ _ _ _ _ _ _ I Ep XP). set_solver.
  - intros p' Hk Hn. rewrite join_stat by by right. by apply iv_unexplored.
  - intros u l w c H. destruct (iv_D _ _ _ _ H) as [? ?]. split; [done | set_solver].
  - intros p1 p2 v1 v2 [->%elem_of_singleton | Hp1]%elem_of_union Hp2 E1 E2.
    + assert (v1 = v) as -> by (change (vtx s' vx p) with (vtx s vx p) in E1; rewrite join_vtx in E1; congruence).
      destruct (other_elem p2 v2 ltac:(set_solver) E2) as (y & Hy & Ey). pose proof (join_key y v2 Hy Ey). split; [by apply key_distance | done].
    + apply (iv_mono p1 p2); [exact Hp1 | set_solver | exact E1 | exact E2].
  - intros p' v' E. specialize (iv_bound p' v' E). rewrite size_add by done. destruct (decide (p' ∈ T)) as [Hp | Hp].
    + rewrite decide_True by set_solver. lia.
    + destruct (decide (p' ∈ T')); lia.
  - intros H. exfalso. apply NT. rewrite (H p) by set_solver. done.
Qed.

Lemma join_last : last_joined e vls self T' vx s' p.
Proof.
  split; [set_solver |]. intros p1 v1 vp Hp1 E1 Ep. change (vtx s' vx p) with (vtx s vx p) in Ep. rewrite join_vtx in Ep. injection Ep as <-.
  apply elem_of_union in Hp1 as [->%elem_of_singleton | Hp1].
  - change (vtx s' vx p) with (vtx s vx p) in E1. rewrite join_vtx in E1. injection E1 as <-. done.
  - eapply (iv_mono I); [exact Hp1 | exact NT | done | apply join_vtx].
Qed.
End join.

(** ** The loop, with a further invariant [K] *)

Context (K : gset positive -> gmap positive positive -> spf -> Prop).
Context (KSTEP : forall T vx D s q u xu vu l w c vx' s' q',
  inv T vx D s q -> here T u xu vu vx s -> link_to u l w c -> w ∉ T -> relaxed T vx s q u xu vu l w c vx' s' q' -> K T vx s -> K T vx' s').
Context (KTRANS : forall T vx s b, K T vx s -> K T vx (set_transit b s)).

(** What happens to a vertex when it has joined the tree, as in [ospf_spf_calculate]. *)
Definition spf_joined (x : vertex_ptr) (s : spf) : res spf :=
  s ← ospf_vertex_add_parent x s;
  v ← get_vertex s x;
  if v_type v =? OSPF_VERTEX_ROUTER then ospf_intra_add_router e v s else ospf_intra_add_transit e v s.

Context (KJOIN : forall T vx s q x p st,
  inv ({[p]} ∪ T) vx (full T) (set_stat p LSA_SPF_IN_SPFTREE (set_stats st s)) q -> vx !! p = Some x -> p ∉ T -> self ∈ T ->
  last_joined e vls self ({[p]} ∪ T) vx (set_stat p LSA_SPF_IN_SPFTREE (set_stats st s)) p -> K T vx s ->
  exists s', spf_joined x (set_stat p LSA_SPF_IN_SPFTREE (set_stats st s)) = Ok s' /\ K ({[p]} ∪ T) vx s' /\
    same_vertices vx s s' /\ stat s' = <[p := LSA_SPF_IN_SPFTREE]> st /\ root s' = root s /\
    (forall y v, vertices s' !! y = Some v -> (y < next_vertex s')%positive)).

(** All edges but those of the vertex that joined last. *)
Definition but (T : gset positive) (u : lsa_ptr) : edges := fun a k b d => a ∈ T /\ a <> u /\ edge a k b d.

Lemma T_bound T vx D s q : inv T vx D s q -> (base.size T <= base.size (lsas_of e))%nat.
Proof.
  intros I. rewrite <- size_dom. apply subseteq_size. intros p Hp. apply elem_of_dom.
  destruct (iv_tree I p Hp) as [Hx _]. destruct (known_object _ _ ENV p) as [o ->]; [by apply (iv_known I) | done].
Qed.

Lemma spf_loop_Ok fuel : forall T vx s q u xu vu,
  (base.size (lsas_of e) < base.size T + fuel)%nat ->
  inv T vx (but T u) s q -> here T u xu vu vx s -> K T vx s ->
  exists T' vx' s' q', spf_loop fuel e xu q s = Ok s' /\ inv T' vx' (full T') s' q' /\ elems q' = [] /\ K T' vx' s'.
Proof.
  induction fuel as [| fuel IH]; intros T vx s q u xu vu Hf I Hh HK; [pose proof (T_bound _ _ _ _ _ I); lia |]. cbn [spf_loop].
  pose proof Hh as (LAST & XU & VU). destruct (u_object e vls self T vx _ s q I u xu vu XU VU) as (ou & OU & _).
  destruct (spf_next_Ok e vls self ENV K KSTEP KTRANS T u xu vu ou OU vx (but T u) s q I (conj Hh HK)) as (vx1 & q1 & s1 & E & I1 & [Hh1 HK1]).
  rewrite E. cbn [mbind res_bind].
  assert (inv T vx1 (full T) s1 q1) as I2.
  { eapply inv_add_edges; [exact I1 | |]; unfold but, full.
    - intros a k b d [(? & _ & ?) | [-> ?]]; [done |]. split; [apply LAST | done].
    - intros a k b d [? ?]. left. destruct (decide (a = u)) as [-> | ?]; [by right | by left]. }
  destruct (Nat.eqb_spec (Pqueue.size q1) 0) as [H0 | H0].
  { exists T, vx1, s1, q1. split_and!; [done | done | unfold elems; by rewrite H0 | done]. }
  destruct (spf_dequeue_ok s1 q1 (iv_queue I2)) as (x & q' & st & Ed & Q' & PERM & STAT & MIN); [lia |]. rewrite Ed. cbn [mbind res_bind].
  assert (x ∈ elems q1) as Hx by (rewrite PERM; by left). apply (iv_elems I2) in Hx as (p & XP & NT).
  destruct (inv_vtx _ _ _ _ _ _ _ _ _ _ I2 XP) as (v & Ev & _ & LV). 
  assert (get_vertex (set_stats st s1) x = Ok v) as -> by (unfold get_vertex; cbn; by rewrite Ev). cbn [mbind res_bind].
  rewrite LV. set (s2 := set_stat p LSA_SPF_IN_SPFTREE (set_stats st s1)).
  pose proof (inv_join T vx1 s1 q1 I2 x q' st Q' PERM STAT MIN p v XP NT Ev LV) as I3. fold s2 in I3.
  pose proof (join_last T vx1 s1 q1 I2 x q' st Q' PERM STAT MIN p v XP NT Ev LV) as L3. fold s2 in L3.
  destruct (KJOIN T vx1 s1 q' x p st I3 XP NT (iv_self I2) L3 HK1) as (s3 & E3 & HK3 & Hsame & Hst & Hrt & Hfr). fold s2 in E3. unfold spf_joined in E3.
  destruct (ospf_vertex_add_parent x s2) as [s2a | |]; [| done | done]. cbn [mbind res_bind] in E3 |- *.
  destruct (get_vertex s2a x) as [v2 | |]; [| done | done]. cbn [mbind res_bind] in E3 |- *. rewrite E3. cbn [mbind res_bind].
  assert (inv ({[p]} ∪ T) vx1 (full T) s3 q') as I4.
  { eapply inv_frame; [exact I3 | | | | done |]; try done. intros H. exfalso. apply NT. rewrite (H p) by set_solver. apply (iv_self I2). }
  destruct (same_fwd _ _ _ _ _ _ Hsame XP Ev) as (v3 & Ev3 & Hv3).
  destruct (IH ({[p]} ∪ T) vx1 s3 q' p x v3) as (T' & vx' & s' & q'' & ?); [| | | done |].
  - rewrite size_add by done. lia.
  - eapply inv_add_edges; [exact I4 | |]; unfold but, full.
    + intros a k b d [Ha ?]. split; [set_solver |]. split; [by intros -> | done].
    + intros a k b d (Ha & Hne & ?). left. split; [set_solver | done].
  - split_and!; [| done | done]. destruct L3 as [Hp Hl]. split; [done |]. intros p1 v1 vp Hp1 E1 E2.
    destruct (vtx_same s1 s3 vx1 p1 v1 Hsame E1) as (w1 & F1 & T1 & _ & _ & D1 & _). destruct (vtx_same s1 s3 vx1 p vp Hsame E2) as (w2 & F2 & T2 & _ & _ & D2 & _).
    unfold key. rewrite D1, D2, T1, T2. by eapply Hl.
  - eauto 10.
Qed.
End tree.
