(* ===== verification/OspfSpfHeap.v ===== *)
(** * The vertices and next hops in memory

    Facts about the heap of the shortest path calculation that do not concern distances: next hops have an interface and
    backlinks point to a link; the next hops to be freed at the end belong to one parent entry each (when no router-LSA carries
    TOS metrics); the children of a vertex on the tree are the vertices on the tree that have it as a parent, and parents
    joined the tree earlier. *)

From S2P Require Import Prelude Pqueue PqueueProofs OspfLsdb OspfNeighbor OspfLsaWire OspfLsaProofs OspfSpfTypes OspfRoute OspfSpf OspfSpfQueue.
From S2P Require Import OspfSpfNexthop OspfSpfInv OspfSpfRelax OspfSpfNext OspfSpfLoop.
Local Open Scope Z_scope.

Section heap.
Context (e : area_env) (vls : list vl_data) (self : lsa_ptr) (ENV : env_ok e self).
Notation edge := (edge e vls self).
Notation link_to := (link_to e self).
Notation inv := (inv e vls self).
Notation here := (here e vls self).
Notation relaxed := (relaxed e vls self).
Notation updated := (updated e vls).

(** Virtual links that are approved have an interface. *)
Definition vls_ok (l : list vl_data) : Prop := Forall (fun vl => CHECK_FLAG (vl_flags vl) OSPF_VL_FLAG_APPROVED = true -> is_Some (vl_nexthop_oi vl)) l.
(** No router-LSA has TOS metrics. *)
Definition tos_free : Prop := forall p o, lsas_of e !! p = Some o -> lo_type o = OSPF_ROUTER_LSA -> no_tos o.

(** Entries whose next hop [ospf_canonical_nexthops_free] frees: those of the root, and of networks attached to it. *)
Definition canonical (vx : gmap positive positive) (s : spf) (vp : vertex_parent) : Prop :=
  parent vp = root s \/ exists n vn vp', vx !! n = Some (parent vp) /\ vertices s !! parent vp = Some vn /\
    v_type vn = OSPF_VERTEX_NETWORK /\ vp' ∈ parents vn /\ parent vp' = root s.

Definition parent_entry (vx : gmap positive positive) (s : spf) (w : lsa_ptr) (i : nat) (vp : vertex_parent) : Prop :=
  exists v, vtx s vx w = Some v /\ parents v !! i = Some vp.

Definition child_of (T : gset positive) (vx : gmap positive positive) (s : spf) (xu c : vertex_ptr) : Prop :=
  exists p v vp, p ∈ T /\ vx !! p = Some c /\ vertices s !! c = Some v /\ vp ∈ parents v /\ parent vp = xu.

(** [L] lists the tree in the order in which the LSAs joined it. *)
Definition join_order (T : gset positive) (vx : gmap positive positive) (s : spf) (L : list positive) : Prop :=
  NoDup L /\ (forall p, p ∈ L <-> p ∈ T) /\ L !! 0%nat = Some self /\
  forall i p v vp, L !! i = Some p -> vtx s vx p = Some v -> vp ∈ parents v ->
    exists j u, (j < i)%nat /\ L !! j = Some u /\ vx !! u = Some (parent vp).

Record heap_inv (T : gset positive) (vx : gmap positive positive) (s : spf) : Prop := {
  h_hop : forall w i vp o, parent_entry vx s w i vp -> lsas_of e !! w = Some o ->
    is_Some (nh_oi (nexthop vp)) /\ 0 <= backlink vp /\
    (lo_type o = OSPF_ROUTER_LSA -> exists l, rd_link o (links_start + 12 * backlink vp) = Ok l);
  h_live : forall w i vp, parent_entry vx s w i vp -> nh_id (nexthop vp) ∈ live_nexthops s;
  h_next : forall i, i ∈ live_nexthops s -> (i < next_nexthop s)%positive;
  h_unique : tos_free -> forall w w' i j vp vp', parent_entry vx s w i vp -> parent_entry vx s w' j vp' -> canonical vx s vp -> canonical vx s vp' ->
    nh_id (nexthop vp) = nh_id (nexthop vp') -> w = w' /\ i = j;
  h_flags : forall p v, vtx s vx p = Some v -> v_flags v = 0;
  h_children : forall u xu vu, u ∈ T -> vx !! u = Some xu -> vertices s !! xu = Some vu ->
    NoDup (children vu) /\ forall c, c ∈ children vu <-> child_of T vx s xu c;
  h_childless : forall u vu, u ∉ T -> vtx s vx u = Some vu -> children vu = [];
  h_order : exists L, join_order T vx s L }.

Lemma heap_transit T vx s b : heap_inv T vx s -> heap_inv T vx (set_transit b s).
Proof. intros H. destruct H. constructor; assumption. Qed.

(** ** A vertex takes new parents *)

Section step.
Context (T : gset positive) (vx : gmap positive positive) (D : lsa_ptr -> option router_lsa_link -> lsa_ptr -> Z -> Prop) (s : spf) (q : pqueue) (I : inv T vx D s q).
Context (u : lsa_ptr) (xu : vertex_ptr) (vu : vertex) (HERE : here T u xu vu vx s) (l : option router_lsa_link) (w : lsa_ptr) (c : Z) (LINK : link_to u l w c).
Context (VLS : vls_ok vls) (H : heap_inv T vx s).

(** The parents of an explored vertex are on the tree. *)
Lemma entry_parent p i vp : parent_entry vx s p i vp -> exists a, a ∈ T /\ vx !! a = Some (parent vp).
Proof.
  intros (v & Ev & Ei). destruct (iv_sound I p v (parent vp) (hop_of vp) Ev) as (a & k & d & va & HD & Ea & _).
  - exists vp. split; [by eapply list_elem_of_lookup_2 | done].
  - exists a. split; [by destruct (iv_D I _ _ _ _ HD) | done].
Qed.

Section updated.
Context (xw : vertex_ptr) (w0 : vertex) (vps : list vertex_parent) (vx' : gmap positive positive) (s' : spf) (q' : pqueue).
Context (UP : updated T xu vu l w xw w0 vps (distance vu + c) vx s q vx' s' q').
Notation w1 := (add_vps (distance vu + c) vps w0).

Lemma tree_ne p : p ∈ T -> p <> w.
Proof. intros Hp ->. by apply (up_w UP). Qed.

Lemma kept_vtx p : p <> w -> vtx s' vx' p = vtx s vx p.
Proof. intros Hp. by eapply vtx_other. Qed.

Lemma kept_vx p : p <> w -> vx' !! p = vx !! p.
Proof. intros Hp. by eapply up_lookup_ne. Qed.

Lemma kept_vertex p x : vx !! p = Some x -> p <> w -> vertices s' !! x = vertices s !! x.
Proof. intros. by eapply up_vertex. Qed.

Lemma new_vtx : vtx s' vx' w = Some w1.
Proof. by eapply vtx_w. Qed.

(** The entries of [w] before. *)
Lemma old_entries i vp : parents w0 !! i = Some vp -> parent_entry vx s w i vp.
Proof.
  intros E. destruct (up_w0 UP) as [(Ew & Ev & _) | (_ & _ & o & _ & ->)]; [| done]. exists w0. split; [apply vtx_Some; eauto | done].
Qed.

(** Every entry afterwards is an old one, or one of the new ones of [w]. *)
Lemma entry_cases p i vp : parent_entry vx' s' p i vp ->
  parent_entry vx s p i vp \/ (p = w /\ exists k, vps !! k = Some vp /\ parents w1 = take (i - k) (parents w1) ++ vps /\ (k <= i)%nat /\ length (take (i - k) (parents w1)) = (i - k)%nat).
Proof.
  intros (v & Ev & Ei). destruct (decide (p = w)) as [-> | Hne]; [| left; exists v; by rewrite <- kept_vtx].
  rewrite new_vtx in Ev. injection Ev as <-. pose proof Ei as Ei0. rewrite (add_vps_parents _ _ _ (up_admits UP) (up_vps UP)) in Ei.
  set (base := if _ && _ then [] else parents w0) in Ei. apply lookup_app_Some in Ei as [Ei | [Hl Ei]].
  - left. apply old_entries. unfold base in Ei. by destruct (_ && _).
  - right. split; [done |]. exists (i - length base)%nat. split; [done |]. replace (i - (i - length base))%nat with (length base) by lia.
    rewrite (add_vps_parents _ _ _ (up_admits UP) (up_vps UP)). fold base. rewrite take_app_length. split_and!; [done | lia | done].
Qed.

Lemma parents_in_tree p i vp : parent_entry vx s p i vp -> canonical vx' s' vp -> canonical vx s vp.
Proof.
  intros He [Hr | (n & vn & vp' & En & Evn & Ht & Hvp & Hp)]; [left; by rewrite (up_root UP) in Hr |]. right.
  destruct (entry_parent p i vp He) as (a & Ha & Ea). pose proof (tree_ne a Ha) as Hne.
  assert (n = a) as ->.
  { destruct (decide (n = w)) as [-> | Hn].
    - assert (parent vp = xw) as Ex by (rewrite (up_lookup_eq _ _ _ _ _ _ _ _ _ _ _ _ _ _ _ _ _ UP) in En; congruence).
      exfalso. eapply (up_other _ _ _ _ _ _ _ _ _ _ _ _ _ _ _ _ _ _ _ I UP a); [exact Ea | done | done].
    - rewrite kept_vx in En by done. exact (inv_inj _ _ _ _ _ _ _ _ _ _ _ I En Ea). }
  rewrite (kept_vertex a) in Evn by done. exists a, vn, vp'. rewrite (up_root UP) in Hp. done.
Qed.

(** ** The new entries *)

Lemma root_nexthop_oi vls' v v' k h : vls_ok vls' -> root_nexthop e vls' v v' k = Ok (Some h) -> is_Some h.1.
Proof.
  intros Hv E. unfold root_nexthop in E. destruct (_ =? _).
  - destruct k as [k |]; [| done]. destruct (_ =? _).
    + apply bind_Ok in E as (o & _ & E). apply bind_Ok in E as (r & _ & E). destruct r as [[oi k'] |]; [| done]. cbn in E. by injection E as <-.
    + destruct (_ =? _); [| done]. destruct (ospf_vl_lookup _ _ _) as [vl |] eqn:Evl; [| done].
      destruct (CHECK_FLAG _ _) eqn:Hf; [| done]. injection E as <-. cbn. unfold vls_ok in Hv. rewrite list.Forall_forall in Hv. apply (Hv vl); [| done].
      clear -Evl. induction vls' as [| vl' r IH]; [done |]. cbn in Evl. destruct (_ =? _); [injection Evl as <-; by left | right; by apply IH].
  - apply bind_Ok in E as (t & _ & E). destruct k as [k |]; [| done]. destruct (ospf_if_is_configured _ _); [| done]. by injection E as <-.
Qed.

Lemma vu_entry vp : vp ∈ parents vu -> exists i, parent_entry vx s u i vp.
Proof.
  intros [i Hi]%list_elem_of_lookup. destruct HERE as (_ & XU & VU). exists i, vu. split; [apply vtx_Some; eauto | done].
Qed.

Lemma calc_hops_oi lsw h : h ∈ (calc_hops e vls (root s) xu vu w0 l lsw).1 -> is_Some h.1.
Proof.
  destruct HERE as (LA & XU & VU). destruct (u_object e vls self T vx D s q I u xu vu XU VU) as (ou & OU & _).
  assert (forall vp, vp ∈ parents vu -> is_Some (nh_oi (nexthop vp))) as Hpar.
  { intros vp Hvp. destruct (vu_entry vp Hvp) as [i Hi]. by destruct (h_hop _ _ _ H u i vp ou Hi OU). }
  unfold calc_hops. destruct (decide _).
  - destruct (root_nexthop _ _ _ _ _) as [[h' |] | |] eqn:E; cbn; intros Hh; try by apply not_elem_of_nil in Hh.
    apply list_elem_of_singleton in Hh as ->. by eapply root_nexthop_oi.
  - set (nh := if _ =? _ then _ else _). destruct (bool_decide (nh = [])); cbn.
    + intros (vp & -> & Hvp)%list_elem_of_fmap. by apply Hpar.
    + unfold nh. destruct (_ =? _); [| intros Hh; by apply not_elem_of_nil in Hh]. unfold net_hops.
      intros (vp & Hh & Hvp)%list_elem_of_bind. destruct (decide _); [| by apply not_elem_of_nil in Hh].
      apply list_elem_of_fmap in Hh as (k & -> & _). by apply Hpar.
Qed.

Lemma vps_backlink lsw bl vp : vp ∈ calc_vps e vls (next_nexthop s) (root s) xu vu w0 l lsw bl -> backlink vp = bl.
Proof.
  unfold calc_vps. destruct (calc_hops _ _ _ _ _ _ _ _) as [hops [|]]; [apply fresh_vps_backlink |].
  unfold inherit_vps. by intros (vp' & -> & _)%list_elem_of_fmap.
Qed.

Lemma link_backlink ow ou : lsas_of e !! w = Some ow -> lsas_of e !! u = Some ou -> exists bl, ospf_lsa_has_link ow ou = Ok bl /\ 0 <= bl.
Proof.
  intros Eow Eou. assert (usable_lsa e ou w = Ok true) as Hu by (inversion LINK; subst; (assert (o = ou) as <- by congruence; done)).
  unfold usable_lsa, get_obj in Hu. rewrite Eow in Hu. cbn [mbind res_bind] in Hu. destruct (IS_LSA_MAXAGE _ _); [done |].
  apply bind_Ok in Hu as (b & Eb & Hu). exists b. split; [done |]. injection Hu as Hu. by apply Z.leb_le in Hu.
Qed.

(** A new entry: fresh, or inherited and then not one to be freed. *)
Lemma new_entry k vp : vps !! k = Some vp ->
  (forall o, lsas_of e !! w = Some o -> is_Some (nh_oi (nexthop vp)) /\ 0 <= backlink vp /\
     (lo_type o = OSPF_ROUTER_LSA -> exists l, rd_link o (links_start + 12 * backlink vp) = Ok l)) /\
  (((Pos.to_nat (nh_id (nexthop vp)) = Pos.to_nat (next_nexthop s) + k)%nat /\ (Pos.to_nat (nh_id (nexthop vp)) < Pos.to_nat (next_nexthop s'))%nat /\
      nh_id (nexthop vp) ∈ live_nexthops s') \/
   ((tos_free -> ~ canonical vx' s' vp) /\ nh_id (nexthop vp) ∈ live_nexthops s /\ live_nexthops s' = live_nexthops s)).
Proof.
  intros Ek. pose proof (list_elem_of_lookup_2 _ _ _ Ek) as Hin. destruct HERE as (LA & XU & VU).
  destruct (u_object e vls self T vx D s q I u xu vu XU VU) as (ou & OU & Lu & Tu & Iu).
  destruct (up_calc UP) as (lsw & bl & (ow & OW & Hls) & Hbl & Evps & En & El). rewrite Lu in Hbl. specialize (Hbl ow ou OW OU).
  destruct (link_backlink ow ou OW OU) as (bl' & Hbl' & Hpos). rewrite Hbl in Hbl'. injection Hbl' as <-. split.
  - intros o Eo. rewrite OW in Eo. injection Eo as <-. rewrite Evps in Hin. split_and!.
    + assert (hop_of vp ∈ (calc_hops e vls (root s) xu vu w0 l lsw).1) as Hh.
      { rewrite <- (calc_vps_hops e vls (next_nexthop s) (root s) xu vu w0 l lsw bl). apply list_elem_of_fmap. eauto. }
      by apply calc_hops_oi in Hh.
    + by rewrite (vps_backlink lsw bl vp Hin).
    + intros Ht. rewrite (vps_backlink lsw bl vp Hin). by eapply has_link_index.
  - rewrite Evps in Ek. unfold calc_vps in Ek. unfold calc_alloc in En, El.
    destruct (calc_hops e vls (root s) xu vu w0 l lsw) as [hops fresh] eqn:Eh. cbn [fst snd] in *. destruct fresh.
    + left. destruct (fresh_vps_id _ _ _ _ _ _ Ek) as [Hid Hk]. pose proof (alloc_next hops s) as Hn. rewrite <- En in Hn.
      split_and!; [done | lia |]. rewrite El. destruct (alloc_frame hops s) as (live & n & Ea & Hl & _). rewrite Ea in En |- *. cbn in *.
      apply Hl. right. rewrite En in Hn. lia.
    + right. unfold inherit_vps in Ek. rewrite list_lookup_fmap in Ek. destruct (parents vu !! k) as [vp0 |] eqn:E0; [| done]. cbn in Ek. injection Ek as <-. cbn.
      split_and!; [| | done].
      2:{ apply (h_live _ _ _ H u k vp0). exists vu. split; [apply vtx_Some; eauto | done]. }
      intros Htos Hc. unfold calc_hops in Eh. destruct (decide (xu = root s)) as [| Hnr]; [done |].
      destruct Hc as [Hr | (n & vn & vp' & Exn & Evn & Htn & Hvp' & Hp')]; cbn in *; [rewrite (up_root UP) in Hr; done |].
      pose proof (tree_ne u (proj1 LA)) as Huw.
      rewrite (kept_vertex u xu XU Huw), VU in Evn. injection Evn as <-. rewrite (up_root UP) in Hp'.
      rewrite Htn in Eh. cbn in Eh. rewrite Tu in Htn.
      pose proof (link_facts _ _ ENV _ _ _ _ LINK) as (_ & _ & _ & Hnet & _). destruct (Hnet ou OU Htn) as [_ Hrt]. specialize (Hrt ow OW).
      destruct (no_tos_back ow ou lsw bl) as (k' & Hk' & Hb'); [by apply (eo_examined _ _ ENV w) | done | done | by eapply Htos | by apply Hls | done | done |].
      destruct (bool_decide (net_hops (root s) vu lsw (parents vu) = [])) eqn:Hnil; [| done].
      apply bool_decide_eq_true in Hnil.
      assert ((nh_oi (nexthop vp'), link_data k') ∈ net_hops (root s) vu lsw (parents vu)) as Hin'.
      { unfold net_hops. apply list_elem_of_bind. exists vp'. split; [| done]. rewrite decide_True by done. apply list_elem_of_fmap. exists k'. split; [done |].
        unfold backs. apply list_elem_of_filter. rewrite Tu, Iu. done. }
      rewrite Hnil in Hin'. by apply not_elem_of_nil in Hin'.
Qed.

Lemma old_id p i vp : parent_entry vx s p i vp -> (Pos.to_nat (nh_id (nexthop vp)) < Pos.to_nat (next_nexthop s))%nat.
Proof. intros He. pose proof (h_next _ _ _ H _ (h_live _ _ _ H _ _ _ He)). lia. Qed.

Lemma live_mono i : i ∈ live_nexthops s -> i ∈ live_nexthops s'.
Proof.
  intros Hi. destruct (up_calc UP) as (lsw & bl & _ & _ & _ & _ & ->). unfold calc_alloc. destruct (_.2); [| done].
  destruct (alloc_frame (calc_hops e vls (root s) xu vu w0 l lsw).1 s) as (live & n & -> & Hl & _). cbn. apply Hl. by left.
Qed.

Lemma next_live i : i ∈ live_nexthops s' -> (i < next_nexthop s')%positive.
Proof.
  destruct (up_calc UP) as (lsw & bl & _ & _ & _ & -> & ->). unfold calc_alloc. destruct (_.2); [| apply (h_next _ _ _ H)].
  destruct (alloc_frame (calc_hops e vls (root s) xu vu w0 l lsw).1 s) as (live & n & -> & Hl & Hn). cbn. intros [Hi | Hi]%Hl; [| lia].
  pose proof (h_next _ _ _ H i Hi). lia.
Qed.

Lemma unique_updated : tos_free -> forall p p' i j vp vp', parent_entry vx' s' p i vp -> parent_entry vx' s' p' j vp' -> canonical vx' s' vp -> canonical vx' s' vp' ->
  nh_id (nexthop vp) = nh_id (nexthop vp') -> p = p' /\ i = j.
Proof.
  intros Htos p p' i j vp vp' E1 E2 C1 C2 Eid. pose proof E1 as F1. pose proof E2 as F2.
  apply entry_cases in E1 as [E1 | (-> & k1 & K1 & P1 & L1 & N1)]; apply entry_cases in E2 as [E2 | (-> & k2 & K2 & P2 & L2 & N2)].
  - eapply (h_unique _ _ _ H Htos); [done | done | by eapply parents_in_tree | by eapply parents_in_tree | done].
  - destruct (new_entry k2 vp' K2) as [_ [(Hid & _) | (Hn & _)]]; [| by destruct (Hn Htos)]. apply old_id in E1. rewrite Eid in E1. lia.
  - destruct (new_entry k1 vp K1) as [_ [(Hid & _) | (Hn & _)]]; [| by destruct (Hn Htos)]. apply old_id in E2. rewrite <- Eid in E2. lia.
  - destruct (new_entry k1 vp K1) as [_ [(Hid1 & _) | (Hn & _)]]; [| by destruct (Hn Htos)].
    destruct (new_entry k2 vp' K2) as [_ [(Hid2 & _) | (Hn & _)]]; [| by destruct (Hn Htos)]. split; [done |].
    assert (k1 = k2) as -> by (rewrite Eid in Hid1; lia). apply (f_equal length) in P1, P2. rewrite length_app in P1, P2. lia.
Qed.

Lemma child_of_updated x y : child_of T vx' s' x y <-> child_of T vx s x y.
Proof.
  unfold child_of. split; intros (p & v & vp & Hp & Ex & Ev & Hvp); exists p, v, vp; pose proof (tree_ne p Hp) as Hne.
  - rewrite kept_vx in Ex by done. rewrite (kept_vertex p) in Ev by done. done.
  - rewrite kept_vx by done. rewrite (kept_vertex p) by done. done.
Qed.

Lemma heap_updated : heap_inv T vx' s'.
Proof.
  pose proof H as H0. destruct H0. constructor.
  - intros p i vp o [He | (-> & k & Ek & _)]%entry_cases Eo; [by eapply h_hop0 | by apply (new_entry k)].
  - intros p i vp [He | (-> & k & Ek & _)]%entry_cases; [by eapply live_mono, h_live0 |].
    destruct (new_entry k vp Ek) as [_ [(_ & _ & ?) | (_ & Hl & ->)]]; done.
  - apply next_live.
  - apply unique_updated.
  - intros p v Ev. destruct (decide (p = w)) as [-> | Hne]; [| rewrite kept_vtx in Ev by done; by eapply h_flags0].
    rewrite new_vtx in Ev. injection Ev as <-. destruct (add_vps_fields (distance vu + c) vps w0) as (_ & _ & _ & _ & ->).
    destruct (up_w0 UP) as [(Ew & Ev & _) | (_ & _ & o & _ & ->)]; [| done]. apply (h_flags0 w). apply vtx_Some. eauto.
  - intros a xa va Ha Ea Eva. pose proof (tree_ne a Ha) as Hne. rewrite kept_vx in Ea by done. rewrite (kept_vertex a) in Eva by done.
    destruct (h_children0 a xa va Ha Ea Eva) as [Hnd Hc]. split; [done |]. intros y. by rewrite Hc, child_of_updated.
  - intros a va Ha Ea. destruct (decide (a = w)) as [-> | Hne]; [| rewrite kept_vtx in Ea by done; by eapply h_childless0].
    rewrite new_vtx in Ea. injection Ea as <-. destruct (add_vps_fields (distance vu + c) vps w0) as (_ & _ & _ & -> & _).
    destruct (up_w0 UP) as [(Ew & Ev & _) | (_ & _ & o & _ & ->)]; [| done]. apply (h_childless0 w); [done |]. apply vtx_Some. eauto.
  - destruct h_order0 as (L & Hnd & HL & H0 & Ho). exists L. split_and!; [done | done | done |]. intros i p v vp Ei Ev Hvp.
    assert (p ∈ T) as Hp by (apply HL; by eapply list_elem_of_lookup_2). rewrite kept_vtx in Ev by by apply tree_ne.
    destruct (Ho i p v vp Ei Ev Hvp) as (j & a & Hj & Ej & Ea). exists j, a. split_and!; [done | done |].
    assert (a ∈ T) as Ha by (apply HL; by eapply list_elem_of_lookup_2). rewrite kept_vx by by apply tree_ne. done.
Qed.
End updated.

(** A state with the same explored vertices. *)
Lemma heap_same s' : (forall p x, vx !! p = Some x -> vertices s' !! x = vertices s !! x) -> root s' = root s ->
  live_nexthops s' = live_nexthops s -> next_nexthop s' = next_nexthop s -> heap_inv T vx s'.
Proof.
  intros Hv Hr Hl Hn. assert (forall p, vtx s' vx p = vtx s vx p) as Hvtx.
  { intros p. unfold vtx. destruct (vx !! p) as [x |] eqn:Ex; [cbn; by eapply Hv | done]. }
  assert (forall p i vp, parent_entry vx s' p i vp <-> parent_entry vx s p i vp) as He by (intros; unfold parent_entry; by setoid_rewrite Hvtx).
  assert (forall vp, canonical vx s' vp -> canonical vx s vp) as Hc.
  { intros vp [? | (n & vn & vp' & En & Evn & ?)]; [left; congruence | right]. rewrite (Hv n _ En) in Evn. exists n, vn, vp'. by rewrite Hr in *. }
  assert (forall x y, child_of T vx s' x y <-> child_of T vx s x y) as Hch.
  { intros x y. unfold child_of. split; intros (p & v & vp & Hp & Ex & Ev & ?); exists p, v, vp; [rewrite (Hv p) in Ev by done | rewrite (Hv p) by done]; done. }
  pose proof H as H0. destruct H0. constructor.
  - intros p i vp o. rewrite He. apply h_hop0.
  - intros p i vp. rewrite He, Hl. apply h_live0.
  - rewrite Hl, Hn. done.
  - intros Htos p p' i j vp vp' E1 E2 C1 C2. rewrite He in E1, E2. eapply h_unique0; eauto.
  - intros p v. rewrite Hvtx. apply h_flags0.
  - intros a xa va Ha Ea Eva. rewrite (Hv a) in Eva by done. destruct (h_children0 a xa va Ha Ea Eva) as [? Hx]. split; [done |].
    intros y. by rewrite Hx, Hch.
  - intros a va Ha. rewrite Hvtx. by apply h_childless0.
  - destruct h_order0 as (L & ? & ? & ? & Ho). exists L. split_and!; try done. intros i p v vp Ei. rewrite Hvtx. by apply Ho.
Qed.

Lemma heap_relaxed vx' s' q' : relaxed T vx s q u xu vu l w c vx' s' q' -> heap_inv T vx' s'.
Proof.
  intros [(He & xw & w0 & vps & UP & _) | [(-> & -> & -> & _) | (-> & -> & _ & Hd)]]; [by eapply heap_updated | done |].
  destruct Hd as [-> | (o & _ & ->)]; [done |]. apply heap_same; try done. intros p x Ex. cbn.
  destruct (inv_vtx _ _ _ _ _ _ _ _ _ _ I Ex) as (v & Ev & _). rewrite lookup_insert_ne; [done |]. apply (iv_fresh I) in Ev. lia.
Qed.
End step.
End heap.
