(* ===== verification/OspfSpfTable.v ===== *)
(** * Joining the tree

    What [ospf_spf_calculate] does with a vertex taken from the queue: it becomes a child of its parents, and its routes are
    added.  All of it succeeds, and the invariants are kept.

    The first stage of the calculation.  With the routes to the transit networks as a further invariant: [spf_tree] returns, the tree holds the LSAs that can be
    reached, their distances are the least costs of paths, and the routes have the least costs of the networks that have
    their prefix. *)

From S2P Require Import Prelude Prefix Pqueue PqueueProofs OspfLsdb OspfNeighbor OspfLsaWire OspfSpfTypes OspfRoute OspfSpf OspfSpfQueue OspfLsaProofs OspfSpfNexthop OspfSpfInv OspfSpfRelax OspfSpfNext OspfSpfLoop OspfSpfHeap.
Local Open Scope Z_scope.

(** ** Children *)

Definition add_child (x : vertex_ptr) (v : vertex) : vertex :=
  if bool_decide (x ∈ children v) then v else set_children (children v ++ [x]) v.

Lemma add_child_same x v : vsame v (add_child x v).
Proof. unfold add_child. by destruct (bool_decide _). Qed.

Lemma add_child_elem x v y : y ∈ children (add_child x v) <-> y = x \/ y ∈ children v.
Proof.
  unfold add_child. destruct (bool_decide _) eqn:E.
  - apply bool_decide_eq_true in E. naive_solver.
  - cbn. rewrite elem_of_app, list_elem_of_singleton. naive_solver.
Qed.

Lemma add_child_nodup x v : NoDup (children v) -> NoDup (children (add_child x v)).
Proof.
  intros H. unfold add_child. destruct (bool_decide _) eqn:E; [done |]. apply bool_decide_eq_false in E. cbn.
  apply list.NoDup_app. split_and!; [done | intros y Hy ->%list_elem_of_singleton; done | apply NoDup_singleton].
Qed.

Lemma add_child_twice x v : add_child x (add_child x v) = add_child x v.
Proof.
  unfold add_child at 1. rewrite bool_decide_eq_true_2; [done |]. apply add_child_elem. by left.
Qed.

(** The vertices after [x] was added to the children of the parents [ps]. *)
Definition with_child (x : vertex_ptr) (ps : list vertex_parent) (y : vertex_ptr) (v : vertex) : vertex :=
  if decide (y ∈ (parent <$> ps)) then add_child x v else v.

Lemma with_child_same x ps y v : vsame v (with_child x ps y v).
Proof. unfold with_child. destruct (decide _); [apply add_child_same | done]. Qed.

Lemma add_parents_Ok x ps : forall s, (forall vp, vp ∈ ps -> is_Some (vertices s !! parent vp)) ->
  exists m, vertex_add_parents x ps s = Ok (set_vertices m s) /\ forall y, m !! y = with_child x ps y <$> vertices s !! y.
Proof.
  induction ps as [| vp r IH]; intros s H; cbn [vertex_add_parents].
  - exists (vertices s). split; [by destruct s |]. intros y. unfold with_child. destruct (vertices s !! y); [cbn | done].
    rewrite decide_False; [done | by apply not_elem_of_nil].
  - destruct (H vp) as [pv Epv]; [by left |]. unfold get_vertex. rewrite Epv. cbn [mbind res_bind].
    set (s1 := if bool_decide _ then _ else _).
    assert (exists m1, s1 = set_vertices m1 s /\ forall y, m1 !! y = (if decide (y = parent vp) then add_child x else id) <$> vertices s !! y) as (m1 & E1 & Hm1).
    { exists (<[parent vp := add_child x pv]> (vertices s)). unfold s1, add_child. destruct (bool_decide _) eqn:Eb.
      - rewrite insert_id by done. split; [by destruct s |]. intros y. destruct (decide (y = parent vp)) as [-> |].
        + rewrite Epv. cbn. unfold add_child. by rewrite Eb.
        + by destruct (vertices s !! y).
      - split; [done |]. intros y. destruct (decide (y = parent vp)) as [-> |].
        + rewrite Epv, lookup_insert_eq. cbn. unfold add_child. by rewrite Eb.
        + rewrite lookup_insert_ne by done. by destruct (vertices s !! y). }
    clearbody s1. subst s1. destruct (IH (set_vertices m1 s)) as (m & E & Hm).
    { intros vp' Hvp'. cbn. rewrite Hm1. apply fmap_is_Some, H. by right. }
    exists m. split; [exact E |]. intros y. rewrite Hm. cbn [vertices set_vertices]. rewrite Hm1, <- option_fmap_compose. apply option_fmap_ext.
    intros v. unfold with_child, compose. cbn [fmap list_fmap]. destruct (decide (y = parent vp)) as [-> | Hne].
    + rewrite (decide_True (P := parent vp ∈ parent vp :: _)) by by left. destruct (decide _); [by rewrite add_child_twice | done].
    + cbn. destruct (decide (y ∈ (parent <$> r))) as [Hin | Hin].
      * rewrite decide_True by by right. done.
      * rewrite decide_False; [done |]. by intros [|]%elem_of_cons.
Qed.

(** ** Routes *)

(** What the invariants look at is the same. *)
Record tree_frame (s s' : spf) : Prop := {
  tf_vertices : vertices s' = vertices s; tf_stat : stat s' = stat s; tf_root : root s' = root s; tf_next : next_vertex s' = next_vertex s;
  tf_live : live_nexthops s' = live_nexthops s; tf_nexthop : next_nexthop s' = next_nexthop s; tf_list : vertex_list s' = vertex_list s;
  tf_calc : spf_calculation s' = spf_calculation s }.

Lemma vl_set_params_Ok o vl v vp r oi l :
  parents v = vp :: r -> nh_oi (nexthop vp) = Some oi -> 0 <= backlink vp -> rd_link o (links_start + 12 * backlink vp) = Ok l ->
  exists x, ospf_vl_set_params o vl v = Ok x /\ vl_nexthop_oi x.1 = Some oi.
Proof.
  intros Ep Eo Hb El. unfold ospf_vl_set_params. rewrite Ep, Eo. cbn [mbind res_bind]. rewrite (proj2 (Z.leb_le _ _)) by done. rewrite El. cbn. eauto.
Qed.

Lemma vl_up_check_Ok e o rid v vp r oi l ls : forall log,
  parents v = vp :: r -> nh_oi (nexthop vp) = Some oi -> 0 <= backlink vp -> rd_link o (links_start + 12 * backlink vp) = Ok l ->
  exists x, ospf_vl_up_check e o rid v ls log = Ok x /\ (vls_ok ls -> vls_ok x.1).
Proof.
  induction ls as [| vl ls IH]; intros log Ep Eo Hb El; cbn [ospf_vl_up_check]; [eauto |].
  destruct (_ && _).
  - destruct (vl_set_params_Ok o (mk_vl (vl_peer vl) (vl_area_id vl) (SET_FLAG (vl_flags vl) OSPF_VL_FLAG_APPROVED) (vl_nexthop_oi vl)
      (vl_nexthop_router vl) (peer_addr vl) (if vl_state vl =? ISM_Down then ISM_PointToPoint else vl_state vl) (vl_output_cost vl) (vl_address vl))
      v vp r oi l Ep Eo Hb El) as ([vl' ch] & E & Hoi).
    rewrite E. cbn [mbind res_bind]. destruct (IH (if ch && has_backbone e then (if vl_state vl =? ISM_Down then log ++ [Vl_interface_up (vl_peer vl)] else log) ++ [Backbone_router_lsa_update]
      else if vl_state vl =? ISM_Down then log ++ [Vl_interface_up (vl_peer vl)] else log) Ep Eo Hb El) as ([l' log'] & E' & H'). rewrite E'. cbn.
    eexists. split; [done |]. intros [_ H]%list.Forall_cons. apply list.Forall_cons. split; [| by apply H']. cbn in Hoi. by rewrite Hoi.
  - cbn [mbind res_bind]. destruct (IH log Ep Eo Hb El) as ([l' log'] & -> & H'). cbn. eexists. split; [done |].
    intros [? H]%list.Forall_cons. apply list.Forall_cons. split; [done | by apply H'].
Qed.

Lemma intra_add_router_Ok e v s o vp r oi l :
  lsas_of e !! v_lsa v = Some o -> lsa_examined o -> lo_type o = OSPF_ROUTER_LSA ->
  parents v = vp :: r -> nh_oi (nexthop vp) = Some oi -> 0 <= backlink vp -> rd_link o (links_start + 12 * backlink vp) = Ok l ->
  exists s', ospf_intra_add_router e v s = Ok s' /\ tree_frame s s' /\ new_table s' = new_table s /\ (vls_ok (vlinks s) -> vls_ok (vlinks s')).
Proof.
  intros Eo Hx Ht Ep Eoi Hb El. unfold ospf_intra_add_router, vertex_obj, get_obj. rewrite Eo. cbn [mbind res_bind].
  assert (exists s1, (if negb (is_backbone e) then '(l, log) ← ospf_vl_up_check e o (lo_id o) v (vlinks s) (spf_log s); Ok (set_vlinks l log s) else Ok s) = Ok s1 /\
    tree_frame s s1 /\ new_table s1 = new_table s /\ (vls_ok (vlinks s) -> vls_ok (vlinks s1))) as (s1 & -> & F1 & T1 & V1).
  { destruct (negb _); [| exists s; done]. destruct (vl_up_check_Ok e o (lo_id o) v vp r oi l (vlinks s) (spf_log s) Ep Eoi Hb El) as ([ls log] & -> & H).
    cbn. eexists. split; [done |]. done. }
  cbn [mbind res_bind]. destruct (examined_links o Hx Ht) as (ls & _ & H24 & _). pose proof Hx as (Ho & _).
  destruct (lget_exists 1 o 20 Ho) as (fl & -> & _); [done | lia |]. cbn [mbind res_bind].
  assert (forall s2, tree_frame s1 s2 -> new_table s2 = new_table s1 -> vlinks s2 = vlinks s1 ->
    tree_frame s s2 /\ new_table s2 = new_table s /\ (vls_ok (vlinks s) -> vls_ok (vlinks s2))) as Hf.
  { intros s2 [] E Ev. destruct F1. rewrite Ev. split; [constructor |]; try congruence. split; [congruence | done]. }
  destruct (negb (CHECK_FLAG fl ROUTER_LSA_SHORTCUT)); (destruct (_ && _); eexists; (split; [done |]); apply Hf; done).
Qed.

Lemma masked_prefix_Ok a m : exists p, masked_prefix a m = Ok p.
Proof.
  unfold masked_prefix, apply_mask_ipv4. cbn [prefixlen ipv4_prefix]. set (n := ip_masklen _).
  assert (0 <= n <= 32) as Hn.
  { unfold n, ip_masklen. set (t := u32 _). pose proof (wrap_range 32 (Z.lnot (ntohl (be_bytes 4 m)))) as Ht. fold t in Ht. unfold in_u in Ht.
    destruct (Z.eqb_spec t 0); cbn [negb]; [lia |]. unfold builtin_clz. pose proof (Z.log2_nonneg t).
    assert (Z.log2 t < 32) by (apply Z.log2_lt_pow2; lia). rewrite wrap_small by (unfold in_u; lia). lia. }
  rewrite masklen2ip_Ok by done. cbn. eauto.
Qed.

(** The key of the route to the transit network [o]. *)
Definition net_key (o : lsa_object) (k : Z * Z) : Prop :=
  exists mask p, lget 4 o 20 = Ok mask /\ masked_prefix (lo_id o) mask = Ok p /\ table_key p = k.

Definition origins_ok (e : area_env) (s : spf) : Prop := forall k r, new_table s !! k = Some r -> is_Some (lsas_of e !! r_origin r).

Lemma intra_add_transit_Ok e v s o :
  lsas_of e !! v_lsa v = Some o -> lsa_examined o -> lo_type o = OSPF_NETWORK_LSA -> v_id v = lo_id o -> origins_ok e s ->
  exists s' k, ospf_intra_add_transit e v s = Ok s' /\ (tree_frame s s' /\ vlinks s' = vlinks s) /\ net_key o k /\
    ((s' = s /\ exists r, new_table s !! k = Some r /\ (r_cost r < distance v \/ exists co, lsas_of e !! r_origin r = Some co /\ lo_id o < lo_id co)) \/
     (exists r, new_table s' = <[k := r]> (new_table s) /\ r_cost r = distance v /\ r_origin r = v_lsa v /\
        forall r0, new_table s !! k = Some r0 -> distance v <= r_cost r0)).
Proof.
  intros Eo Hx Ht Ei Hor. unfold ospf_intra_add_transit, vertex_obj, get_obj. rewrite Eo. cbn [mbind res_bind].
  destruct (examined_network o Hx Ht) as [H28 _]. pose proof Hx as (Ho & _).
  destruct (lget_exists 4 o 20 Ho) as (mask & Em & _); [done | lia |]. rewrite Em. cbn [mbind res_bind].
  destruct (masked_prefix_Ok (v_id v) mask) as [p Ep]. rewrite Ep. cbn [mbind res_bind].
  assert (net_key o (table_key p)) as Hk by (exists mask, p; rewrite <- Ei; done).
  destruct (new_table s !! table_key p) as [cur |] eqn:Ec.
  - destruct (Hor _ _ Ec) as [co Eco]. rewrite Eco. cbn [mbind res_bind].
    destruct (Z.gtb_spec (distance v) (r_cost cur)) as [H1 | H1]; cbn [orb].
    + exists s, (table_key p). split; [done |]. split; [done |]. split; [done |]. left. split; [done |]. exists cur. split; [done | left; lia].
    + destruct (Z.gtb_spec (lo_id co) (lo_id o)) as [H2 | H2].
      * exists s, (table_key p). split; [done |]. split; [done |]. split; [done |]. left. split; [done |]. exists cur. split; [done |]. right. eauto.
      * eexists _, (table_key p). split; [done |]. split; [done |]. split; [done |]. right. eexists. split; [done |]. split_and!; [done | done |].
        intros r0 Er0. rewrite Ec in Er0. injection Er0 as <-. lia.
  - eexists _, (table_key p). split; [done |]. split; [done |]. split; [done |]. right. eexists. split; [done |]. split_and!; [done | done |].
    intros r0 Er0. by rewrite Ec in Er0.
Qed.

(** ** The heap *)

Section join.
Context (e : area_env) (vls : list vl_data) (self : lsa_ptr).
Context (T : gset positive) (vx : gmap positive positive) (D : lsa_ptr -> option router_lsa_link -> lsa_ptr -> Z -> Prop) (s0 s s' : spf) (q : pqueue).
Context (x : vertex_ptr) (p : lsa_ptr) (v : vertex) (H : heap_inv e self T vx s).
Context (I : inv e vls self ({[p]} ∪ T) vx D s0 q) (V0 : vertices s0 = vertices s) (DT : forall a k b d, D a k b d -> a ∈ T).
Context (XP : vx !! p = Some x) (NT : p ∉ T) (VX : vertices s !! x = Some v).
Context (HV : forall y, vertices s' !! y = with_child x (parents v) y <$> vertices s !! y).
Context (HR : root s' = root s) (HL : live_nexthops s' = live_nexthops s) (HN : next_nexthop s' = next_nexthop s).

Lemma join_inj a b y : vx !! a = Some y -> vx !! b = Some y -> a = b.
Proof. intros Ea Eb. exact (inv_inj _ _ _ _ _ _ _ _ _ _ _ I Ea Eb). Qed.

Lemma join_entry_parent a va vp : vtx s vx a = Some va -> vp ∈ parents va -> exists b, b ∈ T /\ vx !! b = Some (parent vp).
Proof.
  intros Ev Hvp. assert (vtx s0 vx a = Some va) as Ev0 by (unfold vtx in *; by rewrite V0).
  destruct (iv_sound I a va (parent vp) (hop_of vp) Ev0) as (b & k & d & vb & HD & Eb & _); [by exists vp |].
  exists b. split; [by eapply DT | done].
Qed.

Lemma join_v : vtx s vx p = Some v.
Proof. apply vtx_Some. eauto. Qed.

Lemma join_vsame a va : vtx s' vx a = Some va -> exists y va0, vx !! a = Some y /\ vertices s !! y = Some va0 /\ va = with_child x (parents v) y va0.
Proof.
  intros (y & Ey & Ev)%vtx_Some. rewrite HV in Ev. destruct (vertices s !! y) as [v0 |] eqn:E0; [| done]. cbn in Ev. injection Ev as <-. eauto.
Qed.

Lemma with_child_fields y v0 : parents (with_child x (parents v) y v0) = parents v0 /\ v_type (with_child x (parents v) y v0) = v_type v0 /\
  v_flags (with_child x (parents v) y v0) = v_flags v0.
Proof. unfold with_child, add_child. destruct (decide _); [| done]. by destruct (bool_decide _). Qed.

Lemma join_entry a i vp : parent_entry vx s' a i vp <-> parent_entry vx s a i vp.
Proof.
  unfold parent_entry. split.
  - intros (va & (y & v0 & Ey & E0 & ->)%join_vsame & Ei). exists v0. rewrite (proj1 (with_child_fields y v0)) in Ei. split; [apply vtx_Some; eauto | done].
  - intros (va & (y & Ey & Ev)%vtx_Some & Ei). exists (with_child x (parents v) y va). rewrite (proj1 (with_child_fields y va)).
    split; [| done]. apply vtx_Some. exists y. rewrite HV, Ev. done.
Qed.

Lemma join_canonical vp : canonical vx s' vp -> canonical vx s vp.
Proof.
  intros [Hr | (n & vn & vp' & En & Evn & Ht & Hp & Hr)]; [left; congruence | right].
  rewrite HV in Evn. destruct (vertices s !! parent vp) as [v0 |] eqn:E0; [| done]. cbn in Evn. injection Evn as <-.
  destruct (with_child_fields (parent vp) v0) as (Ep & Et & _). rewrite Ep in Hp. rewrite Et in Ht. exists n, v0, vp'. by rewrite <- HR.
Qed.

Lemma not_parent a y : vx !! a = Some y -> a ∉ T -> y ∉ (parent <$> parents v).
Proof.
  intros Ey Ha (vp & -> & Hvp)%list_elem_of_fmap. destruct (join_entry_parent p v vp join_v Hvp) as (b & Hb & Eb).
  by rewrite (join_inj a b _ Ey Eb) in Ha.
Qed.

Lemma join_outside a y : vx !! a = Some y -> a ∉ T -> vertices s' !! y = vertices s !! y.
Proof.
  intros Ey Ha. rewrite HV. destruct (vertices s !! y); [cbn | done]. unfold with_child. by rewrite decide_False by by eapply not_parent.
Qed.

Lemma join_child_of y c : child_of ({[p]} ∪ T) vx s' y c <-> child_of T vx s y c \/ (c = x /\ y ∈ (parent <$> parents v)).
Proof.
  unfold child_of. split.
  - intros (a & va & vp & Ha & Ea & Ev & Hvp & Hp).
    destruct (join_vsame a va) as (y' & v0 & Ey & E0 & ->); [apply vtx_Some; eauto |]. rewrite Ea in Ey. injection Ey as <-.
    rewrite (proj1 (with_child_fields c v0)) in Hvp. apply elem_of_union in Ha as [->%elem_of_singleton | Ha].
    + right. rewrite XP in Ea. injection Ea as <-. rewrite VX in E0. injection E0 as <-. split; [done |]. apply list_elem_of_fmap. eauto.
    + left. eauto 10.
  - intros [(a & va & vp & Ha & Ea & Ev & Hvp & Hp) | [-> (vp & -> & Hvp)%list_elem_of_fmap]].
    + exists a, (with_child x (parents v) c va), vp. rewrite HV, Ev, (proj1 (with_child_fields c va)). split_and!; try done. set_solver.
    + exists p, (with_child x (parents v) x v), vp. rewrite HV, VX, (proj1 (with_child_fields x v)). split_and!; try done. set_solver.
Qed.

Lemma join_children u xu vu : u ∈ ({[p]} ∪ T) -> vx !! u = Some xu -> vertices s' !! xu = Some vu ->
  NoDup (children vu) /\ forall c, c ∈ children vu <-> child_of ({[p]} ∪ T) vx s' xu c.
Proof.
  intros Hu Eu Ev. destruct (decide (u ∈ T)) as [HuT | HuT].
  - rewrite HV in Ev. destruct (vertices s !! xu) as [v0 |] eqn:E0; [| done]. cbn in Ev. injection Ev as <-.
    destruct (h_children _ _ _ _ _ H u xu v0 HuT Eu E0) as [Hnd Hc]. unfold with_child. destruct (decide _) as [Hin | Hin].
    + split; [by apply add_child_nodup |]. intros c. rewrite add_child_elem, join_child_of, Hc. naive_solver.
    + split; [done |]. intros c. rewrite join_child_of, Hc. naive_solver.
  - rewrite (join_outside u) in Ev by done.
    rewrite (h_childless _ _ _ _ _ H u vu) by (try done; apply vtx_Some; eauto). split; [constructor |]. intros c. split; [by intros ?%not_elem_of_nil |].
    intros [(a & va & vp & Ha & Ea & Ev' & Hvp & Hp) | [_ Hy]]%join_child_of; exfalso; [| by eapply not_parent].
    destruct (join_entry_parent a va vp) as (b & Hb & Eb); [apply vtx_Some; eauto | done |]. subst xu. by rewrite (join_inj u b _ Eu Eb) in HuT.
Qed.

Lemma join_order_snoc L : join_order self T vx s L -> join_order self ({[p]} ∪ T) vx s' (L ++ [p]).
Proof.
  intros (Hnd & HT & H0 & Ho). split_and!.
  - apply list.NoDup_app. split_and!; [done | | apply NoDup_singleton]. intros a Ha ->%list_elem_of_singleton. by apply NT, HT.
  - intros a. rewrite elem_of_app, list_elem_of_singleton, HT. set_solver.
  - by apply lookup_app_l_Some.
  - intros i a va vp Ei Ev Hvp. destruct (join_vsame a va Ev) as (y & v0 & Ey & E0 & ->). rewrite (proj1 (with_child_fields y v0)) in Hvp.
    assert (vtx s vx a = Some v0) as Ev0 by (apply vtx_Some; eauto). apply lookup_app_Some in Ei as [Ei | [Hi Ei]].
    + destruct (Ho i a v0 vp Ei Ev0 Hvp) as (j & b & Hj & Ej & Eb). exists j, b. split_and!; [done | by apply lookup_app_l_Some | done].
    + destruct (join_entry_parent a v0 vp Ev0 Hvp) as (b & Hb & Eb). apply HT, list_elem_of_lookup in Hb as [j Ej].
      exists j, b. pose proof (lookup_lt_Some _ _ _ Ej). split_and!; [lia | by apply lookup_app_l_Some | done].
Qed.

Lemma heap_join : heap_inv e self ({[p]} ∪ T) vx s'.
Proof.
  pose proof H as H0. destruct H0. constructor.
  - intros w i vp o. rewrite join_entry. apply h_hop.
  - intros w i vp. rewrite join_entry, HL. apply h_live.
  - rewrite HL, HN. done.
  - intros Htos w w' i j vp vp' E1 E2 C1 C2. rewrite join_entry in E1, E2. eapply h_unique; eauto using join_canonical.
  - intros a va (y & v0 & Ey & E0 & ->)%join_vsame. destruct (with_child_fields y v0) as (_ & _ & ->). apply (h_flags a). apply vtx_Some. eauto.
  - apply join_children.
  - intros u vu Hu (y & Ey & Ev)%vtx_Some. rewrite (join_outside u) in Ev by set_solver. apply (h_childless u); [set_solver |]. apply vtx_Some. eauto.
  - destruct h_order as [L HO]. eexists. by apply join_order_snoc.
Qed.
End join.

(** ** The first stage of the calculation *)

Lemma net_key_fun o k k' : net_key o k -> net_key o k' -> k = k'.
Proof. intros (m & p & Em & Ep & <-) (m' & p' & Em' & Ep' & <-). congruence. Qed.

(** ** Tables with least costs *)

(** Among the keys that are [good], those with a cost [P k c] have a route, and its cost is the least of them. *)
Definition least_costs (good : Z * Z -> Prop) (tab : gmap (Z * Z) ospf_route) (P : Z * Z -> Z -> Prop) : Prop :=
  forall k, good k -> match tab !! k with
                      | Some r => P k (r_cost r) /\ forall c, P k c -> r_cost r <= c
                      | None => forall c, ~ P k c
                      end.

Section costs.
Context (good : Z * Z -> Prop) (tab : gmap (Z * Z) ospf_route) (P P' : Z * Z -> Z -> Prop) (L : least_costs good tab P).

Lemma least_ext : (forall k c, good k -> P' k c <-> P k c) -> least_costs good tab P'.
Proof.
  intros H k Hk. specialize (L k Hk). destruct (tab !! k) as [r |]; [destruct L as [L1 L2]; split; [by apply H |]; intros c Hc; by apply L2, H |].
  intros c Hc. apply (L c). by apply H.
Qed.

Context (k0 : Z * Z) (c0 : Z) (ADD : forall k c, good k -> P' k c <-> P k c \/ (k = k0 /\ c = c0)).

(** One more cost, which is not less than that of the route. *)
Lemma least_skip : (good k0 -> exists r, tab !! k0 = Some r /\ r_cost r <= c0) -> least_costs good tab P'.
Proof.
  intros H k Hk. specialize (L k Hk). destruct (tab !! k) as [r |] eqn:Er.
  - destruct L as [L1 L2]. split; [apply ADD; auto |]. intros c [Hc | [-> ->]]%ADD; [by apply L2 | | done].
    destruct (H Hk) as (r' & Er' & Hle). congruence.
  - intros c [Hc | [-> ->]]%ADD; [by eapply L | | done]. destruct (H Hk) as (r' & Er' & Hle). congruence.
Qed.

(** One more cost, which is not more than that of the route, replaces it. *)
Lemma least_add r : r_cost r = c0 -> (good k0 -> forall r0, tab !! k0 = Some r0 -> c0 <= r_cost r0) -> least_costs good (<[k0 := r]> tab) P'.
Proof.
  intros Er H k Hk. specialize (L k Hk). destruct (decide (k = k0)) as [-> | Hne].
  - rewrite lookup_insert_eq. split; [apply ADD; auto |]. intros c [Hc | [_ ->]]%ADD; [| lia | done].
    destruct (tab !! k0) as [r0 |]; [| by apply L in Hc]. destruct L as [_ L2]. specialize (L2 c Hc). specialize (H Hk r0 eq_refl). lia.
  - rewrite lookup_insert_ne by done. destruct (tab !! k) as [r' |].
    + destruct L as [L1 L2]. split; [apply ADD; auto |]. intros c [Hc | [? _]]%ADD; [by apply L2 | done | done].
    + intros c [Hc | [? _]]%ADD; [by apply (L c) | done | done].
Qed.
End costs.

Section table.
Context (e : area_env) (vls : list vl_data) (self : lsa_ptr) (ENV : env_ok e self) (VLS : vls_ok vls) (good : Z * Z -> Prop).
Notation edge := (edge e vls self).
Notation inv := (inv e vls self).
Notation here := (here e vls self).

(** A network on the tree has the prefix [k] and is at distance [c]. *)
Definition tree_net (T : gset positive) (vx : gmap positive positive) (s : spf) (k : Z * Z) (c : Z) : Prop :=
  exists p o v, p ∈ T /\ lsas_of e !! p = Some o /\ lo_type o = OSPF_NETWORK_LSA /\ net_key o k /\ vtx s vx p = Some v /\ distance v = c.

Definition routes_inv (T : gset positive) (vx : gmap positive positive) (s : spf) : Prop :=
  origins_ok e s /\ least_costs good (new_table s) (tree_net T vx s).

Definition stage_inv (T : gset positive) (vx : gmap positive positive) (s : spf) : Prop :=
  heap_inv e self T vx s /\ routes_inv T vx s /\ vls_ok (vlinks s).

(** Where the tree and the table stay, the invariant stays. *)
Lemma table_frame T vx vx' s s' : routes_inv T vx s -> new_table s' = new_table s -> (forall p, p ∈ T -> vtx s' vx' p = vtx s vx p) -> routes_inv T vx' s'.
Proof.
  intros [O L] Et Hv. split; [unfold origins_ok; by rewrite Et |]. rewrite Et. eapply least_ext; [exact L |].
  intros k c _. unfold tree_net. split; intros (p & o & v & Hp & Eo & Ht & Hk & Ev & Ed); exists p, o, v; rewrite Hv in * by done; done.
Qed.

Lemma stage_step T vx D s q u xu vu l w c vx' s' q' :
  inv T vx D s q -> here T u xu vu vx s -> link_to e self u l w c -> w ∉ T -> relaxed e vls self T vx s q u xu vu l w c vx' s' q' ->
  stage_inv T vx s -> stage_inv T vx' s'.
Proof.
  intros I Hh Hl Hw R (H1 & H2 & H3). split; [by eapply heap_relaxed |].
  pose proof R as [(He & xw & w0 & vps & UP & _) | [(-> & -> & -> & _) | (-> & -> & _ & Hd)]]; [| done |].
  - split; [| by erewrite up_vlinks by exact UP]. eapply table_frame; [exact H2 | by eapply up_table | intros p Hp; eapply kept_vtx; [exact I | exact UP | by intros ->]].
  - destruct Hd as [-> | (o & _ & ->)]; [done |]. split; [| done]. eapply table_frame; [exact H2 | done |]. intros p Hp. unfold vtx. destruct (vx !! p) as [x |] eqn:Ex; [cbn | done].
    destruct (inv_vtx _ _ _ _ _ _ _ _ _ _ I Ex) as (v & Ev & _). rewrite lookup_insert_ne; [done |]. apply (iv_fresh I) in Ev. lia.
Qed.

Lemma stage_transit T vx s b : stage_inv T vx s -> stage_inv T vx (set_transit b s).
Proof. intros (H1 & H2 & H3). split; [by apply heap_transit | done]. Qed.

(** ** A vertex joins the tree *)

Section join.
Context (T : gset positive) (vx : gmap positive positive) (s : spf) (q : pqueue) (x : vertex_ptr) (p : lsa_ptr) (st : gmap positive Z).
Notation s0 := (set_stat p LSA_SPF_IN_SPFTREE (set_stats st s)).
Context (I : inv ({[p]} ∪ T) vx (full e vls self T) s0 q) (XP : vx !! p = Some x) (NT : p ∉ T) (ST : self ∈ T).
Context (LJ : last_joined e vls self ({[p]} ∪ T) vx s0 p) (K : stage_inv T vx s).

(** The vertex and the children added to its parents. *)
Lemma joined_vertex : exists v o m vp r, vertices s !! x = Some v /\ lsas_of e !! p = Some o /\ v_lsa v = p /\ v_type v = lo_type o /\ v_id v = lo_id o /\
  lo_type o ∈ [OSPF_ROUTER_LSA; OSPF_NETWORK_LSA] /\ parents v = vp :: r /\ ospf_vertex_add_parent x s0 = Ok (set_vertices m s0) /\ m !! x = Some v /\
  forall y, m !! y = with_child x (parents v) y <$> vertices s !! y.
Proof.
  destruct (iv_vtx I p x XP) as (v & o & Ev & Eo & El & Et & Ei & Ok1 & _). cbn in Ev.
  assert (vtx s0 vx p = Some v) as Evt by (apply vtx_Some; eauto).
  destruct (parents v) as [| vp r] eqn:Ep; [exfalso; eapply (iv_nonempty I p v); [by intros -> | done | done] |].
  assert (forall vp', vp' ∈ parents v -> exists a va, a ∈ T /\ vx !! a = Some (parent vp') /\ vertices s !! parent vp' = Some va) as Hpar.
  { intros vp' Hvp. destruct (iv_sound I p v (parent vp') (hop_of vp') Evt) as (a & k & d & va & HD & Ea & Eva & _); [by exists vp' |].
    exists a, va. split_and!; [apply HD | done | done]. }
  destruct (add_parents_Ok x (parents v) s0) as (m & Em & Hm).
  { intros vp' Hvp. destruct (Hpar vp' Hvp) as (a & va & _ & _ & E). by exists va. }
  exists v, o, m, vp, r. rewrite <- Ep. split_and!; try done.
  - rewrite <- Et. destruct Ok1 as [-> | ->]; set_solver.
  - unfold ospf_vertex_add_parent, get_vertex. cbn [vertices set_stat set_stats]. rewrite Ev. done.
  - rewrite Hm. cbn. rewrite Ev. cbn. unfold with_child. rewrite decide_False; [done |].
    intros (vp' & Hx & Hvp)%list_elem_of_fmap. destruct (Hpar vp' Hvp) as (a & va & Ha & Ea & _). rewrite <- Hx in Ea.
    by rewrite (inv_inj _ _ _ _ _ _ _ _ _ _ _ I Ea XP) in Ha.
Qed.

(** The networks on the tree afterwards. *)
Lemma joined_nets s' v o : same_vertices vx s s' -> vtx s vx p = Some v -> lsas_of e !! p = Some o -> forall k c,
  tree_net ({[p]} ∪ T) vx s' k c <-> tree_net T vx s k c \/ (lo_type o = OSPF_NETWORK_LSA /\ net_key o k /\ c = distance v).
Proof.
  intros Hs Ev Eo k c. split.
  - intros (a & oa & w & Ha & Ea & Ta & Ka & Va & Ed). destruct (vtx_same _ _ _ _ _ Hs Va) as (w0 & E0 & _ & _ & _ & Ed' & _).
    apply elem_of_union in Ha as [->%elem_of_singleton | Ha]; [right | left].
    + rewrite Eo in Ea. injection Ea as <-. rewrite Ev in E0. injection E0 as <-. split_and!; [done | done | lia].
    + exists a, oa, w0. split_and!; try done. lia.
  - assert (forall a w, vtx s vx a = Some w -> exists w', vtx s' vx a = Some w' /\ distance w' = distance w) as Hup.
    { intros a w (y & Ey & Va)%vtx_Some. destruct (same_fwd _ _ _ _ _ _ Hs Ey Va) as (w' & Ew' & _ & _ & _ & Ed & _).
      exists w'. split; [apply vtx_Some; eauto | done]. }
    intros [(a & oa & w & Ha & Ea & Ta & Ka & Va & Ed) | (Ht & Hk & ->)].
    + destruct (Hup a w Va) as (w' & Ew' & ?). exists a, oa, w'. split_and!; try done; [set_solver | lia].
    + destruct (Hup p v Ev) as (w' & Ew' & ?). exists p, o, w'. split_and!; try done. set_solver.
Qed.

Lemma table_joined_net s' v o k r : same_vertices vx s s' -> vtx s vx p = Some v -> lsas_of e !! p = Some o ->
  lo_type o = OSPF_NETWORK_LSA -> net_key o k ->
  (new_table s' = new_table s /\ new_table s !! k = Some r) \/
  (new_table s' = <[k := r]> (new_table s) /\ r_cost r = distance v /\ r_origin r = p /\ forall r0, new_table s !! k = Some r0 -> distance v <= r_cost r0) ->
  routes_inv ({[p]} ∪ T) vx s'.
Proof.
  intros Hs Ev Eo Ht Hk Hcase. destruct K as (_ & [O L] & _). pose proof (joined_nets s' v o Hs Ev Eo) as Hn.
  assert (forall k' c, good k' -> tree_net ({[p]} ∪ T) vx s' k' c <-> tree_net T vx s k' c \/ (k' = k /\ c = distance v)) as Hadd.
  { intros k' c _. rewrite Hn. split; (intros [? | H]; [by left | right]).
    - destruct H as (_ & Hk' & ->). by rewrite (net_key_fun _ _ _ Hk' Hk).
    - by destruct H as [-> ->]. }
  destruct Hcase as [[Et Er] | (Et & Hc & Hor & Hle)].
  - split; [unfold origins_ok; by rewrite Et |]. rewrite Et. eapply least_skip; [exact L | exact Hadd |]. intros Hg. exists r. split; [done |].
    specialize (L k Hg). rewrite Er in L. destruct L as [(a & oa & w & Ha & _ & _ & _ & Va & <-) _]. destruct LJ as [_ Hl].
    eapply Hl; [| exact Va | exact Ev]. set_solver.
  - split; [| rewrite Et; eapply least_add; [exact L | exact Hadd | done | auto]].
    intros k' r' Er'. rewrite Et in Er'. apply lookup_insert_Some in Er' as [[_ <-] | [_ Er']]; [rewrite Hor; by exists o | by eapply O].
Qed.

Lemma table_joined_router s' v o : same_vertices vx s s' -> vtx s vx p = Some v -> lsas_of e !! p = Some o -> lo_type o = OSPF_ROUTER_LSA ->
  new_table s' = new_table s -> routes_inv ({[p]} ∪ T) vx s'.
Proof.
  intros Hs Ev Eo Ht Et. destruct K as (_ & [O L] & _). split; [unfold origins_ok; by rewrite Et |]. rewrite Et. eapply least_ext; [exact L |].
  intros k c _. rewrite (joined_nets s' v o Hs Ev Eo). split; [intros [? | (Ht' & _)]; [done | by rewrite Ht in Ht'] | by left].
Qed.

Lemma stage_join : exists s', spf_joined e x s0 = Ok s' /\ stage_inv ({[p]} ∪ T) vx s' /\
  same_vertices vx s s' /\ stat s' = <[p := LSA_SPF_IN_SPFTREE]> st /\ root s' = root s /\
  (forall y v, vertices s' !! y = Some v -> (y < next_vertex s')%positive).
Proof.
  destruct joined_vertex as (v & o & m & vp & r & Ev & Eo & El & Et & Ei & Hty & Ep & Em & Emx & Hm). unfold spf_joined. rewrite Em. cbn [mbind res_bind].
  unfold get_vertex. cbn [vertices set_vertices]. rewrite Emx. cbn [mbind res_bind].
  pose proof (proj1 K) as HP. assert (vtx s vx p = Some v) as Evt by (apply vtx_Some; eauto).
  assert (forall s', tree_frame (set_vertices m s0) s' -> routes_inv ({[p]} ∪ T) vx s' -> vls_ok (vlinks s') ->
    stage_inv ({[p]} ∪ T) vx s' /\ same_vertices vx s s' /\ stat s' = <[p := LSA_SPF_IN_SPFTREE]> st /\ root s' = root s /\
    (forall y v, vertices s' !! y = Some v -> (y < next_vertex s')%positive)) as Hfin.
  { intros s' [TV TS TR TN TL TH TI TC] Htab Hvl. assert (forall y, vertices s' !! y = with_child x (parents v) y <$> vertices s !! y) as Hv by (intros y; by rewrite TV; apply Hm).
    split_and!; [split; [| by split] | | done | done |].
    - eapply (heap_join e vls self T vx _ s0 s s' q x p v HP I); try done. intros a k b d [Ha _]. done.
    - intros a y Ea. rewrite Hv. destruct (vertices s !! y); [apply with_child_same | done].
    - intros y vy Hy. rewrite Hv in Hy. destruct (vertices s !! y) eqn:Ey; [| done]. rewrite TN. by eapply (iv_fresh I). }
  assert (same_vertices vx s (set_vertices m s0)) as Hsame.
  { intros a y Ea. cbn [vertices set_vertices]. rewrite Hm. destruct (vertices s !! y); [apply with_child_same | done]. }
  assert (forall s', tree_frame (set_vertices m s0) s' -> same_vertices vx s s') as Hsame'.
  { intros s' [TV TS TR TN TL TH TI TC] a y Ea. rewrite TV. by apply (Hsame a). }
  apply elem_of_cons in Hty as [Hty | Hty%list_elem_of_singleton].
  - rewrite Et, Hty. change (OSPF_ROUTER_LSA =? OSPF_VERTEX_ROUTER) with true. cbn iota.
    assert (parent_entry vx s p 0 vp) as He by (exists v; by rewrite Ep). destruct (h_hop _ _ _ _ _ HP p 0%nat vp o He Eo) as ([oi Eoi] & Hb & Hl). destruct (Hl Hty) as [k Ek].
    destruct (intra_add_router_Ok e v (set_vertices m s0) o vp r oi k) as (s' & -> & F & Htab & Hvl); try done; [by rewrite El | by eapply (eo_examined _ _ ENV) |].
    exists s'. split; [done |]. apply Hfin; [done | | apply Hvl, K]. by eapply table_joined_router; [apply Hsame' | | | |].
  - rewrite Et, Hty. change (OSPF_NETWORK_LSA =? OSPF_VERTEX_ROUTER) with false. cbn iota.
    destruct (intra_add_transit_Ok e v (set_vertices m s0) o) as (s' & k & -> & [F Hvl] & Hk & Hcase); try done; [by rewrite El | by eapply (eo_examined _ _ ENV) | apply K |].
    exists s'. split; [done |]. apply Hfin; [done | | rewrite Hvl; apply K].
    destruct Hcase as [(E & r' & Er & _) | (r' & Ht & Hc & Hor & Hle)]; (eapply (table_joined_net s' v o k r'); [by apply Hsame' | done | done | done | done |]).
    + left. by rewrite E.
    + right. split_and!; [done | done | by rewrite <- El | done].
Qed.
End join.
End table.
