(* ===== verification/OspfSpfStubs.v ===== *)
(** * The shortest path tree

    The state in which the loop starts satisfies the invariants; so the first stage of the calculation returns, and its tree
    holds what can be reached, at the least costs.

    Stub networks.  The second stage of the calculation: [ospf_spf_process_stubs] reaches every router on the tree once per parent at most, never
    fails, and leaves in the table the least costs of transit networks and stub networks. *)

From S2P Require Import Prelude Prefix Pqueue PqueueProofs OspfLsdb OspfNeighbor OspfLsaWire OspfSpfTypes OspfRoute OspfSpf OspfSpfQueue OspfLsaProofs OspfSpfNexthop OspfSpfInv OspfSpfRelax OspfSpfNext OspfSpfLoop OspfSpfHeap OspfSpfTable.
Local Open Scope Z_scope.

(** The next pointers that are allocated are fresh. *)
Definition start_ok (s : spf) : Prop :=
  (forall x v, vertices s !! x = Some v -> (x < next_vertex s)%positive) /\ (forall i, i ∈ live_nexthops s -> (i < next_nexthop s)%positive).

(** ** [ospf_lsdb_clean_stat] *)

Lemma clean_table_lookup m st p : (exists k, m !! k = Some p) \/ st !! p = Some LSA_SPF_NOT_EXPLORED -> clean_table m st !! p = Some LSA_SPF_NOT_EXPLORED.
Proof.
  unfold clean_table.
  apply (map_fold_weak_ind (fun st' m => (exists k, m !! k = Some p) \/ st !! p = Some LSA_SPF_NOT_EXPLORED -> st' !! p = Some LSA_SPF_NOT_EXPLORED)).
  - intros [[k Hk] | ?]; [by rewrite lookup_empty in Hk | done].
  - clear m. intros i x m r Hi IH H. destruct (decide (x = p)) as [-> | Hne]; [apply lookup_insert_eq |]. rewrite lookup_insert_ne by done. apply IH.
    destruct H as [[k [[_ ?] | [_ Hk]]%lookup_insert_Some] | ?]; [done | left; by exists k | by right].
Qed.

Lemma clean_types_Ok d is_ : (forall i, i ∈ is_ -> exists m, get_table d i = Ok m) -> forall st, exists st', clean_types d is_ st = Ok st' /\
  (forall p, (exists i m k, i ∈ is_ /\ get_table d i = Ok m /\ m !! k = Some p) -> st' !! p = Some LSA_SPF_NOT_EXPLORED) /\
  (forall p, st !! p = Some LSA_SPF_NOT_EXPLORED -> st' !! p = Some LSA_SPF_NOT_EXPLORED).
Proof.
  induction is_ as [| i r IH]; intros H st; cbn [clean_types].
  - exists st. split_and!; [done | | done]. by intros p (i & m & k & Hi%not_elem_of_nil & _).
  - destruct (H i) as [m Em]; [by left |]. rewrite Em. cbn [mbind res_bind]. destruct (IH (fun i Hi => H i (list_elem_of_further _ _ _ Hi)) (clean_table m st)) as (st' & E & H1 & H2).
    exists st'. split_and!; [done | |].
    + intros p (i' & m' & k & [-> | Hi]%elem_of_cons & Em' & Ek); [| apply H1; eauto 10].
      rewrite Em in Em'. injection Em' as <-. apply H2, clean_table_lookup. eauto.
    + intros p Hp. apply H2, clean_table_lookup. by right.
Qed.

(** ** The first state of the loop *)

Section start.
Context (e : area_env) (self : lsa_ptr) (ENV : env_ok e self) (s : spf) (START : start_ok s) (VLS : vls_ok (vlinks s)) (ORG : origins_ok e s).
Notation vls := (vlinks s).
Notation inv := (inv e vls self).
Notation path := (path e vls self).

Section first.
Context (st : gmap positive Z) (CLEAN : forall p, known e p -> st !! p = Some LSA_SPF_NOT_EXPLORED).
Context (o : lsa_object) (OS : lsas_of e !! self = Some o) (TS : lo_type o = OSPF_ROUTER_LSA) (KS : known e self).
Notation xr := (next_vertex s).
Notation T0 := ({[self]} : gset positive).
Notation vx0 := ({[self := xr]} : gmap positive positive).

(** As [spf_tree] has it. *)
Definition first_state : spf :=
  set_shortcut 1 (set_transit false (set_stat self LSA_SPF_IN_SPFTREE (set_counts 0 0 (set_root xr
    (set_vertex_list (vertex_list s ++ [xr]) (set_next_vertex (Pos.succ xr) (set_vertex xr (bare self o) (set_stats st s)))))))).

Lemma first_vtx p v : vtx first_state vx0 p = Some v <-> p = self /\ v = bare self o.
Proof.
  rewrite vtx_Some. cbn. split.
  - intros (x & [<- <-]%lookup_singleton_Some & Ev). rewrite lookup_insert_eq in Ev. by injection Ev as <-.
  - intros [-> ->]. exists xr. by rewrite lookup_singleton_eq, lookup_insert_eq.
Qed.

Lemma first_inv : inv T0 vx0 (but e vls self T0 self) first_state (pqueue_create NULL).
Proof.
  destruct (create_wf NULL (kcmp (vertices first_state))) as [WF EL].
  constructor; try (cbn; by rewrite ?lookup_singleton_eq); try setoid_rewrite first_vtx.
  - set_solver.
  - intros p ->%elem_of_singleton. rewrite lookup_singleton_eq. split; [by eexists |]. cbn. by rewrite lookup_insert_eq.
  - intros p x [<- <-]%lookup_singleton_Some. exists (bare self o), o. cbn. rewrite lookup_insert_eq. split_and!; try done.
    unfold vertex_ok. cbn. rewrite TS. split; [by left | lia].
  - intros x v Ev. cbn in Ev |- *. apply lookup_insert_Some in Ev as [[<- _] | [_ Ev]]; [lia |]. apply START in Ev. lia.
  - intros x. rewrite EL. split; [by intros ?%not_elem_of_nil |]. intros (p & [<- _]%lookup_singleton_Some & Hp). set_solver.
  - intros p Hk Hn. cbn. rewrite lookup_insert_ne; [by apply CLEAN |]. intros ->. by rewrite lookup_singleton_eq in Hn.
  - intros p [x [<- _]%lookup_singleton_Some]. done.
  - intros p v [-> ->]. constructor.
  - intros p v [-> ->]. done.
  - intros u l w c (? & _ & ?). done.
  - intros u l w c vu (Hu & Hne & _). set_solver.
  - intros p p' v v' _ Hp _ [-> _]. set_solver.
  - intros p v [-> ->]. rewrite size_singleton, decide_True by set_solver. cbn. lia.
  - intros w vw xu h [-> ->] (vp & Hvp%not_elem_of_nil & _). done.
  - intros POS w vw xu h Hw [-> _]. done.
  - intros w vw Hw [-> _]. done.
Qed.

Lemma first_heap : heap_inv e self T0 vx0 first_state.
Proof.
  assert (forall w i vp, ~ parent_entry vx0 first_state w i vp) as He by (intros w i vp (v & [-> ->]%first_vtx & Hi); done).
  constructor; try (by intros * ?%He).
  - cbn. apply START.
  - intros _ w w' i j vp vp' H%He. done.
  - intros p v [-> ->]%first_vtx. done.
  - intros u xu vu Hu Eu Ev. assert (vu = bare self o) as -> by (apply (first_vtx u), vtx_Some; eauto). split; [constructor |].
    intros c. split; [by intros ?%not_elem_of_nil |]. intros (p & v & vp & Hp & Ep & Evp & Hvp & _).
    assert (v = bare self o) as -> by (apply (first_vtx p), vtx_Some; eauto). by apply not_elem_of_nil in Hvp.
  - intros u vu Hu [-> _]%first_vtx. set_solver.
  - exists [self]. split_and!; [apply NoDup_singleton | set_solver | done |].
    intros i p v vp Ei [-> ->]%first_vtx Hvp. by apply not_elem_of_nil in Hvp.
Qed.

Lemma first_stage : stage_inv e self (fun k => new_table s !! k = None) T0 vx0 first_state.
Proof.
  split; [apply first_heap |]. split; [| exact VLS]. split; [done |]. intros k Hk. cbn. rewrite Hk.
  intros c (p & o' & v & Hp%elem_of_singleton & Eo & Ht & _). subst p. rewrite OS in Eo. injection Eo as <-. by rewrite TS in Ht.
Qed.

Lemma first_here : here e vls self T0 self xr (bare self o) vx0 first_state.
Proof.
  split_and!; [| by rewrite lookup_singleton_eq | cbn; by rewrite lookup_insert_eq]. split; [set_solver |].
  intros p v vu Hp [-> ->]%first_vtx [_ ->]%first_vtx. done.
Qed.
End first.

(** ** The first stage returns *)

Lemma get_new_vertex x v l n s1 :
  get_vertex (set_counts 0 0 (set_root x (set_vertex_list l (set_next_vertex n (set_vertex x v s1))))) x = Ok v.
Proof. unfold get_vertex. cbn. by rewrite lookup_insert_eq. Qed.

Lemma spf_start_Ok st o : lsas_of e !! self = Some o -> ospf_lsdb_clean_stat (lsdb_of e) (stat s) = Ok st -> spf_start e self s = Ok (first_state st o).
Proof.
  intros Eo Ec. unfold spf_start. rewrite Ec. cbn [mbind res_bind].
  assert (ospf_spf_init e self (set_stats st s) = Ok (set_counts 0 0 (set_root (next_vertex s) (set_vertex_list (vertex_list s ++ [next_vertex s])
    (set_next_vertex (Pos.succ (next_vertex s)) (set_vertex (next_vertex s) (bare self o) (set_stats st s))))))) as ->.
  { unfold ospf_spf_init, ospf_vertex_new, get_obj. by rewrite Eo. }
  cbn [mbind res_bind]. change (root (set_counts _ _ (set_root ?x _))) with x. rewrite get_new_vertex. reflexivity.
Qed.

Lemma spf_tree_Ok : exists T vx s' q, spf_tree e self s = Ok s' /\ inv T vx (full e vls self T) s' q /\ elems q = [] /\
  stage_inv e self (fun k => new_table s !! k = None) T vx s'.
Proof.
  destruct (self_object _ _ ENV) as (o & Eo & Ht & Hk).
  destruct (clean_types_Ok (lsdb_of e) lsa_types (eo_tables _ _ ENV) (stat s)) as (st & Ec & Hclean & _).
  unfold spf_tree. rewrite (spf_start_Ok st o Eo Ec). cbn [mbind res_bind]. pose proof (first_inv st Hclean o Eo Ht Hk) as I. pose proof (first_stage st Hclean o Eo Ht Hk) as K.
  destruct (spf_loop_Ok e vls self ENV (stage_inv e self (fun k => new_table s !! k = None))
    (stage_step e vls self ENV VLS _) (stage_transit e self _) (stage_join e vls self ENV VLS _) (S (base.size (lsas_of e)))
    {[self]} _ _ _ self _ _ ltac:(rewrite size_singleton; lia) I (first_here st Hclean o Eo Ht Hk) K) as (T & vx & s' & q & E & I' & Hq & K').
  by exists T, vx, s', q.
Qed.
End start.

(** ** The tree *)

Section tree.
Context (e : area_env) (vls : list vl_data) (self : lsa_ptr) (T : gset positive) (vx : gmap positive positive) (s : spf) (q : pqueue).
Context (I : inv e vls self T vx (full e vls self T) s q) (EMPTY : elems q = []).
Notation path := (path e vls self).

Lemma all_in_tree p x : vx !! p = Some x -> p ∈ T.
Proof.
  intros Ex. destruct (decide (p ∈ T)) as [| Hn]; [done |]. assert (x ∈ elems q) as Hx by (apply (iv_elems I); eauto).
  rewrite EMPTY in Hx. by apply not_elem_of_nil in Hx.
Qed.

Lemma tree_vtx p : p ∈ T -> exists v, vtx s vx p = Some v.
Proof.
  intros Hp. destruct (iv_tree I p Hp) as [[x Ex] _]. destruct (iv_vtx I p x Ex) as (v & _ & Ev & _). exists v. apply vtx_Some. eauto.
Qed.

Lemma path_tree p d : path p d -> exists v, p ∈ T /\ vtx s vx p = Some v /\ distance v <= d.
Proof.
  induction 1 as [| u d l w c Hp (vu & Hu & Vu & Hle) He].
  - destruct (tree_vtx self (iv_self I)) as [v Ev]. exists v. split_and!; [apply (iv_self I) | done |]. by rewrite (proj2 (iv_zero I self v Ev)).
  - destruct (iv_relaxed I u l w c vu (conj Hu He) Vu) as (vw & Vw & Hle'). exists vw. split_and!; [| done | lia].
    apply vtx_Some in Vw as (x & Ex & _). by eapply all_in_tree.
Qed.

(** The LSAs on the tree are those that can be reached. *)
Lemma tree_reachable p : p ∈ T <-> exists d, path p d.
Proof.
  split; [| intros (d & Hd); by destruct (path_tree p d Hd) as (v & ? & _)].
  intros Hp. destruct (tree_vtx p Hp) as [v Ev]. exists (distance v). by apply (iv_path I).
Qed.

(** Distances are least costs. *)
Lemma tree_distance p v : vtx s vx p = Some v -> path p (distance v) /\ forall d, path p d -> distance v <= d.
Proof.
  intros Ev. split; [by apply (iv_path I) |]. intros d Hd. destruct (path_tree p d Hd) as (v' & _ & Ev' & ?). congruence.
Qed.
End tree.

(** ** Stub networks *)

(** The interfaces have IPv4 addresses. *)
Definition ifs_ok (e : area_env) : Prop :=
  Forall (fun oi => family (if_connected oi) = AF_INET /\ 0 <= prefixlen (if_connected oi) <= IPV4_MAX_PREFIXLEN) (oiflist e).

(** The key of the route to the stub network of the link [l]. *)
Definition stub_key (l : router_lsa_link) (k : Z * Z) : Prop := exists p, masked_prefix (link_id l) (link_data l) = Ok p /\ table_key p = k.

(** The host address of an interface of this router: neighbours' stub links to it are left out. *)
Definition own_address (e : area_env) (k : Z * Z) : Prop := k.2 = 32 /\ is_Some (ospf_if_lookup_by_local_addr (oiflist e) k.1).

Lemma stub_key_fun l k k' : stub_key l k -> stub_key l k' -> k = k'.
Proof. intros (p & Ep & <-) (p' & Ep' & <-). congruence. Qed.

Lemma lookup_by_prefix_Ok l p : Forall (fun oi => family (if_connected oi) = AF_INET /\ 0 <= prefixlen (if_connected oi) <= IPV4_MAX_PREFIXLEN) l ->
  exists r, ospf_if_lookup_by_prefix l p = Ok r.
Proof.
  induction 1 as [| oi l [Hf Hp] H IH]; cbn [ospf_if_lookup_by_prefix]; [eauto |]. destruct (negb _); [| done].
  unfold prefix_copy. rewrite Hf. cbn [Z.eqb AF_INET Pos.eqb]. unfold apply_mask, apply_mask_ipv4, set_u_head. cbn [mbind res_bind family prefixlen Z.eqb AF_INET Pos.eqb].
  rewrite masklen2ip_Ok by done. cbn [mbind res_bind]. destruct (prefix_same _ _); [eauto | done].
Qed.

Lemma and_ones4 (a : Z) : addr_and (be_bytes 4 a) (mask4 32) = be_bytes 4 a.
Proof.
  pose proof (be_bytes_ok 4 a) as Hb. pose proof (length_be_bytes 4 a) as Hl. revert Hb Hl. generalize (be_bytes 4 a). intros bs Hb Hl.
  change (mask4 32) with [255; 255; 255; 255]. destruct bs as [| b0 [| b1 [| b2 [| b3 [|]]]]]; try done. cbn [addr_and zip_with].
  assert (forall b, b ∈ [b0; b1; b2; b3] -> Z.land b 255 = b) as Hand.
  { intros b Hin. unfold bytes_ok in Hb. rewrite list.Forall_forall in Hb. specialize (Hb b Hin). change 255 with (Z.ones 8). rewrite Z.land_ones by lia. by apply Z.mod_small. }
  rewrite !Hand by (rewrite !elem_of_cons; tauto). done.
Qed.

Lemma host_key l k : 0 <= link_id l < 2 ^ 32 -> link_data l = 0xffffffff -> stub_key l k -> k = (link_id l, 32).
Proof.
  intros Hr Hm (p & Ep & <-). unfold masked_prefix in Ep. rewrite Hm in Ep. change (ip_masklen _) with 32 in Ep. unfold apply_mask_ipv4 in Ep.
  change (prefixlen (ipv4_prefix _ 32)) with 32 in Ep. rewrite masklen2ip_Ok in Ep by lia. cbn [mbind res_bind] in Ep. assert (p = set_u_head (addr_and (prefix4 (ipv4_prefix (link_id l) 32)) (mask4 32)) (ipv4_prefix (link_id l) 32)) as -> by congruence. clear Ep.
  assert (prefix4 (ipv4_prefix (link_id l) 32) = be_bytes 4 (link_id l)) as E by (unfold prefix4, ipv4_prefix; cbn [u]; by rewrite take_app_length' by by rewrite length_be_bytes).
  unfold table_key, prefix4_val. rewrite E, and_ones4. unfold prefix4, set_u_head. cbn [u prefixlen ipv4_prefix].
  rewrite take_app_length' by by rewrite length_be_bytes. rewrite be_val_be_bytes; [done |]. exact Hr.
Qed.

(** ** One stub link *)

Section stub.
Context (e : area_env) (IFS : ifs_ok e) (good : Z * Z -> Prop) (GOOD : forall k, good k -> ~ own_address e k).
Context (v : vertex) (o : lsa_object) (OV : lsas_of e !! v_lsa v = Some o).

(** The table keeps the least costs when the stub link [l] is added. *)
Lemma intra_add_stub_Ok l is_root pir s P P' k0 :
  0 <= link_id l < 2 ^ 32 -> origins_ok e s -> stub_key l k0 ->
  least_costs good (new_table s) P -> (forall k c, good k -> P' k c <-> P k c \/ (k = k0 /\ c = u32 (distance v + metric l))) ->
  exists tab, ospf_intra_add_stub e l v is_root pir s = Ok (set_table tab s) /\ origins_ok e (set_table tab s) /\ least_costs good tab P'.
Proof.
  intros Hid Hor Hk L ADD. unfold ospf_intra_add_stub, vertex_obj, get_obj. rewrite OV. cbn [mbind res_bind].
  pose proof Hk as (p & Ep & Ek). rewrite Ep. cbn [mbind res_bind]. rewrite Ek. set (c0 := u32 (distance v + metric l)) in *.
  assert (forall tab, (forall k r, tab !! k = Some r -> is_Some (lsas_of e !! r_origin r)) -> origins_ok e (set_table tab s)) as Hset by done.
  assert (forall r, is_Some (lsas_of e !! r_origin r) -> origins_ok e (set_table (<[k0 := r]> (new_table s)) s)) as Hins.
  { intros r Hr. apply Hset. intros k' r' [[_ <-] | [_ E]]%lookup_insert_Some; [done | by eapply Hor]. }
  assert (set_table (new_table s) s = s) as Hsame by by destruct s.
  destruct (pir && (link_data l =? 4294967295) && bool_decide (is_Some (ospf_if_lookup_by_local_addr (oiflist e) (link_id l)))) eqn:Eown.
  { apply andb_true_iff in Eown as [[_ Hd%Z.eqb_eq]%andb_true_iff Hown%bool_decide_eq_true]. exists (new_table s). rewrite Hsame. split_and!; [done | done |].
    eapply least_skip; [done | done |]. intros Hg. destruct (GOOD k0 Hg). rewrite (host_key l k0 Hid Hd Hk). done. }
  destruct (new_table s !! k0) as [cur |] eqn:Ec.
  - destruct (Z.gtb_spec c0 (r_cost cur)) as [Hgt | Hle].
    { exists (new_table s). rewrite Hsame. split_and!; [done | done |]. eapply least_skip; [done | done |]. intros _. exists cur. split; [done | lia]. }
    destruct (Hor _ _ Ec) as [co Eco]. destruct (Z.eqb_spec c0 (r_cost cur)) as [Heq | Hne]; cbn [r_origin ospf_route_copy_nexthops_from_vertex].
    + rewrite Eco. cbn [mbind res_bind]. eexists. split; [done |]. split; [apply Hins; destruct (_ <? _); cbn; by eexists |].
      eapply least_add; [done | done | by destruct (_ <? _) |]. intros _ r0 Er0. rewrite Ec in Er0. injection Er0 as <-. lia.
    + eexists. split; [done |]. split; [apply Hins; cbn; by eexists |]. eapply least_add; [done | done | done |]. intros _ r0 Er0. rewrite Ec in Er0. injection Er0 as <-. lia.
  - assert (exists or, (if negb is_root then Ok (ospf_route_copy_nexthops_from_vertex (ospf_route_new OSPF_DESTINATION_NETWORK (v_id v) c0 (v_lsa v) (area_id e) (external_routing e) 0 0) v)
       else oi ← ospf_if_lookup_by_prefix (oiflist e) p;
            Ok (match oi with Some oi => set_paths [mk_path 0 0 (if_ifindex oi)] (ospf_route_new OSPF_DESTINATION_NETWORK (v_id v) c0 (v_lsa v) (area_id e) (external_routing e) 0 0)
                | None => ospf_route_new OSPF_DESTINATION_NETWORK (v_id v) c0 (v_lsa v) (area_id e) (external_routing e) 0 0 end)) = Ok or /\
       r_cost or = c0 /\ r_origin or = v_lsa v) as (or & -> & Hc & Ho).
    { destruct is_root; cbn [negb]; [| eexists; split; done]. destruct (lookup_by_prefix_Ok (oiflist e) p IFS) as [[oi |] ->]; (eexists; split; done). }
    cbn [mbind res_bind]. eexists. split; [done |]. split; [apply Hins; rewrite Ho; by eexists |]. eapply least_add; [done | done | done |]. intros _ r0 Er0. by rewrite Ec in Er0.
Qed.

(** ** The stub links of a router *)

(** The stub links of the router at distance [d] give [k] the cost [c]. *)
Definition stub_of (d : Z) (ls : list router_lsa_link) (k : Z * Z) (c : Z) : Prop :=
  exists l, l ∈ ls /\ l_type l = LSA_LINK_TYPE_STUB /\ stub_key l k /\ c = d + metric l.

Lemma stub_links_Ok is_root pir p ls : lsa_examined o -> 0 <= distance v < 2 ^ 31 -> links_at o p ls -> forall fuel s P P',
  (length ls < fuel)%nat -> origins_ok e s -> least_costs good (new_table s) P ->
  (forall k c, good k -> P' k c <-> P k c \/ stub_of (distance v) ls k c) ->
  exists tab, stub_links_loop fuel e is_root v o p pir s = Ok (set_table tab s) /\ origins_ok e (set_table tab s) /\ least_costs good tab P'.
Proof.
  intros Hx Hd. pose proof Hx as (Ho & _). induction 1 as [| p l ls Hp El H IH]; intros fuel s P P' Hf Hor L ADD; (destruct fuel as [| fuel]; [cbn in Hf; lia |]); cbn [stub_links_loop].
  - rewrite (proj2 (Z.ltb_ge _ _)) by lia. exists (new_table s). split_and!; [by destruct s | done |]. eapply least_ext; [done |].
    intros k c Hg. rewrite ADD by done. split; [intros [? | (l & Hl%not_elem_of_nil & _)]; done | by left].
  - rewrite (proj2 (Z.ltb_lt _ _)) by lia. rewrite El. cbn [mbind res_bind].
    destruct (rd_link_fields _ _ _ Ho El) as (_ & _ & Hm & _). cbn [length] in Hf.
    destruct (Z.eqb_spec (l_type l) LSA_LINK_TYPE_STUB) as [Ht | Ht].
    + destruct (masked_prefix_Ok (link_id l) (link_data l)) as [q Eq]. assert (stub_key l (table_key q)) as Hk by by exists q.
      destruct (intra_add_stub_Ok l is_root pir s P (fun k c => P k c \/ (k = table_key q /\ c = distance v + metric l)) (table_key q)) as (tab & -> & Ho' & L'); try done.
      * by eapply rd_link_id.
      * intros k c _. rewrite wrap_small; [done | unfold in_u; lia].
      * cbn [mbind res_bind]. destruct (IH fuel (set_table tab s) _ P' ltac:(lia) Ho' L') as (tab' & E & ? & ?); [| exists tab'; by split_and!].
        intros k c Hg. rewrite ADD by done. unfold stub_of. split.
        -- intros [? | (l' & [-> | Hl]%elem_of_cons & Ht' & Hk' & ->)]; [by left; left | left; right; split; [by eapply stub_key_fun | done] | right; by exists l'].
        -- intros [[? | [-> ->]] | (l' & Hl & ?)]; [by left | right; exists l; split_and!; [by left | done | done | done] | right; exists l'; split; [by right | done]].
    + cbn [mbind res_bind]. destruct (IH fuel s P P' ltac:(lia) Hor L) as (tab' & E & ? & ?); [| exists tab'; by split_and!].
      intros k c Hg. rewrite ADD by done. unfold stub_of. split.
      * intros [? | (l' & [-> | Hl]%elem_of_cons & Ht' & ?)]; [by left | done | right; by exists l'].
      * intros [? | (l' & Hl & ?)]; [by left | right; exists l'; split; [by right | done]].
Qed.
End stub.

(** ** All stub networks *)

Section stage.
Context (e : area_env) (vls : list vl_data) (self : lsa_ptr) (ENV : env_ok e self) (IFS : ifs_ok e) (good : Z * Z -> Prop) (GOOD : forall k, good k -> ~ own_address e k).
Context (T : gset positive) (vx : gmap positive positive) (s1 : spf) (q : pqueue).
Context (I : inv e vls self T vx (full e vls self T) s1 q) (EMPTY : elems q = []) (H : heap_inv e self T vx s1).
Context (L : list positive) (ORDER : join_order self T vx s1 L).

Lemma get_vertex_Some s x v : vertices s !! x = Some v -> get_vertex s x = Ok v.
Proof. intros E. unfold get_vertex. by rewrite E. Qed.

(** The tree after the first stage. *)
Definition child (x c : vertex_ptr) : Prop := exists v, vertices s1 !! x = Some v /\ c ∈ children v.

Lemma child_later i p x c : L !! i = Some p -> vx !! p = Some x -> child x c ->
  exists j p', (i < j)%nat /\ L !! j = Some p' /\ vx !! p' = Some c /\ exists vc vp, vertices s1 !! c = Some vc /\ vp ∈ parents vc /\ parent vp = x.
Proof.
  intros Ei Ex (v & Ev & Hc). destruct ORDER as (Hnd & HT & _ & Ho). assert (p ∈ T) as Hp by (apply HT; by eapply list_elem_of_lookup_2).
  destruct (h_children _ _ _ _ _ H p x v Hp Ex Ev) as [_ Hch]. apply Hch in Hc as (p' & vc & vp & Hp' & Ec & Evc & Hvp & Epar).
  apply HT, list_elem_of_lookup in Hp' as [j Ej]. destruct (Ho j p' vc vp Ej) as (i' & u & Hlt & Eu & Exu); [apply vtx_Some; eauto | done |].
  rewrite Epar in Exu. assert (u = p) as -> by exact (inv_inj _ _ _ _ _ _ _ _ _ _ _ I Exu Ex).
  assert (i' = i) as -> by by eapply NoDup_lookup. exists j, p'. split_and!; [done | done | done | by exists vc, vp].
Qed.

(** Every vertex on the tree descends from the root. *)
Lemma descends i : forall p x, L !! i = Some p -> vx !! p = Some x -> rtc child (root s1) x.
Proof.
  induction i as [i IH] using lt_wf_ind. intros p x Ei Ex. destruct ORDER as (Hnd & HT & H0 & Ho).
  destruct (decide (p = self)) as [-> | Hne]; [rewrite (iv_root I) in Ex; injection Ex as <-; constructor |].
  assert (p ∈ T) as Hp by (apply HT; by eapply list_elem_of_lookup_2). destruct (iv_vtx I p x Ex) as (v & o & Ev & _).
  assert (vtx s1 vx p = Some v) as Evt by (apply vtx_Some; eauto). destruct (parents v) as [| vp r] eqn:Epar; [by destruct (iv_nonempty I p v Hne Evt) |].
  assert (vp ∈ parents v) as Hvp by (rewrite Epar; by left). destruct (Ho i p v vp Ei Evt Hvp) as (j & u & Hj & Ej & Eu).
  eapply rtc_r; [by eapply (IH j) |]. destruct (iv_vtx I u _ Eu) as (vu & ou & Evu & _). exists vu. split; [done |].
  assert (u ∈ T) as Hu by (apply HT; by eapply list_elem_of_lookup_2). destruct (h_children _ _ _ _ _ H u _ vu Hu Eu Evu) as [_ Hch]. apply Hch.
  by exists p, v, vp.
Qed.

(** The stub links of the routers in [V] give [k] the cost [c]. *)
Definition stub_cost (V : gset positive) (k : Z * Z) (c : Z) : Prop :=
  exists p x v o ls, x ∈ V /\ vx !! p = Some x /\ vertices s1 !! x = Some v /\ lsas_of e !! p = Some o /\ lo_type o = OSPF_ROUTER_LSA /\ lsa_links o ls /\
    stub_of (distance v) ls k c.

(** The stub links of the vertices in [V] have been added; those of the descendants of a vertex that is marked are. *)
Record stubbed (V : gset positive) (s : spf) : Prop := {
  sb_vertices : forall p x v, vx !! p = Some x -> vertices s1 !! x = Some v ->
    exists f, vertices s !! x = Some (set_v_flags f v) /\ (CHECK_FLAG f OSPF_VERTEX_PROCESSED = true -> forall y, rtc child x y -> y ∈ V);
  sb_root : root s = root s1;
  sb_live : live_nexthops s = live_nexthops s1;
  sb_next : next_nexthop s = next_nexthop s1;
  sb_vlinks : vlinks s = vlinks s1;
  sb_fresh : forall x v, vertices s !! x = Some v -> (x < next_vertex s)%positive;
  sb_origins : origins_ok e s;
  sb_costs : least_costs good (new_table s) (fun k c => tree_net e T vx s1 k c \/ stub_cost V k c) }.

Lemma stubbed_start : origins_ok e s1 -> least_costs good (new_table s1) (tree_net e T vx s1) -> stubbed ∅ s1.
Proof.
  intros O Lc. constructor; try done.
  - intros p x v Ex Ev. exists 0. split; [| done]. rewrite Ev. f_equal. rewrite <- (h_flags _ _ _ _ _ H p v); [by destruct v |]. apply vtx_Some. eauto.
  - apply (iv_fresh I).
  - eapply least_ext; [exact Lc |]. intros k c _. split; [intros [? | (p & x & v & o & ls & Hx & _)]; [done | set_solver] | by left].
Qed.

(** The stub links of the vertex at [x]. *)
Lemma own_stubs_Ok p x v V s f pir : vx !! p = Some x -> vertices s1 !! x = Some v -> stubbed V s ->
  exists s', (if v_type v =? OSPF_VERTEX_ROUTER then
         ov ← vertex_obj e (set_v_flags f v);
         stub_links_loop (lsa_fuel ov) e (bool_decide (x = root s)) (set_v_flags f v) ov links_start pir s
       else Ok s) = Ok s' /\ stubbed ({[x]} ∪ V) s'.
Proof.
  intros Ex Ev SB. destruct (iv_vtx I p x Ex) as (v' & o & Ev' & Eo & El & Et & Ei & Ot & Od). rewrite Ev in Ev'. injection Ev' as <-.
  assert (forall k c, stub_cost ({[x]} ∪ V) k c <-> stub_cost V k c \/
    (exists ls, lo_type o = OSPF_ROUTER_LSA /\ lsa_links o ls /\ stub_of (distance v) ls k c)) as Hcost.
  { intros k c. split.
    - intros (p' & x' & v' & o' & ls & [->%elem_of_singleton | Hx]%elem_of_union & Ex' & Ev' & Eo' & R); [right | left; by exists p', x', v', o', ls].
      rewrite Ev in Ev'. injection Ev' as <-. rewrite (inv_inj _ _ _ _ _ _ _ _ _ _ _ I Ex' Ex), Eo in Eo'. injection Eo' as <-. by exists ls.
    - intros [(p' & x' & v' & o' & ls & Hx & R) | (ls & Ht & Hls & Hst)]; [exists p', x', v', o', ls; set_solver |].
      exists p, x, v, o, ls. split_and!; try done. set_solver. }
  destruct SB as [SV SR SL SN SK SF SO SC]. rewrite Et. destruct (Z.eqb_spec (lo_type o) OSPF_VERTEX_ROUTER) as [Ht | Ht].
  - unfold vertex_obj, get_obj. cbn [v_lsa set_v_flags]. rewrite El, Eo. cbn [mbind res_bind].
    pose proof (eo_examined _ _ ENV p o Eo) as Hx. destruct (examined_links o Hx Ht) as (ls & Hls & _).
    destruct (stub_links_Ok e IFS good GOOD (set_v_flags f v) o ltac:(cbn; by rewrite El) (bool_decide (x = root s)) pir links_start ls Hx ltac:(done) Hls
      (lsa_fuel o) s _ (fun k c => tree_net e T vx s1 k c \/ stub_cost ({[x]} ∪ V) k c)
      (links_fuel _ _ _ (proj1 Hx) Hls ltac:(done)) SO SC) as (tab & -> & O' & L').
    { intros k c _. rewrite Hcost. cbn [distance set_v_flags]. split.
      - intros [? | [? | (ls' & _ & Hls' & ?)]]; [by left; left | by left; right | right]. by rewrite (links_at_fun _ _ _ Hls _ Hls').
      - intros [[? | ?] | ?]; [by left | by right; left | right; right; by exists ls]. }
    eexists. split; [done |]. constructor; try done. intros p' x' v' Ex' Ev'. destruct (SV p' x' v' Ex' Ev') as (f' & ? & Hf). exists f'. split; [done |].
    intros Hc y Hy. apply elem_of_union_r. by apply Hf.
  - exists s. split; [done |]. constructor; try done.
    + intros p' x' v' Ex' Ev'. destruct (SV p' x' v' Ex' Ev') as (f' & ? & Hf). exists f'. split; [done |]. intros Hc y Hy. apply elem_of_union_r. by apply Hf.
    + eapply least_ext; [exact SC |]. intros k c _. rewrite Hcost. split; [intros [? | [? | (ls & ? & _)]]; [by left | by right | done] | intros [? | ?]; [by left | by right; left]].
Qed.

(** A vertex whose descendants are done is marked. *)
Lemma stubbed_mark p x v V s f : vx !! p = Some x -> vertices s1 !! x = Some v -> stubbed V s -> (forall y, rtc child x y -> y ∈ V) ->
  stubbed V (set_vertex x (set_v_flags f v) s).
Proof.
  intros Ex Ev SB Hd. destruct (sb_vertices _ _ SB p x v Ex Ev) as (f0 & Ef0 & _). destruct SB as [SV SR SL SN SK SF SO SC]. constructor; try done.
  2:{ intros y vy Ey. cbn in Ey |- *. destruct (decide (y = x)) as [-> | Hy]; [by eapply SF | rewrite lookup_insert_ne in Ey by done; by eapply SF]. }
  intros p' x' v' Ex' Ev'. destruct (decide (x' = x)) as [-> | Hne].
  - rewrite Ev in Ev'. injection Ev' as <-. exists f. split; [cbn; by rewrite lookup_insert_eq | done].
  - destruct (SV p' x' v' Ex' Ev') as (f' & Ef & Hf). exists f'. split; [cbn; by rewrite lookup_insert_ne | done].
Qed.

(** Deeper vertices joined the tree later, so that the fuel suffices. *)
Lemma process_stubs_Ok fuel : forall i p x pir V s, L !! i = Some p -> vx !! p = Some x -> (length L <= i + fuel)%nat -> stubbed V s ->
  exists V' s', ospf_spf_process_stubs fuel e x pir s = Ok s' /\ stubbed V' s' /\ V ⊆ V' /\ forall y, rtc child x y -> y ∈ V'.
Proof.
  induction fuel as [| fuel IH]; intros i p x pir V s Ei Ex Hf SB; [pose proof (lookup_lt_Some _ _ _ Ei); lia |]. cbn [ospf_spf_process_stubs].
  destruct (iv_vtx I p x Ex) as (v & _ & Ev & _). destruct (sb_vertices _ _ SB p x v Ex Ev) as (f & Ef & _).
  rewrite (get_vertex_Some _ _ _ Ef). cbn [mbind res_bind v_type children set_v_flags].
  destruct (own_stubs_Ok p x v V s f pir Ex Ev SB) as (s2 & -> & SB2). cbn [mbind res_bind].
  assert (forall cs pir V s, (forall c, c ∈ cs -> child x c) -> stubbed V s ->
    exists V' s', stub_children_loop (ospf_spf_process_stubs fuel e) x (v_type v) cs pir s = Ok s' /\ stubbed V' s' /\ V ⊆ V' /\
      forall c y, c ∈ cs -> rtc child c y -> y ∈ V') as Hloop.
  { clear pir V s f Ef SB s2 SB2. induction cs as [| c cs IHc]; intros pir V s Hcs SB; cbn [stub_children_loop].
    { exists V, s. split_and!; [done | done | done |]. by intros c y ?%not_elem_of_nil. }
    destruct (child_later i p x c Ei Ex (Hcs c ltac:(by left))) as (j & pc & Hj & Ej & Ec & vc & _ & Evc & _).
    destruct (sb_vertices _ _ SB pc c vc Ec Evc) as (f & Ef & Hdone).
    rewrite (get_vertex_Some _ _ _ Ef). cbn [mbind res_bind v_flags set_v_flags].
    destruct (CHECK_FLAG f OSPF_VERTEX_PROCESSED) eqn:Hfl.
    - destruct (IHc pir V s (fun c' Hc' => Hcs c' ltac:(by right)) SB) as (V' & s' & E & SB' & Hsub & Hd). exists V', s'. split_and!; [done | done | done |].
      intros c' y [-> | Hc']%elem_of_cons Hy; [by apply Hsub, Hdone | by eapply Hd].
    - destruct (IH j pc c (if bool_decide (root s = x) then true else if v_type v =? OSPF_VERTEX_ROUTER then false else pir) V s Ej Ec ltac:(lia) SB)
        as (V1 & s3 & -> & SB1 & Hsub1 & Hd1). cbn [mbind res_bind].
      destruct (sb_vertices _ _ SB1 pc c vc Ec Evc) as (f1 & Ef1 & _). rewrite (get_vertex_Some _ _ _ Ef1). cbn [mbind res_bind].
      destruct (IHc (if bool_decide (root s = x) then true else if v_type v =? OSPF_VERTEX_ROUTER then false else pir) V1
        (set_vertex c (set_v_flags (SET_FLAG f1 OSPF_VERTEX_PROCESSED) vc) s3) (fun c' Hc' => Hcs c' ltac:(by right))) as (V' & s' & E & SB' & Hsub & Hd).
      { by eapply stubbed_mark. }
      exists V', s'. split_and!; [exact E | done | set_solver |]. intros c' y [-> | Hc']%elem_of_cons Hy; [by apply Hsub, Hd1 | by eapply Hd]. }
  destruct (Hloop (children v) pir _ s2 ltac:(intros c Hc; by exists v) SB2) as (V' & s' & E & SB' & Hsub & Hd). exists V', s'. split_and!; [done | done | set_solver |].
  intros y Hy. inversion Hy as [| ? c ? (v' & Ev' & Hc) Hy']; subst; [set_solver |]. rewrite Ev in Ev'. injection Ev' as <-. by eapply Hd.
Qed.
End stage.
