(* ===== verification/OspfSpfFree.v ===== *)
(** * Freeing the next hops

    [ospf_canonical_nexthops_free] frees every next hop of the root's children, and of the routers behind a network that is
    attached to the root, once: it never frees a next hop twice, when no router-LSA carries TOS metrics. *)

From S2P Require Import Prelude Prefix Pqueue PqueueProofs OspfLsdb OspfNeighbor OspfLsaWire OspfLsaProofs OspfSpfTypes OspfRoute OspfSpf OspfSpfQueue.
From S2P Require Import OspfSpfNexthop OspfSpfInv OspfSpfRelax OspfSpfNext OspfSpfLoop OspfSpfHeap OspfSpfTable OspfSpfStubs.
Local Open Scope Z_scope.

(** Next hops of the entries of [ps] with the parent [x]. *)
Definition ids_of (x : vertex_ptr) (ps : list vertex_parent) : list positive := (nh_id ∘ nexthop) <$> filter (fun vp => parent vp = x) ps.

Lemma elem_of_ids x ps i : i ∈ ids_of x ps <-> exists j vp, ps !! j = Some vp /\ parent vp = x /\ nh_id (nexthop vp) = i.
Proof.
  unfold ids_of. rewrite list_elem_of_fmap. split.
  - intros (vp & -> & [Hp Hin]%list_elem_of_filter). apply list_elem_of_lookup in Hin as [j Hj]. eauto.
  - intros (j & vp & Hj & Hp & <-). exists vp. split; [done |]. apply list_elem_of_filter. split; [done | by eapply list_elem_of_lookup_2].
Qed.

Lemma ids_nodup x ps : (forall i j a b, ps !! i = Some a -> ps !! j = Some b -> parent a = x -> parent b = x -> nh_id (nexthop a) = nh_id (nexthop b) -> i = j) ->
  NoDup (ids_of x ps).
Proof.
  induction ps as [| vp r IH]; intros Hu; [constructor |]. assert (NoDup (ids_of x r)) as Hr.
  { apply IH. intros i j a b Ei Ej Ha Hb E. by injection (Hu (S i) (S j) a b Ei Ej Ha Hb E). }
  unfold ids_of. rewrite filter_cons. destruct (decide (parent vp = x)) as [Hp |]; [| done]. cbn. constructor; [| done].
  intros (j & b & Ej & Hb & E)%elem_of_ids. by specialize (Hu 0%nat (S j) vp b eq_refl Ej Hp Hb (eq_sym E)).
Qed.

(** The state after the next hops [l] have been freed. *)
Definition freed (l : list positive) (s : spf) : spf := set_nexthops (live_nexthops s ∖ list_to_set l) (next_nexthop s) s.
Definition can_free (l : list positive) (s : spf) : Prop := NoDup l /\ forall i, i ∈ l -> i ∈ live_nexthops s.

Lemma freed_app l1 l2 s : freed l2 (freed l1 s) = freed (l1 ++ l2) s.
Proof. unfold freed, set_nexthops. cbn. f_equal. rewrite list_to_set_app_L. set_solver. Qed.

Lemma freed_nil s : freed [] s = s.
Proof. unfold freed, set_nexthops. cbn. destruct s. cbn. f_equal. set_solver. Qed.

Lemma can_free_app l1 l2 s : can_free (l1 ++ l2) s -> can_free l1 s /\ can_free l2 (freed l1 s).
Proof.
  intros [(N1 & N12 & N2)%list.NoDup_app Hl]. split; split; try done; cbn.
  - intros i Hi. apply Hl. apply elem_of_app. by left.
  - intros i Hi. apply elem_of_difference. split; [apply Hl, elem_of_app; by right |]. rewrite elem_of_list_to_set. intros Hi'. by apply (N12 i).
Qed.

Lemma free_parents_Ok x ps : forall s, can_free (ids_of x ps) s -> free_parents x ps s = Ok (freed (ids_of x ps) s).
Proof.
  induction ps as [| vp r IH]; intros s Hc; cbn [free_parents]; [by rewrite freed_nil |].
  revert Hc. unfold ids_of. rewrite filter_cons. destruct (decide (parent vp = x)); [| by apply IH]. cbn [fmap list_fmap]. intros Hc.
  apply (can_free_app [_]) in Hc as [[_ Hl] Hc]. unfold vertex_nexthop_free. rewrite decide_True by (apply Hl; by left). cbn [mbind res_bind].
  assert (set_nexthops (live_nexthops s ∖ {[nh_id (nexthop vp)]}) (next_nexthop s) s = freed [nh_id (nexthop vp)] s) as ->.
  { unfold freed. f_equal. cbn. set_solver. }
  rewrite IH by done. by rewrite freed_app.
Qed.

(** ** The loop over the children *)

Section loop.
Context (vs : gmap positive vertex).
Definition parents_of (c : vertex_ptr) : list vertex_parent := match vs !! c with Some v => parents v | None => [] end.
Definition children_of (c : vertex_ptr) : list vertex_ptr := match vs !! c with Some v => children v | None => [] end.
Definition is_network (c : vertex_ptr) : bool := match vs !! c with Some v => v_type v =? OSPF_VERTEX_NETWORK | None => false end.

Lemma children_loop_Ok rec F x cs : (forall c, c ∈ cs -> is_Some (vs !! c)) ->
  (forall c s, c ∈ cs -> is_network c = true -> vertices s = vs -> can_free (F c) s -> rec c s = Ok (freed (F c) s)) ->
  forall s, vertices s = vs -> let ids := cs ≫= (fun c => (if is_network c then F c else []) ++ ids_of x (parents_of c)) in
  can_free ids s -> canonical_children_loop rec x cs s = Ok (freed ids s).
Proof.
  induction cs as [| c cs IH]; intros Hl Hrec s Hs; cbn [canonical_children_loop mbind list_bind]; intros Hc; [by rewrite freed_nil |].
  destruct (Hl c) as [cv Ecv]; [by left |]. unfold get_vertex. rewrite Hs, Ecv. cbn [mbind res_bind].
  assert (parents_of c = parents cv) as Hp by (unfold parents_of; by rewrite Ecv).
  rewrite <- app_assoc in Hc. apply can_free_app in Hc as [Hc1 [Hc2 Hc3]%can_free_app].
  assert ((if v_type cv =? OSPF_VERTEX_NETWORK then rec c s else Ok s) = Ok (freed (if is_network c then F c else []) s)) as ->.
  { pose proof (Hrec c s ltac:(by left)) as Hr. unfold is_network in *. rewrite Ecv in *. destruct (_ =? _); [by apply Hr | by rewrite freed_nil]. }
  cbn [mbind res_bind]. rewrite Hp in *. rewrite free_parents_Ok by done. cbn [mbind res_bind].
  rewrite IH; [by rewrite !freed_app, app_assoc | | | done | done].
  - intros c' Hc'. apply Hl. by right.
  - intros c' s' Hc'. apply Hrec. by right.
Qed.
End loop.

(** ** The next hops of the tree *)

Section free.
Context (e : area_env) (vls : list vl_data) (self : lsa_ptr) (ENV : env_ok e self) (TOS : tos_free e).
Context (T : gset positive) (vx : gmap positive positive) (s1 s : spf) (q : pqueue).
Context (I : inv e vls self T vx (full e vls self T) s1 q) (H : heap_inv e self T vx s1).
(** The second stage has changed flags only. *)
Context (SV : forall p x v, vx !! p = Some x -> vertices s1 !! x = Some v -> exists f, vertices s !! x = Some (set_v_flags f v)).
Context (SR : root s = root s1) (SL : live_nexthops s = live_nexthops s1).
Notation vs := (vertices s).

Lemma tree_fields p x v : vx !! p = Some x -> vertices s1 !! x = Some v ->
  parents_of vs x = parents v /\ children_of vs x = children v /\ is_network vs x = (v_type v =? OSPF_VERTEX_NETWORK).
Proof. intros Ex Ev. destruct (SV p x v Ex Ev) as [f Ef]. unfold parents_of, children_of, is_network. by rewrite Ef. Qed.

(** A child of the vertex of [u] on the tree. *)
Lemma tree_child u xu c : u ∈ T -> vx !! u = Some xu -> c ∈ children_of vs xu ->
  exists p v vp, p ∈ T /\ vx !! p = Some c /\ vertices s1 !! c = Some v /\ vp ∈ parents v /\ parent vp = xu.
Proof.
  intros Hu Eu Hc. destruct (iv_vtx I u xu Eu) as (vu & _ & Evu & _). destruct (tree_fields u xu vu Eu Evu) as (_ & Ech & _). rewrite Ech in Hc.
  destruct (h_children _ _ _ _ _ H u xu vu Hu Eu Evu) as [_ Hch]. by apply Hch.
Qed.

Lemma tree_children_nodup u xu : u ∈ T -> vx !! u = Some xu -> NoDup (children_of vs xu).
Proof.
  intros Hu Eu. destruct (iv_vtx I u xu Eu) as (vu & _ & Evu & _). destruct (tree_fields u xu vu Eu Evu) as (_ & -> & _).
  by destruct (h_children _ _ _ _ _ H u xu vu Hu Eu Evu).
Qed.

(** [x] is the root, or a network attached to it. *)
Definition near_root (x : vertex_ptr) : Prop := x = root s1 \/ (x ∈ children_of vs (root s1) /\ is_network vs x = true).

Lemma near_tree x : near_root x -> exists u, u ∈ T /\ vx !! u = Some x.
Proof.
  intros [-> | [Hc _]]; [exists self; split; [apply (iv_self I) | apply (iv_root I)] |].
  destruct (tree_child self (root s1) x (iv_self I) (iv_root I) Hc) as (p & v & vp & Hp & Ep & _). eauto.
Qed.

Lemma near_canonical x vp : near_root x -> parent vp = x -> canonical vx s1 vp.
Proof.
  intros [-> | [Hc Hn]] Hp; [by left | right]. destruct (tree_child self (root s1) x (iv_self I) (iv_root I) Hc) as (n & vn & vp' & Hp' & Ep & Ev & Hvp & Epar).
  destruct (tree_fields n x vn Ep Ev) as (_ & _ & En). exists n, vn, vp'. rewrite Hp. split_and!; try done. rewrite En in Hn. by apply Z.eqb_eq in Hn.
Qed.

(** The next hops freed are in entries of the tree; an entry is determined by its next hop. *)
Lemma ids_entry x c i : near_root x -> c ∈ children_of vs x -> i ∈ ids_of x (parents_of vs c) ->
  exists w j vp, vx !! w = Some c /\ parent_entry vx s1 w j vp /\ parent vp = x /\ nh_id (nexthop vp) = i /\ parents_of vs c !! j = Some vp.
Proof.
  intros Hx Hc Hi. destruct (near_tree x Hx) as (u & Hu & Eu). destruct (tree_child u x c Hu Eu Hc) as (w & v & vp0 & Hw & Ew & Ev & _).
  destruct (tree_fields w c v Ew Ev) as (Ep & _). rewrite Ep in *. apply elem_of_ids in Hi as (j & vp & Ej & Epar & Eid). exists w, j, vp.
  split_and!; try done. exists v. split; [apply vtx_Some; eauto | done].
Qed.

Lemma ids_unique x x' c c' i : near_root x -> near_root x' -> c ∈ children_of vs x -> c' ∈ children_of vs x' ->
  i ∈ ids_of x (parents_of vs c) -> i ∈ ids_of x' (parents_of vs c') -> x = x' /\ c = c'.
Proof.
  intros Hx Hx' Hc Hc' Hi Hi'. destruct (ids_entry x c i Hx Hc Hi) as (w & j & vp & Ew & En & Ep & Eid & Ej).
  destruct (ids_entry x' c' i Hx' Hc' Hi') as (w' & j' & vp' & Ew' & En' & Ep' & Eid' & Ej').
  destruct (h_unique _ _ _ _ _ H TOS w w' j j' vp vp' En En') as [-> ->]; [exact (near_canonical x vp Hx Ep) | exact (near_canonical x' vp' Hx' Ep') | congruence |].
  rewrite Ew in Ew'. injection Ew' as <-. rewrite Ej in Ej'. injection Ej' as <-. split; [congruence | done].
Qed.

Lemma ids_nodup_tree x c : near_root x -> c ∈ children_of vs x -> NoDup (ids_of x (parents_of vs c)).
Proof.
  intros Hx Hc. apply ids_nodup. destruct (near_tree x Hx) as (u & Hu & Eu). destruct (tree_child u x c Hu Eu Hc) as (w & v & vp0 & Hw & Ew & Ev & _).
  destruct (tree_fields w c v Ew Ev) as (-> & _). assert (vtx s1 vx w = Some v) as Evt by (apply vtx_Some; eauto). intros i j a b Ei Ej Ha Hb Eid.
  destruct (h_unique _ _ _ _ _ H TOS w w i j a b) as [_ ?]; [by exists v | by exists v | exact (near_canonical x a Hx Ha) | exact (near_canonical x b Hx Hb) | done | done].
Qed.

(** What is freed below a network, and below the root. *)
Definition net_ids (n : vertex_ptr) : list positive := children_of vs n ≫= (fun d => ids_of n (parents_of vs d)).
Definition all_ids : list positive :=
  children_of vs (root s1) ≫= (fun c => (if is_network vs c then net_ids c else []) ++ ids_of (root s1) (parents_of vs c)).

(** The children of a network are routers. *)
Lemma network_child n d : near_root n -> is_network vs n = true -> d ∈ children_of vs n -> is_network vs d = false.
Proof.
  intros Hn Hnet Hd. destruct (near_tree n Hn) as (u & Hu & Eu). destruct (tree_child u n d Hu Eu Hd) as (p & v & vp & Hp & Ep & Ev & Hvp & Epar).
  destruct (iv_vtx I u n Eu) as (vu & ou & Evu & Eou & _ & Etu & _). destruct (tree_fields u n vu Eu Evu) as (_ & _ & E). rewrite E in Hnet.
  apply Z.eqb_eq in Hnet. rewrite Etu in Hnet. destruct (iv_vtx I p d Ep) as (v' & o & Ev' & Eo & _ & Et & _). rewrite Ev in Ev'. injection Ev' as <-.
  destruct (tree_fields p d v Ep Ev) as (_ & _ & ->). destruct (iv_sound I p v n (hop_of vp)) as (a & l & c & va & [_ [Hl _]] & Ea & _); [apply vtx_Some; eauto | by exists vp |].
  rewrite (inv_inj _ _ _ _ _ _ _ _ _ _ _ I Ea Eu) in Hl. pose proof (link_facts _ _ ENV _ _ _ _ Hl) as (_ & _ & _ & Hf & _).
  destruct (Hf ou Eou Hnet) as [_ Hr]. by rewrite Et, (Hr o Eo).
Qed.

Lemma elem_of_net_ids n i : i ∈ net_ids n <-> exists d, d ∈ children_of vs n /\ i ∈ ids_of n (parents_of vs d).
Proof. unfold net_ids. rewrite list_elem_of_bind. naive_solver. Qed.

Lemma near_child c : c ∈ children_of vs (root s1) -> is_network vs c = true -> near_root c.
Proof. by right. Qed.

Lemma net_ids_nodup n : near_root n -> NoDup (net_ids n).
Proof.
  intros Hn. destruct (near_tree n Hn) as (u & Hu & Eu). apply NoDup_bind.
  - intros d d' i Hd Hd' Hi Hi'. by apply (ids_unique n n d d' i).
  - intros d Hd. by apply ids_nodup_tree.
  - by eapply tree_children_nodup.
Qed.

(** The root is not a child of the root. *)
Lemma root_not_child : root s1 ∉ children_of vs (root s1).
Proof.
  intros Hc. destruct (tree_child self (root s1) _ (iv_self I) (iv_root I) Hc) as (p & v & vp & Hp & Ep & Ev & Hvp & Epar).
  assert (p = self) as -> by exact (inv_inj _ _ _ _ _ _ _ _ _ _ _ I Ep (iv_root I)). destruct (h_order _ _ _ _ _ H) as (L & _ & _ & H0 & Ho).
  assert (vtx s1 vx self = Some v) as Evt by (apply vtx_Some; eauto). destruct (Ho 0%nat self v vp H0 Evt Hvp) as (j & a & Hj & _). lia.
Qed.

Lemma all_ids_cases c i : c ∈ children_of vs (root s1) -> i ∈ (if is_network vs c then net_ids c else []) ++ ids_of (root s1) (parents_of vs c) ->
  exists x d, near_root x /\ d ∈ children_of vs x /\ i ∈ ids_of x (parents_of vs d) /\ ((x = root s1 /\ d = c) \/ (x = c /\ x <> root s1)).
Proof.
  intros Hc [Hi | Hi]%elem_of_app.
  - destruct (is_network vs c) eqn:Hn; [| by apply not_elem_of_nil in Hi]. apply elem_of_net_ids in Hi as (d & Hd & Hi). exists c, d.
    split_and!; [by right | done | done | right; split; [done |]]. intros ->. by apply root_not_child.
  - exists (root s1), c. split_and!; [by left | done | done | by left].
Qed.

Lemma all_ids_nodup : NoDup all_ids.
Proof.
  apply NoDup_bind.
  - intros c c' i Hc Hc' Hi Hi'. destruct (all_ids_cases c i Hc Hi) as (x & d & Hx & Hd & Hxi & Hcase).
    destruct (all_ids_cases c' i Hc' Hi') as (x' & d' & Hx' & Hd' & Hxi' & Hcase'). destruct (ids_unique x x' d d' i Hx Hx' Hd Hd' Hxi Hxi') as [-> ->].
    naive_solver.
  - intros c Hc. apply list.NoDup_app. split_and!; [| | by apply ids_nodup_tree; [left |]].
    + destruct (is_network vs c) eqn:Hn; [| constructor]. apply net_ids_nodup. by right.
    + destruct (is_network vs c) eqn:Hn; [| by intros i ?%not_elem_of_nil]. intros i (d & Hd & Hi)%elem_of_net_ids Hi'.
      destruct (ids_unique c (root s1) d c i) as [-> _]; try done; [by right | by left | by apply root_not_child].
  - eapply tree_children_nodup; [apply (iv_self I) | apply (iv_root I)].
Qed.

Lemma all_ids_live i : i ∈ all_ids -> i ∈ live_nexthops s.
Proof.
  intros (c & Hi & Hc)%list_elem_of_bind. destruct (all_ids_cases c i Hc Hi) as (x & d & Hx & Hd & Hxi & _).
  destruct (ids_entry x d i Hx Hd Hxi) as (w & j & vp & _ & He & _ & <- & _). rewrite SL. by eapply (h_live _ _ _ _ _ H).
Qed.

Lemma tree_live x c : near_root x -> c ∈ children_of vs x -> is_Some (vs !! c).
Proof.
  intros Hx Hc. destruct (near_tree x Hx) as (u & Hu & Eu). destruct (tree_child u x c Hu Eu Hc) as (p & v & _ & _ & Ep & Ev & _).
  destruct (SV p c v Ep Ev) as [f ->]. done.
Qed.

Lemma near_vertex x : near_root x -> exists v, vs !! x = Some v /\ children v = children_of vs x.
Proof.
  intros Hx. destruct (near_tree x Hx) as (u & Hu & Eu). destruct (iv_vtx I u x Eu) as (v & _ & Ev & _). destruct (SV u x v Eu Ev) as [f Ef].
  exists (set_v_flags f v). unfold children_of. by rewrite Ef.
Qed.

(** The next hops of a network attached to the root. *)
Lemma free_network fuel n s' : near_root n -> is_network vs n = true -> vertices s' = vs -> can_free (net_ids n) s' ->
  ospf_canonical_nexthops_free (S fuel) n s' = Ok (freed (net_ids n) s').
Proof.
  intros Hn Hnet Hs Hc. cbn [ospf_canonical_nexthops_free]. destruct (near_vertex n Hn) as (v & Ev & Ech). unfold get_vertex. rewrite Hs, Ev. cbn [mbind res_bind].
  rewrite Ech. assert (net_ids n = children_of vs n ≫= (fun c => (if is_network vs c then [] else []) ++ ids_of n (parents_of vs c))) as E.
  { unfold net_ids. apply list_bind_ext; [| done]. intros d. by destruct (is_network vs d). }
  rewrite E in *. apply (children_loop_Ok vs _ (fun _ => [])); [| | done | done].
  - intros c Hc'. by eapply tree_live.
  - intros c s'' Hc' Hn'. by rewrite (network_child n c Hn Hnet Hc') in Hn'.
Qed.

Lemma canonical_free_Ok fuel : ospf_canonical_nexthops_free (S (S fuel)) (root s1) s = Ok (freed all_ids s).
Proof.
  change (ospf_canonical_nexthops_free (S (S fuel)) (root s1) s) with
    (v ← get_vertex s (root s1); canonical_children_loop (ospf_canonical_nexthops_free (S fuel)) (root s1) (children v) s).
  destruct (near_vertex (root s1) ltac:(by left)) as (v & Ev & Ech). unfold get_vertex. rewrite Ev. cbn [mbind res_bind]. rewrite Ech.
  refine (children_loop_Ok vs _ net_ids (root s1) (children_of vs (root s1)) _ _ s eq_refl _).
  - intros c Hc. apply (tree_live (root s1) c); [by left | exact Hc].
  - intros c s' Hc Hn Hs Hcan. apply free_network; [by right | done | done | done].
  - split; [apply all_ids_nodup | apply all_ids_live].
Qed.
End free.
