(* ===== verification/OspfSpfCalculate.v ===== *)
(** * The whole calculation

    [ospf_spf_calculate] returns, leaves the state ready for the next calculation, and its routes have the least costs.
    The parents of the vertices on the tree carry the next hops of all shortest paths. *)

From S2P Require Import Prelude Prefix Pqueue PqueueProofs OspfLsdb OspfNeighbor OspfLsaWire OspfLsaProofs OspfSpfTypes OspfRoute OspfSpf OspfSpfQueue.
From S2P Require Import OspfSpfNexthop OspfSpfInv OspfSpfRelax OspfSpfNext OspfSpfLoop OspfSpfHeap OspfSpfTable OspfSpfStubs.
From S2P Require Import OspfSpfStubs OspfSpfFree.
Local Open Scope Z_scope.

Section spec.
Context (e : area_env) (vls : list vl_data) (self : lsa_ptr).

(** The cost of the shortest paths to [p]. *)
Definition shortest (p : lsa_ptr) (d : Z) : Prop := path e vls self p d /\ forall d', path e vls self p d' -> d <= d'.

Lemma shortest_fun p d d' : shortest p d -> shortest p d' -> d = d'.
Proof. intros [H1 H2] [H1' H2']. specialize (H2 d' H1'). specialize (H2' d H1). lia. Qed.

(** The prefix [k] can be reached inside the area at cost [c]: as a transit network, or as a stub network of a router. *)
Definition intra_cost (k : Z * Z) (c : Z) : Prop :=
  (exists p o, lsas_of e !! p = Some o /\ lo_type o = OSPF_NETWORK_LSA /\ shortest p c /\ net_key o k) \/
  (exists p o ls d, lsas_of e !! p = Some o /\ lo_type o = OSPF_ROUTER_LSA /\ shortest p d /\ lsa_links o ls /\ stub_of d ls k c).

(** The link from [u] to [w] is on a shortest path. *)
Definition tight (u : lsa_ptr) (l : option router_lsa_link) (w : lsa_ptr) (c : Z) : Prop :=
  edge e vls self u l w c /\ exists d, shortest u d /\ shortest w (d + c).

(** The network [u] is attached to the root through [oi], on a shortest path, and the link [k] of [w] is one to [u]. *)
Definition over_network (u w : lsa_ptr) (oi : option spf_if) (k : router_lsa_link) : Prop :=
  exists ou ow ls l c r, lsas_of e !! u = Some ou /\ lo_type ou = OSPF_NETWORK_LSA /\ tight self (Some l) u c /\ root_hop e vls self l u (oi, r) /\
    lsas_of e !! w = Some ow /\ lsa_links ow ls /\ k ∈ ls /\ is_back (lo_type ou) (lo_id ou) k = true.

(** The next hops to [w] on shortest paths, in the manner of RFC 2328 16.1.1: over a link of the root, that of [root_hop]; over a network attached to the root,
    one for each link of [w] to it; otherwise those of the vertex before. *)
Inductive spf_hop : lsa_ptr -> hop -> Prop :=
| hop_root l w c h : tight self (Some l) w c -> root_hop e vls self l w h -> spf_hop w h
| hop_network u w c oi k : u <> self -> tight u None w c -> over_network u w oi k -> spf_hop w (oi, link_data k)
| hop_inherit u l w c h : u <> self -> tight u l w c -> (forall oi k, ~ over_network u w oi k) -> spf_hop u h -> spf_hop w h.
End spec.

(** ** Next hops *)

Section hops.
Context (e : area_env) (vls : list vl_data) (self : lsa_ptr) (ENV : env_ok e self).
Context (T : gset positive) (vx : gmap positive positive) (s : spf) (q : pqueue).
Context (I : inv e vls self T vx (full e vls self T) s q) (EMPTY : elems q = []) (H : heap_inv e self T vx s) (POS : positive_metrics e vls self).
Notation shortest := (shortest e vls self).
Notation tight := (tight e vls self).

Lemma vtx_shortest p v : vtx s vx p = Some v -> shortest p (distance v).
Proof. apply (tree_distance e vls self T vx s q I EMPTY). Qed.

Lemma shortest_vtx p d : shortest p d -> exists x v, vx !! p = Some x /\ vertices s !! x = Some v /\ vtx s vx p = Some v /\ distance v = d /\ p ∈ T.
Proof.
  intros Hs. destruct (path_tree e vls self T vx s q I EMPTY p d (proj1 Hs)) as (v & Hp & Ev & _). pose proof Ev as (x & Ex & Evx)%vtx_Some.
  exists x, v. split_and!; try done. eapply shortest_fun; [by apply vtx_shortest | done].
Qed.

(** A parent entry comes from a tight edge. *)
Lemma tight_edge u l w c xu vu vw : vx !! u = Some xu -> vertices s !! xu = Some vu -> vtx s vx w = Some vw ->
  tight u l w c <-> full e vls self T u l w c /\ distance vu + c = distance vw.
Proof.
  intros Eu Evu Ew. assert (vtx s vx u = Some vu) as Hu by (apply vtx_Some; eauto). split.
  - intros (He & d & Hd & Hw). split; [split; [by eapply all_in_tree | done] |].
    rewrite (shortest_fun _ _ _ _ _ _ (vtx_shortest u vu Hu) Hd). by eapply shortest_fun; [| apply vtx_shortest].
  - intros [[_ He] Heq]. split; [done |]. exists (distance vu). split; [by apply vtx_shortest |]. rewrite Heq. by apply vtx_shortest.
Qed.

Lemma parent_tight w vw xu h : w <> self -> vtx s vx w = Some vw -> in_parents vw xu h <->
  exists u l c vu, tight u l w c /\ vx !! u = Some xu /\ vertices s !! xu = Some vu /\ hops_via e vls (root s) xu vu vw l w h.
Proof.
  intros Hw Ew. split.
  - intros Hin. destruct (iv_sound I w vw xu h Ew Hin) as (u & l & c & vu & HD & Eu & Evu & Heq & Hh). exists u, l, c, vu. split_and!; try done.
    by eapply tight_edge.
  - intros (u & l & c & vu & Ht & Eu & Evu & Hh). eapply (iv_complete I POS); [done | done |].
    apply (tight_edge u l w c xu vu vw Eu Evu Ew) in Ht as [HD Heq]. by exists u, l, c, vu.
Qed.

Lemma root_of u xu : vx !! u = Some xu -> xu = root s <-> u = self.
Proof.
  intros Eu. split; [intros -> | intros ->]; [exact (inv_inj _ _ _ _ _ _ _ _ _ _ _ I Eu (iv_root I)) |]. rewrite (iv_root I) in Eu. by injection Eu.
Qed.

Lemma self_not_tight u l c : ~ tight u l self c.
Proof.
  intros ([He Hroot] & d & Hd & Hs). destruct (shortest_vtx self _ Hs) as (x & v & _ & _ & Ev & Ed & _). rewrite (proj2 (iv_zero I self v Ev) eq_refl) in Ed.
  pose proof (path_nonneg _ _ _ ENV _ _ (proj1 Hd)). pose proof (link_facts _ _ ENV _ _ _ _ He) as (_ & Hc & _).
  destruct (shortest_vtx u d Hd) as (xu & vu & _ & _ & Evu & Edu & _). assert (u = self) as -> by (apply (iv_zero I u vu Evu); lia).
  apply (self_link_metric _ _ ENV) in He. lia.
Qed.

Lemma tight_ne u l w c : tight u l w c -> w <> self.
Proof. intros Ht ->. by eapply self_not_tight. Qed.

(** The hops from the root. *)
Lemma hops_via_root vu w vw l h : vertices s !! root s = Some vu -> vtx s vx w = Some vw ->
  hops_via e vls (root s) (root s) vu vw (Some l) w h <-> root_hop e vls self l w h.
Proof.
  intros Evu Ew. destruct (iv_vtx I self _ (iv_root I)) as (v0 & o & E0 & Eo & El & Et & Ei & _). rewrite Evu in E0. injection E0 as <-.
  apply vtx_Some in Ew as (xw & Exw & Ew). destruct (iv_vtx I w xw Exw) as (v1 & ow & E1 & Eow & Elw & Etw & Eiw & _). rewrite Ew in E1. injection E1 as <-.
  rewrite (root_hop_code e vls self ENV l w h o ow vu vw) by done. unfold hops_via, calc_hops. split.
  - intros (ls & _ & Hh). rewrite decide_True in Hh by done. cbn in Hh.
    destruct (root_nexthop _ _ _ _ _) as [[h' |] | |]; try by apply not_elem_of_nil in Hh. apply list_elem_of_singleton in Hh. by subst.
  - intros Hr. destruct (decide (lo_type ow = OSPF_ROUTER_LSA)) as [Ht | Ht].
    + destruct (examined_links ow (eo_examined _ _ ENV w ow Eow) Ht) as (ls & Hls & _). exists ls. split; [exists ow; done |].
      rewrite decide_True by done. cbn. rewrite Hr. by left.
    + exists []. split; [exists ow; done |]. rewrite decide_True by done. cbn. rewrite Hr. by left.
Qed.

(** The hops that a network attached to the root gives. *)
Lemma net_hops_over u xu vu w vw ow lsw h : u <> self -> vx !! u = Some xu -> vertices s !! xu = Some vu -> v_type vu = OSPF_VERTEX_NETWORK ->
  vtx s vx w = Some vw -> lsas_of e !! w = Some ow -> lsa_links ow lsw ->
  h ∈ net_hops (root s) vu lsw (parents vu) <-> exists oi k, over_network e vls self u w oi k /\ h = (oi, link_data k).
Proof.
  intros Hu Eu Evu Ht Ew Eow Hls. assert (vtx s vx u = Some vu) as Evt by (apply vtx_Some; eauto).
  destruct (iv_vtx I u xu Eu) as (v0 & ou & E0 & Eou & El & Et & Ei & _). rewrite Evu in E0. injection E0 as <-.
  destruct (iv_vtx I self _ (iv_root I)) as (vr & o & Er & _). unfold net_hops, backs. rewrite list_elem_of_bind. split.
  - intros (vp & Hh & Hvp). destruct (decide (parent vp = root s)) as [Hp |]; [| by apply not_elem_of_nil in Hh].
    apply list_elem_of_fmap in Hh as (k & -> & [Hk Hin]%list_elem_of_filter). exists (nh_oi (nexthop vp)), k. split; [| done].
    destruct (proj1 (parent_tight u vu (root s) (hop_of vp) Hu Evt)) as (a & l & c & va & Hta & Ea & Eva & Hh); [by exists vp |].
    apply (root_of a) in Ea as Ea'. assert (a = self) as -> by by apply Ea'. rewrite Er in Eva. injection Eva as <-.
    destruct l as [l |]; [| destruct Hta as [[_ Hroot] _]; by destruct (Hroot eq_refl) as (k' & h' & ? & _)].
    apply (hops_via_root vr u vu l) in Hh; [| done | done]. exists ou, ow, lsw, l, c, (nh_router (nexthop vp)). rewrite <- Et, <- Ei. split_and!; try done.
  - intros (oi & k & (ou' & ow' & ls & l & c & r & Eou' & Hto & Hta & Hr & Eow' & Hls' & Hk & Hb) & ->). rewrite Eou in Eou'. injection Eou' as <-.
    rewrite Eow in Eow'. injection Eow' as <-. rewrite (links_at_fun _ _ _ Hls' _ Hls) in Hk.
    destruct (proj2 (parent_tight u vu (root s) (oi, r) Hu Evt)) as (vp & Hvp & Hp & Hh).
    { exists self, (Some l), c, vr. split_and!; [done | apply (iv_root I) | done |]. by apply hops_via_root. }
    exists vp. split; [| done]. rewrite decide_True by done. apply list_elem_of_fmap. exists k. injection Hh as -> _. split; [done |].
    apply list_elem_of_filter. by rewrite Et, Ei.
Qed.

Lemma links_exist w ow : lsas_of e !! w = Some ow -> exists ls, links_of e w ls /\ (lo_type ow = OSPF_ROUTER_LSA -> lsa_links ow ls).
Proof.
  intros Eow. destruct (decide (lo_type ow = OSPF_ROUTER_LSA)) as [Ht | Ht]; [| exists []; by split; [exists ow |]].
  destruct (examined_links ow (eo_examined _ _ ENV w ow Eow) Ht) as (ls & Hls & _). exists ls. by split; [exists ow |].
Qed.

(** The hops of a vertex other than the root. *)
Lemma hops_via_other u l w c xu vu vw h : u <> self -> tight u l w c -> vx !! u = Some xu -> vertices s !! xu = Some vu -> vtx s vx w = Some vw ->
  hops_via e vls (root s) xu vu vw l w h <->
  (exists oi k, over_network e vls self u w oi k /\ h = (oi, link_data k)) \/
  ((forall oi k, ~ over_network e vls self u w oi k) /\ exists vp, vp ∈ parents vu /\ hop_of vp = h).
Proof.
  intros Hu Ht Eu Evu Ew. assert (xu <> root s) as Hr by (intros Hx; by apply Hu, (root_of u xu Eu)).
  destruct (iv_vtx I u xu Eu) as (v0 & ou & E0 & Eou & El & Et & Ei & _). rewrite Evu in E0. injection E0 as <-.
  pose proof Ew as (xw & Exw & Evw)%vtx_Some. destruct (iv_vtx I w xw Exw) as (v1 & ow & _ & Eow & _).
  destruct (links_exist w ow Eow) as (lsw & Hlw & Hls). pose proof Ht as [[Hlink _] _]. pose proof (link_facts _ _ ENV _ _ _ _ Hlink) as (_ & _ & _ & Hnet & _).
  assert (hops_via e vls (root s) xu vu vw l w h <-> h ∈ (if v_type vu =? OSPF_VERTEX_NETWORK
    then if bool_decide (net_hops (root s) vu lsw (parents vu) = []) then hop_of <$> parents vu else net_hops (root s) vu lsw (parents vu) else hop_of <$> parents vu)) as ->.
  { unfold hops_via, calc_hops. split.
    - intros (ls & (ow' & Eow' & Hls') & Hh). rewrite decide_False in Hh by done. rewrite Eow in Eow'. injection Eow' as <-. destruct (Z.eqb_spec (v_type vu) OSPF_VERTEX_NETWORK) as [Hn | Hn]; [| done].
      rewrite Et in Hn. destruct (Hnet ou Eou Hn) as [_ Htw]. specialize (Htw ow Eow). rewrite (links_at_fun _ _ _ (Hls' Htw) _ (Hls Htw)) in Hh. by destruct (bool_decide _).
    - intros Hh. exists lsw. split; [done |]. rewrite decide_False by done. destruct (_ =? _); [| done]. by destruct (bool_decide _). }
  assert (h ∈ hop_of <$> parents vu <-> exists vp, vp ∈ parents vu /\ hop_of vp = h) as Hinh by (rewrite list_elem_of_fmap; naive_solver).
  destruct (Z.eqb_spec (v_type vu) OSPF_VERTEX_NETWORK) as [Hn | Hn].
  - pose proof Hn as Hn'. rewrite Et in Hn'. destruct (Hnet ou Eou Hn') as [_ Htw]. specialize (Htw ow Eow).
    pose proof (fun h => net_hops_over u xu vu w vw ow lsw h Hu Eu Evu Hn Ew Eow (Hls Htw)) as Hover.
    destruct (bool_decide _) eqn:Hnil.
    + apply bool_decide_eq_true in Hnil. rewrite Hinh. rewrite Hnil in Hover. split.
      * intros Hp. right. split; [| done]. intros oi k Ho. apply (not_elem_of_nil (oi, link_data k)), Hover. eauto.
      * intros [Ho%Hover | [_ ?]]; [by apply not_elem_of_nil in Ho | done].
    + apply bool_decide_eq_false in Hnil. rewrite Hover. split; [by left |]. intros [? | [Hno _]]; [done |].
      destruct (net_hops (root s) vu lsw (parents vu)) as [| h' r]; [done |]. destruct (proj1 (Hover h')) as (oi & k & Ho & _); [by left |]. by destruct (Hno oi k).
  - rewrite Hinh. assert (forall oi k, ~ over_network e vls self u w oi k) as Hno.
    { intros oi k (ou' & ? & ? & ? & ? & ? & Eou' & Hto & _). rewrite Eou in Eou'. injection Eou' as <-. by rewrite Et in Hn. }
    split; [intros ?; right; by split |]. intros [(oi & k & Ho & _) | [_ ?]]; [by destruct (Hno oi k) | done].
Qed.

(** The next hops in the parents of a vertex are those of the shortest paths. *)
Lemma parents_spf_hop w vw h : w <> self -> vtx s vx w = Some vw -> (exists vp, vp ∈ parents vw /\ hop_of vp = h) <-> spf_hop e vls self w h.
Proof.
  intros Hw Ew. split.
  - destruct (h_order _ _ _ _ _ H) as (L & Hnd & HT & H0 & Ho). pose proof Ew as (xw & Exw & _)%vtx_Some.
    assert (exists i, L !! i = Some w) as [i Hi] by (apply list_elem_of_lookup, HT; by eapply all_in_tree). clear Exw xw.
    revert w vw Hw Ew Hi. induction i as [i IH] using lt_wf_ind. intros w vw Hw Ew Hi (vp & Hvp & Hh).
    destruct (proj1 (parent_tight w vw (parent vp) h Hw Ew)) as (u & l & c & vu & Ht & Eu & Evu & Hv); [by exists vp |].
    destruct (decide (u = self)) as [-> | Hu].
    + pose proof (proj2 (root_of self _ Eu) eq_refl) as Hr. rewrite Hr in *. destruct l as [l |].
      * eapply hop_root; [done |]. by eapply hops_via_root.
      * destruct Ht as [[_ Hroot] _]. by destruct (Hroot eq_refl) as (k' & h' & ? & _).
    + apply (hops_via_other u l w c (parent vp) vu vw h Hu Ht Eu Evu Ew) in Hv as [(oi & k & Hover & ->) | [Hno Hin]].
      * eapply hop_network; [done | | done]. pose proof Hover as (ou & _ & _ & _ & _ & _ & Eou & Hto & _).
        destruct Ht as [[Hlink Hroot] Hd]. pose proof (link_facts _ _ ENV _ _ _ _ Hlink) as (_ & _ & _ & Hnet & _). destruct (Hnet ou Eou Hto) as [-> _]. by split.
      * eapply hop_inherit; [done | done | done |]. destruct (Ho i w vw vp Hi Ew Hvp) as (j & u' & Hj & Ej & Eu').
        assert (u' = u) as -> by exact (inv_inj _ _ _ _ _ _ _ _ _ _ _ I Eu' Eu). eapply (IH j Hj u vu); [done | apply vtx_Some; eauto | done | done].
  - intros Hs. revert vw Hw Ew. induction Hs as [l w c h Ht Hr | u w c oi k Hu Ht Hover | u l w c h Hu Ht Hno Hs IH]; intros vw Hw Ew.
    + destruct (iv_vtx I self _ (iv_root I)) as (vr & o & Er & _).
      destruct (proj2 (parent_tight w vw (root s) h Hw Ew)) as (vp & ? & _ & ?); [| by exists vp].
      exists self, (Some l), c, vr. split_and!; [done | apply (iv_root I) | done | by apply hops_via_root].
    + pose proof Ht as (_ & d & Hd & _). destruct (shortest_vtx u d Hd) as (xu & vu & Eu & Evu & _).
      destruct (proj2 (parent_tight w vw xu (oi, link_data k) Hw Ew)) as (vp & ? & _ & ?); [| by exists vp].
      exists u, None, c, vu. split_and!; [done | done | done |]. apply (hops_via_other u None w c xu vu vw); try done. left. eauto.
    + pose proof Ht as (_ & d & Hd & _). destruct (shortest_vtx u d Hd) as (xu & vu & Eu & Evu & Evt & _).
      destruct (proj2 (parent_tight w vw xu h Hw Ew)) as (vp & ? & _ & ?); [| by exists vp].
      exists u, l, c, vu. split_and!; [done | done | done |]. apply (hops_via_other u l w c xu vu vw); try done. right. split; [done |]. by apply IH.
Qed.
End hops.

(** ** The calculation *)

Section calculate.
Context (e : area_env) (self : lsa_ptr) (ENV : env_ok e self) (IFS : ifs_ok e) (TOS : tos_free e) (SELF : router_lsa_self e = Some self).
Context (s : spf) (START : start_ok s) (VLS : vls_ok (vlinks s)) (ORG : origins_ok e s).

Lemma least_weaken (good good' : Z * Z -> Prop) tab P : (forall k, good' k -> good k) -> least_costs good tab P -> least_costs good' tab P.
Proof. intros Hg L k Hk. by apply L, Hg. Qed.

Lemma join_order_length T vx s1 L : join_order self T vx s1 L -> length L = base.size T.
Proof.
  intros (Hnd & HT & _). rewrite <- (size_list_to_set (C := gset positive) L) by done. apply set_size_proper. intros p. rewrite elem_of_list_to_set. apply HT.
Qed.

(** The costs on the tree, once all its stub links have been added, are those of the area. *)
Lemma tree_costs vls T vx s1 q V k c :
  inv e vls self T vx (full e vls self T) s1 q -> elems q = [] -> (forall p x, vx !! p = Some x -> x ∈ V) ->
  intra_cost e vls self k c <-> tree_net e T vx s1 k c \/ stub_cost e vx s1 V k c.
Proof.
  intros I EMPTY HV. split.
  - intros [(p & o & Eo & Ht & Hs & Hk) | (p & o & ls & d & Eo & Ht & Hs & Hls & Hst)].
    + left. destruct (shortest_vtx e vls self T vx s1 q I EMPTY p c Hs) as (x & v & Ex & Ev & Evt & Hd & Hp). by exists p, o, v.
    + right. destruct (shortest_vtx e vls self T vx s1 q I EMPTY p d Hs) as (x & v & Ex & Ev & Evt & <- & Hp). exists p, x, v, o, ls. split_and!; try done. by eapply HV.
  - intros [(p & o & v & Hp & Eo & Ht & Hk & Ev & <-) | (p & x & v & o & ls & Hx & Ex & Ev & Eo & Ht & Hls & Hst)].
    + left. exists p, o. split_and!; try done. by eapply vtx_shortest.
    + right. exists p, o, ls, (distance v). split_and!; try done. eapply vtx_shortest; [done | done | apply vtx_Some; eauto].
Qed.

Lemma calculate_Ok : exists s', ospf_spf_calculate e s = Ok s' /\ start_ok s' /\ vls_ok (vlinks s') /\ origins_ok e s' /\
  least_costs (fun k => new_table s !! k = None /\ ~ own_address e k) (new_table s') (intra_cost e (vlinks s) self).
Proof.
  destruct (spf_tree_Ok e self ENV s START VLS ORG) as (T & vx & s1 & q & E1 & I & EMPTY & (HP & [O1 L1] & V1)).
  unfold ospf_spf_calculate. rewrite SELF, E1. cbn [mbind res_bind]. destruct (h_order _ _ _ _ _ HP) as (L & ORDER).
  pose proof (T_bound e (vlinks s) self ENV _ _ _ _ _ I) as Hsize. pose proof (join_order_length _ _ _ _ ORDER) as HL.
  pose proof ORDER as (_ & _ & H0 & _). pose proof (lookup_lt_Some _ _ _ H0) as Hpos.
  set (good := fun k => new_table s !! k = None /\ ~ own_address e k).
  destruct (process_stubs_Ok e (vlinks s) self ENV IFS good (fun k Hk => proj2 Hk) T vx s1 q I EMPTY HP L ORDER (S (base.size (lsas_of e))) 0%nat self (root s1) false ∅ s1)
    as (V & s2 & E2 & SB & _ & HV); [done | apply (iv_root I) | lia | |].
  { apply (stubbed_start e (vlinks s) self ENV IFS good (fun k Hk => proj2 Hk) T vx s1 q I EMPTY HP L ORDER); [done |]. eapply least_weaken; [| exact L1]. by intros k [? _]. }
  rewrite E2. cbn [mbind res_bind]. rewrite (sb_root _ _ _ _ _ _ _ SB).
  destruct (base.size (lsas_of e)) as [| n]; [lia |].
  rewrite (canonical_free_Ok e (vlinks s) self ENV TOS T vx s1 s2 q I HP (fun p x v Ex Ev => match sb_vertices _ _ _ _ _ _ _ SB p x v Ex Ev with
     ex_intro _ f (conj Hf _) => ex_intro _ f Hf end) (sb_root _ _ _ _ _ _ _ SB) (sb_live _ _ _ _ _ _ _ SB) n).
  cbn [mbind res_bind]. eexists. split; [done |]. split_and!.
  - split.
    + intros x v Ex. cbn in Ex |- *. apply (sb_fresh _ _ _ _ _ _ _ SB x v). revert Ex. generalize (vertex_list s2). intros l.
      induction l as [| y l IH]; cbn; [done |]. intros [_ Ex]%lookup_delete_Some. by apply IH.
    + intros i Hi. cbn in Hi |- *. apply elem_of_difference in Hi as [Hi _]. rewrite (sb_live _ _ _ _ _ _ _ SB) in Hi. rewrite (sb_next _ _ _ _ _ _ _ SB).
      by apply (h_next _ _ _ _ _ HP).
  - cbn. by rewrite (sb_vlinks _ _ _ _ _ _ _ SB).
  - exact (sb_origins _ _ _ _ _ _ _ SB).
  - cbn. eapply least_ext; [exact (sb_costs _ _ _ _ _ _ _ SB) |]. intros k c _. eapply tree_costs; [done | done |].
    intros p x Ex. apply HV. assert (p ∈ L) as [i Hi]%list_elem_of_lookup by (apply ORDER; by eapply all_in_tree). by eapply descends.
Qed.
End calculate.
