(* ===== verification/OspfSpfTimer.v ===== *)
(** * When the calculation runs (ospfd/ospf_spf.c, ospf_interface.c, ospf_route.c)

    [ospf_spf_calculate_schedule] with its hold time, and what the timer does for all areas of the router: the calculations,
    with the virtual links and the pruning of routes around them.  Times are in microseconds, as [struct timeval] counts
    them; the delay of the timer is in milliseconds.  The areas share the LSAs of the router. *)

From S2P Require Import Prelude Prefix OspfLsdb OspfNeighbor OspfLsaWire OspfSpfTypes OspfRoute OspfSpf.
From S2P Require Import OspfLsaProofs OspfSpfInv OspfSpfHeap OspfSpfTable OspfSpfStubs OspfSpfCalculate.
Local Open Scope Z_scope.

(** ** Virtual links around the calculation *)

Definition set_vl_flags (f : Z) (vl : vl_data) : vl_data :=
  mk_vl (vl_peer vl) (vl_area_id vl) f (vl_nexthop_oi vl) (vl_nexthop_router vl) (peer_addr vl) (vl_state vl) (vl_output_cost vl) (vl_address vl).

Definition ospf_vl_unapprove (l : list vl_data) : list vl_data := map (fun vl => set_vl_flags (UNSET_FLAG (vl_flags vl) OSPF_VL_FLAG_APPROVED) vl) l.

(** The interface of the virtual link loses its address; [ISM_InterfaceDown] brings it down (file OspfSteps). *)
Definition ospf_vl_shutdown (vl : vl_data) : vl_data :=
  mk_vl (vl_peer vl) (vl_area_id vl) (vl_flags vl) (vl_nexthop_oi vl) (vl_nexthop_router vl) (peer_addr vl) ISM_Down (vl_output_cost vl)
    (mk_prefix (family (vl_address vl)) 0 ([0; 0; 0; 0] ++ drop 4 (u (vl_address vl)))).

Definition ospf_vl_shut_unapproved (l : list vl_data) : list vl_data :=
  map (fun vl => if negb (CHECK_FLAG (vl_flags vl) OSPF_VL_FLAG_APPROVED) then ospf_vl_shutdown vl else vl) l.

(** ** Pruning *)

Definition ospf_prune_unreachable_networks (rt : gmap (Z * Z) ospf_route) : gmap (Z * Z) ospf_route :=
  filter (fun kr => negb (Nat.eqb (length (r_paths kr.2)) 0) = true) rt.

Definition prune_paths (rs : list ospf_route) : list ospf_route := filter (fun r => negb (Nat.eqb (length (r_paths r)) 0) = true) rs.
Definition ospf_prune_unreachable_routers (rtrs : gmap Z (list ospf_route)) : gmap Z (list ospf_route) :=
  omap (fun rs => match prune_paths rs with [] => None | rs' => Some rs' end) rtrs.

(** ** All areas *)

Fixpoint spf_areas (es : list area_env) (s : spf) : res spf :=
  match es with
  | [] => Ok s
  | e :: r => s ← ospf_spf_calculate e s; spf_areas r s
  end.

(** [ospf_spf_calculate_timer] up to the end of the intra-area calculations: fresh tables, the other areas before the backbone. *)
Definition spf_calculate_timer (areas : list area_env) (s : spf) : res spf :=
  let s := set_rtrs ∅ (set_table ∅ s) in
  let s := set_vlinks (ospf_vl_unapprove (vlinks s)) (spf_log s) s in
  s ← spf_areas (filter (fun e => is_backbone e = false) areas ++ filter (fun e => is_backbone e = true) areas) s;
  Ok (set_vlinks (ospf_vl_shut_unapproved (vlinks s)) (spf_log s) s).

(** ** The schedule *)

Record spf_sched := mk_sched {
  t_spf_calc : option Z; spf_delay : Z; spf_holdtime : Z; spf_max_holdtime : Z; spf_hold_multiplier : Z; ts_spf : Z }.

(** [recent] is [recent_relative_time ()]; [elapsed], [ht] and [delay] are [unsigned long], the fields [unsigned int]. *)
Definition ospf_spf_calculate_schedule (recent : Z) (o : spf_sched) : spf_sched :=
  match t_spf_calc o with
  | Some _ => o
  | None =>
      let elapsed := u64 ((recent - ts_spf o) / 1000) in
      let ht := u32 (spf_holdtime o * spf_hold_multiplier o) in
      let ht := if ht >? spf_max_holdtime o then spf_max_holdtime o else ht in
      let '(delay, mult) :=
        if elapsed <? ht then
          (if u64 (ht - elapsed) <? spf_delay o then spf_delay o else u64 (ht - elapsed),
           if ht <? spf_max_holdtime o then u32 (spf_hold_multiplier o + 1) else spf_hold_multiplier o)
        else (spf_delay o, 1) in
      mk_sched (Some delay) (spf_delay o) (spf_holdtime o) (spf_max_holdtime o) mult (ts_spf o)
  end.

(** ** The timer runs all calculations *)

Lemma unapproved_ok l : vls_ok (ospf_vl_unapprove l).
Proof.
  unfold vls_ok, ospf_vl_unapprove. induction l as [| vl l IH]; cbn; constructor; [| done]. cbn. change OSPF_VL_FLAG_APPROVED with (2 ^ 0).
  rewrite check_unset by lia. change (CHECK_FLAG (2 ^ 0) (2 ^ 0)) with true. by rewrite andb_false_r.
Qed.

(** What an area must satisfy for its calculation. *)
Definition area_ok (lsas : gmap positive lsa_object) (e : area_env) : Prop :=
  lsas_of e = lsas /\ ifs_ok e /\ tos_free e /\ forall self, router_lsa_self e = Some self -> env_ok e self.

Lemma spf_areas_Ok lsas es : Forall (area_ok lsas) es -> forall s, start_ok s -> vls_ok (vlinks s) ->
  (forall k r, new_table s !! k = Some r -> is_Some (lsas !! r_origin r)) ->
  exists s', spf_areas es s = Ok s' /\ start_ok s' /\ vls_ok (vlinks s').
Proof.
  induction 1 as [| e es (El & HI & HT & HE) H IH]; intros s START VLS ORG; cbn [spf_areas]; [eauto |].
  destruct (router_lsa_self e) as [self |] eqn:Es.
  - destruct (calculate_Ok e self (HE self eq_refl) HI HT Es s START VLS) as (s' & -> & START' & VLS' & ORG' & _).
    { intros k r Hr. rewrite El. by eapply ORG. }
    cbn [mbind res_bind]. apply IH; [done | done |]. rewrite <- El. exact ORG'.
  - unfold ospf_spf_calculate. rewrite Es. cbn [mbind res_bind]. by apply IH.
Qed.

Lemma spf_timer_Ok lsas areas s : Forall (area_ok lsas) areas -> start_ok s -> exists s', spf_calculate_timer areas s = Ok s' /\ start_ok s'.
Proof.
  intros HA START. unfold spf_calculate_timer.
  destruct (spf_areas_Ok lsas (filter (fun e => is_backbone e = false) areas ++ filter (fun e => is_backbone e = true) areas)) with
    (s := set_vlinks (ospf_vl_unapprove (vlinks s)) (spf_log s) (set_rtrs ∅ (set_table ∅ s))) as (s' & E & START' & _).
  - rewrite list.Forall_forall in HA |- *. intros e [[_ He]%list_elem_of_filter | [_ He]%list_elem_of_filter]%elem_of_app; by apply HA.
  - done.
  - apply unapproved_ok.
  - intros k r Hr. cbn in Hr. by rewrite lookup_empty in Hr.
  - cbn [vlinks spf_log set_rtrs set_table]. rewrite E. cbn [mbind res_bind]. eexists. split; [done |]. exact START'.
Qed.

(** ** Runs are spaced *)

(** The router over time: calculations are asked for, and the timer fires when it is due.  [due] is when. *)
Record run := mk_run { clock : Z; due : option Z; sched : spf_sched; last_wait : Z }.

Inductive run_step : run -> run -> Prop :=
| run_tick r t : clock r <= t < 2 ^ 63 -> (forall d, due r = Some d -> t <= d) -> run_step r (mk_run t (due r) (sched r) (last_wait r))
| run_schedule r o : o = ospf_spf_calculate_schedule (clock r) (sched r) ->
    run_step r (mk_run (clock r) (match t_spf_calc (sched r), t_spf_calc o with None, Some delay => Some (clock r + 1000 * delay) | _, _ => due r end) o (last_wait r))
| run_fire r d : due r = Some d -> d <= clock r ->
    run_step r (mk_run (clock r) None (mk_sched None (spf_delay (sched r)) (spf_holdtime (sched r)) (spf_max_holdtime (sched r))
                                         (spf_hold_multiplier (sched r)) (clock r)) (clock r - ts_spf (sched r))).

(** The state after a calculation at time [t0], with the configured times. *)
Definition first_run (t0 delay hold max : Z) : run := mk_run t0 None (mk_sched None delay hold max 1 t0) (1000 * max).

Section spaced.
Context (delay hold max : Z) (DELAY : 0 <= delay < 2 ^ 32) (HOLD : 0 <= hold) (MAX : 0 <= max) (FIT : hold + max < 2 ^ 32).

Record run_ok (r : run) : Prop := {
  ro_config : spf_delay (sched r) = delay /\ spf_holdtime (sched r) = hold /\ spf_max_holdtime (sched r) = max;
  ro_mult : 1 <= spf_hold_multiplier (sched r) /\ (spf_hold_multiplier (sched r) = 1 \/ (spf_hold_multiplier (sched r) - 1) * hold < max);
  ro_positive : hold = 0 -> spf_hold_multiplier (sched r) = 1;
  ro_clock : 0 <= ts_spf (sched r) <= clock r /\ clock r < 2 ^ 63;
  ro_idle : due r = None <-> t_spf_calc (sched r) = None;
  ro_due : forall d, due r = Some d -> ts_spf (sched r) + 1000 * Z.min hold max <= d /\ d <= clock r + 1000 * Z.max delay max;
  ro_last : 1000 * Z.min hold max <= last_wait r }.

Lemma hold_product m : 1 <= m -> (m = 1 \/ (m - 1) * hold < max) -> u32 (hold * m) = hold * m.
Proof. intros H1 H2. apply wrap_small. unfold in_u. split; [nia |]. destruct H2 as [-> |]; nia. Qed.

Lemma schedule_ok r o : run_ok r -> t_spf_calc (sched r) = None -> o = ospf_spf_calculate_schedule (clock r) (sched r) ->
  exists w, t_spf_calc o = Some w /\ ts_spf o = ts_spf (sched r) /\ (spf_delay o = delay /\ spf_holdtime o = hold /\ spf_max_holdtime o = max) /\
    (1 <= spf_hold_multiplier o /\ (spf_hold_multiplier o = 1 \/ (spf_hold_multiplier o - 1) * hold < max)) /\ (hold = 0 -> spf_hold_multiplier o = 1) /\
    delay <= w <= Z.max delay max /\ ts_spf (sched r) + 1000 * Z.min (hold * spf_hold_multiplier (sched r)) max <= clock r + 1000 * w.
Proof.
  intros R Ht ->. destruct (ro_config _ R) as (E1 & E2 & E3). destruct (ro_mult _ R) as [M1 M2]. destruct (ro_clock _ R) as [C1 C2].
  unfold ospf_spf_calculate_schedule. rewrite Ht, E1, E2, E3. set (m := spf_hold_multiplier (sched r)) in *. rewrite hold_product by done.
  set (x := clock r - ts_spf (sched r)) in *. assert (0 <= x / 1000 <= x) as Hx by (split; [apply Z.div_pos; lia | apply Z.div_le_upper_bound; lia]).
  rewrite (wrap_small 64 (x / 1000)) by (unfold in_u; lia). pose proof (Z.mul_div_le x 1000 ltac:(lia)) as Hle. pose proof (Z.mul_succ_div_gt x 1000 ltac:(lia)) as Hgt.
  set (el := x / 1000) in *.
  assert (exists ht, (if hold * m >? max then max else hold * m) = ht /\ ht = Z.min (hold * m) max) as (ht & -> & Hht).
  { destruct (Z.gtb_spec (hold * m) max); eexists; (split; [done | lia]). }
  assert (0 <= ht <= max) as Hr by nia. destruct (Z.ltb_spec el ht) as [Hlt | Hge].
  - rewrite (wrap_small 64 (ht - el)) by (unfold in_u; lia). cbn [t_spf_calc ts_spf spf_delay spf_holdtime spf_max_holdtime spf_hold_multiplier].
    eexists. split; [done |]. split; [done |]. split; [done |].
    assert (forall mm, mm = (if ht <? max then u32 (m + 1) else m) -> 1 <= mm /\ (mm = 1 \/ (mm - 1) * hold < max) /\ (hold = 0 -> mm = 1)) as Hm.
    { intros mm ->. pose proof (ro_positive _ R) as Hp. fold m in Hp. destruct (Z.ltb_spec ht max) as [Hl | Hl]; [| done].
      assert (hold * m < max) as Hhm by lia. assert (hold <> 0) as Hh by (intros H0; rewrite H0 in Hht; lia).
      rewrite wrap_small by (unfold in_u; nia). split_and!; [lia | right; nia | done]. }
    destruct (Hm _ eq_refl) as (H1 & H2 & H3). split_and!; [done | done | done | | |]; destruct (Z.ltb_spec (ht - el) delay); lia.
  - cbn. eexists. split; [done |]. split_and!; try done; try lia; by left.
Qed.

Lemma run_step_ok r r' : run_ok r -> run_step r r' -> run_ok r'.
Proof.
  intros R Hs. pose proof R as [C M P K I D W]. inversion Hs as [? t Ht Hd | ? o Ho | ? d Hd Hc]; subst.
  - constructor; cbn; try done; [lia |]. intros d Ed. specialize (D d Ed). lia.
  - destruct (t_spf_calc (sched r)) as [w0 |] eqn:Et.
    + assert (ospf_spf_calculate_schedule (clock r) (sched r) = sched r) as -> by (unfold ospf_spf_calculate_schedule; by rewrite Et).
      constructor; cbn; try done. by rewrite Et.
    + destruct (schedule_ok r _ R Et eq_refl) as (w & Ew & Ets & C' & M' & P' & Hw & Hb). rewrite Ew. constructor; cbn; rewrite ?Ets; try done.
      * by rewrite Ew.
      * intros d [= <-]. split; [| lia]. destruct M as [M1 _]. assert (Z.min hold max <= Z.min (hold * spf_hold_multiplier (sched r)) max) by nia. lia.
  - constructor; cbn; try done; [lia |]. specialize (D d Hd). lia.
Qed.

Lemma first_run_ok t0 : 0 <= t0 < 2 ^ 63 -> run_ok (first_run t0 delay hold max).
Proof. intros Ht. constructor; cbn; try done; try lia. Qed.

Lemma spaced_runs_ok t0 r : 0 <= t0 < 2 ^ 63 -> rtc run_step (first_run t0 delay hold max) r -> run_ok r.
Proof.
  intros Ht. assert (forall a b, rtc run_step a b -> run_ok a -> run_ok b) as Hi.
  { induction 1 as [| a b c Hs H IH]; [done |]. intros Ha. apply IH. by eapply run_step_ok. }
  intros H. eapply Hi; [exact H | by apply first_run_ok].
Qed.
End spaced.
