(* ===== verification/OspfSpfExample.v ===== *)
(** * The conditions of the shortest path calculation can be checked

    Boolean versions of the conditions on a database ([env_ok], [tos_free], positive metrics), with their correctness, so that
    they can be evaluated on a concrete area.

    A concrete area.  Router 1.1.1.1 (which calculates) is attached to the network 10.0.12.0/24, with routers 2.2.2.2 and 3.3.3.3, and has a
    point-to-point link to router 4.4.4.4, which has one to router 3.3.3.3; both ways to the latter cost 10.  The LSAs are
    given as the bytes after their headers. *)

From S2P Require Import Prelude Prefix OspfLsdb OspfNeighbor OspfLsaWire OspfSpfTypes OspfSpf OspfLsaProofs OspfSpfNexthop OspfSpfInv OspfSpfHeap OspfSpfStubs.
Local Open Scope Z_scope.

(** The links from offset [p], as a list. *)
Fixpoint links_list (fuel : nat) (o : lsa_object) (p : Z) : list router_lsa_link :=
  match fuel with
  | O => []
  | S fuel => if p <? lo_length o then match rd_link o p with Ok l => l :: links_list fuel o (link_end l) | _ => [] end else []
  end.

Lemma links_list_at o p ls : links_at o p ls -> forall fuel, (length ls < fuel)%nat -> links_list fuel o p = ls.
Proof.
  induction 1 as [| p l ls Hp El H IH]; intros [| fuel] Hf; cbn [length] in Hf; try lia; cbn [links_list].
  - by rewrite Z.ltb_irrefl.
  - rewrite (proj2 (Z.ltb_lt _ _)) by done. rewrite El. f_equal. apply IH. lia.
Qed.

Definition all_links (o : lsa_object) : list router_lsa_link := links_list (lsa_fuel o) o links_start.

Lemma all_links_eq o ls : lsa_examined o -> lsa_links o ls -> all_links o = ls.
Proof. intros Hx Hls. eapply links_list_at; [exact Hls |]. by eapply (links_fuel o links_start); [apply Hx | |]. Qed.

Definition examined_b (o : lsa_object) : bool :=
  forallb (fun b => (0 <=? b) && (b <? 256)) (lo_body o) && (lo_length o =? OSPF_LSA_HEADER_SIZE + Z.of_nat (length (lo_body o))) && (lo_length o <? 2 ^ 16)
  && ((0 <=? lo_type o) && (lo_type o <? 256))
  && match ospf_lsa_examin (lsa_bytes o) 0 (lo_length o) false with Ok r => r =? MSG_OK | _ => false end.

Lemma examined_b_spec o : examined_b o = true -> lsa_examined o.
Proof.
  unfold examined_b. intros [[[[Hb Hl]%andb_true_iff Hm]%andb_true_iff Ht]%andb_true_iff He]%andb_true_iff.
  apply Z.eqb_eq in Hl. apply Z.ltb_lt in Hm. apply andb_true_iff in Ht as [Ht1%Z.leb_le Ht2%Z.ltb_lt].
  split; [split_and!; [| done | done] | split; [done |]].
  - unfold bytes_ok. rewrite list.Forall_forall. intros b Hin. rewrite forallb_forall in Hb. specialize (Hb b).
    apply list_elem_of_In in Hin. apply Hb, andb_true_iff in Hin as [?%Z.leb_le ?%Z.ltb_lt]. unfold byte_ok, in_u. lia.
  - destruct (ospf_lsa_examin _ _ _ _) as [r | |]; try done. apply Z.eqb_eq in He. by subst.
Qed.

(** The table of type [i] holds LSAs of this type under their keys. *)
Definition table_b (e : area_env) (i : Z) : bool :=
  match get_table (lsdb_of e) i with
  | Ok m => bool_decide (map_Forall (fun k p => match lsas_of e !! p with
                                               | Some o => (lo_type o =? i) && bool_decide (lsdb_prefix_set (lo_lsa o) = k)
                                               | None => false end = true) m)
  | _ => false
  end.

Definition env_b (e : area_env) (self : lsa_ptr) : bool :=
  bool_decide (map_Forall (fun _ o => examined_b o = true) (lsas_of e)) && forallb (table_b e) lsa_types
  && match lsas_of e !! self, get_table (lsdb_of e) OSPF_ROUTER_LSA with
     | Some o, Ok m => bool_decide (m !! (lo_id o, lo_id o) = Some self) &&
                       forallb (fun l => (l_type l =? LSA_LINK_TYPE_STUB) || negb (metric l =? 0)) (all_links o)
     | _, _ => false
     end
  && (Z.of_nat (base.size (lsas_of e)) * 65535 <? 2 ^ 31).

Lemma env_b_spec e self : env_b e self = true -> env_ok e self.
Proof.
  unfold env_b. intros [[[Hx%bool_decide_eq_true Ht]%andb_true_iff Hs]%andb_true_iff Hz%Z.ltb_lt]%andb_true_iff.
  rewrite forallb_forall in Ht. assert (forall i, i ∈ lsa_types -> table_b e i = true) as Htab by (intros i Hi; apply Ht; by apply list_elem_of_In).
  destruct (lsas_of e !! self) as [o |] eqn:Eo; [| done]. destruct (get_table (lsdb_of e) OSPF_ROUTER_LSA) as [m | |] eqn:Em; [| done | done].
  apply andb_true_iff in Hs as [Hself%bool_decide_eq_true Hm]. constructor.
  - intros p o' Eo'. apply examined_b_spec. by apply (Hx p).
  - intros i Hi. specialize (Htab i Hi). unfold table_b in Htab. destruct (get_table _ i); [eauto | done | done].
  - intros i m' k p Hi Em' Ek. specialize (Htab i Hi). unfold table_b in Htab. rewrite Em' in Htab. apply bool_decide_eq_true in Htab.
    specialize (Htab k p Ek). cbn in Htab. destruct (lsas_of e !! p) as [o' |]; [| done]. apply andb_true_iff in Htab as [?%Z.eqb_eq ?%bool_decide_eq_true]. eauto.
  - by exists o, m.
  - done.
  - intros o' ls l Eo' Hls Hl Hst. rewrite Eo in Eo'. injection Eo' as <-. rewrite forallb_forall in Hm.
    rewrite <- (all_links_eq o ls) in Hl; [| apply examined_b_spec; by apply (Hx self) | done]. apply list_elem_of_In, Hm in Hl.
    apply orb_true_iff in Hl as [?%Z.eqb_eq | ?%negb_true_iff]; [done | by apply Z.eqb_neq].
Qed.

(** Every link of a router-LSA satisfies [P]. *)
Definition links_b (P : router_lsa_link -> bool) (e : area_env) : bool :=
  bool_decide (map_Forall (fun _ o => negb (lo_type o =? OSPF_ROUTER_LSA) || forallb P (all_links o) = true) (lsas_of e)).

Lemma links_b_spec P e p o ls l : links_b P e = true -> lsas_of e !! p = Some o -> lsa_examined o -> lo_type o = OSPF_ROUTER_LSA -> lsa_links o ls -> l ∈ ls -> P l = true.
Proof.
  intros H%bool_decide_eq_true Eo Hx Ht Hls Hl. specialize (H p o Eo). cbv beta in H. rewrite Ht, Z.eqb_refl in H. cbn [negb orb] in H. rewrite forallb_forall in H.
  apply H, list_elem_of_In. by rewrite (all_links_eq o ls).
Qed.

Lemma tos_b_spec e self : env_ok e self -> links_b (fun l => tos_count l =? 0) e = true -> tos_free e.
Proof.
  intros ENV H p o Eo Ht ls Hls. rewrite list.Forall_forall. intros l Hl. apply Z.eqb_eq.
  eapply (links_b_spec (fun l => tos_count l =? 0)); [done | done | by eapply (eo_examined _ _ ENV) | done | done | done].
Qed.

Lemma positive_b_spec e vls self : env_ok e self -> links_b (fun l => 0 <? metric l) e = true -> positive_metrics e vls self.
Proof.
  intros ENV H u l w c [Hl _]. inversion Hl as [? o ls ? ? Eo Ht Hls Hin |]; subst. apply Z.ltb_lt.
  eapply (links_b_spec (fun l => 0 <? metric l)); [done | done | by eapply (eo_examined _ _ ENV) | done | done | done].
Qed.

Definition ifs_b (e : area_env) : bool :=
  forallb (fun oi => (family (if_connected oi) =? AF_INET) && ((0 <=? prefixlen (if_connected oi)) && (prefixlen (if_connected oi) <=? IPV4_MAX_PREFIXLEN))) (oiflist e).

Lemma ifs_b_spec e : ifs_b e = true -> ifs_ok e.
Proof.
  unfold ifs_b, ifs_ok. intros H. rewrite forallb_forall in H. rewrite list.Forall_forall. intros oi Hin. apply list_elem_of_In, H in Hin.
  apply andb_true_iff in Hin as [?%Z.eqb_eq [?%Z.leb_le ?%Z.leb_le]%andb_true_iff]. done.
Qed.

(** ** A concrete area *)

Definition ip4 (a b c d : Z) : Z := ((a * 256 + b) * 256 + c) * 256 + d.
Definition wire_link (ty id data m : Z) (tos : list Z) : list Z :=
  be_bytes 4 id ++ be_bytes 4 data ++ [ty; Z.of_nat (length tos) / 4] ++ be_bytes 2 m ++ tos.
Definition router_body (links : list (list Z)) : list Z := [0; 0] ++ be_bytes 2 (Z.of_nat (length links)) ++ concat links.
Definition network_body (mask : Z) (routers : list Z) : list Z := be_bytes 4 mask ++ concat (map (be_bytes 4) routers).
Definition object (ty id adv : Z) (body : list Z) : lsa_object :=
  mk_lsa_object (mk_lsa 0 (mk_header 1 2 ty id adv 1 0) 0 1 (-1)) (20 + Z.of_nat (length body)) body.

Definition r1 : Z := ip4 1 1 1 1.
Definition r2 : Z := ip4 2 2 2 2.
Definition r3 : Z := ip4 3 3 3 3.
Definition r4 : Z := ip4 4 4 4 4.
Definition mask24 : Z := ip4 255 255 255 0.
Definition mask30 : Z := ip4 255 255 255 252.
Definition net12 (h : Z) : Z := ip4 10 0 12 h.

Definition body1 : list Z := router_body
  [wire_link LSA_LINK_TYPE_TRANSIT (net12 2) (net12 1) 10 []; wire_link LSA_LINK_TYPE_POINTOPOINT r4 (ip4 10 0 14 1) 5 [];
   wire_link LSA_LINK_TYPE_STUB (ip4 10 0 14 0) mask30 5 []].
Definition body2 : list Z := router_body
  [wire_link LSA_LINK_TYPE_TRANSIT (net12 2) (net12 2) 10 []; wire_link LSA_LINK_TYPE_STUB (ip4 192 168 2 0) mask24 1 []].
Definition body3 : list Z := router_body
  [wire_link LSA_LINK_TYPE_TRANSIT (net12 2) (net12 3) 10 []; wire_link LSA_LINK_TYPE_POINTOPOINT r4 (ip4 10 0 34 1) 5 [];
   wire_link LSA_LINK_TYPE_STUB (ip4 192 168 9 0) mask24 1 []].
Definition body4 : list Z := router_body
  [wire_link LSA_LINK_TYPE_POINTOPOINT r1 (ip4 10 0 14 2) 5 []; wire_link LSA_LINK_TYPE_POINTOPOINT r3 (ip4 10 0 34 2) 5 [];
   wire_link LSA_LINK_TYPE_STUB (ip4 192 168 9 0) mask24 1 []].
Definition body12 : list Z := network_body mask24 [r1; r2; r3].

(** LSAs with their pointers, and the database that holds them. *)
Definition objects (bs : list (Z * Z * Z * list Z)) : gmap positive lsa_object :=
  list_to_map (imap (fun i '(ty, id, adv, body) => (Pos.of_succ_nat i, object ty id adv body)) bs).
Definition table_of (ty : Z) (bs : list (Z * Z * Z * list Z)) : gmap (Z * Z) positive :=
  list_to_map (omap (fun '(p, (t, id, adv, _)) => if t =? ty then Some ((id, adv), p) else None) (imap (fun i b => (Pos.of_succ_nat i, b)) bs)).
Definition database (bs : list (Z * Z * Z * list Z)) : ospf_lsdb :=
  mk_lsdb (mk_type 0 0 0 None :: map (fun ty => mk_type 0 0 0 (Some (table_of ty bs))) lsa_types) 0 false [].

Definition oi_lan : spf_if := mk_if 1 OSPF_IFTYPE_BROADCAST (ipv4_prefix (net12 1) 24) (ipv4_prefix (net12 1) 24) 2.
Definition oi_ptp : spf_if := mk_if 2 OSPF_IFTYPE_POINTOPOINT (ipv4_prefix (ip4 10 0 14 1) 30) (ipv4_prefix (ip4 10 0 14 1) 30) 3.

Definition area_of (bs : list (Z * Z * Z * list Z)) : area_env := mk_env (objects bs) (database bs) 0 (Some 1%positive) 0 0 true true [oi_lan; oi_ptp].

Definition lsas1 : list (Z * Z * Z * list Z) :=
  [(OSPF_ROUTER_LSA, r1, r1, body1); (OSPF_ROUTER_LSA, r2, r2, body2); (OSPF_ROUTER_LSA, r3, r3, body3); (OSPF_ROUTER_LSA, r4, r4, body4);
   (OSPF_NETWORK_LSA, net12 2, r2, body12)].
Definition area1 : area_env := area_of lsas1.

(** Nothing allocated, empty tables. *)
Definition state0 : spf := mk_spf ∅ ∅ [] 2 ∅ 1 NULL false 0 0 0 0 ∅ ∅ [] [].

(** Router 3.3.3.3 without its link to the network: instead, the TOS metrics of a stub link have the bytes of such a link. *)
Definition body3_tos : list Z := router_body
  [wire_link LSA_LINK_TYPE_STUB (ip4 192 168 9 0) mask24 1 (wire_link LSA_LINK_TYPE_TRANSIT (net12 2) (net12 3) 10 []);
   wire_link LSA_LINK_TYPE_STUB (ip4 192 168 8 0) mask24 1 []].
Definition area_tos : area_env := area_of
  [(OSPF_ROUTER_LSA, r1, r1, body1); (OSPF_ROUTER_LSA, r2, r2, body2); (OSPF_ROUTER_LSA, r3, r3, body3_tos); (OSPF_ROUTER_LSA, r4, r4, body4);
   (OSPF_NETWORK_LSA, net12 2, r2, body12)].

(** The link of the calculating router to the network has metric 0. *)
Definition body1_zero : list Z := router_body [wire_link LSA_LINK_TYPE_TRANSIT (net12 2) (net12 1) 0 []].
Definition area_zero : area_env := area_of
  [(OSPF_ROUTER_LSA, r1, r1, body1_zero); (OSPF_ROUTER_LSA, r2, r2, body2); (OSPF_NETWORK_LSA, net12 2, r2, body12)].

(** A link state update of 56 bytes that holds one router-LSA; its [length] says 28 bytes, four of them for a link. *)
Definition short_update : list Z :=
  [2; 4; 0; 56] ++ be_bytes 4 r2 ++ be_bytes 4 0 ++ [0; 0; 0; 0] ++ replicate 8 0 ++ be_bytes 4 1 ++
  ([0; 1; 2; 1] ++ be_bytes 4 r2 ++ be_bytes 4 r2 ++ be_bytes 4 1 ++ [0; 0; 0; 28]) ++ [0; 0; 0; 1] ++ be_bytes 4 r1.
