(* ===== verification/OspfSpfClaims.v ===== *)
(** * Properties of the shortest path calculation

    The theorems on [ospf_spf_calculate], its schedule and the examination of packets, with instances on the area of
    OspfSpfExample. *)

From S2P Require Import Prelude Prefix Pqueue PqueueProofs OspfLsdb OspfNeighbor OspfLsaWire OspfLsaProofs OspfSpfTypes OspfRoute OspfSpf.
From S2P Require Import OspfSpfNexthop OspfSpfInv OspfSpfLoop OspfSpfHeap OspfSpfTable OspfSpfStubs OspfSpfFree.
From S2P Require Import OspfSpfCalculate OspfSpfTimer OspfSpfExample.
Local Open Scope Z_scope.

(** ** The tree *)

(** C8: on a well formed database ([env_ok]: the LSAs passed [ospf_lsa_examin] and are in the table of their type under their key, the
    router's own LSA among them; the metrics of the router's own links other than stub links are not 0; the number of LSAs times 65535 is
    below 2^31), with fresh pointers for what it allocates, an interface for every approved virtual link and routes whose origin is a live
    LSA, the first stage of [ospf_spf_calculate] returns; it marks exactly the LSAs that can be reached from the router's own LSA, and gives
    each a vertex whose distance is the least cost of a path to it (RFC 2328 16.1, Dijkstra's algorithm). Examination alone is not enough:
    with an own metric of 0 the calculation aborts (theorem [spf_examined_lsas_fault]). *)
Theorem spf_shortest_paths e self s :
  env_ok e self -> start_ok s -> vls_ok (vlinks s) -> origins_ok e s ->
  exists s' vx, spf_tree e self s = Ok s' /\ vx !! self = Some (root s') /\ forall p : lsa_ptr,
    match (vx : gmap positive positive) !! p with
    | Some x => exists v, vertices s' !! x = Some v /\ v_lsa v = p /\ stat s' !! p = Some LSA_SPF_IN_SPFTREE /\
                  path e (vlinks s) self p (distance v) /\ forall d, path e (vlinks s) self p d -> distance v <= d
    | None => (forall d, ~ path e (vlinks s) self p d) /\ (known e p -> stat s' !! p = Some LSA_SPF_NOT_EXPLORED)
    end.
Proof.
  intros ENV START VLS ORG. destruct (spf_tree_Ok e self ENV s START VLS ORG) as (T & vx & s' & q & E & I & EMPTY & _).
  exists s', vx. split; [done |]. split; [apply (iv_root I) |]. intros p. destruct (vx !! p) as [x |] eqn:Ex.
  - destruct (inv_vtx _ _ _ _ _ _ _ _ _ _ I Ex) as (v & Ev & Evt & El). exists v.
    split_and!; [done | done | apply (iv_tree I); by eapply all_in_tree | by eapply tree_distance | by eapply tree_distance].
  - split; [| intros Hk; by apply (iv_unexplored I)]. intros d Hd. destruct (path_tree _ _ _ _ _ _ _ I EMPTY p d Hd) as (v & _ & (x & Ex' & _)%vtx_Some & _). congruence.
Qed.

Lemma area1_ok : env_ok area1 1.
Proof. apply env_b_spec. vm_compute. reflexivity. Qed.
Lemma area1_ifs : ifs_ok area1.
Proof. apply ifs_b_spec. vm_compute. reflexivity. Qed.
Lemma area1_tos : tos_free area1.
Proof. apply (tos_b_spec area1 1 area1_ok). vm_compute. reflexivity. Qed.
Lemma state0_ok : start_ok state0.
Proof. split; cbn; [intros x v H; by rewrite lookup_empty in H | intros i H; set_solver]. Qed.
Lemma state0_origins e : origins_ok e state0.
Proof. intros k r H. cbn in H. by rewrite lookup_empty in H. Qed.
Lemma state0_vls : vls_ok (vlinks state0).
Proof. constructor. Qed.

Lemma spf_shortest_paths_witness : exists s' vx, spf_tree area1 1 state0 = Ok s' /\ (vx : gmap positive positive) !! 1%positive = Some (root s').
Proof.
  destruct (spf_shortest_paths area1 1 state0 area1_ok state0_ok state0_vls (state0_origins _)) as (s' & vx & E & Hr & _). eauto.
Defined.

(** C10: on a well formed database ([env_ok], as for the distances), when every usable link from a router costs more than 0
    ([positive_metrics]), the parents of a vertex carry the next hops of all shortest paths to it and no others. They are given by
    [spf_hop]: over a link of the calculating router, the interface that answers for the link's address and the address on the first link
    back that fits it ([first_hop], by the kinds of links: network, point-to-multipoint, point-to-point, virtual); over a network attached
    to it, the address on each link of the destination to the network; otherwise the next hops of the vertex before. This is the code's
    rule: for a point-to-multipoint interface RFC 2328 16.1.1 takes every link back, the code the first. *)
Theorem spf_nexthops_exact e self s :
  env_ok e self -> start_ok s -> vls_ok (vlinks s) -> origins_ok e s -> positive_metrics e (vlinks s) self ->
  exists s' vx, spf_tree e self s = Ok s' /\ (forall p, is_Some ((vx : gmap positive positive) !! p) <-> exists d, path e (vlinks s) self p d) /\
    forall p x, p <> self -> vx !! p = Some x -> exists v, vertices s' !! x = Some v /\ v_lsa v = p /\ parents v <> [] /\
      forall h, (exists vp, vp ∈ parents v /\ hop_of vp = h) <-> spf_hop e (vlinks s) self p h.
Proof.
  intros ENV START VLS ORG POS. destruct (spf_tree_Ok e self ENV s START VLS ORG) as (T & vx & s' & q & E & I & EMPTY & HP & _).
  exists s', vx. split; [done |]. split.
  - intros p. rewrite <- (tree_reachable _ _ _ _ _ _ _ I EMPTY). split; [intros [x Ex]; by eapply all_in_tree | intros Hp; by apply (iv_tree I)].
  - intros p x Hp Ex. destruct (inv_vtx _ _ _ _ _ _ _ _ _ _ I Ex) as (v & Ev & Evt & El). exists v. split_and!; [done | done | by eapply (iv_nonempty I) |].
    intros h. exact (parents_spf_hop e (vlinks s) self ENV T vx s' q I EMPTY HP POS p v h Hp Evt).
Qed.

Lemma spf_nexthops_exact_witness : exists s' vx, spf_tree area1 1 state0 = Ok s' /\
  (forall p, is_Some ((vx : gmap positive positive) !! p) <-> exists d, path area1 (vlinks state0) 1 p d).
Proof.
  destruct (spf_nexthops_exact area1 1 state0 area1_ok state0_ok state0_vls (state0_origins _)) as (s' & vx & E & Hr & _); [| eauto].
  apply (positive_b_spec area1 _ 1 area1_ok). vm_compute. reflexivity.
Defined.

(** ** The routes *)

(** C9: on a well formed database ([env_ok]: the LSAs passed [ospf_lsa_examin] and are in the table of their type under their key, the
    router's own LSA among them; the metrics of the router's own links other than stub links are not 0; the number of LSAs times 65535 is
    below 2^31) whose router-LSAs have no TOS metrics ([tos_free]), with IPv4 addresses on the interfaces and well formed pointers, virtual
    links and routes before, the whole calculation returns (no read outside an LSA, no failed assertion, no next hop freed twice), and its
    table has a route to exactly the prefixes that are transit networks or stub networks of the area, at the least cost over all of them;
    except where the table had a route before, or the prefix is a host address of this router. The conditions on metrics are needed: theorem
    [spf_examined_lsas_fault] has examined LSAs without them on which the calculation fails. *)
Theorem spf_routes_least_cost e self s :
  env_ok e self -> ifs_ok e -> tos_free e -> router_lsa_self e = Some self -> start_ok s -> vls_ok (vlinks s) -> origins_ok e s ->
  exists s', ospf_spf_calculate e s = Ok s' /\ forall k, new_table s !! k = None -> ~ own_address e k ->
    match new_table s' !! k with
    | Some r => intra_cost e (vlinks s) self k (r_cost r) /\ forall c, intra_cost e (vlinks s) self k c -> r_cost r <= c
    | None => forall c, ~ intra_cost e (vlinks s) self k c
    end.
Proof.
  intros ENV IFS TOS SELF START VLS ORG. destruct (calculate_Ok e self ENV IFS TOS SELF s START VLS ORG) as (s' & E & _ & _ & _ & L).
  exists s'. split; [done |]. intros k H1 H2. exact (L k (conj H1 H2)).
Qed.

(** The stub network 192.168.9.0/24 of two routers: 6 through the nearer one. *)
Lemma spf_routes_least_cost_witness : exists r, intra_cost area1 [] 1 (ip4 192 168 9 0, 24) (r_cost r) /\ r_cost r = 6 /\
  forall c, intra_cost area1 [] 1 (ip4 192 168 9 0, 24) c -> 6 <= c.
Proof.
  destruct (spf_routes_least_cost area1 1 state0 area1_ok area1_ifs area1_tos eq_refl state0_ok state0_vls (state0_origins _)) as (s' & E & H).
  specialize (H (ip4 192 168 9 0, 24) eq_refl). assert (~ own_address area1 (ip4 192 168 9 0, 24)) as Ho by (intros [Hl _]; discriminate Hl). specialize (H Ho).
  destruct (new_table s' !! (ip4 192 168 9 0, 24)) as [r |] eqn:Er.
  - exists r. assert (r_cost r = 6) as Hc.
    { assert (match ospf_spf_calculate area1 state0 with Ok s => r_cost <$> new_table s !! (ip4 192 168 9 0, 24) | _ => None end = Some 6) as Hx by (vm_compute; reflexivity).
      rewrite E, Er in Hx. cbn in Hx. by injection Hx. }
    rewrite <- Hc. destruct H. split_and!; done.
  - assert (match ospf_spf_calculate area1 state0 with Ok s => r_cost <$> new_table s !! (ip4 192 168 9 0, 24) | _ => None end = Some 6) as Hx by (vm_compute; reflexivity).
    rewrite E, Er in Hx. discriminate Hx.
Defined.

(** [ospf_spf_calculate] keeps the state well formed: the pointers it will allocate stay fresh, approved virtual
    links have an interface, and every route's origin is an LSA of the router. *)
Theorem spf_calculate_wf e self s s' :
  env_ok e self -> ifs_ok e -> tos_free e -> router_lsa_self e = Some self -> start_ok s -> vls_ok (vlinks s) -> origins_ok e s ->
  ospf_spf_calculate e s = Ok s' -> start_ok s' /\ vls_ok (vlinks s') /\ origins_ok e s'.
Proof.
  intros ENV IFS TOS SELF START VLS ORG E. destruct (calculate_Ok e self ENV IFS TOS SELF s START VLS ORG) as (s2 & E2 & H1 & H2 & H3 & _). rewrite E in E2. by injection E2 as <-.
Qed.

Lemma spf_calculate_wf_witness : exists s', ospf_spf_calculate area1 state0 = Ok s' /\ start_ok s'.
Proof.
  destruct (ospf_spf_calculate area1 state0) as [s' | |] eqn:E; [| vm_compute in E; discriminate E | vm_compute in E; discriminate E].
  exists s'. split; [reflexivity |]. exact (proj1 (spf_calculate_wf area1 1 state0 s' area1_ok area1_ifs area1_tos eq_refl state0_ok state0_vls (state0_origins _) E)).
Defined.

(** ** All areas, over time *)

(** C27: the intra-area part of [ospf_spf_calculate_timer] returns for any number of areas, over one set of LSAs, whose databases are well
    formed ([env_ok]: the LSAs passed [ospf_lsa_examin] and are in the table of their type under their key, the router's own LSA among them;
    the metrics of the router's own links other than stub links are not 0; the number of LSAs times 65535 is below 2^31), whose router-LSAs
    have no TOS metrics ([tos_free]) and whose interfaces have IPv4 addresses; an area without an own LSA is passed over. Virtual links are
    unapproved first, so that every one that is approved when the backbone is calculated got an interface from an area calculated before.
    Examined LSAs alone are not enough ([spf_examined_lsas_fault]). *)
Theorem spf_timer_safe lsas areas s :
  Forall (fun e => lsas_of e = lsas /\ ifs_ok e /\ tos_free e /\ forall self, router_lsa_self e = Some self -> env_ok e self) areas -> start_ok s ->
  exists s', spf_calculate_timer areas s = Ok s' /\ start_ok s'.
Proof. apply spf_timer_Ok. Qed.

Lemma spf_timer_safe_witness : exists s', spf_calculate_timer [area1; area1] state0 = Ok s' /\ start_ok s'.
Proof.
  assert (lsas_of area1 = lsas_of area1 /\ ifs_ok area1 /\ tos_free area1 /\ forall self, router_lsa_self area1 = Some self -> env_ok area1 self) as H.
  { split; [reflexivity |]. split; [exact area1_ifs |]. split; [exact area1_tos |]. intros self Hs. injection Hs as <-. exact area1_ok. }
  apply (spf_timer_safe (lsas_of area1)); [| exact state0_ok]. constructor; [exact H | constructor; [exact H | constructor]].
Defined.

(** C28: [ospf_spf_calculate_schedule] spaces the calculations: in every run of the router, a calculation starts
    at least the hold time (or its maximum, where smaller) after the one before, and a calculation that is asked for
    is not put off longer than the larger of the initial delay and the maximum hold time. *)
Theorem spf_backoff delay hold max t0 r :
  0 <= delay < 2 ^ 32 -> 0 <= hold -> 0 <= max -> hold + max < 2 ^ 32 -> 0 <= t0 < 2 ^ 63 ->
  rtc run_step (first_run t0 delay hold max) r ->
  1000 * Z.min hold max <= last_wait r /\
  forall d, due r = Some d -> ts_spf (sched r) + 1000 * Z.min hold max <= d <= clock r + 1000 * Z.max delay max.
Proof.
  intros HD HH HM HF HT HR. pose proof (spaced_runs_ok delay hold max HD HH HM HF t0 r HT HR) as R. split; [apply (ro_last _ _ _ _ R) | apply (ro_due _ _ _ _ R)].
Qed.

(** With the default times: asked for 100 ms after a calculation, it starts 900 ms later. *)
Lemma spf_backoff_witness : exists r, rtc run_step (first_run 0 200 1000 10000) r /\ due r = Some 1000000 /\
  1000 * Z.min 1000 10000 <= last_wait r.
Proof.
  set (a := mk_run 100000 None (sched (first_run 0 200 1000 10000)) 10000000).
  set (b := mk_run 100000 (Some 1000000) (ospf_spf_calculate_schedule 100000 (sched a)) 10000000).
  assert (rtc run_step (first_run 0 200 1000 10000) b) as H.
  { apply (rtc_l _ _ a); [apply (run_tick (first_run 0 200 1000 10000) 100000); [cbn; lia | intros d Hd; discriminate Hd] |].
    apply (rtc_l _ _ b); [apply (run_schedule a _ eq_refl) | apply rtc_refl]. }
  exists b. split; [exact H |]. split; [reflexivity |].
  destruct (spf_backoff 200 1000 10000 0 b ltac:(lia) ltac:(lia) ltac:(lia) ltac:(lia) ltac:(lia) H) as [Hl _]. exact Hl.
Defined.

(** ** Examination of packets *)

(** C29: [ospf_packet_examin] returns a verdict on every packet, and never reads more than nine bytes beyond the
    bytes received; and it does read beyond them: the length of the last link of a router-LSA is read before it is known to be there. *)
Theorem ospf_packet_examin_bounds :
  (forall b n, bytes_ok b -> 0 <= n -> n + 9 <= Z.of_nat (length b) -> exists r, ospf_packet_examin b n = Ok r) /\
  (exists b, bytes_ok b /\ ospf_packet_examin b (Z.of_nat (length b)) = Oob).
Proof.
  split; [| exists short_update; split; [vm_compute; repeat constructor; discriminate | reflexivity]].
  intros b n Hb Hn Hlen. unfold ospf_packet_examin, OSPF_HEADER_SIZE. destruct (Z.ltb_spec n 24) as [| H24]; [eauto |].
  destruct (getn_exists 1 b 0) as [ver ->]; [lia | lia |]. cbn [mbind res_bind]. destruct (negb _); [eauto |].
  destruct (getn_exists 2 b 2) as [decl Ed]; [lia | lia |]. rewrite Ed. pose proof (getn_range _ _ _ _ Hb Ed) as Hd.
  destruct (getn_exists 2 b 14) as [at_ ->]; [lia | lia |]. destruct (getn_exists 1 b 19) as [al ->]; [lia | lia |]. cbn [mbind res_bind].
  destruct (_ && _); [eauto |]. set (auth := if _ =? _ then _ else _). assert (0 <= auth) as Ha by (unfold auth, OSPF_AUTH_MD5_SIZE; destruct (_ =? _); lia).
  destruct (Z.gtb_spec (decl + auth) n) as [| Hle]; [eauto |]. destruct (getn_exists 1 b 1) as [ty Et]; [lia | lia |]. rewrite Et. cbn [mbind res_bind].
  destruct (_ && _ && _) eqn:Hmin; [eauto |]. destruct (Z.eqb_spec ty OSPF_MSG_HELLO) as [-> | _]; [eauto |].
  assert (forall m, ty = m -> OSPF_MSG_HELLO <= m <= OSPF_MSG_LS_ACK -> 24 + byte_at ospf_packet_minlen m <= decl) as Hm.
  { intros m -> Hr. rewrite (proj2 (Z.leb_le _ _)), (proj2 (Z.leb_le _ _)) in Hmin by lia. cbn [andb] in Hmin. by apply Z.ltb_ge in Hmin. }
  assert (forall ho off m, 0 <= m -> off = 24 + m -> 24 + m <= decl -> forall num, exists r, ospf_lsaseq_examin b off (u32 (decl - 24 - m)) ho num = Ok r) as Hseq.
  { intros ho off m Hm0 -> Hm1 num. unfold ospf_lsaseq_examin. assert (u32 (decl - 24 - m) = decl - 24 - m) as -> by (apply wrap_small; unfold in_u; lia).
    apply lsaseq_examin_safe; try done; unfold slack; lia. }
  destruct (Z.eqb_spec ty OSPF_MSG_DB_DESC) as [Hty | _]; [apply (Hseq true); try done; apply (Hm _ Hty); done |].
  destruct (Z.eqb_spec ty OSPF_MSG_LS_REQ) as [_ | _]; [eauto |].
  destruct (Z.eqb_spec ty OSPF_MSG_LS_UPD) as [Hty | _].
  { pose proof (Hm _ Hty ltac:(done)) as H4. change (byte_at ospf_packet_minlen OSPF_MSG_LS_UPD) with 4 in H4.
    destruct (getn_exists 4 b 24) as [num ->]; [lia | lia |]. cbn [mbind res_bind]. by apply (Hseq false). }
  destruct (Z.eqb_spec ty OSPF_MSG_LS_ACK) as [Hty | _]; [apply (Hseq true); try done; apply (Hm _ Hty); done | eauto].
Qed.

(** ** Where it goes wrong *)

(** A stub network of the calculating router itself loses its route when the table has a dearer one
    (from another area, or as a transit network): the cost is lowered, but the paths are replaced by those of the root vertex,
    which has none, and [ospf_prune_unreachable_networks] then deletes the route. *)
Theorem spf_own_stub_unreachable e l v s p cur :
  is_Some (lsas_of e !! v_lsa v) -> parents v = [] -> masked_prefix (link_id l) (link_data l) = Ok p ->
  new_table s !! table_key p = Some cur -> u32 (distance v + metric l) < r_cost cur ->
  exists s' r, ospf_intra_add_stub e l v true false s = Ok s' /\ new_table s' !! table_key p = Some r /\ r_cost r = u32 (distance v + metric l) /\
    ospf_prune_unreachable_networks (new_table s') !! table_key p = None.
Proof.
  intros [o Eo] Hp Ep Ec Hlt. unfold ospf_intra_add_stub, vertex_obj, get_obj. rewrite Eo, Ep. cbn [mbind res_bind andb]. rewrite Ec.
  destruct (Z.gtb_spec (u32 (distance v + metric l)) (r_cost cur)); [lia |]. rewrite (proj2 (Z.eqb_neq _ _)) by lia. eexists _, _. split; [done |].
  cbn [new_table set_table]. rewrite lookup_insert_eq. split; [done |]. split; [done |].
  unfold ospf_prune_unreachable_networks. rewrite map_lookup_filter_None. right. intros r. rewrite lookup_insert_eq. intros [= <-]. cbn. by rewrite Hp.
Qed.

(** In the area above, with a route of cost 20 to the network of the point-to-point link from another area. *)
Definition state_dear : spf := set_table {[(ip4 10 0 14 0, 30) := mk_route 2 r4 1 [mk_path 0 0 9] 20 1 7 0 0 0]} state0.

Lemma spf_own_stub_unreachable_witness : exists s' r,
  ospf_intra_add_stub area1 (mk_link 48 (ip4 10 0 14 0) mask30 LSA_LINK_TYPE_STUB 0 5) (bare 1 (object OSPF_ROUTER_LSA r1 r1 body1)) true false state_dear = Ok s' /\
  new_table s' !! (ip4 10 0 14 0, 30) = Some r /\ r_cost r = 5 /\ ospf_prune_unreachable_networks (new_table s') !! (ip4 10 0 14 0, 30) = None.
Proof.
  destruct (spf_own_stub_unreachable area1 (mk_link 48 (ip4 10 0 14 0) mask30 LSA_LINK_TYPE_STUB 0 5) (bare 1 (object OSPF_ROUTER_LSA r1 r1 body1)) state_dear
    (ipv4_prefix (ip4 10 0 14 0) 30) (mk_route 2 r4 1 [mk_path 0 0 9] 20 1 7 0 0 0)) as (s' & r & H).
  - eexists. reflexivity.
  - reflexivity.
  - reflexivity.
  - reflexivity.
  - reflexivity.
  - exists s', r. exact H.
Defined.

(** C39: two databases whose LSAs all passed [ospf_lsa_examin] make the calculation fail: one where the TOS metrics
    of a router-LSA are taken for a link back to a network by [ospf_lsa_has_link] and not by [ospf_get_next_link], so that a next hop is freed
    twice; and one where a link of the calculating router has metric 0, which fails the assertion of [ospf_spf_add_parent]. *)
Theorem spf_examined_lsas_fault :
  (env_ok area_tos 1 /\ ifs_ok area_tos /\ start_ok state0 /\ ospf_spf_calculate area_tos state0 = Oob) /\
  (map_Forall (fun _ o => lsa_examined o) (lsas_of area_zero) /\ ospf_spf_calculate area_zero state0 = Abort).
Proof.
  split_and!.
  - apply env_b_spec. vm_compute. reflexivity.
  - apply ifs_b_spec. vm_compute. reflexivity.
  - exact state0_ok.
  - vm_compute. reflexivity.
  - assert (map_Forall (fun _ o => examined_b o = true) (lsas_of area_zero)) as H by (apply (bool_decide_unpack _); vm_compute; exact Logic.I).
    intros p o Eo. apply examined_b_spec. exact (H p o Eo).
  - vm_compute. reflexivity.
Qed.
