(* ===== verification/DList.v ===== *)
(** * Doubly linked lists of C structures

    Structures that carry [next] and [prev] members are nodes of a heap: [body] holds their other
    members.  [link_next] and [link_prev] are the two conditional assignments C code makes around a node
    that it links or unlinks: [if (p) p->next = x; else list->head = x;] and its mirror image.  [dll h l xs]
    says that the list [l] links the nodes [xs] of [h], forwards and backwards; the lemmas say how
    the assignments change it, for any kind of structure. *)

From S2P Require Import Prelude.
Local Open Scope Z_scope.

Notation ptr := positive (only parsing).

Section DList.
Context {A : Type}.

Record node := mk_node { body : A; next : option ptr; prev : option ptr }.
Record dlist := mk_dlist { head : option ptr; tail : option ptr }.

Notation heap := (gmap positive node).

(** ** Operations *)

(** [*p], and the assignment to members of [*p]. *)
Definition get (h : heap) (p : ptr) : res node := match h !! p with Some n => Ok n | None => Oob end.
Definition upd (h : heap) (p : ptr) (f : node -> node) : res heap := n ← get h p; Ok (<[p := f n]> h).

Definition set_next (x : option ptr) (n : node) : node := mk_node (body n) x (prev n).
Definition set_prev (x : option ptr) (n : node) : node := mk_node (body n) (next n) x.
Definition set_body (f : A -> A) (n : node) : node := mk_node (f (body n)) (next n) (prev n).

(** [if (p) p->next = x; else list->head = x;] *)
Definition link_next (h : heap) (l : dlist) (p x : option ptr) : res (heap * dlist) :=
  match p with
  | Some p => h ← upd h p (set_next x); Ok (h, l)
  | None => Ok (h, mk_dlist x (tail l))
  end.
(** [if (x) x->prev = p; else list->tail = p;] *)
Definition link_prev (h : heap) (l : dlist) (x p : option ptr) : res (heap * dlist) :=
  match x with
  | Some x => h ← upd h x (set_prev p); Ok (h, l)
  | None => Ok (h, mk_dlist (head l) p)
  end.

(** ** Segments *)

Definition nxt (ys : list ptr) (q : option ptr) : option ptr := match ys with y :: _ => Some y | [] => q end.
Definition lst (xs : list ptr) (p : option ptr) : option ptr := match list.last xs with Some x => Some x | None => p end.

(** The nodes [xs] in a chain that comes from [p] and leads to [q]. *)
Fixpoint dseg (h : heap) (p : option ptr) (xs : list ptr) (q : option ptr) : Prop :=
  match xs with
  | [] => True
  | t :: r => (exists n, h !! t = Some n /\ prev n = p /\ next n = nxt r q) /\ dseg h (Some t) r q
  end.

(** [l] is the list of the nodes [xs]. *)
Record dll (h : heap) (l : dlist) (xs : list ptr) : Prop := {
  dl_nodup : NoDup xs;
  dl_head : head l = nxt xs None;
  dl_tail : tail l = lst xs None;
  dl_seg : dseg h None xs None }.

(** [h'] differs from [h] at most in the links of the nodes [xs]. *)
Definition relinked (h h' : heap) (xs : list ptr) : Prop :=
  (forall q, q ∉ xs -> h' !! q = h !! q) /\ (forall q, body <$> h' !! q = body <$> h !! q).

Lemma nd_lst_cons x xs p : lst (x :: xs) p = lst xs (Some x).
Proof. unfold lst. rewrite last_cons. by destruct (list.last xs). Qed.

Lemma lst_app xs ys p : lst (xs ++ ys) p = lst ys (lst xs p).
Proof. revert p. induction xs as [|x xs IH]; intros p; cbn; [done |]. by rewrite !nd_lst_cons. Qed.

Lemma nd_nxt_app xs ys q : nxt (xs ++ ys) q = nxt xs (nxt ys q).
Proof. by destruct xs. Qed.

Lemma nd_dseg_app h xs : forall p ys q, dseg h p (xs ++ ys) q <-> dseg h p xs (nxt ys q) /\ dseg h (lst xs p) ys q.
Proof.
  induction xs as [|x xs IH]; intros p ys q; cbn; [naive_solver |]. rewrite IH, nd_lst_cons, nd_nxt_app. naive_solver.
Qed.

Lemma nd_dseg_frame h h' xs : forall p q, (forall t, t ∈ xs -> h' !! t = h !! t) -> dseg h p xs q -> dseg h' p xs q.
Proof.
  induction xs as [|x xs IH]; intros p q Hf; cbn; [done |]. intros [(n & Hn & R) Hs]. split.
  - exists n. rewrite Hf by (by left). done.
  - apply IH; [| done]. intros t Ht. apply Hf. by right.
Qed.

Lemma nd_dseg_node h p xs1 t xs2 q :
  dseg h p (xs1 ++ t :: xs2) q -> exists n, h !! t = Some n /\ prev n = lst xs1 p /\ next n = nxt xs2 q.
Proof. rewrite nd_dseg_app. cbn. naive_solver. Qed.

(** Any map of the bodies keeps the chains. *)
Lemma dseg_body h t n f p xs q : h !! t = Some n -> dseg h p xs q -> dseg (<[t := set_body f n]> h) p xs q.
Proof.
  intros Hn. revert p. induction xs as [|x xs IH]; intros p; cbn; [done |]. intros [(n' & Hn' & Hp & Hx) Hs]. split; [| by apply IH].
  destruct (decide (x = t)) as [-> | Hne].
  - exists (set_body f n). rewrite lookup_insert_eq. simplify_eq. done.
  - exists n'. by rewrite lookup_insert_ne.
Qed.

Lemma nd_dll_frame h h' l xs : (forall t, t ∈ xs -> h' !! t = h !! t) -> dll h l xs -> dll h' l xs.
Proof. intros Hf [B C D E]. split; try done. by eapply nd_dseg_frame. Qed.

Lemma dll_body h t n f l xs : h !! t = Some n -> dll h l xs -> dll (<[t := set_body f n]> h) l xs.
Proof. intros Hn [B C D E]. split; try done. by apply dseg_body. Qed.

Lemma nd_dll_node h l xs t : dll h l xs -> t ∈ xs -> exists n, h !! t = Some n.
Proof.
  intros D Ht. apply list_elem_of_split in Ht as (xs1 & xs2 & ->).
  destruct (nd_dseg_node _ _ _ _ _ _ (dl_seg _ _ _ D)) as (n & Hn & _). eauto.
Qed.

Lemma dll_nil h : dll h (mk_dlist None None) [].
Proof. split; try done. constructor. Qed.

(** ** Assignments *)

Lemma nd_get_Ok h t n : h !! t = Some n -> get h t = Ok n.
Proof. intros H. unfold get. by rewrite H. Qed.

Lemma nd_upd_Ok h t n f : h !! t = Some n -> upd h t f = Ok (<[t := f n]> h).
Proof. intros H. unfold upd, get. by rewrite H. Qed.

Lemma nd_relinked_refl h xs : relinked h h xs.
Proof. done. Qed.

Lemma nd_relinked_trans h h1 h2 xs : relinked h h1 xs -> relinked h1 h2 xs -> relinked h h2 xs.
Proof. intros [A1 B1] [A2 B2]. split; intros q; [intros Hq; by rewrite A2, A1 | by rewrite B2, B1]. Qed.

Lemma relinked_sub h h' xs ys : (forall t, t ∈ xs -> t ∈ ys) -> relinked h h' xs -> relinked h h' ys.
Proof. intros S [A1 B1]. split; [| done]. intros q Hq. apply A1. auto. Qed.

Lemma nd_relinked_insert h xs t n n' : h !! t = Some n -> t ∈ xs -> body n' = body n -> relinked h (<[t := n']> h) xs.
Proof.
  intros Hn Ht Hp. split; intros q.
  - intros Hq. apply lookup_insert_ne. by intros <-.
  - destruct (decide (q = t)) as [-> | Hne]; [| by rewrite lookup_insert_ne]. rewrite lookup_insert_eq, Hn. cbn. by f_equal.
Qed.

(** The last node of a segment gets another successor. *)
Lemma link_next_spec h l xs q x :
  NoDup xs -> dseg h None xs q -> head l = nxt xs q ->
  exists h', link_next h l (lst xs None) x = Ok (h', mk_dlist (nxt xs x) (tail l)) /\ dseg h' None xs x /\ relinked h h' xs.
Proof.
  intros ND S Hh. destruct xs as [|y ys _] using rev_ind; [by exists h |].
  apply list.NoDup_app in ND as (N1 & N2 & _). rewrite lst_app. cbn.
  destruct (nd_dseg_node h None ys y [] q S) as (n & Hn & Hp & Hx). rewrite (nd_upd_Ok _ _ _ _ Hn). cbn.
  exists (<[y := set_next x n]> h). split_and!.
  - f_equal. f_equal. destruct l as [hd tl]. cbn in *. f_equal. rewrite Hh. by destruct ys.
  - apply nd_dseg_app in S as [S1 S2]. apply nd_dseg_app. cbn. split.
    + eapply nd_dseg_frame; [| exact S1]. intros t Ht. apply lookup_insert_ne. intros <-. apply (N2 y Ht). by left.
    + split; [| done]. exists (set_next x n). by rewrite lookup_insert_eq.
  - eapply nd_relinked_insert; [done | | done]. set_solver.
Qed.

(** The first node of a segment gets another predecessor. *)
Lemma link_prev_spec h l xs p p' :
  NoDup xs -> dseg h p xs None -> tail l = lst xs p ->
  exists h', link_prev h l (nxt xs None) p' = Ok (h', mk_dlist (head l) (lst xs p')) /\ dseg h' p' xs None /\ relinked h h' xs.
Proof.
  intros ND S Ht. destruct xs as [|y ys]; [by exists h |]. apply list.NoDup_cons in ND as [N1 N2].
  destruct S as [(n & Hn & Hp & Hx) S]. cbn. rewrite (nd_upd_Ok _ _ _ _ Hn). cbn.
  exists (<[y := set_prev p' n]> h). split_and!.
  - f_equal. f_equal. destruct l as [hd tl]. cbn in *. f_equal. by rewrite Ht, !nd_lst_cons.
  - exists (set_prev p' n). by rewrite lookup_insert_eq.
  - eapply nd_dseg_frame; [| exact S]. intros t Hin. apply lookup_insert_ne. by intros <-.
  - eapply nd_relinked_insert; [done | | done]. by left.
Qed.

(** ** Unlinking and linking a node *)

Lemma nodup_around {xs1 xs2 : list ptr} {t} : NoDup (xs1 ++ t :: xs2) ->
  NoDup xs1 /\ NoDup xs2 /\ t ∉ xs1 /\ t ∉ xs2 /\ (forall x, x ∈ xs1 -> x ∉ xs2) /\ NoDup (xs1 ++ xs2).
Proof.
  intros H. rewrite list.NoDup_app, list.NoDup_cons in H. destruct H as (N1 & N2 & N3 & N4). split_and!; try done.
  - intros Ht. apply (N2 t Ht). by left.
  - intros x Hx Hx2. apply (N2 x Hx). by right.
  - apply list.NoDup_app. split_and!; try done. intros x Hx Hx2. apply (N2 x Hx). by right.
Qed.

(** Both neighbours of a node are linked past it; the assignments commute. *)
Lemma dll_unlink h l xs1 t xs2 n :
  dll h l (xs1 ++ t :: xs2) -> h !! t = Some n ->
  exists h1 h', link_next h l (prev n) (next n) = Ok (h1, mk_dlist (nxt (xs1 ++ xs2) None) (tail l)) /\ h1 !! t = Some n /\
    link_prev h1 (mk_dlist (nxt (xs1 ++ xs2) None) (tail l)) (next n) (prev n) =
      Ok (h', mk_dlist (nxt (xs1 ++ xs2) None) (lst (xs1 ++ xs2) None)) /\
    dll h' (mk_dlist (nxt (xs1 ++ xs2) None) (lst (xs1 ++ xs2) None)) (xs1 ++ xs2) /\ relinked h h' (xs1 ++ xs2).
Proof.
  intros [ND Hh Ht S] Hn. destruct (nodup_around ND) as (N1 & N2 & T1 & T2 & Dj & N).
  destruct (nd_dseg_node _ _ _ _ _ _ S) as (n' & Hn' & Hp & Hx). simplify_eq. apply nd_dseg_app in S as [S1 [_ S2]].
  rewrite Hp, Hx, nd_nxt_app, lst_app. rewrite nd_nxt_app in Hh. rewrite lst_app, nd_lst_cons in Ht.
  destruct (link_next_spec h l xs1 _ (nxt xs2 None) N1 S1 Hh) as (h1 & E1 & D1 & R1).
  assert (dseg h1 (Some t) xs2 None) as S2'. { eapply nd_dseg_frame; [| exact S2]. intros x Hx2. apply R1. intros Hx1. by apply (Dj x). }
  destruct (link_prev_spec h1 (mk_dlist (nxt xs1 (nxt xs2 None)) (tail l)) xs2 _ (lst xs1 None) N2 S2' Ht) as (h2 & E2 & D2 & R2).
  exists h1, h2. split_and!; try done.
  - rewrite (proj1 R1); done.
  - split; [done | by rewrite nd_nxt_app | by rewrite lst_app |]. apply nd_dseg_app. split; [| done].
    eapply nd_dseg_frame; [| exact D1]. intros x Hx1. apply R2. by apply Dj.
  - eapply nd_relinked_trans; [eapply relinked_sub; [| exact R1] | eapply relinked_sub; [| exact R2]]; set_solver.
Qed.

Lemma dll_unlink_back h l xs1 t xs2 n :
  dll h l (xs1 ++ t :: xs2) -> h !! t = Some n ->
  exists h1 h', link_prev h l (next n) (prev n) = Ok (h1, mk_dlist (head l) (lst (xs1 ++ xs2) None)) /\ h1 !! t = Some n /\
    link_next h1 (mk_dlist (head l) (lst (xs1 ++ xs2) None)) (prev n) (next n) =
      Ok (h', mk_dlist (nxt (xs1 ++ xs2) None) (lst (xs1 ++ xs2) None)) /\
    dll h' (mk_dlist (nxt (xs1 ++ xs2) None) (lst (xs1 ++ xs2) None)) (xs1 ++ xs2) /\ relinked h h' (xs1 ++ xs2).
Proof.
  intros [ND Hh Ht S] Hn. destruct (nodup_around ND) as (N1 & N2 & T1 & T2 & Dj & N).
  destruct (nd_dseg_node _ _ _ _ _ _ S) as (n' & Hn' & Hp & Hx). simplify_eq. apply nd_dseg_app in S as [S1 [_ S2]].
  rewrite Hp, Hx, nd_nxt_app, lst_app. rewrite nd_nxt_app in Hh. rewrite lst_app, nd_lst_cons in Ht.
  destruct (link_prev_spec h l xs2 _ (lst xs1 None) N2 S2 Ht) as (h1 & E1 & D1 & R1).
  assert (dseg h1 None xs1 (Some t)) as S1'. { eapply nd_dseg_frame; [| exact S1]. intros x Hx2. apply R1. by apply Dj. }
  destruct (link_next_spec h1 (mk_dlist (head l) (lst xs2 (lst xs1 None))) xs1 _ (nxt xs2 None) N1 S1' Hh) as (h2 & E2 & D2 & R2).
  exists h1, h2. split_and!; try done.
  - rewrite (proj1 R1); done.
  - split; [done | by rewrite nd_nxt_app | by rewrite lst_app |]. apply nd_dseg_app. split; [done |].
    eapply nd_dseg_frame; [| exact D1]. intros x Hx1. apply R2. intros Hx2. by apply (Dj x).
  - eapply nd_relinked_trans; [eapply relinked_sub; [| exact R1] | eapply relinked_sub; [| exact R2]]; set_solver.
Qed.

(** A node [t] that points at both its neighbours becomes one of the list when they point at it: the
    links of [xs1] and [xs2] are those that [link_next] and [link_prev] leave. *)
Lemma dll_join h xs1 t xs2 n :
  NoDup (xs1 ++ t :: xs2) -> dseg h None xs1 (Some t) -> dseg h (Some t) xs2 None ->
  h !! t = Some n -> prev n = lst xs1 None -> next n = nxt xs2 None ->
  dll h (mk_dlist (nxt (xs1 ++ t :: xs2) None) (lst (xs1 ++ t :: xs2) None)) (xs1 ++ t :: xs2).
Proof. intros ND S1 S2 Hn Hp Hx. split; [done.. |]. apply nd_dseg_app. split; [done |]. cbn. split; [by exists n | done]. Qed.

(** [link_before h l point t]: [t] becomes the node before [point], the last one when there is no [point]. *)
Definition link_before (h : heap) (l : dlist) (point : option ptr) (t : ptr) : res (heap * dlist) :=
  h ← upd h t (set_next point);
  match point with
  | Some pt =>
      pn ← get h pt;
      '(h, l) ← link_next h l (prev pn) (Some t);
      pn ← get h pt;
      h ← upd h t (set_prev (prev pn));
      h ← upd h pt (set_prev (Some t));
      Ok (h, l)
  | None =>
      '(h, l) ← link_next h l (tail l) (Some t);
      h ← upd h t (set_prev (tail l));
      Ok (h, mk_dlist (head l) (Some t))
  end.

Lemma link_before_spec h l xs1 xs2 t n :
  dll h l (xs1 ++ xs2) -> t ∉ xs1 ++ xs2 -> h !! t = Some n ->
  exists h', link_before h l (nxt xs2 None) t =
      Ok (h', mk_dlist (nxt (xs1 ++ t :: xs2) None) (lst (xs1 ++ t :: xs2) None)) /\
    dll h' (mk_dlist (nxt (xs1 ++ t :: xs2) None) (lst (xs1 ++ t :: xs2) None)) (xs1 ++ t :: xs2) /\
    relinked h h' (t :: xs1 ++ xs2).
Proof.
  intros [ND Hh Htl S] Ht Hn. assert (NoDup (xs1 ++ t :: xs2)) as ND'. { rewrite <- Permutation_middle. by constructor. }
  destruct (nodup_around ND') as (N1 & N2 & T1 & T2 & Dj & _). apply nd_dseg_app in S as [S1 S2]. rewrite nd_nxt_app in Hh. rewrite lst_app in Htl.
  unfold link_before. rewrite (nd_upd_Ok _ _ _ _ Hn). cbn [mbind res_bind]. set (h1 := <[t := _]> h).
  assert (relinked h h1 (t :: xs1 ++ xs2)) as R1 by (by eapply nd_relinked_insert; [done | left |]).
  assert (forall x, x <> t -> h1 !! x = h !! x) as F1 by (intros x Hx; by apply lookup_insert_ne).
  assert (dseg h1 None xs1 (nxt xs2 None)) as S1' by (eapply nd_dseg_frame; [| exact S1]; intros x Hx; apply F1; by intros ->).
  destruct (link_next_spec h1 l xs1 _ (Some t) N1 S1' Hh) as (h2 & E2 & D2 & R2).
  assert (h2 !! t = Some (set_next (nxt xs2 None) n)) as Hn2 by (rewrite (proj1 R2) by done; apply lookup_insert_eq).
  assert (dseg h2 (lst xs1 None) xs2 None) as S2'.
  { eapply nd_dseg_frame; [| exact S2]. intros x Hx. rewrite (proj1 R2), F1; [done | by intros -> | intros Hx1; by apply (Dj x)]. }
  assert (relinked h h2 (t :: xs1 ++ xs2)) as R3 by (eapply nd_relinked_trans; [exact R1 |]; eapply relinked_sub; [| exact R2]; set_solver).
  assert (nxt (xs1 ++ t :: xs2) None = nxt xs1 (Some t)) as Hnx by apply nd_nxt_app.
  destruct xs2 as [|y ys]; cbn [nxt].
  - cbn in Htl. rewrite Htl, E2. cbn [mbind res_bind tail head]. rewrite (nd_upd_Ok _ _ _ _ Hn2). cbn [mbind res_bind].
    rewrite Htl. eexists. split; [rewrite lst_app, Hnx; reflexivity |]. split.
    + eapply dll_join; [done | | done | apply lookup_insert_eq | done | done].
      eapply nd_dseg_frame; [| exact D2]. intros x Hx. apply lookup_insert_ne. by intros <-.
    + eapply nd_relinked_trans; [exact R3 |]. eapply nd_relinked_insert; [done | by left | done].
  - destruct S2 as [(yn & Hy & Hyp & _) _]. assert (y <> t) as Hyt by (intros ->; apply T2; by left).
    rewrite (nd_get_Ok _ _ yn) by (by rewrite F1). cbn [mbind res_bind]. rewrite Hyp, E2. cbn [mbind res_bind].
    assert (h2 !! y = Some yn) as Hy2. { rewrite (proj1 R2), F1; [done | done |]. intros Hy1. apply (Dj y Hy1). by left. }
    rewrite (nd_get_Ok _ _ _ Hy2). cbn [mbind res_bind]. rewrite Hyp, (nd_upd_Ok _ _ _ _ Hn2). cbn [mbind res_bind].
    rewrite (nd_upd_Ok _ y yn) by (by rewrite lookup_insert_ne). cbn [mbind res_bind].
    eexists. split; [rewrite nd_lst_cons in Htl; rewrite lst_app, Hnx, !nd_lst_cons, <- Htl; reflexivity |]. split.
    + eapply (dll_join _ xs1 t (y :: ys) (set_prev (lst xs1 None) (set_next (Some y) n))); [done | | | | done | done].
      * eapply nd_dseg_frame; [| exact D2]. intros x Hx. assert (x <> y) by (intros ->; apply (Dj y Hx); by left).
        rewrite !lookup_insert_ne; [done | by intros <- | by intros <-].
      * destruct S2' as [(n2 & Hn2' & _ & Hx2) S2']. apply list.NoDup_cons in N2 as [N2 _]. split.
        -- exists (set_prev (Some t) yn). rewrite lookup_insert_eq. simplify_eq. done.
        -- eapply nd_dseg_frame; [| exact S2']. intros x Hx. rewrite !lookup_insert_ne; [done | |]; intros <-; [| done]. apply T2. by right.
      * rewrite lookup_insert_ne by done. apply lookup_insert_eq.
    + eapply nd_relinked_trans; [exact R3 |]. eapply nd_relinked_trans; [eapply (nd_relinked_insert h2 _ t _ (set_prev (lst xs1 None) (set_next (Some y) n))); [exact Hn2 | by left | done] |].
      eapply (nd_relinked_insert _ _ y yn); [by rewrite lookup_insert_ne | set_solver | done].
Qed.

(** ** Walks *)

(** The nodes from [p] on, with their bodies. *)
Fixpoint walk (fuel : nat) (h : heap) (p : option ptr) : res (list (ptr * A)) :=
  match p with
  | None => Ok []
  | Some t => match fuel with
              | O => Oob
              | S f => n ← get h t; r ← walk f h (next n); Ok ((t, body n) :: r)
              end
  end.
Definition walk_fuel (h : heap) : nat := S (size h).

(** The bodies of the nodes [xs] are [bs]. *)
Definition bodies (h : heap) (xs : list ptr) (bs : list A) : Prop :=
  Forall2 (fun t b => body <$> h !! t = Some b) xs bs.

Lemma dseg_bodies h xs : forall p q, dseg h p xs q -> exists bs, bodies h xs bs.
Proof.
  induction xs as [|x xs IH]; intros p q; cbn; [exists []; constructor |]. intros [(n & Hn & _) S].
  destruct (IH _ _ S) as (bs & Hb). exists (body n :: bs). constructor; [by rewrite Hn | done].
Qed.

Lemma bodies_frame h h' xs bs : (forall t, t ∈ xs -> body <$> h' !! t = body <$> h !! t) -> bodies h xs bs -> bodies h' xs bs.
Proof.
  intros Hf H. induction H as [|t b xs bs Hb H IH]; constructor.
  - rewrite Hf by (by left). done.
  - apply IH. intros x Hx. apply Hf. by right.
Qed.

Lemma bodies_relinked h h' ys xs bs : relinked h h' ys -> bodies h xs bs -> bodies h' xs bs.
Proof. intros [_ R]. apply bodies_frame. intros t _. apply R. Qed.

Lemma walk_spec h xs bs : forall p fuel, dseg h p xs None -> bodies h xs bs -> (length xs < fuel)%nat ->
  walk fuel h (nxt xs None) = Ok (zip xs bs).
Proof.
  intros p fuel S H. revert p fuel S. induction H as [|t b xs bs Hb H IH]; intros p fuel S Hf.
  - by destruct fuel.
  - destruct fuel as [|f]; [lia |]. destruct S as [(n & Hn & _ & Hx) S]. cbn. rewrite (nd_get_Ok _ _ _ Hn). cbn. rewrite Hx.
    cbn in Hf. rewrite (IH _ _ S) by lia. cbn. rewrite Hn in Hb. cbn in Hb. by simplify_eq.
Qed.

Lemma dll_size h l xs : dll h l xs -> (length xs < walk_fuel h)%nat.
Proof.
  intros D. unfold walk_fuel. rewrite <- (size_dom (D := gset positive)). assert (size (list_to_set xs : gset positive) = length xs) as <-.
  { apply size_list_to_set, (dl_nodup _ _ _ D). }
  enough (size (list_to_set xs : gset positive) <= size (dom h))%nat by lia. apply subseteq_size.
  intros t Ht. apply elem_of_list_to_set in Ht. apply elem_of_dom. destruct (nd_dll_node _ _ _ _ D Ht) as (n & ->). done.
Qed.

Lemma dll_walk h l xs bs : dll h l xs -> bodies h xs bs -> walk (walk_fuel h) h (head l) = Ok (zip xs bs).
Proof.
  intros D B. rewrite (dl_head _ _ _ D). eapply walk_spec; [apply (dl_seg _ _ _ D) | done |]. by eapply dll_size.
Qed.

(** [for (x = p; x; x = x->next) if (f x) break;] *)
Fixpoint find_node (fuel : nat) (h : heap) (p : option ptr) (f : A -> bool) : res (option ptr) :=
  match p with
  | None => Ok None
  | Some t => match fuel with
              | O => Oob
              | S fu => n ← get h t; if f (body n) then Ok (Some t) else find_node fu h (next n) f
              end
  end.

Lemma find_node_spec h xs bs f : forall p fuel, dseg h p xs None -> bodies h xs bs -> (length xs < fuel)%nat ->
  find_node fuel h (nxt xs None) f = Ok (fst <$> List.find (fun x => f x.2) (zip xs bs)).
Proof.
  intros p fuel S H. revert p fuel S. induction H as [|t b xs bs Hb H IH]; intros p fuel S Hf.
  - by destruct fuel.
  - destruct fuel as [|fu]; [lia |]. destruct S as [(n & Hn & _ & Hx) S]. cbn. rewrite (nd_get_Ok _ _ _ Hn). cbn. rewrite Hx.
    rewrite Hn in Hb. cbn in Hb. simplify_eq. destruct (f (body n)); [done |]. cbn in Hf. apply (IH _ _ S). lia.
Qed.

Lemma dll_find h l xs bs f : dll h l xs -> bodies h xs bs ->
  find_node (walk_fuel h) h (head l) f = Ok (fst <$> List.find (fun x => f x.2) (zip xs bs)).
Proof.
  intros D B. rewrite (dl_head _ _ _ D). eapply find_node_spec; [apply (dl_seg _ _ _ D) | done |]. by eapply dll_size.
Qed.

End DList.
Arguments node : clear implicits.
