(* ===== verification/Plist.v ===== *)
(** * lib/plist.c: prefix lists

    A prefix list is a named, ordered list of rules that permit or deny prefixes; every daemon filters
    routes with [prefix_list_apply].  Three masters keep the lists of IPv4, of IPv6, and those that BGP
    neighbours send as outbound route filters; a master has one linked list of prefix lists with
    numbers for names and one of the others, and a prefix list links its entries in the order of their
    sequence numbers.  The structures live in two heaps, of entries and of prefix lists, as nodes of
    the file DList; freeing removes them, and following a dangling pointer is [Oob].  Messages to the
    terminal are left out: a command returns its code.  The hooks of a master are numbers, and [called] records
    their calls with the argument. *)

From S2P Require Import Prelude CString Prefix Inet PrefixText DList.
Local Open Scope Z_scope.

Notation ptr := positive (only parsing).

(** ** Data *)

Definition AFI_ORF_PREFIX : Z := 65535.
Definition CMD_SUCCESS : Z := 0.
Definition CMD_WARNING : Z := 1.

Inductive prefix_list_type := PREFIX_DENY | PREFIX_PERMIT.
Inductive prefix_name_type := PREFIX_TYPE_STRING | PREFIX_TYPE_NUMBER.
Global Instance prefix_list_type_eq_dec : EqDecision prefix_list_type.
Proof. solve_decision. Defined.
Global Instance prefix_name_type_eq_dec : EqDecision prefix_name_type.
Proof. solve_decision. Defined.

(** The addresses of the three static masters. *)
Inductive master_id := prefix_master_ipv4 | prefix_master_ipv6 | prefix_master_orf.
Global Instance master_id_eq_dec : EqDecision master_id.
Proof. solve_decision. Defined.

(** [struct prefix_list_entry] without its links. *)
Record entry := mk_entry {
  e_seq : Z; e_le : Z; e_ge : Z; e_type : prefix_list_type; e_any : Z; e_prefix : prefix; refcnt : Z; hitcnt : Z }.

(** [struct prefix_list] without its links; [entries] holds [head] and [tail]. *)
Record plist := mk_plist {
  name : string; desc : option string; pl_master : master_id; pl_type : prefix_name_type;
  count : Z; rangecount : Z; entries : dlist }.

Record prefix_master := mk_master {
  num : dlist; str : dlist; seqnum : Z; recent : option ptr; add_hook : option Z; delete_hook : option Z }.

(** The whole state of the file. *)
Record plists := mk_plists {
  emem : gmap positive (node entry); lmem : gmap positive (node plist);
  masters : master_id -> prefix_master; called : list (Z * option ptr) }.

Definition empty_list : dlist := mk_dlist None None.
Definition master_init : prefix_master := mk_master empty_list empty_list 1 None None None.
Definition plists_init : plists := mk_plists ∅ ∅ (fun _ => master_init) [].

(** Assignments. *)
Definition set_emem h s := mk_plists h (lmem s) (masters s) (called s).
Definition set_lmem h s := mk_plists (emem s) h (masters s) (called s).
Definition upd_master m f s :=
  mk_plists (emem s) (lmem s) (fun k => if decide (k = m) then f (masters s k) else masters s k) (called s).
Definition set_recent p m := mk_master (num m) (str m) (seqnum m) p (add_hook m) (delete_hook m).
Definition set_seqnum n m := mk_master (num m) (str m) n (recent m) (add_hook m) (delete_hook m).
Definition set_num l m := mk_master l (str m) (seqnum m) (recent m) (add_hook m) (delete_hook m).
Definition set_str l m := mk_master (num m) l (seqnum m) (recent m) (add_hook m) (delete_hook m).
Definition set_add_hook f m := mk_master (num m) (str m) (seqnum m) (recent m) f (delete_hook m).
Definition set_delete_hook f m := mk_master (num m) (str m) (seqnum m) (recent m) (add_hook m) f.
(** [&master->num] or [&master->str], read and written. *)
Definition sub_list (k : prefix_name_type) (m : prefix_master) : dlist :=
  match k with PREFIX_TYPE_NUMBER => num m | PREFIX_TYPE_STRING => str m end.
Definition set_sub_list (k : prefix_name_type) (l : dlist) (m : prefix_master) : prefix_master :=
  match k with PREFIX_TYPE_NUMBER => set_num l m | PREFIX_TYPE_STRING => set_str l m end.
Definition set_entries l p := mk_plist (name p) (desc p) (pl_master p) (pl_type p) (count p) (rangecount p) l.
Definition set_count c p := mk_plist (name p) (desc p) (pl_master p) (pl_type p) c (rangecount p) (entries p).
Definition set_desc d p := mk_plist (name p) d (pl_master p) (pl_type p) (count p) (rangecount p) (entries p).
Definition set_seq n e := mk_entry n (e_le e) (e_ge e) (e_type e) (e_any e) (e_prefix e) (refcnt e) (hitcnt e).
Definition set_refcnt n e := mk_entry (e_seq e) (e_le e) (e_ge e) (e_type e) (e_any e) (e_prefix e) n (hitcnt e).
Definition set_hitcnt n e := mk_entry (e_seq e) (e_le e) (e_ge e) (e_type e) (e_any e) (e_prefix e) (refcnt e) n.

Definition call_hook (f : option Z) (arg : option ptr) (s : plists) : plists :=
  match f with
  | Some f => mk_plists (emem s) (lmem s) (masters s) (called s ++ [(f, arg)])
  | None => s
  end.

Definition upd_plist (s : plists) (p : ptr) (f : plist -> plist) : res plists :=
  h ← upd (lmem s) p (set_body f); Ok (set_lmem h s).
Definition get_plist (s : plists) (p : ptr) : res plist := n ← get (lmem s) p; Ok (body n).

(** [for (x = list->head; x; x = x->next) if (f x) break;] over prefix lists and over the entries of one. *)
Definition find_list (s : plists) (l : dlist) (f : plist -> bool) : res (option ptr) :=
  find_node (walk_fuel (lmem s)) (lmem s) (head l) f.
Definition find_entry (s : plists) (plist : ptr) (f : entry -> bool) : res (option ptr) :=
  pl ← get_plist s plist; find_node (walk_fuel (emem s)) (emem s) (head (entries pl)) f.

(** ** Prefix lists of a master *)

Definition prefix_master_get (afi : Z) : option master_id :=
  if afi =? AFI_IP then Some prefix_master_ipv4
  else if afi =? AFI_IP6 then Some prefix_master_ipv6
  else if afi =? AFI_ORF_PREFIX then Some prefix_master_orf
  else None.

Definition prefix_list_lookup (s : plists) (afi : Z) (nm : option string) : res (option ptr) :=
  match nm, prefix_master_get afi with
  | None, _ => Ok None
  | _, None => Ok None
  | Some nm, Some m =>
      let same p := strcmp (name p) nm =? 0 in
      r ← find_list s (num (masters s m)) same;
      match r with
      | Some p => Ok (Some p)
      | None => find_list s (str (masters s m)) same
      end
  end.

Definition LONG_MAX : Z := 2 ^ 63 - 1.
Definition INT_MAX : Z := 2 ^ 31 - 1.

(** The loop over the characters of the name: the number, and whether it ran to the end. *)
Fixpoint name_number (number : Z) (s : string) : res (Z * bool) :=
  match s with
  | EmptyString => Ok (number, true)
  | String c s' =>
      if isdigit c then
        let number := number * 10 + (code c - 48) in
        if number >? LONG_MAX then Oob else name_number number s'
      else Ok (number, false)
  end.

(** The four cases in which [prefix_list_insert] links the new list. *)
Definition link_list (h : gmap positive (node plist)) (list : dlist) (point : option ptr) (p : ptr) :
    res (gmap positive (node plist) * dlist) :=
  match head list, point with
  | None, _ => Ok (h, mk_dlist (Some p) (Some p))
  | Some _, None =>
      h ← upd h p (set_prev (tail list));
      match tail list with
      | Some t => h ← upd h t (set_next (Some p)); Ok (h, mk_dlist (head list) (Some p))
      | None => Oob
      end
  | Some hd, Some pt =>
      if decide (pt = hd) then
        h ← upd h p (set_next (Some hd));
        h ← upd h hd (set_prev (Some p));
        Ok (h, mk_dlist (Some p) (tail list))
      else
        h ← upd h p (set_next (Some pt));
        pn ← get h pt;
        h ← upd h p (set_prev (prev pn));
        h ← match prev pn with Some q => upd h q (set_next (Some p)) | None => Ok h end;
        h ← upd h pt (set_prev (Some p));
        Ok (h, list)
  end.

Definition prefix_list_insert (s : plists) (afi : Z) (nm : string) : res (plists * option ptr) :=
  match prefix_master_get afi with
  | None => Ok (s, None)
  | Some m =>
      let plist := fresh (dom (lmem s) : gset positive) in
      nd ← name_number 0 nm;
      let number : Z := fst nd in let digits : bool := snd nd in
      let type := if digits then PREFIX_TYPE_NUMBER else PREFIX_TYPE_STRING in
      let s := set_lmem (<[plist := mk_node (mk_plist nm None m type 0 0 empty_list) None None]> (lmem s)) s in
      let list := sub_list type (masters s m) in
      point ← find_list s list (fun p => if digits then number <=? atoi (name p) else 0 <=? strcmp (name p) nm);
      '(h, list) ← link_list (lmem s) list point plist;
      Ok (upd_master m (set_sub_list type list) (set_lmem h s), Some plist)
  end.

Definition prefix_list_get (s : plists) (afi : Z) (nm : string) : res (plists * option ptr) :=
  r ← prefix_list_lookup s afi (Some nm);
  match r with
  | Some p => Ok (s, Some p)
  | None => prefix_list_insert s afi nm
  end.

(** The loop that frees the entries. *)
Fixpoint free_entries (fuel : nat) (h : gmap positive (node entry)) (pentry : option ptr) (cnt : Z) :
    res (gmap positive (node entry) * Z) :=
  match pentry with
  | None => Ok (h, cnt)
  | Some t => match fuel with
              | O => Oob
              | S f => n ← get h t; free_entries f (delete t h) (next n) (cnt - 1)
              end
  end.

Definition prefix_list_delete (s : plists) (plist : ptr) : res plists :=
  pl ← get_plist s plist;
  '(h, cnt) ← free_entries (walk_fuel (emem s)) (emem s) (head (entries pl)) (count pl);
  s ← upd_plist (set_emem h s) plist (set_count cnt);
  let m := pl_master pl in
  let list := sub_list (pl_type pl) (masters s m) in
  n ← get (lmem s) plist;
  '(h, list) ← link_prev (lmem s) list (next n) (prev n);
  n ← get h plist;
  '(h, list) ← link_next h list (prev n) (next n);
  let s := upd_master m (fun k => set_recent None (set_sub_list (pl_type pl) list k)) (set_lmem h s) in
  let s := set_lmem (delete plist (lmem s)) s in
  Ok (call_hook (delete_hook (masters s m)) None s).

(** [prefix_list_add_hook], [prefix_list_delete_hook] *)
Definition prefix_list_add_hook (s : plists) (f : option Z) : plists :=
  upd_master prefix_master_ipv6 (set_add_hook f) (upd_master prefix_master_ipv4 (set_add_hook f) s).
Definition prefix_list_delete_hook (s : plists) (f : option Z) : plists :=
  upd_master prefix_master_ipv6 (set_delete_hook f) (upd_master prefix_master_ipv4 (set_delete_hook f) s).

(** ** Entries of a prefix list *)

Definition entry_zero : entry := mk_entry 0 0 0 PREFIX_DENY 0 prefix_new 0 0.

(** [prefix_list_entry_make]; the address of a new entry is the first unused one. *)
Definition prefix_list_entry_make (s : plists) (p : prefix) (type : prefix_list_type) (seq le ge any : Z) : res (plists * ptr) :=
  let pentry := fresh (dom (emem s) : gset positive) in
  pfx ← prefix_copy (e_prefix entry_zero) p;
  let e := mk_entry seq le ge type (if any =? 0 then e_any entry_zero else 1) pfx (refcnt entry_zero) (hitcnt entry_zero) in
  Ok (set_emem (<[pentry := mk_node e None None]> (emem s)) s, pentry).

Definition prefix_list_entry_free (s : plists) (pentry : ptr) : plists := set_emem (delete pentry (emem s)) s.

(** The loop of [prefix_new_seq_get]. *)
Fixpoint max_seq (fuel : nat) (h : gmap positive (node entry)) (pentry : option ptr) (maxseq : Z) : res Z :=
  match pentry with
  | None => Ok maxseq
  | Some t => match fuel with
              | O => Oob
              | S f => n ← get h t; max_seq f h (next n) (if maxseq <? e_seq (body n) then e_seq (body n) else maxseq)
              end
  end.

Definition prefix_new_seq_get (s : plists) (plist : ptr) : res Z :=
  pl ← get_plist s plist;
  maxseq ← max_seq (walk_fuel (emem s)) (emem s) (head (entries pl)) 0;
  let newseq := maxseq / 5 * 5 + 5 in
  if newseq >? INT_MAX then Oob else Ok newseq.

Definition prefix_seq_check (s : plists) (plist : ptr) (seq : Z) : res (option ptr) :=
  find_entry s plist (fun e => e_seq e =? seq).

Definition prefix_list_entry_lookup (s : plists) (plist : ptr) (p : prefix) (type : prefix_list_type) (seq le ge : Z) : res (option ptr) :=
  find_entry s plist (fun e =>
    prefix_same (e_prefix e) p && bool_decide (e_type e = type) &&
    negb ((0 <=? seq) && negb (e_seq e =? seq)) && (e_le e =? le) && (e_ge e =? ge)).

Definition is_null (p : option ptr) : bool := match p with None => true | Some _ => false end.

Definition prefix_list_entry_delete (s : plists) (plist pentry : option ptr) (update_list : bool) : res plists :=
  match plist, pentry with
  | Some plist, Some pentry =>
      pl ← get_plist s plist;
      n ← get (emem s) pentry;
      '(h, l) ← link_next (emem s) (entries pl) (prev n) (next n);
      n ← get h pentry;
      '(h, l) ← link_prev h l (next n) (prev n);
      s ← upd_plist (prefix_list_entry_free (set_emem h s) pentry) plist (fun p => set_count (count p - 1) (set_entries l p));
      if update_list then
        pl ← get_plist s plist;
        let s := call_hook (delete_hook (masters s (pl_master pl))) (Some plist) s in
        if is_null (head (entries pl)) && is_null (tail (entries pl)) && bool_decide (desc pl = None)
        then prefix_list_delete s plist
        else Ok (upd_master (pl_master pl) (set_recent (Some plist)) s)
      else Ok s
  | _, _ => Ok s
  end.

Definition prefix_list_entry_add (s : plists) (plist pentry : ptr) : res plists :=
  n ← get (emem s) pentry;
  s ← (if e_seq (body n) =? -1 then
         newseq ← prefix_new_seq_get s plist;
         h ← upd (emem s) pentry (set_body (set_seq newseq)); Ok (set_emem h s)
       else Ok s);
  n ← get (emem s) pentry;
  let seq := e_seq (body n) in
  replace ← prefix_seq_check s plist seq;
  s ← prefix_list_entry_delete s (Some plist) replace false;
  point ← find_entry s plist (fun e => seq <=? e_seq e);
  pl ← get_plist s plist;
  '(h, l) ← link_before (emem s) (entries pl) point pentry;
  s ← upd_plist (set_emem h s) plist (fun p => set_count (count p + 1) (set_entries l p));
  pl ← get_plist s plist;
  let s := call_hook (add_hook (masters s (pl_master pl))) (Some plist) s in
  Ok (upd_master (pl_master pl) (set_recent (Some plist)) s).

Definition prefix_list_entry_match (e : entry) (p : prefix) : bool :=
  if negb (prefix_match (e_prefix e) p) then false
  else if (e_le e =? 0) && (e_ge e =? 0) then prefixlen (e_prefix e) =? prefixlen p
  else if negb (e_le e =? 0) && (prefixlen p >? e_le e) then false
  else if negb (e_ge e =? 0) && (prefixlen p <? e_ge e) then false
  else true.

(** The loop of [prefix_list_apply]. *)
Fixpoint apply_loop (fuel : nat) (h : gmap positive (node entry)) (pentry : option ptr) (p : prefix) :
    res (gmap positive (node entry) * prefix_list_type) :=
  match pentry with
  | None => Ok (h, PREFIX_DENY)
  | Some t =>
      match fuel with
      | O => Oob
      | S f =>
          h ← upd h t (set_body (fun e => set_refcnt (u64 (refcnt e + 1)) e));
          n ← get h t;
          if prefix_list_entry_match (body n) p then
            h ← upd h t (set_body (fun e => set_hitcnt (u64 (hitcnt e + 1)) e));
            Ok (h, e_type (body n))
          else apply_loop f h (next n) p
      end
  end.

Definition prefix_list_apply (s : plists) (plist : option ptr) (p : prefix) : res (plists * prefix_list_type) :=
  match plist with
  | None => Ok (s, PREFIX_DENY)
  | Some plist =>
      pl ← get_plist s plist;
      if count pl =? 0 then Ok (s, PREFIX_PERMIT)
      else
        '(h, ty) ← apply_loop (walk_fuel (emem s)) (emem s) (head (entries pl)) p;
        Ok (set_emem h s, ty)
  end.

Definition prefix_entry_dup_check (s : plists) (plist new : ptr) : res (option ptr) :=
  n ← get (emem s) new;
  let e := body n in
  seq ← (if e_seq e =? -1 then prefix_new_seq_get s plist else Ok (e_seq e));
  find_entry s plist (fun o =>
    prefix_same (e_prefix o) (e_prefix e) && bool_decide (e_type o = e_type e) && (e_le o =? e_le e) &&
    (e_ge o =? e_ge e) && negb (e_seq o =? seq)).
