(* ===== verification/PlistCmd.v ===== *)
(** * lib/plist.c: the commands on prefix lists, and route filters of BGP neighbours

    [vty_prefix_list_install] and [vty_prefix_list_uninstall] are the bodies of all the [ip prefix-list] and
    [no ip prefix-list] commands; the text of addresses is read through the interface of Inet.  A [struct prefix p] on
    the stack starts with unknown contents, the argument [junk].  An [atoi] that [int] does not hold wraps around as
    [(int) strtol (...)] does.  [prefix_bgp_orf_set] and [prefix_bgp_orf_remove_all] are what bgpd calls when a neighbour
    sends filters. *)

From S2P Require Import Prelude CString Prefix Inet PrefixText Stream DList Plist.
Local Open Scope Z_scope.

Definition atoi_int (s : string) : Z := signed 32 (atoi s).
Definition opt_atoi (s : option string) (default : Z) : Z := match s with Some s => atoi_int s | None => default end.

(** [strncmp ("permit", typestr, 1)] and [strncmp ("deny", typestr, 1)] *)
Definition filter_type (typestr : string) : option prefix_list_type :=
  if strncmp "permit" typestr 1 =? 0 then Some PREFIX_PERMIT
  else if strncmp "deny" typestr 1 =? 0 then Some PREFIX_DENY
  else None.

(** The checks of [ge] and [le] against the length of the prefix. *)
Definition invalid_range (plen ge le : Z) : bool :=
  (negb (ge =? 0) && (ge <=? plen)) || (negb (le =? 0) && (le <=? plen)) || (negb (le =? 0) && (ge >? le)).
(** [if (genum && lenum == (afi == AFI_IP ? 32 : 128)) lenum = 0;] *)
Definition normal_le (afi ge le : Z) : Z :=
  if negb (ge =? 0) && (le =? (if afi =? AFI_IP then 32 else 128)) then 0 else le.

Section Text.
Context `{InetText}.

(** The prefix argument of a command: [(ret, p, genum, lenum, any)]. *)
Definition prefix_arg (afi : Z) (prefix : string) (junk : Prefix.prefix) (genum lenum : Z) : Z * Prefix.prefix * Z * Z * Z :=
  let any := strncmp "any" prefix (String.length prefix) =? 0 in
  if afi =? AFI_IP then
    if any then let '(ret, p) := str2prefix_ipv4 "0.0.0.0/0" junk in (ret, p, 0, IPV4_MAX_BITLEN, 1)
    else let '(ret, p) := str2prefix_ipv4 prefix junk in (ret, p, genum, lenum, 0)
  else if afi =? AFI_IP6 then
    if any then let '(ret, p) := str2prefix_ipv6 "::/0" junk in (ret, p, 0, IPV6_MAX_BITLEN, 1)
    else let '(ret, p) := str2prefix_ipv6 prefix junk in (ret, p, genum, lenum, 0)
  else (1, junk, genum, lenum, 0).

(** The part of [vty_prefix_list_install] after the arguments are read. *)
Definition install_entry (s : plists) (afi : Z) (nm : string) (type : prefix_list_type) (p : prefix) (seqnum genum lenum any : Z) :
    res (plists * Z) :=
  if invalid_range (prefixlen p) genum lenum then Ok (s, CMD_WARNING)
  else
    let lenum := normal_le afi genum lenum in
    '(s, plist) ← prefix_list_get s afi nm;
    '(s, pentry) ← prefix_list_entry_make s p type seqnum lenum genum any;
    match plist with
    | None => Oob
    | Some plist =>
        dup ← prefix_entry_dup_check s plist pentry;
        match dup with
        | Some _ => Ok (prefix_list_entry_free s pentry, CMD_WARNING)
        | None => s ← prefix_list_entry_add s plist pentry; Ok (s, CMD_SUCCESS)
        end
    end.

Definition vty_prefix_list_install (s : plists) (afi : Z) (nm : string) (seq : option string) (typestr prefix : string)
    (ge le : option string) (junk : Prefix.prefix) : res (plists * Z) :=
  let seqnum := opt_atoi seq (-1) in
  let genum := opt_atoi ge 0 in
  let lenum := opt_atoi le 0 in
  match filter_type typestr with
  | None => Ok (s, CMD_WARNING)
  | Some type =>
      let '(ret, p, genum, lenum, any) := prefix_arg afi prefix junk genum lenum in
      if ret <=? 0 then Ok (s, CMD_WARNING)
      else install_entry s afi nm type p seqnum genum lenum any
  end.

Definition vty_prefix_list_uninstall (s : plists) (afi : Z) (nm : string) (seq typestr prefix ge le : option string)
    (junk : Prefix.prefix) : res (plists * Z) :=
  plist ← prefix_list_lookup s afi (Some nm);
  match plist with
  | None => Ok (s, CMD_WARNING)
  | Some plist =>
      match seq, typestr, prefix, ge, le with
      | None, None, None, None, None => s ← prefix_list_delete s plist; Ok (s, CMD_SUCCESS)
      | _, Some typestr, Some prefix, _, _ =>
          let seqnum := opt_atoi seq (-1) in
          let genum := opt_atoi ge 0 in
          let lenum := opt_atoi le 0 in
          match filter_type typestr with
          | None => Ok (s, CMD_WARNING)
          | Some type =>
              let '(ret, p, genum, lenum, _) := prefix_arg afi prefix junk genum lenum in
              if ret <=? 0 then Ok (s, CMD_WARNING)
              else
                pentry ← prefix_list_entry_lookup s plist p type seqnum lenum genum;
                match pentry with
                | None => Ok (s, CMD_WARNING)
                | Some pentry => s ← prefix_list_entry_delete s (Some plist) (Some pentry) true; Ok (s, CMD_SUCCESS)
                end
          end
      | _, _, _, _, _ => Ok (s, CMD_WARNING)
      end
  end.

(** [for (pentry = plist->head; ...) if (f pentry) pentry->hitcnt = 0;] *)
Fixpoint clear_hits (fuel : nat) (h : gmap positive (node entry)) (pentry : option ptr) (f : entry -> bool) : res (gmap positive (node entry)) :=
  match pentry with
  | None => Ok h
  | Some t =>
      match fuel with
      | O => Oob
      | S fu =>
          n ← get h t;
          h ← (if f (body n) then upd h t (set_body (set_hitcnt 0)) else Ok h);
          clear_hits fu h (next n) f
      end
  end.
Definition clear_list (s : plists) (plist : ptr) (f : entry -> bool) : res plists :=
  pl ← get_plist s plist;
  h ← clear_hits (walk_fuel (emem s)) (emem s) (head (entries pl)) f;
  Ok (set_emem h s).
(** The same for every prefix list from [plist] on. *)
Fixpoint clear_lists (fuel : nat) (s : plists) (plist : option ptr) : res plists :=
  match plist with
  | None => Ok s
  | Some p => match fuel with
              | O => Oob
              | S fu => n ← get (lmem s) p; s ← clear_list s p (fun _ => true); clear_lists fu s (next n)
              end
  end.

Definition vty_clear_prefix_list (s : plists) (afi : Z) (nm prefix : option string) (junk : Prefix.prefix) : res (plists * Z) :=
  match prefix_master_get afi with
  | None => Ok (s, CMD_WARNING)
  | Some m =>
      match nm, prefix with
      | None, None =>
          s ← clear_lists (walk_fuel (lmem s)) s (head (num (masters s m)));
          s ← clear_lists (walk_fuel (lmem s)) s (head (str (masters s m)));
          Ok (s, CMD_SUCCESS)
      | _, _ =>
          plist ← prefix_list_lookup s afi nm;
          match plist with
          | None => Ok (s, CMD_WARNING)
          | Some plist =>
              match prefix with
              | Some prefix =>
                  let '(ret, p) := str2prefix prefix junk in
                  if ret <=? 0 then Ok (s, CMD_WARNING)
                  else s ← clear_list s plist (fun e => prefix_match (e_prefix e) p); Ok (s, CMD_SUCCESS)
              | None => s ← clear_list s plist (fun _ => true); Ok (s, CMD_SUCCESS)
              end
          end
      end
  end.

End Text.

(** [ip prefix-list WORD description .LINE]: [line] is what [argv_concat] returns. *)
Definition ip_prefix_list_description (s : plists) (afi : Z) (nm : string) (line : option string) : res (plists * Z) :=
  '(s, plist) ← prefix_list_get s afi nm;
  match plist with
  | None => Oob
  | Some plist => s ← upd_plist s plist (fun p => set_desc line (set_desc None p)); Ok (s, CMD_SUCCESS)
  end.

Definition vty_prefix_list_desc_unset (s : plists) (afi : Z) (nm : string) : res (plists * Z) :=
  plist ← prefix_list_lookup s afi (Some nm);
  match plist with
  | None => Ok (s, CMD_WARNING)
  | Some plist =>
      s ← upd_plist s plist (set_desc None);
      pl ← get_plist s plist;
      if is_null (head (entries pl)) && is_null (tail (entries pl)) && bool_decide (desc pl = None)
      then s ← prefix_list_delete s plist; Ok (s, CMD_SUCCESS)
      else Ok (s, CMD_SUCCESS)
  end.

(** [ip prefix-list sequence-number] and its negation *)
Definition ip_prefix_list_sequence_number (s : plists) (m : master_id) (n : Z) : plists := upd_master m (set_seqnum n) s.

(** ** Resetting *)

(** [for (plist = list->head; plist; plist = next) { next = plist->next; prefix_list_delete (plist); }] *)
Fixpoint delete_lists (fuel : nat) (s : plists) (plist : option ptr) : res plists :=
  match plist with
  | None => Ok s
  | Some p => match fuel with
              | O => Oob
              | S f => n ← get (lmem s) p; s ← prefix_list_delete s p; delete_lists f s (next n)
              end
  end.

(** [prefix_list_reset_ipv4], [prefix_list_reset_ipv6], [prefix_list_reset_orf] *)
Definition prefix_list_reset_master (s : plists) (m : master_id) : res plists :=
  s ← delete_lists (walk_fuel (lmem s)) s (head (num (masters s m)));
  s ← delete_lists (walk_fuel (lmem s)) s (head (str (masters s m)));
  _ ← c_assert (is_null (head (num (masters s m))));
  _ ← c_assert (is_null (tail (num (masters s m))));
  _ ← c_assert (is_null (head (str (masters s m))));
  _ ← c_assert (is_null (tail (str (masters s m))));
  Ok (upd_master m (fun k => set_recent None (set_seqnum 1 k)) s).

Definition prefix_list_reset (s : plists) : res plists :=
  s ← prefix_list_reset_master s prefix_master_ipv4;
  s ← prefix_list_reset_master s prefix_master_ipv6;
  prefix_list_reset_master s prefix_master_orf.

(** ** Route filters of neighbours *)

Record orf_prefix := mk_orf { o_seq : Z; o_ge : Z; o_le : Z; o_p : prefix }.

Definition prefix_bgp_orf_set (s : plists) (nm : string) (afi : Z) (orfp : orf_prefix) (permit set : bool) : res (plists * Z) :=
  if invalid_range (prefixlen (o_p orfp)) (o_ge orfp) (o_le orfp) then Ok (s, CMD_WARNING)
  else
    let le := normal_le afi (o_ge orfp) (o_le orfp) in
    let type := if permit then PREFIX_PERMIT else PREFIX_DENY in
    '(s, plist) ← prefix_list_get s AFI_ORF_PREFIX nm;
    match plist with
    | None => Ok (s, CMD_WARNING)
    | Some plist =>
        if set then
          '(s, pentry) ← prefix_list_entry_make s (o_p orfp) type (signed 32 (o_seq orfp)) le (o_ge orfp) 0;
          dup ← prefix_entry_dup_check s plist pentry;
          match dup with
          | Some _ => Ok (prefix_list_entry_free s pentry, CMD_WARNING)
          | None => s ← prefix_list_entry_add s plist pentry; Ok (s, CMD_SUCCESS)
          end
        else
          pentry ← prefix_list_entry_lookup s plist (o_p orfp) type (signed 32 (o_seq orfp)) le (o_ge orfp);
          match pentry with
          | None => Ok (s, CMD_WARNING)
          | Some pentry => s ← prefix_list_entry_delete s (Some plist) (Some pentry) true; Ok (s, CMD_SUCCESS)
          end
    end.

Definition prefix_bgp_orf_remove_all (s : plists) (nm : string) : res plists :=
  plist ← prefix_list_lookup s AFI_ORF_PREFIX (Some nm);
  match plist with
  | Some plist => prefix_list_delete s plist
  | None => Ok s
  end.

(** [prefix_bgp_show_prefix_list] without a terminal: the number of entries *)
Definition prefix_bgp_orf_count (s : plists) (nm : string) : res Z :=
  plist ← prefix_list_lookup s AFI_ORF_PREFIX (Some nm);
  match plist with
  | Some plist => pl ← get_plist s plist; Ok (count pl)
  | None => Ok 0
  end.

(** [prefix_bgp_orf_entry]: the entries of a list as the body of a route refresh message. *)
Definition orf_flag (e : entry) (init_flag permit_flag deny_flag : Z) : Z :=
  Z.lor init_flag (match e_type e with PREFIX_PERMIT => permit_flag | PREFIX_DENY => deny_flag end).

Fixpoint orf_entries (fuel : nat) (h : gmap positive (node entry)) (st : stream) (pentry : option ptr) (init_flag permit_flag deny_flag : Z) : res stream :=
  match pentry with
  | None => Ok st
  | Some t =>
      match fuel with
      | O => Oob
      | S f =>
          n ← get h t;
          let e := body n in
          '(_, st) ← stream_putc st (orf_flag e init_flag permit_flag deny_flag);
          '(_, st) ← stream_putl st (u32 (e_seq e));
          '(_, st) ← stream_putc st (u8 (e_ge e));
          '(_, st) ← stream_putc st (u8 (e_le e));
          '(_, st) ← stream_put_prefix st (e_prefix e);
          orf_entries f h st (next n) init_flag permit_flag deny_flag
      end
  end.

Definition prefix_bgp_orf_entry (st : stream) (s : plists) (plist : option ptr) (init_flag permit_flag deny_flag : Z) : res stream :=
  match plist with
  | None => Ok st
  | Some plist =>
      pl ← get_plist s plist;
      orf_entries (walk_fuel (emem s)) (emem s) st (head (entries pl)) init_flag permit_flag deny_flag
  end.
