(* ===== verification/PlistRep.v ===== *)
(** * Prefix lists: specification

    What lib/plist.c implements, without pointers: a master is a finite map from names to an optional
    description and the entries of the list in order.  Adding an entry replaces the one with its sequence number; the
    verdict on a prefix is that of the first entry that matches.  The lemmas show that the
    entries stay sorted by strictly increasing sequence numbers and that no rule is there twice.

    lib/plist.c: pointers against the specification.  [rep s A L E X]: the heaps and masters [s] hold what [A] says.  [L m k] are the prefix lists that a master links under
    its numbers or its names, [E p] the entries that the prefix list at [p] links, [X] entries that were made and
    are in no list yet.  All of memory is accounted for, so what an operation frees is not used again and nothing leaks.
    This file shows what the functions on entries and the searches do to it. *)

From stdpp Require Import sorting.
From S2P Require Import Prelude CString Prefix Inet PrefixText DList Plist PlistCmd.
Local Open Scope Z_scope.

(** ** Lists of entries *)

Definition max_seq_of (acc : Z) (es : list entry) : Z := foldl (fun m e => if m <? e_seq e then e_seq e else m) acc es.
Definition next_seq (es : list entry) : Z := max_seq_of 0 es / 5 * 5 + 5.

Fixpoint remove_first (f : entry -> bool) (es : list entry) : list entry :=
  match es with [] => [] | e :: r => if f e then r else e :: remove_first f r end.

Fixpoint insert_seq (e : entry) (es : list entry) : list entry :=
  match es with [] => [e] | x :: r => if e_seq e <=? e_seq x then e :: es else x :: insert_seq e r end.

Definition add_entry (e : entry) (es : list entry) : list entry :=
  insert_seq e (remove_first (fun x => e_seq x =? e_seq e) es).

(** Two entries are the same rule, whatever their sequence numbers. *)
Definition same_policy (a b : entry) : bool :=
  prefix_same (e_prefix a) (e_prefix b) && bool_decide (e_type a = e_type b) && (e_le a =? e_le b) && (e_ge a =? e_ge b).

Definition has_dup (e : entry) (seq : Z) (es : list entry) : bool :=
  existsb (fun o => same_policy o e && negb (e_seq o =? seq)) es.

(** ** Verdicts *)

Definition verdict (es : list entry) (p : prefix) : prefix_list_type :=
  match es with
  | [] => PREFIX_PERMIT
  | _ => match List.find (fun e => prefix_list_entry_match e p) es with Some e => e_type e | None => PREFIX_DENY end
  end.

(** The counters after a verdict: entries up to the one that matched were looked at, that one was hit. *)
Fixpoint counted (es : list entry) (p : prefix) : list entry :=
  match es with
  | [] => []
  | e :: r =>
      let e' := set_refcnt (u64 (refcnt e + 1)) e in
      if prefix_list_entry_match e p then set_hitcnt (u64 (hitcnt e' + 1)) e' :: r else e' :: counted r p
  end.

Definition cleared (f : entry -> bool) (es : list entry) : list entry :=
  map (fun e => if f e then set_hitcnt 0 e else e) es.

Arguments cleared : simpl never.

(** ** Masters *)

Notation content := (option string * list entry)%type.
Definition abs := master_id -> gmap string content.
Definition aset (A : abs) (m : master_id) (nm : string) (c : content) : abs :=
  fun k => if decide (k = m) then <[nm := c]> (A k) else A k.
Definition adel (A : abs) (m : master_id) (nm : string) : abs :=
  fun k => if decide (k = m) then delete nm (A k) else A k.
Definition contents_of (A : abs) (m : master_id) (nm : string) : content := default (None, []) (A m !! nm).

(** The number an entry gets. *)
Definition seq_for (e : entry) (es : list entry) : Z := if e_seq e =? -1 then next_seq es else e_seq e.

(** An entry is added to the list [nm], which is created when there is none; a rule that is there already is refused. *)
Definition spec_add (A : abs) (m : master_id) (nm : string) (e : entry) : abs * Z :=
  let '(d, es) := contents_of A m nm in
  let seq := seq_for e es in
  if has_dup e seq es then (A, CMD_WARNING)
  else (aset A m nm (d, add_entry (set_seq seq e) es), CMD_SUCCESS).

(** A list without entries and description does not stay. *)
Definition settle (A : abs) (m : master_id) (nm : string) (c : content) : abs :=
  match c with (None, []) => adel A m nm | _ => aset A m nm c end.

Definition spec_remove (A : abs) (m : master_id) (nm : string) (f : entry -> bool) : abs * Z :=
  match A m !! nm with
  | None => (A, CMD_WARNING)
  | Some (d, es) =>
      match List.find f es with
      | None => (A, CMD_WARNING)
      | Some _ => (settle A m nm (d, remove_first f es), CMD_SUCCESS)
      end
  end.

(** ** Sorted lists without duplicates *)

Definition seq_lt (a b : entry) : Prop := e_seq a < e_seq b.

Record entries_wf (es : list entry) : Prop := {
  es_sorted : StronglySorted seq_lt es;
  es_nodup : forall a b, a ∈ es -> b ∈ es -> same_policy a b = true -> e_seq a = e_seq b }.

(** Every list of a specification state is well formed. *)
Definition abs_wf (A : abs) : Prop := forall m nm d es, A m !! nm = Some (d, es) -> entries_wf es.

Lemma entries_wf_nil : entries_wf [].
Proof. split; [constructor |]. set_solver. Qed.

Lemma sorted_cons_inv e es : StronglySorted seq_lt (e :: es) -> StronglySorted seq_lt es /\ forall x, x ∈ es -> e_seq e < e_seq x.
Proof. intros S. apply StronglySorted_inv in S as [S F]. split; [done |]. by rewrite list.Forall_forall in F. Qed.

Lemma remove_first_sub f es x : x ∈ remove_first f es -> x ∈ es.
Proof. induction es as [|e es IH]; cbn; [done |]. destruct (f e); set_solver. Qed.

Lemma remove_first_sorted f es : StronglySorted seq_lt es -> StronglySorted seq_lt (remove_first f es).
Proof.
  induction es as [|e es IH]; cbn; [done |]. intros S. apply sorted_cons_inv in S as [S F]. destruct (f e); [done |].
  constructor; [by apply IH |]. apply list.Forall_forall. intros x Hx. by apply F, (remove_first_sub f).
Qed.

Lemma remove_first_seq n es x : StronglySorted seq_lt es -> x ∈ remove_first (fun y => e_seq y =? n) es -> e_seq x <> n.
Proof.
  induction es as [|e es IH]; cbn; [set_solver |]. intros S. apply sorted_cons_inv in S as [S F].
  destruct (Z.eqb_spec (e_seq e) n) as [<- | Hne].
  - intros Hx. specialize (F x Hx). lia.
  - intros Hx. apply list_elem_of_In in Hx. destruct Hx as [<- | Hx]; [done |]. apply list_elem_of_In in Hx. auto.
Qed.

Lemma insert_seq_elem e es x : x ∈ insert_seq e es <-> x = e \/ x ∈ es.
Proof. induction es as [|y es IH]; cbn; [set_solver |]. destruct (e_seq e <=? e_seq y); set_solver. Qed.

Lemma insert_seq_sorted e es : StronglySorted seq_lt es -> (forall x, x ∈ es -> e_seq x <> e_seq e) -> StronglySorted seq_lt (insert_seq e es).
Proof.
  induction es as [|y es IH]; cbn; [repeat constructor |]. intros S Hne. pose proof (Hne y ltac:(by left)) as Hy.
  destruct (Z.leb_spec (e_seq e) (e_seq y)).
  - pose proof (sorted_cons_inv _ _ S) as [_ F]. constructor; [done |]. apply list.Forall_forall. unfold seq_lt. intros x Hx.
    apply list_elem_of_In in Hx. destruct Hx as [<- | Hx]; [lia |]. apply list_elem_of_In, F in Hx. lia.
  - apply sorted_cons_inv in S as [S F]. constructor; [apply IH; set_solver |]. apply list.Forall_forall. unfold seq_lt.
    intros x Hx. apply insert_seq_elem in Hx as [-> | Hx]; [lia |]. by apply F.
Qed.

Lemma existsb_false {T} (f : T -> bool) l x : existsb f l = false -> x ∈ l -> f x = false.
Proof. intros H Hx. destruct (f x) eqn:E; [| done]. rewrite <- H. symmetry. apply existsb_exists. exists x. by rewrite <- list_elem_of_In. Qed.

Lemma prefix_same_iff p q : prefix_same p q = true <->
  family p = family q /\ prefixlen p = prefixlen q /\
  (family p = AF_INET /\ take 4 (u p) = take 4 (u q) \/ family p = AF_INET6 /\ take 16 (u p) = take 16 (u q)).
Proof.
  unfold prefix_same, AF_INET, AF_INET6. destruct (Z.eqb_spec (family p) (family q)), (Z.eqb_spec (prefixlen p) (prefixlen q)); cbn [andb];
    try (split; [done |]; tauto).
  destruct (Z.eqb_spec (family p) 2), (Z.eqb_spec (family p) 10); cbn [andb]; repeat case_bool_decide; split; try done; try tauto; try lia; intuition lia.
Qed.

Lemma same_policy_sym a b : same_policy a b = same_policy b a.
Proof.
  apply eq_true_iff_eq. unfold same_policy. rewrite !andb_true_iff, !prefix_same_iff, !bool_decide_eq_true, !Z.eqb_eq.
  intuition (try congruence); right || left; intuition congruence.
Qed.

(** Adding an entry that is no duplicate keeps the list well formed; removing does in any case. *)
Lemma add_entry_wf e es : entries_wf es -> has_dup e (e_seq e) es = false -> entries_wf (add_entry e es).
Proof.
  intros [S N] D. unfold add_entry. split.
  - apply insert_seq_sorted; [by apply remove_first_sorted |]. intros x Hx. by eapply remove_first_seq.
  - assert (forall x, x ∈ es -> same_policy x e = true -> e_seq x = e_seq e) as Hd.
    { intros x Hx Hs. pose proof (existsb_false _ _ _ D Hx) as Hf. cbn in Hf. rewrite Hs in Hf. cbn in Hf. lia. }
    intros a b Ha Hb Hs. apply insert_seq_elem in Ha as [-> | Ha], Hb as [-> | Hb]; [done | | |].
    + symmetry. apply Hd; [by apply remove_first_sub in Hb | by rewrite same_policy_sym].
    + apply Hd; [by apply remove_first_sub in Ha | done].
    + apply N; [by apply remove_first_sub in Ha | by apply remove_first_sub in Hb | done].
Qed.

Lemma remove_first_wf f es : entries_wf es -> entries_wf (remove_first f es).
Proof.
  intros [S N]. split; [by apply remove_first_sorted |]. intros a b Ha Hb. apply N; by eapply remove_first_sub.
Qed.

(** The counters play no part in it. *)
Definition rule (e : entry) : entry := set_refcnt 0 (set_hitcnt 0 e).

Lemma entries_wf_rule es es' : map rule es = map rule es' -> entries_wf es -> entries_wf es'.
Proof.
  intros E [S N].
  assert (forall a b, rule a = rule b -> e_seq a = e_seq b) as Hs by (intros [] [] [=]; cbn; congruence).
  assert (forall a b c d, rule a = rule b -> rule c = rule d -> same_policy a c = same_policy b d) as Hp.
  { intros [] [] [] [] [=] [=]. unfold same_policy. cbn in *. by subst. }
  assert (forall b, b ∈ es' -> exists a, a ∈ es /\ rule a = rule b) as Hin.
  { intros b Hb. assert (rule b ∈ map rule es) as H by (rewrite E; by apply list_elem_of_In, in_map, list_elem_of_In).
    apply list_elem_of_In, in_map_iff in H as (a & Ha & Hi). exists a. by rewrite list_elem_of_In. }
  split.
  - clear N Hin. revert es' E. induction S as [|a es S IH F]; intros [|b es'] E; try done; [constructor |]. cbn in E.
    injection E as E1 E2 E3 E4 E5 E6 Er. constructor; [by apply IH |]. apply list.Forall_forall. intros x Hx.
    assert (rule x ∈ map rule es) as H by (rewrite Er; by apply list_elem_of_In, in_map, list_elem_of_In).
    apply list_elem_of_In, in_map_iff in H as (y & Hy & Hi). rewrite list.Forall_forall in F.
    apply list_elem_of_In in Hi. specialize (F y Hi). apply Hs in Hy. unfold seq_lt in *. lia.
  - intros a b Ha Hb Hsp. apply Hin in Ha as (a' & Ha & Ea), Hb as (b' & Hb & Eb).
    rewrite <- (Hs _ _ Ea), <- (Hs _ _ Eb). apply N; [done | done |]. by rewrite (Hp _ _ _ _ Ea Eb).
Qed.

Lemma counted_rule es p : map rule (counted es p) = map rule es.
Proof. induction es as [|e es IH]; cbn [counted]; [done |]. destruct (prefix_list_entry_match e p); cbn; by rewrite ?IH. Qed.

Lemma cleared_rule f es : map rule (cleared f es) = map rule es.
Proof. unfold cleared. rewrite map_map. apply map_ext. intros e. by destruct (f e). Qed.

Lemma spec_add_wf A m nm e : abs_wf A -> abs_wf (spec_add A m nm e).1.
Proof.
  intros W. unfold spec_add. destruct (contents_of A m nm) as [d es] eqn:E. destruct (has_dup _ _ _) eqn:D; [done |].
  assert (entries_wf es) as We. { unfold contents_of in E. destruct (A m !! nm) as [[]|] eqn:Ea; cbn in E; simplify_eq; [by eapply W | apply entries_wf_nil]. }
  intros k nm' d' es'. cbn. unfold aset. destruct (decide (k = m)) as [-> |]; [| by apply W].
  rewrite lookup_insert. case_decide; [| by apply W]. intros [= <- <-]. by apply add_entry_wf.
Qed.

Lemma settle_wf A m nm d es : abs_wf A -> entries_wf es -> abs_wf (settle A m nm (d, es)).
Proof.
  intros W We. assert (abs_wf (aset A m nm (d, es))) as Ws.
  { intros k nm' d' es'. unfold aset. destruct (decide (k = m)) as [-> |]; [| by apply W].
    rewrite lookup_insert. case_decide; [by intros [= <- <-] | by apply W]. }
  destruct d, es; [done.. | | done]. intros k nm' d' es'. cbn. unfold adel. destruct (decide (k = m)) as [-> |]; [| by apply W].
  rewrite lookup_delete. case_decide; [done | by apply W].
Qed.

Lemma spec_remove_wf A m nm f : abs_wf A -> abs_wf (spec_remove A m nm f).1.
Proof.
  intros W. unfold spec_remove. destruct (A m !! nm) as [[d es]|] eqn:E; [| done]. destruct (List.find f es); [| done]. cbn.
  apply settle_wf; [done |]. apply remove_first_wf. by eapply W.
Qed.

(** ** lib/plist.c: pointers against the specification *)

Definition name_type (nm : string) : prefix_name_type := if all_digits nm then PREFIX_TYPE_NUMBER else PREFIX_TYPE_STRING.

(** The order of the prefix lists of a master. *)
Definition name_before (k : prefix_name_type) (a b : string) : Prop :=
  match k with PREFIX_TYPE_NUMBER => atoi a <= atoi b | PREFIX_TYPE_STRING => strcmp a b = -1 end.

Notation lheap := (gmap positive (node plist)).
Notation eheap := (gmap positive (node entry)).

(** Master, kind and name of the prefix list at [p]. *)
Definition key (h : lheap) (p : ptr) : option (master_id * prefix_name_type * string) :=
  (fun n => (pl_master (body n), pl_type (body n), name (body n))) <$> h !! p.

(** The prefix lists. *)
Record lrep (h : lheap) (ms : master_id -> prefix_master) (L : master_id -> prefix_name_type -> list ptr) : Prop := {
  l_lists : forall m k, dll h (sub_list k (ms m)) (L m k);
  l_in : forall m k p, p ∈ L m k <-> exists nm, key h p = Some (m, k, nm);
  l_order : forall m k nms, Forall2 (fun p nm => key h p = Some (m, k, nm)) (L m k) nms -> StronglySorted (name_before k) nms;
  l_type : forall p m k nm, key h p = Some (m, k, nm) -> k = name_type nm;
  l_unique : forall p p' m k nm, key h p = Some (m, k, nm) -> key h p' = Some (m, k, nm) -> p = p';
  l_recent : forall m p, recent (ms m) = Some p -> exists k nm, key h p = Some (m, k, nm) }.

(** Their entries. *)
Record erep (eh : eheap) (h : lheap) (A : abs) (E : ptr -> list ptr) (X : list ptr) : Prop := {
  e_entries : forall p n, h !! p = Some n -> exists es,
    A (pl_master (body n)) !! name (body n) = Some (desc (body n), es) /\
    dll eh (entries (body n)) (E p) /\ bodies eh (E p) es /\ count (body n) = Z.of_nat (length es);
  e_there : forall m nm c, A m !! nm = Some c -> exists p k, key h p = Some (m, k, nm);
  e_owner : forall p t, t ∈ E p -> exists n, h !! p = Some n;
  e_one : forall p p' t, t ∈ E p -> t ∈ E p' -> p = p';
  e_out : forall p t, t ∈ E p -> t ∉ X;
  e_all : forall t n, eh !! t = Some n -> t ∈ X \/ exists p, t ∈ E p;
  e_free : forall t, t ∈ X -> exists n, eh !! t = Some n }.

Definition rep (s : plists) (A : abs) (L : master_id -> prefix_name_type -> list ptr) (E : ptr -> list ptr) (X : list ptr) : Prop :=
  lrep (lmem s) (masters s) L /\ erep (emem s) (lmem s) A E X.

Definition eset (E : ptr -> list ptr) (p : ptr) (xs : list ptr) : ptr -> list ptr := fun q => if decide (q = p) then xs else E q.

(** ** What does not matter *)

Lemma key_Some h p n : h !! p = Some n -> key h p = Some (pl_master (body n), pl_type (body n), name (body n)).
Proof. unfold key. by intros ->. Qed.

Lemma key_inv h p m k nm : key h p = Some (m, k, nm) -> exists n, h !! p = Some n /\ pl_master (body n) = m /\ pl_type (body n) = k /\ name (body n) = nm.
Proof. unfold key. intros (n & Hn & [=])%fmap_Some. eauto 10. Qed.

Lemma lrep_same h h' ms ms' L :
  (forall p, key h' p = key h p) -> (forall m k, dll h' (sub_list k (ms' m)) (L m k)) ->
  (forall m p, recent (ms' m) = Some p -> exists k nm, key h p = Some (m, k, nm)) -> lrep h ms L -> lrep h' ms' L.
Proof.
  intros Hk Hd Hr R. destruct R. split.
  - done.
  - intros m k p. rewrite Hk. apply l_in0.
  - intros m k nms F. apply (l_order0 m k). eapply Forall2_impl; [exact F |]. intros p nm Hp. cbn in Hp. by rewrite <- Hk.
  - intros p m k nm. rewrite Hk. apply l_type0.
  - intros p p' m k nm. rewrite !Hk. apply l_unique0.
  - intros m p. rewrite Hk. apply Hr.
Qed.

(** Names are unique in a master: the kind follows from the name. *)
Lemma lrep_unique h ms L p p' m k k' nm : lrep h ms L -> key h p = Some (m, k, nm) -> key h p' = Some (m, k', nm) -> p = p'.
Proof.
  intros R H H'. rewrite (l_type _ _ _ R _ _ _ _ H) in H. rewrite (l_type _ _ _ R _ _ _ _ H') in H'. by eapply l_unique.
Qed.

Lemma rep_ext s A A' L E X : (forall m, A m = A' m) -> rep s A L E X -> rep s A' L E X.
Proof.
  intros H [RL RE]. split; [done |]. destruct RE. split; try done.
  - intros p n Hn. destruct (e_entries0 p n Hn) as (es & Ha & R). exists es. by rewrite <- H.
  - intros m nm c. rewrite <- H. apply e_there0.
Qed.

Lemma rep_hook f a s A L E X : rep s A L E X -> rep (call_hook f a s) A L E X.
Proof. intros R. by destruct f. Qed.

(** A master is changed but for its two linked lists. *)
Lemma rep_master m f s A L E X : (forall k, sub_list k (f (masters s m)) = sub_list k (masters s m)) ->
  (forall p, recent (f (masters s m)) = Some p -> exists k nm, key (lmem s) p = Some (m, k, nm)) ->
  rep s A L E X -> rep (upd_master m f s) A L E X.
Proof.
  intros Hf Hr [RL RE]. split; [| done]. eapply lrep_same; [done | | | exact RL]; cbn.
  - intros m' k. destruct (decide (m' = m)) as [-> |]; [rewrite Hf |]; apply (l_lists _ _ _ RL).
  - intros m' p. destruct (decide (m' = m)) as [-> |]; [apply Hr | apply (l_recent _ _ _ RL)].
Qed.

Lemma rep_init : rep plists_init (fun _ => ∅) (fun _ _ => []) (fun _ => []) [].
Proof.
  split; split; cbn; try (intros; set_solver).
  - intros m k. destruct k; apply dll_nil.
  - intros m k nms Hb. inversion Hb. constructor.
Qed.

(** ** The entries of one prefix list change *)

Definition with_entries (l : dlist) (c : Z) : plist -> plist := fun b => set_count c (set_entries l b).

Lemma key_body h p n f q : h !! p = Some n ->
  pl_master (f (body n)) = pl_master (body n) -> pl_type (f (body n)) = pl_type (body n) -> name (f (body n)) = name (body n) ->
  key (<[p := set_body f n]> h) q = key h q.
Proof.
  intros Hn E1 E2 E3. unfold key. destruct (decide (q = p)) as [-> |]; [| by rewrite lookup_insert_ne].
  rewrite lookup_insert_eq, Hn. cbn. by rewrite E1, E2, E3.
Qed.

Lemma lrep_body h ms L p n f : h !! p = Some n ->
  pl_master (f (body n)) = pl_master (body n) -> pl_type (f (body n)) = pl_type (body n) -> name (f (body n)) = name (body n) ->
  lrep h ms L -> lrep (<[p := set_body f n]> h) ms L.
Proof.
  intros Hn E1 E2 E3 R. eapply lrep_same; [| | apply (l_recent _ _ _ R) | exact R].
  - intros q. by apply key_body.
  - intros m k. apply dll_body; [done |]. apply R.
Qed.

(** The entries of the prefix list at [p] become [xs'], with the bodies [es'], among its nodes and the detached
    ones; the detached entries become [X']. *)
Record moved (eh eh' : eheap) (xs xs' X X' : list ptr) : Prop := {
  mv_other : forall t, t ∉ xs -> t ∉ X -> eh' !! t = eh !! t;
  mv_from : forall t, t ∈ xs' \/ t ∈ X' -> t ∈ xs \/ t ∈ X;
  mv_disj : forall t, t ∈ xs' -> t ∉ X';
  mv_all : forall t n, eh' !! t = Some n -> t ∈ xs \/ t ∈ X -> t ∈ xs' \/ t ∈ X';
  mv_free : forall t, t ∈ X' -> exists n, eh' !! t = Some n }.

Lemma moved_owned eh h A E X eh' p xs' X' : erep eh h A E X -> moved eh eh' (E p) xs' X X' ->
  forall q t, q <> p -> t ∈ E q -> t ∉ xs' /\ t ∉ X' /\ eh' !! t = eh !! t.
Proof.
  intros R M q t Hq Ht. assert (t ∉ E p) by (intros H; apply Hq; by eapply e_one). pose proof (e_out _ _ _ _ _ R q t Ht).
  split_and!; [| | by apply (mv_other _ _ _ _ _ _ M)]; intros H'; destruct (mv_from _ _ _ _ _ _ M t); tauto.
Qed.

Lemma erep_changed eh h ms L A E X p n f eh' xs' es' X' :
  lrep h ms L -> erep eh h A E X -> h !! p = Some n ->
  pl_master (f (body n)) = pl_master (body n) -> pl_type (f (body n)) = pl_type (body n) -> name (f (body n)) = name (body n) ->
  count (f (body n)) = Z.of_nat (length es') -> dll eh' (entries (f (body n))) xs' -> bodies eh' xs' es' -> moved eh eh' (E p) xs' X X' ->
  erep eh' (<[p := set_body f n]> h) (aset A (pl_master (body n)) (name (body n)) (desc (f (body n)), es')) (eset E p xs') X'.
Proof.
  intros RL R Hn K1 K2 K3 Hc D B M. pose proof (moved_owned _ _ _ _ _ _ _ _ _ R M) as Ho. pose proof R as R0. destruct R.
  set (h' := <[p := _]> h). assert (forall q, key h' q = key h q) as Hk by (intros q; by apply key_body).
  assert (forall q m, h !! q = Some m -> exists m', h' !! q = Some m') as Hd.
  { intros q m Hq. unfold h'. destruct (decide (q = p)) as [-> |]; [rewrite lookup_insert_eq | rewrite lookup_insert_ne by done]; eauto. }
  split.
  - intros q m Hm. unfold eset, aset, h' in *. destruct (decide (q = p)) as [-> | Hq].
    + rewrite lookup_insert_eq in Hm. simplify_eq. cbn. exists es'. rewrite K1, K3, decide_True, lookup_insert_eq by done. done.
    + rewrite lookup_insert_ne in Hm by done. destruct (e_entries0 q m Hm) as (es & Ha & Hd' & Hb & Hl). exists es. split_and!; [| | | done].
      * destruct (decide (_ = _)) as [Em |]; [| done]. rewrite lookup_insert_ne; [done |]. intros En. apply Hq.
        eapply (lrep_unique _ _ _ q p (pl_master (body m)) _ (pl_type (body n)) (name (body m)) RL); [by apply key_Some |].
        rewrite (key_Some _ _ _ Hn). congruence.
      * eapply nd_dll_frame; [| exact Hd']. intros t Ht. by apply (Ho q).
      * eapply bodies_frame; [| exact Hb]. intros t Ht. f_equal. by apply (Ho q).
  - intros m nm c. setoid_rewrite Hk. unfold aset. destruct (decide (m = _)) as [-> |]; [| by apply e_there0].
    rewrite lookup_insert. case_decide as Hnm; [intros _ | by apply e_there0]. exists p. rewrite (key_Some _ _ _ Hn), Hnm. eauto.
  - intros q t. unfold eset. destruct (decide (q = p)) as [-> | Hq]; intros Ht; [by eapply Hd |].
    destruct (e_owner0 q t Ht) as (m0 & H0). by eapply Hd.
  - intros q q' t. unfold eset. destruct (decide (q = p)), (decide (q' = p)); subst; [done | | | by apply e_one0]; intros H1 H2; exfalso;
      [by destruct (Ho q' t) | by destruct (Ho q t)].
  - intros q t. unfold eset. destruct (decide (q = p)) as [-> | Hq]; intros Ht; [by apply (mv_disj _ _ _ _ _ _ M) | by destruct (Ho q t Hq Ht) as (? & ? & ?)].
  - intros t m Hm. destruct (decide (t ∈ E p \/ t ∈ X)) as [H | H].
    + destruct (mv_all _ _ _ _ _ _ M t m Hm H) as [H' | H']; [| by left]. right. exists p. unfold eset. by rewrite decide_True.
    + rewrite (mv_other _ _ _ _ _ _ M) in Hm by tauto. destruct (e_all0 t m Hm) as [HtX | (q & Hq)]; [tauto |]. right. exists q. unfold eset.
      rewrite decide_False; [done |]. intros ->. tauto.
  - apply M.
Qed.

Lemma erep_entries eh h ms L A E X p n eh' l' xs' es' X' :
  lrep h ms L -> erep eh h A E X -> h !! p = Some n -> dll eh' l' xs' -> bodies eh' xs' es' -> moved eh eh' (E p) xs' X X' ->
  erep eh' (<[p := set_body (with_entries l' (Z.of_nat (length es'))) n]> h)
    (aset A (pl_master (body n)) (name (body n)) (desc (body n), es')) (eset E p xs') X'.
Proof. intros RL R Hn D B M. by apply (erep_changed eh h ms L A E X p n (with_entries l' (Z.of_nat (length es')))). Qed.
