(* ===== verification/PlistEntry.v ===== *)
(** * lib/plist.c: the functions on entries implement the specification

    Searches return the first node whose body satisfies the condition; [prefix_list_entry_delete] and
    [prefix_list_entry_add] are removal and ordered insertion; [prefix_list_apply] gives the verdict of the
    first match and counts. *)

From S2P Require Import Prelude CString Prefix Inet PrefixText DList Plist PlistCmd PlistRep.
Local Open Scope Z_scope.

(** ** Searches *)

Lemma find_zip (f : entry -> bool) (xs : list ptr) (es : list entry) : length xs = length es ->
  match List.find (fun x => f x.2) (zip xs es) with
  | Some (t, e) => exists xs1 xs2 es1 es2, xs = xs1 ++ t :: xs2 /\ es = es1 ++ e :: es2 /\ length xs1 = length es1 /\
      List.find f es = Some e /\ f e = true /\ remove_first f es = es1 ++ es2 /\ Forall (fun x => f x = false) es1
  | None => List.find f es = None /\ Forall (fun x => f x = false) es
  end.
Proof.
  revert es. induction xs as [|x xs IH]; intros [|e es] Hl; cbn in *; try done.
  destruct (f e) eqn:Ef.
  - exists [], xs, [], es. split_and!; done.
  - specialize (IH es ltac:(lia)). destruct (List.find _ (zip xs es)) as [[t e']|].
    + destruct IH as (xs1 & xs2 & es1 & es2 & -> & -> & H1 & H2 & H3 & H4 & H5). exists (x :: xs1), xs2, (e :: es1), es2.
      split_and!; cbn; try done; [lia | by rewrite H4 | by constructor].
    + destruct IH as [H1 H2]. split; [done | by constructor].
Qed.

Section Rep.
Context {s : plists} {A : abs} {L : master_id -> prefix_name_type -> list ptr} {E : ptr -> list ptr} {X : list ptr}.
Context (R : rep s A L E X).

Lemma rep_content p n : lmem s !! p = Some n -> exists es,
  A (pl_master (body n)) !! name (body n) = Some (desc (body n), es) /\ dll (emem s) (entries (body n)) (E p) /\
  bodies (emem s) (E p) es /\ count (body n) = Z.of_nat (length es).
Proof. apply (proj2 R). Qed.

Lemma rep_list_at p n d es : lmem s !! p = Some n -> A (pl_master (body n)) !! name (body n) = Some (d, es) ->
  get_plist s p = Ok (body n) /\ desc (body n) = d /\ dll (emem s) (entries (body n)) (E p) /\ bodies (emem s) (E p) es /\
  count (body n) = Z.of_nat (length es) /\ length (E p) = length es.
Proof.
  intros Hn Ha. destruct (rep_content p n Hn) as (es' & Ha' & D & B & Hc). simplify_eq. unfold get_plist. rewrite (nd_get_Ok _ _ _ Hn).
  split_and!; try done. by apply Forall2_length in B.
Qed.

Lemma find_entry_spec p n d es f : lmem s !! p = Some n -> A (pl_master (body n)) !! name (body n) = Some (d, es) ->
  find_entry s p f = Ok (fst <$> List.find (fun x => f x.2) (zip (E p) es)).
Proof.
  intros Hn Ha. destruct (rep_list_at p n d es Hn Ha) as (Hg & _ & D & B & _). unfold find_entry. rewrite Hg. cbn [mbind res_bind].
  by apply dll_find.
Qed.

Lemma max_seq_walk h xs es : forall p fuel acc, dseg h p xs None -> bodies h xs es -> (length xs < fuel)%nat ->
  max_seq fuel h (nxt xs None) acc = Ok (max_seq_of acc es).
Proof.
  intros p fuel acc S H. revert p fuel acc S. induction H as [|t e xs es Hb H IH]; intros p fuel acc S Hf.
  - by destruct fuel.
  - destruct fuel as [|fu]; [lia |]. destruct S as [(n & Hn & _ & Hx) S]. cbn [nxt max_seq]. rewrite (nd_get_Ok _ _ _ Hn). cbn [mbind res_bind]. rewrite Hx.
    rewrite Hn in Hb. cbn in Hb. simplify_eq. cbn in Hf. rewrite (IH _ _ _ S) by lia. done.
Qed.

Lemma new_seq_spec p n d es : lmem s !! p = Some n -> A (pl_master (body n)) !! name (body n) = Some (d, es) ->
  prefix_new_seq_get s p = if next_seq es >? INT_MAX then Oob else Ok (next_seq es).
Proof.
  intros Hn Ha. destruct (rep_list_at p n d es Hn Ha) as (Hg & _ & D & B & _). unfold prefix_new_seq_get. rewrite Hg. cbn [mbind res_bind].
  rewrite (dl_head _ _ _ D). rewrite (max_seq_walk _ _ es _ _ _ (dl_seg _ _ _ D) B) by (by eapply dll_size). done.
Qed.

(** ** Removing an entry *)

Lemma entry_unlinked p n t xs1 xs2 es1 e es2 d :
  lmem s !! p = Some n -> E p = xs1 ++ t :: xs2 -> A (pl_master (body n)) !! name (body n) = Some (d, es1 ++ e :: es2) ->
  length xs1 = length es1 ->
  exists s', prefix_list_entry_delete s (Some p) (Some t) false = Ok s' /\ masters s' = masters s /\
    (exists l, lmem s' = <[p := set_body (with_entries l (Z.of_nat (length (es1 ++ es2)))) n]> (lmem s)) /\
    (forall x, x ∉ E p -> emem s' !! x = emem s !! x) /\
    rep s' (aset A (pl_master (body n)) (name (body n)) (d, es1 ++ es2)) L (eset E p (xs1 ++ xs2)) X.
Proof.
  intros Hn HE Ha Hl. destruct (rep_list_at p n d _ Hn Ha) as (Hg & <- & D & B & Hc & _). rewrite HE in D, B.
  destruct (nd_dll_node _ _ _ t D ltac:(set_solver)) as (nt & Hnt).
  destruct (dll_unlink _ _ _ _ _ _ D Hnt) as (h1 & h2 & E1 & Hnt1 & E2 & D2 & RL).
  unfold prefix_list_entry_delete. rewrite Hg, (nd_get_Ok _ _ _ Hnt). cbn [mbind res_bind]. rewrite E1. cbn [mbind res_bind].
  rewrite (nd_get_Ok _ _ _ Hnt1). cbn [mbind res_bind]. rewrite E2. cbn [mbind res_bind]. unfold upd_plist. cbn [lmem set_emem prefix_list_entry_free].
  rewrite (nd_upd_Ok _ _ _ _ Hn). cbn [mbind res_bind].
  set (l' := mk_dlist (nxt (xs1 ++ xs2) None) (lst (xs1 ++ xs2) None)) in *.
  assert (set_body (fun b => set_count (count b - 1) (set_entries l' b)) n = set_body (with_entries l' (Z.of_nat (length (es1 ++ es2)))) n) as ->.
  { unfold set_body, with_entries, set_count. cbn. do 2 f_equal. rewrite Hc, !length_app. cbn. lia. }
  eexists. split; [reflexivity |]. split; [done |]. split; [by exists l' |]. destruct (nodup_around (dl_nodup _ _ _ D)) as (_ & _ & T1 & T2 & _).
  assert (forall x, x <> t -> delete t h2 !! x = h2 !! x) as Hdel by (intros x Hx; by apply lookup_delete_ne).
  split. { intros x Hx. cbn. rewrite HE in Hx. rewrite Hdel by set_solver. apply RL. set_solver. }
  split; [by apply lrep_body; [.. | apply R] |]. destruct R as [RL' RE]. apply (erep_entries (emem s) (lmem s) (masters s) L A E X p n (delete t h2) l' (xs1 ++ xs2)); try done.
  - eapply nd_dll_frame; [| exact D2]. intros x Hx. apply Hdel. set_solver.
  - eapply (bodies_frame h2); [intros x Hx; f_equal; apply Hdel; set_solver |]. eapply bodies_relinked; [exact RL |].
    apply Forall2_app_inv in B as [B1 B2]; [| done]. apply Forall2_cons in B2 as [_ B2]. by apply Forall2_app.
  - rewrite HE. split.
    + intros x Hx _. rewrite Hdel by set_solver. apply RL. set_solver.
    + set_solver.
    + intros x Hx. apply (e_out _ _ _ _ _ RE p). rewrite HE. set_solver.
    + intros x m Hm. rewrite lookup_delete in Hm. case_decide; [done |]. set_solver.
    + intros x Hx. assert (x ∉ E p) as Hne by (intros H; by eapply (e_out _ _ _ _ _ RE)). rewrite HE in Hne.
      rewrite Hdel by set_solver. rewrite (proj1 RL) by set_solver. by apply (e_free _ _ _ _ _ RE).
Qed.

(** ** Detached entries *)

Lemma rep_detached t nt f : t ∈ X -> emem s !! t = Some nt -> rep (set_emem (<[t := set_body f nt]> (emem s)) s) A L E X.
Proof.
  intros Ht Hn. destruct R as [RL RE]. split; [done |]. cbn. pose proof (e_out _ _ _ _ _ RE) as Hout. destruct RE as [e_entries0 e_there0 e_owner0 e_one0 e_out0 e_all0 e_free0]. split; try done.
  - intros p n Hp. destruct (e_entries0 p n Hp) as (es & Ha & D & B & Hc). exists es. split_and!; try done; [by apply dll_body |].
    eapply bodies_frame; [| exact B]. intros x Hx. f_equal. apply lookup_insert_ne. intros ->. by apply (Hout p x).
  - intros x m. rewrite lookup_insert. case_decide; subst; [by left | apply e_all0].
  - intros x Hx. rewrite lookup_insert. case_decide; eauto.
Qed.

Lemma rep_make e : X = [] ->
  rep (set_emem (<[fresh (dom (emem s) : gset positive) := mk_node e None None]> (emem s)) s) A L E [fresh (dom (emem s) : gset positive)].
Proof.
  intros HX. set (t := fresh _). assert (emem s !! t = None) as Ht by (apply (not_elem_of_dom (D := gset positive)), is_fresh).
  destruct R as [RL RE]. split; [done |]. cbn.
  assert (forall p, t ∉ E p) as Hp. { intros p Hp. destruct (e_owner _ _ _ _ _ RE p t Hp) as (n & Hn).
    destruct (e_entries _ _ _ _ _ RE p n Hn) as (es & _ & D & _). destruct (nd_dll_node _ _ _ t D Hp) as (m & Hm). congruence. }
  assert (forall p x, x ∈ E p -> <[t := mk_node e None None]> (emem s) !! x = emem s !! x) as Hf.
  { intros p x Hx. apply lookup_insert_ne. intros ->. by apply (Hp p). }
  destruct RE as [e_entries0 e_there0 e_owner0 e_one0 e_out0 e_all0 e_free0]. split; try done.
  - intros p n Hn. destruct (e_entries0 p n Hn) as (es & Ha & D & B & Hc). exists es. split_and!; try done.
    + eapply nd_dll_frame; [| exact D]. apply Hf.
    + eapply bodies_frame; [| exact B]. intros x Hx. f_equal. by apply (Hf p).
  - intros p x Hx Hx'. apply list_elem_of_singleton in Hx' as ->. by apply (Hp p).
  - intros x m. rewrite lookup_insert. case_decide; subst; [left; set_solver |]. intros Hm. destruct (e_all0 x m Hm) as [|]; [set_solver | by right].
  - intros x Hx. apply list_elem_of_singleton in Hx as ->. rewrite lookup_insert_eq. eauto.
Qed.

End Rep.

(** ** Adding an entry *)

Lemma insert_seq_zip e (xs : list ptr) es : length xs = length es -> exists xs1 xs2 es1 es2,
  xs = xs1 ++ xs2 /\ es = es1 ++ es2 /\ length xs1 = length es1 /\ insert_seq e es = es1 ++ e :: es2 /\
  (fst <$> List.find (fun x => e_seq e <=? e_seq x.2) (zip xs es)) = nxt xs2 None.
Proof.
  revert es. induction xs as [|x xs IH]; intros [|y es] Hl; cbn in *; try done.
  - by exists [], [], [], [].
  - destruct (e_seq e <=? e_seq y); [by exists [], (x :: xs), [], (y :: es) |].
    destruct (IH es ltac:(lia)) as (xs1 & xs2 & es1 & es2 & -> & -> & H1 & H2 & H3). exists (x :: xs1), xs2, (y :: es1), es2.
    split_and!; try done; cbn; [lia | by rewrite H2].
Qed.

Lemma aset_aset A m nm c c' k : aset (aset A m nm c) m nm c' k = aset A m nm c' k.
Proof. unfold aset. destruct (decide (k = m)); [by rewrite insert_insert_eq | done]. Qed.

(** The node [t] is linked in its place; [set_seq], replacement, insertion and the counter are the steps of [prefix_list_entry_add]. *)
Lemma entry_linked s A L E t p n nt d es :
  rep s A L E [t] -> lmem s !! p = Some n -> A (pl_master (body n)) !! name (body n) = Some (d, es) -> emem s !! t = Some nt ->
  exists point h l, find_entry s p (fun e => e_seq (body nt) <=? e_seq e) = Ok point /\
    link_before (emem s) (entries (body n)) point t = Ok (h, l) /\
    exists xs', rep (mk_plists h (<[p := set_body (with_entries l (count (body n) + 1)) n]> (lmem s)) (masters s) (called s))
      (aset A (pl_master (body n)) (name (body n)) (d, insert_seq (body nt) es)) L (eset E p xs') [].
Proof.
  intros R Hn Ha Hnt. destruct (rep_list_at R p n d es Hn Ha) as (Hg & <- & D & B & Hc & Hl).
  rewrite (find_entry_spec R p n _ es _ Hn Ha).
  destruct (insert_seq_zip (body nt) (E p) es Hl) as (xs1 & xs2 & es1 & es2 & HE & -> & Hl1 & -> & ->).
  rewrite HE in D, B. assert (t ∉ E p) as Ht. { intros H. apply (e_out _ _ _ _ _ (proj2 R) p t H). set_solver. }
  rewrite HE in Ht. destruct (link_before_spec _ _ _ _ _ _ D Ht Hnt) as (h' & El & D' & RL). eexists _, _, _. split; [done |]. split; [exact El |].
  exists (xs1 ++ t :: xs2). set (l' := mk_dlist _ _) in *.
  replace (count (body n) + 1) with (Z.of_nat (length (es1 ++ body nt :: es2))) by (rewrite Hc, !length_app; cbn; lia).
  destruct R as [RL' RE]. split; [by apply lrep_body |]. apply (erep_entries (emem s) (lmem s) (masters s) L A E [t] p n h' l' (xs1 ++ t :: xs2)); try done.
  - apply (bodies_relinked _ _ _ _ _ RL). apply Forall2_app_inv in B as [B1 B2]; [| done]. apply Forall2_app; [done |]. constructor; [by rewrite Hnt | done].
  - rewrite HE. split.
    + intros x Hx Hx'. apply RL. set_solver.
    + set_solver.
    + set_solver.
    + set_solver.
    + set_solver.
Qed.

(** The entry with the same sequence number goes. *)
Lemma entry_replaced s A L E X p n d es seq :
  rep s A L E X -> lmem s !! p = Some n -> A (pl_master (body n)) !! name (body n) = Some (d, es) ->
  exists r s' n' E', prefix_seq_check s p seq = Ok r /\ prefix_list_entry_delete s (Some p) r false = Ok s' /\
    masters s' = masters s /\ lmem s' !! p = Some n' /\ pl_master (body n') = pl_master (body n) /\ name (body n') = name (body n) /\
    (forall x, x ∉ E p -> emem s' !! x = emem s !! x) /\
    rep s' (aset A (pl_master (body n)) (name (body n)) (d, remove_first (fun x => e_seq x =? seq) es)) L E' X.
Proof.
  intros R Hn Ha. destruct (rep_list_at R p n d es Hn Ha) as (_ & _ & _ & _ & _ & Hl).
  unfold prefix_seq_check. rewrite (find_entry_spec R p n d es _ Hn Ha).
  pose proof (find_zip (fun e => e_seq e =? seq) (E p) es Hl) as Hf. destruct (List.find _ (zip (E p) es)) as [[t e]|] eqn:Ef.
  - destruct Hf as (xs1 & xs2 & es1 & es2 & HE & -> & Hl1 & _ & _ & Hrm & _).
    destruct (entry_unlinked R p n t xs1 xs2 es1 e es2 d Hn HE Ha Hl1) as (s' & Hd & Hm & (l & Hlm) & Hx & R').
    eexists _, s', _, _. split; [reflexivity |]. split; [exact Hd |]. split; [done |]. split; [rewrite Hlm; apply lookup_insert_eq |].
    do 2 (split; [done |]). split; [done |]. rewrite Hrm. exact R'.
  - destruct Hf as [_ Hf]. eexists _, s, n, E. split; [reflexivity |]. split_and!; try done.
    eapply rep_ext; [| exact R]. intros m. unfold aset. destruct (decide (m = _)) as [-> |]; [| done].
    symmetry. apply insert_id. rewrite Ha. do 2 f_equal. clear -Hf. induction Hf as [|e es He _ IH]; cbn; [done |]. by rewrite He, <- IH.
Qed.

Lemma set_seq_id e : set_seq (e_seq e) e = e.
Proof. by destruct e. Qed.

Lemma entry_add_spec s A L E t p n nt d es :
  rep s A L E [t] -> lmem s !! p = Some n -> A (pl_master (body n)) !! name (body n) = Some (d, es) -> emem s !! t = Some nt ->
  (e_seq (body nt) = -1 -> next_seq es <= INT_MAX) ->
  exists s' E', prefix_list_entry_add s p t = Ok s' /\
    rep s' (aset A (pl_master (body n)) (name (body n)) (d, add_entry (set_seq (seq_for (body nt) es) (body nt)) es)) L E' [].
Proof.
  intros R Hn Ha Hnt Hseq. set (e' := set_seq (seq_for (body nt) es) (body nt)).
  assert (exists s1 n1, (if e_seq (body nt) =? -1 then newseq ← prefix_new_seq_get s p; h ← upd (emem s) t (set_body (set_seq newseq)); Ok (set_emem h s)
    else Ok s) = Ok s1 /\ lmem s1 = lmem s /\ emem s1 !! t = Some n1 /\ body n1 = e' /\ rep s1 A L E [t]) as (s1 & n1 & E1 & Hl1 & Hn1 & Hb1 & R1).
  { unfold e', seq_for. destruct (Z.eqb_spec (e_seq (body nt)) (-1)) as [Hm | Hm].
    - rewrite (new_seq_spec R p n d es Hn Ha). specialize (Hseq Hm). destruct (Z.gtb_spec (next_seq es) INT_MAX); [lia |]. cbn [mbind res_bind].
      rewrite (nd_upd_Ok _ _ _ _ Hnt). cbn [mbind res_bind]. eexists _, _. split; [reflexivity |]. cbn. split; [done |]. split; [apply lookup_insert_eq |].
      split; [done |]. apply (rep_detached R); [by left | done].
    - exists s, nt. by rewrite set_seq_id. }
  unfold prefix_list_entry_add. rewrite (nd_get_Ok _ _ _ Hnt), bind_ret, E1, bind_ret, (nd_get_Ok _ _ _ Hn1), bind_ret. rewrite <- Hl1 in Hn.
  destruct (entry_replaced s1 A L E [t] p n d es (e_seq (body n1)) R1 Hn Ha) as (r & s2 & n2 & E2 & Er & Ed & Hm2 & Hn2 & Hk1 & Hk2 & Hx2 & R2).
  cbn zeta. rewrite Er, bind_ret, Ed, bind_ret.
  rewrite <- Hk1, <- Hk2 in R2, Ha.
  assert (aset A (pl_master (body n2)) (name (body n2)) (d, remove_first (fun x => e_seq x =? e_seq (body n1)) es) (pl_master (body n2)) !! name (body n2)
    = Some (d, remove_first (fun x => e_seq x =? e_seq (body n1)) es)) as Ha2 by (unfold aset; by rewrite decide_True, lookup_insert_eq).
  assert (emem s2 !! t = Some n1) as Hn1'. { rewrite Hx2; [done |]. intros H. apply (e_out _ _ _ _ _ (proj2 R1) p t H). by left. }
  destruct (entry_linked s2 _ L E2 t p n2 n1 d _ R2 Hn2 Ha2 Hn1') as (point & h & l & Ep & El & xs' & R3).
  destruct (rep_list_at R2 p n2 d _ Hn2 Ha2) as (Hg & _). rewrite Ep, bind_ret, Hg, bind_ret, El, bind_ret. unfold upd_plist. cbn [lmem set_emem].
  rewrite (nd_upd_Ok _ _ _ _ Hn2), !bind_ret.
  change (set_body (fun b => set_count (count b + 1) (set_entries l b)) n2) with (set_body (with_entries l (count (body n2) + 1)) n2). unfold get_plist. cbn [lmem set_lmem]. 
  erewrite nd_get_Ok by apply lookup_insert_eq. rewrite !bind_ret.
  eexists _, _. split; [reflexivity |]. apply rep_master; [by intros [] | |].
  { cbn. intros q [= <-]. eexists _, _. rewrite (key_Some _ _ (set_body (with_entries l (count (body n2) + 1)) n2)); [reflexivity |]. destruct (add_hook _); apply lookup_insert_eq. }
  apply rep_hook. eapply rep_ext; [| exact R3]. intros m. rewrite Hb1, Hk1, Hk2. apply aset_aset.
Qed.

(** ** Walks that change bodies *)

(** [h'] has the links of [h], and its bodies outside [xs]. *)
Definition rebodied (h h' : eheap) (xs : list ptr) : Prop :=
  (forall q, q ∉ xs -> h' !! q = h !! q) /\ (forall q, (fun n => (next n, prev n)) <$> h' !! q = (fun n => (next n, prev n)) <$> h !! q).

Lemma rebodied_refl h xs : rebodied h h xs.
Proof. done. Qed.

Lemma rebodied_trans h h1 h2 xs : rebodied h h1 xs -> rebodied h1 h2 xs -> rebodied h h2 xs.
Proof. intros [A1 B1] [A2 B2]. split; intros q; [intros Hq; by rewrite A2, A1 | by rewrite B2, B1]. Qed.

Lemma rebodied_sub h h' xs ys : (forall t, t ∈ xs -> t ∈ ys) -> rebodied h h' xs -> rebodied h h' ys.
Proof. intros S [A1 B1]. split; [| done]. intros q Hq. apply A1. auto. Qed.

Lemma rebodied_body h t n f xs : h !! t = Some n -> t ∈ xs -> rebodied h (<[t := set_body f n]> h) xs.
Proof.
  intros Hn Ht. split; intros q; [intros Hq; apply lookup_insert_ne; by intros <- |].
  destruct (decide (q = t)) as [-> | Hne]; [by rewrite lookup_insert_eq, Hn | by rewrite lookup_insert_ne].
Qed.

Lemma dseg_rebodied h h' ys xs : forall p q, rebodied h h' ys -> dseg h p xs q -> dseg h' p xs q.
Proof.
  intros p q [_ R]. revert p. induction xs as [|x xs IH]; intros p; cbn; [done |]. intros [(n & Hn & Hp & Hq) S]. split; [| by apply IH].
  specialize (R x). rewrite Hn in R. cbn in R. apply fmap_Some in R as (n' & Hn' & [= E1 E2]). exists n'. split_and!; congruence.
Qed.

Lemma apply_loop_spec h xs es pfx : forall p fuel, NoDup xs -> dseg h p xs None -> bodies h xs es -> (length xs < fuel)%nat ->
  exists h', apply_loop fuel h (nxt xs None) pfx =
      Ok (h', match List.find (fun e => prefix_list_entry_match e pfx) es with Some e => e_type e | None => PREFIX_DENY end) /\
    rebodied h h' xs /\ bodies h' xs (counted es pfx).
Proof.
  intros p fuel ND S H. revert h p fuel ND S H. revert es. induction xs as [|t xs IH]; intros [|e es] h p fuel ND S H Hf; inversion H as [|? ? ? ? Hb H']; subst.
  - exists h. by destruct fuel.
  - destruct fuel as [|fu]; [lia |]. apply list.NoDup_cons in ND as [Ht ND]. destruct S as [(n & Hn & _ & Hx) S]. cbn [nxt apply_loop].
    rewrite (nd_upd_Ok _ _ _ _ Hn), bind_ret. set (f1 := fun e => set_refcnt (u64 (refcnt e + 1)) e).
    assert (rebodied h (<[t := set_body f1 n]> h) (t :: xs)) as R1 by (apply rebodied_body; [done | by left]).
    assert (bodies (<[t := set_body f1 n]> h) xs es) as B1.
    { eapply bodies_frame; [| exact H']. intros x Hx'. f_equal. apply lookup_insert_ne. by intros <-. }
    rewrite (nd_get_Ok _ t (set_body f1 n)) by apply lookup_insert_eq. rewrite bind_ret. rewrite Hn in Hb. cbn in Hb. simplify_eq.
    change (prefix_list_entry_match (body (set_body f1 n)) pfx) with (prefix_list_entry_match (body n) pfx). cbn [List.find counted].
    destruct (prefix_list_entry_match (body n) pfx).
    + erewrite nd_upd_Ok by apply lookup_insert_eq. rewrite bind_ret. eexists. split; [reflexivity |]. split.
      * eapply rebodied_trans; [exact R1 |]. apply rebodied_body; [apply lookup_insert_eq | by left].
      * constructor; [by rewrite lookup_insert_eq |]. eapply bodies_frame; [| exact B1]. intros x Hx'. f_equal. apply lookup_insert_ne. by intros <-.
    + cbn [set_body next]. rewrite Hx. destruct (IH es (<[t := set_body f1 n]> h) (Some t) fu ND) as (h' & -> & R2 & B2); [| done | cbn in Hf; lia |].
      * by eapply dseg_rebodied.
      * exists h'. split; [done |]. split; [eapply rebodied_trans; [exact R1 |]; eapply rebodied_sub; [| exact R2]; set_solver |].
        constructor; [| done]. rewrite (proj1 R2) by done. by rewrite lookup_insert_eq.
Qed.

Lemma clear_hits_spec h xs es f : forall p fuel, NoDup xs -> dseg h p xs None -> bodies h xs es -> (length xs < fuel)%nat ->
  exists h', clear_hits fuel h (nxt xs None) f = Ok h' /\ rebodied h h' xs /\ bodies h' xs (cleared f es).
Proof.
  intros p fuel ND S H. revert h p fuel ND S H. revert es. induction xs as [|t xs IH]; intros [|e es] h p fuel ND S H Hf; inversion H as [|? ? ? ? Hb H']; subst.
  - exists h. by destruct fuel.
  - destruct fuel as [|fu]; [lia |]. apply list.NoDup_cons in ND as [Ht ND]. destruct S as [(n & Hn & _ & Hx) S]. cbn [nxt clear_hits].
    rewrite (nd_get_Ok _ _ _ Hn), bind_ret. rewrite Hn in Hb. cbn in Hb. simplify_eq.
    assert (exists h1, (if f (body n) then upd h t (set_body (set_hitcnt 0)) else Ok h) = Ok h1 /\ rebodied h h1 (t :: xs) /\ bodies h1 xs es /\
      body <$> h1 !! t = Some (if f (body n) then set_hitcnt 0 (body n) else body n)) as (h1 & E1 & R1 & B1 & Hb1).
    { destruct (f (body n)).
      - rewrite (nd_upd_Ok _ _ _ _ Hn). eexists. split; [reflexivity |]. split; [apply rebodied_body; [done | by left] |]. split.
        + eapply bodies_frame; [| exact H']. intros x Hx'. f_equal. apply lookup_insert_ne. by intros <-.
        + by rewrite lookup_insert_eq.
      - exists h. split_and!; try done. by rewrite Hn. }
    rewrite E1, bind_ret, Hx. destruct (IH es h1 (Some t) fu ND) as (h' & -> & R2 & B2); [| done | cbn in Hf; lia |].
    + by eapply dseg_rebodied.
    + exists h'. split; [done |]. split; [eapply rebodied_trans; [exact R1 |]; eapply rebodied_sub; [| exact R2]; set_solver |].
      constructor; [| done]. by rewrite (proj1 R2).
Qed.

(** A prefix list whose entries keep their links: only their bodies and its description change. *)
Lemma rep_changed s A L E p n d es d' h' es' :
  rep s A L E [] -> lmem s !! p = Some n -> A (pl_master (body n)) !! name (body n) = Some (d, es) ->
  rebodied (emem s) h' (E p) -> bodies h' (E p) es' ->
  rep (mk_plists h' (<[p := set_body (set_desc d') n]> (lmem s)) (masters s) (called s)) (aset A (pl_master (body n)) (name (body n)) (d', es')) L E [].
Proof.
  intros R Hn Ha RB B'. destruct (rep_list_at R p n d es Hn Ha) as (_ & _ & D & B & Hc & Hl). destruct R as [RL RE]. split; [by apply lrep_body |].
  assert (length es' = length es) as Hl' by (apply Forall2_length in B'; lia).
  assert (forall q, eset E p (E p) q = E q) as He by (intros q; unfold eset; by destruct (decide (q = p)) as [-> |]).
  assert (erep h' (<[p := set_body (set_desc d') n]> (lmem s)) (aset A (pl_master (body n)) (name (body n)) (d', es')) (eset E p (E p)) []) as RE'.
  { apply (erep_changed (emem s) (lmem s) (masters s) L A E [] p n (set_desc d') h' (E p) es' [] RL RE Hn); try done.
    - cbn. congruence.
    - destruct D as [D1 D2 D3 D4]. split; try done. by eapply dseg_rebodied.
    - split; [intros t Ht _; by apply RB | set_solver..]. }
  destruct RE' as [F1 F2 F3 F4 F5 F6 F7]. split; try done.
  - intros q m Hm. rewrite <- (He q). by apply F1.
  - intros q t Ht. rewrite <- (He q) in Ht. by apply F3 in Ht.
  - intros q q' t Ht Ht'. rewrite <- (He q) in Ht. rewrite <- (He q') in Ht'. by apply (F4 q q' t).
  - set_solver.
  - intros t m Hm. destruct (F6 t m Hm) as [| (q & Hq)]; [by left | right]. exists q. by rewrite <- (He q).
Qed.

Lemma rep_bodies s A L E p n d es h' es' :
  rep s A L E [] -> lmem s !! p = Some n -> A (pl_master (body n)) !! name (body n) = Some (d, es) ->
  rebodied (emem s) h' (E p) -> bodies h' (E p) es' ->
  rep (set_emem h' s) (aset A (pl_master (body n)) (name (body n)) (d, es')) L E [].
Proof.
  intros R Hn Ha RB B'. pose proof (rep_changed s A L E p n d es d h' es' R Hn Ha RB B') as R'.
  destruct (rep_list_at R p n d es Hn Ha) as (_ & Hd & _). rewrite insert_id in R'; [done |]. rewrite Hn. f_equal. subst d. by destruct n as [[] ? ?].
Qed.
