(* ===== verification/PlistLists.v ===== *)
(** * lib/plist.c: the functions on prefix lists implement the specification

    [prefix_list_lookup] finds the list of a name, [prefix_list_insert] adds one in the order of the
    names, [prefix_list_delete] frees a list with its entries and forgets it. *)

From stdpp Require Import sorting.
From S2P Require Import Prelude CString Prefix Inet PrefixText DList Plist PlistCmd PlistRep PlistEntry.
Local Open Scope Z_scope.

(** ** Names *)

Lemma name_number_digits acc nm v b : name_number acc nm = Ok (v, b) -> b = all_digits nm /\ (b = true -> v = atoi_digits acc nm).
Proof.
  revert acc. induction nm as [|c nm IH]; intros acc; cbn [name_number all_digits atoi_digits]; [by intros [= <- <-] |].
  destruct (isdigit c); [| by intros [= <- <-]]. cbn [andb]. destruct (_ >? _); [done |].
  replace (acc * 10 + (code c - 48)) with (10 * acc + (code c - 48)) by lia. apply IH.
Qed.

Lemma atoi_all_digits nm : all_digits nm = true -> atoi nm = atoi_digits 0 nm.
Proof.
  destruct nm as [|c nm]; [done |]. cbn [all_digits]. intros H. apply andb_true_iff in H as [Hc _]. unfold isdigit in Hc.
  apply andb_true_iff in Hc as [H1 H2]. apply Z.leb_le in H1, H2. unfold atoi. cbn [skip_spaces]. unfold isspace.
  destruct (Z.eqb_spec (code c) 32), (Z.leb_spec 9 (code c)), (Z.leb_spec (code c) 13); cbn [orb andb]; try lia;
    destruct (Z.eqb_spec (code c) 45), (Z.eqb_spec (code c) 43); lia || done.
Qed.

(** ** Searches *)

Lemma find_split {T} (f : T -> bool) (xs : list ptr) (bs : list T) : length xs = length bs ->
  exists xs1 xs2 bs1 bs2, xs = xs1 ++ xs2 /\ bs = bs1 ++ bs2 /\ length xs1 = length bs1 /\
    (fst <$> List.find (fun x => f x.2) (zip xs bs)) = nxt xs2 None /\ Forall (fun b => f b = false) bs1 /\
    (forall b r, bs2 = b :: r -> f b = true).
Proof.
  revert bs. induction xs as [|x xs IH]; intros [|b bs] Hl; cbn in *; try done.
  - by exists [], [], [], [].
  - destruct (f b) eqn:Ef.
    + exists [], (x :: xs), [], (b :: bs). split_and!; try done. by intros ? ? [= <- _].
    + destruct (IH bs ltac:(lia)) as (xs1 & xs2 & bs1 & bs2 & -> & -> & H1 & H2 & H3 & H4). exists (x :: xs1), xs2, (b :: bs1), bs2.
      split_and!; try done; cbn; [lia | by constructor].
Qed.

(** The prefix lists of one kind: searching stops at the first that satisfies [f]. *)
Lemma find_list_spec s A L E X m k f : rep s A L E X ->
  exists xs1 xs2 bs1 bs2, L m k = xs1 ++ xs2 /\ bodies (lmem s) xs1 bs1 /\ bodies (lmem s) xs2 bs2 /\
    find_list s (sub_list k (masters s m)) f = Ok (nxt xs2 None) /\ Forall (fun b => f b = false) bs1 /\ (forall b r, bs2 = b :: r -> f b = true).
Proof.
  intros [RL _]. pose proof (l_lists _ _ _ RL m k) as D. destruct (dseg_bodies _ _ _ _ (dl_seg _ _ _ D)) as (bs & B).
  unfold find_list. rewrite (dll_find _ _ _ _ _ D B). pose proof (Forall2_length _ _ _ B) as Hl.
  destruct (find_split f _ _ Hl) as (xs1 & xs2 & bs1 & bs2 & HL & -> & H1 & -> & H3 & H4). rewrite HL in B.
  apply Forall2_app_inv in B as [B1 B2]; [| done]. exists xs1, xs2, bs1, bs2. done.
Qed.

Lemma strcmp_eqb a b : (strcmp a b =? 0) = bool_decide (a = b).
Proof. apply eq_true_iff_eq. by rewrite Z.eqb_eq, bool_decide_eq_true, strcmp_0. Qed.

Lemma find_name s A L E X m k nm : rep s A L E X ->
  exists r, find_list s (sub_list k (masters s m)) (fun p => strcmp (name p) nm =? 0) = Ok r /\
    match r with
    | Some p => exists n, lmem s !! p = Some n /\ pl_master (body n) = m /\ name (body n) = nm
    | None => forall p, key (lmem s) p <> Some (m, k, nm)
    end.
Proof.
  intros R. destruct (find_list_spec _ _ _ _ _ m k (fun p => strcmp (name p) nm =? 0) R) as (xs1 & xs2 & bs1 & bs2 & HL & B1 & B2 & -> & F1 & F2).
  eexists. split; [reflexivity |]. destruct R as [RL _]. destruct B2 as [|p b xs2 bs2 Hb B2]; cbn.
  - intros p Hp. assert (p ∈ xs1) as Hin. { rewrite <- (app_nil_r xs1), <- HL. apply RL. eauto. }
    apply key_inv in Hp as (n & Hn & _ & _ & En). apply list_elem_of_lookup in Hin as (i & Hi).
    destruct (Forall2_lookup_l _ _ _ _ _ B1 Hi) as (b & Hbi & Hb). rewrite Hn in Hb. cbn in Hb. simplify_eq.
    rewrite list.Forall_forall in F1. specialize (F1 (body n) (list_elem_of_lookup_2 _ _ _ Hbi)). cbn in F1. rewrite strcmp_eqb in F1.
    by rewrite bool_decide_eq_true_2 in F1.
  - specialize (F2 b bs2 eq_refl). cbn in F2. rewrite strcmp_eqb, bool_decide_eq_true in F2.
    apply fmap_Some in Hb as (n & Hn & ->). exists n. split; [done |]. split; [| done].
    assert (exists nm', key (lmem s) p = Some (m, k, nm')) as (nm' & Hk) by (apply RL; rewrite HL; set_solver).
    rewrite (key_Some _ _ _ Hn) in Hk. by simplify_eq.
Qed.

Lemma lookup_spec s A L E X afi m nm : rep s A L E X -> prefix_master_get afi = Some m ->
  exists r, prefix_list_lookup s afi (Some nm) = Ok r /\
    match r with
    | Some p => exists n, lmem s !! p = Some n /\ pl_master (body n) = m /\ name (body n) = nm
    | None => A m !! nm = None /\ forall p k, key (lmem s) p <> Some (m, k, nm)
    end.
Proof.
  intros R Hm. unfold prefix_list_lookup. rewrite Hm. destruct (find_name _ _ _ _ _ m PREFIX_TYPE_NUMBER nm R) as (r1 & E1 & H1).
  destruct (find_name _ _ _ _ _ m PREFIX_TYPE_STRING nm R) as (r2 & E2 & H2). cbn [sub_list] in E1, E2. rewrite E1, bind_ret.
  destruct r1 as [p |]; [by exists (Some p) |]. exists r2. split; [done |]. destruct r2 as [p |]; [done |].
  assert (forall p k, key (lmem s) p <> Some (m, k, nm)) as Hno by (intros p []; auto). split; [| done].
  destruct (A m !! nm) as [c |] eqn:Ha; [| done]. destruct (e_there _ _ _ _ _ (proj2 R) m nm c Ha) as (p & k & Hk). by apply Hno in Hk.
Qed.

(** The list with the given name is the one that is found. *)
Lemma rep_find s A L E X afi m nm d es : rep s A L E X -> prefix_master_get afi = Some m -> A m !! nm = Some (d, es) ->
  exists p n, prefix_list_lookup s afi (Some nm) = Ok (Some p) /\ lmem s !! p = Some n /\ pl_master (body n) = m /\ name (body n) = nm.
Proof.
  intros R Hm Ha. destruct (lookup_spec s A L E X afi m nm R Hm) as ([p |] & Hl & H); [| destruct H; congruence].
  destruct H as (n & Hn & H1 & H2). eauto 10.
Qed.

(** ** Changes of the heap of prefix lists *)

Definition lset (L : master_id -> prefix_name_type -> list ptr) (m : master_id) (k : prefix_name_type) (xs : list ptr) :
    master_id -> prefix_name_type -> list ptr := fun j i => if decide (j = m /\ i = k) then xs else L j i.

Lemma lists_disjoint h ms L m k m' k' p : lrep h ms L -> p ∈ L m k -> p ∈ L m' k' -> m' = m /\ k' = k.
Proof. intros R Hp Hp'. apply R in Hp as (nm & Hp), Hp' as (nm' & Hp'). rewrite Hp in Hp'. by simplify_eq. Qed.

Lemma key_bodies h h' q : body <$> h' !! q = body <$> h !! q -> key h' q = key h q.
Proof. unfold key. intros H. destruct (h' !! q), (h !! q); cbn in *; congruence. Qed.

Lemma erep_bodies eh h h' A E X : (forall q, body <$> h' !! q = body <$> h !! q) -> erep eh h A E X -> erep eh h' A E X.
Proof.
  intros H R. destruct R as [F1 F2 F3 F4 F5 F6 F7]. split; try done.
  - intros p n Hn. assert (body <$> h !! p = Some (body n)) as Hb by (by rewrite <- H, Hn). apply fmap_Some in Hb as (n' & Hn' & ->). by apply F1.
  - intros m nm c Ha. destruct (F2 m nm c Ha) as (p & k & Hk). exists p, k. rewrite <- Hk. by apply key_bodies.
  - intros p t Ht. destruct (F3 p t Ht) as (n & Hn). assert (body <$> h' !! p = Some (body n)) as Hb by (by rewrite H, Hn).
    apply fmap_Some in Hb as (n' & Hn' & _). eauto.
Qed.

Definition one_master (ms : master_id -> prefix_master) (m : master_id) (f : prefix_master -> prefix_master) : master_id -> prefix_master :=
  fun k => if decide (k = m) then f (ms k) else ms k.

Lemma sub_set_sub k l m : sub_list k (set_sub_list k l m) = l.
Proof. by destruct k. Qed.
Lemma sub_set_other k k' l m : k' <> k -> sub_list k' (set_sub_list k l m) = sub_list k' m.
Proof. by destruct k, k'. Qed.

(** The linked lists of the masters after one of them changed. *)
Lemma other_lists h h' ms L m k l xs f : lrep h ms L -> dll h' l xs -> (forall q, q ∉ xs -> h' !! q = h !! q) ->
  (forall m' k' p, p ∈ L m' k' -> p ∈ xs -> m' = m /\ k' = k) ->
  (forall k', sub_list k' (f (set_sub_list k l (ms m))) = sub_list k' (set_sub_list k l (ms m))) ->
  forall m' k', dll h' (sub_list k' (one_master ms m (fun j => f (set_sub_list k l j)) m')) (lset L m k xs m' k').
Proof.
  intros R D RL Hd Hf m' k'. unfold lset, one_master. destruct (decide (m' = m /\ k' = k)) as [[-> ->] | Hne].
  - rewrite decide_True, Hf, sub_set_sub by done. done.
  - assert (dll h' (sub_list k' (ms m')) (L m' k')) as D'.
    { eapply nd_dll_frame; [| apply R]. intros p Hp. apply RL. intros Hx. apply Hne. by eapply Hd. }
    destruct (decide (m' = m)) as [-> |]; [| done]. rewrite Hf, sub_set_other; [done |]. intros ->. by apply Hne.
Qed.

(** ** Inserting a prefix list *)

(** The cases of [prefix_list_insert] come to the same as linking before the point. *)
Lemma link_list_before h l xs1 xs2 p b :
  dll h l (xs1 ++ xs2) -> p ∉ xs1 ++ xs2 -> h !! p = Some (mk_node b None None) ->
  link_list h l (nxt xs2 None) p = link_before h l (nxt xs2 None) p.
Proof.
  intros [ND Hh Ht S] Hp Hn. unfold link_list, link_before. rewrite !(nd_upd_Ok h p _ _ Hn), !bind_ret. rewrite nd_nxt_app in Hh. rewrite lst_app in Ht.
  apply nd_dseg_app in S as [S1 S2]. destruct xs2 as [|y ys]; cbn [nxt].
  - change (set_next None (mk_node b None None)) with (mk_node b None None). rewrite (insert_id h p (mk_node b None None) Hn). cbn in Hh, Ht. rewrite Ht.
    destruct xs1 as [|x xs1 _] using rev_ind; cbn in Hh; rewrite ?Hh.
    + cbn. rewrite (nd_upd_Ok _ _ _ _ Hn), bind_ret. rewrite Ht. cbn. rewrite (insert_id h p (mk_node b None None) Hn). done.
    + assert (lst (xs1 ++ [x]) None = Some x) as Hlx by (by rewrite lst_app). rewrite Hlx in *. destruct (nd_dseg_node _ _ xs1 x [] _ S1) as (nx & Hnx & _).
      assert (x <> p) as Hxp by (intros ->; set_solver). unfold link_next.
      rewrite (nd_upd_Ok _ _ _ _ Hnx), !bind_ret. rewrite (nd_upd_Ok _ x nx), (nd_upd_Ok _ p (mk_node b None None)) by (by rewrite lookup_insert_ne).
      rewrite !bind_ret, Ht. rewrite insert_insert_ne by done. rewrite Hh. by destruct xs1.
  - destruct S2 as [(ny & Hny & Hyp & _) _]. assert (y <> p) as Hyp' by (intros ->; set_solver).
    assert (<[p := set_next (Some y) (mk_node b None None)]> h !! y = Some ny) as Hy1 by (by rewrite lookup_insert_ne).
    rewrite (nd_get_Ok _ _ _ Hy1), !bind_ret, Hyp. cbn [nxt] in Hh.
    destruct xs1 as [|x xs1 _] using rev_ind; cbn in Hh.
    + rewrite Hh, decide_True by done. cbn [lst list.last link_next]. rewrite (nd_upd_Ok h p _ _ Hn), !bind_ret, (nd_upd_Ok _ _ _ _ Hy1), (nd_get_Ok _ _ _ Hy1), !bind_ret, Hyp.
      erewrite nd_upd_Ok by apply lookup_insert_eq. rewrite bind_ret, insert_insert_eq. cbn [lst list.last].
      rewrite (nd_upd_Ok _ y ny) by (by rewrite lookup_insert_ne). done.
    + assert (lst (xs1 ++ [x]) None = Some x) as Hlx by (by rewrite lst_app). rewrite Hlx in *.
      destruct (nd_dseg_node _ _ xs1 x [] _ S1) as (nx & Hnx & _). assert (x <> p) as Hxp by (intros ->; set_solver).
      assert (x <> y) as Hxy. { intros ->. apply list.NoDup_app in ND as (_ & Hd & _). apply (Hd y); set_solver. }
      assert (exists hd, head l = Some hd /\ y <> hd) as (hd & Hhd & Hne).
      { rewrite Hh. destruct xs1 as [|z zs]; cbn; eexists; (split; [reflexivity |]); [congruence |]. intros ->.
        apply list.NoDup_app in ND as (_ & Hd & _). apply (Hd z); set_solver. }
      rewrite Hhd. rewrite decide_False by done. unfold link_next. rewrite ?(nd_upd_Ok h p _ _ Hn), ?bind_ret, ?(nd_get_Ok _ _ _ Hy1), ?bind_ret, Hyp. erewrite (nd_upd_Ok _ p) by apply lookup_insert_eq.
      rewrite (nd_upd_Ok _ x nx) by (by rewrite lookup_insert_ne). rewrite !bind_ret. rewrite insert_insert_eq.
      rewrite (nd_upd_Ok _ x nx) by (by rewrite lookup_insert_ne). rewrite (nd_get_Ok _ y ny) by (by rewrite !lookup_insert_ne).
      rewrite !bind_ret, Hyp, (nd_upd_Ok _ y ny) by (by rewrite !lookup_insert_ne).
      erewrite (nd_upd_Ok _ p) by (rewrite lookup_insert_ne by done; apply lookup_insert_eq). rewrite !bind_ret.
      rewrite (nd_upd_Ok _ y ny) by (by rewrite !lookup_insert_ne). rewrite bind_ret. f_equal. f_equal. f_equal.
      rewrite (insert_insert_ne _ p x), insert_insert_eq by done. done.
Qed.

Lemma fresh_key (h : lheap) : key h (fresh (dom h : gset positive)) = None.
Proof. unfold key. assert (h !! fresh (dom h : gset positive) = None) as -> by (apply (not_elem_of_dom (D := gset positive)), is_fresh). done. Qed.

(** A new node [p] with the key [(m, k, nm)] in its place among the prefix lists. *)
Lemma lrep_insert h ms L h' l' m k nm p xs1 xs2 :
  lrep h ms L -> key h p = None -> L m k = xs1 ++ xs2 -> k = name_type nm -> (forall q, key h q <> Some (m, k, nm)) ->
  key h' p = Some (m, k, nm) -> (forall q, q <> p -> key h' q = key h q) -> (forall q, q ∉ xs1 ++ p :: xs2 -> h' !! q = h !! q) ->
  dll h' l' (xs1 ++ p :: xs2) ->
  (forall nms1 nms2, Forall2 (fun p nm => key h p = Some (m, k, nm)) xs1 nms1 -> Forall2 (fun p nm => key h p = Some (m, k, nm)) xs2 nms2 ->
    StronglySorted (name_before k) (nms1 ++ nms2) -> StronglySorted (name_before k) (nms1 ++ nm :: nms2)) ->
  lrep h' (one_master ms m (set_sub_list k l')) (lset L m k (xs1 ++ p :: xs2)).
Proof.
  intros R Hp HL Hk Hno Kp Kq Hf D Ho.
  assert (forall m' k', p ∉ L m' k') as Hout by (intros m' k' H; apply R in H as (? & ?); congruence).
  assert (forall q m' k' nm', key h' q = Some (m', k', nm') -> q = p /\ (m', k', nm') = (m, k, nm) \/ q <> p /\ key h q = Some (m', k', nm')) as Kinv.
  { intros q m' k' nm' H. destruct (decide (q = p)) as [-> |]; [left; split; congruence | right; split; [done |]; by rewrite <- Kq]. }
  split.
  - apply (other_lists h h' ms L m k l' _ (fun j => j) R D Hf); [| done]. intros m' k' q Hq Hx.
    rewrite <- Permutation_middle, elem_of_cons in Hx. destruct Hx as [-> | Hx]; [by apply Hout in Hq |].
    rewrite <- HL in Hx. by eapply lists_disjoint.
  - intros m' k' q. unfold lset. destruct (decide (m' = m /\ k' = k)) as [[-> ->] | Hne].
    + rewrite <- Permutation_middle, elem_of_cons, <- HL, (l_in _ _ _ R). split.
      * intros [-> | (nm' & H)]; [by exists nm |]. exists nm'. rewrite Kq; [done |]. intros ->. congruence.
      * intros (nm' & H). destruct (Kinv _ _ _ _ H) as [[-> _] | [_ H']]; [by left | right; eauto].
    + rewrite (l_in _ _ _ R). split; intros (nm' & H).
      * exists nm'. rewrite Kq; [done |]. intros ->. congruence.
      * destruct (Kinv _ _ _ _ H) as [[-> [= -> -> _]] | [_ H']]; [by destruct Hne | eauto].
  - assert (forall m' k' xs nms, p ∉ xs -> Forall2 (fun p nm => key h' p = Some (m', k', nm)) xs nms -> Forall2 (fun p nm => key h p = Some (m', k', nm)) xs nms) as Hb.
    { intros m' k' xs nms Hx F. induction F as [|q n xs nms Hq F IH]; constructor; [rewrite <- Kq; [done |]; set_solver | set_solver]. }
    intros m' k' nms. unfold lset. destruct (decide (m' = m /\ k' = k)) as [[-> ->] | Hne].
    + intros F. apply Forall2_app_inv_l in F as (nms1 & nms2' & F1 & F2 & ->). apply Forall2_cons_inv_l in F2 as (nm' & nms2 & E & F2 & ->).
      rewrite Kp in E. simplify_eq. destruct (nodup_around (dl_nodup _ _ _ D)) as (_ & _ & P1 & P2 & _).
      apply Hb in F1, F2; [| done..]. apply Ho; [done | done |]. apply (l_order _ _ _ R m). rewrite HL. by apply Forall2_app.
    + intros F. apply (l_order _ _ _ R m' k'). apply Hb; [apply Hout | done].
  - intros q m' k' nm' H. destruct (Kinv _ _ _ _ H) as [[-> [= -> -> ->]] | [_ H']]; [done | by eapply l_type].
  - intros q q' m' k' nm' H H'. destruct (Kinv _ _ _ _ H) as [[-> E1] | [_ H1]], (Kinv _ _ _ _ H') as [[-> E2] | [_ H2]]; simplify_eq; try done;
      [by apply Hno in H2 | by apply Hno in H1 | by eapply l_unique].
  - intros m' q. unfold one_master. intros Hq. assert (recent (ms m') = Some q) as Hq' by (destruct (decide (m' = m)) as [-> |]; [by destruct k | done]).
    destruct (l_recent _ _ _ R m' q Hq') as (k' & nm' & H). exists k', nm'. rewrite Kq; [done |]. intros ->. congruence.
Qed.

(** A prefix list without entries joins. *)
Lemma erep_insert eh h A E X p n : erep eh h A E X -> h !! p = None -> A (pl_master (body n)) !! name (body n) = None ->
  entries (body n) = empty_list -> count (body n) = 0 -> desc (body n) = None ->
  erep eh (<[p := n]> h) (aset A (pl_master (body n)) (name (body n)) (None, [])) E X.
Proof.
  intros R Hp Ha He Hc Hd. assert (E p = []) as HE. { destruct (E p) as [|t r] eqn:Et; [done |]. destruct (e_owner _ _ _ _ _ R p t) as (m & Hm); [rewrite Et; by left | congruence]. }
  destruct R as [F1 F2 F3 F4 F5 F6 F7]. split; try done.
  - intros q m Hm. rewrite lookup_insert in Hm. case_decide; simplify_eq.
    + exists []. unfold aset. rewrite decide_True, lookup_insert_eq, HE, He, Hc, Hd by done. split_and!; try done; [apply dll_nil | constructor].
    + destruct (F1 q m Hm) as (es & Ha' & R). exists es. split; [| done]. unfold aset. destruct (decide (_ = _)) as [Em |]; [| done].
      rewrite lookup_insert_ne; [done |]. intros En. rewrite <- Em, En in Ha. congruence.
  - intros m nm c. unfold aset. assert (forall q m k nm, key h q = Some (m, k, nm) -> key (<[p := n]> h) q = Some (m, k, nm)) as Hk.
    { intros q m' k nm' H. unfold key in *. destruct (decide (q = p)) as [-> |]; [by rewrite Hp in H | by rewrite lookup_insert_ne]. }
    assert (forall m nm c, A m !! nm = Some c -> exists p0 k, key (<[p := n]> h) p0 = Some (m, k, nm)) as Hold.
    { intros m' nm' c' H. destruct (F2 _ _ _ H) as (q & k & H'). eauto. }
    destruct (decide (m = _)) as [-> |]; [| by apply Hold]. rewrite lookup_insert. case_decide as En; [intros _ | by apply Hold].
    exists p. rewrite <- En. erewrite key_Some by apply lookup_insert_eq. eauto.
  - intros q t Ht. destruct (F3 q t Ht) as (m & Hm). rewrite lookup_insert. case_decide; eauto.
Qed.

Lemma sorted_middle {T} (R : T -> T -> Prop) `{!Transitive R} (a b : list T) x :
  StronglySorted R (a ++ b) -> Forall (fun y => R y x) a -> (forall y r, b = y :: r -> R x y) -> StronglySorted R (a ++ x :: b).
Proof.
  induction a as [|y a IH]; cbn; intros S Fa Hb.
  - constructor; [done |]. destruct b as [|y r]; [constructor |]. specialize (Hb y r eq_refl). constructor; [done |].
    apply StronglySorted_inv in S as [_ F]. eapply Forall_impl; [exact F |]. intros z Hz. by transitivity y.
  - apply StronglySorted_inv in S as [S F]. inversion Fa; subst. constructor; [by apply IH |].
    rewrite Forall_app in F. destruct F as [F1 F2]. apply Forall_app. split; [done |]. by constructor.
Qed.

Instance name_before_trans k : Transitive (name_before k).
Proof. intros a b c. destruct k; cbn; [apply strcmp_trans | lia]. Qed.

(** The condition at which the search for the insertion point stops. *)
Definition stop_at (digits : bool) (number : Z) (nm : string) (p : plist) : bool :=
  if digits then number <=? atoi (name p) else 0 <=? strcmp (name p) nm.

(** The insertion point keeps the order of the names. *)
Lemma insert_point h m k nm v d xs1 xs2 bs1 bs2 : name_number 0 nm = Ok (v, d) -> k = name_type nm -> (forall q, key h q <> Some (m, k, nm)) ->
  bodies h xs1 bs1 -> bodies h xs2 bs2 -> Forall (fun b => stop_at d v nm b = false) bs1 -> (forall b r, bs2 = b :: r -> stop_at d v nm b = true) ->
  forall nms1 nms2, Forall2 (fun p nm => key h p = Some (m, k, nm)) xs1 nms1 -> Forall2 (fun p nm => key h p = Some (m, k, nm)) xs2 nms2 ->
    StronglySorted (name_before k) (nms1 ++ nms2) -> StronglySorted (name_before k) (nms1 ++ nm :: nms2).
Proof.
  intros Hv Hk Hno B1 B2 F1 F2 nms1 nms2 K1 K2 S. apply name_number_digits in Hv as [-> Hv]. unfold name_type in Hk.
  assert (forall xs bs nms, bodies h xs bs -> Forall2 (fun p nm => key h p = Some (m, k, nm)) xs nms -> nms = map name bs) as Hn.
  { intros xs bs nms B. revert nms. induction B as [|p b xs bs Hb B IH]; intros nms F; inversion F as [|? n ? nms' Hp F' ]; subst; [done |]. cbn.
    apply fmap_Some in Hb as (nd & Hnd & ->). rewrite (key_Some _ _ _ Hnd) in Hp. simplify_eq. f_equal. by apply IH. }
  apply sorted_middle; [apply _ | done | |].
  - rewrite (Hn _ _ _ B1 K1). apply Forall_map. eapply Forall_impl; [exact F1 |]. intros b Hb. unfold stop_at in Hb. subst k. cbn.
    destruct (all_digits nm) eqn:Hd; cbn.
    + rewrite Hv in Hb by done. rewrite (atoi_all_digits nm Hd). lia.
    + destruct (strcmp_values (name b) nm) as [|[|]]; lia.
  - intros y r Hy. destruct B2 as [|p b xs2 bs2 Hb B2]; inversion K2 as [|? y' ? r' Hp K2']; subst; [done |]. simplify_eq.
    specialize (F2 b bs2 eq_refl). unfold stop_at in F2. apply fmap_Some in Hb as (nd & Hnd & ->). rewrite (key_Some _ _ _ Hnd) in Hp.
    injection Hp as Em Et <-. destruct (all_digits nm) eqn:Hd; cbn.
    + rewrite Hv in F2 by done. rewrite (atoi_all_digits nm Hd). lia.
    + rewrite strcmp_opp. destruct (strcmp_values (name (body nd)) nm) as [|[H0 |]]; [lia | | lia].
      apply strcmp_0 in H0. destruct (Hno p). rewrite (key_Some _ _ _ Hnd). congruence.
Qed.

Lemma insert_spec s A L E X afi m nm v : rep s A L E X -> prefix_master_get afi = Some m -> A m !! nm = None ->
  (forall p k, key (lmem s) p <> Some (m, k, nm)) -> name_number 0 nm = Ok v ->
  exists s' p n L', prefix_list_insert s afi nm = Ok (s', Some p) /\ emem s' = emem s /\
    lmem s' !! p = Some n /\ pl_master (body n) = m /\ name (body n) = nm /\ rep s' (aset A m nm (None, [])) L' E X.
Proof.
  intros [RL RE] Hm Ha Hno Hv. destruct v as [v d]. set (p := fresh (dom (lmem s) : gset positive)).
  set (b := mk_plist nm None m (name_type nm) 0 0 empty_list). set (h1 := <[p := mk_node b None None]> (lmem s)).
  assert (lmem s !! p = None) as Hp by (apply (not_elem_of_dom (D := gset positive)), is_fresh).
  assert (key (lmem s) p = None) as Kp by (unfold key; by rewrite Hp). pose proof (name_number_digits _ _ _ _ Hv) as [Hd _].
  set (k := name_type nm). assert (forall m' k', p ∉ L m' k') as Hout by (intros m' k' H; apply RL in H as (? & ?); congruence).
  assert (dll h1 (sub_list k (masters s m)) (L m k)) as D1.
  { eapply nd_dll_frame; [| apply RL]. intros q Hq. apply lookup_insert_ne. intros <-. by apply Hout in Hq. }
  destruct (dseg_bodies _ _ _ _ (dl_seg _ _ _ D1)) as (bs & B). pose proof (Forall2_length _ _ _ B) as Hl.
  destruct (find_split (stop_at d v nm) _ _ Hl) as (xs1 & xs2 & bs1 & bs2 & HL & -> & Hl1 & Hfind & F1 & F2).
  pose proof (dll_find _ _ _ _ (stop_at d v nm) D1 B) as Hfn. rewrite Hfind in Hfn. rewrite HL in D1, B. apply Forall2_app_inv in B as [B1 B2]; [| done].
  assert (p ∉ xs1 ++ xs2) as Hp' by (rewrite <- HL; apply Hout). assert (h1 !! p = Some (mk_node b None None)) as Hp1 by apply lookup_insert_eq.
  destruct (link_before_spec _ _ _ _ _ _ D1 Hp' Hp1) as (h' & El & D' & RL'). rewrite <- (link_list_before _ _ _ _ _ _ D1 Hp' Hp1) in El.
  set (l' := mk_dlist _ _) in *.
  assert (prefix_list_insert s afi nm = Ok (upd_master m (set_sub_list k l') (set_lmem h' (set_lmem h1 s)), Some p)) as ->.
  { unfold prefix_list_insert. rewrite Hm, Hv, bind_ret. cbn [fst snd]. fold p. rewrite Hd. fold (name_type nm). fold b. fold h1. fold k.
    unfold find_list. cbn [lmem set_lmem masters]. unfold stop_at in Hfn. rewrite Hd in Hfn. rewrite Hfn, bind_ret, El. done. }
  assert (forall q, q <> p -> h1 !! q = lmem s !! q) as Hh1 by (intros q Hq; by apply lookup_insert_ne).
  assert (forall q, q <> p -> key h' q = key (lmem s) q) as Kq.
  { intros q Hq. apply key_bodies. rewrite (proj2 RL'). by rewrite Hh1. }
  assert (exists n, h' !! p = Some n /\ body n = b) as (n & Hn & Hb).
  { pose proof (proj2 RL' p) as H. rewrite Hp1 in H. apply fmap_Some in H as (n & Hn & Hb). by exists n. }
  assert (forall xs bs, p ∉ xs -> bodies h1 xs bs -> bodies (lmem s) xs bs) as Hbs.
  { intros xs bs Hx. apply bodies_frame. intros q Hq. rewrite Hh1; [done |]. by intros ->. }
  exists (upd_master m (set_sub_list k l') (set_lmem h' (set_lmem h1 s))), p, n, (lset L m k (xs1 ++ p :: xs2)).
  split; [done |]. split; [done |]. split; [done |]. rewrite Hb. do 2 (split; [done |]). split.
  - cbn. apply (lrep_insert (lmem s) (masters s) L h' l' m k nm p xs1 xs2); try done.
    + rewrite (key_Some _ _ _ Hn), Hb. done.
    + intros q Hq. rewrite (proj1 RL') by set_solver. apply Hh1. set_solver.
    + eapply insert_point; [exact Hv | done | intros q; apply Hno | | | done | done]; apply Hbs; set_solver.
  - cbn. apply (erep_bodies _ h1); [intros q; apply RL' |]. apply (erep_insert _ _ _ _ _ p (mk_node b None None) RE Hp); done.
Qed.

Lemma get_spec s A L E X afi m nm v : rep s A L E X -> prefix_master_get afi = Some m -> name_number 0 nm = Ok v ->
  exists s' p n L', prefix_list_get s afi nm = Ok (s', Some p) /\ emem s' = emem s /\
    lmem s' !! p = Some n /\ pl_master (body n) = m /\ name (body n) = nm /\ rep s' (aset A m nm (contents_of A m nm)) L' E X.
Proof.
  intros R Hm Hv. unfold prefix_list_get, contents_of. destruct (lookup_spec s A L E X afi m nm R Hm) as (r & -> & H). rewrite bind_ret.
  destruct r as [p |].
  - destruct H as (n & Hn & H1 & H2). exists s, p, n, L. split_and!; try done. eapply rep_ext; [| exact R]. intros m'. unfold aset.
    destruct (decide (m' = m)) as [-> |]; [| done]. destruct (rep_content R p n Hn) as (es & Ha & _). rewrite H1, H2 in Ha. rewrite Ha. cbn.
    by rewrite insert_id.
  - destruct H as [Ha Hno]. rewrite Ha. cbn. by eapply insert_spec.
Qed.

(** ** Deleting a prefix list *)

Lemma free_entries_spec h xs : forall p fuel cnt, NoDup xs -> dseg h p xs None -> (length xs < fuel)%nat ->
  exists h', free_entries fuel h (nxt xs None) cnt = Ok (h', cnt - Z.of_nat (length xs)) /\
    (forall t, t ∈ xs -> h' !! t = None) /\ (forall t, t ∉ xs -> h' !! t = h !! t).
Proof.
  revert h. induction xs as [|t xs IH]; intros h p fuel cnt ND S Hf.
  - exists h. cbn. rewrite Z.sub_0_r. split_and!; [by destruct fuel | set_solver | done].
  - destruct fuel as [|fu]; [lia |]. apply list.NoDup_cons in ND as [Ht ND]. destruct S as [(n & Hn & _ & Hx) S]. cbn [nxt free_entries].
    rewrite (nd_get_Ok _ _ _ Hn), bind_ret, Hx. destruct (IH (delete t h) (Some t) fu (cnt - 1) ND) as (h' & -> & H1 & H2); [| cbn in Hf; lia |].
    + eapply nd_dseg_frame; [| exact S]. intros x Hx'. apply lookup_delete_ne. by intros <-.
    + exists h'. split; [do 2 f_equal; cbn; lia |]. split; intros x Hx'.
      * rewrite elem_of_cons in Hx'. destruct (decide (x ∈ xs)); [by apply H1 |]. destruct Hx' as [-> |]; [| done]. rewrite H2 by done. apply lookup_delete_eq.
      * rewrite H2 by set_solver. apply lookup_delete_ne. set_solver.
Qed.

Lemma lrep_delete h ms L h' l' m k p xs1 xs2 :
  lrep h ms L -> L m k = xs1 ++ p :: xs2 -> h' !! p = None -> (forall q, q <> p -> key h' q = key h q) ->
  (forall q, q ∉ xs1 ++ p :: xs2 -> h' !! q = h !! q) -> dll h' l' (xs1 ++ xs2) ->
  lrep h' (one_master ms m (fun j => set_recent None (set_sub_list k l' j))) (lset L m k (xs1 ++ xs2)).
Proof.
  intros R HL Hp Kq Hf D. assert (key h' p = None) as Kp by (unfold key; by rewrite Hp).
  assert (forall q m' k' nm', key h' q = Some (m', k', nm') -> q <> p /\ key h q = Some (m', k', nm')) as Kinv.
  { intros q m' k' nm' H. destruct (decide (q = p)) as [-> | Hq]; [congruence |]. split; [done |]. by rewrite <- Kq. }
  assert (exists nmp, key h p = Some (m, k, nmp)) as (nmp & Kpp) by (apply R; rewrite HL; set_solver).
  assert (NoDup (xs1 ++ p :: xs2)) as ND by (rewrite <- HL; apply R). destruct (nodup_around ND) as (_ & _ & P1 & P2 & _).
  split.
  - intros m' k'. unfold lset, one_master. destruct (decide (m' = m /\ k' = k)) as [[-> ->] | Hne].
    + rewrite decide_True by done. replace (sub_list k (set_recent None (set_sub_list k l' (ms m)))) with l' by (by destruct k). done.
    + assert (dll h' (sub_list k' (ms m')) (L m' k')) as D'.
      { eapply nd_dll_frame; [| apply R]. intros q Hq. apply Hf. intros Hx. apply Hne. rewrite <- HL in Hx. by eapply lists_disjoint. }
      destruct (decide (m' = m)) as [-> |]; [| done]. destruct k, k'; cbn in *; try done; by destruct Hne.
  - intros m' k' q. assert (q ∈ lset L m k (xs1 ++ xs2) m' k' <-> q <> p /\ q ∈ L m' k') as ->.
    { unfold lset. destruct (decide (m' = m /\ k' = k)) as [[-> ->] | Hne]; [rewrite HL; set_solver |].
      split; [intros Hq; split; [| done] | tauto]. intros ->. apply Hne. eapply (lists_disjoint _ _ _ _ _ _ _ p R); [| done]. rewrite HL. set_solver. }
    rewrite (l_in _ _ _ R). split.
    + intros [Hq (nm & H)]. exists nm. by rewrite Kq.
    + intros (nm & H). apply Kinv in H as [Hq H]. eauto.
  - intros m' k' nms. assert (forall xs, Forall2 (fun p nm => key h' p = Some (m', k', nm)) xs nms -> Forall2 (fun p nm => key h p = Some (m', k', nm)) xs nms) as Hb.
    { intros xs F. eapply Forall2_impl; [exact F |]. intros q nm H. cbn in H. by apply Kinv in H as [_ H]. }
    unfold lset. destruct (decide (m' = m /\ k' = k)) as [[-> ->] | Hne]; intros F; apply Hb in F; [| by apply (l_order _ _ _ R m' k')].
    apply Forall2_app_inv_l in F as (nms1 & nms2 & F1 & F2 & ->).
    assert (StronglySorted (name_before k) (nms1 ++ nmp :: nms2)) as S. { apply (l_order _ _ _ R m k). rewrite HL. apply Forall2_app; [done |]. by constructor. }
    clear -S. induction nms1 as [|x nms1 IH]; cbn in *; apply StronglySorted_inv in S as [S F]; [done |]. constructor; [by apply IH |].
    rewrite Forall_app, Forall_cons in F. apply Forall_app. tauto.
  - intros q m' k' nm H. apply Kinv in H as [_ H]. by eapply l_type.
  - intros q q' m' k' nm H H'. apply Kinv in H as [_ H], H' as [_ H']. by eapply l_unique.
  - intros m' q. unfold one_master. destruct (decide (m' = m)) as [-> | Hne]; [done |]. intros Hq. destruct (l_recent _ _ _ R m' q Hq) as (k' & nm & H).
    exists k', nm. rewrite Kq; [done |]. intros ->. congruence.
Qed.

Lemma erep_delete eh h eh' A E p n ms L : lrep h ms L -> erep eh h A E [] -> h !! p = Some n ->
  (forall t, t ∈ E p -> eh' !! t = None) -> (forall t, t ∉ E p -> eh' !! t = eh !! t) ->
  erep eh' (delete p h) (adel A (pl_master (body n)) (name (body n))) (eset E p []) [].
Proof.
  intros RL R Hn H1 H2. destruct R as [F1 F2 F3 F4 F5 F6 F7].
  assert (forall q t, q <> p -> t ∈ E q -> eh' !! t = eh !! t) as Ho by (intros q t Hq Ht; apply H2; intros Ht'; apply Hq; by eapply F4).
  split.
  - intros q m Hm. rewrite lookup_delete in Hm. case_decide as Hq; [done |]. destruct (F1 q m Hm) as (es & Ha & D & B & Hc). exists es.
    unfold eset, adel. rewrite (decide_False (P := q = p)) by done. split_and!; [| | | done].
    + destruct (decide (_ = _)) as [Em |]; [| done]. rewrite lookup_delete_ne; [done |]. intros En. apply Hq. symmetry.
      eapply (lrep_unique _ _ _ q p (pl_master (body m)) _ (pl_type (body n)) (name (body m)) RL); [by apply key_Some |]. rewrite (key_Some _ _ _ Hn). congruence.
    + eapply nd_dll_frame; [| exact D]. intros t Ht. by apply (Ho q).
    + eapply bodies_frame; [| exact B]. intros t Ht. f_equal. by apply (Ho q).
  - intros m nm c. assert (forall m nm c, A m !! nm = Some c -> (m, nm) <> (pl_master (body n), name (body n)) ->
      exists p0 k, key (delete p h) p0 = Some (m, k, nm)) as Hold.
    { intros m' nm' c' H Hne. destruct (F2 _ _ _ H) as (q & k & Hk). exists q, k. unfold key in *. rewrite lookup_delete_ne; [done |]. intros <-. rewrite Hn in Hk. cbn in Hk. simplify_eq. }
    unfold adel. destruct (decide (m = _)) as [-> |]; [rewrite lookup_delete; case_decide as En; [done |] |]; intros H; eapply Hold; eauto; congruence.
  - intros q t. unfold eset. destruct (decide (q = p)) as [-> | Hq]; intros Ht; [by apply not_elem_of_nil in Ht |]. destruct (F3 q t Ht) as (m & Hm). exists m. by rewrite lookup_delete_ne.
  - intros q q' t. unfold eset. destruct (decide (q = p)), (decide (q' = p)); intros Ht Ht'; [congruence | by apply not_elem_of_nil in Ht | by apply not_elem_of_nil in Ht' | by eapply F4].
  - intros q t _. apply not_elem_of_nil.
  - intros t m Hm. destruct (decide (t ∈ E p)) as [Ht | Ht]; [by rewrite H1 in Hm |]. rewrite H2 in Hm by done. destruct (F6 t m Hm) as [| (q & Hq)]; [by left |].
    right. exists q. unfold eset. rewrite decide_False; [done |]. by intros ->.
  - intros t Ht. by apply not_elem_of_nil in Ht.
Qed.

Lemma filter_notin (p : ptr) (xs : list ptr) : p ∉ xs -> filter (fun q => q <> p) xs = xs.
Proof.
  induction xs as [|x xs IH]; [done |]. rewrite not_elem_of_cons. intros [H1 H2]. rewrite filter_cons_True by congruence. f_equal. by apply IH.
Qed.

Lemma plist_delete_spec s A L E p n : rep s A L E [] -> lmem s !! p = Some n ->
  exists s' L' E', prefix_list_delete s p = Ok s' /\ rep s' (adel A (pl_master (body n)) (name (body n))) L' E' [] /\
    (forall q, q <> p -> body <$> lmem s' !! q = body <$> lmem s !! q) /\
    L' = lset L (pl_master (body n)) (pl_type (body n)) (filter (fun q => q <> p) (L (pl_master (body n)) (pl_type (body n)))).
Proof.
  intros [RL RE] Hn. set (m := pl_master (body n)). set (k := pl_type (body n)).
  destruct (e_entries _ _ _ _ _ RE p n Hn) as (es & Ha & De & Be & Hc).
  assert (p ∈ L m k) as Hp by (apply RL; exists (name (body n)); by apply key_Some). apply list_elem_of_split in Hp as (xs1 & xs2 & HL).
  destruct (free_entries_spec (emem s) (E p) None (walk_fuel (emem s)) (count (body n)) (dl_nodup _ _ _ De) (dl_seg _ _ _ De)) as (eh & Ef & Hf1 & Hf2); [by eapply dll_size |].
  rewrite <- (dl_head _ _ _ De) in Ef. set (c := count (body n) - _) in *. set (n1 := set_body (set_count c) n). set (h1 := <[p := n1]> (lmem s)).
  assert (lrep h1 (masters s) L) as RL1 by (by apply lrep_body).
  assert (h1 !! p = Some n1) as Hn1 by apply lookup_insert_eq. pose proof (l_lists _ _ _ RL1 m k) as D. rewrite HL in D.
  destruct (dll_unlink_back _ _ _ _ _ _ D Hn1) as (h2 & h3 & E2 & Hn2 & E3 & D3 & RK). set (l' := mk_dlist (nxt (xs1 ++ xs2) None) (lst (xs1 ++ xs2) None)) in *.
  set (s1 := mk_plists eh (delete p h3) (one_master (masters s) m (fun j => set_recent None (set_sub_list k l' j))) (called s)).
  assert (prefix_list_delete s p = Ok (call_hook (delete_hook (masters s1 m)) None s1)) as ->.
  { unfold prefix_list_delete, get_plist. rewrite (nd_get_Ok _ _ _ Hn), !bind_ret, Ef, bind_ret. unfold upd_plist. cbn [lmem set_emem].
    rewrite (nd_upd_Ok _ _ _ _ Hn), !bind_ret. fold n1. fold h1. fold m k. cbn [lmem set_lmem masters set_emem]. rewrite (nd_get_Ok _ _ _ Hn1), bind_ret, E2, bind_ret.
    rewrite (nd_get_Ok _ _ _ Hn2), bind_ret, E3, bind_ret. reflexivity. }
  assert (forall q, q <> p -> body <$> delete p h3 !! q = body <$> lmem s !! q) as Hb.
  { intros q Hq. rewrite lookup_delete_ne by done. rewrite (proj2 RK). unfold h1. by rewrite lookup_insert_ne. }
  assert (NoDup (xs1 ++ p :: xs2)) as ND by (rewrite <- HL; apply RL). destruct (nodup_around ND) as (_ & _ & P1 & P2 & _).
  eexists _, (lset L m k (xs1 ++ xs2)), (eset E p []). split; [reflexivity |]. split; [| split].
  - apply rep_hook. split; cbn.
    + apply (lrep_delete h1 _ _ (delete p h3) l' m k p); try done.
      * apply lookup_delete_eq.
      * intros q Hq. apply key_bodies. rewrite lookup_delete_ne by done. apply RK.
      * intros q Hq. rewrite lookup_delete_ne by set_solver. apply RK. set_solver.
      * eapply nd_dll_frame; [| exact D3]. intros q Hq. apply lookup_delete_ne. set_solver.
    + apply (erep_bodies _ (delete p (lmem s))); [| by eapply erep_delete].
      intros q. destruct (decide (q = p)) as [-> |]; [by rewrite !lookup_delete_eq | by rewrite Hb, lookup_delete_ne].
  - intros q Hq. destruct (delete_hook _); by apply Hb.
  - fold m k. rewrite HL, filter_app, filter_cons_False by tauto. by rewrite !filter_notin.
Qed.
