(* ===== verification/PlistRefine.v ===== *)
(** * lib/plist.c refines its specification

    [run_op] is one call that a daemon makes: a command, a verdict, a filter from a neighbour, a reset.  [spec_op] is
    its effect on the finite maps of PlistRep.  Every call returns, and the two agree on the value returned and
    on the contents afterwards. *)

From S2P Require Import Prelude CString Prefix Inet PrefixText DList Plist PlistCmd PlistRep PlistEntry PlistLists.
Local Open Scope Z_scope.

(** [s] holds the contents [A]. *)
Definition reps (s : plists) (A : abs) : Prop := exists L E, rep s A L E [].

Lemma reps_ext s A A' : (forall m, A m = A' m) -> reps s A -> reps s A'.
Proof. intros H (L & E & R). exists L, E. by eapply rep_ext. Qed.

Lemma aset_id A m nm c k : A m !! nm = Some c -> aset A m nm c k = A k.
Proof. intros H. unfold aset. destruct (decide (k = m)) as [-> |]; [by rewrite insert_id | done]. Qed.

(** ** Removing *)

(** The second half of [prefix_list_entry_delete]. *)
Definition after_delete (s : plists) (p : ptr) : res plists :=
  pl ← get_plist s p;
  let s := call_hook (delete_hook (masters s (pl_master pl))) (Some p) s in
  if is_null (head (entries pl)) && is_null (tail (entries pl)) && bool_decide (desc pl = None)
  then prefix_list_delete s p
  else Ok (upd_master (pl_master pl) (set_recent (Some p)) s).

Lemma entry_delete_split s p t s1 : prefix_list_entry_delete s (Some p) (Some t) false = Ok s1 ->
  prefix_list_entry_delete s (Some p) (Some t) true = after_delete s1 p.
Proof.
  unfold prefix_list_entry_delete. intros H. apply bind_Ok in H as (pl & -> & H). rewrite bind_ret. apply bind_Ok in H as (n & -> & H). rewrite bind_ret.
  apply bind_Ok in H as ([h l] & -> & H). rewrite bind_ret. apply bind_Ok in H as (n2 & -> & H). rewrite bind_ret.
  apply bind_Ok in H as ([h2 l2] & -> & H). rewrite bind_ret. apply bind_Ok in H as (s2 & -> & [= ->]). by rewrite bind_ret.
Qed.

Lemma delete_called s A L E p n : rep s A L E [] -> lmem s !! p = Some n ->
  exists s', prefix_list_delete s p = Ok s' /\ reps s' (adel A (pl_master (body n)) (name (body n))).
Proof. intros R Hn. destruct (plist_delete_spec s A L E p n R Hn) as (s' & L' & E' & H1 & H2 & _). exists s'. split; [done |]. by exists L', E'. Qed.

Lemma aset_lookup A m nm c : aset A m nm c m !! nm = Some c.
Proof. unfold aset. by rewrite decide_True, lookup_insert_eq. Qed.

(** A list that lost an entry, or its description, goes when nothing is left of it. *)
Lemma settled_now s A L E p n d es : rep s A L E [] -> lmem s !! p = Some n -> A (pl_master (body n)) !! name (body n) = Some (d, es) ->
  is_null (head (entries (body n))) && is_null (tail (entries (body n))) && bool_decide (desc (body n) = None) = bool_decide (es = [] /\ d = None).
Proof.
  intros R Hn Ha. destruct (rep_list_at R p n d es Hn Ha) as (_ & Hd & D & _ & _ & Hl). rewrite (dl_head _ _ _ D), (dl_tail _ _ _ D), Hd.
  destruct (E p) as [|x xs], es as [|e es]; cbn in Hl |- *; try lia; repeat case_bool_decide; tauto.
Qed.

Lemma settle_del A m nm c k : settle (aset A m nm c) m nm (None, []) k = adel A m nm k.
Proof. cbn. unfold adel, aset. destruct (decide (k = m)); [by rewrite delete_insert_eq | done]. Qed.

Lemma after_delete_spec s A L E p n d es : rep s A L E [] -> lmem s !! p = Some n -> A (pl_master (body n)) !! name (body n) = Some (d, es) ->
  exists s', after_delete s p = Ok s' /\ reps s' (settle A (pl_master (body n)) (name (body n)) (d, es)).
Proof.
  intros R Hn Ha. destruct (rep_list_at R p n d es Hn Ha) as (Hg & _). unfold after_delete. rewrite Hg, bind_ret, (settled_now s A L E p n d es R Hn Ha). cbn zeta.
  set (s1 := call_hook _ _ s). assert (rep s1 A L E []) as R1 by (by apply rep_hook). assert (lmem s1 = lmem s) as Hl1 by (unfold s1; by destruct (delete_hook _)).
  case_bool_decide as Hc.
  - destruct Hc as [-> ->]. cbn [settle]. rewrite <- Hl1 in Hn. by apply (delete_called s1 A L E p n).
  - eexists. split; [reflexivity |]. apply (reps_ext _ A).
    { intros m. assert (settle A (pl_master (body n)) (name (body n)) (d, es) = aset A (pl_master (body n)) (name (body n)) (d, es)) as ->.
      { destruct d, es; try done. by destruct Hc. } symmetry. by apply aset_id. }
    exists L, E. apply rep_master; [by intros [] | | done]. cbn. intros q [= <-]. rewrite Hl1. rewrite (key_Some _ _ _ Hn). eauto.
Qed.

Lemma settle_aset A m nm c c' k : settle (aset A m nm c) m nm c' k = settle A m nm c' k.
Proof.
  destruct c' as [[]  [|]]; cbn; try apply aset_aset. unfold adel, aset. destruct (decide (k = m)); [by rewrite delete_insert_eq | done].
Qed.

(** Looking an entry up and deleting it. *)
Definition remove_entry (s : plists) (p : ptr) (f : entry -> bool) : res (plists * Z) :=
  pentry ← find_entry s p f;
  match pentry with
  | None => Ok (s, CMD_WARNING)
  | Some pentry => s ← prefix_list_entry_delete s (Some p) (Some pentry) true; Ok (s, CMD_SUCCESS)
  end.

Lemma remove_entry_spec s A L E p n d es f : rep s A L E [] -> lmem s !! p = Some n -> A (pl_master (body n)) !! name (body n) = Some (d, es) ->
  exists s', remove_entry s p f = Ok (s', (spec_remove A (pl_master (body n)) (name (body n)) f).2) /\
    reps s' (spec_remove A (pl_master (body n)) (name (body n)) f).1.
Proof.
  intros R Hn Ha. destruct (rep_list_at R p n d es Hn Ha) as (_ & _ & _ & _ & _ & Hl). unfold remove_entry, spec_remove.
  rewrite (find_entry_spec R p n d es f Hn Ha), bind_ret, Ha. pose proof (find_zip f (E p) es Hl) as Hf.
  destruct (List.find _ (zip (E p) es)) as [[t e]|]; cbn [fmap option_fmap option_map fst].
  - destruct Hf as (xs1 & xs2 & es1 & es2 & HE & -> & Hl1 & Hfind & _ & Hrm & _). rewrite Hfind, Hrm. cbn [fst snd].
    destruct (entry_unlinked R p n t xs1 xs2 es1 e es2 d Hn HE Ha Hl1) as (s1 & Hd & _ & (l & Hlm) & _ & R1).
    rewrite (entry_delete_split _ _ _ _ Hd). set (n1 := set_body _ n) in Hlm. assert (lmem s1 !! p = Some n1) as Hn1 by (rewrite Hlm; apply lookup_insert_eq).
    destruct (after_delete_spec s1 _ L _ p n1 d (es1 ++ es2) R1 Hn1) as (s' & -> & R'); [apply aset_lookup |]. rewrite bind_ret. exists s'. split; [done |].
    eapply reps_ext; [| exact R']. intros m. apply settle_aset.
  - destruct Hf as [-> _]. exists s. split; [done |]. by exists L, E.
Qed.

(** ** Adding *)

(** The copy of a prefix that an entry gets. *)
Definition copied (p : prefix) : prefix := match prefix_copy prefix_new p with Ok q => q | _ => prefix_new end.
Definition made (p : prefix) (type : prefix_list_type) (seq le ge any : Z) : entry :=
  mk_entry seq le ge type (if any =? 0 then 0 else 1) (copied p) 0 0.
Definition family_ok (p : prefix) : Prop := family p = AF_INET \/ family p = AF_INET6.

Lemma copied_Ok p : family_ok p -> prefix_copy prefix_new p = Ok (copied p).
Proof. intros Hf. unfold copied, prefix_copy. destruct Hf as [-> | ->]; done. Qed.

Definition add_made (s : plists) (plist : option ptr) (p : prefix) (type : prefix_list_type) (seq le ge any : Z) : res (plists * Z) :=
  '(s, pentry) ← prefix_list_entry_make s p type seq le ge any;
  match plist with
  | None => Oob
  | Some plist =>
      dup ← prefix_entry_dup_check s plist pentry;
      match dup with
      | Some _ => Ok (prefix_list_entry_free s pentry, CMD_WARNING)
      | None => s ← prefix_list_entry_add s plist pentry; Ok (s, CMD_SUCCESS)
      end
  end.

Lemma find_existsb {T} (f : T -> bool) l : existsb f l = match List.find f l with Some _ => true | None => false end.
Proof. induction l as [|x l IH]; cbn; [done |]. by destruct (f x). Qed.

Lemma add_made_spec s A L E p n d es pfx type seq le ge any :
  rep s A L E [] -> lmem s !! p = Some n -> A (pl_master (body n)) !! name (body n) = Some (d, es) -> family_ok pfx ->
  (seq = -1 -> next_seq es <= INT_MAX) ->
  exists s', add_made s (Some p) pfx type seq le ge any =
      Ok (s', (spec_add A (pl_master (body n)) (name (body n)) (made pfx type seq le ge any)).2) /\
    reps s' (spec_add A (pl_master (body n)) (name (body n)) (made pfx type seq le ge any)).1.
Proof.
  intros R Hn Ha Hf Hs. set (e := made pfx type seq le ge any). unfold add_made, prefix_list_entry_make. cbn [e_prefix entry_zero].
  rewrite (copied_Ok pfx Hf), !bind_ret. change (mk_entry seq le ge type _ (copied pfx) _ _) with e.
  set (t := fresh (dom (emem s) : gset positive)). set (s1 := set_emem _ s). pose proof (rep_make R e eq_refl) as R1. fold t s1 in R1.
  assert (lmem s1 !! p = Some n) as Hn1 by done. assert (emem s1 !! t = Some (mk_node e None None)) as Ht by apply lookup_insert_eq.
  assert (prefix_entry_dup_check s1 p t = Ok (fst <$> List.find (fun x => same_policy x.2 e && negb (e_seq x.2 =? seq_for e es)) (zip (E p) es))) as ->.
  { unfold prefix_entry_dup_check. rewrite (nd_get_Ok _ _ _ Ht), bind_ret. cbn [body].
    assert ((if e_seq e =? -1 then prefix_new_seq_get s1 p else Ok (e_seq e)) = Ok (seq_for e es)) as ->.
    { unfold seq_for. destruct (Z.eqb_spec (e_seq e) (-1)) as [Em |]; [| done]. rewrite (new_seq_spec R1 p n d es Hn1 Ha). specialize (Hs Em).
      destruct (Z.gtb_spec (next_seq es) INT_MAX); [lia | done]. }
    rewrite bind_ret. by apply (find_entry_spec R1 p n d es). }
  rewrite bind_ret. unfold spec_add, contents_of. rewrite Ha. change (default (None, []) (Some (d, es))) with (d, es). cbv iota zeta. unfold has_dup. rewrite find_existsb.
  destruct (rep_list_at R p n d es Hn Ha) as (_ & _ & _ & _ & _ & Hl). pose proof (find_zip (fun x => same_policy x e && negb (e_seq x =? seq_for e es)) (E p) es Hl) as Hfz.
  destruct (List.find _ (zip (E p) es)) as [[q o]|]; cbn [fmap option_fmap option_map fst].
  - destruct Hfz as (? & ? & ? & ? & _ & _ & _ & -> & _). eexists. split; [reflexivity |]. exists L, E.
    assert (prefix_list_entry_free s1 t = s) as ->; [| done]. unfold prefix_list_entry_free, s1. destruct s as [eh lh ms c]. unfold set_emem. cbn. f_equal.
    apply delete_insert_id. apply (not_elem_of_dom (D := gset positive)), is_fresh.
  - destruct Hfz as [-> _]. destruct (entry_add_spec s1 A L E t p n (mk_node e None None) d es R1 Hn1 Ha Ht Hs) as (s' & E' & -> & R').
    rewrite bind_ret. exists s'. split; [done |]. by exists L, E'.
Qed.

(** ** Verdicts and counters *)

Lemma apply_spec s A L E p n d es q : rep s A L E [] -> lmem s !! p = Some n -> A (pl_master (body n)) !! name (body n) = Some (d, es) ->
  exists s', prefix_list_apply s (Some p) q = Ok (s', verdict es q) /\ reps s' (aset A (pl_master (body n)) (name (body n)) (d, counted es q)).
Proof.
  intros R Hn Ha. destruct (rep_list_at R p n d es Hn Ha) as (Hg & _ & D & B & Hc & Hl). unfold prefix_list_apply. rewrite Hg, bind_ret, Hc.
  destruct (apply_loop_spec (emem s) (E p) es q None (walk_fuel (emem s)) (dl_nodup _ _ _ D) (dl_seg _ _ _ D) B) as (h' & Ha' & RB & B'); [by eapply dll_size |].
  rewrite <- (dl_head _ _ _ D) in Ha'. unfold verdict. destruct es as [|e es]; cbn [length].
  - exists s. split; [done |]. exists L, E. eapply rep_ext; [| exact R]. intros m. symmetry. by apply aset_id.
  - destruct (Z.eqb_spec (Z.of_nat (S (length es))) 0); [lia |]. rewrite Ha', bind_ret. eexists. split; [reflexivity |]. exists L, E. by eapply rep_bodies.
Qed.

Lemma clear_list_spec s A L E p n d es f : rep s A L E [] -> lmem s !! p = Some n -> A (pl_master (body n)) !! name (body n) = Some (d, es) ->
  exists s', clear_list s p f = Ok s' /\ lmem s' = lmem s /\ masters s' = masters s /\
    rep s' (aset A (pl_master (body n)) (name (body n)) (d, cleared f es)) L E [].
Proof.
  intros R Hn Ha. destruct (rep_list_at R p n d es Hn Ha) as (Hg & _ & D & B & _ & _). unfold clear_list. rewrite Hg, bind_ret.
  destruct (clear_hits_spec (emem s) (E p) es f None (walk_fuel (emem s)) (dl_nodup _ _ _ D) (dl_seg _ _ _ D) B) as (h' & Ha' & RB & B'); [by eapply dll_size |].
  rewrite <- (dl_head _ _ _ D) in Ha'. rewrite Ha', bind_ret. eexists. split; [reflexivity |]. do 2 (split; [done |]). by eapply rep_bodies.
Qed.

(** The hit counters of the lists with the names [N] of a master are cleared. *)
Definition clear_names (A : abs) (m : master_id) (N : string -> Prop) `{!forall nm, Decision (N nm)} : abs := fun k =>
  if decide (k = m) then map_imap (fun nm c => Some (if decide (N nm) then (c.1, cleared (fun _ => true) c.2) else c)) (A k) else A k.

Lemma cleared_cleared es : cleared (fun _ => true) (cleared (fun _ => true) es) = cleared (fun _ => true) es.
Proof. unfold cleared. rewrite map_map. done. Qed.

Lemma clear_lists_spec m k : forall xs s A L E q fuel nms, rep s A L E [] -> dseg (lmem s) q xs None -> Forall2 (fun p nm => key (lmem s) p = Some (m, k, nm)) xs nms ->
  (length xs < fuel)%nat ->
  exists s', clear_lists fuel s (nxt xs None) = Ok s' /\ lmem s' = lmem s /\ masters s' = masters s /\ rep s' (clear_names A m (fun nm => nm ∈ nms)) L E [].
Proof.
  induction xs as [|p xs IH]; intros s A L E q fuel nms R S F Hf; inversion F as [|? nm ? nms' Hp F']; subst.
  - exists s. split; [by destruct fuel |]. do 2 (split; [done |]). eapply rep_ext; [| exact R]. intros j. unfold clear_names.
    destruct (decide (j = m)) as [-> |]; [| done]. apply map_eq. intros nm. rewrite map_lookup_imap. destruct (A m !! nm); cbn; [| done].
    rewrite decide_False by apply not_elem_of_nil. done.
  - destruct fuel as [|fu]; [lia |]. destruct S as [(n & Hn & _ & Hx) S]. rewrite (key_Some _ _ _ Hn) in Hp. injection Hp as Em Ek En.
    destruct (rep_content R p n Hn) as (es & Ha & _). cbn [nxt clear_lists]. rewrite (nd_get_Ok _ _ _ Hn), bind_ret, Hx.
    destruct (clear_list_spec s A L E p n (desc (body n)) es (fun _ => true) R Hn Ha) as (s1 & -> & Hl1 & Hm1 & R1). rewrite bind_ret.
    destruct (IH s1 _ L E (Some p) fu nms' R1) as (s' & -> & Hl & Hm & R'); [by rewrite Hl1 | by rewrite Hl1 | cbn in Hf; lia |].
    exists s'. split; [done |]. split; [congruence |]. split; [congruence |]. eapply rep_ext; [| exact R']. rewrite Em, En in *. clear -Ha. intros j. unfold clear_names, aset.
    destruct (decide (j = m)) as [-> |]; [| done]. apply map_eq. intros nm'. rewrite !map_lookup_imap, lookup_insert. destruct (decide (nm = nm')) as [<- | Hd].
    + rewrite Ha. cbn. rewrite (decide_True (P := nm ∈ nm :: nms')) by (by left). destruct (decide _); cbn; by rewrite ?cleared_cleared.
    + destruct (A m !! nm') as [c |]; [| done]. cbn. f_equal. destruct (decide (nm' ∈ nms')), (decide (nm' ∈ nm :: nms')) as [He | He]; try done; exfalso.
      * apply He. by right.
      * rewrite elem_of_cons in He. destruct He as [-> |]; done.
Qed.

Definition clear_all (A : abs) (m : master_id) : abs := clear_names A m (fun _ => True).

Lemma lists_names s A L E m k : rep s A L E [] -> exists nms, Forall2 (fun p nm => key (lmem s) p = Some (m, k, nm)) (L m k) nms /\
  forall nm c, A m !! nm = Some c -> name_type nm = k -> nm ∈ nms.
Proof.
  intros [RL RE]. assert (forall xs, (forall p, p ∈ xs -> p ∈ L m k) -> exists nms, Forall2 (fun p nm => key (lmem s) p = Some (m, k, nm)) xs nms) as Hn.
  { induction xs as [|p xs IH]; intros Hx; [exists []; constructor |]. destruct IH as (nms & F); [set_solver |].
    assert (p ∈ L m k) as Hp by (apply Hx; by left). apply RL in Hp as (nm & Hp). exists (nm :: nms). by constructor. }
  destruct (Hn (L m k) ltac:(done)) as (nms & F). exists nms. split; [done |]. intros nm c Ha Hk. destruct (e_there _ _ _ _ _ RE m nm c Ha) as (p & k' & Hp).
  pose proof (l_type _ _ _ RL _ _ _ _ Hp) as Ht. rewrite Ht, Hk in Hp. assert (p ∈ L m k) as Hin by (apply RL; eauto).
  apply list_elem_of_lookup in Hin as (i & Hi). destruct (Forall2_lookup_l _ _ _ _ _ F Hi) as (nm' & Hi' & Hp'). rewrite Hp in Hp'. simplify_eq.
  by eapply list_elem_of_lookup_2.
Qed.

Lemma clear_kind_spec s A L E m k : rep s A L E [] -> exists (s' : plists) (nms : list string),
  clear_lists (walk_fuel (lmem s)) s (head (sub_list k (masters s m))) = Ok s' /\ lmem s' = lmem s /\ masters s' = masters s /\
  rep s' (clear_names A m (fun nm => nm ∈ nms)) L E [] /\ forall nm c, A m !! nm = Some c -> name_type nm = k -> nm ∈ nms.
Proof.
  intros R. destruct (lists_names s A L E m k R) as (nms & F & Hn). pose proof (l_lists _ _ _ (proj1 R) m k) as D.
  destruct (clear_lists_spec m k (L m k) s A L E None (walk_fuel (lmem s)) nms R (dl_seg _ _ _ D) F) as (s' & Hc & Hl & Hm & R'); [by eapply dll_size |].
  rewrite <- (dl_head _ _ _ D) in Hc. by exists s', nms.
Qed.

Lemma clear_all_spec s A L E m : rep s A L E [] -> exists s',
  (s ← clear_lists (walk_fuel (lmem s)) s (head (num (masters s m))); s ← clear_lists (walk_fuel (lmem s)) s (head (str (masters s m))); Ok (s, CMD_SUCCESS))
    = Ok (s', CMD_SUCCESS) /\ reps s' (clear_all A m).
Proof.
  intros R. destruct (clear_kind_spec s A L E m PREFIX_TYPE_NUMBER R) as (s1 & n1 & E1 & Hl1 & Hm1 & R1 & H1).
  destruct (clear_kind_spec s1 _ L E m PREFIX_TYPE_STRING R1) as (s2 & n2 & E2 & Hl2 & Hm2 & R2 & H2).
  cbn [sub_list] in E1, E2. rewrite E1, bind_ret, E2, bind_ret. exists s2. split; [done |]. exists L, E. eapply rep_ext; [| exact R2].
  intros j. unfold clear_all, clear_names at 1 3. destruct (decide (j = m)) as [-> |] eqn:Ej; [| by unfold clear_names; rewrite Ej].
  apply map_eq. intros nm. rewrite !map_lookup_imap. unfold clear_names. rewrite Ej, map_lookup_imap.
  destruct (A m !! nm) as [c |] eqn:Ha; [| done]. cbn. f_equal. rewrite (decide_True (P := True)) by done.
  assert (nm ∈ n1 \/ nm ∈ n2) as Hin.
  { destruct (name_type nm) eqn:Ht; [right | left; by eapply H1]. eapply H2; [| done]. unfold clear_names. rewrite Ej, map_lookup_imap, Ha. reflexivity. }
  destruct (decide (nm ∈ n1)), (decide (nm ∈ n2)); cbn; rewrite ?cleared_cleared; try done. tauto.
Qed.

(** ** Resetting *)

(** The lists of one kind of a master are gone. *)
Definition reset_kind (A : abs) (m : master_id) (k : prefix_name_type) : abs := fun j =>
  if decide (j = m) then filter (fun c => name_type c.1 <> k) (A j) else A j.

Lemma delete_lists_spec m k : forall xs s A L E fuel, rep s A L E [] -> L m k = xs -> (length xs < fuel)%nat ->
  exists s' L' E', delete_lists fuel s (nxt xs None) = Ok s' /\ rep s' (reset_kind A m k) L' E' [] /\ L' m k = [] /\
    (forall j i, (j, i) <> (m, k) -> L' j i = L j i).
Proof.
  induction xs as [|p xs IH]; intros s A L E fuel R HL Hf.
  - exists s, L, E. split; [by destruct fuel |]. split; [| done]. eapply rep_ext; [| exact R]. intros j. unfold reset_kind.
    destruct (decide (j = m)) as [-> |]; [| done]. symmetry. apply map_filter_id. intros nm c Ha Hk. cbn in Hk.
    destruct (lists_names s A L E m k R) as (nms & F & Hn). rewrite HL in F. apply Forall2_nil_inv_l in F as ->. exact (not_elem_of_nil nm (Hn nm c Ha Hk)).
  - destruct fuel as [|fu]; [lia |]. pose proof (l_lists _ _ _ (proj1 R) m k) as D. rewrite HL in D. destruct (dl_seg _ _ _ D) as [(n & Hn & _ & Hx) _].
    assert (exists nm, key (lmem s) p = Some (m, k, nm)) as (nm & Hk) by (apply R; rewrite HL; by left).
    pose proof (l_type _ _ _ (proj1 R) _ _ _ _ Hk) as Ht. rewrite (key_Some _ _ _ Hn) in Hk. injection Hk as Em Ek En.
    destruct (plist_delete_spec s A L E p n R Hn) as (s1 & L1 & E1 & Hd & R1 & _ & HL1). rewrite Em, Ek, En in *.
    assert (L1 m k = xs) as Hxs. { rewrite HL1. unfold lset. rewrite decide_True by done. rewrite HL. destruct (nodup_around (xs1 := []) (dl_nodup _ _ _ D)) as (_ & _ & _ & P & _).
      rewrite filter_cons_False by tauto. by apply filter_notin. }
    cbn [nxt delete_lists]. rewrite (nd_get_Ok _ _ _ Hn), bind_ret, Hd, bind_ret, Hx.
    destruct (IH s1 _ L1 E1 fu R1 Hxs) as (s' & L' & E' & -> & R' & H0 & Ho); [cbn in Hf; lia |]. exists s', L', E'. split; [done |]. split; [| split; [done |]].
    + eapply rep_ext; [| exact R']. intros j. unfold reset_kind, adel. destruct (decide (j = m)) as [-> |]; [| done]. apply map_eq. intros nm'.
      rewrite !map_lookup_filter, lookup_delete. destruct (decide (nm = nm')) as [<- |]; [| done]. cbn. destruct (A m !! nm); [| done]. cbn.
      rewrite option_guard_False; [done |]. cbn. by intros [].
    + intros j i Hji. rewrite Ho by done. rewrite HL1. unfold lset. rewrite decide_False; [done |]. intros [-> ->]. done.
Qed.

Lemma reset_master_spec s A m : reps s A -> exists s', prefix_list_reset_master s m = Ok s' /\ reps s' (fun k => if decide (k = m) then ∅ else A k).
Proof.
  intros (L & E & R). unfold prefix_list_reset_master. pose proof (l_lists _ _ _ (proj1 R) m PREFIX_TYPE_NUMBER) as D1.
  destruct (delete_lists_spec m PREFIX_TYPE_NUMBER _ s A L E (walk_fuel (lmem s)) R eq_refl) as (s1 & L1 & E1 & Hd1 & R1 & H1 & Ho1); [by eapply dll_size |].
  rewrite <- (dl_head _ _ _ D1) in Hd1. cbn [sub_list] in Hd1. rewrite Hd1, bind_ret. pose proof (l_lists _ _ _ (proj1 R1) m PREFIX_TYPE_STRING) as D2.
  destruct (delete_lists_spec m PREFIX_TYPE_STRING _ s1 _ L1 E1 (walk_fuel (lmem s1)) R1 eq_refl) as (s2 & L2 & E2 & Hd2 & R2 & H2 & Ho2); [by eapply dll_size |].
  rewrite <- (dl_head _ _ _ D2) in Hd2. cbn [sub_list] in Hd2. rewrite Hd2, bind_ret.
  assert (forall k, head (sub_list k (masters s2 m)) = None /\ tail (sub_list k (masters s2 m)) = None) as Hnull.
  { intros k. pose proof (l_lists _ _ _ (proj1 R2) m k) as D. replace (L2 m k) with (@nil positive) in D by (destruct k; [done |]; rewrite Ho2, H1; done).
    split; [apply (dl_head _ _ _ D) | apply (dl_tail _ _ _ D)]. }
  destruct (Hnull PREFIX_TYPE_NUMBER) as [N1 N2], (Hnull PREFIX_TYPE_STRING) as [N3 N4]. cbn [sub_list] in N1, N2, N3, N4.
  rewrite N1, N2, N3, N4. cbn [is_null c_assert]. rewrite !bind_ret.
  eexists. split; [reflexivity |]. exists L2, E2. apply rep_master; [by intros [] | done |]. eapply rep_ext; [| exact R2]. intros j. unfold reset_kind.
  destruct (decide (j = m)) as [-> |]; [| done]. apply map_eq. intros nm. rewrite !map_lookup_filter, lookup_empty.
  destruct (A m !! nm) as [c |]; [| done]. cbn. by destruct (name_type nm).
Qed.

Lemma reset_spec s A : reps s A -> exists s', prefix_list_reset s = Ok s' /\ reps s' (fun _ => ∅).
Proof.
  intros R. unfold prefix_list_reset. destruct (reset_master_spec s A prefix_master_ipv4 R) as (s1 & -> & R1). rewrite bind_ret.
  destruct (reset_master_spec s1 _ prefix_master_ipv6 R1) as (s2 & -> & R2). rewrite bind_ret.
  destruct (reset_master_spec s2 _ prefix_master_orf R2) as (s3 & -> & R3). exists s3. split; [done |]. eapply reps_ext; [| exact R3]. by intros [].
Qed.
