(* ===== verification/PlistOps.v ===== *)
(** * lib/plist.c: histories of calls

    [op] are the calls a daemon makes on its prefix lists, [run_op] the code, [spec_op] the specification.  [plist_refines]
    says that after any history of allowed calls the code returned what the specification returns, and its memory
    holds the same contents.  A call is not allowed when it leads to a signed overflow: a name that begins with a number beyond
    [long], or an automatic sequence number beyond [int]. *)

From S2P Require Import Prelude CString Prefix Inet PrefixText DList Plist PlistCmd PlistRep PlistEntry PlistLists PlistRefine.
Local Open Scope Z_scope.

Section Ops.
Context `{InetText}.

Inductive op :=
| Install (afi : Z) (nm : string) (seq : option string) (typestr pfx : string) (ge le : option string) (junk : prefix)
| Uninstall (afi : Z) (nm : string) (seq typestr pfx ge le : option string) (junk : prefix)
| Description (afi : Z) (nm : string) (line : option string)
| NoDescription (afi : Z) (nm : string)
| SequenceNumber (m : master_id) (n : Z)
| Clear (afi : Z) (nm pfx : option string) (junk : prefix)
| Verdict (afi : Z) (nm : string) (p : prefix)
| OrfSet (nm : string) (afi : Z) (orfp : orf_prefix) (permit set : bool)
| OrfRemoveAll (nm : string)
| Hooks (add del : option Z)
| Reset.

Definition type_code (ty : prefix_list_type) : Z := match ty with PREFIX_DENY => 0 | PREFIX_PERMIT => 1 end.

Definition run_op (s : plists) (o : op) : res (plists * Z) :=
  match o with
  | Install afi nm seq typestr pfx ge le junk => vty_prefix_list_install s afi nm seq typestr pfx ge le junk
  | Uninstall afi nm seq typestr pfx ge le junk => vty_prefix_list_uninstall s afi nm seq typestr pfx ge le junk
  | Description afi nm line => ip_prefix_list_description s afi nm line
  | NoDescription afi nm => vty_prefix_list_desc_unset s afi nm
  | SequenceNumber m n => Ok (ip_prefix_list_sequence_number s m n, CMD_SUCCESS)
  | Clear afi nm pfx junk => vty_clear_prefix_list s afi nm pfx junk
  | Verdict afi nm p =>
      plist ← prefix_list_lookup s afi (Some nm);
      '(s, ty) ← prefix_list_apply s plist p;
      Ok (s, type_code ty)
  | OrfSet nm afi orfp permit set => prefix_bgp_orf_set s nm afi orfp permit set
  | OrfRemoveAll nm => s ← prefix_bgp_orf_remove_all s nm; Ok (s, CMD_SUCCESS)
  | Hooks add del => Ok (prefix_list_delete_hook (prefix_list_add_hook s add) del, CMD_SUCCESS)
  | Reset => s ← prefix_list_reset s; Ok (s, CMD_SUCCESS)
  end.

(** ** Their specification *)

(** The entry that a request to delete means: no sequence number, or a negative one, means any. *)
Definition entry_is (p : prefix) (type : prefix_list_type) (seq le ge : Z) (e : entry) : bool :=
  prefix_same (e_prefix e) p && bool_decide (e_type e = type) &&
  negb ((0 <=? seq) && negb (e_seq e =? seq)) && (e_le e =? le) && (e_ge e =? ge).

(** The entry that an [ip prefix-list] command describes, if it is well formed. *)
Definition command_entry (afi : Z) (seq : option string) (typestr pfx : string) (ge le : option string) (junk : prefix) : option entry :=
  match filter_type typestr with
  | None => None
  | Some type =>
      let '(ret, p, genum, lenum, any) := prefix_arg afi pfx junk (opt_atoi ge 0) (opt_atoi le 0) in
      if (ret <=? 0) || invalid_range (prefixlen p) genum lenum then None
      else Some (made p type (opt_atoi seq (-1)) (normal_le afi genum lenum) genum any)
  end.

Definition spec_uninstall (A : abs) (m : master_id) (nm : string) (afi : Z) (seq typestr pfx ge le : option string) (junk : prefix) : abs * Z :=
  match A m !! nm with
  | None => (A, CMD_WARNING)
  | Some _ =>
      match seq, typestr, pfx, ge, le with
      | None, None, None, None, None => (adel A m nm, CMD_SUCCESS)
      | _, Some typestr, Some pfx, _, _ =>
          match filter_type typestr with
          | None => (A, CMD_WARNING)
          | Some type =>
              let '(ret, p, genum, lenum, _) := prefix_arg afi pfx junk (opt_atoi ge 0) (opt_atoi le 0) in
              if ret <=? 0 then (A, CMD_WARNING)
              else spec_remove A m nm (entry_is p type (opt_atoi seq (-1)) lenum genum)
          end
      | _, _, _, _, _ => (A, CMD_WARNING)
      end
  end.

Definition spec_clear (A : abs) (m : master_id) (nm pfx : option string) (junk : prefix) : abs * Z :=
  match nm, pfx with
  | None, None => (clear_all A m, CMD_SUCCESS)
  | None, Some _ => (A, CMD_WARNING)
  | Some nm, _ =>
      match A m !! nm with
      | None => (A, CMD_WARNING)
      | Some (d, es) =>
          match pfx with
          | None => (aset A m nm (d, cleared (fun _ => true) es), CMD_SUCCESS)
          | Some pfx =>
              let '(ret, p) := str2prefix pfx junk in
              if ret <=? 0 then (A, CMD_WARNING)
              else (aset A m nm (d, cleared (fun e => prefix_match (e_prefix e) p) es), CMD_SUCCESS)
          end
      end
  end.

Definition spec_orf (A : abs) (nm : string) (afi : Z) (orfp : orf_prefix) (permit set : bool) : abs * Z :=
  if invalid_range (prefixlen (o_p orfp)) (o_ge orfp) (o_le orfp) then (A, CMD_WARNING)
  else
    let le := normal_le afi (o_ge orfp) (o_le orfp) in
    let type := if permit then PREFIX_PERMIT else PREFIX_DENY in
    let m := prefix_master_orf in
    if set then spec_add A m nm (made (o_p orfp) type (signed 32 (o_seq orfp)) le (o_ge orfp) 0)
    else spec_remove (aset A m nm (contents_of A m nm)) m nm (entry_is (o_p orfp) type (signed 32 (o_seq orfp)) le (o_ge orfp)).

(** A command on the lists of an address family. *)
Definition of_afi (A : abs) (afi : Z) (f : master_id -> abs * Z) : abs * Z :=
  match prefix_master_get afi with Some m => f m | None => (A, CMD_WARNING) end.

Definition spec_op (A : abs) (o : op) : abs * Z :=
  match o with
  | Install afi nm seq typestr pfx ge le junk =>
      match command_entry afi seq typestr pfx ge le junk with
      | Some e => of_afi A afi (fun m => spec_add A m nm e)
      | None => (A, CMD_WARNING)
      end
  | Uninstall afi nm seq typestr pfx ge le junk => of_afi A afi (fun m => spec_uninstall A m nm afi seq typestr pfx ge le junk)
  | Description afi nm line => of_afi A afi (fun m => (aset A m nm (line, (contents_of A m nm).2), CMD_SUCCESS))
  | NoDescription afi nm =>
      of_afi A afi (fun m => match A m !! nm with Some (_, es) => (settle A m nm (None, es), CMD_SUCCESS) | None => (A, CMD_WARNING) end)
  | Clear afi nm pfx junk => of_afi A afi (fun m => spec_clear A m nm pfx junk)
  | Verdict afi nm p =>
      match prefix_master_get afi with
      | None => (A, type_code PREFIX_DENY)
      | Some m => match A m !! nm with
                  | None => (A, type_code PREFIX_DENY)
                  | Some (d, es) => (aset A m nm (d, counted es p), type_code (verdict es p))
                  end
      end
  | OrfSet nm afi orfp permit set => spec_orf A nm afi orfp permit set
  | OrfRemoveAll nm => (adel A prefix_master_orf nm, CMD_SUCCESS)
  | SequenceNumber _ _ | Hooks _ _ => (A, CMD_SUCCESS)
  | Reset => (fun _ => ∅, CMD_SUCCESS)
  end.

(** ** Which calls are allowed *)

Definition name_fits (nm : string) : Prop := exists v, name_number 0 nm = Ok v.
(** An automatic sequence number fits [int]. *)
Definition seq_fits (A : abs) (m : master_id) (nm : string) (seq : Z) : Prop := seq = -1 -> next_seq (contents_of A m nm).2 <= INT_MAX.

Definition op_ok (A : abs) (o : op) : Prop :=
  match o with
  | Install afi nm seq _ _ _ _ _ =>
      (afi = AFI_IP \/ afi = AFI_IP6) /\ name_fits nm /\ forall m, prefix_master_get afi = Some m -> seq_fits A m nm (opt_atoi seq (-1))
  | Description afi nm _ => (exists m, prefix_master_get afi = Some m) /\ name_fits nm
  | OrfSet nm _ orfp _ set => name_fits nm /\ family_ok (o_p orfp) /\
      (set = true -> invalid_range (prefixlen (o_p orfp)) (o_ge orfp) (o_le orfp) = false -> seq_fits A prefix_master_orf nm (signed 32 (o_seq orfp)))
  | _ => True
  end.

(** ** Refinement *)

Lemma str2prefix_ipv4_family str p ret q : str2prefix_ipv4 str p = (ret, q) -> 0 < ret -> family q = AF_INET.
Proof.
  unfold str2prefix_ipv4. destruct (strchr_split slash str) as [[cp pnt]|].
  - destruct (aton_into cp p) as [r p1]. destruct (_ >? _); intros [= <- <-]; [lia | done].
  - destruct (aton_into str p) as [r p1]. destruct (_ =? _); intros [= <- <-]; [lia | done].
Qed.

Lemma str2prefix_ipv6_family str p ret q : str2prefix_ipv6 str p = (ret, q) -> 0 < ret -> family q = AF_INET6.
Proof.
  unfold str2prefix_ipv6. destruct (strchr_split slash str) as [[cp pnt]|].
  - destruct (pton6_into cp p) as [r p1]. destruct (_ =? _); [intros [= <- <-]; lia |]. destruct (_ >? _); intros [= <- <-]; [lia | done].
  - destruct (pton6_into str p) as [r p1]. destruct (_ =? _); intros [= <- <-]; [lia | done].
Qed.

Lemma prefix_arg_family afi pfx junk g l ret p g' l' a : afi = AFI_IP \/ afi = AFI_IP6 ->
  prefix_arg afi pfx junk g l = (ret, p, g', l', a) -> 0 < ret -> family_ok p.
Proof.
  unfold prefix_arg, family_ok. intros [-> | ->]; cbn [Z.eqb AFI_IP AFI_IP6 Pos.eqb]; destruct (_ =? 0).
  1-2: destruct (str2prefix_ipv4 _ junk) as [r q] eqn:E; intros [= <- <- _ _ _] Hr; left; by eapply str2prefix_ipv4_family.
  1-2: destruct (str2prefix_ipv6 _ junk) as [r q] eqn:E; intros [= <- <- _ _ _] Hr; right; by eapply str2prefix_ipv6_family.
Qed.

Lemma contents_Some A m nm c : A m !! nm = Some c -> contents_of A m nm = c.
Proof. unfold contents_of. by intros ->. Qed.

(** Adding through [prefix_list_get]: the list is made first, and a refused entry leaves no new list behind. *)
Lemma get_add_spec s A afi m nm pfx type seq le ge any : reps s A -> prefix_master_get afi = Some m -> name_fits nm -> family_ok pfx -> seq_fits A m nm seq ->
  exists s', ('(s, plist) ← prefix_list_get s afi nm; add_made s plist pfx type seq le ge any) = Ok (s', (spec_add A m nm (made pfx type seq le ge any)).2) /\
    reps s' (spec_add A m nm (made pfx type seq le ge any)).1.
Proof.
  intros (L & E & R) Hm (v & Hv) Hf Hs. destruct (get_spec s A L E [] afi m nm v R Hm Hv) as (s1 & p & n & L1 & -> & _ & Hn & Em & En & R1). rewrite bind_ret.
  destruct (contents_of A m nm) as [d es] eqn:Hc. assert (aset A m nm (d, es) (pl_master (body n)) !! name (body n) = Some (d, es)) as Ha by (rewrite Em, En; apply aset_lookup).
  destruct (add_made_spec s1 _ L1 E p n d es pfx type seq le ge any R1 Hn Ha Hf) as (s' & Hadd & R'); [unfold seq_fits in Hs; by rewrite Hc in Hs |].
  rewrite Hadd. exists s'. rewrite Em, En in *. unfold spec_add in *. rewrite Hc. rewrite (contents_Some _ _ _ _ (aset_lookup A m nm (d, es))) in *.
  cbv iota in *. destruct (has_dup _ _ es) eqn:Hd; cbn [fst snd] in *; (split; [done |]); (eapply reps_ext; [| exact R']); intros k; [| apply aset_aset].
  apply aset_id. unfold contents_of in Hc. destruct (A m !! nm) as [c |]; cbn in Hc; [by rewrite Hc |]. by simplify_eq.
Qed.

Lemma lookup_reps s A afi m nm : reps s A -> prefix_master_get afi = Some m ->
  match A m !! nm with
  | None => prefix_list_lookup s afi (Some nm) = Ok None
  | Some (d, es) => exists L E p n, rep s A L E [] /\ prefix_list_lookup s afi (Some nm) = Ok (Some p) /\ lmem s !! p = Some n /\
      pl_master (body n) = m /\ name (body n) = nm
  end.
Proof.
  intros (L & E & R) Hm. destruct (lookup_spec s A L E [] afi m nm R Hm) as (r & Hl & Hr). destruct (A m !! nm) as [[d es]|] eqn:Ha.
  - destruct (rep_find s A L E [] afi m nm d es R Hm Ha) as (p & n & H1 & H2 & H3 & H4). by exists L, E, p, n.
  - destruct r as [p |]; [| done]. destruct Hr as (n & Hn & E1 & E2). destruct (rep_content R p n Hn) as (es & Ha' & _). congruence.
Qed.

(** One kind of call after the other. *)
Definition refines (s : plists) (A : abs) (o : op) : Prop := exists s', run_op s o = Ok (s', (spec_op A o).2) /\ reps s' (spec_op A o).1.

Lemma install_refines s A afi nm seq typestr pfx ge le junk : reps s A -> op_ok A (Install afi nm seq typestr pfx ge le junk) ->
  refines s A (Install afi nm seq typestr pfx ge le junk).
Proof.
  intros R (Hafi & Hn & Hs). unfold refines. cbn [run_op spec_op]. unfold vty_prefix_list_install, command_entry.
  destruct (filter_type typestr) as [type |]; [| by exists s]. destruct (prefix_arg afi pfx junk _ _) as [[[[ret p] g] l] a] eqn:Hp.
  destruct (Z.leb_spec ret 0); [by exists s |]. cbn [orb]. unfold install_entry. destruct (invalid_range (prefixlen p) g l); [by exists s |].
  assert (exists m, prefix_master_get afi = Some m) as (m & Hm) by (destruct Hafi as [-> | ->]; cbn; eauto). unfold of_afi. rewrite Hm.
  apply (get_add_spec s A afi m nm p type _ (normal_le afi g l) g a R Hm Hn); [by eapply prefix_arg_family | by apply Hs].
Qed.

Lemma orf_refines s A nm afi orfp permit set : reps s A -> op_ok A (OrfSet nm afi orfp permit set) -> refines s A (OrfSet nm afi orfp permit set).
Proof.
  intros R (Hn & Hf & Hs). unfold refines. cbn [run_op spec_op]. unfold prefix_bgp_orf_set, spec_orf. destruct (invalid_range _ _ _) eqn:Hi; [by exists s |].
  destruct set.
  - destruct (get_add_spec s A AFI_ORF_PREFIX prefix_master_orf nm (o_p orfp) (if permit then PREFIX_PERMIT else PREFIX_DENY) (signed 32 (o_seq orfp))
      (normal_le afi (o_ge orfp) (o_le orfp)) (o_ge orfp) 0 R eq_refl Hn Hf (Hs eq_refl eq_refl)) as (s' & Ha & R'). exists s'. split; [| done]. rewrite <- Ha.
    destruct R as (L & E & R). destruct Hn as (v & Hv). destruct (get_spec s A L E [] AFI_ORF_PREFIX prefix_master_orf nm v R eq_refl Hv) as (s1 & p & n & L1 & -> & _). done.
  - destruct R as (L & E & R). destruct Hn as (v & Hv).
    destruct (get_spec s A L E [] AFI_ORF_PREFIX prefix_master_orf nm v R eq_refl Hv) as (s1 & p & n & L1 & -> & _ & Hn & Em & En & R1). rewrite bind_ret.
    destruct (contents_of A prefix_master_orf nm) as [d es] eqn:Hc. rewrite <- Em, <- En in *.
    apply (remove_entry_spec s1 _ L1 E p n d es _ R1 Hn). apply aset_lookup.
Qed.

(** A rule that asks for a number when the next one does not fit an [int]. *)
Lemma orf_set_overflow s A nm afi orfp permit : reps s A -> name_fits nm -> family_ok (o_p orfp) -> invalid_range (prefixlen (o_p orfp)) (o_ge orfp) (o_le orfp) = false ->
  signed 32 (o_seq orfp) = -1 -> INT_MAX < next_seq (contents_of A prefix_master_orf nm).2 -> prefix_bgp_orf_set s nm afi orfp permit true = Oob.
Proof.
  intros (L & E & R) (v & Hv) Hf Hi Hq Ho. unfold prefix_bgp_orf_set. rewrite Hi. cbn zeta.
  destruct (get_spec s A L E [] AFI_ORF_PREFIX prefix_master_orf nm v R eq_refl Hv) as (s1 & p & n & L1 & -> & _ & Hn & Em & En & R1). rewrite bind_ret.
  destruct (contents_of A prefix_master_orf nm) as [d es] eqn:Hc. rewrite <- Em, <- En in *. cbn [snd] in Ho.
  unfold prefix_list_entry_make. cbn [e_prefix entry_zero]. rewrite (copied_Ok _ Hf), !bind_ret. set (e := mk_entry _ _ _ _ _ (copied _) _ _).
  set (t := fresh (dom (emem s1) : gset positive)). set (s2 := set_emem _ s1). pose proof (rep_make R1 e eq_refl) as R2. fold t s2 in R2.
  assert (emem s2 !! t = Some (mk_node e None None)) as Ht by apply lookup_insert_eq. unfold prefix_entry_dup_check. rewrite (nd_get_Ok _ _ _ Ht), bind_ret. cbn [body].
  change (e_seq e) with (signed 32 (o_seq orfp)). rewrite Hq. cbn [Z.eqb Pos.eqb]. rewrite (new_seq_spec R2 p n d es Hn (aset_lookup _ _ _ _)).
  by destruct (Z.gtb_spec (next_seq es) INT_MAX); [| lia].
Qed.

Lemma uninstall_refines s A afi nm seq typestr pfx ge le junk : reps s A -> refines s A (Uninstall afi nm seq typestr pfx ge le junk).
Proof.
  intros R. unfold refines. cbn [run_op spec_op]. unfold vty_prefix_list_uninstall, of_afi. destruct (prefix_master_get afi) as [m |] eqn:Hm.
  2: { unfold prefix_list_lookup. rewrite Hm. by exists s. }
  pose proof (lookup_reps s A afi m nm R Hm) as Hl. unfold spec_uninstall. destruct (A m !! nm) as [[d es]|] eqn:Ha; [| rewrite Hl; by exists s].
  destruct Hl as (L & E & p & n & R0 & -> & Hn & Em & En). rewrite bind_ret. rewrite <- Em, <- En in *.
  assert (forall f, exists s', remove_entry s p f = Ok (s', (spec_remove A (pl_master (body n)) (name (body n)) f).2) /\
    reps s' (spec_remove A (pl_master (body n)) (name (body n)) f).1) as Hrm by (intros f; by apply (remove_entry_spec s A L E p n d es)).
  destruct (delete_called s A L E p n R0 Hn) as (s1 & Hd & R1).
  destruct seq, typestr as [ty |], pfx as [px |], ge, le; try (by exists s); try (rewrite Hd, bind_ret; by exists s1);
    (destruct (filter_type ty) as [type |]; [| by exists s]); destruct (prefix_arg afi px junk _ _) as [[[[ret q] g] l] a];
    (destruct (Z.leb_spec ret 0); [by exists s |]); apply Hrm.
Qed.

(** The description of a list is assigned. *)
Lemma desc_assigned s A L E p n d es d' : rep s A L E [] -> lmem s !! p = Some n -> A (pl_master (body n)) !! name (body n) = Some (d, es) ->
  exists s' n', upd_plist s p (set_desc d') = Ok s' /\ lmem s' !! p = Some n' /\ body n' = set_desc d' (body n) /\
    rep s' (aset A (pl_master (body n)) (name (body n)) (d', es)) L E [].
Proof.
  intros R Hn Ha. destruct (rep_list_at R p n d es Hn Ha) as (_ & _ & _ & B & _). unfold upd_plist. rewrite (nd_upd_Ok _ _ _ _ Hn), bind_ret.
  eexists _, _. split; [reflexivity |]. split; [apply lookup_insert_eq |]. split; [done |].
  by apply (rep_changed s A L E p n d es d' (emem s) es R Hn Ha (rebodied_refl _ _)).
Qed.

Lemma desc_refines s A afi nm line : reps s A -> op_ok A (Description afi nm line) -> refines s A (Description afi nm line).
Proof.
  intros (L & E & R) ((m & Hm) & (v & Hv)). unfold refines. cbn [run_op spec_op]. unfold ip_prefix_list_description, of_afi. rewrite Hm.
  destruct (get_spec s A L E [] afi m nm v R Hm Hv) as (s1 & p & n & L1 & -> & _ & Hn & Em & En & R1). rewrite bind_ret.
  destruct (contents_of A m nm) as [d es] eqn:Hc. change (fun q => set_desc line (set_desc None q)) with (set_desc line).
  assert (aset A m nm (d, es) (pl_master (body n)) !! name (body n) = Some (d, es)) as Ha by (rewrite Em, En; apply aset_lookup).
  destruct (desc_assigned s1 _ L1 E p n d es line R1 Hn Ha) as (s' & n' & -> & _ & _ & R'). rewrite bind_ret. exists s'. split; [done |]. exists L1, E.
  eapply rep_ext; [| exact R']. intros k. rewrite Em, En. apply aset_aset.
Qed.

Lemma nodesc_refines s A afi nm : reps s A -> refines s A (NoDescription afi nm).
Proof.
  intros R. unfold refines. cbn [run_op spec_op]. unfold vty_prefix_list_desc_unset, of_afi. destruct (prefix_master_get afi) as [m |] eqn:Hm.
  2: { unfold prefix_list_lookup. rewrite Hm. by exists s. }
  pose proof (lookup_reps s A afi m nm R Hm) as Hl. destruct (A m !! nm) as [[d es]|] eqn:Ha; [| rewrite Hl; by exists s].
  destruct Hl as (L & E & p & n & R0 & -> & Hn & Em & En). rewrite bind_ret. rewrite <- Em, <- En in Ha.
  destruct (desc_assigned s A L E p n d es None R0 Hn Ha) as (s1 & n1 & -> & Hn1 & Hb & R1). rewrite bind_ret.
  assert (pl_master (body n1) = m /\ name (body n1) = nm) as [Em1 En1] by (rewrite Hb; done). rewrite Em, En in R1.
  assert (aset A m nm (None, es) (pl_master (body n1)) !! name (body n1) = Some (None, es)) as Ha1 by (rewrite Em1, En1; apply aset_lookup).
  destruct (rep_list_at R1 p n1 None es Hn1 Ha1) as (-> & _). rewrite bind_ret, (settled_now s1 _ L E p n1 None es R1 Hn1 Ha1). cbn [fst snd].
  case_bool_decide as Hc.
  - destruct Hc as [-> _]. destruct (delete_called s1 _ L E p n1 R1 Hn1) as (s' & -> & R'). rewrite bind_ret. exists s'. split; [done |].
    eapply reps_ext; [| exact R']. intros k. rewrite Em1, En1. apply settle_del.
  - exists s1. split; [done |]. exists L, E. destruct es; [by destruct Hc | done].
Qed.

Lemma clear_refines s A afi nm pfx junk : reps s A -> refines s A (Clear afi nm pfx junk).
Proof.
  intros R. unfold refines. cbn [run_op spec_op]. unfold vty_clear_prefix_list, of_afi. destruct (prefix_master_get afi) as [m |] eqn:Hm; [| by exists s].
  unfold spec_clear. destruct nm as [nm |].
  - pose proof (lookup_reps s A afi m nm R Hm) as Hl. destruct (A m !! nm) as [[d es]|] eqn:Ha; [| rewrite Hl; by exists s].
    destruct Hl as (L & E & p & n & R0 & -> & Hn & Em & En). rewrite bind_ret. rewrite <- Em, <- En in *.
    assert (forall f, exists s', (s0 ← clear_list s p f; Ok (s0, CMD_SUCCESS)) = Ok (s', CMD_SUCCESS) /\
      reps s' (aset A (pl_master (body n)) (name (body n)) (d, cleared f es))) as Hc.
    { intros f. destruct (clear_list_spec s A L E p n d es f R0 Hn Ha) as (s' & -> & _ & _ & R'). exists s'. split; [done |]. by exists L, E. }
    destruct pfx as [px |]; [| apply Hc]. destruct (str2prefix px junk) as [ret q]. destruct (ret <=? 0); [by exists s | apply Hc].
  - destruct pfx as [px |]; [by exists s |]. destruct R as (L & E & R). destruct (clear_all_spec s A L E m R) as (s' & -> & R'). by exists s'.
Qed.

Lemma verdict_refines s A afi nm p : reps s A -> refines s A (Verdict afi nm p).
Proof.
  intros R. unfold refines. cbn [run_op spec_op]. destruct (prefix_master_get afi) as [m |] eqn:Hm.
  2: { unfold prefix_list_lookup. rewrite Hm. by exists s. }
  pose proof (lookup_reps s A afi m nm R Hm) as Hl. destruct (A m !! nm) as [[d es]|] eqn:Ha; [| rewrite Hl; by exists s].
  destruct Hl as (L & E & q & n & R0 & -> & Hn & Em & En). rewrite bind_ret. rewrite <- Em, <- En in *.
  destruct (apply_spec s A L E q n d es p R0 Hn Ha) as (s' & -> & R'). rewrite bind_ret. by exists s'.
Qed.

Lemma remove_all_refines s A nm : reps s A -> refines s A (OrfRemoveAll nm).
Proof.
  intros R. unfold refines. cbn [run_op spec_op]. unfold prefix_bgp_orf_remove_all.
  pose proof (lookup_reps s A AFI_ORF_PREFIX prefix_master_orf nm R eq_refl) as Hl. destruct (A prefix_master_orf !! nm) as [[d es]|] eqn:Ha.
  - destruct Hl as (L & E & p & n & R0 & -> & Hn & Em & En). rewrite bind_ret. destruct (delete_called s A L E p n R0 Hn) as (s' & -> & R'). rewrite Em, En in R'. by exists s'.
  - rewrite Hl. exists s. split; [done |]. eapply reps_ext; [| exact R]. intros k. cbn. unfold adel. destruct (decide (k = _)) as [-> |]; [| done]. by rewrite delete_id.
Qed.

(** Masters change, but not what they link. *)
Lemma master_reps s A m f : (forall j k, sub_list k (f j) = sub_list k j) -> (forall j, recent (f j) = recent j) -> reps s A -> reps (upd_master m f s) A.
Proof.
  intros H1 H2 (L & E & R). exists L, E. apply rep_master; [intros k; apply H1 | | done]. intros p. rewrite H2. apply R.
Qed.

Lemma op_refines s A o : reps s A -> op_ok A o -> refines s A o.
Proof.
  intros R Hok. destruct o.
  - by apply install_refines.
  - by apply uninstall_refines.
  - by apply desc_refines.
  - by apply nodesc_refines.
  - eexists. split; [reflexivity |]. by apply master_reps; [intros ? [] | |].
  - by apply clear_refines.
  - by apply verdict_refines.
  - by apply orf_refines.
  - by apply remove_all_refines.
  - eexists. split; [reflexivity |]. cbn. unfold prefix_list_delete_hook, prefix_list_add_hook. by do 4 (apply master_reps; [by intros ? [] | done |]).
  - destruct (reset_spec s A R) as (s' & H1 & H2). exists s'. cbn [run_op spec_op fst snd]. by rewrite H1.
Qed.

(** ** Histories *)

Fixpoint run_ops (s : plists) (os : list op) : res (plists * list Z) :=
  match os with
  | [] => Ok (s, [])
  | o :: os => '(s, r) ← run_op s o; '(s, rs) ← run_ops s os; Ok (s, r :: rs)
  end.
Fixpoint spec_ops (A : abs) (os : list op) : abs * list Z :=
  match os with
  | [] => (A, [])
  | o :: os => let '(A, r) := spec_op A o in let '(A, rs) := spec_ops A os in (A, r :: rs)
  end.
Fixpoint ops_ok (A : abs) (os : list op) : Prop :=
  match os with [] => True | o :: os => op_ok A o /\ ops_ok (spec_op A o).1 os end.

Lemma ops_refine s A os : reps s A -> ops_ok A os -> exists s', run_ops s os = Ok (s', (spec_ops A os).2) /\ reps s' (spec_ops A os).1.
Proof.
  revert s A. induction os as [|o os IH]; intros s A R Hok; [by exists s |]. destruct Hok as [Ho Hok]. destruct (op_refines s A o R Ho) as (s1 & H1 & R1).
  destruct (IH s1 _ R1 Hok) as (s2 & H2 & R2). exists s2. cbn [run_ops spec_ops]. rewrite H1, bind_ret, H2, bind_ret.
  destruct (spec_op A o) as [A1 r]. cbn [fst snd] in *. by destruct (spec_ops A1 os).
Qed.

Lemma spec_op_wf A o : abs_wf A -> abs_wf (spec_op A o).1.
Proof.
  intros W. assert (forall m nm d es es', A m !! nm = Some (d, es) -> map rule es = map rule es' -> forall d', abs_wf (aset A m nm (d', es'))) as Hset.
  { intros m nm d es es' Ha Hr d' k nm' d2 es2. unfold aset. destruct (decide (k = m)) as [-> |]; [| by apply W]. rewrite lookup_insert.
    destruct (decide (nm = nm')) as [-> |]; [| by apply W]. intros [= <- <-]. eapply entries_wf_rule; [exact Hr |]. by eapply W. }
  assert (forall m nm, abs_wf (aset A m nm (contents_of A m nm))) as Hget.
  { intros m nm k nm' d es. unfold aset. destruct (decide (k = m)) as [-> |]; [| by apply W]. rewrite lookup_insert. destruct (decide (nm = nm')) as [-> |]; [| by apply W].
    intros [= Hc]. unfold contents_of in Hc. destruct (A m !! nm') as [c |] eqn:Ha; cbn in Hc; subst; [by eapply W |]. simplify_eq. apply entries_wf_nil. }
  assert (forall m nm, abs_wf (adel A m nm)) as Hdel.
  { intros m nm k nm' d es. unfold adel. destruct (decide (k = m)) as [-> |]; [| by apply W]. rewrite lookup_delete. destruct (decide (nm = nm')); [done | by apply W]. }
  destruct o; cbn [spec_op]; unfold of_afi; try done.
  - destruct (command_entry _ _ _ _ _ _ _); [| done]. destruct (prefix_master_get afi); [by apply spec_add_wf | done].
  - destruct (prefix_master_get afi) as [m |]; [| done]. unfold spec_uninstall. destruct (A m !! nm) as [c |]; [| done].
    destruct seq, typestr as [ty |], pfx as [px |], ge, le; try done; try apply Hdel;
      (destruct (filter_type ty); [| done]); destruct (prefix_arg afi px junk _ _) as [[[[? ?] ?] ?] ?]; (destruct (_ <=? 0); [done | by apply spec_remove_wf]).
  - destruct (prefix_master_get afi) as [m |]; [| done]. cbn. intros k nm' d es. unfold aset. destruct (decide (k = m)) as [-> |]; [| by apply W].
    rewrite lookup_insert. destruct (decide (nm = nm')) as [-> |]; [| by apply W]. intros [= _ <-]. unfold contents_of.
    destruct (A m !! nm') as [[d' es'] |] eqn:Ha; [by eapply W | apply entries_wf_nil].
  - destruct (prefix_master_get afi) as [m |]; [| done]. destruct (A m !! nm) as [[d es]|] eqn:Ha; [| done]. apply settle_wf; [done |]. by eapply W.
  - destruct (prefix_master_get afi) as [m |]; [| done]. unfold spec_clear. destruct nm as [nm |]; [destruct (A m !! nm) as [[d es]|] eqn:Ha; [| done] |]; destruct pfx as [px |]; try done.
    + destruct (str2prefix px junk) as [ret q]. destruct (ret <=? 0); [done |]. cbn [fst]. eapply Hset; [exact Ha | by rewrite cleared_rule].
    + cbn [fst]. eapply Hset; [exact Ha | by rewrite cleared_rule].
    + cbn [fst]. intros k nm' d es. unfold clear_all, clear_names. destruct (decide (k = m)) as [-> |]; [| by apply W]. rewrite map_lookup_imap.
      destruct (A m !! nm') as [[d' es']|] eqn:Ha; [| done]. cbn. rewrite decide_True by done. intros [= <- <-]. eapply entries_wf_rule; [symmetry; apply cleared_rule |]. by eapply W.
  - destruct (prefix_master_get afi) as [m |]; [| done]. destruct (A m !! nm) as [[d es]|] eqn:Ha; [| done]. cbn [fst]. eapply Hset; [exact Ha | by rewrite counted_rule].
  - unfold spec_orf. destruct (invalid_range _ _ _); [done |]. destruct set; [by apply spec_add_wf | by apply spec_remove_wf].
  - cbn. apply Hdel.
Qed.

Lemma spec_ops_wf A os : abs_wf A -> abs_wf (spec_ops A os).1.
Proof.
  revert A. induction os as [|o os IH]; intros A W; [done |]. cbn. pose proof (spec_op_wf A o W) as W1. destruct (spec_op A o) as [A1 r]. cbn in W1. specialize (IH A1 W1).
  by destruct (spec_ops A1 os).
Qed.

End Ops.
