(* ===== verification/PlistRules.v ===== *)
(** * Prefix lists: what the rules mean

    Facts about the specification: which prefixes an entry matches, which entry decides, that a rule can be taken back with the
    words it was given with, and that a rule with the greatest upper bound is never stored as such. *)

From stdpp Require Import sorting.
From S2P Require Import Prelude CString Prefix Inet PrefixText DList Plist PlistCmd PlistRep PlistEntry PlistLists PlistRefine PlistOps.
Local Open Scope Z_scope.

(** ** Matching *)

Definition in_range (e : entry) (n : Z) : Prop :=
  (e_le e = 0 -> e_ge e = 0 -> n = prefixlen (e_prefix e)) /\ (e_le e <> 0 -> n <= e_le e) /\ (e_ge e <> 0 -> e_ge e <= n).

Lemma entry_match_iff e p : prefix_wf (e_prefix e) -> prefix_wf p ->
  prefix_list_entry_match e p = true <-> covers (e_prefix e) p /\ in_range e (prefixlen p).
Proof.
  intros We Wp. unfold prefix_list_entry_match, in_range. rewrite <- (prefix_match_spec (e_prefix e) p We Wp).
  destruct (prefix_match (e_prefix e) p); cbn [negb]; [| by intuition].
  destruct (Z.eqb_spec (e_le e) 0), (Z.eqb_spec (e_ge e) 0); cbn [andb negb]; rewrite ?Z.eqb_eq; [intuition lia | ..];
    destruct (Z.gtb_spec (prefixlen p) (e_le e)), (Z.ltb_spec (prefixlen p) (e_ge e)); cbn [andb]; intuition (try lia; done).
Qed.

(** The first entry that matches decides. *)
Definition first_match (es : list entry) (p : prefix) (e : entry) : Prop :=
  exists pre post, es = pre ++ e :: post /\ prefix_list_entry_match e p = true /\ Forall (fun x => prefix_list_entry_match x p = false) pre.

Lemma find_first es p e : List.find (fun e => prefix_list_entry_match e p) es = Some e -> first_match es p e.
Proof.
  induction es as [|x es IH]; cbn; [done |]. destruct (prefix_list_entry_match x p) eqn:Hx.
  - intros [= <-]. by exists [], es.
  - intros Hf. destruct (IH Hf) as (pre & post & -> & He & F). exists (x :: pre), post. split; [done |]. split; [done |]. by constructor.
Qed.

Lemma verdict_cases es p :
  (es = [] /\ verdict es p = PREFIX_PERMIT) \/
  (exists e, first_match es p e /\ verdict es p = e_type e) \/
  (es <> [] /\ Forall (fun x => prefix_list_entry_match x p = false) es /\ verdict es p = PREFIX_DENY).
Proof.
  destruct es as [|x es]; [by left |]. right. unfold verdict. destruct (List.find _ (x :: es)) as [e |] eqn:Hf.
  - left. exists e. split; [by apply find_first | done].
  - right. split; [done |]. split; [| done]. apply List.Forall_forall. intros y Hy. by apply (find_none _ _ Hf).
Qed.

(** ** Giving a rule and taking it back *)

Lemma prefix_same_refl p q : family_ok p -> family q = family p -> prefixlen q = prefixlen p -> take 16 (u q) = take 16 (u p) -> prefix_same q p = true.
Proof.
  intros Hf E1 E2 E3. apply prefix_same_iff. split; [done |]. split; [done |]. rewrite E1. destruct Hf as [Hf | Hf]; rewrite Hf; [left | by right].
  split; [done |]. change 4%nat with (4 `min` 16)%nat. rewrite <- !take_take, E3. done.
Qed.

Lemma remove_inserted f e es : f e = true -> Forall (fun x => f x = false) es -> remove_first f (insert_seq e es) = es /\ List.find f (insert_seq e es) = Some e.
Proof.
  intros He F. induction F as [|x es Hx F [IH1 IH2]]; cbn [insert_seq].
  - cbn. by rewrite He.
  - destruct (_ <=? _); cbn; rewrite ?He; [done |]. by rewrite Hx, IH1, IH2.
Qed.

Lemma remove_none f es : Forall (fun x => f x = false) es -> remove_first f es = es.
Proof. induction 1 as [|x es Hx F IH]; cbn; [done |]. by rewrite Hx, IH. Qed.

(** No prefix lists. *)
Definition no_lists : abs := fun _ => ∅.

Section Rules.
Context `{InetText}.

Lemma command_inv afi seq ty pfx ge le junk e : command_entry afi seq ty pfx ge le junk = Some e ->
  exists type ret p g l a, filter_type ty = Some type /\ prefix_arg afi pfx junk (opt_atoi ge 0) (opt_atoi le 0) = (ret, p, g, l, a) /\ 0 < ret /\
    invalid_range (prefixlen p) g l = false /\ e = made p type (opt_atoi seq (-1)) (normal_le afi g l) g a.
Proof.
  unfold command_entry. destruct (filter_type ty) as [type |]; [| done]. destruct (prefix_arg _ _ _ _ _) as [[[[ret p] g] l] a].
  destruct (Z.leb_spec ret 0); [done |]. destruct (invalid_range _ _ _) eqn:Hi; [done |]. intros [= <-]. by exists type, ret, p, g, l, a.
Qed.

Lemma copied_same p : family_ok p -> length (u p) = 16%nat -> prefix_same (copied p) p = true.
Proof.
  intros Hf Hu. apply prefix_same_iff. unfold copied, prefix_copy, set_u_head.
  destruct Hf as [E | E]; rewrite E; cbn [Z.eqb AF_INET AF_INET6 Pos.eqb family prefixlen u]; (split; [done |]); (split; [done |]); [left | right]; (split; [done |]);
    rewrite take_app_length' by (rewrite length_take; lia); done.
Qed.

(** A request to delete finds only entries with the same rule. *)
Lemma entry_is_policy p type seq le ge a any k : family_ok p -> length (u p) = 16%nat -> entry_is p type seq le ge a = true -> same_policy a (set_seq k (made p type seq le ge any)) = true.
Proof.
  intros Hf Hu. unfold entry_is, same_policy. cbn [e_prefix e_type e_le e_ge set_seq made]. rewrite !andb_true_iff, !bool_decide_eq_true, !Z.eqb_eq.
  intros ((((H1 & H2) & _) & H3) & H4). split_and!; try done. apply prefix_same_iff in H1 as (F1 & F2 & F3). pose proof (copied_same p Hf Hu) as Hc. apply prefix_same_iff in Hc as (G1 & G2 & G3).
  apply prefix_same_iff. split; [congruence |]. split; [congruence |]. rewrite F1 in *. rewrite G1 in *. destruct F3 as [[E1 E2] | [E1 E2]], G3 as [[E3 E4] | [E3 E4]];
    [left | by rewrite E1 in E3 | by rewrite E1 in E3 | right]; (split; [done | congruence]).
Qed.

Definition with_same_words (A : abs) (afi : Z) (nm : string) (seq : option string) (ty pfx : string) (ge le : option string) (junk : prefix) : abs * Z :=
  spec_op (spec_op A (Install afi nm seq ty pfx ge le junk)).1 (Uninstall afi nm seq (Some ty) (Some pfx) ge le junk).

Lemma install_uninstall A afi m nm seq ty pfx ge le junk type ret p g l a d es : afi = AFI_IP \/ afi = AFI_IP6 -> prefix_master_get afi = Some m ->
  filter_type ty = Some type -> prefix_arg afi pfx junk (opt_atoi ge 0) (opt_atoi le 0) = (ret, p, g, l, a) -> 0 < ret -> length (u p) = 16%nat ->
  invalid_range (prefixlen p) g l = false -> normal_le afi g l = l -> contents_of A m nm = (d, es) -> A m !! nm <> Some (None, []) ->
  let e := made p type (opt_atoi seq (-1)) l g a in
  Forall (fun x => same_policy x e = false /\ e_seq x <> seq_for e es) es ->
  (spec_op A (Install afi nm seq ty pfx ge le junk)).2 = CMD_SUCCESS /\ (with_same_words A afi nm seq ty pfx ge le junk).2 = CMD_SUCCESS /\
  forall k, (with_same_words A afi nm seq ty pfx ge le junk).1 k = A k.
Proof.
  intros Hafi Hm Hty Hp Hret Hu Hi Hl Hc Hne e F. pose proof (prefix_arg_family _ _ _ _ _ _ _ _ _ _ Hafi Hp Hret) as Hfam. unfold with_same_words. cbn [spec_op]. unfold command_entry, of_afi. rewrite Hty, Hp, Hm.
  rewrite (proj2 (Z.leb_gt _ _)), Hi by lia. cbn [orb]. rewrite Hl. fold e. unfold spec_add. rewrite Hc. set (k := seq_for e es) in *.
  assert (has_dup e k es = false) as ->.
  { unfold has_dup. apply not_true_iff_false. intros (o & Ho & Hd)%existsb_exists. rewrite List.Forall_forall in F. destruct (F o Ho) as [Hs _]. by rewrite Hs in Hd. }
  cbn [fst snd]. split; [done |]. unfold spec_uninstall. rewrite aset_lookup.
  assert (add_entry (set_seq k e) es = insert_seq (set_seq k e) es) as ->.
  { unfold add_entry. cbn [e_seq set_seq]. rewrite remove_none; [done |]. eapply List.Forall_impl; [| exact F]. cbn. intros x [_ Hx]. by apply Z.eqb_neq. }
  assert (Forall (fun x => entry_is p type (opt_atoi seq (-1)) l g x = false) es) as Ff.
  { eapply List.Forall_impl; [| exact F]. cbn. intros x [Hx _]. apply not_true_iff_false. intros Ht. apply (entry_is_policy _ _ _ _ _ _ a (opt_atoi seq (-1))) in Ht; [| done | done].
    fold e in Ht. change (set_seq (opt_atoi seq (-1)) e) with e in Ht. congruence. }
  assert (entry_is p type (opt_atoi seq (-1)) l g (set_seq k e) = true) as Fe.
  { unfold entry_is. cbn [e_prefix e_type e_le e_ge e_seq set_seq made e]. rewrite copied_same, bool_decide_true, !Z.eqb_refl by done.
    unfold k, seq_for. cbn [e_seq made e]. destruct (Z.eqb_spec (opt_atoi seq (-1)) (-1)) as [-> |]; [done |]. rewrite Z.eqb_refl. cbn. by rewrite andb_false_r. }
  destruct (remove_inserted _ _ _ Fe Ff) as [H1 H2]. rewrite Hty, Hp, (proj2 (Z.leb_gt _ _)) by lia. unfold spec_remove. rewrite aset_lookup, H1, H2.
  assert (forall j, settle (aset A m nm (d, insert_seq (set_seq k e) es)) m nm (d, es) j = A j) as Hj.
  { intros j. rewrite settle_aset. unfold contents_of in Hc. destruct (A m !! nm) as [c |] eqn:Ha; cbn in Hc; [rewrite Hc in Ha |].
    - assert (settle A m nm (d, es) = aset A m nm (d, es)) as -> by (destruct d, es; congruence || done). by apply aset_id.
    - simplify_eq. cbn. unfold adel. destruct (decide (j = m)) as [-> |]; [by rewrite delete_id | done]. }
  destruct seq, ge, le; split; done.
Qed.

(** ** Properties of all entries *)

(** Every entry of every list satisfies [P], which does not look at the counters. *)
Definition abs_all (P : master_id -> entry -> Prop) (A : abs) : Prop := forall m nm d es e, A m !! nm = Some (d, es) -> e ∈ es -> P m e.

Section All.
Context (P : master_id -> entry -> Prop) (P_rule : forall m e e', rule e = rule e' -> P m e -> P m e').

Lemma aset_all A m nm d es : abs_all P A -> (forall e, e ∈ es -> P m e) -> abs_all P (aset A m nm (d, es)).
Proof.
  intros W We k nm' d' es' e. unfold aset. destruct (decide (k = m)) as [-> |]; [| apply W]. rewrite lookup_insert. case_decide; [| apply W]. intros [= <- <-]. apply We.
Qed.

Lemma adel_all A m nm : abs_all P A -> abs_all P (adel A m nm).
Proof. intros W k nm' d' es' e. unfold adel. destruct (decide (k = m)) as [-> |]; [| apply W]. rewrite lookup_delete. case_decide; [done | apply W]. Qed.

Lemma settle_all A m nm d es : abs_all P A -> (forall e, e ∈ es -> P m e) -> abs_all P (settle A m nm (d, es)).
Proof. intros W We. destruct d, es; cbn; try apply aset_all; try apply adel_all; done. Qed.

Lemma contents_all A m nm e : abs_all P A -> e ∈ (contents_of A m nm).2 -> P m e.
Proof. intros W. unfold contents_of. destruct (A m !! nm) as [[d es]|] eqn:Ha; cbn; [by apply (W m nm d es) | set_solver]. Qed.

Lemma spec_add_all A m nm e : abs_all P A -> (forall k, P m (set_seq k e)) -> abs_all P (spec_add A m nm e).1.
Proof.
  intros W We. unfold spec_add. destruct (contents_of A m nm) as [d es] eqn:Hc. destruct (has_dup _ _ _); [done |]. cbn [fst]. apply aset_all; [done |].
  intros x. unfold add_entry. rewrite insert_seq_elem. intros [-> | Hx]; [apply We |]. apply remove_first_sub in Hx. apply (contents_all A m nm x W). by rewrite Hc.
Qed.

Lemma spec_remove_all A m nm f : abs_all P A -> abs_all P (spec_remove A m nm f).1.
Proof.
  intros W. unfold spec_remove. destruct (A m !! nm) as [[d es]|] eqn:Ha; [| done]. destruct (List.find f es); [| done]. cbn [fst]. apply settle_all; [done |].
  intros x Hx. apply (W m nm d es); [done | by eapply remove_first_sub].
Qed.

Lemma rules_all A m nm d es es' e : abs_all P A -> A m !! nm = Some (d, es) -> map rule es' = map rule es -> e ∈ es' -> P m e.
Proof.
  intros W Ha Hr He. assert (rule e ∈ map rule es) as Hin by (rewrite <- Hr; by apply list_elem_of_In, in_map, list_elem_of_In).
  apply list_elem_of_In, in_map_iff in Hin as (x & Hx & Hi). apply (P_rule m x e Hx). apply (W m nm d es); [done | by apply list_elem_of_In].
Qed.

(** What an operation must not break. *)
Definition op_adds (o : op) : Prop :=
  match o with
  | Install afi nm seq ty pfx ge le junk => forall m e k, prefix_master_get afi = Some m -> command_entry afi seq ty pfx ge le junk = Some e -> P m (set_seq k e)
  | OrfSet nm afi orfp permit true => invalid_range (prefixlen (o_p orfp)) (o_ge orfp) (o_le orfp) = false ->
      forall k, P prefix_master_orf (set_seq k (made (o_p orfp) (if permit then PREFIX_PERMIT else PREFIX_DENY) (signed 32 (o_seq orfp)) (normal_le afi (o_ge orfp) (o_le orfp)) (o_ge orfp) 0))
  | _ => True
  end.

Lemma spec_op_all A o : abs_all P A -> op_adds o -> abs_all P (spec_op A o).1.
Proof.
  intros W Ho. destruct o; cbn [spec_op]; unfold of_afi; try done.
  - destruct (command_entry _ _ _ _ _ _ _) as [e |] eqn:He; [| done]. destruct (prefix_master_get afi) as [m |] eqn:Hm; [| done]. apply spec_add_all; [done |]. intros k. by eapply Ho.
  - destruct (prefix_master_get afi) as [m |]; [| done]. unfold spec_uninstall. destruct (A m !! nm) as [c |]; [| done].
    destruct seq, typestr as [ty |], pfx as [px |], ge, le; try done; try (by apply adel_all);
      (destruct (filter_type ty); [| done]); destruct (prefix_arg afi px junk _ _) as [[[[? ?] ?] ?] ?]; (destruct (_ <=? 0); [done | by apply spec_remove_all]).
  - destruct (prefix_master_get afi) as [m |]; [| done]. apply aset_all; [done |]. intros e. by apply contents_all.
  - destruct (prefix_master_get afi) as [m |]; [| done]. destruct (A m !! nm) as [[d es]|] eqn:Ha; [| done]. apply settle_all; [done |]. intros e. by apply (W m nm d es).
  - destruct (prefix_master_get afi) as [m |]; [| done]. unfold spec_clear. destruct nm as [nm |]; [destruct (A m !! nm) as [[d es]|] eqn:Ha; [| done] |]; destruct pfx as [px |]; try done.
    + destruct (str2prefix px junk) as [ret q]. destruct (ret <=? 0); [done |]. apply aset_all; [done |]. intros e. apply (rules_all A m nm d es _ e W Ha), cleared_rule.
    + apply aset_all; [done |]. intros e. apply (rules_all A m nm d es _ e W Ha), cleared_rule.
    + cbn [fst]. intros k nm' d es e. unfold clear_all, clear_names. destruct (decide (k = m)) as [-> |]; [| apply W]. rewrite map_lookup_imap.
      destruct (A m !! nm') as [[d' es']|] eqn:Ha; [| done]. cbn. rewrite decide_True by done. intros [= <- <-]. apply (rules_all A m nm' d' es' _ e W Ha), cleared_rule.
  - destruct (prefix_master_get afi) as [m |]; [| done]. destruct (A m !! nm) as [[d es]|] eqn:Ha; [| done]. apply aset_all; [done |]. intros e. apply (rules_all A m nm d es _ e W Ha), counted_rule.
  - unfold spec_orf. cbn [op_adds] in Ho. destruct (invalid_range _ _ _); [done |]. destruct set; [by apply spec_add_all; auto |]. apply spec_remove_all.
    destruct (contents_of A prefix_master_orf nm) as [d es] eqn:Hc. apply aset_all; [done |]. intros e He. apply (contents_all A prefix_master_orf nm e W). by rewrite Hc.
  - by apply adel_all.
Qed.

Lemma spec_ops_all os : forall A, abs_all P A -> (forall o, op_adds o) -> abs_all P (spec_ops A os).1.
Proof.
  induction os as [|o os IH]; intros A W Ho; [done |]. cbn. pose proof (spec_op_all A o W (Ho o)) as W1. destruct (spec_op A o) as [A1 r]. cbn in W1. specialize (IH A1 W1 Ho).
  by destruct (spec_ops A1 os).
Qed.
End All.

(** ** Stored rules are well formed *)

(** A rule of the lists of one family: a prefix of the family, bounds that make sense, and no upper bound where it says nothing. *)
Definition family_rule (fam bits : Z) (e : entry) : Prop :=
  family (e_prefix e) = fam /\ 0 <= prefixlen (e_prefix e) <= bits /\
  invalid_range (prefixlen (e_prefix e)) (e_ge e) (e_le e) = false /\ (e_ge e <> 0 -> e_le e <> bits).
Definition rule_ok (m : master_id) (e : entry) : Prop :=
  match m with
  | prefix_master_ipv4 => family_rule AF_INET IPV4_MAX_BITLEN e
  | prefix_master_ipv6 => family_rule AF_INET6 IPV6_MAX_BITLEN e
  | prefix_master_orf => True
  end.

Lemma rule_ok_rule m e e' : rule e = rule e' -> rule_ok m e -> rule_ok m e'.
Proof. destruct e, e'. unfold rule, rule_ok, family_rule. cbn. intros [=]; subst. done. Qed.

Lemma str2prefix_ipv4_len str p ret q : str2prefix_ipv4 str p = (ret, q) -> 0 < ret -> 0 <= prefixlen q <= IPV4_MAX_BITLEN.
Proof.
  unfold str2prefix_ipv4. destruct (strchr_split slash str) as [[cp pnt]|].
  - destruct (aton_into cp p) as [r p1]. pose proof (wrap_range 8 (atoi (stail pnt)) ltac:(lia)). destruct (Z.gtb_spec (u8 (atoi (stail pnt))) IPV4_MAX_PREFIXLEN); intros [= <- <-]; [lia |]. intros _. cbn [prefixlen set_family_len]. unfold IPV4_MAX_BITLEN, IPV4_MAX_PREFIXLEN, in_u in *. lia.
  - destruct (aton_into str p) as [r p1]. destruct (_ =? _); intros [= <- <-]; [lia | done].
Qed.

Lemma str2prefix_ipv6_len str p ret q : str2prefix_ipv6 str p = (ret, q) -> 0 < ret -> 0 <= prefixlen q <= IPV6_MAX_BITLEN.
Proof.
  unfold str2prefix_ipv6. destruct (strchr_split slash str) as [[cp pnt]|].
  - destruct (pton6_into cp p) as [r p1]. destruct (r =? 0); [intros [= <- <-]; lia |]. pose proof (wrap_range 8 (atoi (stail pnt)) ltac:(lia)).
    destruct (Z.gtb_spec (u8 (atoi (stail pnt))) IPV6_MAX_BITLEN); intros [= <- <-]; [lia |]. intros _. cbn [prefixlen set_family_len]. unfold in_u in *. lia.
  - destruct (pton6_into str p) as [r p1]. destruct (_ =? _); intros [= <- <-]; [lia | done].
Qed.

(** The prefix argument: family, length, and bounds. *)
Lemma prefix_arg_len afi pfx junk g l ret p g' l' a : prefix_arg afi pfx junk g l = (ret, p, g', l', a) -> 0 < ret ->
  (afi = AFI_IP -> family p = AF_INET /\ 0 <= prefixlen p <= IPV4_MAX_BITLEN) /\ (afi = AFI_IP6 -> family p = AF_INET6 /\ 0 <= prefixlen p <= IPV6_MAX_BITLEN).
Proof.
  unfold prefix_arg. intros E Hr. split; intros ->; cbn [Z.eqb AFI_IP AFI_IP6 Pos.eqb] in E; destruct (_ =? 0).
  1-2: destruct (str2prefix_ipv4 _ junk) as [r q] eqn:Es; simplify_eq; eauto using str2prefix_ipv4_family, str2prefix_ipv4_len.
  1-2: destruct (str2prefix_ipv6 _ junk) as [r q] eqn:Es; simplify_eq; eauto using str2prefix_ipv6_family, str2prefix_ipv6_len.
Qed.

Lemma normal_range plen afi g l : invalid_range plen g l = false -> invalid_range plen g (normal_le afi g l) = false.
Proof.
  unfold normal_le. destruct (negb (g =? 0) && _) eqn:E; [| done]. unfold invalid_range. intros Hi. apply orb_false_iff in Hi as [Hi _]. apply orb_false_iff in Hi as [-> _].
  done.
Qed.

Lemma copied_fields p : family_ok p -> prefixlen (copied p) = prefixlen p /\ family (copied p) = family p.
Proof. intros [E | E]; unfold copied, prefix_copy; by rewrite E. Qed.

Lemma normal_bound afi g l bits : (if afi =? AFI_IP then 32 else 128) = bits -> g <> 0 -> normal_le afi g l <> bits.
Proof. unfold normal_le. intros <- Hg. rewrite (proj2 (Z.eqb_neq _ _) Hg). cbn [negb andb]. destruct (Z.eqb_spec l (if afi =? AFI_IP then 32 else 128)); destruct (afi =? AFI_IP); lia. Qed.

Lemma rule_added o : op_adds rule_ok o.
Proof.
  destruct o as [afi nm seq ty pfx ge le junk | | | | | | | nm afi orfp permit [] | | |]; try done.
  intros m e k Hm Hc. apply command_inv in Hc as (type & ret & p & g & l & a & _ & Hp & Hr & Hi & ->).
  destruct (prefix_arg_len _ _ _ _ _ _ _ _ _ _ Hp Hr) as [H4 H6]. apply (normal_range _ afi) in Hi. unfold prefix_master_get in Hm.
  destruct (Z.eqb_spec afi AFI_IP) as [-> |]; [| destruct (Z.eqb_spec afi AFI_IP6) as [-> |]; [| by destruct (afi =? _); simplify_eq]]; simplify_eq; cbn [rule_ok];
    [destruct (H4 eq_refl) as [Ef Hl] | destruct (H6 eq_refl) as [Ef Hl]]; unfold family_rule; cbn [e_prefix e_ge e_le set_seq made];
    (destruct (copied_fields p) as [-> ->]; [unfold family_ok; auto |]); (split; [done |]); (split; [done |]); (split; [done |]); by apply normal_bound.
Qed.

Lemma rules_ok os : abs_all rule_ok (spec_ops no_lists os).1.
Proof. apply spec_ops_all; [apply rule_ok_rule | done | apply rule_added]. Qed.

(** ** A rule that cannot be taken back *)

Lemma find_false {T} (f : T -> bool) l : (forall x, x ∈ l -> f x = false) -> List.find f l = None.
Proof. induction l as [|x l IH]; intros F; cbn; [done |]. rewrite F by left. apply IH. intros y Hy. apply F. by right. Qed.

Lemma uninstall_refused A afi m nm seq ty pfx ge le junk ret p g l a : abs_all rule_ok A -> prefix_master_get afi = Some m -> afi = AFI_IP \/ afi = AFI_IP6 ->
  prefix_arg afi pfx junk (opt_atoi ge 0) (opt_atoi le 0) = (ret, p, g, l, a) -> g <> 0 -> l = (if afi =? AFI_IP then 32 else 128) ->
  spec_op A (Uninstall afi nm seq (Some ty) (Some pfx) ge le junk) = (A, CMD_WARNING).
Proof.
  intros W Hm Hafi Hp Hg Hl. cbn [spec_op]. unfold of_afi. rewrite Hm. unfold spec_uninstall. destruct (A m !! nm) as [[d es]|] eqn:Ha; [| done].
  assert (forall type, spec_remove A m nm (entry_is p type (opt_atoi seq (-1)) l g) = (A, CMD_WARNING)) as Hs.
  { intros type. unfold spec_remove. rewrite Ha, find_false; [done |]. intros e He. pose proof (W m nm d es e Ha He) as Hr. unfold entry_is.
    destruct (Z.eqb_spec (e_le e) l) as [El |]; [| by rewrite andb_false_r]. destruct (Z.eqb_spec (e_ge e) g) as [Eg |]; [| by rewrite andb_false_r].
    exfalso. unfold prefix_master_get in Hm. destruct Hafi as [-> | ->]; cbn in Hm; simplify_eq; destruct Hr as (_ & _ & _ & Hb); by apply Hb. }
  destruct (filter_type ty); [| by destruct seq, ge, le]. rewrite Hp. destruct (ret <=? 0); [by destruct seq, ge, le |]. rewrite Hs. by destruct seq, ge, le.
Qed.
End Rules.
