(* ===== verification/PlistClaims.v ===== *)
(** * Prefix lists: theorems

    The properties of lib/plist.c, with an instance of each. *)

From stdpp Require Import sorting.
From S2P Require Import Prelude CString Prefix Inet PrefixText DList Plist PlistCmd PlistRep PlistEntry PlistLists PlistRefine PlistOps PlistRules.
Local Open Scope Z_scope.

Lemma reps_init : reps plists_init no_lists.
Proof. eexists _, _. apply rep_init. Qed.

Lemma no_lists_wf : abs_wf no_lists.
Proof. done. Qed.

Section Claims.
Context `{InetText}.

Lemma history os s rs : ops_ok no_lists os -> run_ops plists_init os = Ok (s, rs) -> rs = (spec_ops no_lists os).2 /\ reps s (spec_ops no_lists os).1.
Proof. intros Hok Hr. destruct (ops_refine _ _ os reps_init Hok) as (s' & Hr' & R). rewrite Hr in Hr'. by injection Hr' as <- <-. Qed.

(** C11: every history of commands, verdicts and filter updates on prefix lists, started with none, runs to its end without touching freed
    memory, returns what the specification over finite maps of ordered rules returns, and leaves memory holding exactly its contents. *)
Theorem plist_refines_spec os : ops_ok no_lists os -> exists s, run_ops plists_init os = Ok (s, (spec_ops no_lists os).2) /\ reps s (spec_ops no_lists os).1.
Proof. apply ops_refine, reps_init. Qed.

(** C12: after any history the entries of every prefix list are linked both ways in strictly increasing order of their sequence numbers, no rule is there
    twice, the counter is their number, every entry in memory is in exactly one list, and the lists of a master are linked in the order of their names. *)
Theorem plist_memory_invariant os s rs : ops_ok no_lists os -> run_ops plists_init os = Ok (s, rs) -> exists E : positive -> list positive,
  (forall p n, lmem s !! p = Some n -> exists es, dll (emem s) (entries (body n)) (E p) /\ bodies (emem s) (E p) es /\ count (body n) = Z.of_nat (length es) /\
    StronglySorted seq_lt es /\ (forall a b, a ∈ es -> b ∈ es -> same_policy a b = true -> e_seq a = e_seq b)) /\
  (forall t n, emem s !! t = Some n -> exists p, t ∈ E p /\ is_Some (lmem s !! p) /\ forall p', t ∈ E p' -> p' = p) /\
  (forall m k, exists ps nms, dll (lmem s) (sub_list k (masters s m)) ps /\ Forall2 (fun p nm => key (lmem s) p = Some (m, k, nm)) ps nms /\ StronglySorted (name_before k) nms).
Proof.
  intros Hok Hr. destruct (history os s rs Hok Hr) as (_ & L & E & R). pose proof (spec_ops_wf no_lists os no_lists_wf) as W. exists E. split; [| split].
  - intros p n Hn. destruct (e_entries _ _ _ _ _ (proj2 R) p n Hn) as (es & Ha & D & B & Hc). exists es. destruct (W _ _ _ _ Ha). done.
  - intros t n Ht. destruct (e_all _ _ _ _ _ (proj2 R) t n Ht) as [Hx | (p & Hp)]; [by apply not_elem_of_nil in Hx |]. exists p. split; [done |].
    split; [by apply (e_owner _ _ _ _ _ (proj2 R) p t) |]. intros p' Hp'. by apply (e_one _ _ _ _ _ (proj2 R) p' p t).
  - intros m k. destruct (lists_names s _ L E m k R) as (nms & F & _). exists (L m k), nms. split; [apply (proj1 R) |]. split; [done |]. by apply (l_order _ _ _ (proj1 R) m k nms).
Qed.

(** C13: after any history, whatever a search in a list of the IPv4 or of the IPv6 master finds is a rule of that family: a prefix of the family with a length it allows,
    bounds above that length and in order, and no upper bound where it would say nothing. *)
Theorem plist_rules_typed os s rs p n f t : ops_ok no_lists os -> run_ops plists_init os = Ok (s, rs) ->
  lmem s !! p = Some n -> find_entry s p f = Ok (Some t) -> exists nt, emem s !! t = Some nt /\ f (body nt) = true /\ rule_ok (pl_master (body n)) (body nt).
Proof.
  intros Hok Hr Hn Hf. destruct (history os s rs Hok Hr) as (_ & L & E & R). destruct (rep_content R p n Hn) as (es & Ha & _ & B & _).
  rewrite (find_entry_spec R p n _ es f Hn Ha) in Hf. injection Hf as Hf. destruct (List.find _ (zip (E p) es)) as [[t' e] |] eqn:Hz; [| done]. cbn in Hf. simplify_eq.
  apply find_some in Hz as [Hin Hfe]. apply list_elem_of_In, list_elem_of_lookup in Hin as (i & Hi). apply lookup_zip_Some in Hi as [Hi1 Hi2].
  pose proof (Forall2_lookup_lr _ _ _ _ _ _ B Hi1 Hi2) as Hb. cbn in Hb. apply fmap_Some in Hb as (nt & Ht & ->). exists nt. split; [done |]. split; [done |].
  apply (rules_ok os _ _ _ _ _ Ha). by eapply list_elem_of_lookup_2.
Qed.

(** C14: the verdict of a prefix list is that of its first entry, in the order of the sequence numbers, whose prefix contains the given one and whose bounds
    allow its length; a prefix that no entry matches is denied, and a list without entries permits everything. *)
Theorem prefix_list_apply_first_match s A afi m nm d es q : reps s A -> prefix_master_get afi = Some m -> A m !! nm = Some (d, es) ->
  Forall (fun e => prefix_wf (e_prefix e)) es -> prefix_wf q ->
  let matches e := covers (e_prefix e) q /\ in_range e (prefixlen q) in
  exists p s' v, prefix_list_lookup s afi (Some nm) = Ok (Some p) /\ prefix_list_apply s (Some p) q = Ok (s', v) /\ reps s' (aset A m nm (d, counted es q)) /\
    ((es = [] /\ v = PREFIX_PERMIT) \/
     (exists e pre post, es = pre ++ e :: post /\ matches e /\ Forall (fun x => ~ matches x) pre /\ v = e_type e) \/
     (es <> [] /\ Forall (fun x => ~ matches x) es /\ v = PREFIX_DENY)).
Proof.
  intros R Hm Ha Fw Wq matches. pose proof (lookup_reps s A afi m nm R Hm) as Hl. rewrite Ha in Hl. destruct Hl as (L & E & p & n & R0 & Hl & Hn & Em & En).
  rewrite <- Em, <- En in Ha. destruct (apply_spec s A L E p n d es q R0 Hn Ha) as (s' & Hap & R'). exists p, s', (verdict es q). rewrite Em, En in R'. do 3 (split; [done |]).
  assert (forall l, (forall x, x ∈ l -> x ∈ es) -> Forall (fun x => prefix_list_entry_match x q = false) l -> Forall (fun x => ~ matches x) l) as Hno.
  { intros l Hin F. rewrite list.Forall_forall in F, Fw |- *. intros x Hx Hc. apply (entry_match_iff x q) in Hc; [| auto | done]. by rewrite F in Hc. }
  destruct (verdict_cases es q) as [H1 | [(e & (pre & post & Hes & He & Hp) & Hv) | (H1 & H2 & H3)]]; [by left | right; left | right; right].
  - exists e, pre, post. split; [done |]. split; [| split; [| done]].
    + apply entry_match_iff; [| done | done]. rewrite list.Forall_forall in Fw. apply Fw. set_solver.
    + apply Hno; [| done]. set_solver.
  - split; [done |]. split; [| done]. by apply Hno.
Qed.

(** A rule that a command added to a list that had neither that rule nor that sequence number is removed by the same words after [no], when the command
    does not combine a lower bound with the greatest upper bound: both commands succeed and everything is as before. *)
Theorem plist_install_uninstall s A afi m nm seq ty pfx ge le junk type ret p g l a d es :
  reps s A -> op_ok A (Install afi nm seq ty pfx ge le junk) -> prefix_master_get afi = Some m ->
  filter_type ty = Some type -> prefix_arg afi pfx junk (opt_atoi ge 0) (opt_atoi le 0) = (ret, p, g, l, a) -> 0 < ret -> length (u p) = 16%nat ->
  invalid_range (prefixlen p) g l = false -> normal_le afi g l = l -> contents_of A m nm = (d, es) -> A m !! nm <> Some (None, []) ->
  let e := made p type (opt_atoi seq (-1)) l g a in Forall (fun x => same_policy x e = false /\ e_seq x <> seq_for e es) es ->
  exists s1 s2, vty_prefix_list_install s afi nm seq ty pfx ge le junk = Ok (s1, CMD_SUCCESS) /\
    vty_prefix_list_uninstall s1 afi nm seq (Some ty) (Some pfx) ge le junk = Ok (s2, CMD_SUCCESS) /\ reps s2 A.
Proof.
  intros R Hok Hm Hty Hp Hret Hu Hi Hl Hc Hne e F. destruct (install_uninstall A afi m nm seq ty pfx ge le junk type ret p g l a d es) as (H1 & H2 & H3); try done; [by apply Hok |].
  unfold with_same_words in *. destruct (op_refines s A _ R Hok) as (s1 & Hs1 & R1). rewrite H1 in Hs1.
  destruct (op_refines s1 _ (Uninstall afi nm seq (Some ty) (Some pfx) ge le junk) R1 I) as (s2 & Hs2 & R2). rewrite H2 in Hs2. exists s1, s2. split; [done |]. split; [done |].
  by eapply reps_ext.
Qed.

(** C35: a rule with a lower bound and the greatest upper bound (32, or 128 for IPv6) cannot be removed with the words it was given with: after any history the
    command returns a warning and changes nothing, because the bound was dropped when the rule was stored. *)
Theorem plist_uninstall_max_refused os s rs afi nm seq ty pfx ge le junk ret p g l a : ops_ok no_lists os -> run_ops plists_init os = Ok (s, rs) ->
  afi = AFI_IP \/ afi = AFI_IP6 -> prefix_arg afi pfx junk (opt_atoi ge 0) (opt_atoi le 0) = (ret, p, g, l, a) -> g <> 0 -> l = (if afi =? AFI_IP then 32 else 128) ->
  exists s', vty_prefix_list_uninstall s afi nm seq (Some ty) (Some pfx) ge le junk = Ok (s', CMD_WARNING) /\ reps s' (spec_ops no_lists os).1.
Proof.
  intros Hok Hr Hafi Hp Hg Hl. destruct (history os s rs Hok Hr) as (_ & R). assert (exists m, prefix_master_get afi = Some m) as (m & Hm) by (destruct Hafi as [-> | ->]; cbn; eauto).
  destruct (op_refines s _ (Uninstall afi nm seq (Some ty) (Some pfx) ge le junk) R I) as (s' & Hs & R').
  rewrite (uninstall_refused _ afi m nm seq ty pfx ge le junk ret p g l a (rules_ok os) Hm Hafi Hp Hg Hl) in Hs, R'. by exists s'.
Qed.
End Claims.

(** ** Instances *)

Definition ex_junk : prefix := mk_prefix 0 0 (replicate 16 0).
(** A list with two rules, one of which gets its sequence number, a description, and a list with a number for a name. *)
Definition plist_ex_ops : list op :=
  [Install AFI_IP "in" None "permit" "10.0.0.0/8" (Some "16"%string) (Some "24"%string) ex_junk;
   Install AFI_IP "in" (Some "3"%string) "deny" "10.9.0.0/16" None (Some "32"%string) ex_junk;
   Install AFI_IP "12" None "permit" "10.0.0.0/8" (Some "16"%string) (Some "32"%string) ex_junk;
   Install AFI_IP "in" (Some "7"%string) "permit" "10.0.0.0/8" (Some "16"%string) (Some "24"%string) ex_junk;
   Description AFI_IP "in" (Some "routes of the lab"%string)].
Definition ex_state : plists := match run_ops plists_init plist_ex_ops with Ok (s, _) => s | _ => plists_init end.

(** The fourth command repeats the rule of the first. *)
Lemma ex_history : run_ops plists_init plist_ex_ops = Ok (ex_state, [CMD_SUCCESS; CMD_SUCCESS; CMD_SUCCESS; CMD_WARNING; CMD_SUCCESS]).
Proof. vm_compute. reflexivity. Qed.

Lemma ex_ok : ops_ok no_lists plist_ex_ops.
Proof.
  assert (forall nm, match name_number 0 nm with Ok _ => True | _ => False end -> name_fits nm) as Hn.
  { intros nm Hn. unfold name_fits. destruct (name_number 0 nm) as [v | |]; [by exists v | done | done]. }
  repeat split; try (by left); try (apply Hn; exact I); try (intros m [= <-] _; vm_compute; discriminate); by exists prefix_master_ipv4.
Qed.

Lemma ex_reps : reps ex_state (spec_ops no_lists plist_ex_ops).1.
Proof. exact (proj2 (history plist_ex_ops ex_state _ ex_ok ex_history)). Qed.

Lemma plist_refines_spec_witness : exists s, run_ops plists_init plist_ex_ops = Ok (s, (spec_ops no_lists plist_ex_ops).2) /\ reps s (spec_ops no_lists plist_ex_ops).1.
Proof. apply (plist_refines_spec plist_ex_ops). apply ex_ok. Defined.

Lemma plist_memory_invariant_witness : exists E : positive -> list positive, forall p n, lmem ex_state !! p = Some n -> exists es, bodies (emem ex_state) (E p) es /\ StronglySorted seq_lt es.
Proof.
  destruct (plist_memory_invariant plist_ex_ops ex_state _ ex_ok ex_history) as (E & H1 & _). exists E. intros p n Hn. destruct (H1 p n Hn) as (es & _ & B & _ & S & _). exists es. exact (conj B S).
Defined.

Definition ex_list : positive := match prefix_list_lookup ex_state AFI_IP (Some "in"%string) with Ok (Some p) => p | _ => 1%positive end.

Lemma ex_list_at : exists n, lmem ex_state !! ex_list = Some n /\ pl_master (body n) = prefix_master_ipv4.
Proof. vm_compute. eexists. split; reflexivity. Qed.

Definition ex_search (e : entry) : bool := e_seq e =? 5.

Lemma ex_found : exists t, find_entry ex_state ex_list ex_search = Ok (Some t).
Proof. vm_compute. eexists. reflexivity. Qed.

#[local] Opaque ex_state ex_list.

Lemma plist_rules_typed_witness : exists t nt, find_entry ex_state ex_list ex_search = Ok (Some t) /\ emem ex_state !! t = Some nt /\ rule_ok prefix_master_ipv4 (body nt).
Proof.
  destruct ex_list_at as (n & Hn & Hm), ex_found as (t & Ht).
  destruct (plist_rules_typed plist_ex_ops ex_state _ ex_list n ex_search t ex_ok ex_history Hn Ht) as (nt & H1 & _ & H2). rewrite Hm in H2. exists t, nt.
  exact (conj Ht (conj H1 H2)).
Defined.

(** A /16 inside 10.0.0.0/8 is permitted; the first entry, for 10.9.0.0/16, does not match it. *)
Definition plist_ex_route : prefix := mk_prefix AF_INET 16 (10 :: 8 :: replicate 14 0).
Definition ex_entries : list entry := match (spec_ops no_lists plist_ex_ops).1 prefix_master_ipv4 !! "in"%string with Some (_, es) => es | None => [] end.

Lemma ex_entries_wf : Forall (fun e => prefix_wf (e_prefix e)) ex_entries.
Proof. vm_compute. repeat constructor; discriminate. Qed.

Lemma prefix_list_apply_first_match_witness : exists p s' v, prefix_list_lookup ex_state AFI_IP (Some "in"%string) = Ok (Some p) /\ prefix_list_apply ex_state (Some p) plist_ex_route = Ok (s', v).
Proof.
  destruct (prefix_list_apply_first_match ex_state (spec_ops no_lists plist_ex_ops).1 AFI_IP prefix_master_ipv4 "in" (Some "routes of the lab"%string) ex_entries plist_ex_route) as (p & s' & v & H1 & H2 & _).
  - apply ex_reps.
  - reflexivity.
  - vm_compute. reflexivity.
  - apply ex_entries_wf.
  - vm_compute. repeat constructor; discriminate.
  - exists p, s', v. exact (conj H1 H2).
Defined.

(** [ip prefix-list in permit 192.168.0.0/16 le 24] and [no ip prefix-list in permit 192.168.0.0/16 le 24] *)
Lemma plist_install_uninstall_witness : exists s1 s2,
  vty_prefix_list_install ex_state AFI_IP "in" None "permit" "192.168.0.0/16" None (Some "24"%string) ex_junk = Ok (s1, CMD_SUCCESS) /\
  vty_prefix_list_uninstall s1 AFI_IP "in" None (Some "permit"%string) (Some "192.168.0.0/16"%string) None (Some "24"%string) ex_junk = Ok (s2, CMD_SUCCESS) /\ reps s2 (spec_ops no_lists plist_ex_ops).1.
Proof.
  apply (plist_install_uninstall ex_state (spec_ops no_lists plist_ex_ops).1 AFI_IP prefix_master_ipv4 "in" None "permit" "192.168.0.0/16" None (Some "24"%string) ex_junk
    PREFIX_PERMIT 1 (mk_prefix AF_INET 16 (192 :: 168 :: replicate 14 0)) 0 24 0 (Some "routes of the lab"%string) ex_entries).
  - apply ex_reps.
  - split; [by left |]. split; [by exists (0, false) |]. intros m [= <-] _. vm_compute. discriminate.
  - reflexivity.
  - reflexivity.
  - vm_compute. reflexivity.
  - lia.
  - reflexivity.
  - reflexivity.
  - reflexivity.
  - vm_compute. reflexivity.
  - vm_compute. discriminate.
  - vm_compute. repeat constructor; discriminate.
Defined.

(** [no ip prefix-list 12 permit 10.0.0.0/8 ge 16 le 32], the words of the third command *)
Lemma plist_uninstall_max_refused_witness : exists s',
  vty_prefix_list_uninstall ex_state AFI_IP "12" None (Some "permit"%string) (Some "10.0.0.0/8"%string) (Some "16"%string) (Some "32"%string) ex_junk = Ok (s', CMD_WARNING).
Proof.
  destruct (plist_uninstall_max_refused plist_ex_ops ex_state _ AFI_IP "12" None "permit" "10.0.0.0/8" (Some "16"%string) (Some "32"%string) ex_junk
    1 (mk_prefix AF_INET 8 (10 :: replicate 15 0)) 16 32 0 ex_ok ex_history) as (s' & Hs & _); [by left | vm_compute; reflexivity | lia | reflexivity |].
  exists s'. exact Hs.
Defined.
