(* ===== verification/BgpOrf.v ===== *)
(** * bgpd/bgp_packet.c: route refresh messages with outbound route filters

    A router sends its inbound prefix list to a neighbour, which keeps it as a prefix list of its own (the third master of
    lib/plist.c) and filters what it announces.  [bgp_route_refresh_send] writes such a message into a stream of lib/stream.c,
    [bgp_route_refresh_receive] reads it from the input buffer of the neighbour.  Inside an ORF entry the code
    reads through raw pointers: they are positions in the block of the stream.  Logging is left out. *)

From Stdlib Require Import Ascii.
From S2P Require Import Prelude CString Prefix Inet PrefixText Stream DList Plist PlistCmd.
Local Open Scope Z_scope.

Definition BGP_MARKER_SIZE : Z := 16.
Definition BGP_HEADER_SIZE : Z := 19.
Definition BGP_MAX_PACKET_SIZE : Z := 4096.
Definition BGP_MSG_ROUTE_REFRESH_NEW : Z := 5.
Definition BGP_MSG_ROUTE_REFRESH_OLD : Z := 128.
Definition BGP_MSG_ROUTE_REFRESH_MIN_SIZE : Z := BGP_HEADER_SIZE + 4.
Definition SAFI_UNICAST : Z := 1.
Definition SAFI_MULTICAST : Z := 2.
Definition SAFI_MPLS_VPN : Z := 4.
Definition SAFI_MPLS_LABELED_VPN : Z := 128.
Definition ORF_TYPE_PREFIX : Z := 64.
Definition ORF_TYPE_PREFIX_OLD : Z := 128.
Definition REFRESH_DEFER : Z := 2.
Definition ORF_COMMON_PART_ADD : Z := 0x00.
Definition ORF_COMMON_PART_REMOVE : Z := 0x80.
Definition ORF_COMMON_PART_REMOVE_ALL : Z := 0xC0.
Definition ORF_COMMON_PART_PERMIT : Z := 0x00.
Definition ORF_COMMON_PART_DENY : Z := 0x20.
Definition BGP_NOTIFY_HEADER_ERR : Z := 1.
Definition BGP_NOTIFY_FSM_ERR : Z := 5.
Definition BGP_NOTIFY_CEASE : Z := 6.
Definition BGP_NOTIFY_HEADER_BAD_MESTYPE : Z := 3.

Definition orf_type_prefix (t : Z) : bool := (t =? ORF_TYPE_PREFIX) || (t =? ORF_TYPE_PREFIX_OLD).

(** ** Sending *)

Fixpoint put_marker (st : stream) (n : nat) : res stream :=
  match n with O => Ok st | S n => '(_, st) ← stream_putc st 0xff; put_marker st n end.

Definition bgp_packet_set_marker (st : stream) (type : Z) : res stream :=
  st ← put_marker st (Z.to_nat BGP_MARKER_SIZE);
  '(_, st) ← stream_putw st 0;
  '(_, st) ← stream_putc st type;
  Ok st.

Definition bgp_packet_set_size (st : stream) : res stream :=
  cp ← stream_get_endp st;
  '(_, st) ← stream_putw_at st BGP_MARKER_SIZE cp;
  Ok st.

(** The flags [PEER_STATUS_ORF_PREFIX_SEND] of [peer->af_sflags], an array of [AFI_MAX] times [SAFI_MAX]. *)
Definition AFI_MAX : Z := 3.
Definition SAFI_MAX : Z := 5.
Notation sflags := (Z -> Z -> bool).
Definition set_sflag (f : sflags) (afi safi : Z) (v : bool) : res sflags :=
  if (0 <=? afi) && (afi <? AFI_MAX) && (0 <=? safi) && (safi <? SAFI_MAX)
  then Ok (fun a b => if (a =? afi) && (b =? safi) then v else f a b)
  else Oob.

(** The entries, or the request to remove all, with the length before them. *)
Definition put_orf (st : stream) (s : plists) (f : sflags) (afi safi orf_type when_to_refresh : Z) (remove : bool) (filter_in : option ptr) : res (stream * sflags) :=
  '(_, st) ← stream_putc st when_to_refresh;
  '(_, st) ← stream_putc st orf_type;
  orfp ← stream_get_endp st;
  '(_, st) ← stream_putw st 0;
  f ← set_sflag f afi safi (negb remove);
  st ← (if remove then '(_, st) ← stream_putc st ORF_COMMON_PART_REMOVE_ALL; Ok st
        else prefix_bgp_orf_entry st s filter_in ORF_COMMON_PART_ADD ORF_COMMON_PART_PERMIT ORF_COMMON_PART_DENY);
  endp ← stream_get_endp st;
  '(_, st) ← stream_putw_at st orfp (u16 (endp - orfp - 2));
  Ok (st, f).

(** [new_rcv] is the flag [PEER_CAP_REFRESH_NEW_RCV] of the peer, [filter_in] its inbound prefix list, [f] its flags, the blocks what
    [XMALLOC] returns.  The result is the packet that joins the output queue, and the flags. *)
Definition bgp_route_refresh_send (s : plists) (new_rcv : bool) (filter_in : option ptr) (f : sflags) (afi safi orf_type when_to_refresh : Z) (remove : bool)
    (block : list Z) (block2 : Z -> list Z) : res (stream * sflags) :=
  let safi := if safi =? SAFI_MPLS_VPN then SAFI_MPLS_LABELED_VPN else safi in
  st ← stream_new BGP_MAX_PACKET_SIZE block;
  st ← bgp_packet_set_marker st (if new_rcv then BGP_MSG_ROUTE_REFRESH_NEW else BGP_MSG_ROUTE_REFRESH_OLD);
  '(_, st) ← stream_putw st afi;
  '(_, st) ← stream_putc st 0;
  '(_, st) ← stream_putc st safi;
  '(st, f) ← (if orf_type_prefix orf_type && (remove || negb (is_null filter_in))
              then put_orf st s f afi safi orf_type when_to_refresh remove filter_in else Ok (st, f));
  st ← bgp_packet_set_size st;
  packet ← stream_dup st (block2 (endp st));
  Ok (packet, f).

(** ** Receiving *)

(** [sprintf (name, "%s.%d.%d", peer->host, afi, safi)] *)
Definition orf_name (host : string) (afi safi : Z) : string :=
  sapp host (String "."%char (sapp (dec afi) (String "."%char (dec safi)))).

(** The members of [struct peer] that the function uses. *)
Record orf_peer := mk_orf_peer {
  host : string; cap_refresh_adv : bool; established : bool; ibuf : stream;
  orf_plist : Z -> Z -> option ptr; orf_wait_refresh : Z -> Z -> bool }.

Definition set_ibuf st p := mk_orf_peer (host p) (cap_refresh_adv p) (established p) st (orf_plist p) (orf_wait_refresh p).
Definition set_orf_plist afi safi x p :=
  mk_orf_peer (host p) (cap_refresh_adv p) (established p) (ibuf p)
    (fun a b => if (a =? afi) && (b =? safi) then x else orf_plist p a b) (orf_wait_refresh p).
Definition unset_wait afi safi p :=
  mk_orf_peer (host p) (cap_refresh_adv p) (established p) (ibuf p) (orf_plist p)
    (fun a b => if (a =? afi) && (b =? safi) then false else orf_wait_refresh p a b).

(** How the function ends: a notification, nothing, or the announcement of the routes. *)
Inductive reply := Notified (code sub : Z) | Ignored | Deferred | Announced (afi safi : Z).

(** [if ((ok = (p_pnt < p_end))) x = *p_pnt++;] *)
Definition next_byte (d : list Z) (p_pnt p_end : Z) : res (bool * Z * Z) :=
  if p_pnt <? p_end then x ← rd d p_pnt; Ok (true, x, p_pnt + 1) else Ok (false, 0, p_pnt).

(** One entry after its first byte: whether it is well formed, what was read, and the position after it. *)
Definition orf_parse (d : list Z) (p_pnt p_end afi : Z) : res (bool * orf_prefix * Z) :=
  '(seq, p_pnt) ← (if p_end - p_pnt >=? 4 then bs ← rd_bytes d p_pnt 4; Ok (ntohl bs, p_pnt + 4) else Ok (0, p_end));
  '(_, ge, p_pnt) ← next_byte d p_pnt p_end;
  '(_, le, p_pnt) ← next_byte d p_pnt p_end;
  '(ok, plen, p_pnt) ← next_byte d p_pnt p_end;
  let p := mk_prefix (afi2family afi) plen (replicate 16 0) in
  let psize := PSIZE plen in
  let ok1 := if psize >? prefix_blen p then false else ok in
  let psize := if psize >? prefix_blen p then prefix_blen p else psize in
  let ok2 := if psize >? p_end - p_pnt then false else ok1 in
  let psize := if psize >? p_end - p_pnt then p_end - p_pnt else psize in
  bs ← (if psize >? 0 then rd_bytes d p_pnt (Z.to_nat psize) else Ok []);
  Ok (ok2, mk_orf seq ge le (set_u_head bs p), p_pnt + psize).

(** The loop over the entries of an ORF. *)
Fixpoint orf_loop (fuel : nat) (d : list Z) (p_pnt p_end afi : Z) (nm : string) (s : plists) : res plists :=
  if p_pnt <? p_end then
    match fuel with
    | O => Oob
    | S f =>
        common ← rd d p_pnt;
        if CHECK_FLAG common ORF_COMMON_PART_REMOVE_ALL then prefix_bgp_orf_remove_all s nm
        else
          r ← orf_parse d (p_pnt + 1) p_end afi;
          let ok : bool := r.1.1 in let orfp : orf_prefix := r.1.2 in let p_pnt : Z := r.2 in
          sr ← (if ok then prefix_bgp_orf_set s nm afi orfp (negb (CHECK_FLAG common ORF_COMMON_PART_DENY)) (negb (CHECK_FLAG common ORF_COMMON_PART_REMOVE))
                else Ok (s, CMD_WARNING));
          let s : plists := sr.1 in let ret : Z := sr.2 in
          if negb ok || negb (ret =? CMD_SUCCESS) then prefix_bgp_orf_remove_all s nm
          else orf_loop f d p_pnt p_end afi nm s
    end
  else Ok s.

(** The loop over the ORFs of a message; [pend] is the position of its end. *)
Fixpoint orf_outer (fuel : nat) (p : orf_peer) (pend afi safi : Z) (s : plists) : res (orf_peer * plists) :=
  if getp (ibuf p) + 2 <? pend then
    match fuel with
    | O => Oob
    | S f =>
        tp ← stream_getc (ibuf p);
        ln ← stream_getw tp.2;
        let orf_type : Z := tp.1 in let orf_len : Z := ln.1 in let st : stream := ln.2 in
        let p := set_ibuf st p in
        if getp st + orf_len >? pend then Ok (p, s)
        else if orf_type_prefix orf_type then
          if orf_len <? 7 then Ok (p, s)
          else
            let nm := orf_name (host p) afi safi in
            s ← orf_loop (S (Z.to_nat orf_len)) (data st) (getp st) (getp st + orf_len) afi nm s;
            plist ← prefix_list_lookup s AFI_ORF_PREFIX (Some nm);
            st ← stream_forward_getp st orf_len;
            orf_outer f (set_ibuf st (set_orf_plist afi safi plist p)) pend afi safi s
        else
          st ← stream_forward_getp st orf_len;
          orf_outer f (set_ibuf st p) pend afi safi s
    end
  else Ok (p, s).

(** The end of the function: the first update is not deferred any more, and the routes are announced. *)
Definition refresh_done (p : orf_peer) (afi safi : Z) (s : plists) : res (orf_peer * plists * reply) :=
  Ok (unset_wait afi safi p, s, Announced afi safi).

Definition bgp_route_refresh_receive (p : orf_peer) (size : Z) (s : plists) : res (orf_peer * plists * reply) :=
  if negb (cap_refresh_adv p) then Ok (p, s, Notified BGP_NOTIFY_HEADER_ERR BGP_NOTIFY_HEADER_BAD_MESTYPE)
  else if negb (established p) then Ok (p, s, Notified BGP_NOTIFY_FSM_ERR 0)
  else
    '(afi, st) ← stream_getw (ibuf p);
    '(_, st) ← stream_getc st;
    '(safi, st) ← stream_getc st;
    let p := set_ibuf st p in
    if (negb (afi =? AFI_IP) && negb (afi =? AFI_IP6)) ||
       (negb (safi =? SAFI_UNICAST) && negb (safi =? SAFI_MULTICAST) && negb (safi =? SAFI_MPLS_LABELED_VPN))
    then Ok (p, s, Ignored)
    else
      let safi := if safi =? SAFI_MPLS_LABELED_VPN then SAFI_MPLS_VPN else safi in
      let extra := size - (BGP_MSG_ROUTE_REFRESH_MIN_SIZE - BGP_HEADER_SIZE) in
      if extra =? 0 then refresh_done p afi safi s
      else if extra <? 5 then Ok (p, s, Notified BGP_NOTIFY_CEASE 0)
      else
        '(when_to_refresh, st) ← stream_getc st;
        '(p, s) ← orf_outer (Z.to_nat size) (set_ibuf st p) (getp st + (size - 5)) afi safi s;
        if when_to_refresh =? REFRESH_DEFER then Ok (p, s, Deferred) else refresh_done p afi safi s.
