(* ===== verification/BgpOrfSent.v ===== *)
(** * Route refresh messages: proofs

    Whatever bytes a neighbour sends, reading its filters stays inside the packet and inside live memory, and changes no prefix
    list but the one of that neighbour, unless a request for an automatic sequence number overflows ([receive_any]).  What a router sends is what its neighbour gets ([receive_sent]).

    Route refresh messages: what is sent is what is received.  The bytes that [bgp_route_refresh_send] writes for a prefix list, and what [bgp_route_refresh_receive] makes of them: a list with
    the same sequence numbers, actions and ranges, whose prefixes have the significant bytes of the original, and which gives the
    same verdict on every prefix. *)

From stdpp Require Import sorting.
From S2P Require Import Prelude CString Prefix Inet PrefixText Stream DList Plist PlistCmd PlistRep PlistEntry PlistLists PlistRefine PlistOps BgpOrf.
Local Open Scope Z_scope.

(** ** Prefix lists under one name *)

(** [A'] differs from [A] at most in the filter [nm]. *)
Definition only_filter (nm : string) (A A' : abs) : Prop := forall m nm', (m, nm') <> (prefix_master_orf, nm) -> A' m !! nm' = A m !! nm'.

Lemma only_filter_refl nm A : only_filter nm A A.
Proof. done. Qed.

Lemma only_filter_trans nm A B C : only_filter nm A B -> only_filter nm B C -> only_filter nm A C.
Proof. intros H1 H2 m nm' H. by rewrite H2, H1. Qed.

Lemma aset_only nm A c : only_filter nm A (aset A prefix_master_orf nm c).
Proof. intros m nm' H. unfold aset. destruct (decide (m = _)) as [-> |]; [| done]. rewrite lookup_insert_ne; [done |]. congruence. Qed.

Lemma adel_only nm A : only_filter nm A (adel A prefix_master_orf nm).
Proof. intros m nm' H. unfold adel. destruct (decide (m = _)) as [-> |]; [| done]. rewrite lookup_delete_ne; [done |]. congruence. Qed.

Lemma spec_orf_only A nm afi orfp permit set : only_filter nm A (spec_orf A nm afi orfp permit set).1.
Proof.
  unfold spec_orf. destruct (invalid_range _ _ _); [done |]. destruct set.
  - unfold spec_add. destruct (contents_of _ _ _) as [d es]. destruct (has_dup _ _ _); [done |]. apply aset_only.
  - unfold spec_remove. rewrite aset_lookup. destruct (contents_of A prefix_master_orf nm) as [d es] eqn:Hc.
    destruct (List.find _ es); [| apply aset_only]. eapply only_filter_trans; [apply (aset_only nm A (d, es)) |]. cbn [fst].
    destruct d, (remove_first _ es); cbn [settle]; apply aset_only || apply adel_only.
Qed.

Section Safety.
Context `{InetText}.

Lemma orf_set_safe s A nm afi orfp permit set : reps s A -> op_ok A (OrfSet nm afi orfp permit set) ->
  exists s' A' ret, prefix_bgp_orf_set s nm afi orfp permit set = Ok (s', ret) /\ reps s' A' /\ only_filter nm A A' /\ (abs_wf A -> abs_wf A').
Proof.
  intros R Hok. destruct (op_refines s A _ R Hok) as (s' & Hr & R'). cbn [run_op] in Hr. eexists s', _, _. split; [exact Hr |]. split; [exact R' |].
  split; [apply spec_orf_only | apply spec_op_wf].
Qed.

Lemma remove_all_safe s A nm : reps s A ->
  exists s', prefix_bgp_orf_remove_all s nm = Ok s' /\ reps s' (adel A prefix_master_orf nm) /\ (abs_wf A -> abs_wf (adel A prefix_master_orf nm)).
Proof.
  intros R. destruct (op_refines s A (OrfRemoveAll nm) R I) as (s' & Hr & R'). cbn [run_op] in Hr. apply bind_Ok in Hr as (s1 & H1 & [= <-]).
  exists s1. split_and!; [done | done | apply (spec_op_wf A (OrfRemoveAll nm))].
Qed.

(** ** Reading an entry *)

(** A well formed entry of an ORF, read between the positions [lo] and [hi]. *)
Definition entry_at (d : list Z) (lo hi afi : Z) (orfp : orf_prefix) : Prop := exists i e p, lo <= i /\ e <= hi /\ orf_parse d i e afi = Ok (true, orfp, p).

(** The prefix lists that the entries between [lo] and [hi] lead to: each is given to [prefix_bgp_orf_set], or the filter is removed. *)
Inductive reaches (d : list Z) (lo hi afi : Z) (nm : string) (s : plists) : plists -> Prop :=
| reaches_refl : reaches d lo hi afi nm s s
| reaches_set s1 s2 orfp permit set ret : reaches d lo hi afi nm s s1 -> entry_at d lo hi afi orfp ->
    prefix_bgp_orf_set s1 nm afi orfp permit set = Ok (s2, ret) -> reaches d lo hi afi nm s s2
| reaches_clear s1 s2 : reaches d lo hi afi nm s s1 -> prefix_bgp_orf_remove_all s1 nm = Ok s2 -> reaches d lo hi afi nm s s2.

(** The fault: after entries read before, an entry has the sequence number [0xffffffff], which asks for an automatic one, and the next number of the filter does not fit an [int]. *)
Definition number_overflow (d : list Z) (lo hi afi : Z) (nm : string) (s : plists) : Prop :=
  exists s' A' orfp, reaches d lo hi afi nm s s' /\ reps s' A' /\ entry_at d lo hi afi orfp /\ signed 32 (o_seq orfp) = -1 /\ INT_MAX < next_seq (contents_of A' prefix_master_orf nm).2.

Lemma entry_within d lo hi lo' hi' afi orfp : entry_at d lo' hi' afi orfp -> lo <= lo' -> hi' <= hi -> entry_at d lo hi afi orfp.
Proof. intros (i & e & p & H1 & H2 & H3) Hl Hh. exists i, e, p. split_and!; [lia | lia | done]. Qed.

Lemma reaches_within d lo hi lo' hi' afi nm s0 s s' : reaches d lo hi afi nm s0 s -> reaches d lo' hi' afi nm s s' -> lo <= lo' -> hi' <= hi -> reaches d lo hi afi nm s0 s'.
Proof.
  intros H0 R Hl Hh. induction R as [| s1 s2 orfp permit set ret R IH He Hs | s1 s2 R IH Hs]; [done | |].
  - eapply reaches_set; [exact IH | by eapply entry_within | exact Hs].
  - eapply reaches_clear; [exact IH | exact Hs].
Qed.

Lemma overflow_within d lo hi lo' hi' afi nm s0 s : reaches d lo hi afi nm s0 s -> number_overflow d lo' hi' afi nm s -> lo <= lo' -> hi' <= hi -> number_overflow d lo hi afi nm s0.
Proof.
  intros H0 (s' & A' & orfp & R & Rs & He & Hq & Ho) Hl Hh. exists s', A', orfp. split_and!; [by eapply reaches_within | done | by eapply entry_within | done | done].
Qed.

Lemma orf_set_any s A nm afi orfp permit set : reps s A -> name_fits nm -> family_ok (o_p orfp) ->
  (exists s' A' ret, prefix_bgp_orf_set s nm afi orfp permit set = Ok (s', ret) /\ reps s' A' /\ only_filter nm A A' /\ (abs_wf A -> abs_wf A')) \/
  (prefix_bgp_orf_set s nm afi orfp permit set = Oob /\ signed 32 (o_seq orfp) = -1 /\ INT_MAX < next_seq (contents_of A prefix_master_orf nm).2).
Proof.
  intros R Hn Hf. destruct (decide (set = true /\ invalid_range (prefixlen (o_p orfp)) (o_ge orfp) (o_le orfp) = false /\ signed 32 (o_seq orfp) = -1 /\
    INT_MAX < next_seq (contents_of A prefix_master_orf nm).2)) as [(-> & Hi & Hq & Ho) | Hno].
  - right. split; [by eapply orf_set_overflow | done].
  - left. apply orf_set_safe; [done |]. split; [done |]. split; [done |]. intros Hs Hi Hq. apply Z.nlt_ge. intros Ho. by apply Hno.
Qed.

Lemma rd_bytes_Ok d pos n : 0 <= pos -> pos + Z.of_nat n <= Z.of_nat (length d) -> rd_bytes d pos n = Ok (take n (drop (Z.to_nat pos) d)).
Proof. intros H1 H2. unfold rd_bytes. rewrite (proj2 (Z.leb_le _ _)), (proj2 (Z.leb_le (pos + _) _)) by lia. done. Qed.

Lemma rd_byte_Ok d i : 0 <= i < Z.of_nat (length d) -> rd d i = Ok (byte_at d i).
Proof. intros Hi. unfold rd. rewrite (proj2 (Z.leb_le _ _)), (proj2 (Z.ltb_lt _ _)) by lia. done. Qed.

Lemma next_byte_safe d p e : bytes_ok d -> 0 <= p <= e -> e <= Z.of_nat (length d) ->
  exists ok x p', next_byte d p e = Ok (ok, x, p') /\ p <= p' <= e /\ 0 <= x.
Proof.
  intros Hb Hp He. unfold next_byte. destruct (Z.ltb_spec p e).
  - rewrite rd_byte_Ok, bind_ret by lia. eexists _, _, _. split; [reflexivity |]. split; [lia |]. apply (byte_at_ok d p Hb).
  - eexists _, _, _. split; [reflexivity | lia].
Qed.

Lemma afi2family_ok afi : afi = AFI_IP \/ afi = AFI_IP6 -> afi2family afi = AF_INET \/ afi2family afi = AF_INET6.
Proof. intros [-> | ->]; [by left | by right]. Qed.

Lemma orf_parse_safe d p e afi : bytes_ok d -> afi = AFI_IP \/ afi = AFI_IP6 -> 0 <= p <= e -> e <= Z.of_nat (length d) ->
  exists ok orfp p', orf_parse d p e afi = Ok (ok, orfp, p') /\ p <= p' <= e /\ family_ok (o_p orfp).
Proof.
  intros Hb Hafi Hp He. unfold orf_parse.
  assert (exists seq p1, (if e - p >=? 4 then bs ← rd_bytes d p 4; Ok (ntohl bs, p + 4) else Ok (0, e)) = Ok (seq, p1) /\ p <= p1 <= e) as (seq & p1 & E1 & H1).
  { destruct (Z.geb_spec (e - p) 4); [rewrite rd_bytes_Ok, bind_ret by lia |]; eexists _, _; (split; [reflexivity | lia]). }
  rewrite E1, bind_ret. destruct (next_byte_safe d p1 e) as (ok2 & ge & p2 & -> & H2 & _); [done | lia | done |]. rewrite bind_ret.
  destruct (next_byte_safe d p2 e) as (ok3 & le & p3 & -> & H3 & _); [done | lia | done |]. rewrite bind_ret.
  destruct (next_byte_safe d p3 e) as (ok4 & plen & p4 & -> & H4 & H0); [done | lia | done |]. rewrite bind_ret. cbn zeta.
  set (q := mk_prefix (afi2family afi) plen (replicate 16 0)). set (ps1 := if PSIZE plen >? prefix_blen q then prefix_blen q else PSIZE plen).
  set (ps := if ps1 >? e - p4 then e - p4 else ps1).
  assert (ps <= e - p4) as Hps by (unfold ps; destruct (Z.gtb_spec ps1 (e - p4)); lia).
  assert (0 <= ps) as Hps0.
  { assert (0 <= PSIZE plen) by (apply Z.div_pos; lia). assert (0 <= prefix_blen q) by (unfold prefix_blen; repeat case_match; done).
    assert (0 <= ps1) by (unfold ps1; destruct (Z.gtb_spec (PSIZE plen) (prefix_blen q)); lia).
    unfold ps; destruct (Z.gtb_spec ps1 (e - p4)); lia. }
  assert (exists bs, (if ps >? 0 then rd_bytes d p4 (Z.to_nat ps) else Ok []) = Ok bs) as (bs & ->).
  { destruct (Z.gtb_spec ps 0); [| by eexists]. rewrite rd_bytes_Ok by lia. by eexists. }
  rewrite bind_ret. eexists _, _, _. split; [reflexivity |]. cbn [o_p]. split; [lia |]. apply (afi2family_ok afi Hafi).
Qed.

(** ** The loops *)

Lemma orf_loop_any d e afi nm : bytes_ok d -> afi = AFI_IP \/ afi = AFI_IP6 -> name_fits nm -> e <= Z.of_nat (length d) ->
  forall fuel s A p, reps s A -> 0 <= p <= e -> e - p < Z.of_nat fuel ->
  (exists s' A', orf_loop fuel d p e afi nm s = Ok s' /\ reps s' A' /\ only_filter nm A A' /\ (abs_wf A -> abs_wf A') /\ reaches d p e afi nm s s') \/
  (orf_loop fuel d p e afi nm s = Oob /\ number_overflow d p e afi nm s).
Proof.
  intros Hb Hafi Hn He. induction fuel as [|f IH]; intros s A p R Hp Hf; [lia |]. cbn [orf_loop].
  destruct (Z.ltb_spec p e) as [Hlt |]; [| left; exists s, A; split_and!; try done; apply reaches_refl].
  rewrite rd_byte_Ok, bind_ret by lia. destruct (CHECK_FLAG _ ORF_COMMON_PART_REMOVE_ALL).
  - left. destruct (remove_all_safe s A nm R) as (s' & Hs & R' & W'). exists s', (adel A prefix_master_orf nm). split_and!; try done; [apply adel_only |].
    eapply reaches_clear; [apply reaches_refl | done].
  - destruct (orf_parse_safe d (p + 1) e afi Hb Hafi) as (ok & orfp & p' & Hpar & Hp' & Hfam); [lia | lia |]. rewrite Hpar, bind_ret. cbn [fst snd].
    set (set_ := if ok then prefix_bgp_orf_set s nm afi orfp (negb (CHECK_FLAG (byte_at d p) ORF_COMMON_PART_DENY))
      (negb (CHECK_FLAG (byte_at d p) ORF_COMMON_PART_REMOVE)) else Ok (s, CMD_WARNING)).
    assert ((exists s1 A1 ret, set_ = Ok (s1, ret) /\ reps s1 A1 /\ only_filter nm A A1 /\ (abs_wf A -> abs_wf A1) /\ reaches d p e afi nm s s1) \/
      (set_ = Oob /\ number_overflow d p e afi nm s)) as [(s1 & A1 & ret & -> & R1 & O1 & W1 & S1) | [-> Ho]].
    { unfold set_. destruct ok; [| left; exists s, A, CMD_WARNING; split_and!; try done; apply reaches_refl]. assert (entry_at d p e afi orfp) as Ha by (exists (p + 1), e, p'; split_and!; [lia | lia | done]).
      destruct (orf_set_any s A nm afi orfp (negb (CHECK_FLAG (byte_at d p) ORF_COMMON_PART_DENY))
        (negb (CHECK_FLAG (byte_at d p) ORF_COMMON_PART_REMOVE)) R Hn Hfam) as [(s1 & A1 & ret & H0 & R1 & O1 & W1) | (H0 & Hq & Ho)]; [left | right].
      - exists s1, A1, ret. split_and!; try done. by eapply reaches_set; [apply reaches_refl | ..].
      - split; [done |]. exists s, A, orfp. split_and!; try done. apply reaches_refl. }
    + rewrite bind_ret. cbn [fst snd]. destruct (negb ok || negb (ret =? CMD_SUCCESS)).
      * left. destruct (remove_all_safe s1 A1 nm R1) as (s' & Hs & R' & W'). exists s', (adel A1 prefix_master_orf nm). split_and!; [done | done | | auto |].
        -- eapply only_filter_trans; [exact O1 | apply adel_only].
        -- by eapply reaches_clear.
      * destruct (IH s1 A1 p' R1) as [(s' & A' & -> & R' & O' & W' & S') | [-> Ho]]; [lia | lia | left | right].
        -- exists s', A'. split_and!; [done | done | by eapply only_filter_trans | auto |]. eapply reaches_within; [exact S1 | exact S' | lia | lia].
        -- split; [done |]. eapply overflow_within; [exact S1 | exact Ho | lia | lia].
    + right. by split.
Qed.

(** The filter pointer of a peer is null or the live prefix list of its name. *)
Definition filter_live (s : plists) (p : orf_peer) (afi safi : Z) : Prop :=
  forall q, orf_plist p afi safi = Some q -> prefix_list_lookup s AFI_ORF_PREFIX (Some (orf_name (host p) afi safi)) = Ok (Some q).

Lemma lookup_total s A nm : reps s A -> exists r, prefix_list_lookup s AFI_ORF_PREFIX (Some nm) = Ok r.
Proof.
  intros R. pose proof (lookup_reps s A AFI_ORF_PREFIX prefix_master_orf nm R eq_refl) as Hl. destruct (A prefix_master_orf !! nm) as [[d es]|].
  - destruct Hl as (L & E & p & n & _ & -> & _). by eexists.
  - rewrite Hl. by eexists.
Qed.

Lemma orf_outer_any pend afi safi : afi = AFI_IP \/ afi = AFI_IP6 ->
  forall fuel p s A, reps s A -> stream_wf (ibuf p) -> name_fits (orf_name (host p) afi safi) -> filter_live s p afi safi ->
  pend = endp (ibuf p) -> pend - getp (ibuf p) < Z.of_nat fuel ->
  (exists p' s' A', orf_outer fuel p pend afi safi s = Ok (p', s') /\ reps s' A' /\ only_filter (orf_name (host p) afi safi) A A' /\ (abs_wf A -> abs_wf A') /\
    host p' = host p /\ filter_live s' p' afi safi /\ (forall a b, (a, b) <> (afi, safi) -> orf_plist p' a b = orf_plist p a b)) \/
  (orf_outer fuel p pend afi safi s = Oob /\ number_overflow (data (ibuf p)) (getp (ibuf p)) (endp (ibuf p)) afi (orf_name (host p) afi safi) s).
Proof.
  intros Hafi. induction fuel as [|f IH]; intros p s A R WF Hn Hl He Hf; [destruct WF; lia |]. cbn [orf_outer].
  destruct (Z.ltb_spec (getp (ibuf p) + 2) pend) as [Hlt |]; [| left; exists p, s, A; split_and!; done].
  pose proof (get_item_spec (ibuf p) W8 WF) as G1. cbn [get_item width_bytes] in G1. rewrite G1. destruct (Z.ltb_spec (endp (ibuf p) - getp (ibuf p)) (Z.of_nat 1)); [lia |].
  rewrite bind_ret. cbn [snd]. set (st1 := set_getp _ (ibuf p)). assert (stream_wf st1) as WF1 by (apply set_getp_wf; [done | destruct WF; lia]).
  pose proof (get_item_spec st1 W16 WF1) as G2. cbn [get_item width_bytes] in G2. rewrite G2. destruct (Z.ltb_spec (endp st1 - getp st1) (Z.of_nat 2)); [cbn in *; lia |].
  rewrite bind_ret. cbn [fst snd]. set (st := set_getp _ st1). assert (stream_wf st) as WF2 by (apply set_getp_wf; [done | cbn in *; destruct WF; lia]).
  set (len := be_val (take 2 (contents st1))). assert (0 <= len < 65536) as Hlen.
  { destruct (take_contents_ok st1 2 WF1) as [Hb Hl2]; [lia |]. pose proof (be_val_bound _ Hb) as Hv. rewrite Hl2 in Hv. exact Hv. }
  assert (getp st = getp (ibuf p) + 3) as Hg by (cbn; lia). assert (endp st = pend) as He2 by (cbn; lia).
  destruct (Z.gtb_spec (getp st + len) pend) as [|Hle]; [left; exists (set_ibuf st p), s, A; split_and!; done |].
  assert (stream_forward_getp st len = Ok (set_getp (getp st + len) st)) as Hfw.
  { unfold stream_forward_getp. rewrite (verify_sane_ok st WF2). cbn [mbind res_bind]. pose proof (wf_size _ WF2). pose proof (wf_endp _ WF2). pose proof (wf_getp _ WF2).
    rewrite wrap_small by (unfold in_u; lia). unfold GETP_VALID. rewrite (proj2 (Z.leb_le _ _)) by lia. done. }
  assert (stream_wf (set_getp (getp st + len) st)) as WF3 by (apply set_getp_wf; [done |]; pose proof (wf_getp _ WF2); lia).
  destruct (orf_type_prefix _).
  - destruct (Z.ltb_spec len 7); [left; exists (set_ibuf st p), s, A; split_and!; done |]. cbn [host set_ibuf]. set (nm := orf_name (host p) afi safi) in *.
    assert (endp st <= Z.of_nat (length (data st))) as Hbl by (rewrite (wf_block _ WF2); apply (wf_endp _ WF2)).
    destruct (orf_loop_any (data st) (getp st + len) afi nm (wf_bytes _ WF2) Hafi Hn ltac:(lia) (S (Z.to_nat len)) s A (getp st) R)
      as [(s1 & A1 & -> & R1 & O1 & W1 & S1) | [-> Ho]]; [pose proof (wf_getp _ WF2); lia | lia | |].
    2: { right. split; [done |]. eapply overflow_within; [apply reaches_refl | exact Ho | lia | lia]. }
    rewrite bind_ret.
    destruct (lookup_total s1 A1 nm R1) as (r & Hr). rewrite Hr, bind_ret, Hfw, bind_ret.
    destruct (IH (set_ibuf (set_getp (getp st + len) st) (set_orf_plist afi safi r (set_ibuf st p))) s1 A1 R1 WF3 Hn) as [(p' & s' & A' & -> & R' & O' & W' & Hh & Hl' & Hoth) | [-> Ho]]; [| done | cbn; lia | |].
    + intros q. cbn. rewrite !Z.eqb_refl. cbn. intros ->. exact Hr.
    + left. exists p', s', A'. split_and!; try done; [by eapply only_filter_trans | auto |]. intros a b Hab. rewrite Hoth by done. cbn.
      destruct (Z.eqb_spec a afi), (Z.eqb_spec b safi); try done. by subst.
    + right. split; [done |]. eapply overflow_within; [| exact Ho | cbn; lia | cbn; lia]. eapply reaches_within; [apply reaches_refl | exact S1 | lia | lia].
  - rewrite Hfw, bind_ret. destruct (IH (set_ibuf (set_getp (getp st + len) st) (set_ibuf st p)) s A R WF3 Hn Hl) as [(p' & s' & A' & -> & R') | [-> Ho]]; [done | cbn; lia | left; by exists p', s', A' |].
    right. split; [done |]. eapply overflow_within; [apply reaches_refl | exact Ho | cbn; lia | cbn; lia].
Qed.

(** The next field of a stream that has it. *)
Lemma getc_Ok st : stream_wf st -> getp st + 1 <= endp st ->
  stream_getc st = Ok (be_val (take 1 (contents st)), set_getp (getp st + 1) st) /\ stream_wf (set_getp (getp st + 1) st).
Proof.
  intros WF Hr. pose proof (get_item_spec st W8 WF) as G. cbn [get_item width_bytes] in G. change (Z.of_nat 1) with 1 in G. rewrite G.
  destruct (Z.ltb_spec (endp st - getp st) 1); [lia |]. split; [done |]. apply set_getp_wf; [done |]. destruct WF. lia.
Qed.

Lemma getw_Ok st : stream_wf st -> getp st + 2 <= endp st ->
  stream_getw st = Ok (be_val (take 2 (contents st)), set_getp (getp st + 2) st) /\ stream_wf (set_getp (getp st + 2) st).
Proof.
  intros WF Hr. pose proof (get_item_spec st W16 WF) as G. cbn [get_item width_bytes] in G. change (Z.of_nat 2) with 2 in G. rewrite G.
  destruct (Z.ltb_spec (endp st - getp st) 2); [lia |]. split; [done |]. apply set_getp_wf; [done |]. destruct WF. lia.
Qed.

(** The two ways in which a message is read. *)
Definition received (p : orf_peer) (s : plists) (A : abs) (m : res (orf_peer * plists * reply)) : Prop :=
  (exists p' s' r A' afi safi, m = Ok (p', s', r) /\ reps s' A' /\ (abs_wf A -> abs_wf A') /\
    only_filter (orf_name (host p) afi safi) A A' /\ filter_live s' p' afi safi /\ (forall a b, (a, b) <> (afi, safi) -> orf_plist p' a b = orf_plist p a b)) \/
  (m = Oob /\ exists afi safi, number_overflow (data (ibuf p)) (getp (ibuf p)) (endp (ibuf p)) afi (orf_name (host p) afi safi) s).

Lemma receive_any p size s A : reps s A -> stream_wf (ibuf p) -> endp (ibuf p) - getp (ibuf p) = size -> 4 <= size ->
  (forall afi safi, name_fits (orf_name (host p) afi safi)) -> (forall afi safi, filter_live s p afi safi) ->
  received p s A (bgp_route_refresh_receive p size s).
Proof.
  intros R WF Hsz H4 Hn Hl. unfold bgp_route_refresh_receive.
  assert (forall x (r : reply), host x = host p -> orf_plist x = orf_plist p -> received p s A (Ok (x, s, r))) as Hsame.
  { intros x r Hh Hx. left. exists x, s, r, A, 0, 0. unfold filter_live. rewrite Hh, Hx. split_and!; try done. apply Hl. }
  destruct (cap_refresh_adv p); [| by apply Hsame]. destruct (established p); [| by apply Hsame]. cbn [negb].
  destruct (getw_Ok (ibuf p) WF ltac:(lia)) as (-> & WF1). rewrite bind_ret. set (afi := be_val _). set (st1 := set_getp _ (ibuf p)) in *.
  destruct (getc_Ok st1 WF1 ltac:(cbn; lia)) as (-> & WF2). rewrite bind_ret. set (st2 := set_getp _ st1) in *.
  destruct (getc_Ok st2 WF2 ltac:(cbn; lia)) as (-> & WF3). rewrite bind_ret. set (safi0 := be_val _). set (st3 := set_getp _ st2) in *. cbn zeta.
  destruct ((negb (afi =? AFI_IP) && _) || _) eqn:Hafi; [by apply Hsame |]. apply orb_false_iff in Hafi as [Hafi _].
  assert (afi = AFI_IP \/ afi = AFI_IP6) as Hafi'. { apply andb_false_iff in Hafi as [Hx | Hx]; apply negb_false_iff, Z.eqb_eq in Hx; auto. }
  set (safi := if safi0 =? SAFI_MPLS_LABELED_VPN then SAFI_MPLS_VPN else safi0). set (extra := size - _). assert (extra = size - 4) as Hex by done.
  destruct (Z.eqb_spec extra 0); [by apply Hsame |]. destruct (Z.ltb_spec extra 5); [by apply Hsame |].
  destruct (getc_Ok st3 WF3 ltac:(cbn; lia)) as (-> & WF4). rewrite bind_ret. set (when_ := be_val _). set (st4 := set_getp _ st3) in *.
  destruct (orf_outer_any (getp st4 + (size - 5)) afi safi Hafi' (Z.to_nat size) (set_ibuf st4 (set_ibuf st3 p)) s A R WF4 (Hn afi safi) (Hl afi safi))
    as [(p' & s' & A' & -> & R' & O' & W' & Hh & Hl' & Hoth) | [-> Ho]]; [cbn; lia | cbn; lia | |].
  - rewrite bind_ret. left. destruct (when_ =? REFRESH_DEFER); eexists _, s', _, A', afi, safi; (split; [reflexivity |]); split_and!; done.
  - right. split; [done |]. exists afi, safi. eapply overflow_within; [apply reaches_refl | exact Ho | cbn; lia | cbn; lia].
Qed.
End Safety.

(** ** Route refresh messages: what is sent is what is received *)

(** ** Writing *)

(** [st'] is [st] with [bs] written to it. *)
Definition writes (st st' : stream) (bs : list Z) : Prop :=
  stream_wf st' /\ getp st' = getp st /\ size st' = size st /\ written st' = written st ++ bs.

Lemma writes_refl st : stream_wf st -> writes st st [].
Proof. intros WF. unfold writes. by rewrite app_nil_r. Qed.

Lemma writes_trans st st1 st2 a b : writes st st1 a -> writes st1 st2 b -> writes st st2 (a ++ b).
Proof. intros (W1 & G1 & S1 & E1) (W2 & G2 & S2 & E2). unfold writes. rewrite E2, E1, G2, S2, <- app_assoc. done. Qed.

Lemma writes_room st st' bs : stream_wf st -> writes st st' bs -> room st' = room st - Z.of_nat (length bs) /\ endp st' = endp st + Z.of_nat (length bs).
Proof.
  intros WF (W' & _ & S & E). pose proof (length_written st WF). pose proof (length_written st' W') as H'. rewrite E, length_app in H'. unfold room. lia.
Qed.

Lemma pushed_writes st bs : stream_wf st -> bytes_ok bs -> Z.of_nat (length bs) <= room st -> writes st (pushed st bs) bs.
Proof. intros WF Hb Hr. split; [by apply pushed_wf |]. split; [done |]. split; [done |]. by apply written_pushed. Qed.

Lemma put_writes st w z : stream_wf st -> Z.of_nat (width_bytes w) <= room st ->
  exists st', put_item st w z = Ok (Z.of_nat (width_bytes w), st') /\ writes st st' (be_bytes (width_bytes w) z).
Proof.
  intros WF Hr. rewrite (put_item_spec st w z WF), (proj2 (Z.ltb_ge _ _)) by done. eexists. split; [reflexivity |].
  apply pushed_writes; [done | apply be_bytes_ok | by rewrite length_be_bytes].
Qed.

Lemma be_bytes_1 c : 0 <= c < 256 -> be_bytes 1 c = [c].
Proof. intros Hc. cbn. rewrite Z.shiftr_0_r. f_equal. by apply (wrap_small 8). Qed.

Lemma putc_writes st c : stream_wf st -> 1 <= room st -> 0 <= c < 256 -> exists st', stream_putc st c = Ok (1, st') /\ writes st st' [c].
Proof. intros WF Hr Hc. destruct (put_writes st W8 c WF Hr) as (st' & H1 & H2). rewrite <- (be_bytes_1 c Hc). by exists st'. Qed.

Lemma putw_writes st w : stream_wf st -> 2 <= room st -> exists st', stream_putw st w = Ok (2, st') /\ writes st st' (be_bytes 2 w).
Proof. intros WF Hr. exact (put_writes st W16 w WF Hr). Qed.

Lemma putl_writes st w : stream_wf st -> 4 <= room st -> exists st', stream_putl st w = Ok (4, st') /\ writes st st' (be_bytes 4 w).
Proof. intros WF Hr. exact (put_writes st W32 w WF Hr). Qed.

(** A field that was reserved is filled in. *)
Lemma putw_at_written st pre a b post w : stream_wf st -> written st = pre ++ [a; b] ++ post ->
  exists st', stream_putw_at st (Z.of_nat (length pre)) w = Ok (2, st') /\ stream_wf st' /\ getp st' = getp st /\ size st' = size st /\ endp st' = endp st /\
    written st' = pre ++ be_bytes 2 w ++ post.
Proof.
  intros WF Hw. pose proof (length_written st WF) as Hl. rewrite Hw, !length_app in Hl. cbn in Hl. pose proof (wf_endp _ WF). pose proof (wf_size _ WF).
  pose proof (put_item_at_spec st (Z.of_nat (length pre)) W16 w WF ltac:(lia) ltac:(cbn; lia)) as Hp. cbn [put_item_at width_bytes] in Hp. rewrite Hp.
  rewrite (proj2 (Z.ltb_ge _ _)) by (cbn; lia). eexists. split; [reflexivity |]. assert (length (be_bytes 2 w) = 2%nat) as L2 by apply length_be_bytes.
  split; [apply patched_wf; rewrite ?L2; [done | apply be_bytes_ok | lia | cbn; lia] |]. do 3 (split; [done |]).
  rewrite written_patched by (rewrite ?L2; (done || cbn; lia)). rewrite Hw, Nat2Z.id, L2. rewrite take_app_length. do 2 f_equal.
  rewrite drop_app_ge by lia. replace (length pre + 2 - length pre)%nat with 2%nat by lia. done.
Qed.

(** ** Entries *)

Definition psize (e : entry) : Z := PSIZE (prefixlen (e_prefix e)).

Definition entry_bytes (e : entry) : list Z :=
  orf_flag e ORF_COMMON_PART_ADD ORF_COMMON_PART_PERMIT ORF_COMMON_PART_DENY :: be_bytes 4 (u32 (e_seq e)) ++
  [e_ge e; e_le e; prefixlen (e_prefix e)] ++ take (Z.to_nat (psize e)) (u (e_prefix e)).

Definition orf_bytes (es : list entry) : list Z := concat (map entry_bytes es).

(** What a rule must be for its encoding to hold it: the ranges of its fields, and the checks that installing it made. *)
Record sendable (afi : Z) (e : entry) : Prop := {
  sd_family : family (e_prefix e) = afi2family afi;
  sd_prefix : prefix_fits (e_prefix e);
  sd_ge : 0 <= e_ge e < 256;
  sd_le : 0 <= e_le e < 256;
  sd_range : invalid_range (prefixlen (e_prefix e)) (e_ge e) (e_le e) = false;
  sd_normal : normal_le afi (e_ge e) (e_le e) = e_le e;
  sd_seq : - 2 ^ 31 <= e_seq e < 2 ^ 31;
  sd_auto : e_seq e <> -1 }.

Lemma psize_range e : prefix_wf (e_prefix e) -> 0 <= psize e <= 16.
Proof. intros (_ & _ & Hl). unfold psize, PSIZE. split; [apply Z.div_pos; lia | apply Z.lt_succ_r, Z.div_lt_upper_bound; lia]. Qed.

Lemma length_entry_bytes e : prefix_wf (e_prefix e) -> Z.of_nat (length (entry_bytes e)) = 8 + psize e.
Proof.
  intros W. pose proof (psize_range e W). destruct W as (Hl & _ & _). unfold entry_bytes. cbn [length]. rewrite !length_app, length_be_bytes, length_take. cbn [length]. lia.
Qed.

Lemma flag_range e : 0 <= orf_flag e ORF_COMMON_PART_ADD ORF_COMMON_PART_PERMIT ORF_COMMON_PART_DENY < 256.
Proof. unfold orf_flag. destruct (e_type e); z_eval. Qed.

Lemma entry_written st e afi : stream_wf st -> sendable afi e -> 8 + psize e <= room st ->
  exists st1 st2 st3 st4 st5, stream_putc st (orf_flag e ORF_COMMON_PART_ADD ORF_COMMON_PART_PERMIT ORF_COMMON_PART_DENY) = Ok (1, st1) /\
    stream_putl st1 (u32 (e_seq e)) = Ok (4, st2) /\ stream_putc st2 (u8 (e_ge e)) = Ok (1, st3) /\ stream_putc st3 (u8 (e_le e)) = Ok (1, st4) /\
    stream_put_prefix st4 (e_prefix e) = Ok (psize e, st5) /\ writes st st5 (entry_bytes e).
Proof.
  intros WF S Hr. pose proof (proj1 (sd_prefix _ _ S)) as Wp. pose proof (psize_range e Wp) as Hps.
  destruct (putc_writes st _ WF ltac:(lia) (flag_range e)) as (st1 & E1 & W1). destruct (writes_room _ _ _ WF W1) as [R1 _]. cbn [length] in R1.
  destruct (putl_writes st1 (u32 (e_seq e)) (proj1 W1) ltac:(lia)) as (st2 & E2 & W2). destruct (writes_room _ _ _ (proj1 W1) W2) as [R2 _]. rewrite length_be_bytes in R2.
  rewrite (wrap_small 8 (e_ge e)) by apply (sd_ge _ _ S). rewrite (wrap_small 8 (e_le e)) by apply (sd_le _ _ S).
  destruct (putc_writes st2 (e_ge e) (proj1 W2) ltac:(lia) (sd_ge _ _ S)) as (st3 & E3 & W3). destruct (writes_room _ _ _ (proj1 W2) W3) as [R3 _]. cbn [length] in R3.
  destruct (putc_writes st3 (e_le e) (proj1 W3) ltac:(lia) (sd_le _ _ S)) as (st4 & E4 & W4). destruct (writes_room _ _ _ (proj1 W3) W4) as [R4 _]. cbn [length] in R4.
  destruct (stream_put_prefix_spec st4 (e_prefix e) (proj1 W4) Wp) as (_ & _ & E5). fold (psize e) in E5. specialize (E5 ltac:(lia)).
  eexists st1, st2, st3, st4, _. split_and!; try done. destruct Wp as (Hl & Hb & Hpl).
  assert (writes st4 (pushed st4 (prefixlen (e_prefix e) :: take (Z.to_nat (psize e)) (u (e_prefix e)))) (prefixlen (e_prefix e) :: take (Z.to_nat (psize e)) (u (e_prefix e)))) as W5.
  { apply pushed_writes; [apply W4 | |].
    - constructor; [unfold byte_ok; lia |]. by apply bytes_ok_take.
    - cbn [length]. rewrite length_take. lia. }
  exact (writes_trans _ _ _ _ _ W1 (writes_trans _ _ _ _ _ W2 (writes_trans _ _ _ _ _ W3 (writes_trans _ _ _ _ _ W4 W5)))).
Qed.

Lemma orf_entries_written afi h xs es : forall p fuel st, dseg h p xs None -> bodies h xs es -> (length xs < fuel)%nat ->
  stream_wf st -> Forall (sendable afi) es -> Z.of_nat (length (orf_bytes es)) <= room st ->
  exists st', orf_entries fuel h st (nxt xs None) ORF_COMMON_PART_ADD ORF_COMMON_PART_PERMIT ORF_COMMON_PART_DENY = Ok st' /\ writes st st' (orf_bytes es).
Proof.
  intros p fuel st S H. revert p fuel st S. induction H as [|t e xs es Hb H IH]; intros p fuel st S Hf WF Fs Hr.
  - exists st. split; [by destruct fuel | by apply writes_refl].
  - destruct fuel as [|fu]; [lia |]. destruct S as [(n & Hn & _ & Hx) S]. inversion Fs as [|? ? Fe Fs']; subst. cbn [nxt orf_entries]. rewrite (nd_get_Ok _ _ _ Hn), bind_ret.
    rewrite Hn in Hb. cbn in Hb. simplify_eq. unfold orf_bytes in Hr |- *. cbn [map concat] in Hr |- *. rewrite length_app in Hr.
    pose proof (length_entry_bytes (body n) (proj1 (sd_prefix _ _ Fe))) as Hle.
    destruct (entry_written st (body n) afi WF Fe ltac:(lia)) as (st1 & st2 & st3 & st4 & st5 & -> & E2 & E3 & E4 & E5 & W). rewrite bind_ret, E2, bind_ret, E3, bind_ret, E4, bind_ret, E5, bind_ret, Hx.
    destruct (writes_room _ _ _ WF W) as [R5 _]. destruct (IH (Some t) fu st5 S) as (st' & -> & W'); [cbn in Hf; lia | apply W | done | unfold orf_bytes; lia |].
    exists st'. split; [done |]. by eapply writes_trans.
Qed.

(** ** The message *)

Definition wire_safi (safi : Z) : Z := if safi =? SAFI_MPLS_VPN then SAFI_MPLS_LABELED_VPN else safi.

(** A route refresh message of the given type with one ORF whose entries are the bytes [bs]. *)
Definition message (type afi safi when_to_refresh orf_type : Z) (bs : list Z) : list Z :=
  replicate 16 255 ++ be_bytes 2 (27 + Z.of_nat (length bs)) ++ [type] ++ be_bytes 2 afi ++ [0; wire_safi safi; when_to_refresh; orf_type] ++
  be_bytes 2 (Z.of_nat (length bs)) ++ bs.

Lemma length_message type afi safi w t bs : Z.of_nat (length (message type afi safi w t bs)) = 27 + Z.of_nat (length bs).
Proof. unfold message. rewrite !length_app, length_replicate, !length_be_bytes. cbn [length]. lia. Qed.

Lemma marker_writes st n : stream_wf st -> Z.of_nat n <= room st -> exists st', put_marker st n = Ok st' /\ writes st st' (replicate n 255).
Proof.
  revert st. induction n as [|n IH]; intros st WF Hr; [exists st; split; [done | by apply writes_refl] |]. cbn [put_marker replicate].
  destruct (putc_writes st 255 WF ltac:(lia) ltac:(lia)) as (st1 & -> & W1). rewrite bind_ret. destruct (writes_room _ _ _ WF W1) as [R1 _]. cbn [length] in R1.
  destruct (IH st1 (proj1 W1) ltac:(lia)) as (st2 & -> & W2). exists st2. split; [done |]. exact (writes_trans _ _ _ [255] _ W1 W2).
Qed.

(** A block that [XMALLOC] returned for [n] bytes. *)
Definition block_of (n : Z) (b : list Z) : Prop := Z.of_nat (length b) = n /\ bytes_ok b.

Lemma dup_written st block : stream_wf st -> 0 < endp st -> block_of (endp st) block ->
  exists st', stream_dup st block = Ok st' /\ stream_wf st' /\ written st' = written st /\ endp st' = endp st.
Proof.
  intros WF H0 (Hl & Hb). unfold stream_dup, stream_new, stream_copy. rewrite (verify_sane_ok st WF), bind_ret. pose proof (wf_getp _ WF). pose proof (wf_endp _ WF). pose proof (wf_size _ WF).
  destruct (Z.gtb_spec (endp st) 0); [| lia]. cbn [c_assert]. rewrite !bind_ret. cbn [size endp data]. rewrite Z.geb_leb, Z.leb_refl. cbn [c_assert]. rewrite bind_ret.
  rewrite (rd_bytes_written st WF), bind_ret by lia. change (drop (Z.to_nat 0) (written st)) with (written st). pose proof (length_written st WF) as Hw.
  assert (take (Z.to_nat (endp st)) (written st) = written st) as Ht by (apply take_ge; lia). rewrite Ht. unfold wr_bytes. change (Z.to_nat 0) with 0%nat.
  rewrite (proj2 (Z.leb_le _ _)), (proj2 (Z.leb_le _ _)) by lia. cbn [andb]. rewrite bind_ret. eexists. split; [reflexivity |].
  rewrite take_0, drop_ge, app_nil_r by lia. cbn [app]. split; [split; cbn; first [lia | by apply written_ok] |]. split; [| done]. unfold written at 1. cbn [data endp]. exact Ht.
Qed.

Section Roundtrip.
Context `{InetText}.

(** Everything before the entries. *)
Lemma header_written type afi safi w t block : block_of BGP_MAX_PACKET_SIZE block -> 0 <= type < 256 -> 0 <= safi < 256 -> 0 <= w < 256 -> 0 <= t < 256 ->
  exists st0 st1 st2 st3 st4 st5 st6 st7, stream_new BGP_MAX_PACKET_SIZE block = Ok st0 /\ bgp_packet_set_marker st0 type = Ok st1 /\ stream_putw st1 afi = Ok (2, st2) /\
    stream_putc st2 0 = Ok (1, st3) /\ stream_putc st3 safi = Ok (1, st4) /\ stream_putc st4 w = Ok (1, st5) /\ stream_putc st5 t = Ok (1, st6) /\
    endp st6 = 25 /\ stream_wf st6 /\ stream_putw st6 0 = Ok (2, st7) /\ stream_wf st7 /\ room st7 = 4069 /\ getp st7 = 0 /\
    written st7 = replicate 16 255 ++ be_bytes 2 0 ++ [type] ++ be_bytes 2 afi ++ [0; safi; w; t] ++ be_bytes 2 0.
Proof.
  intros (Hl & Hb) Ht Hs Hw Ho. set (st0 := mk_stream 0 0 BGP_MAX_PACKET_SIZE block).
  assert (stream_wf st0) as WF by (split; cbn; try lia; done). assert (room st0 = 4096) as R0 by done.
  destruct (marker_writes st0 16 WF ltac:(lia)) as (sa & Ea & Wa). destruct (writes_room _ _ _ WF Wa) as [Ra _]. rewrite length_replicate in Ra.
  destruct (putw_writes sa 0 (proj1 Wa) ltac:(lia)) as (sb & Eb & Wb). destruct (writes_room _ _ _ (proj1 Wa) Wb) as [Rb _]. rewrite length_be_bytes in Rb.
  destruct (putc_writes sb type (proj1 Wb) ltac:(lia) Ht) as (st1 & E1 & W1). destruct (writes_room _ _ _ (proj1 Wb) W1) as [R1 _]. cbn [length] in R1.
  destruct (putw_writes st1 afi (proj1 W1) ltac:(lia)) as (st2 & E2 & W2). destruct (writes_room _ _ _ (proj1 W1) W2) as [R2 _]. rewrite length_be_bytes in R2.
  destruct (putc_writes st2 0 (proj1 W2) ltac:(lia) ltac:(lia)) as (st3 & E3 & W3). destruct (writes_room _ _ _ (proj1 W2) W3) as [R3 _]. cbn [length] in R3.
  destruct (putc_writes st3 safi (proj1 W3) ltac:(lia) Hs) as (st4 & E4 & W4). destruct (writes_room _ _ _ (proj1 W3) W4) as [R4 _]. cbn [length] in R4.
  destruct (putc_writes st4 w (proj1 W4) ltac:(lia) Hw) as (st5 & E5 & W5). destruct (writes_room _ _ _ (proj1 W4) W5) as [R5 _]. cbn [length] in R5.
  destruct (putc_writes st5 t (proj1 W5) ltac:(lia) Ho) as (st6 & E6 & W6). destruct (writes_room _ _ _ (proj1 W5) W6) as [R6 _]. cbn [length] in R6.
  destruct (putw_writes st6 0 (proj1 W6) ltac:(lia)) as (st7 & E7 & W7). destruct (writes_room _ _ _ (proj1 W6) W7) as [R7 _]. rewrite length_be_bytes in R7.
  pose proof (writes_trans _ _ _ _ _ Wa (writes_trans _ _ _ _ _ Wb (writes_trans _ _ _ _ _ W1 (writes_trans _ _ _ _ _ W2 (writes_trans _ _ _ _ _ W3
    (writes_trans _ _ _ _ _ W4 (writes_trans _ _ _ _ _ W5 W6))))))) as W06. destruct (writes_room _ _ _ WF W06) as [_ L6].
  exists st0, st1, st2, st3, st4, st5, st6, st7. unfold bgp_packet_set_marker. change (Z.to_nat BGP_MARKER_SIZE) with 16%nat. rewrite Ea, bind_ret, Eb, bind_ret, E1, bind_ret.
  do 7 (split; [done |]). split; [| split; [apply W6 |]; split; [done |]; split; [apply W7 |]; split; [lia |]; split].
  - rewrite L6. cbn [endp st0]. rewrite !length_app, length_replicate, !length_be_bytes. cbn [length]. lia.
  - destruct W06 as (_ & G6 & _). destruct W7 as (_ & G7 & _). rewrite G7, G6. done.
  - destruct W06 as (_ & _ & _ & D6). destruct W7 as (_ & _ & _ & D7). rewrite D7, D6. cbn [written st0]. rewrite <- !app_assoc. done.
Qed.

(** The lengths are filled in after the entries. *)
Lemma lengths_written st7 st8 type afi safi w t bs : stream_wf st7 -> writes st7 st8 bs -> Z.of_nat (length bs) <= 4069 ->
  written st7 = replicate 16 255 ++ be_bytes 2 0 ++ [type] ++ be_bytes 2 afi ++ [0; wire_safi safi; w; t] ++ be_bytes 2 0 ->
  exists st9 st10, stream_putw_at st8 25 (u16 (endp st8 - 25 - 2)) = Ok (2, st9) /\ stream_wf st9 /\ stream_putw_at st9 BGP_MARKER_SIZE (endp st9) = Ok (2, st10) /\
    stream_wf st10 /\ 0 < endp st10 /\ written st10 = message type afi safi w t bs.
Proof.
  intros WF7 W8 Hlen D7. destruct (writes_room _ _ _ WF7 W8) as [R8 L8]. destruct W8 as (WF8 & G8 & S8 & D8).
  pose proof (length_written st7 WF7) as Hl7. rewrite D7, !length_app, length_replicate, !length_be_bytes in Hl7. cbn [length] in Hl7.
  set (pre := replicate 16 255 ++ be_bytes 2 0 ++ [type] ++ be_bytes 2 afi ++ [0; wire_safi safi; w; t]).
  assert (length pre = 25%nat) as Hpre by (unfold pre; rewrite !length_app, length_replicate, !length_be_bytes; done).
  destruct (putw_at_written st8 pre 0 0 bs (u16 (endp st8 - 25 - 2)) WF8) as (st9 & E9 & WF9 & G9 & S9 & L9 & D9).
  { rewrite D8, D7. unfold pre. rewrite <- !app_assoc. done. }
  rewrite Hpre in E9. change (Z.of_nat 25) with 25 in E9.
  assert (u16 (endp st8 - 25 - 2) = Z.of_nat (length bs)) as Hol by (rewrite L8, <- Hl7, wrap_small; [lia | unfold in_u; lia]). rewrite Hol in D9.
  destruct (putw_at_written st9 (replicate 16 255) 0 0 ([type] ++ be_bytes 2 afi ++ [0; wire_safi safi; w; t] ++ be_bytes 2 (Z.of_nat (length bs)) ++ bs)
    (endp st9) WF9) as (st10 & E10 & WF10 & G10 & S10 & L10 & D10).
  { rewrite D9. unfold pre. rewrite <- !app_assoc. done. }
  rewrite length_replicate in E10. change (Z.of_nat 16) with BGP_MARKER_SIZE in E10. exists st9, st10. split_and!; try done; [lia |].
  rewrite D10. unfold message. do 2 f_equal. f_equal. rewrite L9, L8. lia.
Qed.

(** The packet, when the bytes [bs] are written after the header. *)
Lemma packet_written s new_rcv filter_in f afi safi orf_type w remove block block2 bs :
  afi = AFI_IP \/ afi = AFI_IP6 -> safi = SAFI_UNICAST \/ safi = SAFI_MULTICAST -> orf_type_prefix orf_type = true -> remove || negb (is_null filter_in) = true -> 0 <= w < 256 -> Z.of_nat (length bs) <= 4069 ->
  block_of BGP_MAX_PACKET_SIZE block -> (forall n, 0 <= n -> block_of n (block2 n)) ->
  (forall st, stream_wf st -> room st = 4069 -> exists st', (if remove then '(_, st) ← stream_putc st ORF_COMMON_PART_REMOVE_ALL; Ok st
     else prefix_bgp_orf_entry st s filter_in ORF_COMMON_PART_ADD ORF_COMMON_PART_PERMIT ORF_COMMON_PART_DENY) = Ok st' /\ writes st st' bs) ->
  exists pkt f', bgp_route_refresh_send s new_rcv filter_in f afi safi orf_type w remove block block2 = Ok (pkt, f') /\ f' afi safi = negb remove /\ stream_wf pkt /\
    written pkt = message (if new_rcv then BGP_MSG_ROUTE_REFRESH_NEW else BGP_MSG_ROUTE_REFRESH_OLD) afi safi w orf_type bs.
Proof.
  intros Hafi Hsafi Ht Hrm Hw Hlen Hb Hb2 Hput. assert (wire_safi safi = safi) as Ews by (by destruct Hsafi as [-> | ->]).
  assert (0 <= wire_safi safi < 256) as Hs by (rewrite Ews; destruct Hsafi as [-> | ->]; z_eval).
  assert (exists f', set_sflag f afi (wire_safi safi) (negb remove) = Ok f' /\ f' afi safi = negb remove) as (f' & Ef & Hf').
  { rewrite Ews. unfold set_sflag. destruct Hafi as [-> | ->], Hsafi as [-> | ->]; eexists; (split; [reflexivity |]); reflexivity. }
  set (type := if new_rcv then _ else _). assert (0 <= type < 256) as Hty by (unfold type; destruct new_rcv; z_eval).
  assert (0 <= orf_type < 256) as Hot. { unfold orf_type_prefix in Ht. apply orb_true_iff in Ht as [Ht | Ht]; apply Z.eqb_eq in Ht as ->; z_eval. }
  destruct (header_written type afi (wire_safi safi) w orf_type block Hb Hty Hs Hw Hot)
    as (st0 & st1 & st2 & st3 & st4 & st5 & st6 & st7 & E0 & E1 & E2 & E3 & E4 & E5 & E6 & L6 & WF6 & E7 & WF7 & R7 & G7 & D7).
  destruct (Hput st7 WF7 R7) as (st8 & E8 & W8). destruct (lengths_written st7 st8 type afi safi w orf_type bs WF7 W8 Hlen D7) as (st9 & st10 & E9 & WF9 & E10 & WF10 & L10 & D10).
  destruct (dup_written st10 (block2 (endp st10)) WF10 L10 (Hb2 _ (Z.lt_le_incl _ _ L10))) as (pkt & Ed & WFp & Dp & Lp). exists pkt, f'. split; [| split; [done |]; split; [done | by rewrite Dp, D10]].
  unfold bgp_route_refresh_send. fold (wire_safi safi). fold type. rewrite E0, bind_ret, E1, bind_ret, E2, bind_ret, E3, bind_ret, E4, bind_ret, Ht, Hrm. cbn [andb].
  unfold put_orf. rewrite E5, bind_ret, E6, bind_ret. unfold stream_get_endp. rewrite (verify_sane_ok _ WF6), !bind_ret, E7, bind_ret, Ef, bind_ret, L6, E8, bind_ret, (verify_sane_ok _ (proj1 W8)), !bind_ret, E9, !bind_ret.
  unfold bgp_packet_set_size, stream_get_endp. rewrite (verify_sane_ok _ WF9), !bind_ret, E10, !bind_ret, Ed. done.
Qed.

(** A prefix list that fits. *)
Lemma send_written s A L E p n d es new_rcv f afi safi orf_type w block block2 :
  rep s A L E [] -> lmem s !! p = Some n -> A (pl_master (body n)) !! name (body n) = Some (d, es) -> Forall (sendable afi) es ->
  Z.of_nat (length (orf_bytes es)) <= 4069 -> block_of BGP_MAX_PACKET_SIZE block -> (forall n, 0 <= n -> block_of n (block2 n)) ->
  afi = AFI_IP \/ afi = AFI_IP6 -> safi = SAFI_UNICAST \/ safi = SAFI_MULTICAST -> orf_type_prefix orf_type = true -> 0 <= w < 256 ->
  exists pkt f', bgp_route_refresh_send s new_rcv (Some p) f afi safi orf_type w false block block2 = Ok (pkt, f') /\ f' afi safi = true /\ stream_wf pkt /\
    written pkt = message (if new_rcv then BGP_MSG_ROUTE_REFRESH_NEW else BGP_MSG_ROUTE_REFRESH_OLD) afi safi w orf_type (orf_bytes es).
Proof.
  intros R Hn Ha Fs Hlen Hb Hb2 Hafi Hsafi Ht Hw. apply packet_written; try done. intros st WF Hr. destruct (rep_list_at R p n d es Hn Ha) as (Hg & _ & D & B & _ & _).
  destruct (orf_entries_written afi (emem s) (E p) es None (walk_fuel (emem s)) st (dl_seg _ _ _ D) B) as (st' & E8 & W8); [by eapply dll_size | done | done | lia |].
  exists st'. rewrite <- (dl_head _ _ _ D) in E8. unfold prefix_bgp_orf_entry. by rewrite Hg, bind_ret, E8.
Qed.

(** The request to remove all. *)
Lemma send_removed s new_rcv filter_in f afi safi orf_type w block block2 : block_of BGP_MAX_PACKET_SIZE block -> (forall n, 0 <= n -> block_of n (block2 n)) ->
  afi = AFI_IP \/ afi = AFI_IP6 -> safi = SAFI_UNICAST \/ safi = SAFI_MULTICAST -> orf_type_prefix orf_type = true -> 0 <= w < 256 ->
  exists pkt f', bgp_route_refresh_send s new_rcv filter_in f afi safi orf_type w true block block2 = Ok (pkt, f') /\ f' afi safi = false /\ stream_wf pkt /\
    written pkt = message (if new_rcv then BGP_MSG_ROUTE_REFRESH_NEW else BGP_MSG_ROUTE_REFRESH_OLD) afi safi w orf_type [ORF_COMMON_PART_REMOVE_ALL].
Proof.
  intros Hb Hb2 Hafi Hsafi Ht Hw. apply packet_written; try done. intros st WF Hr. destruct (putc_writes st ORF_COMMON_PART_REMOVE_ALL WF ltac:(lia) ltac:(z_eval)) as (st' & -> & W).
  rewrite bind_ret. by exists st'.
Qed.

(** For VPN routes the flag is written beyond its array, whose index is the number of the address family on the wire. *)
Lemma send_vpn_oob s new_rcv filter_in f afi orf_type w block block2 : block_of BGP_MAX_PACKET_SIZE block -> orf_type_prefix orf_type = true -> 0 <= w < 256 ->
  bgp_route_refresh_send s new_rcv filter_in f afi SAFI_MPLS_VPN orf_type w true block block2 = Oob.
Proof.
  intros Hb Ht Hw. set (type := if new_rcv then BGP_MSG_ROUTE_REFRESH_NEW else BGP_MSG_ROUTE_REFRESH_OLD). assert (0 <= type < 256) as Hty by (unfold type; destruct new_rcv; z_eval).
  assert (0 <= orf_type < 256) as Hot. { unfold orf_type_prefix in Ht. apply orb_true_iff in Ht as [Ht | Ht]; apply Z.eqb_eq in Ht as ->; z_eval. }
  destruct (header_written type afi SAFI_MPLS_LABELED_VPN w orf_type block Hb Hty ltac:(z_eval) Hw Hot)
    as (st0 & st1 & st2 & st3 & st4 & st5 & st6 & st7 & E0 & E1 & E2 & E3 & E4 & E5 & E6 & L6 & WF6 & E7 & WF7 & R7 & G7 & D7).
  unfold bgp_route_refresh_send. rewrite Z.eqb_refl. fold type. rewrite E0, bind_ret, E1, bind_ret, E2, bind_ret, E3, bind_ret, E4, bind_ret, Ht. cbn [andb orb].
  unfold put_orf. rewrite E5, bind_ret, E6, bind_ret. unfold stream_get_endp. rewrite (verify_sane_ok _ WF6), !bind_ret, E7, bind_ret.
  assert (set_sflag f afi SAFI_MPLS_LABELED_VPN (negb true) = Oob) as -> by (unfold set_sflag; by rewrite andb_false_r). done.
Qed.

(** ** Reading it back *)

(** The prefix and the entry that the neighbour gets. *)
Definition sent_prefix (e : entry) : prefix :=
  set_u_head (take (Z.to_nat (psize e)) (u (e_prefix e))) (mk_prefix (family (e_prefix e)) (prefixlen (e_prefix e)) (replicate 16 0)).
Definition sent (e : entry) : entry := made (sent_prefix e) (e_type e) (e_seq e) (e_le e) (e_ge e) 0.

Lemma byte_at_dropped d pos k : 0 <= pos -> 0 <= k -> byte_at d (pos + k) = byte_at (drop (Z.to_nat pos) d) k.
Proof. intros H1 H2. rewrite byte_at_drop by done. f_equal. lia. Qed.

Lemma next_byte_Ok d pos e k : 0 <= pos -> 0 <= k -> pos + k < e -> e <= Z.of_nat (length d) ->
  next_byte d (pos + k) e = Ok (true, byte_at (drop (Z.to_nat pos) d) k, pos + k + 1).
Proof.
  intros H1 H2 H3 H4. unfold next_byte. rewrite (proj2 (Z.ltb_lt _ _)) by lia. rewrite rd_byte_Ok, bind_ret by lia. by rewrite byte_at_dropped.
Qed.

Lemma parse_sent d pos e afi x more : 0 <= pos -> sendable afi x -> afi = AFI_IP \/ afi = AFI_IP6 ->
  drop (Z.to_nat pos) d = be_bytes 4 (u32 (e_seq x)) ++ [e_ge x; e_le x; prefixlen (e_prefix x)] ++ take (Z.to_nat (psize x)) (u (e_prefix x)) ++ more ->
  pos + 7 + psize x <= e -> e <= Z.of_nat (length d) ->
  orf_parse d pos e afi = Ok (true, mk_orf (u32 (e_seq x)) (e_ge x) (e_le x) (sent_prefix x), pos + 7 + psize x).
Proof.
  intros Hp S Hafi Hd He Hl. pose proof (sd_prefix _ _ S) as (Wp & _ & Hbl). pose proof (psize_range x Wp) as Hps. destruct Wp as (Hu & Hb & Hpl).
  unfold orf_parse. rewrite Z.geb_leb, (proj2 (Z.leb_le _ _)) by lia. rewrite rd_bytes_Ok, !bind_ret by lia.
  assert (ntohl (take 4 (drop (Z.to_nat pos) d)) = u32 (e_seq x)) as ->.
  { rewrite Hd, take_app_length'; [| by rewrite length_be_bytes]. unfold ntohl. apply be_val_be_bytes. apply (wrap_range 32). lia. }
  rewrite next_byte_Ok by lia. rewrite bind_ret. replace (pos + 4 + 1) with (pos + 5) by lia. rewrite next_byte_Ok by lia. rewrite bind_ret.
  replace (pos + 5 + 1) with (pos + 6) by lia. rewrite next_byte_Ok by lia. rewrite bind_ret. replace (pos + 6 + 1) with (pos + 7) by lia.
  assert (forall k, 4 <= k -> byte_at (drop (Z.to_nat pos) d) k = byte_at ([e_ge x; e_le x; prefixlen (e_prefix x)] ++ take (Z.to_nat (psize x)) (u (e_prefix x)) ++ more) (k - 4)) as Hk.
  { intros k Hk. rewrite Hd, byte_at_app_r by (rewrite length_be_bytes; lia). by rewrite length_be_bytes. }
  rewrite !Hk by lia. cbn [Z.sub Z.add Z.opp Z.pos_sub Pos.sub Pos.sub_mask Pos.double_mask Pos.succ_double_mask Pos.pred_double Pos.double_pred_mask].
  change (byte_at ([e_ge x; e_le x; prefixlen (e_prefix x)] ++ take (Z.to_nat (psize x)) (u (e_prefix x)) ++ more) (4 - 4)) with (e_ge x).
  change (byte_at ([e_ge x; e_le x; prefixlen (e_prefix x)] ++ take (Z.to_nat (psize x)) (u (e_prefix x)) ++ more) (5 - 4)) with (e_le x).
  change (byte_at ([e_ge x; e_le x; prefixlen (e_prefix x)] ++ take (Z.to_nat (psize x)) (u (e_prefix x)) ++ more) (6 - 4)) with (prefixlen (e_prefix x)).
  cbn zeta. fold (psize x). rewrite <- (sd_family _ _ S). set (q := mk_prefix (family (e_prefix x)) (prefixlen (e_prefix x)) (replicate 16 0)).
  assert (psize x <= prefix_blen q) as Hle. { change (prefix_blen q) with (prefix_blen (e_prefix x)). unfold psize, PSIZE. apply Z.lt_succ_r, Z.div_lt_upper_bound; lia. }
  destruct (Z.gtb_spec (psize x) (prefix_blen q)); [lia |]. destruct (Z.gtb_spec (psize x) (e - (pos + 7))); [lia |].
  assert (take (Z.to_nat (psize x)) (drop (Z.to_nat (pos + 7)) d) = take (Z.to_nat (psize x)) (u (e_prefix x))) as Ht.
  { replace (Z.to_nat (pos + 7)) with (Z.to_nat pos + 7)%nat by lia. rewrite <- drop_drop, Hd. rewrite drop_app_ge by (rewrite length_be_bytes; lia). rewrite length_be_bytes.
    change (drop (7 - 4) ([e_ge x; e_le x; prefixlen (e_prefix x)] ++ take (Z.to_nat (psize x)) (u (e_prefix x)) ++ more)) with (take (Z.to_nat (psize x)) (u (e_prefix x)) ++ more).
    rewrite take_app_length'; [done |]. rewrite length_take. lia. }
  assert ((if psize x >? 0 then rd_bytes d (pos + 7) (Z.to_nat (psize x)) else Ok []) = Ok (take (Z.to_nat (psize x)) (u (e_prefix x)))) as ->.
  { destruct (Z.gtb_spec (psize x) 0); [rewrite rd_bytes_Ok by lia; by rewrite Ht |]. replace (psize x) with 0 by lia. done. }
  rewrite bind_ret. done.
Qed.

(** The entries arrive in order: each one goes to the end. *)
Lemma add_last e es : Forall (fun x => e_seq x < e_seq e) es -> add_entry e es = es ++ [e].
Proof.
  intros F. unfold add_entry. assert (remove_first (fun x => e_seq x =? e_seq e) es = es) as ->.
  { induction F as [|x es Hx F IH]; cbn; [done |]. destruct (Z.eqb_spec (e_seq x) (e_seq e)); [lia | by rewrite IH]. }
  induction F as [|x es Hx F IH]; cbn; [done |]. destruct (Z.leb_spec (e_seq e) (e_seq x)); [lia | by rewrite IH].
Qed.

Lemma signed_u32 z : - 2 ^ 31 <= z < 2 ^ 31 -> signed 32 (u32 z) = z.
Proof.
  intros Hz. unfold signed. rewrite (wrap_small 32 (u32 z)) by (apply (wrap_range 32); lia). unfold wrap. change (2 ^ (32 - 1)) with 2147483648. change (2 ^ 32) with 4294967296.
  change (2 ^ 31) with 2147483648 in Hz. destruct (decide (0 <= z)).
  - rewrite Z.mod_small by lia. destruct (Z.ltb_spec z 2147483648); lia.
  - assert (z mod 4294967296 = z + 4294967296) as -> by (rewrite <- (Z.mod_add z 1) by lia; apply Z.mod_small; lia). destruct (Z.ltb_spec (z + 4294967296) 2147483648); lia.
Qed.

(** No two rules that were sent are the same. *)
Definition distinct_rules (es : list entry) : Prop := forall a b, a ∈ es -> b ∈ es -> same_policy (sent a) (sent b) = true -> e_seq a = e_seq b.

Lemma spec_sent A nm afi x acc : sendable afi x -> contents_of A prefix_master_orf nm = (None, map sent acc) ->
  Forall (fun y => e_seq y < e_seq x) acc -> (forall y, y ∈ acc -> same_policy (sent y) (sent x) = true -> e_seq y = e_seq x) ->
  spec_orf A nm afi (mk_orf (u32 (e_seq x)) (e_ge x) (e_le x) (sent_prefix x)) (match e_type x with PREFIX_PERMIT => true | PREFIX_DENY => false end) true =
    (aset A prefix_master_orf nm (None, map sent (acc ++ [x])), CMD_SUCCESS).
Proof.
  intros S Hc Hlt Hd. unfold spec_orf. cbn [o_p o_ge o_le o_seq]. change (prefixlen (sent_prefix x)) with (prefixlen (e_prefix x)). rewrite (sd_range _ _ S), (sd_normal _ _ S).
  rewrite (signed_u32 _ (sd_seq _ _ S)). replace (if _ : bool then PREFIX_PERMIT else PREFIX_DENY) with (e_type x) by (by destruct (e_type x)). fold (sent x).
  unfold spec_add. rewrite Hc. cbv iota. assert (seq_for (sent x) (map sent acc) = e_seq x) as Hsq.
  { unfold seq_for. change (e_seq (sent x)) with (e_seq x). destruct (Z.eqb_spec (e_seq x) (-1)) as [Em |]; [by destruct (sd_auto _ _ S) | done]. }
  rewrite Hsq. assert (has_dup (sent x) (e_seq x) (map sent acc) = false) as ->.
  { destruct (has_dup _ _ _) eqn:Hh; [| done]. unfold has_dup in Hh. apply existsb_exists in Hh as (o & Ho & Hs). apply in_map_iff in Ho as (y & <- & Hy).
    apply andb_true_iff in Hs as [Hs1 Hs2]. apply list_elem_of_In in Hy. specialize (Hd y Hy Hs1). change (e_seq (sent y)) with (e_seq y) in Hs2. rewrite Hd, Z.eqb_refl in Hs2. done. }
  change (set_seq (e_seq x) (sent x)) with (sent x). rewrite add_last; [by rewrite map_app |]. apply Forall_map. exact Hlt.
Qed.
End Roundtrip.
