(* ===== verification/BgpOrfReceived.v ===== *)
(** * Route refresh messages: what the neighbour makes of them

    [bgp_route_refresh_receive] on the bytes that [bgp_route_refresh_send] writes leaves a filter with the entries that
    were sent, which gives the verdict of the original list on every prefix. *)

From stdpp Require Import sorting.
From S2P Require Import Prelude CString Prefix Inet PrefixText Stream DList Plist PlistCmd PlistRep PlistEntry PlistLists PlistRefine PlistOps BgpOrf BgpOrfSent.
Local Open Scope Z_scope.

Section Received.
Context `{InetText}.

(** ** The entries *)

Lemma sent_refines s A nm afi x acc : reps s A -> name_fits nm -> sendable afi x -> afi = AFI_IP \/ afi = AFI_IP6 -> contents_of A prefix_master_orf nm = (None, map sent acc) ->
  Forall (fun y => e_seq y < e_seq x) acc -> (forall y, y ∈ acc -> same_policy (sent y) (sent x) = true -> e_seq y = e_seq x) ->
  exists s', prefix_bgp_orf_set s nm afi (mk_orf (u32 (e_seq x)) (e_ge x) (e_le x) (sent_prefix x)) (match e_type x with PREFIX_PERMIT => true | PREFIX_DENY => false end) true =
    Ok (s', CMD_SUCCESS) /\ reps s' (aset A prefix_master_orf nm (None, map sent (acc ++ [x]))).
Proof.
  intros R Hn S Hafi Hc Hlt Hd. set (b := match e_type x with PREFIX_PERMIT => true | PREFIX_DENY => false end).
  destruct (op_refines s A (OrfSet nm afi (mk_orf (u32 (e_seq x)) (e_ge x) (e_le x) (sent_prefix x)) b true) R) as (s' & Hr & R').
  - split; [done |]. split.
    + unfold family_ok. cbn [o_p]. change (family (sent_prefix x)) with (family (e_prefix x)). rewrite (sd_family _ _ S). by apply afi2family_ok.
    + cbn [o_seq]. rewrite (signed_u32 _ (sd_seq _ _ S)). intros _ _ E. by destruct (sd_auto _ _ S).
  - cbn [run_op spec_op] in Hr, R'. pose proof (spec_sent A nm afi x acc S Hc Hlt Hd) as Hsp. fold b in Hsp. rewrite Hsp in Hr, R'. by exists s'.
Qed.

(** The flag byte says add, and permit or deny. *)
Lemma flag_read x : let c := orf_flag x ORF_COMMON_PART_ADD ORF_COMMON_PART_PERMIT ORF_COMMON_PART_DENY in
  CHECK_FLAG c ORF_COMMON_PART_REMOVE_ALL = false /\ CHECK_FLAG c ORF_COMMON_PART_REMOVE = false /\
  negb (CHECK_FLAG c ORF_COMMON_PART_DENY) = match e_type x with PREFIX_PERMIT => true | PREFIX_DENY => false end.
Proof. unfold orf_flag. by destruct (e_type x). Qed.

Lemma orf_loop_sent d e afi nm rest : afi = AFI_IP \/ afi = AFI_IP6 -> name_fits nm -> e <= Z.of_nat (length d) ->
  forall es acc fuel s A pos, reps s A -> contents_of A prefix_master_orf nm = (None, map sent acc) -> Forall (sendable afi) es ->
  StronglySorted seq_lt (acc ++ es) -> distinct_rules (acc ++ es) -> 0 <= pos -> drop (Z.to_nat pos) d = orf_bytes es ++ rest ->
  e = pos + Z.of_nat (length (orf_bytes es)) -> (length es < fuel)%nat ->
  exists s' A', orf_loop fuel d pos e afi nm s = Ok s' /\ reps s' A' /\ contents_of A' prefix_master_orf nm = (None, map sent (acc ++ es)) /\ only_filter nm A A'.
Proof.
  intros Hafi Hn He. induction es as [|x es IH]; intros acc fuel s A pos R Hc Fs S D Hp Hd Ee Hf.
  - exists s, A. rewrite app_nil_r. split_and!; try done. destruct fuel as [|f]; [lia |]. cbn [orf_loop]. cbn in Ee. rewrite (proj2 (Z.ltb_ge _ _)) by lia. done.
  - destruct fuel as [|f]; [lia |]. inversion Fs as [|? ? Sx Fs']; subst x0 l. unfold orf_bytes in Hd, Ee. cbn [map concat] in Hd, Ee. fold (orf_bytes es) in Hd, Ee.
    rewrite length_app in Ee. pose proof (length_entry_bytes x (proj1 (sd_prefix _ _ Sx))) as Hlx. pose proof (psize_range x (proj1 (sd_prefix _ _ Sx))) as Hps.
    cbn [orf_loop]. rewrite (proj2 (Z.ltb_lt _ _)) by lia. rewrite rd_byte_Ok, bind_ret by lia.
    assert (byte_at d pos = orf_flag x ORF_COMMON_PART_ADD ORF_COMMON_PART_PERMIT ORF_COMMON_PART_DENY) as ->.
    { rewrite <- (Z.add_0_r pos), byte_at_dropped, Hd by lia. done. }
    destruct (flag_read x) as (-> & -> & ->). cbn [negb].
    rewrite (parse_sent d (pos + 1) e afi x (orf_bytes es ++ rest)); [| lia | done | done | | lia | done].
    2: { replace (Z.to_nat (pos + 1)) with (Z.to_nat pos + 1)%nat by lia. rewrite <- drop_drop, Hd. unfold entry_bytes. cbn [app drop]. rewrite <- !app_assoc. done. }
    rewrite bind_ret. cbn [fst snd].
    assert (Forall (fun y => e_seq y < e_seq x) acc) as Hlt.
    { apply list.Forall_forall. intros y Hy. apply StronglySorted_app in S as (S & _ & _). apply (S y x); [done | by left]. }
    destruct (sent_refines s A nm afi x acc R Hn Sx Hafi Hc Hlt) as (s1 & -> & R1).
    { intros y Hy Hs. apply D; [set_solver.. | done]. }
    rewrite bind_ret. cbn [fst snd negb orb Z.eqb CMD_SUCCESS].
    destruct (IH (acc ++ [x]) f s1 _ (pos + 1 + 7 + psize x) R1) as (s' & A' & -> & R' & Hc' & O').
    + unfold contents_of. by rewrite aset_lookup.
    + done.
    + by rewrite <- app_assoc.
    + by rewrite <- app_assoc.
    + lia.
    + replace (Z.to_nat (pos + 1 + 7 + psize x)) with (Z.to_nat pos + length (entry_bytes x))%nat by lia. rewrite <- drop_drop, Hd, <- app_assoc, drop_app_length. done.
    + lia.
    + cbn in Hf. lia.
    + rewrite <- app_assoc in Hc'. exists s', A'. split; [done |]. split; [done |]. split; [done |]. eapply only_filter_trans; [apply aset_only | exact O'].
Qed.

(** ** The message *)

(** The next field of a stream. *)
Lemma getw_next st v post : stream_wf st -> contents st = be_bytes 2 v ++ post -> 0 <= v < 65536 ->
  exists st', stream_getw st = Ok (v, st') /\ stream_wf st' /\ contents st' = post /\ getp st' = getp st + 2 /\ endp st' = endp st /\ data st' = data st.
Proof.
  intros WF Hc Hv. pose proof (length_contents st WF) as Hl. rewrite Hc, length_app, length_be_bytes in Hl. destruct (getw_Ok st WF ltac:(lia)) as [-> WF'].
  eexists. rewrite Hc, take_app_length' by (by rewrite length_be_bytes). rewrite be_val_be_bytes by done. split; [reflexivity |]. split; [done |]. split; [| done].
  change 2 with (Z.of_nat 2) at 1. rewrite (contents_set_getp st 2 WF), Hc. by rewrite drop_app_length' by (by rewrite length_be_bytes).
Qed.

Lemma getc_next st v post : stream_wf st -> contents st = [v] ++ post ->
  exists st', stream_getc st = Ok (v, st') /\ stream_wf st' /\ contents st' = post /\ getp st' = getp st + 1 /\ endp st' = endp st /\ data st' = data st.
Proof.
  intros WF Hc. pose proof (length_contents st WF) as Hl. rewrite Hc, length_app in Hl. cbn [length] in Hl. destruct (getc_Ok st WF ltac:(lia)) as [-> WF'].
  eexists. rewrite Hc. split; [reflexivity |]. split; [done |]. split; [| done]. change 1 with (Z.of_nat 1) at 1. by rewrite (contents_set_getp st 1 WF), Hc.
Qed.

Lemma length_orf_bytes es : (length es <= length (orf_bytes es))%nat.
Proof.
  induction es as [|x es IH]; [done |]. unfold orf_bytes. cbn [map concat]. fold (orf_bytes es). rewrite length_app. unfold entry_bytes. cbn [length]. lia.
Qed.

(** One ORF that holds the entries [es], and nothing after it. *)
Lemma outer_sent f p s A afi safi t es : let nm := orf_name (host p) afi safi in
  reps s A -> A prefix_master_orf !! nm = None -> name_fits nm -> stream_wf (ibuf p) -> contents (ibuf p) = [t] ++ be_bytes 2 (Z.of_nat (length (orf_bytes es))) ++ orf_bytes es ->
  afi = AFI_IP \/ afi = AFI_IP6 -> orf_type_prefix t = true -> 8 <= Z.of_nat (length (orf_bytes es)) < 65536 ->
  Forall (sendable afi) es -> StronglySorted seq_lt es -> distinct_rules es ->
  exists p' s' A' q, orf_outer (S (S f)) p (endp (ibuf p)) afi safi s = Ok (p', s') /\ reps s' A' /\ A' prefix_master_orf !! nm = Some (None, map sent es) /\ only_filter nm A A' /\
    orf_plist p' afi safi = Some q /\ prefix_list_lookup s' AFI_ORF_PREFIX (Some nm) = Ok (Some q).
Proof.
  intros nm R Ha Hn WF Hc Hafi Ht Hlen Fs Hs D. set (bs := orf_bytes es) in *. pose proof (length_contents _ WF) as Hlc. rewrite Hc, !length_app, length_be_bytes in Hlc. cbn [length] in Hlc.
  cbn [orf_outer]. rewrite (proj2 (Z.ltb_lt _ _)) by lia.
  destruct (getc_next _ _ _ WF Hc) as (st1 & -> & WF1 & Hc1 & Hg1 & He1 & Hd1). rewrite bind_ret. cbn [fst snd].
  destruct (getw_next _ _ _ WF1 Hc1 ltac:(lia)) as (st2 & -> & WF2 & Hc2 & Hg2 & He2 & Hd2). rewrite bind_ret. cbn [fst snd]. cbv zeta. cbn [host set_ibuf]. rewrite Ht.
  destruct (Z.gtb_spec (getp st2 + Z.of_nat (length bs)) (endp (ibuf p))); [lia |]. rewrite (proj2 (Z.ltb_ge _ _)) by lia. fold nm.
  pose proof (wf_getp _ WF2). pose proof (wf_endp _ WF2). pose proof (wf_size _ WF2). pose proof (wf_block _ WF2).
  destruct (orf_loop_sent (data st2) (getp st2 + Z.of_nat (length bs)) afi nm (drop (Z.to_nat (endp st2)) (data st2)) Hafi Hn ltac:(lia) es [] (S (Z.to_nat (Z.of_nat (length bs)))) s A (getp st2) R)
    as (s' & A' & -> & R' & Hc' & O'); [| done | done | done | lia | | done | |].
  { unfold contents_of. by rewrite Ha. }
  { rewrite <- (take_drop (Z.to_nat (endp st2)) (data st2)) at 1. rewrite drop_app_le by (rewrite length_take; lia). f_equal. exact Hc2. }
  { rewrite Nat2Z.id. pose proof (length_orf_bytes es) as Hes. fold bs in Hes. lia. }
  rewrite bind_ret. cbn [app] in Hc'.
  assert (A' prefix_master_orf !! nm = Some (None, map sent es)) as Ha'.
  { unfold contents_of in Hc'. destruct (A' _ !! nm) as [c |]; cbn in Hc'; [by rewrite Hc' |]. destruct es; [cbn in Hlen; lia | done]. }
  pose proof (lookup_reps s' A' AFI_ORF_PREFIX prefix_master_orf nm R' eq_refl) as Hq. rewrite Ha' in Hq. destruct Hq as (L & E & q & n & _ & Hq & _). rewrite Hq, bind_ret.
  assert (stream_forward_getp st2 (Z.of_nat (length bs)) = Ok (set_getp (getp st2 + Z.of_nat (length bs)) st2)) as ->.
  { unfold stream_forward_getp. rewrite (verify_sane_ok st2 WF2), bind_ret. rewrite wrap_small by (unfold in_u; lia). unfold GETP_VALID. rewrite (proj2 (Z.leb_le _ _)) by lia. done. }
  rewrite bind_ret. cbn [ibuf set_ibuf getp set_getp]. rewrite (proj2 (Z.ltb_ge _ _)) by lia. eexists _, s', A', q. split; [reflexivity |]. cbn. rewrite !Z.eqb_refl. done.
Qed.

(** A message with one ORF is read up to its type. *)
Lemma receive_message p s type afi safi w t bs : cap_refresh_adv p = true -> established p = true ->
  stream_wf (ibuf p) -> getp (ibuf p) = BGP_HEADER_SIZE -> written (ibuf p) = message type afi safi w t bs ->
  afi = AFI_IP \/ afi = AFI_IP6 -> safi = SAFI_UNICAST \/ safi = SAFI_MULTICAST \/ safi = SAFI_MPLS_VPN -> 0 < Z.of_nat (length bs) ->
  exists st fuel, stream_wf st /\ contents st = [t] ++ be_bytes 2 (Z.of_nat (length bs)) ++ bs /\
    bgp_route_refresh_receive p (endp (ibuf p) - BGP_HEADER_SIZE) s =
      ('(p, s) ← orf_outer (S (S fuel)) (set_ibuf st p) (endp st) afi safi s; if w =? REFRESH_DEFER then Ok (p, s, Deferred) else refresh_done p afi safi s).
Proof.
  intros Hcap Hest WF Hg Hw Hafi Hsafi Hlen.
  pose proof (length_written _ WF) as Hlw. rewrite Hw, length_message in Hlw. change BGP_HEADER_SIZE with 19 in *.
  assert (0 <= afi < 65536) as Hafi16 by (destruct Hafi as [-> | ->]; z_eval).
  assert (contents (ibuf p) = be_bytes 2 afi ++ [0] ++ [wire_safi safi] ++ [w] ++ [t] ++ be_bytes 2 (Z.of_nat (length bs)) ++ bs) as Hc.
  { unfold contents. rewrite Hw, Hg. unfold message. rewrite !app_assoc, <- (app_assoc (_ ++ _) [type]). reflexivity. }
  unfold bgp_route_refresh_receive. rewrite Hcap, Hest. cbn [negb].
  destruct (getw_next _ _ _ WF Hc Hafi16) as (st1 & -> & WF1 & Hc1 & Hg1 & He1 & Hd1). rewrite bind_ret.
  destruct (getc_next _ _ _ WF1 Hc1) as (st2 & -> & WF2 & Hc2 & Hg2 & He2 & Hd2). rewrite bind_ret.
  destruct (getc_next _ _ _ WF2 Hc2) as (st3 & -> & WF3 & Hc3 & Hg3 & He3 & Hd3). rewrite bind_ret. cbv zeta.
  assert ((negb (afi =? AFI_IP) && negb (afi =? AFI_IP6)) || (negb (wire_safi safi =? SAFI_UNICAST) && negb (wire_safi safi =? SAFI_MULTICAST) && negb (wire_safi safi =? SAFI_MPLS_LABELED_VPN)) = false) as ->.
  { apply orb_false_iff. split; [by destruct Hafi as [-> | ->] |]. by destruct Hsafi as [-> | [-> | ->]]. }
  assert ((if wire_safi safi =? SAFI_MPLS_LABELED_VPN then SAFI_MPLS_VPN else wire_safi safi) = safi) as -> by (by destruct Hsafi as [-> | [-> | ->]]).
  change (BGP_MSG_ROUTE_REFRESH_MIN_SIZE - BGP_HEADER_SIZE) with 4.
  rewrite (proj2 (Z.eqb_neq (endp (ibuf p) - 19 - 4) 0)), (proj2 (Z.ltb_ge (endp (ibuf p) - 19 - 4) 5)) by lia.
  destruct (getc_next _ _ _ WF3 Hc3) as (st4 & -> & WF4 & Hc4 & Hg4 & He4 & Hd4). rewrite bind_ret.
  replace (getp st4 + (endp (ibuf p) - 19 - 5)) with (endp st4) by lia. exists st4, (Z.to_nat (endp (ibuf p) - 21)).
  replace (Z.to_nat (endp (ibuf p) - 19)) with (S (S (Z.to_nat (endp (ibuf p) - 21)))) by lia. done.
Qed.

Lemma receive_sent p s A type afi safi w t es : let nm := orf_name (host p) afi safi in
  reps s A -> A prefix_master_orf !! nm = None -> name_fits nm -> cap_refresh_adv p = true -> established p = true ->
  stream_wf (ibuf p) -> getp (ibuf p) = BGP_HEADER_SIZE -> written (ibuf p) = message type afi safi w t (orf_bytes es) ->
  afi = AFI_IP \/ afi = AFI_IP6 -> safi = SAFI_UNICAST \/ safi = SAFI_MULTICAST \/ safi = SAFI_MPLS_VPN -> orf_type_prefix t = true ->
  8 <= Z.of_nat (length (orf_bytes es)) < 65536 -> Forall (sendable afi) es -> StronglySorted seq_lt es -> distinct_rules es ->
  exists p' s' A' q, bgp_route_refresh_receive p (endp (ibuf p) - BGP_HEADER_SIZE) s = Ok (p', s', if w =? REFRESH_DEFER then Deferred else Announced afi safi) /\
    reps s' A' /\ A' prefix_master_orf !! nm = Some (None, map sent es) /\ only_filter nm A A' /\
    orf_plist p' afi safi = Some q /\ prefix_list_lookup s' AFI_ORF_PREFIX (Some nm) = Ok (Some q).
Proof.
  intros nm R Ha Hn Hcap Hest WF Hg Hw Hafi Hsafi Ht Hlen Fs Hs D.
  destruct (receive_message p s type afi safi w t (orf_bytes es) Hcap Hest WF Hg Hw Hafi Hsafi ltac:(lia)) as (st & f & WF' & Hc & ->).
  destruct (outer_sent f (set_ibuf st p) s A afi safi t es R Ha Hn WF' Hc Hafi Ht Hlen Fs Hs D) as (p' & s' & A' & q & Ho & R' & Ha' & O' & Hq & Hl).
  cbn [ibuf set_ibuf] in Ho. rewrite Ho, bind_ret. destruct (w =? REFRESH_DEFER); by eexists _, s', A', q.
Qed.

(** The request to remove all is shorter than an entry: it is not read. *)
Lemma receive_removed p s type afi safi w t : cap_refresh_adv p = true -> established p = true ->
  stream_wf (ibuf p) -> getp (ibuf p) = BGP_HEADER_SIZE -> written (ibuf p) = message type afi safi w t [ORF_COMMON_PART_REMOVE_ALL] ->
  afi = AFI_IP \/ afi = AFI_IP6 -> safi = SAFI_UNICAST \/ safi = SAFI_MULTICAST \/ safi = SAFI_MPLS_VPN -> orf_type_prefix t = true ->
  exists p', bgp_route_refresh_receive p (endp (ibuf p) - BGP_HEADER_SIZE) s = Ok (p', s, if w =? REFRESH_DEFER then Deferred else Announced afi safi) /\ orf_plist p' = orf_plist p.
Proof.
  intros Hcap Hest WF Hg Hw Hafi Hsafi Ht. destruct (receive_message p s type afi safi w t _ Hcap Hest WF Hg Hw Hafi Hsafi ltac:(done)) as (st & f & WF' & Hc & ->).
  cbn [orf_outer ibuf set_ibuf]. pose proof (length_contents _ WF') as Hlc. rewrite Hc, !length_app, length_be_bytes in Hlc. cbn [length] in Hlc, Hc.
  rewrite (proj2 (Z.ltb_lt _ _)) by lia. destruct (getc_next _ _ _ WF' Hc) as (st1 & -> & WF1 & Hc1 & Hg1 & He1 & _). rewrite bind_ret. cbn [fst snd].
  destruct (getw_next _ _ _ WF1 Hc1 ltac:(done)) as (st2 & -> & WF2 & Hc2 & Hg2 & He2 & _). rewrite bind_ret. cbn [fst snd]. cbv zeta. rewrite Ht.
  destruct (Z.gtb_spec (getp st2 + Z.of_nat 1) (endp st)); [lia |]. change (Z.of_nat 1 <? 7) with true. cbv iota. rewrite bind_ret.
  destruct (w =? REFRESH_DEFER); by eexists.
Qed.

(** ** The verdicts *)

Lemma sent_prefix_wf e : prefix_wf (e_prefix e) -> prefix_wf (sent_prefix e).
Proof.
  intros W. pose proof (psize_range e W) as Hps. destruct W as (Hu & Hb & Hl). unfold sent_prefix, set_u_head, prefix_wf. cbn [u prefixlen family]. split_and!; [| | lia..].
  - rewrite length_app, length_drop, length_take, length_replicate. lia.
  - apply Forall_app. split; [by apply bytes_ok_take |]. apply Forall_drop, Forall_replicate. unfold byte_ok. lia.
Qed.

Lemma sent_prefix_bits e : prefix_wf (e_prefix e) -> bits_agree (prefixlen (e_prefix e)) (u (sent_prefix e)) (u (e_prefix e)).
Proof.
  intros W i Hi. pose proof (psize_range e W) as Hps. destruct W as (Hu & Hb & Hl). unfold bit_at, sent_prefix, set_u_head. cbn [u]. f_equal.
  assert (0 <= i / 8 < psize e) as Hq.
  { split; [apply Z.div_pos; lia |]. unfold psize, PSIZE. apply Z.div_lt_upper_bound; [lia |]. pose proof (Z.mul_succ_div_gt (prefixlen (e_prefix e) + 7) 8). lia. }
  rewrite byte_at_app_l by (rewrite length_take; lia). unfold byte_at. rewrite <- (take_drop (Z.to_nat (psize e)) (u (e_prefix e))) at 2. rewrite app_nth1; [done |]. rewrite length_take. lia.
Qed.

(** The copy of a prefix in an entry has its length and its significant bits. *)
Lemma copied_bits p : family_ok p -> prefix_fits p -> prefix_wf (copied p) /\ prefixlen (copied p) = prefixlen p /\ bits_agree (prefixlen p) (u (copied p)) (u p).
Proof.
  intros Hf ((Hu & Hb & Hl) & _ & Hfit). unfold copied, prefix_copy, prefix_blen in *.
  assert (forall n, (n <= 16)%nat -> prefixlen p <= 8 * Z.of_nat n -> let q := set_u_head (take n (u p)) (mk_prefix (family p) (prefixlen p) (u prefix_new)) in
    prefix_wf q /\ prefixlen q = prefixlen p /\ bits_agree (prefixlen p) (u q) (u p)) as Hn.
  { intros n Hn Hle q. unfold q, set_u_head, prefix_wf. cbn [u prefixlen family]. split_and!; [| | lia.. | done |].
    - rewrite length_app, length_drop, length_take. change (length (u prefix_new)) with 16%nat. lia.
    - apply Forall_app. split; [by apply bytes_ok_take |]. apply Forall_drop. by apply (Forall_replicate byte_ok 16%nat 0).
    - intros i Hi. unfold bit_at. f_equal. assert (0 <= i / 8 < Z.of_nat n) by (split; [apply Z.div_pos; lia | apply Z.div_lt_upper_bound; lia]).
      rewrite byte_at_app_l by (rewrite length_take; lia). by apply byte_at_take. }
  destruct Hf as [E | E]; rewrite E in Hfit, Hn |- *; [apply (Hn 4%nat); [lia | exact Hfit] | apply (Hn 16%nat); [lia | exact Hfit]].
Qed.

Lemma match_sent afi e q : afi = AFI_IP \/ afi = AFI_IP6 -> sendable afi e -> prefix_wf q -> prefix_list_entry_match (sent e) q = prefix_list_entry_match e q.
Proof.
  intros Hafi S Wq. pose proof (sd_prefix _ _ S) as Fe. pose proof (proj1 Fe) as W.
  assert (family_ok (sent_prefix e)) as Hf. { unfold family_ok. change (family (sent_prefix e)) with (family (e_prefix e)). rewrite (sd_family _ _ S). by apply afi2family_ok. }
  assert (prefix_fits (sent_prefix e)) as Fs. { split; [by apply sent_prefix_wf |]. exact (proj2 Fe). }
  destruct (copied_bits _ Hf Fs) as (Wc & Hl & Hb). change (prefixlen (sent_prefix e)) with (prefixlen (e_prefix e)) in *.
  assert (prefix_match (copied (sent_prefix e)) q = prefix_match (e_prefix e) q) as Hm.
  { apply eq_true_iff_eq. rewrite (prefix_match_spec (copied _)), (prefix_match_spec (e_prefix e)) by done. unfold covers. by rewrite Hl, Hb, (sent_prefix_bits e W). }
  unfold prefix_list_entry_match. cbn [e_prefix sent made e_le e_ge]. by rewrite Hm, Hl.
Qed.

Lemma verdict_sent afi es q : afi = AFI_IP \/ afi = AFI_IP6 -> Forall (sendable afi) es -> prefix_wf q -> verdict (map sent es) q = verdict es q.
Proof.
  intros Hafi F Wq. assert (List.find (fun e => prefix_list_entry_match e q) (map sent es) = sent <$> List.find (fun e => prefix_list_entry_match e q) es) as Hf.
  { induction F as [|e es We F IH]; [done |]. cbn [map List.find]. rewrite (match_sent afi e q Hafi We Wq), IH. by destruct (prefix_list_entry_match e q). }
  unfold verdict. rewrite Hf. destruct es as [|e es]; [done |]. cbn [map]. by destruct (List.find _ (e :: es)).
Qed.
End Received.
