(* ===== verification/BgpOrfClaims.v ===== *)
(** * Route refresh messages: theorems

    The properties of the outbound route filters of bgpd/bgp_packet.c, with an instance of each. *)

From stdpp Require Import sorting.
From S2P Require Import Prelude CString Prefix Inet PrefixText Stream DList Plist PlistCmd PlistRep PlistEntry PlistLists PlistRefine PlistOps PlistRules PlistClaims BgpOrf BgpOrfSent BgpOrfReceived.
Local Open Scope Z_scope.

Section Claims.
Context `{InetText}.

(** C15: whatever bytes a neighbour puts into a route refresh message, reading it has one of two outcomes.  It returns, without a read outside the packet and
    without touching freed memory: it changes no prefix list but the filter of that neighbour for one address family, whose pointer then is null or the live list, and the lists stay well
    formed.  Or it faults, and then for one reason only: the entries of the message lead to a filter whose next automatic number is beyond an [int], and an entry with the sequence number
    [0xffffffff] asks for it (the finding on [prefix_new_seq_get]).  The prefix lists represent some contents, the buffer holds the rest of the packet, the filter pointers are live before,
    and the name of the neighbour does not overflow the number that [prefix_list_insert] computes from its digits. *)
Theorem orf_receive_safe p size s A : reps s A -> abs_wf A -> stream_wf (ibuf p) -> endp (ibuf p) - getp (ibuf p) = size -> 4 <= size ->
  (forall afi safi, name_fits (orf_name (host p) afi safi)) -> (forall afi safi, filter_live s p afi safi) ->
  (exists p' s' r A' afi safi, bgp_route_refresh_receive p size s = Ok (p', s', r) /\ reps s' A' /\ abs_wf A' /\
    only_filter (orf_name (host p) afi safi) A A' /\ filter_live s' p' afi safi /\ (forall a b, (a, b) <> (afi, safi) -> orf_plist p' a b = orf_plist p a b)) \/
  (bgp_route_refresh_receive p size s = Oob /\ exists afi safi, number_overflow (data (ibuf p)) (getp (ibuf p)) (endp (ibuf p)) afi (orf_name (host p) afi safi) s).
Proof.
  intros R W WF Hsz H4 Hn Hl. destruct (receive_any p size s A R WF Hsz H4 Hn Hl) as [(p' & s' & r & A' & afi & safi & H1 & H2 & H3 & H5) | Ho]; [left | by right].
  exists p', s', r, A', afi, safi. auto.
Qed.

(** C16: a prefix list that fits a packet and whose rules differ in their significant bits reaches the neighbour: the message is sent, the neighbour, which had no filter, reads all
    of it, and its filter gives the verdict of the original list on every prefix. *)
Theorem orf_filter_roundtrip s A m nm d es f afi safi t w new_rcv block block2 s2 B :
  reps s A -> abs_wf A -> prefix_master_get afi = Some m -> afi = AFI_IP \/ afi = AFI_IP6 -> A m !! nm = Some (d, es) ->
  es <> [] -> Forall (sendable afi) es -> distinct_rules es -> Z.of_nat (length (orf_bytes es)) <= 4069 ->
  block_of BGP_MAX_PACKET_SIZE block -> (forall n, 0 <= n -> block_of n (block2 n)) -> orf_type_prefix t = true -> 0 <= w < 256 ->
  safi = SAFI_UNICAST \/ safi = SAFI_MULTICAST -> reps s2 B ->
  exists fp pkt f', prefix_list_lookup s afi (Some nm) = Ok (Some fp) /\ bgp_route_refresh_send s new_rcv (Some fp) f afi safi t w false block block2 = Ok (pkt, f') /\ f' afi safi = true /\
    forall p, let nm2 := orf_name (host p) afi safi in B prefix_master_orf !! nm2 = None -> name_fits nm2 -> cap_refresh_adv p = true -> established p = true ->
      stream_wf (ibuf p) -> getp (ibuf p) = BGP_HEADER_SIZE -> written (ibuf p) = written pkt ->
      exists p' s2', bgp_route_refresh_receive p (endp (ibuf p) - BGP_HEADER_SIZE) s2 = Ok (p', s2', if w =? REFRESH_DEFER then Deferred else Announced afi safi) /\
        forall q, prefix_wf q -> exists v x y, prefix_list_apply s (Some fp) q = Ok (x, v) /\ prefix_list_apply s2' (orf_plist p' afi safi) q = Ok (y, v).
Proof.
  intros R W Hm Hafi Ha Hne Fs D Hlen Hb Hb2 Ht Hw Hsafi R2. pose proof (lookup_reps s A afi m nm R Hm) as Hl. rewrite Ha in Hl. destruct Hl as (L & E & fp & n & R0 & Hl & Hn & Em & En).
  rewrite <- Em, <- En in Ha. assert (safi = SAFI_UNICAST \/ safi = SAFI_MULTICAST \/ safi = SAFI_MPLS_VPN) as Hs by tauto.
  destruct (send_written s A L E fp n d es new_rcv f afi safi t w block block2 R0 Hn Ha Fs Hlen Hb Hb2 Hafi Hsafi Ht Hw) as (pkt & f' & Hsend & Hf & _ & Hpkt). exists fp, pkt, f'. do 3 (split; [done |]).
  intros p nm2 Hno Hfit Hcap Hest WF Hg Hwr. rewrite Hpkt in Hwr.
  destruct (receive_sent p s2 B _ afi safi w t es R2 Hno Hfit Hcap Hest WF Hg Hwr Hafi Hs Ht) as (p' & s2' & B' & q' & Hrec & R2' & Ha2 & _ & Hq' & Hl2);
    [| done | apply (W _ _ _ _ Ha) | done |].
  { destruct es as [|x es]; [done |]. pose proof (length_orf_bytes (x :: es)). inversion Fs as [|? ? Sx ?]; subst. unfold orf_bytes in *. cbn [map concat] in *. rewrite length_app in *.
    pose proof (length_entry_bytes x (proj1 (sd_prefix _ _ Sx))). pose proof (psize_range x (proj1 (sd_prefix _ _ Sx))). lia. }
  exists p', s2'. split; [done |]. intros q Wq. destruct (apply_spec s A L E fp n d es q R0 Hn Ha) as (x & Hx & _).
  pose proof (lookup_reps s2' B' AFI_ORF_PREFIX prefix_master_orf nm2 R2' eq_refl) as Hl3. fold nm2 in Ha2. rewrite Ha2 in Hl3. destruct Hl3 as (L2 & E2 & q2 & n2 & R3 & Hl3 & Hn2 & Em2 & En2).
  fold nm2 in Hl2. rewrite Hl3 in Hl2. injection Hl2 as <-. rewrite <- Em2, <- En2 in Ha2. destruct (apply_spec s2' B' L2 E2 q2 n2 None (map sent es) q R3 Hn2 Ha2) as (y & Hy & _).
  exists (verdict es q), x, y. split; [done |]. rewrite Hq', Hy. by rewrite (verdict_sent afi).
Qed.

(** C36: a router that takes its filter back is not heard: the message it sends with a request to remove all entries is read without effect by a neighbour that runs the same code, because
    it is shorter than an entry; the neighbour goes on filtering. *)
Theorem orf_remove_all_ignored s filter_in f afi safi t w new_rcv block block2 s2 : afi = AFI_IP \/ afi = AFI_IP6 -> safi = SAFI_UNICAST \/ safi = SAFI_MULTICAST ->
  block_of BGP_MAX_PACKET_SIZE block -> (forall n, 0 <= n -> block_of n (block2 n)) -> orf_type_prefix t = true -> 0 <= w < 256 ->
  exists pkt f', bgp_route_refresh_send s new_rcv filter_in f afi safi t w true block block2 = Ok (pkt, f') /\ f' afi safi = false /\
    forall p, cap_refresh_adv p = true -> established p = true -> stream_wf (ibuf p) -> getp (ibuf p) = BGP_HEADER_SIZE -> written (ibuf p) = written pkt ->
      exists p', bgp_route_refresh_receive p (endp (ibuf p) - BGP_HEADER_SIZE) s2 = Ok (p', s2, if w =? REFRESH_DEFER then Deferred else Announced afi safi) /\ orf_plist p' = orf_plist p.
Proof.
  intros Hafi Hsafi Hb Hb2 Ht Hw. assert (safi = SAFI_UNICAST \/ safi = SAFI_MULTICAST \/ safi = SAFI_MPLS_VPN) as Hs by tauto.
  destruct (send_removed s new_rcv filter_in f afi safi t w block block2 Hb Hb2 Hafi Hsafi Ht Hw) as (pkt & f' & Hsend & Hf & _ & Hpkt). exists pkt, f'. do 2 (split; [done |]).
  intros p Hcap Hest WF Hg Hwr. rewrite Hpkt in Hwr. by eapply receive_removed.
Qed.
End Claims.

(** ** Instances *)

Lemma found_same (p q : positive) : Ok (Some p) = Ok (Some q) -> p = q.
Proof. by intros [=]. Qed.

Lemma Ok_same (x y : stream) (f g : sflags) : Ok (x, f) = Ok (y, g) -> x = y.
Proof. by intros [=]. Qed.

#[local] Opaque ex_state ex_list.

(** A packet buffer of a session after the header was read. *)
Definition ex_ibuf (bytes : list Z) : stream := mk_stream 19 (Z.of_nat (length bytes)) 4096 (bytes ++ replicate (4096 - length bytes) 0).
Definition orf_ex_peer (bytes : list Z) : orf_peer := mk_orf_peer "10.0.0.2" true true (ex_ibuf bytes) (fun _ _ => None) (fun _ _ => true).
Definition ex_block : list Z := replicate 4096 0.
Definition ex_block2 (n : Z) : list Z := replicate (Z.to_nat n) 0.
(** What the list of the example is on the wire. *)
Definition ex_bytes : list Z := message 5 AFI_IP SAFI_UNICAST 1 64 (orf_bytes ex_entries).

Lemma ex_wf bytes : (length bytes <= 4096)%nat -> (19 <= length bytes)%nat -> bytes_ok bytes -> stream_wf (ibuf (orf_ex_peer bytes)).
Proof.
  intros H1 H2 Hb. split; cbn; [lia | lia | lia | |].
  - rewrite length_app, length_replicate. lia.
  - apply Forall_app. split; [done |]. by apply Forall_replicate.
Qed.

(** A rule for 255.255.255.255/32, then a malformed entry. *)
Definition ex_ones : list Z := message 5 AFI_IP SAFI_UNICAST 1 64 [0; 0; 0; 0; 9; 32; 32; 32; 255; 255; 255; 255; 0; 1; 2].
(** A rule with the greatest sequence number, then one that asks for the next. *)
Definition ex_overflow : list Z := message 5 AFI_IP SAFI_UNICAST 1 64 [0; 127; 255; 255; 255; 0; 0; 8; 10; 0; 255; 255; 255; 255; 0; 0; 8; 11].

(** The first message is read, although it has a byte string [0xffffffff]; the second is the fault. *)
Lemma orf_receive_safe_witness :
  (exists p' s' r, bgp_route_refresh_receive (orf_ex_peer ex_ones) 23 ex_state = Ok (p', s', r)) /\
  bgp_route_refresh_receive (orf_ex_peer ex_overflow) 26 ex_state = Oob /\
  exists afi safi, number_overflow (data (ex_ibuf ex_overflow)) 19 45 afi (orf_name "10.0.0.2" afi safi) ex_state.
Proof.
  split.
  - destruct (orf_receive_safe (orf_ex_peer ex_ones) 23 ex_state (spec_ops no_lists plist_ex_ops).1) as [(p' & s' & r & _ & _ & _ & Hr & _) | [Ho _]].
    + apply ex_reps.
    + apply spec_ops_wf, no_lists_wf.
    + apply ex_wf; [vm_compute; lia | vm_compute; lia |]. vm_compute. repeat constructor; discriminate.
    + reflexivity.
    + lia.
    + intros afi safi. exists (10, false). reflexivity.
    + intros afi safi q Hq. discriminate Hq.
    + exists p', s', r. exact Hr.
    + vm_compute in Ho. discriminate Ho.
  - destruct (orf_receive_safe (orf_ex_peer ex_overflow) 26 ex_state (spec_ops no_lists plist_ex_ops).1) as [(p' & s' & r & _ & _ & _ & Hr & _) | Ho].
    + apply ex_reps.
    + apply spec_ops_wf, no_lists_wf.
    + apply ex_wf; [vm_compute; lia | vm_compute; lia |]. vm_compute. repeat constructor; discriminate.
    + reflexivity.
    + lia.
    + intros afi safi. exists (10, false). reflexivity.
    + intros afi safi q Hq. discriminate Hq.
    + vm_compute in Hr. discriminate Hr.
    + exact Ho.
Defined.

Lemma ex_sendable : Forall (sendable AFI_IP) ex_entries.
Proof.
  assert (forall e, (let p := e_prefix e in family p = AF_INET /\ length (u p) = 16%nat /\ forallb (fun b => (0 <=? b) && (b <? 256)) (u p) = true /\ 0 <= prefixlen p <= 32) ->
    0 <= e_ge e < 256 -> 0 <= e_le e < 256 -> invalid_range (prefixlen (e_prefix e)) (e_ge e) (e_le e) = false -> normal_le AFI_IP (e_ge e) (e_le e) = e_le e ->
    0 <= e_seq e < 1000 -> sendable AFI_IP e) as Hs.
  { intros e (Hf & Hl & Hb & Hp) Hg He Hi Hn Hq. assert (bytes_ok (u (e_prefix e))) as Hok.
    { apply List.Forall_forall. rewrite forallb_forall in Hb. intros b Hin. specialize (Hb b Hin). unfold byte_ok. lia. }
    assert (prefix_fits (e_prefix e)) as Hfit. { unfold prefix_fits, prefix_wf, prefix_blen. rewrite Hf. split; [split; [done |]; split; [done | lia] |]. split; [discriminate |]. exact (proj2 Hp). }
    split; try done; lia. }
  assert (exists a b, ex_entries = [a; b]) as (a & b & E) by (vm_compute; eexists _, _; reflexivity). 
  pose proof E as E'. vm_compute in E'. injection E' as Ea Eb. rewrite E, <- Ea, <- Eb.
  constructor; [| constructor; [| constructor]]; apply Hs; vm_compute; intuition (try discriminate; reflexivity).
Qed.

Lemma ex_distinct : distinct_rules ex_entries.
Proof.
  intros a b Ha Hb Hs. destruct (Z.eq_dec (e_seq a) (e_seq b)) as [| Hne]; [done | exfalso]. revert Hs Hne. apply list_elem_of_In in Ha, Hb.
  assert (forallb (fun a => forallb (fun b => negb (same_policy (sent a) (sent b)) || (e_seq a =? e_seq b)) ex_entries) ex_entries = true) as Hc by (vm_compute; reflexivity).
  rewrite forallb_forall in Hc. specialize (Hc a Ha). rewrite forallb_forall in Hc. specialize (Hc b Hb). intros Hs Hne. rewrite Hs in Hc. cbn in Hc. lia.
Qed.

Lemma ex_block_ok : block_of BGP_MAX_PACKET_SIZE ex_block.
Proof. split; [reflexivity |]. by apply Forall_replicate. Qed.

Lemma ex_block2_ok n : 0 <= n -> block_of n (ex_block2 n).
Proof. intros Hn. split; [unfold ex_block2; rewrite length_replicate; lia | by apply Forall_replicate]. Qed.

Lemma ex_bytes_wf : stream_wf (ibuf (orf_ex_peer ex_bytes)).
Proof. apply ex_wf; [vm_compute; lia | vm_compute; lia |]. vm_compute. repeat constructor; discriminate. Qed.

Lemma ex_in_found : prefix_list_lookup ex_state AFI_IP (Some "in"%string) = Ok (Some ex_list).
Proof. vm_compute. reflexivity. Qed.

Definition ex_flags (afi safi : Z) : bool := false.

Lemma ex_send : exists pkt f', bgp_route_refresh_send ex_state true (Some ex_list) ex_flags AFI_IP SAFI_UNICAST 64 1 false ex_block ex_block2 = Ok (pkt, f') /\ written pkt = ex_bytes.
Proof. vm_compute. eexists _, _. split; reflexivity. Qed.

(** The neighbour has no prefix lists yet. *)
Lemma orf_filter_roundtrip_witness : exists p' s', bgp_route_refresh_receive (orf_ex_peer ex_bytes) (endp (ibuf (orf_ex_peer ex_bytes)) - BGP_HEADER_SIZE) plists_init = Ok (p', s', Announced AFI_IP SAFI_UNICAST) /\
  forall q, prefix_wf q -> exists v x y, prefix_list_apply ex_state (Some ex_list) q = Ok (x, v) /\ prefix_list_apply s' (orf_plist p' AFI_IP SAFI_UNICAST) q = Ok (y, v).
Proof.
  destruct (orf_filter_roundtrip ex_state (spec_ops no_lists plist_ex_ops).1 prefix_master_ipv4 "in" (Some "routes of the lab"%string) ex_entries ex_flags AFI_IP SAFI_UNICAST 64 1 true
    ex_block ex_block2 plists_init no_lists) as (fp & pkt & f & H1 & H2 & _ & H3).
  - apply ex_reps.
  - apply spec_ops_wf, no_lists_wf.
  - reflexivity.
  - by left.
  - vm_compute. reflexivity.
  - vm_compute. discriminate.
  - apply ex_sendable.
  - apply ex_distinct.
  - vm_compute. discriminate.
  - apply ex_block_ok.
  - apply ex_block2_ok.
  - reflexivity.
  - lia.
  - by left.
  - apply reps_init.
  - destruct ex_send as (pkt' & f' & H2' & Hw).
    pose proof (found_same _ _ (eq_trans (eq_sym ex_in_found) H1)) as Hfp. subst fp. pose proof (Ok_same _ _ _ _ (eq_trans (eq_sym H2') H2)) as Hpkt. rewrite Hpkt in Hw.
    apply (H3 (orf_ex_peer ex_bytes)); [reflexivity | by exists (10, false) | reflexivity | reflexivity | apply ex_bytes_wf | reflexivity |]. rewrite Hw. vm_compute. reflexivity.
Defined.

Lemma orf_remove_all_ignored_witness : exists pkt f, bgp_route_refresh_send ex_state true (Some ex_list) ex_flags AFI_IP SAFI_UNICAST 64 1 true ex_block ex_block2 = Ok (pkt, f).
Proof.
  destruct (orf_remove_all_ignored ex_state (Some ex_list) ex_flags AFI_IP SAFI_UNICAST 64 1 true ex_block ex_block2 ex_state) as (pkt & f & Hp & _).
  - by left.
  - by left.
  - apply ex_block_ok.
  - apply ex_block2_ok.
  - reflexivity.
  - lia.
  - exists pkt, f. exact Hp.
Defined.
