(* ===== verification/Command.v ===== *)
(** * lib/command.c: the commands of a daemon

    A daemon installs command elements, a syntax in text and a function, into the nodes of its terminal.  A line of a configuration file or of the terminal is split
    into words; word by word the elements of the node that do not fit are taken out of a copy of the vector of elements, and when exactly one is left its
    function runs on the words at its variable positions.  The words of an element are kept as the text of the syntax, as in the code; help texts are left out.  The
    vectors are lists, a [NULL] slot is [None]. *)

From Stdlib Require Import Ascii.
From S2P Require Import Prelude CString Prefix Inet.
Local Open Scope Z_scope.

(** ** Words *)

(** The characters up to the next white space, and the rest. *)
Fixpoint span_word (stop : ascii -> bool) (s : string) : string * string :=
  match s with
  | EmptyString => (EmptyString, EmptyString)
  | String c s' => if stop c then (EmptyString, s) else let '(w, r) := span_word stop s' in (String c w, r)
  end.

Fixpoint strvec_loop (fuel : nat) (cp : string) : res (list string) :=
  match fuel with
  | O => Oob
  | S f =>
      let '(token, cp) := span_word isspace cp in
      let cp := skip_spaces cp in
      match cp with
      | EmptyString => Ok [token]
      | _ => v ← strvec_loop f cp; Ok (token :: v)
      end
  end.

Definition cmd_make_strvec (s : string) : res (option (list string)) :=
  match skip_spaces s with
  | EmptyString => Ok None
  | String c r =>
      if Ascii.eqb c "!" || Ascii.eqb c "#" then Ok None
      else v ← strvec_loop (S (String.length s)) (String c r); Ok (Some v)
  end.

(** ** The syntax of a command *)

(** [cp[0] == c] *)
Definition starts_with (c : ascii) (s : string) : bool := match s with String d _ => Ascii.eqb d c | EmptyString => false end.

(** [vector_set (strvec, desc)] into the last vector of [allvec]. *)
Fixpoint add_last_vec (v : list (list string)) (x : string) : res (list (list string)) :=
  match v with
  | [] => Oob
  | [d] => Ok [d ++ [x]]
  | d :: v => v ← add_last_vec v x; Ok (d :: v)
  end.

(** The loop of [cmd_make_descvec]; [exit (1)] is [Abort]. *)
Fixpoint descvec_loop (fuel : nat) (cp : string) (multiple : Z) (allvec : list (list string)) : res (list (list string)) :=
  match fuel with
  | O => Oob
  | S f =>
      let cp := skip_spaces cp in
      let '(multiple, cp) := if starts_with "(" cp then (1, stail cp) else (multiple, cp) in
      let '(multiple, cp) := if starts_with ")" cp then (0, stail cp) else (multiple, cp) in
      cp ← (if starts_with "|" cp then if multiple =? 0 then Abort else Ok (stail cp) else Ok cp);
      let cp := skip_spaces cp in
      let '(multiple, cp) := if starts_with "(" cp then (1, stail cp) else (multiple, cp) in
      match cp with
      | EmptyString => Ok allvec
      | _ =>
          let '(token, cp) := span_word (fun c => isspace c || Ascii.eqb c ")" || Ascii.eqb c "|") cp in
          if negb (multiple =? 0) then
            allvec ← add_last_vec (if multiple =? 1 then allvec ++ [[]] else allvec) token;
            descvec_loop f cp (multiple + 1) allvec
          else
            allvec ← add_last_vec (allvec ++ [[]]) token;
            descvec_loop f cp multiple allvec
      end
  end.

Definition cmd_make_descvec (s : string) : res (list (list string)) := descvec_loop (S (String.length s)) s 0 [].

(** The first character of a text, NUL when it has none. *)
Definition char0 (s : string) : Z := match s with String c _ => code c | EmptyString => 0 end.
Definition CMD_OPTION (s : string) : bool := char0 s =? 91.
Definition CMD_VARIABLE (s : string) : bool := ((65 <=? char0 s) && (char0 s <=? 90)) || (char0 s =? 60).
Definition CMD_VARARG (s : string) : bool := char0 s =? 46.
Definition CMD_RANGE (s : string) : bool := char0 s =? 60.
Definition CMD_IPV4 (s : string) : bool := strcmp s "A.B.C.D" =? 0.
Definition CMD_IPV4_PREFIX (s : string) : bool := strcmp s "A.B.C.D/M" =? 0.
Definition CMD_IPV6 (s : string) : bool := strcmp s "X:X::X:X" =? 0.
Definition CMD_IPV6_PREFIX (s : string) : bool := strcmp s "X:X::X:X/M" =? 0.

Fixpoint cmd_cmdsize (strvec : list (list string)) : Z :=
  match strvec with
  | [] => 0
  | [desc] :: v => if CMD_OPTION desc then 0 else 1 + cmd_cmdsize v
  | _ :: v => 1 + cmd_cmdsize v
  end.

(** ** Matching a word *)

Inductive match_type :=
| no_match | extend_match | ipv4_prefix_match | ipv4_match | ipv6_prefix_match | ipv6_match | range_match | vararg_match | partly_match | exact_match.
Global Instance match_type_eq_dec : EqDecision match_type.
Proof. solve_decision. Defined.

Definition match_rank (m : match_type) : Z :=
  match m with
  | no_match => 0 | extend_match => 1 | ipv4_prefix_match => 2 | ipv4_match => 3 | ipv6_prefix_match => 4 | ipv6_match => 5
  | range_match => 6 | vararg_match => 7 | partly_match => 8 | exact_match => 9
  end.

(** [str - sp <= 3] and [atoi (buf) <= 255] *)
Definition octet_ok (buf : string) : bool := (Z.of_nat (String.length buf) <=? 3) && (atoi buf <=? 255).

(** The loops of [cmd_ipv4_match]; [buf] are the characters since [sp]. *)
Fixpoint ipv4_loop (str : string) (dots nums : Z) (buf : string) : match_type :=
  match str with
  | EmptyString => if negb (octet_ok buf) then no_match else if nums + 1 <? 4 then partly_match else exact_match
  | String c s =>
      if Ascii.eqb c "." then
        if dots >=? 3 then no_match
        else if starts_with "." s then no_match
        else match s with
             | EmptyString => partly_match
             | _ => if negb (octet_ok buf) then no_match else ipv4_loop s (dots + 1) (nums + 1) EmptyString
             end
      else if negb (isdigit c) then no_match
      else ipv4_loop s dots nums (sapp buf (String c EmptyString))
  end.
Definition cmd_ipv4_match (str : string) : match_type := ipv4_loop str 0 0 EmptyString.

(** The end of [cmd_ipv4_prefix_match]. *)
Definition mask_match (sp : string) : match_type := if negb (all_digits sp) then no_match else if atoi sp >? 32 then no_match else exact_match.

Fixpoint ipv4_prefix_loop (str : string) (dots : Z) (buf : string) : match_type :=
  match str with
  | EmptyString => if negb (octet_ok buf) then no_match else partly_match
  | String c s =>
      if Ascii.eqb c "/" then
        if negb (octet_ok buf) then no_match
        else if dots =? 3 then match s with EmptyString => partly_match | _ => mask_match s end
        else ipv4_prefix_loop s dots EmptyString
      else if Ascii.eqb c "." then
        if dots =? 3 then no_match
        else if starts_with "." s || starts_with "/" s then no_match
        else match s with
             | EmptyString => partly_match
             | _ => if negb (octet_ok buf) then no_match else ipv4_prefix_loop s (dots + 1) EmptyString
             end
      else if negb (isdigit c) then no_match
      else ipv4_prefix_loop s dots (sapp buf (String c EmptyString))
  end.
Definition cmd_ipv4_prefix_match (str : string) : match_type := ipv4_prefix_loop str 0 EmptyString.

(** [strtoul (s, &endptr, 10)] and [strtol]: the value, and the text at [endptr]. *)
Definition ULONG_MAX : Z := 2 ^ 64 - 1.
Fixpoint digits_rest (s : string) : string := match s with String c s' => if isdigit c then digits_rest s' else s | EmptyString => s end.
Definition starts_digit (s : string) : bool := match s with String c _ => isdigit c | EmptyString => false end.
Definition sign_split (s : string) : bool * string :=
  let s := skip_spaces s in
  match s with
  | String c s' => if code c =? 45 then (true, s') else if code c =? 43 then (false, s') else (false, s)
  | EmptyString => (false, s)
  end.
Definition strtoul (s : string) : Z * string :=
  let '(neg, d) := sign_split s in
  if starts_digit d then
    let v := atoi_digits 0 d in
    (if v >? ULONG_MAX then ULONG_MAX else if neg then u64 (- v) else v, digits_rest d)
  else (0, s).
Definition strtol (s : string) : Z * string :=
  let '(neg, d) := sign_split s in
  if starts_digit d then
    let v := atoi_digits 0 d in
    (if neg then Z.max (- 2 ^ 63) (- v) else Z.min (2 ^ 63 - 1) v, digits_rest d)
  else (0, s).
Definition is_end (s : string) : bool := match s with EmptyString => true | _ => false end.

Definition DECIMAL_STRLEN_MAX : Z := 10.

(** A bound in [range] up to the character [c]: its value, and the text after [c]. *)
Definition range_bound (range : string) (c : ascii) : option (Z * string) :=
  match strchr_split c range with
  | None => None
  | Some (buf, p) =>
      if Z.of_nat (String.length buf) >? DECIMAL_STRLEN_MAX then None
      else let '(v, e) := strtoul buf in if is_end e then Some (v, stail p) else None
  end.

Definition cmd_range_match (range str : string) : bool :=
  let '(val, e) := strtoul str in
  if negb (is_end e) then false
  else match range_bound (stail range) "-" with
       | None => false
       | Some (min, range) =>
           match range_bound range ">" with
           | None => false
           | Some (max, _) => negb ((val <? min) || (val >? max))
           end
       end.

(** The states of the IPv6 matchers. *)
Inductive ipv6_state := STATE_COLON | STATE_DOUBLE | STATE_ADDR | STATE_DOT | STATE_SLASH | STATE_MASK.
Definition IPV6_ADDR_STR : string := "0123456789abcdefABCDEF:.%".
Definition IPV6_PREFIX_STR : string := "0123456789abcdefABCDEF:.%/".
(** [strspn (str, set) == strlen (str)] *)
Fixpoint spans (set str : string) : bool := match str with EmptyString => true | String c s => has_char c set && spans set s end.

(** What a turn of the loop leaves: a value that is returned, or the new state; [seg] are the characters from [sp] up to the next one. *)
Record ipv6_vars := mk_ipv6 { state6 : ipv6_state; colons : Z; nums : Z; double_colon : bool; seg : string }.
Definition one (c : ascii) : string := String c EmptyString.
Definition next_is (c : ascii) (s : string) : bool := starts_with c s.

(** [STATE_START] *)
Definition ipv6_start (str : string) : option ipv6_vars :=
  if starts_with ":" str then
    if negb (next_is ":" (stail str)) && negb (is_end (stail str)) then None
    else Some (mk_ipv6 STATE_COLON (-1) 0 false EmptyString)
  else Some (mk_ipv6 STATE_ADDR 0 0 false EmptyString).

Definition ipv6_turn (c : ascii) (s : string) (v : ipv6_vars) : option ipv6_vars :=
  match state6 v with
  | STATE_COLON =>
      Some (mk_ipv6 (if next_is ":" s then STATE_DOUBLE else STATE_ADDR) (colons v + 1) (nums v) (double_colon v)
              (if next_is ":" s then sapp (seg v) (one c) else EmptyString))
  | STATE_DOUBLE =>
      if double_colon v then None
      else if next_is ":" s then None
      else Some (mk_ipv6 STATE_ADDR (if is_end s then colons v else colons v + 1) (nums v + 1) true EmptyString)
  | STATE_ADDR =>
      if (next_is ":" s || is_end s) && (Z.of_nat (String.length (seg v)) >? 3) then None
      else
        let last := next_is ":" s || is_end s in
        Some (mk_ipv6 (if next_is "." s then STATE_DOT else if last then STATE_COLON else STATE_ADDR)
                (colons v) (if last then nums v + 1 else nums v) (double_colon v) (sapp (seg v) (one c)))
  | STATE_DOT => Some (mk_ipv6 STATE_ADDR (colons v) (nums v) (double_colon v) (sapp (seg v) (one c)))
  | _ => Some v
  end.

Fixpoint ipv6_loop (str : string) (v : ipv6_vars) : match_type :=
  match str with
  | EmptyString => exact_match
  | String c s =>
      match ipv6_turn c s v with
      | None => no_match
      | Some v => if (nums v >? 8) || (colons v >? 7) then no_match else ipv6_loop s v
      end
  end.

Definition ipv6_prefix_turn (c : ascii) (s : string) (v : ipv6_vars) : match_type + ipv6_vars :=
  match state6 v with
  | STATE_COLON =>
      if next_is "/" s then inl no_match
      else inr (mk_ipv6 (if next_is ":" s then STATE_DOUBLE else STATE_ADDR) (colons v + 1) (nums v) (double_colon v)
                  (if next_is ":" s then sapp (seg v) (one c) else EmptyString))
  | STATE_DOUBLE =>
      if double_colon v then inl no_match
      else if next_is ":" s then inl no_match
      else inr (mk_ipv6 (if next_is "/" s then STATE_SLASH else STATE_ADDR) (if is_end s || next_is "/" s then colons v else colons v + 1)
                  (nums v + 1) true EmptyString)
  | STATE_ADDR =>
      if next_is ":" s || next_is "." s || is_end s || next_is "/" s then
        if Z.of_nat (String.length (seg v)) >? 3 then inl no_match
        else if has_char "/" (sapp (seg v) (one c)) then inl no_match
        else inr (mk_ipv6 (if next_is ":" s then STATE_COLON else if next_is "." s then STATE_DOT else if next_is "/" s then STATE_SLASH else STATE_ADDR)
                    (colons v) (nums v + 1) (double_colon v) EmptyString)
      else inr (mk_ipv6 STATE_ADDR (colons v) (nums v) (double_colon v) (sapp (seg v) (one c)))
  | STATE_DOT => inr (mk_ipv6 STATE_ADDR (colons v) (nums v) (double_colon v) (sapp (seg v) (one c)))
  | STATE_SLASH => if is_end s then inl partly_match else inr (mk_ipv6 STATE_MASK (colons v) (nums v) (double_colon v) (seg v))
  | STATE_MASK => inr v
  end.

(** The part after the slash. *)
Definition ipv6_mask_match (str : string) : match_type :=
  let '(l, e) := strtol str in
  let mask := signed 32 l in
  if negb (is_end e) then no_match else if (mask <? 0) || (mask >? 128) then no_match else exact_match.

Fixpoint ipv6_prefix_loop (str : string) (v : ipv6_vars) : match_type :=
  match state6 v with
  | STATE_MASK => ipv6_mask_match str
  | _ =>
      match str with
      | EmptyString => partly_match
      | String c s =>
          match ipv6_prefix_turn c s v with
          | inl r => r
          | inr v => if (nums v >? 11) || (colons v >? 7) then no_match else ipv6_prefix_loop s v
          end
      end
  end.
Definition cmd_ipv6_prefix_match (str : string) : match_type :=
  if negb (spans IPV6_PREFIX_STR str) then no_match
  else match str with
       | EmptyString => partly_match
       | _ => match ipv6_start str with Some v => ipv6_prefix_loop str v | None => no_match end
       end.

Section Matching.
Context `{InetText}.

Definition cmd_ipv6_match (str : string) : match_type :=
  if negb (spans IPV6_ADDR_STR str) then no_match
  else if (inet_pton AF_INET6 str).1 =? 1 then exact_match
  else match str with
       | EmptyString => exact_match
       | _ => match ipv6_start str with Some v => ipv6_loop str v | None => no_match end
       end.

(** The tests of [cmd_filter_by_string] on one alternative: the type of the match, [no_match] when there is none. *)
Definition is_exact (m : match_type) : bool := match m with exact_match => true | _ => false end.
Definition is_match (m : match_type) : bool := match m with no_match => false | _ => true end.
Definition when (b : bool) (m : match_type) : match_type := if b then m else no_match.
Definition string_match (command str : string) : match_type :=
  if CMD_VARARG str then vararg_match
  else if CMD_RANGE str then when (cmd_range_match str command) range_match
  else if CMD_IPV6 str then when (is_exact (cmd_ipv6_match command)) ipv6_match
  else if CMD_IPV6_PREFIX str then when (is_exact (cmd_ipv6_prefix_match command)) ipv6_prefix_match
  else if CMD_IPV4 str then when (is_exact (cmd_ipv4_match command)) ipv4_match
  else if CMD_IPV4_PREFIX str then when (is_exact (cmd_ipv4_prefix_match command)) ipv4_prefix_match
  else if CMD_OPTION str || CMD_VARIABLE str then extend_match
  else when (strcmp command str =? 0) exact_match.

(** The tests of [cmd_filter_by_completion]. *)
Definition completion_match (command str : string) : match_type :=
  if CMD_VARARG str then vararg_match
  else if CMD_RANGE str then when (cmd_range_match str command) range_match
  else if CMD_IPV6 str then when (is_match (cmd_ipv6_match command)) ipv6_match
  else if CMD_IPV6_PREFIX str then when (is_match (cmd_ipv6_prefix_match command)) ipv6_prefix_match
  else if CMD_IPV4 str then when (is_match (cmd_ipv4_match command)) ipv4_match
  else if CMD_IPV4_PREFIX str then when (is_match (cmd_ipv4_prefix_match command)) ipv4_prefix_match
  else if CMD_OPTION str || CMD_VARIABLE str then extend_match
  else if strncmp command str (String.length command) =? 0 then if strcmp command str =? 0 then exact_match else partly_match
  else no_match.

(** What [is_cmd_ambiguous] makes of one alternative: nothing, a match, a match whose text must be the same for all, or an incomplete match. *)
Inductive ambiguity := Amb_none | Amb_match | Amb_same | Amb_incomplete.
Definition prefix_test (m : match_type) : ambiguity := match m with no_match => Amb_none | partly_match => Amb_incomplete | _ => Amb_match end.
Definition amb_if (b : bool) (a : ambiguity) : ambiguity := if b then a else Amb_none.
Definition ambiguous_test (type : match_type) (command str : string) : ambiguity :=
  match type with
  | exact_match => amb_if (negb (CMD_OPTION str || CMD_VARIABLE str) && (strcmp command str =? 0)) Amb_match
  | partly_match => amb_if (negb (CMD_OPTION str || CMD_VARIABLE str) && (strncmp command str (String.length command) =? 0)) Amb_same
  | range_match => amb_if (cmd_range_match str command) Amb_same
  | ipv6_match => amb_if (CMD_IPV6 str) Amb_match
  | ipv6_prefix_match => prefix_test (cmd_ipv6_prefix_match command)
  | ipv4_match => amb_if (CMD_IPV4 str) Amb_match
  | ipv4_prefix_match => prefix_test (cmd_ipv4_prefix_match command)
  | extend_match => amb_if (CMD_OPTION str || CMD_VARIABLE str) Amb_match
  | vararg_match | no_match => Amb_none
  end.

End Matching.

(** ** Filtering *)

Section Commands.
Context `{InetText} {F : Type}.

(** [struct cmd_element] after it was installed. *)
Record cmd_element := mk_element { text : string; func : F; daemon : Z; strvec : list (list string); cmdsize : Z }.
Notation vector := (list (option cmd_element)).

(** [install_element] *)
Definition install_element (v : vector) (text : string) (func : F) : res vector :=
  strvec ← cmd_make_descvec text;
  Ok (v ++ [Some (mk_element text func 0 strvec (cmd_cmdsize strvec))]).

Definition stronger (m m' : match_type) : match_type := if match_rank m <? match_rank m' then m' else m.

(** The loop over the alternatives of a position: the type so far, and how many match. *)
Fixpoint match_alternatives (test : string -> match_type) (descvec : list string) (type : match_type) (matched : Z) : match_type * Z :=
  match descvec with
  | [] => (type, matched)
  | d :: r =>
      let m := test d in
      match_alternatives test r (if is_match m then stronger type m else type) (if is_match m then matched + 1 else matched)
  end.

(** [cmd_filter_by_string] and [cmd_filter_by_completion], which differ in [test]. *)
Fixpoint cmd_filter (test : string -> match_type) (v : vector) (index : nat) (type : match_type) : match_type * vector :=
  match v with
  | [] => (type, [])
  | None :: v => let '(type, v) := cmd_filter test v index type in (type, None :: v)
  | Some e :: v =>
      match strvec e !! index with
      | None => let '(type, v) := cmd_filter test v index type in (type, None :: v)
      | Some descvec =>
          let '(type, matched) := match_alternatives test descvec type 0 in
          let '(type, v) := cmd_filter test v index type in
          (type, (if matched =? 0 then None else Some e) :: v)
      end
  end.
Definition cmd_filter_by_string (command : string) (v : vector) (index : nat) : match_type * vector := cmd_filter (string_match command) v index no_match.
Definition cmd_filter_by_completion (command : string) (v : vector) (index : nat) : match_type * vector := cmd_filter (completion_match command) v index no_match.

(** The loop of [is_cmd_ambiguous] over the alternatives: the value it returns, or [matched] and the number of matches. *)
Fixpoint ambiguous_alternatives (test : string -> ambiguity) (descvec : list string) (matched : option string) (match_ : Z) : Z + option string * Z :=
  match descvec with
  | [] => inr (matched, match_)
  | d :: r =>
      match test d with
      | Amb_none => ambiguous_alternatives test r matched match_
      | Amb_match => ambiguous_alternatives test r matched (match_ + 1)
      | Amb_incomplete => inl 2
      | Amb_same =>
          match matched with
          | Some m => if negb (strcmp m d =? 0) then inl 1 else ambiguous_alternatives test r (Some d) (match_ + 1)
          | None => ambiguous_alternatives test r (Some d) (match_ + 1)
          end
      end
  end.

(** The value and the vector; after a value other than 0 the callers do not look at the vector. *)
Fixpoint ambiguous_loop (test : string -> ambiguity) (v : vector) (index : nat) (matched : option string) : res (Z * vector) :=
  match v with
  | [] => Ok (0, [])
  | None :: v => '(r, v) ← ambiguous_loop test v index matched; Ok (r, None :: v)
  | Some e :: v =>
      match strvec e !! index with
      | None => Oob
      | Some descvec =>
          match ambiguous_alternatives test descvec matched 0 with
          | inl r => Ok (r, Some e :: v)
          | inr (matched, n) =>
              '(r, v) ← ambiguous_loop test v index matched;
              Ok (r, (if n =? 0 then None else Some e) :: v)
          end
      end
  end.
Definition is_cmd_ambiguous (command : string) (v : vector) (index : nat) (type : match_type) : res (Z * vector) :=
  ambiguous_loop (ambiguous_test type command) v index None.

(** ** Execution *)

Definition CMD_ERR_NO_MATCH : Z := 2.
Definition CMD_ERR_AMBIGUOUS : Z := 3.
Definition CMD_ERR_INCOMPLETE : Z := 4.
Definition CMD_ERR_EXEED_ARGC_MAX : Z := 5.
Definition CMD_ERR_NOTHING_TODO : Z := 6.
Definition CMD_SUCCESS_DAEMON : Z := 10.
Definition CMD_ARGC_MAX : Z := 25.

(** The loop over the words: an error, or the elements that are left with the index and the type of the last match. *)
Fixpoint match_words (filter : string -> vector -> nat -> match_type * vector) (vline : list string) (v : vector) (index : nat) (last : match_type) :
    res (Z + vector * nat * match_type) :=
  match vline with
  | [] => Ok (inr (v, index, last))
  | command :: r =>
      let '(type, v) := filter command v index in
      match type with
      | vararg_match => Ok (inr (v, index, type))
      | _ =>
          '(ret, v) ← is_cmd_ambiguous command v index type;
          if ret =? 1 then Ok (inl CMD_ERR_AMBIGUOUS)
          else if ret =? 2 then Ok (inl CMD_ERR_NO_MATCH)
          else match_words filter r v (S index) type
      end
  end.

(** [match == vararg_match || index >= cmd_element->cmdsize] *)
Definition complete (index : nat) (last : match_type) (e : cmd_element) : bool :=
  match last with vararg_match => true | _ => Z.of_nat index >=? cmdsize e end.
Fixpoint somes (v : vector) : list cmd_element := match v with [] => [] | Some e :: v => e :: somes v | None :: v => somes v end.

(** The element to run, or an error. *)
Definition select_element (v : vector) (index : nat) (last : match_type) : Z + cmd_element :=
  let matched := List.filter (complete index last) (somes v) in
  let incomplete := List.filter (fun e => negb (complete index last e)) (somes v) in
  match matched with
  | [] => inl (match incomplete with [] => CMD_ERR_NO_MATCH | _ => CMD_ERR_INCOMPLETE end)
  | [e] => inr e
  | _ => inl CMD_ERR_AMBIGUOUS
  end.

(** The arguments: the words at variable positions, at positions with alternatives, and from [.LINE] on. *)
Fixpoint collect_args (vline : list string) (strvec : list (list string)) (varflag : bool) (argc : Z) : res (Z + list string) :=
  match vline with
  | [] => Ok (inr [])
  | w :: r =>
      let take (varflag : bool) :=
        if argc + 1 >=? CMD_ARGC_MAX then Ok (inl CMD_ERR_EXEED_ARGC_MAX)
        else x ← collect_args r (tail strvec) varflag (argc + 1); Ok (match x with inr a => inr (w :: a) | inl e => inl e end) in
      if varflag then take true
      else match strvec with
           | [] => Oob
           | [d] :: rest =>
               if CMD_VARARG d then take true
               else if CMD_VARIABLE d || CMD_OPTION d then take false
               else if argc >=? CMD_ARGC_MAX then Ok (inl CMD_ERR_EXEED_ARGC_MAX)
               else collect_args r rest false argc
           | _ :: _ => take false
           end
  end.

(** A line against a vector of elements: an error code, or the element and its arguments. *)
Definition find_command (filter : string -> vector -> nat -> match_type * vector) (vline : list string) (cmd_vector : vector) : res (Z + cmd_element * list string) :=
  m ← match_words filter vline cmd_vector 0 no_match;
  match m with
  | inl e => Ok (inl e)
  | inr (v, index, last) =>
      match select_element v index last with
      | inl e => Ok (inl e)
      | inr e =>
          a ← collect_args vline (strvec e) false 0;
          match a with
          | inl err => Ok (inl err)
          | inr argv => Ok (inr (e, argv))
          end
      end
  end.

(** The functions of commands work on a state, which holds the node of the terminal. *)
Context {St : Type} (run : F -> list string -> St -> res (St * Z)) (node : St -> Z) (set_node : Z -> St -> St) (cmd_node_vector : Z -> vector).

Definition execute (filter : string -> vector -> nat -> match_type * vector) (vline : list string) (s : St) : res (St * Z) :=
  r ← find_command filter vline (cmd_node_vector (node s));
  match r with
  | inl e => Ok (s, e)
  | inr (e, argv) => if negb (daemon e =? 0) then Ok (s, CMD_SUCCESS_DAEMON) else run (func e) argv s
  end.
Definition cmd_execute_command_strict (vline : list string) (s : St) : res (St * Z) := execute cmd_filter_by_string vline s.
Definition cmd_execute_command_real (vline : list string) (s : St) : res (St * Z) := execute cmd_filter_by_completion vline s.

(** ** Nodes *)

Definition AUTH_NODE : Z := 0.
Definition RESTRICTED_NODE : Z := 1.
Definition VIEW_NODE : Z := 2.
Definition AUTH_ENABLE_NODE : Z := 3.
Definition ENABLE_NODE : Z := 4.
Definition CONFIG_NODE : Z := 5.
Definition KEYCHAIN_NODE : Z := 9.
Definition KEYCHAIN_KEY_NODE : Z := 10.
Definition BGP_NODE : Z := 17.
Definition BGP_VPNV4_NODE : Z := 18.
Definition BGP_IPV6M_NODE : Z := 22.
Definition node_parent (n : Z) : res Z :=
  _ ← c_assert (n >? CONFIG_NODE);
  Ok (if (BGP_VPNV4_NODE <=? n) && (n <=? BGP_IPV6M_NODE) then BGP_NODE else if n =? KEYCHAIN_KEY_NODE then KEYCHAIN_NODE else CONFIG_NODE).

Definition cmd_try_do_shortcut (node : Z) (vline : list string) : bool :=
  match vline with
  | first_word :: _ =>
      negb (node =? AUTH_NODE) && negb (node =? VIEW_NODE) && negb (node =? AUTH_ENABLE_NODE) && negb (node =? ENABLE_NODE) &&
      negb (node =? RESTRICTED_NODE) && (strcmp "do" first_word =? 0)
  | [] => false
  end.

Definition succeeded (ret : Z) : bool := (ret =? 0) || (ret =? 1).

(** The loop of [cmd_execute_command] over the parents of [try_node]: the value for a command that succeeded, or [None] when none did. *)
Fixpoint try_parents (fuel : nat) (vline : list string) (s : St) (ret try_node : Z) : res (St * option Z) :=
  if negb (succeeded ret) && (node s >? CONFIG_NODE) then
    match fuel with
    | O => Oob
    | S f =>
        try_node ← node_parent try_node;
        '(s, ret) ← cmd_execute_command_real vline (set_node try_node s);
        if succeeded ret then Ok (s, Some ret) else try_parents f vline s ret try_node
    end
  else Ok (s, None).

Definition cmd_execute_command (vline : list string) (vtysh : bool) (s : St) : res (St * Z) :=
  let onode := node s in
  if cmd_try_do_shortcut (node s) vline then
    '(s, ret) ← cmd_execute_command_real (tail vline) (set_node ENABLE_NODE s);
    Ok (set_node onode s, ret)
  else
    '(s, ret) ← cmd_execute_command_real vline s;
    if vtysh then Ok (s, ret)
    else
      let tried := negb (succeeded ret) && (node s >? CONFIG_NODE) in
      '(s, r) ← try_parents 3 vline s ret onode;
      match r with
      | Some ret => Ok (s, ret)
      | None => Ok (if tried then set_node onode s else s, ret)
      end.

(** ** Configuration files *)

Definition VTY_BUFSIZ : Z := 512.

(** [fgets (buf, n + 1, fp)] on the rest of a file: [None] at its end. *)
Fixpoint take_line (n : nat) (s : string) : string * string :=
  match n, s with
  | O, _ | _, EmptyString => (EmptyString, s)
  | S n, String c s' => if code c =? 10 then (one c, s') else let '(l, r) := take_line n s' in (String c l, r)
  end.
Definition fgets (s : string) : option (string * string) :=
  match s with EmptyString => None | _ => Some (take_line (Z.to_nat (VTY_BUFSIZ - 1)) s) end.

Definition line_done (ret : Z) : bool := (ret =? 0) || (ret =? 1) || (ret =? CMD_ERR_NOTHING_TODO).

(** The loop that tries a line in the parent nodes. *)
Fixpoint retry_parents (fuel : nat) (vline : list string) (s : St) (ret : Z) : res (St * Z) :=
  if negb (line_done ret) && negb (node s =? CONFIG_NODE) then
    match fuel with
    | O => Oob
    | S f =>
        n ← node_parent (node s);
        '(s, ret) ← cmd_execute_command_strict vline (set_node n s);
        retry_parents f vline s ret
    end
  else Ok (s, ret).

Fixpoint config_from_file (fuel : nat) (s : St) (fp : string) : res (St * Z) :=
  match fgets fp with
  | None => Ok (s, 0)
  | Some (buf, fp) =>
      match fuel with
      | O => Oob
      | S f =>
          vline ← cmd_make_strvec buf;
          match vline with
          | None => config_from_file f s fp
          | Some vline =>
              '(s, ret) ← cmd_execute_command_strict vline s;
              '(s, ret) ← retry_parents 3 vline s ret;
              if negb (line_done ret) then Ok (s, ret) else config_from_file f s fp
          end
      end
  end.
End Commands.
Arguments cmd_element F : clear implicits.

(** ** Commands that change the node *)

(** A terminal and the lock of the configuration; [v_closed] is [status == VTY_CLOSE].  [exit (0)] of a shell is [Abort]. *)
Record vty := mk_vty { v_node : Z; v_config : Z; vty_config : Z; v_closed : bool; v_shell : bool }.
Definition set_v_node (n : Z) (v : vty) : vty := mk_vty n (v_config v) (vty_config v) (v_closed v) (v_shell v).
Definition close_vty (v : vty) : vty := mk_vty (v_node v) (v_config v) (vty_config v) true (v_shell v).

Definition vty_config_lock (v : vty) : vty * Z :=
  let v := if vty_config v =? 0 then mk_vty (v_node v) 1 1 (v_closed v) (v_shell v) else v in (v, v_config v).
Definition vty_config_unlock (v : vty) : vty :=
  if (vty_config v =? 1) && (v_config v =? 1) then mk_vty (v_node v) 0 0 (v_closed v) (v_shell v) else v.

Definition INTERFACE_NODE : Z := 11.
Definition ZEBRA_NODE : Z := 12.
Definition RIP_NODE : Z := 14.
Definition RIPNG_NODE : Z := 15.
Definition BABEL_NODE : Z := 16.
Definition OSPF_NODE : Z := 23.
Definition OSPF6_NODE : Z := 24.
Definition ISIS_NODE : Z := 25.
Definition MASC_NODE : Z := 26.
Definition RMAP_NODE : Z := 35.
Definition VTY_NODE : Z := 40.
Definition one_of (ns : list Z) (n : Z) : bool := existsb (Z.eqb n) ns.
Definition view_nodes : list Z := [VIEW_NODE; ENABLE_NODE; RESTRICTED_NODE].
Definition child_nodes : list Z :=
  [INTERFACE_NODE; ZEBRA_NODE; BGP_NODE; RIP_NODE; RIPNG_NODE; BABEL_NODE; OSPF_NODE; OSPF6_NODE; ISIS_NODE; KEYCHAIN_NODE; MASC_NODE; RMAP_NODE; VTY_NODE].
Definition bgp_family_nodes : list Z := [18; 19; 20; 21; 22].

Definition config_terminal (v : vty) : vty * Z :=
  let '(v, locked) := vty_config_lock v in if negb (locked =? 0) then (set_v_node CONFIG_NODE v, 0) else (v, 1).
Definition disable (v : vty) : vty * Z := (if v_node v =? ENABLE_NODE then set_v_node VIEW_NODE v else v, 0).

Definition config_exit (v : vty) : res (vty * Z) :=
  if one_of view_nodes (v_node v) then if v_shell v then Abort else Ok (close_vty v, 0)
  else Ok ((if v_node v =? CONFIG_NODE then vty_config_unlock (set_v_node ENABLE_NODE v)
            else if one_of child_nodes (v_node v) then set_v_node CONFIG_NODE v
            else if one_of bgp_family_nodes (v_node v) then set_v_node BGP_NODE v
            else if v_node v =? KEYCHAIN_KEY_NODE then set_v_node KEYCHAIN_NODE v
            else v), 0).
Definition config_end (v : vty) : vty * Z :=
  (if one_of (CONFIG_NODE :: KEYCHAIN_KEY_NODE :: child_nodes ++ bgp_family_nodes) (v_node v) then set_v_node ENABLE_NODE (vty_config_unlock v) else v, 0).
