(* ===== verification/CommandProofs.v ===== *)
(** * lib/command.c: how a line selects a command

    The code takes the elements that do not fit out of a copy of the vector, one word at a time.  [ref_find] says the same of a plain collection of
    elements: at every position the kind of match is the strongest one that some alternative of some element reaches, and the elements that reach it stay.
    [find_command_iff] shows that the code runs an element exactly when the reference selects it, [find_command_total] that it never reads outside
    the vectors, and [ref_find_perm] that the order of the elements does not matter, so that neither the order of installation nor [sort_node] does. *)

From Stdlib Require Import Ascii.
From S2P Require Import Prelude CString Prefix Inet Command.
Local Open Scope Z_scope.

(** ** Kinds of match *)

Lemma match_rank_inj m m' : match_rank m = match_rank m' -> m = m'.
Proof. by destruct m, m'. Qed.

Lemma stronger_rank m m' : match_rank (stronger m m') = Z.max (match_rank m) (match_rank m').
Proof. unfold stronger. destruct (Z.ltb_spec (match_rank m) (match_rank m')); lia. Qed.

Lemma stronger_comm m m' : stronger m m' = stronger m' m.
Proof. apply match_rank_inj. rewrite !stronger_rank. lia. Qed.
Lemma stronger_assoc a b c : stronger a (stronger b c) = stronger (stronger a b) c.
Proof. apply match_rank_inj. rewrite !stronger_rank. lia. Qed.
Lemma stronger_no m : stronger m no_match = m.
Proof. by destruct m. Qed.

Definition strongest (ms : list match_type) : match_type := foldr stronger no_match ms.

Lemma strongest_app l k : strongest (l ++ k) = stronger (strongest l) (strongest k).
Proof.
  induction l as [|m l IH]; cbn; [by rewrite stronger_comm, stronger_no |]. fold (strongest (l ++ k)). rewrite IH. apply stronger_assoc.
Qed.

Lemma strongest_perm l k : l ≡ₚ k -> strongest l = strongest k.
Proof.
  unfold strongest. induction 1 as [| x l k _ IH | x y l | l k j _ IH1 _ IH2]; cbn; [done | by rewrite IH | | by rewrite IH1].
  by rewrite !stronger_assoc, (stronger_comm y x).
Qed.

Lemma strongest_ge m ms : In m ms -> match_rank m <= match_rank (strongest ms).
Proof. induction ms as [|x ms IH]; cbn; [done |]. rewrite stronger_rank. intros [-> | Hi]; [lia |]. specialize (IH Hi). unfold strongest in IH. lia. Qed.

(** The strongest match is one of them, when there is one at all. *)
Lemma strongest_in ms : strongest ms <> no_match -> In (strongest ms) ms.
Proof.
  induction ms as [|m ms IH]; [done |]. change (strongest (m :: ms)) with (stronger m (strongest ms)). unfold stronger.
  destruct (Z.ltb_spec (match_rank m) (match_rank (strongest ms))); [| by left]. intros Hn. right. by apply IH.
Qed.

Section Reference.
Context `{InetText} {F : Type}.
Notation element := (cmd_element F).
Notation vector := (list (option element)).

(** ** The reference *)

(** The texts an element allows at a position. *)
Definition alternatives (index : nat) (e : element) : list string := match strvec e !! index with Some ts => ts | None => [] end.
Definition position (index : nat) (es : list element) : list string := flat_map (alternatives index) es.

(** [test] maps the text of an alternative to the kind of its match with the word. *)
Definition best (test : string -> match_type) (index : nat) (es : list element) : match_type := strongest (map test (position index es)).
Definition reaches (p : string -> bool) (index : nat) (es : list element) : list element := List.filter (fun e => existsb p (alternatives index e)) es.

(** No alternative that the last kind of match counts is incomplete, and those that must be the same text are. *)
Definition amb_counts (a : ambiguity) : bool := match a with Amb_none => false | _ => true end.
Definition clean (test : string -> ambiguity) (ts : list string) : bool :=
  forallb (fun t => match test t with Amb_incomplete => false | _ => true end) ts &&
  forallb (fun t => match test t with Amb_same => forallb (fun t' => match test t' with Amb_same => strcmp t t' =? 0 | _ => true end) ts | _ => true end) ts.

Fixpoint ref_words (test : string -> string -> match_type) (vline : list string) (es : list element) (index : nat) (last : match_type) :
    option (list element * nat * match_type) :=
  match vline with
  | [] => Some (es, index, last)
  | w :: r =>
      let type := best (test w) index es in
      let es := reaches (fun t => is_match (test w t)) index es in
      match type with
      | vararg_match => Some (es, index, type)
      | _ =>
          let amb := ambiguous_test type w in
          if clean amb (position index es) then ref_words test r (reaches (fun t => amb_counts (amb t)) index es) (S index) type else None
      end
  end.

Definition ref_select (es : list element) (index : nat) (last : match_type) : option element :=
  match List.filter (complete index last) es with [e] => Some e | _ => None end.

(** The words an element passes to its function: [None] when they are too many. *)
Definition ref_args (vline : list string) (e : element) : option (list string) :=
  match collect_args vline (strvec e) false 0 with Ok (inr a) => Some a | _ => None end.

Definition ref_find (test : string -> string -> match_type) (vline : list string) (es : list element) : option (element * list string) :=
  '(es, index, last) ← ref_words test vline es 0 no_match;
  e ← ref_select es index last;
  a ← ref_args vline e;
  Some (e, a).

(** ** The filter *)

Notation count_of p ts := (Z.of_nat (List.length (List.filter p ts))).

Lemma count_none {A} (p : A -> bool) ts : (count_of p ts =? 0) = negb (existsb p ts).
Proof. induction ts as [|t ts IH]; cbn [existsb List.filter]; [done |]. destruct (p t); [done | exact IH]. Qed.

Lemma match_alternatives_spec test ts type n :
  match_alternatives test ts type n = (stronger type (strongest (map test ts)), n + count_of (fun t => is_match (test t)) ts).
Proof.
  revert type n. induction ts as [|t ts IH]; intros type n; cbn [match_alternatives map strongest foldr List.filter List.length].
  { rewrite stronger_no. f_equal. lia. }
  rewrite IH, stronger_assoc. destruct (test t) eqn:E; cbn [is_match List.length]; f_equal; try lia; by rewrite ?stronger_no.
Qed.

Lemma cmd_filter_spec test (v : vector) index type :
  (cmd_filter test v index type).1 = stronger type (best test index (somes v)) /\
  somes (cmd_filter test v index type).2 = reaches (fun t => is_match (test t)) index (somes v).
Proof.
  revert type. induction v as [|[e|] v IH]; intros type; cbn [cmd_filter somes].
  - split; [symmetry; apply stronger_no | done].
  - unfold best, position, reaches in *. cbn [flat_map List.filter]. unfold alternatives at 1 3. destruct (strvec e !! index) as [ts |]; cbn match.
    + rewrite match_alternatives_spec, Z.add_0_l, count_none. specialize (IH (stronger type (strongest (map test ts)))).
      destruct (cmd_filter _ v _ _) as [ty' v']. cbn [fst snd] in *. destruct IH as [-> IH]. rewrite map_app, strongest_app, stronger_assoc. split; [done |].
      by destruct (existsb _ ts); cbn [negb somes]; rewrite IH.
    + specialize (IH type). destruct (cmd_filter _ v _ _) as [ty' v']. done.
  - specialize (IH type). destruct (cmd_filter _ v _ _) as [ty' v']. done.
Qed.

Lemma reaches_in p index (es : list element) e : In e (reaches p index es) <-> In e es /\ exists t, In t (alternatives index e) /\ p t = true.
Proof. unfold reaches. rewrite filter_In, existsb_exists. done. Qed.

Lemma reaches_position p index (es : list element) : Forall (fun e => is_Some (strvec e !! index)) (reaches p index es).
Proof.
  apply List.Forall_forall. intros e (_ & t & Ht & _)%reaches_in. unfold alternatives in Ht. by destruct (strvec e !! index).
Qed.

(** ** Ambiguity *)

(** The scan over all alternatives at a position: the text that must be the same, [None] when it fails. *)
Fixpoint amb_scan (test : string -> ambiguity) (ts : list string) (m : option string) : option (option string) :=
  match ts with
  | [] => Some m
  | t :: r =>
      match test t with
      | Amb_none | Amb_match => amb_scan test r m
      | Amb_incomplete => None
      | Amb_same => match m with Some m => if strcmp m t =? 0 then amb_scan test r (Some t) else None | None => amb_scan test r (Some t) end
      end
  end.

Lemma amb_scan_app test ts us m : amb_scan test (ts ++ us) m = match amb_scan test ts m with Some m => amb_scan test us m | None => None end.
Proof. revert m. induction ts as [|t ts IH]; intros m; cbn; [done |]. destruct (test t); try apply IH; [| done]. destruct m; [| apply IH]. by destruct (_ =? 0). Qed.

Definition amb_error (r : Z) : Prop := r = 1 \/ r = 2.

Lemma ambiguous_alternatives_spec test ts m n :
  match amb_scan test ts m with
  | Some m' => ambiguous_alternatives test ts m n = inr (m', n + count_of (fun t => amb_counts (test t)) ts)
  | None => exists r, ambiguous_alternatives test ts m n = inl r /\ amb_error r
  end.
Proof.
  revert m n. induction ts as [|t ts IH]; intros m n; cbn [amb_scan ambiguous_alternatives List.filter]; [f_equal; f_equal; cbn; lia |].
  assert (forall m, match amb_scan test ts m with
    | Some m' => ambiguous_alternatives test ts m (n + 1) = inr (m', n + Z.of_nat (S (List.length (List.filter (fun t => amb_counts (test t)) ts))))
    | None => exists r, ambiguous_alternatives test ts m (n + 1) = inl r /\ amb_error r end) as IH1.
  { intros k. specialize (IH k (n + 1)). destruct (amb_scan test ts k); [| done]. rewrite IH. f_equal. f_equal. lia. }
  destruct (test t) eqn:E; cbn [amb_counts List.length]; [apply IH | apply IH1 | | exists 2; by split; [| right]].
  destruct m as [m|]; [| apply IH1]. destruct (strcmp m t =? 0); cbn [negb]; [apply IH1 | exists 1; by split; [| left]].
Qed.

Lemma ambiguous_loop_spec test (v : vector) index m : Forall (fun e => is_Some (strvec e !! index)) (somes v) ->
  exists r v', ambiguous_loop test v index m = Ok (r, v') /\
    match amb_scan test (position index (somes v)) m with
    | Some _ => r = 0 /\ somes v' = reaches (fun t => amb_counts (test t)) index (somes v)
    | None => amb_error r
    end.
Proof.
  revert m. induction v as [|[e|] v IH]; intros m Hp; cbn [ambiguous_loop somes] in *; [by exists 0, [] | |].
  - inversion_clear Hp as [| ? ? [ts Hts] Hp']. unfold position, reaches in *. cbn [flat_map List.filter]. unfold alternatives at 1 3. rewrite Hts. cbn match.
    rewrite amb_scan_app. pose proof (ambiguous_alternatives_spec test ts m 0) as Ha. destruct (amb_scan test ts m) as [m' |].
    + rewrite Ha, Z.add_0_l, count_none. destruct (IH m' Hp') as (r & v' & -> & Hv). rewrite bind_ret. eexists r, _. split; [reflexivity |].
      destruct (amb_scan test _ m'); [| done]. destruct Hv as [-> Hv]. split; [done |]. by destruct (existsb _ ts); cbn [negb somes]; rewrite Hv.
    + destruct Ha as (r & -> & Hr). by eexists r, _.
  - destruct (IH m Hp) as (r & v' & -> & Hv). rewrite bind_ret. by exists r, (None :: v').
Qed.

Lemma amb_scan_from test ts m : is_Some (amb_scan test ts (Some m)) <->
  Forall (fun t => test t <> Amb_incomplete /\ (test t = Amb_same -> m = t)) ts.
Proof.
  revert m. induction ts as [|t ts IH]; intros m; cbn [amb_scan]; [split; [constructor | by eexists] |]. rewrite list.Forall_cons.
  destruct (test t) eqn:E; [rewrite IH; naive_solver | rewrite IH; naive_solver | |]; [| split; [by intros [] | naive_solver]].
  destruct (Z.eqb_spec (strcmp m t) 0) as [Em | Em]; rewrite strcmp_0 in Em; [subst; rewrite IH; naive_solver |].
  split; [by intros [] |]. intros [[_ ?] _]. naive_solver.
Qed.

Lemma amb_scan_None test ts : is_Some (amb_scan test ts None) <->
  Forall (fun t => test t <> Amb_incomplete) ts /\ forall t t', In t ts -> In t' ts -> test t = Amb_same -> test t' = Amb_same -> t = t'.
Proof.
  induction ts as [|t ts IH]; cbn [amb_scan]; [split; [by split; [constructor |] | by eexists] |]. rewrite list.Forall_cons.
  assert (test t <> Amb_same -> (forall u u', In u (t :: ts) -> In u' (t :: ts) -> test u = Amb_same -> test u' = Amb_same -> u = u') <->
    (forall u u', In u ts -> In u' ts -> test u = Amb_same -> test u' = Amb_same -> u = u')) as Hskip.
  { intros Hn. split; [intros Hu u u' Hi Hi'; apply Hu; by right |]. intros Hu u u' [-> | Hi] [-> | Hi']; [done | done | done | by apply Hu]. }
  destruct (test t) eqn:E; [rewrite Hskip, IH by done; naive_solver | rewrite Hskip, IH by done; naive_solver | | split; [by intros [] | naive_solver]].
  rewrite amb_scan_from, !List.Forall_forall. split.
  - intros Ha. split; [split; [done |]; intros u Hu; by apply Ha |].
    intros u u' [<- | Hi] [<- | Hi'] Eu Eu'; [done | by apply Ha | symmetry; by apply Ha |]. transitivity t; [symmetry |]; by apply Ha.
  - intros [[_ Ha] Hu] u Hi. split; [by apply Ha |]. intros Eu. apply Hu; [by left | by right | done | done].
Qed.

Lemma clean_spec test ts : clean test ts = true <->
  Forall (fun t => test t <> Amb_incomplete) ts /\ forall t t', In t ts -> In t' ts -> test t = Amb_same -> test t' = Amb_same -> t = t'.
Proof.
  unfold clean. rewrite andb_true_iff, !forallb_forall, List.Forall_forall. split; intros [H1 H2]; split.
  - intros t Hi E. specialize (H1 t Hi). by rewrite E in H1.
  - intros t t' Hi Hi' E E'. specialize (H2 t Hi). rewrite E, forallb_forall in H2. specialize (H2 t' Hi'). rewrite E' in H2. by apply strcmp_0, Z.eqb_eq.
  - intros t Hi. specialize (H1 t Hi). by destruct (test t).
  - intros t Hi. destruct (test t) eqn:E; try done. apply forallb_forall. intros t' Hi'. destruct (test t') eqn:E'; try done.
    apply Z.eqb_eq, strcmp_0. by apply H2.
Qed.

Lemma clean_scan test ts : clean test ts = bool_decide (is_Some (amb_scan test ts None)).
Proof. apply eq_true_iff_eq. by rewrite bool_decide_eq_true, amb_scan_None, clean_spec. Qed.

(** ** The words of a line *)

(** The filters of the code, by their test. *)
Definition filter_of (test : string -> string -> match_type) (command : string) (v : vector) (index : nat) : match_type * vector :=
  cmd_filter (test command) v index no_match.

Lemma match_words_spec test vline (v : vector) index last :
  exists x, match_words (filter_of test) vline v index last = Ok x /\
    match x, ref_words test vline (somes v) index last with
    | inr (v', i, l), Some (es, i', l') => somes v' = es /\ i = i' /\ l = l'
    | inl _, None => True
    | _, _ => False
    end.
Proof.
  revert v index last. induction vline as [|w r IH]; intros v index last; cbn [match_words ref_words]; [by eexists |].
  unfold filter_of at 1. destruct (cmd_filter_spec (test w) v index no_match) as [Ht Hv]. destruct (cmd_filter _ v _ _) as [type v1]. cbn [fst snd] in *.
  rewrite stronger_comm, stronger_no in Ht. rewrite <- Ht, <- Hv.
  assert (type = vararg_match \/ type <> vararg_match) as [E | E] by (destruct type; auto); [subst type; rewrite E; by eexists |].
  assert (exists x, ('(ret, v2) ← is_cmd_ambiguous w v1 index type;
    if ret =? 1 then Ok (inl CMD_ERR_AMBIGUOUS) else if ret =? 2 then Ok (inl CMD_ERR_NO_MATCH) else match_words (filter_of test) r v2 (S index) type) = Ok x /\
    match x, (if clean (ambiguous_test type w) (position index (somes v1))
              then ref_words test r (reaches (fun t => amb_counts (ambiguous_test type w t)) index (somes v1)) (S index) type else None) with
    | inr (v', i, l), Some (es, i', l') => somes v' = es /\ i = i' /\ l = l'
    | inl _, None => True
    | _, _ => False
    end) as Hs.
  { unfold is_cmd_ambiguous. destruct (ambiguous_loop_spec (ambiguous_test type w) v1 index None) as (ret & v2 & -> & Hr); [rewrite Hv; apply reaches_position |].
    rewrite bind_ret, clean_scan. destruct (amb_scan _ _ None) as [m|] eqn:Em.
    - destruct Hr as [-> Hv2]. cbn. destruct (IH v2 (S index) type) as (x & -> & Hx). rewrite Hv2 in Hx. by exists x.
    - destruct Hr as [-> | ->]; by eexists. }
  by destruct type.
Qed.

Lemma select_iff (v : vector) index last e : select_element v index last = inr e <-> ref_select (somes v) index last = Some e.
Proof. unfold select_element, ref_select. destruct (List.filter _ _) as [|e1 [|e2 es]]; [| naive_solver | naive_solver]. by destruct (List.filter _ _). Qed.

Theorem find_command_iff test vline (v : vector) e argv :
  find_command (filter_of test) vline v = Ok (inr (e, argv)) <-> ref_find test vline (somes v) = Some (e, argv).
Proof.
  unfold find_command, ref_find. destruct (match_words_spec test vline v 0 no_match) as (x & -> & Hx). rewrite bind_ret.
  destruct (ref_words test vline (somes v) 0 no_match) as [[[es i'] l']|]; destruct x as [err | [[v' i] l]]; [done | | by split | done].
  destruct Hx as (<- & -> & ->). cbn [mbind option_bind]. destruct (select_element v' i' l') as [err | e1] eqn:Es.
  - destruct (ref_select (somes v') i' l') as [e2|] eqn:E2; [apply select_iff in E2; congruence | by split].
  - apply select_iff in Es. rewrite Es. cbn [mbind option_bind]. unfold ref_args. destruct (collect_args vline (strvec e1) false 0) as [[err | a] | |]; cbn; naive_solver.
Qed.

(** ** The order of the elements *)

Lemma filter_perm {A} (p : A -> bool) (l k : list A) : l ≡ₚ k -> List.filter p l ≡ₚ List.filter p k.
Proof.
  induction 1 as [| x l k _ IH | x y l | l k j _ IH1 _ IH2]; cbn; [done | by destruct (p x); [constructor |] | | by etransitivity].
  destruct (p x), (p y); try done. apply perm_swap.
Qed.

Lemma position_perm index (es fs : list element) : es ≡ₚ fs -> position index es ≡ₚ position index fs.
Proof. intros P. unfold position. by apply Permutation_flat_map. Qed.
Lemma best_perm test index (es fs : list element) : es ≡ₚ fs -> best test index es = best test index fs.
Proof. intros P. unfold best. by apply strongest_perm, Permutation_map, position_perm. Qed.
Lemma reaches_perm p index (es fs : list element) : es ≡ₚ fs -> reaches p index es ≡ₚ reaches p index fs.
Proof. intros P. unfold reaches. by apply filter_perm. Qed.
Lemma clean_perm test ts us : ts ≡ₚ us -> clean test ts = clean test us.
Proof.
  intros P. apply eq_true_iff_eq. rewrite !clean_spec, P.
  split; intros [H1 H2]; (split; [done |]); intros t t' Hi Hi'; apply H2; by eapply Permutation_in; [symmetry + idtac; exact P |].
Qed.

Lemma ref_words_perm test vline (es fs : list element) index last : es ≡ₚ fs ->
  match ref_words test vline es index last, ref_words test vline fs index last with
  | Some (es', i, l), Some (fs', i', l') => es' ≡ₚ fs' /\ i = i' /\ l = l'
  | None, None => True
  | _, _ => False
  end.
Proof.
  revert es fs index last. induction vline as [|w r IH]; intros es fs index last P; cbn [ref_words]; [done |].
  rewrite <- (best_perm (test w) index es fs P). pose proof (reaches_perm (fun t => is_match (test w t)) index es fs P) as P1.
  set (type := best (test w) index es). set (es1 := reaches _ index es) in *. set (fs1 := reaches _ index fs) in *.
  rewrite <- (clean_perm (ambiguous_test type w) _ _ (position_perm index es1 fs1 P1)).
  assert (forall b : bool, match (if b then ref_words test r (reaches (fun t => amb_counts (ambiguous_test type w t)) index es1) (S index) type else None),
    (if b then ref_words test r (reaches (fun t => amb_counts (ambiguous_test type w t)) index fs1) (S index) type else None) with
  | Some (es', i, l), Some (fs', i', l') => es' ≡ₚ fs' /\ i = i' /\ l = l'
  | None, None => True
  | _, _ => False
  end) as Hs by (intros []; [apply IH, reaches_perm, P1 | done]).
  clearbody type. by destruct type; try apply (Hs (clean _ _)).
Qed.

Lemma ref_select_perm (es fs : list element) index last : es ≡ₚ fs -> ref_select es index last = ref_select fs index last.
Proof.
  intros P. unfold ref_select. apply (filter_perm (complete index last)) in P. destruct (List.filter _ es) as [|e [|e' es']].
  - by apply Permutation_nil in P as ->.
  - by apply Permutation_length_1_inv in P as ->.
  - apply Permutation_length in P. destruct (List.filter _ fs) as [|f [|f' fs']]; done.
Qed.

Lemma ref_find_perm test vline (es fs : list element) : es ≡ₚ fs -> ref_find test vline es = ref_find test vline fs.
Proof.
  intros P. unfold ref_find. pose proof (ref_words_perm test vline es fs 0 no_match P) as Hw.
  destruct (ref_words test vline es 0 no_match) as [[[es1 i] l]|], (ref_words test vline fs 0 no_match) as [[[fs1 i'] l']|]; try done.
  destruct Hw as (P1 & -> & ->). cbn [mbind option_bind]. by rewrite (ref_select_perm es1 fs1 i' l' P1).
Qed.

(** ** What the selected element is *)

(** What the two ways to compare a word with an alternative have in common. *)
Class WordTest (test : string -> string -> match_type) : Prop := {
  test_vararg w t : test w t = vararg_match -> CMD_VARARG t = true;
  test_exact w t : test w t = exact_match -> ambiguous_test exact_match w t = Amb_match
}.

Global Instance string_match_test : WordTest string_match.
Proof.
  split; intros w t; unfold string_match, when; destruct (CMD_VARARG t); try done; repeat (case_match; try done).
  intros _. cbn [ambiguous_test]. by repeat match goal with E : _ = _ :> bool |- _ => rewrite E; clear E end.
Qed.

Global Instance completion_match_test : WordTest completion_match.
Proof.
  split; intros w t; unfold completion_match, when; destruct (CMD_VARARG t); try done; repeat (case_match; try done).
  intros _. cbn [ambiguous_test]. by repeat match goal with E : _ = _ :> bool |- _ => rewrite E; clear E end.
Qed.

(** Some alternative at the position matches the word. *)
Definition word_fits (test : string -> string -> match_type) (e : element) (k : nat) (w : string) : Prop :=
  exists t, In t (alternatives k e) /\ is_match (test w t) = true.
Definition vararg_at (e : element) (k : nat) : Prop := exists t, In t (alternatives k e) /\ CMD_VARARG t = true.

Lemma ref_words_step test w r (es : list element) index last out :
  ref_words test (w :: r) es index last = Some out ->
  let type := best (test w) index es in
  let es1 := reaches (fun t => is_match (test w t)) index es in
  (type = vararg_match /\ out = (es1, index, vararg_match)) \/
  (type <> vararg_match /\ ref_words test r (reaches (fun t => amb_counts (ambiguous_test type w t)) index es1) (S index) type = Some out).
Proof.
  cbn [ref_words]. destruct (best (test w) index es) eqn:E; intros Hr; try (destruct (clean _ _); [by right | done]). left. split; [done | congruence].
Qed.

Lemma ref_words_sound `{WordTest test} vline (es : list element) index last es' i l :
  ref_words test vline es index last = Some (es', i, l) -> last <> vararg_match ->
  (forall e, In e es' -> In e es /\ forall k w, vline !! k = Some w -> (index + k < i)%nat -> word_fits test e (index + k) w) /\
  ((l <> vararg_match /\ i = (index + List.length vline)%nat) \/
   (l = vararg_match /\ (index <= i < index + List.length vline)%nat /\ exists e, In e es' /\ vararg_at e i)).
Proof.
  revert es index last. induction vline as [|w r IH]; intros es index last Hr Hl.
  { injection Hr as -> -> ->. split; [intros e He; split; [done |]; intros k w; by rewrite lookup_nil | left; split; [done | cbn; lia]]. }
  apply ref_words_step in Hr as [[E Ho] | [E Hr]].
  - injection Ho as -> -> ->. split.
    + intros e He. apply reaches_in in He as [He _]. split; [done |]. intros k w' _ Hk. lia.
    + right. split; [done |]. split; [cbn; lia |]. assert (In vararg_match (map (test w) (position index es))) as Hi by (rewrite <- E; apply strongest_in; fold (best (test w) index es); by rewrite E).
      apply in_map_iff in Hi as (t & Et & (e & He & Ht)%in_flat_map). exists e. split.
      * apply reaches_in. split; [done |]. exists t. by rewrite Et.
      * exists t. split; [done |]. by eapply test_vararg.
  - apply IH in Hr as [H1 H2]; [| done]. split.
    + intros e He. destruct (H1 e He) as [Hi Hk]. apply reaches_in in Hi as [(Hi & t & Ht & Hm)%reaches_in _]. split; [done |].
      intros [|k] w' Hw Hlt; [cbn in Hw; injection Hw as <-; rewrite Nat.add_0_r; by exists t |]. rewrite Nat.add_succ_r. apply (Hk k w' Hw). lia.
    + cbn [List.length]. destruct H2 as [[? ->] | (-> & ? & ?)]; [left; split; [done | lia] | right; split; [done |]; split; [lia | done]].
Qed.

(** An element whose every word is an exact match stays to the end. *)
Lemma ref_words_exact `{WordTest test} vline (es : list element) index last es' i l e :
  ref_words test vline es index last = Some (es', i, l) -> last <> vararg_match -> In e es ->
  (forall k w, vline !! k = Some w -> exists t, In t (alternatives (index + k) e) /\ test w t = exact_match) ->
  In e es' /\ i = (index + List.length vline)%nat /\ l <> vararg_match.
Proof.
  revert es index last. induction vline as [|w r IH]; intros es index last Hr Hl He Hx.
  { injection Hr as -> -> ->. split; [done |]. split; [cbn; lia | done]. }
  destruct (Hx 0%nat w eq_refl) as (t & Ht & Em). rewrite Nat.add_0_r in Ht.
  assert (best (test w) index es = exact_match) as Eb.
  { apply match_rank_inj. assert (match_rank exact_match <= match_rank (best (test w) index es)) as Hle.
    { rewrite <- Em. apply strongest_ge, in_map, in_flat_map. by exists e. } destruct (best _ _ _); cbn in *; lia. }
  apply ref_words_step in Hr as [[E _] | [E Hr]]; [congruence |]. rewrite Eb in Hr. apply IH in Hr as (H1 & -> & H2); [| done | |].
  - split; [done |]. split; [cbn; lia | done].
  - apply reaches_in. split; [apply reaches_in; split; [done |]; exists t; by rewrite Em |]. exists t. split; [done |]. by rewrite test_exact.
  - intros k w' Hw. destruct (Hx (S k) w' Hw) as (t' & Ht' & Em'). exists t'. by rewrite Nat.add_succ_l, <- Nat.add_succ_r.
Qed.

Lemma ref_select_Some (es : list element) index last e : ref_select es index last = Some e ->
  In e es /\ complete index last e = true /\ forall e', In e' es -> complete index last e' = true -> e' = e.
Proof.
  unfold ref_select. destruct (List.filter _ es) as [|e1 [|]] eqn:E; try done. intros [= <-].
  assert (forall x, In x [e1] <-> In x es /\ complete index last x = true) as Hi by (intros x; rewrite <- E; apply filter_In).
  destruct (Hi e1) as [H1 _]. destruct H1 as [H1 H2]; [by left |]. split; [done |]. split; [done |]. intros e' He Hc.
  destruct (Hi e') as [_ H3]. by destruct H3 as [| []].
Qed.

(** ** Arguments *)

(** A position of the syntax that takes the rest of the line, and one whose word is an argument. *)
Definition takes_rest (ts : list string) : bool := match ts with [d] => CMD_VARARG d | _ => false end.
Definition passes (ts : list string) : bool := match ts with [d] => CMD_VARARG d || CMD_VARIABLE d || CMD_OPTION d | _ => true end.
Definition argument (sv : list (list string)) (k : nat) : bool :=
  existsb takes_rest (take k sv) || match sv !! k with Some ts => passes ts | None => false end.
Definition arguments (sv : list (list string)) (vline : list string) : list string :=
  omap id (imap (fun k w => if argument sv k then Some w else None) vline).

Lemma arguments_cons ts sv w r :
  arguments (ts :: sv) (w :: r) = (if passes ts then [w] else []) ++ (if takes_rest ts then r else arguments sv r).
Proof.
  unfold arguments. cbn [imap omap list_omap]. unfold argument at 1. cbn [take existsb orb lookup list_lookup].
  assert (omap id (imap ((fun k w => if argument (ts :: sv) k then Some w else None) ∘ S) r) = if takes_rest ts then r else omap id (imap (fun k w => if argument sv k then Some w else None) r)) as ->.
  { unfold argument. cbn [compose]. destruct (takes_rest ts) eqn:E.
    - rewrite (imap_ext _ (const Some)) by (intros k x _; cbn; by rewrite E). rewrite (imap_const Some). by induction r as [|x r IH]; cbn; [| f_equal].
    - f_equal. apply imap_ext. intros k x _. cbn. by rewrite E. }
  by destruct (passes ts).
Qed.

Lemma collect_args_spec vline sv flag argc : 0 <= argc < CMD_ARGC_MAX ->
  flag = true \/ (List.length vline <= List.length sv)%nat \/ existsb takes_rest sv = true ->
  let a := if flag then vline else arguments sv vline in
  collect_args vline sv flag argc = Ok (if argc + Z.of_nat (List.length a) <? CMD_ARGC_MAX then inr a else inl CMD_ERR_EXEED_ARGC_MAX).
Proof.
  revert sv flag argc. induction vline as [|w r IH]; intros sv flag argc Ha Hc; cbn [collect_args].
  { destruct flag; cbn; rewrite Z.add_0_r; by destruct (Z.ltb_spec argc CMD_ARGC_MAX); [| lia]. }
  assert (forall fl a, fl = true \/ (List.length r <= List.length (tail sv))%nat \/ existsb takes_rest (tail sv) = true -> a = (if fl then r else arguments (tail sv) r) ->
    (if argc + 1 >=? CMD_ARGC_MAX then Ok (inl CMD_ERR_EXEED_ARGC_MAX)
     else x ← collect_args r (tail sv) fl (argc + 1); Ok (match x with inr a => inr (w :: a) | inl e => inl e end)) =
    Ok (if argc + Z.of_nat (S (List.length a)) <? CMD_ARGC_MAX then inr (w :: a) else inl CMD_ERR_EXEED_ARGC_MAX)) as Htake.
  { intros fl a Hf ->. set (a := if fl then r else _). destruct (Z.geb_spec (argc + 1) CMD_ARGC_MAX).
    - destruct (Z.ltb_spec (argc + Z.of_nat (S (List.length a))) CMD_ARGC_MAX); [lia | done].
    - rewrite (IH (tail sv) fl (argc + 1)) by (done || lia). fold a. rewrite bind_ret. replace (argc + 1 + Z.of_nat (List.length a)) with (argc + Z.of_nat (S (List.length a))) by lia.
      by destruct (_ <? _). }
  destruct flag; [by apply Htake; [left |] |]. destruct Hc as [Hc | Hc]; [done |]. destruct sv as [|ts sv]; [cbn in Hc; destruct Hc; [lia | done] |].
  cbn [List.length existsb tail] in *. rewrite arguments_cons.
  destruct ts as [|d [|d' ts]]; cbn [takes_rest passes orb] in *; [apply (Htake false); [right; destruct Hc; [left; lia | by right] | done] | |
    apply (Htake false); [right; destruct Hc; [left; lia | by right] | done]].
  destruct (CMD_VARARG d); [by apply (Htake true); [left |] |]. cbn [orb] in *. assert ((List.length r <= List.length sv)%nat \/ existsb takes_rest sv = true) as Hc' by (destruct Hc; [left; lia | by right]).
  destruct (CMD_VARIABLE d || CMD_OPTION d); [apply (Htake false); [by right | done] |]. destruct (Z.geb_spec argc CMD_ARGC_MAX); [lia |]. apply IH; [done | by right].
Qed.
End Reference.
