(* ===== verification/CommandConfig.v ===== *)
(** * lib/command.c: reading lines and configuration files

    The splitting of a line into words, of a file into lines, and the loop of [config_from_file]: it ends for every text when the commands themselves return and
    keep the terminal at [CONFIG_NODE] or below it, and it reads the lines of a text one after the other.

    lib/command.c: lines that select the same command.  Tools to find the command that a line with unknown words selects.  A word that is a keyword of some element leaves only the elements with that keyword
    ([keyword_step]), so that the commands of other components drop out; words that fit the same alternatives in the same way select the same
    elements ([ref_words_alike]), so that it is enough to run the selection on one line of a form. *)

From Stdlib Require Import Ascii.
From S2P Require Import Prelude CString Prefix Inet Command CommandProofs.
Local Open Scope Z_scope.

(** ** Words *)

Fixpoint no_spaces (s : string) : bool := match s with EmptyString => true | String c s => negb (isspace c) && no_spaces s end.
Definition is_word (s : string) : bool := no_spaces s && negb (is_end s).
Definition is_comment (s : string) : bool := starts_with "!" s || starts_with "#" s.

(** A line as the configuration is written: words, one space between them, a newline. *)
Definition newline : string := String (ascii_of_N 10) EmptyString.
Fixpoint line_of (ws : list string) : string :=
  match ws with [] => newline | [w] => sapp w newline | w :: r => sapp w (String " " (line_of r)) end.

Lemma skip_spaces_len s : (String.length (skip_spaces s) <= String.length s)%nat.
Proof. induction s as [|c s IH]; cbn; [done |]. destruct (isspace c); cbn; lia. Qed.

Lemma skip_spaces_start s : match skip_spaces s with String c _ => isspace c = false | EmptyString => True end.
Proof. induction s as [|c s IH]; cbn; [done |]. by destruct (isspace c) eqn:E. Qed.

Lemma span_word_len stop s : (String.length (span_word stop s).2 <= String.length s)%nat.
Proof. induction s as [|c s IH]; cbn; [done |]. destruct (stop c); [done |]. destruct (span_word stop s). cbn in *. lia. Qed.

Lemma strvec_loop_total f cp : (String.length cp < f)%nat -> (match cp with String c _ => isspace c = false | EmptyString => True end) ->
  exists v, strvec_loop f cp = Ok v.
Proof.
  revert cp. induction f as [|f IH]; intros cp Hl Hc; [lia |]. cbn [strvec_loop].
  assert (cp <> EmptyString -> (String.length (span_word isspace cp).2 < String.length cp)%nat) as Hs.
  { destruct cp as [|c cp]; [done |]. intros _. cbn. rewrite Hc. pose proof (span_word_len isspace cp). destruct (span_word isspace cp). cbn in *. lia. }
  destruct (span_word isspace cp) as [tok r] eqn:E. cbn in Hs. pose proof (skip_spaces_len r). pose proof (skip_spaces_start r).
  destruct (skip_spaces r) as [|d r'] eqn:Er; [by eexists |].
  destruct cp as [|c cp]; [injection E as <- <-; done |]. destruct (IH (String d r')) as [v ->]; [specialize (Hs (ltac:(done))); lia | done |]. by eexists.
Qed.

Lemma cmd_make_strvec_total s : exists v, cmd_make_strvec s = Ok v.
Proof.
  unfold cmd_make_strvec. pose proof (skip_spaces_len s). pose proof (skip_spaces_start s). destruct (skip_spaces s) as [|c r]; [by eexists |].
  destruct (Ascii.eqb c "!" || Ascii.eqb c "#"); [by eexists |]. destruct (strvec_loop_total (S (String.length s)) (String c r)) as [v ->]; [cbn in *; lia | done |]. by eexists.
Qed.

Lemma span_word_app w c r : no_spaces w = true -> isspace c = true -> span_word isspace (sapp w (String c r)) = (w, String c r).
Proof.
  intros Hw Hc. induction w as [|d w IH]; cbn in *; [by rewrite Hc |]. apply andb_true_iff in Hw as [Hd Hw]. apply negb_true_iff in Hd. rewrite Hd. by rewrite IH.
Qed.

Lemma skip_spaces_word w r : is_word w = true -> skip_spaces (sapp w r) = sapp w r.
Proof. unfold is_word. destruct w as [|c w]; [done |]. cbn. intros Hw. destruct (isspace c); [done | reflexivity]. Qed.

Lemma line_of_word w ws : line_of (w :: ws) = sapp w (match ws with [] => newline | _ => String " " (line_of ws) end).
Proof. by destruct ws. Qed.

Lemma skip_spaces_line w ws : is_word w = true -> skip_spaces (line_of (w :: ws)) = line_of (w :: ws).
Proof. intros Hw. rewrite line_of_word. by apply skip_spaces_word. Qed.

Lemma strvec_loop_line ws w f : Forall (fun w => is_word w = true) (w :: ws) -> (List.length ws < f)%nat -> strvec_loop f (line_of (w :: ws)) = Ok (w :: ws).
Proof.
  revert w f. induction ws as [|w' ws IH]; intros w f Hw Hf; (destruct f as [|f]; [lia |]); inversion_clear Hw as [| ? ? Hw1 Hw2]; cbn [strvec_loop];
    rewrite line_of_word; pose proof Hw1 as [Hn _]%andb_true_iff.
  - unfold newline. by rewrite span_word_app.
  - rewrite span_word_app by done. change (skip_spaces (String " " (line_of (w' :: ws)))) with (skip_spaces (line_of (w' :: ws))).
    inversion Hw2 as [| ? ? Hw3 _]; subst. rewrite skip_spaces_line by done.
    assert (exists c r, line_of (w' :: ws) = String c r) as (c & r & E) by (rewrite line_of_word; destruct w'; [done |]; by eexists _, _).
    assert (strvec_loop f (line_of (w' :: ws)) = Ok (w' :: ws)) as IH' by (apply IH; [done | cbn in Hf; lia]). rewrite E in *. by rewrite IH'.
Qed.

Lemma line_of_len ws : (List.length ws <= String.length (line_of ws))%nat.
Proof.
  induction ws as [|w ws IH]; [cbn; lia |]. rewrite line_of_word, length_sapp.
  destruct ws; cbn in *; lia.
Qed.

(** A written line is read as its words. *)
Lemma cmd_make_strvec_line w ws : Forall (fun w => is_word w = true) (w :: ws) -> is_comment w = false -> cmd_make_strvec (line_of (w :: ws)) = Ok (Some (w :: ws)).
Proof.
  intros Hw Hc. unfold cmd_make_strvec. inversion Hw as [| ? ? Hw1 _]; subst. rewrite skip_spaces_line by done.
  pose proof (line_of_len (w :: ws)) as Hl. rewrite (line_of_word w ws) at 1. destruct w as [|c w]; [done |]. cbn [sapp].
  unfold is_comment in Hc. cbn in Hc. rewrite Hc. change (String c (sapp w ?r)) with (sapp (String c w) r). rewrite <- line_of_word.
  rewrite strvec_loop_line; [done | done | cbn in *; lia].
Qed.

(** ** Lines *)

Fixpoint no_newline (s : string) : bool := match s with EmptyString => true | String c s => negb (code c =? 10) && no_newline s end.

Lemma no_spaces_newline s : no_spaces s = true -> no_newline s = true.
Proof.
  induction s as [|c s IH]; cbn; [done |]. intros [Hc Hs]%andb_true_iff. rewrite (IH Hs), andb_true_r. unfold isspace in Hc.
  apply negb_true_iff, orb_false_iff in Hc as [_ Hc]. apply negb_true_iff. lia.
Qed.

Lemma take_line_app a n r : no_newline a = true -> take_line (String.length a + n) (sapp a r) = (sapp a (take_line n r).1, (take_line n r).2).
Proof.
  induction a as [|c a IH]; cbn; [by destruct (take_line n r) |]. intros [Hc Ha]%andb_true_iff. apply negb_true_iff in Hc. by rewrite Hc, IH.
Qed.

Lemma take_line_line ws n r : Forall (fun w => is_word w = true) ws -> (String.length (line_of ws) <= n)%nat ->
  take_line n (sapp (line_of ws) r) = (line_of ws, r).
Proof.
  revert n. induction ws as [|w ws IH]; intros n Hw Hn.
  { destruct n as [|n]; [cbn in Hn; lia | done]. }
  inversion_clear Hw as [| ? ? Hw1 Hw2]. rewrite line_of_word, length_sapp in Hn. rewrite line_of_word, sapp_assoc.
  replace n with (String.length w + (n - String.length w))%nat by lia. rewrite take_line_app by (apply no_spaces_newline; by apply andb_true_iff in Hw1 as [? _]).
  destruct (n - String.length w)%nat as [|k] eqn:Ek; [destruct ws; cbn in Hn; lia |]. destruct ws as [|w' ws]; [done |].
  cbn [sapp take_line]. change (code " " =? 10) with false. cbn match. rewrite IH by (done || cbn [String.length] in Hn; lia). done.
Qed.

Lemma take_line_rest n s : (0 < n)%nat -> s <> EmptyString -> (String.length (take_line n s).2 < String.length s)%nat.
Proof.
  intros Hn Hs. assert (forall n s, (String.length (take_line n s).2 <= String.length s)%nat) as Hle.
  { clear. induction n as [|n IH]; intros [|c s]; cbn; try lia. destruct (code c =? 10); cbn; [lia |]. specialize (IH s). destruct (take_line n s). cbn in *. lia. }
  destruct n as [|n]; [lia |]. destruct s as [|c s]; [done |]. cbn. destruct (code c =? 10); cbn; [lia |]. specialize (Hle n s). destruct (take_line n s). cbn in *. lia.
Qed.

Lemma fgets_rest s l r : fgets s = Some (l, r) -> (String.length r < String.length s)%nat.
Proof.
  unfold fgets. assert (0 < Z.to_nat (VTY_BUFSIZ - 1))%nat as Hp by (unfold VTY_BUFSIZ; lia). revert Hp. generalize (Z.to_nat (VTY_BUFSIZ - 1)). intros n Hn E.
  assert (s <> EmptyString) as Hs by (by destruct s). pose proof (take_line_rest n s Hn Hs) as Hr. destruct s as [|c s]; [done |].
  destruct (take_line n (String c s)) as [l' r']. by injection E as <- <-.
Qed.

Lemma fgets_line w ws r : Forall (fun w => is_word w = true) (w :: ws) -> Z.of_nat (String.length (line_of (w :: ws))) < VTY_BUFSIZ ->
  fgets (sapp (line_of (w :: ws)) r) = Some (line_of (w :: ws), r).
Proof.
  intros Hw Hl. assert (sapp (line_of (w :: ws)) r <> EmptyString) as Hn.
  { rewrite line_of_word. inversion Hw as [| ? ? Hw1 _]; subst. by destruct w. }
  assert (fgets (sapp (line_of (w :: ws)) r) = Some (take_line (Z.to_nat (VTY_BUFSIZ - 1)) (sapp (line_of (w :: ws)) r))) as -> by (unfold fgets; by destruct (sapp _ r)).
  rewrite take_line_line; [done | done | unfold VTY_BUFSIZ in *; lia].
Qed.

(** ** Configuration files *)

(** Every alternative [.LINE] stands alone at its position. *)
Definition rest_alone {F} (e : cmd_element F) : bool := forallb (fun ts => implb (existsb CMD_VARARG ts) (takes_rest ts)) (strvec e).

Section Files.
Context `{InetText} {F St : Type} (run : F -> list string -> St -> res (St * Z)) (node : St -> Z) (set_node : Z -> St -> St)
  (cmd_node_vector : Z -> list (option (cmd_element F))).
Notation strict := (cmd_execute_command_strict run node cmd_node_vector).
Notation from_file := (config_from_file run node set_node cmd_node_vector).

(** The selected element has a position for every word, or one that takes the rest. *)
Lemma selected_length `{WordTest test} vline (v : list (option (cmd_element F))) es i l e : Forall (fun e => rest_alone e = true) (somes v) ->
  ref_words test vline (somes v) 0 no_match = Some (es, i, l) -> ref_select es i l = Some e ->
  (List.length vline <= List.length (strvec e))%nat \/ existsb takes_rest (strvec e) = true.
Proof.
  intros Hv Er Es. apply ref_select_Some in Es as (He & Hc & Hu). destruct (ref_words_sound vline _ _ _ _ _ _ Er) as [Hin Hend]; [done |].
  destruct Hend as [[_ Hi] | (-> & Hi & e' & He' & t & Ht & Hr)].
  - left. destruct (decide (List.length vline = 0%nat)) as [-> | Hn]; [lia |]. destruct (Hin e He) as [_ Hfit].
    destruct (lookup_lt_is_Some_2 vline (List.length vline - 1)) as [w Hw]; [lia |]. destruct (Hfit _ w Hw) as (t & Ht & _); [lia |].
    unfold alternatives in Ht. destruct (strvec e !! _) eqn:E in Ht; [| done]. apply lookup_lt_Some in E. cbn in E. lia.
  - right. destruct (Hin e' He') as [Hv' _]. rewrite (Hu e' He' eq_refl) in *. rewrite List.Forall_forall in Hv. specialize (Hv e Hv').
    unfold alternatives in Ht. destruct (strvec e !! i) as [ts|] eqn:E; [| done]. apply list_elem_of_lookup_2, list_elem_of_In in E.
    unfold rest_alone in Hv. rewrite forallb_forall in Hv. specialize (Hv ts E). apply existsb_exists. exists ts. split; [done |].
    assert (existsb CMD_VARARG ts = true) as Hex by (apply existsb_exists; by exists t). by rewrite Hex in Hv.
Qed.

(** The search for a command returns for every line. *)
Lemma find_command_total `{WordTest test} vline (v : list (option (cmd_element F))) :
  Forall (fun e => rest_alone e = true) (somes v) -> exists r, find_command (filter_of test) vline v = Ok r.
Proof.
  intros Hv. unfold find_command. destruct (match_words_spec test vline v 0 no_match) as (x & -> & Hx). rewrite bind_ret.
  destruct x as [err | [[v' i] l]]; [by eexists |]. destruct (ref_words test vline (somes v) 0 no_match) as [[[es i'] l']|] eqn:Er; [| done].
  destruct Hx as (<- & -> & ->). destruct (select_element v' i' l') as [err | e] eqn:Es; [by eexists |]. apply select_iff in Es.
  pose proof (selected_length vline v _ _ _ e Hv Er Es) as Hlen.
  rewrite collect_args_spec by (unfold CMD_ARGC_MAX; lia || by right). rewrite bind_ret. destruct (_ <? _); by eexists.
Qed.

(** ** Reading a written text *)

Definition readable (ws : list string) : Prop :=
  Forall (fun w => is_word w = true) ws /\ (match ws with w :: _ => is_comment w = false | [] => False end) /\ Z.of_nat (String.length (line_of ws)) < VTY_BUFSIZ.

Lemma from_file_line fuel ws s fp s' r : readable ws -> strict ws s = Ok (s', r) -> line_done r = true ->
  from_file (S fuel) s (sapp (line_of ws) fp) = from_file fuel s' fp.
Proof.
  intros (Hw & Hc & Hl) Hs Hr. destruct ws as [|w ws]; [done |]. cbn [config_from_file]. rewrite fgets_line, cmd_make_strvec_line, bind_ret, Hs, bind_ret by done.
  cbn [retry_parents]. rewrite Hr. cbn [negb andb]. by rewrite bind_ret, Hr.
Qed.

(** The text of several lines, and the commands they run. *)
Fixpoint text_of (ls : list (list string)) : string := match ls with [] => EmptyString | l :: ls => sapp (line_of l) (text_of ls) end.
Inductive run_lines : St -> list (list string) -> St -> Prop :=
| run_none s : run_lines s [] s
| run_line s l s1 r ls s' : strict l s = Ok (s1, r) -> line_done r = true -> run_lines s1 ls s' -> run_lines s (l :: ls) s'.

Lemma from_file_lines ls s s' fuel : Forall readable ls -> run_lines s ls s' -> (List.length ls <= fuel)%nat -> from_file fuel s (text_of ls) = Ok (s', 0).
Proof.
  intros Hl Hr. revert fuel. induction Hr as [s | s l s1 r ls s' E Hd Hr IH]; intros fuel Hf; [by destruct fuel |]. inversion_clear Hl as [| ? ? Hl1 Hl2].
  destruct fuel as [|fuel]; [cbn in Hf; lia |]. cbn [text_of]. rewrite (from_file_line fuel l s _ s1 r Hl1 E Hd). apply IH; [done | cbn in Hf; lia].
Qed.

(** How far a node is from [CONFIG_NODE]. *)
Definition depth (n : Z) : nat :=
  if n =? CONFIG_NODE then 0 else if ((BGP_VPNV4_NODE <=? n) && (n <=? BGP_IPV6M_NODE)) || (n =? KEYCHAIN_KEY_NODE) then 2 else 1.

Lemma depth_max n : (depth n <= 2)%nat.
Proof. unfold depth. repeat case_match; lia. Qed.

Lemma node_parent_depth n : n > CONFIG_NODE -> exists m, node_parent n = Ok m /\ (depth m < depth n)%nat /\ CONFIG_NODE <= m.
Proof.
  intros Hn. unfold node_parent, c_assert. destruct (Z.gtb_spec n CONFIG_NODE); [| lia]. rewrite bind_ret. eexists. split; [reflexivity |]. unfold depth.
  unfold CONFIG_NODE, KEYCHAIN_NODE, KEYCHAIN_KEY_NODE, BGP_NODE, BGP_VPNV4_NODE, BGP_IPV6M_NODE in *.
  destruct (Z.leb_spec 18 n), (Z.leb_spec n 22), (Z.eqb_spec n 10), (Z.eqb_spec n 5); cbn; lia.
Qed.

(** What the reader relies on: the functions of commands return, one that fails leaves the node, and the elements are well formed. *)
Class CommandsReturn : Prop := {
  run_returns f a s : exists s' r, run f a s = Ok (s', r) /\ (line_done r = false -> node s' = node s);
  node_set n s : node (set_node n s) = n;
  elements_formed n : Forall (fun e => rest_alone e = true) (somes (cmd_node_vector n))
}.
(** No command leaves the configuration for [ENABLE_NODE], as [end] does. *)
Definition stays_configuring : Prop := forall f a s s' r, run f a s = Ok (s', r) -> CONFIG_NODE <= node s -> CONFIG_NODE <= node s'.

Context `{CommandsReturn}.

Lemma strict_returns vline s : exists s' r, strict vline s = Ok (s', r) /\ (line_done r = false -> node s' = node s) /\
  (stays_configuring -> CONFIG_NODE <= node s -> CONFIG_NODE <= node s').
Proof.
  unfold cmd_execute_command_strict, execute. destruct (find_command_total (test := string_match) vline (cmd_node_vector (node s))) as [r Hr]; [apply elements_formed |].
  change (filter_of string_match) with (@cmd_filter_by_string _ F) in Hr. rewrite Hr, bind_ret. destruct r as [err | [e argv]]; [by eexists _, _ |].
  destruct (negb (daemon e =? 0)); [by eexists _, _ |]. destruct (run_returns (func e) argv s) as (s' & r & E & Hn). exists s', r. split; [done |]. split; [done |].
  intros Hs. by eapply Hs.
Qed.

(** The result is an end of the reading, or the assertion that the node has a parent. *)
Definition ends (Q : Prop) (s : St) (x : res (St * Z)) : Prop :=
  (x = Abort \/ exists y, x = Ok y) /\ (Q -> CONFIG_NODE <= node s -> exists s' r, x = Ok (s', r) /\ CONFIG_NODE <= node s').

Lemma ends_Ok Q s ret : ends Q s (Ok (s, ret)).
Proof. split; [right; by eexists | intros _ Hc; by eexists _, _]. Qed.

Lemma retry_ends n vline s ret : line_done ret = true \/ (depth (node s) <= n)%nat ->
  ends stays_configuring s (retry_parents run node set_node cmd_node_vector n vline s ret).
Proof.
  revert s ret. induction n as [|n IH]; intros s ret Hd; cbn [retry_parents]; destruct (line_done ret), (Z.eqb_spec (node s) CONFIG_NODE) as [E | E]; cbn [negb andb];
    try apply ends_Ok; (destruct Hd as [| Hd]; [done |]).
  { exfalso. unfold depth in Hd. rewrite (proj2 (Z.eqb_neq _ _) E) in Hd. destruct (_ || _); lia. }
  destruct (decide (node s > CONFIG_NODE)) as [Hg | Hg].
  2: { unfold node_parent, c_assert. destruct (Z.gtb_spec (node s) CONFIG_NODE); [lia |]. split; [by left | lia]. }
  destruct (node_parent_depth (node s) Hg) as (m & -> & Hm & Hc). rewrite bind_ret.
  destruct (strict_returns vline (set_node m s)) as (s1 & r & -> & Hk & Hs). rewrite bind_ret. rewrite node_set in *.
  destruct (IH s1 r) as [IH1 IH2]; [destruct (line_done r); [by left | right; rewrite (Hk eq_refl); lia] |]. split; [done |].
  intros Hq _. apply IH2; [done |]. by apply Hs.
Qed.

Lemma from_file_ends fuel s fp : (String.length fp <= fuel)%nat -> ends stays_configuring s (from_file fuel s fp).
Proof.
  revert s fp. induction fuel as [|fuel IH]; intros s fp Hl; cbn [config_from_file]; destruct (fgets fp) as [[buf fp']|] eqn:Ef; try apply ends_Ok;
    apply fgets_rest in Ef; [lia |].
  destruct (cmd_make_strvec_total buf) as [[vline|] ->]; rewrite bind_ret; [| apply IH; lia].
  destruct (strict_returns vline s) as (s1 & r & -> & _ & Hs). rewrite bind_ret.
  destruct (retry_ends 3 vline s1 r) as [[-> | [[s2 r2] Er]] Hr]; [right; pose proof (depth_max (node s1)); lia | |].
  - split; [by left |]. intros Hq Hn. destruct Hr as (? & ? & ? & ?); [done | by apply Hs | done].
  - rewrite Er, bind_ret in *. assert (stays_configuring -> CONFIG_NODE <= node s -> CONFIG_NODE <= node s2) as Hs2.
    { intros Hq Hn. destruct Hr as (? & ? & [= <- <-] & ?); [done | by apply Hs | done]. }
    destruct (line_done r2); cbn [negb].
    + destruct (IH s2 fp') as [H1 H2]; [lia |]. split; [done |]. intros Hq Hn. apply H2; [done |]. by apply Hs2.
    + split; [right; by eexists |]. intros Hq Hn. exists s2, r2. split; [done |]. by apply Hs2.
Qed.
End Files.

(** ** lib/command.c: lines that select the same command *)

Section Alike.
Context `{InetText} {F : Type}.
Notation element := (cmd_element F).

Lemma filter_ext_In {A} (p q : A -> bool) l : (forall x, In x l -> p x = q x) -> List.filter p l = List.filter q l.
Proof. induction l as [|x l IH]; intros Hx; cbn; [done |]. rewrite Hx by (by left). rewrite IH; [done |]. intros y Hy. apply Hx. by right. Qed.

Lemma filter_filter {A} (p q : A -> bool) l : List.filter p (List.filter q l) = List.filter (fun x => q x && p x) l.
Proof. induction l as [|x l IH]; cbn; [done |]. destruct (q x); cbn; [destruct (p x); by rewrite IH | done]. Qed.

Lemma existsb_ext_In {A} (p q : A -> bool) l : (forall x, In x l -> p x = q x) -> existsb p l = existsb q l.
Proof. induction l as [|x l IH]; intros Hx; cbn; [done |]. rewrite Hx by (by left). rewrite IH; [done |]. intros y Hy. apply Hx. by right. Qed.

Lemma in_position t index (es : list element) e : In e es -> In t (alternatives index e) -> In t (position index es).
Proof. intros He Ht. apply in_flat_map. by exists e. Qed.

Lemma position_sub t index (es fs : list element) : (forall e, In e es -> In e fs) -> In t (position index es) -> In t (position index fs).
Proof. intros Hs (e & He & Ht)%in_flat_map. apply in_flat_map. eauto. Qed.

(** ** Words that fit in the same way *)

Definition alike (test : string -> string -> match_type) (ts : list string) (w w' : string) : Prop :=
  forall t, In t ts -> test w t = test w' t /\ forall t0, In t0 ts -> ambiguous_test (test w' t0) w t = ambiguous_test (test w' t0) w' t.

Lemma alike_refl test ts w : alike test ts w w.
Proof. done. Qed.
Lemma alike_incl test ts us w w' : (forall t, In t ts -> In t us) -> alike test us w w' -> alike test ts w w'.
Proof. intros Hs Ha t Ht. destruct (Ha t (Hs t Ht)) as [H1 H2]. split; [done |]. intros t0 Ht0. by apply H2, Hs. Qed.

Lemma clean_ext a b ts : (forall t, In t ts -> a t = b t) -> clean a ts = clean b ts.
Proof.
  intros Hx. apply eq_true_iff_eq. rewrite !clean_spec, !List.Forall_forall. split; intros [H1 H2]; split.
  - intros t Ht. rewrite <- Hx by done. by apply H1.
  - intros t t' Ht Ht'. rewrite <- !Hx by done. by apply H2.
  - intros t Ht. rewrite Hx by done. by apply H1.
  - intros t t' Ht Ht'. rewrite !Hx by done. by apply H2.
Qed.

Lemma ref_words_cons test w r (es : list element) index last :
  ref_words test (w :: r) es index last =
  let type := best (test w) index es in
  let es1 := reaches (fun t => is_match (test w t)) index es in
  let amb := ambiguous_test type w in
  if decide (type = vararg_match) then Some (es1, index, vararg_match)
  else if clean amb (position index es1) then ref_words test r (reaches (fun t => amb_counts (amb t)) index es1) (S index) type else None.
Proof. cbn [ref_words]. by destruct (best (test w) index es). Qed.

Lemma ref_words_alike test vline vline' (es : list element) index last : List.length vline = List.length vline' ->
  (forall k w w', vline !! k = Some w -> vline' !! k = Some w' -> alike test (position (index + k) es) w w') ->
  ref_words test vline es index last = ref_words test vline' es index last.
Proof.
  revert vline' es index last. induction vline as [|w r IH]; intros [|w' r'] es index last Hl Ha; [done | done | done |]. rewrite !ref_words_cons. cbv zeta.
  pose proof (Ha 0%nat w w' eq_refl eq_refl) as Hw. rewrite Nat.add_0_r in Hw.
  assert (best (test w) index es = best (test w') index es) as Eb by (unfold best; f_equal; apply map_ext_in; intros t Ht; by apply Hw).
  assert (reaches (fun t => is_match (test w t)) index es = reaches (fun t => is_match (test w' t)) index es) as Er.
  { apply filter_ext_In. intros e He. apply existsb_ext_In. intros t Ht. f_equal. apply Hw. by eapply in_position. }
  rewrite Eb, Er. set (type := best (test w') index es) in *. set (es1 := reaches (fun t => is_match (test w' t)) index es) in *.
  assert (forall e, In e es1 -> In e es) as Hs1 by (intros e He; by apply reaches_in in He as [? _]).
  assert (forall t, In t (position index es) -> ambiguous_test type w t = ambiguous_test type w' t) as Hamb.
  { intros t Ht. destruct (decide (type = no_match)) as [-> | Hn]; [done |]. apply strongest_in in Hn. apply in_map_iff in Hn as (t0 & E0 & Ht0). unfold type, best.
    rewrite <- E0. by apply Hw. }
  assert (clean (ambiguous_test type w) (position index es1) = clean (ambiguous_test type w') (position index es1)) as Ec.
  { apply clean_ext. intros t Ht. apply Hamb. eapply position_sub; [exact Hs1 | done]. }
  assert (reaches (fun t => amb_counts (ambiguous_test type w t)) index es1 = reaches (fun t => amb_counts (ambiguous_test type w' t)) index es1) as Er2.
  { apply filter_ext_In. intros e He. apply existsb_ext_In. intros t Ht. f_equal. apply Hamb. eapply in_position; [by apply Hs1 | done]. }
  rewrite Ec, Er2.
  assert (forall es2, (forall e, In e es2 -> In e es) -> ref_words test r es2 (S index) type = ref_words test r' es2 (S index) type) as Hr.
  { intros es2 H2. apply IH; [by injection Hl |]. intros k x x' Hx Hx'. eapply alike_incl; [| apply (Ha (S k) x x' Hx Hx')].
    intros t Ht. rewrite Nat.add_succ_r. by eapply position_sub. }
  rewrite Hr; [done |]. intros e He. apply Hs1. by apply reaches_in in He as [? _].
Qed.

(** The element that a line selects. *)
Definition selected (test : string -> string -> match_type) (l : list string) (es : list element) : option element :=
  '(es, i, ty) ← ref_words test l es 0 no_match; ref_select es i ty.

Lemma ref_find_alike test l l' (es : list element) e argv : List.length l = List.length l' ->
  (forall k w w', l !! k = Some w -> l' !! k = Some w' -> alike test (position (0 + k) es) w w') ->
  selected test l' es = Some e -> ref_args l e = Some argv -> ref_find test l es = Some (e, argv).
Proof.
  intros Hl Hw. unfold selected, ref_find. rewrite (ref_words_alike test l l' es 0 no_match Hl Hw).
  destruct (ref_words test l' es 0 no_match) as [[[es' i] ty]|]; [| done]. cbn [mbind option_bind]. intros -> Ha. cbn [mbind option_bind]. by rewrite Ha.
Qed.

(** ** One word after the other *)

Lemma ref_words_app test l1 l2 (es : list element) index last es' i l : ref_words test l1 es index last = Some (es', i, l) -> l <> vararg_match ->
  ref_words test (l1 ++ l2) es index last = ref_words test l2 es' i l.
Proof.
  revert es index last. induction l1 as [|w r IH]; intros es index last Hr Hl; [by injection Hr as -> -> -> |]. cbn [app]. pose proof Hr as Hr'.
  apply ref_words_step in Hr as [[E Ho] | [E Hr]]; [congruence |]. rewrite <- (IH _ _ _ Hr Hl). cbn [ref_words] in *.
  destruct (best (test w) index es); try done; destruct (clean _ _); done.
Qed.

(** ** Keywords *)

Definition has_text (w : string) (index : nat) (e : element) : bool := existsb (String.eqb w) (alternatives index e).

Lemma ambiguous_exact w t : ambiguous_test exact_match w t = Amb_none \/ ambiguous_test exact_match w t = Amb_match /\ w = t.
Proof.
  cbn. destruct (_ && _) eqn:E; cbn; [right | by left]. split; [done |]. apply andb_true_iff in E as [_ E]. by apply strcmp_0, Z.eqb_eq.
Qed.

Lemma keyword_step w r (es : list element) index last : string_match w w = exact_match -> existsb (has_text w index) es = true ->
  ref_words string_match (w :: r) es index last = ref_words string_match r (List.filter (has_text w index) es) (S index) exact_match.
Proof.
  intros Hw He. cbn [ref_words].
  assert (In w (position index es)) as Hin.
  { apply existsb_exists in He as (e & He & Ht). apply existsb_exists in Ht as (t & Ht & ->%String.eqb_eq). by eapply in_position. }
  assert (best (string_match w) index es = exact_match) as ->.
  { apply match_rank_inj. assert (match_rank exact_match <= match_rank (best (string_match w) index es)) as Hle by (rewrite <- Hw; by apply strongest_ge, in_map).
    destruct (best _ _ _); cbn in *; lia. }
  assert (forall ts, clean (ambiguous_test exact_match w) ts = true) as ->.
  { intros ts. apply clean_spec. rewrite List.Forall_forall. split; [intros t _ | intros t t' _ _]; destruct (ambiguous_exact w t) as [E | [E _]]; rewrite E; done. }
  f_equal. unfold reaches. rewrite filter_filter. apply filter_ext_In. intros e _. unfold has_text.
  destruct (existsb (String.eqb w) (alternatives index e)) eqn:E.
  - apply existsb_exists in E as (t & Ht & <-%String.eqb_eq). apply andb_true_iff. split; apply existsb_exists; exists w; (split; [done |]); [by rewrite Hw |].
    by rewrite (test_exact _ _ Hw).
  - apply andb_false_iff. right. apply not_true_iff_false. intros (t & Ht & Hc)%existsb_exists. destruct (ambiguous_exact w t) as [E' | [_ <-]]; [by rewrite E' in Hc |].
    apply not_true_iff_false in E. apply E, existsb_exists. exists w. split; [done |]. apply String.eqb_refl.
Qed.

(** The elements that begin with two keywords decide about lines that do. *)
Definition begins (w0 w1 : string) (e : element) : bool := has_text w0 0 e && has_text w1 1 e.

Lemma existsb_filter {A} (p q : A -> bool) l : existsb p (List.filter q l) = existsb (fun x => q x && p x) l.
Proof. induction l as [|x l IH]; cbn; [done |]. destruct (q x); cbn; by rewrite IH. Qed.

Lemma ref_words_begins w0 w1 r (es : list element) last : string_match w0 w0 = exact_match -> string_match w1 w1 = exact_match -> existsb (begins w0 w1) es = true ->
  ref_words string_match (w0 :: w1 :: r) es 0 last = ref_words string_match r (List.filter (begins w0 w1) es) 2 exact_match.
Proof.
  intros H0 H1 He. rewrite keyword_step; [| done |].
  - rewrite keyword_step, filter_filter; [done | done |]. by rewrite existsb_filter.
  - apply existsb_exists in He as (e & Hi & [Ht _]%andb_true_iff). apply existsb_exists. by exists e.
Qed.

Lemma ref_find_begins w0 w1 r (es : list element) : string_match w0 w0 = exact_match -> string_match w1 w1 = exact_match -> existsb (begins w0 w1) es = true ->
  ref_find string_match (w0 :: w1 :: r) es = ref_find string_match (w0 :: w1 :: r) (List.filter (begins w0 w1) es).
Proof.
  intros H0 H1 He. unfold ref_find. rewrite !ref_words_begins, filter_filter by (try done; rewrite existsb_filter; rewrite <- He; apply existsb_ext_In; intros x _; apply andb_diag).
  rewrite (filter_ext_In (fun x => begins w0 w1 x && begins w0 w1 x) (begins w0 w1)); [done |]. intros e _. apply andb_diag.
Qed.

(** ** Lines that no element fits *)

Lemma ref_words_nil test r index last : exists i l, ref_words test r ([] : list element) index last = Some ([], i, l).
Proof. revert index last. induction r as [|w r IH]; intros index last; [by eexists _, _ |]. rewrite ref_words_cons. apply IH. Qed.

Lemma find_command_none test vline (v : list (option element)) i l : ref_words test vline (somes v) 0 no_match = Some ([], i, l) ->
  find_command (filter_of test) vline v = Ok (inl CMD_ERR_NO_MATCH).
Proof.
  intros Hr. unfold find_command. destruct (match_words_spec test vline v 0 no_match) as (x & -> & Hx). rewrite Hr in Hx. rewrite bind_ret.
  destruct x as [err | [[v' i'] l']]; [done |]. destruct Hx as (Hv & _). unfold select_element. by rewrite Hv.
Qed.

Lemma ref_words_perm_nil test vline (es fs : list element) index last i l : es ≡ₚ fs -> ref_words test vline fs index last = Some ([], i, l) ->
  ref_words test vline es index last = Some ([], i, l).
Proof.
  intros P E. pose proof (ref_words_perm test vline es fs index last P) as Hp. rewrite E in Hp. destruct (ref_words test vline es index last) as [[[es' i'] l']|]; [| done].
  destruct Hp as (Pe & -> & ->). by apply Permutation_sym, Permutation_nil in Pe as ->.
Qed.
End Alike.
