(* ===== verification/CommandClaims.v ===== *)
(** * lib/command.c: claims

    Which command a line runs, that the order of installation does not matter, and that reading a configuration file comes to an end. *)

From Stdlib Require Import Ascii.
From S2P Require Import Prelude CString Prefix Inet Command CommandProofs CommandConfig.
Local Open Scope Z_scope.

Section Claims.
Context `{InetText} {F : Type}.
Notation element := (cmd_element F).
Notation vector := (list (option element)).

(** The two ways to filter, with the test each uses. *)
Inductive a_filter : (string -> vector -> nat -> match_type * vector) -> (string -> string -> match_type) -> Prop :=
| strict_filter : a_filter cmd_filter_by_string string_match
| completion_filter : a_filter cmd_filter_by_completion completion_match.

Lemma a_filter_of filter test : a_filter filter test -> WordTest test /\ forall vline v, find_command filter vline v = find_command (filter_of test) vline v.
Proof. intros []; (split; [exact _ | reflexivity]). Qed.

Lemma in_somes (v : vector) e : In e (somes v) <-> In (Some e) v.
Proof. induction v as [|[x|] v IH]; cbn; [done | rewrite IH; naive_solver | rewrite IH; naive_solver]. Qed.

(** The first [n] words fit the positions of the element, and the line is complete: it has all the words that the element needs, or [.LINE] takes the rest. *)
Definition line_fits (test : string -> string -> match_type) (e : element) (vline : list string) : Prop :=
  exists n, (forall k w, (k < n)%nat -> vline !! k = Some w -> word_fits test e k w) /\
    ((n = List.length vline /\ cmdsize e <= Z.of_nat n) \/ ((n < List.length vline)%nat /\ vararg_at e n)).
(** Every word of the line is a keyword of the element. *)
Definition line_is (test : string -> string -> match_type) (e : element) (vline : list string) : Prop :=
  (forall k w, vline !! k = Some w -> exists t, In t (alternatives k e) /\ test w t = exact_match) /\ cmdsize e <= Z.of_nat (List.length vline).

Lemma selection filter test vline (v : vector) e argv : a_filter filter test -> Forall (fun e => rest_alone e = true) (somes v) ->
  find_command filter vline v = Ok (inr (e, argv)) ->
  In (Some e) v /\ line_fits test e vline /\ argv = arguments (strvec e) vline /\ Z.of_nat (List.length argv) < CMD_ARGC_MAX /\
  forall e', In (Some e') v -> line_is test e' vline -> e' = e.
Proof.
  intros Hf Hv. destruct (a_filter_of filter test Hf) as [Ht Heq]. rewrite Heq. intros Hr. apply find_command_iff in Hr. unfold ref_find in Hr.
  destruct (ref_words test vline (somes v) 0 no_match) as [[[es i] l]|] eqn:Er; [| done]. cbn [mbind option_bind] in Hr. destruct (ref_select es i l) as [e0|] eqn:Es; [| done].
  cbn [mbind option_bind] in Hr. destruct (ref_args vline e0) as [a|] eqn:Ea; [| done]. injection Hr as -> ->.
  pose proof (ref_select_Some es i l e Es) as (He & Hc & Hu). destruct (ref_words_sound vline _ _ _ _ _ _ Er) as [Hin Hend]; [done |].
  destruct (Hin e He) as [Hsv Hfit]. assert (e ∈ somes v) as Hel by by apply list_elem_of_In. split; [by apply in_somes |]. split.
  - exists i. split; [intros k w Hk Hw; by apply (Hfit k w Hw) |]. destruct Hend as [[Hl Hi] | (-> & Hi & e' & He' & Hva)]; [left | right].
    + split; [done |]. unfold complete in Hc. destruct l; try lia. done.
    + split; [lia |]. by rewrite <- (Hu e' He' eq_refl).
  - assert ((List.length vline <= List.length (strvec e))%nat \/ existsb takes_rest (strvec e) = true) as Hlen by (eapply selected_length; eauto).
    unfold ref_args in Ea. rewrite collect_args_spec in Ea by (unfold CMD_ARGC_MAX; lia || by right). cbv zeta in Ea.
    destruct (Z.ltb_spec (0 + Z.of_nat (List.length (arguments (strvec e) vline))) CMD_ARGC_MAX); [| done]. injection Ea as <-. split; [done |]. split; [lia |].
    intros e' He' [Hx Hcs]. apply in_somes in He'. destruct (ref_words_exact vline _ _ _ _ _ _ e' Er) as (H1 & -> & Hl); [done | done | done |].
    apply Hu; [done |]. unfold complete. destruct l; try done; apply Z.geb_le; cbn; lia.
Qed.

(** C18: for the strict reader of configuration files and for the terminal with its abbreviations, and for any set of well formed commands, the search for the command of a line returns without reading outside the vectors;
    the command it finds is installed, the line fits it, its function gets exactly the words at argument positions, fewer than 25 of them, and no other
    command consists of exactly the words of the line. *)
Theorem command_selection filter test vline (v : vector) :
  a_filter filter test -> Forall (fun e => rest_alone e = true) (somes v) ->
  exists r, find_command filter vline v = Ok r /\
    match r with
    | inl _ => True
    | inr (e, argv) => In (Some e) v /\ line_fits test e vline /\ argv = arguments (strvec e) vline /\ Z.of_nat (List.length argv) < CMD_ARGC_MAX /\
        forall e', In (Some e') v -> line_is test e' vline -> e' = e
    end.
Proof.
  intros Hf Hv. destruct (a_filter_of filter test Hf) as [Ht Heq]. destruct (find_command_total (test := test) vline v Hv) as [r Hr]. exists r. rewrite Heq. split; [done |].
  destruct r as [err | [e argv]]; [done |]. apply (selection filter test); [done | done |]. by rewrite Heq.
Qed.

(** C20: the order in which commands were installed, and the sorting by [sort_node], do not change what a line runs: vectors with the same elements find the same command with the same arguments. *)
Theorem command_order_irrelevant filter test vline (v v' : vector) x :
  a_filter filter test -> somes v ≡ₚ somes v' -> find_command filter vline v = Ok (inr x) <-> find_command filter vline v' = Ok (inr x).
Proof.
  intros Hf P. destruct (a_filter_of filter test Hf) as [_ Heq]. rewrite !Heq. destruct x as [e argv]. rewrite !find_command_iff. by rewrite (ref_find_perm test vline _ _ P).
Qed.

Section Reader.
Context {St : Type} (run : F -> list string -> St -> res (St * Z)) (node : St -> Z) (set_node : Z -> St -> St) (vectors : Z -> vector).

(** C19: reading a configuration file comes to an end for every text, with as many turns as the text has characters at most: when the functions of commands return, and one that fails leaves the node, [config_from_file]
    returns or stops at the assertion that a node has a parent; and it returns, at [CONFIG_NODE] or below it, when no command leaves the configuration. *)
Theorem config_from_file_returns `{!CommandsReturn run node set_node vectors} fuel s fp :
  (String.length fp <= fuel)%nat ->
  (config_from_file run node set_node vectors fuel s fp = Abort \/ exists y, config_from_file run node set_node vectors fuel s fp = Ok y) /\
  (stays_configuring run node -> CONFIG_NODE <= node s ->
   exists s' r, config_from_file run node set_node vectors fuel s fp = Ok (s', r) /\ CONFIG_NODE <= node s').
Proof. intros Hl. exact (from_file_ends run node set_node vectors fuel s fp Hl). Qed.
End Reader.
End Claims.

(** ** Commands that leave the configuration *)

Notation vty_func := (vty -> res (vty * Z)).
Definition run_vty (f : vty_func) (argv : list string) (v : vty) : res (vty * Z) := f v.

Section End.
Context `{InetText}.

(** C38: a line after [end] in a configuration file can stop the daemon: [end] is a command of [CONFIG_NODE] and takes the terminal to [ENABLE_NODE]; when the next line is no command
    there, the retry in the parent node fails the assertion of [node_parent]. *)
Theorem config_end_aborts (vectors : Z -> list (option (cmd_element vty_func))) e v ws err text fuel :
  v_node v = CONFIG_NODE -> find_command cmd_filter_by_string ["end"] (vectors CONFIG_NODE) = Ok (inr (e, [])) -> daemon e = 0 -> func e = (fun v => Ok (config_end v)) ->
  readable ws -> find_command cmd_filter_by_string ws (vectors ENABLE_NODE) = Ok (inl err) -> line_done err = false ->
  config_from_file run_vty v_node set_v_node vectors (S (S fuel)) v (sapp (line_of ["end"]) (sapp (line_of ws) text)) = Abort.
Proof.
  intros Hn Hend Hd Hfe (Hw & Hc & Hl) Hf Hdone. set (v1 := (config_end v).1).
  assert (v_node v1 = ENABLE_NODE) as Hn1 by (unfold v1, config_end; rewrite Hn; done).
  rewrite (from_file_line run_vty v_node set_v_node vectors (S fuel) ["end"] v _ v1 0).
  - destruct ws as [|w ws]; [done |]. cbn [config_from_file]. rewrite fgets_line, cmd_make_strvec_line, bind_ret by done.
    assert (cmd_execute_command_strict run_vty v_node vectors (w :: ws) v1 = Ok (v1, err)) as -> by (unfold cmd_execute_command_strict, execute; by rewrite Hn1, Hf).
    rewrite bind_ret. cbn [retry_parents]. by rewrite Hdone, Hn1.
  - split; [by repeat constructor | by split].
  - unfold cmd_execute_command_strict, execute. rewrite Hn, Hend, bind_ret, Hd. cbn [Z.eqb negb]. unfold run_vty. by rewrite Hfe.
  - done.
Qed.
End End.

(** ** Examples *)

Definition ex_commands : list (string * vty_func) :=
  [("end", fun v => Ok (config_end v)); ("exit", config_exit); ("hostname WORD", fun v => Ok (v, 0)); ("ip route A.B.C.D/M (A.B.C.D|INTERFACE) <1-255>", fun v => Ok (v, 0));
   ("ip route A.B.C.D/M (A.B.C.D|INTERFACE)", fun v => Ok (v, 0)); ("banner .LINE", fun v => Ok (v, 0))].
Fixpoint ex_install (v : list (option (cmd_element vty_func))) (cs : list (string * vty_func)) : res (list (option (cmd_element vty_func))) :=
  match cs with [] => Ok v | (t, f) :: cs => v ← install_element v t f; ex_install v cs end.
Definition ex_config_vector : list (option (cmd_element vty_func)) := match ex_install [] ex_commands with Ok v => v | _ => [] end.
Definition ex_node_vectors (n : Z) : list (option (cmd_element vty_func)) := if n =? CONFIG_NODE then ex_config_vector else [].
Definition ex_line : list string := ["ip"; "route"; "10.0.0.0/8"; "eth0"; "20"].

Lemma ex_formed : Forall (fun e => rest_alone e = true) (somes ex_config_vector).
Proof. vm_compute. repeat constructor. Qed.

Lemma command_selection_witness :
  exists r, find_command cmd_filter_by_string ex_line ex_config_vector = Ok r /\
    match r with
    | inl _ => True
    | inr (e, argv) => In (Some e) ex_config_vector /\ line_fits string_match e ex_line /\ argv = arguments (strvec e) ex_line /\ Z.of_nat (List.length argv) < CMD_ARGC_MAX /\
        forall e', In (Some e') ex_config_vector -> line_is string_match e' ex_line -> e' = e
    end.
Proof. apply (command_selection cmd_filter_by_string string_match ex_line ex_config_vector); [constructor | apply ex_formed]. Defined.

(** The line of the example runs the command with a distance. *)
Lemma ex_line_found : exists e, find_command cmd_filter_by_string ex_line ex_config_vector = Ok (inr (e, ["10.0.0.0/8"; "eth0"; "20"])) /\
  text e = "ip route A.B.C.D/M (A.B.C.D|INTERFACE) <1-255>".
Proof. eexists. split; [vm_compute; reflexivity | reflexivity]. Qed.

Lemma command_order_irrelevant_witness :
  somes ex_config_vector ≡ₚ somes (rev ex_config_vector) /\
  forall x, find_command cmd_filter_by_completion ["ip"; "rou"; "10.0.0.0/8"; "eth0"] ex_config_vector = Ok (inr x) <->
    find_command cmd_filter_by_completion ["ip"; "rou"; "10.0.0.0/8"; "eth0"] (rev ex_config_vector) = Ok (inr x).
Proof.
  assert (somes ex_config_vector ≡ₚ somes (rev ex_config_vector)) as P.
  { assert (somes (rev ex_config_vector) = rev (somes ex_config_vector)) as -> by (vm_compute; reflexivity). apply Permutation_rev. }
  split; [exact P |]. intros x. apply (command_order_irrelevant cmd_filter_by_completion completion_match); [constructor | exact P].
Defined.

(** A daemon with a name and a subnode: the state is the node and the words it was told. *)
Definition ex_run (f : nat) (argv : list string) (s : Z * list string) : res (Z * list string * Z) :=
  Ok (match f with
      | 0%nat => (s.1, s.2 ++ argv, 0)
      | 1%nat => (BGP_NODE, s.2, 0)
      | _ => (s.1, s.2, CMD_ERR_NOTHING_TODO)
      end).
Definition ex_node_of (s : Z * list string) : Z := s.1.
Definition ex_set_node (n : Z) (s : Z * list string) : Z * list string := (n, s.2).
Fixpoint ex_install_nat (v : list (option (cmd_element nat))) (cs : list (string * nat)) : res (list (option (cmd_element nat))) :=
  match cs with [] => Ok v | (t, f) :: cs => v ← install_element v t f; ex_install_nat v cs end.
Definition ex_nat_vectors (n : Z) : list (option (cmd_element nat)) :=
  match ex_install_nat [] (if n =? CONFIG_NODE then [("hostname WORD", 0%nat); ("router bgp <1-65535>", 1%nat)] else [("neighbor A.B.C.D", 0%nat)]) with Ok v => v | _ => [] end.

#[export] Instance ex_commands_return : CommandsReturn ex_run ex_node_of ex_set_node ex_nat_vectors.
Proof.
  split.
  - intros f a s. destruct f as [|[|f]]; eexists (_, _), _; (split; [reflexivity |]); try done.
  - done.
  - intros n. unfold ex_nat_vectors. destruct (n =? CONFIG_NODE); vm_compute; repeat constructor.
Qed.

Definition ex_config_text : string := text_of [["router"; "bgp"; "65001"]; ["neighbor"; "10.0.0.2"]; ["hostname"; "r1"]].

Lemma config_from_file_returns_witness :
  (exists y, config_from_file ex_run ex_node_of ex_set_node ex_nat_vectors 60 (CONFIG_NODE, []) ex_config_text = Ok y) /\
  exists s' r, config_from_file ex_run ex_node_of ex_set_node ex_nat_vectors 60 (CONFIG_NODE, []) ex_config_text = Ok (s', r) /\ CONFIG_NODE <= ex_node_of s'.
Proof.
  assert (String.length ex_config_text <= 60)%nat as Hl by (vm_compute; lia).
  destruct (config_from_file_returns ex_run ex_node_of ex_set_node ex_nat_vectors 60 (CONFIG_NODE, []) ex_config_text Hl) as [_ Hok].
  destruct Hok as (s' & r & E & Hn).
  - intros f a s s' r. destruct f as [|[|f]]; intros [= <- <-]; unfold ex_node_of, CONFIG_NODE, BGP_NODE in *; cbn; lia.
  - unfold CONFIG_NODE, ex_node_of. cbn. lia.
  - split; [exists (s', r); exact E | exists s', r; split; [exact E | exact Hn]].
Defined.

(** The words end up in the daemon, the last line in the parent node. *)
Lemma ex_config_read : config_from_file ex_run ex_node_of ex_set_node ex_nat_vectors 60 (CONFIG_NODE, []) ex_config_text = Ok (CONFIG_NODE, ["10.0.0.2"; "r1"], 0).
Proof. vm_compute. reflexivity. Qed.

Lemma config_end_aborts_witness :
  config_from_file run_vty v_node set_v_node ex_node_vectors 2 (mk_vty CONFIG_NODE 0 0 false false) (sapp (line_of ["end"]) (sapp (line_of ["hostname"; "r1"]) "")) = Abort.
Proof.
  assert (exists e, find_command cmd_filter_by_string ["end"] (ex_node_vectors CONFIG_NODE) = Ok (inr (e, [])) /\ daemon e = 0 /\ func e = (fun v => Ok (config_end v))) as (e & H1 & H2 & H3)
    by (eexists; split; [vm_compute; reflexivity | split; reflexivity]).
  apply (config_end_aborts ex_node_vectors e (mk_vty CONFIG_NODE 0 0 false false) ["hostname"; "r1"] CMD_ERR_NO_MATCH "" 0 eq_refl H1 H2 H3).
  - split; [by repeat constructor | by split].
  - vm_compute. reflexivity.
  - reflexivity.
Defined.
