(* ===== verification/PlistConfig.v ===== *)
(** * lib/plist.c: the commands, and the saved configuration

    A command of the file is the text of its syntax and a function from the arguments to the call of Plist and PlistCmd that it makes, an [op] of PlistOps; an
    argument that was not passed is [Oob].  The [show] commands, which only print, are left out.  [config_write_prefix_afi] writes the prefix
    lists of a family as commands; [run_command] runs one in the terminal of a daemon, so that the file of commands can be read back with [config_from_file]. *)

From Stdlib Require Import Ascii.
From S2P Require Import Prelude CString Prefix Inet PrefixText DList Plist PlistCmd PlistOps Command.
Local Open Scope Z_scope.

Record command := mk_command { c_text : string; c_func : list string -> prefix -> res op }.

(** [argv[k]] *)
Definition arg (argv : list string) (k : nat) : res string := match argv !! k with Some a => Ok a | None => Oob end.

(** [argv_concat (argv, argc, shift)]: the arguments from [shift] on with spaces between them, [None] for none *)
Fixpoint concat_words (ws : list string) : string :=
  match ws with [] => EmptyString | [w] => w | w :: r => sapp w (String " " (concat_words r)) end.
Definition argv_concat (argv : list string) (shift : nat) : option string :=
  match drop shift argv with [] => None | ws => Some (concat_words ws) end.

(** ** Commands for IPv4 *)

Definition ip_prefix_list_cmd : command := mk_command "ip prefix-list WORD (deny|permit) (A.B.C.D/M|any)"
  (fun argv junk => a0 ← arg argv 0; a1 ← arg argv 1; a2 ← arg argv 2; Ok (Install AFI_IP a0 None a1 a2 None None junk)).
Definition ip_prefix_list_ge_cmd : command := mk_command "ip prefix-list WORD (deny|permit) A.B.C.D/M ge <0-32>"
  (fun argv junk => a0 ← arg argv 0; a1 ← arg argv 1; a2 ← arg argv 2; a3 ← arg argv 3; Ok (Install AFI_IP a0 None a1 a2 (Some a3) None junk)).
Definition ip_prefix_list_ge_le_cmd : command := mk_command "ip prefix-list WORD (deny|permit) A.B.C.D/M ge <0-32> le <0-32>"
  (fun argv junk => a0 ← arg argv 0; a1 ← arg argv 1; a2 ← arg argv 2; a3 ← arg argv 3; a4 ← arg argv 4; Ok (Install AFI_IP a0 None a1 a2 (Some a3) (Some a4) junk)).
Definition ip_prefix_list_le_cmd : command := mk_command "ip prefix-list WORD (deny|permit) A.B.C.D/M le <0-32>"
  (fun argv junk => a0 ← arg argv 0; a1 ← arg argv 1; a2 ← arg argv 2; a3 ← arg argv 3; Ok (Install AFI_IP a0 None a1 a2 None (Some a3) junk)).
Definition ip_prefix_list_le_ge_cmd : command := mk_command "ip prefix-list WORD (deny|permit) A.B.C.D/M le <0-32> ge <0-32>"
  (fun argv junk => a0 ← arg argv 0; a1 ← arg argv 1; a2 ← arg argv 2; a3 ← arg argv 3; a4 ← arg argv 4; Ok (Install AFI_IP a0 None a1 a2 (Some a4) (Some a3) junk)).
Definition ip_prefix_list_seq_cmd : command := mk_command "ip prefix-list WORD seq <1-4294967295> (deny|permit) (A.B.C.D/M|any)"
  (fun argv junk => a0 ← arg argv 0; a1 ← arg argv 1; a2 ← arg argv 2; a3 ← arg argv 3; Ok (Install AFI_IP a0 (Some a1) a2 a3 None None junk)).
Definition ip_prefix_list_seq_ge_cmd : command := mk_command "ip prefix-list WORD seq <1-4294967295> (deny|permit) A.B.C.D/M ge <0-32>"
  (fun argv junk => a0 ← arg argv 0; a1 ← arg argv 1; a2 ← arg argv 2; a3 ← arg argv 3; a4 ← arg argv 4; Ok (Install AFI_IP a0 (Some a1) a2 a3 (Some a4) None junk)).
Definition ip_prefix_list_seq_ge_le_cmd : command := mk_command "ip prefix-list WORD seq <1-4294967295> (deny|permit) A.B.C.D/M ge <0-32> le <0-32>"
  (fun argv junk => a0 ← arg argv 0; a1 ← arg argv 1; a2 ← arg argv 2; a3 ← arg argv 3; a4 ← arg argv 4; a5 ← arg argv 5; Ok (Install AFI_IP a0 (Some a1) a2 a3 (Some a4) (Some a5) junk)).
Definition ip_prefix_list_seq_le_cmd : command := mk_command "ip prefix-list WORD seq <1-4294967295> (deny|permit) A.B.C.D/M le <0-32>"
  (fun argv junk => a0 ← arg argv 0; a1 ← arg argv 1; a2 ← arg argv 2; a3 ← arg argv 3; a4 ← arg argv 4; Ok (Install AFI_IP a0 (Some a1) a2 a3 None (Some a4) junk)).
Definition ip_prefix_list_seq_le_ge_cmd : command := mk_command "ip prefix-list WORD seq <1-4294967295> (deny|permit) A.B.C.D/M le <0-32> ge <0-32>"
  (fun argv junk => a0 ← arg argv 0; a1 ← arg argv 1; a2 ← arg argv 2; a3 ← arg argv 3; a4 ← arg argv 4; a5 ← arg argv 5; Ok (Install AFI_IP a0 (Some a1) a2 a3 (Some a5) (Some a4) junk)).
Definition no_ip_prefix_list_cmd : command := mk_command "no ip prefix-list WORD"
  (fun argv junk => a0 ← arg argv 0; Ok (Uninstall AFI_IP a0 None None None None None junk)).
Definition no_ip_prefix_list_prefix_cmd : command := mk_command "no ip prefix-list WORD (deny|permit) (A.B.C.D/M|any)"
  (fun argv junk => a0 ← arg argv 0; a1 ← arg argv 1; a2 ← arg argv 2; Ok (Uninstall AFI_IP a0 None (Some a1) (Some a2) None None junk)).
Definition no_ip_prefix_list_ge_cmd : command := mk_command "no ip prefix-list WORD (deny|permit) A.B.C.D/M ge <0-32>"
  (fun argv junk => a0 ← arg argv 0; a1 ← arg argv 1; a2 ← arg argv 2; a3 ← arg argv 3; Ok (Uninstall AFI_IP a0 None (Some a1) (Some a2) (Some a3) None junk)).
Definition no_ip_prefix_list_ge_le_cmd : command := mk_command "no ip prefix-list WORD (deny|permit) A.B.C.D/M ge <0-32> le <0-32>"
  (fun argv junk => a0 ← arg argv 0; a1 ← arg argv 1; a2 ← arg argv 2; a3 ← arg argv 3; a4 ← arg argv 4; Ok (Uninstall AFI_IP a0 None (Some a1) (Some a2) (Some a3) (Some a4) junk)).
Definition no_ip_prefix_list_le_cmd : command := mk_command "no ip prefix-list WORD (deny|permit) A.B.C.D/M le <0-32>"
  (fun argv junk => a0 ← arg argv 0; a1 ← arg argv 1; a2 ← arg argv 2; a3 ← arg argv 3; Ok (Uninstall AFI_IP a0 None (Some a1) (Some a2) None (Some a3) junk)).
Definition no_ip_prefix_list_le_ge_cmd : command := mk_command "no ip prefix-list WORD (deny|permit) A.B.C.D/M le <0-32> ge <0-32>"
  (fun argv junk => a0 ← arg argv 0; a1 ← arg argv 1; a2 ← arg argv 2; a3 ← arg argv 3; a4 ← arg argv 4; Ok (Uninstall AFI_IP a0 None (Some a1) (Some a2) (Some a4) (Some a3) junk)).
Definition no_ip_prefix_list_seq_cmd : command := mk_command "no ip prefix-list WORD seq <1-4294967295> (deny|permit) (A.B.C.D/M|any)"
  (fun argv junk => a0 ← arg argv 0; a1 ← arg argv 1; a2 ← arg argv 2; a3 ← arg argv 3; Ok (Uninstall AFI_IP a0 (Some a1) (Some a2) (Some a3) None None junk)).
Definition no_ip_prefix_list_seq_ge_cmd : command := mk_command "no ip prefix-list WORD seq <1-4294967295> (deny|permit) A.B.C.D/M ge <0-32>"
  (fun argv junk => a0 ← arg argv 0; a1 ← arg argv 1; a2 ← arg argv 2; a3 ← arg argv 3; a4 ← arg argv 4; Ok (Uninstall AFI_IP a0 (Some a1) (Some a2) (Some a3) (Some a4) None junk)).
Definition no_ip_prefix_list_seq_ge_le_cmd : command := mk_command "no ip prefix-list WORD seq <1-4294967295> (deny|permit) A.B.C.D/M ge <0-32> le <0-32>"
  (fun argv junk => a0 ← arg argv 0; a1 ← arg argv 1; a2 ← arg argv 2; a3 ← arg argv 3; a4 ← arg argv 4; a5 ← arg argv 5; Ok (Uninstall AFI_IP a0 (Some a1) (Some a2) (Some a3) (Some a4) (Some a5) junk)).
Definition no_ip_prefix_list_seq_le_cmd : command := mk_command "no ip prefix-list WORD seq <1-4294967295> (deny|permit) A.B.C.D/M le <0-32>"
  (fun argv junk => a0 ← arg argv 0; a1 ← arg argv 1; a2 ← arg argv 2; a3 ← arg argv 3; a4 ← arg argv 4; Ok (Uninstall AFI_IP a0 (Some a1) (Some a2) (Some a3) None (Some a4) junk)).
Definition no_ip_prefix_list_seq_le_ge_cmd : command := mk_command "no ip prefix-list WORD seq <1-4294967295> (deny|permit) A.B.C.D/M le <0-32> ge <0-32>"
  (fun argv junk => a0 ← arg argv 0; a1 ← arg argv 1; a2 ← arg argv 2; a3 ← arg argv 3; a4 ← arg argv 4; a5 ← arg argv 5; Ok (Uninstall AFI_IP a0 (Some a1) (Some a2) (Some a3) (Some a5) (Some a4) junk)).
Definition ip_prefix_list_sequence_number_cmd : command := mk_command "ip prefix-list sequence-number"
  (fun argv junk => Ok (SequenceNumber prefix_master_ipv4 1)).
Definition no_ip_prefix_list_sequence_number_cmd : command := mk_command "no ip prefix-list sequence-number"
  (fun argv junk => Ok (SequenceNumber prefix_master_ipv4 0)).
Definition ip_prefix_list_description_cmd : command := mk_command "ip prefix-list WORD description .LINE"
  (fun argv junk => a0 ← arg argv 0; Ok (Description AFI_IP a0 (argv_concat argv 1))).
Definition no_ip_prefix_list_description_cmd : command := mk_command "no ip prefix-list WORD description"
  (fun argv junk => a0 ← arg argv 0; Ok (NoDescription AFI_IP a0)).
Definition no_ip_prefix_list_description_arg_cmd : command := mk_command "no ip prefix-list WORD description .LINE"
  (fun argv junk => a0 ← arg argv 0; Ok (NoDescription AFI_IP a0)).
Definition clear_ip_prefix_list_cmd : command := mk_command "clear ip prefix-list"
  (fun argv junk => Ok (Clear AFI_IP None None junk)).
Definition clear_ip_prefix_list_name_cmd : command := mk_command "clear ip prefix-list WORD"
  (fun argv junk => a0 ← arg argv 0; Ok (Clear AFI_IP (Some a0) None junk)).
Definition clear_ip_prefix_list_name_prefix_cmd : command := mk_command "clear ip prefix-list WORD A.B.C.D/M"
  (fun argv junk => a0 ← arg argv 0; a1 ← arg argv 1; Ok (Clear AFI_IP (Some a0) (Some a1) junk)).

(** ** Commands for IPv6 *)

Definition ipv6_prefix_list_cmd : command := mk_command "ipv6 prefix-list WORD (deny|permit) (X:X::X:X/M|any)"
  (fun argv junk => a0 ← arg argv 0; a1 ← arg argv 1; a2 ← arg argv 2; Ok (Install AFI_IP6 a0 None a1 a2 None None junk)).
Definition ipv6_prefix_list_ge_cmd : command := mk_command "ipv6 prefix-list WORD (deny|permit) X:X::X:X/M ge <0-128>"
  (fun argv junk => a0 ← arg argv 0; a1 ← arg argv 1; a2 ← arg argv 2; a3 ← arg argv 3; Ok (Install AFI_IP6 a0 None a1 a2 (Some a3) None junk)).
Definition ipv6_prefix_list_ge_le_cmd : command := mk_command "ipv6 prefix-list WORD (deny|permit) X:X::X:X/M ge <0-128> le <0-128>"
  (fun argv junk => a0 ← arg argv 0; a1 ← arg argv 1; a2 ← arg argv 2; a3 ← arg argv 3; a4 ← arg argv 4; Ok (Install AFI_IP6 a0 None a1 a2 (Some a3) (Some a4) junk)).
Definition ipv6_prefix_list_le_cmd : command := mk_command "ipv6 prefix-list WORD (deny|permit) X:X::X:X/M le <0-128>"
  (fun argv junk => a0 ← arg argv 0; a1 ← arg argv 1; a2 ← arg argv 2; a3 ← arg argv 3; Ok (Install AFI_IP6 a0 None a1 a2 None (Some a3) junk)).
Definition ipv6_prefix_list_le_ge_cmd : command := mk_command "ipv6 prefix-list WORD (deny|permit) X:X::X:X/M le <0-128> ge <0-128>"
  (fun argv junk => a0 ← arg argv 0; a1 ← arg argv 1; a2 ← arg argv 2; a3 ← arg argv 3; a4 ← arg argv 4; Ok (Install AFI_IP6 a0 None a1 a2 (Some a4) (Some a3) junk)).
Definition ipv6_prefix_list_seq_cmd : command := mk_command "ipv6 prefix-list WORD seq <1-4294967295> (deny|permit) (X:X::X:X/M|any)"
  (fun argv junk => a0 ← arg argv 0; a1 ← arg argv 1; a2 ← arg argv 2; a3 ← arg argv 3; Ok (Install AFI_IP6 a0 (Some a1) a2 a3 None None junk)).
Definition ipv6_prefix_list_seq_ge_cmd : command := mk_command "ipv6 prefix-list WORD seq <1-4294967295> (deny|permit) X:X::X:X/M ge <0-128>"
  (fun argv junk => a0 ← arg argv 0; a1 ← arg argv 1; a2 ← arg argv 2; a3 ← arg argv 3; a4 ← arg argv 4; Ok (Install AFI_IP6 a0 (Some a1) a2 a3 (Some a4) None junk)).
Definition ipv6_prefix_list_seq_ge_le_cmd : command := mk_command "ipv6 prefix-list WORD seq <1-4294967295> (deny|permit) X:X::X:X/M ge <0-128> le <0-128>"
  (fun argv junk => a0 ← arg argv 0; a1 ← arg argv 1; a2 ← arg argv 2; a3 ← arg argv 3; a4 ← arg argv 4; a5 ← arg argv 5; Ok (Install AFI_IP6 a0 (Some a1) a2 a3 (Some a4) (Some a5) junk)).
Definition ipv6_prefix_list_seq_le_cmd : command := mk_command "ipv6 prefix-list WORD seq <1-4294967295> (deny|permit) X:X::X:X/M le <0-128>"
  (fun argv junk => a0 ← arg argv 0; a1 ← arg argv 1; a2 ← arg argv 2; a3 ← arg argv 3; a4 ← arg argv 4; Ok (Install AFI_IP6 a0 (Some a1) a2 a3 None (Some a4) junk)).
Definition ipv6_prefix_list_seq_le_ge_cmd : command := mk_command "ipv6 prefix-list WORD seq <1-4294967295> (deny|permit) X:X::X:X/M le <0-128> ge <0-128>"
  (fun argv junk => a0 ← arg argv 0; a1 ← arg argv 1; a2 ← arg argv 2; a3 ← arg argv 3; a4 ← arg argv 4; a5 ← arg argv 5; Ok (Install AFI_IP6 a0 (Some a1) a2 a3 (Some a5) (Some a4) junk)).
Definition no_ipv6_prefix_list_cmd : command := mk_command "no ipv6 prefix-list WORD"
  (fun argv junk => a0 ← arg argv 0; Ok (Uninstall AFI_IP6 a0 None None None None None junk)).
Definition no_ipv6_prefix_list_prefix_cmd : command := mk_command "no ipv6 prefix-list WORD (deny|permit) (X:X::X:X/M|any)"
  (fun argv junk => a0 ← arg argv 0; a1 ← arg argv 1; a2 ← arg argv 2; Ok (Uninstall AFI_IP6 a0 None (Some a1) (Some a2) None None junk)).
Definition no_ipv6_prefix_list_ge_cmd : command := mk_command "no ipv6 prefix-list WORD (deny|permit) X:X::X:X/M ge <0-128>"
  (fun argv junk => a0 ← arg argv 0; a1 ← arg argv 1; a2 ← arg argv 2; a3 ← arg argv 3; Ok (Uninstall AFI_IP6 a0 None (Some a1) (Some a2) (Some a3) None junk)).
Definition no_ipv6_prefix_list_ge_le_cmd : command := mk_command "no ipv6 prefix-list WORD (deny|permit) X:X::X:X/M ge <0-128> le <0-128>"
  (fun argv junk => a0 ← arg argv 0; a1 ← arg argv 1; a2 ← arg argv 2; a3 ← arg argv 3; a4 ← arg argv 4; Ok (Uninstall AFI_IP6 a0 None (Some a1) (Some a2) (Some a3) (Some a4) junk)).
Definition no_ipv6_prefix_list_le_cmd : command := mk_command "no ipv6 prefix-list WORD (deny|permit) X:X::X:X/M le <0-128>"
  (fun argv junk => a0 ← arg argv 0; a1 ← arg argv 1; a2 ← arg argv 2; a3 ← arg argv 3; Ok (Uninstall AFI_IP6 a0 None (Some a1) (Some a2) None (Some a3) junk)).
Definition no_ipv6_prefix_list_le_ge_cmd : command := mk_command "no ipv6 prefix-list WORD (deny|permit) X:X::X:X/M le <0-128> ge <0-128>"
  (fun argv junk => a0 ← arg argv 0; a1 ← arg argv 1; a2 ← arg argv 2; a3 ← arg argv 3; a4 ← arg argv 4; Ok (Uninstall AFI_IP6 a0 None (Some a1) (Some a2) (Some a4) (Some a3) junk)).
Definition no_ipv6_prefix_list_seq_cmd : command := mk_command "no ipv6 prefix-list WORD seq <1-4294967295> (deny|permit) (X:X::X:X/M|any)"
  (fun argv junk => a0 ← arg argv 0; a1 ← arg argv 1; a2 ← arg argv 2; a3 ← arg argv 3; Ok (Uninstall AFI_IP6 a0 (Some a1) (Some a2) (Some a3) None None junk)).
Definition no_ipv6_prefix_list_seq_ge_cmd : command := mk_command "no ipv6 prefix-list WORD seq <1-4294967295> (deny|permit) X:X::X:X/M ge <0-128>"
  (fun argv junk => a0 ← arg argv 0; a1 ← arg argv 1; a2 ← arg argv 2; a3 ← arg argv 3; a4 ← arg argv 4; Ok (Uninstall AFI_IP6 a0 (Some a1) (Some a2) (Some a3) (Some a4) None junk)).
Definition no_ipv6_prefix_list_seq_ge_le_cmd : command := mk_command "no ipv6 prefix-list WORD seq <1-4294967295> (deny|permit) X:X::X:X/M ge <0-128> le <0-128>"
  (fun argv junk => a0 ← arg argv 0; a1 ← arg argv 1; a2 ← arg argv 2; a3 ← arg argv 3; a4 ← arg argv 4; a5 ← arg argv 5; Ok (Uninstall AFI_IP6 a0 (Some a1) (Some a2) (Some a3) (Some a4) (Some a5) junk)).
Definition no_ipv6_prefix_list_seq_le_cmd : command := mk_command "no ipv6 prefix-list WORD seq <1-4294967295> (deny|permit) X:X::X:X/M le <0-128>"
  (fun argv junk => a0 ← arg argv 0; a1 ← arg argv 1; a2 ← arg argv 2; a3 ← arg argv 3; a4 ← arg argv 4; Ok (Uninstall AFI_IP6 a0 (Some a1) (Some a2) (Some a3) None (Some a4) junk)).
Definition no_ipv6_prefix_list_seq_le_ge_cmd : command := mk_command "no ipv6 prefix-list WORD seq <1-4294967295> (deny|permit) X:X::X:X/M le <0-128> ge <0-128>"
  (fun argv junk => a0 ← arg argv 0; a1 ← arg argv 1; a2 ← arg argv 2; a3 ← arg argv 3; a4 ← arg argv 4; a5 ← arg argv 5; Ok (Uninstall AFI_IP6 a0 (Some a1) (Some a2) (Some a3) (Some a5) (Some a4) junk)).
Definition ipv6_prefix_list_sequence_number_cmd : command := mk_command "ipv6 prefix-list sequence-number"
  (fun argv junk => Ok (SequenceNumber prefix_master_ipv6 1)).
Definition no_ipv6_prefix_list_sequence_number_cmd : command := mk_command "no ipv6 prefix-list sequence-number"
  (fun argv junk => Ok (SequenceNumber prefix_master_ipv6 0)).
Definition ipv6_prefix_list_description_cmd : command := mk_command "ipv6 prefix-list WORD description .LINE"
  (fun argv junk => a0 ← arg argv 0; Ok (Description AFI_IP6 a0 (argv_concat argv 1))).
Definition no_ipv6_prefix_list_description_cmd : command := mk_command "no ipv6 prefix-list WORD description"
  (fun argv junk => a0 ← arg argv 0; Ok (NoDescription AFI_IP6 a0)).
Definition no_ipv6_prefix_list_description_arg_cmd : command := mk_command "no ipv6 prefix-list WORD description .LINE"
  (fun argv junk => a0 ← arg argv 0; Ok (NoDescription AFI_IP6 a0)).
Definition clear_ipv6_prefix_list_cmd : command := mk_command "clear ipv6 prefix-list"
  (fun argv junk => Ok (Clear AFI_IP6 None None junk)).
Definition clear_ipv6_prefix_list_name_cmd : command := mk_command "clear ipv6 prefix-list WORD"
  (fun argv junk => a0 ← arg argv 0; Ok (Clear AFI_IP6 (Some a0) None junk)).
Definition clear_ipv6_prefix_list_name_prefix_cmd : command := mk_command "clear ipv6 prefix-list WORD X:X::X:X/M"
  (fun argv junk => a0 ← arg argv 0; a1 ← arg argv 1; Ok (Clear AFI_IP6 (Some a0) (Some a1) junk)).

(** ** Installation *)

(** What [prefix_list_init_ipv4] and [prefix_list_init_ipv6] install into [CONFIG_NODE] and [ENABLE_NODE], in this order. *)
Definition config_commands_ipv4 : list command :=
  [ip_prefix_list_cmd; ip_prefix_list_ge_cmd; ip_prefix_list_ge_le_cmd; ip_prefix_list_le_cmd;
   ip_prefix_list_le_ge_cmd; ip_prefix_list_seq_cmd; ip_prefix_list_seq_ge_cmd; ip_prefix_list_seq_ge_le_cmd;
   ip_prefix_list_seq_le_cmd; ip_prefix_list_seq_le_ge_cmd; no_ip_prefix_list_cmd; no_ip_prefix_list_prefix_cmd;
   no_ip_prefix_list_ge_cmd; no_ip_prefix_list_ge_le_cmd; no_ip_prefix_list_le_cmd; no_ip_prefix_list_le_ge_cmd;
   no_ip_prefix_list_seq_cmd; no_ip_prefix_list_seq_ge_cmd; no_ip_prefix_list_seq_ge_le_cmd; no_ip_prefix_list_seq_le_cmd;
   no_ip_prefix_list_seq_le_ge_cmd; ip_prefix_list_description_cmd; no_ip_prefix_list_description_cmd; no_ip_prefix_list_description_arg_cmd;
   ip_prefix_list_sequence_number_cmd; no_ip_prefix_list_sequence_number_cmd].
Definition enable_commands_ipv4 : list command :=
  [clear_ip_prefix_list_cmd; clear_ip_prefix_list_name_cmd; clear_ip_prefix_list_name_prefix_cmd].
Definition config_commands_ipv6 : list command :=
  [ipv6_prefix_list_cmd; ipv6_prefix_list_ge_cmd; ipv6_prefix_list_ge_le_cmd; ipv6_prefix_list_le_cmd;
   ipv6_prefix_list_le_ge_cmd; ipv6_prefix_list_seq_cmd; ipv6_prefix_list_seq_ge_cmd; ipv6_prefix_list_seq_ge_le_cmd;
   ipv6_prefix_list_seq_le_cmd; ipv6_prefix_list_seq_le_ge_cmd; no_ipv6_prefix_list_cmd; no_ipv6_prefix_list_prefix_cmd;
   no_ipv6_prefix_list_ge_cmd; no_ipv6_prefix_list_ge_le_cmd; no_ipv6_prefix_list_le_cmd; no_ipv6_prefix_list_le_ge_cmd;
   no_ipv6_prefix_list_seq_cmd; no_ipv6_prefix_list_seq_ge_cmd; no_ipv6_prefix_list_seq_ge_le_cmd; no_ipv6_prefix_list_seq_le_cmd;
   no_ipv6_prefix_list_seq_le_ge_cmd; ipv6_prefix_list_description_cmd; no_ipv6_prefix_list_description_cmd; no_ipv6_prefix_list_description_arg_cmd;
   ipv6_prefix_list_sequence_number_cmd; no_ipv6_prefix_list_sequence_number_cmd].
Definition enable_commands_ipv6 : list command :=
  [clear_ipv6_prefix_list_cmd; clear_ipv6_prefix_list_name_cmd; clear_ipv6_prefix_list_name_prefix_cmd].

Fixpoint install_commands (v : list (option (cmd_element (list string -> prefix -> res op)))) (cs : list command) :
    res (list (option (cmd_element (list string -> prefix -> res op)))) :=
  match cs with
  | [] => Ok v
  | c :: cs => v ← install_element v (c_text c) (c_func c); install_commands v cs
  end.

(** The terminal that reads commands: its node, and the prefix lists.  [junk] are the contents of a [struct prefix] on the stack. *)
Section Run.
Context `{InetText} (junk : plists -> prefix).
Definition run_command (f : list string -> prefix -> res op) (argv : list string) (s : Z * plists) : res (Z * plists * Z) :=
  o ← f argv (junk s.2);
  '(ps, ret) ← run_op s.2 o;
  Ok ((s.1, ps), ret).
Definition term_node (s : Z * plists) : Z := s.1.
Definition set_term_node (n : Z) (s : Z * plists) : Z * plists := (n, s.2).
End Run.

(** ** The saved configuration *)

(** ["%d"] *)
Definition sdec (n : Z) : string := if n <? 0 then String "-" (dec (- n)) else dec n.
(** [VTY_NEWLINE] of a file *)
Definition VTY_NEWLINE : string := String (ascii_of_N 10) EmptyString.

Definition prefix_list_type_str (e : entry) : string := match e_type e with PREFIX_PERMIT => "permit" | PREFIX_DENY => "deny" end.
Definition afi_str (afi : Z) : string := if afi =? AFI_IP then "" else "v6".
Fixpoint concat_texts (ss : list string) : string := match ss with [] => EmptyString | s :: r => sapp s (concat_texts r) end.

Section Write.
Context `{InetText}.

(** A line for an entry; the text of a prefix that [inet_ntop] refuses would be read through [NULL]. *)
Definition write_entry (afi seqnum : Z) (nm : string) (e : entry) : res string :=
  pfx ← (if negb (e_any e =? 0) then Ok "any"
         else match inet_ntop (family (e_prefix e)) (u (e_prefix e)) BUFSIZ with
              | None => Oob
              | Some buf =>
                  Ok (concat_texts [buf; "/"; dec (prefixlen (e_prefix e));
                                    if negb (e_ge e =? 0) then sapp " ge " (sdec (e_ge e)) else "";
                                    if negb (e_le e =? 0) then sapp " le " (sdec (e_le e)) else ""])
              end);
  Ok (concat_texts ["ip"; afi_str afi; " prefix-list "; nm; " ";
                    if negb (seqnum =? 0) then concat_texts ["seq "; sdec (e_seq e); " "] else "";
                    prefix_list_type_str e; " "; pfx; VTY_NEWLINE]).

Fixpoint write_entries (fuel : nat) (h : gmap positive (node entry)) (afi seqnum : Z) (nm : string) (pentry : option ptr) : res (string * Z) :=
  match pentry with
  | None => Ok (EmptyString, 0)
  | Some t =>
      match fuel with
      | O => Oob
      | S f =>
          n ← get h t;
          line ← write_entry afi seqnum nm (body n);
          '(rest, write) ← write_entries f h afi seqnum nm (next n);
          Ok (sapp line rest, write + 1)
      end
  end.

Definition write_desc (afi : Z) (pl : plist) : string * Z :=
  match desc pl with
  | Some d => (concat_texts ["ip"; afi_str afi; " prefix-list "; name pl; " description "; d; VTY_NEWLINE], 1)
  | None => (EmptyString, 0)
  end.

(** The loop over prefix lists; the code has it twice, for the numbered and for the named lists. *)
Fixpoint write_lists (fuel : nat) (s : plists) (afi seqnum : Z) (plist : option ptr) : res (string * Z) :=
  match plist with
  | None => Ok (EmptyString, 0)
  | Some p =>
      match fuel with
      | O => Oob
      | S f =>
          n ← get (lmem s) p;
          let '(d, dn) := write_desc afi (body n) in
          '(es, en) ← write_entries (walk_fuel (emem s)) (emem s) afi seqnum (name (body n)) (head (entries (body n)));
          '(rest, write) ← write_lists f s afi seqnum (next n);
          Ok (sapp d (sapp es rest), dn + en + write)
      end
  end.

Definition config_write_prefix_afi (s : plists) (afi : Z) : res (string * Z) :=
  match prefix_master_get afi with
  | None => Ok (EmptyString, 0)
  | Some m =>
      let seqnum := seqnum (masters s m) in
      let off := if seqnum =? 0 then concat_texts ["no ip"; afi_str afi; " prefix-list sequence-number"; VTY_NEWLINE; "!"; VTY_NEWLINE] else EmptyString in
      '(a, na) ← write_lists (walk_fuel (lmem s)) s afi seqnum (head (num (masters s m)));
      '(b, nb) ← write_lists (walk_fuel (lmem s)) s afi seqnum (head (str (masters s m)));
      Ok (sapp off (sapp a b), na + nb)
  end.
End Write.
