(* ===== verification/PlistConfigWords.v ===== *)
(** * lib/plist.c: the words of a saved configuration

    How the numbers and prefixes that [config_write_prefix_afi] writes fit the alternatives of the commands, and which command a written line selects among all
    the commands of a daemon. *)

From Stdlib Require Import Ascii.
From S2P Require Import Prelude CString Prefix Inet PrefixText DList Plist PlistCmd PlistOps Command CommandProofs CommandConfig PlistConfig.
Local Open Scope Z_scope.

(** ** Numbers *)

Lemma isdigit_char c : isdigit c = true -> isspace c = false /\ (code c =? 45) = false /\ (code c =? 43) = false /\ Ascii.eqb c "." = false /\ Ascii.eqb c "/" = false.
Proof.
  unfold isdigit, isspace. intros [H1%Z.leb_le H2%Z.leb_le]%andb_true_iff. split_and!; try lia; apply not_true_iff_false; intros ->%Ascii.eqb_eq;
    by apply H1.
Qed.

Lemma all_digits_cons c s : all_digits (String c s) = true -> isdigit c = true /\ all_digits s = true.
Proof. cbn. by intros [? ?]%andb_true_iff. Qed.

Lemma dec_cons n : 0 <= n -> exists c s, dec n = String c s /\ isdigit c = true /\ all_digits s = true.
Proof.
  intros Hn. pose proof (dec_digits n Hn) as Hd. destruct (dec n) as [|c s] eqn:E; [exfalso | exists c, s; split; [done |]; by apply all_digits_cons].
  assert (forall f m acc, acc <> EmptyString -> dec_acc f m acc <> EmptyString) as Ha.
  { clear. induction f as [|f IH]; intros m acc Hacc; cbn; [done |]. destruct (m / 10 =? 0); [done | by apply IH]. }
  assert (forall f m, dec_acc (S f) m EmptyString <> EmptyString) as Hs.
  { intros f m. cbn [dec_acc]. destruct (m / 10 =? 0); [done | by apply Ha]. }
  by apply (Hs 9%nat n).
Qed.

Lemma digits_rest_app s r : all_digits s = true -> digits_rest (sapp s r) = digits_rest r.
Proof. induction s as [|c s IH]; [done |]. intros [Hc Hs]%all_digits_cons. cbn. rewrite Hc. by apply IH. Qed.

(** [strtoul] of a text that starts with a written number. *)
Lemma strtoul_dec n r : 0 <= n < 10 ^ 10 -> starts_digit r = false -> strtoul (sapp (dec n) r) = (n, r).
Proof.
  intros Hn Hr. destruct (dec_cons n) as (c & s & E & Hc & Hs); [lia |]. destruct (isdigit_char c Hc) as (H1 & H2 & H3 & _).
  unfold strtoul, sign_split. rewrite E. cbn [sapp skip_spaces]. rewrite H1, H2, H3. cbn [starts_digit]. rewrite Hc.
  change (String c (sapp s r)) with (sapp (String c s) r). rewrite <- E.
  assert (atoi_digits 0 (sapp (dec n) r) = n) as ->.
  { apply atoi_digits_dec; [lia |]. by intros d r' ->. }
  assert (digits_rest (sapp (dec n) r) = r) as -> by (rewrite digits_rest_app by (apply dec_digits; lia); destruct r as [|d r]; [done |]; cbn in *; by rewrite Hr).
  destruct (Z.gtb_spec n ULONG_MAX); [unfold ULONG_MAX in *; lia | done].
Qed.

(** ** Prefixes *)

Definition prefix_text (a b c d len : Z) : string := sapp (dotted a b c d) (String "/" (dec len)).

Lemma ipv4_prefix_digits s r dots buf : all_digits s = true -> ipv4_prefix_loop (sapp s r) dots buf = ipv4_prefix_loop r dots (sapp buf s).
Proof.
  revert buf. induction s as [|c s IH]; intros buf Hs; [by rewrite sapp_nil_r |]. apply all_digits_cons in Hs as [Hc Hs].
  destruct (isdigit_char c Hc) as (_ & _ & _ & H1 & H2). cbn [sapp ipv4_prefix_loop]. rewrite H1, H2, Hc. cbn [negb]. rewrite IH by done.
  by rewrite sapp_assoc.
Qed.

Lemma octet_dec n : byte_ok n -> octet_ok (dec n) = true.
Proof. intros Hn. unfold byte_ok in Hn. by_range (fun n => octet_ok (dec n)) 0 256%nat n. Qed.

(** A number that is followed by a dot and another number. *)
Lemma ipv4_prefix_octet n m r dots : byte_ok n -> byte_ok m -> dots <> 3 ->
  ipv4_prefix_loop (sapp (dec n) (String "." (sapp (dec m) r))) dots EmptyString = ipv4_prefix_loop (sapp (dec m) r) (dots + 1) EmptyString.
Proof.
  intros Hn Hm Hd. rewrite ipv4_prefix_digits by (apply dec_digits; unfold byte_ok in *; lia). cbn [sapp ipv4_prefix_loop].
  destruct (dec_cons m) as (c & s & E & Hc & _); [unfold byte_ok in *; lia |]. destruct (isdigit_char c Hc) as (_ & _ & _ & H1 & H2).
  rewrite E. cbn [sapp starts_with]. rewrite H1, H2. change (Ascii.eqb "." "/") with false. change (Ascii.eqb "." ".") with true. cbn match.
  rewrite (proj2 (Z.eqb_neq _ _) Hd). cbn [orb]. rewrite octet_dec by done. done.
Qed.

Lemma mask_match_dec len : 0 <= len <= 32 -> mask_match (dec len) = exact_match.
Proof.
  intros Hl. assert ((if decide (mask_match (dec len) = exact_match) then true else false) = true) as E.
  { by_range (fun len => if decide (mask_match (dec len) = exact_match) then true else false) 0 33%nat len. }
  by destruct (decide _).
Qed.

Lemma prefix_text_matches a b c d len : byte_ok a -> byte_ok b -> byte_ok c -> byte_ok d -> 0 <= len <= 32 ->
  cmd_ipv4_prefix_match (prefix_text a b c d len) = exact_match.
Proof.
  intros Ha Hb Hc Hd Hl. unfold cmd_ipv4_prefix_match, prefix_text, dotted. repeat (rewrite sapp_assoc; cbn [sapp]). rewrite !ipv4_prefix_octet by (done || lia).
  rewrite ipv4_prefix_digits by (apply dec_digits; unfold byte_ok in *; lia). cbn [ipv4_prefix_loop sapp]. rewrite octet_dec by done. change (Ascii.eqb "/" "/") with true.
  change (0 + 1 + 1 + 1 =? 3) with true. cbn [negb]. destruct (dec_cons len) as (x & s & E & _); [lia |]. rewrite <- (mask_match_dec len Hl), E. done.
Qed.

(** A number is no prefix. *)
Lemma digits_no_prefix s : all_digits s = true -> is_exact (cmd_ipv4_prefix_match s) = false.
Proof. intros Hs. unfold cmd_ipv4_prefix_match. rewrite <- (sapp_nil_r s), ipv4_prefix_digits by done. cbn. by destruct (negb _). Qed.

(** ** Ranges *)

Lemma range_dec range n : 0 <= n < 10 ^ 10 ->
  cmd_range_match range (dec n) =
  match range_bound (stail range) "-" with
  | None => false
  | Some (min, range) => match range_bound range ">" with None => false | Some (max, _) => negb ((n <? min) || (n >? max)) end
  end.
Proof. intros Hn. unfold cmd_range_match. rewrite <- (sapp_nil_r (dec n)), strtoul_dec by done. done. Qed.

Lemma no_range range w : range_bound (stail range) "-" = None -> cmd_range_match range w = false.
Proof. intros Hr. unfold cmd_range_match. destruct (strtoul w) as [v e]. rewrite Hr. by destruct (negb _). Qed.

Lemma prefix_no_range range a b c d len : byte_ok a -> cmd_range_match range (prefix_text a b c d len) = false.
Proof.
  intros Ha. unfold cmd_range_match, prefix_text, dotted. rewrite sapp_assoc. cbn [sapp]. rewrite strtoul_dec; [done | unfold byte_ok in *; lia | done].
Qed.

(** ** What the written words are like *)

Section Words.
Context `{InetText}.

Lemma strcmp_digit c s d t : isdigit c = true -> isdigit d = false -> (strcmp (String c s) (String d t) =? 0) = false.
Proof. intros Hc Hd. apply Z.eqb_neq. rewrite strcmp_0. congruence. Qed.

Lemma alike_name nm : nm <> "sequence-number" -> alike string_match ["WORD"; "sequence-number"] nm "x".
Proof.
  intros Hn t Ht. assert ((strcmp nm "sequence-number" =? 0) = false) as E by (apply Z.eqb_neq; by rewrite strcmp_0).
  destruct Ht as [<- | [<- | []]].
  - split; [reflexivity |]. intros t0 [<- | [<- | []]]; reflexivity.
  - split.
    + change (string_match nm "sequence-number") with (when (strcmp nm "sequence-number" =? 0) exact_match). by rewrite E.
    + intros t0 [<- | [<- | []]]; reflexivity.
Qed.

Lemma alike_seq n : 1 <= n < 2 ^ 32 -> alike string_match ["A.B.C.D/M"; "any"; "<1-4294967295>"; ".LINE"] (dec n) "5".
Proof.
  intros Hn. assert (cmd_range_match "<1-4294967295>" (dec n) = true) as Er.
  { rewrite range_dec by lia. change (negb ((n <? 1) || (n >? 4294967295)) = true). lia. }
  destruct (dec_cons n) as (c & s & E & Hc & Hs); [lia |].
  intros t Ht. destruct Ht as [<- | [<- | [<- | [<- | []]]]]; split.
  - change (string_match (dec n) "A.B.C.D/M") with (when (is_exact (cmd_ipv4_prefix_match (dec n))) ipv4_prefix_match).
    by rewrite digits_no_prefix by (apply dec_digits; lia).
  - intros t0 [<- | [<- | [<- | [<- | []]]]]; try reflexivity. change (amb_if (cmd_range_match "A.B.C.D/M" (dec n)) Amb_same = amb_if (cmd_range_match "A.B.C.D/M" "5") Amb_same).
    by rewrite !no_range.
  - change (string_match (dec n) "any") with (when (strcmp (dec n) "any" =? 0) exact_match). by rewrite E, strcmp_digit.
  - intros t0 [<- | [<- | [<- | [<- | []]]]]; try reflexivity. change (amb_if (cmd_range_match "any" (dec n)) Amb_same = amb_if (cmd_range_match "any" "5") Amb_same).
    by rewrite !no_range.
  - change (string_match (dec n) "<1-4294967295>") with (when (cmd_range_match "<1-4294967295>" (dec n)) range_match). by rewrite Er.
  - intros t0 [<- | [<- | [<- | [<- | []]]]]; try reflexivity. change (amb_if (cmd_range_match "<1-4294967295>" (dec n)) Amb_same = Amb_same). by rewrite Er.
  - reflexivity.
  - intros t0 [<- | [<- | [<- | [<- | []]]]]; try reflexivity. change (amb_if (cmd_range_match ".LINE" (dec n)) Amb_same = amb_if (cmd_range_match ".LINE" "5") Amb_same).
    by rewrite !no_range.
Qed.

(** A number after a minus sign is in no range. *)
Lemma alike_negative k : 1 <= k <= 2 ^ 31 -> alike string_match ["A.B.C.D/M"; "any"; "<1-4294967295>"; ".LINE"] (String "-" (dec k)) "-5".
Proof.
  intros Hk. assert (strtoul (String "-" (dec k)) = (2 ^ 64 - k, EmptyString)) as Es.
  { destruct (dec_cons k) as (c & s & E & Hc & Hs); [lia |]. pose proof (atoi_digits_dec k EmptyString ltac:(lia) ltac:(done)) as Ev. rewrite sapp_nil_r in Ev.
    unfold strtoul. change (sign_split (String "-" (dec k))) with (true, dec k). cbv iota beta zeta.
    assert (starts_digit (dec k) = true) as -> by (rewrite E; exact Hc). rewrite Ev. destruct (Z.gtb_spec k ULONG_MAX); [unfold ULONG_MAX in *; lia |].
    assert (digits_rest (dec k) = EmptyString) as -> by (rewrite <- (sapp_nil_r (dec k)), digits_rest_app; [done | apply dec_digits; lia]). f_equal. unfold wrap.
    replace (- k) with (2 ^ 64 - k + (-1) * 2 ^ 64) by lia. rewrite Z.mod_add, Z.mod_small by lia. done. }
  assert (cmd_range_match "<1-4294967295>" (String "-" (dec k)) = false) as Er.
  { unfold cmd_range_match. rewrite Es. change (negb ((2 ^ 64 - k <? 1) || (2 ^ 64 - k >? 4294967295)) = false). lia. }
  intros t Ht. destruct Ht as [<- | [<- | [<- | [<- | []]]]]; (split; [| intros t0 [<- | [<- | [<- | [<- | []]]]]; reflexivity]); try reflexivity.
  change (string_match (String "-" (dec k)) "<1-4294967295>") with (when (cmd_range_match "<1-4294967295>" (String "-" (dec k))) range_match). by rewrite Er.
Qed.

Lemma alike_prefix a b c d len : byte_ok a -> byte_ok b -> byte_ok c -> byte_ok d -> 0 <= len <= 32 ->
  alike string_match ["A.B.C.D/M"; "any"; "<0-32>"] (prefix_text a b c d len) "1.2.3.4/24".
Proof.
  intros Ha Hb Hc Hd Hl. pose proof (prefix_text_matches a b c d len Ha Hb Hc Hd Hl) as Em. set (w := prefix_text a b c d len) in *.
  assert (forall t, t <> "" -> isdigit (match t with String x _ => x | _ => "0" end) = false -> (strcmp w t =? 0) = false) as Hs.
  { intros t _ Ht. unfold w, prefix_text, dotted. destruct (dec_cons a) as (x & s & -> & Hx & _); [unfold byte_ok in *; lia |]. destruct t as [|y t]; [done |]. by apply strcmp_digit. }
  intros t Ht. destruct Ht as [<- | [<- | [<- | []]]]; split.
  - change (string_match w "A.B.C.D/M") with (when (is_exact (cmd_ipv4_prefix_match w)) ipv4_prefix_match). by rewrite Em.
  - intros t0 [<- | [<- | [<- | []]]]; try reflexivity. change (prefix_test (cmd_ipv4_prefix_match w) = Amb_match). by rewrite Em.
  - change (string_match w "any") with (when (strcmp w "any" =? 0) exact_match). by rewrite Hs.
  - intros t0 [<- | [<- | [<- | []]]]; try reflexivity. change (prefix_test (cmd_ipv4_prefix_match w) = Amb_match). by rewrite Em.
  - change (string_match w "<0-32>") with (when (cmd_range_match "<0-32>" w) range_match). unfold w. by rewrite prefix_no_range.
  - intros t0 [<- | [<- | [<- | []]]]; try reflexivity. change (prefix_test (cmd_ipv4_prefix_match w) = Amb_match). by rewrite Em.
Qed.

Lemma alike_bound n : 0 <= n <= 32 -> alike string_match ["<0-32>"] (dec n) "5".
Proof.
  intros Hn. assert (cmd_range_match "<0-32>" (dec n) = true) as Er.
  { rewrite range_dec by lia. change (negb ((n <? 0) || (n >? 32)) = true). lia. }
  intros t [<- | []]. split; [| intros t0 [<- | []]].
  - change (string_match (dec n) "<0-32>") with (when (cmd_range_match "<0-32>" (dec n)) range_match). by rewrite Er.
  - change (amb_if (cmd_range_match "<0-32>" (dec n)) Amb_same = Amb_same). by rewrite Er.
Qed.
End Words.

(** ** The commands of a daemon *)

Notation func_type := (list string -> prefix -> res op).

(** The element that installing a command adds. *)
Definition element_of (c : command) : cmd_element func_type :=
  let sv := match cmd_make_descvec (c_text c) with Ok sv => sv | _ => [] end in mk_element (c_text c) (c_func c) 0 sv (cmd_cmdsize sv).

(** A vector that has the IPv4 commands of prefix lists, and no others that begin with [ip prefix-list]. *)
Definition has_plist_commands (v : list (option (cmd_element func_type))) : Prop :=
  exists others, somes v ≡ₚ map element_of config_commands_ipv4 ++ others /\ Forall (fun e => begins "ip" "prefix-list" e = false) others.

Definition plist_elements : list (cmd_element func_type) := List.filter (begins "ip" "prefix-list") (map element_of config_commands_ipv4).

Lemma installed_commands : install_commands [] config_commands_ipv4 = Ok (map (fun c => Some (element_of c)) config_commands_ipv4).
Proof. vm_compute. reflexivity. Qed.

Section Select.
Context `{InetText}.

Lemma filter_none {A} (p : A -> bool) l : Forall (fun x => p x = false) l -> List.filter p l = [].
Proof. induction 1 as [| x l Hx Hl IH]; [done |]. cbn. by rewrite Hx. Qed.

Lemma elements_filtered others : Forall (fun e => begins "ip" "prefix-list" e = false) others ->
  List.filter (begins "ip" "prefix-list") (map element_of config_commands_ipv4 ++ others) = plist_elements.
Proof. intros Ho. unfold plist_elements. rewrite List.filter_app, (filter_none _ others Ho), app_nil_r. reflexivity. Qed.

Lemma elements_begin others : existsb (begins "ip" "prefix-list") (map element_of config_commands_ipv4 ++ others) = true.
Proof. rewrite existsb_app. apply orb_true_iff. left. vm_compute. reflexivity. Qed.

Lemma plist_find r v : has_plist_commands v ->
  ref_find string_match ("ip" :: "prefix-list" :: r) (somes v) = ref_find string_match ("ip" :: "prefix-list" :: r) plist_elements.
Proof.
  intros (others & P & Ho). rewrite (ref_find_perm _ _ _ _ P), ref_find_begins, elements_filtered; [done | done | reflexivity | reflexivity | apply elements_begin].
Qed.

Lemma plist_elements_begin : existsb (begins "ip" "prefix-list") plist_elements = true /\ List.filter (begins "ip" "prefix-list") plist_elements = plist_elements.
Proof. vm_compute. done. Qed.

Lemma plist_words r v i l : has_plist_commands v -> ref_words string_match ("ip" :: "prefix-list" :: r) plist_elements 0 no_match = Some ([], i, l) ->
  ref_words string_match ("ip" :: "prefix-list" :: r) (somes v) 0 no_match = Some ([], i, l).
Proof.
  intros (others & P & Ho) E. destruct plist_elements_begin as [B1 B2]. apply (ref_words_perm_nil _ _ _ _ _ _ _ _ P).
  rewrite ref_words_begins, (elements_filtered others Ho); [| reflexivity | reflexivity | apply elements_begin].
  rewrite ref_words_begins, B2 in E; [exact E | reflexivity | reflexivity | exact B1].
Qed.

(** The alternatives at every position. *)
Lemma plist_positions k : (k < 11)%nat ->
  forall t, In t (position k plist_elements) -> In t (nth k [["ip"]; ["prefix-list"]; ["WORD"; "sequence-number"]; ["deny"; "permit"; "seq"; "description"];
    ["A.B.C.D/M"; "any"; "<1-4294967295>"; ".LINE"]; ["ge"; "le"; "deny"; "permit"]; ["A.B.C.D/M"; "any"; "<0-32>"]; ["ge"; "le"]; ["<0-32>"]; ["ge"; "le"]; ["<0-32>"]] []).
Proof.
  intros Hk t Ht. set (P := nth k _ _). assert (forallb (fun t => existsb (String.eqb t) P) (position k plist_elements) = true) as E.
  { unfold P. do 11 (destruct k as [|k]; [vm_compute; reflexivity |]). lia. }
  rewrite forallb_forall in E. specialize (E t Ht). apply existsb_exists in E as (x & Hx & ->%String.eqb_eq). done.
Qed.

#[local] Opaque plist_elements.

(** A line of at most eleven words selects what a line does whose words are alike. *)
Inductive alike_line : nat -> list string -> list string -> Prop :=
| al_nil k : alike_line k [] []
| al_same k w l l' : alike_line (S k) l l' -> alike_line k (w :: l) (w :: l')
| al_name nm l l' : nm <> "sequence-number" -> alike_line 3 l l' -> alike_line 2 (nm :: l) ("x" :: l')
| al_seq n l l' : 1 <= n < 2 ^ 32 -> alike_line 5 l l' -> alike_line 4 (dec n :: l) ("5" :: l')
| al_negative n l l' : 1 <= n <= 2 ^ 31 -> alike_line 5 l l' -> alike_line 4 (String "-" (dec n) :: l) ("-5" :: l')
| al_prefix a b c d len l l' : byte_ok a -> byte_ok b -> byte_ok c -> byte_ok d -> 0 <= len <= 32 -> alike_line 7 l l' ->
    alike_line 6 (prefix_text a b c d len :: l) ("1.2.3.4/24" :: l')
| al_bound k n l l' : k = 8%nat \/ k = 10%nat -> 0 <= n <= 32 -> alike_line (S k) l l' -> alike_line k (dec n :: l) ("5" :: l').

Lemma alike_line_words k l l' : alike_line k l l' -> List.length l = List.length l' /\
  forall i w w', l !! i = Some w -> l' !! i = Some w' -> alike string_match (position (k + i) plist_elements) w w'.
Proof.
  assert (forall k l l' w w', (List.length l = List.length l' /\
    forall i x x', l !! i = Some x -> l' !! i = Some x' -> alike string_match (position (S k + i) plist_elements) x x') -> alike string_match (position k plist_elements) w w' ->
    List.length (w :: l) = List.length (w' :: l') /\
    forall i x x', (w :: l) !! i = Some x -> (w' :: l') !! i = Some x' -> alike string_match (position (k + i) plist_elements) x x') as Hc.
  { clear. intros k l l' w w' [Hl Ha] Hw. split; [cbn; congruence |]. intros [|i] x x' Hx Hx'; cbn in Hx, Hx'.
    - injection Hx as <-. injection Hx' as <-. by rewrite Nat.add_0_r.
    - rewrite Nat.add_succ_r. by apply Ha. }
  induction 1; [split; [done |]; intros i w w' Hw; by rewrite lookup_nil in Hw | | | | | |]; (apply Hc; [done |]).
  - apply alike_refl.
  - eapply alike_incl; [apply (plist_positions 2); lia | by apply alike_name].
  - eapply alike_incl; [apply (plist_positions 4); lia | by apply alike_seq].
  - eapply alike_incl; [apply (plist_positions 4); lia | by apply alike_negative].
  - eapply alike_incl; [apply (plist_positions 6); lia | by apply alike_prefix].
  - destruct H0 as [-> | ->]; [eapply alike_incl; [apply (plist_positions 8); lia |] | eapply alike_incl; [apply (plist_positions 10); lia |]]; by apply alike_bound.
Qed.

Lemma plist_select v l l' e argv : has_plist_commands v -> alike_line 2 l l' -> selected string_match ("ip" :: "prefix-list" :: l') plist_elements = Some e ->
  ref_args ("ip" :: "prefix-list" :: l) e = Some argv ->
  find_command cmd_filter_by_string ("ip" :: "prefix-list" :: l) v = Ok (inr (e, argv)).
Proof.
  intros Hv Hl Hr Ha. apply (find_command_iff string_match). rewrite plist_find by assumption.
  assert (alike_line 0 ("ip" :: "prefix-list" :: l) ("ip" :: "prefix-list" :: l')) as Hal by (do 2 apply al_same; exact Hl).
  apply alike_line_words in Hal as [Hlen Hal]. exact (ref_find_alike _ _ _ _ _ _ Hlen Hal Hr Ha).
Qed.

(** A line that the commands of prefix lists refuse is refused by all of them. *)
Lemma plist_none v l l' i ty rest : has_plist_commands v -> alike_line 2 l l' -> ref_words string_match ("ip" :: "prefix-list" :: l') plist_elements 0 no_match = Some ([], i, ty) ->
  ty <> vararg_match -> find_command cmd_filter_by_string ("ip" :: "prefix-list" :: l ++ rest) v = Ok (inl CMD_ERR_NO_MATCH).
Proof.
  intros Hv Hl Hr Ht. assert (alike_line 0 ("ip" :: "prefix-list" :: l) ("ip" :: "prefix-list" :: l')) as Hal by (do 2 apply al_same; exact Hl).
  apply alike_line_words in Hal as [Hlen Hal]. pose proof (ref_words_alike _ _ _ plist_elements 0 no_match Hlen Hal) as El. rewrite Hr in El.
  pose proof (ref_words_app _ _ rest _ _ _ _ _ _ El Ht) as Ea. destruct (ref_words_nil (F := func_type) string_match rest i ty) as (i2 & l2 & En). rewrite En in Ea.
  apply (find_command_none string_match _ _ i2 l2). by apply plist_words.
Qed.
End Select.
