(* ===== verification/PlistConfigArgs.v ===== *)
(** * lib/plist.c: the arguments of the commands

    Every command of the file reads only arguments that the line passed. *)

From Stdlib Require Import Ascii.
From S2P Require Import Prelude CString Prefix Inet Plist PlistCmd PlistOps Command CommandProofs CommandConfig CommandClaims PlistConfig PlistConfigWords.
Local Open Scope Z_scope.

Definition plist_commands : list command := config_commands_ipv4 ++ enable_commands_ipv4 ++ config_commands_ipv6 ++ enable_commands_ipv6.

(** No position is optional, and only the last one takes the rest of the line. *)
Definition plain_syntax (sv : list (list string)) : bool := (cmd_cmdsize sv =? Z.of_nat (List.length sv)) && forallb (fun ts => negb (existsb CMD_VARARG ts)) (removelast sv).
Definition argument_count (sv : list (list string)) : nat := List.length (List.filter passes sv).

Lemma plist_syntax : forallb (fun c => plain_syntax (strvec (element_of c))) plist_commands = true.
Proof. vm_compute. reflexivity. Qed.

(** The function of a command returns when it gets as many arguments as its syntax has. *)
Lemma plist_funcs : Forall (fun c => forall argv junk, (argument_count (strvec (element_of c)) <= List.length argv)%nat -> exists o, c_func c argv junk = Ok o) plist_commands.
Proof.
  unfold plist_commands, config_commands_ipv4, config_commands_ipv6, enable_commands_ipv4, enable_commands_ipv6. cbn [app].
  repeat (apply List.Forall_cons; [intros argv junk Hl; vm_compute in Hl; do 6 (destruct argv as [|? argv]; [try (cbn in Hl; lia); eexists; reflexivity |]); eexists; reflexivity |]).
  apply List.Forall_nil.
Qed.

Lemma arguments_count sv vline : (List.length sv <= List.length vline)%nat -> (argument_count sv <= List.length (arguments sv vline))%nat.
Proof.
  unfold argument_count. revert vline. induction sv as [|ts sv IH]; intros [|w r] Hl; cbn in Hl; [cbn; lia | cbn; lia | lia |]. rewrite arguments_cons. cbn [List.filter].
  assert (List.length (List.filter passes sv) <= List.length (if takes_rest ts then r else arguments sv r))%nat as Hr.
  { destruct (takes_rest ts); [| apply IH; lia]. etransitivity; [apply filter_length_le |]. lia. }
  destruct (passes ts); rewrite length_app; cbn in *; lia.
Qed.

Lemma removelast_lookup {A} (l : list A) k x : l !! k = Some x -> (S k < List.length l)%nat -> In x (removelast l).
Proof.
  revert k. induction l as [|a l IH]; intros k Hk Hl; [by rewrite lookup_nil in Hk |]. destruct l as [|b l]; [cbn in Hl; lia |].
  change (removelast (a :: b :: l)) with (a :: removelast (b :: l)). destruct k as [|k]; [left; by injection Hk |]. right. apply (IH k); [done | cbn in *; lia].
Qed.

Section Args.
Context `{InetText}.

(** C21: no command on prefix lists, of IPv4 or IPv6, reads an argument that the line did not pass: when the search finds one of them for a line, among any commands, its function returns
    for the arguments that were collected. *)
Theorem plist_command_args c filter test vline v argv junk :
  In c plist_commands -> a_filter filter test -> Forall (fun e => rest_alone e = true) (somes v) ->
  find_command filter vline v = Ok (inr (element_of c, argv)) -> exists o, c_func c argv junk = Ok o.
Proof.
  intros Hc Hf Hv Hr. destruct (selection filter test vline v (element_of c) argv Hf Hv Hr) as (_ & (n & _ & Hend) & -> & _).
  pose proof plist_funcs as Hfs. rewrite List.Forall_forall in Hfs. apply (Hfs c Hc). apply arguments_count.
  pose proof plist_syntax as Hs. rewrite forallb_forall in Hs. specialize (Hs c Hc). apply andb_true_iff in Hs as [Hsz%Z.eqb_eq Hrest].
  change (cmdsize (element_of c)) with (cmd_cmdsize (strvec (element_of c))) in Hend. set (sv := strvec (element_of c)) in *.
  destruct Hend as [[-> Hn] | [Hn (t & Ht & Hva)]]; [lia |]. unfold alternatives in Ht. fold sv in Ht. destruct (sv !! n) as [ts|] eqn:E; [| done].
  destruct (decide (S n < List.length sv)%nat) as [Hlt |]; [exfalso | lia]. rewrite forallb_forall in Hrest. specialize (Hrest ts (removelast_lookup sv n ts E Hlt)).
  apply negb_true_iff, not_true_iff_false in Hrest. apply Hrest, existsb_exists. by exists t.
Qed.
End Args.

Definition ex_args_vector : list (option (cmd_element func_type)) := map (fun c => Some (element_of c)) config_commands_ipv4.
Definition ex_args_line : list string := ["ip"; "prefix-list"; "net"; "seq"; "5"; "permit"; "10.0.0.0/8"; "le"; "24"; "ge"; "16"].

Lemma ex_args_formed : Forall (fun e => rest_alone e = true) (somes ex_args_vector).
Proof. vm_compute. repeat constructor. Qed.
Lemma ex_args_found : find_command cmd_filter_by_string ex_args_line ex_args_vector = Ok (inr (element_of ip_prefix_list_seq_le_ge_cmd, ["net"; "5"; "permit"; "10.0.0.0/8"; "24"; "16"])).
Proof. vm_compute. reflexivity. Qed.

Lemma plist_command_args_witness : exists o, c_func ip_prefix_list_seq_le_ge_cmd ["net"; "5"; "permit"; "10.0.0.0/8"; "24"; "16"] prefix_new = Ok o.
Proof.
  apply (plist_command_args ip_prefix_list_seq_le_ge_cmd cmd_filter_by_string string_match ex_args_line ex_args_vector); [| constructor | exact ex_args_formed | exact ex_args_found].
  do 9 right. left. reflexivity.
Defined.
