(* ===== verification/PlistConfigText.v ===== *)
(** * lib/plist.c: the lines of a saved configuration

    The lines that [config_write_prefix_afi] writes for a list, as words; which command each selects, with which arguments.

    lib/plist.c: the text of a saved configuration.  [config_write_prefix_afi] writes, list by list in the order of the master, these lines; every line is short enough for the
    buffer of [config_from_file]. *)

From Stdlib Require Import Ascii.
From stdpp Require Import sorting.
From S2P Require Import Prelude CString Prefix Inet PrefixText DList Plist PlistCmd PlistRep PlistEntry PlistLists PlistRefine PlistOps PlistRules Command CommandProofs CommandConfig PlistConfig PlistConfigWords.
Local Open Scope Z_scope.

(** An IPv4 prefix as the commands store it. *)
Definition stored_prefix (p : prefix) : Prop := exists a b c d len,
  p = mk_prefix AF_INET len ([a; b; c; d] ++ replicate 12 0) /\ byte_ok a /\ byte_ok b /\ byte_ok c /\ byte_ok d /\ 0 <= len <= 32.

(** [0.0.0.0/0] *)
Definition any_prefix : prefix := mk_prefix AF_INET 0 (replicate 16 0).

(** The entries that can be written and read back: the sequence number is positive as [int], and the rest is as the commands make it. *)
Record savable (e : entry) : Prop := {
  sv_seq : 1 <= e_seq e <= INT_MAX;
  sv_prefix : stored_prefix (e_prefix e);
  sv_ge : 0 <= e_ge e <= 32;
  sv_le : 0 <= e_le e <= 32;
  sv_range : invalid_range (prefixlen (e_prefix e)) (e_ge e) (e_le e) = false;
  sv_normal : e_ge e <> 0 -> e_le e <> 32;
  sv_any : e_any e = 0 \/ e_any e = 1 /\ e_prefix e = any_prefix /\ e_ge e = 0 /\ e_le e = 32 }.

(** ** Words *)

Definition ptext (p : prefix) : string := match u p with a :: b :: c :: d :: _ => prefix_text a b c d (prefixlen p) | _ => "" end.
Definition bound_words (w : string) (n : Z) : list string := if n =? 0 then [] else [w; dec n].
Definition prefix_words (e : entry) : list string :=
  if e_any e =? 0 then ptext (e_prefix e) :: bound_words "ge" (e_ge e) ++ bound_words "le" (e_le e) else ["any"].
Definition entry_words (nm : string) (e : entry) : list string :=
  "ip" :: "prefix-list" :: nm :: "seq" :: dec (e_seq e) :: prefix_list_type_str e :: prefix_words e.
Definition desc_words (nm : string) (ws : list string) : list string := "ip" :: "prefix-list" :: nm :: "description" :: ws.

(** The call that the line of an entry makes. *)
Definition bound_arg (n : Z) : option string := if n =? 0 then None else Some (dec n).
Definition entry_op (nm : string) (e : entry) (junk : prefix) : op :=
  Install AFI_IP nm (Some (dec (e_seq e))) (prefix_list_type_str e) (if e_any e =? 0 then ptext (e_prefix e) else "any")
    (if e_any e =? 0 then bound_arg (e_ge e) else None) (if e_any e =? 0 then bound_arg (e_le e) else None) junk.

(** ** Selection *)

Section Select.
Context `{InetText}.

(** [find_command] selects an element whose function makes the call [o]. *)
Definition selects (v : list (option (cmd_element func_type))) (line : list string) (o : prefix -> op) : Prop :=
  exists e argv, find_command cmd_filter_by_string line v = Ok (inr (e, argv)) /\ daemon e = 0 /\ forall junk, func e argv junk = Ok (o junk).

Ltac alike_words := repeat first [apply al_nil | apply al_name; [done |] | apply al_seq; [unfold INT_MAX in *; lia |] | apply al_prefix; [done | done | done | done | done |]
    | apply al_bound; [by auto | done |] | apply al_same].
Ltac select_command c rep := let x := constr:(element_of c) in exists x; eexists; split;
  [eapply (plist_select _ _ rep x); [assumption | alike_words | vm_compute; reflexivity | cbv -[dec prefix_text]; reflexivity]
  | split; [reflexivity | intros junk; cbv -[dec prefix_text]; reflexivity]].

Lemma entry_selected v nm e : has_plist_commands v -> nm <> "sequence-number" -> savable e -> selects v (entry_words nm e) (entry_op nm e).
Proof.
  intros Hv Hn [Hs (a & b & c & d & len & Hp & Ha & Hb & Hc & Hd & Hl) Hge Hle _ _ Hany]. unfold entry_words, entry_op, prefix_words, bound_words, bound_arg, ptext.
  rewrite Hp. cbn [u prefixlen app]. unfold prefix_list_type_str.
  destruct (Z.eqb_spec (e_any e) 0) as [E | E], (Z.eqb_spec (e_ge e) 0) as [Eg | Eg], (Z.eqb_spec (e_le e) 0) as [El | El], (e_type e); cbn [app].
  - select_command ip_prefix_list_seq_cmd ["x"; "seq"; "5"; "deny"; "1.2.3.4/24"].
  - select_command ip_prefix_list_seq_cmd ["x"; "seq"; "5"; "permit"; "1.2.3.4/24"].
  - select_command ip_prefix_list_seq_le_cmd ["x"; "seq"; "5"; "deny"; "1.2.3.4/24"; "le"; "5"].
  - select_command ip_prefix_list_seq_le_cmd ["x"; "seq"; "5"; "permit"; "1.2.3.4/24"; "le"; "5"].
  - select_command ip_prefix_list_seq_ge_cmd ["x"; "seq"; "5"; "deny"; "1.2.3.4/24"; "ge"; "5"].
  - select_command ip_prefix_list_seq_ge_cmd ["x"; "seq"; "5"; "permit"; "1.2.3.4/24"; "ge"; "5"].
  - select_command ip_prefix_list_seq_ge_le_cmd ["x"; "seq"; "5"; "deny"; "1.2.3.4/24"; "ge"; "5"; "le"; "5"].
  - select_command ip_prefix_list_seq_ge_le_cmd ["x"; "seq"; "5"; "permit"; "1.2.3.4/24"; "ge"; "5"; "le"; "5"].
  - select_command ip_prefix_list_seq_cmd ["x"; "seq"; "5"; "deny"; "any"].
  - select_command ip_prefix_list_seq_cmd ["x"; "seq"; "5"; "permit"; "any"].
  - select_command ip_prefix_list_seq_cmd ["x"; "seq"; "5"; "deny"; "any"].
  - select_command ip_prefix_list_seq_cmd ["x"; "seq"; "5"; "permit"; "any"].
  - select_command ip_prefix_list_seq_cmd ["x"; "seq"; "5"; "deny"; "any"].
  - select_command ip_prefix_list_seq_cmd ["x"; "seq"; "5"; "permit"; "any"].
  - select_command ip_prefix_list_seq_cmd ["x"; "seq"; "5"; "deny"; "any"].
  - select_command ip_prefix_list_seq_cmd ["x"; "seq"; "5"; "permit"; "any"].
Qed.

(** The line of a description. *)
Definition desc_op (nm : string) (ws : list string) (junk : prefix) : op := Description AFI_IP nm (Some (concat_words ws)).

Lemma desc_args nm ws : Z.of_nat (List.length ws) < 24 -> ref_args (desc_words nm ws) (element_of ip_prefix_list_description_cmd) = Some (nm :: ws).
Proof.
  intros Hl. unfold ref_args.
  assert (strvec (element_of ip_prefix_list_description_cmd) = [["ip"]; ["prefix-list"]; ["WORD"]; ["description"]; [".LINE"]]) as -> by reflexivity.
  rewrite collect_args_spec by (unfold CMD_ARGC_MAX; lia || by right; right). cbv zeta. unfold desc_words. rewrite !arguments_cons.
  assert (arguments [[".LINE"]] ws = ws) as -> by (destruct ws as [|w ws]; [done |]; by rewrite arguments_cons).
  change (takes_rest ["ip"]) with false. change (takes_rest ["prefix-list"]) with false. change (takes_rest ["WORD"]) with false. change (takes_rest ["description"]) with false.
  change (passes ["ip"]) with false. change (passes ["prefix-list"]) with false. change (passes ["WORD"]) with true. change (passes ["description"]) with false. cbn [app List.length].
  destruct (Z.ltb_spec (0 + Z.of_nat (S (List.length ws))) CMD_ARGC_MAX); [done | unfold CMD_ARGC_MAX in *; lia].
Qed.

Lemma desc_words_selected nm w ws : nm <> "sequence-number" ->
  ref_words string_match (desc_words nm (w :: ws)) plist_elements 0 no_match = Some ([element_of ip_prefix_list_description_cmd], 4%nat, vararg_match).
Proof.
  intros Hn. change (desc_words nm (w :: ws)) with (["ip"; "prefix-list"; nm; "description"] ++ w :: ws).
  assert (alike_line 0 ["ip"; "prefix-list"; nm; "description"] ["ip"; "prefix-list"; "x"; "description"]) as Hal by (do 2 apply al_same; apply al_name; [done |]; apply al_same, al_nil).
  apply alike_line_words in Hal as [Hlen Hal]. pose proof (ref_words_alike _ _ _ plist_elements 0 no_match Hlen Hal) as E.
  assert (ref_words string_match ["ip"; "prefix-list"; "x"; "description"] plist_elements 0 no_match = Some ([element_of ip_prefix_list_description_cmd], 4%nat, exact_match)) as E'
    by (vm_compute; reflexivity).
  rewrite E' in E. rewrite (ref_words_app _ _ _ _ _ _ _ _ _ E) by done. rewrite ref_words_cons. reflexivity.
Qed.

Lemma desc_selected v nm ws : has_plist_commands v -> nm <> "sequence-number" -> ws <> [] -> Z.of_nat (List.length ws) < 24 -> selects v (desc_words nm ws) (desc_op nm ws).
Proof.
  intros Hv Hn Hws Hl. exists (element_of ip_prefix_list_description_cmd), (nm :: ws). split; [| split; [reflexivity |]].
  - apply (find_command_iff string_match). unfold desc_words at 1. rewrite plist_find by done. fold (desc_words nm ws). destruct ws as [|w ws]; [done |]. unfold ref_find.
    rewrite (desc_words_selected nm w ws Hn). cbn [mbind option_bind]. change (ref_select _ _ _) with (Some (element_of ip_prefix_list_description_cmd)). cbn [mbind option_bind].
    by rewrite desc_args.
  - intros junk. destruct ws; [done |]. reflexivity.
Qed.
End Select.

(** ** lib/plist.c: the text of a saved configuration *)

(** [inet_ntop] writes IPv4 addresses in dotted decimal. *)
Class Inet4Dotted `{InetText} : Prop := {
  inet4_dotted : forall a b c d rest size, byte_ok a -> byte_ok b -> byte_ok c -> byte_ok d -> 16 <= size ->
    inet_ntop AF_INET ([a; b; c; d] ++ rest) size = Some (dotted a b c d)
}.

#[export] Instance sockunion_dotted : Inet4Dotted.
Proof.
  split. intros a b c d rest size Ha Hb Hc Hd Hs.
  change (inet_ntop AF_INET ([a; b; c; d] ++ rest) size) with
    (let temp := String.substring 0 15 (dotted a b c d) in if Z.of_nat (String.length temp) >=? size then None else Some temp). cbv zeta.
  pose proof (dotted_length a b c d Ha Hb Hc Hd). rewrite substring_all by done. destruct (Z.geb_spec (Z.of_nat (String.length (dotted a b c d))) size); [lia | done].
Qed.

(** ** Lists that can be saved *)

Record savable_list (nm : string) (c : option string * list entry) : Prop := {
  sl_word : is_word nm = true;
  sl_name : nm <> "sequence-number";
  sl_fits : name_fits nm;
  sl_short : (String.length nm < 400)%nat;
  sl_desc : match c.1 with
            | None => True
            | Some d => exists ws, d = concat_words ws /\ ws <> [] /\ Forall (fun w => is_word w = true) ws /\ Z.of_nat (List.length ws) < 24 /\
                (String.length nm + String.length d < 480)%nat
            end;
  sl_entries : Forall savable c.2 }.

(** The lines of a list. *)
Definition list_lines (nm : string) (c : option string * list entry) (ls : list (list string)) : Prop :=
  match c.1 with
  | None => ls = map (entry_words nm) c.2
  | Some d => exists ws, d = concat_words ws /\ ws <> [] /\ Forall (fun w => is_word w = true) ws /\ Z.of_nat (List.length ws) < 24 /\ ls = desc_words nm ws :: map (entry_words nm) c.2
  end.

(** ** Words and lengths *)

Lemma digits_no_spaces s : all_digits s = true -> no_spaces s = true.
Proof. induction s as [|c s IH]; [done |]. intros [Hc Hs]%all_digits_cons. cbn. destruct (isdigit_char c Hc) as (-> & _). by apply IH. Qed.

Lemma dec_word n : 0 <= n -> is_word (dec n) = true.
Proof. intros Hn. unfold is_word. rewrite digits_no_spaces by by apply dec_digits. destruct (dec_cons n Hn) as (c & s & -> & _). done. Qed.

Lemma no_spaces_sapp a b : no_spaces (sapp a b) = no_spaces a && no_spaces b.
Proof. induction a as [|c a IH]; cbn; [done |]. by rewrite IH, andb_assoc. Qed.

Lemma prefix_text_word a b c d len : byte_ok a -> byte_ok b -> byte_ok c -> byte_ok d -> 0 <= len -> is_word (prefix_text a b c d len) = true.
Proof.
  intros Ha Hb Hc Hd Hl. unfold byte_ok in *. unfold is_word, prefix_text, dotted. repeat (rewrite no_spaces_sapp; cbn [no_spaces]).
  rewrite !digits_no_spaces by (apply dec_digits; lia). destruct (dec_cons a) as (x & s & -> & _); [lia |]. done.
Qed.

Lemma dec_acc_length f n acc : (String.length (dec_acc f n acc) <= f + String.length acc)%nat.
Proof. revert n acc. induction f as [|f IH]; intros n acc; cbn [dec_acc]; [lia |]. destruct (n / 10 =? 0); [cbn; lia |]. specialize (IH (n / 10) (String (digit (n mod 10)) acc)). cbn in *. lia. Qed.

Lemma dec_short n : (String.length (dec n) <= 10)%nat.
Proof. pose proof (dec_acc_length 10 n EmptyString). unfold dec. cbn [String.length] in *. lia. Qed.

Lemma ptext_short a b c d len : byte_ok a -> byte_ok b -> byte_ok c -> byte_ok d -> (String.length (prefix_text a b c d len) <= 26)%nat.
Proof. intros Ha Hb Hc Hd. unfold prefix_text. rewrite length_sapp. cbn [String.length]. pose proof (dotted_length a b c d Ha Hb Hc Hd). pose proof (dec_short len). lia. Qed.

(** The length of a line is that of its words with a separator after each. *)
Fixpoint words_length (ws : list string) : nat := match ws with [] => 0 | w :: r => S (String.length w + words_length r) end.

Lemma line_of_length w ws : String.length (line_of (w :: ws)) = words_length (w :: ws).
Proof.
  revert w. induction ws as [|w' ws IH]; intros w; [cbn; rewrite length_sapp; cbn; lia |]. rewrite line_of_word, length_sapp. cbn [String.length]. rewrite IH. cbn. lia.
Qed.

Lemma entry_readable nm e : is_word nm = true -> (String.length nm < 400)%nat -> savable e -> readable (entry_words nm e).
Proof.
  intros Hn Hl [Hs (a & b & c & d & len & Hp & Ha & Hb & Hc & Hd & Hlen) Hge Hle _ _ _]. unfold readable, entry_words, prefix_words, bound_words, ptext. rewrite Hp. cbn [u prefixlen app].
  assert (Forall (fun w => is_word w = true) ["ip"; "prefix-list"; nm; "seq"; dec (e_seq e); prefix_list_type_str e]) as Hw.
  { repeat constructor; [done | apply dec_word; lia |]. unfold prefix_list_type_str. by destruct (e_type e). }
  pose proof (prefix_text_word a b c d len Ha Hb Hc Hd ltac:(lia)) as Hpw. pose proof (dec_word (e_ge e) ltac:(lia)) as Hgw. pose proof (dec_word (e_le e) ltac:(lia)) as Hlw.
  pose proof (ptext_short a b c d len Ha Hb Hc Hd). pose proof (dec_short (e_seq e)). pose proof (dec_short (e_ge e)). pose proof (dec_short (e_le e)).
  assert (String.length (prefix_list_type_str e) <= 6)%nat by (unfold prefix_list_type_str; destruct (e_type e); cbn; lia).
  rewrite line_of_length. split; [| split; [done |]].
  - apply (List.Forall_app _ ["ip"; "prefix-list"; nm; "seq"; dec (e_seq e); prefix_list_type_str e]). split; [done |].
    destruct (e_any e =? 0); [| by repeat constructor]. constructor; [done |]. apply List.Forall_app. split; destruct (_ =? 0); by repeat constructor.
  - unfold VTY_BUFSIZ. destruct (e_any e =? 0), (e_ge e =? 0), (e_le e =? 0); cbn [words_length app String.length]; lia.
Qed.

Lemma concat_words_length w ws : S (String.length (concat_words (w :: ws))) = words_length (w :: ws).
Proof. revert w. induction ws as [|w' ws IH]; intros w; [cbn; lia |]. change (concat_words (w :: w' :: ws)) with (sapp w (String " " (concat_words (w' :: ws)))). rewrite length_sapp. cbn [String.length]. rewrite IH. cbn. lia. Qed.

Lemma desc_readable nm ws : is_word nm = true -> ws <> [] -> Forall (fun w => is_word w = true) ws -> (String.length nm + String.length (concat_words ws) < 480)%nat ->
  readable (desc_words nm ws).
Proof.
  intros Hn Hws Hw Hl. unfold readable, desc_words. rewrite line_of_length. split; [by repeat constructor | split; [done |]]. destruct ws as [|w ws]; [done |].
  pose proof (concat_words_length w ws). unfold VTY_BUFSIZ. cbn [words_length String.length] in *. lia.
Qed.

(** ** Writing *)

Lemma line_of_concat w ws : line_of (w :: ws) = sapp (concat_words (w :: ws)) newline.
Proof.
  revert w. induction ws as [|w' ws IH]; intros w; [done |]. rewrite line_of_word, IH. change (concat_words (w :: w' :: ws)) with (sapp w (String " " (concat_words (w' :: ws)))).
  rewrite sapp_assoc. done.
Qed.

Lemma sdec_dec n : 0 <= n -> sdec n = dec n.
Proof. intros Hn. unfold sdec. destruct (Z.ltb_spec n 0); [lia | done]. Qed.

Lemma desc_text nm ws : ws <> [] -> concat_texts ["ip"; afi_str AFI_IP; " prefix-list "; nm; " description "; concat_words ws; VTY_NEWLINE] = line_of (desc_words nm ws).
Proof.
  intros Hws. unfold desc_words. destruct ws as [|w ws]; [done |]. rewrite !(line_of_word "ip"), !(line_of_word "prefix-list"), !(line_of_word nm), !(line_of_word "description").
  rewrite line_of_concat. cbn [concat_texts sapp afi_str]. by rewrite sapp_nil_r.
Qed.

Section Write.
Context `{Inet4Dotted}.

Lemma entry_text nm e seqnum : savable e -> seqnum <> 0 -> write_entry AFI_IP seqnum nm e = Ok (line_of (entry_words nm e)).
Proof.
  intros [Hs (a & b & c & d & len & Hp & Ha & Hb & Hc & Hd & Hlen) Hge Hle _ _ _] Hn. unfold write_entry, entry_words, prefix_words, bound_words, ptext.
  rewrite (proj2 (Z.eqb_neq _ _) Hn), !sdec_dec by lia. rewrite Hp. cbn [family u prefixlen negb]. rewrite inet4_dotted by (done || (unfold BUFSIZ; lia)).
  destruct (e_any e =? 0), (e_ge e =? 0), (e_le e =? 0); cbn [negb]; rewrite ?bind_ret; f_equal; cbn [app line_of concat_texts]; unfold prefix_text, newline, VTY_NEWLINE, prefix_list_type_str;
    change (afi_str AFI_IP) with ""; destruct (e_type e); repeat (rewrite ?sapp_assoc; cbn [sapp]); rewrite ?sapp_nil_r; reflexivity.
Qed.

Lemma text_of_app a b : text_of (a ++ b) = sapp (text_of a) (text_of b).
Proof. induction a as [|l a IH]; cbn; [done |]. by rewrite IH, sapp_assoc. Qed.

Lemma entries_text h xs es nm seqnum : Forall savable es -> seqnum <> 0 -> forall p fuel, dseg h p xs None -> bodies h xs es -> (List.length xs < fuel)%nat ->
  write_entries fuel h AFI_IP seqnum nm (nxt xs None) = Ok (text_of (map (entry_words nm) es), Z.of_nat (List.length es)).
Proof.
  intros Hs Hn p fuel S B. revert Hs p fuel S. induction B as [|t e xs es Hb B IH]; intros Hs p fuel S Hf; [by destruct fuel |].
  inversion_clear Hs as [| ? ? He Hs']. destruct fuel as [|fu]; [lia |]. destruct S as [(n & Hx & _ & Hnx) S]. cbn [nxt write_entries]. rewrite (nd_get_Ok _ _ _ Hx), bind_ret, Hnx.
  rewrite Hx in Hb. cbn in Hb. injection Hb as Hb. rewrite Hb, entry_text, bind_ret by done. rewrite (IH Hs' _ _ S) by (cbn in Hf; lia). rewrite bind_ret. cbn [map text_of List.length].
  f_equal. f_equal. lia.
Qed.

(** What is written of one list: its name, its contents and its lines. *)
Record block := mk_block { b_name : string; b_content : option string * list entry; b_lines : list (list string) }.
Definition block_of (A : abs) (m : master_id) (b : block) : Prop := A m !! b_name b = Some (b_content b) /\ list_lines (b_name b) (b_content b) (b_lines b).

Lemma desc_lines nm c pl : savable_list nm c -> name pl = nm -> desc pl = c.1 ->
  exists ls, list_lines nm c ls /\ sapp (write_desc AFI_IP pl).1 (text_of (map (entry_words nm) c.2)) = text_of ls.
Proof.
  intros Hs <- Hd. unfold list_lines, write_desc. pose proof (sl_desc _ _ Hs) as Hw. rewrite Hd. destruct c.1 as [d|]; [| by eexists].
  destruct Hw as (ws & -> & Hws & Hw & Hl & _). eexists. split; [by exists ws |]. cbn [fst text_of]. by rewrite desc_text.
Qed.

Lemma lists_text s A L E m k seqnum : rep s A L E [] -> (forall nm c, A m !! nm = Some c -> savable_list nm c) -> seqnum <> 0 ->
  forall xs q fuel nms, dseg (lmem s) q xs None -> Forall2 (fun p nm => key (lmem s) p = Some (m, k, nm)) xs nms -> (List.length xs < fuel)%nat ->
  exists bs n, write_lists fuel s AFI_IP seqnum (nxt xs None) = Ok (text_of (flat_map b_lines bs), n) /\ map b_name bs = nms /\ Forall (block_of A m) bs.
Proof.
  intros R Hs Hn. induction xs as [|p xs IH]; intros q fuel nms S F Hf; inversion F as [|? nm ? nms' Hp F']; subst; [exists [], 0; by destruct fuel |].
  destruct fuel as [|fu]; [lia |]. destruct S as [(n & Hx & _ & Hnx) S]. rewrite (key_Some _ _ _ Hx) in Hp. injection Hp as Em Ek En.
  destruct (rep_content R p n Hx) as (es & Ha & D & B & _). rewrite Em, En in Ha. pose proof (Hs _ _ Ha) as Hsv.
  destruct (IH (Some p) fu nms' S F') as (bs & w & Hw & <- & Hbs); [cbn in Hf; lia |].
  destruct (desc_lines nm (desc (body n), es) (body n) Hsv En eq_refl) as (ls & Hls & Ht).
  exists (mk_block nm (desc (body n), es) ls :: bs). cbn [nxt write_lists]. rewrite (nd_get_Ok _ _ _ Hx), bind_ret, Hnx, En.
  destruct (write_desc AFI_IP (body n)) as [d dn]. rewrite (dl_head _ _ _ D).
  rewrite (entries_text _ _ es nm seqnum (sl_entries _ _ Hsv) Hn _ _ (dl_seg _ _ _ D) B) by (by eapply dll_size). rewrite bind_ret, Hw, bind_ret.
  eexists. split; [cbn [flat_map b_lines]; rewrite text_of_app, <- Ht; cbn [fst snd]; by rewrite sapp_assoc |]. split; [done |]. by constructor.
Qed.

Lemma names_nodup h ms L m k xs nms : lrep h ms L -> NoDup xs -> Forall2 (fun p nm => key h p = Some (m, k, nm)) xs nms -> NoDup nms.
Proof.
  intros R Hx F. induction F as [|p nm xs nms Hp F IH]; [constructor |]. apply NoDup_cons in Hx as [Hp' Hx]. apply NoDup_cons. split; [| by apply IH].
  intros (i & Hi)%list_elem_of_lookup. destruct (Forall2_lookup_r _ _ _ _ _ F Hi) as (p' & Hi' & Hk). cbn in Hk. apply Hp'. rewrite (lrep_unique _ _ _ p p' m k k nm R Hp Hk).
  by eapply list_elem_of_lookup_2.
Qed.

Lemma names_type h ms L m k xs nms nm : lrep h ms L -> Forall2 (fun p nm => key h p = Some (m, k, nm)) xs nms -> nm ∈ nms -> name_type nm = k.
Proof.
  intros R F (i & Hi)%list_elem_of_lookup. destruct (Forall2_lookup_r _ _ _ _ _ F Hi) as (p' & _ & Hk). cbn in Hk. symmetry. by eapply l_type.
Qed.

Lemma config_text s A : reps s A -> (forall nm c, A prefix_master_ipv4 !! nm = Some c -> savable_list nm c) -> seqnum (masters s prefix_master_ipv4) <> 0 ->
  exists bs n, config_write_prefix_afi s AFI_IP = Ok (text_of (flat_map b_lines bs), n) /\ Forall (block_of A prefix_master_ipv4) bs /\ NoDup (map b_name bs) /\
    forall nm c, A prefix_master_ipv4 !! nm = Some c -> nm ∈ map b_name bs.
Proof.
  intros (L & E & R) Hs Hn. set (m := prefix_master_ipv4) in *. unfold config_write_prefix_afi. change (prefix_master_get AFI_IP) with (Some m). cbv iota zeta.
  rewrite (proj2 (Z.eqb_neq _ _) Hn).
  assert (forall k, exists nms bs n, write_lists (walk_fuel (lmem s)) s AFI_IP (seqnum (masters s m)) (head (sub_list k (masters s m))) = Ok (text_of (flat_map b_lines bs), n) /\
    map b_name bs = nms /\ Forall (block_of A m) bs /\ NoDup nms /\ (forall nm, nm ∈ nms -> name_type nm = k) /\ forall nm c, A m !! nm = Some c -> name_type nm = k -> nm ∈ nms) as Hk.
  { intros k. destruct (lists_names s A L E m k R) as (nms & F & Hnm). pose proof (l_lists _ _ _ (proj1 R) m k) as D.
    destruct (lists_text s A L E m k (seqnum (masters s m)) R Hs Hn (L m k) None (walk_fuel (lmem s)) nms (dl_seg _ _ _ D) F) as (bs & n & Hw & Hb & Hbs); [by eapply dll_size |].
    exists nms, bs, n. rewrite (dl_head _ _ _ D). split_and!; try done; [by eapply names_nodup; [apply R | apply D | exact F] | intros nm; by eapply names_type; [apply R | exact F]]. }
  destruct (Hk PREFIX_TYPE_NUMBER) as (n1 & b1 & w1 & H1 & E1 & F1 & U1 & T1 & C1). destruct (Hk PREFIX_TYPE_STRING) as (n2 & b2 & w2 & H2 & E2 & F2 & U2 & T2 & C2).
  cbn [sub_list] in H1, H2. rewrite H1, bind_ret, H2, bind_ret. exists (b1 ++ b2), (w1 + w2). rewrite flat_map_app, text_of_app, map_app, E1, E2.
  split; [done |]. split; [by apply Forall_app |]. split.
  - apply NoDup_app. split; [done |]. split; [| done]. intros nm Hi Hi'. specialize (T1 nm Hi). specialize (T2 nm Hi'). congruence.
  - intros nm c Ha. apply elem_of_app. destruct (name_type nm) eqn:Et; [right; by eapply C2 | left; by eapply C1].
Qed.
End Write.
