(* ===== verification/PlistConfigRead.v ===== *)
(** * lib/plist.c: reading a saved configuration

    What the lines of a list do when they are read: the description and the entries come back, one after the other, with counters at zero. *)

From stdpp Require Import sorting.
From Stdlib Require Import Ascii.
From S2P Require Import Prelude CString Prefix Inet PrefixText DList Plist PlistCmd PlistRep PlistEntry PlistRefine PlistOps PlistRules Command CommandConfig PlistConfig PlistConfigWords PlistConfigText.
Local Open Scope Z_scope.

(** ** The entry of a line *)

Section Entry.
Context `{Inet4Laws} `{!Inet4Dotted}.

Lemma aton_dotted a b c d : byte_ok a -> byte_ok b -> byte_ok c -> byte_ok d -> inet_aton (dotted a b c d) = Some [a; b; c; d] /\ has_char slash (dotted a b c d) = false.
Proof.
  intros Ha Hb Hc Hd. destruct (inet4_text [a; b; c; d]) as (s & Hs & Haton & _ & Hn); [done | repeat (apply List.Forall_cons; [done |]); apply List.Forall_nil |].
  specialize (Hn [] 16 ltac:(lia)). rewrite inet4_dotted in Hn by (done || lia). by injection Hn as <-.
Qed.

Lemma read_prefix a b c d len q : byte_ok a -> byte_ok b -> byte_ok c -> byte_ok d -> 0 <= len <= 32 ->
  exists p, str2prefix_ipv4 (prefix_text a b c d len) q = (1, p) /\ prefixlen p = len /\ family p = AF_INET /\ copied p = mk_prefix AF_INET len ([a; b; c; d] ++ replicate 12 0).
Proof.
  intros Ha Hb Hc Hd Hl. destruct (aton_dotted a b c d Ha Hb Hc Hd) as [E Hs]. unfold prefix_text. rewrite (str2prefix_ipv4_slash _ _ _ q Hs E) by lia.
  rewrite Z.mod_small by lia. destruct (Z.leb_spec len 32); [| lia]. eexists. split; [reflexivity |]. done.
Qed.

Lemma atoi_int_dec n : 0 <= n <= INT_MAX -> atoi_int (dec n) = n.
Proof. intros Hn. unfold atoi_int, INT_MAX in *. rewrite atoi_dec by lia. unfold signed. rewrite wrap_small by (unfold in_u; lia). destruct (Z.ltb_spec n (2 ^ (32 - 1))); lia. Qed.

Lemma bound_atoi n : 0 <= n <= 32 -> opt_atoi (bound_arg n) 0 = n.
Proof. intros Hn. unfold bound_arg. destruct (Z.eqb_spec n 0) as [-> |]; [done |]. cbn. apply atoi_int_dec. unfold INT_MAX. lia. Qed.

Lemma text_not_any a b c d len : byte_ok a -> (strncmp "any" (prefix_text a b c d len) (String.length (prefix_text a b c d len)) =? 0) = false.
Proof.
  intros Ha. unfold strncmp. rewrite (substring_all _ (prefix_text a b c d len)) by done. unfold prefix_text, dotted. destruct (dec_cons a) as (x & s & -> & Hx & _); [unfold byte_ok in *; lia |].
  cbn [sapp String.length String.substring]. apply Z.eqb_neq. rewrite strcmp_0. intros [= <- _]. discriminate Hx.
Qed.

Lemma entry_command e junk : savable e ->
  command_entry AFI_IP (Some (dec (e_seq e))) (prefix_list_type_str e) (if e_any e =? 0 then ptext (e_prefix e) else "any")
    (if e_any e =? 0 then bound_arg (e_ge e) else None) (if e_any e =? 0 then bound_arg (e_le e) else None) junk = Some (rule e).
Proof.
  intros [Hs (a & b & c & d & len & Hp & Ha & Hb & Hc & Hd & Hl) Hge Hle Hr Hno Hany]. unfold command_entry.
  assert (filter_type (prefix_list_type_str e) = Some (e_type e)) as -> by (unfold prefix_list_type_str; by destruct (e_type e)).
  cbn [opt_atoi]. rewrite atoi_int_dec by lia. unfold prefix_arg. change (AFI_IP =? AFI_IP) with true. cbn match. destruct Hany as [E | (E & Ep & Eg & El)].
  - rewrite E. cbn [Z.eqb]. unfold ptext. rewrite Hp. cbn [u app prefixlen]. rewrite text_not_any by done. destruct (read_prefix a b c d len junk Ha Hb Hc Hd Hl) as (p & -> & Epl & _ & Ec).
    rewrite !bound_atoi, Epl by done. rewrite Hp in Hr. cbn [prefixlen] in Hr. cbn [Z.leb Z.compare orb]. rewrite Hr. f_equal. unfold made, rule. rewrite Ec.
    assert (normal_le AFI_IP (e_ge e) (e_le e) = e_le e) as ->.
    { unfold normal_le. change (AFI_IP =? AFI_IP) with true. cbn match. destruct (Z.eqb_spec (e_ge e) 0); [done |]. cbn [negb andb]. destruct (Z.eqb_spec (e_le e) 32); [by destruct Hno | done]. }
    rewrite <- Hp. destruct e; cbn in *; by subst.
  - rewrite E. cbn [Z.eqb]. change (strncmp "any" "any" (String.length "any") =? 0) with true. cbn match.
    change "0.0.0.0/0"%string with (prefix_text 0 0 0 0 0). destruct (read_prefix 0 0 0 0 0 junk) as (p & -> & Epl & _ & Ec); [unfold byte_ok; lia .. |].
    cbn [opt_atoi Z.leb Z.compare orb]. rewrite Epl. change (invalid_range 0 0 IPV4_MAX_BITLEN) with false. cbn match. f_equal. unfold made, rule. rewrite Ec.
    change (normal_le AFI_IP 0 IPV4_MAX_BITLEN) with 32. change (mk_prefix AF_INET 0 ([0; 0; 0; 0] ++ replicate 12 0)) with any_prefix. clear Hp. destruct e; cbn in *; by subst.
Qed.
End Entry.

(** ** The contents of a list *)

(** What is left of the contents of a list: its rules with counters at zero, nothing of a list without description and entries. *)
Definition saved (c : option string * list entry) : option (option string * list entry) :=
  match c with (None, []) => None | (d, es) => Some (d, map rule es) end.

Lemma rule_seq e : e_seq (rule e) = e_seq e.
Proof. done. Qed.
Lemma same_policy_rule a b : same_policy (rule a) (rule b) = same_policy a b.
Proof. done. Qed.

Lemma insert_seq_last e es : (forall x, x ∈ es -> e_seq x < e_seq e) -> insert_seq e es = es ++ [e].
Proof.
  induction es as [|x es IH]; intros Hx; [done |]. cbn. destruct (Z.leb_spec (e_seq e) (e_seq x)); [specialize (Hx x ltac:(by left)); lia |].
  rewrite IH; [done |]. intros y Hy. apply Hx. by right.
Qed.

Lemma sorted_before es1 e es2 x : StronglySorted seq_lt (es1 ++ e :: es2) -> x ∈ es1 -> e_seq x < e_seq e.
Proof.
  induction es1 as [|y es1 IH]; [by intros _ ?%elem_of_nil |]. cbn. intros [S F]%StronglySorted_inv Hx. apply elem_of_cons in Hx as [-> | Hx]; [| by apply IH].
  rewrite list.Forall_forall in F. apply F. apply elem_of_app. right. by left.
Qed.

Lemma add_next A m nm d es1 e es2 : entries_wf (es1 ++ e :: es2) -> e_seq e <> -1 -> contents_of A m nm = (d, map rule es1) ->
  spec_add A m nm (rule e) = (aset A m nm (d, map rule (es1 ++ [e])), CMD_SUCCESS).
Proof.
  intros [Hs Hd] Hn Hc. unfold spec_add. rewrite Hc. unfold seq_for. rewrite rule_seq, (proj2 (Z.eqb_neq _ _) Hn).
  assert (forall x, x ∈ map rule es1 -> exists y, x = rule y /\ y ∈ es1 /\ e_seq y < e_seq e) as Hlt.
  { intros x Hx. apply list_elem_of_In, in_map_iff in Hx as (y & <- & Hy). apply list_elem_of_In in Hy. exists y. split; [done |]. split; [done |]. by eapply sorted_before. }
  assert (has_dup (rule e) (e_seq e) (map rule es1) = false) as ->.
  { unfold has_dup. apply not_true_iff_false. intros (x & Hx & Hp)%existsb_exists. apply list_elem_of_In in Hx. destruct (Hlt x Hx) as (y & -> & Hy & Hlty).
    apply andb_true_iff in Hp as [Hp _]. rewrite same_policy_rule in Hp. specialize (Hd y e). rewrite Hd in Hlty; [lia | | | done]; apply elem_of_app; [by left | right; by left]. }
  f_equal. f_equal. unfold add_entry. change (set_seq (e_seq e) (rule e)) with (rule e). rewrite remove_none.
  - rewrite insert_seq_last; [by rewrite map_app |]. intros x Hx. destruct (Hlt x Hx) as (y & -> & _ & Hy). done.
  - apply list.Forall_forall. intros x Hx. destruct (Hlt x Hx) as (y & -> & _ & Hy). rewrite !rule_seq. apply Z.eqb_neq. lia.
Qed.

(** ** Running the lines *)

Section Run.
Context `{Inet4Laws} `{!Inet4Dotted} (junk : plists -> prefix) (vectors : Z -> list (option (cmd_element func_type))).
Context (Hv : has_plist_commands (vectors CONFIG_NODE)).
Notation m := prefix_master_ipv4.
Notation strict := (cmd_execute_command_strict (run_command junk) term_node vectors).
Notation lines_run s ls s' := (run_lines (run_command junk) term_node vectors (CONFIG_NODE, s) ls (CONFIG_NODE, s')).

Lemma line_runs s A line o : selects (vectors CONFIG_NODE) line o -> reps s A -> op_ok A (o (junk s)) ->
  exists s', strict line (CONFIG_NODE, s) = Ok (CONFIG_NODE, s', (spec_op A (o (junk s))).2) /\ reps s' (spec_op A (o (junk s))).1.
Proof.
  intros (e & argv & Hf & Hd & Ho) R Hok. destruct (op_refines s A (o (junk s)) R Hok) as (s' & Hr & R'). exists s'. split; [| done].
  unfold cmd_execute_command_strict, execute. change (term_node (CONFIG_NODE, s)) with CONFIG_NODE. rewrite Hf, bind_ret, Hd. cbn [Z.eqb negb].
  unfold run_command. cbn [fst snd]. by rewrite Ho, bind_ret, Hr.
Qed.

(** The entries of a list, after some of them. *)
Lemma entries_read nm d es2 : nm <> "sequence-number" -> name_fits nm -> Forall savable es2 -> forall s A es1, entries_wf (es1 ++ es2) -> reps s A ->
  contents_of A m nm = (d, map rule es1) ->
  exists s', lines_run s (map (entry_words nm) es2) s' /\ reps s' (match es2 with [] => A | _ => aset A m nm (d, map rule (es1 ++ es2)) end).
Proof.
  intros Hn Hf. induction es2 as [|e es2 IH]; intros Hs s A es1 Hw R Hc; [exists s; split; [constructor | done] |]. inversion_clear Hs as [| ? ? He Hs'].
  assert (e_seq e <> -1) as He1 by (pose proof (sv_seq e He); lia).
  destruct (line_runs s A (entry_words nm e) (entry_op nm e)) as (s1 & Hx1 & R1); [by apply entry_selected | done | |].
  { split; [by left |]. split; [done |]. intros k [= <-]. unfold seq_fits. cbn [opt_atoi]. rewrite atoi_int_dec by (pose proof (sv_seq e He); lia). done. }
  unfold entry_op in Hx1, R1. cbn [spec_op] in Hx1, R1. rewrite (entry_command e (junk s) He) in Hx1, R1. unfold of_afi in Hx1, R1. change (prefix_master_get AFI_IP) with (Some m) in Hx1, R1.
  cbv iota in Hx1, R1. rewrite (add_next A m nm d es1 e es2 Hw He1 Hc) in Hx1, R1. cbn [fst snd] in Hx1, R1.
  destruct (IH Hs' s1 (aset A m nm (d, map rule (es1 ++ [e]))) (es1 ++ [e])) as (s' & Hx2 & R2); [by rewrite <- app_assoc | exact R1 | by apply contents_Some, aset_lookup |].
  exists s'. split; [by eapply run_line; [exact Hx1 | | exact Hx2] |]. rewrite <- app_assoc in R2. cbn [app] in R2. destruct es2 as [|e' es2]; [done |].
  eapply reps_ext; [| exact R2]. intros k. apply aset_aset.
Qed.

Lemma run_lines_app s ls1 s1 ls2 s2 : lines_run s ls1 s1 -> lines_run s1 ls2 s2 -> lines_run s (ls1 ++ ls2) s2.
Proof.
  generalize (CONFIG_NODE, s), (CONFIG_NODE, s1), (CONFIG_NODE, s2). intros x y z Hr Hr2. induction Hr as [| x l y r ls z' Hs Hd Hr IH]; [done |].
  cbn [app]. eapply run_line; [exact Hs | exact Hd | by apply IH].
Qed.

Definition restore (A : abs) (b : block) : abs := match saved (b_content b) with Some c => aset A m (b_name b) c | None => A end.

(** The lines of a list. *)
Lemma block_read s A b : savable_list (b_name b) (b_content b) -> entries_wf (b_content b).2 -> list_lines (b_name b) (b_content b) (b_lines b) ->
  reps s A -> A m !! b_name b = None -> exists s', lines_run s (b_lines b) s' /\ reps s' (restore A b).
Proof.
  destruct b as [nm [d es] ls]. cbn [b_name b_content b_lines]. intros Hs Hw Hl R Ha. unfold restore. cbn [b_content b_name].
  assert (contents_of A m nm = (None, [])) as Hc by (unfold contents_of; by rewrite Ha). unfold list_lines in Hl. cbn [fst snd] in *.
  pose proof (sl_entries _ _ Hs) as He. cbn [snd] in He. destruct d as [d|].
  - destruct Hl as (ws & -> & Hws & _ & Hlen & ->).
    destruct (line_runs s A (desc_words nm ws) (desc_op nm ws)) as (s1 & Hx1 & R1); [apply desc_selected; [done | by apply Hs | done | done] | done | |].
    { split; [by exists m |]. apply Hs. }
    unfold desc_op in Hx1, R1. cbn [spec_op] in Hx1, R1. unfold of_afi in Hx1, R1. change (prefix_master_get AFI_IP) with (Some m) in Hx1, R1. cbv iota in Hx1, R1. rewrite Hc in Hx1, R1. cbn [fst snd] in Hx1, R1.
    destruct (entries_read nm (Some (concat_words ws)) es (sl_name _ _ Hs) (sl_fits _ _ Hs) He s1 _ [] Hw R1) as (s' & Hx2 & R2); [by apply contents_Some, aset_lookup |].
    exists s'. split; [by eapply run_line; [exact Hx1 | done | exact Hx2] |]. cbn [saved app] in *. destruct es as [|e es]; [done |]. eapply reps_ext; [| exact R2]. intros k. apply aset_aset.
  - subst ls. destruct (entries_read nm None es (sl_name _ _ Hs) (sl_fits _ _ Hs) He s A [] Hw R Hc) as (s' & Hx2 & R2). exists s'. split; [done |]. by destruct es.
Qed.

Lemma blocks_read bs : Forall (fun b => savable_list (b_name b) (b_content b) /\ entries_wf (b_content b).2 /\ list_lines (b_name b) (b_content b) (b_lines b)) bs ->
  NoDup (map b_name bs) -> forall s A, reps s A -> (forall b, b ∈ bs -> A m !! b_name b = None) ->
  exists s', lines_run s (flat_map b_lines bs) s' /\ reps s' (foldl restore A bs).
Proof.
  induction bs as [|b bs IH]; intros Hb Hd s A R Ha; [exists s; split; [constructor | done] |]. inversion_clear Hb as [| ? ? (Hs & Hw & Hl) Hb']. apply NoDup_cons in Hd as [Hd1 Hd2].
  destruct (block_read s A b Hs Hw Hl R) as (s1 & Hx1 & R1); [apply Ha; by left |].
  destruct (IH Hb' Hd2 s1 (restore A b) R1) as (s' & Hx2 & R2).
  { intros b' Hb2. assert (b_name b' <> b_name b) as Hne.
    { intros E. apply Hd1. rewrite <- E. apply list_elem_of_In, in_map, list_elem_of_In, Hb2. }
    unfold restore, aset. destruct (saved (b_content b)); [| by apply Ha; right]. rewrite decide_True, lookup_insert_ne by done. by apply Ha; right. }
  exists s'. split; [by eapply run_lines_app |]. done.
Qed.
End Run.
