(* ===== verification/PlistConfigClaims.v ===== *)
(** * lib/plist.c: the saved configuration

    Writing the prefix lists of a daemon and reading the text into an empty one gives the same rules back; an entry whose sequence number does not fit [int] is the
    exception: it is written with a negative number, which the reader refuses. *)

From Stdlib Require Import Ascii.
From S2P Require Import Prelude CString Prefix Inet PrefixText DList Plist PlistCmd PlistRep PlistRefine PlistOps PlistRules Command CommandProofs CommandConfig PlistConfig PlistConfigWords PlistConfigText PlistConfigRead.
Local Open Scope Z_scope.

(** What a daemon has after it read the saved lists of IPv4. *)
Definition saved_abs (A : abs) : abs := fun k => if decide (k = prefix_master_ipv4) then omap saved (A k) else ∅.

Section Saved.
Context `{Inet4Laws} `{!Inet4Dotted}.
Notation m := prefix_master_ipv4.

Lemma restore_other A bs k : k <> m -> foldl restore A bs k = A k.
Proof.
  intros Hk. revert A. induction bs as [|b bs IH]; intros A; cbn [foldl]; [done |]. rewrite IH. unfold restore, aset. destruct (saved _); [| done]. by rewrite decide_False.
Qed.

Lemma restore_lookup bs nm : NoDup (map b_name bs) -> forall A,
  foldl restore A bs m !! nm = match List.find (fun b => bool_decide (b_name b = nm)) bs with
                               | Some b => match saved (b_content b) with Some c => Some c | None => A m !! nm end
                               | None => A m !! nm
                               end.
Proof.
  induction bs as [|b bs IH]; intros Hd A; [done |]. apply NoDup_cons in Hd as [Hd1 Hd2]. cbn [foldl List.find]. rewrite (IH Hd2).
  case_bool_decide as E.
  - assert (List.find (fun b => bool_decide (b_name b = nm)) bs = None) as ->.
    { apply find_false. intros b' Hb. apply bool_decide_eq_false. intros E'. apply Hd1. rewrite E, <- E'. apply list_elem_of_In, in_map, list_elem_of_In, Hb. }
    unfold restore, aset. destruct (saved (b_content b)); [| done]. rewrite decide_True by done. by rewrite E, lookup_insert_eq.
  - assert (restore A b m !! nm = A m !! nm) as ->; [| done]. unfold restore, aset. destruct (saved (b_content b)); [| done]. rewrite decide_True by done. by rewrite lookup_insert_ne.
Qed.

Lemma blocks_saved A bs : Forall (block_of A m) bs -> NoDup (map b_name bs) -> (forall nm c, A m !! nm = Some c -> nm ∈ map b_name bs) ->
  forall k, foldl restore no_lists bs k = saved_abs A k.
Proof.
  intros Hb Hd Hall k. unfold saved_abs. destruct (decide (k = m)) as [-> | Hk]; [| by rewrite restore_other]. apply map_eq. intros nm. rewrite (restore_lookup bs nm Hd), lookup_omap.
  change (no_lists m !! nm) with (None : option (option string * list entry)). destruct (List.find _ bs) as [b|] eqn:E.
  - apply find_some in E as [Hi E%bool_decide_eq_true]. rewrite List.Forall_forall in Hb. destruct (Hb b Hi) as [Ha _]. rewrite E in Ha. rewrite Ha. cbn. by destruct (saved _).
  - destruct (A m !! nm) as [c|] eqn:Ha; [| done]. exfalso. apply Hall in Ha. apply list_elem_of_In, in_map_iff in Ha as (b & En & Hi).
    apply (find_none _ _ E) in Hi. by rewrite bool_decide_eq_false in Hi.
Qed.

Lemma text_of_length ls : Forall readable ls -> (List.length ls <= String.length (text_of ls))%nat.
Proof.
  induction 1 as [| l ls Hl Hls IH]; [done |]. cbn [text_of List.length]. rewrite length_sapp. destruct l as [|w l]; [by destruct Hl as (_ & [] & _) |]. rewrite line_of_length. cbn. lia.
Qed.

Lemma block_readable A b : savable_list (b_name b) (b_content b) -> block_of A m b -> Forall readable (b_lines b).
Proof.
  destruct b as [nm [d es] ls]. cbn [b_name b_content b_lines]. intros Hs [_ Hl]. unfold list_lines in Hl. cbn [fst snd b_name b_content b_lines] in Hl.
  assert (Forall readable (map (entry_words nm) es)) as He.
  { apply List.Forall_forall. intros l (e & <- & He)%in_map_iff. pose proof (sl_entries _ _ Hs) as Hse. rewrite List.Forall_forall in Hse.
    apply entry_readable; [by apply Hs | by apply Hs | by apply Hse]. }
  destruct d as [d|]; [| by subst]. destruct Hl as (ws & Ed & Hws & Hw & _ & ->). constructor; [| done].
  pose proof (sl_desc _ _ Hs) as Hsd. cbn [fst] in Hsd. destruct Hsd as (_ & _ & _ & _ & _ & Hlen). rewrite Ed in Hlen. apply desc_readable; [by apply Hs | done ..].
Qed.

Lemma config_restored s A junk vectors : reps s A -> abs_wf A -> (forall nm c, A m !! nm = Some c -> savable_list nm c) -> seqnum (masters s m) <> 0 ->
  has_plist_commands (vectors CONFIG_NODE) ->
  exists text n, config_write_prefix_afi s AFI_IP = Ok (text, n) /\
    forall fuel, (String.length text <= fuel)%nat -> exists s',
      config_from_file (run_command junk) term_node set_term_node vectors fuel (CONFIG_NODE, plists_init) text = Ok (CONFIG_NODE, s', 0) /\ reps s' (saved_abs A).
Proof.
  intros R W Hs Hn Hv. destruct (config_text s A R Hs Hn) as (bs & n & Hw & Hb & Hd & Hall). eexists _, n. split; [exact Hw |]. intros fuel Hf.
  assert (forall b, b ∈ bs -> savable_list (b_name b) (b_content b) /\ block_of A m b) as Hbs.
  { intros b Hi. rewrite list.Forall_forall in Hb. pose proof (Hb b Hi) as Hx. split; [by apply Hs, Hx | done]. }
  destruct (blocks_read junk vectors Hv bs) with (s := plists_init) (A := no_lists) as (s' & Hr & R').
  - apply list.Forall_forall. intros b Hi. destruct (Hbs b Hi) as [H1' [H2' H3']]. split; [done |]. split; [| done]. destruct (b_content b) as [d es] eqn:Ec. by eapply W.
  - done.
  - exists (fun _ _ => []), (fun _ => []). apply rep_init.
  - done.
  - assert (Forall readable (flat_map b_lines bs)) as Hrd.
    { apply List.Forall_forall. intros l (b & Hi & Hl)%in_flat_map. destruct (Hbs b) as [H1' H2']; [by apply list_elem_of_In |].
      pose proof (block_readable A b H1' H2') as Hx. rewrite List.Forall_forall in Hx. by apply Hx. }
    exists s'. split; [| by eapply reps_ext; [by apply blocks_saved | exact R']]. apply from_file_lines; [done | done |]. pose proof (text_of_length _ Hrd). lia.
Qed.

Lemma verdict_rules es p : verdict (map rule es) p = verdict es p.
Proof.
  unfold verdict. destruct es as [|e es]; [done |]. cbn [map]. change (rule e :: map rule es) with (map rule (e :: es)). generalize (e :: es). intros l.
  assert (List.find (fun e => prefix_list_entry_match e p) (map rule l) = rule <$> List.find (fun e => prefix_list_entry_match e p) l) as ->.
  { induction l as [|x l IH]; [done |]. cbn [map List.find]. change (prefix_list_entry_match (rule x) p) with (prefix_list_entry_match x p). by destruct (prefix_list_entry_match x p). }
  by destruct (List.find _ l).
Qed.

Lemma same_verdict s s' A nm p : reps s A -> reps s' (saved_abs A) -> A m !! nm <> Some (None, []) ->
  exists s1 s1' r, run_op s (Verdict AFI_IP nm p) = Ok (s1, r) /\ run_op s' (Verdict AFI_IP nm p) = Ok (s1', r).
Proof.
  intros R R' Hn. destruct (op_refines s A (Verdict AFI_IP nm p) R I) as (s1 & E1 & _). destruct (op_refines s' (saved_abs A) (Verdict AFI_IP nm p) R' I) as (s1' & E1' & _).
  exists s1, s1', (spec_op A (Verdict AFI_IP nm p)).2. split; [done |]. rewrite E1'. f_equal. f_equal. cbn [spec_op]. change (prefix_master_get AFI_IP) with (Some m). cbv iota.
  unfold saved_abs at 1. rewrite decide_True, lookup_omap by done. destruct (A m !! nm) as [[d es]|]; [| done]. cbn.
  destruct d as [d|], es as [|e es]; try done; cbn [saved]; by rewrite <- (verdict_rules (e :: es)).
Qed.

(** C17: the saved configuration restores the IPv4 prefix lists that can be saved: after any history of calls whose automatic numbers and
    list names do not overflow, when sequence numbers are on and every IPv4 list is savable ([savable_list]: sequence numbers from 1 to
    INT_MAX, a name and description made of words that the reader splits again, lines that fit the buffer), [config_write_prefix_afi] writes
    a text that [config_from_file] reads without an error in a daemon without lists, whatever other commands its configuration node has and
    in whatever order; the daemon then has the same names, descriptions and rules in the same order, with counters at zero, and decides
    every prefix as before, for every list but those without rules and description, which are not saved. Lists with larger numbers are accepted and not restored (theorem [plist_seq_unreadable]). *)
Theorem plist_config_roundtrip os s rs junk vectors :
  run_ops plists_init os = Ok (s, rs) -> ops_ok no_lists os ->
  (forall nm c, (spec_ops no_lists os).1 m !! nm = Some c -> savable_list nm c) -> seqnum (masters s m) <> 0 -> has_plist_commands (vectors CONFIG_NODE) ->
  exists text n, config_write_prefix_afi s AFI_IP = Ok (text, n) /\
    forall fuel, (String.length text <= fuel)%nat -> exists s',
      config_from_file (run_command junk) term_node set_term_node vectors fuel (CONFIG_NODE, plists_init) text = Ok (CONFIG_NODE, s', CMD_SUCCESS) /\
      reps s' (saved_abs (spec_ops no_lists os).1) /\
      forall nm p, (spec_ops no_lists os).1 m !! nm <> Some (None, []) ->
        exists s1 s1' r, run_op s (Verdict AFI_IP nm p) = Ok (s1, r) /\ run_op s' (Verdict AFI_IP nm p) = Ok (s1', r).
Proof.
  intros Hr Hok Hs Hn Hv. destruct (ops_refine plists_init no_lists os) as (s0 & Hr0 & R); [exists (fun _ _ => []), (fun _ => []); apply rep_init | done |].
  rewrite Hr in Hr0. injection Hr0 as -> ->. assert (abs_wf (spec_ops no_lists os).1) as W by (apply spec_ops_wf; intros k nm d es; unfold no_lists; by rewrite lookup_empty).
  destruct (config_restored s0 _ junk vectors R W Hs Hn Hv) as (text & n & Hw & Hf). exists text, n. split; [done |]. intros fuel Hl. destruct (Hf fuel Hl) as (s' & Hc & R').
  exists s'. split; [done |]. split; [done |]. intros nm p. by apply same_verdict.
Qed.

(** ** Sequence numbers beyond [int] *)

Lemma atoi_int_wraps n : 2 ^ 31 <= n < 2 ^ 32 -> atoi_int (dec n) = n - 2 ^ 32.
Proof. intros Hn. unfold atoi_int. rewrite atoi_dec by lia. unfold signed. rewrite wrap_small by (unfold in_u; lia). destruct (Z.ltb_spec n (2 ^ (32 - 1))); lia. Qed.

Definition any_words (nm n : string) : list string := ["ip"; "prefix-list"; nm; "seq"; n; "permit"; "any"].

Lemma any_selected v nm n : has_plist_commands v -> nm <> "sequence-number" -> 1 <= n < 2 ^ 32 ->
  selects v (any_words nm (dec n)) (fun junk => Install AFI_IP nm (Some (dec n)) "permit" "any" None None junk).
Proof.
  intros Hv Hn Hs. exists (element_of ip_prefix_list_seq_cmd), [nm; dec n; "permit"; "any"]. split.
  - apply (plist_select _ _ ["x"; "seq"; "5"; "permit"; "any"]); [done | | vm_compute; reflexivity | cbv -[dec]; reflexivity].
    apply al_name; [done |]. apply al_same, al_seq; [done |]. do 2 apply al_same. apply al_nil.
  - by split.
Qed.

Lemma negative_refused v nm k rest : has_plist_commands v -> nm <> "sequence-number" -> 1 <= k <= 2 ^ 31 ->
  find_command cmd_filter_by_string (["ip"; "prefix-list"; nm; "seq"; String "-" (dec k)] ++ rest) v = Ok (inl CMD_ERR_NO_MATCH).
Proof.
  intros Hv Hn Hk. apply (plist_none v [nm; "seq"; String "-" (dec k)] ["x"; "seq"; "-5"] 5 no_match rest Hv); [| vm_compute; reflexivity | done].
  apply al_name; [done |]. apply al_same, al_negative; [done |]. apply al_nil.
Qed.

(** A written line that no command fits ends the reading. *)
Lemma from_file_refused junk vectors fuel ws s text : readable ws -> find_command cmd_filter_by_string ws (vectors CONFIG_NODE) = Ok (inl CMD_ERR_NO_MATCH) ->
  config_from_file (run_command junk) term_node set_term_node vectors (S fuel) (CONFIG_NODE, s) (sapp (line_of ws) text) = Ok (CONFIG_NODE, s, CMD_ERR_NO_MATCH).
Proof.
  intros (Hw & Hc & Hl) Hf. destruct ws as [|w ws]; [done |]. cbn [config_from_file]. rewrite fgets_line, cmd_make_strvec_line, bind_ret by done.
  assert (cmd_execute_command_strict (run_command junk) term_node vectors (w :: ws) (CONFIG_NODE, s) = Ok (CONFIG_NODE, s, CMD_ERR_NO_MATCH)) as ->.
  { unfold cmd_execute_command_strict, execute. change (term_node (CONFIG_NODE, s)) with CONFIG_NODE. by rewrite Hf. }
  done.
Qed.

(** C37: a sequence number of 2147483648 or more, which the syntax of the command allows, makes a configuration that cannot be read: the command
    [ip prefix-list NAME seq N permit any] is accepted and stores the number as a negative [int], [config_write_prefix_afi] writes that, and [config_from_file] refuses the line with [CMD_ERR_NO_MATCH],
    after which the rest of the file is not read. *)
Theorem plist_seq_unreadable nm n junk vectors s text fuel :
  2 ^ 31 <= n < 2 ^ 32 - 1 -> is_word nm = true -> nm <> "sequence-number" -> (String.length nm < 400)%nat -> has_plist_commands (vectors CONFIG_NODE) ->
  selects (vectors CONFIG_NODE) (any_words nm (dec n)) (fun junk => Install AFI_IP nm (Some (dec n)) "permit" "any" None None junk) /\
  exists e line, command_entry AFI_IP (Some (dec n)) "permit" "any" None None (junk s) = Some e /\ e_seq e = n - 2 ^ 32 /\ write_entry AFI_IP 1 nm e = Ok line /\
    config_from_file (run_command junk) term_node set_term_node vectors (S fuel) (CONFIG_NODE, s) (sapp line text) = Ok (CONFIG_NODE, s, CMD_ERR_NO_MATCH).
Proof.
  intros Hn Hw Hnm Hlen Hv. split; [apply any_selected; [done | done | lia] |]. set (e := mk_entry (n - 2 ^ 32) 32 0 PREFIX_PERMIT 1 any_prefix 0 0).
  exists e, (line_of (any_words nm (String "-" (dec (2 ^ 32 - n))))). split.
  - unfold command_entry. change (filter_type "permit") with (Some PREFIX_PERMIT). unfold prefix_arg. change (AFI_IP =? AFI_IP) with true. change (strncmp "any" "any" (String.length "any") =? 0) with true. cbn match.
    change "0.0.0.0/0"%string with (prefix_text 0 0 0 0 0). destruct (read_prefix 0 0 0 0 0 (junk s)) as (p & -> & Epl & _ & Ec); [unfold byte_ok; lia .. |].
    cbn [opt_atoi Z.leb Z.compare orb]. rewrite Epl. change (invalid_range 0 0 IPV4_MAX_BITLEN) with false. cbn match. unfold made. rewrite Ec, atoi_int_wraps by lia. reflexivity.
  - split; [done |]. split.
    + unfold write_entry. cbn [e_any e_type e_seq e negb Z.eqb]. rewrite bind_ret. unfold sdec. destruct (Z.ltb_spec (n - 2 ^ 32) 0); [| lia]. replace (- (n - 2 ^ 32)) with (2 ^ 32 - n) by lia.
      f_equal. unfold any_words. cbn [line_of concat_texts sapp prefix_list_type_str e_type e]. unfold newline, VTY_NEWLINE. change (afi_str AFI_IP) with "". repeat (rewrite ?sapp_assoc; cbn [sapp]). reflexivity.
    + apply from_file_refused; [| by apply (negative_refused _ _ _ ["permit"; "any"]); [done | done | lia]]. unfold readable, any_words. rewrite line_of_length. split; [| split; [done |]].
      * repeat (apply List.Forall_cons; [try done |]); [| apply List.Forall_nil]. pose proof (dec_word (2 ^ 32 - n) ltac:(lia)) as Hd. unfold is_word in *. cbn [no_spaces is_end]. by apply andb_true_iff in Hd as [-> _].
      * pose proof (dec_short (2 ^ 32 - n)). unfold VTY_BUFSIZ. cbn [words_length String.length]. lia.
Qed.
End Saved.

(** ** Example *)

Definition ex_saved_ops : list op :=
  [Description AFI_IP "net" (Some "to customers"); Install AFI_IP "net" (Some "5") "permit" "10.1.0.0/16" (Some "20") (Some "24") prefix_new;
   Install AFI_IP "7" (Some "10") "deny" "any" None None prefix_new].
Definition ex_saved_state : plists := match run_ops plists_init ex_saved_ops with Ok (s, _) => s | _ => plists_init end.
Definition ex_vectors (n : Z) : list (option (cmd_element func_type)) := if n =? CONFIG_NODE then map (fun c => Some (element_of c)) config_commands_ipv4 else [].

Definition ex_rule1 : entry := mk_entry 5 24 20 PREFIX_PERMIT 0 (mk_prefix AF_INET 16 [10; 1; 0; 0; 0; 0; 0; 0; 0; 0; 0; 0; 0; 0; 0; 0]) 0 0.
Definition ex_rule2 : entry := mk_entry 10 32 0 PREFIX_DENY 1 any_prefix 0 0.

Lemma ex_saved_runs : run_ops plists_init ex_saved_ops = Ok (ex_saved_state, [0; 0; 0]).
Proof. vm_compute. reflexivity. Qed.
Lemma ex_saved_seqnum : seqnum (masters ex_saved_state prefix_master_ipv4) = 1.
Proof. vm_compute. reflexivity. Qed.
Lemma ex_saved_ok : ops_ok no_lists ex_saved_ops.
Proof.
  split; [split; [by eexists | by eexists] |]. split; [| split; [| exact I]]; (split; [by left |]); (split; [by eexists |]); intros k _ Hs; vm_compute in Hs; discriminate Hs.
Qed.
Lemma ex_saved_contents : (spec_ops no_lists ex_saved_ops).1 prefix_master_ipv4 = <["net" := (Some "to customers", [ex_rule1])]> (<["7" := (None, [ex_rule2])]> ∅).
Proof. vm_compute. reflexivity. Qed.

Lemma ex_rule1_savable : savable ex_rule1.
Proof.
  split; cbn; [unfold INT_MAX; lia | | lia | lia | reflexivity | lia | by left]. exists 10, 1, 0, 0, 16. unfold byte_ok. split; [reflexivity | lia].
Qed.
Lemma ex_rule2_savable : savable ex_rule2.
Proof.
  split; cbn; [unfold INT_MAX; lia | | lia | lia | reflexivity | lia | by right]. exists 0, 0, 0, 0, 0. unfold byte_ok. split; [reflexivity | lia].
Qed.
Lemma ex_savable nm c : (spec_ops no_lists ex_saved_ops).1 prefix_master_ipv4 !! nm = Some c -> savable_list nm c.
Proof.
  rewrite ex_saved_contents, !lookup_insert_Some, lookup_empty. intros [[<- <-] | [_ [[<- <-] | [_ ?]]]]; [| | done].
  - split; cbn; [done | done | by eexists | lia | | repeat constructor; apply ex_rule1_savable]. exists ["to"; "customers"]. split; [done |]. split; [done |]. split; [by repeat constructor |]. cbn. lia.
  - split; cbn; [done | done | by eexists | lia | done | repeat constructor; apply ex_rule2_savable].
Qed.
Lemma ex_vectors_ok : has_plist_commands (ex_vectors CONFIG_NODE).
Proof. exists []. split; [| constructor]. rewrite app_nil_r. vm_compute. reflexivity. Qed.

#[local] Opaque ex_saved_state ex_vectors.

Lemma plist_config_roundtrip_witness :
  exists text n, config_write_prefix_afi ex_saved_state AFI_IP = Ok (text, n) /\
    forall fuel, (String.length text <= fuel)%nat -> exists s',
      config_from_file (run_command (fun _ => prefix_new)) term_node set_term_node ex_vectors fuel (CONFIG_NODE, plists_init) text = Ok (CONFIG_NODE, s', CMD_SUCCESS) /\
      reps s' (saved_abs (spec_ops no_lists ex_saved_ops).1) /\
      forall nm p, (spec_ops no_lists ex_saved_ops).1 prefix_master_ipv4 !! nm <> Some (None, []) ->
        exists s1 s1' r, run_op ex_saved_state (Verdict AFI_IP nm p) = Ok (s1, r) /\ run_op s' (Verdict AFI_IP nm p) = Ok (s1', r).
Proof.
  apply (plist_config_roundtrip ex_saved_ops ex_saved_state [0; 0; 0] (fun _ => prefix_new) ex_vectors ex_saved_runs ex_saved_ok ex_savable).
  - rewrite ex_saved_seqnum. discriminate.
  - exact ex_vectors_ok.
Defined.

Lemma plist_seq_unreadable_witness :
  selects (ex_vectors CONFIG_NODE) (any_words "net" (dec 3000000000)) (fun junk => Install AFI_IP "net" (Some (dec 3000000000)) "permit" "any" None None junk) /\
  exists e line, command_entry AFI_IP (Some (dec 3000000000)) "permit" "any" None None prefix_new = Some e /\ e_seq e = 3000000000 - 2 ^ 32 /\ write_entry AFI_IP 1 "net" e = Ok line /\
    config_from_file (run_command (fun _ => prefix_new)) term_node set_term_node ex_vectors 1 (CONFIG_NODE, plists_init) (sapp line "") = Ok (CONFIG_NODE, plists_init, CMD_ERR_NO_MATCH).
Proof.
  apply (plist_seq_unreadable "net" 3000000000 (fun _ => prefix_new) ex_vectors plists_init "" 0).
  - lia.
  - reflexivity.
  - discriminate.
  - cbn. lia.
  - exact ex_vectors_ok.
Defined.
